(* ===== verification/_CoqProject ===== *)
-Q . S2P
Prelude.v
IgmpPool.v
IgmpTable.v
IgmpReport.v
IgmpInvariant.v
IgmpView.v
IgmpUnique.v
IgmpSemantics.v
IgmpPolicy.v
IgmpTimer.v
SpiNand.v
SpiNandSpec.v
SpiNandFlash.v
Watchdog.v
WatchdogSpec.v
Gpio.v
GpioSpec.v
DnsTrap.v
DnsTrapSpec.v
IgmpFlow.v
IgmpFlowSpec.v
IgmpFlowOps.v
IgmpForward.v
IgmpForwardSpec.v
IgmpCoherence.v
IgmpAging.v
IgmpDataPlane.v
IgmpBlack.v
IgmpBlackSpec.v
IgmpPacket.v
IgmpPacketSpec.v
FcLut.v
FcLutInv.v
FcLutOps.v
FcLutUnique.v
FcLutSmall.v
FcLutSpec.v
FcChecksum.v
FcChecksumSpec.v
FcRewrite.v
FcRewriteSpec.v
FcTags.v
FcTagsSpec.v
FcLists.v
FcFrag.v
FcFragSpec.v
ShaperRing.v
FcShaper.v
FcShaperSpec.v
RomeShaper.v
RomeShaperSpec.v
FcAckDelay.v
FcAckDelaySpec.v
FcFlowKey.v
FcFlowKeySpec.v
FcFlowSide.v
FcFlowSideSpec.v
FcFlow.v
FcFlowAdd.v
FcFlowFlush.v
FcFlowInv.v
FcFlowSmall.v
FcFlowFind.v
FcFlowSteps.v
FcFlowSafe.v
FcFlowFound.v
FcFlowAge.v
FcFlowExact.v
FcFlowMeant.v
FcFlowSpec.v
FcFlowCases.v
FcHash.v
FcHashSpec.v
FcSearch.v
FcSearchSpec.v
RomeFlow.v
RomeFlowSpec.v
