(* ===== verification/Prelude.v ===== *)
(** * A verification library for the RTL9607C board support package

    The repository is a board support overlay for a Linux kernel on the Realtek
    RTL9607C, a four-core big-endian MIPS router chip: platform code under
    [arch/mips/rtl9607c], the drivers of the board, and the vendor's networking
    modules.  This library models the parts that carry logic of their own and that
    the sources define completely, and proves what makes them correct.  Paths below
    are relative to [src/overlay].

    ** Parts and files

    - [Prelude] (this file): machine integers, C arrays as lists, list and bit
      lemmas, the tactics [bool_to_prop] and [by_compute], the hint database
      [phoebus].

    - IGMP/MLD snooping, [drivers/net/ethernet/realtek/rtl86900/igmpHookModule/
      rtk_igmp_snooping.c], the largest part.  It keeps, per bridge, the multicast
      groups, the clients of each group and the sources each client asked for, from
      the reports it overhears, and ages them.
        - [IgmpPool]: the static entry arrays with their free lists and the doubly
          linked lists threaded through them ([rtk_igmp_initSourceEntryPool],
          [allocate], [link], [unlink], [delete], for clients and sources alike).
          Pointers are indices, a dangling or crossed pointer is representable.
        - [IgmpTable]: the group hash tables as lists of lists and the operations
          on groups, clients and sources; entries taken from the pools are counted.
        - [IgmpReport]: the handlers [rtk_igmp_processJoin], [processLeave] and the
          six record types of IGMPv3/MLDv2, written with a small monad that stops at
          a handler's early returns; the flow-table refreshes are logged events.
        - [IgmpInvariant], [IgmpView], [IgmpUnique]: the invariant of the database
          and its preservation, the client a report is about, one entry per group
          and client.
        - [IgmpSemantics]: what each report does to the database.
        - [IgmpPolicy]: white list ([rtk_igmp_whiteListAdd], [whiteListDel_byIdx],
          [filterWhiteListCheck]) and limits ([rtk_igmp_group_limitCheck]).
        - [IgmpTimer]: the aging sweep, the clock, the rate limiter.
        - [IgmpFlow], [IgmpFlowSpec], [IgmpFlowOps]: the cache of multicast flows:
          entry pool and hash chains, record, recycle, invalidate, with the calls to
          the hardware as a log; the invariant of the table and what each operation
          does to it.
        - [IgmpForward], [IgmpForwardSpec]: the decision for a data packet
          ([rtk_igmp_getMulticastDataFwdInfo]), with the cache, floods, the wireless
          trap and combined bridges, the refresh of the flows of a group
          ([rtk_igmp_flow_reflush_update]) and the aging of flows.  [with_flows] runs
          a handler and then the refreshes it asked for.
        - [IgmpCoherence], [IgmpDataPlane]: the whole snooper as a step relation
          (reports, packets, sweeps), and that cached and fresh decisions agree.
        - [IgmpBlack], [IgmpBlackSpec]: the black list, its reference counts, its
          check and its effect on the database.
        - [IgmpPacket], [IgmpPacketSpec]: [rtk_igmp_mld_process], the filters in front
          of the handlers, and the walk over the records of a report in memory.

    - The layer-2 table of the flow cache, [drivers/net/ethernet/realtek/rtl86900/
      FleetConntrackDriver/core/rtk_fc_internal.c]: learned addresses, shadowing the
      table of the switch.
        - [FcLut]: data and operations, over the classes [LutConfig] (constants,
          settings, questions to the kernel) and [L2Hw] (the switch): pool, hash, CAM
          lists, add, delete, RCU callback, search, eviction, learning, counters,
          house keeping, and a run of such operations.
        - [FcLutInv], [FcLutOps], [FcLutUnique]: the invariant, what each operation
          does to it, and that no address is in the table twice; the assumptions are
          the class [LutLaws].
        - [FcLutSmall], [FcLutSpec]: a small switch that satisfies them; the theorems,
          and runs that show where the code fails.

    - The flow table of the flow cache, in the same file: what is to be done with the
      packets of a flow, in the ways of a hash bucket, in a TCAM, or in software only.
        - [FcFlowKey], [FcFlowKeySpec]: entries and flows, when a packet's entry matches one
          of the table ([_rtk_fc_flow_matchOrNot] and relatives), over the class
          [FlowChecks] of the switch's settings; the key that matching compares.
        - [FcFlowSide], [FcFlowSideSpec]: the tables of NAT loopback, of VLANs and of the
          flows of a connection ([rtk_fc_flow_info_*], [rtk_fc_ct_hash_info_*]).
        - [FcFlow], [FcFlowAdd], [FcFlowFlush]: the table over the class [FlowEnv] (sizes,
          settings, macros of headers, the switch, connections): its lists, deleting, the
          choice of an entry, adding, the house keeping, the walks that delete flows.
        - [FcFlowInv]: the invariant and that adding and deleting keep it, with the laws
          [FlowLaws] of the environment; [FcFlowSmall]: a small environment that has them.
        - [FcFlowFind], [FcFlowSteps], [FcFlowSafe], [FcFlowFound], [FcFlowAge],
          [FcFlowExact]: the search for an entry, what the steps do to the table, to static
          flows, to a flow that was added, to an idle flow, and which flows the walks take.
        - [FcFlowSpec], [FcFlowCases]: the theorems, and runs that show where the code
          fails.
        - [FcHash], [FcHashSpec]: what the driver knows of a packet, and the hash of an
          entry and of a packet ([_rtk_fc_flow_hashIndex] and relatives), over the class
          [FlowHashEnv]; hashes name buckets ([FlowHashLaws]: the shape of the table).
        - [FcSearch], [FcSearchSpec]: when a packet is of a flow, and the search by packet
          ([rtk_fc_flow_searchByIngressPktHdr]), over the class [FlowSearchEnv].

    - What the flow cache does to the bytes of a packet, in the same file.
        - [FcChecksum], [FcChecksumSpec]: sums over a buffer and incremental updates
          ([_rtk_rg_standard_chksum], [_rtk_fc_L3ChecksumDiff_update] and relatives),
          as arithmetic modulo 65535.
        - [FcRewrite], [FcRewriteSpec]: the changes [_rtk_fc_flowModifyAndDirTx] makes
          to headers of layers 3 and 4 ([modify_headers]) and those of flows kept in
          software; that receivers accept the result.
        - [FcTags], [FcTagsSpec]: VLAN and PPPoE tags put into and taken out of an
          skb ([_rtk_fc_swPktHdrModify], [rtk_fc_abstrSwPktHdrModify]), over the
          class [SkbOps] of the kernel's buffer operations; the refinement of frames.

    - Packets the flow cache keeps for a while, in the same file.
        - [FcLists]: entries that move between a free list and hash chains (also those of
          the flow table).
        - [FcFrag], [FcFragSpec]: the fragment caches (free list, chains, timers, over
          the class [FragConfig] of the settings).
        - [ShaperRing], [FcShaper], [FcShaperSpec]: the software shaper: meters, the rings
          of packets that wait, the timer that sends them ([rtk_fc_sw_shaper], over the
          class [ShaperConfig]).
        - [FcAckDelay], [FcAckDelaySpec]: delayed TCP acknowledgements
          ([_rtk_fc_ackDelay_check], over the class [AckConfig]).

    - The shaper of the older driver, [romeDriver/rtk_rg_apollo_liteRomeDriver.c], with the
      same rings: [RomeShaper], [RomeShaperSpec].  And its hash and comparisons of flows,
      over the class [RomeFlowEnv], with what they have in common with those of the flow
      cache: [RomeFlow], [RomeFlowSpec].

    - The read-only SPI-NAND driver, [drivers/mtd/rtl9607c-spinand-ro.c].
        - [SpiNand]: every function at the level of register accesses, in a state
          monad over an abstract controller (class [Controller]).
        - [SpiNandSpec]: guarantees that hold for every controller.
        - [SpiNandFlash]: the interface [FlashChip] a working chip offers, raw reads
          proved against it, and a simulated chip that implements it.

    - The watchdog, [arch/mips/rtl9607c/luna_watchdog.c]: [Watchdog] (threads as
      interleaved atomic actions, control register, thread start and stop) and
      [WatchdogSpec].

    - The GPIO controller, [drivers/gpio/gpio-rtk-soc.c]: [Gpio] (pins, interrupt
      chip, interrupt handler, banks, over the class [GpioHal] of the vendor's pin
      layer) and [GpioSpec] (the laws [GpioLaws] and what follows from them).

    - The DNS trap, [drivers/net/ethernet/realtek/rtk_dns_trap.c]: [DnsTrap] (packets
      as byte lists with checked accesses) and [DnsTrapSpec].

    Inside the snooper a packet goes through the filters and the black list to a
    handler, the handler changes the database and emits events, and the events refresh
    the flow cache, which asks the decision again; data packets ask the decision, which
    reads the database and fills the cache.  The other parts meet only in the kernel.
    The files depend on each other along the components they model and on this one.

    ** What the theorems show

    Entry pools: the pointer operations implement operations on lists, and every
    entry is always in exactly one list (C1, C2).
    Snooping database: every handler and every packet keeps the invariant
    (C3, C4); reports make and end membership
    (C10).
    Data plane: a packet goes to exactly its receivers, cached answers are those of a
    fresh decision, a client that joined receives (C5 to
    C8); these assume bridges that are not combined and no limiter on
    unknown multicast, reports that reach their refresh, and speak of the time between
    two ticks of the clock.  Packets: the walk decodes what the
    wire format encodes, and only admitted packets are learned (C9,
    C11).
    Layer-2 table: it stays sound under every sequence of operations, searches are
    exact, what was learned is found, deletion terminates,
    idle addresses age out (C12 to C16).
    Flow table: it stays sound under every sequence of operations, what was added is found
    again, also by a packet of it, the search by packet is the first match of the bucket, a
    new flow gets a free entry or that of the flow that has been idle longest, deletions
    take exactly the flows they name, idle flows age out and static ones stay, matching is
    equality of keys (C17 to C25).  The two drivers
    match alike, their hashes agree unless a sum carries, and hashes stay within the table
    (C26 to C28).
    Header rewriting: packets with right checksums leave with right ones, translation
    is undone by the flow of the other direction (C29,
    C30).  Tags: the buffer holds the frame the flow asks for
    (C31).
    Fragments: the cache stays sound, later fragments get the ports of the first one
    (C32, C33).
    Shapers: the rings are queues, meters keep their rate, a late timer divides by zero
    (C34 to C36).
    Acknowledgements: none is lost or sent twice, what is held leaves (C37,
    C38).
    Time: the sweep of the snooper keeps exactly what is alive
    (C39).  DNS: the parser inverts the wire format
    (C40).

    Further theorems without a number: one entry per group and client
    ([IgmpSemantics.reports_keep_database_unique]), the white list and the black list
    ([IgmpPolicy.white_check_correct], [IgmpBlackSpec.black_references_exact]), the other
    report types, refused reports, the shape of the multicast flow cache, the errors of the
    report walk; only read commands reach the flash ([SpiNandSpec.driver_is_read_only]), the
    fill of the caller's buffers, the behaviour of a broken chip; a hung CPU stops the kicks
    ([WatchdogSpec.hung_cpu_starves_watchdog]); the interrupt handler serves exactly the
    pending unmasked lines ([GpioSpec.irq_handler_serves_pending]); names are read within
    bounds ([DnsTrapSpec.name_parser_stays_in_bounds]); the two ways to rewrite tags agree
    ([FcTagsSpec.rewriters_agree]), the order of eviction, how fragment entries come back,
    the largest sequence number is held, the meters of the Rome driver; packets of a meter
    leave in their order and what waits leaves ([FcShaperSpec]), the table of NAT loopback is
    a map ([FcFlowSideSpec.natloopback_is_a_map]), address translation of IPv6 keeps
    checksums ([FcRewriteSpec.nat66_packet_verifies]), the second hash of a flow leads back
    ([FcHashSpec.second_hash_leads_back]).

    ** Conventions, bounds and fuel

    A w-bit integer is a [Z]; wrap-around is written out ([u8], [u16], [u32], [u64],
    [s32]).  Error numbers are those of MIPS.  Definitions are executable.  Loops
    that are not structural take fuel: list walks in a pool take the number of its
    cells, a read of the flash the number of pages of the chip (a page number is
    used once), the deletion of an address with its duplicates the number of objects,
    the receive loop its length, the interrupt loop 32, the label loop
    the length of the name, the report walk its record count.  In each case the theorem
    about the routine shows that the fuel is enough, because the result it states is
    that of the finished loop.  A poll of a register takes as many reads as fit in its
    time-out, a field of [Controller].

    Code outside the repository is a parameter: the controller and the chip, the
    vendor's pin layer, [kthread_create], the kernel's IPv6 header walk and checksum
    routines, the layouts of headers that are not in the tree ([WdtLayout],
    [DnsHeader], [WireFormat] with its laws [RfcWire]), the bridge ports, the router
    API and the hardware callbacks of the snooper ([FlowConfig], [SnooperEnv]),
    the switch and the neighbour tables behind the flow cache ([L2Hw], [LutConfig]),
    the switch's flow entries and the kernel's connections ([FlowEnv] with [FlowLaws]), the
    switch's hash functions and settings ([FlowHashEnv], [FlowSearchEnv]),
    the kernel's buffer operations ([SkbOps] with its laws [SkbLaws]),
    [rtk_igmp_weightOverCheck].  Each assumption is a class field or a
    named hypothesis, and each has an instance in the file that uses it.

    ** Not modelled

    In the snooper: the setters of single configuration fields, the reserved-group and
    weight lists, the white list's delete by pattern, the statistics, the proc and
    netlink interfaces.  In the SPI-NAND driver: the telemetry file.  In the DNS trap:
    its proc files.  In the layer-2 table: the check for moved ports, the parts for
    other chips and for port trunking, the netlink notices.  In the flow table: flows
    of the abstract flow table and of MAP-E, MAP-T, XLAT, NAT66 and VXLAN endpoints, whose
    side tables are filled from outside the tree, the collision statistics and the flow of
    the other direction; in the search by packet, the flows of NPTv6 and of IPsec end points.
    Of the Rome driver only the shaper and the hash and comparisons of flows are modelled.  In header rewriting: the
    parts for other chips, the headers of tunnels, what is told to the network card.
    Locks are not modelled: each handler runs under its lock; the
    watchdog, which has none, is interleaved.  The vendor's switch SDK, the rest of the flow cache,
    router API, Ethernet and wireless drivers and the patched kernel files are not
    modelled: they call code and read tables that are not in the tree.

    Open: the flow cache's conversion of a packet into the flow that is added, its tunnels
    and its small reference-counted tables (interfaces, indirect addresses), the memory
    pool, the platform's clock event. *)
From stdpp Require Export base tactics numbers list gmap.
From Stdlib Require Export ZArith Lia.

#[global] Open Scope Z_scope.

(** ** Machine integers

    A w-bit C integer is a [Z]; the wrap-around of an operation is written out
    with the functions below. *)
Definition u8 (z : Z) : Z := z mod 2 ^ 8.
Definition u16 (z : Z) : Z := z mod 2 ^ 16.
Definition u32 (z : Z) : Z := z mod 2 ^ 32.
Definition u64 (z : Z) : Z := z mod 2 ^ 64.
Definition s32 (z : Z) : Z := (z + 2 ^ 31) mod 2 ^ 32 - 2 ^ 31.

Definition is_u8 (z : Z) : Prop := 0 <= z < 2 ^ 8.
Definition is_u32 (z : Z) : Prop := 0 <= z < 2 ^ 32.

(** [BIT(n)] and [~v] on an unsigned 32-bit word. *)
Definition BIT (n : Z) : Z := Z.shiftl 1 n.
Definition not32 (v : Z) : Z := Z.lxor v (2 ^ 32 - 1).

(** A C truth value. *)
Definition nonzero (v : Z) : bool := negb (v =? 0).

(** Kernel error numbers, returned negated (MIPS numbers them its own way from 35 on). *)
Definition EIO : Z := 5.
Definition EAGAIN : Z := 11.
Definition ENOMEM : Z := 12.
Definition EFAULT : Z := 14.
Definition ENODEV : Z := 19.
Definition EINVAL : Z := 22.
Definition EROFS : Z := 30.
Definition ERANGE : Z := 34.
Definition EBADMSG : Z := 77.
Definition EOPNOTSUPP : Z := 122.
Definition ETIMEDOUT : Z := 145.

(** ** Lists as C arrays *)
Section Arrays.
Context {A : Type}.

(** [memcpy (dst + off) src]: overwrite from [off]; what does not fit is not
    written (the sources below always fit, which their theorems state). *)
Fixpoint blit (off : nat) (src dst : list A) : list A :=
  match off, dst with
  | _, [] => []
  | S o, d :: ds => d :: blit o src ds
  | O, d :: ds => match src with
                  | [] => d :: ds
                  | s :: ss => s :: blit O ss ds
                  end
  end.

(** [dst[off .. off + n)], the bytes an access of [n] bytes at [off] sees. *)
Definition slice (off n : nat) (l : list A) : list A := take n (drop off l).
End Arrays.

(** ** Intrusive lists seen as lists: the first entry a search meets *)
Section First.
Context {A : Type}.

(** Update the first element that satisfies [p], in place. *)
Fixpoint update_first (p : A -> bool) (f : A -> A) (l : list A) : list A :=
  match l with
  | [] => []
  | x :: l' => if p x then f x :: l' else x :: update_first p f l'
  end.

(** Remove the first element that satisfies [p]. *)
Fixpoint remove_first (p : A -> bool) (l : list A) : list A :=
  match l with
  | [] => []
  | x :: l' => if p x then l' else x :: remove_first p l'
  end.

(** No two elements are the same in the sense of [same]. *)
Fixpoint distinct (same : A -> A -> bool) (l : list A) : Prop :=
  match l with
  | [] => True
  | x :: l' => Forall (fun y => same x y = false) l' /\ distinct same l'
  end.
End First.

(** ** Tactics *)

(** Split the conjunctions and the case distinctions of a decision [if]. *)
Ltac split_hyps :=
  repeat match goal with
         | H : _ /\ _ |- _ => destruct H
         | H : exists _, _ |- _ => destruct H
         end.

(** Case analysis on every boolean comparison in the goal. *)
Ltac case_bool :=
  repeat match goal with
         | |- context [if ?b then _ else _] =>
             lazymatch b with
             | context [if _ then _ else _] => fail
             | _ => destruct b eqn:?
             end
         end.

(** Turn boolean comparisons of [Z] in the context into propositions. *)
Ltac bool_to_prop :=
  repeat match goal with
         | H : (_ && _)%bool = true |- _ => apply andb_true_iff in H as [? ?]
         | H : (_ || _)%bool = false |- _ => apply orb_false_iff in H as [? ?]
         | H : negb _ = true |- _ => apply negb_true_iff in H
         | H : negb _ = false |- _ => apply negb_false_iff in H
         | H : (_ <=? _) = true |- _ => apply Z.leb_le in H
         | H : (_ <=? _) = false |- _ => apply Z.leb_gt in H
         | H : (_ <? _) = true |- _ => apply Z.ltb_lt in H
         | H : (_ <? _) = false |- _ => apply Z.ltb_ge in H
         | H : (_ =? _) = true |- _ => apply Z.eqb_eq in H
         | H : (_ =? _) = false |- _ => apply Z.eqb_neq in H
         end.

(** Close a goal about concrete data by evaluation. *)
Ltac by_compute :=
  vm_compute; first [reflexivity | lia | discriminate | (repeat split; (reflexivity || lia || discriminate)) | (eexists; reflexivity)].

Create HintDb phoebus.

(** ** Generic lemmas *)

Lemma not32_bit v i : 0 <= i < 32 -> Z.testbit (not32 v) i = negb (Z.testbit v i).
Proof.
  intros Hi. unfold not32. rewrite Z.lxor_spec. change (2 ^ 32 - 1) with (Z.ones 32).
  rewrite Z.ones_spec_low by lia. by destruct (Z.testbit v i).
Qed.

Lemma BIT_bit i j : 0 <= i -> Z.testbit (BIT i) j = (i =? j).
Proof. intros Hi. unfold BIT. rewrite Z.shiftl_1_l. by apply Z.pow2_bits_eqb. Qed.

(** A 32-bit word is one without bits from 32 on. *)
Lemma u32_high v i : is_u32 v -> 32 <= i -> Z.testbit v i = false.
Proof. intros Hv Hi. rewrite <- (Z.mod_small v (2 ^ 32)) by done. apply Z.mod_pow2_bits_high. lia. Qed.
Lemma u32_of_bits v : 0 <= v -> (forall i, 32 <= i -> Z.testbit v i = false) -> is_u32 v.
Proof.
  intros H0 Hb. assert (v = v mod 2 ^ 32) as ->; [|unfold is_u32; apply Z.mod_pos_bound; lia].
  apply Z.bits_inj'. intros i Hi. destruct (Z_lt_dec i 32); [by rewrite Z.mod_pow2_bits_low by lia|].
  rewrite Z.mod_pow2_bits_high by lia. apply Hb. lia.
Qed.

Lemma u32_range z : is_u32 (u32 z).
Proof. unfold is_u32, u32. apply Z.mod_pos_bound. lia. Qed.

Lemma u8_range z : is_u8 (u8 z).
Proof. unfold is_u8, u8. apply Z.mod_pos_bound. lia. Qed.

Lemma u32_small z : is_u32 z -> u32 z = z.
Proof. unfold is_u32, u32. intros. by apply Z.mod_small. Qed.

Lemma u8_small z : is_u8 z -> u8 z = z.
Proof. unfold is_u8, u8. intros. by apply Z.mod_small. Qed.

#[export] Hint Resolve u32_range u8_range : phoebus.
#[export] Hint Rewrite u32_small u8_small using (by auto with phoebus) : phoebus.

Section ArrayLemmas.
Context {A : Type}.
Implicit Types l src dst : list A.

Lemma length_blit off src dst : length (blit off src dst) = length dst.
Proof.
  revert off src. induction dst as [|d dst IH]; intros [|o] [|s src]; simpl; auto.
Qed.

Lemma lookup_blit_before off src dst i :
  (i < off)%nat -> blit off src dst !! i = dst !! i.
Proof.
  revert off i. induction dst as [|d dst IH]; intros [|o] [|i] Hi; simpl; auto; try lia.
  apply IH. lia.
Qed.

Lemma lookup_blit_in off src dst i :
  (off <= i)%nat -> (i < off + length src)%nat -> (i < length dst)%nat ->
  blit off src dst !! i = src !! (i - off)%nat.
Proof.
  revert off src i.
  induction dst as [|d dst IH]; intros [|o] src i H1 H2 H3; simpl in *; try lia.
  - destruct src as [|s src]; simpl in *; [lia|].
    destruct i as [|i]; simpl; auto. rewrite IH by lia. by rewrite Nat.sub_0_r.
  - destruct i as [|i]; [lia|]. simpl. apply IH; lia.
Qed.

Lemma lookup_blit_after off src dst i :
  (off + length src <= i)%nat -> blit off src dst !! i = dst !! i.
Proof.
  revert off src i.
  induction dst as [|d dst IH]; intros [|o] src i Hi; simpl in *; auto.
  - destruct src as [|s src]; simpl in *; auto.
    destruct i as [|i]; [lia|]. simpl. apply IH. simpl. lia.
  - destruct i as [|i]; [lia|]. simpl. apply IH. lia.
Qed.

Lemma length_slice off n l : (off + n <= length l)%nat -> length (slice off n l) = n.
Proof. intros. unfold slice. rewrite length_take, length_drop. lia. Qed.

Lemma lookup_slice off n l i : (i < n)%nat -> slice off n l !! i = l !! (off + i)%nat.
Proof. intros. unfold slice. rewrite lookup_take_lt, lookup_drop by lia. done. Qed.
End ArrayLemmas.

Section FirstLemmas.
Context {A : Type} (p : A -> bool).
Implicit Types l : list A.

Lemma find_update_first f l x :
  List.find p l = Some x -> p (f x) = true -> List.find p (update_first p f l) = Some (f x).
Proof.
  induction l as [|y l IH]; simpl; [done|]. destruct (p y) eqn:E; intros; simplify_eq; simpl.
  - by rewrite H0.
  - rewrite E. auto.
Qed.

Lemma find_update_first_other (q : A -> bool) f l :
  (forall x, p x = true -> q x = false /\ q (f x) = false) ->
  List.find q (update_first p f l) = List.find q l.
Proof.
  intros Hq. induction l as [|y l IH]; simpl; [done|]. destruct (p y) eqn:E; simpl.
  - apply Hq in E as [-> ->]. done.
  - by rewrite IH.
Qed.

Lemma update_first_id f l x :
  List.find p l = Some x -> f x = x -> update_first p f l = l.
Proof.
  induction l as [|y l IH]; simpl; [done|]. destruct (p y) eqn:E; intros; simplify_eq; f_equal; auto.
Qed.

Lemma update_first_none f l : List.find p l = None -> update_first p f l = l.
Proof. induction l as [|y l IH]; simpl; [done|]. destruct (p y); [done|]. intros. f_equal; auto. Qed.

Lemma length_update_first f l : length (update_first p f l) = length l.
Proof. induction l as [|y l IH]; simpl; [done|]. destruct (p y); simpl; auto. Qed.

Lemma sum_update_first (w : A -> nat) f l x :
  List.find p l = Some x ->
  (sum_list_with w (update_first p f l) + w x = sum_list_with w l + w (f x))%nat.
Proof.
  induction l as [|y l IH]; simpl; [done|]. destruct (p y) eqn:E; intros; simplify_eq; simpl; [lia|].
  specialize (IH H). lia.
Qed.

Lemma sum_remove_first (w : A -> nat) l x :
  List.find p l = Some x -> (sum_list_with w (remove_first p l) + w x = sum_list_with w l)%nat.
Proof.
  induction l as [|y l IH]; simpl; [done|]. destruct (p y) eqn:E; intros; simplify_eq; simpl; [lia|].
  specialize (IH H). lia.
Qed.

Lemma length_remove_first l x :
  List.find p l = Some x -> length l = S (length (remove_first p l)).
Proof.
  induction l as [|y l IH]; simpl; [done|]. destruct (p y); intros; simplify_eq; simpl; auto.
Qed.

Lemma find_app l l' :
  List.find p (l ++ l') = match List.find p l with Some x => Some x | None => List.find p l' end.
Proof. induction l as [|y l IH]; simpl; [done|]. by destruct (p y). Qed.

Lemma find_remove_first_other (q : A -> bool) l :
  (forall x, p x = true -> q x = false) -> List.find q (remove_first p l) = List.find q l.
Proof.
  intros Hq. induction l as [|y l IH]; simpl; [done|]. destruct (p y) eqn:E; simpl.
  - by rewrite (Hq _ E).
  - by rewrite IH.
Qed.

Lemma Forall_remove_first (P : A -> Prop) l : Forall P l -> Forall P (remove_first p l).
Proof. induction 1; simpl; [done|]. destruct (p x); auto. Qed.

Lemma distinct_remove_first same l : distinct same l -> distinct same (remove_first p l).
Proof.
  induction l as [|y l IH]; simpl; [done|]. intros [Hy Hl]. destruct (p y); [done|]. split; [|auto].
  by apply Forall_remove_first.
Qed.

(** In a list without doubles a search fails after the removal of its hit. *)
Lemma find_remove_first_none same l :
  (forall x y, p x = true -> p y = true -> same x y = true) ->
  distinct same l -> List.find p (remove_first p l) = None.
Proof.
  intros Hs. induction l as [|y l IH]; simpl; [done|]. intros [Hy Hl]. destruct (p y) eqn:E; simpl.
  - destruct (List.find p l) as [x|] eqn:Ex; [|done]. apply List.find_some in Ex as [Hin Hx].
    rewrite Forall_forall in Hy. specialize (Hy x (proj2 (list_elem_of_In _ _) Hin)).
    rewrite Hs in Hy; done.
  - rewrite E. auto.
Qed.

Lemma distinct_update_first same f l x :
  List.find p l = Some x ->
  (forall y, same (f x) y = same x y) -> (forall y, same y (f x) = same y x) ->
  distinct same l -> distinct same (update_first p f l).
Proof.
  intros Hx Hl Hr. induction l as [|y l IH]; simpl in *; [done|]. intros [Hy Hd].
  destruct (p y) eqn:E; simplify_eq; simpl.
  - split; [|done]. eapply Forall_impl; [done|]. intros z. by rewrite Hl.
  - split; [|auto]. rewrite Forall_forall in *. intros z Hz.
    assert (z ∈ l \/ z = f x) as [Hz'| ->].
    { clear - Hz Hx. induction l as [|w l IH]; simpl in *; [done|]. destruct (p w); set_solver. }
    + auto.
    + rewrite Hr. apply Hy. apply List.find_some in Hx as [Hx _]. by apply list_elem_of_In.
Qed.
End FirstLemmas.

Lemma omap_cons {A B} (f : A -> option B) (x : A) (l : list A) :
  omap f (x :: l) = match f x with Some y => y :: omap f l | None => omap f l end.
Proof. done. Qed.

Section SumLemmas.
Context {A : Type}.

Lemma sum_alter (w : A -> nat) (f : A -> A) (l : list A) i x :
  l !! i = Some x -> (sum_list_with w (alter f i l) + w x = sum_list_with w l + w (f x))%nat.
Proof.
  revert i. induction l as [|y l IH]; intros [|i] Hi; simplify_eq/=; [lia|].
  specialize (IH i Hi). unfold alter, list_alter in *. lia.
Qed.
End SumLemmas.

(** Rewriting one part of a list of lists, up to order. *)
Lemma concat_alter_perm {A} (f : list A -> list A) (l : list (list A)) i x :
  l !! i = Some x -> concat (alter f i l) ++ x ≡ₚ concat l ++ f x.
Proof.
  revert i. induction l as [|y l IH]; intros [|i] Hi; simplify_eq/=.
  - solve_Permutation.
  - specialize (IH i Hi). unfold alter in *. rewrite <- !app_assoc. by rewrite IH.
Qed.

Lemma concat_perm {A} (l l' : list (list A)) : l ≡ₚ l' -> concat l ≡ₚ concat l'.
Proof. induction 1; simpl; [done|by f_equiv|solve_Permutation|by etransitivity]. Qed.

Lemma elem_of_concat {A} (x : A) (ls : list (list A)) : x ∈ concat ls <-> exists l, x ∈ l /\ l ∈ ls.
Proof.
  rewrite list_elem_of_In, in_concat. setoid_rewrite <- list_elem_of_In. split; intros (l & H1 & H2); eauto.
Qed.

Lemma bool_decide_ext_if {A} (P Q : Prop) `{Decision P, Decision Q} (x y : A) : (P <-> Q) ->
  (if bool_decide P then x else y) = (if bool_decide Q then x else y).
Proof. intros HPQ. by rewrite (bool_decide_ext P Q HPQ). Qed.
