(* ===== verification/IgmpPool.v ===== *)
(** * IgmpPool: the entry pools of the multicast snooper at pointer level

    [rtk_igmp_snooping.c] keeps its group, client and source entries in three
    static arrays.  An entry is on exactly one doubly linked list: the free pool
    of its array, or a list that an owner heads (a hash bucket for groups, a
    group for clients, a client for sources).  This file models those arrays
    cell by cell, with [previous] and [next] as array indices ([None] is [NULL]),
    and proves that the C list operations implement operations on plain lists,
    and that no sequence of them leaks or doubly links an entry.  The files that
    model the handlers work on the plain lists this file justifies. *)
From S2P Require Import Prelude.

Section Pool.
Context {A : Type}.
(** What [memset(entry, 0, sizeof *entry)] leaves in the fields other than the
    two links. *)
Context (zero : A).

(** ** Cells and pools *)

Record node := Node { entry : A; previous : option nat; next : option nat }.

(** The static array, the head of its free pool, and the head pointers of the
    owners' lists (an absent owner has a [NULL] head). *)
Record pool := Pool {
  cells : list node;
  poolHead : option nat;
  heads : gmap nat nat
}.

Definition set_previous (v : option nat) (n : node) : node := Node (entry n) v (next n).
Definition set_next (v : option nat) (n : node) : node := Node (entry n) (previous n) v.
Definition set_entry (v : A) (n : node) : node := Node v (previous n) (next n).
Definition zeroed : node := Node zero None None.

(** [if (p != NULL) p->previous = v;] and [if (p != NULL) p->next = v;] *)
Definition write_previous (p v : option nat) (cs : list node) : list node :=
  match p with Some i => alter (set_previous v) i cs | None => cs end.
Definition write_next (p v : option nat) (cs : list node) : list node :=
  match p with Some i => alter (set_next v) i cs | None => cs end.

(** The value of the field read through the pointer [i]. *)
Definition next_of (cs : list node) (i : nat) : option nat := cs !! i ≫= next.
Definition previous_of (cs : list node) (i : nat) : option nat := cs !! i ≫= previous.

(** ** Operations *)

(** [rtk_igmp_initSourceEntryPool]: every cell zeroed and linked to its
    neighbours; a size other than the array's gives no pool. *)
Definition init_cells (max : nat) : list node :=
  imap (fun idx n => Node (entry n)
          (if decide (idx = 0)%nat then None else Some (idx - 1)%nat)
          (if decide (idx = max - 1)%nat then None else Some (idx + 1)%nat))
       (replicate max zeroed).

Definition init_pool (max poolSize : nat) : pool :=
  if decide (poolSize = max)
  then Pool (init_cells max) (if decide (max = 0)%nat then None else Some 0%nat) ∅
  else Pool (replicate max zeroed) None ∅.

(** [rtk_igmp_allocateSourceEntry]: pop the head of the free pool, zeroed. *)
Definition allocate (p : pool) : option nat * pool :=
  match poolHead p with
  | None => (None, p)
  | Some r =>
      let nx := next_of (cells p) r in
      let cs := write_previous nx None (cells p) in
      (Some r, Pool (<[r := zeroed]> cs) nx (heads p))
  end.

(** [rtk_igmp_freeSourceEntry]: push on the free pool. *)
Definition free (e : nat) (p : pool) : pool :=
  let cs := alter (set_next (poolHead p)) e (cells p) in
  Pool (write_previous (poolHead p) (Some e) cs) (Some e) (heads p).

(** [rtk_igmp_clearSourceEntry] *)
Definition clear (e : nat) (p : pool) : pool :=
  Pool (<[e := zeroed]> (cells p)) (poolHead p) (heads p).

(** [rtk_igmp_linkSourceEntry]: in front of the owner's list. *)
Definition link (o e : nat) (p : pool) : pool :=
  let hd := heads p !! o in
  let cs := write_previous hd (Some e) (cells p) in
  let cs := alter (set_next hd) e cs in
  Pool (alter (set_previous None) e cs) (poolHead p) (<[o := e]> (heads p)).

(** [rtk_igmp_unlinkSourceEntry]: the head of the list and the other positions
    are two cases; both end with the entry's links cleared. *)
Definition unlink (o e : nat) (p : pool) : pool :=
  let nx := next_of (cells p) e in
  let pv := previous_of (cells p) e in
  let '(cs, hs) :=
    if decide (heads p !! o = Some e)
    then (write_previous nx None (cells p), partial_alter (fun _ => nx) o (heads p))
    else (write_previous nx pv (write_next pv nx (cells p)), heads p) in
  Pool (alter (set_next None) e (alter (set_previous None) e cs)) (poolHead p) hs.

(** [rtk_igmp_deleteSourceEntry] *)
Definition delete_entry (o e : nat) (p : pool) : pool :=
  free e (clear e (unlink o e p)).

(** [rtk_igmp_deleteSourceList]: the loop reads [next] before it deletes.  The
    fuel is the number of cells: a list has no more entries than its array. *)
Fixpoint delete_loop (fuel : nat) (o : nat) (cur : option nat) (p : pool) : pool :=
  match fuel, cur with
  | S f, Some e => let nx := next_of (cells p) e in
                   delete_loop f o nx (delete_entry o e p)
  | _, _ => p
  end.
Definition delete_list (o : nat) (p : pool) : pool :=
  delete_loop (length (cells p)) o (heads p !! o) p.

(** Filling the fields of an entry the caller has just allocated. *)
Definition fill (e : nat) (v : A) (p : pool) : pool :=
  Pool (alter (set_entry v) e (cells p)) (poolHead p) (heads p).

(** Allocate, fill and link: how every handler adds an entry. *)
Definition add_entry (o : nat) (v : A) (p : pool) : option nat * pool :=
  match allocate p with
  | (None, p') => (None, p')
  | (Some e, p') => (Some e, link o e (fill e v p'))
  end.

(** The walk over a list: the indices an owner's [next] chain visits. *)
Fixpoint walk (fuel : nat) (cs : list node) (cur : option nat) : list nat :=
  match fuel, cur with
  | S f, Some e => e :: walk f cs (next_of cs e)
  | _, _ => []
  end.
Definition owned (o : nat) (p : pool) : list nat := walk (length (cells p)) (cells p) (heads p !! o).

(** The cells on the free pool. *)
Definition free_cells (p : pool) : list nat := walk (length (cells p)) (cells p) (poolHead p).

(** The fields of a cell, links apart. *)
Definition entry_of (cs : list node) (i : nat) : option A := entry <$> (cs !! i).

(** What the handlers see of an owner's list: the entries in list order. *)
Definition owned_entries (o : nat) (p : pool) : list A := omap (entry_of (cells p)) (owned o p).

(** ** The list representation *)

(** [dseg cs pv h q l]: from the pointer [h], the cells [l] are chained by
    [next] up to the pointer [q], and by [previous] back to [pv]. *)
Fixpoint dseg (cs : list node) (pv h q : option nat) (l : list nat) : Prop :=
  match l with
  | [] => h = q
  | i :: l' => h = Some i /\
               exists n, cs !! i = Some n /\ previous n = pv /\ dseg cs (Some i) (next n) q l'
  end.

Definition dlist (cs : list node) (h : option nat) (l : list nat) : Prop :=
  dseg cs None h None l.

(** [represents p m fl lo]: owner [o] heads the list [m o], the free pool is
    [fl], and each cell of the array is on exactly one of these lists, except the
    cells [lo] an operation holds between taking them off one list and putting
    them on another. *)
Record represents (p : pool) (m : nat -> list nat) (fl lo : list nat) : Prop := {
  rep_heads : forall o, dlist (cells p) (heads p !! o) (m o);
  rep_free : dlist (cells p) (poolHead p) fl;
  rep_nodup : forall o, NoDup (m o);
  rep_nodup_free : NoDup fl;
  rep_disjoint : forall o i, i ∈ m o -> i ∉ fl;
  rep_unique : forall o o' i, i ∈ m o -> i ∈ m o' -> o = o';
  rep_loose : forall i, i ∈ lo -> i ∉ fl /\ (forall o, i ∉ m o) /\ (i < length (cells p))%nat;
  rep_cover : forall i, (i < length (cells p))%nat -> i ∈ lo \/ i ∈ fl \/ exists o, i ∈ m o
}.

(** Replace the list of one owner. *)
Definition upd (m : nat -> list nat) (o : nat) (l : list nat) : nat -> list nat :=
  fun o' => if decide (o' = o) then l else m o'.

(** The calls the handlers make, and the states they reach from a fresh pool. *)
Inductive pool_step : pool -> pool -> Prop :=
| step_add o v p e p' : add_entry o v p = (e, p') -> pool_step p p'
| step_delete o e p : e ∈ owned o p -> pool_step p (delete_entry o e p)
| step_delete_list o p : pool_step p (delete_list o p).

Inductive reachable (max : nat) : pool -> Prop :=
| reach_init : reachable max (init_pool max max)
| reach_step p p' : reachable max p -> pool_step p p' -> reachable max p'.

(** ** Segments *)

(** The pointer a segment's next cell must have as [previous]. *)
Definition last_or (pv : option nat) (l : list nat) : option nat :=
  match last l with Some i => Some i | None => pv end.

Lemma last_or_cons pv i (l : list nat) : last_or pv (i :: l) = last_or (Some i) l.
Proof. unfold last_or. destruct l as [|j l]; [done|]. rewrite last_cons_cons. by destruct (last (j :: l)) eqn:E; [|apply last_None in E]. Qed.

Lemma dseg_app cs pv h q l1 l2 :
  dseg cs pv h q (l1 ++ l2) <-> exists r, dseg cs pv h r l1 /\ dseg cs (last_or pv l1) r q l2.
Proof.
  revert pv h. induction l1 as [|i l1 IH]; intros pv h; simpl.
  - split; [intros; by exists h|]. intros (r & -> & ?). done.
  - split.
    + intros (-> & n & Hn & Hp & Hs). apply IH in Hs as (r & H1 & H2).
      exists r. rewrite last_or_cons. naive_solver.
    + intros (r & (-> & n & Hn & Hp & Hs) & H2). rewrite last_or_cons in H2.
      split; [done|]. exists n. rewrite IH. naive_solver.
Qed.

Lemma dseg_frame cs cs' pv h q l :
  (forall i, i ∈ l -> cs' !! i = cs !! i) -> dseg cs pv h q l -> dseg cs' pv h q l.
Proof.
  revert pv h. induction l as [|i l IH]; intros pv h Hf Hd; simpl in *; [done|].
  destruct Hd as (-> & n & Hn & Hp & Hs). split; [done|]. exists n.
  rewrite Hf by set_solver. repeat split; auto. apply IH; set_solver.
Qed.

Lemma dseg_bound cs pv h q l i : dseg cs pv h q l -> i ∈ l -> (i < length cs)%nat.
Proof.
  revert pv h. induction l as [|j l IH]; intros pv h Hd Hi; simpl in *; [set_solver|].
  destruct Hd as (-> & n & Hn & Hp & Hs). apply elem_of_cons in Hi as [->|Hi]; eauto.
  by eapply lookup_lt_Some.
Qed.

Lemma dseg_nil_head cs pv l : dseg cs pv None None l -> l = [].
Proof. destruct l; simpl; [done|]. by intros (? & _). Qed.

Lemma dseg_det cs pv pv' h l l' :
  dseg cs pv h None l -> dseg cs pv' h None l' -> l = l'.
Proof.
  revert pv pv' h l'. induction l as [|i l IH]; intros pv pv' h l' H1 H2; simpl in *.
  - subst. symmetry. by eapply dseg_nil_head.
  - destruct H1 as (-> & n & Hn & _ & Hs). destruct l' as [|i' l']; simpl in H2; [done|].
    destruct H2 as ([= <-] & n' & Hn' & _ & Hs'). simplify_eq. f_equal. eauto.
Qed.

Lemma dseg_alter_notin (f : node -> node) (cs : list node) pv h q (l : list nat) i :
  i ∉ l -> dseg cs pv h q l -> dseg (alter f i cs) pv h q l.
Proof. intros Hi. apply dseg_frame. intros j Hj. apply list_lookup_alter_ne. set_solver. Qed.

Lemma dseg_insert_notin (n : node) (cs : list node) pv h q (l : list nat) i :
  i ∉ l -> dseg cs pv h q l -> dseg (<[i := n]> cs) pv h q l.
Proof. intros Hi. apply dseg_frame. intros j Hj. apply list_lookup_insert_ne. set_solver. Qed.

Lemma dseg_set_first cs pv pv' h q i l :
  i ∉ l -> dseg cs pv h q (i :: l) -> dseg (alter (set_previous pv') i cs) pv' h q (i :: l).
Proof.
  intros Hi (-> & n & Hn & Hp & Hs). split; [done|].
  exists (set_previous pv' n). rewrite list_lookup_alter_eq, Hn. repeat split; auto.
  by apply dseg_alter_notin.
Qed.

Lemma dseg_write_first cs pv pv' h l :
  NoDup l -> dseg cs pv h None l -> dseg (write_previous h pv' cs) pv' h None l.
Proof.
  intros Hnd Hd. destruct l as [|i l]; [simpl in Hd; by subst|].
  pose proof Hd as (-> & _). apply NoDup_cons in Hnd as [Hi _]. simpl write_previous.
  by eapply dseg_set_first.
Qed.

Lemma dseg_set_last cs pv h q q' l i :
  i ∉ l -> dseg cs pv h q (l ++ [i]) -> dseg (alter (set_next q') i cs) pv h q' (l ++ [i]).
Proof.
  intros Hi Hd. apply dseg_app in Hd as (r & H1 & H2). apply dseg_app. exists r. split.
  - by apply dseg_alter_notin.
  - destruct H2 as (-> & n & Hn & Hp & <-). split; [done|]. exists (set_next q' n).
    by rewrite list_lookup_alter_eq, Hn.
Qed.

Lemma dseg_head_elem cs pv i q l : dseg cs pv (Some i) q l -> q <> Some i -> i ∈ l.
Proof. destruct l; simpl; [naive_solver|]. intros ([= ->] & _) _. set_solver. Qed.

Lemma walk_dseg cs pv h l fuel :
  dseg cs pv h None l -> (length l <= fuel)%nat -> walk fuel cs h = l.
Proof.
  revert pv h fuel. induction l as [|i l IH]; intros pv h [|f] Hd Hl; simpl in *; try lia; subst; auto.
  - destruct Hd as (-> & n & Hn & _ & Hs). unfold next_of. rewrite Hn. simpl.
    f_equal. eapply IH; eauto. lia.
Qed.

Lemma dseg_write_previous_notin (w v : option nat) (cs : list node) pv h q (l : list nat) :
  (forall i, w = Some i -> i ∉ l) -> dseg cs pv h q l -> dseg (write_previous w v cs) pv h q l.
Proof. destruct w as [i|]; simpl; [|done]. intros Hi. apply dseg_alter_notin. auto. Qed.

Lemma dlist_head_elem (cs : list node) i (l : list nat) : dlist cs (Some i) l -> i ∈ l.
Proof. intros Hd. by eapply dseg_head_elem. Qed.

Lemma length_write_previous (w v : option nat) (cs : list node) :
  length (write_previous w v cs) = length cs.
Proof. destruct w; simpl; [apply length_alter|done]. Qed.

Lemma length_write_next (w v : option nat) (cs : list node) :
  length (write_next w v cs) = length cs.
Proof. destruct w; simpl; [apply length_alter|done]. Qed.

(** ** What each operation does to one list *)

Lemma dlist_push (cs : list node) h (l : list nat) i :
  NoDup l -> i ∉ l -> (i < length cs)%nat -> dlist cs h l ->
  dlist (alter (set_previous None) i (alter (set_next h) i (write_previous h (Some i) cs)))
        (Some i) (i :: l).
Proof.
  intros Hnd Hi Hlt Hd.
  assert (Hlt' : (i < length (write_previous h (Some i) cs))%nat)
    by (by rewrite length_write_previous).
  apply lookup_lt_is_Some in Hlt' as [n Hn].
  split; [done|]. exists (set_previous None (set_next h n)).
  rewrite !list_lookup_alter_eq, Hn. repeat split; auto. simpl.
  do 2 (apply dseg_alter_notin; [done|]). by apply dseg_write_first with None.
Qed.

(** Unlinking cell [i], in the two cases of the C code. *)
Lemma dlist_pop (cs : list node) h (l : list nat) i :
  NoDup (i :: l) -> dlist cs (Some i) (i :: l) -> h = next_of cs i ->
  dlist (write_previous h None cs) h l.
Proof.
  intros [Hi Hnd]%NoDup_cons (_ & n & Hn & Hp & Hs) ->. unfold next_of. rewrite Hn. simpl.
  by apply dseg_write_first with (Some i).
Qed.

Lemma dseg_write_first_other (cs : list node) pv pv' h (l : list nat) :
  NoDup l -> dseg cs pv h None l -> dseg (write_previous h pv' cs) pv' h None l.
Proof. apply dseg_write_first. Qed.

Lemma dlist_unlink_middle (cs : list node) h (l1 l2 : list nat) q i :
  NoDup (l1 ++ q :: i :: l2) -> dlist cs h (l1 ++ q :: i :: l2) ->
  dlist (write_previous (next_of cs i) (previous_of cs i)
           (write_next (previous_of cs i) (next_of cs i) cs)) h (l1 ++ q :: l2).
Proof.
  intros Hnd Hd. change (q :: i :: l2) with ([q] ++ i :: l2) in Hd.
  rewrite app_assoc in Hd. apply dseg_app in Hd as (r & H1 & H2).
  destruct H2 as (-> & n & Hn & Hp & Hs).
  assert (last_or None (l1 ++ [q]) = Some q) as Hl by (unfold last_or; by rewrite last_snoc).
  rewrite Hl in Hp. unfold next_of, previous_of. rewrite Hn. simpl. rewrite Hp. simpl.
  assert (q ∉ l1 /\ q ∉ l2 /\ NoDup l2 /\ (forall j, j ∈ l2 -> j ∉ l1 ++ [q])) as (Hq1 & Hq2 & Hn2 & Hdis).
  { apply NoDup_app in Hnd as (_ & Hx & Hnd). apply NoDup_cons in Hnd as [Hq Hnd].
    apply NoDup_cons in Hnd as [_ Hnd].
    repeat split; [intros Hin; apply (Hx q Hin); set_solver|set_solver|done|].
    intros j Hj Hin. apply elem_of_app in Hin as [Hin|Hin]; [|set_solver].
    apply (Hx j Hin). set_solver. }
  change (q :: l2) with ([q] ++ l2). rewrite app_assoc. apply dseg_app.
  exists (next n). rewrite Hl. split.
  - apply dseg_write_previous_notin.
    + intros j Hj. apply Hdis. eapply dseg_head_elem; [rewrite Hj in Hs; exact Hs|done].
    + by eapply dseg_set_last.
  - apply dseg_write_first with (Some i); [done|]. by apply dseg_alter_notin.
Qed.

(** ** The operations on a represented pool *)

Lemma represents_bound p m fl lo o i :
  represents p m fl lo -> i ∈ m o -> (i < length (cells p))%nat.
Proof. intros Hr Hi. eapply dseg_bound; [apply (rep_heads _ _ _ _ Hr)|done]. Qed.

Lemma represents_owned p m fl lo o : represents p m fl lo -> owned o p = m o.
Proof.
  intros Hr. eapply walk_dseg; [apply (rep_heads _ _ _ _ Hr)|].
  rewrite <- (length_seq (length (cells p)) 0). apply submseteq_length, NoDup_submseteq.
  - apply (rep_nodup _ _ _ _ Hr).
  - intros i Hi. apply elem_of_seq. split; [lia|]. by eapply represents_bound.
Qed.

Lemma upd_eq m o l : upd m o l o = l.
Proof. unfold upd. by rewrite decide_True. Qed.
Lemma upd_ne m o o' l : o' <> o -> upd m o l o' = m o'.
Proof. intros. unfold upd. by rewrite decide_False. Qed.

Lemma represents_allocate p m i fl lo :
  represents p m (i :: fl) lo ->
  exists p', allocate p = (Some i, p') /\ represents p' m fl (i :: lo) /\
             length (cells p') = length (cells p).
Proof.
  intros [Hh Hf Hnd Hnf Hdis Huq Hlo Hcov].
  pose proof Hf as (Hp & n & Hn & Hpv & Hs).
  apply NoDup_cons in Hnf as Hnf'. destruct Hnf' as [Hi Hnfl].
  unfold allocate. rewrite Hp. eexists. split; [done|]. unfold next_of. rewrite Hn. simpl.
  rewrite length_insert, length_write_previous. split; [|done]. split; simpl; auto.
  - intros o. apply dseg_insert_notin; [intros Hin; apply (Hdis o i Hin); set_solver|].
    apply dseg_write_previous_notin; [|apply Hh].
    intros j Hj Hin. apply (Hdis o j Hin). rewrite Hj in Hs.
    apply elem_of_cons. right. by eapply dseg_head_elem.
  - apply dseg_insert_notin; [done|]. by apply dseg_write_first with (Some i).
  - set_solver.
  - intros j. rewrite elem_of_cons, length_insert, length_write_previous.
    intros [->|Hj]; [|destruct (Hlo j Hj); set_solver].
    split; [done|]. split; [|by eapply lookup_lt_Some].
    intros o Hin. apply (Hdis o i Hin). set_solver.
  - rewrite length_insert, length_write_previous. intros j Hj.
    destruct (Hcov j Hj) as [?|[Hx|?]]; set_solver.
Qed.

Lemma allocate_empty p m lo : represents p m [] lo -> allocate p = (None, p).
Proof. intros Hr. unfold allocate. by rewrite (rep_free _ _ _ _ Hr : poolHead p = None). Qed.

Lemma represents_fill p m fl lo i v : i ∈ lo -> represents p m fl lo -> represents (fill i v p) m fl lo.
Proof.
  intros Hi [Hh Hf Hnd Hnf Hdis Huq Hlo Hcov]. destruct (Hlo i Hi) as (H1 & H2 & H3).
  split; simpl; rewrite ?length_alter; auto.
  - intros o. apply dseg_alter_notin; [apply H2|apply Hh].
  - by apply dseg_alter_notin.
Qed.

Lemma represents_clear p m fl lo i : i ∈ lo -> represents p m fl lo -> represents (clear i p) m fl lo.
Proof.
  intros Hi [Hh Hf Hnd Hnf Hdis Huq Hlo Hcov]. destruct (Hlo i Hi) as (H1 & H2 & H3).
  split; simpl; rewrite ?length_insert; auto.
  - intros o. apply dseg_insert_notin; [apply H2|apply Hh].
  - by apply dseg_insert_notin.
Qed.

Lemma represents_link p m fl lo o i :
  i ∉ lo -> represents p m fl (i :: lo) -> represents (link o i p) (upd m o (i :: m o)) fl lo.
Proof.
  intros Hil [Hh Hf Hnd Hnf Hdis Huq Hlo Hcov].
  destruct (Hlo i ltac:(set_solver)) as (H1 & H2 & H3).
  split; simpl; rewrite ?length_alter, ?length_write_previous; auto.
  - intros o'. destruct (decide (o' = o)) as [->|Hne].
    + rewrite lookup_insert_eq, upd_eq. by apply dlist_push.
    + rewrite lookup_insert_ne, upd_ne by done.
      do 2 (apply dseg_alter_notin; [apply H2|]). apply dseg_write_previous_notin; [|apply Hh].
      intros j Hj Hin. specialize (Hh o). rewrite Hj in Hh. apply dlist_head_elem in Hh. naive_solver.
  - do 2 (apply dseg_alter_notin; [done|]). apply dseg_write_previous_notin; [|done].
    intros j Hj. specialize (Hh o). rewrite Hj in Hh. apply dlist_head_elem in Hh. by eapply Hdis.
  - intros o'. destruct (decide (o' = o)) as [->|Hne]; [rewrite upd_eq|by rewrite upd_ne].
    apply NoDup_cons. split; [apply H2|apply Hnd].
  - intros o' j. destruct (decide (o' = o)) as [->|Hne]; [rewrite upd_eq|rewrite upd_ne by done; apply Hdis].
    intros [->|Hj]%elem_of_cons; [done|by eapply Hdis].
  - intros o1 o2 j. unfold upd. repeat case_decide; subst; auto; rewrite ?elem_of_cons.
    + intros [->|?] Hj; [by destruct (H2 o2)|naive_solver].
    + intros Hj [->|?]; [by destruct (H2 o1)|naive_solver].
    + naive_solver.
  - intros j Hj. destruct (Hlo j ltac:(set_solver)) as (? & Hm & ?). repeat split; auto.
    intros o'. unfold upd. case_decide; [|apply Hm]. subst. specialize (Hm o). set_solver.
  - intros j Hj. destruct (Hcov j Hj) as [Hx|[?|[o' Ho']]]; [|by right; left|].
    + apply elem_of_cons in Hx as [->|?]; [|by left]. right; right. exists o. rewrite upd_eq. set_solver.
    + right; right. exists o'. unfold upd. case_decide; [subst; set_solver|done].
Qed.

(** Both branches of [unlink] leave the owner's list without [i]; the lists of
    other owners, and the free pool, do not change. *)
Lemma unlink_frame p m fl lo o i l h l1 l2 :
  represents p m fl lo -> m o = l1 ++ i :: l2 -> (forall j, j ∈ l -> j ∉ m o) ->
  dlist (cells p) h l -> dlist (cells (unlink o i p)) h l.
Proof.
  intros Hr Hm Hdis Hd.
  assert (forall j, j ∈ m o -> j ∉ l) as Hdis' by naive_solver.
  pose proof (rep_heads _ _ _ _ Hr o) as Hh. rewrite Hm in Hh, Hdis'.
  apply dseg_app in Hh as (r & Hh1 & -> & n & Hn & Hp & Hs).
  assert (forall j, next n = Some j -> j ∉ l) as Hnx.
  { intros j Hj. apply Hdis'. rewrite Hj in Hs.
    apply dseg_head_elem in Hs; [set_solver|done]. }
  assert (forall j, previous n = Some j -> j ∉ l) as Hpv.
  { intros j Hj. apply Hdis'. rewrite Hj in Hp. unfold last_or in Hp.
    destruct (last l1) as [k|] eqn:E; simplify_eq. apply last_Some in E as [l' ->]. set_solver. }
  unfold unlink, next_of, previous_of. rewrite Hn. simpl.
  case_decide; simpl; do 2 (apply dseg_alter_notin; [apply Hdis'; set_solver|]);
    apply dseg_write_previous_notin; auto.
  unfold write_next. destruct (previous n); [|done]. by apply dseg_alter_notin; [auto|].
Qed.

Lemma length_unlink o i p : length (cells (unlink o i p)) = length (cells p).
Proof.
  unfold unlink. case_decide; simpl;
    by rewrite !length_alter, ?length_write_previous, ?length_write_next.
Qed.

Lemma unlink_owner p m fl lo o i l1 l2 :
  represents p m fl lo -> m o = l1 ++ i :: l2 ->
  dlist (cells (unlink o i p)) (heads (unlink o i p) !! o) (l1 ++ l2).
Proof.
  intros Hr Hm. pose proof (rep_heads _ _ _ _ Hr o) as Hh. pose proof (rep_nodup _ _ _ _ Hr o) as Hnd.
  rewrite Hm in Hh, Hnd.
  assert (i ∉ l1 /\ i ∉ l2) as [Hi1 Hi2].
  { apply NoDup_app in Hnd as (_ & Hx & Hnd). apply NoDup_cons in Hnd as [? _].
    split; [|done]. intros Hin. apply (Hx i Hin). set_solver. }
  unfold unlink. destruct (decide (heads p !! o = Some i)) as [Hhd|Hhd]; simpl.
  - destruct l1 as [|j l1]; simpl in Hh.
    + rewrite lookup_partial_alter_eq. do 2 (apply dseg_alter_notin; [done|]).
      simpl in Hnd. eapply dlist_pop; [done| |done]. rewrite <- Hhd. exact Hh.
    + destruct Hh as (Hj & _). simplify_eq. set_solver.
  - destruct l1 as [|j l1] using rev_ind.
    + simpl in Hh. destruct Hh as (? & _). done.
    + clear IHl1. do 2 (apply dseg_alter_notin; [set_solver|]).
      rewrite <- app_assoc in *. by apply dlist_unlink_middle.
Qed.

Lemma unlink_heads_ne o o' i p : o' <> o -> heads (unlink o i p) !! o' = heads p !! o'.
Proof. intros. unfold unlink. case_decide; simpl; [|done]. by rewrite lookup_partial_alter_ne. Qed.

Lemma unlink_poolHead o i p : poolHead (unlink o i p) = poolHead p.
Proof. unfold unlink. by case_decide. Qed.

Lemma represents_unlink p m fl lo o i l1 l2 :
  represents p m fl lo -> m o = l1 ++ i :: l2 ->
  represents (unlink o i p) (upd m o (l1 ++ l2)) fl (i :: lo).
Proof.
  intros Hr Hm. pose proof (rep_nodup _ _ _ _ Hr o) as Hndo. rewrite Hm in Hndo.
  apply NoDup_app in Hndo as (Hnd1 & Hx & [Hi2 Hnd2]%NoDup_cons).
  assert (i ∉ l1 ++ l2) as Hi by (rewrite elem_of_app; intros [H|H]; [apply (Hx i H)|]; set_solver).
  assert (forall j, j ∈ l1 ++ l2 -> j ∈ m o) as Hsub by (rewrite Hm; set_solver).
  assert (i ∈ m o) as Him by (rewrite Hm; set_solver).
  pose proof Hr as [Hh Hf Hnd Hnf Hdis Huq Hlo Hcov].
  split; rewrite ?unlink_poolHead, ?length_unlink; auto.
  - intros o'. destruct (decide (o' = o)) as [->|Hne].
    + rewrite upd_eq. by eapply unlink_owner.
    + rewrite upd_ne, unlink_heads_ne by done. eapply unlink_frame; [done|done| |apply Hh].
      intros j Hj Hj'. by apply Hne, (Huq o' o j).
  - eapply unlink_frame; [done|done| |done]. intros j Hj Hj'. by apply (Hdis o j).
  - intros o'. unfold upd. case_decide; [|apply Hnd]. apply NoDup_app. set_solver.
  - intros o' j. unfold upd. case_decide; [|apply Hdis]. intros Hj. eapply Hdis, Hsub, Hj.
  - intros o1 o2 j. unfold upd. repeat case_decide; subst; auto; naive_solver.
  - intros j [->|Hj]%elem_of_cons.
    + split; [by eapply Hdis|]. split; [|by eapply represents_bound].
      intros o'. unfold upd. case_decide; [done|]. naive_solver.
    + destruct (Hlo j Hj) as (? & Hn & ?). repeat split; auto.
      intros o'. unfold upd. case_decide; [|apply Hn]. naive_solver.
  - intros j Hj. destruct (Hcov j Hj) as [?|[?|[o' Ho']]]; [set_solver|set_solver|].
    destruct (decide (o' = o)) as [->|Hne].
    + destruct (decide (j = i)) as [->|Hji]; [set_solver|]. right; right. exists o.
      rewrite upd_eq. rewrite Hm in Ho'. set_solver.
    + right; right. exists o'. by rewrite upd_ne.
Qed.

Lemma represents_free p m fl lo i :
  i ∉ lo -> represents p m fl (i :: lo) -> previous_of (cells p) i = None ->
  represents (free i p) m (i :: fl) lo.
Proof.
  intros Hil [Hh Hf Hnd Hnf Hdis Huq Hlo Hcov] Hpv.
  destruct (Hlo i ltac:(set_solver)) as (H1 & H2 & H3).
  split; simpl; rewrite ?length_write_previous, ?length_alter; auto.
  - intros o. apply dseg_write_previous_notin.
    + intros j Hj Hin. rewrite Hj in Hf. apply dlist_head_elem in Hf. by eapply Hdis.
    + apply dseg_alter_notin; [apply H2|apply Hh].
  - split; [done|]. apply lookup_lt_is_Some in H3 as [n Hn]. exists (set_next (poolHead p) n).
    unfold previous_of in Hpv. rewrite Hn in Hpv. split; [|split; [done|]].
    + unfold write_previous. destruct (poolHead p) as [h|] eqn:E;
        [rewrite list_lookup_alter_ne|]; rewrite ?list_lookup_alter_eq, ?Hn; auto.
      intros ->. apply dlist_head_elem in Hf. done.
    + simpl. apply dseg_write_first with None; [done|]. by apply dseg_alter_notin.
  - apply NoDup_cons. done.
  - intros o j Hj. apply not_elem_of_cons. split; [|by eapply Hdis]. intros ->. by apply (H2 o).
  - intros j Hj. destruct (Hlo j ltac:(set_solver)) as (? & ? & ?). repeat split; auto.
    apply not_elem_of_cons. split; [|done]. by intros ->.
  - intros j Hj. destruct (Hcov j Hj) as [Hx|[?|?]]; set_solver.
Qed.

(** ** Composite operations *)

Lemma represents_add p m i fl o v :
  represents p m (i :: fl) [] ->
  exists p', add_entry o v p = (Some i, p') /\ represents p' (upd m o (i :: m o)) fl [] /\
             length (cells p') = length (cells p).
Proof.
  intros Hr. apply represents_allocate in Hr as (p' & Ha & Hr & Hl).
  unfold add_entry. rewrite Ha. eexists. split; [done|]. split.
  - apply represents_link; [set_solver|]. by apply represents_fill; [set_solver|].
  - simpl. by rewrite !length_alter, length_write_previous, length_alter.
Qed.

Lemma represents_delete p m fl o i l1 l2 :
  represents p m fl [] -> m o = l1 ++ i :: l2 ->
  represents (delete_entry o i p) (upd m o (l1 ++ l2)) (i :: fl) [].
Proof.
  intros Hr Hm. unfold delete_entry.
  pose proof (represents_unlink _ _ _ _ _ _ _ _ Hr Hm) as Hu.
  apply represents_free; [set_solver|by apply represents_clear; [set_solver|]|].
  unfold previous_of. simpl. rewrite list_lookup_insert_eq; [done|].
  apply (rep_loose _ _ _ _ Hu). set_solver.
Qed.

Lemma length_delete_entry o i p : length (cells (delete_entry o i p)) = length (cells p).
Proof.
  unfold delete_entry. simpl. by rewrite length_write_previous, length_alter, length_insert, length_unlink.
Qed.

Lemma upd_upd m o l l' : forall o', upd (upd m o l) o l' o' = upd m o l' o'.
Proof. intros o'. unfold upd. by repeat case_decide. Qed.

Lemma represents_ext p m m' fl lo :
  (forall o, m o = m' o) -> represents p m fl lo -> represents p m' fl lo.
Proof.
  intros He [Hh Hf Hnd Hnf Hdis Huq Hlo Hcov].
  split; auto; intros *; rewrite <- ?He; auto.
  - apply Hdis.
  - apply Huq.
  - intros Hi. destruct (Hlo i Hi) as (? & Hn & ?). repeat split; auto. intros o. by rewrite <- He.
  - intros Hi. destruct (Hcov i Hi) as [?|[?|[o Ho]]]; auto. right; right. exists o. by rewrite <- He.
Qed.

Lemma represents_delete_loop l fuel p m fl o :
  represents p m fl [] -> m o = l -> (length l <= fuel)%nat ->
  represents (delete_loop fuel o (heads p !! o) p) (upd m o []) (reverse l ++ fl) [] /\
  length (cells (delete_loop fuel o (heads p !! o) p)) = length (cells p).
Proof.
  revert fuel p m fl. induction l as [|i l IH]; intros fuel p m fl Hr Hm Hl.
  - pose proof (rep_heads _ _ _ _ Hr o) as Hh. rewrite Hm in Hh. simpl in Hh.
    rewrite Hh. destruct fuel; simpl; (split; [|done]); (apply represents_ext with m; [|done]);
      intros o'; unfold upd; case_decide; by subst.
  - destruct fuel as [|fuel]; [simpl in Hl; lia|]. simpl in Hl.
    pose proof (rep_heads _ _ _ _ Hr o) as Hh. rewrite Hm in Hh.
    destruct Hh as (Hhd & n & Hn & Hp & Hs). rewrite Hhd. simpl.
    assert (next_of (cells p) i = heads (delete_entry o i p) !! o) as ->.
    { unfold delete_entry, unlink. simpl. rewrite decide_True by done. simpl.
      by rewrite lookup_partial_alter_eq. }
    pose proof (represents_delete p m fl o i [] l Hr Hm) as Hr'.
    apply (IH fuel) in Hr' as [Hr' Hlen]; [|by rewrite upd_eq|lia].
    rewrite Hlen, length_delete_entry. split; [|done].
    rewrite reverse_cons, <- app_assoc. eapply represents_ext; [|exact Hr']. apply upd_upd.
Qed.

Lemma represents_owned_length p m fl lo o :
  represents p m fl lo -> (length (m o) <= length (cells p))%nat.
Proof.
  intros Hr. rewrite <- (length_seq (length (cells p)) 0). apply submseteq_length, NoDup_submseteq.
  - apply (rep_nodup _ _ _ _ Hr).
  - intros i Hi. apply elem_of_seq. split; [lia|]. by eapply represents_bound.
Qed.

Lemma represents_delete_list p m fl o :
  represents p m fl [] ->
  represents (delete_list o p) (upd m o []) (reverse (m o) ++ fl) [] /\
  length (cells (delete_list o p)) = length (cells p).
Proof.
  intros Hr. apply represents_delete_loop; auto. by eapply represents_owned_length.
Qed.

Lemma represents_free_cells p m fl lo : represents p m fl lo -> free_cells p = fl.
Proof.
  intros Hr. eapply walk_dseg; [apply (rep_free _ _ _ _ Hr)|].
  rewrite <- (length_seq (length (cells p)) 0). apply submseteq_length, NoDup_submseteq.
  - apply (rep_nodup_free _ _ _ _ Hr).
  - intros i Hi. apply elem_of_seq. split; [lia|]. eapply dseg_bound; [apply (rep_free _ _ _ _ Hr)|done].
Qed.

(** ** The fresh pool *)

Lemma lookup_init_cells max i : (i < max)%nat ->
  init_cells max !! i = Some (Node zero (if decide (i = 0)%nat then None else Some (i - 1)%nat)
                                   (if decide (i = max - 1)%nat then None else Some (i + 1)%nat)).
Proof.
  intros Hi. unfold init_cells. rewrite list_lookup_imap, lookup_replicate_2 by done. done.
Qed.

Lemma dseg_init max k n : (k + n = max)%nat ->
  dseg (init_cells max) (if decide (k = 0)%nat then None else Some (k - 1)%nat)
       (if decide (k = max)%nat then None else Some k) None (seq k n).
Proof.
  revert k. induction n as [|n IH]; intros k Hk; simpl.
  - by rewrite decide_True by lia.
  - rewrite decide_False by lia. split; [done|]. eexists. rewrite lookup_init_cells by lia.
    split; [done|]. simpl. split; [done|]. specialize (IH (S k) ltac:(lia)).
    rewrite decide_False in IH by lia. replace (S k - 1)%nat with k in IH by lia.
    replace (if decide (k = max - 1)%nat then None else Some (k + 1)%nat)
      with (if decide (S k = max)%nat then None else Some (S k)); [done|].
    repeat case_decide; try lia; auto. f_equal. lia.
Qed.

Lemma represents_init max : represents (init_pool max max) (fun _ => []) (seq 0 max) [].
Proof.
  unfold init_pool. rewrite decide_True by done.
  split; simpl.
  - intros o. by rewrite lookup_empty.
  - pose proof (dseg_init max 0 max eq_refl) as Hd. simpl in Hd.
    destruct (decide (0 = max)%nat), (decide (max = 0)%nat); try lia; done.
  - intros o. constructor.
  - apply NoDup_seq.
  - set_solver.
  - set_solver.
  - set_solver.
  - unfold init_cells. rewrite length_imap, length_replicate. intros i Hi. right; left.
    apply elem_of_seq. lia.
Qed.

Lemma reachable_represents max p :
  reachable max p -> length (cells p) = max /\ exists m fl, represents p m fl [].
Proof.
  induction 1 as [|p p' _ [Hl (m & fl & Hr)] Hs].
  - split; [|eauto using represents_init]. unfold init_pool. rewrite decide_True by done. simpl.
    unfold init_cells. by rewrite length_imap, length_replicate.
  - destruct Hs as [o v p e p' Ha|o e p He|o p].
    + destruct fl as [|i fl].
      * unfold add_entry in Ha. rewrite (allocate_empty _ _ _ Hr) in Ha. simplify_eq. eauto.
      * destruct (represents_add _ _ _ _ o v Hr) as (p1 & Ha' & Hr' & Hl'). rewrite Ha in Ha'.
        simplify_eq. eauto.
    + rewrite (represents_owned _ _ _ _ _ Hr) in He. apply list_elem_of_split in He as (l1 & l2 & He).
      rewrite length_delete_entry. split; [done|]. eauto using represents_delete.
    + destruct (represents_delete_list _ _ _ o Hr) as [Hr' Hl']. rewrite Hl'. eauto.
Qed.

(** ** The fields of the entries *)

Lemma entry_of_alter (f : node -> node) (cs : list node) i j :
  (forall n, entry (f n) = entry n) -> entry_of (alter f i cs) j = entry_of cs j.
Proof.
  intros Hf. unfold entry_of. destruct (decide (i = j)) as [->|Hne].
  - rewrite list_lookup_alter_eq. destruct (cs !! j); simpl; [by rewrite Hf|done].
  - by rewrite list_lookup_alter_ne.
Qed.

Lemma entry_of_write_previous w v (cs : list node) j : entry_of (write_previous w v cs) j = entry_of cs j.
Proof. destruct w; simpl; [by apply entry_of_alter|done]. Qed.

Lemma entry_of_write_next w v (cs : list node) j : entry_of (write_next w v cs) j = entry_of cs j.
Proof. destruct w; simpl; [by apply entry_of_alter|done]. Qed.

Lemma entry_of_insert_ne (n : node) (cs : list node) i j :
  i <> j -> entry_of (<[i := n]> cs) j = entry_of cs j.
Proof. intros. unfold entry_of. by rewrite list_lookup_insert_ne. Qed.

Lemma entry_of_unlink o i p j : entry_of (cells (unlink o i p)) j = entry_of (cells p) j.
Proof.
  unfold unlink. case_decide; simpl; rewrite !entry_of_alter by done;
    by rewrite !entry_of_write_previous, ?entry_of_write_next.
Qed.

Lemma entry_of_delete_ne o i p j : i <> j ->
  entry_of (cells (delete_entry o i p)) j = entry_of (cells p) j.
Proof.
  intros. unfold delete_entry. simpl.
  by rewrite entry_of_write_previous, entry_of_alter, entry_of_insert_ne, entry_of_unlink.
Qed.

Lemma entry_of_delete_list p m fl o j : represents p m fl [] -> j ∉ m o ->
  entry_of (cells (delete_list o p)) j = entry_of (cells p) j.
Proof.
  intros Hr. unfold delete_list. generalize (length (cells p)) as fuel. intros fuel. revert p m fl Hr.
  induction fuel as [|fuel IH]; intros p m fl Hr Hj; [done|]. simpl.
  pose proof (rep_heads _ _ _ _ Hr o) as Hh. destruct (m o) as [|i l] eqn:Em; simpl in Hh; [by rewrite Hh|].
  destruct Hh as (Hhd & _). rewrite Hhd.
  assert (next_of (cells p) i = heads (delete_entry o i p) !! o) as ->.
  { unfold delete_entry, unlink. simpl. rewrite decide_True by done. simpl. by rewrite lookup_partial_alter_eq. }
  rewrite (IH _ _ _ (represents_delete p m fl o i [] l Hr Em)) by (rewrite upd_eq; set_solver).
  apply entry_of_delete_ne. set_solver.
Qed.

Lemma entry_of_add o v p i p' : add_entry o v p = (Some i, p') -> (i < length (cells p))%nat ->
  entry_of (cells p') i = Some v /\
  forall j, j <> i -> entry_of (cells p') j = entry_of (cells p) j.
Proof.
  unfold add_entry, allocate. destruct (poolHead p) as [r|]; intros Ha Hi; simplify_eq. simpl.
  split; [|intros j Hj]; rewrite !entry_of_alter, entry_of_write_previous by done; unfold entry_of.
  - rewrite list_lookup_alter_eq, list_lookup_insert_eq; [done|]. by rewrite length_write_previous.
  - rewrite list_lookup_alter_ne, list_lookup_insert_ne by done. apply entry_of_write_previous.
Qed.

Lemma omap_entry_ext (f g : nat -> option A) (l : list nat) :
  (forall i, i ∈ l -> f i = g i) -> omap f l = omap g l.
Proof.
  induction l as [|i l IH]; intros Hf; [done|]. cbn. rewrite Hf by set_solver.
  rewrite IH by set_solver. done.
Qed.

(** C1: on every pool the handlers can reach, adding an entry puts it in front of
    its owner's list (and fails exactly when the free pool is empty, changing
    nothing), deleting an entry removes that entry only, deleting a list empties
    it, and in each of the three cases the lists of the other owners keep their
    entries, in order and with their fields. *)
Theorem pool_ops_refine_lists max p : reachable max p ->
  (forall o v, match free_cells p with
     | [] => add_entry o v p = (None, p)
     | _ => exists e p', add_entry o v p = (Some e, p') /\
              owned_entries o p' = v :: owned_entries o p /\
              forall o', o' <> o -> owned_entries o' p' = owned_entries o' p
     end) /\
  (forall o e l1 l2, owned o p = l1 ++ e :: l2 ->
     owned_entries o (delete_entry o e p) = omap (entry_of (cells p)) (l1 ++ l2) /\
     forall o', o' <> o -> owned_entries o' (delete_entry o e p) = owned_entries o' p) /\
  (forall o, owned_entries o (delete_list o p) = [] /\
     forall o', o' <> o -> owned_entries o' (delete_list o p) = owned_entries o' p).
Proof.
  intros Hre. apply reachable_represents in Hre as (_ & m & fl & Hr). repeat split.
  - intros o v. rewrite (represents_free_cells _ _ _ _ Hr). destruct fl as [|i fl].
    + unfold add_entry. by rewrite (allocate_empty _ _ _ Hr).
    + destruct (represents_add _ _ _ _ o v Hr) as (p' & Ha & Hr' & _).
      assert (forall o, i ∉ m o) as Hi by (intros o' Hin; apply (rep_disjoint _ _ _ _ Hr o' i Hin); set_solver).
      apply entry_of_add in Ha as Hs; [|eapply dseg_bound; [apply (rep_free _ _ _ _ Hr)|set_solver]].
      destruct Hs as [Hv Ho]. exists i, p'. split; [done|]. unfold owned_entries.
      split; [|intros o' Hne]; rewrite (represents_owned _ _ _ _ _ Hr), (represents_owned _ _ _ _ _ Hr').
      * rewrite upd_eq. cbn. rewrite Hv. f_equal. apply omap_entry_ext.
        intros j Hj. apply Ho. intros ->. by apply (Hi o).
      * rewrite upd_ne by done. apply omap_entry_ext. intros j Hj. apply Ho. intros ->. by apply (Hi o').
  - rewrite (represents_owned _ _ _ _ _ Hr) in H. unfold owned_entries.
    rewrite (represents_owned _ _ _ _ _ (represents_delete _ _ _ _ _ _ _ Hr H)), upd_eq.
    apply omap_entry_ext. intros j Hj. apply entry_of_delete_ne. intros ->.
    pose proof (rep_nodup _ _ _ _ Hr o) as Hnd. rewrite H in Hnd.
    apply NoDup_app in Hnd as (_ & Hx & [? _]%NoDup_cons). set_solver.
  - intros o' Hne. rewrite (represents_owned _ _ _ _ _ Hr) in H. unfold owned_entries.
    rewrite (represents_owned _ _ _ _ _ (represents_delete _ _ _ _ _ _ _ Hr H)), upd_ne by done.
    rewrite (represents_owned _ _ _ _ _ Hr). apply omap_entry_ext.
    intros j Hj. apply entry_of_delete_ne. intros ->. apply Hne, (rep_unique _ _ _ _ Hr o' o j); [done|].
    rewrite H. set_solver.
  - unfold owned_entries. destruct (represents_delete_list _ _ _ o Hr) as [Hr' _].
    by rewrite (represents_owned _ _ _ _ _ Hr'), upd_eq.
  - intros o' Hne. unfold owned_entries. destruct (represents_delete_list _ _ _ o Hr) as [Hr' _].
    rewrite (represents_owned _ _ _ _ _ Hr'), (represents_owned _ _ _ _ _ Hr), upd_ne by done.
    apply omap_entry_ext. intros j Hj. eapply entry_of_delete_list; [exact Hr|].
    intros Hj'. by apply Hne, (rep_unique _ _ _ _ Hr o' o j).
Qed.

(** C2: entries are never leaked and never on two lists: after any sequence of
    calls, every cell is on the free pool or on the list of exactly one owner,
    so an addition fails only when all the entries of the array are in use. *)
Theorem pool_partition max p : reachable max p ->
  (forall i, (i < max)%nat <-> i ∈ free_cells p \/ exists o, i ∈ owned o p) /\
  (forall o i, i ∈ owned o p -> i ∉ free_cells p) /\
  (forall o o' i, i ∈ owned o p -> i ∈ owned o' p -> o = o') /\
  (forall o v p', add_entry o v p = (None, p') -> forall i, (i < max)%nat -> exists o', i ∈ owned o' p).
Proof.
  intros Hre. apply reachable_represents in Hre as (<- & m & fl & Hr).
  assert (forall o, owned o p = m o) as Hm by (intros; by eapply represents_owned).
  rewrite (represents_free_cells _ _ _ _ Hr).
  assert (forall i, (i < length (cells p))%nat -> i ∈ fl \/ exists o, i ∈ m o) as Hc.
  { intros i Hi. destruct (rep_cover _ _ _ _ Hr i Hi) as [?|?]; [set_solver|done]. }
  split; [|split; [|split]].
  - intros i. setoid_rewrite Hm. split; [apply Hc|]. intros [Hi|[o Hi]].
    + eapply dseg_bound; [apply (rep_free _ _ _ _ Hr)|done].
    + by eapply represents_bound.
  - intros o i. rewrite Hm. apply (rep_disjoint _ _ _ _ Hr).
  - intros o o' i. rewrite !Hm. apply (rep_unique _ _ _ _ Hr).
  - intros o v p' Ha i Hi. setoid_rewrite Hm. destruct fl as [|j fl].
    + destruct (Hc i Hi) as [?|?]; [set_solver|done].
    + destruct (represents_add _ _ _ _ o v Hr) as (p1 & Ha' & _). congruence.
Qed.
End Pool.

(** ** A concrete pool: two cells, one of them taken *)

Definition demo_pool : pool (A := Z) := snd (add_entry 0 7 5 (init_pool 0 2 2)).

Lemma demo_pool_reachable : reachable 0 2 demo_pool.
Proof.
  eapply reach_step; [apply reach_init|]. eapply (step_add 0 7 5). apply surjective_pairing.
Qed.

Lemma pool_ops_refine_lists_witness :
  owned_entries 7 demo_pool = [5] /\ owned_entries 7 (delete_list 0 7 demo_pool) = [] /\
  owned_entries 7 (delete_list 0 8 demo_pool) = [5].
Proof.
  destruct (pool_ops_refine_lists 0 2 demo_pool demo_pool_reachable) as (_ & _ & Hd).
  split; [by_compute|]. split; [apply Hd|]. destruct (Hd 8%nat) as [_ ->]; [by_compute|done].
Defined.

Lemma pool_partition_witness :
  free_cells demo_pool = [1%nat] /\ owned 7 demo_pool = [0%nat] /\
  forall o, 0%nat ∈ owned o demo_pool -> 0%nat ∉ free_cells demo_pool.
Proof.
  split; [by_compute|]. split; [by_compute|]. intros o. apply (pool_partition 0 2 demo_pool demo_pool_reachable).
Defined.
