(* ===== verification/IgmpTable.v ===== *)
(** * IgmpTable: the group, client and source tables of the multicast snooper

    The database of [rtk_igmp_snooping.c]: per bridge module two hash tables
    (IPv4 and IPv6) of groups, per group a list of clients, per client a list of
    sources with their timers.  The lists are Rocq lists in link order (the file
    IgmpPool proves that the pointer operations implement them); the three static
    pools are the numbers of entries left in them.  The number of buckets is a field
    of the class [IgmpConfig], so that everything is proved for tables of any size;
    [rtk_config] is the size of the source. *)
From S2P Require Import Prelude.

(** The number of buckets of every hash table. *)
Class IgmpConfig := {
  IGMP_HASH_TBL_SIZE : Z;
  hash_tbl_size_pos : 0 < IGMP_HASH_TBL_SIZE
}.

(** [1 << IGMP_HASH_TBL_BIT] *)
Definition rtk_config : IgmpConfig := {| IGMP_HASH_TBL_SIZE := Z.shiftl 1 5; hash_tbl_size_pos := eq_refl |}.

(** ** Data *)

Inductive ip_version := IP_VERSION4 | IP_VERSION6.

(** A [uint32[4]] address; an IPv4 address is in the first word, in host order. *)
Record addr := Addr { word0 : Z; word1 : Z; word2 : Z; word3 : Z }.
Definition addr0 : addr := Addr 0 0 0 0.

#[export] Instance ip_version_eq_dec : EqDecision ip_version.
Proof. solve_decision. Defined.
#[export] Instance addr_eq_dec : EqDecision addr.
Proof. solve_decision. Defined.

Inductive report_version := VER_NONE | IGMP_V1 | IGMP_V2 | IGMP_V3 | MLD_V1 | MLD_V2.

(** [struct rtk_igmp_sourceEntry], the links apart. *)
Record sourceEntry := SourceEntry {
  sourceAddr : addr;
  portTimer : Z;
  fwdState : bool;
  setOpFlag : bool
}.
Definition zeroSource : sourceEntry := SourceEntry addr0 0 false false.

(** [struct rtk_igmp_clientEntry]; [sourceList] is the list its pointer heads. *)
Record clientEntry := ClientEntry {
  clientAddr : addr;
  clientMacAddr : list Z;
  inIfidx : Z;
  extraPortValid : Z;
  devExtraPortId : Z;
  reportCtagif : bool;
  reportVlanId : Z;
  reportStagif : bool;
  reportSVlanId : Z;
  igmpVersion : report_version;
  groupFilterTimer : Z;
  joinSystemSecTime : Z;
  sourceList : list sourceEntry
}.

(** [struct rtk_igmp_groupEntry]; [clientList] is the list its pointer heads. *)
Record groupEntry := GroupEntry {
  groupAddr : addr;
  groupIpVersion : ip_version;
  vlanId : Z;
  svlanId : Z;
  groupIdx : Z;
  clientList : list clientEntry
}.

(** One element of [rtk_igmp_mCastModuleArray]. *)
Record multicastModule := MulticastModule {
  validBit : bool;
  rtk_igmp_ipv4HashTable : list (list groupEntry);
  rtk_igmp_ipv6HashTable : list (list groupEntry)
}.

(** What the database tells the hardware and the flow cache. *)
Inductive event :=
| GroupAddCb (isIPv6 : bool) (vlan svlan : Z) (group : addr)
| GroupDelCb (isIPv6 : bool) (vlan svlan : Z) (group : addr)
| InvalidateGroupFlow (moduleIndex : nat) (v : ip_version) (group : addr)
| FlowReflush (group : addr).

(** The [uint8] counters of linked clients by report version. *)
Record verCounters := VerCounters {
  igmpSnoopingCounterVer_1 : Z;
  igmpSnoopingCounterVer_2 : Z;
  igmpSnoopingCounterVer_3 : Z;
  MLDCounterVer_1 : Z;
  MLDCounterVer_2 : Z
}.

(** The file-scope state of the C module that the database uses. *)
Record igmp := Igmp {
  rtk_igmp_sysUpSeconds : Z;
  rtk_igmp_startTime : Z;
  modules : list multicastModule;
  freeGroups : nat;
  freeClients : nat;
  freeSources : nat;
  groupIncIdx : Z;
  hwGroupAddCb : bool;
  hwGroupDelCb : bool;
  counters : verCounters;
  events : list event
}.

(** The packet header fields the handlers read ([rtk_igmp_pktHdr_t] and the
    device configuration it points to). *)
Record devConf := DevConf {
  fastLeave : bool;
  memberAgingInterval : Z;
  lastMemberAgingInterval : Z
}.
Record pktHdr := PktHdr {
  smac : list Z;
  devIfindex : Z;
  moduleIndex : nat;
  devExtPortEn : Z;
  devExtPortId : Z;
  ingressCtagif : bool;
  ingressCvid : Z;
  ingressStagif : bool;
  ingressSvid : Z;
  devConf4 : devConf;
  devConf6 : devConf
}.
Definition conf_of (hdr : pktHdr) (v : ip_version) : devConf :=
  match v with IP_VERSION4 => devConf4 hdr | IP_VERSION6 => devConf6 hdr end.

(** ** Field updates *)

Definition set_portTimer (t : Z) (s : sourceEntry) : sourceEntry :=
  SourceEntry (sourceAddr s) t (fwdState s) (setOpFlag s).
Definition set_fwdState (b : bool) (s : sourceEntry) : sourceEntry :=
  SourceEntry (sourceAddr s) (portTimer s) b (setOpFlag s).
Definition set_setOpFlag (b : bool) (s : sourceEntry) : sourceEntry :=
  SourceEntry (sourceAddr s) (portTimer s) (fwdState s) b.

Definition set_sourceList (l : list sourceEntry) (c : clientEntry) : clientEntry :=
  ClientEntry (clientAddr c) (clientMacAddr c) (inIfidx c) (extraPortValid c) (devExtraPortId c)
    (reportCtagif c) (reportVlanId c) (reportStagif c) (reportSVlanId c) (igmpVersion c)
    (groupFilterTimer c) (joinSystemSecTime c) l.
Definition set_groupFilterTimer (t : Z) (c : clientEntry) : clientEntry :=
  ClientEntry (clientAddr c) (clientMacAddr c) (inIfidx c) (extraPortValid c) (devExtraPortId c)
    (reportCtagif c) (reportVlanId c) (reportStagif c) (reportSVlanId c) (igmpVersion c)
    t (joinSystemSecTime c) (sourceList c).
Definition set_igmpVersion (v : report_version) (c : clientEntry) : clientEntry :=
  ClientEntry (clientAddr c) (clientMacAddr c) (inIfidx c) (extraPortValid c) (devExtraPortId c)
    (reportCtagif c) (reportVlanId c) (reportStagif c) (reportSVlanId c) v
    (groupFilterTimer c) (joinSystemSecTime c) (sourceList c).
Definition set_port (ifidx valid extId : Z) (c : clientEntry) : clientEntry :=
  ClientEntry (clientAddr c) (clientMacAddr c) ifidx valid extId
    (reportCtagif c) (reportVlanId c) (reportStagif c) (reportSVlanId c) (igmpVersion c)
    (groupFilterTimer c) (joinSystemSecTime c) (sourceList c).
Definition set_tags (ct : bool) (cv : Z) (st : bool) (sv : Z) (c : clientEntry) : clientEntry :=
  ClientEntry (clientAddr c) (clientMacAddr c) (inIfidx c) (extraPortValid c) (devExtraPortId c)
    ct cv st sv (igmpVersion c) (groupFilterTimer c) (joinSystemSecTime c) (sourceList c).

Definition set_clientList (l : list clientEntry) (g : groupEntry) : groupEntry :=
  GroupEntry (groupAddr g) (groupIpVersion g) (vlanId g) (svlanId g) (groupIdx g) l.
Definition set_groupIdx (i : Z) (g : groupEntry) : groupEntry :=
  GroupEntry (groupAddr g) (groupIpVersion g) (vlanId g) (svlanId g) i (clientList g).

Definition set_modules (ms : list multicastModule) (st : igmp) : igmp :=
  Igmp (rtk_igmp_sysUpSeconds st) (rtk_igmp_startTime st) ms (freeGroups st) (freeClients st)
    (freeSources st) (groupIncIdx st) (hwGroupAddCb st) (hwGroupDelCb st) (counters st) (events st).
Definition set_free (g c s : nat) (st : igmp) : igmp :=
  Igmp (rtk_igmp_sysUpSeconds st) (rtk_igmp_startTime st) (modules st) g c s
    (groupIncIdx st) (hwGroupAddCb st) (hwGroupDelCb st) (counters st) (events st).
Definition set_groupIncIdx (i : Z) (st : igmp) : igmp :=
  Igmp (rtk_igmp_sysUpSeconds st) (rtk_igmp_startTime st) (modules st) (freeGroups st)
    (freeClients st) (freeSources st) i (hwGroupAddCb st) (hwGroupDelCb st) (counters st) (events st).
Definition set_sysUpSeconds (t : Z) (st : igmp) : igmp :=
  Igmp t (rtk_igmp_startTime st) (modules st) (freeGroups st) (freeClients st)
    (freeSources st) (groupIncIdx st) (hwGroupAddCb st) (hwGroupDelCb st) (counters st) (events st).
Definition emit (e : event) (st : igmp) : igmp :=
  Igmp (rtk_igmp_sysUpSeconds st) (rtk_igmp_startTime st) (modules st) (freeGroups st)
    (freeClients st) (freeSources st) (groupIncIdx st) (hwGroupAddCb st) (hwGroupDelCb st)
    (counters st) (events st ++ [e]).
Definition set_counters (k : verCounters) (st : igmp) : igmp :=
  Igmp (rtk_igmp_sysUpSeconds st) (rtk_igmp_startTime st) (modules st) (freeGroups st)
    (freeClients st) (freeSources st) (groupIncIdx st) (hwGroupAddCb st) (hwGroupDelCb st)
    k (events st).

(** ** Searches *)

(** Address comparison as the searches do it: one word for IPv4, four for IPv6. *)
Definition addr_match (v : ip_version) (a b : addr) : bool :=
  match v with
  | IP_VERSION4 => word0 a =? word0 b
  | IP_VERSION6 => (word0 a =? word0 b) && (word1 a =? word1 b) &&
                   (word2 a =? word2 b) && (word3 a =? word3 b)
  end.

Section Table.
Context {cfg : IgmpConfig}.

Definition rtk_igmp_hashAlgorithm (v : ip_version) (a : addr) : Z :=
  match v with
  | IP_VERSION4 => Z.land (IGMP_HASH_TBL_SIZE - 1) (word0 a)
  | IP_VERSION6 => Z.land (IGMP_HASH_TBL_SIZE - 1)
                     (Z.lxor (Z.lxor (Z.lxor (word3 a) (word2 a)) (word1 a)) (word0 a))
  end.
Definition hash (v : ip_version) (a : addr) : nat := Z.to_nat (rtk_igmp_hashAlgorithm v a).

Definition table_of (v : ip_version) (m : multicastModule) : list (list groupEntry) :=
  match v with
  | IP_VERSION4 => rtk_igmp_ipv4HashTable m
  | IP_VERSION6 => rtk_igmp_ipv6HashTable m
  end.
Definition alter_table (v : ip_version) (f : list (list groupEntry) -> list (list groupEntry))
    (m : multicastModule) : multicastModule :=
  match v with
  | IP_VERSION4 => MulticastModule (validBit m) (f (rtk_igmp_ipv4HashTable m)) (rtk_igmp_ipv6HashTable m)
  | IP_VERSION6 => MulticastModule (validBit m) (rtk_igmp_ipv4HashTable m) (f (rtk_igmp_ipv6HashTable m))
  end.

(** The bucket of an address, and the state with that bucket rewritten. *)
Definition bucket (mi : nat) (v : ip_version) (h : nat) (st : igmp) : list groupEntry :=
  default [] (modules st !! mi ≫= fun m => table_of v m !! h).
Definition alter_bucket (mi : nat) (v : ip_version) (h : nat)
    (f : list groupEntry -> list groupEntry) (st : igmp) : igmp :=
  set_modules (alter (alter_table v (alter f h)) mi (modules st)) st.

Definition group_match (v : ip_version) (a : addr) (g : groupEntry) : bool :=
  addr_match v a (groupAddr g).

Definition rtk_igmp_searchGroupEntry (mi : nat) (v : ip_version) (a : addr) (st : igmp)
    : option groupEntry :=
  List.find (group_match v a) (bucket mi v (hash v a) st).

Definition client_match (v : ip_version) (a : addr) (mac : list Z) (c : clientEntry) : bool :=
  addr_match v (clientAddr c) a && bool_decide (clientMacAddr c = mac).

(** A client that is found gets the port the packet came in on: the hit is
    written back into the list. *)
Definition refresh_port (ifidx : Z) (hdr : pktHdr) (c : clientEntry) : clientEntry :=
  set_port ifidx (devExtPortEn hdr) (devExtPortId hdr) c.

Definition rtk_igmp_searchClientEntry (v : ip_version) (g : groupEntry) (ifidx : Z) (a : addr)
    (hdr : pktHdr) : option clientEntry * groupEntry :=
  let q := client_match v a (smac hdr) in
  match List.find q (clientList g) with
  | Some c => (Some (refresh_port ifidx hdr c),
               set_clientList (update_first q (refresh_port ifidx hdr) (clientList g)) g)
  | None => (None, g)
  end.

Definition source_match (v : ip_version) (a : addr) (s : sourceEntry) : bool :=
  addr_match v a (sourceAddr s).

Definition rtk_igmp_searchSourceEntry (v : ip_version) (a : addr) (c : clientEntry)
    : option sourceEntry :=
  List.find (source_match v a) (sourceList c).

(** Whether, and where, a client still receives: in exclude mode always, in
    include mode while one source is alive. *)
Definition rtk_igmp_getClientFwdIfIdx (c : clientEntry) (sysTime : Z) : option Z :=
  if sysTime <? groupFilterTimer c then Some (inIfidx c)
  else match List.find (fun s => sysTime <? portTimer s) (sourceList c) with
       | Some _ => Some (inIfidx c)
       | None => None
       end.

(** ** Allocation, linking and deletion *)

(** [rtk_igmp_allocateSourceEntry] then [rtk_igmp_linkSourceEntry]: a zeroed
    entry from the pool, its fields set by the handler, put in front. *)
Definition add_source (s : sourceEntry) (fr : nat) (c : clientEntry) : option (clientEntry * nat) :=
  match fr with
  | O => None
  | S fr' => Some (set_sourceList (s :: sourceList c) c, fr')
  end.

Definition rtk_igmp_deleteSourceList (fr : nat) (c : clientEntry) : clientEntry * nat :=
  (set_sourceList [] c, (length (sourceList c) + fr)%nat).

Definition rtk_igmp_allocateClientEntry (a : addr) (mac : list Z) (ifidx : Z) (hdr : pktHdr)
    (st : igmp) : option (clientEntry * igmp) :=
  match freeClients st with
  | O => None
  | S n => Some (ClientEntry a mac ifidx (devExtPortEn hdr) (devExtPortId hdr) false 0 false 0
                   VER_NONE 0 (rtk_igmp_sysUpSeconds st) [],
                 set_free (freeGroups st) n (freeSources st) st)
  end.

Definition count_version (v : report_version) (k : verCounters) : verCounters :=
  let '(VerCounters a b c d e) := k in
  match v with
  | IGMP_V1 => VerCounters (u8 (a + 1)) b c d e
  | IGMP_V2 => VerCounters a (u8 (b + 1)) c d e
  | IGMP_V3 => VerCounters a b (u8 (c + 1)) d e
  | MLD_V1 => VerCounters a b c (u8 (d + 1)) e
  | MLD_V2 => VerCounters a b c d (u8 (e + 1))
  | VER_NONE => k
  end.

Definition rtk_igmp_linkClientEntry (c : clientEntry) (g : groupEntry) (st : igmp) : groupEntry * igmp :=
  (set_clientList (c :: clientList g) g, set_counters (count_version (igmpVersion c) (counters st)) st).

(** Deleting a client gives back its sources and itself. *)
Definition rtk_igmp_deleteClientEntry (q : clientEntry -> bool) (g : groupEntry) (st : igmp)
    : groupEntry * igmp :=
  match List.find q (clientList g) with
  | None => (g, st)
  | Some c => (set_clientList (remove_first q (clientList g)) g,
               set_free (freeGroups st) (S (freeClients st))
                        (length (sourceList c) + freeSources st) st)
  end.

Definition rtk_igmp_deleteClientList (g : groupEntry) (st : igmp) : groupEntry * igmp :=
  (set_clientList [] g,
   set_free (freeGroups st) (length (clientList g) + freeClients st)
     (sum_list_with (fun c => length (sourceList c)) (clientList g) + freeSources st) st).

Definition rtk_igmp_allocateGroupEntry (st : igmp) : option igmp :=
  match freeGroups st with
  | O => None
  | S n => Some (set_free n (freeClients st) (freeSources st) st)
  end.

Definition is_ipv6 (v : ip_version) : bool :=
  match v with IP_VERSION6 => true | IP_VERSION4 => false end.

Definition rtk_igmp_linkGroupEntry (mi : nat) (g : groupEntry) (st : igmp) : igmp :=
  let idx := s32 (groupIncIdx st + 1) in
  let g := set_groupIdx idx g in
  let st := alter_bucket mi (groupIpVersion g) (hash (groupIpVersion g) (groupAddr g))
              (fun l => g :: l) (set_groupIncIdx idx st) in
  if hwGroupAddCb st
  then emit (GroupAddCb (is_ipv6 (groupIpVersion g)) (vlanId g) (svlanId g) (groupAddr g)) st
  else st.

Definition rtk_igmp_unlinkGroupEntry (mi : nat) (g : groupEntry) (st : igmp) : igmp :=
  let st := if hwGroupDelCb st
            then emit (GroupDelCb (is_ipv6 (groupIpVersion g)) (vlanId g) (svlanId g) (groupAddr g)) st
            else st in
  alter_bucket mi (groupIpVersion g) (hash (groupIpVersion g) (groupAddr g))
    (remove_first (group_match (groupIpVersion g) (groupAddr g))) st.

Definition rtk_igmp_deleteGroupEntry (mi : nat) (g : groupEntry) (st : igmp) : igmp :=
  let '(g, st) := rtk_igmp_deleteClientList g st in
  let st := emit (InvalidateGroupFlow mi (groupIpVersion g) (groupAddr g)) st in
  let st := rtk_igmp_unlinkGroupEntry mi g st in
  set_free (S (freeGroups st)) (freeClients st) (freeSources st) st.

(** ** Invariants *)

(** Every group a module holds, and the entries the database has taken from the
    three pools. *)
Definition all_groups (st : igmp) : list groupEntry :=
  m ← modules st;
  concat (rtk_igmp_ipv4HashTable m) ++ concat (rtk_igmp_ipv6HashTable m).
Definition clients_in (g : groupEntry) : nat := length (clientList g).
Definition sources_in (g : groupEntry) : nat :=
  sum_list_with (fun c => length (sourceList c)) (clientList g).

(** Nothing leaks: what is in the tables and what is in the pools add up to the
    sizes of the static arrays. *)
Definition conserved (G C S : nat) (st : igmp) : Prop :=
  (freeGroups st + length (all_groups st) = G)%nat /\
  (freeClients st + sum_list_with clients_in (all_groups st) = C)%nat /\
  (freeSources st + sum_list_with sources_in (all_groups st) = S)%nat.

(** Every group sits in the bucket its address hashes to, in the table of its
    version. *)
Definition hashed (st : igmp) : Prop :=
  forall mi v h g, g ∈ bucket mi v h st -> groupIpVersion g = v /\ hash v (groupAddr g) = h.

(** The tables have the size of the hash range. *)
Definition sized (st : igmp) : Prop :=
  Forall (fun m => forall v, length (table_of v m) = Z.to_nat IGMP_HASH_TBL_SIZE) (modules st).

(** The bucket index is in range. *)
Definition in_range (mi : nat) (st : igmp) : Prop := (mi < length (modules st))%nat.

(** The invariant of the database: sizes, hash positions, conservation. *)
Record inv (G C S : nat) (st : igmp) : Prop := {
  inv_conserved : conserved G C S st;
  inv_hashed : hashed st;
  inv_sized : sized st
}.

(** ** Buckets *)

Lemma hash_bound v a : (hash v a < Z.to_nat IGMP_HASH_TBL_SIZE)%nat.
Proof.
  pose proof hash_tbl_size_pos as Hp.
  assert (forall x, 0 <= Z.land (IGMP_HASH_TBL_SIZE - 1) x < IGMP_HASH_TBL_SIZE) as Hl.
  { intros x. split; [apply Z.land_nonneg; lia|].
    assert (Z.land (IGMP_HASH_TBL_SIZE - 1) x <= IGMP_HASH_TBL_SIZE - 1); [|lia].
    apply Z.ldiff_le; [lia|]. apply Z.bits_inj'. intros n Hn.
    rewrite Z.ldiff_spec, Z.land_spec, Z.bits_0. by destruct (Z.testbit _ n), (Z.testbit x n). }
  unfold hash, rtk_igmp_hashAlgorithm. destruct v; match goal with |- context [Z.land _ ?x] => specialize (Hl x) end; lia.
Qed.

Lemma table_alter_table v v' f m :
  table_of v (alter_table v' f m) = if decide (v = v') then f (table_of v m) else table_of v m.
Proof. by destruct v, v'. Qed.

Lemma bucket_alter_eq mi v h f st :
  in_range mi st -> sized st -> (h < Z.to_nat IGMP_HASH_TBL_SIZE)%nat ->
  bucket mi v h (alter_bucket mi v h f st) = f (bucket mi v h st).
Proof.
  intros [m Hm]%lookup_lt_is_Some Hs Hh. unfold bucket, alter_bucket. simpl.
  rewrite list_lookup_alter_eq, Hm. simpl. rewrite table_alter_table, decide_True by done.
  unfold sized in Hs. rewrite Forall_lookup in Hs. specialize (Hs _ _ Hm v). rewrite <- Hs in Hh.
  apply lookup_lt_is_Some in Hh as [b Hb]. rewrite list_lookup_alter_eq, Hb. done.
Qed.

Lemma bucket_alter_ne mi v h mi' v' h' f st :
  (mi, v, h) <> (mi', v', h') -> bucket mi v h (alter_bucket mi' v' h' f st) = bucket mi v h st.
Proof.
  intros Hne. unfold bucket, alter_bucket. simpl. destruct (decide (mi' = mi)) as [->|Hmi].
  - rewrite list_lookup_alter_eq. destruct (modules st !! mi) as [m|]; [|done]. simpl.
    rewrite table_alter_table. case_decide; [|done]. subst. rewrite list_lookup_alter_ne; [done|]. congruence.
  - by rewrite list_lookup_alter_ne.
Qed.

Lemma sized_alter_bucket mi v h f st : sized st -> sized (alter_bucket mi v h f st).
Proof.
  unfold sized, alter_bucket. simpl. rewrite !Forall_lookup. intros Hs i m Hi v'.
  destruct (decide (mi = i)) as [->|Hne].
  - rewrite list_lookup_alter_eq in Hi. destruct (modules st !! i) eqn:E; simplify_eq/=.
    rewrite table_alter_table. case_decide; subst; rewrite ?length_alter; eauto.
  - rewrite list_lookup_alter_ne in Hi by done. eauto.
Qed.

Lemma hashed_alter_bucket mi v h f st :
  hashed st -> (forall g, g ∈ f (bucket mi v h st) -> groupIpVersion g = v /\ hash v (groupAddr g) = h) ->
  hashed (alter_bucket mi v h f st).
Proof.
  intros Hh Hf mi' v' h' g Hg. destruct (decide ((mi', v', h') = (mi, v, h))) as [E|E].
  - simplify_eq. unfold bucket, alter_bucket in Hg. simpl in Hg. rewrite list_lookup_alter_eq in Hg.
    unfold bucket in Hf. destruct (modules st !! mi) as [m|]; [|simpl in Hg; set_solver]. simpl in *.
    rewrite table_alter_table, decide_True, list_lookup_alter_eq in Hg by done.
    destruct (table_of v m !! h); [auto|simpl in Hg; set_solver].
  - rewrite bucket_alter_ne in Hg by done. eauto.
Qed.

Lemma elem_update_first {A} (p : A -> bool) f (l : list A) x y :
  List.find p l = Some x -> y ∈ update_first p f l -> y ∈ l \/ y = f x.
Proof.
  induction l as [|z l IH]; simpl; [done|]. destruct (p z); rewrite !elem_of_cons; intros; simplify_eq.
  - naive_solver.
  - naive_solver.
Qed.

Lemma elem_remove_first {A} (p : A -> bool) (l : list A) y : y ∈ remove_first p l -> y ∈ l.
Proof. induction l as [|x l IH]; simpl; [done|]. destruct (p x); set_solver. Qed.

(** ** Totals *)

Definition total (w : groupEntry -> nat) (st : igmp) : nat := sum_list_with w (all_groups st).

Lemma length_total st : length (all_groups st) = total (fun _ => 1%nat) st.
Proof. unfold total. induction (all_groups st); simpl; auto. Qed.

Lemma sum_concat {A} (w : A -> nat) (ls : list (list A)) :
  sum_list_with w (concat ls) = sum_list_with (sum_list_with w) ls.
Proof. induction ls; simpl; [done|]. rewrite sum_list_with_app. lia. Qed.

Definition module_total (w : groupEntry -> nat) (m : multicastModule) : nat :=
  (sum_list_with (sum_list_with w) (rtk_igmp_ipv4HashTable m) +
   sum_list_with (sum_list_with w) (rtk_igmp_ipv6HashTable m))%nat.

Lemma total_modules w st : total w st = sum_list_with (module_total w) (modules st).
Proof.
  unfold total, all_groups. induction (modules st) as [|m ms IH]; [done|].
  rewrite bind_cons, !sum_list_with_app, !sum_concat, IH. done.
Qed.

Lemma total_alter_bucket w mi v h f st b :
  modules st !! mi ≫= (fun m => table_of v m !! h) = Some b ->
  (total w (alter_bucket mi v h f st) + sum_list_with w b = total w st + sum_list_with w (f b))%nat.
Proof.
  intros Hb. destruct (modules st !! mi) as [m|] eqn:Hm; [|done]. simpl in Hb.
  rewrite !total_modules. unfold alter_bucket. simpl.
  pose proof (sum_alter (module_total w) (alter_table v (alter f h)) _ _ _ Hm) as H1.
  enough (module_total w (alter_table v (alter f h) m) + sum_list_with w b
          = module_total w m + sum_list_with w (f b))%nat by lia.
  destruct v; simpl in Hb |- *; unfold module_total; simpl;
    pose proof (sum_alter (sum_list_with w) f _ _ _ Hb); lia.
Qed.

Lemma bucket_some mi v h st :
  in_range mi st -> sized st -> (h < Z.to_nat IGMP_HASH_TBL_SIZE)%nat ->
  modules st !! mi ≫= (fun m => table_of v m !! h) = Some (bucket mi v h st).
Proof.
  intros [m Hm]%lookup_lt_is_Some Hs Hh. unfold bucket. rewrite Hm. simpl.
  unfold sized in Hs. rewrite Forall_lookup in Hs. specialize (Hs _ _ Hm v). rewrite <- Hs in Hh.
  by apply lookup_lt_is_Some in Hh as [b ->].
Qed.

Lemma total_alter w mi v h f st :
  in_range mi st -> sized st -> (h < Z.to_nat IGMP_HASH_TBL_SIZE)%nat ->
  (total w (alter_bucket mi v h f st) + sum_list_with w (bucket mi v h st)
   = total w st + sum_list_with w (f (bucket mi v h st)))%nat.
Proof. intros. by apply total_alter_bucket, bucket_some. Qed.

(** Conservation restated on totals. *)
Lemma conserved_total G C S st :
  conserved G C S st <->
  (freeGroups st + total (fun _ => 1) st = G)%nat /\
  (freeClients st + total clients_in st = C)%nat /\
  (freeSources st + total sources_in st = S)%nat.
Proof. unfold conserved. rewrite length_total. done. Qed.

(** The totals see the modules only. *)
Lemma total_modules_eq w st st' : modules st' = modules st -> total w st' = total w st.
Proof. intros E. by rewrite !total_modules, E. Qed.

Lemma total_set_free w a b c st : total w (set_free a b c st) = total w st.
Proof. done. Qed.

Lemma hashed_modules_eq st st' : modules st' = modules st -> hashed st -> hashed st'.
Proof. unfold hashed, bucket. intros ->. auto. Qed.

Lemma sized_modules_eq st st' : modules st' = modules st -> sized st -> sized st'.
Proof. unfold sized. intros ->. auto. Qed.

(** ** Address comparison *)

Lemma addr_match_refl v a : addr_match v a a = true.
Proof. destruct v; simpl; by rewrite !Z.eqb_refl. Qed.

Lemma addr_match_trans v a b x : addr_match v a b = true -> addr_match v a x = addr_match v b x.
Proof.
  destruct v; simpl; rewrite ?andb_true_iff, ?Z.eqb_eq; [by intros ->|].
  intros (((-> & ->) & ->) & ->). done.
Qed.

Lemma addr_match_sym v a b : addr_match v a b = addr_match v b a.
Proof. destruct v; simpl; by rewrite ?(Z.eqb_sym (word0 b)), ?(Z.eqb_sym (word1 b)), ?(Z.eqb_sym (word2 b)), ?(Z.eqb_sym (word3 b)). Qed.

Lemma addr_match_hash v a b : addr_match v a b = true -> hash v a = hash v b.
Proof.
  unfold hash, rtk_igmp_hashAlgorithm. destruct v; simpl; rewrite ?andb_true_iff, ?Z.eqb_eq; [by intros ->|].
  intros (((-> & ->) & ->) & ->). done.
Qed.

Lemma find_ext {A} (p q : A -> bool) (l : list A) : (forall x, p x = q x) -> List.find p l = List.find q l.
Proof. intros Hx. induction l as [|y l IH]; simpl; [done|]. by rewrite Hx, IH. Qed.

Lemma search_group_spec mi v a st g : rtk_igmp_searchGroupEntry mi v a st = Some g ->
  g ∈ bucket mi v (hash v a) st /\ addr_match v a (groupAddr g) = true.
Proof. intros Hf. apply List.find_some in Hf as [Hin Hm]. by rewrite list_elem_of_In. Qed.
End Table.
