(* ===== verification/IgmpReport.v ===== *)
(** * IgmpReport: the IGMP and MLD membership handlers

    [rtk_igmp_processJoin], [rtk_igmp_processLeave] and the six group-record
    handlers of IGMPv3/MLDv2 reports, over the tables of IgmpTable.  A handler is
    a computation of the monad [H]: it threads the database and can return early
    with a netfilter verdict, which is how the C functions are written.  The
    model is the configured build: CONFIG_RTL_PER_PORT_CLIENT_NUM,
    CONFIG_RTL_LAN_COMPATIBILITY and CONFIG_RTL_NEW_IGMP_REPORT_BEHAVIOR are not
    set in configs/rtl9607c.config. *)
From S2P Require Import Prelude IgmpTable.

(** ** Verdicts and the handler monad *)

Inductive nf_ret := RTK_IGMP_NF_CONTINUE | RTK_IGMP_NF_ACCEPT | RTK_IGMP_NF_DROP.

#[export] Instance nf_ret_eq_dec : EqDecision nf_ret.
Proof. solve_decision. Defined.

Definition H (A : Type) : Type := igmp -> (nf_ret + A) * igmp.
Definition ret {A} (x : A) : H A := fun st => (inr x, st).
Definition early {A} (r : nf_ret) : H A := fun st => (inl r, st).
Definition bind {A B} (m : H A) (k : A -> H B) : H B :=
  fun st => match m st with
            | (inl r, st') => (inl r, st')
            | (inr x, st') => k x st'
            end.
Definition now : H Z := fun st => (inr (rtk_igmp_sysUpSeconds st), st).
Definition modify (f : igmp -> igmp) : H unit := fun st => (inr tt, f st).
(** The verdict a handler ends with. *)
Definition run (m : H nf_ret) (st : igmp) : nf_ret * igmp :=
  match m st with (inl r, st') => (r, st') | (inr r, st') => (r, st') end.

Declare Scope handler_scope.
Delimit Scope handler_scope with handler.
Notation "m ;;; k" := (bind m (fun _ => k)) (at level 100, right associativity) : handler_scope.
Notation "x <-- m ;;; k" := (bind m (fun x => k))
  (at level 100, m at next level, right associativity) : handler_scope.
Open Scope handler_scope.

(** ** Admission *)

(** A range of the user's group-to-protocol-stack table. *)
Record resvGroup := ResvGroup {
  isIpv6 : bool;
  ignGroupIpStart : addr;
  ignGroupIpEnd : addr;
  isCopy2cpu : bool
}.

(** The checks a report passes before it is learnt: the user's reserved-group
    table, the group and client limits, and the white list (whose answer is
    whether the report may be learnt).  The handlers are proved against this
    interface. *)
Class AdmissionPolicy := {
  gorup2PsList : list resvGroup;
  rtk_igmp_group_limitCheck : igmp -> pktHdr -> ip_version -> addr -> addr -> nf_ret;
  rtk_igmp_filterWhiteListCheck : pktHdr -> ip_version -> bool -> addr -> addr -> option addr -> bool
}.

(** Lexicographic order on the four words, most significant first. *)
Definition iprange_ipv6_lt (a b : addr) : bool :=
  if negb (word0 a =? word0 b) then word0 a <? word0 b
  else if negb (word1 a =? word1 b) then word1 a <? word1 b
  else if negb (word2 a =? word2 b) then word2 a <? word2 b
  else if negb (word3 a =? word3 b) then word3 a <? word3 b
  else false.

Definition resv_hit (v : ip_version) (a : addr) (r : resvGroup) : bool :=
  match v, isIpv6 r with
  | IP_VERSION6, true => negb (iprange_ipv6_lt a (ignGroupIpStart r) || iprange_ipv6_lt (ignGroupIpEnd r) a)
  | IP_VERSION4, false =>
      if word0 (ignGroupIpEnd r) =? 0 then word0 (ignGroupIpStart r) =? word0 a
      else (word0 (ignGroupIpStart r) <=? word0 a) && (word0 a <=? word0 (ignGroupIpEnd r))
  | _, _ => false
  end.

Section Report.
Context {cfg : IgmpConfig} {policy : AdmissionPolicy}.

Definition rtk_igmp_checkGroupToPsTbl (v : ip_version) (a : addr) : option resvGroup :=
  List.find (resv_hit v a) gorup2PsList.

(** The guard all learning handlers start with. *)
Definition guard_reserved (v : ip_version) (ga : addr) : H unit :=
  match rtk_igmp_checkGroupToPsTbl v ga with
  | Some r => if isCopy2cpu r then ret tt else early RTK_IGMP_NF_ACCEPT
  | None => ret tt
  end.

Definition guard_limit (hdr : pktHdr) (v : ip_version) (ga ca : addr) : H unit :=
  fun st => match rtk_igmp_group_limitCheck st hdr v ga ca with
            | RTK_IGMP_NF_CONTINUE => (inr tt, st)
            | r => (inl r, st)
            end.

Definition guard_white (hdr : pktHdr) (v : ip_version) (v3 : bool) (ga ca : addr) (src : option addr)
    : H unit :=
  if rtk_igmp_filterWhiteListCheck hdr v v3 ga ca src then ret tt else early RTK_IGMP_NF_DROP.

(** The white list sees the source when the record carries exactly one. *)
Definition single_source (srcs : list addr) : option addr :=
  match srcs with [a] => Some a | _ => None end.

(** ** Finding and creating the group and the client *)

Definition alter_group (mi : nat) (v : ip_version) (ga : addr) (f : groupEntry -> groupEntry)
    (st : igmp) : igmp :=
  alter_bucket mi v (hash v ga) (update_first (group_match v ga) f) st.

Definition alter_client (mi : nat) (v : ip_version) (ga ca : addr) (mac : list Z)
    (f : clientEntry -> clientEntry) (st : igmp) : igmp :=
  alter_group mi v ga
    (fun g => set_clientList (update_first (client_match v ca mac) f (clientList g)) g) st.

Definition get_client (mi : nat) (v : ip_version) (ga ca : addr) (mac : list Z) (st : igmp)
    : option clientEntry :=
  rtk_igmp_searchGroupEntry mi v ga st ≫= fun g => List.find (client_match v ca mac) (clientList g).

(** A new group is linked with its address and version; [onfail] is the verdict
    when the pool is empty. *)
Definition find_or_create_group (hdr : pktHdr) (v : ip_version) (ga : addr) (onfail : nf_ret) : H unit :=
  fun st =>
    match rtk_igmp_searchGroupEntry (moduleIndex hdr) v ga st with
    | Some _ => (inr tt, st)
    | None => match rtk_igmp_allocateGroupEntry st with
              | None => (inl onfail, st)
              | Some st => (inr tt, rtk_igmp_linkGroupEntry (moduleIndex hdr) (GroupEntry ga v 0 0 0 []) st)
              end
    end.

(** A client that is found has its port refreshed; a new one starts with the
    filter timer [fresh] (0, as allocated, unless the handler sets it). *)
Definition find_or_create_client (hdr : pktHdr) (v : ip_version) (ga ca : addr)
    (fresh : igmp -> Z) (onfail : nf_ret) : H unit :=
  fun st =>
    match rtk_igmp_searchGroupEntry (moduleIndex hdr) v ga st with
    | None => (inl onfail, st)
    | Some g =>
        match rtk_igmp_searchClientEntry v g (devIfindex hdr) ca hdr with
        | (Some _, _) =>
            (inr tt, alter_group (moduleIndex hdr) v ga
                       (fun g => snd (rtk_igmp_searchClientEntry v g (devIfindex hdr) ca hdr)) st)
        | (None, _) =>
            match rtk_igmp_allocateClientEntry ca (smac hdr) (devIfindex hdr) hdr st with
            | None => (inl onfail, st)
            | Some (c, st) =>
                let st' := snd (rtk_igmp_linkClientEntry c g st) in
                (inr tt, alter_group (moduleIndex hdr) v ga
                           (fun g => set_clientList
                              (set_groupFilterTimer (fresh st) c :: clientList g) g) st')
            end
        end
    end.

(** Run the source-list code of a handler on the client: it sees the number of
    source entries left and gives back the client, the entries left and whether
    it came to its end; running out of entries drops the packet there. *)
Definition on_client (hdr : pktHdr) (v : ip_version) (ga ca : addr)
    (f : nat -> clientEntry -> bool * clientEntry * nat) : H unit :=
  fun st =>
    match get_client (moduleIndex hdr) v ga ca (smac hdr) st with
    | None => (inr tt, st)
    | Some c =>
        let '(ok, c', fr) := f (freeSources st) c in
        let st := alter_client (moduleIndex hdr) v ga ca (smac hdr) (fun _ => c') st in
        let st := set_free (freeGroups st) (freeClients st) fr st in
        if (ok : bool) then (inr tt, st) else (inl RTK_IGMP_NF_DROP, st)
    end.

(** Tags and version a report stamps on its client. *)
Definition stamp (hdr : pktHdr) (ver : report_version) (c : clientEntry) : clientEntry :=
  let c := set_tags (ingressCtagif hdr || reportCtagif c)
                    (if ingressCtagif hdr then ingressCvid hdr else reportVlanId c)
                    (ingressStagif hdr || reportStagif c)
                    (if ingressStagif hdr then ingressSvid hdr else reportSVlanId c) c in
  set_igmpVersion ver c.

Definition v3_version (v : ip_version) : report_version :=
  match v with IP_VERSION4 => IGMP_V3 | IP_VERSION6 => MLD_V2 end.

Definition reflush (ga : addr) : H unit := modify (emit (FlowReflush ga)).

(** ** Source lists *)

Definition update_source (v : ip_version) (a : addr) (f : sourceEntry -> sourceEntry)
    (c : clientEntry) : clientEntry :=
  set_sourceList (update_first (source_match v a) f (sourceList c)) c.

(** [for (j = 0; j < numOfSrc; j++)] with the pointer moved on in every
    iteration. *)
Fixpoint for_sources (f : addr -> nat -> clientEntry -> option (clientEntry * nat))
    (srcs : list addr) (fr : nat) (c : clientEntry) : bool * clientEntry * nat :=
  match srcs with
  | [] => (true, c, fr)
  | a :: srcs' => match f a fr c with
                  | None => (false, c, fr)
                  | Some (c', fr') => for_sources f srcs' fr' c'
                  end
  end.

(** The same loop where the body says whether [p_NsourceAddr] is moved on: [n]
    is the number of iterations left and [ptr] the addresses from the pointer. *)
Fixpoint ptr_loop (f : addr -> nat -> clientEntry -> option (clientEntry * nat * bool))
    (n : nat) (ptr : list addr) (fr : nat) (c : clientEntry) : bool * clientEntry * nat :=
  match n, ptr with
  | S n', a :: rest => match f a fr c with
                       | None => (false, c, fr)
                       | Some (c', fr', adv) => ptr_loop f n' (if (adv : bool) then rest else ptr) fr' c'
                       end
  | _, _ => (true, c, fr)
  end.

(** Sources whose flag is still set are deleted. *)
Definition delete_flagged (fr : nat) (c : clientEntry) : clientEntry * nat :=
  (set_sourceList (filter (fun s => setOpFlag s = false) (sourceList c)) c,
   (length (filter (fun s => setOpFlag s = true) (sourceList c)) + fr)%nat).

Definition flag_all (c : clientEntry) : clientEntry :=
  set_sourceList (set_setOpFlag true <$> sourceList c) c.

(** Link a source with its timer set, or refresh the timer it has. *)
Definition put_source (v : ip_version) (t : Z) (a : addr) (fr : nat) (c : clientEntry)
    : option (clientEntry * nat) :=
  match rtk_igmp_searchSourceEntry v a c with
  | None => add_source (SourceEntry a t false false) fr c
  | Some _ => Some (update_source v a (set_portTimer t) c, fr)
  end.

(** The fast-leave rebuild: the old list goes, each source of the record is
    linked without a search. *)
Definition rebuild_sources (now t : Z) (srcs : list addr) (fr : nat) (c : clientEntry)
    : bool * clientEntry * nat :=
  let '(c, fr) := rtk_igmp_deleteSourceList fr (set_groupFilterTimer now c) in
  for_sources (fun a => add_source (SourceEntry a t false false)) srcs fr c.

(** The exclude-mode test. *)
Definition exclude_mode (now : Z) (c : clientEntry) : bool := now <? groupFilterTimer c.

Definition isExclude_source (v : ip_version) (now aging : Z) (a : addr) (fr : nat) (c : clientEntry)
    : option (clientEntry * nat) :=
  match rtk_igmp_searchSourceEntry v a c with
  | Some _ =>
      let f s := set_setOpFlag false
                   (if exclude_mode now c && (portTimer s <=? now) then set_portTimer now s else s) in
      Some (update_source v a f c, fr)
  | None =>
      add_source (SourceEntry a (if exclude_mode now c then u32 (now + aging) else now) false false) fr c
  end.

(** Non-fast TO_IN: every source timer is cut to the last-member time. *)
Definition toInclude_shrink (now last : Z) (s : sourceEntry) : sourceEntry :=
  let s := set_setOpFlag (now <? portTimer s) s in
  if u32 (now + last) <? portTimer s then set_portTimer (u32 (now + last)) s else s.

Definition toInclude_source (v : ip_version) (now aging : Z) (a : addr) (fr : nat) (c : clientEntry)
    : option (clientEntry * nat) :=
  match rtk_igmp_searchSourceEntry v a c with
  | Some _ => Some (update_source v a (fun s => set_setOpFlag false (set_portTimer (u32 (now + aging)) s)) c, fr)
  | None => add_source (SourceEntry a (u32 (now + aging)) false false) fr c
  end.

Definition toExclude_source (v : ip_version) (now : Z) (a : addr) (fr : nat) (c : clientEntry)
    : option (clientEntry * nat * bool) :=
  if exclude_mode now c then
    match rtk_igmp_searchSourceEntry v a c with
    | Some s => Some (update_source v a (set_setOpFlag false) c, fr, negb (now <? portTimer s))
    | None => match add_source (SourceEntry a (groupFilterTimer c) false false) fr c with
              | Some (c', fr') => Some (c', fr', false)
              | None => None
              end
    end
  else
    match rtk_igmp_searchSourceEntry v a c with
    | Some s => Some (update_source v a (set_setOpFlag false) c, fr, false)
    | None => match add_source (SourceEntry a now false false) fr c with
              | Some (c', fr') => Some (c', fr', true)
              | None => None
              end
    end.

(** BLOCK, client in exclude mode. *)
Definition block_exclude_source (v : ip_version) (now : Z) (fast : bool) (a : addr) (fr : nat)
    (c : clientEntry) : option (clientEntry * nat * bool) :=
  match rtk_igmp_searchSourceEntry v a c with
  | None => match add_source (SourceEntry a (groupFilterTimer c) false false) fr c with
            | Some (c', fr') => Some (c', fr', false)
            | None => None
            end
  | Some s =>
      let t := if fast then now else portTimer s in
      Some (update_source v a (set_portTimer t) c, fr, negb (now <? t))
  end.

(** BLOCK, client in include mode. *)
Definition block_include_source (v : ip_version) (now : Z) (fast : bool) (a : addr) (fr : nat)
    (c : clientEntry) : option (clientEntry * nat * bool) :=
  match rtk_igmp_searchSourceEntry v a c with
  | Some s => Some (update_source v a (fun s => if fast then set_portTimer now s else s) c, fr, false)
  | None => Some (c, fr, true)
  end.

(** ** Handlers *)

(** What a handler reads of a group record: its group and its [numOfSrc] source
    addresses. *)
Record groupRecord := GroupRecord { recGroup : addr; recSources : list addr }.

Definition rtk_igmp_processIsInclude (hdr : pktHdr) (v : ip_version) (ca : addr) (r : groupRecord)
    : H nf_ret :=
  let ga := recGroup r in
  let cf := conf_of hdr v in
  guard_reserved v ga ;;;
  guard_limit hdr v ga ca ;;;
  guard_white hdr v true ga ca (single_source (recSources r)) ;;;
  find_or_create_group hdr v ga RTK_IGMP_NF_DROP ;;;
  find_or_create_client hdr v ga ca rtk_igmp_sysUpSeconds RTK_IGMP_NF_DROP ;;;
  t <-- now ;;;
  on_client hdr v ga ca (fun fr c =>
    let c := stamp hdr (v3_version v) c in
    let t' := u32 (t + memberAgingInterval cf) in
    if fastLeave cf then rebuild_sources t t' (recSources r) fr c
    else for_sources (put_source v t') (recSources r) fr c) ;;;
  reflush ga ;;;
  ret RTK_IGMP_NF_CONTINUE.

Definition rtk_igmp_processIsExclude (hdr : pktHdr) (v : ip_version) (ca : addr) (r : groupRecord)
    : H nf_ret :=
  let ga := recGroup r in
  let cf := conf_of hdr v in
  guard_reserved v ga ;;;
  guard_limit hdr v ga ca ;;;
  guard_white hdr v true ga ca None ;;;
  find_or_create_group hdr v ga RTK_IGMP_NF_DROP ;;;
  find_or_create_client hdr v ga ca (fun _ => 0) RTK_IGMP_NF_DROP ;;;
  t <-- now ;;;
  on_client hdr v ga ca (fun fr c =>
    let c := flag_all (stamp hdr (v3_version v) c) in
    match for_sources (isExclude_source v t (memberAgingInterval cf)) (recSources r) fr c with
    | (true, c, fr) =>
        let '(c, fr) := delete_flagged fr c in
        (true, set_groupFilterTimer (u32 (t + memberAgingInterval cf)) c, fr)
    | out => out
    end) ;;;
  reflush ga ;;;
  ret RTK_IGMP_NF_CONTINUE.

Definition rtk_igmp_processToInclude (hdr : pktHdr) (v : ip_version) (ca : addr) (r : groupRecord)
    : H nf_ret :=
  let ga := recGroup r in
  let cf := conf_of hdr v in
  guard_reserved v ga ;;;
  guard_limit hdr v ga ca ;;;
  guard_white hdr v true ga ca (single_source (recSources r)) ;;;
  find_or_create_group hdr v ga RTK_IGMP_NF_DROP ;;;
  find_or_create_client hdr v ga ca (fun _ => 0) RTK_IGMP_NF_DROP ;;;
  t <-- now ;;;
  on_client hdr v ga ca (fun fr c =>
    let c := stamp hdr (v3_version v) c in
    if fastLeave cf then rebuild_sources t (u32 (t + memberAgingInterval cf)) (recSources r) fr c
    else
      let c := set_sourceList (toInclude_shrink t (lastMemberAgingInterval cf) <$> sourceList c) c in
      match for_sources (toInclude_source v t (memberAgingInterval cf)) (recSources r) fr c with
      | (true, c, fr) =>
          let t' := u32 (t + lastMemberAgingInterval cf) in
          (true, (if t' <? groupFilterTimer c then set_groupFilterTimer t' c else c), fr)
      | out => out
      end) ;;;
  reflush ga ;;;
  ret RTK_IGMP_NF_CONTINUE.

Definition rtk_igmp_processToExclude (hdr : pktHdr) (v : ip_version) (ca : addr) (r : groupRecord)
    : H nf_ret :=
  let ga := recGroup r in
  let cf := conf_of hdr v in
  guard_reserved v ga ;;;
  guard_limit hdr v ga ca ;;;
  guard_white hdr v true ga ca None ;;;
  find_or_create_group hdr v ga RTK_IGMP_NF_DROP ;;;
  find_or_create_client hdr v ga ca (fun _ => 0) RTK_IGMP_NF_DROP ;;;
  t <-- now ;;;
  on_client hdr v ga ca (fun fr c =>
    let c := stamp hdr (v3_version v) (flag_all c) in
    match ptr_loop (toExclude_source v t) (length (recSources r)) (recSources r) fr c with
    | (true, c, fr) =>
        let '(c, fr) := delete_flagged fr c in
        (true, set_groupFilterTimer (u32 (t + memberAgingInterval cf)) c, fr)
    | out => out
    end) ;;;
  reflush ga ;;;
  ret RTK_IGMP_NF_CONTINUE.

Definition rtk_igmp_processAllow (hdr : pktHdr) (v : ip_version) (ca : addr) (r : groupRecord)
    : H nf_ret :=
  let ga := recGroup r in
  let cf := conf_of hdr v in
  guard_reserved v ga ;;;
  guard_limit hdr v ga ca ;;;
  guard_white hdr v true ga ca (single_source (recSources r)) ;;;
  find_or_create_group hdr v ga RTK_IGMP_NF_DROP ;;;
  find_or_create_client hdr v ga ca rtk_igmp_sysUpSeconds RTK_IGMP_NF_DROP ;;;
  t <-- now ;;;
  on_client hdr v ga ca (fun fr c =>
    for_sources (put_source v (u32 (t + memberAgingInterval cf))) (recSources r) fr
      (stamp hdr (v3_version v) c)) ;;;
  reflush ga ;;;
  ret RTK_IGMP_NF_CONTINUE.

(** BLOCK learns nothing about an unknown group or client; the search still
    refreshes the port of a known one. *)
Definition rtk_igmp_processBlock (hdr : pktHdr) (v : ip_version) (ca : addr) (r : groupRecord)
    : H nf_ret :=
  let ga := recGroup r in
  let cf := conf_of hdr v in
  guard_reserved v ga ;;;
  guard_limit hdr v ga ca ;;;
  guard_white hdr v true ga ca None ;;;
  modify (alter_group (moduleIndex hdr) v ga
            (fun g => snd (rtk_igmp_searchClientEntry v g (devIfindex hdr) ca hdr))) ;;;
  t <-- now ;;;
  on_client hdr v ga ca (fun fr c =>
    let c := set_igmpVersion (v3_version v) c in
    ptr_loop (if exclude_mode t c then block_exclude_source v t (fastLeave cf)
              else block_include_source v t (fastLeave cf))
             (length (recSources r)) (recSources r) fr c) ;;;
  reflush ga ;;;
  ret RTK_IGMP_NF_CONTINUE.

(** The version a join stamps: an IGMPv1 report is type 0x12. *)
Definition join_version (v : ip_version) (ty : Z) : report_version :=
  match v with
  | IP_VERSION4 => if ty =? 0x12 then IGMP_V1 else IGMP_V2
  | IP_VERSION6 => MLD_V1
  end.

(** The group of a join: for IPv4 read only from the two report types. *)
Definition join_group (v : ip_version) (ty : Z) (ga : addr) : addr :=
  match v with
  | IP_VERSION4 => if (ty =? 0x12) || (ty =? 0x16) then ga else addr0
  | IP_VERSION6 => ga
  end.

Definition rtk_igmp_processJoin (hdr : pktHdr) (v : ip_version) (ty : Z) (ca ga0 : addr) : H nf_ret :=
  let ga := join_group v ty ga0 in
  let cf := conf_of hdr v in
  guard_reserved v ga ;;;
  guard_limit hdr v ga ca ;;;
  guard_white hdr v false ga ca None ;;;
  find_or_create_group hdr v ga RTK_IGMP_NF_ACCEPT ;;;
  find_or_create_client hdr v ga ca (fun _ => 0) RTK_IGMP_NF_ACCEPT ;;;
  t <-- now ;;;
  on_client hdr v ga ca (fun fr c =>
    let '(c, fr) := rtk_igmp_deleteSourceList fr (stamp hdr (join_version v ty) c) in
    (true, set_groupFilterTimer (u32 (t + memberAgingInterval cf)) c, fr)) ;;;
  reflush ga ;;;
  ret RTK_IGMP_NF_ACCEPT.

(** A leave cuts the timers of the client, or with fast leave deletes it; a group
    left without clients is deleted. *)
Definition leave_shrink (now last : Z) (c : clientEntry) : clientEntry :=
  let t := u32 (now + last) in
  let c := set_sourceList
             ((fun s => if t <? portTimer s then set_portTimer t s else s) <$> sourceList c) c in
  if t <? groupFilterTimer c then set_groupFilterTimer t c else c.

Definition leave_client (hdr : pktHdr) (v : ip_version) (ca ga : addr) (st : igmp) : igmp :=
  let cf := conf_of hdr v in
  let mi := moduleIndex hdr in
  match rtk_igmp_searchGroupEntry mi v ga st with
  | None => st
  | Some _ =>
      let st := alter_group mi v ga
                  (fun g => snd (rtk_igmp_searchClientEntry v g (devIfindex hdr) ca hdr)) st in
      match get_client mi v ga ca (smac hdr) st, rtk_igmp_searchGroupEntry mi v ga st with
      | Some c, Some g =>
          if fastLeave cf
          then let '(g', st) := rtk_igmp_deleteClientEntry (client_match v ca (smac hdr)) g st in
               alter_group mi v ga (fun _ => g') st
          else alter_client mi v ga ca (smac hdr)
                 (leave_shrink (rtk_igmp_sysUpSeconds st) (lastMemberAgingInterval cf)) st
      | _, _ => st
      end
  end.

Definition delete_empty_group (mi : nat) (v : ip_version) (ga : addr) (st : igmp) : igmp :=
  match rtk_igmp_searchGroupEntry mi v ga st with
  | Some g => match clientList g with
              | [] => rtk_igmp_deleteGroupEntry mi g st
              | _ => st
              end
  | None => st
  end.

Definition rtk_igmp_processLeave (hdr : pktHdr) (v : ip_version) (ca ga : addr) : H nf_ret :=
  modify (leave_client hdr v ca ga) ;;;
  modify (delete_empty_group (moduleIndex hdr) v ga) ;;;
  (if fastLeave (conf_of hdr v) then reflush ga else ret tt) ;;;
  ret RTK_IGMP_NF_ACCEPT.
End Report.
