(* ===== verification/IgmpInvariant.v ===== *)
(** * IgmpInvariant: the membership handlers keep the database consistent

    Every handler of IgmpReport preserves the invariant [inv] of IgmpTable: the
    groups, clients and sources in the tables and in the pools add up to the
    static arrays (nothing leaks, whatever the report and whatever branch the
    handler leaves by), and each group stays in its hash bucket.  The admission
    checks are an interface: the theorems hold for every policy. *)
From S2P Require Import Prelude IgmpTable IgmpReport.

(** A report the snooper can be handed: any handler, any argument. *)
Inductive report :=
| Join (v : ip_version) (ty : Z) (ca ga : addr)
| Leave (v : ip_version) (ca ga : addr)
| IsInclude (v : ip_version) (ca : addr) (r : groupRecord)
| IsExclude (v : ip_version) (ca : addr) (r : groupRecord)
| ToInclude (v : ip_version) (ca : addr) (r : groupRecord)
| ToExclude (v : ip_version) (ca : addr) (r : groupRecord)
| Allow (v : ip_version) (ca : addr) (r : groupRecord)
| Block (v : ip_version) (ca : addr) (r : groupRecord).

Lemma snd_run (m : H nf_ret) st : snd (run m st) = snd (m st).
Proof. unfold run. by destruct (m st) as [[r|r] st']. Qed.

Section Handle.
Context {cfg : IgmpConfig} {policy : AdmissionPolicy}.

Definition handle (hdr : pktHdr) (r : report) : H nf_ret :=
  match r with
  | Join v ty ca ga => rtk_igmp_processJoin hdr v ty ca ga
  | Leave v ca ga => rtk_igmp_processLeave hdr v ca ga
  | IsInclude v ca r => rtk_igmp_processIsInclude hdr v ca r
  | IsExclude v ca r => rtk_igmp_processIsExclude hdr v ca r
  | ToInclude v ca r => rtk_igmp_processToInclude hdr v ca r
  | ToExclude v ca r => rtk_igmp_processToExclude hdr v ca r
  | Allow v ca r => rtk_igmp_processAllow hdr v ca r
  | Block v ca r => rtk_igmp_processBlock hdr v ca r
  end.

(** A sequence of reports, each with its packet header. *)
Definition handle_all (rs : list (pktHdr * report)) (st : igmp) : igmp :=
  foldl (fun st r => snd (handle (fst r) (snd r) st)) st rs.

(** The state of a freshly loaded module: [n] bridge modules with empty tables
    and full pools. *)
Definition init_igmp (n G C S : nat) (start : Z) : igmp :=
  let tbl := replicate (Z.to_nat IGMP_HASH_TBL_SIZE) [] in
  Igmp 0 start (replicate n (MulticastModule true tbl tbl)) G C S 1 true true
    (VerCounters 0 0 0 0 0) [].

Section Preserve.
Context (G C S n mi : nat).

Definition good (st : igmp) : Prop := inv G C S st /\ in_range mi st /\ length (modules st) = n.
Definition preserves {A} (m : H A) : Prop := forall st, good st -> good (snd (m st)).

Lemma preserves_ret {A} (x : A) : preserves (ret x).
Proof. by intros st. Qed.
Lemma preserves_early {A} r : preserves (early (A := A) r).
Proof. by intros st. Qed.
Lemma preserves_now : preserves now.
Proof. by intros st. Qed.

Lemma preserves_bind {A B} (m : H A) (k : A -> H B) :
  preserves m -> (forall x, preserves (k x)) -> preserves (bind m k).
Proof.
  intros Hm Hk st Hg. specialize (Hm st Hg). unfold bind.
  destruct (m st) as [[r|x] st']; simpl in *; [done|]. by apply Hk.
Qed.

Lemma preserves_modify f : (forall st, good st -> good (f st)) -> preserves (modify f).
Proof. intros Hf st. apply Hf. Qed.

Lemma good_same st st' :
  modules st' = modules st -> freeGroups st' = freeGroups st -> freeClients st' = freeClients st ->
  freeSources st' = freeSources st -> good st -> good st'.
Proof.
  intros Em Eg Ec Es [[Hc Hh Hs] [Hr Hlen]]. split; [split|].
  - rewrite conserved_total in *.
    by rewrite Eg, Ec, Es, !(total_modules_eq _ _ _ Em).
  - by eapply hashed_modules_eq.
  - by eapply sized_modules_eq.
  - unfold in_range in *. by rewrite Em.
Qed.

Lemma good_emit e st : good st -> good (emit e st).
Proof. by apply good_same. Qed.

(** Rewriting the first matching group of a bucket, with the pools adjusted to
    what the group gained or lost. *)
Lemma good_alter_group v ga f g fc fs st :
  rtk_igmp_searchGroupEntry mi v ga st = Some g ->
  groupAddr (f g) = groupAddr g /\ groupIpVersion (f g) = groupIpVersion g ->
  (fc + clients_in (f g) = freeClients st + clients_in g)%nat ->
  (fs + sources_in (f g) = freeSources st + sources_in g)%nat ->
  good st -> good (set_free (freeGroups st) fc fs (alter_group mi v ga f st)).
Proof.
  intros Hg Hf Ec Es [[Hc Hh Hs] [Hr Hlen]]. unfold rtk_igmp_searchGroupEntry in Hg. split; [split|].
  - rewrite conserved_total in *. destruct Hc as (H1 & H2 & H3). simpl.
    rewrite !total_set_free. unfold alter_group.
    assert (forall w, (total w (alter_bucket mi v (hash v ga) (update_first (group_match v ga) f) st) + w g
                       = total w st + w (f g))%nat) as Ht.
    { intros w. pose proof (total_alter w mi v (hash v ga) (update_first (group_match v ga) f) st
        Hr Hs (hash_bound _ _)) as Ht. pose proof (sum_update_first _ w f _ _ Hg). lia. }
    pose proof (Ht (fun _ => 1%nat)). pose proof (Ht clients_in). pose proof (Ht sources_in).
    cbv beta in *. lia.
  - eapply hashed_modules_eq; [|eapply (hashed_alter_bucket mi v (hash v ga)); [done|]]; [done|].
    intros g' Hg'. eapply elem_update_first in Hg' as [Hg'| ->]; [by eapply Hh| |exact Hg].
    destruct Hf as [-> ->]. eapply Hh, list_elem_of_In, (proj1 (List.find_some _ _ Hg)).
  - eapply sized_modules_eq; [|by apply sized_alter_bucket]. done.
  - unfold in_range in *. simpl. by rewrite !length_alter.
Qed.

Lemma alter_group_none v ga f st :
  rtk_igmp_searchGroupEntry mi v ga st = None -> good st -> good (alter_group mi v ga f st).
Proof.
  intros Hn [[Hc Hh Hs] [Hr Hlen]]. unfold alter_group. split; [split|].
  - rewrite conserved_total in *. destruct Hc as (H1 & H2 & H3). simpl.
    assert (forall w, total w (alter_bucket mi v (hash v ga) (update_first (group_match v ga) f) st) = total w st) as Ht.
    { intros w. pose proof (total_alter w mi v (hash v ga) (update_first (group_match v ga) f) st
        Hr Hs (hash_bound _ _)) as Ht. rewrite update_first_none in Ht by done. lia. }
    by rewrite !Ht.
  - apply hashed_alter_bucket; [done|]. rewrite update_first_none by done. by apply Hh.
  - by apply sized_alter_bucket.
  - unfold in_range, alter_bucket in *. simpl. by rewrite length_alter.
Qed.

(** The same without any change to the pools. *)
Lemma good_alter_group_same v ga f st :
  (forall g, groupAddr (f g) = groupAddr g /\ groupIpVersion (f g) = groupIpVersion g) ->
  (forall g, clients_in (f g) = clients_in g) -> (forall g, sources_in (f g) = sources_in g) ->
  good st -> good (alter_group mi v ga f st).
Proof.
  intros Hf Hc Hs Hg. destruct (rtk_igmp_searchGroupEntry mi v ga st) as [g|] eqn:E.
  - eapply good_same; [| | | |eapply (good_alter_group v ga f g (freeClients st) (freeSources st)); eauto];
      try done; by rewrite ?Hc, ?Hs.
  - by apply alter_group_none.
Qed.

Lemma sources_update_first q f g :
  (forall c, length (sourceList (f c)) = length (sourceList c)) ->
  sources_in (set_clientList (update_first q f (clientList g)) g) = sources_in g.
Proof.
  intros Hf. unfold sources_in. simpl. induction (clientList g) as [|c l IH]; simpl; [done|].
  destruct (q c); simpl; [by rewrite Hf|lia].
Qed.

Lemma searchClient_same v g ifidx a hdr :
  let g' := snd (rtk_igmp_searchClientEntry v g ifidx a hdr) in
  (groupAddr g' = groupAddr g /\ groupIpVersion g' = groupIpVersion g) /\
  clients_in g' = clients_in g /\ sources_in g' = sources_in g.
Proof.
  unfold rtk_igmp_searchClientEntry. destruct (List.find _ _); simpl; [|done].
  split; [done|]. split; [|by apply sources_update_first].
  unfold clients_in. simpl. apply length_update_first.
Qed.

Lemma preserves_guard_reserved v ga : preserves (guard_reserved v ga).
Proof. unfold guard_reserved. intros st. by destruct (rtk_igmp_checkGroupToPsTbl v ga) as [[[] ? ? []]|]. Qed.

Lemma preserves_guard_limit hdr v ga ca : preserves (guard_limit hdr v ga ca).
Proof. intros st. unfold guard_limit. by destruct (rtk_igmp_group_limitCheck st hdr v ga ca). Qed.

Lemma preserves_guard_white hdr v b ga ca s : preserves (guard_white hdr v b ga ca s).
Proof. intros st. unfold guard_white. by destruct (rtk_igmp_filterWhiteListCheck _ _ _ _ _ _). Qed.

Lemma preserves_reflush ga : preserves (reflush ga).
Proof. apply preserves_modify. intros st. apply good_emit. Qed.

(** A new, empty group in its bucket, taken from the pool. *)
Lemma good_link_group v ga k st :
  freeGroups st = Datatypes.S k -> good st ->
  good (rtk_igmp_linkGroupEntry mi (GroupEntry ga v 0 0 0 [])
          (set_free k (freeClients st) (freeSources st) st)).
Proof.
  intros Hn [[Hc Hh Hs] [Hr Hlen]]. unfold rtk_igmp_linkGroupEntry. simpl.
  set (g := set_groupIdx _ _).
  set (st1 := set_groupIncIdx _ _).
  assert (good (alter_bucket mi v (hash v ga) (cons g) st1)) as Hgood.
  { split; [split|].
    - rewrite conserved_total in *. destruct Hc as (H1 & H2 & H3). simpl.
      assert (forall w, (total w (alter_bucket mi v (hash v ga) (cons g) st1) = total w st + w g)%nat) as Ht.
      { intros w. pose proof (total_alter w mi v (hash v ga) (cons g) st1 Hr Hs (hash_bound _ _)) as Ht.
        simpl in Ht. rewrite (total_modules_eq w st st1 eq_refl) in Ht. lia. }
      rewrite !Ht. unfold clients_in at 2, sources_in at 2. simpl. lia.
    - apply hashed_alter_bucket; [done|]. intros g' [->|Hg']%elem_of_cons; [done|by eapply Hh].
    - by apply sized_alter_bucket.
    - unfold in_range, alter_bucket in *. simpl. by rewrite length_alter. }
  destruct (hwGroupAddCb _); [by apply good_emit|done].
Qed.

Lemma preserves_find_group hdr v ga r :
  moduleIndex hdr = mi -> preserves (find_or_create_group hdr v ga r).
Proof.
  intros Hmi st Hg. unfold find_or_create_group. rewrite Hmi.
  destruct (rtk_igmp_searchGroupEntry _ _ _ _); [done|].
  unfold rtk_igmp_allocateGroupEntry. destruct (freeGroups st) eqn:E; [done|]. simpl.
  by apply good_link_group.
Qed.

Lemma preserves_find_client hdr v ga ca fresh r :
  moduleIndex hdr = mi -> preserves (find_or_create_client hdr v ga ca fresh r).
Proof.
  intros Hmi st Hg. unfold find_or_create_client. rewrite Hmi.
  destruct (rtk_igmp_searchGroupEntry _ _ _ _) as [g|] eqn:Eg; [|done].
  destruct (rtk_igmp_searchClientEntry _ _ _ _ _) as [[c|] g'] eqn:Ec; simpl.
  - apply good_alter_group_same; auto; intros g0;
      by destruct (searchClient_same v g0 (devIfindex hdr) ca hdr) as (? & ? & ?).
  - unfold rtk_igmp_allocateClientEntry. destruct (freeClients st) as [|k] eqn:En; [done|]. simpl.
    set (c := set_groupFilterTimer _ _).
    eapply good_same; [| | | |eapply (good_alter_group v ga
        (fun g => set_clientList (c :: clientList g) g) g k (freeSources st) st)]; try done.
    rewrite En. unfold clients_in. simpl. lia.
Qed.

(** Source-list code accounts for the entries it takes and gives back. *)
Definition accounts (f : nat -> clientEntry -> bool * clientEntry * nat) : Prop :=
  forall fr c ok c' fr', f fr c = (ok, c', fr') ->
    (length (sourceList c') + fr' = length (sourceList c) + fr)%nat.

Lemma preserves_on_client hdr v ga ca f :
  moduleIndex hdr = mi -> accounts f -> preserves (on_client hdr v ga ca f).
Proof.
  intros Hmi Hf st Hg. unfold on_client, get_client. rewrite Hmi.
  destruct (rtk_igmp_searchGroupEntry _ _ _ _) as [g|] eqn:Eg; [|done]. simpl.
  destruct (List.find _ _) as [c|] eqn:Ec; [|done].
  destruct (f (freeSources st) c) as [[ok c'] fr] eqn:Ef. specialize (Hf _ _ _ _ _ Ef).
  assert (good (set_free (freeGroups st) (freeClients st) fr
    (alter_client mi v ga ca (smac hdr) (fun _ => c') st))) as Hgood.
  { unfold alter_client. eapply good_alter_group; [done|done| | |done].
    - unfold clients_in. simpl. by rewrite length_update_first.
    - unfold sources_in. simpl.
      pose proof (sum_update_first _ (fun c => length (sourceList c)) (fun _ => c') _ _ Ec). lia. }
  by destruct ok.
Qed.

Lemma add_source_acct s fr c c' fr' : add_source s fr c = Some (c', fr') ->
  (length (sourceList c') + fr' = length (sourceList c) + fr)%nat.
Proof. unfold add_source. destruct fr; intros; simplify_eq. simpl. lia. Qed.

Lemma length_update_source v a f c : length (sourceList (update_source v a f c)) = length (sourceList c).
Proof. apply length_update_first. Qed.

Lemma for_sources_acct f srcs :
  (forall a fr c c' fr', f a fr c = Some (c', fr') ->
     (length (sourceList c') + fr' = length (sourceList c) + fr)%nat) ->
  accounts (for_sources f srcs).
Proof.
  intros Hf. induction srcs as [|a srcs IH]; intros fr c ok c' fr' Hl; simplify_eq/=; [done|].
  destruct (f a fr c) as [[c1 fr1]|] eqn:E; simplify_eq; [|done].
  apply Hf in E. apply IH in Hl. lia.
Qed.

Lemma ptr_loop_acct f k ptr :
  (forall a fr c c' fr' b, f a fr c = Some (c', fr', b) ->
     (length (sourceList c') + fr' = length (sourceList c) + fr)%nat) ->
  accounts (ptr_loop f k ptr).
Proof.
  intros Hf. revert ptr. induction k as [|k IH]; intros ptr fr c ok c' fr' Hl; simpl in Hl; [by simplify_eq|].
  destruct ptr as [|a rest]; [by simplify_eq|].
  destruct (f a fr c) as [[[c1 fr1] b]|] eqn:E; simplify_eq; [|done].
  apply Hf in E. apply IH in Hl. lia.
Qed.

Lemma delete_flagged_acct fr c c' fr' : delete_flagged fr c = (c', fr') ->
  (length (sourceList c') + fr' = length (sourceList c) + fr)%nat.
Proof.
  unfold delete_flagged. intros [= <- <-]. simpl. induction (sourceList c) as [|s l IH]; [done|].
  rewrite !filter_cons. destruct (setOpFlag s) eqn:E; repeat case_decide; simpl in *; try congruence; lia.
Qed.

Lemma rebuild_acct now t srcs : accounts (rebuild_sources now t srcs).
Proof.
  intros fr c ok c' fr'. unfold rebuild_sources. simpl. intros Hl.
  apply for_sources_acct in Hl; [simpl in Hl; lia|]. intros *. apply add_source_acct.
Qed.

(** Deleting a group that a search found gives back all it holds. *)
Lemma good_delete_group v ga g st :
  rtk_igmp_searchGroupEntry mi v ga st = Some g -> good st ->
  good (rtk_igmp_deleteGroupEntry mi g st).
Proof.
  intros Hg [[Hc Hh Hs] [Hr Hlen]].
  pose proof (search_group_spec _ _ _ _ _ Hg) as [Hin Hm].
  destruct (Hh _ _ _ _ Hin) as [Hv Hhash].
  unfold rtk_igmp_deleteGroupEntry, rtk_igmp_unlinkGroupEntry. simpl. rewrite Hv, Hhash.
  set (e := InvalidateGroupFlow _ _ _). set (d := GroupDelCb _ _ _ _).
  match goal with |- context [alter_bucket _ _ _ ?f ?s] => set (st1 := s); set (q := f) end.
  assert (modules st1 = modules st /\ freeGroups st1 = freeGroups st /\
          freeClients st1 = (clients_in g + freeClients st)%nat /\
          freeSources st1 = (sources_in g + freeSources st)%nat) as (Em & Eg & Ec & Es).
  { subst st1. by destruct (hwGroupDelCb st). }
  assert (in_range mi st1 /\ sized st1 /\ hashed st1) as (Hr1 & Hs1 & Hh1).
  { unfold in_range. rewrite Em. split; [done|].
    split; [by eapply sized_modules_eq|by eapply hashed_modules_eq]. }
  assert (bucket mi v (hash v ga) st1 = bucket mi v (hash v ga) st) as Eb by (unfold bucket; by rewrite Em).
  assert (forall w, (total w (alter_bucket mi v (hash v ga) q st1) + w g = total w st)%nat) as Ht.
  { intros w. pose proof (total_alter w mi v (hash v ga) q st1 Hr1 Hs1 (hash_bound _ _)) as Ht.
    rewrite Eb, (total_modules_eq w st st1 Em) in Ht.
    pose proof (sum_remove_first (group_match v (groupAddr g)) w (bucket mi v (hash v ga) st) g) as Hrm.
    subst q. rewrite <- Hrm in Ht; [lia|].
    unfold rtk_igmp_searchGroupEntry in Hg. rewrite <- Hg. symmetry. apply find_ext.
    intros x. by apply addr_match_trans. }
  split; [split|].
  - rewrite conserved_total in *. destruct Hc as (H1 & H2 & H3). simpl. rewrite !total_set_free.
    rewrite Eg, Ec, Es. pose proof (Ht (fun _ => 1%nat)). pose proof (Ht clients_in).
    pose proof (Ht sources_in). cbv beta in *. lia.
  - eapply hashed_modules_eq; [|apply (hashed_alter_bucket mi v (hash v ga) q st1 Hh1)]; [done|].
    intros x Hx%elem_remove_first. rewrite Eb in Hx. by eapply Hh.
  - eapply sized_modules_eq; [|by apply (sized_alter_bucket mi v (hash v ga) q st1)]. done.
  - unfold in_range in *. simpl. by rewrite length_alter, Em.
Qed.

Lemma good_delete_empty v ga st : good st -> good (delete_empty_group mi v ga st).
Proof.
  intros Hg. unfold delete_empty_group. destruct (rtk_igmp_searchGroupEntry mi v ga st) eqn:E; [|done].
  destruct (clientList g); [|done]. by eapply good_delete_group.
Qed.

Lemma length_leave_shrink now last c : length (sourceList (leave_shrink now last c)) = length (sourceList c).
Proof. unfold leave_shrink. destruct (_ <? _); simpl; apply length_fmap. Qed.

Lemma good_search_client hdr v ca ga st : good st ->
  good (alter_group mi v ga (fun g => snd (rtk_igmp_searchClientEntry v g (devIfindex hdr) ca hdr)) st).
Proof.
  intros Hg. apply good_alter_group_same; auto; intros g0;
    by destruct (searchClient_same v g0 (devIfindex hdr) ca hdr) as (? & ? & ?).
Qed.

Lemma good_leave_client hdr v ca ga st :
  moduleIndex hdr = mi -> good st -> good (leave_client hdr v ca ga st).
Proof.
  intros Hmi Hg. unfold leave_client. rewrite Hmi.
  destruct (rtk_igmp_searchGroupEntry mi v ga st) eqn:E0; [|done].
  pose proof (good_search_client hdr v ca ga st Hg) as Hg1. clear E0 g.
  match goal with |- context [get_client _ _ _ _ _ ?s] => set (st1 := s) in * end.
  unfold get_client. destruct (rtk_igmp_searchGroupEntry mi v ga st1) as [g|] eqn:Eg; [|done]. simpl.
  destruct (List.find _ (clientList g)) as [c|] eqn:Ec; [|done].
  destruct (fastLeave _).
  - unfold rtk_igmp_deleteClientEntry. rewrite Ec. simpl.
    eapply good_same; [| | | |eapply (good_alter_group v ga _ g (Datatypes.S (freeClients st1))
      (length (sourceList c) + freeSources st1) st1 Eg)]; [done..| | |done].
    + unfold clients_in. simpl. rewrite (length_remove_first _ _ _ Ec). lia.
    + unfold sources_in. simpl.
      pose proof (sum_remove_first _ (fun c => length (sourceList c)) _ _ Ec). lia.
  - apply good_alter_group_same; [done| | |done]; intros g0.
    + unfold clients_in. simpl. apply length_update_first.
    + apply sources_update_first. intros. apply length_leave_shrink.
Qed.

(** ** The handlers *)

Lemma put_source_acct v t a fr c c' fr' : put_source v t a fr c = Some (c', fr') ->
  (length (sourceList c') + fr' = length (sourceList c) + fr)%nat.
Proof.
  unfold put_source. destruct (rtk_igmp_searchSourceEntry v a c); [|apply add_source_acct].
  intros; simplify_eq. by rewrite length_update_source.
Qed.

Lemma isExclude_acct v now aging a fr c c' fr' : isExclude_source v now aging a fr c = Some (c', fr') ->
  (length (sourceList c') + fr' = length (sourceList c) + fr)%nat.
Proof.
  unfold isExclude_source. destruct (rtk_igmp_searchSourceEntry v a c); [|apply add_source_acct].
  intros; simplify_eq. by rewrite length_update_source.
Qed.

Lemma toInclude_acct v now aging a fr c c' fr' : toInclude_source v now aging a fr c = Some (c', fr') ->
  (length (sourceList c') + fr' = length (sourceList c) + fr)%nat.
Proof.
  unfold toInclude_source. destruct (rtk_igmp_searchSourceEntry v a c); [|apply add_source_acct].
  intros; simplify_eq. by rewrite length_update_source.
Qed.

Lemma toExclude_acct v now a fr c c' fr' b : toExclude_source v now a fr c = Some (c', fr', b) ->
  (length (sourceList c') + fr' = length (sourceList c) + fr)%nat.
Proof.
  unfold toExclude_source.
  destruct (exclude_mode now c), (rtk_igmp_searchSourceEntry v a c);
    try (destruct (add_source _ fr c) as [[? ?]|] eqn:E; [apply add_source_acct in E|]);
    intros; simplify_eq; rewrite ?length_update_source; lia.
Qed.

Lemma block_exclude_acct v now fast a fr c c' fr' b :
  block_exclude_source v now fast a fr c = Some (c', fr', b) ->
  (length (sourceList c') + fr' = length (sourceList c) + fr)%nat.
Proof.
  unfold block_exclude_source. destruct (rtk_igmp_searchSourceEntry v a c);
    try (destruct (add_source _ fr c) as [[? ?]|] eqn:E; [apply add_source_acct in E|]);
    intros; simplify_eq; rewrite ?length_update_source; lia.
Qed.

Lemma block_include_acct v now fast a fr c c' fr' b :
  block_include_source v now fast a fr c = Some (c', fr', b) ->
  (length (sourceList c') + fr' = length (sourceList c) + fr)%nat.
Proof.
  unfold block_include_source. destruct (rtk_igmp_searchSourceEntry v a c);
    intros; simplify_eq; rewrite ?length_update_source; lia.
Qed.

(** The source-list code of each handler accounts for its entries. *)
Lemma accounts_join t hdr ver : accounts (fun fr c =>
  let '(c, fr) := rtk_igmp_deleteSourceList fr (stamp hdr ver c) in (true, set_groupFilterTimer t c, fr)).
Proof. intros fr c ok c' fr' E. simplify_eq/=. lia. Qed.

Lemma accounts_flagged (f : nat -> clientEntry -> bool * clientEntry * nat) t g :
  accounts f -> (forall c, length (sourceList (g c)) = length (sourceList c)) ->
  accounts (fun fr c => match f fr (g c) with
                        | (true, c, fr) => let '(c, fr) := delete_flagged fr c in
                                           (true, set_groupFilterTimer t c, fr)
                        | out => out
                        end).
Proof.
  intros Hf Hg fr c ok c' fr' E. rewrite <- (Hg c).
  destruct (f fr (g c)) as [[[] c1] fr1] eqn:Ef; apply Hf in Ef; [|by simplify_eq].
  destruct (delete_flagged fr1 c1) as [c2 fr2] eqn:Ed. apply delete_flagged_acct in Ed.
  simplify_eq. simpl. lia.
Qed.

Lemma length_flag_all c : length (sourceList (flag_all c)) = length (sourceList c).
Proof. apply length_fmap. Qed.

Lemma accounts_toInclude v t t' last aging srcs : accounts (fun fr c =>
  let c := set_sourceList (toInclude_shrink t last <$> sourceList c) c in
  match for_sources (toInclude_source v t aging) srcs fr c with
  | (true, c, fr) => (true, (if t' <? groupFilterTimer c then set_groupFilterTimer t' c else c), fr)
  | out => out
  end).
Proof.
  intros fr c ok c' fr' E. cbv zeta in E.
  destruct (for_sources _ _ _ _) as [[[] c1] fr1] eqn:Ef;
    (apply for_sources_acct in Ef; [|apply toInclude_acct]);
    simpl in Ef; rewrite length_fmap in Ef; [|by simplify_eq].
  destruct (_ <? _); by simplify_eq.
Qed.

Lemma preserves_handle hdr r : moduleIndex hdr = mi -> preserves (handle hdr r).
Proof.
  intros Hmi.
  destruct r; simpl;
    repeat first [ apply preserves_bind; [|intros ?]
                 | apply preserves_ret | apply preserves_now | apply preserves_reflush
                 | apply preserves_guard_reserved | apply preserves_guard_limit
                 | apply preserves_guard_white | by apply preserves_find_group
                 | by apply preserves_find_client | apply preserves_on_client; [done|] ].
  - apply accounts_join.
  - apply preserves_modify. intros st. by apply good_leave_client.
  - apply preserves_modify. intros st. rewrite Hmi. apply good_delete_empty.
  - destruct (fastLeave _); [apply preserves_reflush|apply preserves_ret].
  - intros fr c ok c' fr' E. cbv zeta in E. destruct (fastLeave _); [by apply rebuild_acct in E|].
    apply for_sources_acct in E; [done|apply put_source_acct].
  - apply (accounts_flagged _ _ (fun c => flag_all (stamp hdr (v3_version v) c)));
      [|intros c; by apply (length_flag_all c)].
    apply for_sources_acct. intros *. apply isExclude_acct.
  - intros fr c ok c' fr' E. cbv zeta in E. destruct (fastLeave _); [by apply rebuild_acct in E|].
    by apply accounts_toInclude in E.
  - apply (accounts_flagged _ _ (fun c => stamp hdr (v3_version v) (flag_all c)));
      [|intros c; by apply (length_flag_all c)].
    apply ptr_loop_acct. intros *. apply toExclude_acct.
  - intros fr c ok c' fr' E. apply for_sources_acct in E; [done|apply put_source_acct].
  - apply preserves_modify. intros st. rewrite Hmi. apply good_search_client.
  - intros fr c ok c' fr' E. apply ptr_loop_acct in E; [done|].
    destruct (exclude_mode _ _); [apply block_exclude_acct|apply block_include_acct].
Qed.
End Preserve.

Lemma inv_init n G C S start : inv G C S (init_igmp n G C S start).
Proof.
  assert (forall (w : groupEntry -> nat) k, sum_list_with (sum_list_with w) (replicate k []) = 0%nat) as He.
  { intros w k. induction k; simpl; auto. }
  assert (forall w, total w (init_igmp n G C S start) = 0%nat) as Ht.
  { intros w. rewrite total_modules. simpl. induction n as [|n IH]; simpl; [done|]. rewrite IH.
    unfold module_total. simpl. by rewrite He. }
  split.
  - rewrite conserved_total, !Ht. simpl. lia.
  - intros mi v h g Hg. unfold bucket in Hg. simpl in Hg.
    destruct (replicate n _ !! mi) as [m|] eqn:E; [|simpl in Hg; set_solver].
    apply lookup_replicate in E as [-> _]. simpl in Hg.
    destruct v; simpl in Hg; destruct (replicate _ [] !! h) as [b|] eqn:Eb;
      (apply lookup_replicate in Eb as [-> _] || idtac); simpl in Hg; set_solver.
  - unfold sized. simpl. apply Forall_replicate. intros []; apply length_replicate.
Qed.

(** C3: the database never leaks an entry and never loses track of a group: after
    any sequence of joins, leaves and IGMPv3/MLDv2 records on a freshly loaded
    module, whatever the admission policy decides, the entries in the tables and
    in the pools add up to the static arrays and every group is in the hash
    bucket of its address. *)
Theorem handlers_preserve_database n G C S start rs :
  Forall (fun r => (moduleIndex (fst r) < n)%nat) rs ->
  inv G C S (handle_all rs (init_igmp n G C S start)).
Proof.
  intros Hr.
  assert (forall st, inv G C S st -> length (modules st) = n -> inv G C S (handle_all rs st)) as Hall.
  { induction Hr as [|[hdr r] rs Hmi _ IH]; intros st Hi Hl; [done|]. simpl in *.
    destruct (preserves_handle G C S n (moduleIndex hdr) hdr r eq_refl st) as (Hi' & _ & Hl').
    { split; [done|]. split; [|done]. unfold in_range. lia. }
    by apply IH. }
  apply Hall; [apply inv_init|]. simpl. apply length_replicate.
Qed.
End Handle.
