(* ===== verification/IgmpView.v ===== *)
(** * IgmpView: the database as a map from memberships to clients

    The abstract view of the snooping database is a partial map: a key names a
    bridge module, an IP version, a group, a client and the client's MAC, and the
    map gives the client entry the tables hold for it.  This file proves what the
    table operations do to the map; the handler theorems of IgmpSemantics are
    stated on it. *)
From S2P Require Import Prelude IgmpTable IgmpReport IgmpInvariant.

(** ** Memberships *)

Record key := Key { k_mod : nat; k_ver : ip_version; k_group : addr; k_client : addr; k_mac : list Z }.

Definition same_group (mi : nat) (v : ip_version) (ga : addr) (mi' : nat) (v' : ip_version) (ga' : addr) : bool :=
  bool_decide (mi = mi') && bool_decide (v = v') && addr_match v ga ga'.

Definition same_key (k k' : key) : bool :=
  same_group (k_mod k) (k_ver k) (k_group k) (k_mod k') (k_ver k') (k_group k') &&
  (addr_match (k_ver k) (k_client k) (k_client k') && bool_decide (k_mac k = k_mac k')).

Section View.
Context {cfg : IgmpConfig} {policy : AdmissionPolicy}.

Definition view (st : igmp) (k : key) : option clientEntry :=
  get_client (k_mod k) (k_ver k) (k_group k) (k_client k) (k_mac k) st.

(** The key of a report. *)
Definition key_of (hdr : pktHdr) (v : ip_version) (ga ca : addr) : key :=
  Key (moduleIndex hdr) v ga ca (smac hdr).

(** The checks that let a report through. *)
Definition admitted (hdr : pktHdr) (v : ip_version) (v3 : bool) (ga ca : addr) (src : option addr)
    (st : igmp) : bool :=
  match rtk_igmp_checkGroupToPsTbl v ga with Some r => isCopy2cpu r | None => true end &&
  bool_decide (rtk_igmp_group_limitCheck st hdr v ga ca = RTK_IGMP_NF_CONTINUE) &&
  rtk_igmp_filterWhiteListCheck hdr v v3 ga ca src.

(** The pools can serve a report: the group is known or one is left, the client
    is known or one is left. *)
Definition room (k : key) (st : igmp) : bool :=
  (bool_decide (is_Some (rtk_igmp_searchGroupEntry (k_mod k) (k_ver k) (k_group k) st)) || (0 <? freeGroups st)%nat) &&
  (bool_decide (is_Some (view st k)) || (0 <? freeClients st)%nat).

(** The client a learning handler works on: the one the map has, with its port
    refreshed, or a new one. *)
Definition client0 (hdr : pktHdr) (v : ip_version) (ga ca : addr) (fresh : Z) (st : igmp) : clientEntry :=
  match view st (key_of hdr v ga ca) with
  | Some c => refresh_port (devIfindex hdr) hdr c
  | None => ClientEntry ca (smac hdr) (devIfindex hdr) (devExtPortEn hdr) (devExtPortId hdr)
              false 0 false 0 VER_NONE fresh (rtk_igmp_sysUpSeconds st) []
  end.

(** ** Keys *)

Lemma addr_match_neg v a b x :
  addr_match v a b = false -> addr_match v a x = true -> addr_match v b x = false.
Proof.
  intros Hn Hx. destruct (addr_match v b x) eqn:E; [|done]. rewrite addr_match_sym in E.
  rewrite <- (addr_match_trans _ _ _ b Hx) in E. congruence.
Qed.

Lemma client_match_sym v ca mac c : client_match v ca mac c = true ->
  forall ca' mac', client_match v ca' mac' c = (addr_match v ca ca' && bool_decide (mac = mac'))%bool.
Proof.
  unfold client_match. intros [Ha Hm]%andb_true_iff ca' mac'. apply bool_decide_eq_true in Hm. subst.
  by rewrite (addr_match_trans _ _ _ ca' Ha).
Qed.

Lemma client_match_ext v ca ca' mac c :
  addr_match v ca ca' = true -> client_match v ca mac c = client_match v ca' mac c.
Proof.
  intros Ha. unfold client_match. f_equal.
  rewrite (addr_match_sym _ _ ca), (addr_match_sym _ _ ca'). by apply addr_match_trans.
Qed.

Lemma search_group_ext mi v ga ga' st :
  addr_match v ga ga' = true ->
  rtk_igmp_searchGroupEntry mi v ga st = rtk_igmp_searchGroupEntry mi v ga' st.
Proof.
  intros Ha. unfold rtk_igmp_searchGroupEntry. rewrite (addr_match_hash _ _ _ Ha).
  apply find_ext. intros g. by apply addr_match_trans.
Qed.

(** ** Groups *)

Lemma search_alter_group mi v ga f st mi' v' ga' :
  in_range mi st -> sized st ->
  (forall g, group_match v ga g = true -> group_match v ga (f g) = true) ->
  rtk_igmp_searchGroupEntry mi' v' ga' (alter_group mi v ga f st) =
  if same_group mi v ga mi' v' ga' then f <$> rtk_igmp_searchGroupEntry mi v ga st
  else rtk_igmp_searchGroupEntry mi' v' ga' st.
Proof.
  intros Hr Hs Hf. unfold same_group.
  destruct (decide ((mi', v', hash v' ga') = (mi, v, hash v ga))) as [E|Hne].
  - injection E as -> -> Eh. rewrite !bool_decide_true by done. simpl.
    unfold rtk_igmp_searchGroupEntry, alter_group. rewrite Eh.
    rewrite bucket_alter_eq by (done || apply hash_bound).
    destruct (addr_match v ga ga') eqn:Em.
    + rewrite (find_ext (group_match v ga') (group_match v ga))
        by (intros x; symmetry; by apply addr_match_trans).
      destruct (List.find (group_match v ga) (bucket mi v (hash v ga) st)) as [g|] eqn:Eg.
      * simpl. apply find_update_first; [done|]. apply Hf. by apply List.find_some in Eg as [_ ?].
      * by rewrite update_first_none.
    + apply find_update_first_other. intros g Hg. split.
      * by eapply addr_match_neg.
      * eapply addr_match_neg; [done|]. by apply Hf.
  - destruct (bool_decide (mi = mi') && bool_decide (v = v') && addr_match v ga ga')%bool eqn:E.
    + apply andb_true_iff in E as [[E1 E2]%andb_true_iff E3].
      apply bool_decide_eq_true in E1, E2. subst. apply addr_match_hash in E3. congruence.
    + unfold rtk_igmp_searchGroupEntry, alter_group. by rewrite bucket_alter_ne.
Qed.

Lemma search_link_group mi v ga st mi' v' ga' :
  in_range mi st -> sized st -> rtk_igmp_searchGroupEntry mi v ga st = None ->
  exists g, groupAddr g = ga /\ groupIpVersion g = v /\ clientList g = [] /\
  rtk_igmp_searchGroupEntry mi' v' ga' (rtk_igmp_linkGroupEntry mi (GroupEntry ga v 0 0 0 []) st) =
  if same_group mi v ga mi' v' ga' then Some g else rtk_igmp_searchGroupEntry mi' v' ga' st.
Proof.
  intros Hr Hs Hn. unfold rtk_igmp_linkGroupEntry. simpl.
  set (g := set_groupIdx _ _). exists g. split_and!; [done..|].
  set (st1 := alter_bucket _ _ _ _ _).
  assert (rtk_igmp_searchGroupEntry mi' v' ga' (if hwGroupAddCb st then emit (GroupAddCb (is_ipv6 v) 0 0 ga) st1 else st1)
          = rtk_igmp_searchGroupEntry mi' v' ga' st1) as -> by by destruct (hwGroupAddCb st).
  subst st1. unfold rtk_igmp_searchGroupEntry, same_group in *.
  destruct (decide ((mi', v', hash v' ga') = (mi, v, hash v ga))) as [E|Hne].
  - injection E as -> -> Eh. rewrite !bool_decide_true by done. simpl. rewrite Eh.
    rewrite bucket_alter_eq by (done || apply hash_bound). simpl. unfold group_match at 1. simpl.
    rewrite (addr_match_sym v ga' ga). by destruct (addr_match v ga ga').
  - destruct (bool_decide (mi = mi') && bool_decide (v = v') && addr_match v ga ga')%bool eqn:E.
    + apply andb_true_iff in E as [[E1 E2]%andb_true_iff E3].
      apply bool_decide_eq_true in E1, E2. subst. apply addr_match_hash in E3. congruence.
    + by rewrite bucket_alter_ne.
Qed.

(** ** Clients *)

Lemma same_group_true mi v ga mi' v' ga' :
  same_group mi v ga mi' v' ga' = true -> mi' = mi /\ v' = v /\ addr_match v ga ga' = true.
Proof.
  unfold same_group. intros [[E1 E2]%andb_true_iff E3]%andb_true_iff.
  apply bool_decide_eq_true in E1, E2. by subst.
Qed.

Lemma same_key_refl k : same_key k k = true.
Proof.
  unfold same_key, same_group. by rewrite !addr_match_refl, !bool_decide_true.
Qed.

(** A change inside one group, seen through the map. *)
Lemma view_alter_group mi v ga f st k :
  in_range mi st -> sized st ->
  (forall g, group_match v ga g = true -> group_match v ga (f g) = true) ->
  view (alter_group mi v ga f st) k =
  if same_group mi v ga (k_mod k) (k_ver k) (k_group k)
  then rtk_igmp_searchGroupEntry mi v ga st ≫= fun g =>
         List.find (client_match v (k_client k) (k_mac k)) (clientList (f g))
  else view st k.
Proof.
  intros Hr Hs Hf. unfold view, get_client. rewrite search_alter_group by done.
  destruct (same_group _ _ _ _ _ _) eqn:E; [|done].
  apply same_group_true in E as (_ & -> & _). by destruct (rtk_igmp_searchGroupEntry mi v ga st).
Qed.

Lemma view_same_group mi v ga st k :
  same_group mi v ga (k_mod k) (k_ver k) (k_group k) = true ->
  view st k = rtk_igmp_searchGroupEntry mi v ga st ≫= fun g =>
                List.find (client_match v (k_client k) (k_mac k)) (clientList g).
Proof.
  intros (E1 & E2 & E3)%same_group_true. unfold view, get_client. rewrite E1, E2.
  by rewrite (search_group_ext _ _ _ _ _ E3).
Qed.

Lemma find_client_other v ca mac ca' mac' f (l : list clientEntry) :
  (forall c, client_match v ca mac c = true -> client_match v ca mac (f c) = true) ->
  List.find (client_match v ca' mac') (update_first (client_match v ca mac) f l) =
  if addr_match v ca ca' && bool_decide (mac = mac')
  then f <$> List.find (client_match v ca mac) l
  else List.find (client_match v ca' mac') l.
Proof.
  intros Hf. destruct (addr_match v ca ca' && bool_decide (mac = mac'))%bool eqn:E.
  - apply andb_true_iff in E as [Ha Hm]. apply bool_decide_eq_true in Hm. subst.
    rewrite (find_ext (client_match v ca' mac') (client_match v ca mac'))
      by (intros x; symmetry; by apply client_match_ext).
    destruct (List.find (client_match v ca mac') l) as [c|] eqn:Ec.
    + simpl. apply find_update_first; [done|]. apply Hf. by apply List.find_some in Ec as [_ ?].
    + by rewrite update_first_none.
  - apply find_update_first_other. intros c Hc. split.
    + by rewrite (client_match_sym _ _ _ _ Hc).
    + by rewrite (client_match_sym _ _ _ _ (Hf _ Hc)).
Qed.

(** Rewriting one client is a point update of the map. *)
Lemma view_alter_client mi v ga ca mac f st k :
  in_range mi st -> sized st ->
  (forall c, client_match v ca mac c = true -> client_match v ca mac (f c) = true) ->
  view (alter_client mi v ga ca mac f st) k =
  if same_key (Key mi v ga ca mac) k then f <$> view st (Key mi v ga ca mac) else view st k.
Proof.
  intros Hr Hs Hf. unfold alter_client, same_key. rewrite view_alter_group by done. simpl.
  destruct (same_group _ _ _ _ _ _) eqn:E; simpl; [|done].
  rewrite (view_same_group _ _ _ st k E). unfold view, get_client. simpl.
  destruct (rtk_igmp_searchGroupEntry mi v ga st) as [g|]; simpl; [|by case_match].
  by rewrite find_client_other.
Qed.

Lemma in_range_alter mi mi' v h f st : in_range mi (alter_bucket mi' v h f st) <-> in_range mi st.
Proof. unfold in_range, alter_bucket. simpl. by rewrite length_alter. Qed.

(** The facts about the state that a handler leaves alone until it reaches the
    source list. *)
Record same_env (st st' : igmp) : Prop := {
  env_now : rtk_igmp_sysUpSeconds st' = rtk_igmp_sysUpSeconds st;
  env_sources : freeSources st' = freeSources st;
  env_len : length (modules st') = length (modules st);
  env_sized : sized st -> sized st'
}.

Lemma same_env_trans st st' st'' : same_env st st' -> same_env st' st'' -> same_env st st''.
Proof. intros [] []; constructor; [congruence..|auto]. Qed.

Lemma same_env_range mi st st' : same_env st st' -> in_range mi st -> in_range mi st'.
Proof. unfold in_range. intros [_ _ -> _]. done. Qed.

Lemma same_env_alter_group mi v ga f st : same_env st (alter_group mi v ga f st).
Proof.
  constructor; [done..| |apply sized_alter_bucket].
  unfold alter_group, alter_bucket. simpl. by rewrite length_alter.
Qed.

Lemma sized_link_group mi g st : sized st -> sized (rtk_igmp_linkGroupEntry mi g st).
Proof.
  intros Hs. unfold rtk_igmp_linkGroupEntry.
  match goal with |- context [alter_bucket ?a ?b ?c ?f ?s] =>
    pose proof (sized_alter_bucket a b c f s Hs) end.
  by case_match.
Qed.

(** Finding or creating the group: the map does not change, the group is there. *)
Lemma find_group_spec hdr v ga r st :
  in_range (moduleIndex hdr) st -> sized st ->
  (is_Some (rtk_igmp_searchGroupEntry (moduleIndex hdr) v ga st) \/ (0 < freeGroups st)%nat) ->
  exists st', find_or_create_group hdr v ga r st = (inr tt, st') /\ same_env st st' /\
    freeClients st' = freeClients st /\
    is_Some (rtk_igmp_searchGroupEntry (moduleIndex hdr) v ga st') /\
    forall k, view st' k = view st k.
Proof.
  intros Hr Hs Hroom. unfold find_or_create_group.
  destruct (rtk_igmp_searchGroupEntry (moduleIndex hdr) v ga st) as [g|] eqn:Eg.
  - exists st. split_and!; try done.
  - destruct Hroom as [[? ?]|Hroom]; [done|]. unfold rtk_igmp_allocateGroupEntry.
    destruct (freeGroups st) as [|n] eqn:En; [lia|].
    set (st1 := set_free n (freeClients st) (freeSources st) st).
    assert (same_env st st1) as Henv by done.
    pose proof (search_link_group (moduleIndex hdr) v ga st1) as Hl.
    eexists. split; [done|]. split_and!.
    + eapply same_env_trans; [exact Henv|]. constructor; try (unfold rtk_igmp_linkGroupEntry; simpl;
        destruct (hwGroupAddCb st); simpl; by rewrite ?length_alter).
      by apply (sized_link_group (moduleIndex hdr) (GroupEntry ga v 0 0 0 []) st1).
    + unfold rtk_igmp_linkGroupEntry. simpl. by destruct (hwGroupAddCb st).
    + destruct (Hl (moduleIndex hdr) v ga Hr Hs Eg) as (g & _ & _ & _ & ->).
      unfold same_group. rewrite addr_match_refl, !bool_decide_true by done. by eexists.
    + intros k. destruct (Hl (k_mod k) (k_ver k) (k_group k) Hr Hs Eg) as (g & _ & _ & Hc & Hk).
      unfold view at 1, get_client. rewrite Hk. destruct (same_group _ _ _ _ _ _) eqn:E; [|done].
      simpl. rewrite Hc. rewrite (view_same_group _ _ _ st k E), Eg. done.
Qed.

Lemma client0_match hdr v ga ca fresh st :
  client_match v ca (smac hdr) (client0 hdr v ga ca fresh st) = true.
Proof.
  unfold client0. destruct (view st _) as [c|] eqn:E.
  - unfold view, get_client in E. simpl in E.
    destruct (rtk_igmp_searchGroupEntry _ _ _ _) as [g|]; [|done]. simpl in E.
    by apply List.find_some in E as [_ ?].
  - unfold client_match. simpl. by rewrite addr_match_refl, bool_decide_true.
Qed.

Lemma set_free_view a b c st k : view (set_free a b c st) k = view st k.
Proof. done. Qed.

(** Finding or creating the client: the map has [client0] at the report's key. *)
Lemma find_client_spec hdr v ga ca fresh r st :
  let k := key_of hdr v ga ca in
  in_range (moduleIndex hdr) st -> sized st ->
  is_Some (rtk_igmp_searchGroupEntry (moduleIndex hdr) v ga st) ->
  (is_Some (view st k) \/ (0 < freeClients st)%nat) ->
  (forall a b c, fresh (set_free a b c st) = fresh st) ->
  exists st', find_or_create_client hdr v ga ca fresh r st = (inr tt, st') /\ same_env st st' /\
    forall k', view st' k' = if same_key k k' then Some (client0 hdr v ga ca (fresh st) st) else view st k'.
Proof.
  intros k Hr Hs [g Hg] Hroom Hfresh. unfold find_or_create_client. rewrite Hg.
  assert (view st k = List.find (client_match v ca (smac hdr)) (clientList g)) as Ek.
  { unfold view, get_client. simpl. by rewrite Hg. }
  unfold rtk_igmp_searchClientEntry at 1. rewrite <- Ek.
  unfold client0. change (key_of hdr v ga ca) with k.
  destruct (view st k) as [c|] eqn:Ec.
  - eexists. split; [done|]. split; [apply same_env_alter_group|]. intros k'.
    transitivity (view (alter_client (moduleIndex hdr) v ga ca (smac hdr)
      (refresh_port (devIfindex hdr) hdr) st) k').
    + unfold alter_client. rewrite !view_alter_group; try done.
      * destruct (same_group _ _ _ _ _ _); [|done]. rewrite Hg. simpl.
        unfold rtk_igmp_searchClientEntry. by rewrite <- Ek.
      * intros g'. unfold rtk_igmp_searchClientEntry. by destruct (List.find _ (clientList g')).
    + rewrite view_alter_client by done. change (Key _ _ _ _ _) with k. rewrite Ec. done.
  - destruct Hroom as [[? ?]|Hroom]; [done|]. unfold rtk_igmp_allocateClientEntry.
    destruct (freeClients st) as [|n] eqn:En; [lia|]. simpl. rewrite Hfresh.
    eexists. split; [done|]. split; [eapply same_env_trans; [|apply same_env_alter_group]; done|]. intros k'.
    set (c := ClientEntry _ _ _ _ _ _ _ _ _ _ (fresh st) _ _).
    rewrite view_alter_group by done. unfold same_key.
    change (set_groupFilterTimer (fresh st) _) with c. simpl.
    destruct (same_group _ _ _ _ _ _) eqn:E; simpl; [|done]. rewrite (view_same_group _ _ _ st k' E).
    change (rtk_igmp_searchGroupEntry _ _ _ _) with (rtk_igmp_searchGroupEntry (moduleIndex hdr) v ga st).
    rewrite Hg. simpl. unfold client_match at 1. simpl.
    by destruct (addr_match v ca (k_client k') && bool_decide (smac hdr = k_mac k'))%bool.
Qed.

(** The source-list code of a handler keeps the identity of the client. *)
Definition keeps_id (f : nat -> clientEntry -> bool * clientEntry * nat) : Prop :=
  forall fr c, clientAddr (snd (fst (f fr c))) = clientAddr c /\
               clientMacAddr (snd (fst (f fr c))) = clientMacAddr c.

(** The common tail of the learning handlers. *)
Definition learn (hdr : pktHdr) (v : ip_version) (ga ca : addr) (fresh : igmp -> Z) (r ok : nf_ret)
    (f : Z -> nat -> clientEntry -> bool * clientEntry * nat) : H nf_ret :=
  find_or_create_group hdr v ga r ;;;
  find_or_create_client hdr v ga ca fresh r ;;;
  t <-- now ;;;
  on_client hdr v ga ca (f t) ;;;
  reflush ga ;;;
  ret ok.

(** The group and the client are there before the source list is touched. *)
Lemma learn_prepares hdr v ga ca fresh r st :
  let k := key_of hdr v ga ca in
  let c0 := client0 hdr v ga ca (fresh st) st in
  in_range (moduleIndex hdr) st -> sized st -> room k st = true ->
  (forall st', rtk_igmp_sysUpSeconds st' = rtk_igmp_sysUpSeconds st -> fresh st' = fresh st) ->
  exists st1 st2, find_or_create_group hdr v ga r st = (inr tt, st1) /\
    find_or_create_client hdr v ga ca fresh r st1 = (inr tt, st2) /\ same_env st st2 /\
    get_client (moduleIndex hdr) v ga ca (smac hdr) st2 = Some c0 /\
    forall k', view st2 k' = if same_key k k' then Some c0 else view st k'.
Proof.
  intros k c0 Hr Hs [Hg Hc]%andb_true_iff Hfresh.
  destruct (find_group_spec hdr v ga r st) as (st1 & E1 & Henv1 & Hfc & Hsome & Hv1); [done..| |].
  { apply orb_true_iff in Hg as [Hg|Hg]; [left; by apply bool_decide_eq_true in Hg|].
    right. by apply Nat.ltb_lt. }
  assert (in_range (moduleIndex hdr) st1 /\ sized st1) as [Hr1 Hs1].
  { split; [by eapply same_env_range|by apply Henv1]. }
  destruct (find_client_spec hdr v ga ca fresh r st1 Hr1 Hs1 Hsome) as (st2 & E2 & Henv2 & Hv2).
  { rewrite Hv1, Hfc. apply orb_true_iff in Hc as [Hc|Hc]; [left; by apply bool_decide_eq_true in Hc|].
    right. by apply Nat.ltb_lt. }
  { intros. transitivity (fresh st); [|symmetry]; apply Hfresh; by destruct Henv1. }
  assert (client0 hdr v ga ca (fresh st1) st1 = c0) as Ec0.
  { unfold c0, client0. rewrite Hv1, (Hfresh st1) by by destruct Henv1. by rewrite (env_now _ _ Henv1). }
  rewrite Ec0 in Hv2. exists st1, st2. split_and!; try done.
  - exact (same_env_trans _ _ _ Henv1 Henv2).
  - specialize (Hv2 k). rewrite same_key_refl in Hv2. done.
  - intros k'. rewrite Hv2. fold k. destruct (same_key k k'); [done|apply Hv1].
Qed.

(** A learning handler is a point update of the map: the client it found or
    created, rewritten by its source-list code; the verdict is [ok] unless the
    source entries ran out, and then the flows of the group are not refreshed. *)
Lemma learn_spec hdr v ga ca fresh r ok f st :
  let k := key_of hdr v ga ca in
  let c0 := client0 hdr v ga ca (fresh st) st in
  let out := f (rtk_igmp_sysUpSeconds st) (freeSources st) c0 in
  in_range (moduleIndex hdr) st -> sized st -> room k st = true ->
  (forall st', rtk_igmp_sysUpSeconds st' = rtk_igmp_sysUpSeconds st -> fresh st' = fresh st) ->
  keeps_id (f (rtk_igmp_sysUpSeconds st)) ->
  fst (run (learn hdr v ga ca fresh r ok f) st) = (if fst (fst out) then ok else RTK_IGMP_NF_DROP) /\
  forall k', view (snd (run (learn hdr v ga ca fresh r ok f) st)) k' =
             if same_key k k' then Some (snd (fst out)) else view st k'.
Proof.
  intros k c0 out Hr Hs Hroom Hfresh Hid.
  destruct (learn_prepares hdr v ga ca fresh r st Hr Hs Hroom Hfresh) as (st1 & st2 & E1 & E2 & Henv & Eget & Hv2).
  fold k c0 in Eget, Hv2.
  unfold run, learn, bind, now, on_client. rewrite E1, E2, Eget.
  rewrite (env_now _ _ Henv), (env_sources _ _ Henv). fold out.
  pose proof (Hid (freeSources st) c0) as [Hida Hidm]. fold out in Hida, Hidm.
  pose proof (client0_match hdr v ga ca (fresh st) st) as Hm0. fold c0 in Hm0.
  destruct out as [[b c'] fr]. simpl in *.
  assert (forall k', view (alter_client (moduleIndex hdr) v ga ca (smac hdr) (fun _ => c') st2) k' =
    if same_key k k' then Some c' else view st k') as Hview.
  { intros k'. rewrite view_alter_client.
    - change (Key _ _ _ _ _) with k. rewrite !Hv2, same_key_refl. by destruct (same_key k k').
    - by eapply same_env_range.
    - by apply Henv.
    - intros c _. unfold client_match in *. by rewrite Hida, Hidm. }
  by destruct b.
Qed.

(** With room and enough source entries it ends by refreshing the flows of the group. *)
Lemma learn_refreshes hdr v ga ca fresh r ok f st :
  in_range (moduleIndex hdr) st -> sized st -> room (key_of hdr v ga ca) st = true ->
  (forall st', rtk_igmp_sysUpSeconds st' = rtk_igmp_sysUpSeconds st -> fresh st' = fresh st) ->
  (forall fr c, fst (fst (f (rtk_igmp_sysUpSeconds st) fr c)) = true) ->
  FlowReflush ga ∈ events (snd (run (learn hdr v ga ca fresh r ok f) st)).
Proof.
  intros Hr Hs Hroom Hfresh Hf.
  destruct (learn_prepares hdr v ga ca fresh r st Hr Hs Hroom Hfresh) as (st1 & st2 & E1 & E2 & Henv & Eget & _).
  unfold run, learn, bind, now, on_client. rewrite E1, E2, Eget, (env_now _ _ Henv).
  specialize (Hf (freeSources st2) (client0 hdr v ga ca (fresh st) st)).
  destruct (f _ _ _) as [[b c'] fr]. simpl in Hf. subst b. simpl. set_solver.
Qed.
End View.
