(* ===== verification/IgmpUnique.v ===== *)
(** * IgmpUnique: no group and no client is recorded twice

    A group or a client is created only when the search for it failed, so the
    hash chains and client lists never hold the same key twice, whatever sequence
    of reports arrives.  This is what makes "delete the entry the search found"
    remove the membership. *)
From S2P Require Import Prelude IgmpTable IgmpReport IgmpInvariant IgmpView.

Definition same_groupAddr (v : ip_version) (g g' : groupEntry) : bool :=
  addr_match v (groupAddr g) (groupAddr g').
Definition same_clientId (v : ip_version) (c c' : clientEntry) : bool :=
  addr_match v (clientAddr c) (clientAddr c') && bool_decide (clientMacAddr c = clientMacAddr c').

Definition clients_unique (v : ip_version) (g : groupEntry) : Prop :=
  distinct (same_clientId v) (clientList g).
Definition bucket_unique (v : ip_version) (l : list groupEntry) : Prop :=
  distinct (same_groupAddr v) l /\ Forall (clients_unique v) l.

Section Unique.
Context {cfg : IgmpConfig} {policy : AdmissionPolicy}.

(** The database has no doubles. *)
Definition unique (st : igmp) : Prop := forall mi v h, bucket_unique v (bucket mi v h st).

Definition keeps_unique {A} (m : H A) : Prop := forall st, unique st -> unique (snd (m st)).

Lemma unique_modules_eq st st' : modules st' = modules st -> unique st -> unique st'.
Proof. unfold unique, bucket. intros ->. auto. Qed.

Lemma unique_alter_bucket mi v h f st :
  unique st -> bucket_unique v (f (bucket mi v h st)) -> unique (alter_bucket mi v h f st).
Proof.
  intros Hu Hf mi' v' h'. destruct (decide ((mi', v', h') = (mi, v, h))) as [E|E].
  - simplify_eq. unfold bucket, alter_bucket in *. simpl. rewrite list_lookup_alter_eq.
    destruct (modules st !! mi) as [m|]; [|done]. simpl in *.
    rewrite table_alter_table, decide_True, list_lookup_alter_eq by done.
    destruct (table_of v m !! h); done.
  - rewrite bucket_alter_ne by done. apply Hu.
Qed.

Lemma unique_alter_group mi v ga f st :
  (forall g, rtk_igmp_searchGroupEntry mi v ga st = Some g ->
     groupAddr (f g) = groupAddr g /\ (clients_unique v g -> clients_unique v (f g))) ->
  unique st -> unique (alter_group mi v ga f st).
Proof.
  intros Hf Hu. apply unique_alter_bucket; [done|].
  destruct (Hu mi v (hash v ga)) as [Hd Hc]. unfold rtk_igmp_searchGroupEntry in Hf.
  destruct (List.find (group_match v ga) (bucket mi v (hash v ga) st)) as [g|] eqn:E;
    [|by rewrite update_first_none].
  destruct (Hf g eq_refl) as [Ha Hcg]. split.
  - eapply distinct_update_first; [done| | |done]; intros y; unfold same_groupAddr; by rewrite Ha.
  - rewrite Forall_forall in *. intros y Hy. eapply elem_update_first in Hy as [Hy| ->]; [by auto| |done].
    apply Hcg, Hc. apply List.find_some in E as [E _]. by apply list_elem_of_In.
Qed.

Lemma clients_unique_update v ca mac f g c :
  List.find (client_match v ca mac) (clientList g) = Some c ->
  clientAddr (f c) = clientAddr c /\ clientMacAddr (f c) = clientMacAddr c ->
  clients_unique v g ->
  clients_unique v (set_clientList (update_first (client_match v ca mac) f (clientList g)) g).
Proof.
  intros Hc [Ha Hm] Hu. unfold clients_unique in *. simpl.
  eapply distinct_update_first; [done| | |done]; intros y; unfold same_clientId; by rewrite Ha, Hm.
Qed.

Lemma clients_unique_search v g ifidx ca hdr :
  clients_unique v g -> clients_unique v (snd (rtk_igmp_searchClientEntry v g ifidx ca hdr)).
Proof.
  intros Hu. unfold rtk_igmp_searchClientEntry.
  destruct (List.find _ (clientList g)) as [c|] eqn:E; [|done]. by eapply clients_unique_update.
Qed.

Lemma unique_search_client hdr v ca ga mi st : unique st ->
  unique (alter_group mi v ga (fun g => snd (rtk_igmp_searchClientEntry v g (devIfindex hdr) ca hdr)) st).
Proof.
  apply unique_alter_group. intros g _. split; [|apply clients_unique_search].
  unfold rtk_igmp_searchClientEntry. by destruct (List.find _ (clientList g)).
Qed.

Lemma find_none_forall {A} (p : A -> bool) (l : list A) : List.find p l = None -> Forall (fun x => p x = false) l.
Proof.
  induction l as [|x l IH]; simpl; [done|]. destruct (p x) eqn:E; [done|]. auto.
Qed.

Lemma unique_find_group hdr v ga r : keeps_unique (find_or_create_group hdr v ga r).
Proof.
  intros st Hu. unfold find_or_create_group.
  destruct (rtk_igmp_searchGroupEntry _ v ga st) eqn:E; [done|].
  unfold rtk_igmp_allocateGroupEntry. destruct (freeGroups st); [done|]. simpl.
  unfold rtk_igmp_linkGroupEntry. simpl.
  match goal with |- context [alter_bucket ?a ?b ?c ?f ?s] => assert (unique (alter_bucket a b c f s)) as Hb end.
  { apply unique_alter_bucket; [done|]. destruct (Hu (moduleIndex hdr) v (hash v ga)) as [Hd Hc].
    apply find_none_forall in E. split; [split|]; [|done|].
    - eapply Forall_impl; [exact E|]. done.
    - constructor; done. }
  by destruct (hwGroupAddCb st).
Qed.

Lemma unique_find_client hdr v ga ca fresh r : keeps_unique (find_or_create_client hdr v ga ca fresh r).
Proof.
  intros st Hu. unfold find_or_create_client.
  destruct (rtk_igmp_searchGroupEntry _ v ga st) as [g|] eqn:E; [|done].
  unfold rtk_igmp_searchClientEntry at 1. destruct (List.find _ (clientList g)) as [c|] eqn:Ec.
  - by apply unique_search_client.
  - unfold rtk_igmp_allocateClientEntry. destruct (freeClients st); [done|]. simpl.
    apply unique_alter_group; [|done]. intros g' Hg'.
    change (rtk_igmp_searchGroupEntry (moduleIndex hdr) v ga st = Some g') in Hg'.
    rewrite E in Hg'. simplify_eq. split; [done|]. unfold clients_unique. simpl. intros Hg. split; [|done].
    apply find_none_forall in Ec. eapply Forall_impl; [exact Ec|]. intros c'. simpl.
    unfold client_match, same_clientId. simpl. rewrite (addr_match_sym v ca).
    intros Hn. rewrite <- Hn. f_equal. apply bool_decide_ext. naive_solver.
Qed.

Lemma unique_on_client hdr v ga ca f : keeps_id f -> keeps_unique (on_client hdr v ga ca f).
Proof.
  intros Hf st Hu. unfold on_client.
  destruct (get_client _ v ga ca _ st) as [c|] eqn:Ec; [|done].
  specialize (Hf (freeSources st) c). destruct (f (freeSources st) c) as [[ok c'] fr]. simpl in Hf.
  assert (unique (alter_client (moduleIndex hdr) v ga ca (smac hdr) (fun _ => c') st)) as Ha.
  { apply unique_alter_group; [|done]. intros g Hg. split; [done|].
    unfold get_client in Ec. rewrite Hg in Ec. simpl in Ec. by apply clients_unique_update with c. }
  by destruct ok.
Qed.

Lemma unique_remove_client q v g st :
  clients_unique v g -> clients_unique v (fst (rtk_igmp_deleteClientEntry q g st)).
Proof.
  intros Hg. unfold rtk_igmp_deleteClientEntry. destruct (List.find q (clientList g)); [|done].
  unfold clients_unique. simpl. by apply distinct_remove_first.
Qed.

Lemma leave_shrink_id now last c :
  clientAddr (leave_shrink now last c) = clientAddr c /\ clientMacAddr (leave_shrink now last c) = clientMacAddr c.
Proof. unfold leave_shrink. by case_match. Qed.

Lemma unique_leave_client hdr v ca ga st : unique st -> unique (leave_client hdr v ca ga st).
Proof.
  intros Hu. unfold leave_client. destruct (rtk_igmp_searchGroupEntry _ v ga st) eqn:E0; [|done]. clear E0 g.
  pose proof (unique_search_client hdr v ca ga (moduleIndex hdr) st Hu) as Hu1.
  match goal with |- context [get_client _ _ _ _ _ ?s] => set (st1 := s) in * end.
  destruct (get_client _ _ _ _ _ st1) as [c|] eqn:Ec; [|done].
  destruct (rtk_igmp_searchGroupEntry _ v ga st1) as [g|] eqn:Eg; [|done].
  unfold get_client in Ec. rewrite Eg in Ec. simpl in Ec.
  destruct (fastLeave _).
  - destruct (rtk_igmp_deleteClientEntry _ g st1) as [g' st'] eqn:Ed.
    assert (modules st' = modules st1) as Em.
    { unfold rtk_igmp_deleteClientEntry in Ed. rewrite Ec in Ed. by simplify_eq. }
    assert (groupAddr g' = groupAddr g) as Eaddr.
    { unfold rtk_igmp_deleteClientEntry in Ed. rewrite Ec in Ed. by simplify_eq. }
    apply unique_alter_group; [|by eapply unique_modules_eq]. intros g0 Hg0.
    assert (g0 = g) as -> by (unfold rtk_igmp_searchGroupEntry, bucket in *; rewrite Em in Hg0; congruence).
    split; [done|]. intros Hg. eapply (unique_remove_client _ v g st1) in Hg. by rewrite Ed in Hg.
  - apply unique_alter_group; [|done]. intros g0 Hg0. rewrite Eg in Hg0. simplify_eq. split; [done|].
    eapply clients_unique_update; [done|apply leave_shrink_id].
Qed.

Lemma unique_delete_empty mi v ga st : unique st -> unique (delete_empty_group mi v ga st).
Proof.
  intros Hu. unfold delete_empty_group. destruct (rtk_igmp_searchGroupEntry mi v ga st) as [g|]; [|done].
  destruct (clientList g) eqn:E; [|done]. unfold rtk_igmp_deleteGroupEntry, rtk_igmp_unlinkGroupEntry. simpl.
  match goal with |- context [alter_bucket ?a ?b ?c ?f ?s] =>
    assert (unique s) as Hs; [|apply (unique_modules_eq (alter_bucket a b c f s)); [done|]] end.
  { by case_match. }
  apply unique_alter_bucket; [done|]. destruct (Hs mi (groupIpVersion g) (hash (groupIpVersion g) (groupAddr g))).
  split; [by apply distinct_remove_first|by apply Forall_remove_first].
Qed.
End Unique.
