(* ===== verification/IgmpSemantics.v ===== *)
(** * IgmpSemantics: what each membership report does

    On the map of IgmpView a report is a point update, and on the updated client
    the source list is again a map, from source addresses to timers.  The theorems
    say which timers each IGMPv3/MLDv2 record sets, keeps and removes, what a join
    and a leave do, and what happens when a report is refused or a pool is empty. *)
From S2P Require Import Prelude IgmpTable IgmpReport IgmpInvariant IgmpView IgmpUnique.

(** What the client's entry for a source shows, if there is one; its timer. *)
Definition look {T} (obs : sourceEntry -> T) (v : ip_version) (c : clientEntry) (a : addr) : option T :=
  obs <$> rtk_igmp_searchSourceEntry v a c.
Definition timer_of : ip_version -> clientEntry -> addr -> option Z := look portTimer.

(** The record lists the source. *)
Definition listed (v : ip_version) (a : addr) (srcs : list addr) : bool :=
  existsb (addr_match v a) srcs.

(** A small setting for the concrete runs: a table of four buckets, a policy that
    admits every report, a packet header with the given fast-leave setting. *)
Definition demo_config : IgmpConfig := {| IGMP_HASH_TBL_SIZE := 4; hash_tbl_size_pos := eq_refl |}.
Definition demo_policy : AdmissionPolicy := {|
  gorup2PsList := [];
  rtk_igmp_group_limitCheck := fun _ _ _ _ _ => RTK_IGMP_NF_CONTINUE;
  rtk_igmp_filterWhiteListCheck := fun _ _ _ _ _ _ => true
|}.
Definition demo_hdr (fast : bool) : pktHdr :=
  PktHdr [0; 1; 2; 3; 4; 5] 3 0 1 2 true 100 false 0 (DevConf fast 260 2) (DevConf fast 260 2).
Definition ip4 (a : Z) : addr := Addr a 0 0 0.
Definition demo_group : addr := ip4 0xE1010101.
Definition demo_client : addr := ip4 0xC0A80102.
Definition demo_key : key := key_of (demo_hdr false) IP_VERSION4 demo_group demo_client.
(** The client of the demo key after a sequence of reports. *)
Definition demo_run (fast : bool) (rs : list report) : igmp :=
  handle_all (cfg := demo_config) (policy := demo_policy)
    ((fun r => (demo_hdr fast, r)) <$> rs) (init_igmp (cfg := demo_config) 1 4 4 4 0).

Section Sources.
Context (v : ip_version).

Section Look.
Context {T : Type} (obs : sourceEntry -> T).

Lemma look_update a f c b :
  (forall s, sourceAddr (f s) = sourceAddr s) ->
  look obs v (update_source v a f c) b =
  if addr_match v a b then (fun s => obs (f s)) <$> rtk_igmp_searchSourceEntry v a c
  else look obs v c b.
Proof.
  intros Hf. unfold look, rtk_igmp_searchSourceEntry, update_source. simpl.
  destruct (addr_match v a b) eqn:E.
  - rewrite (find_ext (source_match v b) (source_match v a))
      by (intros s; symmetry; by apply addr_match_trans).
    destruct (List.find (source_match v a) (sourceList c)) as [s|] eqn:Es.
    + erewrite find_update_first; [done|done|]. unfold source_match. rewrite Hf.
      by apply List.find_some in Es as [_ ?].
    + by rewrite update_first_none, Es.
  - rewrite find_update_first_other; [done|]. intros s Hs. unfold source_match in *. rewrite Hf.
    split; by eapply addr_match_neg.
Qed.

Lemma look_add s fr c c' fr' b : add_source s fr c = Some (c', fr') ->
  look obs v c' b = if addr_match v (sourceAddr s) b then Some (obs s) else look obs v c b.
Proof.
  unfold add_source. destruct fr; intros; simplify_eq. unfold look, rtk_igmp_searchSourceEntry. simpl.
  unfold source_match at 1. rewrite (addr_match_sym v b). by destruct (addr_match v (sourceAddr s) b).
Qed.

Lemma look_ext c a b : addr_match v a b = true -> look obs v c a = look obs v c b.
Proof.
  intros E. unfold look, rtk_igmp_searchSourceEntry. f_equal. apply find_ext. intros s.
  by apply addr_match_trans.
Qed.

(** A change of every entry. *)
Lemma look_fmap f (g : T -> T) l c b :
  (forall s, sourceAddr (f s) = sourceAddr s) -> (forall s, obs (f s) = g (obs s)) -> sourceList c = l ->
  look obs v (set_sourceList (f <$> l) c) b = g <$> look obs v c b.
Proof.
  intros Ha Hg <-. unfold look, rtk_igmp_searchSourceEntry. simpl.
  induction (sourceList c) as [|s l IH]; [done|]. simpl. unfold source_match in *. rewrite Ha.
  destruct (addr_match v b (sourceAddr s)); simpl; [by rewrite Hg|done].
Qed.
End Look.

(** [c'] has the fields of [c], the source list apart. *)
Definition same_client (c c' : clientEntry) : Prop := c' = set_sourceList (sourceList c') c.

Lemma same_client_refl c : same_client c c.
Proof. by destruct c. Qed.
Lemma same_client_trans c1 c2 c3 : same_client c1 c2 -> same_client c2 c3 -> same_client c1 c3.
Proof. unfold same_client. intros H1 H2. rewrite H1 in H2. by rewrite H2 at 1. Qed.
Lemma same_client_set l c : same_client c (set_sourceList l c).
Proof. done. Qed.
Lemma same_client_add s fr c c' fr' : add_source s fr c = Some (c', fr') -> same_client c c'.
Proof. unfold add_source. destruct fr; intros; by simplify_eq. Qed.
Lemma same_client_filter c c' : same_client c c' -> groupFilterTimer c' = groupFilterTimer c.
Proof. by intros ->. Qed.
Lemma same_client_id c c' : same_client c c' ->
  clientAddr c' = clientAddr c /\ clientMacAddr c' = clientMacAddr c.
Proof. by intros ->. Qed.

(** Source loops whose body gives each listed address a value that does not
    depend on the other addresses: the loop gives each listed address its value
    and leaves the others. *)
Lemma for_sources_look {T} (obs : sourceEntry -> T)
    (f : addr -> nat -> clientEntry -> option (clientEntry * nat))
    (P : clientEntry -> Prop) (new : option T -> T) :
  (forall o, new (Some (new o)) = new o) ->
  (forall a fr c c' fr', P c -> f a fr c = Some (c', fr') -> P c' /\ same_client c c' /\
     forall b, look obs v c' b = if addr_match v a b then Some (new (look obs v c a)) else look obs v c b) ->
  (forall a fr c, (0 < fr)%nat -> exists c' fr', f a fr c = Some (c', fr') /\ (fr <= S fr')%nat) ->
  forall srcs fr c, P c -> (length srcs <= fr)%nat ->
  exists c' fr', for_sources f srcs fr c = (true, c', fr') /\ same_client c c' /\
    forall b, look obs v c' b = if listed v b srcs then Some (new (look obs v c b)) else look obs v c b.
Proof.
  intros Hnew Hf Hok srcs. induction srcs as [|a srcs IH]; intros fr c HP Hfr; simpl in *.
  { exists c, fr. auto using same_client_refl. }
  destruct (Hok a fr c) as (c1 & fr1 & E & Hle); [lia|]. rewrite E.
  destruct (Hf _ _ _ _ _ HP E) as (HP1 & Hs1 & Ht1).
  destruct (IH fr1 c1 HP1) as (c' & fr' & E' & Hs' & Ht'); [lia|].
  exists c', fr'. split_and!; [done|by eapply same_client_trans|].
  intros b. rewrite Ht', Ht1. rewrite (addr_match_sym v b a).
  destruct (addr_match v a b) eqn:Eab; simpl; [|done].
  rewrite (look_ext obs c a b Eab). destruct (listed v b srcs); by rewrite ?Hnew.
Qed.

(** A body that refreshes a known source and links an unknown one. *)
Definition put_body (upd : sourceEntry -> sourceEntry) (fresh : addr -> sourceEntry)
    (a : addr) (fr : nat) (c : clientEntry) : option (clientEntry * nat) :=
  match rtk_igmp_searchSourceEntry v a c with
  | None => add_source (fresh a) fr c
  | Some _ => Some (update_source v a upd c, fr)
  end.

Lemma put_body_ok upd fresh a fr c : (0 < fr)%nat ->
  exists c' fr', put_body upd fresh a fr c = Some (c', fr') /\ (fr <= S fr')%nat.
Proof.
  intros Hfr. unfold put_body. destruct (rtk_igmp_searchSourceEntry v a c); [eauto with lia|].
  destruct fr as [|fr]; [lia|]. simpl. eauto with lia.
Qed.

Lemma put_body_look {T} (obs : sourceEntry -> T) upd fresh (g : T -> T) (d : T) a fr c c' fr' :
  (forall s, sourceAddr (upd s) = sourceAddr s) -> (forall a, sourceAddr (fresh a) = a) ->
  (forall s, obs (upd s) = g (obs s)) -> (forall a, obs (fresh a) = d) ->
  put_body upd fresh a fr c = Some (c', fr') -> same_client c c' /\
  forall b, look obs v c' b = if addr_match v a b
                              then Some (match look obs v c a with Some x => g x | None => d end)
                              else look obs v c b.
Proof.
  intros Hu Hfa Hg Hd E. unfold put_body in E.
  destruct (rtk_igmp_searchSourceEntry v a c) as [s|] eqn:Es.
  - injection E as <- <-. split; [apply same_client_set|]. intros b. rewrite look_update by done.
    unfold look at 2. rewrite Es. simpl. by rewrite Hg.
  - split; [by eapply same_client_add|]. intros b. rewrite (look_add obs _ _ _ _ _ b E).
    rewrite Hfa, Hd. unfold look at 2. by rewrite Es.
Qed.

(** The loop with such a body. *)
Lemma put_bodies {T} (obs : sourceEntry -> T) upd fresh (g : T -> T) (d : T) srcs fr c :
  (forall s, sourceAddr (upd s) = sourceAddr s) -> (forall a, sourceAddr (fresh a) = a) ->
  (forall s, obs (upd s) = g (obs s)) -> (forall a, obs (fresh a) = d) ->
  (forall x, g (g x) = g x) -> g d = d -> (length srcs <= fr)%nat ->
  exists c' fr', for_sources (put_body upd fresh) srcs fr c = (true, c', fr') /\ same_client c c' /\
    forall b, look obs v c' b = if listed v b srcs
                                then Some (match look obs v c b with Some x => g x | None => d end)
                                else look obs v c b.
Proof.
  intros Hu Hfa Hg Hd Hgg Hgd Hfr.
  apply (for_sources_look obs _ (fun _ => True) (fun o => match o with Some x => g x | None => d end));
    [by intros []| |intros; by apply put_body_ok|done|done].
  intros a fr0 c0 c' fr' _ E. split; [done|]. by eapply put_body_look.
Qed.

(** ALLOW and IS_IN. *)
Lemma put_sources_timers t srcs fr c : (length srcs <= fr)%nat ->
  exists c' fr', for_sources (put_source v t) srcs fr c = (true, c', fr') /\ same_client c c' /\
    forall b, timer_of v c' b = if listed v b srcs then Some t else timer_of v c b.
Proof.
  intros Hfr.
  destruct (put_bodies portTimer (set_portTimer t) (fun a => SourceEntry a t false false)
    (fun _ => t) t srcs fr c) as (c' & fr' & E & Hs & Ht); [done..|].
  exists c', fr'. split_and!; [exact E|done|]. intros b. unfold timer_of. rewrite Ht.
  by destruct (look portTimer v c b).
Qed.

(** TO_IN without fast leave. *)
Lemma toInclude_timers now aging srcs fr c : (length srcs <= fr)%nat ->
  exists c' fr', for_sources (toInclude_source v now aging) srcs fr c = (true, c', fr') /\ same_client c c' /\
    forall b, timer_of v c' b = if listed v b srcs then Some (u32 (now + aging)) else timer_of v c b.
Proof.
  intros Hfr. set (t := u32 (now + aging)).
  destruct (put_bodies portTimer (fun s => set_setOpFlag false (set_portTimer t s))
    (fun a => SourceEntry a t false false) (fun _ => t) t srcs fr c) as (c' & fr' & E & Hs & Ht); [done..|].
  exists c', fr'. split_and!; [|done|].
  - rewrite <- E. clear. revert fr c. induction srcs as [|a srcs IH]; intros fr c; [done|]. simpl.
    assert (toInclude_source v now aging a fr c = put_body (fun s => set_setOpFlag false (set_portTimer t s))
      (fun a => SourceEntry a t false false) a fr c) as ->.
    { unfold toInclude_source, put_body. by destruct (rtk_igmp_searchSourceEntry v a c). }
    destruct (put_body _ _ a fr c) as [[? ?]|]; auto.
  - intros b. unfold timer_of. rewrite Ht. by destruct (look portTimer v c b).
Qed.

(** The fast-leave rebuild. *)
Lemma rebuild_timers now t srcs fr c : (length srcs <= length (sourceList c) + fr)%nat ->
  exists c' fr', rebuild_sources now t srcs fr c = (true, c', fr') /\
    same_client (set_groupFilterTimer now c) c' /\
    forall b, timer_of v c' b = if listed v b srcs then Some t else None.
Proof.
  intros Hfr. unfold rebuild_sources. simpl.
  destruct (for_sources_look portTimer (fun a => add_source (SourceEntry a t false false)) (fun _ => True)
    (fun _ => t)) with (srcs := srcs) (fr := (length (sourceList c) + fr)%nat)
    (c := set_sourceList [] (set_groupFilterTimer now c)) as (c' & fr' & E & Hs & Ht); [done| | |done|done|].
  - intros a fr0 c0 c' fr' _ E. split; [done|]. split; [by eapply same_client_add|].
    intros b. by rewrite (look_add portTimer _ _ _ _ _ b E).
  - intros a [|fr0] c0 Hp; [lia|]. simpl. eauto with lia.
  - exists c', fr'. split_and!; [done|exact (same_client_trans _ _ _ (same_client_set [] _) Hs)|exact Ht].
Qed.

(** IS_EX: the sources the record does not list are deleted. *)
Definition unflagged_in (srcs : list addr) (c : clientEntry) : Prop :=
  forall s, s ∈ sourceList c -> setOpFlag s = false -> listed v (sourceAddr s) srcs = true.

Lemma unflagged_put upd fresh a fr c c' fr' srcs :
  (forall s, sourceAddr (upd s) = sourceAddr s) -> (forall a, sourceAddr (fresh a) = a) ->
  listed v a srcs = true -> unflagged_in srcs c ->
  put_body upd fresh a fr c = Some (c', fr') -> unflagged_in srcs c'.
Proof.
  intros Hu Hfa Ha Hc E s Hin Hs. unfold put_body, rtk_igmp_searchSourceEntry in E.
  destruct (List.find (source_match v a) (sourceList c)) as [s0|] eqn:Es.
  - injection E as <- <-. simpl in Hin. eapply elem_update_first in Hin as [Hin| ->]; [by auto| |done].
    rewrite Hu. apply List.find_some in Es as [_ Hm]. unfold source_match in Hm.
    unfold listed in *. apply existsb_exists in Ha as (b & Hb & Hab). apply existsb_exists.
    exists b. split; [done|]. by rewrite <- (addr_match_trans v a (sourceAddr s0)).
  - unfold add_source in E. destruct fr; [done|]. injection E as <- <-. simpl in Hin.
    apply elem_of_cons in Hin as [->|Hin]; [by rewrite Hfa|by auto].
Qed.

Lemma listed_cons a srcs : listed v a (a :: srcs) = true.
Proof. unfold listed. simpl. by rewrite addr_match_refl. Qed.

Lemma listed_elem b srcs : b ∈ srcs -> listed v b srcs = true.
Proof.
  intros Hb. apply existsb_exists. exists b. split; [by apply list_elem_of_In|apply addr_match_refl].
Qed.

Lemma unflagged_loop upd fresh all srcs fr c c' fr' ok :
  (forall s, sourceAddr (upd s) = sourceAddr s) -> (forall a, sourceAddr (fresh a) = a) ->
  (forall a, a ∈ srcs -> listed v a all = true) -> unflagged_in all c ->
  for_sources (put_body upd fresh) srcs fr c = (ok, c', fr') -> unflagged_in all c'.
Proof.
  intros Hu Hfa. revert fr c. induction srcs as [|a srcs IH]; intros fr c Hall Hc E; simpl in E; [by simplify_eq|].
  destruct (put_body upd fresh a fr c) as [[c1 fr1]|] eqn:E1; [|by simplify_eq].
  eapply IH; [| |exact E]; [intros; apply Hall; set_solver|].
  eapply unflagged_put; [done|done| |done|done]. apply Hall. set_solver.
Qed.

Lemma find_flagged_none l b :
  (forall s, s ∈ l -> setOpFlag s = false -> addr_match v b (sourceAddr s) = false) ->
  List.find (source_match v b) (filter (fun s => setOpFlag s = false) l) = None.
Proof.
  induction l as [|s l IH]; intros Hl; [done|]. rewrite filter_cons. case_decide as Es.
  - simpl. unfold source_match at 1. rewrite Hl; [|set_solver|done]. apply IH. set_solver.
  - apply IH. set_solver.
Qed.

Lemma find_flagged_some l b s :
  List.find (source_match v b) l = Some s -> setOpFlag s = false ->
  List.find (source_match v b) (filter (fun s => setOpFlag s = false) l) = Some s.
Proof.
  induction l as [|s' l IH]; intros Hl Hs; [done|]. simpl in Hl. rewrite filter_cons.
  destruct (source_match v b s') eqn:Em.
  - simplify_eq. rewrite decide_True by done. simpl. by rewrite Em.
  - case_decide; simpl; [rewrite Em|]; auto.
Qed.

Lemma listed_match b b' srcs : addr_match v b b' = true -> listed v b srcs = listed v b' srcs.
Proof.
  intros E. unfold listed. induction srcs as [|a srcs IH]; [done|]. simpl.
  by rewrite IH, (addr_match_trans v b b' a E).
Qed.

Lemma delete_flagged_timers srcs fr c b :
  unflagged_in srcs c -> (listed v b srcs = true -> look setOpFlag v c b = Some false) ->
  timer_of v (fst (delete_flagged fr c)) b = if listed v b srcs then timer_of v c b else None.
Proof.
  intros Hu Hl. unfold timer_of, look, rtk_igmp_searchSourceEntry in *. simpl.
  destruct (listed v b srcs) eqn:Eb.
  - specialize (Hl eq_refl). destruct (List.find (source_match v b) (sourceList c)) as [s|] eqn:Es; [|done].
    simpl in Hl. erewrite find_flagged_some; [done|done|congruence].
  - rewrite find_flagged_none; [done|]. intros s Hin Hs. specialize (Hu s Hin Hs).
    destruct (addr_match v b (sourceAddr s)) eqn:E; [|done]. rewrite (listed_match _ _ _ E) in Eb. congruence.
Qed.

(** The timers an IS_EX record leaves: the known sources keep theirs, or lose
    what they had if it ran out in exclude mode; new ones get the membership time
    in exclude mode and none in include mode. *)
Definition isExclude_timer (exclude : bool) (now aging : Z) (old : option Z) : Z :=
  match old with
  | Some x => if exclude && (x <=? now) then now else x
  | None => if exclude then now + aging else now
  end.

Lemma isExclude_timers now aging srcs fr c :
  0 <= now -> 0 <= aging -> now + aging < 2 ^ 32 -> (length srcs <= fr)%nat ->
  exists c' fr', for_sources (isExclude_source v now aging) srcs fr (flag_all c) = (true, c', fr') /\
    same_client c c' /\
    forall b, timer_of v (fst (delete_flagged fr' c')) b =
      if listed v b srcs then Some (isExclude_timer (exclude_mode now c) now aging (timer_of v c b)) else None.
Proof.
  intros H1 H2 H3 Hfr. set (e := exclude_mode now c). set (d := if e then now + aging else now).
  set (upd := fun s => set_setOpFlag false (if e && (portTimer s <=? now) then set_portTimer now s else s)).
  set (fresh := fun a => SourceEntry a d false false).
  set (g := fun p : Z * bool => (if e && (p.1 <=? now) then now else p.1, false)).
  assert (forall s, sourceAddr (upd s) = sourceAddr s) as Hu by (intros s; unfold upd; by case_match).
  assert (forall srcs fr c0, same_client c c0 ->
    for_sources (isExclude_source v now aging) srcs fr c0 = for_sources (put_body upd fresh) srcs fr c0) as Hbody.
  { clear srcs fr Hfr. induction srcs as [|a srcs IH]; intros fr c0 Hc0; [done|]. simpl.
    assert (isExclude_source v now aging a fr c0 = put_body upd fresh a fr c0) as ->.
    { unfold isExclude_source, put_body, exclude_mode. rewrite (same_client_filter _ _ Hc0).
      fold (exclude_mode now c). fold e. unfold fresh, d. rewrite (u32_small (now + aging)) by (unfold is_u32; lia).
      by destruct (rtk_igmp_searchSourceEntry v a c0). }
    destruct (put_body upd fresh a fr c0) as [[c1 fr1]|] eqn:E1; [|done]. apply IH.
    eapply same_client_trans; [done|].
    eapply (put_body_look portTimer upd fresh (fun x => if e && (x <=? now) then now else x) d); [done|done| |done|exact E1].
    intros s. unfold upd. by case_match. }
  destruct (put_bodies (fun s => (portTimer s, setOpFlag s)) upd fresh g (d, false) srcs fr (flag_all c))
    as (c' & fr' & E & Hs & Ht); [done|done| |done| | |done|].
  { intros s. unfold upd, g. simpl. by case_match. }
  { intros [x b]. unfold g. simpl. destruct e; simpl; [|done]. destruct (x <=? now) eqn:Ex; simpl; [|by rewrite Ex].
    by rewrite Z.leb_refl. }
  { unfold g, d. simpl. destruct e; simpl; [|done]. case_bool; bool_to_prop; f_equal; lia. }
  exists c', fr'. rewrite Hbody by apply same_client_set.
  split_and!; [done|by apply (same_client_trans _ _ _ (same_client_set _ c)) in Hs|].
  intros b. rewrite (delete_flagged_timers srcs).
  - destruct (listed v b srcs) eqn:Eb; [|done]. specialize (Ht b). rewrite Eb in Ht.
    assert (timer_of v (flag_all c) b = timer_of v c b) as Eflag.
    { unfold timer_of, flag_all. rewrite (look_fmap portTimer (set_setOpFlag true) id); try done.
      by destruct (look portTimer v c b). }
    rewrite <- Eflag. unfold timer_of, look in *.
    destruct (rtk_igmp_searchSourceEntry v b c'), (rtk_igmp_searchSourceEntry v b (flag_all c)); simpl in *;
      [|by injection Ht as -> _|done..].
    unfold g in Ht. simpl in Ht. by injection Ht as -> _.
  - eapply unflagged_loop; [done| | | |exact E]; [done|intros; by apply listed_elem|].
    intros s Hin Hf. unfold flag_all in Hin. simpl in Hin. apply list_elem_of_fmap in Hin as (s0 & -> & _). done.
  - intros Eb. specialize (Ht b). rewrite Eb in Ht. unfold look in *.
    destruct (rtk_igmp_searchSourceEntry v b c'), (rtk_igmp_searchSourceEntry v b (flag_all c)); simpl in *;
      [by injection Ht as _ ->..|done|done].
Qed.
End Sources.

(** ** The handlers *)
Section Handlers.
Context {cfg : IgmpConfig} {policy : AdmissionPolicy}.

(** What a learning report is checked against: version, record, group, client and
    the source the white list sees. *)
Definition report_args (r : report) : option (ip_version * bool * addr * addr * option addr) :=
  match r with
  | Join v ty ca ga => Some (v, false, join_group v ty ga, ca, None)
  | Leave _ _ _ => None
  | IsInclude v ca r | ToInclude v ca r | Allow v ca r =>
      Some (v, true, recGroup r, ca, single_source (recSources r))
  | IsExclude v ca r | ToExclude v ca r | Block v ca r => Some (v, true, recGroup r, ca, None)
  end.

Lemma guards_pass {A} hdr v v3 ga ca src (m : H A) st :
  admitted hdr v v3 ga ca src st = true ->
  (guard_reserved v ga ;;; guard_limit hdr v ga ca ;;; guard_white hdr v v3 ga ca src ;;; m) st = m st.
Proof.
  unfold admitted, guard_reserved, guard_limit, guard_white, bind. intros [[H1 H2]%andb_true_iff H3]%andb_true_iff.
  apply bool_decide_eq_true in H2.
  destruct (rtk_igmp_checkGroupToPsTbl v ga) as [[? ? ? []]|]; simpl in *; try done; by rewrite H2, H3.
Qed.

(** The verdict of a report that a check refuses. *)
Definition refusal (hdr : pktHdr) (v : ip_version) (ga ca : addr) (st : igmp) : nf_ret :=
  match rtk_igmp_checkGroupToPsTbl v ga with
  | Some (ResvGroup _ _ _ false) => RTK_IGMP_NF_ACCEPT
  | _ => match rtk_igmp_group_limitCheck st hdr v ga ca with
         | RTK_IGMP_NF_CONTINUE => RTK_IGMP_NF_DROP
         | r => r
         end
  end.

Lemma guards_stop hdr v v3 ga ca src (m : H nf_ret) st :
  admitted hdr v v3 ga ca src st = false ->
  run (guard_reserved v ga ;;; guard_limit hdr v ga ca ;;; guard_white hdr v v3 ga ca src ;;; m) st
  = (refusal hdr v ga ca st, st).
Proof.
  unfold admitted, refusal, run, guard_reserved, guard_limit, guard_white, bind. intros Ha.
  destruct (rtk_igmp_checkGroupToPsTbl v ga) as [[? ? ? []]|]; simpl in *; try done;
    destruct (rtk_igmp_group_limitCheck st hdr v ga ca); simpl in *; try done;
    by rewrite Ha.
Qed.

(** An admitted report on a database with room is a point update of the map. *)
Lemma learn_admitted hdr v v3 ga ca src fresh r ok f m st :
  m = (guard_reserved v ga ;;; guard_limit hdr v ga ca ;;; guard_white hdr v v3 ga ca src ;;;
       find_or_create_group hdr v ga r ;;; find_or_create_client hdr v ga ca fresh r ;;;
       t <-- now ;;; on_client hdr v ga ca (f t) ;;; reflush ga ;;; ret ok) ->
  in_range (moduleIndex hdr) st -> sized st ->
  admitted hdr v v3 ga ca src st = true -> room (key_of hdr v ga ca) st = true ->
  (forall st', rtk_igmp_sysUpSeconds st' = rtk_igmp_sysUpSeconds st -> fresh st' = fresh st) ->
  keeps_id (f (rtk_igmp_sysUpSeconds st)) ->
  let out := f (rtk_igmp_sysUpSeconds st) (freeSources st) (client0 hdr v ga ca (fresh st) st) in
  fst (run m st) = (if fst (fst out) then ok else RTK_IGMP_NF_DROP) /\
  forall k', view (snd (run m st)) k' =
             if same_key (key_of hdr v ga ca) k' then Some (snd (fst out)) else view st k'.
Proof.
  intros -> Hr Hs Ha Hroom Hfresh Hid. unfold run.
  rewrite (guards_pass hdr v v3 ga ca src _ st Ha). by apply (learn_spec hdr v ga ca fresh r ok f st).
Qed.

(** The source loops change the source list only. *)
Lemma for_sources_same f srcs fr c :
  (forall a fr c c' fr', f a fr c = Some (c', fr') -> same_client c c') ->
  same_client c (snd (fst (for_sources f srcs fr c))).
Proof.
  intros Hf. revert fr c. induction srcs as [|a srcs IH]; intros fr c; simpl; [apply same_client_refl|].
  destruct (f a fr c) as [[c1 fr1]|] eqn:E; [|apply same_client_refl].
  eapply same_client_trans; [by eapply Hf|apply IH].
Qed.

Lemma ptr_loop_same f n ptr fr c :
  (forall a fr c c' fr' b, f a fr c = Some (c', fr', b) -> same_client c c') ->
  same_client c (snd (fst (ptr_loop f n ptr fr c))).
Proof.
  intros Hf. revert ptr fr c. induction n as [|n IH]; intros ptr fr c; simpl; [apply same_client_refl|].
  destruct ptr as [|a rest]; [apply same_client_refl|].
  destruct (f a fr c) as [[[c1 fr1] b]|] eqn:E; [|apply same_client_refl].
  eapply same_client_trans; [by eapply Hf|apply IH].
Qed.

Lemma put_source_same v t a fr c c' fr' : put_source v t a fr c = Some (c', fr') -> same_client c c'.
Proof.
  unfold put_source. destruct (rtk_igmp_searchSourceEntry v a c); [|apply same_client_add]. by intros [= <- _].
Qed.
Lemma isExclude_same v now aging a fr c c' fr' :
  isExclude_source v now aging a fr c = Some (c', fr') -> same_client c c'.
Proof.
  unfold isExclude_source. destruct (rtk_igmp_searchSourceEntry v a c); [|apply same_client_add]. by intros [= <- _].
Qed.
Lemma toInclude_same v now aging a fr c c' fr' :
  toInclude_source v now aging a fr c = Some (c', fr') -> same_client c c'.
Proof.
  unfold toInclude_source. destruct (rtk_igmp_searchSourceEntry v a c); [|apply same_client_add]. by intros [= <- _].
Qed.

Lemma rebuild_id now t srcs fr c :
  clientAddr (snd (fst (rebuild_sources now t srcs fr c))) = clientAddr c /\
  clientMacAddr (snd (fst (rebuild_sources now t srcs fr c))) = clientMacAddr c.
Proof.
  unfold rebuild_sources. simpl. match goal with |- context [for_sources ?f ?s ?n ?c] =>
    pose proof (for_sources_same f s n c) as Hs end.
  apply same_client_id in Hs; [done|]. intros *. apply same_client_add.
Qed.

(** What the map said about a source before the report. *)
Lemma timer_client0 hdr v ga ca fresh st ver b :
  timer_of v (stamp hdr ver (client0 hdr v ga ca fresh st)) b =
  view st (key_of hdr v ga ca) ≫= fun c => timer_of v c b.
Proof. unfold client0. by destruct (view st _). Qed.

(** A report that the reserved-group table, the limits or the white list
    refuses changes nothing: no handler touches the database before its checks,
    and the verdict is the one of the check that failed first. *)
Theorem refused_report_changes_nothing hdr r v v3 ga ca src st :
  report_args r = Some (v, v3, ga, ca, src) -> admitted hdr v v3 ga ca src st = false ->
  run (handle hdr r) st = (refusal hdr v ga ca st, st).
Proof.
  intros Hr Ha. destruct r; simpl in Hr; simplify_eq; simpl; by apply guards_stop.
Qed.

(** C10: a join (IGMPv1/v2, MLDv1) that is admitted and for which the pools have
    room makes its sender a member for the membership interval: in exclude mode
    with no source list, on the port the report came in on, with the version of
    the report; every other membership is untouched. *)
Theorem join_makes_member hdr v ty ca ga0 st :
  let ga := join_group v ty ga0 in
  let k := key_of hdr v ga ca in
  let out := run (rtk_igmp_processJoin hdr v ty ca ga0) st in
  in_range (moduleIndex hdr) st -> sized st ->
  admitted hdr v false ga ca None st = true -> room k st = true ->
  fst out = RTK_IGMP_NF_ACCEPT /\
  (exists c, view (snd out) k = Some c /\ sourceList c = [] /\ inIfidx c = devIfindex hdr /\
     igmpVersion c = join_version v ty /\
     groupFilterTimer c = u32 (rtk_igmp_sysUpSeconds st + memberAgingInterval (conf_of hdr v))) /\
  forall k', same_key k k' = false -> view (snd out) k' = view st k'.
Proof.
  intros ga k out Hr Hs Ha Hroom.
  destruct (learn_admitted hdr v false ga ca None _ _ _ _ (rtk_igmp_processJoin hdr v ty ca ga0) st eq_refl
    Hr Hs Ha Hroom) as [Hret Hview]; [done|done|]. fold out k in Hret, Hview. simpl in Hret, Hview.
  split; [exact Hret|]. split.
  - eexists. split; [by rewrite Hview, same_key_refl|]. simpl. split_and!; try done.
    unfold client0. by case_match.
  - intros k' Hk'. by rewrite Hview, Hk'.
Qed.

(** An admitted ALLOW_NEW_SOURCES record with room for its sources gives every
    listed source the membership interval and leaves every other timer, the
    filter timer (so the filter mode) and every other membership as they were; a
    client not known before starts in include mode. *)
Theorem allow_sets_listed_timers hdr v ca r st :
  let ga := recGroup r in
  let k := key_of hdr v ga ca in
  let now := rtk_igmp_sysUpSeconds st in
  let out := run (rtk_igmp_processAllow hdr v ca r) st in
  in_range (moduleIndex hdr) st -> sized st ->
  admitted hdr v true ga ca (single_source (recSources r)) st = true -> room k st = true ->
  (length (recSources r) <= freeSources st)%nat ->
  fst out = RTK_IGMP_NF_CONTINUE /\
  (exists c, view (snd out) k = Some c /\
     groupFilterTimer c = default now (groupFilterTimer <$> view st k) /\
     forall b, timer_of v c b =
       if listed v b (recSources r) then Some (u32 (now + memberAgingInterval (conf_of hdr v)))
       else view st k ≫= fun c => timer_of v c b) /\
  forall k', same_key k k' = false -> view (snd out) k' = view st k'.
Proof.
  intros ga k now0 out Hr Hs Ha Hroom Hfr.
  destruct (learn_admitted hdr v true ga ca _ _ _ _ _ (rtk_igmp_processAllow hdr v ca r) st eq_refl
    Hr Hs Ha Hroom) as [Hret Hview]; [auto| |].
  { intros fr c. apply (same_client_id (stamp hdr (v3_version v) c)), for_sources_same. intros *. apply put_source_same. }
  fold out k now0 in Hret, Hview.
  destruct (put_sources_timers v (u32 (now0 + memberAgingInterval (conf_of hdr v))) (recSources r) (freeSources st)
    (stamp hdr (v3_version v) (client0 hdr v ga ca now0 st)) Hfr) as (c' & fr' & E & Hsame & Ht).
  fold now0 in E. rewrite E in Hret, Hview. simpl in *. split; [done|]. split.
  - exists c'. split; [by rewrite Hview, same_key_refl|]. split.
    + rewrite (same_client_filter _ _ Hsame). unfold client0. fold k. by destruct (view st k).
    + intros b. by rewrite Ht, timer_client0.
  - intros k' Hk'. by rewrite Hview, Hk'.
Qed.

(** An admitted MODE_IS_INCLUDE record gives every listed source the membership
    interval.  Without fast leave the other sources stay; with fast leave the
    source list becomes exactly the record's and the client is put in include
    mode. *)
Theorem isInclude_sets_listed_timers hdr v ca r st :
  let ga := recGroup r in
  let k := key_of hdr v ga ca in
  let now := rtk_igmp_sysUpSeconds st in
  let cf := conf_of hdr v in
  let out := run (rtk_igmp_processIsInclude hdr v ca r) st in
  in_range (moduleIndex hdr) st -> sized st ->
  admitted hdr v true ga ca (single_source (recSources r)) st = true -> room k st = true ->
  (length (recSources r) <= freeSources st)%nat ->
  fst out = RTK_IGMP_NF_CONTINUE /\
  (exists c, view (snd out) k = Some c /\
     groupFilterTimer c = (if fastLeave cf then now else default now (groupFilterTimer <$> view st k)) /\
     forall b, timer_of v c b =
       if listed v b (recSources r) then Some (u32 (now + memberAgingInterval cf))
       else if fastLeave cf then None else view st k ≫= fun c => timer_of v c b) /\
  forall k', same_key k k' = false -> view (snd out) k' = view st k'.
Proof.
  intros ga k now0 cf out Hr Hs Ha Hroom Hfr.
  destruct (learn_admitted hdr v true ga ca _ _ _ _ _ (rtk_igmp_processIsInclude hdr v ca r) st eq_refl
    Hr Hs Ha Hroom) as [Hret Hview]; [auto| |].
  { intros fr c. cbv zeta. destruct (fastLeave _); [apply (rebuild_id _ _ _ _ (stamp hdr (v3_version v) c))|].
    apply (same_client_id (stamp hdr (v3_version v) c)), for_sources_same. intros *. apply put_source_same. }
  fold out k now0 cf in Hret, Hview. cbv zeta in Hret, Hview.
  set (c0 := stamp hdr (v3_version v) (client0 hdr v ga ca now0 st)) in *.
  destruct (fastLeave cf).
  - destruct (rebuild_timers v now0 (u32 (now0 + memberAgingInterval cf)) (recSources r) (freeSources st) c0)
      as (c' & fr' & E & Hsame & Ht); [lia|].
    rewrite E in Hret, Hview. simpl in *. split; [done|]. split; [|intros k' Hk'; by rewrite Hview, Hk'].
    exists c'. split_and!; [by rewrite Hview, same_key_refl|by rewrite (same_client_filter _ _ Hsame)|done].
  - destruct (put_sources_timers v (u32 (now0 + memberAgingInterval cf)) (recSources r) (freeSources st) c0 Hfr)
      as (c' & fr' & E & Hsame & Ht).
    rewrite E in Hret, Hview. simpl in *. split; [done|]. split; [|intros k' Hk'; by rewrite Hview, Hk'].
    exists c'. split_and!; [by rewrite Hview, same_key_refl| |].
    + rewrite (same_client_filter _ _ Hsame). unfold c0, client0. fold k. by destruct (view st k).
    + intros b. unfold c0 in Ht. by rewrite Ht, timer_client0.
Qed.

(** An admitted MODE_IS_EXCLUDE record puts the client in exclude mode for the
    membership interval and makes its source list exactly the record's: unlisted
    sources are deleted, listed ones get the timer of [isExclude_timer]. *)
Theorem isExclude_replaces_sources hdr v ca r st :
  let ga := recGroup r in
  let k := key_of hdr v ga ca in
  let now := rtk_igmp_sysUpSeconds st in
  let aging := memberAgingInterval (conf_of hdr v) in
  let out := run (rtk_igmp_processIsExclude hdr v ca r) st in
  in_range (moduleIndex hdr) st -> sized st ->
  admitted hdr v true ga ca None st = true -> room k st = true ->
  (length (recSources r) <= freeSources st)%nat -> 0 <= now -> 0 <= aging -> now + aging < 2 ^ 32 ->
  fst out = RTK_IGMP_NF_CONTINUE /\
  (exists c, view (snd out) k = Some c /\ groupFilterTimer c = now + aging /\
     forall b, timer_of v c b =
       if listed v b (recSources r)
       then Some (isExclude_timer (now <? default 0 (groupFilterTimer <$> view st k)) now aging
                    (view st k ≫= fun c => timer_of v c b))
       else None) /\
  forall k', same_key k k' = false -> view (snd out) k' = view st k'.
Proof.
  intros ga k now0 aging out Hr Hs Ha Hroom Hfr H1 H2 H3.
  destruct (learn_admitted hdr v true ga ca _ _ _ _ _ (rtk_igmp_processIsExclude hdr v ca r) st eq_refl
    Hr Hs Ha Hroom) as [Hret Hview]; [auto| |].
  { intros fr c. cbv zeta. match goal with |- context [for_sources ?f ?s ?n ?c] =>
      pose proof (for_sources_same f s n c) as Hsame; destruct (for_sources f s n c) as [[[] c'] fr'] end;
      apply same_client_id in Hsame; try done; intros *; apply isExclude_same. }
  fold out k now0 aging in Hret, Hview. cbv zeta in Hret, Hview.
  set (c0 := stamp hdr (v3_version v) (client0 hdr v ga ca 0 st)) in *.
  destruct (isExclude_timers v now0 aging (recSources r) (freeSources st) c0 H1 H2 H3 Hfr)
    as (c' & fr' & E & Hsame & Ht).
  rewrite E in Hret, Hview. simpl in Hret, Hview.
  split; [done|]. split; [|intros k' Hk'; by rewrite Hview, Hk'].
  eexists. split_and!; [by rewrite Hview, same_key_refl|apply u32_small; unfold is_u32; lia|].
  intros b. etransitivity; [exact (Ht b)|]. unfold c0. rewrite timer_client0.
  unfold exclude_mode, client0. fold k. by destruct (view st k).
Qed.

(** The time a TO_IN or a leave leaves to a timer. *)
Definition cut (t x : Z) : Z := if t <? x then t else x.

Lemma cut_min t x : cut t x = Z.min t x.
Proof. unfold cut. destruct (t <? x) eqn:E; bool_to_prop; lia. Qed.

Lemma toInclude_id v now last aging t' srcs fr c :
  let out := match for_sources (toInclude_source v now aging) srcs fr
               (set_sourceList (toInclude_shrink now last <$> sourceList c) c) with
             | (true, c, fr) => (true, (if t' <? groupFilterTimer c then set_groupFilterTimer t' c else c), fr)
             | out => out
             end in
  clientAddr (snd (fst out)) = clientAddr c /\ clientMacAddr (snd (fst out)) = clientMacAddr c.
Proof.
  cbv zeta. match goal with |- context [for_sources ?f ?s ?n ?c] =>
    pose proof (for_sources_same f s n c) as Hsame; destruct (for_sources f s n c) as [[[] c'] fr'] end;
    apply same_client_id in Hsame; try (intros *; apply toInclude_same); simpl in *; [|done].
  by destruct (_ <? _).
Qed.

(** An admitted CHANGE_TO_INCLUDE record gives every listed source the
    membership interval; without fast leave the timers of the others and the
    filter timer are cut to the last-member time (never lengthened), with fast
    leave the list becomes the record's and the client is in include mode now. *)
Theorem toInclude_cuts_unlisted hdr v ca r st :
  let ga := recGroup r in
  let k := key_of hdr v ga ca in
  let now := rtk_igmp_sysUpSeconds st in
  let cf := conf_of hdr v in
  let last := u32 (now + lastMemberAgingInterval cf) in
  let out := run (rtk_igmp_processToInclude hdr v ca r) st in
  in_range (moduleIndex hdr) st -> sized st ->
  admitted hdr v true ga ca (single_source (recSources r)) st = true -> room k st = true ->
  (length (recSources r) <= freeSources st)%nat ->
  fst out = RTK_IGMP_NF_CONTINUE /\
  (exists c, view (snd out) k = Some c /\
     groupFilterTimer c = (if fastLeave cf then now
                           else Z.min last (default 0 (groupFilterTimer <$> view st k))) /\
     forall b, timer_of v c b =
       if listed v b (recSources r) then Some (u32 (now + memberAgingInterval cf))
       else if fastLeave cf then None else Z.min last <$> (view st k ≫= fun c => timer_of v c b)) /\
  forall k', same_key k k' = false -> view (snd out) k' = view st k'.
Proof.
  intros ga k now0 cf last out Hr Hs Ha Hroom Hfr.
  destruct (learn_admitted hdr v true ga ca _ _ _ _ _ (rtk_igmp_processToInclude hdr v ca r) st eq_refl
    Hr Hs Ha Hroom) as [Hret Hview]; [auto| |].
  { intros fr c. cbv zeta. destruct (fastLeave _); [apply (rebuild_id _ _ _ _ (stamp hdr (v3_version v) c))|].
    apply (toInclude_id v _ _ _ _ _ _ (stamp hdr (v3_version v) c)). }
  fold out k now0 cf in Hret, Hview. cbv zeta in Hret, Hview. fold last in Hret, Hview.
  set (c0 := stamp hdr (v3_version v) (client0 hdr v ga ca 0 st)) in *.
  destruct (fastLeave cf).
  - destruct (rebuild_timers v now0 (u32 (now0 + memberAgingInterval cf)) (recSources r) (freeSources st) c0)
      as (c' & fr' & E & Hsame & Ht); [lia|].
    rewrite E in Hret, Hview. simpl in *. split; [done|]. split; [|intros k' Hk'; by rewrite Hview, Hk'].
    exists c'. split_and!; [by rewrite Hview, same_key_refl|by rewrite (same_client_filter _ _ Hsame)|done].
  - set (c1 := set_sourceList (toInclude_shrink now0 (lastMemberAgingInterval cf) <$> sourceList c0) c0) in *.
    destruct (toInclude_timers v now0 (memberAgingInterval cf) (recSources r) (freeSources st) c1 Hfr)
      as (c' & fr' & E & Hsame & Ht).
    rewrite E in Hret, Hview. simpl in Hret, Hview. split; [done|].
    split; [|intros k' Hk'; by rewrite Hview, Hk'].
    eexists. split_and!; [by rewrite Hview, same_key_refl| |].
    + transitivity (cut last (groupFilterTimer c')); [unfold cut; by case_match|].
      rewrite cut_min, (same_client_filter _ _ Hsame). f_equal. unfold c1, c0, client0. fold k. by destruct (view st k).
    + intros b. transitivity (timer_of v c' b); [by case_match|]. rewrite Ht. destruct (listed v b (recSources r)); [done|].
      unfold timer_of, c1. rewrite (look_fmap v portTimer (toInclude_shrink now0 (lastMemberAgingInterval cf)) (Z.min last) (sourceList c0));
        [|intros s..|done].
      * f_equal. apply (timer_client0 hdr v ga ca 0 st (v3_version v) b).
      * unfold toInclude_shrink. by destruct (_ <? portTimer (set_setOpFlag _ s)).
      * rewrite <- cut_min. unfold toInclude_shrink, cut. fold last. simpl. by destruct (last <? portTimer s).
Qed.

(** ** Leaving *)

(** Deleting a group without clients does not change the map. *)
Lemma view_delete_empty mi v ga st k :
  in_range mi st -> sized st -> hashed st -> unique st ->
  view (delete_empty_group mi v ga st) k = view st k /\
  (forall g, rtk_igmp_searchGroupEntry mi v ga (delete_empty_group mi v ga st) = Some g -> clientList g <> []).
Proof.
  intros Hr Hs Hh Hu. unfold delete_empty_group.
  destruct (rtk_igmp_searchGroupEntry mi v ga st) as [g|] eqn:Eg; [|by split; [|rewrite Eg]].
  destruct (clientList g) as [|c0 l0] eqn:El; [|split; [done|]; intros g' Hg'; congruence].
  pose proof (search_group_spec _ _ _ _ _ Eg) as [Hin Hm]. destruct (Hh _ _ _ _ Hin) as [Hv Hhash].
  unfold rtk_igmp_deleteGroupEntry, rtk_igmp_unlinkGroupEntry. simpl. rewrite Hv, Hhash.
  match goal with |- context [alter_bucket mi v _ ?f ?s] => set (st1 := s) end.
  assert (modules st1 = modules st) as Em by (subst st1; by destruct (hwGroupDelCb st)). clearbody st1.
  assert (forall ga', rtk_igmp_searchGroupEntry mi v ga'
    (alter_bucket mi v (hash v ga) (remove_first (group_match v (groupAddr g))) st1) =
    if addr_match v ga ga' then None else rtk_igmp_searchGroupEntry mi v ga' st) as Hsearch.
  { intros ga'. unfold rtk_igmp_searchGroupEntry.
    assert (bucket mi v (hash v ga') st1 = bucket mi v (hash v ga') st) as Eb by (unfold bucket; by rewrite Em).
    destruct (decide (hash v ga' = hash v ga)) as [Ehash|Hne].
    - rewrite Ehash in *. rewrite bucket_alter_eq; [|by unfold in_range; rewrite Em|by eapply sized_modules_eq|apply hash_bound].
      rewrite Eb. destruct (addr_match v ga ga') eqn:E.
      + rewrite (find_ext (group_match v ga') (group_match v (groupAddr g))).
        * apply (find_remove_first_none _ (same_groupAddr v)); [|by apply Hu]. intros x y Hx Hy.
          unfold same_groupAddr, group_match in *. by rewrite <- (addr_match_trans v (groupAddr g) (groupAddr x)).
        * intros x. unfold group_match. by rewrite <- (addr_match_trans _ _ _ _ E), (addr_match_trans _ _ _ _ Hm).
      + apply find_remove_first_other. intros x Hx. unfold group_match in *.
        rewrite <- (addr_match_trans _ _ _ _ Hm) in Hx. by eapply addr_match_neg.
    - rewrite bucket_alter_ne by congruence. rewrite Eb.
      destruct (addr_match v ga ga') eqn:E; [|done]. by apply addr_match_hash in E. }
  split.
  - transitivity (view (alter_bucket mi v (hash v ga) (remove_first (group_match v (groupAddr g))) st1) k); [done|].
    destruct (decide (k_mod k = mi /\ k_ver k = v)) as [[E1 E2]|Hne].
    + unfold view, get_client. rewrite E1, E2, Hsearch. destruct (addr_match v ga (k_group k)) eqn:E; [|done].
      by rewrite <- (search_group_ext _ _ _ _ st E), Eg; simpl; rewrite El.
    + unfold view, get_client, rtk_igmp_searchGroupEntry. rewrite bucket_alter_ne by (intros ?; apply Hne; naive_solver).
      unfold bucket. by rewrite Em.
  - intros g' Hg'. specialize (Hsearch ga). rewrite addr_match_refl in Hsearch.
    assert (rtk_igmp_searchGroupEntry mi v ga (alter_bucket mi v (hash v ga)
      (remove_first (group_match v (groupAddr g))) st1) = Some g') as Hc by exact Hg'. congruence.
Qed.

Lemma view_search_client hdr v ca ga st k' :
  in_range (moduleIndex hdr) st -> sized st ->
  view (alter_group (moduleIndex hdr) v ga
          (fun g => snd (rtk_igmp_searchClientEntry v g (devIfindex hdr) ca hdr)) st) k' =
  if same_key (key_of hdr v ga ca) k'
  then refresh_port (devIfindex hdr) hdr <$> view st (key_of hdr v ga ca) else view st k'.
Proof.
  intros Hr Hs.
  transitivity (view (alter_client (moduleIndex hdr) v ga ca (smac hdr) (refresh_port (devIfindex hdr) hdr) st) k');
    [|by apply view_alter_client].
  unfold alter_client. rewrite !view_alter_group; try done.
  - destruct (same_group _ _ _ _ _ _); [|done].
    destruct (rtk_igmp_searchGroupEntry (moduleIndex hdr) v ga st) as [g|]; [|done]. simpl.
    unfold rtk_igmp_searchClientEntry. destruct (List.find _ (clientList g)) eqn:E; [done|]. simpl.
    by rewrite update_first_none.
  - intros g. unfold rtk_igmp_searchClientEntry. by destruct (List.find _ (clientList g)).
Qed.

Lemma view_none_group hdr v ga ca st k' :
  rtk_igmp_searchGroupEntry (moduleIndex hdr) v ga st = None ->
  same_key (key_of hdr v ga ca) k' = true -> view st k' = None.
Proof.
  intros Hn [Hk _]%andb_true_iff. rewrite (view_same_group _ _ _ st k' Hk). simpl. by rewrite Hn.
Qed.

Lemma same_key_view st k k' : same_key k k' = true -> view st k' = view st k.
Proof.
  intros [Hk Hc]%andb_true_iff. rewrite (view_same_group _ _ _ st k' Hk).
  apply andb_true_iff in Hc as [Hc Hm]. apply bool_decide_eq_true in Hm.
  unfold view, get_client. destruct (rtk_igmp_searchGroupEntry _ _ _ st) as [g|]; simpl; [|done].
  rewrite <- Hm. symmetry. apply find_ext. intros c. by apply client_match_ext.
Qed.

(** Fast leave removes the membership of its key, as no client is there twice. *)
Lemma view_remove_client hdr v ca ga st g st' g' k' :
  in_range (moduleIndex hdr) st -> sized st -> unique st ->
  rtk_igmp_searchGroupEntry (moduleIndex hdr) v ga st = Some g ->
  is_Some (List.find (client_match v ca (smac hdr)) (clientList g)) ->
  rtk_igmp_deleteClientEntry (client_match v ca (smac hdr)) g st = (g', st') ->
  view (alter_group (moduleIndex hdr) v ga (fun _ => g') st') k' =
  if same_key (key_of hdr v ga ca) k' then None else view st k'.
Proof.
  intros Hr Hs Hu Eg [c Ec] Ed. pose proof (search_group_spec _ _ _ _ _ Eg) as [Hin Hm].
  unfold rtk_igmp_deleteClientEntry in Ed. rewrite Ec in Ed. injection Ed as <- <-.
  rewrite view_alter_group; [|done|done|done].
  unfold same_key. simpl. destruct (same_group _ _ _ _ _ _) eqn:E; simpl; [|done].
  change (rtk_igmp_searchGroupEntry _ _ _ (set_free _ _ _ _))
    with (rtk_igmp_searchGroupEntry (moduleIndex hdr) v ga st). rewrite Eg. simpl.
  destruct (addr_match v ca (k_client k') && bool_decide (smac hdr = k_mac k'))%bool eqn:Ek.
  - apply andb_true_iff in Ek as [Ea Em]. apply bool_decide_eq_true in Em. rewrite <- Em.
    rewrite (find_ext _ (client_match v ca (smac hdr))) by (intros x; symmetry; by apply client_match_ext).
    apply (find_remove_first_none _ (same_clientId v)).
    + intros x y Hx Hy.
      unfold client_match, same_clientId in *. apply andb_true_iff in Hx as [Hx1 Hx2], Hy as [Hy1 Hy2].
      apply bool_decide_eq_true in Hx2, Hy2. rewrite Hx2, Hy2, bool_decide_true by done.
      rewrite (addr_match_trans _ _ _ _ Hx1), (addr_match_sym v ca). by rewrite Hy1.
    + destruct (Hu (moduleIndex hdr) v (hash v ga)) as [_ Hc]. rewrite Forall_forall in Hc. by apply Hc.
  - rewrite (view_same_group _ _ _ st k' E), Eg. simpl. apply find_remove_first_other. intros x Hx.
    by rewrite (client_match_sym _ _ _ _ Hx).
Qed.

Lemma view_leave_client hdr v ca ga st k' :
  let k := key_of hdr v ga ca in
  let cf := conf_of hdr v in
  in_range (moduleIndex hdr) st -> sized st -> unique st ->
  view (leave_client hdr v ca ga st) k' =
  if same_key k k' then
    if fastLeave cf then None
    else leave_shrink (rtk_igmp_sysUpSeconds st) (lastMemberAgingInterval cf) <$>
           (refresh_port (devIfindex hdr) hdr <$> view st k)
  else view st k'.
Proof.
  intros k cf Hr Hs Hu. unfold leave_client. fold cf.
  destruct (rtk_igmp_searchGroupEntry _ v ga st) as [g0|] eqn:E0.
  2:{ destruct (same_key k k') eqn:Ek; [|done]. rewrite (same_key_view st k k' Ek).
      rewrite (view_none_group hdr v ga ca st k E0) by apply same_key_refl. by destruct (fastLeave cf). }
  pose proof (view_search_client hdr v ca ga st) as Hv1.
  pose proof (unique_search_client hdr v ca ga (moduleIndex hdr) st Hu) as Hu1.
  pose proof (same_env_alter_group (moduleIndex hdr) v ga
    (fun g => snd (rtk_igmp_searchClientEntry v g (devIfindex hdr) ca hdr)) st) as Henv.
  cbv zeta. set (st1 := alter_group _ _ _ _ st) in *. fold k in Hv1.
  assert (in_range (moduleIndex hdr) st1 /\ sized st1) as [Hr1 Hs1].
  { split; [by eapply same_env_range|by apply Henv]. }
  rewrite (env_now _ _ Henv).
  change (get_client _ v ga ca _ st1) with (view st1 k). rewrite Hv1, same_key_refl by done.
  destruct (view st k) as [c|] eqn:Ek; simpl.
  - destruct (rtk_igmp_searchGroupEntry _ v ga st1) as [g1|] eqn:E1.
    + destruct (fastLeave cf).
      * destruct (rtk_igmp_deleteClientEntry _ g1 st1) as [g' st'] eqn:Ed.
        rewrite (view_remove_client hdr v ca ga st1 g1 st' g' k'); try done.
        -- fold k. destruct (same_key k k') eqn:Ekk; [done|]. by rewrite Hv1, Ekk.
        -- specialize (Hv1 k Hr Hs). rewrite same_key_refl in Hv1. unfold view, get_client in Hv1.
           simpl in Hv1. rewrite E1 in Hv1. simpl in Hv1. rewrite Hv1. by eexists.
      * rewrite view_alter_client; [|done|done|].
        -- change (Key _ _ _ _ _) with k. rewrite !Hv1, same_key_refl by done.
           destruct (same_key k k'); done.
        -- intros c1. unfold client_match. by destruct (leave_shrink_id (rtk_igmp_sysUpSeconds st)
             (lastMemberAgingInterval cf) c1) as [-> ->].
    + specialize (Hv1 k Hr Hs). rewrite same_key_refl in Hv1.
      by rewrite (view_none_group hdr v ga ca st1 k E1) in Hv1 by apply same_key_refl.
  - rewrite Hv1 by done. destruct (same_key k k'), (fastLeave cf); done.
Qed.

(** A leave ends the membership.  With fast leave the client is gone at once;
    without it its filter timer and the timers of its sources are cut to the
    last-member time, never lengthened.  A group that has no client left is
    deleted, and no other membership changes. *)
Theorem leave_ends_membership G C S hdr v ca ga st :
  let k := key_of hdr v ga ca in
  let cf := conf_of hdr v in
  let last := u32 (rtk_igmp_sysUpSeconds st + lastMemberAgingInterval cf) in
  let out := run (rtk_igmp_processLeave hdr v ca ga) st in
  inv G C S st -> unique st -> in_range (moduleIndex hdr) st ->
  fst out = RTK_IGMP_NF_ACCEPT /\
  (if fastLeave cf then view (snd out) k = None
   else match view st k with
        | None => view (snd out) k = None
        | Some c => exists c', view (snd out) k = Some c' /\
            groupFilterTimer c' = Z.min last (groupFilterTimer c) /\
            forall b, timer_of v c' b = Z.min last <$> timer_of v c b
        end) /\
  (forall g, rtk_igmp_searchGroupEntry (moduleIndex hdr) v ga (snd out) = Some g -> clientList g <> []) /\
  forall k', same_key k k' = false -> view (snd out) k' = view st k'.
Proof.
  intros k cf last out Hinv Hu Hr.
  pose proof (inv_sized _ _ _ _ Hinv) as Hs.
  destruct (good_leave_client G C S (length (modules st)) (moduleIndex hdr) hdr v ca ga st eq_refl)
    as (Hinv1 & Hr1 & _); [done|].
  pose proof (unique_leave_client hdr v ca ga st Hu) as Hu1.
  pose proof (view_leave_client hdr v ca ga st) as Hv. fold k cf in Hv.
  set (st1 := leave_client hdr v ca ga st) in *.
  pose proof (fun k => view_delete_empty (moduleIndex hdr) v ga st1 k Hr1
    (inv_sized _ _ _ _ Hinv1) (inv_hashed _ _ _ _ Hinv1) Hu1) as Hd.
  assert (fst out = RTK_IGMP_NF_ACCEPT /\ modules (snd out) = modules (delete_empty_group (moduleIndex hdr) v ga st1)) as [Hret Em].
  { unfold out, run, rtk_igmp_processLeave, bind, modify. fold st1. fold cf. by destruct (fastLeave cf). }
  assert (forall k', view (snd out) k' = view st1 k') as Hview.
  { intros k'. rewrite <- (proj1 (Hd k')). unfold view, get_client, rtk_igmp_searchGroupEntry, bucket. by rewrite Em. }
  split; [done|]. split_and!.
  - rewrite Hview, Hv, same_key_refl by done. destruct (fastLeave cf); [done|].
    destruct (view st k) as [c|]; [|done]. simpl. eexists. split; [done|]. unfold leave_shrink. fold last. split.
    + rewrite <- cut_min. unfold cut. simpl. by case_match.
    + intros b. transitivity (timer_of v (set_sourceList
        ((fun s => if last <? portTimer s then set_portTimer last s else s) <$> sourceList c) c) b); [by case_match|].
      apply look_fmap; [..|done].
      * intros s. by case_match.
      * intros s. rewrite <- cut_min. unfold cut. by case_match.
  - intros g Hg. apply (proj2 (Hd k)). unfold rtk_igmp_searchGroupEntry, bucket in *. by rewrite <- Em.
  - intros k' Hk'. by rewrite Hview, Hv, Hk'.
Qed.

(** ** No doubles *)

Lemma keeps_unique_bind {A B} (m : H A) (k : A -> H B) :
  keeps_unique m -> (forall x, keeps_unique (k x)) -> keeps_unique (bind m k).
Proof.
  intros Hm Hk st Hu. specialize (Hm st Hu). unfold bind. destruct (m st) as [[r|x] st1]; [done|]. by apply Hk.
Qed.
Lemma keeps_unique_ret {A} (x : A) : keeps_unique (ret x).
Proof. by intros st. Qed.
Lemma keeps_unique_now : keeps_unique now.
Proof. by intros st. Qed.
Lemma keeps_unique_reflush ga : keeps_unique (reflush ga).
Proof. by intros st. Qed.
Lemma keeps_unique_reserved v ga : keeps_unique (guard_reserved v ga).
Proof. unfold guard_reserved. intros st Hu. by repeat case_match. Qed.
Lemma keeps_unique_limit hdr v ga ca : keeps_unique (guard_limit hdr v ga ca).
Proof. unfold guard_limit. intros st Hu. by repeat case_match. Qed.
Lemma keeps_unique_white hdr v v3 ga ca src : keeps_unique (guard_white hdr v v3 ga ca src).
Proof. unfold guard_white. intros st Hu. by repeat case_match. Qed.

Lemma keeps_id_flagged (f : nat -> clientEntry -> bool * clientEntry * nat) t g :
  (forall fr c, same_client c (snd (fst (f fr c)))) ->
  (forall c, clientAddr (g c) = clientAddr c /\ clientMacAddr (g c) = clientMacAddr c) ->
  keeps_id (fun fr c => match f fr (g c) with
                        | (true, c, fr) => let '(c, fr) := delete_flagged fr c in
                                           (true, set_groupFilterTimer t c, fr)
                        | out => out
                        end).
Proof.
  intros Hf Hg fr c. destruct (Hg c) as [<- <-]. pose proof (same_client_id _ _ (Hf fr (g c))) as Hid.
  destruct (f fr (g c)) as [[[] c1] fr1]; done.
Qed.

Lemma toExclude_same v now a fr c c' fr' b :
  toExclude_source v now a fr c = Some (c', fr', b) -> same_client c c'.
Proof.
  unfold toExclude_source. destruct (exclude_mode now c), (rtk_igmp_searchSourceEntry v a c);
    try (destruct (add_source _ fr c) as [[? ?]|] eqn:E; [apply same_client_add in E|]);
    intros; simplify_eq; done.
Qed.
Lemma block_exclude_same v now fast a fr c c' fr' b :
  block_exclude_source v now fast a fr c = Some (c', fr', b) -> same_client c c'.
Proof.
  unfold block_exclude_source. destruct (rtk_igmp_searchSourceEntry v a c);
    try (destruct (add_source _ fr c) as [[? ?]|] eqn:E; [apply same_client_add in E|]);
    intros; simplify_eq; done.
Qed.
Lemma block_include_same v now fast a fr c c' fr' b :
  block_include_source v now fast a fr c = Some (c', fr', b) -> same_client c c'.
Proof.
  unfold block_include_source. destruct (rtk_igmp_searchSourceEntry v a c); intros; simplify_eq;
    [done|apply same_client_refl].
Qed.

Lemma block_keeps_id v t fast n srcs ver : keeps_id (fun fr c =>
  let c := set_igmpVersion ver c in
  ptr_loop (if exclude_mode t c then block_exclude_source v t fast else block_include_source v t fast) n srcs fr c).
Proof.
  intros fr c. apply (same_client_id (set_igmpVersion ver c)), ptr_loop_same.
  destruct (exclude_mode t _); intros *; [apply block_exclude_same|apply block_include_same].
Qed.

Lemma unique_handle hdr r : keeps_unique (handle hdr r).
Proof.
  destruct r; simpl;
    repeat first [ apply keeps_unique_bind; [|intros ?]
                 | apply keeps_unique_ret | apply keeps_unique_now | apply keeps_unique_reflush
                 | apply keeps_unique_reserved | apply keeps_unique_limit | apply keeps_unique_white
                 | apply unique_find_group
                 | apply unique_find_client | apply unique_on_client ];
    try (intros st Hu; first [by apply unique_leave_client|by apply unique_delete_empty|by apply unique_search_client]).
  all: try apply (block_keeps_id v).
  - by intros fr c.
  - destruct (fastLeave _); [apply keeps_unique_reflush|apply keeps_unique_ret].
  - intros fr c. cbv zeta. destruct (fastLeave _); [apply (rebuild_id _ _ _ _ (stamp hdr (v3_version v) c))|].
    apply (same_client_id (stamp hdr (v3_version v) c)), for_sources_same. intros *. apply put_source_same.
  - apply (keeps_id_flagged _ _ (fun c => flag_all (stamp hdr (v3_version v) c))); [|done].
    intros. apply for_sources_same. intros *. apply isExclude_same.
  - intros fr c. cbv zeta. destruct (fastLeave _); [apply (rebuild_id _ _ _ _ (stamp hdr (v3_version v) c))|].
    apply (toInclude_id v _ _ _ _ _ _ (stamp hdr (v3_version v) c)).
  - apply (keeps_id_flagged _ _ (fun c => stamp hdr (v3_version v) (flag_all c))); [|done].
    intros. apply ptr_loop_same. intros *. apply toExclude_same.
  - intros fr c. apply (same_client_id (stamp hdr (v3_version v) c)), for_sources_same. intros *. apply put_source_same.
Qed.

(** No sequence of reports makes the database record a group twice in a hash
    chain or a client twice in a group. *)
Theorem reports_keep_database_unique rs st : unique st -> unique (handle_all rs st).
Proof.
  revert st. induction rs as [|[hdr r] rs IH]; intros st Hu; [done|]. simpl. by apply IH, unique_handle.
Qed.

(** ** Empty pools *)

Lemma find_no_room {A} hdr v ga ca fresh r (k : unit -> H A) st :
  in_range (moduleIndex hdr) st -> sized st -> room (key_of hdr v ga ca) st = false ->
  exists st', (find_or_create_group hdr v ga r ;;; bind (find_or_create_client hdr v ga ca fresh r) k) st
              = (inl r, st') /\ forall k', view st' k' = view st k'.
Proof.
  intros Hr Hs Hroom. unfold room in Hroom. cbn [k_mod k_ver k_group key_of] in Hroom.
  destruct (decide (is_Some (rtk_igmp_searchGroupEntry (moduleIndex hdr) v ga st) \/ (0 < freeGroups st)%nat)) as [Hg|Hg].
  - destruct (find_group_spec hdr v ga r st Hr Hs Hg) as (st1 & E1 & Henv & Hfc & [g Hsome] & Hv1).
    assert (view st (key_of hdr v ga ca) = None /\ freeClients st = 0%nat) as [Hn Hc].
    { apply andb_false_iff in Hroom as [Hroom|Hroom]; apply orb_false_iff in Hroom as [H1 H2];
        apply bool_decide_eq_false in H1; apply Nat.ltb_ge in H2.
      - destruct Hg; [done|lia].
      - split; [by apply eq_None_not_Some|lia]. }
    exists st1. split; [|done]. unfold bind. rewrite E1. unfold find_or_create_client. rewrite Hsome.
    rewrite <- Hv1 in Hn. unfold view, get_client in Hn. simpl in Hn. rewrite Hsome in Hn. simpl in Hn.
    unfold rtk_igmp_searchClientEntry. rewrite Hn. unfold rtk_igmp_allocateClientEntry. by rewrite Hfc, Hc.
  - exists st. split; [|done]. unfold bind, find_or_create_group.
    destruct (rtk_igmp_searchGroupEntry (moduleIndex hdr) v ga st) eqn:E; [destruct Hg; left; by eexists|].
    unfold rtk_igmp_allocateGroupEntry. destruct (freeGroups st) eqn:En; [done|]. destruct Hg. right. lia.
Qed.

Lemma learn_no_room hdr v v3 ga ca src fresh r ok f m st :
  m = (guard_reserved v ga ;;; guard_limit hdr v ga ca ;;; guard_white hdr v v3 ga ca src ;;;
       find_or_create_group hdr v ga r ;;; find_or_create_client hdr v ga ca fresh r ;;;
       t <-- now ;;; on_client hdr v ga ca (f t) ;;; reflush ga ;;; ret ok) ->
  in_range (moduleIndex hdr) st -> sized st ->
  admitted hdr v v3 ga ca src st = true -> room (key_of hdr v ga ca) st = false ->
  fst (run m st) = r /\ forall k', view (snd (run m st)) k' = view st k'.
Proof.
  intros -> Hr Hs Ha Hroom. unfold run. rewrite (guards_pass hdr v v3 ga ca src _ st Ha).
  match goal with |- context [bind (find_or_create_client hdr v ga ca fresh r) ?k] =>
    destruct (find_no_room hdr v ga ca fresh r k st Hr Hs Hroom) as (st' & -> & Hv) end.
  done.
Qed.

(** The reports that can add a membership. *)
Definition adds (r : report) : bool := match r with Leave _ _ _ | Block _ _ _ => false | _ => true end.
Definition is_join (r : report) : bool := match r with Join _ _ _ _ => true | _ => false end.

(** When the group or client pool is empty an admitted report is not learnt:
    no membership changes, a join is still let through to the stack and an
    IGMPv3/MLDv2 record is dropped. *)
Theorem empty_pool_changes_no_membership hdr r v v3 ga ca src st :
  adds r = true -> report_args r = Some (v, v3, ga, ca, src) ->
  in_range (moduleIndex hdr) st -> sized st ->
  admitted hdr v v3 ga ca src st = true -> room (key_of hdr v ga ca) st = false ->
  fst (run (handle hdr r) st) = (if is_join r then RTK_IGMP_NF_ACCEPT else RTK_IGMP_NF_DROP) /\
  forall k', view (snd (run (handle hdr r) st)) k' = view st k'.
Proof.
  intros Hadd Hargs Hr Hs Ha Hroom. destruct r; simpl in Hadd, Hargs; simplify_eq; simpl;
    by (eapply learn_no_room; [reflexivity|..]).
Qed.

(** ** The source pointer of BLOCK and TO_EX *)

Lemma ptr_loop_stuck f n a rest fr c c' :
  f a fr c = Some (c', fr, false) -> f a fr c' = Some (c', fr, false) ->
  ptr_loop f (S n) (a :: rest) fr c = (true, c', fr).
Proof.
  intros H1 H2. simpl. rewrite H1. induction n as [|n IH]; [done|]. simpl. by rewrite H2.
Qed.

Lemma update_first_twice {A} (p : A -> bool) f (l : list A) :
  (forall x, p x = true -> p (f x) = true /\ f (f x) = f x) ->
  update_first p f (update_first p f l) = update_first p f l.
Proof.
  intros Hf. induction l as [|x l IH]; [done|]. simpl. destruct (p x) eqn:E; simpl.
  - destruct (Hf x E) as [-> ->]. done.
  - by rewrite E, IH.
Qed.

Lemma update_source_twice v a f c :
  (forall s, sourceAddr (f s) = sourceAddr s) -> (forall s, f (f s) = f s) ->
  update_source v a f (update_source v a f c) = update_source v a f c.
Proof.
  intros H1 H2. unfold update_source at 1. simpl. unfold update_source. simpl.
  rewrite update_first_twice; [done|]. intros s Hs. split; [|done]. unfold source_match in *. by rewrite H1.
Qed.

Lemma search_update_source v a f c s :
  (forall s, sourceAddr (f s) = sourceAddr s) -> rtk_igmp_searchSourceEntry v a c = Some s ->
  rtk_igmp_searchSourceEntry v a (update_source v a f c) = Some (f s).
Proof.
  intros Hf Hs. apply find_update_first; [done|]. unfold source_match. rewrite Hf.
  by apply List.find_some in Hs as [_ ?].
Qed.

Lemma block_include_stuck v now fast a n rest fr c :
  is_Some (timer_of v c a) ->
  ptr_loop (block_include_source v now fast) (S n) (a :: rest) fr c =
  (true, update_source v a (fun s => if fast then set_portTimer now s else s) c, fr).
Proof.
  intros [x Hx]. unfold timer_of, look in Hx.
  destruct (rtk_igmp_searchSourceEntry v a c) as [s|] eqn:Es; [|done].
  assert (forall s, sourceAddr (if fast then set_portTimer now s else s) = sourceAddr s) as Ha by by destruct fast.
  apply ptr_loop_stuck; unfold block_include_source; [by rewrite Es|].
  rewrite (search_update_source v a _ c s Ha Es). rewrite update_source_twice; [done|done|]. by destruct fast.
Qed.

Lemma toExclude_stuck v now a n rest fr c :
  exclude_mode now c = false -> is_Some (timer_of v c a) ->
  ptr_loop (toExclude_source v now) (S n) (a :: rest) fr c =
  (true, update_source v a (set_setOpFlag false) c, fr).
Proof.
  intros He [x Hx]. unfold timer_of, look in Hx.
  destruct (rtk_igmp_searchSourceEntry v a c) as [s|] eqn:Es; [|done].
  apply ptr_loop_stuck; unfold toExclude_source; [by rewrite He, Es|].
  unfold exclude_mode in *. simpl. rewrite He, (search_update_source v a _ c s) by done.
  by rewrite update_source_twice.
Qed.

Lemma on_client_ext hdr v ga ca f1 f2 st c :
  get_client (moduleIndex hdr) v ga ca (smac hdr) st = Some c ->
  f1 (freeSources st) c = f2 (freeSources st) c ->
  on_client hdr v ga ca f1 st = on_client hdr v ga ca f2 st.
Proof. intros Hc Hf. unfold on_client. by rewrite Hc, Hf. Qed.

Lemma bind_ext {A B} (m1 m2 : H A) (k1 k2 : A -> H B) st :
  m1 st = m2 st -> (forall x st', m2 st = (inr x, st') -> k1 x st' = k2 x st') -> bind m1 k1 st = bind m2 k2 st.
Proof. intros Hm Hk. unfold bind. rewrite Hm. destruct (m2 st) as [[r|x] st'] eqn:E; [done|]. by apply Hk. Qed.

Lemma guards_ext hdr v v3 ga ca src (m1 m2 : H nf_ret) st :
  m1 st = m2 st ->
  run (guard_reserved v ga ;;; guard_limit hdr v ga ca ;;; guard_white hdr v v3 ga ca src ;;; m1) st =
  run (guard_reserved v ga ;;; guard_limit hdr v ga ca ;;; guard_white hdr v v3 ga ca src ;;; m2) st.
Proof.
  intros Hm. destruct (admitted hdr v v3 ga ca src st) eqn:E.
  - unfold run. by rewrite !(guards_pass hdr v v3 ga ca src _ st E), Hm.
  - by rewrite !guards_stop.
Qed.

(** BLOCK_OLD_SOURCES acts on its first source only: for a client in include
    mode whose table knows the first listed source, a record with any further
    sources has the effect of the record with that source alone.  The loop
    continues without moving [p_NsourceAddr], so sources the host asked to block
    after the first keep their timers. *)
Theorem block_stops_at_first_source hdr v ca ga a rest c st :
  in_range (moduleIndex hdr) st -> sized st ->
  view st (key_of hdr v ga ca) = Some c -> exclude_mode (rtk_igmp_sysUpSeconds st) c = false ->
  is_Some (timer_of v c a) ->
  run (rtk_igmp_processBlock hdr v ca (GroupRecord ga (a :: rest))) st =
  run (rtk_igmp_processBlock hdr v ca (GroupRecord ga [a])) st.
Proof.
  intros Hr Hs Hv He Ht. apply guards_ext. apply bind_ext; [done|]. intros [] st1 E1.
  unfold modify in E1. injection E1 as <-. apply bind_ext; [done|]. intros t st1 E1.
  unfold now in E1. injection E1 as <- <-. apply bind_ext; [|done].
  eapply (on_client_ext _ _ _ _ _ _ _ (refresh_port (devIfindex hdr) hdr c)).
  - change (view (alter_group (moduleIndex hdr) v ga (fun g => snd (rtk_igmp_searchClientEntry v g (devIfindex hdr) ca hdr)) st)
      (key_of hdr v ga ca) = Some (refresh_port (devIfindex hdr) hdr c)).
    by rewrite view_search_client, same_key_refl, Hv.
  - cbv zeta. unfold exclude_mode in *. cbn [groupFilterTimer set_igmpVersion refresh_port set_port recSources length].
    change (rtk_igmp_sysUpSeconds (alter_group _ _ _ _ st)) with (rtk_igmp_sysUpSeconds st).
    rewrite He. by rewrite !block_include_stuck.
Qed.

(** CHANGE_TO_EXCLUDE has the same defect, with a worse outcome: the sources
    that the loop does not reach stay flagged and are deleted.  For a client in
    include mode that knows the first listed source, the record has the effect of
    one that lists only that source. *)
Theorem toExclude_stops_at_first_source hdr v ca ga a rest c st :
  in_range (moduleIndex hdr) st -> sized st ->
  view st (key_of hdr v ga ca) = Some c -> exclude_mode (rtk_igmp_sysUpSeconds st) c = false ->
  is_Some (timer_of v c a) ->
  run (rtk_igmp_processToExclude hdr v ca (GroupRecord ga (a :: rest))) st =
  run (rtk_igmp_processToExclude hdr v ca (GroupRecord ga [a])) st.
Proof.
  intros Hr Hs Hv He Ht. apply guards_ext.
  assert (is_Some (rtk_igmp_searchGroupEntry (moduleIndex hdr) v ga st)) as Hg.
  { unfold view, get_client in Hv. simpl in Hv. by destruct (rtk_igmp_searchGroupEntry _ _ _ _). }
  apply bind_ext; [done|]. intros [] st1 E1. cbn [recGroup recSources] in *.
  assert (st1 = st) as ->.
  { unfold find_or_create_group in E1. destruct Hg as [g Hg]. rewrite Hg in E1. by simplify_eq. }
  apply bind_ext; [done|]. intros [] st1 E2.
  destruct (find_client_spec hdr v ga ca (fun _ => 0) RTK_IGMP_NF_DROP st Hr Hs Hg) as (st2 & E3 & Henv & Hv2);
    [left; by eexists|done|]. rewrite E3 in E2. simplify_eq.
  apply bind_ext; [done|]. intros t st2 E1'. unfold now in E1'. injection E1' as <- <-.
  rewrite (env_now _ _ Henv). apply bind_ext; [|done].
  eapply (on_client_ext _ _ _ _ _ _ _ (refresh_port (devIfindex hdr) hdr c)).
  - transitivity (view st1 (key_of hdr v ga ca)); [done|]. rewrite Hv2, same_key_refl. unfold client0. by rewrite Hv.
  - cbv zeta. cbn [recSources length].
    assert (is_Some (timer_of v (flag_all c) a)) as Ht'.
    { unfold timer_of, flag_all in *. rewrite (look_fmap v portTimer _ id); try done.
      destruct Ht as [x ->]. by eexists. }
    by rewrite !toExclude_stuck.
Qed.
End Handlers.

(** ** Concrete runs *)

#[local] Existing Instance demo_config.
#[local] Existing Instance demo_policy.

(** A policy whose white list lets nothing through. *)
Definition closed_policy : AdmissionPolicy := {|
  gorup2PsList := [];
  rtk_igmp_group_limitCheck := fun _ _ _ _ _ => RTK_IGMP_NF_CONTINUE;
  rtk_igmp_filterWhiteListCheck := fun _ _ _ _ _ _ => false
|}.

Definition demo0 : igmp := init_igmp 1 4 4 4 0.
Definition src1 : addr := ip4 0x0A000001.
Definition src2 : addr := ip4 0x0A000002.
Definition demo_rec : groupRecord := GroupRecord demo_group [src1; src2].
(** A client in include mode with two live sources. *)
Definition demo2 (fast : bool) : igmp := demo_run fast [Allow IP_VERSION4 demo_client demo_rec].
(** A client in exclude mode. *)
Definition demo1 (fast : bool) : igmp := demo_run fast [Join IP_VERSION4 0x16 demo_client demo_group].

Lemma demo_sized st : (0 < length (modules st))%nat ->
  forallb (fun m => (length (rtk_igmp_ipv4HashTable m) =? 4)%nat && (length (rtk_igmp_ipv6HashTable m) =? 4)%nat) (modules st) = true ->
  in_range 0 st /\ sized st.
Proof.
  intros Hl Hf. split; [exact Hl|]. apply List.Forall_forall. rewrite List.forallb_forall in Hf.
  intros m Hm v. specialize (Hf m Hm). apply andb_true_iff in Hf as [H1 H2].
  destruct v; [by apply Nat.eqb_eq in H1|by apply Nat.eqb_eq in H2].
Qed.

Lemma demo_inv rs : inv 4 4 4 (demo_run true rs) /\ unique (demo_run true rs).
Proof.
  unfold demo_run.
  assert (forall st, good 4 4 4 1 0 st /\ unique st ->
    good 4 4 4 1 0 (handle_all ((fun r => (demo_hdr true, r)) <$> rs) st) /\
    unique (handle_all ((fun r => (demo_hdr true, r)) <$> rs) st)) as Hrun.
  { induction rs as [|r rs IH]; intros st [Hg Hu]; [done|]. apply IH. split.
    - by apply preserves_handle.
    - by apply unique_handle. }
  destruct (Hrun demo0) as [Hg Hu]; [|split; [apply Hg|done]]. split.
  - split; [apply inv_init|]. split; [unfold in_range; simpl; lia|done].
  - intros [|[|mi]] [] [|[|[|[|h]]]]; vm_compute; repeat constructor.
Qed.

Lemma handlers_preserve_database_witness :
  inv 4 4 4 (handle_all [(demo_hdr false, Join IP_VERSION4 0x16 demo_client demo_group);
                         (demo_hdr false, Block IP_VERSION4 demo_client demo_rec)] (init_igmp 1 4 4 4 0)) /\
  freeClients (handle_all [(demo_hdr false, Join IP_VERSION4 0x16 demo_client demo_group)] (init_igmp 1 4 4 4 0)) = 3%nat.
Proof.
  split; [apply handlers_preserve_database; repeat constructor|by_compute].
Defined.

Lemma refused_report_changes_nothing_witness :
  run (handle (policy := closed_policy) (demo_hdr false) (Join IP_VERSION4 0x16 demo_client demo_group)) demo0
  = (RTK_IGMP_NF_DROP, demo0).
Proof.
  exact (refused_report_changes_nothing (policy := closed_policy) (demo_hdr false)
    (Join IP_VERSION4 0x16 demo_client demo_group) IP_VERSION4 false demo_group demo_client None demo0 ltac:(by_compute) ltac:(by_compute)).
Defined.

Lemma join_makes_member_witness :
  exists c, view (snd (run (rtk_igmp_processJoin (demo_hdr false) IP_VERSION4 0x16 demo_client demo_group) demo0)) demo_key
            = Some c /\ groupFilterTimer c = 260.
Proof.
  destruct (demo_sized demo0) as [Hr Hs]; [by_compute|by_compute|].
  pose proof (join_makes_member (demo_hdr false) IP_VERSION4 0x16 demo_client demo_group demo0 Hr Hs) as Hx. cbv zeta in Hx.
  destruct Hx as (_ & (c & Hc & _ & _ & _ & Ht) & _); [by_compute..|].
  exists c. split; [exact Hc|by rewrite Ht].
Defined.

Lemma allow_sets_listed_timers_witness :
  exists c, view (snd (run (rtk_igmp_processAllow (demo_hdr false) IP_VERSION4 demo_client demo_rec) (demo1 false))) demo_key
            = Some c /\ timer_of IP_VERSION4 c src2 = Some 260.
Proof.
  destruct (demo_sized (demo1 false)) as [Hr Hs]; [by_compute|by_compute|].
  pose proof (allow_sets_listed_timers (demo_hdr false) IP_VERSION4 demo_client demo_rec (demo1 false) Hr Hs) as Hx. cbv zeta in Hx.
  destruct Hx as (_ & (c & Hc & _ & Ht) & _); [by_compute..|].
  exists c. split; [exact Hc|by rewrite Ht; by_compute].
Defined.

Lemma isInclude_sets_listed_timers_witness :
  exists c, view (snd (run (rtk_igmp_processIsInclude (demo_hdr true) IP_VERSION4 demo_client
                              (GroupRecord demo_group [src1])) (demo2 true))) demo_key
            = Some c /\ timer_of IP_VERSION4 c src1 = Some 260 /\ timer_of IP_VERSION4 c src2 = None.
Proof.
  destruct (demo_sized (demo2 true)) as [Hr Hs]; [by_compute|by_compute|].
  pose proof (isInclude_sets_listed_timers (demo_hdr true) IP_VERSION4 demo_client (GroupRecord demo_group [src1])
    (demo2 true) Hr Hs) as Hx. cbv zeta in Hx.
  destruct Hx as (_ & (c & Hc & _ & Ht) & _); [by_compute..|].
  exists c. split_and!; [exact Hc|by rewrite Ht; by_compute|by rewrite Ht; by_compute].
Defined.

Lemma isExclude_replaces_sources_witness :
  exists c, view (snd (run (rtk_igmp_processIsExclude (demo_hdr false) IP_VERSION4 demo_client
                              (GroupRecord demo_group [src1])) (demo2 false))) demo_key
            = Some c /\ groupFilterTimer c = 260 /\ timer_of IP_VERSION4 c src1 = Some 260 /\
              timer_of IP_VERSION4 c src2 = None.
Proof.
  destruct (demo_sized (demo2 false)) as [Hr Hs]; [by_compute|by_compute|].
  pose proof (isExclude_replaces_sources (demo_hdr false) IP_VERSION4 demo_client (GroupRecord demo_group [src1])
    (demo2 false) Hr Hs) as Hx. cbv zeta in Hx.
  destruct Hx as (_ & (c & Hc & Hg & Ht) & _); [by_compute..|].
  exists c. split_and!; [exact Hc|by rewrite Hg|by rewrite Ht; by_compute|by rewrite Ht; by_compute].
Defined.

Lemma toInclude_cuts_unlisted_witness :
  exists c, view (snd (run (rtk_igmp_processToInclude (demo_hdr false) IP_VERSION4 demo_client
                              (GroupRecord demo_group [src1])) (demo2 false))) demo_key
            = Some c /\ timer_of IP_VERSION4 c src1 = Some 260 /\ timer_of IP_VERSION4 c src2 = Some 2.
Proof.
  destruct (demo_sized (demo2 false)) as [Hr Hs]; [by_compute|by_compute|].
  pose proof (toInclude_cuts_unlisted (demo_hdr false) IP_VERSION4 demo_client (GroupRecord demo_group [src1])
    (demo2 false) Hr Hs) as Hx. cbv zeta in Hx.
  destruct Hx as (_ & (c & Hc & _ & Ht) & _); [by_compute..|].
  exists c. split_and!; [exact Hc|by rewrite Ht; by_compute|by rewrite Ht; by_compute].
Defined.

Lemma leave_ends_membership_witness :
  is_Some (view (demo1 true) demo_key) /\
  view (snd (run (rtk_igmp_processLeave (demo_hdr true) IP_VERSION4 demo_client demo_group) (demo1 true))) demo_key = None.
Proof.
  split; [by_compute|].
  destruct (demo_inv [Join IP_VERSION4 0x16 demo_client demo_group]) as [Hi Hu].
  pose proof (leave_ends_membership 4 4 4 (demo_hdr true) IP_VERSION4 demo_client demo_group (demo1 true) Hi Hu) as Hx. cbv zeta in Hx.
  destruct Hx as (_ & Hn & _); [by_compute..|]. exact Hn.
Defined.

Lemma reports_keep_database_unique_witness :
  unique (handle_all [(demo_hdr false, Join IP_VERSION4 0x16 demo_client demo_group);
                      (demo_hdr true, Join IP_VERSION4 0x16 demo_client demo_group)] demo0).
Proof.
  apply reports_keep_database_unique. exact (proj2 (demo_inv [])).
Defined.

Lemma empty_pool_changes_no_membership_witness :
  fst (run (handle (demo_hdr false) (Allow IP_VERSION4 demo_client demo_rec)) (init_igmp 1 4 0 4 0)) = RTK_IGMP_NF_DROP.
Proof.
  destruct (demo_sized (init_igmp 1 4 0 4 0)) as [Hr Hs]; [by_compute|by_compute|].
  destruct (empty_pool_changes_no_membership (demo_hdr false) (Allow IP_VERSION4 demo_client demo_rec)
    IP_VERSION4 true demo_group demo_client None (init_igmp 1 4 0 4 0) ltac:(by_compute) ltac:(by_compute) Hr Hs ltac:(by_compute) ltac:(by_compute))
    as [Hv _]. exact Hv.
Defined.

(** What the two defect theorems need, evaluated. *)
Lemma demo2_client : exists c, view (demo2 true) demo_key = Some c /\
  exclude_mode (rtk_igmp_sysUpSeconds (demo2 true)) c = false /\ is_Some (timer_of IP_VERSION4 c src1).
Proof.
  assert (match view (demo2 true) demo_key with
          | Some c => negb (exclude_mode (rtk_igmp_sysUpSeconds (demo2 true)) c) && bool_decide (is_Some (timer_of IP_VERSION4 c src1))
          | None => false
          end = true) as Hb by by_compute.
  destruct (view (demo2 true) demo_key) as [c|]; [|done]. exists c.
  apply andb_true_iff in Hb as [H1%negb_true_iff H2%bool_decide_eq_true]. done.
Qed.

(** With both sources blocked only the first loses its timer. *)
Lemma block_stops_at_first_source_witness :
  let out := run (rtk_igmp_processBlock (demo_hdr true) IP_VERSION4 demo_client demo_rec) (demo2 true) in
  out = run (rtk_igmp_processBlock (demo_hdr true) IP_VERSION4 demo_client (GroupRecord demo_group [src1])) (demo2 true) /\
  (view (snd out) demo_key ≫= fun c => timer_of IP_VERSION4 c src1) = Some 0 /\
  (view (snd out) demo_key ≫= fun c => timer_of IP_VERSION4 c src2) = Some 260.
Proof.
  split; [|split; by_compute].
  destruct (demo_sized (demo2 true)) as [Hr Hs]; [by_compute|by_compute|].
  destruct demo2_client as (c & Hc & He & Ht).
  exact (block_stops_at_first_source (demo_hdr true) IP_VERSION4 demo_client demo_group src1 [src2] c _ Hr Hs Hc He Ht).
Defined.

(** TO_EX of both known sources leaves only the first in the list. *)
Lemma toExclude_stops_at_first_source_witness :
  let out := run (rtk_igmp_processToExclude (demo_hdr true) IP_VERSION4 demo_client demo_rec) (demo2 true) in
  out = run (rtk_igmp_processToExclude (demo_hdr true) IP_VERSION4 demo_client (GroupRecord demo_group [src1])) (demo2 true) /\
  (view (snd out) demo_key ≫= fun c => timer_of IP_VERSION4 c src1) = Some 260 /\
  (view (snd out) demo_key ≫= fun c => timer_of IP_VERSION4 c src2) = None.
Proof.
  split; [|split; by_compute].
  destruct (demo_sized (demo2 true)) as [Hr Hs]; [by_compute|by_compute|].
  destruct demo2_client as (c & Hc & He & Ht).
  exact (toExclude_stops_at_first_source (demo_hdr true) IP_VERSION4 demo_client demo_group src1 [src2] c _ Hr Hs Hc He Ht).
Defined.
