(* ===== verification/IgmpPolicy.v ===== *)
(** * IgmpPolicy: the admission checks of the snooper

    The implementation of the interface [AdmissionPolicy]: the white list (a
    table of rules shared by all devices, and per device an ordered list of the
    rules it uses) and the group and client limits.  The white-list check walks
    both lists with one cursor that is never rewound; it is proved to decide
    membership as a search for each rule would, for every configuration the
    add and delete calls can build. *)
From S2P Require Import Prelude IgmpTable IgmpReport IgmpInvariant IgmpView IgmpUnique IgmpSemantics.
From Stdlib Require Import Sorted.

(** ** White list *)

(** [rt_igmpHook_whiteList_t] *)
Record whitePattern := WhitePattern {
  wlIsIpv6 : bool;
  smacChk : bool; wlSmac : list Z; smacMask : list Z;
  gipChk : bool; wlGroupIpStart : addr; wlGroupIpEnd : addr;
  sipChk : bool; wlSipStart : addr; wlSipEnd : addr;
  mcSipChk : bool; wlMcSip : addr; wlMcSipEnd : addr;
  mcSipChkIgnoreNonIGMPv3MLDv2 : bool
}.
#[export] Instance whitePattern_eq_dec : EqDecision whitePattern.
Proof. solve_decision. Defined.

(** [rtk_igmp_whiteListEntry_t] *)
Record whiteListEntry := WhiteListEntry { whiteListIdx : Z; whiteRefCnt : Z; patten : whitePattern }.

(** The rule table, the next index, and the rules of one device (IPv4 and IPv6),
    by index. *)
Record whiteState := WhiteState {
  whiteListHead : list whiteListEntry;
  whiteLisIcrIdx : Z;
  white4 : list Z;
  white6 : list Z
}.

(** The outcome of an add: an index, a refusal, or a write through the NULL that
    the allocation returned. *)
Inductive wl_result := WlOk (index : Z) | WlFail | WlNullDeref.

Definition bad_ranges (p : whitePattern) : bool :=
  negb (wlIsIpv6 p) &&
  (((0 <? word0 (wlSipEnd p)) && (word0 (wlSipEnd p) <? word0 (wlSipStart p))) ||
   ((0 <? word0 (wlGroupIpEnd p)) && (word0 (wlGroupIpEnd p) <? word0 (wlGroupIpStart p))) ||
   ((0 <? word0 (wlMcSipEnd p)) && (word0 (wlMcSipEnd p) <? word0 (wlMcSip p)))).

(** The place in the device's list: after the smaller indices. *)
Fixpoint insert_idx (i : Z) (l : list Z) : list Z :=
  match l with
  | [] => [i]
  | j :: l' => if i <? j then i :: l else j :: insert_idx i l'
  end.

Definition dev_list (v6 : bool) (w : whiteState) : list Z := if v6 then white6 w else white4 w.
Definition set_dev_list (v6 : bool) (l : list Z) (w : whiteState) : whiteState :=
  if v6 then WhiteState (whiteListHead w) (whiteLisIcrIdx w) (white4 w) l
  else WhiteState (whiteListHead w) (whiteLisIcrIdx w) l (white6 w).
Definition set_whiteListHead (l : list whiteListEntry) (w : whiteState) : whiteState :=
  WhiteState l (whiteLisIcrIdx w) (white4 w) (white6 w).

Definition idx_is (i : Z) (e : whiteListEntry) : bool := whiteListIdx e =? i.
Definition set_whiteRefCnt (n : Z) (e : whiteListEntry) : whiteListEntry :=
  WhiteListEntry (whiteListIdx e) n (patten e).

(** [rtk_igmp_whiteEntry_malloc]: a zeroed rule with the next index at the end of
    the table. *)
Definition rtk_igmp_whiteEntry_malloc (ok : bool) (w : whiteState) : option Z * whiteState :=
  if ok
  then (Some (whiteLisIcrIdx w),
        WhiteState (whiteListHead w ++ [WhiteListEntry (whiteLisIcrIdx w) 0
                     (WhitePattern false false [] [] false addr0 addr0 false addr0 addr0 false addr0 addr0 false)])
                   (whiteLisIcrIdx w + 1) (white4 w) (white6 w))
  else (None, w).

(** [rtk_igmp_whiteEntry_free] *)
Definition rtk_igmp_whiteEntry_free (i : Z) (w : whiteState) : whiteState :=
  set_whiteListHead (remove_first (idx_is i) (whiteListHead w)) w.

(** [rtk_igmp_whiteEntry_del]: drop a reference, free at zero. *)
Definition rtk_igmp_whiteEntry_del (i : Z) (w : whiteState) : whiteState :=
  match List.find (idx_is i) (whiteListHead w) with
  | None => w
  | Some e =>
      if whiteRefCnt e - 1 =? 0 then rtk_igmp_whiteEntry_free i w
      else set_whiteListHead (update_first (idx_is i) (fun e => set_whiteRefCnt (whiteRefCnt e - 1) e)
                                           (whiteListHead w)) w
  end.

(** The tail of [rtk_igmp_whiteListAdd]: put rule [i] in the device's list. *)
Definition add_to_device (v6 : bool) (i : Z) (ok : bool) (w : whiteState) : wl_result * whiteState :=
  if existsb (Z.eqb i) (dev_list v6 w) then (WlOk i, w)
  else if ok
  then (WlOk i, set_whiteListHead (update_first (idx_is i) (fun e => set_whiteRefCnt (whiteRefCnt e + 1) e)
                                                (whiteListHead w))
                  (set_dev_list v6 (insert_idx i (dev_list v6 w)) w))
  else (WlFail, w).

(** [rtk_igmp_whiteListAdd]; [okRule] and [okIdx] say whether the two allocations
    succeed.  The pattern of a new rule is copied before the NULL test. *)
Definition rtk_igmp_whiteListAdd (p : whitePattern) (okRule okIdx : bool) (w : whiteState)
    : wl_result * whiteState :=
  if bad_ranges p then (WlFail, w)
  else match List.find (fun e => bool_decide (patten e = p)) (whiteListHead w) with
       | Some e => add_to_device (wlIsIpv6 p) (whiteListIdx e) okIdx w
       | None =>
           match rtk_igmp_whiteEntry_malloc okRule w with
           | (None, w') => (WlNullDeref, w')
           | (Some i, w') =>
               let w' := set_whiteListHead
                           (update_first (idx_is i) (fun e => WhiteListEntry (whiteListIdx e) (whiteRefCnt e) p)
                                         (whiteListHead w')) w' in
               if okIdx then add_to_device (wlIsIpv6 p) i true w'
               else (WlFail, rtk_igmp_whiteEntry_free i w')
           end
       end.

(** [rtk_igmp_whiteListDel_byIdx]: out of the device's IPv4 list, or else of its
    IPv6 list, and one reference less. *)
Definition rtk_igmp_whiteListDel_byIdx (i : Z) (w : whiteState) : bool * whiteState :=
  if existsb (Z.eqb i) (white4 w)
  then (true, rtk_igmp_whiteEntry_del i (set_dev_list false (remove_first (Z.eqb i) (white4 w)) w))
  else if existsb (Z.eqb i) (white6 w)
  then (true, rtk_igmp_whiteEntry_del i (set_dev_list true (remove_first (Z.eqb i) (white6 w)) w))
  else (false, w).

(** Address ranges as the check reads them. *)
Definition in_addr_range (v : ip_version) (lo hi a : addr) : bool :=
  match v with
  | IP_VERSION4 => (word0 lo <=? word0 a) && (word0 a <=? word0 hi)
  | IP_VERSION6 => negb (iprange_ipv6_lt a lo || iprange_ipv6_lt hi a)
  end.

(** MAC comparison under the mask; an all-zero MAC counts as unknown. *)
Definition mac_hit (p : whitePattern) (mac : list Z) : bool :=
  negb (forallb (Z.eqb 0) mac) &&
  forallb (fun '(m, (k, a)) => Z.land m k =? Z.land a k) (zip (wlSmac p) (zip (smacMask p) mac)).

(** A rule hits when every field it checks does; a field it checks that the report
    does not have makes it miss. *)
Definition rule_hit (v : ip_version) (v3 : bool) (ga ca : addr) (src : option addr) (mac : list Z)
    (p : whitePattern) : bool :=
  (negb (smacChk p) || mac_hit p mac) &&
  (negb (sipChk p) || in_addr_range v (wlSipStart p) (wlSipEnd p) ca) &&
  (negb (mcSipChk p) || (mcSipChkIgnoreNonIGMPv3MLDv2 p && negb v3) ||
     match src with Some a => in_addr_range v (wlMcSip p) (wlMcSipEnd p) a | None => false end) &&
  (negb (gipChk p) || in_addr_range v (wlGroupIpStart p) (wlGroupIpEnd p) ga).

(** [list_for_each_entry_continue] up to the rule with index [i]: the rule and
    what is behind it, or [None] when the cursor reaches the head. *)
Fixpoint advance_to (i : Z) (cur : list whiteListEntry) : option (whiteListEntry * list whiteListEntry) :=
  match cur with
  | [] => None
  | e :: rest => if whiteListIdx e =? i then Some (e, rest) else advance_to i rest
  end.

(** The two nested loops: [cur] is what is behind the cursor; a cursor that came
    to the head of the list starts over. *)
Fixpoint white_loop (hit : whitePattern -> bool) (dev : list Z) (cur all : list whiteListEntry)
    (whiteListEnable : bool) : bool :=
  match dev with
  | [] => negb whiteListEnable
  | i :: dev' => match advance_to i cur with
                 | None => white_loop hit dev' all all whiteListEnable
                 | Some (e, rest) => if hit (patten e) then true else white_loop hit dev' rest all true
                 end
  end.

Definition white_check (w : whiteState) (v : ip_version) (v3 : bool) (ga ca : addr) (src : option addr)
    (mac : list Z) : bool :=
  white_loop (rule_hit v v3 ga ca src mac) (dev_list (is_ipv6 v) w) (whiteListHead w) (whiteListHead w) false.

(** What the check is for: a device whose rules are all gone admits everything;
    otherwise some rule of the device must hit. *)
Definition device_rules (v : ip_version) (w : whiteState) : list whiteListEntry :=
  omap (fun i => List.find (idx_is i) (whiteListHead w)) (dev_list (is_ipv6 v) w).
Definition white_spec (w : whiteState) (v : ip_version) (v3 : bool) (ga ca : addr) (src : option addr)
    (mac : list Z) : bool :=
  match device_rules v w with
  | [] => true
  | rules => existsb (fun e => rule_hit v v3 ga ca src mac (patten e)) rules
  end.

(** Configurations built by adds and deletes from the empty one. *)
Definition white_init : whiteState := WhiteState [] 0 [] [].
Inductive white_reachable : whiteState -> Prop :=
| wr_init : white_reachable white_init
| wr_add p a b w : white_reachable w -> white_reachable (snd (rtk_igmp_whiteListAdd p a b w))
| wr_del i w : white_reachable w -> white_reachable (snd (rtk_igmp_whiteListDel_byIdx i w)).

(** Both kinds of list are in the order of the indices, which are all below the
    next one. *)
Definition ordered (w : whiteState) : Prop :=
  StronglySorted Z.lt (whiteListIdx <$> whiteListHead w) /\
  (forall v6, StronglySorted Z.lt (dev_list v6 w)) /\
  Forall (fun e => whiteListIdx e < whiteLisIcrIdx w) (whiteListHead w).

(** ** Group and client limits *)

(** The limits of a bridge ([rtk_igmp_brConfdb_t]) and of a device; 0 is no limit. *)
Record brLimits := BrLimits {
  sysIp4MaxGroupSize : Z; sysIp6MaxGroupSize : Z; sysMaxGroupSize : Z;
  perIp4ClientMaxJoinGroupSize : Z; perIp6ClientMaxJoinGroupSize : Z;
  sysIp4MaxClientSize : Z; sysIp6MaxClientSize : Z; sysMaxClientSize : Z
}.
Record devLimits := DevLimits { igmpMaxGroupSize : Z; igmp6MaxGroupSize : Z }.

(** The groups of a module in table order, and its clients with their groups. *)
Definition groups_of (mi : nat) (v : ip_version) (st : igmp) : list groupEntry :=
  match modules st !! mi with Some m => concat (table_of v m) | None => [] end.
Definition members_of (mi : nat) (v : ip_version) (st : igmp) : list (groupEntry * clientEntry) :=
  g ← groups_of mi v st; (fun c => (g, c)) <$> clientList g.

(** The comparisons of the C code: for IPv4 equality, for IPv6 the value of
    [memcmp], which is true of addresses that differ. *)
Definition cnt_match (v : ip_version) (a b : addr) : bool :=
  match v with IP_VERSION4 => word0 a =? word0 b | IP_VERSION6 => negb (addr_match IP_VERSION6 a b) end.

Definition rtk_igmp_client_cnt (v : ip_version) (ga ca : addr) (members : list (groupEntry * clientEntry)) : bool :=
  match List.find (fun '(g, c) => cnt_match v ca (clientAddr c)) members with
  | Some (g, _) => cnt_match v ga (groupAddr g)
  | None => false
  end.

Definition zcount {A} (p : A -> bool) (l : list A) : Z := Z.of_nat (length (List.filter p l)).

Definition totalClientCnt (v : ip_version) (members : list (groupEntry * clientEntry)) : Z :=
  zcount (fun '(g, c) => rtk_igmp_client_cnt v (groupAddr g) (clientAddr c) members) members.

Definition over (limit cnt : Z) : bool := negb (limit =? 0) && (limit <=? cnt).

(** [rtk_igmp_group_limitCheck]; every caller passes RTK_IGMP_NF_DROP as the action.
    [weightOver] is the verdict of [rtk_igmp_weightOverCheck]. *)
Definition limitCheck {cfg : IgmpConfig} (br : brLimits) (dev : devLimits) (weightOver : bool)
    (st : igmp) (hdr : pktHdr) (v : ip_version) (ga ca : addr) : nf_ret :=
  let mi := moduleIndex hdr in
  let m4 := members_of mi IP_VERSION4 st in
  let m6 := members_of mi IP_VERSION6 st in
  let igmpTotalGroupCnt := Z.of_nat (length (groups_of mi IP_VERSION4 st)) in
  let mldTotalGroupCnt := Z.of_nat (length (groups_of mi IP_VERSION6 st)) in
  let igmpTotalClientCnt := totalClientCnt IP_VERSION4 m4 in
  let mldTotalClientCnt := totalClientCnt IP_VERSION6 m6 in
  let specificClientJoinIGMPCnt :=
    if is_ipv6 v then 0 else zcount (fun '(_, c) => word0 ca =? word0 (clientAddr c)) m4 in
  let specificClientJoinMLDCnt :=
    if is_ipv6 v then zcount (fun '(_, c) => addr_match IP_VERSION6 ca (clientAddr c)) m6 else 0 in
  let on_dev := fun '((_, c) : groupEntry * clientEntry) => inIfidx c =? devIfindex hdr in
  let igmpDevGroupCnt := zcount on_dev m4 in
  let mldDevGroupCnt := zcount on_dev m6 in
  let groupAndDevHit :=
    if is_ipv6 v
    then existsb (fun '(g, c) => addr_match IP_VERSION6 ga (groupAddr g) && (inIfidx c =? devIfindex hdr)) m6
    else existsb (fun '(g, c) => (word0 ga =? word0 (groupAddr g)) && (inIfidx c =? devIfindex hdr)) m4 in
  let dev_over := if is_ipv6 v then over (igmp6MaxGroupSize dev) mldDevGroupCnt
                  else over (igmpMaxGroupSize dev) igmpDevGroupCnt in
  let group := rtk_igmp_searchGroupEntry mi v ga st in
  let clientInGroup :=
    match group with
    | Some g => existsb (fun c => cnt_match (groupIpVersion g) ca (clientAddr c)) (clientList g)
    | None => false
    end in
  let allClients := igmpTotalClientCnt + mldTotalClientCnt in
  let group_over :=
    match group with
    | None => over (sysIp4MaxGroupSize br) igmpTotalGroupCnt || over (sysIp6MaxGroupSize br) mldTotalGroupCnt ||
              over (sysMaxGroupSize br) (igmpTotalGroupCnt + mldTotalGroupCnt) || weightOver || dev_over
    | Some _ => negb groupAndDevHit && dev_over
    end in
  let igmp_over :=
    if nonzero specificClientJoinIGMPCnt
    then negb clientInGroup && over (perIp4ClientMaxJoinGroupSize br) specificClientJoinIGMPCnt
    else over (sysIp4MaxClientSize br) igmpTotalClientCnt || over (sysMaxClientSize br) allClients in
  let mld_over :=
    if nonzero specificClientJoinMLDCnt
    then negb clientInGroup && over (perIp6ClientMaxJoinGroupSize br) specificClientJoinMLDCnt
    else over (sysIp6MaxClientSize br) mldTotalClientCnt || over (sysMaxClientSize br) allClients in
  if group_over || igmp_over || mld_over then RTK_IGMP_NF_DROP else RTK_IGMP_NF_CONTINUE.

(** The policy of the module: reserved groups, the limits of each bridge and
    device, the white list of each device; the weight verdict is a parameter. *)
Definition rtk_policy {cfg : IgmpConfig} (resv : list resvGroup) (br : nat -> brLimits) (dev : Z -> devLimits)
    (white : Z -> whiteState) (weightOver : igmp -> pktHdr -> ip_version -> addr -> bool) : AdmissionPolicy := {|
  gorup2PsList := resv;
  rtk_igmp_group_limitCheck := fun st hdr v ga ca =>
    limitCheck (br (moduleIndex hdr)) (dev (devIfindex hdr)) (weightOver st hdr v ga) st hdr v ga ca;
  rtk_igmp_filterWhiteListCheck := fun hdr v v3 ga ca src =>
    white_check (white (devIfindex hdr)) v v3 ga ca src (smac hdr)
|}.

(** ** The white list is ordered *)

Lemma idxs_update_first q f l :
  (forall e, whiteListIdx (f e) = whiteListIdx e) ->
  whiteListIdx <$> update_first q f l = whiteListIdx <$> l.
Proof.
  intros Hf. induction l as [|e l IH]; [done|]. simpl. destruct (q e); simpl; [by rewrite Hf|].
  by f_equal.
Qed.

Lemma sorted_remove_first {A} (f : A -> Z) q (l : list A) :
  StronglySorted Z.lt (f <$> l) -> StronglySorted Z.lt (f <$> remove_first q l).
Proof.
  induction l as [|x l IH]; simpl; [done|]. intros Hs. apply StronglySorted_inv in Hs as [Hs Hx].
  destruct (q x); [done|]. simpl. constructor; [auto|]. rewrite Forall_fmap in *. by apply Forall_remove_first.
Qed.

Lemma insert_idx_elem i l x : x ∈ insert_idx i l <-> x = i \/ x ∈ l.
Proof.
  induction l as [|j l IH]; simpl; [set_solver|]. destruct (i <? j); set_solver.
Qed.

Lemma insert_idx_sorted i l : i ∉ l -> StronglySorted Z.lt l -> StronglySorted Z.lt (insert_idx i l).
Proof.
  induction l as [|j l IH]; simpl; intros Hi Hs; [repeat constructor|].
  pose proof Hs as Hs0. apply StronglySorted_inv in Hs as [Hs Hj]. destruct (i <? j) eqn:E; bool_to_prop.
  - constructor; [done|]. constructor; [done|]. eapply Forall_impl; [done|]. simpl. lia.
  - constructor; [apply IH; set_solver|]. rewrite Forall_forall in *. intros x [->|Hx]%insert_idx_elem; [|auto].
    assert (i <> j) by set_solver. lia.
Qed.

Lemma existsb_not_elem i l : existsb (Z.eqb i) l = false -> i ∉ l.
Proof.
  intros He Hi. assert (existsb (Z.eqb i) l = true); [|congruence].
  apply existsb_exists. exists i. split; [by apply list_elem_of_In|apply Z.eqb_refl].
Qed.

Lemma ordered_head l w :
  ordered w -> whiteListIdx <$> l = whiteListIdx <$> whiteListHead w -> ordered (set_whiteListHead l w).
Proof.
  intros (H1 & H2 & H3) E. split_and!; simpl.
  - by rewrite E.
  - intros v6. apply (H2 v6).
  - apply (Forall_fmap whiteListIdx (fun x => x < whiteLisIcrIdx w)) in H3.
    apply (Forall_fmap whiteListIdx (fun x => x < whiteLisIcrIdx w)). by rewrite E.
Qed.

Lemma ordered_add_to_device v6 i ok w : ordered w -> ordered (snd (add_to_device v6 i ok w)).
Proof.
  intros Ho. unfold add_to_device. destruct (existsb _ _) eqn:E; [done|]. destruct ok; [|done].
  apply ordered_head; [|destruct v6; by apply idxs_update_first]. destruct Ho as (H1 & H2 & H3).
  pose proof (insert_idx_sorted i _ (existsb_not_elem _ _ E) (H2 v6)) as Hi.
  split_and!; [by destruct v6| |by destruct v6].
  intros v6'. destruct v6, v6'; simpl in *; try done; [apply (H2 false)|apply (H2 true)].
Qed.

Lemma ordered_free i w : ordered w -> ordered (rtk_igmp_whiteEntry_free i w).
Proof.
  intros (H1 & H2 & H3). split_and!; simpl; [by apply sorted_remove_first|intros v6; apply (H2 v6)|].
  by apply Forall_remove_first.
Qed.

Lemma ordered_del i w : ordered w -> ordered (rtk_igmp_whiteEntry_del i w).
Proof.
  intros Ho. unfold rtk_igmp_whiteEntry_del. destruct (List.find _ _); [|done].
  destruct (_ =? 0); [by apply ordered_free|]. apply ordered_head; [done|]. by apply idxs_update_first.
Qed.

Lemma ordered_remove_dev v6 i w : ordered w -> ordered (set_dev_list v6 (remove_first (Z.eqb i) (dev_list v6 w)) w).
Proof.
  intros (H1 & H2 & H3). split_and!; [by destruct v6| |by destruct v6].
  pose proof (sorted_remove_first id (Z.eqb i) (dev_list v6 w)) as Hr. rewrite !list_fmap_id in Hr.
  specialize (Hr (H2 v6)). intros v6'. destruct v6, v6'; simpl in *; try done; [apply (H2 false)|apply (H2 true)].
Qed.

Lemma sorted_snoc l x : StronglySorted Z.lt l -> Forall (fun y => y < x) l -> StronglySorted Z.lt (l ++ [x]).
Proof.
  induction l as [|y l IH]; simpl; intros Hs Hf; [repeat constructor|].
  apply StronglySorted_inv in Hs as [Hs Hy]. apply Forall_cons in Hf as [Hyx Hf].
  constructor; [auto|]. apply Forall_app. split; [done|]. by repeat constructor.
Qed.

Lemma ordered_malloc ok w : ordered w -> ordered (snd (rtk_igmp_whiteEntry_malloc ok w)).
Proof.
  intros (H1 & H2 & H3). destruct ok; [|done]. split_and!; simpl.
  - rewrite fmap_app. apply sorted_snoc; [done|]. by rewrite Forall_fmap.
  - intros v6. apply (H2 v6).
  - apply Forall_app. split; [eapply Forall_impl; [done|]; simpl; lia|]. repeat constructor. simpl. lia.
Qed.

Lemma reachable_ordered w : white_reachable w -> ordered w.
Proof.
  induction 1 as [|p a b w _ IH|i w _ IH].
  - split_and!; [constructor|intros []; constructor|constructor].
  - unfold rtk_igmp_whiteListAdd. destruct (bad_ranges p); [done|].
    destruct (List.find _ _); [by apply ordered_add_to_device|].
    pose proof (ordered_malloc a w IH) as Hm. destruct (rtk_igmp_whiteEntry_malloc a w) as [[i|] w']; [|done].
    simpl in Hm. set (w1 := set_whiteListHead _ _).
    assert (ordered w1) by (apply ordered_head; [done|]; by apply idxs_update_first).
    destruct b; [by apply ordered_add_to_device|by apply ordered_free].
  - unfold rtk_igmp_whiteListDel_byIdx. repeat case_match; simpl; [..|done]; apply ordered_del.
    + by apply (ordered_remove_dev false).
    + by apply (ordered_remove_dev true).
Qed.

(** ** The cursor finds what a search finds *)

Lemma advance_none i cur : advance_to i cur = None -> List.find (idx_is i) cur = None.
Proof. unfold idx_is. induction cur as [|e cur IH]; simpl; [done|]. destruct (_ =? i); auto; done. Qed.

Lemma advance_some i cur e rest :
  StronglySorted Z.lt (whiteListIdx <$> cur) -> advance_to i cur = Some (e, rest) ->
  List.find (idx_is i) cur = Some e /\ StronglySorted Z.lt (whiteListIdx <$> rest) /\
  forall j, i < j -> List.find (idx_is j) rest = List.find (idx_is j) cur.
Proof.
  unfold idx_is. induction cur as [|d cur IH]; simpl; [done|]. intros [Hs Hd]%StronglySorted_inv.
  destruct (whiteListIdx d =? i) eqn:E; intros Ha.
  - simplify_eq. bool_to_prop. split_and!; [done|done|]. intros j Hj.
    destruct (whiteListIdx e =? j) eqn:E'; bool_to_prop; [lia|done].
  - destruct (IH Hs Ha) as (Hf & Hr & Hj). split_and!; [done|done|]. intros j Hij. rewrite (Hj j Hij).
    destruct (whiteListIdx d =? j) eqn:E'; [|done]. bool_to_prop. exfalso.
    assert (whiteListIdx d < i); [|lia]. apply List.find_some in Hf as [Hin Hi]. bool_to_prop.
    rewrite Forall_fmap, Forall_forall in Hd. specialize (Hd e (proj2 (list_elem_of_In _ _) Hin)). simpl in Hd. lia.
Qed.

Lemma white_loop_spec hit dev cur all en :
  StronglySorted Z.lt dev -> StronglySorted Z.lt (whiteListIdx <$> cur) ->
  StronglySorted Z.lt (whiteListIdx <$> all) ->
  (forall i, i ∈ dev -> List.find (idx_is i) cur = List.find (idx_is i) all) ->
  white_loop hit dev cur all en =
  let rules := omap (fun i => List.find (idx_is i) all) dev in
  if en || negb (bool_decide (rules = [])) then existsb (fun e => hit (patten e)) rules else true.
Proof.
  intros Hd. revert cur en. induction dev as [|i dev IH]; intros cur en Hc Ha Hf; simpl; [by destruct en|].
  apply StronglySorted_inv in Hd as [Hd Hi]. rewrite Forall_forall in Hi.
  rewrite <- (Hf i) by set_solver. destruct (advance_to i cur) as [[e rest]|] eqn:E.
  - destruct (advance_some _ _ _ _ Hc E) as (-> & Hr & Hj). simpl. rewrite orb_true_r.
    destruct (hit (patten e)); simpl; [done|]. rewrite IH; [done|done|done|done|].
    intros j Hjd. rewrite Hj by auto. apply Hf. set_solver.
  - rewrite (advance_none _ _ E). by apply IH.
Qed.

(** The white-list check, which walks the rule table once with a cursor it
    never rewinds, gives the verdict of looking up every rule of the device: for
    every configuration that adds and deletes can build, a report passes exactly
    when the device has no rule or one of its rules matches. *)
Theorem white_check_correct w v v3 ga ca src mac :
  white_reachable w -> white_check w v v3 ga ca src mac = white_spec w v v3 ga ca src mac.
Proof.
  intros (H1 & H2 & _)%reachable_ordered. unfold white_check, white_spec.
  rewrite white_loop_spec by done. simpl. fold (device_rules v w). by destruct (device_rules v w).
Qed.

(** ** Limits *)

(** A limit check that lets a report of an unknown IPv4 group through found fewer
    groups than the limit. *)
Lemma limitCheck_room {cfg : IgmpConfig} br dev wo st hdr ga ca m :
  sysIp4MaxGroupSize br = Z.of_nat m -> (0 < m)%nat ->
  limitCheck br dev wo st hdr IP_VERSION4 ga ca = RTK_IGMP_NF_CONTINUE ->
  rtk_igmp_searchGroupEntry (moduleIndex hdr) IP_VERSION4 ga st = None ->
  (length (groups_of (moduleIndex hdr) IP_VERSION4 st) < m)%nat.
Proof.
  intros Hm Hpos Hc Hn. unfold limitCheck in Hc. rewrite Hn in Hc. cbv zeta in Hc.
  match type of Hc with context [if (?g || ?i || ?l)%bool then _ else _] => destruct (g || i || l)%bool eqn:E; [done|] end.
  apply orb_false_iff in E as [[E _]%orb_false_iff _]. rewrite !orb_false_iff in E.
  destruct E as ((((E & _) & _) & _) & _). unfold over in E. rewrite Hm in E.
  apply andb_false_iff in E as [E|E]; bool_to_prop; lia.
Qed.

Section GroupLimit.
Context {cfg : IgmpConfig} {policy : AdmissionPolicy}.
Context (mi : nat).

(** The IPv4 groups of the bridge. *)
Definition group_count (st : igmp) : nat := length (groups_of mi IP_VERSION4 st).

(** A step that adds no group. *)
Definition adds_none {A} (m : H A) : Prop := forall st, (group_count (snd (m st)) <= group_count st)%nat.

Lemma length_concat_alter {A} (f : list A -> list A) h (t : list (list A)) k :
  (forall b, (length (f b) <= k + length b)%nat) -> (length (concat (alter f h t)) <= k + length (concat t))%nat.
Proof.
  intros Hf. revert h. induction t as [|b t IH]; intros [|h]; simpl; [lia..| |].
  - rewrite !length_app. specialize (Hf b). lia.
  - rewrite !length_app. specialize (IH h). unfold alter in IH. lia.
Qed.

Lemma count_alter_bucket mi' v h f st k :
  (forall b, (length (f b) <= k + length b)%nat) ->
  (group_count (alter_bucket mi' v h f st) <= k + group_count st)%nat.
Proof.
  intros Hf. unfold group_count, groups_of, alter_bucket. cbn [modules set_modules].
  destruct (decide (mi' = mi)) as [->|Hne]; [|rewrite list_lookup_alter_ne by done; case_match; lia].
  rewrite list_lookup_alter_eq. destruct (modules st !! mi) as [m|]; cbn [fmap option_fmap option_map]; [|simpl; lia].
  rewrite table_alter_table. case_decide; [|lia]. by apply length_concat_alter.
Qed.

Lemma count_alter_group mi' v ga f st : (group_count (alter_group mi' v ga f st) <= group_count st)%nat.
Proof. apply (count_alter_bucket _ _ _ _ _ 0). intros b. by rewrite length_update_first. Qed.

Lemma length_remove_first_le {A} (p : A -> bool) (l : list A) : (length (remove_first p l) <= length l)%nat.
Proof. induction l as [|x l IH]; simpl; [done|]. destruct (p x); simpl; lia. Qed.

Lemma adds_none_bind {A B} (m : H A) (k : A -> H B) : adds_none m -> (forall x, adds_none (k x)) -> adds_none (bind m k).
Proof.
  intros Hm Hk st. specialize (Hm st). unfold bind. destruct (m st) as [[r|x] st1]; simpl in *; [done|].
  specialize (Hk x st1). lia.
Qed.
Lemma adds_none_id {A} (m : H A) : (forall st, modules (snd (m st)) = modules st) -> adds_none m.
Proof. intros Hm st. unfold group_count, groups_of. by rewrite Hm. Qed.

Lemma adds_none_find_client hdr v ga ca fresh r : adds_none (find_or_create_client hdr v ga ca fresh r).
Proof.
  intros st. unfold find_or_create_client. destruct (rtk_igmp_searchGroupEntry _ v ga st) as [g|]; [|done].
  destruct (rtk_igmp_searchClientEntry v g _ ca hdr) as [[c|] g']; [apply count_alter_group|].
  unfold rtk_igmp_allocateClientEntry. destruct (freeClients st); [done|]. simpl.
  etransitivity; [apply count_alter_group|]. done.
Qed.

Lemma adds_none_on_client hdr v ga ca f : adds_none (on_client hdr v ga ca f).
Proof.
  intros st. unfold on_client. destruct (get_client _ v ga ca _ st) as [c|]; [|done].
  destruct (f (freeSources st) c) as [[ok c'] fr].
  pose proof (count_alter_group (moduleIndex hdr) v ga
    (fun g => set_clientList (update_first (client_match v ca (smac hdr)) (fun _ => c') (clientList g)) g) st) as Hc.
  destruct ok; exact Hc.
Qed.

Lemma count_leave_client hdr v ca ga st : (group_count (leave_client hdr v ca ga st) <= group_count st)%nat.
Proof.
  unfold leave_client. destruct (rtk_igmp_searchGroupEntry _ v ga st); [|done]. cbv zeta.
  match goal with |- context [get_client _ _ _ _ _ ?s] => assert (group_count s <= group_count st)%nat as H1
    by apply count_alter_group; set (st1 := s) in * end.
  destruct (get_client _ _ _ _ _ st1); [|done]. destruct (rtk_igmp_searchGroupEntry _ v ga st1) as [g1|]; [|done].
  destruct (fastLeave _); [|etransitivity; [apply count_alter_group|done]].
  unfold rtk_igmp_deleteClientEntry. destruct (List.find _ _); (etransitivity; [apply count_alter_group|exact H1]).
Qed.

Lemma count_delete_empty mi' v ga st : (group_count (delete_empty_group mi' v ga st) <= group_count st)%nat.
Proof.
  unfold delete_empty_group. destruct (rtk_igmp_searchGroupEntry mi' v ga st) as [g|]; [|done].
  destruct (clientList g); [|done]. unfold rtk_igmp_deleteGroupEntry, rtk_igmp_unlinkGroupEntry. simpl.
  match goal with |- context [alter_bucket ?a ?b ?c ?f ?s] =>
    pose proof (count_alter_bucket a b c f s 0 (length_remove_first_le _)) as Hc;
    assert (group_count s = group_count st) as E by by destruct (hwGroupDelCb st) end.
  unfold group_count, groups_of in *. simpl in *. lia.
Qed.

(** The one step that adds a group adds one, to the bridge and version of the
    report, when the group is unknown. *)
Lemma count_find_group hdr v ga r st :
  (group_count (snd (find_or_create_group hdr v ga r st)) <=
   (if bool_decide (moduleIndex hdr = mi /\ v = IP_VERSION4 /\ rtk_igmp_searchGroupEntry mi v ga st = None)
    then S (group_count st) else group_count st))%nat.
Proof.
  unfold find_or_create_group. destruct (rtk_igmp_searchGroupEntry _ v ga st) eqn:E; [simpl; by case_match; lia|].
  unfold rtk_igmp_allocateGroupEntry. destruct (freeGroups st); [simpl; by case_match; lia|].
  unfold rtk_igmp_linkGroupEntry. simpl.
  match goal with |- context [alter_bucket ?a ?b ?c ?f ?s] =>
    assert (group_count (alter_bucket a b c f s) <= 1 + group_count st)%nat as Hc
      by (apply (count_alter_bucket a b c f s 1); intros; simpl; lia);
    set (st1 := alter_bucket a b c f s) in * end.
  assert (group_count (if hwGroupAddCb st then emit (GroupAddCb (is_ipv6 v) 0 0 ga) st1 else st1) = group_count st1) as ->
    by by destruct (hwGroupAddCb st).
  case_bool_decide as Hd; [lia|]. unfold st1, group_count, groups_of, alter_bucket. cbn [modules set_modules set_free set_groupIncIdx].
  destruct (decide (moduleIndex hdr = mi)) as [<-|Hne]; [|rewrite list_lookup_alter_ne by done; case_match; simpl; lia].
  rewrite list_lookup_alter_eq. destruct (modules st !! moduleIndex hdr); cbn [fmap option_fmap option_map]; [|simpl; lia].
  rewrite table_alter_table, decide_False; [lia|]. intros <-. by apply Hd.
Qed.

Lemma count_learn hdr v v3 ga ca src r (k : H nf_ret) st m :
  (forall hdr v ga ca, moduleIndex hdr = mi -> v = IP_VERSION4 ->
     rtk_igmp_group_limitCheck st hdr v ga ca = RTK_IGMP_NF_CONTINUE ->
     rtk_igmp_searchGroupEntry mi v ga st = None -> (group_count st < m)%nat) ->
  adds_none k -> (group_count st <= m)%nat ->
  (group_count (snd (run (guard_reserved v ga ;;; guard_limit hdr v ga ca ;;; guard_white hdr v v3 ga ca src ;;;
     find_or_create_group hdr v ga r ;;; k) st)) <= m)%nat.
Proof.
  intros Hlim Hk Hst. destruct (admitted hdr v v3 ga ca src st) eqn:Ea; [|by rewrite guards_stop].
  unfold run. rewrite (guards_pass hdr v v3 ga ca src _ st Ea).
  pose proof (count_find_group hdr v ga r st) as Hf. unfold bind.
  assert (group_count (snd (find_or_create_group hdr v ga r st)) <= m)%nat as Hm.
  { case_bool_decide as Hd; [|lia]. destruct Hd as (H1 & H2 & H3).
    unfold admitted in Ea. apply andb_true_iff in Ea as [[_ Ea]%andb_true_iff _]. apply bool_decide_eq_true in Ea.
    specialize (Hlim hdr v ga ca H1 H2 Ea H3). lia. }
  destruct (find_or_create_group hdr v ga r st) as [[x|x] st1]; simpl in *; [done|].
  specialize (Hk st1). destruct (k st1) as [[x'|x'] st2]; simpl in *; lia.
Qed.

Lemma count_handle hdr r st m :
  (forall hdr v ga ca, moduleIndex hdr = mi -> v = IP_VERSION4 ->
     rtk_igmp_group_limitCheck st hdr v ga ca = RTK_IGMP_NF_CONTINUE ->
     rtk_igmp_searchGroupEntry mi v ga st = None -> (group_count st < m)%nat) ->
  (group_count st <= m)%nat -> (group_count (snd (handle hdr r st)) <= m)%nat.
Proof.
  intros Hlim Hst.
  destruct r; simpl; try (rewrite <- snd_run; apply count_learn; [exact Hlim| |exact Hst];
    apply adds_none_bind; [apply adds_none_find_client|intros ?]; apply adds_none_bind; [by apply adds_none_id|intros ?];
    apply adds_none_bind; [apply adds_none_on_client|intros ?]; by apply adds_none_id).
  - etransitivity; [|exact Hst]. apply adds_none_bind; [intros s; apply count_leave_client|intros ?].
    apply adds_none_bind; [intros s; apply count_delete_empty|intros ?].
    apply adds_none_bind; [apply adds_none_id|intros ?; by apply adds_none_id]. by destruct (fastLeave _).
  - etransitivity; [|exact Hst]. unfold rtk_igmp_processBlock.
    repeat (apply adds_none_bind; [|intros ?]); try (by apply adds_none_id);
      try (apply adds_none_id; intros s; unfold guard_reserved, guard_limit, guard_white; by repeat case_match).
    + intros s. apply count_alter_group.
    + apply adds_none_on_client.
Qed.
End GroupLimit.

(** The IPv4 group limit of a bridge is never exceeded: with the module's own
    admission checks and a limit of [m] groups, a freshly loaded module holds at
    most [m] IPv4 groups on that bridge after any sequence of reports. *)
Theorem ip4_group_limit_holds {cfg : IgmpConfig} resv br dev white wo mi m n G C S start rs :
  sysIp4MaxGroupSize (br mi) = Z.of_nat m -> (0 < m)%nat ->
  let policy := rtk_policy resv br dev white wo in
  (group_count mi (handle_all (policy := policy) rs (init_igmp n G C S start)) <= m)%nat.
Proof.
  intros Hm Hpos policy.
  assert (forall st, group_count mi st <= m -> group_count mi (handle_all (policy := policy) rs st) <= m)%nat as Hall.
  { induction rs as [|[hdr r] rs IH]; intros st Hst; [done|]. simpl. apply IH. apply count_handle; [|done].
    intros hdr' v ga ca <- -> Hc Hn. exact (limitCheck_room (br (moduleIndex hdr')) _ _ st hdr' ga ca m Hm Hpos Hc Hn). }
  apply Hall. unfold group_count, groups_of. simpl.
  destruct (replicate n _ !! mi) as [mm|] eqn:E; [|simpl; lia]. apply lookup_replicate in E as [-> _]. simpl.
  assert (forall k, length (concat (replicate k ([] : list groupEntry))) = 0%nat) as ->; [|lia].
  induction k; simpl; auto.
Qed.

(** The IPv6 client count is not a count of clients: [memcmp] is used as if
    it were an equality, so hosts with one and the same address are counted as
    none, and the limit on IPv6 clients never fires for them. *)
Theorem mld_single_host_not_counted members a :
  Forall (fun '(_, c) => addr_match IP_VERSION6 a (clientAddr c) = true) members ->
  totalClientCnt IP_VERSION6 members = 0.
Proof.
  intros Ha. unfold totalClientCnt, zcount.
  assert (forall c, (exists g, (g, c) ∈ members) -> forall c', (exists g, (g, c') ∈ members) ->
    cnt_match IP_VERSION6 (clientAddr c) (clientAddr c') = false) as Hf.
  { rewrite Forall_forall in Ha. intros c [g Hg] c' [g' Hg']. specialize (Ha _ Hg) as H1. specialize (Ha _ Hg') as H2.
    cbv beta iota in H1, H2. unfold cnt_match. by rewrite <- (addr_match_trans _ _ _ (clientAddr c') H1), H2. }
  assert (List.filter (fun '(g, c) => rtk_igmp_client_cnt IP_VERSION6 (groupAddr g) (clientAddr c) members) members = [])
    as ->; [|done].
  assert (forall l, (forall x, x ∈ l -> x ∈ members) ->
    List.filter (fun '(g, c) => rtk_igmp_client_cnt IP_VERSION6 (groupAddr g) (clientAddr c) members) l = []) as Hl; [|by apply Hl].
  induction l as [|[g c] l IH]; intros Hin; [done|]. simpl.
  assert (rtk_igmp_client_cnt IP_VERSION6 (groupAddr g) (clientAddr c) members = false) as ->; [|apply IH; set_solver].
  unfold rtk_igmp_client_cnt. destruct (List.find _ members) as [[g' c']|] eqn:E; [|done].
  apply List.find_some in E as [Hm He]. rewrite Hf in He; [done|exists g; apply Hin; set_solver|].
  exists g'. by apply list_elem_of_In.
Qed.

(** ** Concrete configurations *)

Definition demo_pattern (lo hi : Z) : whitePattern :=
  WhitePattern false false [] [] true (ip4 lo) (ip4 hi) false addr0 addr0 false addr0 addr0 false.
(** Two rules, the first then deleted. *)
Definition demo_white : whiteState :=
  snd (rtk_igmp_whiteListDel_byIdx 0
    (snd (rtk_igmp_whiteListAdd (demo_pattern 0xE2000000 0xE2FFFFFF) true true
      (snd (rtk_igmp_whiteListAdd (demo_pattern 0xE1000000 0xE1FFFFFF) true true white_init))))).

Lemma white_check_correct_witness :
  white_check demo_white IP_VERSION4 true demo_group demo_client None [0; 1; 2; 3; 4; 5] = false /\
  white_check demo_white IP_VERSION4 true (ip4 0xE2000001) demo_client None [0; 1; 2; 3; 4; 5] = true.
Proof.
  assert (white_reachable demo_white) as Hr by (repeat constructor).
  split.
  - rewrite (white_check_correct demo_white _ _ _ _ _ _ Hr). by_compute.
  - by_compute.
Defined.

Definition demo_br : brLimits := BrLimits 1 0 0 0 0 0 0 0.

Lemma ip4_group_limit_holds_witness :
  (group_count 0 (handle_all (cfg := demo_config)
     (policy := rtk_policy (cfg := demo_config) [] (fun _ => demo_br) (fun _ => DevLimits 0 0) (fun _ => white_init) (fun _ _ _ _ => false))
     [(demo_hdr false, Join IP_VERSION4 0x16 demo_client demo_group);
      (demo_hdr false, Join IP_VERSION4 0x16 demo_client (ip4 0xE1010102))]
     (init_igmp (cfg := demo_config) 1 4 4 4 0)) <= 1)%nat.
Proof.
  apply (ip4_group_limit_holds (cfg := demo_config) [] (fun _ => demo_br) (fun _ => DevLimits 0 0) (fun _ => white_init)
    (fun _ _ _ _ => false) 0 1); [reflexivity|lia].
Defined.

Lemma mld_single_host_not_counted_witness :
  let a := Addr 0xFE800000 0 0 1 in
  let c := ClientEntry a [] 0 0 0 false 0 false 0 MLD_V2 0 0 [] in
  totalClientCnt IP_VERSION6 [(GroupEntry (Addr 0xFF050000 0 0 1) IP_VERSION6 0 0 1 [c], c)] = 0.
Proof.
  intros a c. apply (mld_single_host_not_counted _ a). repeat constructor.
Defined.
