(* ===== verification/IgmpTimer.v ===== *)
(** * IgmpTimer: aging of the snooping database

    What the periodic timer of the snooper does to sources and clients
    ([rtk_igmp_checkSourceTimer], [rtk_igmp_checkClientEntryTimer]), the uptime it keeps,
    the clock it reads and the report rate limiter.  The whole timer, which also decides
    flows afresh and ages them, is in IgmpAging; here is its effect on the memberships
    alone ([sweep_memberships]), with the entries that are given back, proved to leave
    exactly the entries that are alive. *)
From S2P Require Import Prelude IgmpTable IgmpReport IgmpInvariant IgmpUnique.

Definition CONFIG_HZ : Z := 100.

(** ** The clock *)

Record clock := Clock { lastjiffies : Z; lastTimer : Z }.

(** Seconds since load, counted from jiffies: the [int32] difference is divided by
    HZ and the rest is dropped. *)
Definition rtk_igmp_getTimeSec (jiffies : Z) (k : clock) : Z * clock :=
  let jiffiesDiff := if lastjiffies k <? jiffies then s32 (jiffies - lastjiffies k)
                     else s32 (0xffffffff - (lastjiffies k - jiffies)) in
  let t := u32 (lastTimer k + Z.quot jiffiesDiff CONFIG_HZ) in
  (t, Clock jiffies t).

(** ** Rate limiting *)

Record rateLimit := RateLimit { cycle_start_time : Z; counter : Z; rate : Z }.

(** The limiter of one IP version; [cycle] is the length of a cycle in jiffies. *)
Definition limit_step (cycle jiffies : Z) (r : rateLimit) : bool * rateLimit :=
  let diff := if jiffies <? cycle_start_time r then u32 ((0xffffffff - cycle_start_time r) + jiffies)
              else jiffies - cycle_start_time r in
  if cycle <? diff
  then (true, RateLimit (u32 (jiffies - diff mod cycle)) 1 (rate r))
  else if counter r <? rate r
  then (true, RateLimit (cycle_start_time r) (u32 (counter r + 1)) (rate r))
  else (false, r).

(** [check_rate_limit]: an IPv4 packet is held to the IGMP limiter, an IPv6 packet
    to the MLD limiter, anything else passes. *)
Definition check_rate_limit (cycle : Z) (iph ip6h : bool) (jiffies : Z) (d : rateLimit * rateLimit)
    : bool * (rateLimit * rateLimit) :=
  match iph, ip6h with
  | true, false => let '(ok, r) := limit_step cycle jiffies (fst d) in (ok, (r, snd d))
  | false, true => let '(ok, r) := limit_step cycle jiffies (snd d) in (ok, (fst d, r))
  | _, _ => (true, d)
  end.

(** ** One sweep *)

Section Sweep.
Context {cfg : IgmpConfig}.
(** [gloConf.igmp_sys_timer_sec] *)
Context (igmp_sys_timer_sec : Z).

(** [rtk_igmp_checkSourceTimer]: the source that stays, and whether its state
    changed. *)
Definition rtk_igmp_checkSourceTimer (now : Z) (c : clientEntry) (s : sourceEntry) : option sourceEntry * bool :=
  if portTimer s <=? now
  then if groupFilterTimer c <=? now then (None, true)
       else (Some (set_fwdState false s), negb (Bool.eqb false (fwdState s)))
  else (Some (set_fwdState true s), negb (Bool.eqb true (fwdState s))).

Fixpoint check_sources (now : Z) (c : clientEntry) (l : list sourceEntry) : list sourceEntry * bool * nat :=
  match l with
  | [] => ([], false, 0%nat)
  | s :: l' =>
      let '(s', ch) := rtk_igmp_checkSourceTimer now c s in
      let '(r, ch', n) := check_sources now c l' in
      match s' with
      | Some s' => (s' :: r, ch || ch', n)
      | None => (r, ch || ch', S n)
      end
  end.

(** [rtk_igmp_checkClientEntryTimer]: the client that stays, the entries given
    back, and whether the flows of the group are refreshed.  When the client has
    been deleted its filter timer is read from the cleared entry. *)
Definition rtk_igmp_checkClientEntryTimer (now : Z) (c : clientEntry) : option clientEntry * nat * bool :=
  let oldFwdIfidx := rtk_igmp_getClientFwdIfIdx c now in
  let '(l, sourceStatusChange, n) := check_sources now c (sourceList c) in
  let c' := set_sourceList l c in
  let newFwdIfidx := rtk_igmp_getClientFwdIfIdx c' now in
  let timer := match newFwdIfidx with None => 0 | Some _ => groupFilterTimer c end in
  let clientStatusChange := (timer <=? now) && (u32 (now - timer) <=? igmp_sys_timer_sec) in
  let reflush := negb (bool_decide (oldFwdIfidx = newFwdIfidx)) || bool_decide (newFwdIfidx = None) ||
                 clientStatusChange || sourceStatusChange in
  match newFwdIfidx with
  | None => (None, (length l + n)%nat, reflush)
  | Some _ => (Some c', n, reflush)
  end.

(** Over a group's clients. *)
Definition return_entries (c' : option clientEntry) (n : nat) (st : igmp) : igmp :=
  set_free (freeGroups st) (match c' with None => S (freeClients st) | _ => freeClients st end) (n + freeSources st) st.
Fixpoint sweep_clients (cl : list clientEntry) (st : igmp) : list clientEntry * igmp :=
  match cl with
  | [] => ([], st)
  | c :: cl' =>
      let '(c', n, _) := rtk_igmp_checkClientEntryTimer (rtk_igmp_sysUpSeconds st) c in
      let '(r, st) := sweep_clients cl' (return_entries c' n st) in
      (match c' with Some c' => c' :: r | None => r end, st)
  end.

(** A group left without clients is deleted. *)
Definition give_group (st : igmp) : igmp := set_free (S (freeGroups st)) (freeClients st) (freeSources st) st.
Definition sweep_group (g : groupEntry) (st : igmp) : option groupEntry * igmp :=
  let '(cl, st) := sweep_clients (clientList g) st in
  match cl with
  | [] => (None, give_group st)
  | _ => (Some (set_clientList cl g), st)
  end.

(** Over a hash chain. *)
Fixpoint sweep_groups (gs : list groupEntry) (st : igmp) : list groupEntry * igmp :=
  match gs with
  | [] => ([], st)
  | g :: gs' =>
      let '(g', st) := sweep_group g st in
      let '(r, st) := sweep_groups gs' st in
      (match g' with Some g' => g' :: r | None => r end, st)
  end.

Definition sweep_bucket (mi : nat) (v : ip_version) (h : nat) (st : igmp) : igmp :=
  let '(b, st) := sweep_groups (bucket mi v h st) st in
  alter_bucket mi v h (fun _ => b) st.

Definition sweep_table (mi : nat) (v : ip_version) (st : igmp) : igmp :=
  foldl (fun st h => sweep_bucket mi v h st) st (seq 0 (Z.to_nat IGMP_HASH_TBL_SIZE)).

Definition sweep_module (st : igmp) (mi : nat) : igmp :=
  match modules st !! mi with
  | Some m => if validBit m then sweep_table mi IP_VERSION6 (sweep_table mi IP_VERSION4 st) else st
  | None => st
  end.

(** Seconds of uptime, with the overflow of the second counter written out. *)
Definition set_uptime (currentSystemTime : Z) (st : igmp) : igmp :=
  let up := if rtk_igmp_startTime st <? currentSystemTime
            then currentSystemTime - rtk_igmp_startTime st
            else u32 ((0xffffffff - rtk_igmp_startTime st) + currentSystemTime + 1) in
  Igmp up (rtk_igmp_startTime st) (modules st) (freeGroups st) (freeClients st) (freeSources st)
    (groupIncIdx st) (hwGroupAddCb st) (hwGroupDelCb st) (counters st) (events st).

(** The memberships after the timer ran. *)
Definition sweep_memberships (currentSystemTime : Z) (st : igmp) : igmp :=
  let st := set_uptime currentSystemTime st in
  foldl sweep_module st (seq 0 (length (modules st))).

(** ** What should be left *)

(** A source stays while its timer runs, or its client is in exclude mode. *)
Definition alive_source (now : Z) (c : clientEntry) (s : sourceEntry) : option sourceEntry :=
  if now <? portTimer s then Some (set_fwdState true s)
  else if exclude_mode now c then Some (set_fwdState false s) else None.
Definition alive_client (now : Z) (c : clientEntry) : option clientEntry :=
  match rtk_igmp_getClientFwdIfIdx c now with
  | Some _ => Some (set_sourceList (omap (alive_source now c) (sourceList c)) c)
  | None => None
  end.
Definition alive_group (now : Z) (g : groupEntry) : option groupEntry :=
  match omap (alive_client now) (clientList g) with
  | [] => None
  | cl => Some (set_clientList cl g)
  end.

(** ** The walk leaves what is alive *)

Lemma checkSourceTimer_alive now c s : fst (rtk_igmp_checkSourceTimer now c s) = alive_source now c s.
Proof.
  unfold rtk_igmp_checkSourceTimer, alive_source, exclude_mode.
  destruct (now <? portTimer s) eqn:E1, (portTimer s <=? now) eqn:E2,
    (groupFilterTimer c <=? now) eqn:E3, (now <? groupFilterTimer c) eqn:E4; bool_to_prop; (done || lia).
Qed.

Lemma check_sources_spec now c l :
  let '(l', _, n) := check_sources now c l in
  l' = omap (alive_source now c) l /\ (length l' + n = length l)%nat.
Proof.
  induction l as [|s l IH]; [done|]. rewrite omap_cons, <- checkSourceTimer_alive. simpl.
  destruct (check_sources now c l) as [[r ch'] n]. destruct IH as [<- Hn].
  destruct (rtk_igmp_checkSourceTimer now c s) as [[s'|] ch]; simpl; (split; [done|lia]).
Qed.

Lemma alive_sources_find now c (l : list sourceEntry) :
  List.find (fun s => now <? portTimer s) (omap (alive_source now c) l) = None <->
  List.find (fun s => now <? portTimer s) l = None.
Proof.
  induction l as [|s l IH]; [done|]. rewrite omap_cons. simpl.
  destruct (alive_source now c s) as [s'|] eqn:Es; unfold alive_source in Es;
    destruct (now <? portTimer s) eqn:E; simplify_eq; simpl; rewrite ?E; [done| |done].
  destruct (exclude_mode now c); simplify_eq. simpl. by rewrite E.
Qed.

Lemma fwd_alive now c :
  rtk_igmp_getClientFwdIfIdx (set_sourceList (omap (alive_source now c) (sourceList c)) c) now =
  rtk_igmp_getClientFwdIfIdx c now.
Proof.
  unfold rtk_igmp_getClientFwdIfIdx. simpl. destruct (now <? groupFilterTimer c); [done|].
  pose proof (alive_sources_find now c (sourceList c)) as Hf.
  destruct (List.find _ (omap _ _)), (List.find _ (sourceList c)); try done.
  - by pose proof (proj2 Hf eq_refl).
  - by pose proof (proj1 Hf eq_refl).
Qed.

Lemma check_client_spec now c :
  let '(c', n, _) := rtk_igmp_checkClientEntryTimer now c in
  c' = alive_client now c /\
  (length (sourceList (default (set_sourceList [] c) c')) + n = length (sourceList c))%nat.
Proof.
  unfold rtk_igmp_checkClientEntryTimer, alive_client.
  pose proof (check_sources_spec now c (sourceList c)) as Hs.
  destruct (check_sources now c (sourceList c)) as [[l ch] n]. destruct Hs as [-> Hn].
  rewrite fwd_alive. destruct (rtk_igmp_getClientFwdIfIdx c now); simpl; [done|]. split; [done|]. lia.
Qed.

(** The fields a sweep does not touch. *)
Record sweep_env (st st' : igmp) : Prop := {
  se_now : rtk_igmp_sysUpSeconds st' = rtk_igmp_sysUpSeconds st;
  se_modules : modules st' = modules st
}.

Definition sources_of (cl : list clientEntry) : nat := sum_list_with (fun c => length (sourceList c)) cl.

Lemma sweep_clients_spec cl st :
  let '(cl', st') := sweep_clients cl st in
  cl' = omap (alive_client (rtk_igmp_sysUpSeconds st)) cl /\ sweep_env st st' /\
  freeGroups st' = freeGroups st /\
  (freeClients st' + length cl' = freeClients st + length cl)%nat /\
  (freeSources st' + sources_of cl' = freeSources st + sources_of cl)%nat.
Proof.
  revert st. induction cl as [|c cl IH]; intros st; simpl; [done|].
  pose proof (check_client_spec (rtk_igmp_sysUpSeconds st) c) as Hc.
  destruct (rtk_igmp_checkClientEntryTimer _ c) as [[c' n] fl]. destruct Hc as [-> Hn].
  match goal with |- context [sweep_clients cl ?s] => set (s1 := s) end.
  assert (rtk_igmp_sysUpSeconds s1 = rtk_igmp_sysUpSeconds st /\ modules s1 = modules st /\ freeGroups s1 = freeGroups st /\
    freeClients s1 = (match alive_client (rtk_igmp_sysUpSeconds st) c with None => S (freeClients st) | _ => freeClients st end) /\
    freeSources s1 = (n + freeSources st)%nat) as (E1 & E2 & E3 & E4 & E5) by done.
  specialize (IH s1). clearbody s1. destruct (sweep_clients cl s1) as [r st'].
  destruct IH as (-> & [Hn' Hm'] & Hg & Hcl & Hs). rewrite E1 in *.
  split; [by destruct (alive_client _ c)|]. split; [constructor; congruence|]. split; [congruence|].
  unfold sources_of in *. rewrite E4, E5 in *. destruct (alive_client _ c) as [c'|]; simpl in *; lia.
Qed.

Lemma sweep_groups_spec gs st :
  let '(gs', st') := sweep_groups gs st in
  gs' = omap (alive_group (rtk_igmp_sysUpSeconds st)) gs /\ sweep_env st st' /\
  (freeGroups st' + length gs' = freeGroups st + length gs)%nat /\
  (freeClients st' + sum_list_with clients_in gs' = freeClients st + sum_list_with clients_in gs)%nat /\
  (freeSources st' + sum_list_with sources_in gs' = freeSources st + sum_list_with sources_in gs)%nat.
Proof.
  revert st. induction gs as [|g gs IH]; intros st; simpl; [done|].
  unfold sweep_group.
  assert (forall r, match alive_group (rtk_igmp_sysUpSeconds st) g with Some g' => g' :: r | None => r end =
    match omap (alive_client (rtk_igmp_sysUpSeconds st)) (clientList g) with
    | [] => r | cl => set_clientList cl g :: r end) as Hag.
  { intros r. unfold alive_group. by destruct (omap (alive_client (rtk_igmp_sysUpSeconds st)) (clientList g)). }
  fold (omap (alive_group (rtk_igmp_sysUpSeconds st)) gs). rewrite Hag.
  pose proof (sweep_clients_spec (clientList g) st) as Hc.
  destruct (sweep_clients (clientList g) st) as [cl st1]. destruct Hc as (-> & [En Em] & Eg & Ec & Es).
  destruct (omap (alive_client _) (clientList g)) as [|c cl] eqn:El.
  - match goal with |- context [sweep_groups gs ?s] => set (s1 := s) end.
    assert (rtk_igmp_sysUpSeconds s1 = rtk_igmp_sysUpSeconds st1 /\ modules s1 = modules st1 /\
      freeGroups s1 = S (freeGroups st1) /\ freeClients s1 = freeClients st1 /\ freeSources s1 = freeSources st1)
      as (F1 & F2 & F3 & F4 & F5) by done.
    specialize (IH s1). clearbody s1. destruct (sweep_groups gs s1) as [r st2].
    destruct IH as (-> & [Hn Hm] & Hg & Hcl & Hs). rewrite F1, En in *.
    split; [done|]. split; [constructor; congruence|]. unfold sources_of, clients_in, sources_in in *. simpl in *. lia.
  - specialize (IH st1). destruct (sweep_groups gs st1) as [r st2].
    destruct IH as (-> & [Hn Hm] & Hg & Hcl & Hs). rewrite En in *.
    split; [done|]. split; [constructor; congruence|].
    unfold sources_of, clients_in, sources_in in *. simpl in *. lia.
Qed.

(** ** Buckets, tables, modules *)

Lemma alive_group_id now g g' : alive_group now g = Some g' ->
  groupAddr g' = groupAddr g /\ groupIpVersion g' = groupIpVersion g.
Proof. unfold alive_group. destruct (omap _ _); intros; by simplify_eq. Qed.

(** What one step of the walk may touch: nothing but the tables and the pools. *)
Definition valid_flags (st : igmp) : list bool := validBit <$> modules st.

Lemma valid_alter_bucket mi v h f st : valid_flags (alter_bucket mi v h f st) = valid_flags st.
Proof.
  unfold valid_flags, alter_bucket. simpl. generalize (modules st) as ms. intros ms. revert mi.
  induction ms as [|m ms IH]; intros [|mi]; simpl; [done..|by destruct v|].
  f_equal. apply IH.
Qed.

Lemma sweep_bucket_spec G C S n mi v h st :
  good G C S n mi st -> (h < Z.to_nat IGMP_HASH_TBL_SIZE)%nat ->
  let st' := sweep_bucket mi v h st in
  good G C S n mi st' /\ rtk_igmp_sysUpSeconds st' = rtk_igmp_sysUpSeconds st /\
  valid_flags st' = valid_flags st /\
  forall mi' v' h', bucket mi' v' h' st' =
    if decide ((mi', v', h') = (mi, v, h)) then omap (alive_group (rtk_igmp_sysUpSeconds st)) (bucket mi' v' h' st)
    else bucket mi' v' h' st.
Proof.
  intros [[Hc Hh Hs] [Hr Hlen]] Hbound. unfold sweep_bucket.
  pose proof (sweep_groups_spec (bucket mi v h st) st) as Hg.
  destruct (sweep_groups (bucket mi v h st) st) as [b st1].
  destruct Hg as (Hb & [En Em] & Eg & Ec & Es). simpl.
  assert (in_range mi st1 /\ sized st1 /\ hashed st1) as (Hr1 & Hs1 & Hh1).
  { unfold in_range. rewrite Em. split; [done|]. split; [by eapply sized_modules_eq|by eapply hashed_modules_eq]. }
  assert (forall mi v h, bucket mi v h st1 = bucket mi v h st) as Eb by (intros; unfold bucket; by rewrite Em).
  assert (forall w, (total w (alter_bucket mi v h (fun _ => b) st1) + sum_list_with w (bucket mi v h st)
                     = total w st + sum_list_with w b)%nat) as Ht.
  { intros w. pose proof (total_alter w mi v h (fun _ => b) st1 Hr1 Hs1 Hbound) as Ht.
    by rewrite Eb, (total_modules_eq w st st1 Em) in Ht. }
  split; [split; [split|split]|split; [done|split]].
  - rewrite conserved_total in *. destruct Hc as (H1 & H2 & H3). simpl.
    pose proof (Ht (fun _ => 1%nat)) as T1. pose proof (Ht clients_in). pose proof (Ht sources_in).
    assert (forall l : list groupEntry, sum_list_with (fun _ => 1%nat) l = length l) as El
      by (induction l; simpl; auto). rewrite !El in T1. lia.
  - apply hashed_alter_bucket; [done|]. intros g Hg. rewrite Hb in Hg.
    apply list_elem_of_omap in Hg as (g0 & Hg0 & Ha). apply alive_group_id in Ha as [-> ->]. by eapply Hh.
  - by apply sized_alter_bucket.
  - unfold in_range, alter_bucket. simpl. by rewrite length_alter, Em.
  - unfold alter_bucket. simpl. by rewrite length_alter, Em.
  - rewrite valid_alter_bucket. unfold valid_flags. by rewrite Em.
  - intros mi' v' h'. case_decide as E.
    + injection E as -> -> ->. rewrite bucket_alter_eq by done. done.
    + by rewrite bucket_alter_ne, Eb.
Qed.

Lemma sweep_buckets_spec G C S n mi v hs st :
  good G C S n mi st -> NoDup hs -> Forall (fun h => (h < Z.to_nat IGMP_HASH_TBL_SIZE)%nat) hs ->
  let st' := foldl (fun st h => sweep_bucket mi v h st) st hs in
  good G C S n mi st' /\ rtk_igmp_sysUpSeconds st' = rtk_igmp_sysUpSeconds st /\
  valid_flags st' = valid_flags st /\
  forall mi' v' h', bucket mi' v' h' st' =
    if decide (mi' = mi /\ v' = v /\ h' ∈ hs) then omap (alive_group (rtk_igmp_sysUpSeconds st)) (bucket mi' v' h' st)
    else bucket mi' v' h' st.
Proof.
  revert st. induction hs as [|h hs IH]; intros st Hg Hnd Hb; simpl.
  { split_and!; try done. intros. rewrite decide_False; [done|set_solver]. }
  apply NoDup_cons in Hnd as [Hh Hnd]. apply Forall_cons in Hb as [Hbh Hb].
  destruct (sweep_bucket_spec G C S n mi v h st Hg Hbh) as (Hg1 & En1 & Ev1 & Hb1).
  destruct (IH _ Hg1 Hnd Hb) as (Hg2 & En2 & Ev2 & Hb2).
  split_and!; [done|congruence|congruence|]. intros mi' v' h'. rewrite Hb2, Hb1, En1.
  repeat case_decide; simplify_eq; set_solver.
Qed.

Lemma bucket_out mi v h st : sized st -> ~ (h < Z.to_nat IGMP_HASH_TBL_SIZE)%nat -> bucket mi v h st = [].
Proof.
  intros Hs Hh. unfold bucket. destruct (modules st !! mi) as [m|] eqn:Em; [|done]. simpl.
  unfold sized in Hs. rewrite Forall_lookup in Hs. specialize (Hs _ _ Em v).
  rewrite lookup_ge_None_2; [done|lia].
Qed.

Lemma sweep_table_spec G C S n mi v st :
  good G C S n mi st ->
  let st' := sweep_table mi v st in
  good G C S n mi st' /\ rtk_igmp_sysUpSeconds st' = rtk_igmp_sysUpSeconds st /\
  valid_flags st' = valid_flags st /\
  forall mi' v' h', bucket mi' v' h' st' =
    if decide (mi' = mi /\ v' = v) then omap (alive_group (rtk_igmp_sysUpSeconds st)) (bucket mi' v' h' st)
    else bucket mi' v' h' st.
Proof.
  intros Hg st'. destruct (sweep_buckets_spec G C S n mi v (seq 0 (Z.to_nat IGMP_HASH_TBL_SIZE)) st Hg)
    as (Hg1 & En & Ev & Hb); [apply NoDup_seq|apply Forall_seq; lia|].
  split_and!; [done..|]. intros mi' v' h'. unfold st', sweep_table. rewrite Hb.
  repeat case_decide; try done; try naive_solver.
  rewrite bucket_out; [done|apply Hg|]. intros Hlt. apply H. split; [tauto|]. split; [tauto|].
  apply elem_of_seq. lia.
Qed.

Lemma valid_lookup st mi m : modules st !! mi = Some m -> valid_flags st !! mi = Some (validBit m).
Proof. intros Hm. unfold valid_flags. by rewrite list_lookup_fmap, Hm. Qed.

Lemma sweep_module_spec G C S n mi st :
  good G C S n mi st ->
  let st' := sweep_module st mi in
  inv G C S st' /\ length (modules st') = n /\ rtk_igmp_sysUpSeconds st' = rtk_igmp_sysUpSeconds st /\
  valid_flags st' = valid_flags st /\
  forall mi' v' h', bucket mi' v' h' st' =
    if decide (mi' = mi /\ valid_flags st !! mi = Some true)
    then omap (alive_group (rtk_igmp_sysUpSeconds st)) (bucket mi' v' h' st)
    else bucket mi' v' h' st.
Proof.
  intros Hg. unfold sweep_module. destruct (modules st !! mi) as [m|] eqn:Em.
  2:{ destruct Hg as (? & Hr & ?). apply lookup_ge_None_1 in Em. unfold in_range in Hr. lia. }
  rewrite (valid_lookup st mi m Em). destruct (validBit m); simpl.
  - destruct (sweep_table_spec G C S n mi IP_VERSION4 st Hg) as (Hg1 & En1 & Ev1 & Hb1).
    destruct (sweep_table_spec G C S n mi IP_VERSION6 _ Hg1) as (Hg2 & En2 & Ev2 & Hb2).
    split_and!; [apply Hg2|apply Hg2|congruence|congruence|]. intros mi' v' h'. rewrite Hb2, Hb1, En1.
    destruct v'; repeat case_decide; naive_solver.
  - split_and!; [apply Hg|apply Hg|done|done|]. intros. rewrite decide_False; [done|naive_solver].
Qed.

Lemma sweep_modules_spec G C S n mis st :
  inv G C S st -> length (modules st) = n -> NoDup mis -> Forall (fun mi => (mi < n)%nat) mis ->
  let st' := foldl sweep_module st mis in
  inv G C S st' /\ rtk_igmp_sysUpSeconds st' = rtk_igmp_sysUpSeconds st /\
  valid_flags st' = valid_flags st /\
  forall mi' v' h', bucket mi' v' h' st' =
    if decide (mi' ∈ mis /\ valid_flags st !! mi' = Some true)
    then omap (alive_group (rtk_igmp_sysUpSeconds st)) (bucket mi' v' h' st)
    else bucket mi' v' h' st.
Proof.
  revert st. induction mis as [|mi mis IH]; intros st Hi Hl Hnd Hb; simpl.
  { split_and!; try done; intros; rewrite decide_False; set_solver. }
  apply NoDup_cons in Hnd as [Hn Hnd]. apply Forall_cons in Hb as [Hbm Hb].
  destruct (sweep_module_spec G C S n mi st) as (Hi1 & Hl1 & En1 & Ev1 & Hb1).
  { split; [done|]. split; [unfold in_range; lia|done]. }
  destruct (IH _ Hi1 Hl1 Hnd Hb) as (Hi2 & En2 & Ev2 & Hb2).
  split_and!; [done|congruence|congruence|]. intros mi' v' h'. rewrite Hb2, Hb1, En1, Ev1.
  repeat case_decide; simplify_eq; set_solver.
Qed.

Lemma sweep_memberships_inv G C S cur st : inv G C S st ->
  inv G C S (sweep_memberships cur st) /\
  rtk_igmp_sysUpSeconds (sweep_memberships cur st) = rtk_igmp_sysUpSeconds (set_uptime cur st).
Proof.
  intros Hinv. assert (inv G C S (set_uptime cur st)) as Hinv1 by (destruct Hinv; by constructor).
  destruct (sweep_modules_spec G C S (length (modules st)) (seq 0 (length (modules st))) (set_uptime cur st) Hinv1 eq_refl)
    as (Hi & En & _); [apply NoDup_seq|apply Forall_seq; simpl; lia|]. by split.
Qed.
(** The sweep sets the uptime to the seconds since the start, counter overflow included,
    and leaves what is alive. *)
Lemma sweep_memberships_spec G C S cur st :
  is_u32 cur -> is_u32 (rtk_igmp_startTime st) -> inv G C S st ->
  let now := u32 (cur - rtk_igmp_startTime st) in
  let st' := sweep_memberships cur st in
  inv G C S st' /\ rtk_igmp_sysUpSeconds st' = now /\
  forall mi m v h, modules st !! mi = Some m ->
    bucket mi v h st' = if validBit m then omap (alive_group now) (bucket mi v h st) else bucket mi v h st.
Proof.
  intros Hcur Hstart Hinv now st'. set (st1 := set_uptime cur st).
  assert (rtk_igmp_sysUpSeconds st1 = now) as Enow.
  { unfold st1, set_uptime, now. simpl. unfold is_u32 in *. destruct (_ <? cur) eqn:E; bool_to_prop.
    - symmetry. apply u32_small. unfold is_u32. lia.
    - unfold u32.
      replace (4294967295 - rtk_igmp_startTime st + cur + 1) with (cur - rtk_igmp_startTime st + 1 * 2 ^ 32) by lia.
      by rewrite Z.mod_add. }
  assert (inv G C S st1) as Hinv1 by (destruct Hinv; by constructor).
  destruct (sweep_modules_spec G C S (length (modules st)) (seq 0 (length (modules st1))) st1 Hinv1 eq_refl)
    as (Hi & En & Ev & Hb); [apply NoDup_seq|apply Forall_seq; simpl; lia|].
  split; [exact Hi|]. split; [etransitivity; [exact En|done]|].
  intros mi m v h Hm. etransitivity; [exact (Hb mi v h)|]. rewrite Enow.
  assert (valid_flags st1 !! mi = Some (validBit m)) as -> by by apply valid_lookup.
  pose proof (lookup_lt_Some _ _ _ Hm).
  destruct (validBit m); [rewrite decide_True; [done|]|rewrite decide_False; [done|naive_solver]].
  split; [|done]. apply elem_of_seq. simpl. lia.
Qed.
End Sweep.

(** ** Rate limit and clock over sequences of calls *)

(** Reports as they arrive, each with its time: which of them pass. *)
Fixpoint run_limit (cycle : Z) (ps : list (ip_version * Z)) (d : rateLimit * rateLimit) : list ip_version :=
  match ps with
  | [] => []
  | (v, t) :: ps' =>
      let '(ok, d') := check_rate_limit cycle (negb (is_ipv6 v)) (is_ipv6 v) t d in
      if (ok : bool) then v :: run_limit cycle ps' d' else run_limit cycle ps' d'
  end.
Definition count_ver (v : ip_version) (l : list ip_version) : nat := length (filter (eq v) l).
Definition limiter (v : ip_version) (d : rateLimit * rateLimit) : rateLimit := if is_ipv6 v then snd d else fst d.
(** A limiter inside a cycle that covers the times of its packets. *)
Definition in_cycle (cycle : Z) (v : ip_version) (d : rateLimit * rateLimit) (ps : list (ip_version * Z)) : Prop :=
  0 <= counter (limiter v d) <= rate (limiter v d) /\ rate (limiter v d) < 2 ^ 32 /\
  Forall (fun '(w, t) => w = v -> cycle_start_time (limiter v d) <= t <= cycle_start_time (limiter v d) + cycle) ps.

(** The calls of [rtk_igmp_getTimeSec] at the given jiffies. *)
Definition run_clock (js : list Z) (k : clock) : clock :=
  foldl (fun k j => snd (rtk_igmp_getTimeSec j k)) k js.

(** Each call comes less than a second after the one before. *)
Fixpoint sub_second (last : Z) (js : list Z) : Prop :=
  match js with
  | [] => True
  | j :: js' => last < j /\ j - last < CONFIG_HZ /\ sub_second j js'
  end.

Lemma limit_step_in_cycle cycle t r :
  cycle_start_time r <= t <= cycle_start_time r + cycle -> 0 <= counter r -> rate r < 2 ^ 32 ->
  limit_step cycle t r = if counter r <? rate r then (true, RateLimit (cycle_start_time r) (counter r + 1) (rate r))
                         else (false, r).
Proof.
  intros Ht Hc Hr. unfold limit_step. rewrite (proj2 (Z.ltb_ge t _)) by lia. rewrite (proj2 (Z.ltb_ge cycle _)) by lia.
  destruct (counter r <? rate r) eqn:E; [|done]. bool_to_prop. by rewrite u32_small by (unfold is_u32; lia).
Qed.

(** The step of one packet, on its own limiter and on the other. *)
Lemma check_rate_limit_split cycle v w t d ps :
  in_cycle cycle v d ((w, t) :: ps) ->
  let '(ok, d') := check_rate_limit cycle (negb (is_ipv6 w)) (is_ipv6 w) t d in
  in_cycle cycle v d' ps /\
  (w <> v -> limiter v d' = limiter v d) /\
  (w = v -> if counter (limiter v d) <? rate (limiter v d)
            then ok = true /\ limiter v d' = RateLimit (cycle_start_time (limiter v d)) (counter (limiter v d) + 1) (rate (limiter v d))
            else ok = false /\ limiter v d' = limiter v d).
Proof.
  intros (Hc & Hr & Hps). apply Forall_cons in Hps as [Ht Hps].
  unfold in_cycle, limiter, check_rate_limit in *. destruct d as [r4 r6].
  destruct (decide (w = v)) as [->|Hne].
  - specialize (Ht eq_refl).
    destruct v; cbn [is_ipv6 negb fst snd] in *; rewrite limit_step_in_cycle by (done || lia);
      match goal with |- context [counter ?r <? rate ?r] => destruct (counter r <? rate r) eqn:E end; bool_to_prop;
      cbn [fst snd cycle_start_time counter rate]; split_and!; done || lia.
  - destruct w, v; try done; cbn [is_ipv6 negb fst snd] in *; destruct (limit_step _ _ _); cbn [fst snd];
      split_and!; try done; try lia; intros; congruence.
Qed.

(** Within a cycle the limiter passes the first reports up to the rate and
    drops the rest, separately for IGMP and MLD: of the reports of one IP version
    exactly as many pass as its limiter has left, whatever the other version sends. *)
Theorem rate_limit_per_cycle cycle v ps d :
  in_cycle cycle v d ps ->
  count_ver v (run_limit cycle ps d) =
  Nat.min (count_ver v (ps.*1)) (Z.to_nat (rate (limiter v d) - counter (limiter v d))).
Proof.
  revert d. induction ps as [|[w t] ps IH]; intros d Hd; [done|].
  pose proof (check_rate_limit_split _ _ _ _ _ _ Hd) as Hs. destruct Hd as (Hc & _). cbn [run_limit fmap list_fmap fst].
  destruct (check_rate_limit _ _ _ _ _) as [ok d']. destruct Hs as (Hi & Hother & Hself). specialize (IH d' Hi).
  unfold count_ver in *. rewrite filter_cons. destruct (decide (v = w)) as [<-|Hne].
  - specialize (Hself eq_refl). destruct (counter (limiter v d) <? rate (limiter v d)) eqn:E; bool_to_prop;
      destruct Hself as [-> Hl]; rewrite Hl in IH; cbn [rate counter] in IH.
    + rewrite filter_cons_True by done. cbn [length]. rewrite IH. lia.
    + rewrite IH. cbn [length]. lia.
  - rewrite Hother in IH by congruence. destruct ok; [rewrite filter_cons_False by done|]; exact IH.
Qed.

(** The clock loses the fraction of every interval: called more often than
    once a second it does not advance at all, however long it is called. *)
Theorem clock_stalls_when_polled js k :
  is_u32 (lastTimer k) -> sub_second (lastjiffies k) js ->
  lastTimer (run_clock js k) = lastTimer k.
Proof.
  revert k. induction js as [|j js IH]; intros k Hk Hs; [done|]. destruct Hs as (H1 & H2 & Hs).
  unfold CONFIG_HZ in H2.
  assert (s32 (j - lastjiffies k) = j - lastjiffies k) as E32.
  { unfold s32. rewrite Z.mod_small; lia. }
  assert (snd (rtk_igmp_getTimeSec j k) = Clock j (lastTimer k)) as E.
  { unfold rtk_igmp_getTimeSec. rewrite (proj2 (Z.ltb_lt _ _)) by lia. rewrite E32.
    unfold CONFIG_HZ. rewrite Z.quot_small by lia. rewrite Z.add_0_r, u32_small by done. done. }
  change (run_clock (j :: js) k) with (run_clock js (snd (rtk_igmp_getTimeSec j k))). rewrite E. by rewrite IH.
Qed.

(** ** Concrete runs *)

Definition timer_config : IgmpConfig := {| IGMP_HASH_TBL_SIZE := 1; hash_tbl_size_pos := eq_refl |}.

(** One bridge with one group: a client in exclude mode until 50 and one that ran
    out at 5. *)
Definition timer_client (a t : Z) : clientEntry :=
  ClientEntry (Addr a 0 0 0) [] 3 0 0 false 0 false 0 IGMP_V2 t 0 [].
Definition timer_group (cl : list clientEntry) : groupEntry := GroupEntry (Addr 9 0 0 0) IP_VERSION4 0 0 1 cl.
Definition timer_state : igmp :=
  Igmp 0 0xfffffff0 [MulticastModule true [[timer_group [timer_client 1 50; timer_client 2 5]]] [[]]]
    3 2 4 1 true true (VerCounters 0 0 0 0 0) [].

Lemma timer_state_inv : inv (cfg := timer_config) 4 4 4 timer_state.
Proof.
  constructor.
  - by_compute.
  - intros [|mi] [] [|h] g Hg; vm_compute in Hg; try (by apply elem_of_nil in Hg).
    apply elem_of_cons in Hg as [->|Hg]; [by vm_compute|by apply elem_of_nil in Hg].
  - repeat constructor. by intros [].
Qed.

Lemma rate_limit_per_cycle_witness :
  count_ver IP_VERSION4 (run_limit 1000 [(IP_VERSION4, 10); (IP_VERSION6, 20); (IP_VERSION4, 30); (IP_VERSION4, 40)]
    (RateLimit 5 1 3, RateLimit 0 0 1)) = 2%nat.
Proof.
  rewrite rate_limit_per_cycle; [reflexivity|]. split_and!; [by_compute|by_compute|by_compute|].
  repeat constructor; by_compute.
Defined.

Lemma clock_stalls_when_polled_witness : lastTimer (run_clock [60; 120; 180; 240; 300] (Clock 0 7)) = 7.
Proof.
  apply (clock_stalls_when_polled [60; 120; 180; 240; 300] (Clock 0 7)); by_compute.
Defined.
