(* ===== verification/SpiNand.v ===== *)
(** * SpiNand: the read-only SPI-NAND driver

    [drivers/mtd/rtl9607c-spinand-ro.c], every function, at the level of register
    accesses.  The controller and the chip behind it are the class [Controller]:
    what a register read returns, what a write does, what the BCH engine leaves in
    the DMA buffer.  The driver's own state is the record [nand]; its field [bus]
    logs the register writes, so that what the driver can do to the chip is a
    statement about the log. *)
From S2P Require Import Prelude.

(** ** Constants *)

Definition PAGE_BYTES : nat := 2048.
Definition OOB_BYTES : nat := 64.
Definition BLOCK_BYTES : Z := 2048 * 64.
Definition CHIP_BYTES : Z := 128 * 1024 * 1024.
Definition CHIP_PAGES : Z := 65536.
Definition SCRATCH_OFF : nat := 2176.
Definition BUF_BYTES : nat := 4096.
Definition SN_CFG : Z := 0x00.
Definition SN_CS : Z := 0x04.
Definition SN_WCMD : Z := 0x08.
Definition SN_RCMD : Z := 0x0c.
Definition SN_RDATA : Z := 0x10.
Definition SN_WDATA : Z := 0x14.
Definition SN_STATUS : Z := 0x40.
Definition ECC_CFG : Z := 0x00.
Definition ECC_TRIG : Z := 0x08.
Definition ECC_DATA : Z := 0x0c.
Definition ECC_TAG : Z := 0x10.
Definition ECC_STATUS : Z := 0x14.
Definition ECC_IRQ : Z := 0x18.

(** The two register blocks the driver maps. *)
Inductive block := SN | ECC.

(** ** The hardware the driver talks to *)

(** A controller: its state, its registers, the time a poll of 2 ms gives it (the
    number of reads that fit), and the DMA of the BCH engine into the buffer. *)
Class Controller := {
  hw : Type;
  reg_read : block -> Z -> hw -> Z * hw;
  reg_write : block -> Z -> Z -> hw -> hw;
  poll_reads : nat;
  bch_dma : hw -> list Z -> list Z;
  reg_read_u32 b r h : is_u32 (fst (reg_read b r h));
  bch_dma_length h l : length (bch_dma h l) = length l
}.

Section Driver.
Context {ctl : Controller}.

(** ** Driver state *)

Record nand := Nand {
  chip : hw;
  bus : list (block * Z * Z);
  buf : list Z;
  dma : Z;
  pages : Z; raw_pages : Z; corrected : Z; failed : Z; timeouts : Z;
  bad_queries : Z; marker_reads : Z; bch_sectors : Z;
  last_page : Z; last_ecc : Z; last_ecc_page : Z;
  poisoned : bool;
  ecc_corrected : Z; ecc_failed : Z   (* mtd.ecc_stats *)
}.

Definition set_hw (h : hw) (l : list (block * Z * Z)) (n : nand) : nand :=
  Nand h l (buf n) (dma n) (pages n) (raw_pages n) (corrected n) (failed n) (timeouts n)
    (bad_queries n) (marker_reads n) (bch_sectors n) (last_page n) (last_ecc n) (last_ecc_page n) (poisoned n)
    (ecc_corrected n) (ecc_failed n).
Definition set_buf (b : list Z) (n : nand) : nand :=
  Nand (chip n) (bus n) b (dma n) (pages n) (raw_pages n) (corrected n) (failed n) (timeouts n)
    (bad_queries n) (marker_reads n) (bch_sectors n) (last_page n) (last_ecc n) (last_ecc_page n) (poisoned n)
    (ecc_corrected n) (ecc_failed n).
Definition poison (n : nand) : nand :=
  Nand (chip n) (bus n) (buf n) (dma n) (pages n) (raw_pages n) (corrected n) (failed n) (u64 (timeouts n + 1))
    (bad_queries n) (marker_reads n) (bch_sectors n) (last_page n) (last_ecc n) (last_ecc_page n) true
    (ecc_corrected n) (ecc_failed n).
Definition set_last_page (p : Z) (n : nand) : nand :=
  Nand (chip n) (bus n) (buf n) (dma n) (pages n) (raw_pages n) (corrected n) (failed n) (timeouts n)
    (bad_queries n) (marker_reads n) (bch_sectors n) p (last_ecc n) (last_ecc_page n) (poisoned n)
    (ecc_corrected n) (ecc_failed n).
Definition count_page (raw : bool) (n : nand) : nand :=
  Nand (chip n) (bus n) (buf n) (dma n) (if raw then pages n else u64 (pages n + 1))
    (if raw then u64 (raw_pages n + 1) else raw_pages n) (corrected n) (failed n) (timeouts n)
    (bad_queries n) (marker_reads n) (bch_sectors n) (last_page n) (last_ecc n) (last_ecc_page n) (poisoned n)
    (ecc_corrected n) (ecc_failed n).
Definition count_ecc (c f : Z) (n : nand) : nand :=
  Nand (chip n) (bus n) (buf n) (dma n) (pages n) (raw_pages n) (u64 (corrected n + c)) (u64 (failed n + f)) (timeouts n)
    (bad_queries n) (marker_reads n) (bch_sectors n) (last_page n) (last_ecc n) (last_ecc_page n) (poisoned n)
    (u32 (ecc_corrected n + c)) (u32 (ecc_failed n + f)).
Definition count_marker (q m : Z) (n : nand) : nand :=
  Nand (chip n) (bus n) (buf n) (dma n) (pages n) (raw_pages n) (corrected n) (failed n) (timeouts n)
    (u64 (bad_queries n + q)) (u64 (marker_reads n + m)) (bch_sectors n) (last_page n) (last_ecc n)
    (last_ecc_page n) (poisoned n)
    (ecc_corrected n) (ecc_failed n).
Definition count_bch (n : nand) : nand :=
  Nand (chip n) (bus n) (buf n) (dma n) (pages n) (raw_pages n) (corrected n) (failed n) (timeouts n)
    (bad_queries n) (marker_reads n) (u64 (bch_sectors n + 1)) (last_page n) (last_ecc n) (last_page n) (poisoned n)
    (ecc_corrected n) (ecc_failed n).
Definition set_last_ecc (s : Z) (n : nand) : nand :=
  Nand (chip n) (bus n) (buf n) (dma n) (pages n) (raw_pages n) (corrected n) (failed n) (timeouts n)
    (bad_queries n) (marker_reads n) (bch_sectors n) (last_page n) s (last_ecc_page n) (poisoned n)
    (ecc_corrected n) (ecc_failed n).

(** ** Register access and polling *)

(** A driver routine: a result and the new state. *)
Definition D (A : Type) : Type := nand -> A * nand.
Definition ret {A} (x : A) : D A := fun n => (x, n).
Definition bind {A B} (m : D A) (k : A -> D B) : D B := fun n => let '(x, n') := m n in k x n'.
Definition get {A} (f : nand -> A) : D A := fun n => (f n, n).
Definition upd (f : nand -> nand) : D unit := fun n => (tt, f n).
Notation "x <- m ;; k" := (bind m (fun x => k)) (at level 100, m at next level, right associativity).
Notation "m ;; k" := (bind m (fun _ => k)) (at level 100, right associativity).

Definition rd (b : block) (r : Z) : D Z := fun n => let '(v, h) := reg_read b r (chip n) in (v, set_hw h (bus n) n).
Definition wr (b : block) (r v : Z) : D unit :=
  fun n => (tt, set_hw (reg_write b r v (chip n)) ((b, r, v) :: bus n) n).

(** [read_poll_timeout]: read until the condition holds; when the time is up the
    last value read decides. *)
Fixpoint read_poll (fuel : nat) (cond : Z -> bool) (b : block) (r : Z) : D (Z * Z) :=
  v <- rd b r ;;
  if cond v then ret (0, v)
  else match fuel with
       | O => ret (- ETIMEDOUT, v)
       | S f => read_poll f cond b r
       end.

Definition bit (v i : Z) : bool := Z.testbit v i.

Definition sn_wait : D Z :=
  p <- read_poll poll_reads (fun v => negb (bit v 3)) SN SN_STATUS ;;
  (if fst p =? 0 then ret tt else upd poison) ;;
  ret (fst p).

Definition sn_tx (word len : Z) : D Z :=
  r <- sn_wait ;;
  if r =? 0 then wr SN SN_WCMD (u32 (len - 1)) ;; wr SN SN_WDATA word ;; sn_wait else ret r.

(** Byte [i] of a received word, most significant first. *)
Definition word_byte (word : Z) (i : nat) : Z := u8 (Z.shiftr word (24 - 8 * Z.of_nat i)).

(** The receive loop: four bytes at a time (fewer at the end); what was received
    before an error is in the buffer. *)
Fixpoint sn_rx_loop (fuel : nat) (len : nat) (acc : list Z) : D (Z * list Z) :=
  match fuel, len with
  | S f, S _ =>
      let chunk := Nat.min len 4 in
      wr SN SN_RCMD (Z.of_nat chunk - 1) ;;
      r <- sn_wait ;;
      if r =? 0 then
        word <- rd SN SN_RDATA ;;
        sn_rx_loop f (len - chunk) (acc ++ (word_byte word <$> seq 0 chunk))
      else ret (r, acc)
  | _, _ => ret (0, acc)
  end.
Definition sn_rx (len : nat) : D (Z * list Z) := sn_rx_loop len len [].

Definition sn_feature (addr : Z) : D (Z * Z) :=
  wr SN SN_CS 0 ;;
  r <- sn_tx (Z.lor (Z.shiftl 0x0f 24) (Z.shiftl addr 16)) 2 ;;
  p <- (if r =? 0 then sn_rx 1 else ret (r, [])) ;;
  wr SN SN_CS 1 ;;
  ret (fst p, default 0 (snd p !! 0%nat)).

(** The ready poll of [sn_load_page]. *)
Fixpoint load_poll (tries : nat) : D Z :=
  match tries with
  | O => upd poison ;; ret (- ETIMEDOUT)
  | S t =>
      p <- sn_feature 0xc0 ;;
      if fst p =? 0 then if bit (snd p) 0 then load_poll t else ret 0 else ret (fst p)
  end.

Definition sn_load_page (page : Z) : D Z :=
  p <- get poisoned ;;
  if (p : bool) then ret (- EIO)
  else
    upd (set_last_page page) ;;
    wr SN SN_CS 0 ;;
    r <- sn_tx (Z.lor (Z.shiftl 0x13 24) page) 4 ;;
    wr SN SN_CS 1 ;;
    if r =? 0 then load_poll 200 else ret r.

(** [buf] is the driver's buffer from [at_] on. *)
Definition sn_cache_read (column : Z) (at_ : nat) (len : nat) : D Z :=
  wr SN SN_CS 0 ;;
  r <- sn_tx (Z.lor 0x03000000 (Z.shiftl column 8)) 4 ;;
  p <- (if r =? 0 then sn_rx len else ret (r, [])) ;;
  upd (fun n => set_buf (blit at_ (snd p) (buf n)) n) ;;
  wr SN SN_CS 1 ;;
  ret (fst p).

Definition sn_page (page : Z) : D Z :=
  r <- sn_load_page page ;;
  r <- (if r =? 0 then sn_cache_read 0 0 (PAGE_BYTES + OOB_BYTES) else ret r) ;;
  (if r =? 0 then upd (count_page false) else ret tt) ;;
  ret r.

(** ** ECC *)

(** [hweight8] of the complement: the zero bits of a byte. *)
Definition zero_bits (b : Z) : nat := length (List.filter (fun i => negb (Z.testbit b (Z.of_nat i))) (seq 0 8)).
Definition flips (l : list Z) : nat := sum_list_with zero_bits l.

Definition erased_sector (data tag : list Z) : Z :=
  let f := (flips data + flips tag)%nat in
  if (f <=? 4)%nat then Z.of_nat f else -1.

(** The tag bytes and the BCH bytes of a sector in the page's spare area. *)
Definition tag_off (sector : nat) : nat := (PAGE_BYTES + sector * 6)%nat.
Definition bch_off (sector : nat) : nat := (PAGE_BYTES + 24 + sector * 10)%nat.
Definition FF (k : nat) : list Z := replicate k 0xff.

(** One sector of [bch_decode]: an error that ends the routine, or the number of
    corrected bits, [None] for an uncorrectable sector. *)
Definition bch_sector (sector : nat) : D (Z + option Z) :=
  upd (fun n => let tag := slice (tag_off sector) 6 (buf n) ++ slice (bch_off sector) 10 (buf n) in
                set_buf (blit SCRATCH_OFF tag (buf n)) n) ;;
  data <- get (fun n => slice (sector * 512) 512 (buf n)) ;;
  tag <- get (fun n => slice SCRATCH_OFF 16 (buf n)) ;;
  let r := erased_sector data tag in
  if 0 <=? r then
    upd (fun n => set_buf (blit (bch_off sector) (FF 10) (blit (tag_off sector) (FF 6)
                            (blit (sector * 512) (FF 512) (buf n)))) n) ;;
    upd (count_ecc r 0) ;;
    ret (inr (Some r))
  else
    cfg <- rd ECC ECC_CFG ;;
    wr ECC ECC_CFG (Z.lor (Z.land cfg (not32 (Z.shiftl 3 28))) (BIT 20)) ;;
    wr ECC ECC_IRQ (BIT 0) ;;
    d <- get dma ;;
    wr ECC ECC_TAG (u32 (d + Z.of_nat SCRATCH_OFF)) ;;
    wr ECC ECC_DATA (u32 (d + Z.of_nat (sector * 512))) ;;
    upd count_bch ;;
    wr ECC ECC_TRIG 0 ;;
    p <- read_poll poll_reads (fun s => Z.land s 3 =? 0) ECC ECC_STATUS ;;
    upd (fun n => set_buf (bch_dma (chip n) (buf n)) n) ;;
    let status := snd p in
    upd (set_last_ecc status) ;;
    if negb (fst p =? 0) then upd poison ;; ret (inl (fst p))
    else if bit status 8 then upd (count_ecc 0 1) ;; ret (inr None)
    else
      let bits := Z.land (Z.shiftr status 12) 0xff in
      if 6 <? bits then upd (count_ecc 0 1) ;; ret (inr None)
      else
        upd (count_ecc bits 0) ;;
        upd (fun n => set_buf (blit (tag_off sector) (slice SCRATCH_OFF 6 (buf n)) (buf n)) n) ;;
        ret (inr (Some bits)).

Fixpoint bch_loop (sectors : list nat) (max_bits : Z) (ecc_error : bool) : D Z :=
  match sectors with
  | [] => ret (if ecc_error then - EBADMSG else max_bits)
  | s :: rest =>
      r <- bch_sector s ;;
      match r with
      | inl e => ret e
      | inr None => bch_loop rest max_bits true
      | inr (Some b) => bch_loop rest (Z.max max_bits b) ecc_error
      end
  end.
Definition bch_decode : D Z := bch_loop (seq 0 4) 0 false.

(** ** The MTD operations *)

Inductive oob_mode := MTD_OPS_PLACE_OOB | MTD_OPS_AUTO_OOB | MTD_OPS_RAW | MTD_OPS_OTHER.
#[export] Instance oob_mode_eq_dec : EqDecision oob_mode.
Proof. solve_decision. Defined.

Record oob_ops := OobOps { op_mode : oob_mode; op_len : nat; op_ooblen : nat; op_ooboffs : nat }.

(** What a read gives back: the return value, the data and the spare bytes. *)
Record read_out := ReadOut { rd_ret : Z; datbuf : list Z; oobbuf : list Z }.

(** The page loop of [nand_read_oob].  A page number is used once, so the pages of
    the chip bound the iterations. *)
Fixpoint read_loop (fuel : nat) (mode : oob_mode) (avail : nat) (page : Z) (off oob_off data_left oob_left : nat)
    (max_bits : Z) (ecc_error : bool) (dat oob : list Z) : D read_out :=
  let finish r := ret (ReadOut (if r <? 0 then r else if ecc_error then - EBADMSG else max_bits) dat oob) in
  if ((data_left =? 0) && (oob_left =? 0))%nat then finish 0
  else if CHIP_PAGES <=? page then finish (- EINVAL)
  else match fuel with
  | O => finish 0
  | S f =>
      r <- sn_page page ;;
      r <- (if r =? 0 then
              if decide (mode = MTD_OPS_RAW) then upd (count_page true) ;; ret 0 else bch_decode
            else ret r) ;;
      let err := ecc_error || (r =? - EBADMSG) in
      let r := if r =? - EBADMSG then 0 else r in
      if r <? 0 then ret (ReadOut r dat oob)
      else
        b <- get buf ;;
        let chunk := Nat.min data_left (PAGE_BYTES - off) in
        let ochunk := Nat.min oob_left (avail - oob_off) in
        let at_ := (PAGE_BYTES + oob_off + (if decide (mode = MTD_OPS_AUTO_OOB) then 2 else 0))%nat in
        read_loop f mode avail (page + 1) 0 0 (data_left - chunk) (oob_left - ochunk)
          (Z.max max_bits r) err (dat ++ slice off chunk b) (oob ++ slice at_ ochunk b)
  end.

Definition nand_read_oob (from : Z) (ops : oob_ops) : D read_out :=
  let avail := if decide (op_mode ops = MTD_OPS_AUTO_OOB) then 20%nat else OOB_BYTES in
  if decide (op_mode ops = MTD_OPS_OTHER) then ret (ReadOut (- EINVAL) [] [])
  else if (negb (op_ooblen ops =? 0) && (avail <=? op_ooboffs ops))%nat then ret (ReadOut (- EINVAL) [] [])
  else read_loop (Z.to_nat CHIP_PAGES) (op_mode ops) avail (u32 (from / 2048)) (Z.to_nat (from mod 2048)) (op_ooboffs ops)
         (op_len ops) (op_ooblen ops) 0 false [] [].

Definition nand_erase_denied : D Z := ret (- EROFS).

Definition marker (n : nand) : Z := default 0 (buf n !! PAGE_BYTES).

Definition nand_isbad (pos : Z) : D Z :=
  let page := u32 (pos / BLOCK_BYTES * 64) in
  let verdict r := if 0 <=? r then m <- get marker ;; ret (if m =? 0xff then 0 else 1) else ret r in
  upd (count_marker 1 0) ;;
  r <- sn_load_page page ;;
  r <- (if r =? 0 then sn_cache_read (Z.of_nat PAGE_BYTES) PAGE_BYTES 1 else ret r) ;;
  (if r =? 0 then upd (count_marker 0 1) else ret tt) ;;
  m <- get marker ;;
  if (r =? 0) && negb (m =? 0xff) then
    r <- sn_page page ;;
    r <- (if r =? 0 then bch_decode else ret r) ;;
    if r =? - EBADMSG then ret 1 else verdict r
  else verdict r.

Definition oob_free (section : Z) : Z * (Z * Z) := if section =? 0 then (0, (2, 20)) else (- ERANGE, (0, 0)).
Definition oob_ecc (section : Z) : Z * (Z * Z) := if section =? 0 then (0, (24, 40)) else (- ERANGE, (0, 0)).

(** The calls the MTD layer can make. *)
Inductive mtd_call := ReadOob (from : Z) (ops : oob_ops) | IsBad (pos : Z) | Erase.
Definition run_call (c : mtd_call) : D unit :=
  match c with
  | ReadOob from ops => nand_read_oob from ops ;; ret tt
  | IsBad pos => nand_isbad pos ;; ret tt
  | Erase => nand_erase_denied ;; ret tt
  end.
Fixpoint run_calls (cs : list mtd_call) : D unit :=
  match cs with [] => ret tt | c :: cs' => run_call c ;; run_calls cs' end.

(** Calls with an offset inside the device, which the MTD core checks before it
    calls a driver. *)
Definition in_device (c : mtd_call) : Prop :=
  match c with
  | ReadOob from _ => 0 <= from < CHIP_BYTES
  | IsBad pos => 0 <= pos < CHIP_BYTES
  | Erase => True
  end.

(** The outcome of a probe: its return value and what became of the DMA buffer. *)
Inductive dma_fate := NotAllocated | InUse | Freed | Retained.
Record probe_out := ProbeOut { probe_ret : Z; fate : dma_fate }.

(** What the kernel answers a probe: whether the state is allocated, the errors of
    the two mappings (0 for none) and of [dma_set_mask_and_coherent], the buffer
    and its bus address, and for [mtd_device_register] the calls it makes while it
    scans and its result. *)
Record kernel := Kernel {
  k_kzalloc : bool; k_map_sn : Z; k_map_ecc : Z; k_mask : Z;
  k_dma : option (list Z * Z); k_scan : list mtd_call; k_register : Z
}.

(** [devm_kzalloc]: every field zero.  The bus log is not the driver's. *)
Definition kzalloc (n : nand) : nand :=
  Nand (chip n) (bus n) [] 0 0 0 0 0 0 0 0 0 0 0 0 false 0 0.
Definition set_dma (b : list Z) (d : Z) (n : nand) : nand :=
  Nand (chip n) (bus n) b d (pages n) (raw_pages n) (corrected n) (failed n) (timeouts n)
    (bad_queries n) (marker_reads n) (bch_sectors n) (last_page n) (last_ecc n) (last_ecc_page n) (poisoned n)
    (ecc_corrected n) (ecc_failed n).

Definition phoebus_nand_probe (k : kernel) : D probe_out :=
  let fail r := ret (ProbeOut r NotAllocated) in
  if negb (k_kzalloc k) then fail (- ENOMEM)
  else
    upd kzalloc ;;
    if negb (k_map_sn k =? 0) then fail (k_map_sn k)
    else if negb (k_map_ecc k =? 0) then fail (k_map_ecc k)
    else
      cfg <- rd SN SN_CFG ;;
      wr SN SN_CFG (Z.land cfg (not32 (BIT 20))) ;;
      wr SN SN_CS 0 ;;
      r <- sn_tx 0x9f000000 2 ;;
      p <- (if r =? 0 then sn_rx 3 else ret (r, [])) ;;
      wr SN SN_CS 1 ;;
      if negb (fst p =? 0) then fail (fst p)
      else
        rd SN SN_CFG ;;
        rd ECC ECC_CFG ;;
        if negb ((default 0 (snd p !! 0%nat) =? 0xc8) && (default 0 (snd p !! 1%nat) =? 0x01)) then fail (- ENODEV)
        else
          q <- sn_feature 0xb0 ;;
          if negb (fst q =? 0) then fail (fst q)
          else if bit (snd q) 4 then fail (- EOPNOTSUPP)
          else if negb (k_mask k =? 0) then fail (k_mask k)
          else match k_dma k with
          | None => fail (- ENOMEM)
          | Some (b, d) =>
              upd (set_dma b d) ;;
              run_calls (k_scan k) ;;
              if negb (k_register k =? 0)
              then dead <- get poisoned ;; ret (ProbeOut (k_register k) (if (dead : bool) then Retained else Freed))
              else ret (ProbeOut 0 InUse)
          end.
End Driver.

(** ** Partitions *)

Record mtd_partition := Part { part_offset : Z; part_size : Z; part_masked : bool }.
Definition SZ_1M : Z := 0x100000.
Definition SZ_4M : Z := 0x400000.
Definition SZ_8M : Z := 0x800000.
Definition stock_parts : list mtd_partition := [
  Part 0 SZ_1M true;
  Part SZ_1M SZ_1M true;
  Part 0x200000 0x3300000 true;
  Part 0x3500000 0x3300000 true;
  Part 0x6800000 SZ_8M true;
  Part 0x7000000 SZ_8M true;
  Part 0x7800000 SZ_4M true;
  Part 0x7c00000 SZ_4M true
].
