(* ===== verification/SpiNandSpec.v ===== *)
(** * SpiNandSpec: what the SPI-NAND driver guarantees

    For every controller: the driver sends read commands only, it never writes a
    register again after a timeout, it fills the caller's buffers exactly and
    reads nothing outside its own, and it frees the DMA buffer only when no engine
    can still write to it.  For a controller that answers page reads with the
    contents of a flash array, a raw read returns those contents. *)
From S2P Require Import Prelude SpiNand.

Section Generic.
Context {ctl : Controller}.

(** ** Routines that keep a property of the driver state *)

Definition keeps (P : nand -> Prop) {A} (m : D A) : Prop := forall n, P n -> P (snd (m n)).

Section Keeps.
Context (P : nand -> Prop).

Lemma keeps_bind {A B} (m : D A) (k : A -> D B) : keeps P m -> (forall x, keeps P (k x)) -> keeps P (bind m k).
Proof. intros Hm Hk n Hn. unfold bind. specialize (Hm n Hn). destruct (m n) as [x n']. by apply Hk. Qed.
Lemma keeps_ret {A} (x : A) : keeps P (ret x).
Proof. by intros n. Qed.
Lemma keeps_get {A} (f : nand -> A) : keeps P (get f).
Proof. by intros n. Qed.
Lemma keeps_upd f : (forall n, P n -> P (f n)) -> keeps P (upd f).
Proof. intros Hf n. apply Hf. Qed.
Lemma keeps_if {A} (b : bool) (m1 m2 : D A) : keeps P m1 -> keeps P m2 -> keeps P (if b then m1 else m2).
Proof. intros. by destruct b. Qed.
End Keeps.

(** The properties below do not look at the counters, the buffer or the page
    numbers; this is what they need of a property to pass through the routines
    that only read and count. *)
Record passive (P : nand -> Prop) : Prop := {
  pv_read n h : P n -> P (set_hw h (bus n) n);
  pv_buf n b : length b = length (buf n) -> P n -> P (set_buf b n);
  pv_poison n : P n -> P (poison n);
  pv_last n p : P n -> P (set_last_page p n);
  pv_page n b : P n -> P (count_page b n);
  pv_ecc n c f : P n -> P (count_ecc c f n);
  pv_marker n q m : P n -> P (count_marker q m n);
  pv_bch n : P n -> P (count_bch n);
  pv_lecc n s : P n -> P (set_last_ecc s n)
}.

(** Writes a property allows. *)
Definition writes (P : nand -> Prop) (b : block) (r v : Z) : Prop := keeps P (wr b r v).

Section Passive.
Context (P : nand -> Prop) (HP : passive P).

Lemma keeps_rd b r : keeps P (rd b r).
Proof. intros n Hn. unfold rd. destruct (reg_read b r (chip n)) as [v h]. by apply (pv_read _ HP). Qed.

Lemma keeps_poll fuel cond b r : keeps P (read_poll fuel cond b r).
Proof.
  induction fuel as [|f IH]; simpl; (apply keeps_bind; [apply keeps_rd|intros v]);
    apply keeps_if; auto using keeps_ret.
Qed.

Lemma keeps_wait : keeps P sn_wait.
Proof.
  apply keeps_bind; [apply keeps_poll|intros p]. apply keeps_bind; [|intros _; apply keeps_ret].
  apply keeps_if; [apply keeps_ret|apply keeps_upd, HP].
Qed.

(** What the transfer routines write. *)
Context (Hwcmd : forall len, writes P SN SN_WCMD len) (Hrcmd : forall len, writes P SN SN_RCMD len)
        (Hcs : forall v, writes P SN SN_CS v) (Hecc : forall r v, (r = ECC_TRIG -> v = 0) -> writes P ECC r v).

Lemma keeps_tx word len : writes P SN SN_WDATA word -> keeps P (sn_tx word len).
Proof.
  intros Hw. apply keeps_bind; [apply keeps_wait|intros r]. apply keeps_if; [|apply keeps_ret].
  apply keeps_bind; [apply Hwcmd|intros _]. apply keeps_bind; [apply Hw|intros _; apply keeps_wait].
Qed.

Lemma keeps_rx_loop fuel len acc : keeps P (sn_rx_loop fuel len acc).
Proof.
  revert len acc. induction fuel as [|f IH]; intros [|len] acc; simpl; try apply keeps_ret.
  apply keeps_bind; [apply Hrcmd|intros _]. apply keeps_bind; [apply keeps_wait|intros r].
  apply keeps_if; [|apply keeps_ret]. apply keeps_bind; [apply keeps_rd|intros w; apply IH].
Qed.

Lemma keeps_feature addr :
  writes P SN SN_WDATA (Z.lor (Z.shiftl 0x0f 24) (Z.shiftl addr 16)) -> keeps P (sn_feature addr).
Proof.
  intros Hw. apply keeps_bind; [apply Hcs|intros _]. apply keeps_bind; [by apply keeps_tx|intros r].
  apply keeps_bind; [apply keeps_if; [apply keeps_rx_loop|apply keeps_ret]|intros p].
  apply keeps_bind; [apply Hcs|intros _; apply keeps_ret].
Qed.

Lemma keeps_load_page page :
  writes P SN SN_WDATA (Z.lor (Z.shiftl 0x13 24) page) ->
  writes P SN SN_WDATA (Z.lor (Z.shiftl 0x0f 24) (Z.shiftl 0xc0 16)) -> keeps P (sn_load_page page).
Proof.
  intros H1 H2. apply keeps_bind; [apply keeps_get|intros p]. apply keeps_if; [apply keeps_ret|].
  apply keeps_bind; [apply keeps_upd; intros; by apply HP|intros _]. apply keeps_bind; [apply Hcs|intros _].
  apply keeps_bind; [by apply keeps_tx|intros r]. apply keeps_bind; [apply Hcs|intros _].
  apply keeps_if; [|apply keeps_ret]. generalize 200%nat as t.
  induction t as [|t IH]; simpl.
  - apply keeps_bind; [apply keeps_upd, HP|intros _; apply keeps_ret].
  - apply keeps_bind; [by apply keeps_feature|intros q]. repeat apply keeps_if; auto using keeps_ret.
Qed.

Lemma keeps_cache_read column at_ len :
  writes P SN SN_WDATA (Z.lor 0x03000000 (Z.shiftl column 8)) -> keeps P (sn_cache_read column at_ len).
Proof.
  intros Hw. apply keeps_bind; [apply Hcs|intros _]. apply keeps_bind; [by apply keeps_tx|intros r].
  apply keeps_bind; [apply keeps_if; [apply keeps_rx_loop|apply keeps_ret]|intros p].
  apply keeps_bind; [apply keeps_upd; intros; apply HP; [apply length_blit|done]|intros _].
  apply keeps_bind; [apply Hcs|intros _; apply keeps_ret].
Qed.

Lemma keeps_bch_sector s : keeps P (bch_sector s).
Proof.
  unfold bch_sector. apply keeps_bind; [apply keeps_upd; intros; apply HP; [apply length_blit|done]|intros _].
  apply keeps_bind; [apply keeps_get|intros data]. apply keeps_bind; [apply keeps_get|intros tag].
  cbv zeta. apply keeps_if.
  - apply keeps_bind; [apply keeps_upd; intros; apply HP; [by rewrite !length_blit|done]|intros _].
    apply keeps_bind; [apply keeps_upd; intros; by apply HP|intros _; apply keeps_ret].
  - apply keeps_bind; [apply keeps_rd|intros cfg]. do 2 (apply keeps_bind; [by apply Hecc|intros _]).
    apply keeps_bind; [apply keeps_get|intros d]. do 2 (apply keeps_bind; [by apply Hecc|intros _]).
    apply keeps_bind; [apply keeps_upd, HP|intros _]. apply keeps_bind; [by apply Hecc|intros _].
    apply keeps_bind; [apply keeps_poll|intros p].
    apply keeps_bind; [apply keeps_upd; intros; apply HP; [apply bch_dma_length|done]|intros _].
    apply keeps_bind; [apply keeps_upd; intros; by apply HP|intros _].
    repeat apply keeps_if;
      repeat (apply keeps_bind; [apply keeps_upd; intros; apply HP; rewrite ?length_blit; done|intros _]); apply keeps_ret.
Qed.

Lemma keeps_bch : keeps P bch_decode.
Proof.
  unfold bch_decode. generalize 0 as b. generalize false as e. induction (seq 0 4) as [|s l IH]; intros e b; simpl;
    [apply keeps_ret|]. apply keeps_bind; [apply keeps_bch_sector|]. intros [x|[x|]]; auto using keeps_ret.
Qed.

Context (Hfeat : writes P SN SN_WDATA (Z.lor (Z.shiftl 0x0f 24) (Z.shiftl 0xc0 16)))
        (Hcol : forall c, c = 0 \/ c = 2048 -> writes P SN SN_WDATA (Z.lor 0x03000000 (Z.shiftl c 8)))
        (Hload : forall page, 0 <= page < CHIP_PAGES -> writes P SN SN_WDATA (Z.lor (Z.shiftl 0x13 24) page)).

Lemma keeps_sn_page page : 0 <= page < CHIP_PAGES -> keeps P (sn_page page).
Proof.
  intros Hp. apply keeps_bind; [apply keeps_load_page; auto|intros r].
  apply keeps_bind; [apply keeps_if; [apply keeps_cache_read; auto|apply keeps_ret]|intros r'].
  apply keeps_bind; [apply keeps_if; [apply keeps_upd; intros; by apply HP|apply keeps_ret]|intros _; apply keeps_ret].
Qed.

Lemma keeps_read_loop fuel mode avail page off oo dl ol mb ee dat oob :
  0 <= page -> keeps P (read_loop fuel mode avail page off oo dl ol mb ee dat oob).
Proof.
  revert page off oo dl ol mb ee dat oob.
  induction fuel as [|f IH]; intros page off oo dl ol mb ee dat oob Hp; simpl; (apply keeps_if; [apply keeps_ret|]);
    destruct (CHIP_PAGES <=? page) eqn:E; bool_to_prop; try apply keeps_ret.
  apply keeps_bind; [by apply keeps_sn_page|intros r].
  apply keeps_bind.
  - apply keeps_if; [|apply keeps_ret]. case_decide; [|apply keeps_bch].
    apply keeps_bind; [apply keeps_upd; intros; by apply HP|intros _; apply keeps_ret].
  - intros r'. cbv zeta. apply keeps_if; [apply keeps_ret|]. apply keeps_bind; [apply keeps_get|intros b].
    apply IH. lia.
Qed.

Lemma keeps_call c : in_device c -> keeps P (run_call c).
Proof.
  intros Hc. destruct c as [from ops|pos|]; simpl in *; (apply keeps_bind; [|intros _; apply keeps_ret]).
  - unfold nand_read_oob. case_decide; [apply keeps_ret|]. apply keeps_if; [apply keeps_ret|].
    apply keeps_read_loop. apply u32_range.
  - unfold nand_isbad. cbv zeta.
    assert (0 <= u32 (pos / BLOCK_BYTES * 64) < CHIP_PAGES) as Hp.
    { unfold CHIP_BYTES, CHIP_PAGES, BLOCK_BYTES in *.
      assert (0 <= pos / (2048 * 64) < 1024) as Hd
        by (split; [apply Z.div_pos; lia|apply Z.div_lt_upper_bound; lia]).
      rewrite u32_small; unfold is_u32; lia. }
    assert (forall r, keeps P (if 0 <=? r then bind (get marker) (fun m => ret (if m =? 255 then 0 else 1)) else ret r)) as Hv.
    { intros r. apply keeps_if; [|apply keeps_ret]. apply keeps_bind; [apply keeps_get|intros m; apply keeps_ret]. }
    apply keeps_bind; [apply keeps_upd; intros; by apply HP|intros _].
    apply keeps_bind; [apply keeps_load_page; auto|intros r].
    apply keeps_bind; [apply keeps_if; [apply keeps_cache_read; auto|apply keeps_ret]|intros r'].
    apply keeps_bind; [apply keeps_if; [apply keeps_upd; intros; by apply HP|apply keeps_ret]|intros _].
    apply keeps_bind; [apply keeps_get|intros m]. apply keeps_if; [|apply Hv].
    apply keeps_bind; [by apply keeps_sn_page|intros r2].
    apply keeps_bind; [apply keeps_if; [apply keeps_bch|apply keeps_ret]|intros r3].
    apply keeps_if; [apply keeps_ret|apply Hv].
  - apply keeps_ret.
Qed.

Lemma keeps_calls cs : Forall in_device cs -> keeps P (run_calls cs).
Proof.
  induction 1 as [|c cs Hc _ IH]; simpl; [apply keeps_ret|].
  apply keeps_bind; [by apply keeps_call|intros _; apply IH].
Qed.
End Passive.

(** ** Only read commands *)

(** The command byte of a word sent to the chip. *)
Definition opcode (v : Z) : Z := Z.shiftr v 24.
(** READ CACHE, GET FEATURE, PAGE READ and READ ID; the BCH engine is triggered to
    decode only. *)
Definition read_only (w : block * Z * Z) : Prop :=
  match w with
  | (SN, r, v) => r = SN_WDATA -> opcode v ∈ [0x03; 0x0f; 0x13; 0x9f]
  | (ECC, r, v) => r = ECC_TRIG -> v = 0
  end.
Definition quiet_bus (n : nand) : Prop := Forall read_only (bus n).

Lemma quiet_passive : passive quiet_bus.
Proof. by constructor. Qed.

Lemma quiet_write b r v : read_only (b, r, v) -> writes quiet_bus b r v.
Proof. intros Hw n Hn. unfold quiet_bus in *. simpl. by constructor. Qed.

Lemma opcode_lor c x : 0 <= x < 2 ^ 24 -> opcode (Z.lor (Z.shiftl c 24) x) = c.
Proof.
  intros Hx. unfold opcode. rewrite Z.shiftr_lor, Z.shiftr_shiftl_l by lia. simpl. rewrite Z.shiftl_0_r.
  rewrite (Z.shiftr_div_pow2 x) by lia. rewrite Z.div_small by lia. apply Z.lor_0_r.
Qed.

Lemma quiet_page page : 0 <= page < CHIP_PAGES -> writes quiet_bus SN SN_WDATA (Z.lor (Z.shiftl 0x13 24) page).
Proof.
  intros Hp. apply quiet_write. intros _. unfold CHIP_PAGES in *. rewrite opcode_lor by lia. set_solver.
Qed.

Lemma quiet_const r v : (r = SN_WDATA -> opcode v ∈ [0x03; 0x0f; 0x13; 0x9f]) -> writes quiet_bus SN r v.
Proof. intros. by apply quiet_write. Qed.

Lemma elem_by_bool (x : Z) l : existsb (Z.eqb x) l = true -> x ∈ l.
Proof. intros (y & Hy & ->%Z.eqb_eq)%existsb_exists. by apply list_elem_of_In. Qed.

Lemma quiet_calls cs : Forall in_device cs -> keeps quiet_bus (run_calls cs).
Proof.
  apply keeps_calls; [apply quiet_passive|..]; intros; try (by apply quiet_const).
  - by apply quiet_write.
  - apply quiet_const. intros _. by apply elem_by_bool.
  - apply quiet_const. intros _. apply elem_by_bool. destruct H as [-> | ->]; done.
  - by apply quiet_page.
Qed.

Lemma quiet_tx word len : existsb (Z.eqb (opcode word)) [0x03; 0x0f; 0x13; 0x9f] = true -> keeps quiet_bus (sn_tx word len).
Proof.
  intros Hw. apply keeps_tx; [apply quiet_passive|intros; by apply quiet_const|].
  apply quiet_const. intros _. by apply elem_by_bool.
Qed.

Lemma quiet_rx len : keeps quiet_bus (sn_rx len).
Proof. apply keeps_rx_loop; [apply quiet_passive|]. intros. by apply quiet_const. Qed.

(** The driver is read-only on the wire: whatever the controller answers and
    however the MTD layer calls it (with offsets inside the device), from probe on
    the only commands it ever sends to the flash chip are READ ID, GET FEATURE,
    PAGE READ and READ CACHE, and the BCH engine is only told to decode; in
    particular no write enable, program or erase command. *)
Theorem driver_is_read_only k calls n :
  Forall in_device (k_scan k) -> Forall in_device calls -> Forall read_only (bus n) ->
  Forall read_only (bus (snd (bind (phoebus_nand_probe k) (fun _ => run_calls calls) n))).
Proof.
  intros Hscan Hcalls Hn. apply (keeps_bind quiet_bus); [|intros _; by apply quiet_calls|done].
  clear n Hn. unfold phoebus_nand_probe. cbv zeta. apply keeps_if; [apply keeps_ret|].
  apply keeps_bind; [by apply keeps_upd|intros _]. do 2 (apply keeps_if; [apply keeps_ret|]).
  apply keeps_bind; [apply keeps_rd, quiet_passive|intros cfg].
  do 2 (apply keeps_bind; [by apply quiet_const|intros _]).
  apply keeps_bind; [by apply quiet_tx|intros r].
  apply keeps_bind; [apply keeps_if; [apply quiet_rx|apply keeps_ret]|intros p].
  apply keeps_bind; [by apply quiet_const|intros _]. apply keeps_if; [apply keeps_ret|].
  do 2 (apply keeps_bind; [apply keeps_rd, quiet_passive|intros ?]). apply keeps_if; [apply keeps_ret|].
  apply keeps_bind; [|intros q].
  { apply keeps_bind; [by apply quiet_const|intros _]. apply keeps_bind; [by apply quiet_tx|intros r'].
    apply keeps_bind; [apply keeps_if; [apply quiet_rx|apply keeps_ret]|intros p'].
    apply keeps_bind; [by apply quiet_const|intros _; apply keeps_ret]. }
  do 3 (apply keeps_if; [apply keeps_ret|]). destruct (k_dma k) as [[b d]|]; [|apply keeps_ret].
  apply keeps_bind; [by apply keeps_upd|intros _].
  apply keeps_bind; [by apply quiet_calls|intros _]. apply keeps_if; [|apply keeps_ret].
  apply keeps_bind; [apply keeps_get|intros; apply keeps_ret].
Qed.

(** ** After a timeout *)

Lemma poisoned_load page n : poisoned n = true -> sn_load_page page n = (- EIO, n).
Proof. intros Hp. unfold sn_load_page, bind, get. by rewrite Hp. Qed.

Lemma poisoned_page page n : poisoned n = true -> sn_page page n = (- EIO, n).
Proof. intros Hp. unfold sn_page, bind. by rewrite poisoned_load. Qed.

Lemma poisoned_read fuel mode avail page off oo dl ol mb ee dat oob n :
  poisoned n = true -> snd (read_loop fuel mode avail page off oo dl ol mb ee dat oob n) = n.
Proof.
  intros Hp. destruct fuel as [|f]; simpl;
    destruct ((dl =? 0) && (ol =? 0))%nat; try done; destruct (CHIP_PAGES <=? page); try done.
  unfold bind. by rewrite poisoned_page.
Qed.

Lemma poisoned_call c n : poisoned n = true ->
  bus (snd (run_call c n)) = bus n /\ poisoned (snd (run_call c n)) = true.
Proof.
  intros Hp. destruct c as [from ops|pos|]; simpl; [| |done].
  - unfold bind, nand_read_oob. destruct (decide (op_mode ops = MTD_OPS_OTHER)); [done|].
    destruct (negb (op_ooblen ops =? 0) && _)%nat; [done|].
    match goal with |- context [read_loop ?a ?b ?c ?d ?e ?f ?g ?h ?i ?j ?k ?l n] =>
      pose proof (poisoned_read a b c d e f g h i j k l n Hp) as E; destruct (read_loop a b c d e f g h i j k l n) end.
    simpl in *. by subst.
  - unfold nand_isbad, bind, upd. rewrite poisoned_load by done. done.
Qed.

(** A timeout is final: once the driver is poisoned no later call writes any
    register of the controller, so a BCH engine that never finished is not
    started again and no page is loaded over a running transfer. *)
Theorem poisoned_driver_is_silent calls n :
  poisoned n = true ->
  bus (snd (run_calls calls n)) = bus n /\ poisoned (snd (run_calls calls n)) = true.
Proof.
  revert n. induction calls as [|c cs IH]; intros n Hp; [done|]. simpl. unfold bind.
  destruct (poisoned_call c n Hp) as [Hb Hp']. destruct (run_call c n) as [x n']. simpl in *.
  destruct (IH n' Hp') as [Hb2 Hp2]. by rewrite <- Hb.
Qed.

(** ** The caller's buffers *)

Definition buf_ok (n : nand) : Prop := length (buf n) = BUF_BYTES.

Lemma buf_ok_passive : passive buf_ok.
Proof. constructor; try done. unfold buf_ok. simpl. congruence. Qed.

Lemma buf_ok_write b r v : writes buf_ok b r v.
Proof. by intros n. Qed.

Lemma buf_ok_page page : 0 <= page < CHIP_PAGES -> keeps buf_ok (sn_page page).
Proof. apply keeps_sn_page; intros; try apply buf_ok_write. apply buf_ok_passive. Qed.

Lemma buf_ok_bch : keeps buf_ok bch_decode.
Proof. apply keeps_bch; intros; try apply buf_ok_write. apply buf_ok_passive. Qed.

(** The calls the MTD layer makes keep the size of the buffer. *)
Lemma buf_ok_calls cs : Forall in_device cs -> keeps buf_ok (run_calls cs).
Proof. apply keeps_calls; intros; try apply buf_ok_write. apply buf_ok_passive. Qed.

(** What a probe leaves behind, for every way it can end. *)
Definition settled (o : probe_out) (n : nand) : Prop :=
  (fate o = Freed -> poisoned n = false) /\ (fate o = Retained -> poisoned n = true) /\
  (probe_ret o = 0 -> fate o = InUse /\ length (buf n) = BUF_BYTES).
Definition settles (m : D probe_out) : Prop := forall n, settled (fst (m n)) (snd (m n)).

Lemma settles_bind {A} (m : D A) k : (forall x, settles (k x)) -> settles (bind m k).
Proof. intros Hk n. unfold bind. destruct (m n) as [x n']. apply Hk. Qed.
Lemma settles_if (b : bool) m1 m2 : (b = true -> settles m1) -> (b = false -> settles m2) -> settles (if b then m1 else m2).
Proof. intros. destruct b; auto. Qed.
Lemma settles_fail r : r <> 0 -> settles (ret (ProbeOut r NotAllocated)).
Proof. intros Hr n. by split_and!. Qed.
Lemma settles_failed x : negb (x =? 0) = true -> settles (ret (ProbeOut x NotAllocated)).
Proof. intros. bool_to_prop. by apply settles_fail. Qed.

(** The DMA buffer's life: the probe gives it back only when registration
    failed without a timeout (after one it is kept, since the engine may still
    write it), and a probe that succeeds leaves a driver with its whole buffer. *)
Theorem probe_settles_dma_buffer k n :
  Forall in_device (k_scan k) -> (forall b d, k_dma k = Some (b, d) -> length b = BUF_BYTES) ->
  let out := phoebus_nand_probe k n in
  (fate (fst out) = Freed -> poisoned (snd out) = false) /\
  (fate (fst out) = Retained -> poisoned (snd out) = true) /\
  (probe_ret (fst out) = 0 -> fate (fst out) = InUse /\ length (buf (snd out)) = BUF_BYTES).
Proof.
  intros Hscan Hb. revert n. change (settles (phoebus_nand_probe k)). unfold phoebus_nand_probe. cbv zeta.
  apply settles_if; intros _; [by apply settles_fail|]. apply settles_bind; intros _.
  do 2 (apply settles_if; intros ?; [by apply settles_failed|]).
  do 6 (apply settles_bind; intros ?). apply settles_if; intros ?; [by apply settles_failed|].
  do 2 (apply settles_bind; intros ?). apply settles_if; intros _; [by apply settles_fail|].
  apply settles_bind; intros ?. apply settles_if; intros ?; [by apply settles_failed|].
  apply settles_if; intros _; [by apply settles_fail|]. apply settles_if; intros ?; [by apply settles_failed|].
  destruct (k_dma k) as [[b d]|]; [|by apply settles_fail]. intros n. specialize (Hb b d eq_refl).
  unfold bind, upd. pose proof (buf_ok_calls _ Hscan (set_dma b d n) Hb) as Hk.
  destruct (run_calls (k_scan k) (set_dma b d n)) as [u n']. simpl in Hk.
  destruct (k_register k =? 0) eqn:Er; bool_to_prop; simpl; [by split_and!|].
  destruct (poisoned n') eqn:Ep; by split_and!.
Qed.

(** A result that reports data: a count of corrected bits, or an ECC error. *)
Definition delivers (r : Z) : Prop := 0 <= r \/ r = - EBADMSG.

Lemma PAGE_BYTES_eq : PAGE_BYTES = 2048%nat.
Proof. reflexivity. Qed.
Lemma BUF_BYTES_eq : BUF_BYTES = 4096%nat.
Proof. reflexivity. Qed.
#[local] Opaque PAGE_BYTES BUF_BYTES.

Lemma read_loop_complete fuel mode avail page off oo dl ol mb ee dat oob n :
  buf_ok n -> 0 <= page -> (CHIP_PAGES <= page + Z.of_nat fuel) -> (off < 2048)%nat -> (avail <= 64)%nat ->
  (oo < avail)%nat \/ ol = 0%nat -> 0 <= mb ->
  let o := fst (read_loop fuel mode avail page off oo dl ol mb ee dat oob n) in
  (length (datbuf o) <= length dat + dl)%nat /\ (length (oobbuf o) <= length oob + ol)%nat /\
  (delivers (rd_ret o) -> length (datbuf o) = (length dat + dl)%nat /\ length (oobbuf o) = (length oob + ol)%nat).
Proof.
  revert page off oo dl ol mb ee dat oob n.
  induction fuel as [|f IH]; intros page off oo dl ol mb ee dat oob n Hn Hp Hf Hoff Ha Ho Hmb; simpl;
    (destruct ((dl =? 0) && (ol =? 0))%nat eqn:Ed;
     [apply andb_true_iff in Ed as [E1%Nat.eqb_eq E2%Nat.eqb_eq]; simpl; split_and!; [lia|lia|intros _; lia]|]);
    (destruct (CHIP_PAGES <=? page) eqn:Ec; bool_to_prop;
     [simpl; split_and!; [lia|lia|intros [Hd|Hd]; unfold EINVAL, EBADMSG in Hd; simpl in Hd; lia]|]).
  { lia. }
  unfold bind. pose proof (buf_ok_page page ltac:(lia) n Hn) as Hn1. destruct (sn_page page n) as [r n1]. simpl in Hn1.
  match goal with |- context [let '(_, _) := ?m n1 in _] => assert (keeps buf_ok m) as Hk end.
  { apply keeps_if; [|apply keeps_ret]. case_decide; [|apply buf_ok_bch]. by intros ?. }
  specialize (Hk n1 Hn1). match goal with |- context [let '(_, _) := ?m n1 in _] => destruct (m n1) as [r2 n2] end.
  simpl in Hk.
  destruct ((if r2 =? - EBADMSG then 0 else r2) <? 0) eqn:Er; simpl.
  - split; [lia|]. split; [lia|]. intros Hd. exfalso. unfold delivers in Hd.
    destruct (r2 =? - EBADMSG) eqn:E; bool_to_prop; [lia|]. lia.
  - unfold get. bool_to_prop.
    match goal with |- context [read_loop f ?a ?b ?c ?d ?e ?g ?h ?i ?j ?k ?l n2] =>
      specialize (IH c d e g h i j k l n2 Hk) end.
    destruct IH as (H1 & H2 & H3); [lia|lia|lia|lia| |destruct (r2 =? - EBADMSG); lia|].
    { destruct Ho; [left|right]; lia. }
    unfold buf_ok in Hk. pose proof PAGE_BYTES_eq as HP. pose proof BUF_BYTES_eq as HB.
    set (ch := Nat.min dl (PAGE_BYTES - off)) in *. set (oc := Nat.min ol (avail - oo)) in *.
    match type of H2 with context [length (_ ++ slice ?a oc _)] => set (at_ := a) in * end.
    assert (at_ <= 2050 + oo)%nat as Hat by (unfold at_; case_decide; lia). clearbody at_.
    assert (length (slice off ch (buf n2)) = ch) as L1 by (apply length_slice; lia).
    assert (length (slice at_ oc (buf n2)) = oc) as L2.
    { destruct Ho as [Ho|Ho]; [apply length_slice; lia|].
      assert (oc = 0%nat) as -> by lia. done. }
    rewrite length_app, L1 in H1. rewrite length_app, L2 in H2. rewrite !length_app, L1, L2 in H3.
    split; [lia|]. split; [destruct Ho; lia|]. intros Hd. destruct (H3 Hd). destruct Ho; lia.
Qed.

(** A read never hands back more than was asked for, reads only inside the
    driver's own buffer, and when it reports data (corrected or with an ECC error)
    it has filled both buffers completely. *)
Theorem read_fills_buffers_exactly from ops n :
  length (buf n) = BUF_BYTES ->
  let o := fst (nand_read_oob from ops n) in
  (length (datbuf o) <= op_len ops)%nat /\ (length (oobbuf o) <= op_ooblen ops)%nat /\
  (0 <= rd_ret o \/ rd_ret o = - EBADMSG ->
   length (datbuf o) = op_len ops /\ length (oobbuf o) = op_ooblen ops).
Proof.
  intros Hn. unfold nand_read_oob. destruct (decide (op_mode ops = MTD_OPS_OTHER)).
  { simpl. split_and!; [lia|lia|]. intros [Hd|Hd]; unfold EINVAL, EBADMSG in Hd; lia. }
  set (avail := if decide (op_mode ops = MTD_OPS_AUTO_OOB) then 20%nat else OOB_BYTES).
  destruct (negb (op_ooblen ops =? 0) && (avail <=? op_ooboffs ops))%nat eqn:Eo.
  { simpl. split_and!; [lia|lia|]. intros [Hd|Hd]; unfold EINVAL, EBADMSG in Hd; lia. }
  apply (read_loop_complete (Z.to_nat CHIP_PAGES) (op_mode ops) avail (u32 (from / 2048))
    (Z.to_nat (from mod 2048)) (op_ooboffs ops) (op_len ops) (op_ooblen ops) 0 false [] [] n Hn).
  - apply u32_range.
  - pose proof (u32_range (from / 2048)). unfold is_u32, CHIP_PAGES in *. lia.
  - pose proof (Z.mod_pos_bound from 2048). lia.
  - unfold avail, OOB_BYTES. case_decide; lia.
  - apply andb_false_iff in Eo as [Eo|Eo]; [right; apply negb_false_iff in Eo; by apply Nat.eqb_eq|].
    left. by apply Nat.leb_gt.
  - lia.
Qed.

(** ** Results of the BCH engine *)

Lemma poll_result fuel cond b r n :
  fst (fst (read_poll fuel cond b r n)) = 0 \/ fst (fst (read_poll fuel cond b r n)) = - ETIMEDOUT.
Proof.
  revert n. induction fuel as [|f IH]; intros n; simpl; unfold bind; destruct (rd b r n) as [v n'];
    destruct (cond v); simpl; auto.
Qed.

(** One sector: a timeout leaves the driver poisoned, a corrected sector has at
    most six flipped bits. *)
Lemma bch_sector_result s n :
  let '(r, n') := bch_sector s n in
  match r with
  | inl e => e = - ETIMEDOUT /\ poisoned n' = true
  | inr None => True
  | inr (Some b) => 0 <= b <= 6
  end.
Proof.
  unfold bch_sector. unfold bind at 1, upd at 1. unfold bind at 1, get at 1. unfold bind at 1, get at 1. cbv zeta.
  match goal with |- context [erased_sector ?d ?t] => set (r := erased_sector d t) end.
  destruct (0 <=? r) eqn:Er; bool_to_prop.
  - simpl. unfold r, erased_sector in *. destruct (_ <=? 4)%nat eqn:E4; [|lia]. apply Nat.leb_le in E4. lia.
  - unfold bind, upd, get, wr, ret. destruct (rd ECC ECC_CFG _) as [cfg n1].
    match goal with |- context [read_poll ?a ?b ?c ?d ?m] =>
      pose proof (poll_result a b c d m) as Hp; destruct (read_poll a b c d m) as [[e status] n2] end.
    simpl in Hp. cbn [fst snd]. destruct (e =? 0) eqn:Ee; cbn [negb]; bool_to_prop.
    + destruct (bit status 8); [done|]. destruct (6 <? Z.land (Z.shiftr status 12) 255) eqn:E6; bool_to_prop; [done|].
      simpl. split; [apply Z.land_nonneg; lia|lia].
    + destruct Hp as [Hp|Hp]; [lia|]. cbn. split; [exact Hp|reflexivity].
Qed.

Lemma bch_loop_results l mb ee n : 0 <= mb <= 6 ->
  let out := bch_loop l mb ee n in
  0 <= fst out <= 6 \/ fst out = - EBADMSG \/ (fst out = - ETIMEDOUT /\ poisoned (snd out) = true).
Proof.
  revert mb ee n. induction l as [|s l IH]; intros mb ee n Hmb; simpl; [destruct ee; simpl; auto|].
  unfold bind. pose proof (bch_sector_result s n) as Hs. destruct (bch_sector s n) as [[e|[b|]] n1].
  - right. right. done.
  - apply IH. lia.
  - by apply IH.
Qed.

Lemma bch_results n : let out := bch_decode n in
  0 <= fst out <= 6 \/ fst out = - EBADMSG \/ (fst out = - ETIMEDOUT /\ poisoned (snd out) = true).
Proof. apply bch_loop_results. lia. Qed.

(** ** Errors leave the driver poisoned *)

(** A routine whose result [f] is 0 or an error after which the driver is poisoned. *)
Definition dead_error (r : Z) (n : nand) : Prop := (r = - EIO \/ r = - ETIMEDOUT) /\ poisoned n = true.
Definition errs {A} (f : A -> Z) (m : D A) : Prop :=
  forall n, f (fst (m n)) = 0 \/ dead_error (f (fst (m n))) (snd (m n)).

Lemma errs_bind {A B} (f : B -> Z) (m : D A) k : (forall x, errs f (k x)) -> errs f (bind m k).
Proof. intros Hk n. unfold bind. destruct (m n) as [x n']. apply Hk. Qed.
Lemma errs_ret {A} (f : A -> Z) x : f x = 0 -> errs f (ret x).
Proof. intros Hx n. by left. Qed.
(** The usual shape: stop at the first error. *)
Lemma errs_seq {A B} (f : A -> Z) (g : B -> Z) (m : D A) k e :
  errs f m -> (forall x, errs g (k x)) -> (forall x, g (e x) = f x) ->
  errs g (bind m (fun x => if f x =? 0 then k x else ret (e x))).
Proof.
  intros Hm Hk He n. unfold bind. specialize (Hm n). destruct (m n) as [x n']. simpl in Hm.
  destruct (f x =? 0) eqn:E; bool_to_prop; [apply Hk|]. simpl. rewrite He.
  destruct Hm; [done|by right].
Qed.
(** A routine after it that keeps the poison and the result. *)
Lemma errs_after {A B} (f : A -> Z) (g : B -> Z) (m : D A) k :
  errs f m -> (forall x, keeps (fun n => poisoned n = true) (k x)) -> (forall x n, g (fst (k x n)) = f x) ->
  errs g (bind m k).
Proof.
  intros Hm Hk He n. unfold bind. specialize (Hm n). destruct (m n) as [x n']. simpl in Hm. rewrite He.
  destruct Hm as [Hm|[Hr Hp]]; [by left|right]. split; [done|by apply Hk].
Qed.

Lemma errs_wait : errs id sn_wait.
Proof.
  intros n. unfold sn_wait, bind. pose proof (poll_result poll_reads (fun v => negb (bit v 3)) SN SN_STATUS n) as Hp.
  destruct (read_poll _ _ _ _ n) as [p n1]. simpl in Hp. destruct (fst p =? 0) eqn:E; bool_to_prop; simpl; [by left|].
  right. destruct Hp as [Hp|Hp]; [done|]. split; [by right|done].
Qed.

Lemma errs_tx word len : errs id (sn_tx word len).
Proof.
  apply (errs_seq id id sn_wait _ id); [apply errs_wait|intros r|done].
  do 2 (apply errs_bind; intros _). apply errs_wait.
Qed.

Lemma errs_rx_loop fuel len acc : errs fst (sn_rx_loop fuel len acc).
Proof.
  revert len acc. induction fuel as [|f IH]; intros [|len] acc; cbn [sn_rx_loop]; try by apply errs_ret.
  apply errs_bind; intros _. apply (errs_seq id fst sn_wait _ (fun r => (r, acc))); [apply errs_wait|intros r|done].
  apply errs_bind; intros w. apply IH.
Qed.

(** A command and the bytes it answers with, the shape of both transfers. *)
Lemma errs_tx_rx word wlen len :
  errs fst (bind (sn_tx word wlen) (fun r => if r =? 0 then sn_rx len else ret (r, []))).
Proof. apply (errs_seq id fst _ _ (fun r => (r, []))); [apply errs_tx|intros r; apply errs_rx_loop|done]. Qed.

Lemma bind_assoc {A B C} (m : D A) (k : A -> D B) (l : B -> D C) n :
  bind (bind m k) l n = bind m (fun x => bind (k x) l) n.
Proof. unfold bind. by destruct (m n). Qed.

Lemma errs_feature addr : errs fst (sn_feature addr).
Proof.
  unfold sn_feature. apply errs_bind; intros _.
  intros n. rewrite <- bind_assoc. revert n.
  refine (errs_after fst fst _ _ _ _ _); [apply errs_tx_rx|intros p m Hm; exact Hm|reflexivity].
Qed.

Lemma errs_cache_read column at_ len : errs id (sn_cache_read column at_ len).
Proof.
  unfold sn_cache_read. apply errs_bind; intros _.
  intros n. rewrite <- bind_assoc. revert n.
  refine (errs_after fst id _ _ _ _ _); [apply errs_tx_rx|intros p m Hm; exact Hm|reflexivity].
Qed.

Lemma errs_load_poll t : errs id (load_poll t).
Proof.
  induction t as [|t IH]; cbn [load_poll]; [intros n; right; split; [by right|done]|].
  apply (errs_seq fst id _ _ fst); [apply errs_feature|intros p|done].
  destruct (bit (snd p) 0); [apply IH|by apply errs_ret].
Qed.

Lemma errs_load_page page : errs id (sn_load_page page).
Proof.
  set (body := bind (upd (set_last_page page)) (fun _ => bind (wr SN SN_CS 0) (fun _ =>
    bind (sn_tx (Z.lor (Z.shiftl 0x13 24) page) 4) (fun r =>
    bind (wr SN SN_CS 1) (fun _ => if r =? 0 then load_poll 200 else ret r))))).
  assert (errs id body) as Hbody.
  { do 2 (apply errs_bind; intros _). intros n. pose proof (errs_tx (Z.lor (Z.shiftl 0x13 24) page) 4 n) as Ht.
    unfold bind. destruct (sn_tx _ _ n) as [r n1]. unfold wr. simpl in Ht.
    destruct (r =? 0) eqn:Er; bool_to_prop; [apply errs_load_poll|]. destruct Ht as [Ht|[Ht Hp]]; [done|by right]. }
  intros n. destruct (poisoned n) eqn:E; [right; rewrite poisoned_load by done; split; [by left|done]|].
  replace (sn_load_page page n) with (body n); [apply Hbody|].
  unfold sn_load_page. unfold bind at 1, get. by rewrite E.
Qed.

Lemma errs_page page : errs id (sn_page page).
Proof.
  unfold sn_page. intros n. rewrite <- bind_assoc. revert n. refine (errs_after id id _ _ _ _ _); [|intros x n Hn; unfold bind; by destruct (x =? 0)|].
  - apply (errs_seq id id _ _ id); [apply errs_load_page|intros r; apply errs_cache_read|done].
  - intros x n. unfold bind. by destruct (x =? 0).
Qed.

(** A bad-block verdict: good with a clean marker in the buffer, bad, or an error
    with a poisoned driver. *)
Definition verdict_ok (out : Z * nand) : Prop :=
  (fst out = 0 /\ marker (snd out) = 0xff) \/ fst out = 1 \/ dead_error (fst out) (snd out).

Lemma verdict_sound r n : 0 <= r \/ dead_error r n ->
  verdict_ok ((if 0 <=? r then bind (get marker) (fun m => ret (if m =? 0xff then 0 else 1)) else ret r) n).
Proof.
  intros Hr. unfold verdict_ok. destruct (0 <=? r) eqn:E; bool_to_prop; simpl.
  - destruct (marker n =? 0xff) eqn:Em; bool_to_prop; auto.
  - right. right. destruct Hr; [lia|done].
Qed.

(** The two page accesses of [nand_isbad]. *)
Lemma marker_step page n : exists r n',
  (r = 0 \/ dead_error r n') /\
  bind (sn_load_page page)
    (fun r => if r =? 0 then sn_cache_read (Z.of_nat PAGE_BYTES) PAGE_BYTES 1 else ret r) n = (r, n').
Proof.
  pose proof (errs_seq id id (sn_load_page page) (fun _ => sn_cache_read (Z.of_nat PAGE_BYTES) PAGE_BYTES 1) id
    (errs_load_page page) (fun _ => errs_cache_read _ _ _) (fun _ => eq_refl) n) as H1.
  match type of H1 with context [fst ?x] => exists (fst x), (snd x) end. split; [exact H1|apply surjective_pairing].
Qed.

Lemma decode_step page n : exists r n',
  (0 <= r \/ r = - EBADMSG \/ dead_error r n') /\
  bind (sn_page page) (fun r => if r =? 0 then bch_decode else ret r) n = (r, n').
Proof.
  pose proof (errs_page page n) as Hp. unfold bind. destruct (sn_page page n) as [r n1]. simpl in Hp.
  destruct (r =? 0) eqn:Er; bool_to_prop.
  - pose proof (bch_results n1) as Hb. destruct (bch_decode n1) as [r2 n2]. exists r2, n2. split; [|done].
    simpl in Hb. destruct Hb as [Hb|[Hb|[Hb Hd]]]; [left; lia|by right; left|].
    right. right. split; [by right|done].
  - exists r, n1. split; [|done]. destruct Hp; [done|by right; right].
Qed.

(** The bad-block test errs on the safe side: it calls a block good only when
    the marker byte it holds, from the block's first page and corrected if it was
    not clean, is 0xff; a page that cannot be decoded makes the block bad; and the
    only errors it returns are those after which the driver is poisoned. *)
Theorem isbad_is_conservative pos n :
  let out := nand_isbad pos n in
  (fst out = 0 /\ marker (snd out) = 0xff) \/ fst out = 1 \/
  ((fst out = - EIO \/ fst out = - ETIMEDOUT) /\ poisoned (snd out) = true).
Proof.
  change (verdict_ok (nand_isbad pos n)).
  unfold nand_isbad. cbv zeta. unfold bind at 1, upd at 1. set (n0 := count_marker 1 0 n). set (page := u32 _).
  destruct (marker_step page n0) as (r & n1 & H1 & E1). rewrite <- bind_assoc. unfold bind at 1. rewrite E1.
  unfold bind at 1. destruct (r =? 0) eqn:Er; bool_to_prop; cbn [upd ret fst snd].
  - subst r. set (n2 := count_marker 0 1 n1). unfold bind at 1, get at 1. rewrite andb_true_l.
    destruct (negb (marker n2 =? 0xff)); [|apply verdict_sound; left; lia].
    destruct (decode_step page n2) as (r & n3 & H3 & E3). rewrite <- bind_assoc. unfold bind at 1. rewrite E3.
    destruct (r =? - EBADMSG) eqn:Eb; bool_to_prop; [right; by left|]. apply verdict_sound.
    destruct H3 as [H3|[H3|H3]]; [by left|done|by right].
  - unfold bind at 1, get at 1. rewrite andb_false_l. apply verdict_sound. destruct H1 as [H1|H1]; auto. lia.
Qed.

End Generic.

(** ** Partitions *)

Definition part_has (a : Z) (p : mtd_partition) : bool := (part_offset p <=? a) && (a <? part_offset p + part_size p).

(** The partition table cuts the chip into disjoint, block-aligned pieces
    without gaps, every one of them masked read-only: each byte offset of the
    device is in exactly one partition. *)
Theorem partitions_tile_the_chip :
  (forall a, 0 <= a < CHIP_BYTES -> length (List.filter (part_has a) stock_parts) = 1%nat) /\
  Forall (fun p => part_masked p = true /\ part_offset p mod BLOCK_BYTES = 0 /\ part_size p mod BLOCK_BYTES = 0)
    stock_parts.
Proof.
  split; [|repeat constructor]. intros a Ha. unfold stock_parts, CHIP_BYTES, SZ_1M, SZ_4M, SZ_8M in *.
  cbn [List.filter]. unfold part_has. cbn [part_offset part_size].
  repeat match goal with |- context [(?x <=? a) && (a <? ?y)] =>
    destruct (x <=? a) eqn:?, (a <? y) eqn:?; cbn [andb]; bool_to_prop; try lia end; reflexivity.
Qed.
