(* ===== verification/SpiNandFlash.v ===== *)
(** * SpiNandFlash: raw reads return the flash contents

    The interface [FlashChip] says what the driver's page read promises over a
    working chip; against it the raw read of any range is proved to return the
    bytes of the flash array.  A simulated controller with a chip behind it, down
    to command words and receive registers, discharges the interface. *)
From S2P Require Import Prelude SpiNand SpiNandSpec.

(** The byte stream of a flash array of pages. *)
Definition flash_byte (flash : Z -> list Z) (a : Z) : Z :=
  default 0 (flash (a / 2048) !! Z.to_nat (a mod 2048)).
Definition image (flash : Z -> list Z) (from : Z) (len : nat) : list Z :=
  (fun i => flash_byte flash (from + Z.of_nat i)) <$> seq 0 len.

(** What a page read promises: from a ready state it succeeds, the state is ready
    again, and the page with its spare area is in the buffer. *)
Class FlashChip (ctl : Controller) := {
  flash : Z -> list Z;
  ready : nand -> Prop;
  flash_length p : length (flash p) = 2112%nat;
  ready_count n b : ready n -> ready (count_page b n);
  page_read n p : ready n -> 0 <= p < CHIP_PAGES ->
    exists n', sn_page p n = (0, n') /\ ready n' /\ take 2112 (buf n') = flash p
}.

Section Raw.
Context {ctl : Controller} {fc : FlashChip ctl}.

Lemma image_app from a b : image flash from (a + b) = image flash from a ++ image flash (from + Z.of_nat a) b.
Proof.
  unfold image. rewrite seq_app, fmap_app. f_equal. simpl.
  replace (seq a b) with ((fun i => (a + i)%nat) <$> seq 0 b).
  - rewrite <- list_fmap_compose. apply list_fmap_ext. intros i x _. unfold compose. f_equal. lia.
  - apply list_eq. intros i. rewrite list_lookup_fmap. destruct (decide (i < b)%nat).
    + rewrite !lookup_seq_lt by done. done.
    + rewrite !lookup_seq_ge by lia. done.
Qed.

Lemma image_slice page off k b :
  take 2112 b = flash page -> (off + k <= 2048)%nat -> 0 <= page ->
  slice off k b = image flash (page * 2048 + Z.of_nat off) k.
Proof.
  intros Hb Hk Hp. pose proof (flash_length page) as Hl. apply list_eq. intros i. unfold image.
  rewrite list_lookup_fmap. destruct (decide (i < k)%nat) as [Hi|Hi].
  - rewrite lookup_slice, lookup_seq_lt by done. simpl. unfold flash_byte.
    replace (page * 2048 + Z.of_nat off + Z.of_nat i) with (Z.of_nat (off + i) + page * 2048) by lia.
    rewrite Z.div_add, Z.mod_add by lia. rewrite Z.div_small, Z.mod_small by lia.
    rewrite Z.add_0_l, Nat2Z.id, <- Hb.
    rewrite lookup_take_lt by lia. assert (is_Some (flash page !! (off + i)%nat)) as [x Hx]
      by (apply lookup_lt_is_Some; lia).
    rewrite <- Hb in Hx. rewrite lookup_take_lt in Hx by lia. by rewrite Hx.
  - rewrite (lookup_ge_None_2 (seq 0 k)) by (rewrite length_seq; lia).
    apply lookup_ge_None_2. unfold slice. rewrite length_take. lia.
Qed.

#[local] Opaque PAGE_BYTES.

Lemma raw_loop fuel page off dl dat n :
  ready n -> 0 <= page -> (off < 2048)%nat -> CHIP_PAGES <= page + Z.of_nat fuel ->
  page * 2048 + Z.of_nat off + Z.of_nat dl <= CHIP_BYTES ->
  fst (read_loop fuel MTD_OPS_RAW OOB_BYTES page off 0 dl 0 0 false dat [] n) =
  ReadOut 0 (dat ++ image flash (page * 2048 + Z.of_nat off) dl) [].
Proof.
  revert page off dl dat n. induction fuel as [|f IH]; intros page off dl dat n Hr Hp Hoff Hf Hb; cbn [read_loop];
    (destruct (dl =? 0)%nat eqn:Ed; [apply Nat.eqb_eq in Ed as ->; cbn; by rewrite app_nil_r|]);
    apply Nat.eqb_neq in Ed; cbn [andb];
    (destruct (CHIP_PAGES <=? page) eqn:Ec; bool_to_prop; [unfold CHIP_BYTES, CHIP_PAGES in *; lia|]); [lia|].
  destruct (page_read n page Hr ltac:(lia)) as (n1 & E1 & Hr1 & Hbuf).
  unfold bind at 1. rewrite E1. rewrite Z.eqb_refl. destruct (decide (MTD_OPS_RAW = MTD_OPS_RAW)); [|done].
  unfold bind, upd, ret, get. change (0 =? - EBADMSG) with false. cbn [Z.ltb Z.compare orb Z.max].
  change (buf (count_page true n1)) with (buf n1).
  pose proof PAGE_BYTES_eq as HP. set (ch := Nat.min dl (PAGE_BYTES - off)).
  replace (0 - Nat.min 0 (OOB_BYTES - 0))%nat with 0%nat by done.
  match goal with |- context [[] ++ slice ?a ?b (buf n1)] => change ([] ++ slice a b (buf n1)) with (@nil Z) end.
  rewrite IH; [|by apply ready_count|lia|lia|lia|].
  2:{ destruct (decide (dl - ch = 0)%nat) as [->|Hne]; [unfold CHIP_BYTES, CHIP_PAGES in *; lia|lia]. }
  rewrite (image_slice page) by (done || lia). f_equal. rewrite <- app_assoc. f_equal.
  replace dl with (ch + (dl - ch))%nat at 2 by lia. rewrite image_app. f_equal.
  destruct (decide (dl - ch = 0)%nat) as [->|Hne]; [done|]. f_equal. lia.
Qed.

(** A raw read of any range inside the device returns exactly the bytes of the
    flash array at that range, across page boundaries. *)
Theorem raw_read_returns_flash n from len :
  ready n -> 0 <= from -> from + Z.of_nat len <= CHIP_BYTES ->
  fst (nand_read_oob from (OobOps MTD_OPS_RAW len 0 0) n) = ReadOut 0 (image flash from len) [].
Proof.
  intros Hr H1 H2. unfold nand_read_oob. cbn [op_mode op_len op_ooblen op_ooboffs].
  destruct (decide (MTD_OPS_RAW = MTD_OPS_OTHER)); [done|].
  destruct (decide (MTD_OPS_RAW = MTD_OPS_AUTO_OOB)); [done|]. cbn [negb andb Nat.eqb].
  pose proof (Z.div_mod from 2048 ltac:(lia)) as Hdm. pose proof (Z.mod_pos_bound from 2048 ltac:(lia)) as Hm.
  assert (u32 (from / 2048) = from / 2048) as ->.
  { apply u32_small. unfold is_u32, CHIP_BYTES in *. split; [apply Z.div_pos; lia|apply Z.div_lt_upper_bound; lia]. }
  assert (0 <= from / 2048) by (apply Z.div_pos; lia).
  rewrite raw_loop; [|done|done|lia|unfold CHIP_PAGES; lia|rewrite Z2Nat.id by lia; lia].
  simpl. f_equal. f_equal. rewrite Z2Nat.id by lia. lia.
Qed.
End Raw.

(** ** A simulated controller and chip *)

Record sim := Sim { s_cache : list Z; s_queue : list Z; s_word : Z }.

(** Four bytes of the queue, most significant first. *)
Definition pack (q : list Z) : Z :=
  default 0 (q !! 0%nat) * 2 ^ 24 + default 0 (q !! 1%nat) * 2 ^ 16 + default 0 (q !! 2%nat) * 2 ^ 8 + default 0 (q !! 3%nat).

Section Sim.
Context (flash0 : Z -> list Z).

(** PAGE READ fills the cache, READ CACHE queues it from a column, GET FEATURE
    answers ready, READ ID the stock chip; a receive command takes bytes off the
    queue. *)
Definition sim_write (b : block) (r v : Z) (s : sim) : sim :=
  match b with
  | ECC => s
  | SN =>
      if r =? SN_WDATA then
        let op := Z.shiftr v 24 in
        if op =? 0x13 then Sim (flash0 (Z.land v 0xffff)) [] (s_word s)
        else if op =? 0x03 then Sim (s_cache s) (drop (Z.to_nat (Z.land (Z.shiftr v 8) 0xffff)) (s_cache s)) (s_word s)
        else if op =? 0x0f then Sim (s_cache s) [0] (s_word s)
        else Sim (s_cache s) [0xc8; 0x01; 0x7f] (s_word s)
      else if r =? SN_RCMD then
        Sim (s_cache s) (drop (Z.to_nat (v + 1)) (s_queue s)) (pack (take (Z.to_nat (v + 1)) (s_queue s)))
      else s
  end.
Definition sim_read (b : block) (r : Z) (s : sim) : Z * sim :=
  match b with
  | SN => if r =? SN_RDATA then (u32 (s_word s), s) else (0, s)
  | ECC => (0, s)
  end.

Lemma sim_read_u32 b r s : is_u32 (fst (sim_read b r s)).
Proof. unfold sim_read. destruct b; [case_match|]; simpl; auto with phoebus; by_compute. Qed.

Definition sim_controller : Controller := {|
  hw := sim; reg_read := sim_read; reg_write := sim_write; poll_reads := 3;
  bch_dma := fun _ l => l; reg_read_u32 := sim_read_u32; bch_dma_length := fun _ _ => eq_refl
|}.
#[local] Existing Instance sim_controller.
#[local] Opaque PAGE_BYTES OOB_BYTES.

Lemma set_hw_id (n : nand) : set_hw (chip n) (bus n) n = n.
Proof. by destruct n. Qed.

Lemma sim_wait (n : nand) : sn_wait n = (0, n).
Proof. unfold sn_wait, bind, rd, upd, ret. simpl. unfold bind, rd, ret. simpl. by rewrite set_hw_id. Qed.

(** The parts of the driver state a transfer leaves alone. *)
Definition same_rest (n n' : nand) : Prop :=
  buf n' = buf n /\ poisoned n' = poisoned n.

Lemma sim_tx word len (n : nand) : exists n',
  sn_tx word len n = (0, n') /\ same_rest n n' /\ chip n' = sim_write SN SN_WDATA word (chip n).
Proof.
  eexists. unfold sn_tx. unfold bind at 1. rewrite sim_wait, Z.eqb_refl. unfold bind, wr. rewrite sim_wait.
  split; [reflexivity|]. done.
Qed.

Lemma word_byte_pack (q : list Z) i x : Forall is_u8 q -> q !! i = Some x -> (i < 4)%nat -> word_byte (u32 (pack q)) i = x.
Proof.
  intros Hq Hx Hi.
  assert (forall j, is_u8 (default 0 (q !! j))) as Hb.
  { intros j. destruct (q !! j) as [y|] eqn:E; simpl; [|by_compute]. rewrite Forall_lookup in Hq. by eapply Hq. }
  pose proof (Hb 0%nat) as B0. pose proof (Hb 1%nat) as B1. pose proof (Hb 2%nat) as B2. pose proof (Hb 3%nat) as B3.
  unfold word_byte, pack, u8, is_u8 in *. rewrite u32_small by (unfold is_u32; lia).
  rewrite Z.shiftr_div_pow2 by lia.
  destruct i as [|[|[|[|i]]]]; [..|lia]; rewrite Hx in *; simpl default in *; simpl Z.of_nat;
    match goal with |- context [2 ^ (24 - ?k)] => let v := eval vm_compute in (2 ^ (24 - k)) in change (2 ^ (24 - k)) with v end;
    Z.div_mod_to_equations; lia.
Qed.

Lemma sim_rx fuel len acc (n : nand) :
  (len <= fuel)%nat -> (len <= length (s_queue (chip n)))%nat -> Forall is_u8 (s_queue (chip n)) ->
  exists n', sn_rx_loop fuel len acc n = ((0, acc ++ take len (s_queue (chip n))), n') /\ same_rest n n' /\
             s_cache (chip n') = s_cache (chip n).
Proof.
  revert len acc n. induction fuel as [|f IH]; intros len acc n Hf Hl Hq.
  { assert (len = 0%nat) as -> by lia. exists n. simpl. by rewrite app_nil_r. }
  destruct len as [|len]; [exists n; simpl; by rewrite app_nil_r|].
  cbn [sn_rx_loop]. set (ch := Nat.min (S len) 4).
  assert (1 <= ch <= 4 /\ ch <= S len)%nat as Hch by (unfold ch; lia). clearbody ch.
  unfold bind at 1, wr. unfold bind at 1. rewrite sim_wait. cbn [Z.eqb]. unfold bind, rd.
  set (n1 := set_hw _ _ n).
  assert (chip n1 = Sim (s_cache (chip n)) (drop ch (s_queue (chip n))) (pack (take ch (s_queue (chip n))))) as Ec.
  { simpl. replace (Z.of_nat ch - 1 + 1) with (Z.of_nat ch) by lia. by rewrite Nat2Z.id. }
  change (reg_read SN SN_RDATA (chip n1)) with (u32 (s_word (chip n1)), chip n1). cbv iota beta.
  rewrite set_hw_id.
  destruct (IH (S len - ch)%nat (acc ++ (word_byte (u32 (s_word (chip n1))) <$> seq 0 ch)) n1)
    as (n' & E & [Hb Hp] & Hc); rewrite ?Ec; cbn [s_queue]; [lia|rewrite length_drop; lia|by apply Forall_drop|].
  exists n'. rewrite Ec in E. simpl in E. split; [|split; [done|by rewrite Hc, Ec]].
  etransitivity; [exact E|]. f_equal. f_equal. rewrite <- app_assoc. f_equal.
  rewrite <- (take_drop ch (take (S len) (s_queue (chip n)))). f_equal.
  - rewrite take_take, Nat.min_l by lia. apply list_eq. intros i. rewrite list_lookup_fmap.
    destruct (decide (i < ch)%nat) as [Hi|Hi].
    + rewrite lookup_seq_lt by done. simpl.
      destruct (lookup_lt_is_Some_2 (take ch (s_queue (chip n))) i) as [x Hx]; [rewrite length_take; lia|].
      rewrite Hx. f_equal. apply word_byte_pack; [by apply Forall_take|done|lia].
    + rewrite !lookup_ge_None_2; [done|rewrite length_take; lia|rewrite length_seq; lia].
  - by rewrite skipn_firstn_comm.
Qed.

Lemma sim_feature (n : nand) : exists n', sn_feature 0xc0 n = ((0, 0), n') /\ same_rest n n' /\
  s_cache (chip n') = s_cache (chip n).
Proof.
  unfold sn_feature. unfold bind at 1, wr.
  match goal with |- context [set_hw ?h ?l n] => set (n1 := set_hw h l n) end.
  unfold bind at 1. destruct (sim_tx (Z.lor (Z.shiftl 0x0f 24) (Z.shiftl 0xc0 16)) 2 n1)
    as (n2 & E1 & [Hb2 Hp2] & Ec2). rewrite E1, Z.eqb_refl.
  assert (s_queue (chip n2) = [0] /\ s_cache (chip n2) = s_cache (chip n)) as [Eq Ec] by by rewrite Ec2.
  unfold bind at 1. destruct (sim_rx 1 1 [] n2) as (n3 & E3 & [Hb Hp] & Hc); [lia|by rewrite Eq|rewrite Eq; repeat constructor; by_compute|].
  unfold sn_rx. rewrite E3. rewrite Eq. unfold bind, ret. eexists. split; [reflexivity|].
  split; [split; [exact (eq_trans Hb Hb2)|exact (eq_trans Hp Hp2)]|exact (eq_trans Hc Ec)].
Qed.

Context (flash0_length : forall p, length (flash0 p) = 2112%nat) (flash0_bytes : forall p, Forall is_u8 (flash0 p)).

Lemma sim_load p (n : nand) : poisoned n = false -> 0 <= p < CHIP_PAGES ->
  exists n', sn_load_page p n = (0, n') /\ same_rest n n' /\ s_cache (chip n') = flash0 p.
Proof.
  intros Hn Hp. unfold sn_load_page. unfold bind at 1, get. rewrite Hn. unfold bind at 1, upd. unfold bind at 1, wr.
  match goal with |- context [set_hw ?h ?l ?m] => set (n1 := set_hw h l m) end.
  unfold bind at 1. destruct (sim_tx (Z.lor (Z.shiftl 0x13 24) p) 4 n1) as (n2 & E1 & [Hb2 Hp2] & Ec2). rewrite E1.
  assert (s_cache (chip n2) = flash0 p) as Ec.
  { rewrite Ec2. unfold sim_write. rewrite Z.eqb_refl.
    change (Z.shiftr (Z.lor (Z.shiftl 19 24) p) 24) with (opcode (Z.lor (Z.shiftl 19 24) p)).
    unfold CHIP_PAGES in Hp. rewrite opcode_lor by lia. cbn [Z.eqb Pos.eqb s_cache]. f_equal.
    change 0xffff with (Z.ones 16). rewrite Z.land_ones by lia.
    rewrite Z.shiftl_mul_pow2 by lia. change (19 * 2 ^ 24) with (4864 * 2 ^ 16).
    rewrite <- Z.shiftl_mul_pow2 by lia. rewrite <- Z.land_ones, Z.land_lor_distr_l, Z.land_ones by lia.
    rewrite Z.shiftl_mul_pow2, Z.mod_mul, Z.lor_0_l, Z.land_ones, Z.mod_small by lia. done. }
  unfold bind at 1. rewrite Z.eqb_refl. cbn [load_poll]. unfold bind at 1.
  match goal with |- context [sn_feature 0xc0 ?m] => destruct (sim_feature m) as (n4 & E4 & [Hb Hq] & Hc) end.
  rewrite E4. cbn [fst snd]. rewrite Z.eqb_refl. change (bit 0 0) with false. cbv iota.
  eexists. split; [reflexivity|]. split; [|rewrite Hc; exact Ec].
  split; [exact (eq_trans Hb Hb2)|exact (eq_trans Hq Hp2)].
Qed.

Definition sim_ready (n : nand) : Prop := poisoned n = false /\ length (buf n) = BUF_BYTES.

Lemma sim_page p (n : nand) : sim_ready n -> 0 <= p < CHIP_PAGES ->
  exists n', sn_page p n = (0, n') /\ sim_ready n' /\ take 2112 (buf n') = flash0 p.
Proof.
  intros [Hn Hl] Hp. destruct (sim_load p n Hn Hp) as (n1 & E1 & [Hb1 Hp1] & Hc1).
  unfold sn_page. unfold bind at 1. rewrite E1, Z.eqb_refl. unfold bind at 1, sn_cache_read. unfold bind at 1, wr.
  match goal with |- context [set_hw ?h ?l n1] => set (n2 := set_hw h l n1) end.
  unfold bind at 1. destruct (sim_tx (Z.lor 0x03000000 (Z.shiftl 0 8)) 4 n2)
    as (n3 & E2 & [Hb3 Hp3] & Ec3). rewrite E2, Z.eqb_refl.
  assert (s_queue (chip n3) = flash0 p) as Eq by (rewrite Ec3; exact Hc1).
  unfold bind at 1, sn_rx. replace (PAGE_BYTES + OOB_BYTES)%nat with 2112%nat by by_compute.
  destruct (sim_rx 2112 2112 [] n3) as (n4 & E4 & [Hb4 Hp4] & Hc4);
    [lia|rewrite Eq, flash0_length; lia|rewrite Eq; apply flash0_bytes|].
  rewrite E4, Eq. unfold bind, upd, ret. cbn [fst snd]. rewrite Z.eqb_refl.
  eexists. split; [reflexivity|]. cbn [buf poisoned count_page set_hw set_buf].
  assert (buf n4 = buf n) as Hbuf by exact (eq_trans Hb4 (eq_trans Hb3 Hb1)). rewrite Hbuf.
  split; [split; [cbn; exact (eq_trans Hp4 (eq_trans Hp3 (eq_trans Hp1 Hn)))|exact (eq_trans (length_blit _ _ _) Hl)]|].
  assert (take 2112 (flash0 p) = flash0 p) as Et by (apply firstn_all2; rewrite flash0_length; lia). rewrite app_nil_l, Et.
  apply list_eq. intros i. pose proof (flash0_length p) as Hlen. pose proof BUF_BYTES_eq as HB.
  destruct (decide (i < 2112)%nat).
  - rewrite lookup_take_lt, lookup_blit_in by lia. by rewrite Nat.sub_0_r.
  - rewrite !lookup_ge_None_2; [done|lia|rewrite length_take; lia].
Qed.

Definition sim_flash : FlashChip sim_controller := {|
  flash := flash0; ready := sim_ready; flash_length := flash0_length;
  ready_count := fun n b H => H; page_read := fun n p => sim_page p n
|}.
End Sim.

(** ** Concrete runs *)

Definition demo_flash (p : Z) : list Z := replicate 2112 (Z.land p 0xff).
Lemma demo_flash_length p : length (demo_flash p) = 2112%nat.
Proof. apply length_replicate. Qed.
Lemma demo_flash_bytes p : Forall is_u8 (demo_flash p).
Proof.
  apply Forall_replicate. change 0xff with (Z.ones 8). rewrite Z.land_ones by lia.
  unfold is_u8. apply Z.mod_pos_bound. lia.
Qed.

Definition fresh_nand (ctl : Controller) (h : hw) (dead : bool) : nand :=
  Nand h [] (replicate 4096 0) 0 0 0 0 0 0 0 0 0 0 0 0 dead 0 0.
Definition demo_sim (dead : bool) : nand (ctl := sim_controller demo_flash) :=
  fresh_nand (sim_controller demo_flash) (Sim [] [] 0) dead.

Lemma raw_read_returns_flash_witness :
  fst (nand_read_oob (ctl := sim_controller demo_flash) 4094 (OobOps MTD_OPS_RAW 4 0 0) (demo_sim false))
  = ReadOut 0 [1; 1; 2; 2] [].
Proof.
  rewrite (raw_read_returns_flash (fc := sim_flash demo_flash demo_flash_length demo_flash_bytes)).
  - by_compute.
  - split; by_compute.
  - lia.
  - by_compute.
Defined.

(** A kernel that gives the driver everything and scans one block. *)
Definition demo_kernel (registered : Z) : kernel :=
  Kernel true 0 0 0 (Some (replicate 4096 0, 0x1000000)) [IsBad 0] registered.

Lemma driver_is_read_only_witness :
  Forall read_only (bus (snd (bind (phoebus_nand_probe (ctl := sim_controller demo_flash) (demo_kernel 0))
    (fun _ => run_calls [ReadOob 0 (OobOps MTD_OPS_AUTO_OOB 16 4 0); Erase]) (demo_sim false)))).
Proof.
  apply driver_is_read_only; [repeat constructor; by_compute|repeat constructor; by_compute|constructor].
Defined.

Lemma poisoned_driver_is_silent_witness :
  bus (snd (run_calls [IsBad 0; ReadOob 0 (OobOps MTD_OPS_RAW 16 0 0)] (demo_sim true))) = [].
Proof.
  exact (proj1 (poisoned_driver_is_silent [IsBad 0; ReadOob 0 (OobOps MTD_OPS_RAW 16 0 0)] (demo_sim true) eq_refl)).
Defined.

Lemma probe_settles_dma_buffer_witness :
  poisoned (snd (phoebus_nand_probe (ctl := sim_controller demo_flash) (demo_kernel (- ENOMEM)) (demo_sim false))) = false.
Proof.
  pose proof (probe_settles_dma_buffer (ctl := sim_controller demo_flash) (demo_kernel (- ENOMEM)) (demo_sim false)) as Hx.
  cbv zeta in Hx. destruct Hx as (Hx & _ & _).
  - repeat constructor; by_compute.
  - intros b d Hb. injection Hb as <- _. by_compute.
  - apply Hx. by_compute.
Defined.

Lemma read_fills_buffers_exactly_witness :
  length (datbuf (fst (nand_read_oob (ctl := sim_controller demo_flash) 0 (OobOps MTD_OPS_RAW 16 0 0) (demo_sim false)))) = 16%nat.
Proof.
  pose proof (read_fills_buffers_exactly (ctl := sim_controller demo_flash) 0 (OobOps MTD_OPS_RAW 16 0 0) (demo_sim false)) as Hx.
  cbv zeta in Hx. destruct Hx as (_ & _ & Hx); [by_compute|]. apply Hx. left. by_compute.
Defined.
