(* ===== verification/Watchdog.v ===== *)
(** * Watchdog: the kick threads and the control register

    [arch/mips/rtl9607c/luna_watchdog.c].  The driver keeps the hardware watchdog
    quiet only while every CPU shows signs of life: a thread per CPU sets its bit
    in [wtd_count], and the thread of CPU 0 kicks the watchdog when all bits are
    set and clears them.  The threads run concurrently; the bit operations are
    atomic, the loops over the CPUs are not.  The interleavings are the schedules
    of [run]: each event is one atomic action of one thread.  The control register
    and the start and stop of the threads are modelled sequentially, as the proc
    files drive them. *)
From stdpp Require Import sets.
From S2P Require Import Prelude.

(** ** The threads *)

(** Where the thread of CPU 0 is in [watchdog_timeout_thread] and
    [CHECK_CPUS_AND_KICK]: asleep, testing the bits of the CPUs still in the list,
    or clearing them before the kick. *)
Inductive pc0 := Asleep | Testing (rest : list nat) | Clearing (rest : list nat).

Record threads := Threads {
  wtd_count : gset nat;    (* the bitmap *)
  at_ : pc0;
  kicks : nat              (* writes of the kick bit so far *)
}.

(** One atomic action while the watchdog is on ([watchdog_flag] is set): the thread
    of CPU [c] touches its bit, or the thread of CPU 0 does its next one. *)
Inductive event := Touch (c : nat) | Cpu0.

Section Threads.
(** [for_each_online_cpu] *)
Context (online : list nat).

Definition touch_wtd_count (cpu : nat) (t : threads) : threads :=
  Threads ({[ cpu ]} ∪ wtd_count t) (at_ t) (kicks t).

(** The next action of CPU 0; a sleeping thread wakes up and starts the test loop,
    which skips CPU 0. *)
Definition cpu0_step (t : threads) : threads :=
  match at_ t with
  | Asleep => Threads (wtd_count t) (Testing (filter (fun c => c <> 0%nat) online)) (kicks t)
  | Testing [] => Threads (wtd_count t) (Clearing online) (kicks t)
  | Testing (c :: rest) =>
      if decide (c ∈ wtd_count t) then Threads (wtd_count t) (Testing rest) (kicks t)
      else Threads (wtd_count t) Asleep (kicks t)
  | Clearing (c :: rest) => Threads (wtd_count t ∖ {[ c ]}) (Clearing rest) (kicks t)
  | Clearing [] => Threads (wtd_count t) Asleep (S (kicks t))
  end.

Definition step (e : event) (t : threads) : threads :=
  match e with Touch c => touch_wtd_count c t | Cpu0 => cpu0_step t end.
Definition run (es : list event) (t : threads) : threads := foldl (fun t e => step e t) t es.

(** [CHECK_CPUS_AND_KICK] without interference. *)
Definition CHECK_CPUS_AND_KICK (t : threads) : threads :=
  if forallb (fun c => (c =? 0)%nat || bool_decide (c ∈ wtd_count t)) online
  then Threads (wtd_count t ∖ list_to_set online) Asleep (S (kicks t))
  else Threads (wtd_count t) Asleep (kicks t).
End Threads.

(** ** The control register *)

(** The fields of the control register, which the board header names and
    [show_usage] decodes. *)
Class WdtLayout := {
  WDT_E : Z; WDT_PH12_TO_MSK : Z; WDT_PH1_TO_SHIFT : Z; WDT_PH2_TO_SHIFT : Z; WDT_CLK_SC_SHIFT : Z;
  layout_e : WDT_E = 2 ^ 31;
  layout_msk : WDT_PH12_TO_MSK = 0x1f;
  layout_ph1 : WDT_PH1_TO_SHIFT = 22;
  layout_ph2 : WDT_PH2_TO_SHIFT = 15;
  layout_sc : WDT_CLK_SC_SHIFT = 29
}.

Record settings := Settings { wdg_timeout_ph2 : Z; wdg_clk_sc : Z; wdg_rest_mode : Z }.

Definition RTK_WDG_EN {L : WdtLayout} (reg : Z) : Z := Z.lor reg WDT_E.
Definition RTK_WDG_DIS {L : WdtLayout} (reg : Z) : Z := Z.land reg (not32 WDT_E).

Definition set_rtk_wdt_ph1_threshold {L : WdtLayout} (cfg : settings) (sec : Z) (reg : Z) : Z :=
  let reg := Z.land reg (not32 (Z.shiftl WDT_PH12_TO_MSK WDT_PH1_TO_SHIFT)) in
  let reg := Z.land reg (not32 (Z.shiftl WDT_PH12_TO_MSK WDT_PH2_TO_SHIFT)) in
  let reg := Z.lor reg (u32 (Z.shiftl (wdg_timeout_ph2 cfg) WDT_PH2_TO_SHIFT)) in
  let reg := Z.lor reg (u32 (Z.shiftl (wdg_clk_sc cfg) WDT_CLK_SC_SHIFT)) in
  let reg := Z.lor reg (wdg_rest_mode cfg) in
  if sec =? 0 then Z.lor reg (Z.shiftl 31 WDT_PH1_TO_SHIFT) else Z.lor reg (u32 (Z.shiftl sec WDT_PH1_TO_SHIFT)).

(** What [show_usage] prints: enable bit, clock scale, both phases, reset mode. *)
Record usage := Usage { u_e : Z; u_clk_sc : Z; u_ph1 : Z; u_ph2 : Z; u_mode : Z }.
Definition show_usage (reg_val : Z) : usage :=
  Usage (Z.land (Z.shiftr reg_val 31) 1) (Z.land (Z.shiftr reg_val 29) 3) (Z.land (Z.shiftr reg_val 22) 0x1f)
        (Z.land (Z.shiftr reg_val 15) 0x1f) (Z.land reg_val 3).

(** ** Starting and stopping the threads *)

(** [pWatchdogTask]: NULL, an error pointer or a thread. *)
Inductive task := Null | ErrPtr | Task.
#[export] Instance task_eq_dec : EqDecision task.
Proof. solve_decision. Defined.

(** In the results below [None] is a kernel oops: an operation on an error pointer
    or NULL. *)
Notation tasks := (list task).

Section Maintain.
Context (online : list nat) (NR_CPUS : nat).
(** [kthread_create], which returns a thread or an error pointer, never NULL. *)
Context (kthread_create : nat -> task).

Definition kthread_bind (p : task) : option unit := if decide (p = Task) then Some tt else None.

(** [luan_watchdog_thread_init]; the [WARN_ON] is for NULL only. *)
Fixpoint init_loop (cpus : list nat) (ts : tasks) : option tasks :=
  match cpus with
  | [] => Some ts
  | cpu :: rest =>
      if (cpu =? 0)%nat then init_loop rest ts
      else if (NR_CPUS <=? cpu)%nat then Some ts
      else let p := kthread_create cpu in
           _ ← kthread_bind p; init_loop rest (<[cpu := p]> ts)
  end.
Definition luan_watchdog_thread_init (ts : tasks) : option tasks := init_loop online ts.

(** The stop loop: every task that is not NULL is stopped. *)
Fixpoint stop_loop (cpus : list nat) (ts : tasks) : option tasks :=
  match cpus with
  | [] => Some ts
  | cpu :: rest =>
      if (NR_CPUS <=? cpu)%nat then Some ts
      else match ts !! cpu with
           | Some Task => stop_loop rest (<[cpu := Null]> ts)
           | Some ErrPtr => None
           | _ => stop_loop rest ts
           end
  end.

Definition wdt_thread_maintain (flag : bool) (ts : tasks) : option tasks :=
  if flag then
    if decide (ts !! 0%nat = Some Null) then
      let p := kthread_create 0%nat in
      let ts := <[0%nat := p]> ts in
      if decide (p = ErrPtr) then Some ts
      else ts ← luan_watchdog_thread_init ts; _ ← kthread_bind p; Some ts
    else Some ts
  else stop_loop online ts.
End Maintain.

(** ** The driver as the proc files drive it *)

Record wdt := Wdt {
  WDTCTRLR : Z;               (* the control register *)
  cntr_kicks : nat;           (* kicks written to the counter register *)
  reboot_reason : Z;
  watchdog_flag : Z; kick_wdg_time : Z; wdg_timeout : Z; debug_mask : Z;
  pWatchdogTask : tasks
}.

Section Driver.
Context {L : WdtLayout} (online : list nat) (NR_CPUS : nat) (kthread_create : nat -> task) (cfg : settings).

Definition set_tasks (ts : tasks) (w : wdt) : wdt :=
  Wdt (WDTCTRLR w) (cntr_kicks w) (reboot_reason w) (watchdog_flag w) (kick_wdg_time w) (wdg_timeout w) (debug_mask w) ts.
Definition set_ctrl (r : Z) (w : wdt) : wdt :=
  Wdt r (cntr_kicks w) (reboot_reason w) (watchdog_flag w) (kick_wdg_time w) (wdg_timeout w) (debug_mask w) (pWatchdogTask w).
Definition enable (w : wdt) : wdt :=
  Wdt (RTK_WDG_EN (WDTCTRLR w)) (cntr_kicks w) 3 (watchdog_flag w) (kick_wdg_time w) (wdg_timeout w) (debug_mask w) (pWatchdogTask w).
Definition luna_watchdog_kick (w : wdt) : wdt :=
  Wdt (WDTCTRLR w) (S (cntr_kicks w)) (reboot_reason w) (watchdog_flag w) (kick_wdg_time w) (wdg_timeout w) (debug_mask w)
    (pWatchdogTask w).
Definition set_flag (v : Z) (w : wdt) : wdt :=
  Wdt (WDTCTRLR w) (cntr_kicks w) (reboot_reason w) v (kick_wdg_time w) (wdg_timeout w) (debug_mask w) (pWatchdogTask w).
Definition set_debug (v : Z) (w : wdt) : wdt :=
  Wdt (WDTCTRLR w) (cntr_kicks w) (reboot_reason w) (watchdog_flag w) (kick_wdg_time w) (wdg_timeout w) v (pWatchdogTask w).
Definition set_timeout (v : Z) (w : wdt) : wdt :=
  Wdt (WDTCTRLR w) (cntr_kicks w) (reboot_reason w) (watchdog_flag w) (kick_wdg_time w) v (debug_mask w) (pWatchdogTask w).

Definition maintain (flag : bool) (w : wdt) : option wdt :=
  ts ← wdt_thread_maintain online NR_CPUS kthread_create flag (pWatchdogTask w); Some (set_tasks ts w).

(** The writers of the proc files; [v] is the number [simple_strtoul] read, and
    [None] again an oops. *)
Definition watchdog_write (v : Z) (w : wdt) : option wdt :=
  let w := set_flag (u32 v) w in
  w ← (if watchdog_flag w =? 0 then maintain false (set_ctrl (RTK_WDG_DIS (WDTCTRLR w)) w)
       else w ← maintain true w; Some (luna_watchdog_kick (enable w)));
  Some (set_debug (if Z.land (watchdog_flag w) 2 =? 0 then 0 else 1) w).

Definition wdg_timeout_write (v : Z) (w : wdt) : wdt :=
  let w := set_timeout (u32 v) w in
  set_ctrl (set_rtk_wdt_ph1_threshold cfg (wdg_timeout w) (WDTCTRLR w)) w.

Definition kick_wdg_time_write (v : Z) (w : wdt) : wdt :=
  Wdt (WDTCTRLR w) (cntr_kicks w) (reboot_reason w) (watchdog_flag w) (u32 v) (wdg_timeout w) (debug_mask w) (pWatchdogTask w).

(** [CONFIG_WDT_ENABLE] is on. *)
Definition watchdog_timeout_init (w : wdt) : option wdt :=
  w ← maintain true w;
  Some (set_flag 1 (enable (set_ctrl (set_rtk_wdt_ph1_threshold cfg (wdg_timeout w) (WDTCTRLR w)) w))).

Definition watchdog_timeout_exit (w : wdt) : option wdt := maintain false (set_ctrl (RTK_WDG_DIS (WDTCTRLR w)) w).
End Driver.
