(* ===== verification/WatchdogSpec.v ===== *)
(** * WatchdogSpec: what the watchdog driver guarantees

    A CPU that hangs stops the kicks, whatever the interleaving; CPUs that are all
    alive get the watchdog kicked; the control register holds what was asked for,
    within the widths of its fields; the threads are started and stopped in pairs. *)
From stdpp Require Import sets.
From S2P Require Import Prelude Watchdog.

(** ** Schedules *)

Section Schedules.
Context (online : list nat).

(** The kicks a silent CPU [c] can still see: what its bit allows, and what the
    round under way has already passed. *)
Definition bit_left (c : nat) (t : threads) : nat := if decide (c ∈ wtd_count t) then 1 else 0.
Definition budget (c : nat) (t : threads) : nat :=
  match at_ t with
  | Asleep => bit_left c t
  | Testing rest => if decide (c ∈ rest) then bit_left c t else 1
  | Clearing rest => if decide (c ∈ rest) then 1 else S (bit_left c t)
  end.

Lemma touch_budget c d t : d <> c -> budget c (touch_wtd_count d t) = budget c t.
Proof.
  intros Hd. unfold budget, bit_left, touch_wtd_count. cbn [at_ wtd_count].
  rewrite !(decide_ext (c ∈ {[ d ]} ∪ wtd_count t) (c ∈ wtd_count t)) by set_solver. done.
Qed.

Lemma cpu0_budget c t : c <> 0%nat -> c ∈ online ->
  (kicks (cpu0_step online t) + budget c (cpu0_step online t) <= kicks t + budget c t)%nat.
Proof.
  intros Hc Ho. unfold cpu0_step, budget, bit_left. destruct (at_ t) as [|[|d rest]|[|d rest]] eqn:E; cbn [at_ kicks wtd_count].
  - rewrite decide_True by (apply list_elem_of_filter; done). lia.
  - rewrite decide_True by done. rewrite decide_False by set_solver. lia.
  - destruct (decide (c = d)) as [->|Hne].
    + rewrite (decide_True (P := d ∈ d :: rest)) by set_solver.
      destruct (decide (d ∈ wtd_count t)) as [Hd|Hd]; cbn [at_ kicks wtd_count].
      * rewrite (decide_True (P := d ∈ wtd_count t)) by done. case_decide; lia.
      * rewrite (decide_False (P := d ∈ wtd_count t)) by done. lia.
    + rewrite (decide_ext (c ∈ d :: rest) (c ∈ rest)) by set_solver.
      destruct (decide (d ∈ wtd_count t)); cbn [at_ kicks wtd_count]; [lia|]. repeat case_decide; lia.
  - rewrite (decide_False (P := c ∈ [])) by apply not_elem_of_nil. lia.
  - destruct (decide (c = d)) as [->|Hne].
    + rewrite (decide_False (P := d ∈ wtd_count t ∖ {[ d ]})) by set_solver.
      rewrite (decide_True (P := d ∈ d :: rest)) by set_solver. case_decide; lia.
    + rewrite (decide_ext (c ∈ d :: rest) (c ∈ rest)) by set_solver.
      rewrite (decide_ext (c ∈ wtd_count t ∖ {[ d ]}) (c ∈ wtd_count t)) by set_solver. lia.
Qed.

Lemma run_budget c es t : c <> 0%nat -> c ∈ online -> Touch c ∉ es ->
  (kicks (run online es t) + budget c (run online es t) <= kicks t + budget c t)%nat.
Proof.
  intros Hc Ho. revert t. induction es as [|e es IH]; intros t He; [done|]. cbn [run foldl].
  apply not_elem_of_cons in He as [He Hes]. etransitivity; [apply IH, Hes|].
  destruct e as [d|]; cbn [step]; [|by apply cpu0_budget]. rewrite touch_budget by congruence. done.
Qed.

(** A hung CPU starves the watchdog: when one CPU stops setting its bit, then
    however the other threads run, the watchdog is kicked at most twice more, at
    most once more if CPU 0 was asleep, and not at all if the bit was clear too. *)
Theorem hung_cpu_starves_watchdog c es t :
  c <> 0%nat -> c ∈ online -> Touch c ∉ es ->
  (kicks (run online es t) <= kicks t + 2)%nat /\
  (at_ t = Asleep -> kicks (run online es t) <= kicks t + 1)%nat /\
  (at_ t = Asleep -> c ∉ wtd_count t -> kicks (run online es t) <= kicks t)%nat.
Proof.
  intros Hc Ho He. pose proof (run_budget c es t Hc Ho He) as Hb.
  assert (bit_left c t <= 1)%nat as Hl by (unfold bit_left; case_decide; lia).
  split_and!.
  - assert (budget c t <= 2)%nat by (unfold budget; destruct (at_ t); try case_decide; lia). lia.
  - intros Ha. unfold budget in Hb. rewrite Ha in Hb. lia.
  - intros Ha Hn. unfold budget, bit_left in Hb. rewrite Ha in Hb. rewrite (decide_False (P := c ∈ wtd_count t)) in Hb by done. lia.
Qed.

(** ** Live CPUs *)

Definition others : list nat := filter (fun c => c <> 0%nat) online.
(** Actions of CPU 0 until the kick, and the bits a round still needs. *)
Definition left_to_kick (t : threads) : nat :=
  match at_ t with
  | Asleep => length others + length online + 3
  | Testing rest => length rest + length online + 2
  | Clearing rest => length rest + 1
  end.
Definition bits_ready (t : threads) : Prop :=
  match at_ t with
  | Asleep => Forall (fun c => c ∈ wtd_count t) others
  | Testing rest => Forall (fun c => c ∈ wtd_count t) rest
  | Clearing _ => True
  end.
Definition is_cpu0 (e : event) : bool := match e with Cpu0 => true | Touch _ => false end.

Lemma kicks_mono es t : (kicks t <= kicks (run online es t))%nat.
Proof.
  revert t. induction es as [|e es IH]; intros t; [done|]. cbn [run foldl]. etransitivity; [|apply IH].
  destruct e; cbn [step]; [done|]. unfold cpu0_step. repeat case_match; simpl; lia.
Qed.

Lemma touch_ready c t : bits_ready t ->
  bits_ready (touch_wtd_count c t) /\ left_to_kick (touch_wtd_count c t) = left_to_kick t.
Proof.
  intros Hr. split; [|done]. unfold bits_ready, touch_wtd_count in *. simpl.
  destruct (at_ t); [| |done]; (eapply Forall_impl; [exact Hr|]; set_solver).
Qed.

Lemma cpu0_ready t : bits_ready t ->
  (kicks t < kicks (cpu0_step online t))%nat \/
  (bits_ready (cpu0_step online t) /\ S (left_to_kick (cpu0_step online t)) = left_to_kick t).
Proof.
  unfold bits_ready, left_to_kick, cpu0_step. destruct (at_ t) as [|[|d rest]|[|d rest]] eqn:E;
    cbn [at_ kicks wtd_count length]; intros Hr.
  - right. split; [done|]. unfold others. lia.
  - right. split; [done|]. lia.
  - apply Forall_cons in Hr as [Hd Hr]. rewrite decide_True by done. cbn [at_ kicks wtd_count]. right. split; [done|]. lia.
  - left. lia.
  - right. split; [done|]. lia.
Qed.

(** CPUs that are alive keep the watchdog quiet: once every other CPU has set
    its bit, any schedule that gives CPU 0 enough actions for a round (one per CPU
    to test, one per CPU to clear, and three) ends with a kick. *)
Theorem live_cpus_get_a_kick es t :
  at_ t = Asleep -> Forall (fun c => c ∈ wtd_count t) (filter (fun c => c <> 0%nat) online) ->
  (length (filter (fun c => c <> 0%nat) online) + length online + 3 <= length (List.filter is_cpu0 es))%nat ->
  (kicks t < kicks (run online es t))%nat.
Proof.
  intros Ha Hb Hn.
  assert (bits_ready t /\ left_to_kick t <= length (List.filter is_cpu0 es))%nat as [Hr Hl].
  { unfold bits_ready, left_to_kick, others. by rewrite Ha. }
  clear Ha Hb Hn. revert t Hr Hl. induction es as [|e es IH]; intros t Hr Hl.
  { unfold left_to_kick in Hl. simpl in Hl. destruct (at_ t); lia. }
  cbn [run foldl]. destruct e as [c|]; cbn [step List.filter is_cpu0 length] in *.
  - destruct (touch_ready c t Hr) as [Hr' Hl']. apply (IH (touch_wtd_count c t)); [done|]. by rewrite Hl'.
  - destruct (cpu0_ready t Hr) as [Hk|[Hr' Hl']]; [eapply Nat.lt_le_trans; [exact Hk|apply kicks_mono]|].
    pose proof (IH (cpu0_step online t) Hr' ltac:(lia)) as Hi. unfold run in Hi. eapply Nat.le_lt_trans; [|exact Hi].
    unfold cpu0_step. repeat case_match; simpl; lia.
Qed.
(** ** A round without interference *)

Lemma run_app es1 es2 t : run online (es1 ++ es2) t = run online es2 (run online es1 t).
Proof. apply foldl_app. Qed.

Lemma testing_round rest t : at_ t = Testing rest -> exists n,
  run online (replicate n Cpu0) t =
  if forallb (fun c => bool_decide (c ∈ wtd_count t)) rest
  then Threads (wtd_count t) (Clearing online) (kicks t) else Threads (wtd_count t) Asleep (kicks t).
Proof.
  revert t. induction rest as [|c rest IH]; intros t Ht.
  - exists 1%nat. unfold run. cbn. unfold cpu0_step. by rewrite Ht.
  - cbn [forallb]. case_bool_decide as Hc; cbn [andb].
    + destruct (IH (Threads (wtd_count t) (Testing rest) (kicks t)) eq_refl) as [n Hn]. exists (S n).
      unfold run in *. cbn [replicate foldl step]. unfold cpu0_step at 1. rewrite Ht, decide_True by done. exact Hn.
    + exists 1%nat. unfold run. cbn [replicate foldl step]. unfold cpu0_step. by rewrite Ht, decide_False.
Qed.

Lemma clearing_round rest t : at_ t = Clearing rest -> exists n,
  run online (replicate n Cpu0) t = Threads (wtd_count t ∖ list_to_set rest) Asleep (S (kicks t)).
Proof.
  revert t. induction rest as [|c rest IH]; intros t Ht.
  - exists 1%nat. unfold run. cbn [replicate foldl step]. unfold cpu0_step. rewrite Ht. f_equal. set_solver.
  - destruct (IH (Threads (wtd_count t ∖ {[ c ]}) (Clearing rest) (kicks t)) eq_refl) as [n Hn]. exists (S n).
    unfold run in *. cbn [replicate foldl step]. unfold cpu0_step at 1. rewrite Ht. rewrite Hn. cbn [wtd_count kicks].
    f_equal. set_solver.
Qed.

Lemma forallb_others (P : nat -> bool) :
  forallb (fun c => (c =? 0)%nat || P c) online = forallb P (filter (fun c => c <> 0%nat) online).
Proof.
  induction online as [|c l IH]; [done|]. rewrite filter_cons. cbn [forallb]. destruct c as [|c]; [exact IH|].
  rewrite decide_True by done. cbn [forallb Nat.eqb orb]. by rewrite IH.
Qed.

(** The atomic actions of CPU 0, run alone, are the whole function
    [CHECK_CPUS_AND_KICK]: kick and clear when all other CPUs have set their bits,
    nothing otherwise. *)
Theorem undisturbed_round_is_check t :
  at_ t = Asleep -> exists n, run online (replicate n Cpu0) t = CHECK_CPUS_AND_KICK online t.
Proof.
  intros Ha. set (t1 := cpu0_step online t).
  assert (t1 = Threads (wtd_count t) (Testing (filter (fun c => c <> 0%nat) online)) (kicks t)) as E1
    by (unfold t1, cpu0_step; by rewrite Ha).
  destruct (testing_round (filter (fun c => c <> 0%nat) online) t1) as [n Hn]; [by rewrite E1|].
  rewrite E1 in Hn. cbn [wtd_count kicks] in Hn. rewrite <- forallb_others in Hn. unfold CHECK_CPUS_AND_KICK.
  assert (run online (replicate (S n) Cpu0) t = run online (replicate n Cpu0) t1) as E2 by done.
  rewrite E1 in E2. rewrite Hn in E2. clear Hn. destruct (forallb _ online); [|by exists (S n)].
  destruct (clearing_round online _ (eq_refl : at_ (Threads (wtd_count t) (Clearing online) (kicks t)) = _)) as [m Hm].
  exists (S n + m)%nat. rewrite replicate_add, run_app, E2. exact Hm.
Qed.
End Schedules.

(** ** Register fields *)

(** [w] bits of [x] from bit [k] on. *)
Definition field (k w x : Z) : Z := Z.land (Z.shiftr x k) (Z.ones w).

Lemma field_bit k w x i : 0 <= k -> 0 <= w -> 0 <= i -> Z.testbit (field k w x) i = Z.testbit x (i + k) && (i <? w).
Proof.
  intros Hk Hw Hi. unfold field. rewrite Z.land_spec, Z.shiftr_spec by done. f_equal.
  rewrite Z.testbit_ones_nonneg by done. done.
Qed.

Lemma field_lor k w x y : field k w (Z.lor x y) = Z.lor (field k w x) (field k w y).
Proof. unfold field. by rewrite Z.shiftr_lor, Z.land_lor_distr_l. Qed.

Lemma shl_bit v s i : 0 <= s -> 0 <= i -> Z.testbit (Z.shiftl v s) i = (s <=? i) && Z.testbit v (i - s).
Proof.
  intros Hs Hi. rewrite Z.shiftl_spec by done. destruct (s <=? i) eqn:E; bool_to_prop; [done|].
  by rewrite Z.testbit_neg_r by lia.
Qed.

(** Clearing [m] bits from bit [s] on: that field is zero, a field beside it stays. *)
Lemma clear_bit m s x i : 0 <= s -> 0 <= m -> 0 <= i < 32 ->
  Z.testbit (Z.land x (not32 (Z.shiftl (Z.ones m) s))) i = Z.testbit x i && negb ((s <=? i) && (i <? s + m)).
Proof.
  intros Hs Hm Hi. rewrite Z.land_spec, not32_bit, shl_bit by lia. f_equal. f_equal.
  destruct (s <=? i) eqn:E; cbn [andb]; bool_to_prop; [|done]. rewrite Z.testbit_ones_nonneg by lia.
  destruct (i - s <? m) eqn:E1, (i <? s + m) eqn:E2; bool_to_prop; done || lia.
Qed.

Lemma field_cleared k w x : 0 <= k -> 0 <= w -> k + w <= 32 -> field k w (Z.land x (not32 (Z.shiftl (Z.ones w) k))) = 0.
Proof.
  intros. apply Z.bits_inj'. intros i Hi. rewrite field_bit, Z.bits_0 by done. destruct (i <? w) eqn:E; bool_to_prop;
    [|by rewrite andb_false_r]. rewrite clear_bit by lia. rewrite (proj2 (Z.leb_le k _)) by lia.
  rewrite (proj2 (Z.ltb_lt _ (k + w))) by lia. by rewrite andb_false_r.
Qed.

Lemma field_beside k w m s x : 0 <= k -> 0 <= w -> 0 <= s -> 0 <= m -> k + w <= 32 -> s + m <= k \/ k + w <= s ->
  field k w (Z.land x (not32 (Z.shiftl (Z.ones m) s))) = field k w x.
Proof.
  intros Hk Hw Hs Hm H32 Hd. apply Z.bits_inj'. intros i Hi. rewrite !field_bit by done. destruct (i <? w) eqn:E; bool_to_prop;
    [|by rewrite !andb_false_r]. rewrite clear_bit by lia. rewrite !andb_true_r.
  destruct (s <=? i + k) eqn:E1, (i + k <? s + m) eqn:E2; cbn [andb negb]; rewrite ?andb_true_r; bool_to_prop; done || lia.
Qed.

(** A value of [m] bits shifted to bit [s], seen in a field. *)
Lemma field_shl_same k w v : 0 <= k -> 0 <= w -> 0 <= v < 2 ^ w -> field k w (Z.shiftl v k) = v.
Proof.
  intros Hk Hw Hv. unfold field. rewrite Z.shiftr_shiftl_l, Z.sub_diag, Z.shiftl_0_r by lia.
  rewrite Z.land_ones by done. by apply Z.mod_small.
Qed.
Lemma field_shl_beside k w m s v : 0 <= k -> 0 <= w -> 0 <= s -> 0 <= m -> 0 <= v < 2 ^ m -> s + m <= k \/ k + w <= s ->
  field k w (Z.shiftl v s) = 0.
Proof.
  intros Hk Hw Hs Hm Hv Hd. apply Z.bits_inj'. intros i Hi. rewrite field_bit, Z.bits_0, shl_bit by lia.
  destruct (i <? w) eqn:E, (s <=? i + k) eqn:E1; cbn [andb]; rewrite ?andb_false_r; try done. bool_to_prop.
  rewrite <- (Z.mod_small v (2 ^ m)), Z.mod_pow2_bits_high by lia. done.
Qed.

Lemma shl_u32 v s m : 0 <= s -> 0 <= m -> 0 <= v < 2 ^ m -> s + m <= 32 -> u32 (Z.shiftl v s) = Z.shiftl v s.
Proof.
  intros Hs Hm Hv H32. apply u32_small. unfold is_u32. rewrite Z.shiftl_mul_pow2 by done.
  assert (2 ^ m * 2 ^ s <= 2 ^ 32) by (rewrite <- Z.pow_add_r by done; apply Z.pow_le_mono_r; lia).
  pose proof (Z.pow_pos_nonneg 2 s). nia.
Qed.

Ltac fields := repeat first
  [ rewrite field_lor | rewrite field_cleared by lia | rewrite field_beside by lia
  | rewrite field_shl_same by lia | rewrite (field_shl_beside _ _ 5 15) by lia
  | rewrite (field_shl_beside _ _ 2 29) by lia | rewrite (field_shl_beside _ _ 2 0) by lia
  | rewrite (field_shl_beside _ _ 5 22) by lia | rewrite Z.lor_0_l | rewrite Z.lor_0_r ].

(** The fields of the register a threshold is written to, one by one. *)
Section Threshold.
Context {L : WdtLayout} (cfg : settings) (sec reg : Z).
Context (Hph2 : 0 <= wdg_timeout_ph2 cfg < 2 ^ 5) (Hsc : 0 <= wdg_clk_sc cfg < 2 ^ 2)
        (Hmode : 0 <= wdg_rest_mode cfg < 2 ^ 2) (Hsec : 0 <= sec < 2 ^ 5).

Definition ph1_of : Z := if sec =? 0 then 31 else sec.
Lemma ph1_range : 0 <= ph1_of < 2 ^ 5.
Proof. unfold ph1_of. destruct (sec =? 0); lia. Qed.

Lemma threshold_word :
  set_rtk_wdt_ph1_threshold cfg sec reg =
  Z.lor (Z.lor (Z.lor (Z.lor (Z.land (Z.land reg (not32 (Z.shiftl (Z.ones 5) 22))) (not32 (Z.shiftl (Z.ones 5) 15)))
    (Z.shiftl (wdg_timeout_ph2 cfg) 15)) (Z.shiftl (wdg_clk_sc cfg) 29)) (Z.shiftl (wdg_rest_mode cfg) 0)) (Z.shiftl ph1_of 22).
Proof.
  unfold set_rtk_wdt_ph1_threshold, ph1_of. rewrite layout_msk, layout_ph1, layout_ph2, layout_sc.
  rewrite (shl_u32 _ 15 5), (shl_u32 _ 29 2), (shl_u32 _ 22 5), Z.shiftl_0_r by lia. by destruct (sec =? 0).
Qed.

Lemma threshold_field k w : 0 <= k -> 0 <= w -> k + w <= 32 ->
  field k w (set_rtk_wdt_ph1_threshold cfg sec reg) =
  Z.lor (Z.lor (Z.lor (Z.lor
    (field k w (Z.land (Z.land reg (not32 (Z.shiftl (Z.ones 5) 22))) (not32 (Z.shiftl (Z.ones 5) 15))))
    (field k w (Z.shiftl (wdg_timeout_ph2 cfg) 15))) (field k w (Z.shiftl (wdg_clk_sc cfg) 29)))
    (field k w (Z.shiftl (wdg_rest_mode cfg) 0))) (field k w (Z.shiftl ph1_of 22)).
Proof. intros. by rewrite threshold_word, !field_lor. Qed.
End Threshold.

(** Setting the timeout: for a timeout of 0 to 31 seconds and settings that
    fit their fields, the register reads back the timeout (0 meaning 31) and the
    second phase, keeps the enable bit, and adds the clock scale and reset mode to
    what the boot loader had set. *)
Theorem threshold_reads_back {L : WdtLayout} (cfg : settings) (sec reg : Z) :
  0 <= wdg_timeout_ph2 cfg < 32 -> 0 <= wdg_clk_sc cfg < 4 -> 0 <= wdg_rest_mode cfg < 4 -> 0 <= sec < 32 ->
  let old := show_usage reg in
  show_usage (set_rtk_wdt_ph1_threshold cfg sec reg) =
  Usage (u_e old) (Z.lor (u_clk_sc old) (wdg_clk_sc cfg)) (if sec =? 0 then 31 else sec) (wdg_timeout_ph2 cfg)
        (Z.lor (u_mode old) (wdg_rest_mode cfg)).
Proof.
  intros Hph2 Hsc Hmode Hsec. pose proof (ph1_range sec Hsec) as Hp.
  pose proof (threshold_field cfg sec reg Hph2 Hsc Hsec) as Hf.
  assert (forall x, show_usage x = Usage (field 31 1 x) (field 29 2 x) (field 22 5 x) (field 15 5 x) (field 0 2 x)) as Hs
    by (intros x; unfold show_usage, field; by rewrite Z.shiftr_0_r).
  rewrite !Hs. cbn [u_e u_clk_sc u_mode]. rewrite !Hf by lia.
  change (if sec =? 0 then 31 else sec) with (ph1_of sec).
  f_equal; fields; reflexivity.
Qed.

(** The timeout file does not check its range: writing 512 to it turns the
    watchdog on, whatever the driver's state, because the value runs over into the
    enable bit. *)
Theorem timeout_write_can_enable {L : WdtLayout} (cfg : settings) (w : wdt) :
  u_e (show_usage (WDTCTRLR (wdg_timeout_write cfg 512 w))) = 1.
Proof.
  unfold wdg_timeout_write, set_rtk_wdt_ph1_threshold. cbn [WDTCTRLR set_ctrl set_timeout wdg_timeout].
  change (u32 512) with 512. rewrite layout_ph1. change (512 =? 0) with false. cbv iota. cbn [u_e show_usage].
  match goal with |- Z.land (Z.shiftr ?x 31) _ = _ => change (field 31 1 x = 1) end. rewrite field_lor. apply Z.bits_inj'. intros i Hi.
  rewrite Z.lor_spec. change (u32 (Z.shiftl 512 22)) with (2 ^ 31). rewrite !field_bit by lia.
  destruct (i <? 1) eqn:E; bool_to_prop.
  - replace i with 0 by lia. rewrite (Z.pow2_bits_eqb 31) by lia. by rewrite orb_true_r.
  - rewrite !andb_false_r. symmetry. apply Z.bits_above_log2; simpl; lia.
Qed.

(** ** The life of the threads *)

Section Life.
Context (online : list nat) (NR_CPUS : nat) (kthread_create : nat -> task).

(** Every online CPU has a thread, respectively none. *)
Definition all_are (p : task) (cpus : list nat) (ts : tasks) : Prop := Forall (fun c => ts !! c = Some p) cpus.

Lemma no_err_insert (ts : tasks) c p : p <> ErrPtr -> ErrPtr ∉ ts -> ErrPtr ∉ <[c := p]> ts.
Proof. intros Hp He [i Hi]%list_elem_of_lookup. apply He. apply list_lookup_insert_Some in Hi as [(_ & E & _)|[_ Hi]]; [done|].
  by apply list_elem_of_lookup_2 in Hi. Qed.

Lemma init_loop_ok cpus ts :
  Forall (fun c => c < length ts)%nat cpus -> length ts = NR_CPUS -> (forall c, kthread_create c = Task) ->
  ts !! 0%nat = Some Task -> ErrPtr ∉ ts -> exists ts', init_loop NR_CPUS kthread_create cpus ts = Some ts' /\ length ts' = NR_CPUS /\
    all_are Task cpus ts' /\ (forall c, ts !! c = Some Task -> ts' !! c = Some Task) /\ ErrPtr ∉ ts'.
Proof.
  intros Hin Hl Hk. revert ts Hin Hl. induction cpus as [|c cpus IH]; intros ts Hin Hl H0 He; cbn [init_loop].
  { exists ts. split_and!; auto. constructor. }
  apply Forall_cons in Hin as [Hc Hin]. destruct (c =? 0)%nat eqn:E0.
  - apply Nat.eqb_eq in E0 as ->. destruct (IH ts Hin Hl H0 He) as (ts' & E & L' & A & K & Z'). exists ts'. split_and!; auto.
    constructor; auto.
  - rewrite (proj2 (Nat.leb_gt NR_CPUS c)) by lia. rewrite Hk. unfold kthread_bind. rewrite decide_True by done.
    cbn [mbind option_bind].
    destruct (IH (<[c:=Task]> ts)) as (ts' & E & L' & A & K & Z');
      [by rewrite length_insert|by rewrite length_insert|..].
    { apply Nat.eqb_neq in E0. by rewrite list_lookup_insert_ne. }
    { by apply no_err_insert. }
    exists ts'. split_and!; auto.
    + constructor; [|done]. apply K. by apply list_lookup_insert_eq.
    + intros d Hd. apply K. destruct (decide (c = d)) as [->|]; [by apply list_lookup_insert_eq|by rewrite list_lookup_insert_ne].
Qed.

Lemma stop_loop_ok cpus ts :
  Forall (fun c => c < length ts)%nat cpus -> length ts = NR_CPUS ->
  ErrPtr ∉ ts -> exists ts', stop_loop NR_CPUS cpus ts = Some ts' /\
    all_are Null cpus ts' /\ (forall c, ts !! c = Some Null -> ts' !! c = Some Null).
Proof.
  revert ts. induction cpus as [|c cpus IH]; intros ts Hin Hl He; cbn [stop_loop].
  { exists ts. split_and!; auto. constructor. }
  apply Forall_cons in Hin as [Hc Hin]. rewrite (proj2 (Nat.leb_gt NR_CPUS c)) by lia.
  destruct (lookup_lt_is_Some_2 ts c Hc) as [p Hp]. rewrite Hp. destruct p.
  - destruct (IH ts Hin Hl He) as (ts' & E & A & K). exists ts'. split_and!; auto. constructor; auto.
  - by apply list_elem_of_lookup_2 in Hp.
  - destruct (IH (<[c:=Null]> ts)) as (ts' & E & A & K); [by rewrite length_insert|by rewrite length_insert|..].
    { by apply no_err_insert. }
    exists ts'. split_and!; auto.
    + constructor; [|done]. apply K. by apply list_lookup_insert_eq.
    + intros d Hd. apply K. destruct (decide (c = d)) as [->|]; [by apply list_lookup_insert_eq|by rewrite list_lookup_insert_ne].
Qed.

Lemma maintain_start ts :
  Forall (fun c => c < length ts)%nat online -> length ts = NR_CPUS -> (forall c, kthread_create c = Task) ->
  ts !! 0%nat = Some Null -> ErrPtr ∉ ts -> exists ts',
  wdt_thread_maintain online NR_CPUS kthread_create true ts = Some ts' /\ length ts' = NR_CPUS /\
  all_are Task online ts' /\ ErrPtr ∉ ts'.
Proof.
  intros Hin Hl Hk H0 He. unfold wdt_thread_maintain, luan_watchdog_thread_init. rewrite decide_True by done. rewrite !Hk.
  assert (0 < length ts)%nat by (by eapply lookup_lt_Some).
  rewrite (decide_False (P := Task = ErrPtr)) by done. unfold kthread_bind. rewrite decide_True by done.
  destruct (init_loop_ok online (<[0%nat:=Task]> ts)) as (ts' & E & L' & A & K & Z'); rewrite ?length_insert; auto.
  { by apply list_lookup_insert_eq. }
  { by apply no_err_insert. }
  exists ts'. rewrite E. by split_and!.
Qed.

(** Turning the watchdog on starts one thread on every online CPU and turning
    it off stops them all, from any state without threads. *)
Theorem threads_start_and_stop ts :
  Forall (fun c => c < length ts)%nat online -> length ts = NR_CPUS -> (forall c, kthread_create c = Task) ->
  ts !! 0%nat = Some Null -> ErrPtr ∉ ts ->
  exists ts1 ts2,
    wdt_thread_maintain online NR_CPUS kthread_create true ts = Some ts1 /\
    Forall (fun c => ts1 !! c = Some Task) online /\
    wdt_thread_maintain online NR_CPUS kthread_create false ts1 = Some ts2 /\
    Forall (fun c => ts2 !! c = Some Null) online.
Proof.
  intros Hin Hl Hk H0 He. destruct (maintain_start ts Hin Hl Hk H0 He) as (ts1 & E1 & L1 & A1 & Z1).
  rewrite Hl, <- L1 in Hin. destruct (stop_loop_ok online ts1 Hin L1 Z1) as (ts2 & E2 & A2 & _). by exists ts1, ts2.
Qed.

(** When the thread of CPU 0 cannot be created its slot keeps the error
    pointer, and turning the watchdog off then stops that pointer: an oops. *)
Theorem failed_start_breaks_stop {L : WdtLayout} rest w v :
  online = 0%nat :: rest -> (0 < NR_CPUS)%nat -> kthread_create 0%nat = ErrPtr -> u32 v <> 0 ->
  pWatchdogTask w !! 0%nat = Some Null ->
  exists w1, watchdog_write online NR_CPUS kthread_create v w = Some w1 /\
             watchdog_write online NR_CPUS kthread_create 0 w1 = None.
Proof.
  intros Ho Hn Hk Hv H0. unfold watchdog_write, maintain, wdt_thread_maintain.
  cbn [watchdog_flag set_flag pWatchdogTask]. rewrite (proj2 (Z.eqb_neq _ _) Hv). rewrite decide_True by done.
  rewrite Hk. rewrite (decide_True (P := ErrPtr = ErrPtr)) by done. eexists. split; [reflexivity|].
  change (u32 0 =? 0) with true. cbv iota. rewrite Ho. cbn [mbind option_bind stop_loop].
  rewrite (proj2 (Nat.leb_gt _ _) Hn). cbn [pWatchdogTask set_ctrl set_flag set_debug luna_watchdog_kick enable set_tasks].
  rewrite list_lookup_insert_eq; [done|]. by eapply lookup_lt_Some.
Qed.
End Life.

(** ** Concrete runs *)

#[local] Instance demo_layout : WdtLayout := {|
  WDT_E := 2 ^ 31; WDT_PH12_TO_MSK := 0x1f; WDT_PH1_TO_SHIFT := 22; WDT_PH2_TO_SHIFT := 15; WDT_CLK_SC_SHIFT := 29;
  layout_e := eq_refl; layout_msk := eq_refl; layout_ph1 := eq_refl; layout_ph2 := eq_refl; layout_sc := eq_refl
|}.
Definition demo_threads : threads := Threads {[ 1%nat; 2%nat ]} Asleep 0.

Lemma hung_cpu_starves_watchdog_witness :
  (kicks (run [0; 1; 2]%nat (Touch 1 :: replicate 30 Cpu0) demo_threads) <= 1)%nat.
Proof.
  pose proof (hung_cpu_starves_watchdog [0; 1; 2]%nat 2 (Touch 1 :: replicate 30 Cpu0) demo_threads) as Hx.
  destruct Hx as (_ & Hx & _); [lia|set_solver| |by apply Hx].
  cbn [replicate]. intros Hin. repeat (apply elem_of_cons in Hin as [Hin|Hin]; [discriminate|]). by apply elem_of_nil in Hin.
Defined.

Lemma live_cpus_get_a_kick_witness :
  (0 < kicks (run [0; 1; 2]%nat (replicate 4 Cpu0 ++ Touch 1 :: replicate 4 Cpu0) demo_threads))%nat.
Proof.
  apply (live_cpus_get_a_kick [0; 1; 2]%nat (replicate 4 Cpu0 ++ Touch 1 :: replicate 4 Cpu0) demo_threads);
    [reflexivity|apply Forall_forall; set_solver|by_compute].
Defined.

Lemma undisturbed_round_is_check_witness :
  exists n, run [0; 1; 2]%nat (replicate n Cpu0) demo_threads = CHECK_CPUS_AND_KICK [0; 1; 2]%nat demo_threads.
Proof. apply (undisturbed_round_is_check [0; 1; 2]%nat demo_threads). reflexivity. Defined.

Lemma threshold_reads_back_witness :
  show_usage (set_rtk_wdt_ph1_threshold (Settings 0 3 0) 31 0x80000000) = Usage 1 3 31 0 0.
Proof. rewrite threshold_reads_back; [by_compute|cbn; lia..]. Defined.

Lemma threads_start_and_stop_witness :
  exists ts1 ts2,
    wdt_thread_maintain [0; 1]%nat 4 (fun _ => Task) true [Null; Null; Null; Null] = Some ts1 /\
    Forall (fun c => ts1 !! c = Some Task) [0; 1]%nat /\
    wdt_thread_maintain [0; 1]%nat 4 (fun _ => Task) false ts1 = Some ts2 /\
    Forall (fun c => ts2 !! c = Some Null) [0; 1]%nat.
Proof.
  apply (threads_start_and_stop [0; 1]%nat 4 (fun _ => Task) [Null; Null; Null; Null]);
    [repeat constructor; simpl; lia|reflexivity|reflexivity|reflexivity|set_solver].
Defined.

Lemma failed_start_breaks_stop_witness :
  exists w1, watchdog_write [0%nat] 4 (fun _ => ErrPtr) 1 (Wdt 0 0 0 0 5 31 0 [Null]) = Some w1 /\
             watchdog_write [0%nat] 4 (fun _ => ErrPtr) 0 w1 = None.
Proof. apply (failed_start_breaks_stop [0%nat] 4 (fun _ => ErrPtr) []); [reflexivity|lia|reflexivity|by_compute|reflexivity]. Defined.
