(* ===== verification/Gpio.v ===== *)
(** * Gpio: the GPIO controller driver

    [drivers/gpio/gpio-rtk-soc.c].  The driver sits on the switch SDK's GPIO layer
    ([rtk_gpio_state_set] and its siblings), which is the class [GpioHal] here: what
    the calls do to the pins is stated there as laws, and the driver's theorems are
    proved against them.  The bank's own state is the record [bank]; the interrupt
    handler, the interrupt chip's callbacks and the registration of the banks are
    the driver's functions, one definition each. *)
From S2P Require Import Prelude.

(** ** The SDK's pin operations *)

(** Each call returns an error code and the new state; the getters return the
    value only when the code is 0. *)
Class GpioHal := {
  hal : Type;
  GPIO_INPUT : Z; GPIO_OUTPUT : Z; GPIO_INTR_DISABLE : Z;
  rtk_gpio_state_set : Z -> Z -> hal -> Z * hal;
  rtk_gpio_mode_set : Z -> Z -> hal -> Z * hal;
  rtk_gpio_mode_get : Z -> hal -> Z * Z;
  rtk_gpio_databit_set : Z -> Z -> hal -> Z * hal;
  rtk_gpio_databit_get : Z -> hal -> Z * Z;
  rtk_gpio_intr_set : Z -> Z -> hal -> Z * hal
}.

Definition RTK_GPIO_CFG_IN : Z := 0.
Definition GPIO_LINE_DIRECTION_OUT : Z := 0.
Definition GPIO_LINE_DIRECTION_IN : Z := 1.
Definition GPIO_MAX_BANK_NUM : nat := 3.
Definition GPIO_BANK_SIZE : Z := 32.
Definition GPIO_BANK_REG_OFFSET : Z := 0x1c.
Definition IRQ_TYPE_NONE : Z := 0.
Definition IRQ_TYPE_EDGE_RISING : Z := 1.
Definition IRQ_TYPE_EDGE_FALLING : Z := 2.
Definition IRQ_TYPE_EDGE_BOTH : Z := 3.

Section Driver.
Context {H : GpioHal}.

(** A bank with the SDK and the interrupt status register behind it; [acks] logs
    what is written to that register. *)
Record bank := Bank {
  sdk : hal;
  base : Z;
  imr : Z;
  trig_type : list Z;
  acks : list Z
}.
Definition set_sdk (h : hal) (b : bank) : bank := Bank h (base b) (imr b) (trig_type b) (acks b).
Definition set_imr (v : Z) (b : bank) : bank := Bank (sdk b) (base b) v (trig_type b) (acks b).

(** A call into the SDK whose error code is only printed. *)
Definition call (f : hal -> Z * hal) (b : bank) : bank := set_sdk (snd (f (sdk b))) b.

(** ** Pins *)

Definition rtk_gpio_request (offset : Z) (b : bank) : bank := call (rtk_gpio_state_set (base b + offset) 1) b.
Definition rtk_gpio_free (offset : Z) (b : bank) : bank := call (rtk_gpio_state_set (base b + offset) 0) b.

(** [junk] is what the uninitialised variable holds when the SDK reports an error. *)
Definition rtk_gpio_get_direction (junk offset : Z) (b : bank) : Z :=
  let '(ret, val) := rtk_gpio_mode_get (base b + offset) (sdk b) in
  let val := if ret =? 0 then val else junk in
  if val =? RTK_GPIO_CFG_IN then GPIO_LINE_DIRECTION_IN else GPIO_LINE_DIRECTION_OUT.

Definition rtk_gpio_direction_input (offset : Z) (b : bank) : bank :=
  let b := call (rtk_gpio_state_set (base b + offset) 1) b in
  call (rtk_gpio_mode_set (base b + offset) GPIO_INPUT) b.

Definition rtk_gpio_direction_output (offset output_value : Z) (b : bank) : bank :=
  let b := call (rtk_gpio_state_set (base b + offset) 1) b in
  let b := call (rtk_gpio_mode_set (base b + offset) GPIO_OUTPUT) b in
  call (rtk_gpio_databit_set (base b + offset) output_value) b.

Definition rtk_gpio_get (junk offset : Z) (b : bank) : Z :=
  let '(ret, value) := rtk_gpio_databit_get (base b + offset) (sdk b) in
  if ret =? 0 then value else junk.

Definition rtk_gpio_set (junk offset output_value : Z) (b : bank) : bank :=
  if rtk_gpio_get_direction junk offset b =? GPIO_LINE_DIRECTION_IN then b
  else call (rtk_gpio_databit_set (base b + offset) output_value) b.

(** ** Interrupt chip *)

Definition rtk_gpio_set_irq_type (hwirq : nat) (type : Z) (b : bank) : Z * bank :=
  let set t := (0, Bank (sdk b) (base b) (imr b) (<[hwirq := t]> (trig_type b)) (acks b)) in
  if type =? IRQ_TYPE_NONE then set 0
  else if type =? IRQ_TYPE_EDGE_FALLING then set 1
  else if type =? IRQ_TYPE_EDGE_RISING then set 2
  else if type =? IRQ_TYPE_EDGE_BOTH then set 3
  else (- EINVAL, b).

Definition rtk_gpio_ack_irq (hwirq : nat) (b : bank) : bank :=
  Bank (sdk b) (base b) (imr b) (trig_type b) (BIT (Z.of_nat hwirq) :: acks b).

Definition rtk_gpio_mask_irq (hwirq : nat) (b : bank) : bank :=
  let b := call (rtk_gpio_intr_set (base b + Z.of_nat hwirq) GPIO_INTR_DISABLE) b in
  set_imr (Z.land (imr b) (not32 (BIT (Z.of_nat hwirq)))) b.

Definition rtk_gpio_unmask_irq (hwirq : nat) (b : bank) : bank :=
  let b := call (rtk_gpio_intr_set (base b + Z.of_nat hwirq) (default 0 (trig_type b !! hwirq))) b in
  set_imr (Z.lor (imr b) (BIT (Z.of_nat hwirq))) b.

Definition rtk_gpio_startup_irq (hwirq : nat) (b : bank) : bank :=
  rtk_gpio_unmask_irq hwirq (rtk_gpio_direction_input (Z.of_nat hwirq) b).

(** ** Interrupt handler *)

(** [__ffs]: the lowest set bit of a word. *)
Fixpoint ffs_from (fuel : nat) (i : nat) (w : Z) : nat :=
  match fuel with
  | O => i
  | S f => if Z.testbit w (Z.of_nat i) then i else ffs_from f (S i) w
  end.
Definition ffs (w : Z) : nat := ffs_from 32 0 w.

(** The loop over the pending lines; [handle] is the kernel's handler of a line,
    which may call back into the interrupt chip.  Each turn clears a bit of the
    32-bit word, so 32 turns are enough. *)
Fixpoint irq_loop {S} (fuel : nat) (handle : nat -> S -> S) (isr : Z) (s : S) : S :=
  match fuel with
  | O => s
  | Datatypes.S f =>
      if isr =? 0 then s
      else let bit := ffs isr in
           irq_loop f handle (Z.land isr (not32 (BIT (Z.of_nat bit)))) (handle bit s)
  end.
Definition rtk_gpio_irq_handler {S} (handle : nat -> S -> S) (isr : Z) (b : bank) (s : S) : S :=
  irq_loop 32 handle (Z.land isr (imr b)) s.
End Driver.

(** ** Banks *)

(** A device-tree node of a bank: its properties, and the outcome of the kernel
    calls made for it (allocation, chip registration, interrupt mapping and
    setup). *)
Record node := Node {
  n_reg : option Z; n_ngpios : option Z; n_intc : bool;
  n_info_alloc : bool; n_bank_alloc : bool; n_add : Z; n_irq : Z; n_setup : Z
}.
Record bank_info := BankInfo { bi_index : nat; bi_reg : Z; bi_base : Z; bi_ngpio : Z }.

(** The banks the driver remembers, one slot per index, and the chips the kernel
    holds.  A bank is known by its place in memory, the number of its allocation. *)
Record gpio := GpioDev { info : list (option nat); chips : list (nat * bank_info); allocs : nat }.

(** Register offset, line base and number of lines of a bank. *)
Definition bank_layout (index : nat) (ngpios : option Z) : bank_info :=
  let off := Z.of_nat index * GPIO_BANK_REG_OFFSET in
  let n := default GPIO_BANK_SIZE ngpios in
  BankInfo index (if (index =? 2)%nat then off + 8 else off) (Z.of_nat index * GPIO_BANK_SIZE)
           (if GPIO_BANK_SIZE <? n then GPIO_BANK_SIZE else n).

(** The error code and the address of the bank. *)
Definition rtk_gpio_bank_probe (index : nat) (n : node) (p : gpio) : Z * nat * gpio :=
  let at_ := allocs p in
  if negb (n_bank_alloc n) then (- ENOMEM, at_, p)
  else
    let p := GpioDev (info p) (chips p) (S at_) in
    let bk := bank_layout index (n_ngpios n) in
    if n_add n <? 0 then (n_add n, at_, p)
    else
      let p := GpioDev (info p) ((at_, bk) :: chips p) (allocs p) in
      if negb (n_intc n) then (0, at_, p)
      else if n_irq n =? 0 then (0, at_, p)
      else (n_setup n, at_, p).

Fixpoint rtk_gpio_register_banks (nodes : list node) (p : gpio) : gpio :=
  match nodes with
  | [] => p
  | n :: rest =>
      match n_reg n with
      | None => rtk_gpio_register_banks rest p
      | Some addr =>
          if Z.of_nat GPIO_MAX_BANK_NUM <=? addr then rtk_gpio_register_banks rest p
          else if negb (n_info_alloc n) then p
          else
            let index := Z.to_nat addr in
            let '(ret, at_, p) := rtk_gpio_bank_probe index n p in
            if negb (ret =? 0) then rtk_gpio_register_banks rest p
            else rtk_gpio_register_banks rest (GpioDev (<[index := Some at_]> (info p)) (chips p) (allocs p))
      end
  end.

(** [rtk_gpio_probe] once the registers are mapped. *)
Definition rtk_gpio_probe (nodes : list node) : gpio :=
  rtk_gpio_register_banks nodes (GpioDev (replicate GPIO_MAX_BANK_NUM None) [] 0).

(** [rtk_gpio_remove]: the chips of the banks in the slots are taken out. *)
Definition rtk_gpio_remove (p : gpio) : gpio :=
  GpioDev (info p) (List.filter (fun '(a, _) => negb (bool_decide (Some a ∈ info p))) (chips p)) (allocs p).
