(* ===== verification/GpioSpec.v ===== *)
(** * GpioSpec: what the GPIO driver guarantees

    Against the laws of the SDK's pin layer: a line set to output shows the value
    and the direction asked for and no other line changes; the interrupt mask the
    handler uses is the state of the hardware; the handler runs exactly the pending
    unmasked lines, lowest first, once each. *)
From S2P Require Import Prelude Gpio.

(** ** Dispatch *)

Lemma clear_testbit v i j : is_u32 v -> (i < 32)%nat ->
  Z.testbit (Z.land v (not32 (BIT (Z.of_nat i)))) j = Z.testbit v j && negb (Z.of_nat i =? j).
Proof.
  intros Hv Hi. rewrite Z.land_spec. destruct (Z_lt_dec j 0); [by rewrite !(Z.testbit_neg_r _ j)|].
  destruct (Z_lt_dec j 32); [|by rewrite (u32_high v) by (done || lia)].
  rewrite not32_bit, BIT_bit by lia. done.
Qed.

Lemma clear_u32 v i : is_u32 v -> (i < 32)%nat -> is_u32 (Z.land v (not32 (BIT (Z.of_nat i)))).
Proof.
  intros Hv Hi. apply u32_of_bits; [apply Z.land_nonneg; left; apply Hv|]. intros j Hj.
  rewrite clear_testbit by done. by rewrite u32_high.
Qed.

Lemma land_u32 v w : is_u32 v -> is_u32 w -> is_u32 (Z.land v w).
Proof.
  intros Hv Hw. apply u32_of_bits; [apply Z.land_nonneg; left; apply Hv|]. intros j Hj.
  rewrite Z.land_spec. by rewrite u32_high.
Qed.

Lemma set_u32 v i : is_u32 v -> (i < 32)%nat -> is_u32 (Z.lor v (BIT (Z.of_nat i))).
Proof.
  intros Hv Hi. apply u32_of_bits.
  - apply Z.lor_nonneg. split; [apply Hv|]. unfold BIT. rewrite Z.shiftl_1_l. lia.
  - intros j Hj. rewrite Z.lor_spec, BIT_bit, u32_high by (done || lia). apply Z.eqb_neq. lia.
Qed.

(** The lines a word asks for, lowest first. *)
Definition lines_from (i n : nat) (w : Z) : list nat := List.filter (fun k => Z.testbit w (Z.of_nat k)) (seq i n).

Lemma ffs_from_spec fuel j i w : (j <= i < j + fuel)%nat ->
  (forall k, (k < i)%nat -> Z.testbit w (Z.of_nat k) = false) -> Z.testbit w (Z.of_nat i) = true -> ffs_from fuel j w = i.
Proof.
  revert j. induction fuel as [|f IH]; intros j Hj Hlow Hi; [lia|]. cbn [ffs_from].
  destruct (decide (j = i)) as [->|Hne]; [by rewrite Hi|]. rewrite Hlow by lia. apply IH; auto. lia.
Qed.

Lemma lines_from_clear i j n w : is_u32 w -> (i < 32)%nat -> (i < j)%nat ->
  lines_from j n (Z.land w (not32 (BIT (Z.of_nat i)))) = lines_from j n w.
Proof.
  intros Hw Hi Hj. unfold lines_from. apply List.filter_ext_in. intros k Hk%in_seq. rewrite clear_testbit by done.
  rewrite (proj2 (Z.eqb_neq _ _)) by lia. apply andb_true_r.
Qed.

Lemma irq_loop_spec {S} (handle : nat -> S -> S) n i fuel w s : (i + n = 32)%nat -> (n <= fuel)%nat -> is_u32 w ->
  (forall k, (k < i)%nat -> Z.testbit w (Z.of_nat k) = false) ->
  irq_loop fuel handle w s = foldl (fun s k => handle k s) s (lines_from i n w).
Proof.
  revert i fuel w s. induction n as [|n IH]; intros i fuel w s Hi Hf Hw Hlow.
  - assert (w = 0) as ->.
    { apply Z.bits_inj'. intros k Hk. rewrite Z.bits_0. destruct (Z_lt_dec k 32); [|apply u32_high; [done|lia]].
      rewrite <- (Z2Nat.id k) by lia. apply Hlow. lia. }
    by destruct fuel.
  - unfold lines_from. cbn [seq List.filter]. destruct (Z.testbit w (Z.of_nat i)) eqn:E.
    + destruct fuel as [|f]; [lia|]. cbn [irq_loop foldl].
      destruct (w =? 0) eqn:E0; bool_to_prop; [subst; by rewrite Z.bits_0 in E|].
      assert (ffs w = i) as -> by (apply ffs_from_spec; [lia|done|done]).
      rewrite (IH (Datatypes.S i)); [|lia|lia|apply clear_u32; [done|lia]|].
      * by rewrite lines_from_clear by (done || lia).
      * intros k Hk. rewrite clear_testbit by (done || lia). destruct (decide (k = i)) as [->|]; [by rewrite Z.eqb_refl, andb_false_r|].
        by rewrite Hlow by lia.
    + apply IH; [lia|lia|done|]. intros k Hk. destruct (decide (k = i)) as [->|]; [done|]. apply Hlow. lia.
Qed.

(** The interrupt handler serves exactly the lines that are pending and
    unmasked, each once and in ascending order, whatever the handlers of the lines
    do to the driver's state meanwhile. *)
Theorem irq_handler_serves_pending {H : GpioHal} {S} (handle : nat -> S -> S) isr b s :
  is_u32 isr -> is_u32 (imr b) ->
  rtk_gpio_irq_handler handle isr b s =
  foldl (fun s k => handle k s) s
    (List.filter (fun k => Z.testbit isr (Z.of_nat k) && Z.testbit (imr b) (Z.of_nat k)) (seq 0 32)).
Proof.
  intros Hi Hm. unfold rtk_gpio_irq_handler. rewrite (irq_loop_spec handle 32 0); [|done|done|by apply land_u32|lia].
  f_equal. apply List.filter_ext. intros k. apply Z.land_spec.
Qed.

(** ** The SDK's promises *)

(** Calls succeed, a getter returns what was last set on its line, a setter changes
    its own line only.  [intr_mode] is the trigger the hardware has for a line. *)
Class GpioLaws (H : GpioHal) := {
  gpio_in : GPIO_INPUT = RTK_GPIO_CFG_IN;
  gpio_out : GPIO_OUTPUT <> RTK_GPIO_CFG_IN;
  intr_mode : hal -> Z -> Z;
  mode_get_ok n h : fst (rtk_gpio_mode_get n h) = 0;
  data_get_ok n h : fst (rtk_gpio_databit_get n h) = 0;
  mode_set_mode n v m h :
    snd (rtk_gpio_mode_get m (snd (rtk_gpio_mode_set n v h))) = if m =? n then v else snd (rtk_gpio_mode_get m h);
  mode_set_data n v m h : m <> n ->
    snd (rtk_gpio_databit_get m (snd (rtk_gpio_mode_set n v h))) = snd (rtk_gpio_databit_get m h);
  data_set_mode n v m h : snd (rtk_gpio_mode_get m (snd (rtk_gpio_databit_set n v h))) = snd (rtk_gpio_mode_get m h);
  data_set_data n v m h : (m = n -> snd (rtk_gpio_mode_get n h) <> RTK_GPIO_CFG_IN) ->
    snd (rtk_gpio_databit_get m (snd (rtk_gpio_databit_set n v h))) =
    if m =? n then v else snd (rtk_gpio_databit_get m h);
  state_set_mode n v m h : snd (rtk_gpio_mode_get m (snd (rtk_gpio_state_set n v h))) = snd (rtk_gpio_mode_get m h);
  state_set_data n v m h : m <> n ->
    snd (rtk_gpio_databit_get m (snd (rtk_gpio_state_set n v h))) = snd (rtk_gpio_databit_get m h);
  intr_set_mode n v m h : intr_mode (snd (rtk_gpio_intr_set n v h)) m = if m =? n then v else intr_mode h m;
  state_set_intr n v m h : intr_mode (snd (rtk_gpio_state_set n v h)) m = intr_mode h m;
  mode_set_intr n v m h : intr_mode (snd (rtk_gpio_mode_set n v h)) m = intr_mode h m
}.

Section Pins.
Context {H : GpioHal} {laws : GpioLaws H} (junk : Z).

Lemma dir_eq off b : rtk_gpio_get_direction junk off b =
  if snd (rtk_gpio_mode_get (base b + off) (sdk b)) =? RTK_GPIO_CFG_IN then GPIO_LINE_DIRECTION_IN else GPIO_LINE_DIRECTION_OUT.
Proof.
  unfold rtk_gpio_get_direction. pose proof (mode_get_ok (base b + off) (sdk b)) as E.
  destruct (rtk_gpio_mode_get _ _) as [r v]. simpl in *. by subst.
Qed.
Lemma get_eq off b : rtk_gpio_get junk off b = snd (rtk_gpio_databit_get (base b + off) (sdk b)).
Proof.
  unfold rtk_gpio_get. pose proof (data_get_ok (base b + off) (sdk b)) as E.
  destruct (rtk_gpio_databit_get _ _) as [r v]. simpl in *. by subst.
Qed.

(** The other lines of the bank as they were. *)
Definition others_unchanged (off : Z) (b b' : bank) : Prop :=
  forall k, k <> off -> rtk_gpio_get_direction junk k b' = rtk_gpio_get_direction junk k b /\
                        rtk_gpio_get junk k b' = rtk_gpio_get junk k b.

(** Pins: a line made an output has that direction and shows the value; a line
    made an input has that direction; writing a value shows on an output line and
    leaves an input line alone; and none of these touches another line of the
    bank. *)
Theorem pin_operations_act_on_one_line off v b :
  (let b' := rtk_gpio_direction_output off v b in
   rtk_gpio_get_direction junk off b' = GPIO_LINE_DIRECTION_OUT /\ rtk_gpio_get junk off b' = v /\
   others_unchanged off b b') /\
  (let b' := rtk_gpio_direction_input off b in
   rtk_gpio_get_direction junk off b' = GPIO_LINE_DIRECTION_IN /\ others_unchanged off b b') /\
  (let b' := rtk_gpio_set junk off v b in
   if rtk_gpio_get_direction junk off b =? GPIO_LINE_DIRECTION_IN then b' = b
   else rtk_gpio_get junk off b' = v /\ others_unchanged off b b').
Proof.
  pose proof gpio_in as Hin. pose proof gpio_out as Hout. split_and!.
  - unfold others_unchanged, rtk_gpio_direction_output, call. cbv zeta. split_and!.
    + rewrite dir_eq. cbn [sdk base set_sdk]. rewrite data_set_mode, mode_set_mode, Z.eqb_refl.
      by rewrite (proj2 (Z.eqb_neq _ _) Hout).
    + rewrite get_eq. cbn [sdk base set_sdk]. rewrite data_set_data, Z.eqb_refl; [done|]. intros _.
      by rewrite mode_set_mode, Z.eqb_refl.
    + intros k Hk. rewrite !dir_eq, !get_eq. cbn [sdk base set_sdk].
      rewrite data_set_mode, mode_set_mode, state_set_mode, data_set_data by lia.
      rewrite (proj2 (Z.eqb_neq (base b + k) _)) by lia. by rewrite mode_set_data, state_set_data by lia.
  - unfold others_unchanged, rtk_gpio_direction_input, call. cbv zeta. split.
    + rewrite dir_eq. cbn [sdk base set_sdk]. rewrite mode_set_mode, Z.eqb_refl, Hin. by rewrite Z.eqb_refl.
    + intros k Hk. rewrite !dir_eq, !get_eq. cbn [sdk base set_sdk].
      rewrite mode_set_mode, state_set_mode, mode_set_data, state_set_data by lia.
      by rewrite (proj2 (Z.eqb_neq (base b + k) _)) by lia.
  - unfold rtk_gpio_set. cbv zeta. destruct (rtk_gpio_get_direction junk off b =? GPIO_LINE_DIRECTION_IN) eqn:E; [done|].
    unfold others_unchanged, call. rewrite dir_eq in E. split.
    + rewrite get_eq. cbn [sdk base set_sdk]. rewrite data_set_data, Z.eqb_refl; [done|]. intros _ Hm.
      by rewrite Hm in E.
    + intros k Hk. rewrite !dir_eq, !get_eq. cbn [sdk base set_sdk]. rewrite data_set_mode, data_set_data by lia.
      by rewrite (proj2 (Z.eqb_neq (base b + k) _)) by lia.
Qed.

(** ** Interrupt masks *)

Inductive irq_op := SetType (i : nat) (t : Z) | Ack (i : nat) | Mask (i : nat) | Unmask (i : nat) | Startup (i : nat).
Definition line_of (op : irq_op) : nat :=
  match op with SetType i _ | Ack i | Mask i | Unmask i | Startup i => i end.
Definition do_op (op : irq_op) (b : bank) : bank :=
  match op with
  | SetType i t => snd (rtk_gpio_set_irq_type i t b)
  | Ack i => rtk_gpio_ack_irq i b
  | Mask i => rtk_gpio_mask_irq i b
  | Unmask i => rtk_gpio_unmask_irq i b
  | Startup i => rtk_gpio_startup_irq i b
  end.
Definition run_ops (ops : list irq_op) (b : bank) : bank := foldl (fun b op => do_op op b) b ops.

(** Whether line [i] is on after an operation. *)
Definition armed (i : nat) (on : bool) (op : irq_op) : bool :=
  match op with
  | Mask j => if (j =? i)%nat then false else on
  | Unmask j | Startup j => if (j =? i)%nat then true else on
  | _ => on
  end.

(** A masked line is off in the hardware. *)
Definition coherent (b : bank) : Prop :=
  is_u32 (imr b) /\
  forall i, (i < 32)%nat -> Z.testbit (imr b) (Z.of_nat i) = false -> intr_mode (sdk b) (base b + Z.of_nat i) = GPIO_INTR_DISABLE.

Lemma mask_ok i b : (i < 32)%nat -> coherent b ->
  coherent (rtk_gpio_mask_irq i b) /\
  (forall k, Z.testbit (imr (rtk_gpio_mask_irq i b)) (Z.of_nat k) = armed k (Z.testbit (imr b) (Z.of_nat k)) (Mask i)).
Proof.
  intros Hi [Hu Hc]. split; [split|].
  - by apply clear_u32.
  - intros k Hk. cbn [rtk_gpio_mask_irq set_imr call imr sdk base set_sdk]. rewrite clear_testbit by done.
    rewrite intr_set_mode. destruct (base b + Z.of_nat k =? base b + Z.of_nat i) eqn:E; [done|]. bool_to_prop.
    rewrite (proj2 (Z.eqb_neq (Z.of_nat i) _)) by lia. rewrite andb_true_r. by apply Hc.
  - intros k. cbn [rtk_gpio_mask_irq set_imr call imr set_sdk armed]. rewrite clear_testbit by done.
    destruct (decide (i = k)) as [->|Hne]; [by rewrite Z.eqb_refl, Nat.eqb_refl, andb_false_r|].
    rewrite (proj2 (Z.eqb_neq _ _)), (proj2 (Nat.eqb_neq _ _)) by lia. apply andb_true_r.
Qed.

Lemma unmask_ok i b : (i < 32)%nat -> coherent b ->
  coherent (rtk_gpio_unmask_irq i b) /\
  (forall k, Z.testbit (imr (rtk_gpio_unmask_irq i b)) (Z.of_nat k) = armed k (Z.testbit (imr b) (Z.of_nat k)) (Unmask i)).
Proof.
  intros Hi [Hu Hc]. split; [split|].
  - by apply set_u32.
  - intros k Hk. cbn [rtk_gpio_unmask_irq set_imr call imr sdk base set_sdk]. rewrite Z.lor_spec, BIT_bit by lia.
    intros [Hb Hne]%orb_false_iff. bool_to_prop. rewrite intr_set_mode, (proj2 (Z.eqb_neq _ _)) by lia. by apply Hc.
  - intros k. cbn [rtk_gpio_unmask_irq set_imr call imr set_sdk armed]. rewrite Z.lor_spec, BIT_bit by lia.
    destruct (decide (i = k)) as [->|Hne]; [by rewrite Z.eqb_refl, Nat.eqb_refl, orb_true_r|].
    rewrite (proj2 (Z.eqb_neq _ _)), (proj2 (Nat.eqb_neq _ _)) by lia. apply orb_false_r.
Qed.

Lemma input_coherent off b : coherent b -> coherent (rtk_gpio_direction_input off b).
Proof.
  intros [Hu Hc]. split; [done|]. intros i Hi Hb. cbn [rtk_gpio_direction_input call sdk base imr set_sdk] in *.
  rewrite mode_set_intr, state_set_intr. by apply Hc.
Qed.

Lemma do_op_ok op b : (line_of op < 32)%nat -> coherent b ->
  coherent (do_op op b) /\
  (forall k, Z.testbit (imr (do_op op b)) (Z.of_nat k) = armed k (Z.testbit (imr b) (Z.of_nat k)) op).
Proof.
  intros Hi Hc. destruct op as [i t|i|i|i|i]; cbn [do_op line_of] in *.
  - unfold rtk_gpio_set_irq_type. repeat case_match; done.
  - done.
  - by apply mask_ok.
  - by apply unmask_ok.
  - destruct (unmask_ok i (rtk_gpio_direction_input (Z.of_nat i) b) Hi (input_coherent _ _ Hc)) as [H1 H2]. by split.
Qed.

(** The mask the handler consults is the truth: after any sequence of
    callbacks of the interrupt chip a line's mask bit says whether it was last
    unmasked (or started) or masked, and every line whose bit is off is disabled in
    the hardware. *)
Theorem irq_mask_tracks_hardware ops b :
  coherent b -> Forall (fun op => line_of op < 32)%nat ops ->
  let b' := run_ops ops b in
  (forall i, Z.testbit (imr b') (Z.of_nat i) = foldl (armed i) (Z.testbit (imr b) (Z.of_nat i)) ops) /\
  (forall i, (i < 32)%nat -> Z.testbit (imr b') (Z.of_nat i) = false ->
     intr_mode (sdk b') (base b' + Z.of_nat i) = GPIO_INTR_DISABLE).
Proof.
  intros Hc Hops. cbv zeta.
  assert (coherent (run_ops ops b) /\
    forall i, Z.testbit (imr (run_ops ops b)) (Z.of_nat i) = foldl (armed i) (Z.testbit (imr b) (Z.of_nat i)) ops) as [H1 H2].
  { revert b Hc. induction Hops as [|op ops Hop _ IH]; intros b Hc; [done|]. destruct (do_op_ok op b Hop Hc) as [Hc' Hb].
    destruct (IH (do_op op b) Hc') as [H1 H2]. split; [exact H1|]. intros i. cbn [foldl]. rewrite <- Hb. apply H2. }
  split; [done|]. apply H1.
Qed.
End Pins.

(** ** Registration *)

(** The lines and the registers of two banks never overlap. *)
Theorem banks_are_disjoint i j ni nj : (i < GPIO_MAX_BANK_NUM)%nat -> (j < GPIO_MAX_BANK_NUM)%nat -> (i < j)%nat ->
  let a := bank_layout i ni in
  let b := bank_layout j nj in
  bi_base a + bi_ngpio a <= bi_base b /\ bi_reg a + 0x14 <= bi_reg b.
Proof.
  intros Hi Hj Hij. unfold GPIO_MAX_BANK_NUM, bank_layout, GPIO_BANK_SIZE, GPIO_BANK_REG_OFFSET in *. cbn [bi_base bi_ngpio bi_reg].
  split; [destruct (32 <? default 32 ni) eqn:E; bool_to_prop; lia|].
  destruct i as [|[|[|i]]], j as [|[|[|j]]]; cbn [Nat.eqb]; lia.
Qed.

(** A bank whose interrupt setup fails after its chip was registered is forgotten
    by the driver, and unloading leaves its chip behind. *)
Theorem failed_irq_setup_leaks_chip :
  let n := Node (Some 1) (Some 32) true true true 0 7 (- ENOMEM) in
  chips (rtk_gpio_remove (rtk_gpio_probe [n])) = [(0%nat, bank_layout 1 (Some 32))].
Proof. reflexivity. Qed.

(** ** A pin layer that keeps the laws *)

Record sim_pins := SimPins { p_mode : Z -> Z; p_data : Z -> Z; p_intr : Z -> Z }.
Definition put (n v : Z) (f : Z -> Z) : Z -> Z := fun m => if m =? n then v else f m.
Definition sim_hal : GpioHal := {|
  hal := sim_pins; GPIO_INPUT := 0; GPIO_OUTPUT := 1; GPIO_INTR_DISABLE := 0;
  rtk_gpio_state_set n v h := (0, h);
  rtk_gpio_mode_set n v h := (0, SimPins (put n v (p_mode h)) (p_data h) (p_intr h));
  rtk_gpio_mode_get n h := (0, p_mode h n);
  rtk_gpio_databit_set n v h := (0, SimPins (p_mode h) (put n v (p_data h)) (p_intr h));
  rtk_gpio_databit_get n h := (0, p_data h n);
  rtk_gpio_intr_set n v h := (0, SimPins (p_mode h) (p_data h) (put n v (p_intr h)))
|}.
#[local] Instance sim_laws : GpioLaws sim_hal.
Proof. by refine {| intr_mode := p_intr : hal (GpioHal := sim_hal) -> Z -> Z |}. Defined.

Definition demo_bank : bank (H := sim_hal) :=
  Bank (H := sim_hal) (SimPins (fun _ => 0) (fun _ => 0) (fun _ => 0)) 32 0 (replicate 32 0) [].

Lemma irq_handler_serves_pending_witness :
  rtk_gpio_irq_handler (fun k l => l ++ [k]) 0x80000012 (set_imr 0x80000003 demo_bank) [] = [1; 31]%nat.
Proof. rewrite irq_handler_serves_pending; [by_compute|by_compute|by_compute]. Defined.

Lemma pin_operations_act_on_one_line_witness :
  rtk_gpio_get 7 5 (rtk_gpio_direction_output 5 1 demo_bank) = 1.
Proof. exact (proj1 (proj2 (proj1 (pin_operations_act_on_one_line 7 5 1 demo_bank)))). Defined.

Lemma irq_mask_tracks_hardware_witness :
  let b := run_ops [SetType 4 3; Startup 4; Mask 4] demo_bank in
  intr_mode (sdk b) (base b + 4) = 0.
Proof.
  intros b. pose proof (irq_mask_tracks_hardware [SetType 4 3; Startup 4; Mask 4] demo_bank) as Hx.
  cbv zeta in Hx. destruct Hx as [_ Hx].
  - split; [by_compute|]. by intros.
  - repeat constructor; simpl; lia.
  - apply (Hx 4%nat); [lia|by_compute].
Defined.
