(* ===== verification/DnsTrap.v ===== *)
(** * DnsTrap: answering DNS queries for the router's own name

    [drivers/net/ethernet/realtek/rtk_dns_trap.c].  The driver looks at the packets
    of the LAN bridge, parses DNS queries and, when the name is the router's, turns
    the packet around in place into an answer with the bridge's address.  Packets
    are lists of bytes; every read and write is checked against the packet, so that
    [None] is an access outside of it (or a NULL dereference).  The machine is
    big-endian, [ntohs] and [htons] are the identity. *)
From Stdlib Require Import String.
From S2P Require Import Prelude.

(** ** Bytes *)

Definition rd8 (l : list Z) (i : nat) : option Z := l !! i.
Definition rd16 (l : list Z) (i : nat) : option Z := a ← l !! i; b ← l !! S i; Some (a * 256 + b).
Definition bytes (l : list Z) (i n : nat) : option (list Z) :=
  if (i + n <=? length l)%nat then Some (slice i n l) else None.
Definition put (l : list Z) (i : nat) (bs : list Z) : option (list Z) :=
  if (i + length bs <=? length l)%nat then Some (blit i bs l) else None.
Definition be16 (v : Z) : list Z := [u8 (Z.shiftr v 8); u8 v].
Definition s16 (v : Z) : Z := (v + 2 ^ 15) mod 2 ^ 16 - 2 ^ 15.

(** The C string at the start of a buffer. *)
Fixpoint cstr (l : list Z) : list Z :=
  match l with
  | [] => []
  | c :: l' => if c =? 0 then [] else c :: cstr l'
  end.
(** [strncat] *)
Definition strncat (s t : list Z) (n : nat) : list Z := s ++ take n t.

(** ** Names *)

(** [isupper] of the kernel's character table (ISO 8859-1) and [__tolower]. *)
Definition isupper (c : Z) : bool :=
  ((0x41 <=? c) && (c <=? 0x5a)) || ((0xc0 <=? c) && (c <=? 0xd6)) || ((0xd8 <=? c) && (c <=? 0xde)).
Definition tolower (c : Z) : Z := if isupper c then c + 32 else c.
Definition str_to_lower (s : list Z) : list Z := tolower <$> s.

Definition www : list Z := [0x77; 0x77; 0x77; 0x2e].
Definition strip_www (s : list Z) : list Z := if decide (take 4 s = www) then drop 4 s else s.
Definition is_domain_name_equal (domain_name1 domain_name2 : list Z) : bool :=
  bool_decide (strip_www (str_to_lower domain_name1) = strip_www (str_to_lower domain_name2)).

(** The label loop of [get_domain_name]: where it stopped and the name so far.
    [token] has 64 bytes and [domain] 128; the first label is copied with [memcpy],
    the others are appended. *)
Fixpoint label_loop (fuel : nat) (dns_body : list Z) (body_len : Z) (offset : nat) (domain : list Z)
    : option (nat * list Z) :=
  if body_len <=? 0 then Some (offset, domain)
  else match fuel with
  | O => Some (offset, domain)
  | S f =>
      token_len ← rd8 dns_body offset;
      if (0 <? token_len) && (token_len <=? body_len) then
        token ← bytes dns_body (S offset) (Z.to_nat token_len);
        if 64 <? token_len then None
        else
          let domain' :=
            match domain with
            | [] => cstr (take 63 token)
            | _ => let d := strncat domain [0x2e] (127 - length domain) in
                   strncat d (cstr token) (127 - length d)
            end in
          label_loop f dns_body (body_len - (token_len + 1)) (offset + Z.to_nat (token_len + 1)) domain'
      else Some (offset, domain)
  end.

Definition get_domain_name (dns_body : list Z) (body_len : Z) : option (Z * list Z) :=
  if body_len <=? 0 then Some (-1, [])
  else
    p ← label_loop (Z.to_nat body_len) dns_body body_len 0 [];
    type ← rd16 dns_body (fst p + 1);
    Some (s16 type, snd p).

(** ** Packets *)

(** The DNS header structure, which its own header file defines; the layout is the
    one of RFC 1035. *)
Class DnsHeader := {
  sizeof_dnsheader : nat; dns_u : nat; dns_qdcount : nat; dns_ancount : nat; dns_nscount : nat; dns_arcount : nat;
  rfc1035 : (sizeof_dnsheader, dns_u, dns_qdcount, dns_ancount, dns_nscount, dns_arcount) = (12, 2, 4, 6, 8, 10)%nat
}.

Section Trap.
Context {hdr : DnsHeader}.
(** [ipv6_find_hdr] for UDP, and the kernel's checksum routines: of an IP header,
    and of a UDP segment with its pseudo header. *)
Context (find_udp : list Z -> nat -> option nat) (ip_fast_csum : list Z -> Z)
        (udp_csum : list Z -> list Z -> Z -> list Z -> Z).

Definition is_valid_dns_query_header (l : list Z) (at_ : nat) : option bool :=
  qdcount ← rd16 l (at_ + dns_qdcount);
  u ← rd16 l (at_ + dns_u);
  Some (negb (qdcount <? 1) && (Z.shiftr (Z.land u 0x8000) 15 =? 0) && (Z.shiftr (Z.land u 0x7100) 11 =? 0)
        && (Z.shiftr (Z.land u 0x70) 4 =? 0)).

(** The bridge: its MAC address, its IPv4 addresses with their labels, its first
    IPv6 address. *)
Record in_ifaddr := InIfaddr { ifa_label : string; ifa_address : list Z }.
Record netdev := Netdev { dev_addr : list Z; ifa_list : option (list in_ifaddr); ifa6 : option (list Z) }.
Record config := Config {
  use_controller_info : bool;
  controller_addr : list Z;      (* what in4_pton makes of controller_ip *)
  domain_name : list Z;
  skb_mark : Z;
  br0 : option netdev
}.

Definition LANIF : string := "br0".
Definition LAN_ALIAS : string := "br0:0".

(** The address loop: an alias ends it, a plain bridge address is remembered. *)
Fixpoint pick_address (l : list in_ifaddr) (found : option (list Z)) : option (list Z) :=
  match l with
  | [] => found
  | a :: l' =>
      if String.eqb (ifa_label a) LAN_ALIAS then Some (ifa_address a)
      else if String.eqb (ifa_label a) LANIF then pick_address l' (Some (ifa_address a))
      else pick_address l' found
  end.

Record skb := Skb { vlan : bool; h_dest : list Z; h_source : list Z; data : list Z; mark : Z; sent : bool }.
Definition set_data (d : list Z) (s : skb) : skb := Skb (vlan s) (h_dest s) (h_source s) d (mark s) (sent s).

Definition dns_answer : list Z := [0xC0; 0x0C; 0x00; 0x01; 0x00; 0x01; 0x00; 0x00; 0x00; 0x00; 0x00; 0x04].
Definition dns_answer_v6 : list Z := [0xC0; 0x0C; 0x00; 0x1C; 0x00; 0x01; 0x00; 0x00; 0x00; 0x00; 0x00; 0x10].

(** Swap two fields of [n] bytes. *)
Definition swap (d : list Z) (i j n : nat) : option (list Z) :=
  a ← bytes d i n; b ← bytes d j n; d ← put d i b; put d j a.

(** The headers turned around, lengths extended, the DNS header that of an answer. *)
Definition turn_around (ip_ver : Z) (off udp : nat) (ulen ext : Z) (d : list Z) : option (list Z) :=
  d ← (if ip_ver =? 1 then
         d ← swap d (off + 8) (off + 24) 16;
         len ← rd16 d (off + 4); put d (off + 4) (be16 (len + ext))
       else
         d ← swap d (off + 12) (off + 16) 4;
         len ← rd16 d (off + 2); put d (off + 2) (be16 (len + ext)));
  d ← swap d udp (udp + 2) 2;
  d ← put d (udp + 4) (be16 (ulen + ext));
  let dns := (udp + 8)%nat in
  d ← put d (dns + dns_u) (be16 0x8180);
  d ← put d (dns + dns_qdcount) (be16 1);
  d ← put d (dns + dns_ancount) (be16 1);
  d ← put d (dns + dns_nscount) (be16 0);
  put d (dns + dns_arcount) (be16 0).

(** Both checksums; [ihl] is the length of the IPv4 header in bytes. *)
Definition checksums (ip_ver : Z) (off ihl udp : nat) (len : Z) (d : list Z) : option (list Z) :=
  d ← (if ip_ver =? 0 then
         d ← put d (off + 10) (be16 0);
         h ← bytes d off ihl; put d (off + 10) (be16 (ip_fast_csum h))
       else Some d);
  d ← put d (udp + 6) (be16 0);
  seg ← bytes d udp (Z.to_nat len);
  let '(s, t, n) := if ip_ver =? 1 then (off + 8, off + 24, 16)%nat else (off + 12, off + 16, 4)%nat in
  sa ← bytes d s n; da ← bytes d t n;
  put d (udp + 6) (be16 (udp_csum sa da len seg)).

(** [rtk_dns_packet_recap]: the return value and the packet, sent or as it was left.
    [tail] is what [skb_put] finds behind the packet. *)
Definition rtk_dns_packet_recap (cfg : config) (tail : list Z) (type ip_ver : Z) (s : skb) : option (Z * skb) :=
  let off := if vlan s then 4%nat else 0%nat in
  let d := data s in
  if negb (type =? 0x01) && negb (type =? 0x1c) then Some (-1, s)
  else
    let ext := if type =? 0x01 then 16 else 28 in
    dev ← br0 cfg;
    match ifa_list dev with
    | None => Some (-1, s)
    | Some ifas =>
        ihl ← (if ip_ver =? 1 then Some 0%nat else v ← rd8 d off; Some (Z.to_nat (Z.land v 0xf) * 4)%nat);
        match (if ip_ver =? 1 then find_udp d off else Some (off + ihl)%nat) with
        | None => Some (-1, s)
        | Some udp =>
            ulen ← rd16 d (udp + 4);
            let ptr := (udp + Z.to_nat ulen)%nat in
            let s := Skb (vlan s) (h_source s) (dev_addr dev) (d ++ take (Z.to_nat ext) tail) (mark s) (sent s) in
            d ← turn_around ip_ver off udp ulen ext (data s);
            d ← put d ptr (if type =? 0x01 then dns_answer else dns_answer_v6);
            addr ← (if type =? 0x01 then
                      Some (if use_controller_info cfg then Some (controller_addr cfg) else pick_address ifas None)
                    else a ← ifa6 dev; Some (Some a));
            match addr with
            | None => Some (-1, set_data d s)
            | Some a =>
                d ← put d (ptr + 12) a;
                d ← checksums ip_ver off ihl udp (u16 (ulen + ext)) d;
                Some (0, Skb (vlan s) (h_dest s) (h_source s) d (Z.lor (mark s) (u32 (Z.shiftl 1 (skb_mark cfg)))) true)
            end
        end
    end.

(** Whether the packet is a DNS query by its headers: the IP version and where the
    UDP header is; [None] inside when it is not, an error when an IPv6 packet has
    no UDP header. *)
Definition dns_packet (s : skb) : option (Z + option (Z * nat)) :=
  let off := if vlan s then 4%nat else 0%nat in
  let d := data s in
  b ← rd8 d off;
  if Z.shiftr b 4 =? 4 then
    proto ← rd8 d (off + 9);
    if proto =? 17 then
      let udp := (off + Z.to_nat (Z.land b 0xf) * 4)%nat in
      dest ← rd16 d (udp + 2);
      if dest =? 53 then
        frag ← rd16 d (off + 6);
        tot_len ← rd16 d (off + 2);
        ulen ← rd16 d (udp + 4);
        if (Z.land frag 0x3FFF =? 0) && (20 <=? u16 (tot_len - ulen)) then Some (inr (Some (0, udp)))
        else Some (inr None)
      else Some (inr None)
    else Some (inr None)
  else if Z.shiftr b 4 =? 6 then
    match find_udp d off with
    | None => Some (inl (-1))
    | Some udp =>
        dest ← rd16 d (udp + 2);
        Some (inr (if dest =? 53 then Some (1, udp) else None))
    end
  else Some (inr None).

Definition rtk_dns_trap_enter (cfg : config) (tail : list Z) (s : skb) : option (Z * skb) :=
  p ← dns_packet s;
  match p with
  | inl e => Some (e, s)
  | inr None => Some (-1, s)
  | inr (Some (ip_ver, udp)) =>
      ulen ← rd16 (data s) (udp + 4);
      let len := ulen - 8 - Z.of_nat sizeof_dnsheader - 4 in
      if (len <=? 1) || (63 <? len) then Some (-1, s)
      else
        ok ← is_valid_dns_query_header (data s) (udp + 8);
        if negb ok then Some (-1, s)
        else
          q ← get_domain_name (drop (udp + 8 + sizeof_dnsheader) (data s)) len;
          let '(type, domain) := q in
          if negb (type =? 0x01) && negb (type =? 0x1c) then Some (-1, s)
          else if is_domain_name_equal domain (domain_name cfg) then rtk_dns_packet_recap cfg tail type ip_ver s
          else Some (-1, s)
  end.
End Trap.
