(* ===== verification/DnsTrapSpec.v ===== *)
(** * DnsTrapSpec: what the DNS trap guarantees

    The name parser stays inside the query and its buffers whatever the bytes are,
    and recovers the name of every well-formed query; queries for the router's name,
    in any case and with or without "www.", are answered, others passed on; the
    answer is the query turned around with the bridge's address appended. *)
From Stdlib Require Import String.
From S2P Require Import Prelude DnsTrap.

(** ** The parser stays in bounds *)

Lemma bytes_Some l i n : (i + n <= length l)%nat -> bytes l i n = Some (slice i n l).
Proof. intros Hn. unfold bytes. by rewrite (proj2 (Nat.leb_le _ _) Hn). Qed.
Lemma put_Some l i bs : (i + length bs <= length l)%nat -> put l i bs = Some (blit i bs l).
Proof. intros Hn. unfold put. by rewrite (proj2 (Nat.leb_le _ _) Hn). Qed.

Lemma length_cstr l : (length (cstr l) <= length l)%nat.
Proof. induction l as [|c l IH]; simpl; [lia|]. destruct (c =? 0); simpl; lia. Qed.

Lemma length_strncat s t n : (length (strncat s t n) <= length s + n)%nat.
Proof. unfold strncat. rewrite length_app, length_take. lia. Qed.

Lemma label_loop_safe fuel body len off dom :
  len <= Z.of_nat fuel -> Forall (fun b => 0 <= b) body -> len <= 63 -> (0 <= len \/ len = -1) ->
  Z.of_nat off + len + 4 = Z.of_nat (length body) -> (length dom <= 127)%nat ->
  exists off' dom', label_loop fuel body len off dom = Some (off', dom') /\
    (off' + 3 <= length body)%nat /\ (length dom' <= 127)%nat.
Proof.
  revert len off dom. induction fuel as [|f IH]; intros len off dom Hf Hb H63 Hlen Hoff Hdom; cbn [label_loop];
    (destruct (len <=? 0) eqn:E; bool_to_prop; [exists off, dom; split_and!; [done|lia|done]|]); [lia|].
  destruct (lookup_lt_is_Some_2 body off) as [t Ht]; [lia|]. unfold rd8. rewrite Ht. cbn [mbind option_bind].
  assert (0 <= t) as Ht0 by (rewrite Forall_lookup in Hb; by apply (Hb off)).
  destruct ((0 <? t) && (t <=? len)) eqn:Et; bool_to_prop; [|exists off, dom; split_and!; [done|lia|done]].
  rewrite bytes_Some by lia. cbn [mbind option_bind]. rewrite (proj2 (Z.ltb_ge 64 t)) by lia. apply IH; try done; try lia.
  destruct dom as [|c dom].
  - pose proof (length_cstr (take 63 (slice (S off) (Z.to_nat t) body))) as Hc. rewrite length_take in Hc. lia.
  - set (d := strncat (c :: dom) _ _). pose proof (length_strncat (c :: dom) [0x2e] (127 - length (c :: dom))) as H1.
    fold d in H1. pose proof (length_strncat d (cstr (slice (S off) (Z.to_nat t) body)) (127 - length d)). lia.
Qed.

(** Parsing a query never leaves its buffers: for every content of a query
    whose name part has 1 to 63 bytes (what the trap lets through), followed by the
    four bytes of type and class, each byte read is inside the query, no label
    overruns its buffer, and the name found fits in 127 bytes. *)
Theorem name_parser_stays_in_bounds body len :
  0 < len <= 63 -> length body = Z.to_nat (len + 4) -> Forall (fun b => 0 <= b < 256) body ->
  exists type domain, get_domain_name body len = Some (type, domain) /\ (length domain <= 127)%nat.
Proof.
  intros Hlen Hl Hb. unfold get_domain_name. rewrite (proj2 (Z.leb_gt len 0)) by lia.
  destruct (label_loop_safe (Z.to_nat len) body len 0 []) as (off & dom & E & Hoff & Hdom); simpl; try lia.
  { eapply Forall_impl; [exact Hb|]. simpl. lia. }
  rewrite E. cbn [mbind option_bind fst snd]. unfold rd16.
  destruct (lookup_lt_is_Some_2 body (off + 1)) as [a Ha]; [lia|].
  destruct (lookup_lt_is_Some_2 body (S (off + 1))) as [b' Hb']; [lia|]. rewrite Ha, Hb'. cbn [mbind option_bind].
  by eexists _, _.
Qed.

(** ** Names survive *)

(** The wire form of a name and its text. *)
Definition enc_label (l : list Z) : list Z := Z.of_nat (length l) :: l.
Definition enc_name (ls : list (list Z)) : list Z := concat (enc_label <$> ls) ++ [0].
Fixpoint dotted (ls : list (list Z)) : list Z :=
  match ls with
  | [] => []
  | [l] => l
  | l :: ls' => l ++ [0x2e] ++ dotted ls'
  end.
(** A label has 1 to 63 bytes, none of them NUL. *)
Definition label_ok (l : list Z) : Prop := (1 <= length l <= 63)%nat /\ Forall (fun c => 0 < c < 256) l.

Lemma cstr_id l : Forall (fun c => 0 < c < 256) l -> cstr l = l.
Proof. induction 1 as [|c l Hc _ IH]; [done|]. simpl. rewrite (proj2 (Z.eqb_neq c 0)) by lia. by rewrite IH. Qed.

(** The text after more labels. *)
Definition extend (dom : list Z) (ls : list (list Z)) : list Z :=
  match ls with [] => dom | _ => match dom with [] => dotted ls | _ => dom ++ [0x2e] ++ dotted ls end end.

Lemma length_enc_label l : length (enc_label l) = S (length l).
Proof. done. Qed.

Lemma length_enc_cons l ls : length (enc_name (l :: ls)) = (S (length l) + length (enc_name ls))%nat.
Proof. unfold enc_name. cbn [fmap list_fmap concat]. rewrite !length_app, length_enc_label. simpl. lia. Qed.

Lemma slice_middle (a b c : list Z) : slice (length a) (length b) (a ++ b ++ c) = b.
Proof. unfold slice. by rewrite drop_app_length, take_app_length. Qed.

Lemma label_loop_decodes fuel pre ls rest dom :
  Forall label_ok ls -> (length (enc_name ls) <= fuel)%nat -> (length dom + length (enc_name ls) <= 127)%nat ->
  label_loop fuel (pre ++ enc_name ls ++ rest) (Z.of_nat (length (enc_name ls))) (length pre) dom =
  Some (length pre + length (enc_name ls) - 1, extend dom ls)%nat.
Proof.
  revert fuel pre dom. induction ls as [|l ls IH]; intros fuel pre dom Hls Hf Hd.
  - destruct fuel as [|f]; [simpl in Hf; lia|]. cbn [label_loop]. rewrite (proj2 (Z.leb_gt _ 0)) by (simpl; lia).
    unfold rd8. rewrite (lookup_app_r pre) by lia. rewrite Nat.sub_diag. cbn. f_equal. f_equal. lia.
  - apply Forall_cons in Hls as [[Hl Hc] Hls]. rewrite length_enc_cons in *. destruct fuel as [|f]; [lia|].
    cbn [label_loop]. rewrite (proj2 (Z.leb_gt _ 0)) by lia.
    assert (pre ++ enc_name (l :: ls) ++ rest = (pre ++ [Z.of_nat (length l)]) ++ l ++ enc_name ls ++ rest) as Eb.
    { unfold enc_name. cbn [fmap list_fmap concat]. unfold enc_label at 1. by rewrite <- !app_assoc. }
    assert (rd8 (pre ++ enc_name (l :: ls) ++ rest) (length pre) = Some (Z.of_nat (length l))) as ->.
    { unfold rd8. rewrite Eb, <- app_assoc, lookup_app_r, Nat.sub_diag by lia. done. }
    cbn [mbind option_bind]. rewrite (proj2 (Z.ltb_lt 0 _)), (proj2 (Z.leb_le (Z.of_nat (length l)) _)) by lia. cbn [andb].
    assert (length (pre ++ [Z.of_nat (length l)]) = S (length pre)) as Ep by (rewrite length_app; simpl; lia).
    assert (bytes (pre ++ enc_name (l :: ls) ++ rest) (S (length pre)) (Z.to_nat (Z.of_nat (length l))) = Some l) as ->.
    { rewrite Nat2Z.id, Eb. rewrite bytes_Some by (rewrite !length_app, Ep in *; simpl; lia).
      rewrite <- Ep. by rewrite slice_middle. }
    cbn [mbind option_bind]. rewrite (proj2 (Z.ltb_ge 64 _)) by lia.
    match goal with |- label_loop f _ _ _ ?d = _ => set (dom' := d) end.
    assert (dom' = extend dom [l]) as Ed.
    { unfold dom'. rewrite cstr_id by by apply Forall_take. rewrite (cstr_id l) by done. unfold extend, strncat. cbn [dotted].
      destruct dom as [|c dom]; [by rewrite firstn_all2 by lia|]. rewrite !length_app. cbn [length] in *.
      rewrite (firstn_all2 [46]) by (simpl; lia). rewrite firstn_all2 by (simpl; lia). by rewrite <- app_assoc. }
    rewrite Eb, app_assoc. replace (length pre + Z.to_nat (Z.of_nat (length l) + 1))%nat with (length ((pre ++ [Z.of_nat (length l)]) ++ l))
      by (rewrite length_app, Ep; lia).
    replace (Z.of_nat (S (length l) + length (enc_name ls)) - (Z.of_nat (length l) + 1)) with (Z.of_nat (length (enc_name ls))) by lia.
    assert (length dom' <= length dom + S (length l))%nat as Hd'
      by (rewrite Ed; unfold extend; destruct dom; cbn [dotted]; rewrite ?length_app; simpl; lia).
    rewrite IH; [|done|lia|lia]. f_equal. f_equal; [rewrite length_app, Ep; lia|]. rewrite Ed. unfold extend.
    destruct ls as [|m ls], dom as [|c dom]; try done.
    + destruct l; [simpl in Hl; lia|done].
    + destruct l; [simpl in Hl; lia|]. by rewrite <- !app_assoc.
Qed.

Lemma decode_query ls t1 t2 c1 c2 :
  Forall label_ok ls -> (1 < length (enc_name ls) <= 63)%nat ->
  get_domain_name (enc_name ls ++ [t1; t2; c1; c2]) (Z.of_nat (length (enc_name ls))) =
  Some (s16 (t1 * 256 + t2), dotted ls).
Proof.
  intros Hls Hlen. unfold get_domain_name. rewrite (proj2 (Z.leb_gt _ 0)) by lia.
  pose proof (label_loop_decodes (Z.to_nat (Z.of_nat (length (enc_name ls)))) [] ls [t1; t2; c1; c2] [] Hls) as E.
  simpl in E. rewrite E by lia. cbn [mbind option_bind fst snd]. unfold rd16.
  replace (length (enc_name ls) - 1 + 1)%nat with (length (enc_name ls)) by lia.
  rewrite !lookup_app_r by lia. rewrite Nat.sub_diag. replace (S (length (enc_name ls)) - length (enc_name ls))%nat with 1%nat by lia.
  cbn. by destruct ls.
Qed.

(** C40: the parser inverts the wire format: from the encoding of any name of up to
    63 bytes, followed by its type and class, it returns the name with its dots and
    the type. *)
Theorem parser_inverts_encoding ls t1 t2 c1 c2 :
  Forall label_ok ls -> (1 < length (enc_name ls) <= 63)%nat ->
  get_domain_name (enc_name ls ++ [t1; t2; c1; c2]) (Z.of_nat (length (enc_name ls))) =
  Some (s16 (t1 * 256 + t2), dotted ls).
Proof. apply decode_query. Qed.

(** ** Which names are the router's *)

(** A name without a leading "www.", in any case. *)
Definition bare (s : list Z) : list Z := if decide (str_to_lower (take 4 s) = www) then drop 4 s else s.
(** Equal up to case. *)
Definition same_text (a b : list Z) : Prop := Forall2 (fun x y => tolower x = tolower y) a b.

Lemma strip_lower s : strip_www (str_to_lower s) = str_to_lower (bare s).
Proof.
  unfold strip_www, bare, str_to_lower. rewrite <- fmap_take. destruct (decide (tolower <$> take 4 s = www)); [|done].
  by rewrite fmap_drop.
Qed.

Lemma lower_eq a b : str_to_lower a = str_to_lower b <-> same_text a b.
Proof.
  unfold str_to_lower, same_text. revert b. induction a as [|x a IH]; intros [|y b]; split; intros E; try done; try by inversion E.
  - injection E as E1 E2. constructor; [done|]. by apply IH.
  - inversion E; subst. simpl. f_equal; [done|]. by apply IH.
Qed.

Lemma name_equal_spec a b : is_domain_name_equal a b = true <-> same_text (bare a) (bare b).
Proof. unfold is_domain_name_equal. rewrite bool_decide_eq_true, !strip_lower. apply lower_eq. Qed.

(** ** Well-formed queries *)

(** The 40 bytes of an IPv4 header without options, a UDP header and a DNS header
    that announce a query of [n] more bytes. *)
Record query_header {hdr : DnsHeader} (h : list Z) (n : nat) : Prop := {
  qh_length : length h = 40%nat;
  qh_version : rd8 h 0 = Some 0x45;
  qh_proto : rd8 h 9 = Some 17;
  qh_frag : exists f, rd16 h 6 = Some f /\ Z.land f 0x3FFF = 0;
  qh_total : rd16 h 2 = Some (40 + Z.of_nat n);
  qh_dest : rd16 h 22 = Some 53;
  qh_ulen : rd16 h 24 = Some (20 + Z.of_nat n);
  qh_dns : is_valid_dns_query_header h 28 = Some true
}.

Lemma rd8_app h r i : (i < length h)%nat -> rd8 (h ++ r) i = rd8 h i.
Proof. intros Hi. unfold rd8. by apply lookup_app_l. Qed.
Lemma rd16_app h r i : (S i < length h)%nat -> rd16 (h ++ r) i = rd16 h i.
Proof. intros Hi. unfold rd16. by rewrite !lookup_app_l by lia. Qed.

Section Trap.
Context {hdr : DnsHeader} (find_udp : list Z -> nat -> option nat) (ip_fast_csum : list Z -> Z)
        (udp_csum : list Z -> list Z -> Z -> list Z -> Z).

Lemma hdr_size : sizeof_dnsheader = 12%nat.
Proof. pose proof rfc1035 as E. by injection E. Qed.
Lemma hdr_fields : dns_u = 2%nat /\ dns_qdcount = 4%nat /\ dns_ancount = 6%nat /\ dns_nscount = 8%nat /\ dns_arcount = 10%nat.
Proof. pose proof rfc1035 as E. by injection E. Qed.

Lemma valid_app h r i : (i + 12 <= length h)%nat ->
  is_valid_dns_query_header (h ++ r) i = is_valid_dns_query_header h i.
Proof.
  intros Hi. destruct hdr_fields as (E1 & E2 & _). unfold is_valid_dns_query_header. rewrite E1, E2.
  by rewrite !rd16_app by lia.
Qed.

Lemma query_is_dns h r n s : query_header h n -> vlan s = false -> data s = h ++ r ->
  dns_packet find_udp s = Some (inr (Some (0, 20%nat))).
Proof.
  intros [Hl Hv Hp (f & Hf & Hf0) Ht Hd Hu _] Hvl Hda. unfold dns_packet. rewrite Hvl, Hda. cbn [Nat.add].
  rewrite !rd8_app by lia. rewrite Hv. cbn [mbind option_bind]. change (Z.shiftr 0x45 4 =? 4) with true. cbv iota.
  rewrite Hp. cbn [mbind option_bind]. change (17 =? 17) with true. cbv iota.
  change (Z.to_nat (Z.land 0x45 0xf) * 4)%nat with 20%nat. cbn [Nat.add]. rewrite !rd16_app by lia.
  rewrite Hd, Hf, Ht, Hu. cbn [mbind option_bind]. rewrite Hf0. change (53 =? 53) with true. cbn [Z.eqb andb].
  assert (u16 (40 + Z.of_nat n - (20 + Z.of_nat n)) = 20) as ->; [|done].
  replace (40 + Z.of_nat n - (20 + Z.of_nat n)) with 20 by lia. done.
Qed.

(** The trap answers the queries for its own name: an untagged IPv4 query with
    one question of type A is handed to the answering code exactly when the name in
    it is the configured one, ignoring case and a leading "www."; any other name is
    left alone. *)
Theorem trap_decides_by_name cfg tail h ls s :
  Forall label_ok ls -> (1 < length (enc_name ls) <= 63)%nat ->
  query_header h (length (enc_name ls) + 4) -> vlan s = false -> data s = h ++ enc_name ls ++ [0; 1; 0; 1] ->
  (same_text (bare (dotted ls)) (bare (domain_name cfg)) ->
     rtk_dns_trap_enter find_udp ip_fast_csum udp_csum cfg tail s =
     rtk_dns_packet_recap find_udp ip_fast_csum udp_csum cfg tail 1 0 s) /\
  (~ same_text (bare (dotted ls)) (bare (domain_name cfg)) ->
     rtk_dns_trap_enter find_udp ip_fast_csum udp_csum cfg tail s = Some (-1, s)).
Proof.
  intros Hls Hlen Hq Hv Hd.
  assert (rtk_dns_trap_enter find_udp ip_fast_csum udp_csum cfg tail s =
    if is_domain_name_equal (dotted ls) (domain_name cfg)
    then rtk_dns_packet_recap find_udp ip_fast_csum udp_csum cfg tail 1 0 s else Some (-1, s)) as E.
  { unfold rtk_dns_trap_enter. rewrite (query_is_dns h (enc_name ls ++ [0; 1; 0; 1]) _ s Hq Hv Hd). cbn [mbind option_bind].
    destruct Hq as [Hl _ _ _ _ _ Hu Hok]. rewrite Hd. cbn [Nat.add]. rewrite rd16_app, Hu by lia. cbn [mbind option_bind].
    rewrite hdr_size. rewrite (proj2 (Z.leb_gt _ 1)), (proj2 (Z.ltb_ge 63 _)) by lia. cbn [orb].
    rewrite valid_app, Hok by lia. cbn [mbind option_bind negb].
    match goal with |- context [drop ?k (h ++ _)] => replace k with (length h) by (simpl; lia) end. rewrite drop_app_length.
    replace (20 + Z.of_nat (length (enc_name ls) + 4) - 8 - Z.of_nat 12 - 4) with (Z.of_nat (length (enc_name ls))) by lia.
    rewrite decode_query by done. by cbn [mbind option_bind]. }
  rewrite E. pose proof (name_equal_spec (dotted ls) (domain_name cfg)) as Hn.
  destruct (is_domain_name_equal _ _); split; intros Hs; try done.
  - by destruct Hs, Hn as [Hn _]; apply Hn.
  - by apply Hn in Hs.
Qed.

(** ** The answer *)

(** The headers of the answer to a query with headers [h] and [n] more bytes, with
    the two checksums. *)
Definition reply_header (h : list Z) (n : Z) (ipck uck : list Z) : list Z :=
  take 2 h ++ be16 (40 + n + 16) ++ slice 4 6 h ++ ipck ++ slice 16 4 h ++ slice 12 4 h ++
  slice 22 2 h ++ slice 20 2 h ++ be16 (20 + n + 16) ++ uck ++ slice 28 2 h ++ be16 0x8180 ++ [0; 1; 0; 1; 0; 0; 0; 0].

Lemma put_in i bs a b c : length a = i -> length b = length bs -> put (a ++ b ++ c) i bs = Some (a ++ bs ++ c).
Proof.
  intros <- Hb. rewrite put_Some by (rewrite !length_app; lia). f_equal. apply list_eq. intros k.
  destruct (decide (k < length a)%nat) as [H1|H1].
  - by rewrite lookup_blit_before, !lookup_app_l by lia.
  - destruct (decide (k < length a + length bs)%nat) as [H2|H2].
    + rewrite lookup_blit_in by (rewrite ?length_app; lia). rewrite (lookup_app_r a) by lia. by rewrite lookup_app_l by lia.
    + rewrite lookup_blit_after by lia. rewrite !(lookup_app_r a) by lia.
      rewrite !(lookup_app_r b), !(lookup_app_r bs) by lia. by rewrite Hb.
Qed.

Lemma blit_nil (x : list Z) : blit 0 [] x = x.
Proof. by destruct x. Qed.

(** A list of 40 bytes, spelled out. *)
Lemma forty (h : list Z) : length h = 40%nat ->
  exists f : nat -> Z, h = f <$> seq 0 40.
Proof.
  intros Hl. exists (fun i => default 0 (h !! i)). apply list_eq. intros i. rewrite list_lookup_fmap.
  destruct (decide (i < 40)%nat) as [Hi|Hi].
  - rewrite lookup_seq_lt by done. simpl. destruct (lookup_lt_is_Some_2 h i) as [x Hx]; [lia|]. by rewrite Hx.
  - rewrite !lookup_ge_None_2; [done|rewrite length_seq; lia|lia].
Qed.

Lemma turn_around_spec h n x : length h = 40%nat -> rd16 h 2 = Some (40 + n) ->
  turn_around 0 0 20 (20 + n) 16 (h ++ x) = Some (reply_header h n (slice 10 2 h) (slice 26 2 h) ++ x).
Proof.
  intros Hl Ht. destruct hdr_fields as (E1 & E2 & E3 & E4 & E5). unfold turn_around. rewrite E1, E2, E3, E4, E5.
  destruct (forty h Hl) as [f ->]. cbn in Ht. injection Ht as Ht.
  cbn -[Z.add Z.mul u8 Z.shiftr]. rewrite Ht, ?blit_nil. reflexivity.
Qed.

(** The parts around the checksums. *)
Definition rh_front (h : list Z) (n : Z) : list Z := take 2 h ++ be16 (40 + n + 16) ++ slice 4 6 h.
Definition rh_middle (h : list Z) (n : Z) : list Z :=
  slice 16 4 h ++ slice 12 4 h ++ slice 22 2 h ++ slice 20 2 h ++ be16 (20 + n + 16).
Definition rh_back (h : list Z) : list Z := slice 28 2 h ++ be16 0x8180 ++ [0; 1; 0; 1; 0; 0; 0; 0].

Lemma reply_parts h n ip u : reply_header h n ip u = rh_front h n ++ ip ++ rh_middle h n ++ u ++ rh_back h.
Proof. unfold reply_header, rh_front, rh_middle, rh_back. by rewrite <- !app_assoc. Qed.

Lemma reply_lengths h n : length h = 40%nat ->
  length (rh_front h n) = 10%nat /\ length (rh_middle h n) = 14%nat /\ length (rh_back h) = 12%nat.
Proof. intros Hl. destruct (forty h Hl) as [f ->]. done. Qed.

Lemma reply_put_ip h n ip u x v : length h = 40%nat -> length ip = 2%nat -> length v = 2%nat ->
  put (reply_header h n ip u ++ x) 10 v = Some (reply_header h n v u ++ x).
Proof.
  intros Hl Hi Hv. destruct (reply_lengths h n Hl) as (L1 & _). rewrite !reply_parts, <- !app_assoc. apply put_in; congruence.
Qed.

Lemma reply_put_udp h n ip u x v : length h = 40%nat -> length ip = 2%nat -> length u = 2%nat -> length v = 2%nat ->
  put (reply_header h n ip u ++ x) 26 v = Some (reply_header h n ip v ++ x).
Proof.
  intros Hl Hi Hu Hv. destruct (reply_lengths h n Hl) as (L1 & L2 & _). rewrite !reply_parts.
  assert (forall w, (rh_front h n ++ ip ++ rh_middle h n ++ w ++ rh_back h) ++ x =
    (rh_front h n ++ ip ++ rh_middle h n) ++ w ++ (rh_back h ++ x)) as E by (intros w; by rewrite <- !app_assoc).
  rewrite !E. apply put_in; [rewrite !length_app; lia|congruence].
Qed.

Lemma length_reply h n ip u : length h = 40%nat -> length ip = 2%nat -> length u = 2%nat -> length (reply_header h n ip u) = 40%nat.
Proof.
  intros Hl Hi Hu. destruct (reply_lengths h n Hl) as (L1 & L2 & L3). rewrite reply_parts, !length_app. lia.
Qed.

Lemma reply_addresses h n ip u x : length h = 40%nat -> length ip = 2%nat ->
  slice 12 4 (reply_header h n ip u ++ x) = slice 16 4 h /\ slice 16 4 (reply_header h n ip u ++ x) = slice 12 4 h.
Proof. intros Hl Hi. destruct (forty h Hl) as [f ->]. destruct ip as [|i1 [|i2 [|]]]; done. Qed.

Lemma checksums_spec h n ip0 u0 x :
  length h = 40%nat -> length ip0 = 2%nat -> length u0 = 2%nat -> 0 <= n -> length x = Z.to_nat (n + 16) ->
  let ipck := be16 (ip_fast_csum (take 20 (reply_header h n [0; 0] u0))) in
  let uck := be16 (udp_csum (slice 16 4 h) (slice 12 4 h) (n + 36) (drop 20 (reply_header h n ipck [0; 0]) ++ x)) in
  checksums ip_fast_csum udp_csum 0 0 20 20 (n + 36) (reply_header h n ip0 u0 ++ x) = Some (reply_header h n ipck uck ++ x).
Proof.
  intros Hl Hi Hu Hn Hx. cbv zeta. unfold checksums. cbn [Z.eqb Nat.add]. change (be16 0) with [0; 0].
  rewrite reply_put_ip by done. cbn [mbind option_bind].
  pose proof (length_reply h n [0; 0] u0 Hl eq_refl Hu) as L1.
  rewrite bytes_Some by (rewrite length_app; lia). cbn [mbind option_bind].
  assert (slice 0 20 (reply_header h n [0; 0] u0 ++ x) = take 20 (reply_header h n [0; 0] u0)) as ->
    by (unfold slice; rewrite drop_0, take_app_le by lia; done).
  set (ipck := be16 (ip_fast_csum _)). assert (length ipck = 2%nat) as Li by done.
  rewrite reply_put_ip by done. cbn [mbind option_bind]. rewrite reply_put_udp by done. cbn [mbind option_bind].
  pose proof (length_reply h n ipck [0; 0] Hl Li eq_refl) as L2.
  rewrite (bytes_Some _ 20) by (rewrite length_app; lia). cbn [mbind option_bind].
  assert (slice 20 (Z.to_nat (n + 36)) (reply_header h n ipck [0; 0] ++ x) = drop 20 (reply_header h n ipck [0; 0]) ++ x) as ->.
  { unfold slice. rewrite drop_app_le by lia. apply firstn_all2. rewrite length_app, length_drop. lia. }
  rewrite (bytes_Some _ 12), (bytes_Some _ 16) by (rewrite length_app; lia). cbn [mbind option_bind].
  destruct (reply_addresses h n ipck [0; 0] x Hl Li) as [-> ->]. by rewrite reply_put_udp.
Qed.

(** The answer is the query turned around: when the packet is an IPv4 query
    without options whose lengths are right and the bridge has an address [a], the
    packet sent has sender and receiver exchanged at every layer, both lengths 16
    larger, the flags and counts of an answer, the same identifier and question,
    an A record with [a] at the end, and both checksums computed over the result. *)
Theorem answer_is_query_turned_around cfg tail h r s dev ifas a n :
  length h = 40%nat -> rd8 h 0 = Some 0x45 -> rd16 h 2 = Some (40 + n) -> rd16 h 24 = Some (20 + n) ->
  0 <= n < 1000 -> length r = Z.to_nat n -> vlan s = false -> data s = h ++ r -> (16 <= length tail)%nat ->
  br0 cfg = Some dev -> ifa_list dev = Some ifas ->
  (if use_controller_info cfg then Some (controller_addr cfg) else pick_address ifas None) = Some a -> length a = 4%nat ->
  let body := r ++ dns_answer ++ a in
  let ipck := be16 (ip_fast_csum (take 20 (reply_header h n [0; 0] (slice 26 2 h)))) in
  let uck := be16 (udp_csum (slice 16 4 h) (slice 12 4 h) (n + 36) (drop 20 (reply_header h n ipck [0; 0]) ++ body)) in
  rtk_dns_packet_recap find_udp ip_fast_csum udp_csum cfg tail 1 0 s =
  Some (0, Skb false (h_source s) (dev_addr dev) (reply_header h n ipck uck ++ body)
             (Z.lor (mark s) (u32 (Z.shiftl 1 (skb_mark cfg)))) true).
Proof.
  intros Hl Hv Ht Hu Hn Hr Hvl Hd Htail Hb Hi Ha La. cbv zeta. unfold rtk_dns_packet_recap. rewrite Hvl, Hd, Hb.
  cbn [Z.eqb Pos.eqb negb andb mbind option_bind]. rewrite Hi. rewrite rd8_app, Hv by lia. cbn [mbind option_bind].
  change (Z.to_nat (Z.land 0x45 0xf) * 4)%nat with 20%nat. cbn [Nat.add]. rewrite rd16_app, Hu by lia. cbn [mbind option_bind data].
  rewrite <- app_assoc. rewrite turn_around_spec by done. cbn [mbind option_bind]. change (Z.to_nat 16) with 16%nat.
  assert (length (slice 10 2 h) = 2 /\ length (slice 26 2 h) = 2)%nat as [S1 S2] by (split; apply length_slice; lia).
  set (H0 := reply_header h n (slice 10 2 h) (slice 26 2 h)). assert (length H0 = 40%nat) as L0 by by apply length_reply.
  assert (length (take 12 tail) = 12 /\ length (slice 12 4 tail) = 4)%nat as [T1 T2]
    by (split; [rewrite length_take; lia|apply length_slice; lia]).
  assert (take 16 tail = take 12 tail ++ slice 12 4 tail) as ->
    by (unfold slice; rewrite take_drop_commute; by rewrite <- (take_drop 12 (take 16 tail)), take_take).
  match goal with |- context [put _ ?p dns_answer] => replace p with (length (H0 ++ r)) by (rewrite length_app; lia) end.
  rewrite (app_assoc H0 r). rewrite put_in by done. cbn [mbind option_bind]. rewrite Ha. cbn [mbind option_bind].
  match goal with |- context [put _ ?p a] => replace p with (length ((H0 ++ r) ++ dns_answer)) by (rewrite !length_app, L0; simpl; lia) end.
  rewrite <- (app_nil_r (slice 12 4 tail)), (app_assoc (H0 ++ r)). rewrite put_in by (done || lia). cbn [mbind option_bind].
  rewrite !app_nil_r, <- !app_assoc. unfold H0.
  assert (u16 (20 + n + 16) = n + 36) as -> by (unfold u16; rewrite Z.mod_small; lia).
  rewrite checksums_spec; [reflexivity|done|done|done|lia|]. rewrite !length_app. simpl. lia.
Qed.

(** The address an answer carries: that of the first alias "br0:0" if the
    bridge has one, otherwise that of the last plain "br0" entry, and none (so no
    answer) when it has neither. *)
Theorem alias_address_preferred l :
  (forall l1 x l2, l = l1 ++ x :: l2 -> ifa_label x = LAN_ALIAS -> Forall (fun y => ifa_label y <> LAN_ALIAS) l1 ->
     pick_address l None = Some (ifa_address x)) /\
  (forall l1 x l2, l = l1 ++ x :: l2 -> ifa_label x = LANIF -> Forall (fun y => ifa_label y <> LAN_ALIAS) l ->
     Forall (fun y => ifa_label y <> LANIF) l2 -> pick_address l None = Some (ifa_address x)) /\
  (Forall (fun y => ifa_label y <> LAN_ALIAS /\ ifa_label y <> LANIF) l -> pick_address l None = None).
Proof.
  split_and!.
  - intros l1 x l2 -> Hx H1. generalize (None : option (list Z)) as fnd. induction H1 as [|y l1 Hy _ IH]; intros fnd; simpl.
    + by rewrite Hx, String.eqb_refl.
    + rewrite (proj2 (String.eqb_neq _ _) Hy). destruct (String.eqb _ _); apply IH.
  - intros l1 x l2 -> Hx Ha H2. generalize (None : option (list Z)) as fnd. induction l1 as [|y l1 IH]; intros fnd; simpl.
    + rewrite Hx. cbn. apply Forall_cons in Ha as [_ Ha]. generalize (ifa_address x) as a. intros a.
      induction H2 as [|y l2 Hy _ IH]; simpl; [done|]. apply Forall_cons in Ha as [Hya Ha].
      rewrite (proj2 (String.eqb_neq _ _) Hya), (proj2 (String.eqb_neq _ _) Hy). by apply IH.
    + apply Forall_cons in Ha as [Hya Ha]. rewrite (proj2 (String.eqb_neq _ _) Hya). destruct (String.eqb _ _); by apply IH.
  - intros Hl. induction Hl as [|y l [H1 H2] _ IH]; simpl; [done|].
    by rewrite (proj2 (String.eqb_neq _ _) H1), (proj2 (String.eqb_neq _ _) H2).
Qed.
End Trap.

(** ** Concrete packets *)

#[local] Instance rfc_header : DnsHeader := {|
  sizeof_dnsheader := 12; dns_u := 2; dns_qdcount := 4; dns_ancount := 6; dns_nscount := 8; dns_arcount := 10;
  rfc1035 := eq_refl
|}.
(** An IPv4 header, a UDP header and a DNS header with the given total length, UDP
    length and DNS flags, from 192.168.1.2 to 192.168.1.1. *)
Definition demo_header (tot ulen flags : Z) : list Z :=
  [0x45; 0] ++ be16 tot ++ [0x12; 0x34; 0x40; 0; 64; 17; 0xab; 0xcd; 192; 168; 1; 2; 192; 168; 1; 1] ++
  [0xd4; 0x31; 0; 53] ++ be16 ulen ++ [0xaa; 0xbb] ++ [0x77; 0x88] ++ be16 flags ++ [0; 1; 0; 0; 0; 0; 0; 0].
(** "WiFi", "example", "com" and the name the driver has by default. *)
Definition demo_labels : list (list Z) :=
  [[0x57; 0x69; 0x46; 0x69]; [0x65; 0x78; 0x61; 0x6d; 0x70; 0x6c; 0x65]; [0x63; 0x6f; 0x6d]].
Definition demo_name : list Z := str_to_lower (dotted demo_labels).
Definition demo_dev : netdev :=
  Netdev [2; 0; 0; 0; 0; 1] (Some [InIfaddr "br0" [192; 168; 1; 1]; InIfaddr "br0:0" [10; 0; 0; 1]]) None.
Definition demo_config (dev : netdev) : config := Config false [] demo_name 3 (Some dev).
Definition demo_skb (d : list Z) : skb := Skb false [2; 0; 0; 0; 0; 1] [2; 0; 0; 0; 0; 2] d 0 false.
Definition demo_query : list Z := demo_header 62 42 0x0100 ++ enc_name demo_labels ++ [0; 1; 0; 1].
Definition demo_enter (cfg : config) (d : list Z) : option (Z * skb) :=
  rtk_dns_trap_enter (fun _ _ => None) (fun _ => 0x1234) (fun _ _ _ _ => 0x5678) cfg (replicate 16 0) (demo_skb d).

(** A UDP length larger than the IP packet passes the length test, which is done
    modulo 2^16, and the name parser then reads behind the packet. *)
Theorem lying_udp_length_reads_past_packet cfg : demo_enter cfg (demo_header 40 60 0x0100) = None.
Proof. reflexivity. Qed.

(** The opcode mask misses the lowest opcode bit: an inverse query passes as a
    standard one. *)
Theorem inverse_query_accepted : is_valid_dns_query_header (demo_header 62 42 0x0800) 28 = Some true.
Proof. reflexivity. Qed.

(** When the bridge has no usable address the trap gives the packet back to the
    network stack ("not handled") after it has already turned it around. *)
Theorem refused_query_comes_back_mangled :
  let dev := Netdev [2; 0; 0; 0; 0; 1] (Some []) None in
  exists s, demo_enter (demo_config dev) (demo_header 62 42 0x0100 ++ enc_name demo_labels ++ [0; 1; 0; 1]) = Some (-1, s) /\
  slice 12 4 (data s) = [192; 168; 1; 1] /\ length (data s) = 78%nat.
Proof. eexists. split; [vm_compute; reflexivity|]. split; reflexivity. Qed.

Lemma demo_labels_ok : Forall label_ok demo_labels.
Proof. repeat constructor; simpl; lia. Qed.

Lemma name_parser_stays_in_bounds_witness :
  exists type domain, get_domain_name [5; 1; 2; 3; 4; 5; 0; 0; 1; 0; 1] 7 = Some (type, domain) /\ (length domain <= 127)%nat.
Proof. apply name_parser_stays_in_bounds; [lia|reflexivity|repeat constructor; lia]. Defined.

Lemma parser_inverts_encoding_witness :
  get_domain_name (enc_name demo_labels ++ [0; 28; 0; 1]) 18 = Some (28, dotted demo_labels).
Proof. apply (parser_inverts_encoding demo_labels 0 28 0 1); [apply demo_labels_ok|vm_compute; lia]. Defined.

Lemma demo_query_header : query_header (demo_header 62 42 0x0100) 22.
Proof. constructor; try reflexivity. exists 0x4000. by split. Qed.

Lemma trap_decides_by_name_witness :
  demo_enter (demo_config demo_dev) demo_query =
  rtk_dns_packet_recap (fun _ _ => None) (fun _ => 0x1234) (fun _ _ _ _ => 0x5678) (demo_config demo_dev) (replicate 16 0) 1 0
    (demo_skb demo_query).
Proof.
  apply (trap_decides_by_name (fun _ _ => None) (fun _ => 0x1234) (fun _ _ _ _ => 0x5678) (demo_config demo_dev)
    (replicate 16 0) (demo_header 62 42 0x0100) demo_labels (demo_skb demo_query));
    [apply demo_labels_ok|vm_compute; lia|apply demo_query_header|reflexivity|reflexivity|].
  repeat (constructor; [reflexivity|]). constructor.
Defined.

Lemma answer_is_query_turned_around_witness :
  exists d, rtk_dns_packet_recap (fun _ _ => None) (fun _ => 0x1234) (fun _ _ _ _ => 0x5678) (demo_config demo_dev)
    (replicate 16 0) 1 0 (demo_skb demo_query) = Some (0, Skb false [2; 0; 0; 0; 0; 2] [2; 0; 0; 0; 0; 1] d 8 true).
Proof.
  eexists. apply (answer_is_query_turned_around (fun _ _ => None) (fun _ => 0x1234) (fun _ _ _ _ => 0x5678) (demo_config demo_dev)
    (replicate 16 0) (demo_header 62 42 0x0100) (enc_name demo_labels ++ [0; 1; 0; 1]) (demo_skb demo_query) demo_dev
    [InIfaddr "br0" [192; 168; 1; 1]; InIfaddr "br0:0" [10; 0; 0; 1]] [10; 0; 0; 1] 22); first [reflexivity | lia | by_compute].
Defined.

Lemma alias_address_preferred_witness :
  pick_address [InIfaddr "br0" [192; 168; 1; 1]; InIfaddr "br0:0" [10; 0; 0; 1]] None = Some [10; 0; 0; 1].
Proof.
  pose proof (alias_address_preferred [InIfaddr "br0" [192; 168; 1; 1]; InIfaddr "br0:0" [10; 0; 0; 1]]) as [Hx _].
  apply (Hx [InIfaddr "br0" [192; 168; 1; 1]] (InIfaddr "br0:0" [10; 0; 0; 1]) []); [reflexivity|reflexivity|].
  repeat constructor. discriminate.
Defined.
