(* ===== verification/IgmpFlow.v ===== *)
(** * IgmpFlow: the multicast flow cache

    The flow table of [rtk_igmp_snooping.c]: for every stream of multicast data the
    interfaces it was forwarded to, hashed by group per bridge module, and told to
    the hardware by callbacks.  An entry is a cell of the static array
    [mcastFlowEntryPool]; the model keeps the number of the cell, because the code
    looks at an entry again after it may have been freed and taken anew.  The free
    cells are a stack, the chains are lists in link order.

    The model is the configured build: CONFIG_RTL8367_SUPPORT and
    CONFIG_RTK_FC_WIFI_AMSDU_OFFLOAD_BY_PE are not set, so an egress device is its
    interface index and nothing else. *)
From S2P Require Import Prelude IgmpTable.

(** Constants of a header that is not in the tree (the size of the device array, and
    whether an [ipVersion] cleared to 0 differs from [IP_VERSION4]), and which
    hardware callbacks are registered in [hwCb]. *)
Class FlowConfig := {
  IGMP_MAX_DEV_NUM : nat;
  max_dev_num_pos : (0 < IGMP_MAX_DEV_NUM)%nat;
  flowSetCbEvt : bool;
  flowUpdateCbEvt : bool;
  flowDelCbEvt : bool;
  groupAddCbEvt : bool;
  groupDelCbEvt : bool;
  cleared_isIPv6 : bool
}.

Definition SUCCESS : Z := 0.
Definition FAIL : Z := -1.
Definition IGMP_MCAST_FLOW_EXPIRE_TIME : Z := 140.
Definition IGMP_MAX_FLOW_COUNT : nat := 512.

(** ** Data *)

(** [egressDevInfo[IGMP_MAX_DEV_NUM]]: a slot is [None] while its [valid] is 0. *)
Definition egress := list (option Z).

(** [struct rtk_igmp_multicastFwdInfo] *)
Record fwdInfo := FwdInfo {
  egressDevInfo : egress;
  cpuFlag : bool;
  dropPkt : bool;
  unknownMCast : bool;
  reservedMCast : bool;
  copy2cpu : bool;
  hwCbAcc : bool
}.

(** What tells two flows apart; an untagged VLAN is [FAIL]. *)
Record flowKey := FlowKey {
  fk_ipVersion : ip_version;
  serverAddr : addr;
  fk_groupAddr : addr;
  fk_sport : Z;
  fk_dport : Z;
  ingressCvlan : Z;
  ingressSvlan : Z;
  fk_l4proto : Z
}.

(** [struct rtk_igmp_mcastFlowEntry], the links apart, with its place in the pool. *)
Record mcastFlowEntry := McastFlowEntry {
  flowCell : nat;
  flowId : flowKey;
  multicastFwdInfo : fwdInfo;
  refreshTime : Z;
  fwdPktCnt : Z;
  defineFwdPktCnt : Z
}.

(** [struct rtk_igmp_multicastDataInfo]; the two flags of [privateField]. *)
Record multicastDataInfo := MulticastDataInfo {
  d_ipVersion : ip_version;
  sourceIp : addr;
  d_groupAddr : addr;
  d_sport : Z;
  d_dport : Z;
  vlanTagif : bool;
  d_vlanId : Z;
  svlanTagif : bool;
  d_svlanId : Z;
  d_l4proto : Z;
  SKIP_LEARNING : bool;
  DUMMY_PKT : bool
}.

(** [rtk_igmp_flowCbEvt_t] *)
Record flowCbEvt := FlowCbEvt {
  cb_isIPv6 : bool;
  cb_group : addr;
  cb_sourceAddr : addr;
  cb_egressDevInfo : egress;
  cb_ingressCvlan : Z;
  cb_ingressSvlan : Z;
  cb_copy2cpu : bool
}.

(** The calls into the hardware. *)
Inductive hwEvent :=
| FlowSetCb (cb : flowCbEvt)
| FlowUpdateCb (cb : flowCbEvt)
| FlowDelCb (cb : flowCbEvt)
| FlowGroupAddCb (isIPv6 : bool) (vlan svlan : Z) (group : addr)
| FlowGroupDelCb (isIPv6 : bool) (vlan svlan : Z) (group : addr).

(** The flow tables of the modules, the free cells and the calls made so far. *)
Record flowDb := FlowDb {
  flowHashTable : list (list (list mcastFlowEntry));
  rtk_igmp_mcastFlowEntryPool : list nat;
  hwEvents : list hwEvent
}.

#[export] Instance flowKey_eq_dec : EqDecision flowKey.
Proof. solve_decision. Defined.
#[export] Instance fwdInfo_eq_dec : EqDecision fwdInfo.
Proof. solve_decision. Defined.

Definition set_fwd (f : fwdInfo) (e : mcastFlowEntry) : mcastFlowEntry :=
  McastFlowEntry (flowCell e) (flowId e) f (refreshTime e) (fwdPktCnt e) (defineFwdPktCnt e).
Definition set_refresh (t : Z) (e : mcastFlowEntry) : mcastFlowEntry :=
  McastFlowEntry (flowCell e) (flowId e) (multicastFwdInfo e) t (fwdPktCnt e) (defineFwdPktCnt e).
Definition set_fwdPktCnt (n : Z) (e : mcastFlowEntry) : mcastFlowEntry :=
  McastFlowEntry (flowCell e) (flowId e) (multicastFwdInfo e) (refreshTime e) n (defineFwdPktCnt e).
Definition set_defineFwdPktCnt (n : Z) (e : mcastFlowEntry) : mcastFlowEntry :=
  McastFlowEntry (flowCell e) (flowId e) (multicastFwdInfo e) (refreshTime e) (fwdPktCnt e) n.
Definition set_egressDevInfo (l : egress) (f : fwdInfo) : fwdInfo :=
  FwdInfo l (cpuFlag f) (dropPkt f) (unknownMCast f) (reservedMCast f) (copy2cpu f) (hwCbAcc f).
Definition set_hwCbAcc (b : bool) (f : fwdInfo) : fwdInfo :=
  FwdInfo (egressDevInfo f) (cpuFlag f) (dropPkt f) (unknownMCast f) (reservedMCast f) (copy2cpu f) b.
Definition set_copy2cpu (b : bool) (f : fwdInfo) : fwdInfo :=
  FwdInfo (egressDevInfo f) (cpuFlag f) (dropPkt f) (unknownMCast f) (reservedMCast f) b (hwCbAcc f).
Definition set_cb_egress (l : egress) (c : flowCbEvt) : flowCbEvt :=
  FlowCbEvt (cb_isIPv6 c) (cb_group c) (cb_sourceAddr c) l (cb_ingressCvlan c) (cb_ingressSvlan c) (cb_copy2cpu c).
Definition set_cb_copy2cpu (b : bool) (c : flowCbEvt) : flowCbEvt :=
  FlowCbEvt (cb_isIPv6 c) (cb_group c) (cb_sourceAddr c) (cb_egressDevInfo c) (cb_ingressCvlan c) (cb_ingressSvlan c) b.
Definition call_hw (e : hwEvent) (fd : flowDb) : flowDb :=
  FlowDb (flowHashTable fd) (rtk_igmp_mcastFlowEntryPool fd) (hwEvents fd ++ [e]).
Definition set_flowPool (p : list nat) (fd : flowDb) : flowDb :=
  FlowDb (flowHashTable fd) p (hwEvents fd).

(** The key of a data packet. *)
Definition key_of_data (d : multicastDataInfo) : flowKey :=
  FlowKey (d_ipVersion d) (sourceIp d) (d_groupAddr d) (d_sport d) (d_dport d)
    (if vlanTagif d then d_vlanId d else FAIL) (if svlanTagif d then d_svlanId d else FAIL) (d_l4proto d).

(** The first slots up to an invalid one, which is what every reader takes. *)
Fixpoint ports_of (l : egress) : list Z :=
  match l with
  | Some i :: l' => i :: ports_of l'
  | _ => []
  end.

(** The comparison of the search: addresses by version, the rest exactly. *)
Definition flow_match (k : flowKey) (e : mcastFlowEntry) : bool :=
  bool_decide (fk_ipVersion (flowId e) = fk_ipVersion k) &&
  addr_match (fk_ipVersion k) (serverAddr k) (serverAddr (flowId e)) &&
  addr_match (fk_ipVersion k) (fk_groupAddr k) (fk_groupAddr (flowId e)) &&
  (fk_sport k =? fk_sport (flowId e)) && (fk_dport k =? fk_dport (flowId e)) &&
  (ingressCvlan k =? ingressCvlan (flowId e)) && (ingressSvlan k =? ingressSvlan (flowId e)) &&
  (fk_l4proto k =? fk_l4proto (flowId e)).

(** The scan for a device: a slot that has it is reused, else the first invalid
    slot takes it; a full array refuses. *)
Fixpoint set_egress (ifidx : Z) (l : egress) : option egress :=
  match l with
  | [] => None
  | Some i :: l' => if i =? ifidx then Some l else cons (Some i) <$> set_egress ifidx l'
  | None :: l' => Some (Some ifidx :: l')
  end.

Definition _rtk_igmp_setEgressDevToflowCb (ifidx : Z) (cb : flowCbEvt) : Z * flowCbEvt :=
  match set_egress ifidx (cb_egressDevInfo cb) with
  | Some l => (SUCCESS, set_cb_egress l cb)
  | None => (FAIL, cb)
  end.

Definition _rtk_igmp_setEgressDevToFwdInfo (ifidx : Z) (f : fwdInfo) : Z * fwdInfo :=
  match set_egress ifidx (egressDevInfo f) with
  | Some l => (SUCCESS, set_egressDevInfo l f)
  | None => (FAIL, f)
  end.

Definition _rtk_igmp_IsflowToDevInfoIsNonValidPort (l : egress) : bool :=
  match l with Some _ :: _ => false | _ => true end.

(** The event an entry is announced with. *)
Definition flow_cb (e : mcastFlowEntry) : flowCbEvt :=
  let k := flowId e in
  FlowCbEvt (is_ipv6 (fk_ipVersion k)) (fk_groupAddr k) (serverAddr k)
    (egressDevInfo (multicastFwdInfo e)) (ingressCvlan k) (ingressSvlan k) false.

(** ** Table operations *)

Section Flow.
Context {cfg : IgmpConfig} {fcfg : FlowConfig}.

Definition no_egress : egress := replicate IGMP_MAX_DEV_NUM None.
(** A zeroed [multicastFwdInfo]. *)
Definition fwdInfo0 : fwdInfo := FwdInfo no_egress false false false false false false.

Definition flow_hash (k : flowKey) : nat := hash (fk_ipVersion k) (fk_groupAddr k).

Definition flow_bucket (mi h : nat) (fd : flowDb) : list mcastFlowEntry :=
  default [] (flowHashTable fd !! mi ≫= fun t => t !! h).
Definition alter_flow_bucket (mi h : nat) (f : list mcastFlowEntry -> list mcastFlowEntry) (fd : flowDb)
    : flowDb :=
  FlowDb (alter (alter f h) mi (flowHashTable fd)) (rtk_igmp_mcastFlowEntryPool fd) (hwEvents fd).

(** Rewriting the entry of a key where it is. *)
Definition alter_flow (mi : nat) (k : flowKey) (f : mcastFlowEntry -> mcastFlowEntry) (fd : flowDb) : flowDb :=
  alter_flow_bucket mi (flow_hash k) (update_first (flow_match k) f) fd.

Definition find_flow (mi : nat) (k : flowKey) (fd : flowDb) : option mcastFlowEntry :=
  List.find (flow_match k) (flow_bucket mi (flow_hash k) fd).

(** A hit is marked as used now. *)
Definition rtk_igmp_searchMcastFlowEntry (mi : nat) (k : flowKey) (now : Z) (fd : flowDb)
    : option mcastFlowEntry * flowDb :=
  match find_flow mi k fd with
  | Some e => (Some (set_refresh now e), alter_flow mi k (set_refresh now) fd)
  | None => (None, fd)
  end.

Definition rtk_igmp_allocateMcastFlowEntry (fd : flowDb) : option (nat * flowDb) :=
  match rtk_igmp_mcastFlowEntryPool fd with
  | [] => None
  | c :: p => Some (c, set_flowPool p fd)
  end.

Definition rtk_igmp_freeMcastFlowEntry (c : nat) (fd : flowDb) : flowDb :=
  set_flowPool (c :: rtk_igmp_mcastFlowEntryPool fd) fd.

(** The whole pool is free and linked in order. *)
Definition rtk_igmp_initMcastFlowEntryPool (poolSize : nat) : list nat :=
  if (poolSize =? IGMP_MAX_FLOW_COUNT)%nat then seq 0 IGMP_MAX_FLOW_COUNT else [].

Definition rtk_igmp_linkMcastFlowEntry (mi : nat) (e : mcastFlowEntry) (fd : flowDb) : flowDb :=
  let k := flowId e in
  let fd := if groupAddCbEvt
            then call_hw (FlowGroupAddCb (is_ipv6 (fk_ipVersion k)) (ingressCvlan k) (ingressSvlan k) (fk_groupAddr k)) fd
            else fd in
  alter_flow_bucket mi (flow_hash k) (cons e) fd.

(** Is this the cell the pointer names. *)
Definition same_cell (e e' : mcastFlowEntry) : bool := (flowCell e =? flowCell e')%nat.

Definition rtk_igmp_unlinkMcastFlowEntry (mi : nat) (e : mcastFlowEntry) (fd : flowDb) : flowDb :=
  let k := flowId e in
  let fd := if groupDelCbEvt
            then call_hw (FlowGroupDelCb (is_ipv6 (fk_ipVersion k)) (ingressCvlan k) (ingressSvlan k) (fk_groupAddr k)) fd
            else fd in
  alter_flow_bucket mi (flow_hash k) (remove_first (same_cell e)) fd.

Definition rtk_igmp_deleteFloodMcastFlowEntry (mi : nat) (e : mcastFlowEntry) (fd : flowDb) : flowDb :=
  rtk_igmp_freeMcastFlowEntry (flowCell e) (rtk_igmp_unlinkMcastFlowEntry mi e fd).

Definition rtk_igmp_deleteMcastFlowEntry (mi : nat) (e : mcastFlowEntry) (fd : flowDb) : flowDb :=
  let fd := if flowDelCbEvt && hwCbAcc (multicastFwdInfo e)
            then call_hw (FlowDelCb (set_cb_egress no_egress (flow_cb e))) fd
            else fd in
  rtk_igmp_freeMcastFlowEntry (flowCell e) (rtk_igmp_unlinkMcastFlowEntry mi e fd).

(** ** Walks

    A walk reads [next] before it visits an entry, and a visit removes at most the
    entry itself: it visits the entries the chain had when the walk reached it. *)

Definition buckets : list nat := seq 0 (Z.to_nat IGMP_HASH_TBL_SIZE).

Definition walk_bucket (visit : mcastFlowEntry -> flowDb -> flowDb) (mi h : nat) (fd : flowDb) : flowDb :=
  foldl (fun fd e => visit e fd) fd (flow_bucket mi h fd).
Definition walk_flows (visit : mcastFlowEntry -> flowDb -> flowDb) (mi : nat) (fd : flowDb) : flowDb :=
  foldl (fun fd h => walk_bucket visit mi h fd) fd buckets.

(** All entries of a module in walk order. *)
Definition module_flows (mi : nat) (fd : flowDb) : list mcastFlowEntry :=
  concat ((fun h => flow_bucket mi h fd) <$> buckets).

Definition delete_if (p : mcastFlowEntry -> bool) (mi : nat) (e : mcastFlowEntry) (fd : flowDb) : flowDb :=
  if p e then rtk_igmp_deleteMcastFlowEntry mi e fd else fd.

(** The zero address stands for every group of the version. *)
Definition rtk_igmp_invalidateMCastGroupFlow (mi : nat) (v : ip_version) (ga : addr) (fd : flowDb) : flowDb :=
  if (word0 ga =? 0) && (word1 ga =? 0) && (word2 ga =? 0) && (word3 ga =? 0)
  then walk_flows (delete_if (fun e => bool_decide (fk_ipVersion (flowId e) = v)) mi) mi fd
  else walk_bucket
         (delete_if (fun e => bool_decide (fk_ipVersion (flowId e) = v) &&
                              addr_match v ga (fk_groupAddr (flowId e))) mi)
         mi (hash v ga) fd.

(** Idle for longer than the expiry time, in 32-bit seconds. *)
Definition flow_expired (now : Z) (e : mcastFlowEntry) : bool :=
  u32 (refreshTime e + IGMP_MCAST_FLOW_EXPIRE_TIME) <? now.

(** The entry the second scan settles on: the first one, then every later one that
    is strictly older. *)
Definition older (o : option mcastFlowEntry) (e : mcastFlowEntry) : option mcastFlowEntry :=
  match o with
  | None => Some e
  | Some o => if refreshTime e <? refreshTime o then Some e else Some o
  end.

(** Making room: first everything that expired, else the least recently used. *)
Definition rtk_igmp_doMcastFlowRecycle (mi : nat) (now : Z) (fd : flowDb) : flowDb :=
  if existsb (flow_expired now) (module_flows mi fd)
  then walk_flows (delete_if (flow_expired now) mi) mi fd
  else match foldl older None (module_flows mi fd) with
       | Some e => rtk_igmp_deleteMcastFlowEntry mi e fd
       | None => fd
       end.

(** The entry in a cell, in whatever table it is. *)
Definition all_flows (fd : flowDb) : list mcastFlowEntry := concat (concat (flowHashTable fd)).
Definition in_cell (c : nat) (fd : flowDb) : option mcastFlowEntry :=
  List.find (fun e => (flowCell e =? c)%nat) (all_flows fd).

(** ** Recording a decision *)

(** The devices the other bridges forward the stream to are added to the event. *)
Definition append_ports (l : egress) (cb : flowCbEvt) : flowCbEvt :=
  foldl (fun cb i => snd (_rtk_igmp_setEgressDevToflowCb i cb)) cb (ports_of l).

Definition other_module (db : igmp) (mi : option nat) (i : nat) : bool :=
  match modules db !! i with
  | Some m => validBit m && negb (bool_decide (mi = Some i))
  | None => false
  end.

(** [mi] is [None] for the C code's [FAIL]: every bridge. *)
Definition rtk_igmp_flowCbAppendOtherBrToCb (db : igmp) (mi : option nat) (k : flowKey) (cb : flowCbEvt)
    (fd : flowDb) : flowCbEvt * flowDb :=
  foldl (fun '(cb, fd) i =>
           if other_module db mi i
           then match rtk_igmp_searchMcastFlowEntry i k (rtk_igmp_sysUpSeconds db) fd with
                | (Some e, fd) => (append_ports (egressDevInfo (multicastFwdInfo e)) cb, fd)
                | (None, fd) => (cb, fd)
                end
           else (cb, fd))
    (cb, fd) (seq 0 (length (modules db))).

(** Announcing the entry of a key: set event, then the entry is marked. *)
Definition announce (db : igmp) (mi : nat) (k : flowKey) (c2c : bool) (fd : flowDb) : flowDb :=
  match find_flow mi k fd with
  | None => fd
  | Some e =>
      let '(cb, fd) := rtk_igmp_flowCbAppendOtherBrToCb db (Some mi) k (set_cb_copy2cpu c2c (flow_cb e)) fd in
      let fd := call_hw (FlowSetCb cb) fd in
      alter_flow mi k (fun e => set_fwd (set_hwCbAcc true (multicastFwdInfo e)) e) fd
  end.

Definition zero_addr (v : ip_version) (a : addr) : bool := addr_match v a addr0.

(** The address an entry keeps: one word for IPv4, four for IPv6. *)
Definition stored_addr (v : ip_version) (a : addr) : addr :=
  match v with IP_VERSION4 => Addr (word0 a) 0 0 0 | IP_VERSION6 => a end.
Definition stored_key (k : flowKey) : flowKey :=
  FlowKey (fk_ipVersion k) (stored_addr (fk_ipVersion k) (serverAddr k))
    (stored_addr (fk_ipVersion k) (fk_groupAddr k)) (fk_sport k) (fk_dport k)
    (ingressCvlan k) (ingressSvlan k) (fk_l4proto k).

(** Allocation, with one attempt to make room. *)
Definition allocate_flow (mi : nat) (now : Z) (fd : flowDb) : option nat * flowDb :=
  match rtk_igmp_allocateMcastFlowEntry fd with
  | Some (c, fd) => (Some c, fd)
  | None => let fd := rtk_igmp_doMcastFlowRecycle mi now fd in
            match rtk_igmp_allocateMcastFlowEntry fd with
            | Some (c, fd) => (Some c, fd)
            | None => (None, fd)
            end
  end.

Definition rtk_igmp_recordMcastFlow (db : igmp) (mi : nat) (d : multicastDataInfo) (f : fwdInfo) (fd : flowDb)
    : Z * flowDb :=
  let k := key_of_data d in
  let now := rtk_igmp_sysUpSeconds db in
  let finish fd :=
    if SKIP_LEARNING d then fd
    else if flowSetCbEvt then announce db mi k (copy2cpu f) fd else fd in
  if zero_addr (d_ipVersion d) (sourceIp d) || zero_addr (d_ipVersion d) (d_groupAddr d) then (FAIL, fd)
  else
    match rtk_igmp_searchMcastFlowEntry mi k now fd with
    | (None, fd) =>
        if _rtk_igmp_IsflowToDevInfoIsNonValidPort (egressDevInfo f) then (FAIL, fd)
        else match allocate_flow mi now fd with
             | (None, fd) => (FAIL, fd)
             | (Some c, fd) =>
                 let e := McastFlowEntry c (stored_key k) f now 1 0 in
                 (SUCCESS, finish (rtk_igmp_linkMcastFlowEntry mi e fd))
             end
    | (Some e, fd) =>
        if _rtk_igmp_IsflowToDevInfoIsNonValidPort (egressDevInfo f)
        then (SUCCESS, rtk_igmp_deleteMcastFlowEntry mi e fd)
        else
          let fd := alter_flow mi k (fun e => set_fwdPktCnt (u32 (fwdPktCnt e + 1)) (set_refresh now e)) fd in
          if bool_decide (egressDevInfo (multicastFwdInfo e) = egressDevInfo f) &&
             Bool.eqb (copy2cpu (multicastFwdInfo e)) (copy2cpu f)
          then (SUCCESS, fd)
          else (SUCCESS, finish (alter_flow mi k (set_fwd f) fd))
    end.
End Flow.
