(* ===== verification/IgmpFlowSpec.v ===== *)
(** * IgmpFlowSpec: the flow cache is a map from flows to egress ports

    The invariant of the flow table of IgmpFlow (every cell is either free or in one
    chain, every entry hangs in the chain of its group under one key, its devices
    are a duplicate-free prefix of the array) and the abstract view the decision
    theorems use: a partial map from bridge and flow key to the entry, with what
    each operation does to it. *)
From S2P Require Import Prelude IgmpTable IgmpFlow.

(** ** Egress arrays as port lists *)

Section Egress.
Context {fcfg : FlowConfig}.

(** The array that holds exactly these ports. *)
Definition mk_egress (p : list Z) : egress :=
  (Some <$> p) ++ replicate (IGMP_MAX_DEV_NUM - length p) None.

(** Adding a port to a list of at most [IGMP_MAX_DEV_NUM]. *)
Definition add_port (p : list Z) (i : Z) : list Z :=
  if decide (i ∈ p) then p else if (length p <? IGMP_MAX_DEV_NUM)%nat then p ++ [i] else p.
Definition add_ports (xs p : list Z) : list Z := foldl add_port p xs.

Definition ports_ok (p : list Z) : Prop := NoDup p /\ (length p <= IGMP_MAX_DEV_NUM)%nat.
Definition egress_ok (l : egress) : Prop := exists p, l = mk_egress p /\ ports_ok p.

Lemma ports_of_replicate n : ports_of (replicate n None) = [].
Proof. by destruct n. Qed.
Lemma ports_of_mk p : ports_of (mk_egress p) = p.
Proof.
  unfold mk_egress. generalize (IGMP_MAX_DEV_NUM - length p)%nat as n. intros n.
  induction p as [|i p IH]; simpl; [apply ports_of_replicate|by f_equal].
Qed.
Lemma mk_egress_nil : mk_egress [] = no_egress.
Proof. unfold mk_egress, no_egress. simpl. by rewrite Nat.sub_0_r. Qed.

Lemma nonvalid_mk p : _rtk_igmp_IsflowToDevInfoIsNonValidPort (mk_egress p) = bool_decide (p = []).
Proof.
  destruct p; [|done]. unfold mk_egress. simpl.
  by destruct (IGMP_MAX_DEV_NUM - 0)%nat.
Qed.

Lemma set_egress_skip i p l : i ∉ p -> set_egress i ((Some <$> p) ++ l) = app (Some <$> p) <$> set_egress i l.
Proof.
  induction p as [|j p IH]; csimpl; intros Hi; [by destruct (set_egress i l)|].
  rewrite not_elem_of_cons in Hi. destruct Hi as [Hj Hi].
  rewrite (proj2 (Z.eqb_neq j i)) by done. rewrite IH by done. by destruct (set_egress i l).
Qed.

Lemma set_egress_hit i p l : i ∈ p -> set_egress i ((Some <$> p) ++ l) = Some ((Some <$> p) ++ l).
Proof.
  induction p as [|j p IH]; csimpl; intros Hi; [by apply not_elem_of_nil in Hi|].
  destruct (j =? i) eqn:E; [done|]. bool_to_prop. rewrite IH; [done|].
  apply elem_of_cons in Hi as [->|]; done.
Qed.

(** The scan of the array is [add_port]; it refuses exactly a new device in a full
    array. *)
Lemma set_egress_mk i p : (length p <= IGMP_MAX_DEV_NUM)%nat ->
  set_egress i (mk_egress p) =
  if decide (i ∈ p) then Some (mk_egress p)
  else if (length p <? IGMP_MAX_DEV_NUM)%nat then Some (mk_egress (p ++ [i])) else None.
Proof.
  intros Hlen. unfold mk_egress. case_decide as Hi; [by apply set_egress_hit|].
  rewrite set_egress_skip by done. destruct (length p <? IGMP_MAX_DEV_NUM)%nat eqn:E.
  - apply Nat.ltb_lt in E. rewrite fmap_app, length_app. simpl.
    replace (IGMP_MAX_DEV_NUM - length p)%nat with (S (IGMP_MAX_DEV_NUM - (length p + 1)))%nat by lia.
    simpl. by rewrite <- app_assoc.
  - apply Nat.ltb_ge in E. by replace (IGMP_MAX_DEV_NUM - length p)%nat with 0%nat by lia.
Qed.

Lemma add_port_ok p i : ports_ok p -> ports_ok (add_port p i).
Proof.
  intros [Hn Hl]. unfold add_port. case_decide; [done|].
  destruct (length p <? IGMP_MAX_DEV_NUM)%nat eqn:E; [|done]. apply Nat.ltb_lt in E. split.
  - rewrite Permutation_app_comm. by constructor.
  - rewrite length_app. simpl. lia.
Qed.
Lemma add_ports_ok xs p : ports_ok p -> ports_ok (add_ports xs p).
Proof. revert p. induction xs; intros p Hp; simpl; [done|]. auto using add_port_ok. Qed.

Lemma ports_ok_nil : ports_ok [].
Proof. split; [constructor|simpl; lia]. Qed.

Lemma add_ports_app xs ys p : add_ports (xs ++ ys) p = add_ports ys (add_ports xs p).
Proof. unfold add_ports. by rewrite foldl_app. Qed.

Lemma add_port_sub p i j : j ∈ add_port p i -> j ∈ p \/ j = i.
Proof. unfold add_port. case_decide; [auto|]. case_match; set_solver. Qed.
Lemma add_ports_sub xs p j : j ∈ add_ports xs p -> j ∈ p \/ j ∈ xs.
Proof.
  revert p. induction xs as [|x xs IH]; intros p; simpl; [auto|]. intros [Hj|Hj]%IH.
  - apply add_port_sub in Hj as [|]; set_solver.
  - set_solver.
Qed.
Lemma add_port_mono p i j : j ∈ p -> j ∈ add_port p i.
Proof. unfold add_port. case_decide; [done|]. case_match; set_solver. Qed.
Lemma add_ports_mono xs p j : j ∈ p -> j ∈ add_ports xs p.
Proof. revert p. induction xs; simpl; auto using add_port_mono. Qed.

(** While the array has room for every device, all of them get in. *)
Lemma add_ports_complete all xs p :
  ports_ok p -> (forall j, j ∈ p \/ j ∈ xs -> j ∈ all) -> (length all <= IGMP_MAX_DEV_NUM)%nat ->
  forall j, j ∈ add_ports xs p <-> j ∈ p \/ j ∈ xs.
Proof.
  intros Hp Hall Hlen j. split; [apply add_ports_sub|]. revert p Hp Hall.
  induction xs as [|x xs IH]; intros p Hp Hall Hj; simpl; [set_solver|].
  assert (forall j, j ∈ add_port p x <-> j ∈ p \/ j = x) as Hx.
  { intros k. split; [apply add_port_sub|]. intros [Hk| ->]; [by apply add_port_mono|].
    unfold add_port. case_decide; [done|]. destruct (length p <? IGMP_MAX_DEV_NUM)%nat eqn:E; [set_solver|].
    apply Nat.ltb_ge in E. exfalso.
    assert (NoDup (x :: p)) as Hnd by (constructor; [done|apply Hp]).
    assert (x :: p ⊆+ all) as Hsub.
    { apply NoDup_submseteq; [done|]. intros y Hy. apply Hall. set_solver. }
    apply submseteq_length in Hsub. simpl in Hsub. lia. }
  apply IH.
  - by apply add_port_ok.
  - intros k. rewrite Hx. intros Hk. apply Hall. set_solver.
  - rewrite Hx. set_solver.
Qed.
End Egress.

(** ** Keys *)

(** The comparison of the search, on keys: an equivalence. *)
Definition key_match (k k' : flowKey) : bool :=
  bool_decide (fk_ipVersion k' = fk_ipVersion k) &&
  addr_match (fk_ipVersion k) (serverAddr k) (serverAddr k') &&
  addr_match (fk_ipVersion k) (fk_groupAddr k) (fk_groupAddr k') &&
  (fk_sport k =? fk_sport k') && (fk_dport k =? fk_dport k') &&
  (ingressCvlan k =? ingressCvlan k') && (ingressSvlan k =? ingressSvlan k') &&
  (fk_l4proto k =? fk_l4proto k').

Lemma addr_match_stored v a b : addr_match v a b = bool_decide (stored_addr v a = stored_addr v b).
Proof.
  destruct v, a as [a0 a1 a2 a3], b as [b0 b1 b2 b3]; simpl.
  - destruct (a0 =? b0) eqn:E; bool_to_prop; symmetry; [apply bool_decide_true|apply bool_decide_false]; congruence.
  - destruct (_ && _)%bool eqn:E; symmetry; [apply bool_decide_true; bool_to_prop; congruence|].
    apply bool_decide_false. intros [=]; subst. by rewrite !Z.eqb_refl in E.
Qed.

Lemma key_match_stored k k' : key_match k k' = bool_decide (stored_key k = stored_key k').
Proof.
  unfold key_match. rewrite !addr_match_stored. destruct k as [v s g a b c d e], k' as [v' s' g' a' b' c' d' e'].
  unfold stored_key. simpl. symmetry. destruct (decide (v' = v)) as [->|Hv].
  - rewrite (bool_decide_true (v = v)) by done. simpl.
    destruct (bool_decide (stored_addr v s = _) && _ && _ && _ && _ && _ && _)%bool eqn:E.
    + apply bool_decide_true. repeat (apply andb_true_iff in E as [E ?]).
      repeat match goal with H : bool_decide _ = true |- _ => apply bool_decide_eq_true in H end.
      bool_to_prop. congruence.
    + apply bool_decide_false. intros [=]. repeat match goal with H : stored_addr _ _ = _ |- _ => rewrite H in E; clear H end.
      subst. rewrite !bool_decide_true, !Z.eqb_refl in E by done. done.
  - rewrite (bool_decide_false (v' = v)) by done. simpl. apply bool_decide_false. intros [=]. done.
Qed.

Lemma key_match_true k k' : key_match k k' = true <-> stored_key k = stored_key k'.
Proof. rewrite key_match_stored. apply bool_decide_eq_true. Qed.

Lemma stored_key_idem k : stored_key (stored_key k) = stored_key k.
Proof. destruct k as [[] ? ? ? ? ? ? ?]; done. Qed.

Lemma flow_match_key k e : flow_match k e = key_match k (flowId e).
Proof. done. Qed.

Section Inv.
Context {cfg : IgmpConfig} {fcfg : FlowConfig}.

Lemma flow_hash_match k k' : key_match k k' = true -> flow_hash k = flow_hash k'.
Proof.
  unfold key_match. intros Hm. repeat (apply andb_true_iff in Hm as [Hm ?]).
  apply bool_decide_eq_true in Hm. unfold flow_hash. rewrite Hm. by apply addr_match_hash.
Qed.

(** ** The invariant *)

(** Neither the source nor the group is the zero address. *)
Definition recordable_key (k : flowKey) : bool :=
  negb (zero_addr (fk_ipVersion k) (serverAddr k) || zero_addr (fk_ipVersion k) (fk_groupAddr k)).

(** An entry: in its chain, under its stored key, with a proper non-empty port
    array. *)
Record entry_ok (h : nat) (e : mcastFlowEntry) : Prop := {
  ok_hash : flow_hash (flowId e) = h;
  ok_key : stored_key (flowId e) = flowId e;
  ok_addr : recordable_key (flowId e) = true;
  ok_egress : egress_ok (egressDevInfo (multicastFwdInfo e));
  ok_ports : ports_of (egressDevInfo (multicastFwdInfo e)) <> []
}.
Definition same_flow_key (e e' : mcastFlowEntry) : bool := key_match (flowId e) (flowId e').

Definition cells (fd : flowDb) : list nat := rtk_igmp_mcastFlowEntryPool fd ++ (flowCell <$> all_flows fd).

(** [N] cells, [n] bridges. *)
Record flow_inv (n N : nat) (fd : flowDb) : Prop := {
  fi_len : length (flowHashTable fd) = n;
  fi_sized : Forall (fun t => length t = Z.to_nat IGMP_HASH_TBL_SIZE) (flowHashTable fd);
  fi_cells : cells fd ≡ₚ seq 0 N;
  fi_entry : forall mi h e, e ∈ flow_bucket mi h fd -> entry_ok h e;
  fi_unique : forall mi h, distinct same_flow_key (flow_bucket mi h fd)
}.

(** *** Buckets *)

Lemma flow_bucket_alter_eq n N mi h f fd :
  flow_inv n N fd -> (mi < n)%nat -> (h < Z.to_nat IGMP_HASH_TBL_SIZE)%nat ->
  flow_bucket mi h (alter_flow_bucket mi h f fd) = f (flow_bucket mi h fd).
Proof.
  intros Hi Hm Hh. unfold flow_bucket, alter_flow_bucket. simpl.
  rewrite <- (fi_len _ _ _ Hi) in Hm. apply lookup_lt_is_Some in Hm as [t Ht].
  pose proof (fi_sized _ _ _ Hi) as Hs. rewrite Forall_lookup in Hs. specialize (Hs _ _ Ht). rewrite <- Hs in Hh.
  apply lookup_lt_is_Some in Hh as [b Hb].
  rewrite list_lookup_alter_eq, Ht. simpl. by rewrite list_lookup_alter_eq, Hb.
Qed.

Lemma flow_bucket_alter_ne mi h mi' h' f fd :
  (mi, h) <> (mi', h') -> flow_bucket mi h (alter_flow_bucket mi' h' f fd) = flow_bucket mi h fd.
Proof.
  intros Hne. unfold flow_bucket, alter_flow_bucket. simpl. destruct (decide (mi' = mi)) as [->|Hmi].
  - rewrite list_lookup_alter_eq. destruct (flowHashTable fd !! mi) as [t|]; [|done]. simpl.
    rewrite list_lookup_alter_ne; [done|]. congruence.
  - by rewrite list_lookup_alter_ne.
Qed.

Lemma flow_bucket_out n N mi h fd : flow_inv n N fd -> (n <= mi)%nat -> flow_bucket mi h fd = [].
Proof.
  intros Hi Hm. unfold flow_bucket. rewrite lookup_ge_None_2; [done|]. by rewrite (fi_len _ _ _ Hi).
Qed.

Lemma in_bucket_range n N mi h e fd :
  flow_inv n N fd -> e ∈ flow_bucket mi h fd -> (mi < n)%nat /\ (h < Z.to_nat IGMP_HASH_TBL_SIZE)%nat.
Proof.
  intros Hi He. split.
  - destruct (decide (mi < n)%nat); [done|]. rewrite (flow_bucket_out _ _ _ _ _ Hi) in He by lia. set_solver.
  - rewrite <- (ok_hash _ _ (fi_entry _ _ _ Hi _ _ _ He)). apply hash_bound.
Qed.

(** Rewriting a chain changes the entries of the table by just that, up to order. *)
Lemma all_flows_alter n N mi h f fd :
  flow_inv n N fd -> (mi < n)%nat -> (h < Z.to_nat IGMP_HASH_TBL_SIZE)%nat ->
  all_flows (alter_flow_bucket mi h f fd) ++ flow_bucket mi h fd ≡ₚ all_flows fd ++ f (flow_bucket mi h fd).
Proof.
  intros Hi Hm Hh. rewrite <- (fi_len _ _ _ Hi) in Hm. apply lookup_lt_is_Some in Hm as [t Ht].
  pose proof (fi_sized _ _ _ Hi) as Hs. rewrite Forall_lookup in Hs. specialize (Hs _ _ Ht). rewrite <- Hs in Hh.
  apply lookup_lt_is_Some in Hh as [b Hb].
  unfold flow_bucket, all_flows, alter_flow_bucket. rewrite Ht. simpl. rewrite Hb. simpl.
  pose proof (concat_perm _ _ (concat_alter_perm (alter f h) _ _ _ Ht)) as Hp.
  rewrite !concat_app in Hp. pose proof (concat_alter_perm f _ _ _ Hb) as Hq.
  apply (Permutation_app_inv_r (concat t)). rewrite <- !app_assoc.
  rewrite (Permutation_app_comm b), (Permutation_app_comm (f b)), !app_assoc, Hp.
  rewrite <- !app_assoc. by rewrite Hq.
Qed.

Lemma all_flows_bucket mi h e fd : e ∈ flow_bucket mi h fd -> e ∈ all_flows fd.
Proof.
  unfold flow_bucket, all_flows. destruct (flowHashTable fd !! mi) as [t|] eqn:Ht; [|set_solver]. simpl.
  destruct (t !! h) as [b|] eqn:Hb; [|set_solver]. simpl. intros He.
  apply elem_of_concat. exists b. split; [done|]. apply elem_of_concat. exists t.
  split; by eapply list_elem_of_lookup_2.
Qed.

(** *** Updates *)

Lemma flow_inv_ext n N fd fd' :
  flowHashTable fd' = flowHashTable fd -> rtk_igmp_mcastFlowEntryPool fd' = rtk_igmp_mcastFlowEntryPool fd ->
  flow_inv n N fd -> flow_inv n N fd'.
Proof.
  intros Ht Hp [H1 H2 H3 H4 H5]. split.
  - by rewrite Ht.
  - by rewrite Ht.
  - unfold cells, all_flows in *. by rewrite Ht, Hp.
  - intros mi h e. unfold flow_bucket. rewrite Ht. apply H4.
  - intros mi h. unfold flow_bucket. rewrite Ht. apply H5.
Qed.
Lemma inv_call_hw n N e fd : flow_inv n N fd -> flow_inv n N (call_hw e fd).
Proof. by apply flow_inv_ext. Qed.

(** Rewriting one chain together with the free cells. *)
Lemma inv_update n N mi h f p fd :
  flow_inv n N fd -> (mi < n)%nat -> (h < Z.to_nat IGMP_HASH_TBL_SIZE)%nat ->
  (forall e, e ∈ f (flow_bucket mi h fd) -> entry_ok h e) ->
  distinct same_flow_key (f (flow_bucket mi h fd)) ->
  p ++ (flowCell <$> f (flow_bucket mi h fd)) ≡ₚ
    rtk_igmp_mcastFlowEntryPool fd ++ (flowCell <$> flow_bucket mi h fd) ->
  flow_inv n N (set_flowPool p (alter_flow_bucket mi h f fd)).
Proof.
  intros Hi Hm Hh He Hd Hp. pose proof (all_flows_alter _ _ _ _ f _ Hi Hm Hh) as Hall.
  pose proof (flow_bucket_alter_eq _ _ _ _ f _ Hi Hm Hh) as Hb. split.
  - simpl. rewrite length_alter. apply Hi.
  - simpl. apply Forall_alter; [apply Hi|]. intros t Ht Hlen. by rewrite length_alter.
  - rewrite <- (fi_cells _ _ _ Hi). unfold cells. simpl.
    apply (fmap_Permutation flowCell) in Hall. rewrite !fmap_app in Hall.
    apply (Permutation_app_inv_r (flowCell <$> flow_bucket mi h fd)).
    change (all_flows (set_flowPool p _)) with (all_flows (alter_flow_bucket mi h f fd)).
    rewrite <- !app_assoc, Hall, (Permutation_app_comm (flowCell <$> all_flows fd)), app_assoc, Hp.
    solve_Permutation.
  - intros mi' h' e. change (flow_bucket mi' h' (set_flowPool p _)) with (flow_bucket mi' h' (alter_flow_bucket mi h f fd)).
    destruct (decide ((mi', h') = (mi, h))) as [[= -> ->]|Hne]; [rewrite Hb; apply He|].
    rewrite flow_bucket_alter_ne by done. apply Hi.
  - intros mi' h'. change (flow_bucket mi' h' (set_flowPool p _)) with (flow_bucket mi' h' (alter_flow_bucket mi h f fd)).
    destruct (decide ((mi', h') = (mi, h))) as [[= -> ->]|Hne]; [by rewrite Hb|].
    rewrite flow_bucket_alter_ne by done. apply Hi.
Qed.

Lemma alter_bucket_out mi h f fd :
  (length (flowHashTable fd) <= mi)%nat -> flowHashTable (alter_flow_bucket mi h f fd) = flowHashTable fd.
Proof.
  intros Hm. simpl. apply list_eq. intros i. destruct (decide (mi = i)) as [->|Hne].
  - rewrite list_lookup_alter_eq, lookup_ge_None_2 by done. done.
  - by rewrite list_lookup_alter_ne.
Qed.

(** A change of an entry that keeps its cell and key. *)
Record keeps_entry (f : mcastFlowEntry -> mcastFlowEntry) : Prop := {
  ke_cell : forall e, flowCell (f e) = flowCell e;
  ke_id : forall e, flowId (f e) = flowId e;
  ke_ok : forall h e, entry_ok h e -> entry_ok h (f e)
}.

Lemma update_first_cells k f l : (forall e, flowCell (f e) = flowCell e) ->
  flowCell <$> update_first (flow_match k) f l = flowCell <$> l.
Proof. intros Hf. induction l as [|e l IH]; csimpl; [done|]. case_match; csimpl; congruence. Qed.

Lemma elem_update_first_flow k f l e :
  e ∈ update_first (flow_match k) f l -> e ∈ l \/ exists e', e' ∈ l /\ e = f e'.
Proof.
  induction l as [|x l IH]; simpl; [set_solver|]. destruct (flow_match k x); set_solver.
Qed.

Lemma inv_alter_flow n N mi k f fd : flow_inv n N fd -> keeps_entry f -> flow_inv n N (alter_flow mi k f fd).
Proof.
  intros Hi [Hc Hid Hok]. unfold alter_flow. destruct (decide (mi < n)%nat) as [Hm|Hm].
  - eapply flow_inv_ext; [| |eapply (inv_update n N mi (flow_hash k) (update_first (flow_match k) f)
      (rtk_igmp_mcastFlowEntryPool fd) fd)]; try done; [apply hash_bound| | |].
    + intros e [He|(e' & He & ->)]%elem_update_first_flow; [by eapply fi_entry|].
      apply Hok. by eapply fi_entry.
    + destruct (List.find (flow_match k) (flow_bucket mi (flow_hash k) fd)) as [e|] eqn:Ee.
      * eapply distinct_update_first; [done| | |by eapply fi_unique]; intros y; unfold same_flow_key; by rewrite Hid.
      * rewrite update_first_none by done. by eapply fi_unique.
    + by rewrite update_first_cells.
  - eapply flow_inv_ext; [| |exact Hi]; [|done]. apply alter_bucket_out.
    rewrite (fi_len _ _ _ Hi). lia.
Qed.

Lemma cells_in_bucket n N mi h fd : flow_inv n N fd -> NoDup (flowCell <$> flow_bucket mi h fd).
Proof.
  intros Hi. assert (NoDup (cells fd)) as Hn by (rewrite (fi_cells _ _ _ Hi); apply NoDup_seq).
  unfold cells in Hn. apply NoDup_app in Hn as (_ & _ & Hn).
  destruct (decide (mi < n)%nat) as [Hm|Hm]; [|rewrite (flow_bucket_out _ _ _ _ _ Hi) by lia; constructor].
  destruct (decide (h < Z.to_nat IGMP_HASH_TBL_SIZE)%nat) as [Hh|Hh].
  - pose proof (all_flows_alter _ _ _ _ (fun _ => []) _ Hi Hm Hh) as Hp. rewrite app_nil_r in Hp.
    rewrite <- Hp, fmap_app in Hn. by apply NoDup_app in Hn as (_ & _ & ?).
  - destruct (flow_bucket mi h fd) as [|e b] eqn:E; [constructor|].
    destruct (in_bucket_range _ _ mi h e _ Hi); [rewrite E; set_solver|lia].
Qed.

(** A cell is in one chain, once. *)
Lemma cell_inj n N mi h h' x e fd : flow_inv n N fd ->
  x ∈ flow_bucket mi h fd -> e ∈ flow_bucket mi h' fd -> flowCell e = flowCell x -> x = e.
Proof.
  intros Hi Hx He Hc. destruct (in_bucket_range _ _ _ _ _ _ Hi Hx) as [Hm Hh].
  destruct (decide (h = h')) as [<-|Hne].
  - pose proof (cells_in_bucket _ _ mi h _ Hi) as Hn.
    apply list_elem_of_lookup in He as [i Hei]. apply list_elem_of_lookup in Hx as [j Hxj].
    assert (i = j) as ->; [|congruence].
    eapply NoDup_lookup; [exact Hn| |]; rewrite list_lookup_fmap; [by rewrite Hei|by rewrite Hxj, Hc].
  - exfalso. assert (NoDup (cells fd)) as Hn by (rewrite (fi_cells _ _ _ Hi); apply NoDup_seq).
    unfold cells in Hn. apply NoDup_app in Hn as (_ & _ & Hn).
    pose proof (all_flows_alter _ _ _ _ (fun _ => []) _ Hi Hm Hh) as Hp. rewrite app_nil_r in Hp.
    rewrite <- Hp, fmap_app in Hn. apply NoDup_app in Hn as (_ & Hn & _).
    apply (Hn (flowCell e)); [|rewrite Hc; by apply list_elem_of_fmap_2].
    apply list_elem_of_fmap_2, (all_flows_bucket mi h'). rewrite flow_bucket_alter_ne; [done|congruence].
Qed.

(** Removing an entry by its cell removes that entry. *)
Lemma remove_cell_perm e l : e ∈ l -> NoDup (flowCell <$> l) -> e :: remove_first (same_cell e) l ≡ₚ l.
Proof.
  induction l as [|x l IH]; csimpl; intros He Hn; [set_solver|]. apply NoDup_cons in Hn as [Hx Hn].
  unfold same_cell at 1. destruct (flowCell e =? flowCell x)%nat eqn:E.
  - apply Nat.eqb_eq in E. apply elem_of_cons in He as [->|He]; [done|].
    exfalso. apply Hx. rewrite <- E. by apply list_elem_of_fmap_2.
  - apply elem_of_cons in He as [->|He]; [by rewrite Nat.eqb_refl in E|].
    rewrite Permutation_swap. by rewrite IH.
Qed.

(** The same for an entry that was changed since it was read. *)
Lemma remove_same_cell e e' (l : list mcastFlowEntry) : flowCell e = flowCell e' ->
  remove_first (same_cell e) l = remove_first (same_cell e') l.
Proof. intros He. induction l as [|x l IH]; simpl; [done|].
  replace (same_cell e' x) with (same_cell e x) by (unfold same_cell; by rewrite He). by rewrite IH. Qed.

Lemma inv_delete_raw n N mi e e' fd :
  flow_inv n N fd -> e' ∈ flow_bucket mi (flow_hash (flowId e)) fd -> flowCell e = flowCell e' ->
  flow_inv n N (rtk_igmp_deleteFloodMcastFlowEntry mi e fd).
Proof.
  intros Hi He Hc. destruct (in_bucket_range _ _ _ _ _ _ Hi He) as [Hm Hh].
  unfold rtk_igmp_deleteFloodMcastFlowEntry, rtk_igmp_unlinkMcastFlowEntry.
  eapply flow_inv_ext; [| |eapply (inv_update n N mi (flow_hash (flowId e)) (remove_first (same_cell e))
    (flowCell e :: rtk_igmp_mcastFlowEntryPool fd) fd); try done]; [by destruct groupDelCbEvt..| | |].
  - intros x Hx. rewrite (remove_same_cell _ _ _ Hc) in Hx. eapply fi_entry; [done|].
    rewrite <- (remove_cell_perm e' (flow_bucket mi (flow_hash (flowId e)) fd)); [|done|by eapply cells_in_bucket].
    by right.
  - apply distinct_remove_first. by eapply fi_unique.
  - rewrite (remove_same_cell _ _ _ Hc), Hc.
    rewrite <- (remove_cell_perm e' (flow_bucket mi (flow_hash (flowId e)) fd)) at 2; [|done|by eapply cells_in_bucket].
    csimpl. solve_Permutation.
Qed.

Lemma inv_delete n N mi e e' fd :
  flow_inv n N fd -> e' ∈ flow_bucket mi (flow_hash (flowId e)) fd -> flowCell e = flowCell e' ->
  flow_inv n N (rtk_igmp_deleteMcastFlowEntry mi e fd).
Proof.
  intros Hi He Hc. unfold rtk_igmp_deleteMcastFlowEntry.
  destruct (flowDelCbEvt && _); [|by eapply inv_delete_raw].
  eapply inv_delete_raw; [by apply inv_call_hw| |done]. done.
Qed.

Lemma inv_link n N mi e p fd :
  flow_inv n N fd -> (mi < n)%nat -> entry_ok (flow_hash (flowId e)) e ->
  find_flow mi (flowId e) fd = None -> rtk_igmp_mcastFlowEntryPool fd = flowCell e :: p ->
  flow_inv n N (rtk_igmp_linkMcastFlowEntry mi e (set_flowPool p fd)).
Proof.
  intros Hi Hm Hok Hf Hp. unfold rtk_igmp_linkMcastFlowEntry.
  eapply flow_inv_ext; [| |eapply (inv_update n N mi (flow_hash (flowId e)) (cons e) p fd); try done];
    [by destruct groupAddCbEvt..|apply hash_bound| | |].
  - intros x [->|Hx]%elem_of_cons; [done|]. by eapply fi_entry.
  - split; [|by eapply fi_unique]. apply Forall_forall. intros x Hx.
    unfold find_flow in Hf. apply (List.find_none _ _ Hf x). by apply list_elem_of_In.
  - rewrite Hp. csimpl. solve_Permutation.
Qed.

(** ** The cache as a map *)

Definition same_flow (mi : nat) (k : flowKey) (mi' : nat) (k' : flowKey) : bool :=
  bool_decide (mi = mi') && key_match k k'.

Lemma key_match_sym k k' : key_match k k' = key_match k' k.
Proof. rewrite !key_match_stored. apply bool_decide_ext. naive_solver. Qed.
Lemma key_match_trans k k' x : key_match k k' = true -> key_match k x = key_match k' x.
Proof. rewrite key_match_true, !key_match_stored. intros ->. done. Qed.
Lemma key_match_neg k k' x : key_match k k' = false -> key_match k x = true -> key_match k' x = false.
Proof.
  intros Hn Hx. destruct (key_match k' x) eqn:E; [|done].
  rewrite key_match_sym in E. rewrite <- (key_match_trans _ _ _ Hx), key_match_sym in E.
  by rewrite key_match_sym, E in Hn.
Qed.
Lemma key_match_refl k : key_match k k = true.
Proof. by apply key_match_true. Qed.
Lemma same_flow_true mi k mi' k' : same_flow mi k mi' k' = true <-> mi' = mi /\ key_match k k' = true.
Proof. unfold same_flow. rewrite andb_true_iff, bool_decide_eq_true. naive_solver. Qed.
Lemma same_flow_refl mi k : same_flow mi k mi k = true.
Proof. apply same_flow_true. by rewrite key_match_refl. Qed.

Lemma find_flow_some mi k fd e : find_flow mi k fd = Some e ->
  e ∈ flow_bucket mi (flow_hash k) fd /\ key_match k (flowId e) = true.
Proof. unfold find_flow. intros [H1 H2]%List.find_some. split; [by apply list_elem_of_In|done]. Qed.

Lemma find_flow_ext mi k k' fd : key_match k k' = true -> find_flow mi k fd = find_flow mi k' fd.
Proof.
  intros Hk. unfold find_flow. rewrite (flow_hash_match _ _ Hk). apply find_ext.
  intros e. rewrite !flow_match_key. by apply key_match_trans.
Qed.

(** An entry of a chain is the one found under its key. *)
Lemma find_distinct (l : list mcastFlowEntry) e :
  e ∈ l -> distinct same_flow_key l -> List.find (flow_match (flowId e)) l = Some e.
Proof.
  induction l as [|x l IH]; simpl; intros He Hd; [set_solver|]. destruct Hd as [Hx Hd].
  rewrite flow_match_key. apply elem_of_cons in He as [->|He]; [by rewrite key_match_refl|].
  rewrite Forall_forall in Hx. specialize (Hx _ He). unfold same_flow_key in Hx.
  rewrite key_match_sym, Hx. by apply IH.
Qed.

Lemma find_flow_in n N mi h e fd :
  flow_inv n N fd -> e ∈ flow_bucket mi h fd -> find_flow mi (flowId e) fd = Some e.
Proof.
  intros Hi He. unfold find_flow. rewrite (ok_hash _ _ (fi_entry _ _ _ Hi _ _ _ He)).
  apply find_distinct; [done|by eapply fi_unique].
Qed.

(** A search touches only buckets of keys it matches. *)
Lemma bucket_other mi k f fd mi' k' :
  (mi', flow_hash k') <> (mi, flow_hash k) ->
  find_flow mi' k' (alter_flow_bucket mi (flow_hash k) f fd) = find_flow mi' k' fd /\
  same_flow mi k mi' k' = false.
Proof.
  intros Hne. split; [unfold find_flow; by rewrite flow_bucket_alter_ne|].
  destruct (same_flow mi k mi' k') eqn:E; [|done]. apply same_flow_true in E as [-> E].
  apply flow_hash_match in E. congruence.
Qed.

Lemma find_alter_flow n N mi k f fd mi' k' :
  flow_inv n N fd -> (forall e, flowId (f e) = flowId e) ->
  find_flow mi' k' (alter_flow mi k f fd) =
  if same_flow mi k mi' k' then f <$> find_flow mi k fd else find_flow mi' k' fd.
Proof.
  intros Hi Hf. destruct (decide ((mi', flow_hash k') = (mi, flow_hash k))) as [E|Hne].
  - injection E as -> Eh. destruct (decide (mi < n)%nat) as [Hm|Hm].
    + unfold same_flow. rewrite bool_decide_true by done. simpl.
      unfold find_flow, alter_flow. rewrite Eh, (flow_bucket_alter_eq _ _ _ _ _ _ Hi) by (done || apply hash_bound).
      destruct (key_match k k') eqn:Ek.
      * rewrite (find_ext (flow_match k') (flow_match k))
          by (intros e; rewrite !flow_match_key; symmetry; by apply key_match_trans).
        destruct (List.find (flow_match k) (flow_bucket mi (flow_hash k) fd)) as [e|] eqn:Ee.
        -- simpl. apply find_update_first; [done|]. rewrite flow_match_key, Hf.
           by apply List.find_some in Ee as [_ ?].
        -- by rewrite update_first_none.
      * apply find_update_first_other. intros e He. rewrite !flow_match_key in *. rewrite Hf.
        split; by eapply key_match_neg.
    + unfold find_flow at 1. unfold flow_bucket, alter_flow at 1.
      rewrite alter_bucket_out by (rewrite (fi_len _ _ _ Hi); lia).
      change (find_flow mi k' fd = if same_flow mi k mi k' then f <$> find_flow mi k fd else find_flow mi k' fd).
      unfold find_flow. rewrite !(flow_bucket_out _ _ _ _ _ Hi) by lia. by destruct (same_flow _ _ _ _).
  - destruct (bucket_other mi k (update_first (flow_match k) f) fd mi' k' Hne) as [H1 H2].
    by rewrite H2.
Qed.

Lemma find_link n N mi e fd mi' k' :
  flow_inv n N fd -> (mi < n)%nat ->
  find_flow mi' k' (rtk_igmp_linkMcastFlowEntry mi e fd) =
  if same_flow mi (flowId e) mi' k' then Some e else find_flow mi' k' fd.
Proof.
  intros Hi Hm. unfold rtk_igmp_linkMcastFlowEntry.
  match goal with |- find_flow _ _ ?x = _ =>
    change x with (alter_flow_bucket mi (flow_hash (flowId e)) (cons e)
      (if groupAddCbEvt then call_hw (FlowGroupAddCb (is_ipv6 (fk_ipVersion (flowId e))) (ingressCvlan (flowId e))
         (ingressSvlan (flowId e)) (fk_groupAddr (flowId e))) fd else fd)) end.
  set (fd1 := if groupAddCbEvt then _ else fd).
  assert (flow_inv n N fd1) as Hi1 by (subst fd1; destruct groupAddCbEvt; [by apply inv_call_hw|done]).
  assert (forall mi k, find_flow mi k fd1 = find_flow mi k fd) as Hf1 by (subst fd1; by destruct groupAddCbEvt).
  clearbody fd1. rewrite <- Hf1. clear Hf1.
  destruct (decide ((mi', flow_hash k') = (mi, flow_hash (flowId e)))) as [E|Hne].
  - injection E as -> Eh. unfold find_flow, same_flow. rewrite bool_decide_true, Eh by done. simpl.
    rewrite (flow_bucket_alter_eq _ _ _ _ _ _ Hi1) by (done || apply hash_bound). simpl.
    rewrite flow_match_key, key_match_sym. by destruct (key_match (flowId e) k').
  - destruct (bucket_other mi (flowId e) (cons e) fd1 mi' k' Hne) as [H1 H2]. by rewrite H1, H2.
Qed.

(** Within a chain, the cell and the key name the same entry. *)
Lemma cell_is_key (l : list mcastFlowEntry) e x :
  NoDup (flowCell <$> l) -> distinct same_flow_key l -> e ∈ l -> x ∈ l ->
  same_cell e x = flow_match (flowId e) x.
Proof.
  intros Hn Hd He Hx. rewrite flow_match_key. unfold same_cell.
  destruct (key_match (flowId e) (flowId x)) eqn:Ek.
  - assert (x = e) as ->; [|by rewrite Nat.eqb_refl].
    pose proof (find_distinct _ _ Hx Hd) as Hfx. pose proof (find_distinct _ _ He Hd) as Hfe.
    rewrite (find_ext (flow_match (flowId e)) (flow_match (flowId x))) in Hfe
      by (intros y; rewrite !flow_match_key; by apply key_match_trans). congruence.
  - apply Nat.eqb_neq. intros Hc. assert (x = e) as ->; [|by rewrite key_match_refl in Ek].
    apply list_elem_of_lookup in He as [i Hi]. apply list_elem_of_lookup in Hx as [j Hj].
    assert (i = j) as ->; [|congruence].
    eapply NoDup_lookup; [exact Hn| |]; rewrite list_lookup_fmap; [by rewrite Hi|by rewrite Hj, Hc].
Qed.

Lemma remove_first_ext_in {A} (p q : A -> bool) (l : list A) :
  (forall x, x ∈ l -> p x = q x) -> remove_first p l = remove_first q l.
Proof.
  induction l as [|x l IH]; simpl; intros Hp; [done|]. rewrite Hp by set_solver.
  destruct (q x); [done|]. rewrite IH; [done|]. intros y Hy. apply Hp. by right.
Qed.

(** Deleting a found entry, which may have been marked as used since. *)
Lemma find_deleteFlood n N mi k e e' fd mi' k' :
  flow_inv n N fd -> find_flow mi k fd = Some e' -> flowCell e = flowCell e' -> flowId e = flowId e' ->
  find_flow mi' k' (rtk_igmp_deleteFloodMcastFlowEntry mi e fd) =
  if same_flow mi k mi' k' then None else find_flow mi' k' fd.
Proof.
  intros Hi [He Hk]%find_flow_some Hc Hid. destruct (in_bucket_range _ _ _ _ _ _ Hi He) as [Hm Hh].
  pose proof (fi_unique _ _ _ Hi mi (flow_hash k)) as Hd.
  pose proof (cells_in_bucket _ _ mi (flow_hash k) _ Hi) as Hn.
  assert (find_flow mi' k' (rtk_igmp_deleteFloodMcastFlowEntry mi e fd) =
          find_flow mi' k' (alter_flow_bucket mi (flow_hash k) (remove_first (flow_match k)) fd)) as ->.
  { unfold rtk_igmp_deleteFloodMcastFlowEntry, rtk_igmp_unlinkMcastFlowEntry. rewrite Hid.
    rewrite <- (flow_hash_match _ _ Hk). unfold find_flow, flow_bucket.
    assert (forall g t, flowHashTable (rtk_igmp_freeMcastFlowEntry (flowCell e)
      (alter_flow_bucket mi (flow_hash k) g (if groupDelCbEvt then call_hw t fd else fd))) =
      flowHashTable (alter_flow_bucket mi (flow_hash k) g fd)) as -> by (intros; by destruct groupDelCbEvt).
    fold (flow_bucket mi' (flow_hash k') (alter_flow_bucket mi (flow_hash k) (remove_first (same_cell e)) fd)).
    fold (flow_bucket mi' (flow_hash k') (alter_flow_bucket mi (flow_hash k) (remove_first (flow_match k)) fd)).
    destruct (decide ((mi', flow_hash k') = (mi, flow_hash k))) as [[= -> ->]|Hne];
      [|by rewrite !flow_bucket_alter_ne].
    rewrite !(flow_bucket_alter_eq _ _ _ _ _ _ Hi) by done. f_equal. apply remove_first_ext_in. intros x Hx.
    transitivity (same_cell e' x); [unfold same_cell; by rewrite Hc|].
    rewrite (cell_is_key _ _ _ Hn Hd He Hx), !flow_match_key. symmetry. by apply key_match_trans. }
  destruct (decide ((mi', flow_hash k') = (mi, flow_hash k))) as [E|Hne].
  - injection E as -> Eh. unfold find_flow at 1. rewrite Eh, (flow_bucket_alter_eq _ _ _ _ _ _ Hi) by done.
    unfold same_flow. rewrite bool_decide_true by done. simpl. destruct (key_match k k') eqn:Ek.
    + rewrite (find_ext (flow_match k') (flow_match k))
        by (intros x; rewrite !flow_match_key; symmetry; by apply key_match_trans).
      eapply find_remove_first_none; [|exact Hd]. intros x y Hx Hy. rewrite !flow_match_key in *.
      unfold same_flow_key. by rewrite <- (key_match_trans _ _ _ Hx).
    + rewrite find_remove_first_other; [unfold find_flow; by rewrite Eh|].
      intros x Hx. rewrite !flow_match_key in *. by eapply key_match_neg.
  - destruct (bucket_other mi k (remove_first (flow_match k)) fd mi' k' Hne) as [H1 H2]. by rewrite H1, H2.
Qed.

Lemma find_delete n N mi k e e' fd mi' k' :
  flow_inv n N fd -> find_flow mi k fd = Some e' -> flowCell e = flowCell e' -> flowId e = flowId e' ->
  find_flow mi' k' (rtk_igmp_deleteMcastFlowEntry mi e fd) =
  if same_flow mi k mi' k' then None else find_flow mi' k' fd.
Proof.
  intros Hi Hf Hc Hid. unfold rtk_igmp_deleteMcastFlowEntry.
  destruct (flowDelCbEvt && _); [|by eapply find_deleteFlood].
  exact (find_deleteFlood n N mi k e e' _ mi' k' (inv_call_hw _ _ _ _ Hi) Hf Hc Hid).
Qed.

End Inv.
