(* ===== verification/IgmpFlowOps.v ===== *)
(** * IgmpFlowOps: what the operations of the flow cache do

    Walks over the chains, recycling, aging and the recording of a decision, each
    as a change of the map of IgmpFlowSpec. *)
From S2P Require Import Prelude IgmpTable IgmpFlow IgmpFlowSpec.

Section Ops.
Context {cfg : IgmpConfig} {fcfg : FlowConfig}.

(** ** Searches and walks *)

Lemma keeps_set_refresh t : keeps_entry (set_refresh t).
Proof. by split; [..|intros h e []]. Qed.
Lemma keeps_set_fwd f : egress_ok (egressDevInfo f) -> ports_of (egressDevInfo f) <> [] -> keeps_entry (set_fwd f).
Proof. by split; [..|intros h e []]. Qed.
Lemma keeps_hwCbAcc b : keeps_entry (fun e => set_fwd (set_hwCbAcc b (multicastFwdInfo e)) e).
Proof. by split; [..|intros h e []]. Qed.
Lemma keeps_count t : keeps_entry (fun e => set_fwdPktCnt (u32 (fwdPktCnt e + 1)) (set_refresh t e)).
Proof. by split; [..|intros h e []]. Qed.
Lemma keeps_fwdPktCnt : keeps_entry (fun e => set_fwdPktCnt (u32 (fwdPktCnt e + 1)) e).
Proof. by split; [..|intros h e []]. Qed.
Lemma keeps_defineCnt : keeps_entry (fun e => set_defineFwdPktCnt (u32 (defineFwdPktCnt e + 1)) e).
Proof. by split; [..|intros h e []]. Qed.

Lemma inv_search n N mi k now fd : flow_inv n N fd -> flow_inv n N (snd (rtk_igmp_searchMcastFlowEntry mi k now fd)).
Proof.
  intros Hi. unfold rtk_igmp_searchMcastFlowEntry. case_match; [|done]. simpl.
  by apply inv_alter_flow, keeps_set_refresh.
Qed.

Lemma find_flow_iff n N mi k e fd : flow_inv n N fd ->
  find_flow mi k fd = Some e <-> e ∈ flow_bucket mi (flow_hash k) fd /\ key_match k (flowId e) = true.
Proof.
  intros Hi. split; [apply find_flow_some|]. intros [He Hk].
  rewrite (find_flow_ext _ _ _ _ Hk). by eapply find_flow_in.
Qed.

(** What an observer sees of a flow. *)
Definition seen {B} (own : mcastFlowEntry -> B) (mi : nat) (k : flowKey) (fd : flowDb) : option B :=
  own <$> find_flow mi k fd.

Lemma seen_id mi k fd : seen id mi k fd = find_flow mi k fd.
Proof. unfold seen. by destruct (find_flow mi k fd). Qed.

(** An observed flow is found under its stored key. *)
Lemma find_flow_key n N mi k e fd : flow_inv n N fd -> find_flow mi k fd = Some e -> flowId e = stored_key k.
Proof.
  intros Hi [He Hk]%find_flow_some. apply key_match_true in Hk. rewrite Hk.
  symmetry. apply (fi_entry _ _ _ Hi _ _ _ He).
Qed.

Section Walk.
Context {B : Type} (own : mcastFlowEntry -> B) (n N mi : nat).
Context (visit : mcastFlowEntry -> flowDb -> flowDb) (res : flowKey -> B -> option B).

(** A visit changes, for the observer, only the flow it visits: to what [res] says. *)
Definition visits : Prop :=
  forall fd e, flow_inv n N fd -> seen own mi (flowId e) fd = Some (own e) -> stored_key (flowId e) = flowId e ->
    recordable_key (flowId e) = true ->
    flow_inv n N (visit e fd) /\
    forall mi' k', seen own mi' k' (visit e fd) =
      if same_flow mi (flowId e) mi' k' then res (flowId e) (own e) else seen own mi' k' fd.

(** A walk over part of a chain. *)
Lemma walk_entries (es : list mcastFlowEntry) fd :
  visits -> flow_inv n N fd -> distinct same_flow_key es ->
  (forall e, e ∈ es -> seen own mi (flowId e) fd = Some (own e) /\ stored_key (flowId e) = flowId e /\
             recordable_key (flowId e) = true) ->
  let fd' := foldl (fun fd e => visit e fd) fd es in
  flow_inv n N fd' /\
  forall mi' k', seen own mi' k' fd' =
    match List.find (fun e => same_flow mi (flowId e) mi' k') es with
    | Some e => res (flowId e) (own e)
    | None => seen own mi' k' fd
    end.
Proof.
  intros Hv. revert fd. induction es as [|e es IH]; intros fd Hi Hd Hin; simpl; [done|].
  destruct Hd as [Hne Hd]. destruct (Hv fd e Hi) as [H1 H2]; [apply Hin; left..|].
  destruct (IH _ H1 Hd) as [H3 H4].
  { intros x Hx. split; [|apply Hin; by right]. rewrite H2. rewrite Forall_forall in Hne. specialize (Hne x Hx).
    unfold same_flow, same_flow_key in *. rewrite Hne, andb_false_r. apply Hin. by right. }
  split; [done|]. intros mi' k'. rewrite H4, H2.
  destruct (same_flow mi (flowId e) mi' k') eqn:E; [|done].
  destruct (List.find _ es) as [x|] eqn:Ex; [|done]. exfalso.
  apply List.find_some in Ex as [Hx Ex]. apply same_flow_true in E as [_ E]. apply same_flow_true in Ex as [_ Ex].
  rewrite Forall_forall in Hne. apply list_elem_of_In in Hx. specialize (Hne x Hx). unfold same_flow_key in Hne.
  rewrite (key_match_trans _ _ _ E), key_match_sym, Ex in Hne. done.
Qed.

(** What a walk leaves of a flow. *)
Definition after (k : flowKey) (o : option B) : option B := o ≫= res (stored_key k).

Lemma walk_bucket_spec h fd :
  visits -> flow_inv n N fd ->
  let fd' := walk_bucket visit mi h fd in
  flow_inv n N fd' /\
  forall mi' k', seen own mi' k' fd' =
    if bool_decide (mi' = mi /\ flow_hash k' = h) then after k' (seen own mi' k' fd) else seen own mi' k' fd.
Proof.
  intros Hv Hi. destruct (walk_entries (flow_bucket mi h fd) fd Hv Hi) as [H1 H2]; [by eapply fi_unique| |].
  { intros e He. unfold seen. rewrite (find_flow_in _ _ _ _ _ _ Hi He).
    destruct (fi_entry _ _ _ Hi _ _ _ He). done. }
  split; [exact H1|]. intros mi' k'. unfold walk_bucket. rewrite H2.
  case_bool_decide as Hd.
  - destruct Hd as [-> <-]. unfold same_flow. rewrite bool_decide_true by done. simpl.
    rewrite (find_ext (fun e => key_match (flowId e) k') (flow_match k'))
      by (intros e; rewrite flow_match_key; apply key_match_sym).
    fold (find_flow mi k' fd). unfold after, seen. destruct (find_flow mi k' fd) as [e|] eqn:Ee; [|done].
    simpl. by rewrite (find_flow_key _ _ _ _ _ _ Hi Ee).
  - destruct (List.find _ _) as [e|] eqn:Ee; [|done]. exfalso. apply Hd.
    apply List.find_some in Ee as [He Ee]. apply list_elem_of_In in He. apply same_flow_true in Ee as [-> Ee].
    split; [done|]. rewrite <- (flow_hash_match _ _ Ee). apply (fi_entry _ _ _ Hi _ _ _ He).
Qed.

Lemma walk_flows_spec fd :
  visits -> flow_inv n N fd ->
  let fd' := walk_flows visit mi fd in
  flow_inv n N fd' /\
  forall mi' k', seen own mi' k' fd' =
    if bool_decide (mi' = mi) then after k' (seen own mi' k' fd) else seen own mi' k' fd.
Proof.
  intros Hv. unfold walk_flows.
  assert (forall hs, NoDup hs -> forall fd, flow_inv n N fd ->
    let fd' := foldl (fun fd h => walk_bucket visit mi h fd) fd hs in
    flow_inv n N fd' /\
    forall mi' k', seen own mi' k' fd' =
      if bool_decide (mi' = mi /\ flow_hash k' ∈ hs) then after k' (seen own mi' k' fd) else seen own mi' k' fd) as Hw.
  { induction 1 as [|h hs Hh Hn IH]; intros fd0 Hi; simpl.
    - split; [done|]. intros. by rewrite bool_decide_false by (intros [_ ?]; set_solver).
    - destruct (walk_bucket_spec h fd0 Hv Hi) as [H1 H2]. destruct (IH _ H1) as [H3 H4].
      split; [done|]. intros mi' k'. rewrite H4, H2. repeat case_bool_decide; set_solver. }
  intros Hi. destruct (Hw buckets (NoDup_seq _ _) fd Hi) as [H1 H2]. split; [done|]. intros mi' k'. rewrite H2.
  apply bool_decide_ext_if. split; [tauto|]. intros ->. split; [done|]. apply elem_of_seq.
  pose proof (hash_bound (fk_ipVersion k') (fk_groupAddr k')). unfold flow_hash. lia.
Qed.
End Walk.

(** A visit that deletes the entry when [p] holds and marks it as used when [q] does. *)
Definition sweep_flow (p q : mcastFlowEntry -> bool) (mi : nat) (now : Z) (e : mcastFlowEntry) (fd : flowDb) : flowDb :=
  if p e then rtk_igmp_deleteMcastFlowEntry mi e fd
  else if q e then alter_flow mi (flowId e) (set_refresh now) fd else fd.
Definition swept (p q : mcastFlowEntry -> bool) (now : Z) (_ : flowKey) (e : mcastFlowEntry) : option mcastFlowEntry :=
  if p e then None else Some (if q e then set_refresh now e else e).

Lemma visits_sweep n N mi p q now : visits id n N mi (sweep_flow p q mi now) (swept p q now).
Proof.
  intros fd e Hi He _ _. rewrite seen_id in He. setoid_rewrite seen_id. unfold sweep_flow, swept, id. destruct (p e).
  - split; [|intros; by eapply find_delete]. eapply inv_delete; [done| |done]. apply (find_flow_some _ _ _ _ He).
  - destruct (q e).
    + split; [by apply inv_alter_flow, keeps_set_refresh|]. intros mi' k'.
      rewrite (find_alter_flow _ _ _ _ _ _ _ _ Hi) by done. by rewrite He.
    + split; [done|]. intros mi' k'. destruct (same_flow _ _ _ _) eqn:E; [|done].
      apply same_flow_true in E as [-> E]. by rewrite <- (find_flow_ext _ _ _ _ E).
Qed.

Definition no_mark (_ : mcastFlowEntry) : bool := false.
Lemma visits_delete_if n N mi p : visits id n N mi (delete_if p mi) (swept p no_mark 0).
Proof. apply (visits_sweep n N mi p no_mark 0). Qed.

(** ** The free cells *)

Lemma pool_delete mi e fd :
  rtk_igmp_mcastFlowEntryPool (rtk_igmp_deleteMcastFlowEntry mi e fd) =
  flowCell e :: rtk_igmp_mcastFlowEntryPool fd.
Proof.
  unfold rtk_igmp_deleteMcastFlowEntry, rtk_igmp_unlinkMcastFlowEntry.
  by destruct (flowDelCbEvt && _), groupDelCbEvt.
Qed.

Lemma pool_walk_grows p mi (es : list mcastFlowEntry) fd :
  rtk_igmp_mcastFlowEntryPool fd <> [] \/ Exists (fun e => p e = true) es ->
  rtk_igmp_mcastFlowEntryPool (foldl (fun fd e => delete_if p mi e fd) fd es) <> [].
Proof.
  revert fd. induction es as [|e es IH]; intros fd Hp; simpl.
  - destruct Hp as [|Hp]; [done|]. by apply Exists_nil in Hp.
  - apply IH. unfold delete_if. destruct (p e) eqn:E.
    + left. by rewrite pool_delete.
    + destruct Hp as [|[Hp|Hp]%Exists_cons]; [by left|congruence|by right].
Qed.

Lemma pool_walk_flows n N p mi hs fd : flow_inv n N fd ->
  rtk_igmp_mcastFlowEntryPool fd <> [] \/
  (exists e, flow_hash (flowId e) ∈ hs /\ find_flow mi (flowId e) fd = Some e /\ p e = true) ->
  rtk_igmp_mcastFlowEntryPool (foldl (fun fd h => walk_bucket (delete_if p mi) mi h fd) fd hs) <> [].
Proof.
  revert fd. induction hs as [|h hs IH]; intros fd Hi Hp; simpl; [destruct Hp as [|(? & ? & _)]; [done|set_solver]|].
  destruct (walk_bucket_spec id n N mi _ _ h fd (visits_delete_if n N mi p) Hi) as [H1 H2]. apply IH; [done|].
  destruct Hp as [Hp|(e & Hh & He & Ep)]; [left; apply pool_walk_grows; by left|].
  destruct (decide (flow_hash (flowId e) = h)) as [<-|Hne].
  - left. apply pool_walk_grows. right. apply Exists_exists. exists e. split; [|done]. apply (find_flow_some _ _ _ _ He).
  - right. exists e. split; [set_solver|]. rewrite <- seen_id, H2, bool_decide_false, seen_id by tauto. done.
Qed.

Lemma elem_module_flows n N mi e fd : flow_inv n N fd ->
  e ∈ module_flows mi fd <-> exists h, e ∈ flow_bucket mi h fd.
Proof.
  intros Hi. unfold module_flows. rewrite elem_of_concat. split.
  - intros (l & He & (h & -> & _)%list_elem_of_fmap). eauto.
  - intros (h & He). exists (flow_bucket mi h fd). split; [done|]. apply list_elem_of_fmap. exists h.
    split; [done|]. apply elem_of_seq. destruct (in_bucket_range _ _ _ _ _ _ Hi He). lia.
Qed.

(** ** Recycling *)

Lemma foldl_older l o : foldl older (Some o) l <> None /\
  forall e, foldl older (Some o) l = Some e ->
    (e = o \/ e ∈ l) /\ refreshTime e <= refreshTime o /\ Forall (fun x => refreshTime e <= refreshTime x) l.
Proof.
  revert o. induction l as [|x l IH]; intros o; simpl.
  - split; [done|]. intros e [= ->]. split; [by left|]. split; [lia|constructor].
  - destruct (refreshTime x <? refreshTime o) eqn:E; bool_to_prop.
    + destruct (IH x) as [H1 H2]. split; [done|]. intros e He. destruct (H2 e He) as (Hin & Hle & Hall).
      split; [right; destruct Hin as [->|]; set_solver|]. split; [lia|]. by constructor.
    + destruct (IH o) as [H1 H2]. split; [done|]. intros e He. destruct (H2 e He) as (Hin & Hle & Hall).
      split; [destruct Hin as [->|]; set_solver|]. split; [lia|]. constructor; [lia|done].
Qed.

Lemma foldl_older_spec l :
  match foldl older None l with
  | Some e => e ∈ l /\ Forall (fun x => refreshTime e <= refreshTime x) l
  | None => l = []
  end.
Proof.
  destruct l as [|o l]; [done|]. simpl. destruct (foldl_older l o) as [Hn Hs].
  destruct (foldl older (Some o) l) as [e|]; [|done].
  destruct (Hs e eq_refl) as (Hin & Hle & Hall). split; [destruct Hin as [->|]; set_solver|]. by constructor.
Qed.

(** The entry that makes room when nothing expired. *)
Definition victim (mi : nat) (now : Z) (fd : flowDb) (e : mcastFlowEntry) : bool :=
  if existsb (flow_expired now) (module_flows mi fd) then flow_expired now e
  else match foldl older None (module_flows mi fd) with
       | Some o => (flowCell o =? flowCell e)%nat
       | None => false
       end.

Lemma recycle_spec n N mi now fd :
  flow_inv n N fd ->
  let fd' := rtk_igmp_doMcastFlowRecycle mi now fd in
  flow_inv n N fd' /\
  (forall mi' k, find_flow mi' k fd' =
     if bool_decide (mi' = mi)
     then find_flow mi' k fd ≫= fun e => if victim mi now fd e then None else Some e
     else find_flow mi' k fd) /\
  (module_flows mi fd <> [] -> rtk_igmp_mcastFlowEntryPool fd' <> []).
Proof.
  intros Hi. unfold rtk_igmp_doMcastFlowRecycle, victim.
  destruct (existsb (flow_expired now) (module_flows mi fd)) eqn:Ex; cbv zeta.
  - destruct (walk_flows_spec id n N mi _ _ fd (visits_delete_if n N mi (flow_expired now)) Hi) as [H1 H2].
    split; [done|]. split; [intros mi' k; specialize (H2 mi' k); rewrite !seen_id in H2; exact H2|]. intros _. apply (pool_walk_flows n N); [done|]. right.
    apply existsb_exists in Ex as (e & He & Ep). rewrite <- list_elem_of_In in He.
    apply (elem_module_flows _ _ _ _ _ Hi) in He as [h He]. exists e. split; [|by split; [eapply find_flow_in|]].
    rewrite (ok_hash _ _ (fi_entry _ _ _ Hi _ _ _ He)). apply elem_of_seq.
    destruct (in_bucket_range _ _ _ _ _ _ Hi He). lia.
  - pose proof (foldl_older_spec (module_flows mi fd)) as Ho.
    destruct (foldl older None (module_flows mi fd)) as [e|].
    + destruct Ho as [He _]. apply (elem_module_flows _ _ _ _ _ Hi) in He as [h He].
      pose proof (find_flow_in _ _ _ _ _ _ Hi He) as Hf. destruct (find_flow_some _ _ _ _ Hf) as [Hb _].
      split; [by eapply inv_delete|]. split; [|by rewrite pool_delete].
      intros mi' k. rewrite (find_delete _ _ _ _ _ _ _ _ _ Hi Hf) by done.
      destruct (same_flow mi (flowId e) mi' k) eqn:E.
      * apply same_flow_true in E as [-> E]. rewrite bool_decide_true by done.
        rewrite <- (find_flow_ext _ _ _ _ E), Hf. simpl. by rewrite Nat.eqb_refl.
      * case_bool_decide as Hm; [|done]. subst. destruct (find_flow mi k fd) as [x|] eqn:Ex'; [|done]. simpl.
        destruct (flowCell e =? flowCell x)%nat eqn:Ec; [|done]. exfalso. apply Nat.eqb_eq in Ec.
        destruct (find_flow_some _ _ _ _ Ex') as [Hx Hk]. assert (x = e) as ->; [|].
        { eapply cell_inj; [done|exact Hx|exact He|done]. }
        unfold same_flow in E. rewrite bool_decide_true, key_match_sym, Hk in E by done. done.
    + subst. split; [done|]. split; [|done]. intros. case_bool_decide; [|done]. by destruct (find_flow mi' k fd).
Qed.

(** ** Recording a decision is a point update *)

(** What a cached flow says: its devices and whether the stack gets a copy. *)
Definition route (e : mcastFlowEntry) : egress * bool :=
  (egressDevInfo (multicastFwdInfo e), copy2cpu (multicastFwdInfo e)).
Definition cached : nat -> flowKey -> flowDb -> option (egress * bool) := seen route.

Lemma cached_alter_same n N mi k f fd mi' k' :
  flow_inv n N fd -> keeps_entry f -> (forall e, route (f e) = route e) ->
  cached mi' k' (alter_flow mi k f fd) = cached mi' k' fd.
Proof.
  intros Hi Hk Hr. unfold cached, seen. rewrite (find_alter_flow _ _ _ _ _ _ _ _ Hi (ke_id _ Hk)).
  destruct (same_flow mi k mi' k') eqn:E; [|done]. apply same_flow_true in E as [-> E].
  rewrite <- (find_flow_ext _ _ _ _ E). destruct (find_flow mi k fd); simpl; [|done]. by rewrite Hr.
Qed.

Lemma cached_search n N mi k now fd mi' k' : flow_inv n N fd ->
  cached mi' k' (snd (rtk_igmp_searchMcastFlowEntry mi k now fd)) = cached mi' k' fd.
Proof.
  intros Hi. unfold rtk_igmp_searchMcastFlowEntry. case_match; [|done]. simpl.
  by eapply cached_alter_same; [|apply keeps_set_refresh|].
Qed.

Lemma append_spec n N db mo k cb fd : flow_inv n N fd ->
  let fd' := snd (rtk_igmp_flowCbAppendOtherBrToCb db mo k cb fd) in
  flow_inv n N fd' /\ forall mi' k', cached mi' k' fd' = cached mi' k' fd.
Proof.
  unfold rtk_igmp_flowCbAppendOtherBrToCb. generalize (seq 0 (length (modules db))) as is_. intros is_.
  revert cb fd. induction is_ as [|i is_ IH]; intros cb fd Hi; simpl; [done|].
  destruct (other_module db mo i); [|by apply IH].
  pose proof (inv_search n N i k (rtk_igmp_sysUpSeconds db) fd Hi) as Hs.
  pose proof (fun mi' k' => cached_search n N i k (rtk_igmp_sysUpSeconds db) fd mi' k' Hi) as Hc.
  destruct (rtk_igmp_searchMcastFlowEntry _ _ _ _) as [[e|] fd1]; simpl in *.
  - destruct (IH (append_ports (egressDevInfo (multicastFwdInfo e)) cb) fd1 Hs) as [H1 H2].
    split; [done|]. intros mi' k'. by rewrite H2.
  - destruct (IH cb fd1 Hs) as [H1 H2]. split; [done|]. intros mi' k'. by rewrite H2.
Qed.

Lemma announce_spec n N db mi k b fd : flow_inv n N fd ->
  flow_inv n N (announce db mi k b fd) /\ forall mi' k', cached mi' k' (announce db mi k b fd) = cached mi' k' fd.
Proof.
  intros Hi. unfold announce. destruct (find_flow mi k fd) as [e|]; [|done].
  destruct (append_spec n N db (Some mi) k (set_cb_copy2cpu b (flow_cb e)) fd Hi) as [H1 H2].
  destruct (rtk_igmp_flowCbAppendOtherBrToCb _ _ _ _ _) as [cb fd1]. simpl in *. split.
  - apply inv_alter_flow; [by apply inv_call_hw|apply keeps_hwCbAcc].
  - intros mi' k'. rewrite (cached_alter_same n N); [apply H2|by apply inv_call_hw|apply keeps_hwCbAcc|done].
Qed.

(** The announcement at the end of a record. *)
Definition finish_record (db : igmp) (mi : nat) (d : multicastDataInfo) (b : bool) (fd : flowDb) : flowDb :=
  if SKIP_LEARNING d then fd else if flowSetCbEvt then announce db mi (key_of_data d) b fd else fd.

Lemma finish_spec n N db mi d b fd : flow_inv n N fd ->
  flow_inv n N (finish_record db mi d b fd) /\
  forall mi' k', cached mi' k' (finish_record db mi d b fd) = cached mi' k' fd.
Proof.
  intros Hi. unfold finish_record. destruct (SKIP_LEARNING d); [done|]. destruct flowSetCbEvt; [|done].
  by apply announce_spec.
Qed.

Definition recordable (d : multicastDataInfo) : bool := recordable_key (key_of_data d).

(** A flow that is cached: its entry takes the new decision, or goes when there is
    no port left. *)
Lemma record_found n N db mi d p f fd e :
  flow_inv n N fd -> egressDevInfo f = mk_egress p -> ports_ok p -> recordable d = true ->
  find_flow mi (key_of_data d) fd = Some e ->
  let out := rtk_igmp_recordMcastFlow db mi d f fd in
  fst out = SUCCESS /\ flow_inv n N (snd out) /\
  forall mi' k', cached mi' k' (snd out) =
    if same_flow mi (key_of_data d) mi' k'
    then (if decide (p = []) then None else Some (mk_egress p, copy2cpu f)) else cached mi' k' fd.
Proof.
  intros Hi Ef Hp Hr He. unfold rtk_igmp_recordMcastFlow.
  unfold recordable, recordable_key in Hr. simpl in Hr. apply negb_true_iff in Hr. rewrite Hr.
  set (k := key_of_data d) in *. set (now := rtk_igmp_sysUpSeconds db).
  unfold rtk_igmp_searchMcastFlowEntry. rewrite He. cbv zeta.
  assert (flow_inv n N (alter_flow mi k (set_refresh now) fd)) as Hi1 by by apply inv_alter_flow, keeps_set_refresh.
  assert (find_flow mi k (alter_flow mi k (set_refresh now) fd) = Some (set_refresh now e)) as He1.
  { rewrite (find_alter_flow _ _ _ _ _ _ _ _ Hi) by done. by rewrite same_flow_refl, He. }
  assert (forall mi' k', cached mi' k' (alter_flow mi k (set_refresh now) fd) = cached mi' k' fd) as Hc1.
  { intros. by eapply cached_alter_same; [|apply keeps_set_refresh|]. }
  set (fd1 := alter_flow mi k (set_refresh now) fd) in *. clearbody fd1.
  rewrite Ef, nonvalid_mk. destruct (decide (p = [])) as [Hn|Hn].
  - rewrite bool_decide_true by done. simpl. split; [done|]. split.
    + destruct (find_flow_some _ _ _ _ He1) as [Hb Hk]. eapply inv_delete; [done| |done].
      change (flowId (set_refresh now e)) with (flowId e) in *. by rewrite <- (flow_hash_match _ _ Hk).
    + intros mi' k'. unfold cached, seen at 1. rewrite (find_delete _ _ _ _ _ _ _ _ _ Hi1 He1) by done.
      destruct (same_flow mi k mi' k'); [done|]. apply Hc1.
  - rewrite bool_decide_false by done.
    set (fd2 := alter_flow mi k _ fd1).
    assert (flow_inv n N fd2) as Hi2 by by apply inv_alter_flow, keeps_count.
    assert (forall mi' k', cached mi' k' fd2 = cached mi' k' fd) as Hc2.
    { intros. rewrite <- Hc1. by eapply cached_alter_same; [|apply keeps_count|]. }
    assert (cached mi k fd2 = Some (route e)) as Hce by by (rewrite Hc2; unfold cached, seen; rewrite He).
    clearbody fd2. simpl (multicastFwdInfo (set_refresh now e)).
    destruct (bool_decide _ && Bool.eqb _ _)%bool eqn:Esame; simpl.
    + split; [done|]. split; [done|]. intros mi' k'. rewrite Hc2.
      destruct (same_flow mi k mi' k') eqn:E; [|done]. apply same_flow_true in E as [-> E].
      rewrite <- Hc2. unfold cached, seen in *. rewrite <- (find_flow_ext _ _ _ _ E), Hce. unfold route.
      apply andb_true_iff in Esame as [E1%bool_decide_eq_true E2%Bool.eqb_prop]. by rewrite E1, E2.
    + assert (keeps_entry (set_fwd f)) as Hkf.
      { apply keeps_set_fwd; [rewrite Ef; by exists p|by rewrite Ef, ports_of_mk]. }
      destruct (finish_spec n N db mi d (copy2cpu f) (alter_flow mi k (set_fwd f) fd2)) as [H1 H2];
        [by apply inv_alter_flow|].
      split; [done|]. split; [exact H1|]. intros mi' k'. fold (finish_record db mi d (copy2cpu f)).
      etransitivity; [apply H2|]. unfold cached, seen. rewrite (find_alter_flow _ _ _ _ _ _ _ _ Hi2) by done.
      destruct (same_flow mi k mi' k'); [|apply Hc2]. unfold cached, seen in Hce.
      destruct (find_flow mi k fd2); [|done]. simpl. unfold route. simpl. by rewrite Ef.
Qed.

Lemma recordable_stored k : recordable_key (stored_key k) = recordable_key k.
Proof. by destruct k as [[] ? ? ? ? ? ? ?]. Qed.

(** Linking a new flow into a free cell. *)
Lemma link_new n N mi k f now c q p fd :
  flow_inv n N fd -> (mi < n)%nat -> find_flow mi k fd = None ->
  rtk_igmp_mcastFlowEntryPool fd = c :: q -> egressDevInfo f = mk_egress p -> ports_ok p -> p <> [] ->
  recordable_key k = true ->
  let fd' := rtk_igmp_linkMcastFlowEntry mi (McastFlowEntry c (stored_key k) f now 1 0) (set_flowPool q fd) in
  flow_inv n N fd' /\
  forall mi' k', cached mi' k' fd' =
    if same_flow mi k mi' k' then Some (mk_egress p, copy2cpu f) else cached mi' k' fd.
Proof.
  intros Hi Hm Hf Hc Ef Hp Hn Hrec. set (e := McastFlowEntry c (stored_key k) f now 1 0).
  assert (key_match k (stored_key k) = true) as Hk by (apply key_match_true; by rewrite stored_key_idem).
  assert (flow_inv n N (rtk_igmp_linkMcastFlowEntry mi e (set_flowPool q fd))) as Hi'.
  { eapply inv_link; [done..| | |done].
    - split; [done|apply stored_key_idem|unfold e; simpl; by rewrite recordable_stored| |]; simpl; rewrite Ef; [by exists p|by rewrite ports_of_mk].
    - simpl. by rewrite <- (find_flow_ext _ _ _ _ Hk). }
  split; [done|]. intros mi' k'. unfold cached, seen.
  assert (find_flow mi' k' (rtk_igmp_linkMcastFlowEntry mi e (set_flowPool q fd)) =
          find_flow mi' k' (rtk_igmp_linkMcastFlowEntry mi e fd)) as ->.
  { unfold rtk_igmp_linkMcastFlowEntry. by destruct groupAddCbEvt. }
  rewrite (find_link _ _ _ _ _ _ _ Hi Hm). simpl. unfold same_flow.
  rewrite <- (key_match_trans _ _ _ Hk). destruct (_ && _); [|done]. simpl. unfold route. simpl. by rewrite Ef.
Qed.

Lemma record_new n N db mi d p f fd :
  flow_inv n N fd -> (mi < n)%nat -> egressDevInfo f = mk_egress p -> ports_ok p -> p <> [] ->
  recordable d = true -> find_flow mi (key_of_data d) fd = None ->
  rtk_igmp_mcastFlowEntryPool fd <> [] \/ module_flows mi fd <> [] ->
  let out := rtk_igmp_recordMcastFlow db mi d f fd in
  let before := match rtk_igmp_mcastFlowEntryPool fd with
                | [] => rtk_igmp_doMcastFlowRecycle mi (rtk_igmp_sysUpSeconds db) fd | _ => fd end in
  fst out = SUCCESS /\ flow_inv n N (snd out) /\
  forall mi' k', cached mi' k' (snd out) =
    if same_flow mi (key_of_data d) mi' k' then Some (mk_egress p, copy2cpu f) else cached mi' k' before.
Proof.
  intros Hi Hm Ef Hp Hn Hr Hf Hroom. pose proof Hr as Hr'. unfold rtk_igmp_recordMcastFlow.
  unfold recordable, recordable_key in Hr. simpl in Hr. apply negb_true_iff in Hr. rewrite Hr.
  unfold rtk_igmp_searchMcastFlowEntry. rewrite Hf. cbv zeta.
  rewrite Ef, nonvalid_mk, bool_decide_false by done.
  set (now := rtk_igmp_sysUpSeconds db). set (k := key_of_data d) in *.
  assert (exists c q fd1, allocate_flow mi now fd = (Some c, set_flowPool q fd1) /\ flow_inv n N fd1 /\
    rtk_igmp_mcastFlowEntryPool fd1 = c :: q /\ find_flow mi k fd1 = None /\
    fd1 = match rtk_igmp_mcastFlowEntryPool fd with [] => rtk_igmp_doMcastFlowRecycle mi now fd | _ => fd end)
    as (c & q & fd1 & Ea & Hi1 & Hq & Hf1 & E1).
  { unfold allocate_flow, rtk_igmp_allocateMcastFlowEntry. destruct (rtk_igmp_mcastFlowEntryPool fd) as [|c q] eqn:Ep.
    - destruct Hroom as [?|Hroom]; [done|]. destruct (recycle_spec n N mi now fd Hi) as (H1 & H2 & H3).
      specialize (H3 Hroom). destruct (rtk_igmp_mcastFlowEntryPool (rtk_igmp_doMcastFlowRecycle mi now fd)) as [|c q] eqn:Eq; [done|].
      exists c, q, (rtk_igmp_doMcastFlowRecycle mi now fd). split_and!; try done.
      rewrite H2, bool_decide_true, Hf by done. done.
    - exists c, q, fd. done. }
  rewrite Ea. rewrite <- E1.
  destruct (link_new n N mi k f now c q p fd1 Hi1 Hm Hf1 Hq Ef Hp Hn Hr') as [H1 H2].
  destruct (finish_spec n N db mi d (copy2cpu f) _ H1) as [H3 H4].
  split; [done|]. split; [exact H3|]. intros mi' k'. etransitivity; [apply H4|apply H2].
Qed.

(** Whatever happens, the table stays well-formed, and either nothing is recorded or
    the map is updated at the key, after flows were evicted if there was no room. *)
Lemma record_cases n N db mi d p f fd :
  flow_inv n N fd -> (mi < n)%nat -> egressDevInfo f = mk_egress p -> ports_ok p ->
  let x := snd (rtk_igmp_recordMcastFlow db mi d f fd) in
  flow_inv n N x /\
  (x = fd \/
   exists y, (y = fd \/ y = rtk_igmp_doMcastFlowRecycle mi (rtk_igmp_sysUpSeconds db) fd) /\
     forall mi' k', cached mi' k' x =
       if same_flow mi (key_of_data d) mi' k'
       then (if decide (p = []) then None else Some (mk_egress p, copy2cpu f)) else cached mi' k' y).
Proof.
  intros Hi Hm Ef Hp. destruct (recordable d) eqn:Hr.
  - destruct (find_flow mi (key_of_data d) fd) as [e|] eqn:Ee.
    { destruct (record_found n N db mi d p f fd e Hi Ef Hp Hr Ee) as (_ & H1 & H2). split; [done|]. right. eauto. }
    destruct (decide (p = [])) as [->|Hn].
    { assert (snd (rtk_igmp_recordMcastFlow db mi d f fd) = fd) as ->; [|by auto].
      unfold rtk_igmp_recordMcastFlow, rtk_igmp_searchMcastFlowEntry. rewrite Ee, Ef, nonvalid_mk.
      unfold recordable, recordable_key in Hr. simpl in Hr. apply negb_true_iff in Hr. by rewrite Hr. }
    destruct (decide (rtk_igmp_mcastFlowEntryPool fd <> [] \/ module_flows mi fd <> [])) as [Hroom|Hroom].
    { destruct (record_new n N db mi d p f fd Hi Hm Ef Hp Hn Hr Ee Hroom) as (_ & H1 & H2). split; [done|].
      right. eexists. split; [|exact H2]. destruct (rtk_igmp_mcastFlowEntryPool fd); auto. }
    assert (snd (rtk_igmp_recordMcastFlow db mi d f fd) = fd) as ->; [|by auto].
    unfold rtk_igmp_recordMcastFlow, rtk_igmp_searchMcastFlowEntry, allocate_flow, rtk_igmp_allocateMcastFlowEntry.
    rewrite Ee, Ef, nonvalid_mk, bool_decide_false by done.
    unfold recordable, recordable_key in Hr. simpl in Hr. apply negb_true_iff in Hr. rewrite Hr.
    destruct (rtk_igmp_mcastFlowEntryPool fd) as [|c q] eqn:Ep; [|exfalso; apply Hroom; by left].
    destruct (module_flows mi fd) as [|e l] eqn:El; [|exfalso; apply Hroom; by right].
    assert (rtk_igmp_doMcastFlowRecycle mi (rtk_igmp_sysUpSeconds db) fd = fd) as ->
      by (unfold rtk_igmp_doMcastFlowRecycle; by rewrite El). by rewrite Ep.
  - assert (snd (rtk_igmp_recordMcastFlow db mi d f fd) = fd) as ->; [|by auto].
    unfold rtk_igmp_recordMcastFlow. unfold recordable, recordable_key in Hr. simpl in Hr.
    apply negb_false_iff in Hr. by rewrite Hr.
Qed.

(** ** Invalidation and sweeps *)

Definition zero_group (ga : addr) : bool :=
  (word0 ga =? 0) && (word1 ga =? 0) && (word2 ga =? 0) && (word3 ga =? 0).
(** The flows an invalidation names. *)
Definition names_flow (v : ip_version) (ga : addr) (k : flowKey) : bool :=
  bool_decide (fk_ipVersion k = v) && (zero_group ga || addr_match v ga (fk_groupAddr k)).

Lemma sweep_spec n N mi visit p q now fd :
  (forall e fd, visit e fd = sweep_flow p q mi now e fd) -> flow_inv n N fd ->
  flow_inv n N (walk_flows visit mi fd) /\
  forall mi' k, find_flow mi' k (walk_flows visit mi fd) =
    if bool_decide (mi' = mi) then find_flow mi' k fd ≫= swept p q now (stored_key k) else find_flow mi' k fd.
Proof.
  intros Hv Hi. assert (visits id n N mi visit (swept p q now)) as Hvis.
  { intros x e. rewrite Hv. apply visits_sweep. }
  destruct (walk_flows_spec id n N mi _ _ fd Hvis Hi) as [H1 H2]. split; [done|].
  intros mi' k. specialize (H2 mi' k). by rewrite !seen_id in H2.
Qed.

Lemma invalidate_spec n N mi v ga fd : flow_inv n N fd ->
  let fd' := rtk_igmp_invalidateMCastGroupFlow mi v ga fd in
  flow_inv n N fd' /\
  forall mi' k, find_flow mi' k fd' =
    if bool_decide (mi' = mi) && names_flow v ga k then None else find_flow mi' k fd.
Proof.
  intros Hi. unfold rtk_igmp_invalidateMCastGroupFlow, names_flow. fold (zero_group ga).
  assert (forall mi' k e, find_flow mi' k fd = Some e -> fk_ipVersion (flowId e) = fk_ipVersion k /\
    forall w, w = fk_ipVersion k -> addr_match w ga (fk_groupAddr (flowId e)) = addr_match w ga (fk_groupAddr k)) as Hkey.
  { intros mi' k e He. rewrite (find_flow_key _ _ _ _ _ _ Hi He). split; [done|]. intros w ->.
    rewrite !addr_match_stored. simpl. by destruct (fk_ipVersion k). }
  destruct (zero_group ga); cbv zeta.
  - destruct (sweep_spec n N mi (delete_if (fun e => bool_decide (fk_ipVersion (flowId e) = v)) mi)
      (fun e => bool_decide (fk_ipVersion (flowId e) = v)) no_mark 0 fd (fun _ _ => eq_refl) Hi) as [H1 H2].
    split; [done|]. intros mi' k. rewrite H2, orb_true_l, andb_true_r. case_bool_decide; [|done]. simpl.
    destruct (find_flow mi' k fd) as [e|] eqn:Ee; [|by case_match]. simpl. unfold swept.
    by rewrite (proj1 (Hkey _ _ _ Ee)).
  - destruct (walk_bucket_spec id n N mi _ _ (hash v ga) fd (visits_delete_if n N mi
      (fun e => bool_decide (fk_ipVersion (flowId e) = v) && addr_match v ga (fk_groupAddr (flowId e)))) Hi) as [H1 H2].
    split; [done|]. intros mi' k. specialize (H2 mi' k). rewrite !seen_id in H2. rewrite H2, orb_false_l. clear H2.
    destruct (bool_decide (mi' = mi) && (bool_decide (fk_ipVersion k = v) && addr_match v ga (fk_groupAddr k)))%bool eqn:En.
    + apply andb_true_iff in En as [Em [Ev Ea]%andb_true_iff]. apply bool_decide_eq_true in Em, Ev. subst.
      rewrite bool_decide_true by (split; [done|]; unfold flow_hash; symmetry; by apply addr_match_hash).
      unfold after. destruct (find_flow mi k fd) as [e|] eqn:Ee; [|done]. simpl. unfold swept.
      destruct (Hkey _ _ _ Ee) as [E1 E2]. by rewrite E1, E2, bool_decide_true, Ea.
    + destruct (decide (mi' = mi /\ flow_hash k = hash v ga)) as [Hd|Hd];
        [rewrite bool_decide_true by done|by rewrite bool_decide_false by done].
      destruct Hd as [-> _]. rewrite bool_decide_true in En by done. simpl in En.
      unfold after. destruct (find_flow mi k fd) as [e|] eqn:Ee; [|done]. simpl. unfold swept, no_mark.
      destruct (Hkey _ _ _ Ee) as [E1 E2]. rewrite E1. destruct (decide (fk_ipVersion k = v)) as [<-|Hne].
      * rewrite E2 by done. by rewrite En.
      * by rewrite bool_decide_false.
Qed.
End Ops.
