(* ===== verification/IgmpForward.v ===== *)
(** * IgmpForward: where a multicast packet goes

    The forwarding decision of the snooper for a data packet: the user's table of
    groups for the protocol stack, the flow cache, the ports on which snooping is
    switched off, the wireless trap, the flood of unknown groups with its rate
    limit, and the clients of the group with their include and exclude lists.  The
    decision is recorded in the flow cache of IgmpFlow, and the cache is brought up
    to date when the membership database changes.

    The kernel's bridge port lists, the answer of the router API
    ([rt_igmp_userGroup_check], [rt_igmp_multicastFlow_check]) and the clock tick
    are parameters, fields of [SnooperEnv]. *)
From S2P Require Import Prelude IgmpTable IgmpReport IgmpTimer IgmpFlow.

(** ** Devices *)

(** The per-version part of [rtk_igmp_DevConfdb_t] ([igmp] or [igmp6]). *)
Record snoopConf := SnoopConf {
  snoopingDisable : bool;
  forwardDisable : bool;
  careSource : bool;
  verDrp_v1 : bool;
  verDrp_v2 : bool;
  verDrp_v3 : bool;
  verIgr_v1 : bool;
  verIgr_v2 : bool;
  verIgr_v3 : bool;
  reportDrop : bool;
  ratelimit : rateLimit;
  ratelimit_unkMc : rateLimit;
  aging : devConf
}.

(** [rtk_igmp_multicastDeviceInfo_t] *)
Record deviceInfo := DeviceInfo {
  ifindex : Z;
  domainWlan : bool;
  bind2BrModuleIdx : Z;
  confIgmp : snoopConf;
  confIgmp6 : snoopConf
}.

Definition snoop_conf (v : ip_version) (d : deviceInfo) : snoopConf :=
  match v with IP_VERSION4 => confIgmp d | IP_VERSION6 => confIgmp6 d end.
Definition set_ratelimit_unkMc (r : rateLimit) (c : snoopConf) : snoopConf :=
  SnoopConf (snoopingDisable c) (forwardDisable c) (careSource c) (verDrp_v1 c) (verDrp_v2 c) (verDrp_v3 c)
    (verIgr_v1 c) (verIgr_v2 c) (verIgr_v3 c) (reportDrop c) (ratelimit c) r (aging c).
Definition set_ratelimit (r : rateLimit) (c : snoopConf) : snoopConf :=
  SnoopConf (snoopingDisable c) (forwardDisable c) (careSource c) (verDrp_v1 c) (verDrp_v2 c) (verDrp_v3 c)
    (verIgr_v1 c) (verIgr_v2 c) (verIgr_v3 c) (reportDrop c) r (ratelimit_unkMc c) (aging c).
Definition alter_conf (v : ip_version) (f : snoopConf -> snoopConf) (d : deviceInfo) : deviceInfo :=
  match v with
  | IP_VERSION4 => DeviceInfo (ifindex d) (domainWlan d) (bind2BrModuleIdx d) (f (confIgmp d)) (confIgmp6 d)
  | IP_VERSION6 => DeviceInfo (ifindex d) (domainWlan d) (bind2BrModuleIdx d) (confIgmp d) (f (confIgmp6 d))
  end.

(** A slot of a device array is [None] while its [dev] is NULL. *)
Definition dev_slots := list (option deviceInfo).
Definition slot_is (i : Z) (o : option deviceInfo) : bool :=
  match o with Some d => ifindex d =? i | None => false end.

(** One bridge: [brDevInfo] and the ports of its [net_bridge] ([None] when the
    private data pointer is NULL). *)
Record bridge := Bridge {
  brIfindex : Z;
  combineId : Z;
  port_list : option (list Z)
}.

(** The state the decision reads and writes. *)
Record snooper := Snooper {
  db : igmp;
  fd : flowDb;
  rtk_igmp_lanDevInfo : dev_slots;
  rtk_igmp_wanDevInfo : dev_slots
}.
Definition set_db (x : igmp) (st : snooper) : snooper :=
  Snooper x (fd st) (rtk_igmp_lanDevInfo st) (rtk_igmp_wanDevInfo st).
Definition set_fd (x : flowDb) (st : snooper) : snooper :=
  Snooper (db st) x (rtk_igmp_lanDevInfo st) (rtk_igmp_wanDevInfo st).
Definition set_devs (l w : dev_slots) (st : snooper) : snooper := Snooper (db st) (fd st) l w.

(** What the decision takes from outside: the bridges, [igmpSysdb], the answers of
    the router API, the tick, the length of a rate-limit cycle, and the period of the
    timer ([gloConf]). *)
Class SnooperEnv := {
  bridges : list bridge;
  unknownFlood : bool;
  trapWlanToPS : bool;
  rt_igmp_userGroup_check : ip_version -> addr -> bool;
  rt_igmp_multicastFlow_check : flowCbEvt -> bool;
  jiffies : Z;
  cycle_duration : Z;
  igmp_sys_timer_sec : Z
}.

Definition _rtk_igmp_devIfidx_to_devInfo (i : Z) (st : snooper) : option deviceInfo :=
  match List.find (slot_is i) (rtk_igmp_lanDevInfo st) with
  | Some o => o
  | None => match List.find (slot_is i) (rtk_igmp_wanDevInfo st) with Some o => o | None => None end
  end.

(** The device record written through the pointer the lookup gave. *)
Definition alter_dev (i : Z) (f : deviceInfo -> deviceInfo) (st : snooper) : snooper :=
  match List.find (slot_is i) (rtk_igmp_lanDevInfo st) with
  | Some _ => set_devs (update_first (slot_is i) (fmap f) (rtk_igmp_lanDevInfo st)) (rtk_igmp_wanDevInfo st) st
  | None => set_devs (rtk_igmp_lanDevInfo st) (update_first (slot_is i) (fmap f) (rtk_igmp_wanDevInfo st)) st
  end.

Section Forward.
Context {cfg : IgmpConfig} {fcfg : FlowConfig} {policy : AdmissionPolicy} {env : SnooperEnv}.

Definition bridge_of (mi : nat) : bridge := nth mi bridges (Bridge 0 0 None).
(** The ports of a module's bridge. *)
Definition ports_on (mi : nat) : list Z := default [] (port_list (bridge_of mi)).

(** The LAN device with the wireless flag, in a 16-bit variable. *)
Definition _rtk_igmp_getWlanDevIfidx (st : snooper) : option Z :=
  match List.find (fun o => match o with Some d => domainWlan d | None => false end) (rtk_igmp_lanDevInfo st) with
  | Some (Some d) => Some (u16 (ifindex d))
  | _ => None
  end.

Definition dev_rate_limits (isIpv6 : bool) (o : option deviceInfo) : bool :=
  match o with
  | Some d => nonzero (rate (ratelimit_unkMc (if isIpv6 then confIgmp6 d else confIgmp d)))
  | None => false
  end.
Definition rtk_igmp_anyDevRateLimitUMC (isIpv6 : bool) (st : snooper) : bool :=
  unknownFlood || existsb (dev_rate_limits isIpv6) (rtk_igmp_lanDevInfo st) ||
  existsb (dev_rate_limits isIpv6) (rtk_igmp_wanDevInfo st).

(** The rate limit of unknown multicast on one device. *)
Definition check_rate_limit_umc (i : Z) (v : ip_version) (di : deviceInfo) (st : snooper) : bool * snooper :=
  let '(ok, r) := limit_step cycle_duration jiffies (ratelimit_unkMc (snoop_conf v di)) in
  (ok, alter_dev i (alter_conf v (set_ratelimit_unkMc r)) st).

(** ** The pieces of the decision *)

Definition add_egress (i : Z) (f : fwdInfo) : fwdInfo := snd (_rtk_igmp_setEgressDevToFwdInfo i f).

(** A port on which snooping is off and forwarding is not. *)
Definition floods_always (v : ip_version) (st : snooper) (i : Z) : bool :=
  match _rtk_igmp_devIfidx_to_devInfo i st with
  | Some di => snoopingDisable (snoop_conf v di) && negb (forwardDisable (snoop_conf v di))
  | None => false
  end.
Definition flood_disabled (v : ip_version) (st : snooper) (ports : list Z) (f : fwdInfo) : fwdInfo :=
  foldl (fun f i => if floods_always v st i then add_egress i f else f) f ports.

(** The wireless trap. *)
Definition trap_wlan (d : multicastDataInfo) (st : snooper) (f : fwdInfo) : fwdInfo :=
  if trapWlanToPS && rt_igmp_userGroup_check (d_ipVersion d) (stored_addr (d_ipVersion d) (d_groupAddr d))
  then match _rtk_igmp_getWlanDevIfidx st with
       | Some i => add_egress i f
       | None => f
       end
  else f.

Definition set_skip (d : multicastDataInfo) : multicastDataInfo :=
  MulticastDataInfo (d_ipVersion d) (sourceIp d) (d_groupAddr d) (d_sport d) (d_dport d) (vlanTagif d)
    (d_vlanId d) (svlanTagif d) (d_svlanId d) (d_l4proto d) true (DUMMY_PKT d).

(** The flood of an unknown group over the ports of the bridge; [false] when a rate
    limit drops the packet. *)
Fixpoint flood_unknown (ports : list Z) (d : multicastDataInfo) (f : fwdInfo) (st : snooper)
    : bool * multicastDataInfo * fwdInfo * snooper :=
  match ports with
  | [] => (true, d, f, st)
  | i :: ports =>
      match _rtk_igmp_devIfidx_to_devInfo i st with
      | None => flood_unknown ports d f st
      | Some di =>
          let cf := snoop_conf (d_ipVersion d) di in
          if forwardDisable cf then flood_unknown ports d f st
          else if nonzero (rate (ratelimit_unkMc cf)) then
            let d := if rtk_igmp_anyDevRateLimitUMC false st || rtk_igmp_anyDevRateLimitUMC true st
                     then set_skip d else d in
            let '(ok, st) := check_rate_limit_umc i (d_ipVersion d) di st in
            if ok then flood_unknown ports d (add_egress i f) st else (false, d, f, st)
          else flood_unknown ports d (add_egress i f) st
      end
  end.

(** Does the client want this source: by its filter mode when the device cares for
    sources, else whenever it listens at all. *)
Definition client_wants (cares : bool) (now : Z) (v : ip_version) (src : addr) (c : clientEntry) : bool :=
  if cares then
    if groupFilterTimer c <=? now
    then match rtk_igmp_searchSourceEntry v src c with Some s => now <? portTimer s | None => false end
    else match rtk_igmp_searchSourceEntry v src c with Some s => now <? portTimer s | None => true end
  else
    if groupFilterTimer c <=? now
    then existsb (fun s => now <? portTimer s) (sourceList c)
    else true.

(** A client whose device is known, forwards and snoops, and that wants the source. *)
Definition client_served (d : multicastDataInfo) (st : snooper) (g : groupEntry) (c : clientEntry) : bool :=
  match _rtk_igmp_devIfidx_to_devInfo (inIfidx c) st with
  | None => false
  | Some di =>
      let cf := snoop_conf (d_ipVersion d) di in
      negb (forwardDisable cf) && negb (snoopingDisable cf) &&
      client_wants (careSource cf) (rtk_igmp_sysUpSeconds (db st)) (groupIpVersion g) (sourceIp d) c
  end.
Definition serve_clients (d : multicastDataInfo) (st : snooper) (g : groupEntry) (f : fwdInfo) : fwdInfo :=
  foldl (fun f c => if client_served d st g c then add_egress (inIfidx c) f else f) f (clientList g).

(** ** The decision *)

Definition set_unknown (f : fwdInfo) : fwdInfo :=
  FwdInfo (egressDevInfo f) (cpuFlag f) (dropPkt f) true (reservedMCast f) (copy2cpu f) (hwCbAcc f).
Definition set_reserved (f : fwdInfo) : fwdInfo :=
  FwdInfo (egressDevInfo f) true (dropPkt f) (unknownMCast f) true (copy2cpu f) (hwCbAcc f).
Definition set_drop (f : fwdInfo) : fwdInfo :=
  FwdInfo (egressDevInfo f) (cpuFlag f) true (unknownMCast f) (reservedMCast f) (copy2cpu f) (hwCbAcc f).

(** Result of a decision: the return value, the data record (its [privateField] is
    written), the forwarding record and the state. *)
Definition outcome : Type := Z * multicastDataInfo * fwdInfo * snooper.

(** After the cache: compute and record. *)
Definition decide_uncached (mi : nat) (d : multicastDataInfo) (c2c : bool) (f : fwdInfo) (st : snooper) : outcome :=
  let v := d_ipVersion d in
  let record d f st :=
    let f := if c2c then set_copy2cpu true f else f in
    (SUCCESS, d, f, set_fd (snd (rtk_igmp_recordMcastFlow (db st) mi d f (fd st))) st) in
  let f := flood_disabled v st (ports_on mi) f in
  let f := trap_wlan d st f in
  match rtk_igmp_searchGroupEntry mi v (d_groupAddr d) (db st) with
  | None =>
      if unknownFlood then
        match flood_unknown (ports_on mi) d f st with
        | (true, d, f, st) => record d (set_unknown f) st
        | (false, d, f, st) => (FAIL, d, set_drop f, st)
        end
      else record d f st
  | Some g => record d (serve_clients d st g f) st
  end.

(** A cache hit: the recorded decision, counted, and announced if it was not. *)
Definition cache_hit (mi : nat) (d : multicastDataInfo) (c2c : bool) (e : mcastFlowEntry) (st : snooper) : outcome :=
  let k := key_of_data d in
  let f := multicastFwdInfo e in
  let f := if c2c then set_copy2cpu true f else f in
  let fd1 := alter_flow mi k (fun e => set_fwdPktCnt (u32 (fwdPktCnt e + 1)) e) (fd st) in
  let fd2 := if DUMMY_PKT d
             then alter_flow mi k (fun e => set_defineFwdPktCnt (u32 (defineFwdPktCnt e + 1)) e) fd1 else fd1 in
  let fd3 := if SKIP_LEARNING d then fd2
             else if flowSetCbEvt && negb (hwCbAcc (multicastFwdInfo e))
             then announce (db st) mi k (copy2cpu f) fd2 else fd2 in
  (SUCCESS, d, f, set_fd fd3 st).

(** The flow cache first, if the caller wants it; flooded flows under a rate limit
    are decided afresh. *)
Definition cache_then_decide (mi : nat) (searchCacheFlowFirst : bool) (d : multicastDataInfo) (c2c : bool)
    (f : fwdInfo) (st : snooper) : outcome :=
  if searchCacheFlowFirst then
    match rtk_igmp_searchMcastFlowEntry mi (key_of_data d) (rtk_igmp_sysUpSeconds (db st)) (fd st) with
    | (Some e, fd') =>
        if unknownFlood && unknownMCast (multicastFwdInfo e) &&
           (rtk_igmp_anyDevRateLimitUMC false st || rtk_igmp_anyDevRateLimitUMC true st)
        then decide_uncached mi d c2c f (set_fd fd' st)
        else cache_hit mi d c2c e (set_fd fd' st)
    | (None, _) => decide_uncached mi d c2c f st
    end
  else decide_uncached mi d c2c f st.

(** A group of the user's table goes to the protocol stack only, or to the stack as
    well. *)
Definition __rtk_igmp_getMulticastDataFwdInfo (mi : nat) (searchCacheFlowFirst : bool) (d : multicastDataInfo)
    (f : fwdInfo) (st : snooper) : outcome :=
  match rtk_igmp_checkGroupToPsTbl (d_ipVersion d) (d_groupAddr d) with
  | Some r =>
      if isCopy2cpu r
      then cache_then_decide mi searchCacheFlowFirst d true (set_copy2cpu true f) st
      else (FAIL, d, set_reserved f, st)
  | None => cache_then_decide mi searchCacheFlowFirst d false f st
  end.

(** ** Combined bridges *)

Definition valid_module (db : igmp) (i : nat) : bool :=
  match modules db !! i with Some m => validBit m | None => false end.

(** The flags of one bridge's decision are taken over, then its devices. *)
Definition merge_flags (t f : fwdInfo) : fwdInfo :=
  FwdInfo (egressDevInfo f) (cpuFlag t || cpuFlag f) (dropPkt f) (unknownMCast t || unknownMCast f)
    (reservedMCast t || reservedMCast f) (copy2cpu t || copy2cpu f) (hwCbAcc f).
Definition merge_ports (t f : fwdInfo) : fwdInfo :=
  foldl (fun f i => add_egress i f) f (ports_of (egressDevInfo t)).

Fixpoint combine_bridges (ms : list nat) (cid : Z) (cacheFirst : bool) (r : Z) (d : multicastDataInfo)
    (f : fwdInfo) (st : snooper) : outcome :=
  match ms with
  | [] => (r, d, f, st)
  | i :: ms =>
      if valid_module (db st) i && (cid =? combineId (bridge_of i)) then
        let '(r, d, t, st) := __rtk_igmp_getMulticastDataFwdInfo i cacheFirst d fwdInfo0 st in
        let f := merge_flags t f in
        if r =? SUCCESS then combine_bridges ms cid cacheFirst r d (merge_ports t f) st
        else (r, d, f, st)
      else combine_bridges ms cid cacheFirst r d f st
  end.

Definition _rtk_igmp_getMulticastDataFwdInfo (mi : nat) (searchCacheFlowFirst : bool) (d : multicastDataInfo)
    (st : snooper) : outcome :=
  let cid := combineId (bridge_of mi) in
  let '(r, d, f, st) :=
    if cid =? 0 then __rtk_igmp_getMulticastDataFwdInfo mi searchCacheFlowFirst d fwdInfo0 st
    else combine_bridges (seq 0 (length (modules (db st)))) cid searchCacheFlowFirst FAIL d fwdInfo0 st in
  let f := if _rtk_igmp_IsflowToDevInfoIsNonValidPort (egressDevInfo f) then set_drop f else f in
  (r, d, f, st).

(** ** Which bridge a device belongs to *)

(** [rtk_igmp_dstNetDevToModuleIdx]: the valid module with this bridge device. *)
Definition module_with (db : igmp) (i : Z) : option nat :=
  List.find (fun m => valid_module db m && (i =? brIfindex (bridge_of m))) (seq 0 (length (modules db))).
Definition rtk_igmp_dstNetDevToModuleIdx (dstIfindex : Z) (st : snooper) : Z :=
  match module_with (db st) dstIfindex with Some m => Z.of_nat m | None => FAIL end.

(** A source device: its index and the bridge it is a port of, if any. *)
Record netDevice := NetDevice { nd_ifindex : Z; nd_bridge : option Z }.

Definition rtk_igmp_srcNetDevToModuleIdx (srcDev : option netDevice) (devInfo : option deviceInfo) (st : snooper) : Z :=
  match srcDev with
  | None => FAIL
  | Some nd =>
      match nd_bridge nd with
      | Some b => rtk_igmp_dstNetDevToModuleIdx b st
      | None => match devInfo with
                | Some di => bind2BrModuleIdx di
                | None => match _rtk_igmp_devIfidx_to_devInfo (nd_ifindex nd) st with
                          | Some di => bind2BrModuleIdx di
                          | None => FAIL
                          end
                end
      end
  end.

(** The entry point of the data path; [None] when the packet belongs to no bridge
    (the forwarding record is left as it was). *)
Definition rtk_igmp_getMulticastDataFwdInfo (srcDev : option netDevice) (dstDev : option Z)
    (searchCacheFlowFirst : bool) (d : multicastDataInfo) (st : snooper) : option outcome :=
  let mi := match dstDev with
            | Some b => rtk_igmp_dstNetDevToModuleIdx b st
            | None => rtk_igmp_srcNetDevToModuleIdx srcDev None st
            end in
  if mi =? FAIL then None
  else Some (_rtk_igmp_getMulticastDataFwdInfo (Z.to_nat mi) searchCacheFlowFirst d st).

(** ** Keeping the cache up to date *)

(** [rtk_igmp_otherModuleHasSameGroup] *)
Definition rtk_igmp_otherModuleHasSameGroup (mi : nat) (v : ip_version) (ga : addr) (db : igmp) : bool :=
  existsb (fun i => negb (i =? mi)%nat && valid_module db i &&
                    bool_decide (is_Some (rtk_igmp_searchGroupEntry i v ga db)))
    (seq 0 (length (modules db))).

(** The data record rebuilt from a flow. *)
Definition data_of_flow (k : flowKey) : multicastDataInfo :=
  MulticastDataInfo (fk_ipVersion k) (serverAddr k) (fk_groupAddr k) (fk_sport k) (fk_dport k)
    (negb (ingressCvlan k =? FAIL)) (if ingressCvlan k =? FAIL then 0 else ingressCvlan k)
    (negb (ingressSvlan k =? FAIL)) (if ingressSvlan k =? FAIL then 0 else ingressSvlan k)
    (fk_l4proto k) false false.

(** One flow decided afresh; the hardware is told when another bridge has the group
    too.  The entry is read again from its cell, which the decision may have freed,
    and even given to another bridge's flow. *)
Definition reflush_flow (mi : nat) (e : mcastFlowEntry) (st : snooper) : snooper :=
  let '(_, _, _, st) := _rtk_igmp_getMulticastDataFwdInfo mi false (data_of_flow (flowId e)) st in
  match in_cell (flowCell e) (fd st) with
  | None => st
  | Some e' =>
      if rtk_igmp_otherModuleHasSameGroup mi (fk_ipVersion (flowId e')) (fk_groupAddr (flowId e')) (db st) &&
         flowUpdateCbEvt && hwCbAcc (multicastFwdInfo e')
      then set_fd (call_hw (FlowUpdateCb (flow_cb e')) (fd st)) st
      else st
  end.

(** [groupAddr == NULL] is [None]; the address is compared with [memcmp]. *)
Definition flow_of_group (ga : option addr) (e : mcastFlowEntry) : bool :=
  match ga with Some a => bool_decide (a = fk_groupAddr (flowId e)) | None => true end.

Definition reflush_modules (mi : option nat) (db : igmp) : list nat :=
  match mi with
  | Some m => if (m <? length (modules db))%nat then [m] else seq 0 (length (modules db))
  | None => seq 0 (length (modules db))
  end.

Definition reflush_walk (visit : nat -> mcastFlowEntry -> snooper -> snooper) (mi : option nat) (st : snooper)
    : snooper :=
  foldl (fun st m =>
           if valid_module (db st) m
           then foldl (fun st h => foldl (fun st e => visit m e st) st (flow_bucket m h (fd st))) st buckets
           else st)
    st (reflush_modules mi (db st)).

(** [mi] is [None] for [FAIL]: every bridge. *)
Definition rtk_igmp_flow_reflush_update (mi : option nat) (ga : option addr) (st : snooper) : snooper :=
  reflush_walk (fun m e st => if flow_of_group ga e then reflush_flow m e st else st) mi st.

(** The same with the group added to and removed from the hardware, which flushes
    its flows there. *)
Definition flush_hw_group (e : mcastFlowEntry) (st : snooper) : snooper :=
  if groupAddCbEvt && groupDelCbEvt then
    let '(v6, ga) := match in_cell (flowCell e) (fd st) with
                     | Some e' => (is_ipv6 (fk_ipVersion (flowId e')), fk_groupAddr (flowId e'))
                     | None => (cleared_isIPv6, addr0)
                     end in
    set_fd (call_hw (FlowGroupDelCb v6 0 0 ga) (call_hw (FlowGroupAddCb v6 0 0 ga) (fd st))) st
  else st.
Definition rtk_igmp_flow_reflush_update_with_hw (mi : option nat) (ga : option addr) (st : snooper) : snooper :=
  reflush_walk (fun m e st => flush_hw_group e (if flow_of_group ga e then reflush_flow m e st else st)) mi st.

(** ** Aging of the cache *)

(** The flow check of the router API: whether the hardware has let the flow go. *)
Definition _rtk_igmp_flowcheck (cb : flowCbEvt) : bool := rt_igmp_multicastFlow_check cb.

(** Delete what the hardware let go, refresh the rest. *)
Definition check_flow (mi : nat) (now : Z) (e : mcastFlowEntry) (fd : flowDb) : flowDb :=
  if _rtk_igmp_flowcheck (flow_cb e) then rtk_igmp_deleteMcastFlowEntry mi e fd
  else alter_flow mi (flowId e) (set_refresh now) fd.

Definition rtk_igmp_deleteUnknownFloodMacstFlow (mi : nat) (st : snooper) : snooper :=
  set_fd (walk_flows (check_flow mi (rtk_igmp_sysUpSeconds (db st))) mi (fd st)) st.

(** A flow with a device that snoops is kept for the timers of its group. *)
Definition snooped_device (v : ip_version) (st : snooper) (i : Z) : bool :=
  match _rtk_igmp_devIfidx_to_devInfo i st with
  | Some di => negb (snoopingDisable (snoop_conf v di))
  | None => false
  end.
Definition rtk_igmp_agingMcastFlow (mi : nat) (st : snooper) : snooper :=
  let now := rtk_igmp_sysUpSeconds (db st) in
  let visit e fd :=
    if flow_expired now e &&
       negb (existsb (snooped_device (fk_ipVersion (flowId e)) st) (ports_of (egressDevInfo (multicastFwdInfo e))))
    then check_flow mi now e fd else fd in
  set_fd (walk_flows visit mi (fd st)) st.

(** ** Reports with their effect on the cache *)

(** The flow events a handler raised, carried out: each is the last thing the
    handler does to the membership database, so the database they see is the one it
    leaves. *)
Definition apply_event (st : snooper) (e : event) : snooper :=
  match e with
  | InvalidateGroupFlow mi v ga => set_fd (rtk_igmp_invalidateMCastGroupFlow mi v ga (fd st)) st
  | FlowReflush ga => rtk_igmp_flow_reflush_update None (Some ga) st
  | GroupAddCb v6 vl sv ga => set_fd (call_hw (FlowGroupAddCb v6 vl sv ga) (fd st)) st
  | GroupDelCb v6 vl sv ga => set_fd (call_hw (FlowGroupDelCb v6 vl sv ga) (fd st)) st
  end.

Definition clear_events (db : igmp) : igmp :=
  Igmp (rtk_igmp_sysUpSeconds db) (rtk_igmp_startTime db) (modules db) (freeGroups db) (freeClients db)
    (freeSources db) (groupIncIdx db) (hwGroupAddCb db) (hwGroupDelCb db) (counters db) [].

Definition with_flows (m : H nf_ret) (st : snooper) : nf_ret * snooper :=
  let '(r, db') := run m (clear_events (db st)) in
  (r, foldl apply_event (set_db db' st) (events db')).
End Forward.
