(* ===== verification/IgmpForwardSpec.v ===== *)
(** * IgmpForwardSpec: the forwarding decision and the coherence of the cache

    The decision of IgmpForward sends a packet to exactly the interfaces it should:
    [forward_set] says which those are.  The cache answers what the decision
    answered, and the refresh after a membership change brings the flows of the
    group back to the decision on the new database. *)
From S2P Require Import Prelude IgmpTable IgmpReport IgmpInvariant IgmpView IgmpTimer IgmpFlow IgmpFlowSpec IgmpFlowOps IgmpForward.

Section Spec.
Context {cfg : IgmpConfig} {fcfg : FlowConfig} {policy : AdmissionPolicy} {env : SnooperEnv}.

(** ** What the decision should be *)

(** A device of the bridge that may be flooded. *)
Definition forwards (v : ip_version) (st : snooper) (i : Z) : bool :=
  match _rtk_igmp_devIfidx_to_devInfo i st with
  | Some di => negb (forwardDisable (snoop_conf v di))
  | None => false
  end.

Definition wlan_target (d : multicastDataInfo) (st : snooper) : list Z :=
  if trapWlanToPS && rt_igmp_userGroup_check (d_ipVersion d) (stored_addr (d_ipVersion d) (d_groupAddr d))
  then match _rtk_igmp_getWlanDevIfidx st with Some i => [i] | None => [] end
  else [].

(** The interfaces a packet of the stream goes to: the ports without snooping, the
    trapped wireless device, and the interfaces of the clients that want the source,
    or every port of the bridge when the group is unknown and unknown groups are
    flooded. *)
Definition forward_set (mi : nat) (d : multicastDataInfo) (st : snooper) : list Z :=
  List.filter (floods_always (d_ipVersion d) st) (ports_on mi) ++ wlan_target d st ++
  match rtk_igmp_searchGroupEntry mi (d_ipVersion d) (d_groupAddr d) (db st) with
  | Some g => inIfidx <$> List.filter (client_served d st g) (clientList g)
  | None => if unknownFlood then List.filter (forwards (d_ipVersion d) st) (ports_on mi) else []
  end.

(** The array the decision fills. *)
Definition decided (mi : nat) (d : multicastDataInfo) (st : snooper) : list Z :=
  add_ports (forward_set mi d st) [].

(** ** Filling the array *)

Definition with_ports (p : list Z) (f : fwdInfo) : fwdInfo := set_egressDevInfo (mk_egress p) f.

Lemma with_ports0 f : egressDevInfo f = no_egress -> f = with_ports [] f.
Proof. intros E. destruct f. unfold with_ports, set_egressDevInfo. rewrite mk_egress_nil. simpl in *. by subst. Qed.

Lemma add_egress_with i p f : ports_ok p -> add_egress i (with_ports p f) = with_ports (add_port p i) f.
Proof.
  intros [_ Hp]. unfold add_egress, _rtk_igmp_setEgressDevToFwdInfo, add_port. simpl.
  rewrite set_egress_mk by done. case_decide; [done|]. by destruct (length p <? IGMP_MAX_DEV_NUM)%nat.
Qed.

Lemma fold_egress {A} (c : A -> bool) (g : A -> Z) (xs : list A) p f : ports_ok p ->
  foldl (fun f x => if c x then add_egress (g x) f else f) (with_ports p f) xs =
  with_ports (add_ports (g <$> List.filter c xs) p) f.
Proof.
  revert p. induction xs as [|x xs IH]; intros p Hp; simpl; [done|].
  destruct (c x); simpl; [|by apply IH]. rewrite add_egress_with by done. apply IH. by apply add_port_ok.
Qed.

Lemma flood_disabled_with v st ports p f : ports_ok p ->
  flood_disabled v st ports (with_ports p f) =
  with_ports (add_ports (List.filter (floods_always v st) ports) p) f.
Proof.
  intros Hp. unfold flood_disabled. rewrite (fold_egress (floods_always v st) (fun i => i)) by done.
  by rewrite list_fmap_id.
Qed.

Lemma trap_wlan_with d st p f : ports_ok p ->
  trap_wlan d st (with_ports p f) = with_ports (add_ports (wlan_target d st) p) f.
Proof.
  intros Hp. unfold trap_wlan, wlan_target. destruct (_ && _); [|done].
  destruct (_rtk_igmp_getWlanDevIfidx st); [|done]. by apply add_egress_with.
Qed.

Lemma serve_clients_with d st g p f : ports_ok p ->
  serve_clients d st g (with_ports p f) =
  with_ports (add_ports (inIfidx <$> List.filter (client_served d st g) (clientList g)) p) f.
Proof. apply fold_egress. Qed.

(** ** Devices under the rate limiter *)

(** A device with the state of its limiter for unknown multicast left out. *)
Definition dev_static (d : deviceInfo) : deviceInfo :=
  let z := set_ratelimit_unkMc (RateLimit 0 0 0) in
  DeviceInfo (ifindex d) (domainWlan d) (bind2BrModuleIdx d) (z (confIgmp d)) (z (confIgmp6 d)).

Lemma find_slot i f l j : (forall d, ifindex (f d) = ifindex d) ->
  List.find (slot_is j) (update_first (slot_is i) (fmap (M := option) f) l) =
  if i =? j then fmap (M := option) f <$> List.find (slot_is j) l else List.find (slot_is j) l.
Proof.
  intros Hf. destruct (i =? j) eqn:E; bool_to_prop.
  - subst. destruct (List.find (slot_is j) l) as [o|] eqn:Eo.
    + simpl. apply find_update_first; [done|]. apply List.find_some in Eo as [_ Eo].
      destruct o as [d|]; [|done]. simpl in *. by rewrite Hf.
    + by rewrite update_first_none.
  - apply find_update_first_other. intros [d|] Hd; [|done]. simpl in *. bool_to_prop. subst.
    rewrite Hf. split; by apply Z.eqb_neq.
Qed.

Lemma lookup_alter_dev i f st j : (forall d, ifindex (f d) = ifindex d) ->
  _rtk_igmp_devIfidx_to_devInfo j (alter_dev i f st) =
  if i =? j then f <$> _rtk_igmp_devIfidx_to_devInfo j st else _rtk_igmp_devIfidx_to_devInfo j st.
Proof.
  intros Hf. unfold alter_dev, _rtk_igmp_devIfidx_to_devInfo.
  destruct (List.find (slot_is i) (rtk_igmp_lanDevInfo st)) as [o|] eqn:Eo; simpl.
  - rewrite find_slot by done. destruct (i =? j) eqn:E; [|done]. bool_to_prop. subst. rewrite Eo. simpl.
    apply List.find_some in Eo as [_ Eo]. by destruct o.
  - rewrite find_slot by done. destruct (i =? j) eqn:E; [|done]. bool_to_prop. subst. rewrite Eo.
    by destruct (List.find (slot_is j) (rtk_igmp_wanDevInfo st)) as [[]|].
Qed.

(** The same devices but for their limiters. *)
Definition same_devs (st st' : snooper) : Prop :=
  forall i, dev_static <$> _rtk_igmp_devIfidx_to_devInfo i st' = dev_static <$> _rtk_igmp_devIfidx_to_devInfo i st.

Lemma check_umc_same i v di st : same_devs st (snd (check_rate_limit_umc i v di st)).
Proof.
  intros j. unfold check_rate_limit_umc. destruct (limit_step _ _ _) as [ok r]. simpl.
  rewrite lookup_alter_dev by by destruct v. destruct (i =? j); [|done].
  destruct (_rtk_igmp_devIfidx_to_devInfo j st); [|done]. simpl. f_equal. by destruct v.
Qed.

Lemma check_umc_keeps i v di st :
  db (snd (check_rate_limit_umc i v di st)) = db st /\ fd (snd (check_rate_limit_umc i v di st)) = fd st.
Proof.
  unfold check_rate_limit_umc. destruct (limit_step _ _ _). unfold alter_dev. simpl.
  by destruct (List.find _ _).
Qed.

(** A fact about a device that does not seen at the limiter. *)
Lemma same_devs_conf {B} (q : snoopConf -> B) v st st' i :
  (forall r c, q (set_ratelimit_unkMc r c) = q c) -> same_devs st st' ->
  (q ∘ snoop_conf v) <$> _rtk_igmp_devIfidx_to_devInfo i st' = (q ∘ snoop_conf v) <$> _rtk_igmp_devIfidx_to_devInfo i st.
Proof.
  intros Hq Hs. specialize (Hs i).
  assert (forall d, q (snoop_conf v (dev_static d)) = q (snoop_conf v d)) as Hd.
  { intros d. destruct v; [exact (Hq _ (confIgmp d))|exact (Hq _ (confIgmp6 d))]. }
  destruct (_rtk_igmp_devIfidx_to_devInfo i st') as [d'|], (_rtk_igmp_devIfidx_to_devInfo i st) as [d|]; simpl in *; try done.
  assert (dev_static d' = dev_static d) as E by congruence.
  f_equal. unfold compose. by rewrite <- (Hd d'), <- (Hd d), E.
Qed.

Lemma forwards_same v st st' i : same_devs st st' -> forwards v st' i = forwards v st i.
Proof.
  intros Hs. pose proof (same_devs_conf forwardDisable v st st' i (fun _ _ => eq_refl) Hs) as E.
  unfold forwards. destruct (_rtk_igmp_devIfidx_to_devInfo i st'), (_rtk_igmp_devIfidx_to_devInfo i st);
    simpl in *; congruence.
Qed.

(** ** The flood of an unknown group *)

Lemma flood_unknown_spec ports d p f st : ports_ok p ->
  let '(ok, d', f', st') := flood_unknown ports d (with_ports p f) st in
  db st' = db st /\ fd st' = fd st /\ same_devs st st' /\ (d' = d \/ d' = set_skip d) /\
  exists p', f' = with_ports p' f /\ ports_ok p' /\
    (ok = true -> p' = add_ports (List.filter (forwards (d_ipVersion d) st) ports) p).
Proof.
  revert d p st. induction ports as [|i ports IH]; intros d p st Hp; simpl.
  { split_and!; try done; [by left|]. by exists p. }
  destruct (_rtk_igmp_devIfidx_to_devInfo i st) as [di|] eqn:Ei;
    (assert (forwards (d_ipVersion d) st i = match _rtk_igmp_devIfidx_to_devInfo i st with
       | Some di => negb (forwardDisable (snoop_conf (d_ipVersion d) di)) | None => false end) as -> by done);
    rewrite Ei; [|by apply IH].
  destruct (forwardDisable (snoop_conf (d_ipVersion d) di)); simpl; [by apply IH|].
  destruct (nonzero _).
  - set (d1 := if _ || _ then set_skip d else d).
    assert (d1 = d \/ d1 = set_skip d) as Hd1 by (subst d1; case_match; auto).
    assert (d_ipVersion d1 = d_ipVersion d) as Ev by by destruct Hd1 as [-> | ->].
    clearbody d1. rewrite Ev.
    pose proof (check_umc_same i (d_ipVersion d) di st) as Hs.
    pose proof (check_umc_keeps i (d_ipVersion d) di st) as [Hk1 Hk2].
    destruct (check_rate_limit_umc i (d_ipVersion d) di st) as [[] st1]; simpl in *.
    + rewrite add_egress_with by done. specialize (IH d1 (add_port p i) st1 (add_port_ok _ _ Hp)).
      destruct (flood_unknown ports d1 _ st1) as [[[ok d'] f'] st'].
      destruct IH as (H1 & H2 & H3 & H4 & p' & H5 & H6 & H7).
      split_and!; [congruence..| | |].
      * intros j. by rewrite H3.
      * destruct Hd1 as [-> | ->], H4 as [-> | ->]; auto.
      * exists p'. split_and!; try done. intros Hok. rewrite (H7 Hok), Ev.
        f_equal. apply List.filter_ext. intros j. by apply forwards_same.
    + split_and!; try done. by exists p.
  - rewrite add_egress_with by done. apply (IH d (add_port p i) st). by apply add_port_ok.
Qed.

(** A device that may be flooded, under a limiter that does not let the packet pass now. *)
Definition limiter_refuses (v : ip_version) (st : snooper) (i : Z) : bool :=
  match _rtk_igmp_devIfidx_to_devInfo i st with
  | Some di =>
      let cf := snoop_conf v di in
      negb (forwardDisable cf) && nonzero (rate (ratelimit_unkMc cf)) &&
      negb (fst (limit_step cycle_duration jiffies (ratelimit_unkMc cf)))
  | None => false
  end.
Lemma check_umc_other i v di st j : i <> j ->
  limiter_refuses v (snd (check_rate_limit_umc i v di st)) j = limiter_refuses v st j.
Proof.
  intros Hn. unfold limiter_refuses, check_rate_limit_umc. destruct (limit_step _ _ _) as [ok r] eqn:E. cbn [snd].
  rewrite lookup_alter_dev by by destruct v. by rewrite (proj2 (Z.eqb_neq i j) Hn).
Qed.
(** The flood stops at the first limiter that refuses. *)
Lemma flood_unknown_ok ports d f st : NoDup ports ->
  fst (fst (fst (flood_unknown ports d f st))) = negb (existsb (limiter_refuses (d_ipVersion d) st) ports).
Proof.
  intros Hn. revert d f st. induction Hn as [|i ports Hi Hn IH]; intros d f st; [done|]. cbn [existsb flood_unknown].
  unfold limiter_refuses at 1. destruct (_rtk_igmp_devIfidx_to_devInfo i st) as [di|]; [|apply IH].
  destruct (forwardDisable (snoop_conf (d_ipVersion d) di)); [apply IH|]. cbn [negb andb].
  destruct (nonzero _); [|apply IH]. cbn [andb].
  set (d1 := if _ || _ then set_skip d else d). assert (d_ipVersion d1 = d_ipVersion d) as Ev by (subst d1; by case_match).
  clearbody d1. rewrite Ev. pose proof (check_umc_other i (d_ipVersion d) di st) as Ho. unfold check_rate_limit_umc in *.
  destruct (limit_step _ _ _) as [[] r]; cbn [fst snd negb orb] in *; [|done]. rewrite IH, Ev. f_equal.
  clear -Ho Hi. induction ports as [|j ports IHp]; [done|]. simpl. apply not_elem_of_cons in Hi as [Hij Hi].
  by rewrite Ho, IHp.
Qed.

(** ** The decision *)

(** The packet of an unknown group that a limiter drops. *)
Definition flood_limited (mi : nat) (d : multicastDataInfo) (st : snooper) : bool :=
  unknownFlood && bool_decide (rtk_igmp_searchGroupEntry mi (d_ipVersion d) (d_groupAddr d) (db st) = None) &&
  existsb (limiter_refuses (d_ipVersion d) st) (ports_on mi).
Lemma decide_uncached_limited mi d c2c f st : NoDup (ports_on mi) ->
  fst (fst (fst (decide_uncached mi d c2c f st))) = if flood_limited mi d st then FAIL else SUCCESS.
Proof.
  intros Hn. unfold decide_uncached, flood_limited. destruct (rtk_igmp_searchGroupEntry _ _ _ _) as [g|].
  { rewrite bool_decide_false by done. by rewrite andb_false_r. }
  rewrite bool_decide_true by done. destruct unknownFlood; [|done]. cbn [andb].
  match goal with |- context [flood_unknown ?a ?b ?c ?e] => pose proof (flood_unknown_ok a b c e Hn) as E;
    destruct (flood_unknown a b c e) as [[[[] d'] f'] st'] end; cbn [fst] in E; by destruct (existsb _ _).
Qed.

(** The recorded outcome of a decision, or a drop by the limiter of unknown
    multicast, which leaves the cache alone. *)
Lemma decide_uncached_spec mi d c2c f st : egressDevInfo f = no_egress ->
  let '(r, d', f', st') := decide_uncached mi d c2c f st in
  db st' = db st /\ same_devs st st' /\ (d' = d \/ d' = set_skip d) /\
  ((r = SUCCESS /\ egressDevInfo f' = mk_egress (decided mi d st) /\ copy2cpu f' = c2c || copy2cpu f /\
    fd st' = snd (rtk_igmp_recordMcastFlow (db st) mi d' f' (fd st))) \/
   (r = FAIL /\ dropPkt f' = true /\ fd st' = fd st /\ unknownFlood = true)).
Proof.
  intros Ef. unfold decide_uncached, decided, forward_set. rewrite (with_ports0 f Ef).
  rewrite flood_disabled_with by apply ports_ok_nil.
  rewrite trap_wlan_with by apply add_ports_ok, ports_ok_nil.
  rewrite !add_ports_app. change (copy2cpu (with_ports [] f)) with (copy2cpu f).
  set (p := add_ports (wlan_target d st) _).
  assert (ports_ok p) as Hp by apply add_ports_ok, add_ports_ok, ports_ok_nil. clearbody p.
  assert (forall p' (b : bool) g, egressDevInfo (if b then set_copy2cpu true (with_ports p' g) else with_ports p' g) = mk_egress p' /\
    copy2cpu (if b then set_copy2cpu true (with_ports p' g) else with_ports p' g) = b || copy2cpu g) as Hc
    by (intros ? [] ?; done).
  destruct (rtk_igmp_searchGroupEntry mi (d_ipVersion d) (d_groupAddr d) (db st)) as [g|] eqn:Eg.
  - rewrite serve_clients_with by done. split; [done|]. split; [done|]. split; [by left|]. left.
    split; [done|]. split; [apply Hc|]. split; [apply Hc|]. done.
  - destruct unknownFlood eqn:Eu.
    + pose proof (flood_unknown_spec (ports_on mi) d p f st Hp) as Hfl.
      destruct (flood_unknown (ports_on mi) d (with_ports p f) st) as [[[[] d'] f'] st'];
        destruct Hfl as (H1 & H2 & H3 & H4 & p' & -> & Hp' & Hok).
      * rewrite (Hok eq_refl) in *. simpl. split; [done|]. split; [done|]. split; [done|]. left.
        change (set_unknown (with_ports ?x f)) with (with_ports x (set_unknown f)).
        split; [done|]. split; [apply Hc|].
        split; [change (copy2cpu f) with (copy2cpu (set_unknown f)); apply Hc|]. by rewrite H1, H2.
      * split; [done|]. split; [done|]. split; [done|]. by right.
    + split; [done|]. split; [done|]. split; [by left|]. left. split; [done|]. split; [apply Hc|]. split; [apply Hc|]. done.
Qed.

Lemma elem_filter {A} (c : A -> bool) (l : list A) x : x ∈ List.filter c l <-> x ∈ l /\ c x = true.
Proof. rewrite !list_elem_of_In. apply List.filter_In. Qed.

(** What it means for a client to be entitled to a source: its device is configured,
    forwards and snoops, and either its filter is running and does not name the source
    (or sources do not matter), or one of the sources that matter is alive. *)
Definition entitled (d : multicastDataInfo) (st : snooper) (g : groupEntry) (c : clientEntry) : Prop :=
  exists di, _rtk_igmp_devIfidx_to_devInfo (inIfidx c) st = Some di /\
    let cf := snoop_conf (d_ipVersion d) di in
    let now := rtk_igmp_sysUpSeconds (db st) in
    let listed := rtk_igmp_searchSourceEntry (groupIpVersion g) (sourceIp d) c in
    forwardDisable cf = false /\ snoopingDisable cf = false /\
    ((now < groupFilterTimer c /\ (careSource cf = true -> listed = None)) \/
     exists s, now < portTimer s /\ (if careSource cf then listed = Some s else s ∈ sourceList c)).

Lemma client_wants_iff cares now v src c : client_wants cares now v src c = true <->
  (now < groupFilterTimer c /\ (cares = true -> rtk_igmp_searchSourceEntry v src c = None)) \/
  exists s, now < portTimer s /\
    (if cares then rtk_igmp_searchSourceEntry v src c = Some s else s ∈ sourceList c).
Proof.
  unfold client_wants. destruct cares; [|destruct (groupFilterTimer c <=? now) eqn:E].
  - destruct (rtk_igmp_searchSourceEntry v src c) as [s|] eqn:Es; destruct (groupFilterTimer c <=? now) eqn:E;
      bool_to_prop; split.
    1,3: intros Hs; right; exists s; split; [lia|done].
    1,2: intros [[_ Hn]|(s' & ? & [= <-])]; [by specialize (Hn eq_refl)|lia].
    + done.
    + intros [[? _]|(s & _ & ?)]; [lia|done].
    + intros _. by left.
    + done.
  - rewrite existsb_exists. setoid_rewrite <- list_elem_of_In. bool_to_prop. split.
    + intros (s & Hs & Hp). right. exists s. by bool_to_prop.
    + intros [[? _]|(s & Hp & Hs)]; [lia|]. exists s. split; [done|]. by apply Z.ltb_lt.
  - bool_to_prop. split; [|done]. intros _. by left.
Qed.
Lemma client_served_iff d st g c : client_served d st g c = true <-> entitled d st g c.
Proof.
  unfold client_served, entitled. destruct (_rtk_igmp_devIfidx_to_devInfo _ _) as [di|].
  - simpl. rewrite !andb_true_iff, !negb_true_iff, client_wants_iff. split.
    + intros [[? ?] ?]. by exists di.
    + by intros (? & [= <-] & ? & ? & ?).
  - split; [done|]. by intros (? & ? & _).
Qed.

Lemma elem_forward_set mi d st i : i ∈ forward_set mi d st <->
  (i ∈ ports_on mi /\ floods_always (d_ipVersion d) st i = true) \/ i ∈ wlan_target d st \/
  match rtk_igmp_searchGroupEntry mi (d_ipVersion d) (d_groupAddr d) (db st) with
  | Some g => exists c, c ∈ clientList g /\ inIfidx c = i /\ entitled d st g c
  | None => unknownFlood = true /\ i ∈ ports_on mi /\ forwards (d_ipVersion d) st i = true
  end.
Proof.
  unfold forward_set. rewrite !elem_of_app, elem_filter.
  destruct (rtk_igmp_searchGroupEntry _ _ _ _) as [g|].
  - rewrite list_elem_of_fmap. setoid_rewrite elem_filter. setoid_rewrite client_served_iff. clear. split.
    + intros [?|[?|(c & -> & ? & ?)]]; eauto 8.
    + intros [?|[?|(c & ? & <- & ?)]]; eauto 8.
  - destruct unknownFlood.
    + rewrite elem_filter. tauto.
    + rewrite elem_of_nil. intuition congruence.
Qed.

(** The array holds what should be in it, as long as it has room for that. *)
Lemma decided_spec mi d st :
  (length (remove_dups (forward_set mi d st)) <= IGMP_MAX_DEV_NUM)%nat ->
  forall i, i ∈ decided mi d st <-> i ∈ forward_set mi d st.
Proof.
  intros Hlen i. unfold decided.
  rewrite (add_ports_complete (remove_dups (forward_set mi d st)) _ [] ports_ok_nil); [|intros j|done].
  - rewrite elem_of_nil. tauto.
  - rewrite elem_of_nil, elem_of_remove_dups. tauto.
Qed.
Lemma decided_ok mi d st : ports_ok (decided mi d st).
Proof. apply add_ports_ok, ports_ok_nil. Qed.

(** ** Refreshing the cache *)

(** No limiter on unknown multicast is set. *)
Definition calm (st : snooper) : Prop :=
  forall i di v, _rtk_igmp_devIfidx_to_devInfo i st = Some di -> rate (ratelimit_unkMc (snoop_conf v di)) = 0.
(** Bridges decide for themselves. *)
Definition separate : Prop := forall mi, combineId (bridge_of mi) = 0.
(** The group is not reserved for the protocol stack alone. *)
Definition open_group (v : ip_version) (ga : addr) : bool :=
  match rtk_igmp_checkGroupToPsTbl v ga with Some r => isCopy2cpu r | None => true end.
Definition wants_copy (v : ip_version) (ga : addr) : bool :=
  match rtk_igmp_checkGroupToPsTbl v ga with Some r => isCopy2cpu r | None => false end.

(** What the cache should hold for a flow that it has: the decision of now, or
    nothing when the stream goes nowhere. *)
Definition fresh_route (mi : nat) (st : snooper) (k : flowKey) : option (egress * bool) :=
  let p := decided mi (data_of_flow k) st in
  if decide (p = []) then None else Some (mk_egress p, wants_copy (fk_ipVersion k) (fk_groupAddr k)).

Lemma flood_calm ports d f st : calm st ->
  exists f', flood_unknown ports d f st = (true, d, f', st).
Proof.
  intros Hc. revert f. induction ports as [|i ports IH]; intros f; simpl; [by eexists|].
  destruct (_rtk_igmp_devIfidx_to_devInfo i st) as [di|] eqn:Ei; [|apply IH].
  destruct (forwardDisable _); [apply IH|]. rewrite (Hc _ _ _ Ei). apply IH.
Qed.

Lemma decide_calm mi d c2c f st : calm st -> egressDevInfo f = no_egress ->
  exists f', decide_uncached mi d c2c f st =
    (SUCCESS, d, f', set_fd (snd (rtk_igmp_recordMcastFlow (db st) mi d f' (fd st))) st) /\
    egressDevInfo f' = mk_egress (decided mi d st) /\ copy2cpu f' = c2c || copy2cpu f.
Proof.
  intros Hc Ef. pose proof (decide_uncached_spec mi d c2c f st Ef) as Hs.
  assert (exists f', decide_uncached mi d c2c f st =
    (SUCCESS, d, f', set_fd (snd (rtk_igmp_recordMcastFlow (db st) mi d f' (fd st))) st)) as [f' E].
  { unfold decide_uncached. destruct (rtk_igmp_searchGroupEntry _ _ _ _); [by eexists|].
    destruct unknownFlood; [|by eexists].
    match goal with |- context [flood_unknown ?a ?b ?c ?s] => destruct (flood_calm a b c s Hc) as [g ->] end.
    by eexists. }
  exists f'. rewrite E in Hs. split; [done|].
  destruct Hs as (_ & _ & _ & [(_ & H1 & H2 & _)|(H & _)]); [done|discriminate].
Qed.

Lemma get_calm mi d st : calm st -> separate -> open_group (d_ipVersion d) (d_groupAddr d) = true ->
  exists f f', _rtk_igmp_getMulticastDataFwdInfo mi false d st =
    (SUCCESS, d, f', set_fd (snd (rtk_igmp_recordMcastFlow (db st) mi d f (fd st))) st) /\
    egressDevInfo f = mk_egress (decided mi d st) /\ egressDevInfo f' = egressDevInfo f /\
    copy2cpu f = wants_copy (d_ipVersion d) (d_groupAddr d).
Proof.
  intros Hc Hs Ho. unfold _rtk_igmp_getMulticastDataFwdInfo. rewrite (Hs mi). simpl.
  unfold __rtk_igmp_getMulticastDataFwdInfo, open_group, wants_copy in *.
  assert (forall c2c f, egressDevInfo f = no_egress -> copy2cpu f = c2c ->
    exists g g', (let '(r, d, f, st) := cache_then_decide mi false d c2c f st in
       (r, d, if _rtk_igmp_IsflowToDevInfoIsNonValidPort (egressDevInfo f) then set_drop f else f, st)) =
      (SUCCESS, d, g', set_fd (snd (rtk_igmp_recordMcastFlow (db st) mi d g (fd st))) st) /\
      egressDevInfo g = mk_egress (decided mi d st) /\ egressDevInfo g' = egressDevInfo g /\ copy2cpu g = c2c) as Hd.
  { intros c2c f Ef Ec. destruct (decide_calm mi d c2c f st Hc Ef) as (g & E & H1 & H2).
    exists g. eexists. unfold cache_then_decide. rewrite E. split; [done|]. split; [done|].
    split; [by destruct (_rtk_igmp_IsflowToDevInfoIsNonValidPort _)|]. rewrite H2, Ec. by destruct c2c. }
  destruct (rtk_igmp_checkGroupToPsTbl _ _) as [r|]; [rewrite Ho|]; by apply Hd.
Qed.

Lemma key_of_data_of_flow k : key_of_data (data_of_flow k) = k.
Proof.
  destruct k as [v s g sp dp cv sv l4]. unfold key_of_data, data_of_flow. simpl.
  f_equal; [destruct (cv =? FAIL) eqn:E|destruct (sv =? FAIL) eqn:E]; bool_to_prop; simpl; congruence.
Qed.

Lemma in_cell_call c e fd : in_cell c (call_hw e fd) = in_cell c fd.
Proof. done. Qed.

(** One refreshed flow. *)
Lemma reflush_flow_spec n N m e st :
  flow_inv n N (fd st) -> calm st -> separate ->
  open_group (fk_ipVersion (flowId e)) (fk_groupAddr (flowId e)) = true ->
  seen route m (flowId e) (fd st) = Some (route e) -> recordable_key (flowId e) = true ->
  exists fd', reflush_flow m e st = set_fd fd' st /\ flow_inv n N fd' /\
    forall mi' k', cached mi' k' fd' =
      if same_flow m (flowId e) mi' k' then fresh_route m st (flowId e) else cached mi' k' (fd st).
Proof.
  intros Hi Hc Hs Ho Hl Hr. unfold reflush_flow.
  set (d := data_of_flow (flowId e)).
  destruct (get_calm m d st Hc Hs Ho) as (f & f' & -> & Ef & _ & Ec).
  unfold seen in Hl. destruct (find_flow m (flowId e) (fd st)) as [x|] eqn:Ex; [|done].
  destruct (record_found n N (db st) m d (decided m d st) f (fd st) x) as (_ & H1 & H2);
    [done|done|apply decided_ok| | |].
  { unfold recordable, d. by rewrite key_of_data_of_flow. }
  { unfold d. by rewrite key_of_data_of_flow. }
  set (fd' := snd (rtk_igmp_recordMcastFlow (db st) m d f (fd st))) in *. clearbody fd'.
  unfold d in H2 at 1. rewrite key_of_data_of_flow in H2.
  assert (forall mi' k', cached mi' k' fd' =
    if same_flow m (flowId e) mi' k' then fresh_route m st (flowId e) else cached mi' k' (fd st)) as H3.
  { intros mi' k'. rewrite H2. destruct (same_flow _ _ _ _); [|done]. unfold fresh_route.
    fold d. by rewrite Ec. }
  clear H2. simpl. destruct (in_cell (flowCell e) fd') as [e'|]; [|by exists fd'].
  destruct (_ && _ && _); [|by exists fd']. exists (call_hw (FlowUpdateCb (flow_cb e')) fd').
  split; [done|]. split; [by apply inv_call_hw|exact H3].
Qed.

(** What the refresh leaves of a cached flow of bridge [m]. *)
Definition refreshed (m : nat) (ga : option addr) (st : snooper) (k : flowKey) (r : egress * bool)
    : option (egress * bool) :=
  if match ga with Some a => bool_decide (a = fk_groupAddr k) | None => true end
  then fresh_route m st k else Some r.

(** The refresh of a flow as a step of the flow table alone. *)
Definition reflush_visit (m : nat) (ga : option addr) (st : snooper) (e : mcastFlowEntry) (x : flowDb) : flowDb :=
  fd (if flow_of_group ga e then reflush_flow m e (set_fd x st) else set_fd x st).

Definition all_open (ga : option addr) : Prop :=
  forall v a, match ga with Some b => a = b | None => True end -> open_group v a = true.

Lemma visits_reflush n N m ga st : calm st -> separate -> all_open ga ->
  visits route n N m (reflush_visit m ga st) (refreshed m ga st).
Proof.
  intros Hc Hs Ho x e Hi Hl Hk Hr. unfold reflush_visit, refreshed, flow_of_group.
  destruct (match ga with Some a => bool_decide (a = fk_groupAddr (flowId e)) | None => true end) eqn:Eg.
  - destruct (reflush_flow_spec n N m e (set_fd x st)) as (fd' & -> & H1 & H2); try done.
    apply Ho. destruct ga as [a|]; [|done]. by apply bool_decide_eq_true in Eg.
  - split; [done|]. intros mi' k'. destruct (same_flow _ _ _ _) eqn:E; [|done]. simpl.
    apply same_flow_true in E as [-> E]. rewrite <- Hl. unfold seen. by rewrite (find_flow_ext _ _ _ _ E).
Qed.

(** The refresh only reads the rest of the state. *)
Lemma reflush_flow_fd m e st : calm st -> separate -> exists fd', reflush_flow m e st = set_fd fd' st.
Proof.
  intros Hc Hs. unfold reflush_flow. set (d := data_of_flow (flowId e)).
  assert (exists r f x, _rtk_igmp_getMulticastDataFwdInfo m false d st = (r, d, f, set_fd x st)) as (r & f & x & ->).
  { destruct (open_group (d_ipVersion d) (d_groupAddr d)) eqn:Eo.
    - destruct (get_calm m d st Hc Hs Eo) as (f & f' & E & _). eauto.
    - unfold _rtk_igmp_getMulticastDataFwdInfo, __rtk_igmp_getMulticastDataFwdInfo. rewrite (Hs m). simpl.
      unfold open_group in Eo. destruct (rtk_igmp_checkGroupToPsTbl _ _); [|done]. rewrite Eo.
      do 2 eexists. exists (fd st). by destruct st. }
  simpl. destruct (in_cell _ _); [|by exists x]. case_match; [by eexists|by exists x].
Qed.

Lemma reflush_visit_fd m ga st e x : calm st -> separate ->
  (if flow_of_group ga e then reflush_flow m e (set_fd x st) else set_fd x st) =
  set_fd (reflush_visit m ga st e x) st.
Proof.
  intros Hc Hs. unfold reflush_visit. destruct (flow_of_group ga e); [|done].
  destruct (reflush_flow_fd m e (set_fd x st)) as [fd' ->]; done.
Qed.

(** So it is a walk of the flow tables. *)
Definition reflush_tables (ga : option addr) (st : snooper) (ms : list nat) (x : flowDb) : flowDb :=
  foldl (fun x m => if valid_module (db st) m then walk_flows (reflush_visit m ga st) m x else x) x ms.

Lemma reflush_is_walk mo ga st : calm st -> separate ->
  rtk_igmp_flow_reflush_update mo ga st = set_fd (reflush_tables ga st (reflush_modules mo (db st)) (fd st)) st.
Proof.
  intros Hc Hs. unfold rtk_igmp_flow_reflush_update, reflush_walk, reflush_tables.
  assert (forall m es x,
    foldl (fun st e => if flow_of_group ga e then reflush_flow m e st else st) (set_fd x st) es =
    set_fd (foldl (fun x e => reflush_visit m ga st e x) x es) st) as H1.
  { intros m es. induction es as [|e es IH]; intros x; simpl; [done|]. by rewrite reflush_visit_fd, IH. }
  assert (forall m hs x,
    foldl (fun st h => foldl (fun st e => if flow_of_group ga e then reflush_flow m e st else st) st
                         (flow_bucket m h (fd st))) (set_fd x st) hs =
    set_fd (foldl (fun x h => walk_bucket (reflush_visit m ga st) m h x) x hs) st) as H2.
  { intros m hs. induction hs as [|h hs IH]; intros x; simpl; [done|]. by rewrite H1, IH. }
  assert (forall ms x,
    foldl (fun st m => if valid_module (db st) m
      then foldl (fun st h => foldl (fun st e => if flow_of_group ga e then reflush_flow m e st else st) st
                                (flow_bucket m h (fd st))) st buckets else st) (set_fd x st) ms =
    set_fd (foldl (fun x m => if valid_module (db st) m then walk_flows (reflush_visit m ga st) m x else x) x ms) st) as H3.
  { induction ms as [|m ms IH]; intros x; simpl; [done|]. destruct (valid_module (db st) m); [|apply IH].
    by rewrite H2, IH. }
  specialize (H3 (reflush_modules mo (db st)) (fd st)). by destruct st.
Qed.

(** The refresh of a group on every bridge: each cached flow of the group becomes
    the decision of now, every other flow stays. *)
Lemma reflush_tables_spec n N ga st ms x :
  NoDup ms -> flow_inv n N x -> calm st -> separate -> all_open ga ->
  flow_inv n N (reflush_tables ga st ms x) /\
  forall mi k, cached mi k (reflush_tables ga st ms x) =
    if valid_module (db st) mi && bool_decide (mi ∈ ms)
    then after (refreshed mi ga st) k (cached mi k x) else cached mi k x.
Proof.
  intros Hn Hi Hc Hs Ho. revert x Hi. induction Hn as [|m ms Hm Hn IH]; intros x Hi; simpl.
  { split; [done|]. intros. by rewrite andb_false_r. }
  destruct (valid_module (db st) m) eqn:Ev.
  - destruct (walk_flows_spec route n N m _ _ x (visits_reflush n N m ga st Hc Hs Ho) Hi) as [H1 H2].
    destruct (IH _ H1) as [H3 H4]. split; [done|]. intros mi k. rewrite H4.
    unfold cached in *. rewrite H2. destruct (decide (mi = m)) as [->|Hne].
    + rewrite Ev. rewrite (bool_decide_false (m ∈ ms)) by done. by rewrite !bool_decide_true by set_solver.
    + rewrite (bool_decide_false (mi = m)) by done.
      by rewrite (bool_decide_ext (mi ∈ m :: ms) (mi ∈ ms)) by set_solver.
  - destruct (IH x Hi) as [H3 H4]. split; [done|]. intros mi k. rewrite H4.
    destruct (decide (mi = m)) as [->|Hne]; [by rewrite Ev|].
    by rewrite (bool_decide_ext (mi ∈ m :: ms) (mi ∈ ms)) by set_solver.
Qed.

(** ** Aging *)

Definition flood_gone (e : mcastFlowEntry) : bool := _rtk_igmp_flowcheck (flow_cb e).
(** An idle flow none of whose devices snoops. *)
Definition idle_flood (st : snooper) (e : mcastFlowEntry) : bool :=
  flow_expired (rtk_igmp_sysUpSeconds (db st)) e &&
  negb (existsb (snooped_device (fk_ipVersion (flowId e)) st) (ports_of (egressDevInfo (multicastFwdInfo e)))).

Lemma aging_spec n N mi st : flow_inv n N (fd st) ->
  exists fd', rtk_igmp_agingMcastFlow mi st = set_fd fd' st /\ flow_inv n N fd' /\
  forall mi' k, find_flow mi' k fd' =
    if bool_decide (mi' = mi)
    then find_flow mi' k (fd st) ≫=
           swept (fun e => idle_flood st e && flood_gone e) (idle_flood st) (rtk_igmp_sysUpSeconds (db st)) (stored_key k)
    else find_flow mi' k (fd st).
Proof.
  intros Hi. eexists. split; [done|]. apply sweep_spec; [|done]. intros e x. unfold sweep_flow, check_flow.
  fold (idle_flood st e). fold (flood_gone e). by destruct (idle_flood st e), (flood_gone e).
Qed.

Lemma deleteUnknown_spec n N mi st : flow_inv n N (fd st) ->
  exists fd', rtk_igmp_deleteUnknownFloodMacstFlow mi st = set_fd fd' st /\ flow_inv n N fd' /\
  forall mi' k, find_flow mi' k fd' =
    if bool_decide (mi' = mi)
    then find_flow mi' k (fd st) ≫=
           swept flood_gone (fun _ => true) (rtk_igmp_sysUpSeconds (db st)) (stored_key k)
    else find_flow mi' k (fd st).
Proof. intros Hi. eexists. split; [done|]. by apply sweep_spec. Qed.
End Spec.
