(* ===== verification/IgmpCoherence.v ===== *)
(** * IgmpCoherence: reports, packets and the cache together

    The membership handlers of IgmpReport change one group and then refresh its
    flows; packets fill the cache; the sweeper takes flows away.  Each of them keeps
    every cached flow what a fresh decision would give, if it is [settled]; the timer,
    with which time passes, is in IgmpAging, and their interleavings too. *)
From S2P Require Import Prelude IgmpTable IgmpReport IgmpInvariant IgmpView IgmpTimer IgmpFlow IgmpFlowSpec IgmpFlowOps IgmpForward IgmpForwardSpec.

Section Frame.
Context {cfg : IgmpConfig} {policy : AdmissionPolicy}.

(** ** A handler touches one group *)

Record frame (mi : nat) (v : ip_version) (ga : addr) (st st' : igmp) : Prop := {
  fr_now : rtk_igmp_sysUpSeconds st' = rtk_igmp_sysUpSeconds st;
  fr_valid : valid_flags st' = valid_flags st;
  fr_sized : sized st';
  fr_search : forall mi' v' ga', same_group mi v ga mi' v' ga' = false ->
    rtk_igmp_searchGroupEntry mi' v' ga' st' = rtk_igmp_searchGroupEntry mi' v' ga' st;
  fr_events : exists es, events st' = events st ++ es /\ forall x, FlowReflush x ∈ es -> x = ga;
  fr_addr : forall mi' v' h g, g ∈ bucket mi' v' h st' ->
    (v' = v /\ groupAddr g = ga) \/ exists g0, g0 ∈ bucket mi' v' h st /\ groupAddr g0 = groupAddr g
}.

Lemma valid_flags_length st : length (valid_flags st) = length (modules st).
Proof. apply length_fmap. Qed.

Lemma frame_range mi v ga st st' i : frame mi v ga st st' -> in_range i st -> in_range i st'.
Proof. intros Hf. unfold in_range. by rewrite <- !valid_flags_length, (fr_valid _ _ _ _ _ Hf). Qed.

Lemma frame_refl mi v ga st : sized st -> frame mi v ga st st.
Proof.
  intros. split; try done; [|by right; eauto]. exists []. rewrite app_nil_r. split; [done|set_solver].
Qed.

Lemma frame_trans mi v ga st st' st'' : frame mi v ga st st' -> frame mi v ga st' st'' -> frame mi v ga st st''.
Proof.
  intros [A1 A2 A3 A4 (es & A5 & A6) A7] [B1 B2 B3 B4 (es' & B5 & B6) B7]. split; [congruence..| | |].
  - intros. by rewrite B4, A4.
  - exists (es ++ es'). rewrite B5, A5, app_assoc. split; [done|]. intros x [|]%elem_of_app; auto.
  - intros mi' v' h g Hg. destruct (B7 _ _ _ _ Hg) as [?|(g1 & Hg1 & <-)]; [by left|]. by apply A7.
Qed.

(** Changes of the fields the frame does not mention. *)
Lemma frame_same mi v ga st st' :
  sized st -> modules st' = modules st -> rtk_igmp_sysUpSeconds st' = rtk_igmp_sysUpSeconds st ->
  (exists es, events st' = events st ++ es /\ forall x, FlowReflush x ∈ es -> x = ga) -> frame mi v ga st st'.
Proof.
  intros Hs Hm Hn He. split; try done.
  - unfold valid_flags. by rewrite Hm.
  - by eapply sized_modules_eq.
  - intros. unfold rtk_igmp_searchGroupEntry, bucket. by rewrite Hm.
  - intros mi' v' h g Hg. right. exists g. split; [|done]. unfold bucket in *. by rewrite <- Hm.
Qed.
Lemma frame_quiet mi v ga st st' :
  sized st -> modules st' = modules st -> rtk_igmp_sysUpSeconds st' = rtk_igmp_sysUpSeconds st ->
  events st' = events st -> frame mi v ga st st'.
Proof.
  intros. apply frame_same; try done. exists []. rewrite app_nil_r. split; [done|set_solver].
Qed.
Lemma frame_emit mi v ga e st : sized st -> (forall x, e = FlowReflush x -> x = ga) -> frame mi v ga st (emit e st).
Proof. intros. apply frame_same; try done. exists [e]. split; [done|]. intros x Hx%list_elem_of_singleton. auto. Qed.

(** A change of the group's bucket that other searches do not see. *)
Lemma frame_alter_bucket mi v ga f st :
  in_range mi st -> sized st ->
  (forall ga', addr_match v ga ga' = false ->
     List.find (group_match v ga') (f (bucket mi v (hash v ga) st)) =
     List.find (group_match v ga') (bucket mi v (hash v ga) st)) ->
  (forall g, g ∈ f (bucket mi v (hash v ga) st) ->
     groupAddr g = ga \/ exists g0, g0 ∈ bucket mi v (hash v ga) st /\ groupAddr g0 = groupAddr g) ->
  frame mi v ga st (alter_bucket mi v (hash v ga) f st).
Proof.
  intros Hr Hs Hf Ha. split; [done|apply valid_alter_bucket|by apply sized_alter_bucket| | |].
  - intros mi' v' ga' Hg. unfold rtk_igmp_searchGroupEntry.
    destruct (decide ((mi', v', hash v' ga') = (mi, v, hash v ga))) as [E|Hne]; [|by rewrite bucket_alter_ne].
    injection E as -> -> Eh. rewrite Eh, bucket_alter_eq by (done || apply hash_bound). apply Hf.
    unfold same_group in Hg. by rewrite !bool_decide_true in Hg by done.
  - exists []. rewrite app_nil_r. split; [done|set_solver].
  - intros mi' v' h g Hg. destruct (decide ((mi', v', h) = (mi, v, hash v ga))) as [E|Hne];
      [|rewrite bucket_alter_ne in Hg by done; eauto].
    injection E as -> -> ->. rewrite bucket_alter_eq in Hg by (done || apply hash_bound).
    destruct (Ha g Hg) as [?|?]; [by left|by right].
Qed.

(** The group, where it is in its chain, becomes another one of its address. *)
Lemma frame_replace_group mi v ga f st :
  in_range mi st -> sized st ->
  (forall g, rtk_igmp_searchGroupEntry mi v ga st = Some g -> groupAddr (f g) = groupAddr g) ->
  frame mi v ga st (alter_group mi v ga f st).
Proof.
  intros Hr Hs Hf. unfold alter_group. unfold rtk_igmp_searchGroupEntry in Hf.
  apply frame_alter_bucket; [done..| |].
  - intros ga' Hg. revert Hf. generalize (bucket mi v (hash v ga) st) as l. intros l. induction l as [|g l IH]; [done|]. simpl.
    destruct (group_match v ga g) eqn:E; intros Hf; simpl.
    + specialize (Hf g eq_refl). assert (group_match v ga' g = false) as H1 by (by eapply addr_match_neg).
      assert (group_match v ga' (f g) = false) as H2 by (unfold group_match in *; by rewrite Hf). by rewrite H1, H2.
    + destruct (group_match v ga' g); [done|auto].
  - intros g Hg. right. revert Hf Hg. generalize (bucket mi v (hash v ga) st) as l. intros l. induction l as [|g1 l IH]; simpl; [set_solver|].
    destruct (group_match v ga g1) eqn:E; intros Hf [->|Hg]%elem_of_cons.
    + exists g1. split; [left|]. symmetry. by apply Hf.
    + exists g. split; [by right|done].
    + exists g1. split; [left|done].
    + destruct (IH Hf Hg) as (g0 & H1 & H2). exists g0. split; [by right|done].
Qed.
Lemma frame_alter_group mi v ga f st :
  in_range mi st -> sized st -> (forall g, groupAddr (f g) = groupAddr g) ->
  frame mi v ga st (alter_group mi v ga f st).
Proof. intros Hr Hs Hf. by apply frame_replace_group. Qed.

Lemma frame_unlink mi v ga g st :
  in_range mi st -> sized st -> groupIpVersion g = v -> addr_match v ga (groupAddr g) = true ->
  frame mi v ga st (rtk_igmp_unlinkGroupEntry mi g st).
Proof.
  intros Hr Hs Ev Ha. unfold rtk_igmp_unlinkGroupEntry. rewrite Ev.
  set (st1 := if hwGroupDelCb st then _ else st).
  assert (frame mi v ga st st1) as H1.
  { subst st1. destruct (hwGroupDelCb st); [by apply frame_emit|by apply frame_refl]. }
  eapply frame_trans; [exact H1|]. rewrite <- (addr_match_hash _ _ _ Ha).
  apply frame_alter_bucket; [by eapply frame_range|apply H1| |].
  - intros ga' Hg. apply find_remove_first_other.
    intros g' Hm. eapply addr_match_neg; [exact Hg|]. unfold group_match in Hm. by rewrite (addr_match_trans _ _ _ _ Ha).
  - intros g' Hg'. right. exists g'. split; [|done]. revert g' Hg'.
    apply Forall_forall, Forall_remove_first. by apply Forall_forall.
Qed.

Lemma frame_link mi v ga st :
  in_range mi st -> sized st -> frame mi v ga st (rtk_igmp_linkGroupEntry mi (GroupEntry ga v 0 0 0 []) st).
Proof.
  intros Hr Hs. unfold rtk_igmp_linkGroupEntry. simpl.
  set (g := set_groupIdx _ _). set (st1 := set_groupIncIdx _ st).
  assert (frame mi v ga st (alter_bucket mi v (hash v ga) (fun l => g :: l) st1)) as H1.
  { eapply frame_trans; [apply (frame_quiet mi v ga st st1); done|].
    apply frame_alter_bucket; [done..| |].
    - intros ga' Hg. simpl. unfold group_match at 1. simpl. by rewrite addr_match_sym, Hg.
    - intros g' [->|Hg']%elem_of_cons; [by left|right; by exists g']. }
  destruct (hwGroupAddCb st); [|done]. eapply frame_trans; [exact H1|]. apply frame_emit; [apply H1|done].
Qed.

Definition frames (mi : nat) (v : ip_version) (ga : addr) {A} (m : H A) : Prop :=
  forall st, in_range mi st -> sized st -> frame mi v ga st (snd (m st)).

Lemma frames_ret mi v ga {A} (x : A) : frames mi v ga (ret x).
Proof. intros st _ Hs. by apply frame_refl. Qed.
Lemma frames_now mi v ga : frames mi v ga now.
Proof. intros st _ Hs. by apply frame_refl. Qed.
Lemma frames_reflush mi v ga : frames mi v ga (reflush ga).
Proof. intros st _ Hs. apply frame_emit; [done|]. by intros x [= ->]. Qed.
Lemma frames_guard_reserved mi v ga : frames mi v ga (guard_reserved v ga).
Proof. intros st _ Hs. unfold guard_reserved. repeat case_match; by apply frame_refl. Qed.
Lemma frames_guard_limit hdr mi v ga ca : frames mi v ga (guard_limit hdr v ga ca).
Proof. intros st _ Hs. unfold guard_limit. case_match; by apply frame_refl. Qed.
Lemma frames_guard_white hdr mi v b ga ca s : frames mi v ga (guard_white hdr v b ga ca s).
Proof. intros st _ Hs. unfold guard_white. case_match; by apply frame_refl. Qed.
Lemma frames_bind mi v ga {A B} (m : H A) (k : A -> H B) :
  frames mi v ga m -> (forall x, frames mi v ga (k x)) -> frames mi v ga (bind m k).
Proof.
  intros Hm Hk st Hr Hs. specialize (Hm st Hr Hs). unfold bind. destruct (m st) as [[r|x] st1]; simpl in *; [done|].
  eapply frame_trans; [exact Hm|]. apply Hk; [by eapply frame_range|apply Hm].
Qed.

Lemma searchClient_addr v g ifidx a hdr : groupAddr (snd (rtk_igmp_searchClientEntry v g ifidx a hdr)) = groupAddr g.
Proof. unfold rtk_igmp_searchClientEntry. by destruct (List.find _ _). Qed.

Lemma frames_find_group hdr v ga r : frames (moduleIndex hdr) v ga (find_or_create_group hdr v ga r).
Proof.
  intros st Hr Hs. unfold find_or_create_group. destruct (rtk_igmp_searchGroupEntry _ _ _ _); [by apply frame_refl|].
  unfold rtk_igmp_allocateGroupEntry. destruct (freeGroups st) as [|k]; [by apply frame_refl|]. cbn [snd].
  eapply frame_trans; [apply (frame_quiet _ v ga st (set_free k (freeClients st) (freeSources st) st)); done|].
  by apply frame_link.
Qed.

Lemma frames_find_client hdr v ga ca fresh r :
  frames (moduleIndex hdr) v ga (find_or_create_client hdr v ga ca fresh r).
Proof.
  intros st Hr Hs. unfold find_or_create_client.
  destruct (rtk_igmp_searchGroupEntry _ _ _ _) as [g|]; [|by apply frame_refl].
  destruct (rtk_igmp_searchClientEntry v g _ ca hdr) as [[c|] g'].
  - apply frame_alter_group; [done..|]. intros x. apply searchClient_addr.
  - unfold rtk_igmp_allocateClientEntry. destruct (freeClients st) as [|k]; [by apply frame_refl|].
    cbn [snd]. eapply frame_trans; [|apply frame_alter_group; done]. by apply frame_quiet.
Qed.

Lemma frames_on_client hdr v ga ca f : frames (moduleIndex hdr) v ga (on_client hdr v ga ca f).
Proof.
  intros st Hr Hs. unfold on_client. destruct (get_client _ _ _ _ _ _) as [c|]; [|by apply frame_refl].
  destruct (f (freeSources st) c) as [[ok c'] fr].
  assert (frame (moduleIndex hdr) v ga st (set_free (freeGroups st) (freeClients st) fr
    (alter_client (moduleIndex hdr) v ga ca (smac hdr) (fun _ => c') st))) as Hf.
  { assert (frame (moduleIndex hdr) v ga st (alter_client (moduleIndex hdr) v ga ca (smac hdr) (fun _ => c') st)) as H1
      by (apply frame_alter_group; done).
    eapply frame_trans; [exact H1|]. apply frame_quiet; [apply H1|done..]. }
  by destruct ok.
Qed.

Lemma frames_modify_group hdr v ga f :
  (forall g, groupAddr (f g) = groupAddr g) ->
  frames (moduleIndex hdr) v ga (modify (alter_group (moduleIndex hdr) v ga f)).
Proof. intros Hf st Hr Hs. by apply frame_alter_group. Qed.

Lemma frame_leave_client hdr v ca ga st : in_range (moduleIndex hdr) st -> sized st ->
  frame (moduleIndex hdr) v ga st (leave_client hdr v ca ga st).
Proof.
  intros Hr Hs. unfold leave_client. destruct (rtk_igmp_searchGroupEntry _ _ _ _) as [g0|]; [|by apply frame_refl].
  set (st1 := alter_group _ _ _ _ st).
  assert (frame (moduleIndex hdr) v ga st st1) as H1.
  { apply frame_alter_group; [done..|]. intros x. apply searchClient_addr. }
  assert (in_range (moduleIndex hdr) st1) as Hr1 by by eapply frame_range.
  pose proof (fr_sized _ _ _ _ _ H1) as Hs1. clearbody st1.
  destruct (get_client _ _ _ _ _ st1) as [c|]; [|done].
  destruct (rtk_igmp_searchGroupEntry _ _ _ st1) as [g|] eqn:Eg; [|done].
  eapply frame_trans; [exact H1|]. destruct (fastLeave _).
  - unfold rtk_igmp_deleteClientEntry.
    destruct (List.find _ (clientList g)); (eapply frame_trans; [|apply frame_replace_group; [done..|]]).
    2,4: intros g1 Hg1; change (rtk_igmp_searchGroupEntry (moduleIndex hdr) v ga st1 = Some g1) in Hg1; rewrite Eg in Hg1; by injection Hg1 as <-.
    + by apply frame_quiet.
    + by apply frame_refl.
  - apply frame_alter_group; done.
Qed.

Lemma frame_delete_empty mi v ga st : hashed st -> in_range mi st -> sized st ->
  frame mi v ga st (delete_empty_group mi v ga st).
Proof.
  intros Hh Hr Hs. unfold delete_empty_group.
  destruct (rtk_igmp_searchGroupEntry mi v ga st) as [g|] eqn:Eg; [|by apply frame_refl].
  destruct (clientList g); [|by apply frame_refl].
  apply List.find_some in Eg as [Hin Hm]. apply list_elem_of_In in Hin. destruct (Hh _ _ _ _ Hin) as [Hv _].
  unfold rtk_igmp_deleteGroupEntry, rtk_igmp_deleteClientList. cbv beta iota zeta.
  set (st1 := emit _ _).
  assert (frame mi v ga st st1) as H1.
  { apply frame_same; [done..|]. eexists. split; [reflexivity|]. by intros x Hx%list_elem_of_singleton. }
  assert (frame mi v ga st1 (rtk_igmp_unlinkGroupEntry mi (set_clientList [] g) st1)) as H2.
  { apply frame_unlink; [by eapply frame_range|apply H1|done|done]. }
  eapply frame_trans; [exact H1|]. eapply frame_trans; [exact H2|]. apply frame_quiet; [apply H2|done..].
Qed.

(** The group and version a report is about. *)
Definition report_group (r : report) : addr :=
  match r with
  | Join v ty _ ga => join_group v ty ga
  | Leave _ _ ga => ga
  | IsInclude _ _ r | IsExclude _ _ r | ToInclude _ _ r | ToExclude _ _ r | Allow _ _ r | Block _ _ r => recGroup r
  end.
Definition report_ip (r : report) : ip_version :=
  match r with
  | Join v _ _ _ | Leave v _ _ | IsInclude v _ _ | IsExclude v _ _ | ToInclude v _ _ | ToExclude v _ _
  | Allow v _ _ | Block v _ _ => v
  end.

Lemma frame_leave G C S n hdr v ca ga st : good G C S n (moduleIndex hdr) st ->
  frame (moduleIndex hdr) v ga st (snd (rtk_igmp_processLeave hdr v ca ga st)).
Proof.
  intros Hg. pose proof (good_leave_client G C S n (moduleIndex hdr) hdr v ca ga st eq_refl Hg) as Hg1.
  destruct Hg as (Hi & Hr & _). pose proof (frame_leave_client hdr v ca ga st Hr (inv_sized _ _ _ _ Hi)) as H1.
  unfold rtk_igmp_processLeave, bind, modify. set (st1 := leave_client hdr v ca ga st) in *. clearbody st1.
  destruct Hg1 as (Hi1 & Hr1 & _).
  pose proof (frame_delete_empty (moduleIndex hdr) v ga st1 (inv_hashed _ _ _ _ Hi1) Hr1 (inv_sized _ _ _ _ Hi1)) as H2.
  set (st2 := delete_empty_group _ v ga st1) in *. clearbody st2.
  assert (frame (moduleIndex hdr) v ga st st2) as H3 by by eapply frame_trans.
  destruct (fastLeave _); simpl; [|done]. eapply frame_trans; [exact H3|].
  apply frame_emit; [apply H3|]. by intros x [= ->].
Qed.

Ltac frame_handler :=
  repeat first
    [ apply frames_ret | apply frames_now | apply frames_reflush | apply frames_guard_reserved
    | apply frames_guard_limit | apply frames_guard_white | apply frames_find_group | apply frames_find_client
    | apply frames_on_client | apply frames_modify_group; intros ?; apply searchClient_addr
    | apply frames_bind; [|intros ?] ].

Lemma frame_handle G C S n hdr r st : good G C S n (moduleIndex hdr) st ->
  frame (moduleIndex hdr) (report_ip r) (report_group r) st (snd (run (handle hdr r) st)).
Proof.
  intros Hg. rewrite snd_run. destruct r; simpl; try (by eapply frame_leave);
    destruct Hg as (Hi & Hr & _); revert st Hi Hr;
    match goal with |- forall st, _ -> _ -> frame ?mi ?v ?ga st (snd (?m st)) =>
      enough (frames mi v ga m) as Hf by (intros st Hi Hr; apply Hf; [done|apply Hi]) end.
  - unfold rtk_igmp_processJoin. frame_handler.
  - unfold rtk_igmp_processIsInclude. frame_handler.
  - unfold rtk_igmp_processIsExclude. frame_handler.
  - unfold rtk_igmp_processToInclude. frame_handler.
  - unfold rtk_igmp_processToExclude. frame_handler.
  - unfold rtk_igmp_processAllow. frame_handler.
  - unfold rtk_igmp_processBlock. frame_handler.
Qed.
End Frame.

(** ** Coherence *)

Section Coherence.
Context {cfg : IgmpConfig} {fcfg : FlowConfig} {policy : AdmissionPolicy} {env : SnooperEnv}.

(** Every cached flow of a live bridge is what a fresh decision gives. *)
Definition coherent (st : snooper) : Prop :=
  forall mi k r, valid_module (db st) mi = true -> cached mi k (fd st) = Some r ->
    fresh_route mi st (stored_key k) = Some r.
(** The same, the flows of one group left out. *)
Definition coherent_but (ga : addr) (st : snooper) : Prop :=
  forall mi k r, valid_module (db st) mi = true -> fk_groupAddr (stored_key k) <> ga ->
    cached mi k (fd st) = Some r -> fresh_route mi st (stored_key k) = Some r.

Lemma coherent_is_but ga st : coherent st -> coherent_but ga st.
Proof. intros Hc mi k r Hv _. by apply Hc. Qed.

(** A cache that only lost flows stays coherent. *)
Definition shrinks (x x' : flowDb) : Prop := forall mi k r, cached mi k x' = Some r -> cached mi k x = Some r.
Lemma shrink_but ga st x : shrinks (fd st) x -> coherent_but ga st -> coherent_but ga (set_fd x st).
Proof. intros Hs Hc mi k r Hv Hg Hr. by apply (Hc mi k r Hv Hg), Hs. Qed.
Lemma shrink_coherent st x : shrinks (fd st) x -> coherent st -> coherent (set_fd x st).
Proof. intros Hs Hc mi k r Hv Hr. by apply (Hc mi k r Hv), Hs. Qed.

Lemma find_shrinks x x' :
  (forall mi k e, find_flow mi k x' = Some e -> exists e', find_flow mi k x = Some e' /\ route e' = route e) -> shrinks x x'.
Proof.
  intros Hf mi k r. unfold cached, seen. destruct (find_flow mi k x') as [e|] eqn:E; [|done].
  destruct (Hf _ _ _ E) as (e' & -> & Hr). simpl. by rewrite Hr.
Qed.

Lemma valid_module_flags x i : valid_module x i = default false (valid_flags x !! i).
Proof. unfold valid_module, valid_flags. rewrite list_lookup_fmap. by destruct (modules x !! i). Qed.

Lemma frame_valid mi v ga x x' i : frame mi v ga x x' -> valid_module x' i = valid_module x i.
Proof. intros Hf. by rewrite !valid_module_flags, (fr_valid _ _ _ _ _ Hf). Qed.

(** The decision looks at its own group only. *)
Lemma fresh_frame mi v ga x st m k :
  frame mi v ga (db st) x -> stored_addr v ga = ga -> stored_key k = k -> fk_groupAddr k <> ga ->
  fresh_route m (set_db x st) k = fresh_route m st k.
Proof.
  intros Hf Hga Hk Hne.
  assert (rtk_igmp_searchGroupEntry m (fk_ipVersion k) (fk_groupAddr k) x =
          rtk_igmp_searchGroupEntry m (fk_ipVersion k) (fk_groupAddr k) (db st)) as Es.
  { apply (fr_search _ _ _ _ _ Hf). destruct (same_group _ _ _ _ _ _) eqn:E; [|done]. exfalso.
    apply same_group_true in E as (_ & Ev & Ea). rewrite addr_match_stored in Ea. apply bool_decide_eq_true in Ea.
    apply Hne. rewrite <- Hga, Ea, <- Ev. rewrite <- Hk at 1. done. }
  assert (decided m (data_of_flow k) (set_db x st) = decided m (data_of_flow k) st) as E.
  { unfold decided, forward_set. f_equal. f_equal. f_equal. simpl. rewrite Es.
    destruct (rtk_igmp_searchGroupEntry m _ _ (db st)) as [g|]; [|done]. f_equal. apply List.filter_ext.
    intros c. unfold client_served. simpl. by rewrite (fr_now _ _ _ _ _ Hf). }
  unfold fresh_route. by rewrite E.
Qed.

(** *** Events *)

Section Events.
Context (n N : nat).

(** What the events of a handler need: the table is well-formed, no limiter is set,
    bridges are separate. *)
Record ready (st : snooper) : Prop := {
  rd_inv : flow_inv n N (fd st);
  rd_calm : calm st;
  rd_len : length (modules (db st)) = n
}.

Lemma ready_set_fd st x : ready st -> flow_inv n N x -> ready (set_fd x st).
Proof. intros [H1 H2 H3] Hx. by split. Qed.

Lemma reflush_event st ga : ready st -> separate -> all_open (Some ga) ->
  let st' := rtk_igmp_flow_reflush_update None (Some ga) st in
  ready st' /\ st' = set_fd (fd st') st /\ (coherent_but ga st -> coherent st').
Proof.
  intros [Hi Hc Hl] Hs Ho. cbv zeta. rewrite reflush_is_walk by done.
  destruct (reflush_tables_spec n N (Some ga) st (reflush_modules None (db st)) (fd st) (NoDup_seq _ _) Hi Hc Hs Ho)
    as [H1 H2].
  split; [by apply ready_set_fd|]. split; [done|]. intros Hb mi k r Hv. simpl in Hv. simpl. rewrite H2, Hv.
  rewrite bool_decide_true.
  - unfold after. destruct (cached mi k (fd st)) as [r0|] eqn:Er; [|done]. simpl. unfold refreshed.
    case_bool_decide as Hg; [done|]. intros [= <-]. apply (Hb mi k r0 Hv); [congruence|done].
  - apply elem_of_seq. unfold valid_module in Hv. destruct (modules (db st) !! mi) eqn:E; [|done].
    apply lookup_lt_Some in E. lia.
Qed.

Lemma invalidate_event st mi v ga : ready st ->
  let x := rtk_igmp_invalidateMCastGroupFlow mi v ga (fd st) in
  ready (set_fd x st) /\ shrinks (fd st) x.
Proof.
  intros Hr. destruct (invalidate_spec n N mi v ga (fd st) (rd_inv _ Hr)) as [H1 H2].
  split; [by apply ready_set_fd|]. apply find_shrinks. intros mi' k e. rewrite H2. case_match; [done|]. eauto.
Qed.

(** The events of a report, one after the other: what was coherent stays, and the
    refresh of the group makes it coherent too. *)
Lemma events_coherent es ga : separate -> all_open (Some ga) ->
  (forall x, FlowReflush x ∈ es -> x = ga) -> forall st, ready st ->
  let st' := foldl apply_event st es in
  ready st' /\ st' = set_fd (fd st') st /\
  (coherent_but ga st -> coherent_but ga st') /\ (coherent st -> coherent st') /\
  (FlowReflush ga ∈ es -> coherent_but ga st -> coherent st').
Proof.
  intros Hs Ho. induction es as [|e es IH]; intros Hes st Hr; simpl;
    [split_and!; try done; [by destruct st|set_solver]|].
  assert (forall x, FlowReflush x ∈ es -> x = ga) as Hes' by set_solver.
  assert (ready (apply_event st e) /\ apply_event st e = set_fd (fd (apply_event st e)) st /\
    (coherent_but ga st -> coherent_but ga (apply_event st e)) /\ (coherent st -> coherent (apply_event st e)) /\
    (e = FlowReflush ga -> coherent_but ga st -> coherent (apply_event st e))) as (H1 & H2 & H3 & H4 & H5).
  { destruct e as [v6 vl sv a|v6 vl sv a|mi v a|a]; simpl.
    - split_and!; try done. by apply ready_set_fd, inv_call_hw, Hr.
    - split_and!; try done. by apply ready_set_fd, inv_call_hw, Hr.
    - destruct (invalidate_event st mi v a Hr) as [H1 H2]. split_and!; try done;
        [by apply shrink_but|by apply shrink_coherent].
    - assert (a = ga) as -> by (apply Hes; left). destruct (reflush_event st ga Hr Hs Ho) as (H1 & H2 & H3).
      split_and!; auto; intros Hc; [by apply coherent_is_but, H3|by apply H3, coherent_is_but]. }
  destruct (IH Hes' _ H1) as (I1 & I2 & I3 & I4 & I5). split_and!; [done| |auto|auto|].
  { etransitivity; [exact I2|]. etransitivity; [apply (f_equal (set_fd _)), H2|]. done. }
  intros [<-|Hin]%elem_of_cons Hb; auto.
Qed.
End Events.

(** *** Packets *)

Lemma searchSource_stored v a c : rtk_igmp_searchSourceEntry v (stored_addr v a) c = rtk_igmp_searchSourceEntry v a c.
Proof. unfold rtk_igmp_searchSourceEntry. apply find_ext. intros s. unfold source_match. by destruct v. Qed.

Lemma searchGroup_stored mi v a x :
  rtk_igmp_searchGroupEntry mi v (stored_addr v a) x = rtk_igmp_searchGroupEntry mi v a x.
Proof. apply search_group_ext. by destruct v, a; simpl; rewrite ?Z.eqb_refl. Qed.

Lemma wants_copy_stored v a : wants_copy v (stored_addr v a) = wants_copy v a.
Proof.
  unfold wants_copy, rtk_igmp_checkGroupToPsTbl.
  by rewrite (find_ext (resv_hit v (stored_addr v a)) (resv_hit v a)) by (intros r; destruct v; done).
Qed.

(** The tables hold groups of the version they are searched for. *)
Lemma search_version mi v a x g : hashed x -> rtk_igmp_searchGroupEntry mi v a x = Some g -> groupIpVersion g = v.
Proof. intros Hh [Hin _]%List.find_some. apply list_elem_of_In in Hin. by apply (Hh _ _ _ _ Hin). Qed.

(** The key of a packet is all the decision uses. *)
Lemma decided_stored mi d st : hashed (db st) ->
  decided mi (data_of_flow (stored_key (key_of_data d))) st = decided mi d st.
Proof.
  intros Hh. unfold decided, forward_set, wlan_target. simpl. rewrite searchGroup_stored.
  assert (stored_addr (d_ipVersion d) (stored_addr (d_ipVersion d) (d_groupAddr d)) =
          stored_addr (d_ipVersion d) (d_groupAddr d)) as -> by by destruct (d_ipVersion d).
  destruct (rtk_igmp_searchGroupEntry mi (d_ipVersion d) (d_groupAddr d) (db st)) as [g|] eqn:Eg; [|done].
  f_equal. f_equal. f_equal. f_equal. apply List.filter_ext. intros c.
  unfold client_served, client_wants. simpl. rewrite (search_version _ _ _ _ _ Hh Eg).
  by rewrite !searchSource_stored.
Qed.

Section Packets.
Context (n N : nat).

Definition hit_fresh (mi : nat) (d : multicastDataInfo) (st : snooper) : option (egress * bool) :=
  if decide (decided mi d st = []) then None
  else Some (mk_egress (decided mi d st), wants_copy (d_ipVersion d) (d_groupAddr d)).

Lemma fresh_of_key mi d st k : hashed (db st) -> key_match (key_of_data d) k = true ->
  fresh_route mi st (stored_key k) = hit_fresh mi d st.
Proof.
  intros Hh Hk. apply key_match_true in Hk. rewrite <- Hk. unfold fresh_route, hit_fresh.
  rewrite decided_stored by done. simpl. by rewrite wants_copy_stored.
Qed.

Lemma recycle_shrinks mi now x : flow_inv n N x -> shrinks x (rtk_igmp_doMcastFlowRecycle mi now x).
Proof.
  intros Hi. destruct (recycle_spec n N mi now x Hi) as (_ & H2 & _). apply find_shrinks. intros mi' k e.
  rewrite H2. case_bool_decide; [|eauto]. destruct (find_flow mi' k x) as [e'|]; [|done]. simpl.
  case_match; [done|]. intros [= ->]. eauto.
Qed.

(** Recording a decision keeps the cache coherent. *)
Lemma record_coherent mi d f st :
  ready n N st -> hashed (db st) -> (mi < n)%nat -> coherent st ->
  egressDevInfo f = mk_egress (decided mi d st) -> copy2cpu f = wants_copy (d_ipVersion d) (d_groupAddr d) ->
  let x := snd (rtk_igmp_recordMcastFlow (db st) mi d f (fd st)) in
  flow_inv n N x /\ coherent (set_fd x st).
Proof.
  intros [Hi Hc Hl] Hh Hm Hco Ef Ec.
  destruct (record_cases n N (db st) mi d _ f (fd st) Hi Hm Ef (decided_ok _ _ _)) as [H1 [->|(y & Hy & H2)]].
  { split; [done|]. by destruct st. }
  split; [done|]. intros mi' k r Hv. simpl. rewrite H2. destruct (same_flow _ _ _ _) eqn:E.
  - apply same_flow_true in E as [-> E]. intros Hr.
    change (fresh_route mi (set_fd _ st) (stored_key k)) with (fresh_route mi st (stored_key k)).
    rewrite (fresh_of_key mi d st k Hh E). unfold hit_fresh. by rewrite <- Ec.
  - intros Hr. apply (Hco mi' k r Hv). destruct Hy as [->| ->]; [done|]. by eapply recycle_shrinks.
Qed.

(** A cache hit answers from the entry and changes nothing the observer sees. *)
Lemma cache_hit_spec mi d c2c e st x : flow_inv n N x ->
  let '(r, d', f, st') := cache_hit mi d c2c e (set_fd x st) in
  r = SUCCESS /\ egressDevInfo f = egressDevInfo (multicastFwdInfo e) /\
  exists x', st' = set_fd x' st /\ flow_inv n N x' /\ forall mi' k', cached mi' k' x' = cached mi' k' x.
Proof.
  intros Hi. unfold cache_hit. cbv zeta. split; [done|]. split; [by destruct c2c|].
  eexists. split; [done|]. simpl (fd (set_fd x st)). simpl (db (set_fd x st)).
  set (x1 := alter_flow mi _ (fun e => set_fwdPktCnt _ e) x).
  assert (flow_inv n N x1 /\ forall mi' k', cached mi' k' x1 = cached mi' k' x) as [I1 C1].
  { split; [by apply inv_alter_flow, keeps_fwdPktCnt|]. intros. by eapply cached_alter_same; [|apply keeps_fwdPktCnt|]. }
  clearbody x1. set (x2 := if DUMMY_PKT d then _ else x1).
  assert (flow_inv n N x2 /\ forall mi' k', cached mi' k' x2 = cached mi' k' x) as [I2 C2].
  { subst x2. destruct (DUMMY_PKT d); [|done]. split; [by apply inv_alter_flow, keeps_defineCnt|].
    intros. rewrite <- C1. by eapply cached_alter_same; [|apply keeps_defineCnt|]. }
  clearbody x2. destruct (SKIP_LEARNING d); [done|]. destruct (_ && _); [|done].
  match goal with |- context [announce ?a ?b ?c ?e ?f] => destruct (announce_spec n N a b c e f I2) as [I3 C3] end.
  split; [done|]. intros. by rewrite C3.
Qed.

(** A packet: whether it is answered from the cache or not, it goes where the fresh
    decision sends it, and the cache stays coherent. *)
Lemma packet_coherent mi first d st :
  ready n N st -> separate -> hashed (db st) -> (mi < n)%nat -> valid_module (db st) mi = true -> coherent st ->
  let '(r, _, f, st') := _rtk_igmp_getMulticastDataFwdInfo mi first d st in
  ready n N st' /\ db st' = db st /\ coherent st' /\
  (open_group (d_ipVersion d) (d_groupAddr d) = true ->
   r = SUCCESS /\ egressDevInfo f = mk_egress (decided mi d st)).
Proof.
  intros Hrd Hs Hh Hm Hv Hco. unfold _rtk_igmp_getMulticastDataFwdInfo. rewrite (Hs mi). simpl.
  enough (forall c2c f0, egressDevInfo f0 = no_egress -> copy2cpu f0 = c2c ->
    c2c = wants_copy (d_ipVersion d) (d_groupAddr d) ->
    let '(r, _, f, st') := cache_then_decide mi first d c2c f0 st in
    ready n N st' /\ db st' = db st /\ coherent st' /\ r = SUCCESS /\ egressDevInfo f = mk_egress (decided mi d st)) as Hd.
  { unfold __rtk_igmp_getMulticastDataFwdInfo, open_group, wants_copy in *.
    destruct (rtk_igmp_checkGroupToPsTbl _ _) as [r|] eqn:Eg; [destruct (isCopy2cpu r) eqn:Er|].
    1: specialize (Hd true (set_copy2cpu true fwdInfo0) eq_refl eq_refl eq_refl).
    3: specialize (Hd false fwdInfo0 eq_refl eq_refl eq_refl).
    1,3: destruct (cache_then_decide _ _ _ _ _ _) as [[[r0 d0] f0] st0]; destruct Hd as (? & ? & ? & ? & ?);
      split_and!; try done; intros _; split; [done|]; by destruct (_rtk_igmp_IsflowToDevInfoIsNonValidPort _).
    split_and!; done. }
  intros c2c f0 Ef0 Ec0 Ew.
  assert (forall x, flow_inv n N x -> (forall mi' k', cached mi' k' x = cached mi' k' (fd st)) ->
    let '(r, _, f, st') := decide_uncached mi d c2c f0 (set_fd x st) in
    ready n N st' /\ db st' = db st /\ coherent st' /\ r = SUCCESS /\ egressDevInfo f = mk_egress (decided mi d st)) as Hu.
  { intros x Hx Hcx. destruct (decide_calm mi d c2c f0 (set_fd x st)) as (f & -> & E1 & E2); [apply Hrd|done|].
    assert (coherent (set_fd x st)) as Hcox by (intros mi' k r Hv' Hr; apply (Hco mi' k r Hv'); by rewrite <- Hcx).
    destruct (record_coherent mi d f (set_fd x st)) as [H1 H2]; try done.
    { by apply ready_set_fd. }
    { rewrite E2, Ec0, Ew. by destruct (wants_copy _ _). }
    split_and!; try done. apply (ready_set_fd n N st); [done|exact H1]. }
  unfold cache_then_decide. destruct first; [|specialize (Hu (fd st) (rd_inv _ _ _ Hrd) (fun _ _ => eq_refl)); by destruct st].
  unfold rtk_igmp_searchMcastFlowEntry.
  destruct (find_flow mi (key_of_data d) (fd st)) as [e|] eqn:Ee;
    [|specialize (Hu (fd st) (rd_inv _ _ _ Hrd) (fun _ _ => eq_refl)); by destruct st].
  set (now := rtk_igmp_sysUpSeconds (db st)). set (x := alter_flow mi _ (set_refresh now) (fd st)).
  assert (flow_inv n N x) as Hx by (apply inv_alter_flow; [apply Hrd|apply keeps_set_refresh]).
  assert (forall mi' k', cached mi' k' x = cached mi' k' (fd st)) as Hcx
    by (intros; eapply cached_alter_same; [apply Hrd|apply keeps_set_refresh|done]).
  destruct (unknownFlood && _ && _); [by apply Hu|].
  pose proof (cache_hit_spec mi d c2c (set_refresh now e) st x Hx) as Hh'.
  destruct (cache_hit mi d c2c (set_refresh now e) (set_fd x st)) as [[[r d'] f] st'].
  destruct Hh' as (-> & Hf & x' & -> & Hix & Hcx'). split_and!; try done.
  - by apply ready_set_fd.
  - intros mi' k r Hv' Hr. apply (Hco mi' k r Hv'). rewrite <- Hcx, <- Hcx'. done.
  - rewrite Hf. simpl. assert (cached mi (key_of_data d) (fd st) = Some (route e)) as Hce
      by (unfold cached, seen; by rewrite Ee).
    pose proof (Hco mi _ _ Hv Hce) as Hfr. rewrite (fresh_of_key mi d st) in Hfr by (done || apply key_match_refl).
    unfold hit_fresh in Hfr. case_decide; [done|]. unfold route in Hfr. congruence.
Qed.
End Packets.

(** *** Reports *)

(** Groups of the same address whose clients receive the same at the time [now]. *)
Definition same_source (now : Z) (s s' : sourceEntry) : Prop :=
  sourceAddr s' = sourceAddr s /\ (now <? portTimer s') = (now <? portTimer s).
Definition same_client (now : Z) (c c' : clientEntry) : Prop :=
  inIfidx c' = inIfidx c /\ Forall2 (same_source now) (sourceList c) (sourceList c') /\
  (now <? groupFilterTimer c') = (now <? groupFilterTimer c).
Definition alike (now : Z) (g g' : groupEntry) : Prop :=
  groupAddr g' = groupAddr g /\ groupIpVersion g' = groupIpVersion g /\ Forall2 (same_client now) (clientList g) (clientList g').
Definition opt_alike (now : Z) (o o' : option groupEntry) : Prop :=
  match o, o' with Some g, Some g' => alike now g g' | None, None => True | _, _ => False end.
Definition search_alike (x x' : igmp) : Prop :=
  rtk_igmp_sysUpSeconds x' = rtk_igmp_sysUpSeconds x /\
  forall m v a, opt_alike (rtk_igmp_sysUpSeconds x) (rtk_igmp_searchGroupEntry m v a x) (rtk_igmp_searchGroupEntry m v a x').

#[local] Instance same_source_order now : PreOrder (same_source now).
Proof. split; [done|]. intros s1 s2 s3 [A1 A2] [B1 B2]. split; congruence. Qed.
#[local] Instance same_client_order now : PreOrder (same_client now).
Proof.
  split; [done|]. intros c1 c2 c3 (A1 & A2 & A3) (B1 & B2 & B3). split; [congruence|]. split; [by transitivity (sourceList c2)|congruence].
Qed.
Lemma alike_refl now g : alike now g g.
Proof. done. Qed.
Lemma alike_trans now g g' g'' : alike now g g' -> alike now g' g'' -> alike now g g''.
Proof.
  intros (A1 & A2 & A3) (B1 & B2 & B3). split; [congruence|]. split; [congruence|]. by transitivity (clientList g').
Qed.
Lemma wants_same now cares v src c c' : same_client now c c' -> client_wants cares now v src c' = client_wants cares now v src c.
Proof.
  intros (_ & Hs & Hf). unfold client_wants, rtk_igmp_searchSourceEntry. rewrite !Z.leb_antisym, Hf.
  assert (existsb (fun s => now <? portTimer s) (sourceList c') = existsb (fun s => now <? portTimer s) (sourceList c)) as ->.
  { induction Hs as [|s s' l l' [_ E] _ IH]; [done|]. simpl. by rewrite E, IH. }
  assert (match List.find (source_match v src) (sourceList c), List.find (source_match v src) (sourceList c') with
          | Some s, Some s' => same_source now s s' | None, None => True | _, _ => False end) as H.
  { induction Hs as [|s s' l l' E _ IH]; [done|]. simpl. unfold source_match in *. rewrite (proj1 E). by destruct (addr_match _ _ _). }
  by destruct (List.find _ (sourceList c)) as [s|], (List.find _ (sourceList c')) as [s'|]; try done; destruct H as [_ ->].
Qed.
Lemma search_alike_trans x y z : search_alike x y -> search_alike y z -> search_alike x z.
Proof.
  intros [A1 A2] [B1 B2]. split; [congruence|]. intros m v a. specialize (A2 m v a). specialize (B2 m v a). rewrite A1 in B2.
  destruct (rtk_igmp_searchGroupEntry m v a x), (rtk_igmp_searchGroupEntry m v a y), (rtk_igmp_searchGroupEntry m v a z); try done.
  by eapply alike_trans.
Qed.
Lemma served_alike d st g c c' x : rtk_igmp_sysUpSeconds x = rtk_igmp_sysUpSeconds (db st) ->
  same_client (rtk_igmp_sysUpSeconds (db st)) c c' -> forall g', groupIpVersion g' = groupIpVersion g ->
  client_served d (set_db x st) g' c' = client_served d st g c.
Proof.
  intros En Hc g' Eg. unfold client_served. simpl. rewrite (proj1 Hc), En, Eg.
  change (_rtk_igmp_devIfidx_to_devInfo ?i (set_db x st)) with (_rtk_igmp_devIfidx_to_devInfo i st).
  destruct (_rtk_igmp_devIfidx_to_devInfo _ st) as [di|]; [|done]. f_equal. by apply wants_same.
Qed.
Lemma fresh_alike x st m k : search_alike (db st) x -> fresh_route m (set_db x st) k = fresh_route m st k.
Proof.
  intros [En Hs]. assert (decided m (data_of_flow k) (set_db x st) = decided m (data_of_flow k) st) as E; [|unfold fresh_route; by rewrite E].
  unfold decided, forward_set. f_equal. f_equal. f_equal. simpl. specialize (Hs m (fk_ipVersion k) (fk_groupAddr k)).
  destruct (rtk_igmp_searchGroupEntry m _ _ (db st)) as [g|], (rtk_igmp_searchGroupEntry m _ _ x) as [g'|]; try done.
  destruct Hs as (_ & Ev & Hf). induction Hf as [|c c' l l' Hc Hf IH]; [done|]. simpl.
  rewrite (served_alike _ st g c c' x En Hc g' Ev). destruct (client_served _ st g c); [|done]. simpl. f_equal; [apply Hc|done].
Qed.
(** A group replaced by one that is alike. *)
Lemma find_alike now q q' f l : (forall g, List.find q l = Some g -> alike now g (f g)) ->
  (forall g g', groupAddr g' = groupAddr g -> q' g' = q' g) ->
  opt_alike now (List.find q' l) (List.find q' (update_first q f l)).
Proof.
  intros Hf Hq. induction l as [|g l IH]; [done|]. cbn [update_first List.find] in *. destruct (q g).
  - specialize (Hf g eq_refl). cbn [List.find]. rewrite (Hq g (f g)) by apply Hf. destruct (q' g); [done|].
    destruct (List.find q' l); [apply alike_refl|done].
  - cbn [List.find]. destruct (q' g); [apply alike_refl|auto].
Qed.
Lemma alike_alter_group mi v ga f x : in_range mi x -> sized x ->
  (forall g, rtk_igmp_searchGroupEntry mi v ga x = Some g -> alike (rtk_igmp_sysUpSeconds x) g (f g)) ->
  search_alike x (alter_group mi v ga f x).
Proof.
  intros Hr Hs Hf. split; [done|]. intros m v' a. unfold rtk_igmp_searchGroupEntry in *.
  destruct (decide ((m, v', hash v' a) = (mi, v, hash v ga))) as [E|Hne].
  - injection E as -> -> Eh. rewrite Eh. unfold alter_group. rewrite bucket_alter_eq by (done || apply hash_bound).
    apply find_alike; [done|]. intros g g' E. unfold group_match. by rewrite E.
  - unfold alter_group. rewrite bucket_alter_ne by done.
    destruct (List.find (group_match v' a) _); [apply alike_refl|done].
Qed.
Lemma clients_alike now q f l c : List.find q l = Some c -> same_client now c (f c) -> Forall2 (same_client now) l (update_first q f l).
Proof.
  intros Hc Hs. induction l as [|x l IH]; [done|]. simpl in *. destruct (q x).
  - injection Hc as ->. by constructor.
  - constructor; [done|auto].
Qed.
Lemma find_nonempty {A} (q : A -> bool) l x : List.find q l = Some x -> l <> [].
Proof. by intros H ->. Qed.
(** A leave without fast leave cuts the timer of a client that is known; it comes in on the
    port of the client, and leaves it some time. *)
Definition slow_leave (hdr : pktHdr) (r : report) (x : igmp) : Prop :=
  match r with
  | Leave v ca ga =>
      fastLeave (conf_of hdr v) = false /\
      rtk_igmp_sysUpSeconds x < u32 (rtk_igmp_sysUpSeconds x + lastMemberAgingInterval (conf_of hdr v)) /\
      exists c, get_client (moduleIndex hdr) v ga ca (smac hdr) x = Some c /\ inIfidx c = devIfindex hdr
  | _ => False
  end.
Lemma slow_leave_alike hdr v ca ga x : in_range (moduleIndex hdr) x -> sized x -> slow_leave hdr (Leave v ca ga) x ->
  search_alike x (snd (run (handle hdr (Leave v ca ga)) x)).
Proof.
  intros Hr Hz (Hl & Ht & c & Hc & Hp). rewrite snd_run. cbn [handle]. unfold rtk_igmp_processLeave, bind, modify. rewrite Hl. cbn [snd ret].
  set (mi := moduleIndex hdr) in *. set (now := rtk_igmp_sysUpSeconds x). unfold get_client in Hc.
  destruct (rtk_igmp_searchGroupEntry mi v ga x) as [g|] eqn:Eg; [|done]. simpl in Hc.
  set (q := client_match v ca (smac hdr)) in *.
  set (f1 := fun g => snd (rtk_igmp_searchClientEntry v g (devIfindex hdr) ca hdr)).
  assert (alike now g (f1 g)) as A1.
  { unfold f1, rtk_igmp_searchClientEntry. fold q. rewrite Hc. split; [done|]. split; [done|]. simpl.
    apply (clients_alike now q _ _ c Hc). by split. }
  assert (search_alike x (alter_group mi v ga f1 x)) as S1.
  { apply alike_alter_group; [done..|]. intros g' Hg'. rewrite Eg in Hg'. by injection Hg' as <-. }
  set (x1 := alter_group mi v ga f1 x) in *.
  assert (rtk_igmp_searchGroupEntry mi v ga x1 = Some (f1 g)) as Eg1.
  { unfold x1, alter_group, rtk_igmp_searchGroupEntry in *. rewrite bucket_alter_eq by (done || apply hash_bound).
    apply find_update_first; [done|]. apply List.find_some in Eg as [_ Eg]. unfold group_match in *. by rewrite (proj1 A1). }
  assert (List.find q (clientList (f1 g)) = Some (refresh_port (devIfindex hdr) hdr c)) as Hc1.
  { unfold f1, rtk_igmp_searchClientEntry. fold q. rewrite Hc. simpl. apply find_update_first; [done|].
    apply List.find_some in Hc as [_ Hc]. exact Hc. }
  set (c1 := refresh_port (devIfindex hdr) hdr c) in *. set (sh := leave_shrink now (lastMemberAgingInterval (conf_of hdr v))).
  set (f2 := fun g => set_clientList (update_first q sh (clientList g)) g).
  assert (same_client now c1 (sh c1)) as A2.
  { fold now in Ht. assert (forall l, Forall2 (same_source now) l
      ((fun s => if u32 (now + lastMemberAgingInterval (conf_of hdr v)) <? portTimer s
                 then set_portTimer (u32 (now + lastMemberAgingInterval (conf_of hdr v))) s else s) <$> l)) as Hsh.
    { induction l as [|s l IH]; [done|]. constructor; [|exact IH]. destruct (_ <? portTimer s) eqn:E; [|done]. bool_to_prop.
      split; [done|]. simpl. rewrite !(proj2 (Z.ltb_lt _ _)) by lia. done. }
    unfold sh, leave_shrink, same_client. cbv zeta. destruct (_ <? groupFilterTimer (set_sourceList _ c1)) eqn:E; [|by split_and!].
    bool_to_prop. cbn. split_and!; [done|apply Hsh|]. rewrite !(proj2 (Z.ltb_lt _ _)); [done| |]; cbn in E; lia. }
  assert (alike now (f1 g) (f2 (f1 g))) as A3 by (split; [done|]; split; [done|]; by apply (clients_alike now q sh _ c1)).
  assert (leave_client hdr v ca ga x = alter_group mi v ga f2 x1) as ->.
  { unfold leave_client. fold mi. rewrite Eg, Hl. fold f1. fold x1. unfold get_client. rewrite Eg1. simpl. fold q. by rewrite Hc1. }
  assert (in_range mi x1 /\ sized x1) as [Hr1 Hz1].
  { split; [|by apply sized_alter_bucket]. unfold in_range, x1, alter_group, alter_bucket. simpl. by rewrite length_alter. }
  assert (search_alike x1 (alter_group mi v ga f2 x1)) as S2.
  { apply alike_alter_group; [done..|]. intros g' Hg'. rewrite Eg1 in Hg'. by injection Hg' as <-. }
  pose proof (search_alike_trans _ _ _ S1 S2) as S3. set (x2 := alter_group mi v ga f2 x1) in *.
  assert (delete_empty_group mi v ga x2 = x2) as ->; [|done]. unfold delete_empty_group.
  destruct S3 as [_ S3]. specialize (S3 mi v ga). rewrite Eg in S3. destruct (rtk_igmp_searchGroupEntry mi v ga x2) as [g2|]; [|done].
  destruct S3 as (_ & _ & Hf). apply find_nonempty in Hc. destruct Hf; [done|]. done.
Qed.

Section Reports.
Context (G C S n N : nat).

(** The database and the cache are both well-formed. *)
Record sound (st : snooper) : Prop := {
  so_good : inv G C S (db st);
  so_ready : ready n N st
}.

Lemma fresh_same_modules x st mi k : modules x = modules (db st) ->
  rtk_igmp_sysUpSeconds x = rtk_igmp_sysUpSeconds (db st) -> fresh_route mi (set_db x st) k = fresh_route mi st k.
Proof.
  intros Em En. assert (decided mi (data_of_flow k) (set_db x st) = decided mi (data_of_flow k) st) as E.
  { unfold decided, forward_set. f_equal. f_equal. f_equal. simpl.
    unfold rtk_igmp_searchGroupEntry, bucket. rewrite Em. case_match; [|done]. f_equal. apply List.filter_ext.
    intros c. unfold client_served. simpl. by rewrite En. }
  unfold fresh_route. by rewrite E.
Qed.

(** The report ran to the refresh of its group, or left the tables as they were (refused,
    or about an unknown group or client), or was a leave that takes effect later. *)
Definition settled (hdr : pktHdr) (r : report) (st : snooper) : Prop :=
  let x := snd (run (handle hdr r) (clear_events (db st))) in
  modules x = modules (db st) \/ FlowReflush (report_group r) ∈ events x \/ slow_leave hdr r (db st).

Lemma report_coherent hdr r st :
  sound st -> separate -> (moduleIndex hdr < n)%nat -> all_open (Some (report_group r)) ->
  stored_addr (report_ip r) (report_group r) = report_group r -> settled hdr r st -> coherent st ->
  let st' := snd (with_flows (handle hdr r) st) in
  sound st' /\ coherent st' /\
  st' = set_fd (fd st') (set_db (snd (run (handle hdr r) (clear_events (db st)))) st).
Proof.
  intros [Hi Hrd] Hs Hm Ho Hcan Hset Hco. unfold settled in Hset. unfold with_flows.
  assert (good G C S n (moduleIndex hdr) (clear_events (db st))) as Hg.
  { apply (good_same G C S n (moduleIndex hdr) (db st)); [done..|]. split; [done|]. unfold in_range.
    rewrite (rd_len _ _ _ Hrd). done. }
  pose proof (frame_handle G C S n hdr r _ Hg) as Hf.
  pose proof (preserves_handle G C S n (moduleIndex hdr) hdr r eq_refl _ Hg) as Hp. rewrite <- snd_run in Hp.
  assert (slow_leave hdr r (db st) -> search_alike (db st) (snd (run (handle hdr r) (clear_events (db st))))) as Hal.
  { destruct r; try done. intros Hsl. apply (slow_leave_alike hdr _ _ _ (clear_events (db st))); [apply Hg|apply (inv_sized _ _ _ _ Hi)|done]. }
  destruct (run (handle hdr r) (clear_events (db st))) as [ret x]. simpl in *.
  destruct (fr_events _ _ _ _ _ Hf) as (es & Ees & Hes). simpl in Ees. rewrite Ees.
  destruct Hp as (Hix & _ & Hlen).
  assert (ready n N (set_db x st)) as Hrx by (destruct Hrd; by split).
  destruct (events_coherent n N es (report_group r) Hs Ho Hes (set_db x st) Hrx) as (R1 & R2 & R3 & R4 & R5).
  assert (inv G C S (db (foldl apply_event (set_db x st) es))) as Hinv by by rewrite R2.
  split; [by split|]. split; [|done]. destruct Hset as [Em|[Hin|Hsl]].
  - apply R4. intros mi k q Hv Hq. rewrite fresh_same_modules; [|done|by rewrite (fr_now _ _ _ _ _ Hf)].
    apply (Hco mi k q); [|done]. simpl in Hv. unfold valid_module in *. by rewrite <- Em.
  - apply R5; [by rewrite <- Ees|]. intros mi k q Hv Hne Hq.
    assert (coherent (set_db (clear_events (db st)) st)) as Hco1 by exact Hco.
    etransitivity; [exact (fresh_frame _ _ _ x (set_db (clear_events (db st)) st) mi (stored_key k) Hf Hcan (stored_key_idem _) Hne)|].
    apply (Hco1 mi k q); [|done]. simpl in Hv |- *. by rewrite <- (frame_valid _ _ _ _ _ mi Hf).
  - apply R4. intros mi k q Hv Hq. rewrite fresh_alike by auto. apply (Hco mi k q); [|done].
    simpl in Hv. by rewrite (frame_valid _ _ _ _ _ mi Hf) in Hv.
Qed.

Lemma sweep_shrinks mi p q now x x' :
  (forall mi' k, find_flow mi' k x' =
     if bool_decide (mi' = mi) then find_flow mi' k x ≫= swept p q now (stored_key k) else find_flow mi' k x) ->
  shrinks x x'.
Proof.
  intros Hx. apply find_shrinks. intros mi' k e. rewrite Hx. case_bool_decide; [|eauto].
  destruct (find_flow mi' k x) as [e'|]; [|done]. simpl. unfold swept. destruct (p e'); [done|].
  intros [= <-]. exists e'. split; [done|]. by destruct (q e').
Qed.

(** The cache of a freshly loaded module. *)
Definition empty_flows : flowDb :=
  FlowDb (replicate n (replicate (Z.to_nat IGMP_HASH_TBL_SIZE) [])) (seq 0 N) [].

Lemma empty_bucket mi h : flow_bucket mi h empty_flows = [].
Proof.
  unfold flow_bucket, empty_flows. simpl. destruct (decide (mi < n)%nat).
  - rewrite lookup_replicate_2 by done. simpl. destruct (decide (h < Z.to_nat IGMP_HASH_TBL_SIZE)%nat).
    + by rewrite lookup_replicate_2.
    + rewrite lookup_ge_None_2; [done|]. rewrite length_replicate. lia.
  - rewrite lookup_ge_None_2; [done|]. rewrite length_replicate. lia.
Qed.

Lemma inv_empty : flow_inv n N empty_flows.
Proof.
  split.
  - apply length_replicate.
  - apply Forall_replicate. apply length_replicate.
  - unfold cells. assert (all_flows empty_flows = []) as ->; [|by rewrite app_nil_r].
    unfold all_flows, empty_flows. simpl. clear. induction n as [|k IH]; simpl; [done|].
    rewrite concat_app, IH, app_nil_r. clear. induction (Z.to_nat IGMP_HASH_TBL_SIZE); done.
  - intros mi h e. rewrite empty_bucket. set_solver.
  - intros mi h. by rewrite empty_bucket.
Qed.

Lemma coherent_empty st : fd st = empty_flows -> coherent st.
Proof. intros E mi k r _. unfold cached, seen, find_flow. by rewrite E, empty_bucket. Qed.
End Reports.
End Coherence.
