(* ===== verification/IgmpAging.v ===== *)
(** * IgmpAging: the timer of the snooper

    The whole of [rtk_igmp_maintainMulticastSnoopingTimerList]: the uptime, the walk over
    the groups of every live bridge with the flows that are decided afresh on the way, and
    the aging of flows after it.  A flow is decided on the tables as the walk has left them
    so far, so the chain the walk is in is written back at every client: the groups before
    the current one, the current one, and those after it.

    What is proved: the memberships are left as the sweep of IgmpTimer leaves them, so
    exactly the living stay; and every cached flow is what a fresh decision gives on the
    new memberships at the new time, if the timer is not late.  Reports, packets and the
    timer together are the transition system of the snooper. *)
From S2P Require Import Prelude IgmpTable IgmpReport IgmpInvariant IgmpView IgmpTimer IgmpFlow IgmpFlowSpec IgmpFlowOps IgmpForward IgmpForwardSpec IgmpCoherence.

Section Timer.
Context {cfg : IgmpConfig} {fcfg : FlowConfig} {policy : AdmissionPolicy} {env : SnooperEnv}.

(** ** The timer *)

Definition on_db (f : igmp -> igmp) (st : snooper) : snooper := set_db (f (db st)) st.
Definition write_chain (mi : nat) (v : ip_version) (h : nat) (l : list groupEntry) : snooper -> snooper :=
  on_db (alter_bucket mi v h (fun _ => l)).

(** The walk over a group's clients; [kept]: those that stayed so far. *)
Fixpoint check_clients (mi : nat) (v : ip_version) (h : nat) (pre : list groupEntry) (g : groupEntry)
    (post : list groupEntry) (kept cl : list clientEntry) (st : snooper) : list clientEntry * snooper :=
  match cl with
  | [] => (kept, st)
  | c :: cl =>
      let '(c', n, fl) := rtk_igmp_checkClientEntryTimer igmp_sys_timer_sec (rtk_igmp_sysUpSeconds (db st)) c in
      let kept := match c' with Some c' => kept ++ [c'] | None => kept end in
      let st := write_chain mi v h (pre ++ set_clientList (kept ++ cl) g :: post) (on_db (return_entries c' n) st) in
      let st := if fl then rtk_igmp_flow_reflush_update None (Some (groupAddr g)) st else st in
      check_clients mi v h pre g post kept cl st
  end.

(** A group left without clients is deleted: its flows, its place in the chain, itself. *)
Definition rtk_igmp_checkGroupEntryTimer (mi : nat) (v : ip_version) (h : nat) (pre : list groupEntry)
    (g : groupEntry) (post : list groupEntry) (st : snooper) : option groupEntry * snooper :=
  let '(cl, st) := check_clients mi v h pre g post [] (clientList g) st in
  match cl with
  | [] =>
      let st := set_fd (rtk_igmp_invalidateMCastGroupFlow mi (groupIpVersion g) (groupAddr g) (fd st)) st in
      let st := if hwGroupDelCb (db st)
                then set_fd (call_hw (FlowGroupDelCb (is_ipv6 (groupIpVersion g)) (vlanId g) (svlanId g) (groupAddr g)) (fd st)) st
                else st in
      (None, on_db give_group (write_chain mi v h (pre ++ post) st))
  | _ => (Some (set_clientList cl g), st)
  end.

(** The walk over a chain, with [next] read before the group is checked. *)
Fixpoint check_chain (mi : nat) (v : ip_version) (h : nat) (pre gs : list groupEntry) (st : snooper) : snooper :=
  match gs with
  | [] => st
  | g :: gs =>
      let '(g', st) := rtk_igmp_checkGroupEntryTimer mi v h pre g gs st in
      check_chain mi v h (match g' with Some g' => pre ++ [g'] | None => pre end) gs st
  end.
Definition check_bucket (mi : nat) (v : ip_version) (st : snooper) (h : nat) : snooper :=
  check_chain mi v h [] (bucket mi v h (db st)) st.
Definition check_table (mi : nat) (v : ip_version) (st : snooper) : snooper :=
  foldl (check_bucket mi v) st (seq 0 (Z.to_nat IGMP_HASH_TBL_SIZE)).
(** One bridge: its groups, then its flows. *)
Definition check_module (st : snooper) (mi : nat) : snooper :=
  if valid_module (db st) mi then
    let st := check_table mi IP_VERSION6 (check_table mi IP_VERSION4 st) in
    let st := rtk_igmp_agingMcastFlow mi st in
    if unknownFlood then rtk_igmp_deleteUnknownFloodMacstFlow mi st else st
  else st.

Definition rtk_igmp_maintainMulticastSnoopingTimerList (currentSystemTime : Z) (st : snooper) : snooper :=
  let st := on_db (set_uptime currentSystemTime) st in
  foldl check_module st (seq 0 (length (modules (db st)))).

(** ** Decisions and flows leave the memberships alone *)

Lemma decide_db mi d c2c f st : egressDevInfo f = no_egress ->
  db (snd (decide_uncached mi d c2c f st)) = db st.
Proof.
  intros Ef. pose proof (decide_uncached_spec mi d c2c f st Ef) as H.
  destruct (decide_uncached mi d c2c f st) as [[[r d'] f'] st']. apply H.
Qed.
Lemma get_one_db mi d st : db (snd (__rtk_igmp_getMulticastDataFwdInfo mi false d fwdInfo0 st)) = db st.
Proof.
  unfold __rtk_igmp_getMulticastDataFwdInfo, cache_then_decide.
  destruct (rtk_igmp_checkGroupToPsTbl _ _) as [r|]; [destruct (isCopy2cpu r)|]; [by apply decide_db|done|by apply decide_db].
Qed.
Lemma combine_db ms cid r d f st : db (snd (combine_bridges ms cid false r d f st)) = db st.
Proof.
  revert r d f st. induction ms as [|i ms IH]; intros r d f st; [done|]. cbn [combine_bridges].
  destruct (_ && _); [|apply IH]. pose proof (get_one_db i d st) as H.
  destruct (__rtk_igmp_getMulticastDataFwdInfo i false d fwdInfo0 st) as [[[r1 d1] t1] st1]. cbn [snd] in H.
  destruct (_ =? _); [by rewrite IH|done].
Qed.
Lemma get_db mi d st : db (snd (_rtk_igmp_getMulticastDataFwdInfo mi false d st)) = db st.
Proof.
  unfold _rtk_igmp_getMulticastDataFwdInfo. destruct (_ =? _).
  - pose proof (get_one_db mi d st) as H. by destruct (__rtk_igmp_getMulticastDataFwdInfo mi false d fwdInfo0 st) as [[[r1 d1] t1] st1].
  - pose proof (combine_db (seq 0 (length (modules (db st)))) (combineId (bridge_of mi)) FAIL d fwdInfo0 st) as H.
    by destruct (combine_bridges _ _ _ _ _ _ _) as [[[r1 d1] t1] st1].
Qed.
Lemma reflush_flow_db mi e st : db (reflush_flow mi e st) = db st.
Proof.
  unfold reflush_flow. pose proof (get_db mi (data_of_flow (flowId e)) st) as H.
  destruct (_rtk_igmp_getMulticastDataFwdInfo _ _ _ _) as [[[r d] f] st1]. cbn [snd] in H.
  destruct (in_cell _ _); [|done]. by destruct (_ && _ && _).
Qed.
Lemma fold_db {A} (f : snooper -> A -> snooper) l st : (forall st x, db (f st x) = db st) -> db (foldl f st l) = db st.
Proof. intros Hf. revert st. induction l as [|x l IH]; intros st; [done|]. simpl. by rewrite IH. Qed.
Lemma reflush_db mo ga st : db (rtk_igmp_flow_reflush_update mo ga st) = db st.
Proof.
  unfold rtk_igmp_flow_reflush_update, reflush_walk. apply fold_db. intros st1 m. destruct (valid_module _ _); [|done].
  apply fold_db. intros st2 h. apply fold_db. intros st3 e. destruct (flow_of_group ga e); [apply reflush_flow_db|done].
Qed.

(** ** The memberships the timer leaves *)

Lemma list_alter_twice {A} (f g : A -> A) i (l : list A) : alter f i (alter g i l) = alter (f ∘ g) i l.
Proof. revert i. induction l as [|x l IH]; intros [|i]; [done..|]. simpl. f_equal. apply IH. Qed.
Lemma alter_noop {A} (f : A -> A) i (l : list A) : (forall x, l !! i = Some x -> f x = x) -> alter f i l = l.
Proof.
  revert i. induction l as [|x l IH]; intros [|i] Hf; [done..| |]; simpl; f_equal; [by apply Hf|]. apply IH. exact Hf.
Qed.
Lemma chain_rewritten mi v h l l' x :
  alter_bucket mi v h (fun _ => l') (alter_bucket mi v h (fun _ => l) x) = alter_bucket mi v h (fun _ => l') x.
Proof.
  unfold alter_bucket, set_modules. simpl. rewrite list_alter_twice. f_equal. apply list_alter_ext; [|done]. intros m _. unfold compose.
  destruct v, m; unfold alter_table; simpl; by rewrite list_alter_twice.
Qed.
Lemma chain_same mi v h x : alter_bucket mi v h (fun _ => bucket mi v h x) x = x.
Proof.
  assert (forall (t : list (list groupEntry)) b, default [] (t !! h) = b -> alter (fun _ => b) h t = t) as Ht.
  { intros t b Hb. apply alter_noop. intros y Hy. by rewrite <- Hb, Hy. }
  destruct x. unfold alter_bucket, bucket, set_modules. simpl. f_equal. apply alter_noop. intros m Hm. rewrite Hm. simpl.
  destruct m, v; unfold alter_table, table_of; simpl; f_equal; by apply Ht.
Qed.
(** What is given back does not touch the chains. *)
Lemma chain_give mi v h l c' n x :
  alter_bucket mi v h (fun _ => l) (return_entries c' n x) = return_entries c' n (alter_bucket mi v h (fun _ => l) x).
Proof. done. Qed.

(** The walk on the whole state does to the memberships what the sweep does. *)
Lemma check_clients_db mi v h pre g post kept cl x st :
  db st = alter_bucket mi v h (fun _ => pre ++ set_clientList (kept ++ cl) g :: post) x ->
  let '(cl', st') := check_clients mi v h pre g post kept cl st in
  let '(r, x') := sweep_clients igmp_sys_timer_sec cl x in
  cl' = kept ++ r /\ db st' = alter_bucket mi v h (fun _ => pre ++ set_clientList (kept ++ r) g :: post) x'.
Proof.
  revert kept x st. induction cl as [|c cl IH]; intros kept x st E; [cbn; by rewrite app_nil_r in *|]. cbn [check_clients sweep_clients].
  assert (rtk_igmp_sysUpSeconds (db st) = rtk_igmp_sysUpSeconds x) as En by by rewrite E.
  rewrite En. destruct (rtk_igmp_checkClientEntryTimer _ _ c) as [[c' n] fl].
  set (kept' := match c' with Some c' => kept ++ [c'] | None => kept end).
  match goal with |- context [check_clients mi v h pre g post kept' cl ?s] => set (st1 := s) end.
  assert (db st1 = alter_bucket mi v h (fun _ => pre ++ set_clientList (kept' ++ cl) g :: post) (return_entries c' n x)) as E1.
  { transitivity (alter_bucket mi v h (fun _ => pre ++ set_clientList (kept' ++ cl) g :: post) (return_entries c' n (db st))).
    - subst st1. destruct fl; [by rewrite reflush_db|done].
    - rewrite E. rewrite <- chain_give. apply chain_rewritten. }
  clearbody st1. specialize (IH kept' _ _ E1).
  destruct (check_clients mi v h pre g post kept' cl st1) as [cl' st'], (sweep_clients _ cl (return_entries c' n x)) as [r x'].
  destruct IH as [-> E2]. unfold kept' in *. destruct c' as [c'|]; [|done]. by rewrite <- !app_assoc in *.
Qed.
Lemma set_same_clients g : set_clientList (clientList g) g = g.
Proof. by destruct g. Qed.
Lemma check_chain_db mi v h pre gs x st : db st = alter_bucket mi v h (fun _ => pre ++ gs) x ->
  let '(r, x') := sweep_groups igmp_sys_timer_sec gs x in
  db (check_chain mi v h pre gs st) = alter_bucket mi v h (fun _ => pre ++ r) x'.
Proof.
  revert pre x st. induction gs as [|g gs IH]; intros pre x st E; [done|]. cbn [check_chain sweep_groups].
  unfold rtk_igmp_checkGroupEntryTimer, sweep_group.
  pose proof (check_clients_db mi v h pre g gs [] (clientList g) x st) as Hc. cbn [app] in Hc. rewrite set_same_clients in Hc.
  specialize (Hc E). destruct (check_clients mi v h pre g gs [] (clientList g) st) as [cl st1].
  destruct (sweep_clients _ (clientList g) x) as [r x1]. destruct Hc as [-> E1]. destruct r as [|c r].
  - match goal with |- context [check_chain mi v h pre gs ?s] => set (st2 := s) end.
    assert (db st2 = alter_bucket mi v h (fun _ => pre ++ gs) (give_group x1)) as E2.
    { transitivity (alter_bucket mi v h (fun _ => pre ++ gs) (give_group (db st1))).
      - subst st2. by destruct (hwGroupDelCb _).
      - rewrite E1. change (give_group (alter_bucket ?a ?b ?c ?d ?e)) with (alter_bucket a b c d (give_group e)).
        apply chain_rewritten. }
    specialize (IH pre _ st2 E2). by destruct (sweep_groups _ gs (give_group x1)) as [r x'].
  - specialize (IH (pre ++ [set_clientList (c :: r) g]) x1 st1). rewrite <- app_assoc in IH. specialize (IH E1).
    destruct (sweep_groups _ gs x1) as [r' x']. by rewrite <- app_assoc in IH.
Qed.
Lemma check_bucket_db mi v st h : db (check_bucket mi v st h) = sweep_bucket igmp_sys_timer_sec mi v h (db st).
Proof.
  unfold check_bucket, sweep_bucket. pose proof (check_chain_db mi v h [] (bucket mi v h (db st)) (db st) st) as H.
  specialize (H (eq_sym (chain_same mi v h (db st)))). by destruct (sweep_groups _ _ (db st)) as [r x'].
Qed.
Lemma fold_both {A} (f : snooper -> A -> snooper) (g : igmp -> A -> igmp) l st :
  (forall st x, db (f st x) = g (db st) x) -> db (foldl f st l) = foldl g (db st) l.
Proof. intros Hf. revert st. induction l as [|x l IH]; intros st; [done|]. simpl. by rewrite IH, Hf. Qed.
Lemma check_table_db mi v st : db (check_table mi v st) = sweep_table igmp_sys_timer_sec mi v (db st).
Proof. apply (fold_both _ (fun x h => sweep_bucket igmp_sys_timer_sec mi v h x)). intros. apply check_bucket_db. Qed.
Lemma check_module_db st mi : db (check_module st mi) = sweep_module igmp_sys_timer_sec (db st) mi.
Proof.
  unfold check_module, sweep_module, valid_module. destruct (modules (db st) !! mi) as [m|]; [|done]. destruct (validBit m); [|done].
  transitivity (db (check_table mi IP_VERSION6 (check_table mi IP_VERSION4 st))); [by destruct unknownFlood|].
  by rewrite !check_table_db.
Qed.
Lemma maintain_db cur st :
  db (rtk_igmp_maintainMulticastSnoopingTimerList cur st) = sweep_memberships igmp_sys_timer_sec cur (db st).
Proof. apply (fold_both _ (sweep_module igmp_sys_timer_sec)). intros. apply check_module_db. Qed.

(** ** Flows on the way

    The cache is coherent on a set of flows, which grows along the walk. *)

Definition coherent_on (P : nat -> flowKey -> Prop) (st : snooper) : Prop :=
  forall mi k r, valid_module (db st) mi = true -> P mi k -> cached mi k (fd st) = Some r ->
    fresh_route mi st (stored_key k) = Some r.
Definition group_key (ga : addr) (k : flowKey) : Prop := fk_groupAddr (stored_key k) = ga.
Definition plus (P : nat -> flowKey -> Prop) (Q : addr -> Prop) (mi : nat) (k : flowKey) : Prop :=
  P mi k \/ Q (fk_groupAddr (stored_key k)).

Lemma on_weaken (P Q : nat -> flowKey -> Prop) st : (forall mi k, Q mi k -> P mi k) -> coherent_on P st -> coherent_on Q st.
Proof. intros H Hc mi k r Hv Hq. apply Hc; auto. Qed.
Lemma on_shrink P st x : shrinks (fd st) x -> coherent_on P st -> coherent_on P (set_fd x st).
Proof. intros Hs Hc mi k r Hv Hp Hr. by apply (Hc mi k r Hv Hp), Hs. Qed.
Lemma on_call P st e : coherent_on P st -> coherent_on P (set_fd (call_hw e (fd st)) st).
Proof. done. Qed.

Context (n N : nat).

Lemma on_reflush P ga st : ready n N st -> separate -> all_open (Some ga) ->
  let st' := rtk_igmp_flow_reflush_update None (Some ga) st in
  ready n N st' /\
  (coherent_on (fun mi k => P mi k /\ ~ group_key ga k) st -> coherent_on (plus P (fun a => a = ga)) st').
Proof.
  intros [Hi Hc Hl] Hs Ho. cbv zeta. rewrite reflush_is_walk by done.
  destruct (reflush_tables_spec n N (Some ga) st (reflush_modules None (db st)) (fd st) (NoDup_seq _ _) Hi Hc Hs Ho)
    as [H1 H2].
  split; [by apply ready_set_fd|]. intros Hb mi k r Hv Hp. simpl in Hv. simpl. rewrite H2, Hv.
  rewrite bool_decide_true.
  - unfold after. destruct (cached mi k (fd st)) as [r0|] eqn:Er; [|done]. simpl. unfold refreshed.
    case_bool_decide as Hg; [done|]. intros [= <-]. destruct Hp as [Hp|Hp]; [|done].
    apply (Hb mi k r0 Hv); [|done]. split; [done|]. intros Hk. by apply Hg.
  - apply elem_of_seq. unfold valid_module in Hv. destruct (modules (db st) !! mi) eqn:E; [|done].
    apply lookup_lt_Some in E. simpl. lia.
Qed.

(** A chain whose groups changed at one address: the decisions of other groups stay. *)
Lemma fresh_search x st m k : rtk_igmp_sysUpSeconds x = rtk_igmp_sysUpSeconds (db st) ->
  rtk_igmp_searchGroupEntry m (fk_ipVersion k) (fk_groupAddr k) x =
  rtk_igmp_searchGroupEntry m (fk_ipVersion k) (fk_groupAddr k) (db st) ->
  fresh_route m (set_db x st) k = fresh_route m st k.
Proof.
  intros En Es. assert (decided m (data_of_flow k) (set_db x st) = decided m (data_of_flow k) st) as E.
  { unfold decided, forward_set. f_equal. f_equal. f_equal. simpl. rewrite Es.
    destruct (rtk_igmp_searchGroupEntry m _ _ (db st)) as [g|]; [|done]. f_equal. apply List.filter_ext.
    intros c. unfold client_served. simpl. by rewrite En. }
  unfold fresh_route. by rewrite E.
Qed.
Lemma find_middle {A} (q : A -> bool) (l1 l2 : list A) x : q x = false -> List.find q (l1 ++ x :: l2) = List.find q (l1 ++ l2).
Proof. intros Hq. induction l1 as [|y l1 IH]; simpl; [by rewrite Hq|]. by destruct (q y). Qed.

(** What the walk of a chain may rely on: the bridge is there, and the groups of the chain
    are canonical and open. *)
Definition tame_group (v : ip_version) (g : groupEntry) : Prop :=
  groupIpVersion g = v /\ stored_addr v (groupAddr g) = groupAddr g /\ all_open (Some (groupAddr g)).
Record in_chain (mi : nat) (v : ip_version) (h : nat) (l : list groupEntry) (st : snooper) : Prop := {
  ic_ready : ready n N st;
  ic_sized : sized (db st);
  ic_range : in_range mi (db st);
  ic_hash : (h < Z.to_nat IGMP_HASH_TBL_SIZE)%nat;
  ic_bucket : bucket mi v h (db st) = l;
  ic_tame : Forall (tame_group v) l }.

Lemma stored_group v k g : fk_ipVersion k = v -> stored_key k = k -> tame_group v g -> addr_match v (fk_groupAddr k) (groupAddr g) = true ->
  fk_groupAddr k = groupAddr g.
Proof.
  intros <- Hk (_ & Hc & _) Hm. rewrite addr_match_stored in Hm. apply bool_decide_eq_true in Hm.
  rewrite <- Hc, <- Hm. rewrite <- Hk at 1. done.
Qed.
(** Rewriting the chain at one group. *)
Lemma fresh_chain mi v h pre g post (o : option groupEntry) (f : igmp -> igmp) st m k :
  (forall x, modules (f x) = modules x /\ rtk_igmp_sysUpSeconds (f x) = rtk_igmp_sysUpSeconds x) ->
  in_chain mi v h (pre ++ g :: post) st ->
  (forall g', o = Some g' -> groupAddr g' = groupAddr g) -> stored_key k = k ->
  ~ (m = mi /\ fk_ipVersion k = v /\ fk_groupAddr k = groupAddr g) ->
  fresh_route m (write_chain mi v h (pre ++ match o with Some g' => g' :: post | None => post end) (on_db f st)) k = fresh_route m st k.
Proof.
  intros Hf [_ Hs Hr Hh Hb Ht] Ho Hk Hne. destruct (Hf (db st)) as [Em En].
  assert (forall m' v' h', bucket m' v' h' (f (db st)) = bucket m' v' h' (db st)) as Ef by (intros; unfold bucket; by rewrite Em).
  assert (sized (f (db st)) /\ in_range mi (f (db st))) as [Hs1 Hr1].
  { split; [by eapply sized_modules_eq|]. by unfold in_range; rewrite Em. }
  apply (fresh_search _ st m k); [done|]. unfold rtk_igmp_searchGroupEntry.
  destruct (decide ((m, fk_ipVersion k, hash (fk_ipVersion k) (fk_groupAddr k)) = (mi, v, h))) as [E|E];
    [|by rewrite bucket_alter_ne, Ef].
  injection E as -> Ev Eh. rewrite Ev, Eh in *. rewrite bucket_alter_eq, Hb by done.
  assert (group_match v (fk_groupAddr k) g = false) as Hg.
  { destruct (group_match v (fk_groupAddr k) g) eqn:Eg; [|done]. exfalso. apply Hne. split_and!; try done.
    apply (stored_group v k g); try done. apply Forall_app in Ht as [_ Ht]. by apply Forall_cons in Ht as [Ht _]. }
  rewrite (find_middle _ pre post g Hg). destruct o as [g'|]; [|done]. apply find_middle.
  unfold group_match in *. by rewrite (Ho g').
Qed.

(** *** Clients *)

Definition flagged (now : Z) (c : clientEntry) : bool := snd (rtk_igmp_checkClientEntryTimer igmp_sys_timer_sec now c).

(** A client whose flows are not decided afresh stays as it is. *)
Lemma sources_unflagged now c l : let '(l', ch, m) := check_sources now c l in ch = false ->
  l' = l /\ m = 0%nat /\ Forall (fun s => now < portTimer s /\ fwdState s = true \/
                               portTimer s <= now /\ now < groupFilterTimer c /\ fwdState s = false) l.
Proof.
  induction l as [|s l IH]; [done|]. cbn [check_sources]. destruct (check_sources now c l) as [[r ch'] m].
  unfold rtk_igmp_checkSourceTimer. destruct (portTimer s <=? now) eqn:E; [destruct (groupFilterTimer c <=? now) eqn:Ef|];
    bool_to_prop; cbn [orb]; [done|..]; intros [Es%negb_false_iff%eqb_prop ->]%orb_false_elim;
    destruct (IH eq_refl) as (-> & -> & H); (split; [f_equal; destruct s; simpl in *; by subst|]); (split; [done|]);
    constructor; [right|done|left|done]; done.
Qed.
Lemma client_unflagged now c c' m : rtk_igmp_checkClientEntryTimer igmp_sys_timer_sec now c = (c', m, false) ->
  c' = Some c /\ m = 0%nat /\ (now < groupFilterTimer c \/ igmp_sys_timer_sec < u32 (now - groupFilterTimer c)) /\
  Forall (fun s => now < portTimer s /\ fwdState s = true \/
                   portTimer s <= now /\ now < groupFilterTimer c /\ fwdState s = false) (sourceList c).
Proof.
  unfold rtk_igmp_checkClientEntryTimer. pose proof (sources_unflagged now c (sourceList c)) as H.
  destruct (check_sources now c (sourceList c)) as [[l ch] k].
  destruct (rtk_igmp_getClientFwdIfIdx (set_sourceList l c) now) as [i|] eqn:Ei; intros [= <- <- Hf];
    apply orb_false_elim in Hf as [Hf ->]; apply orb_false_elim in Hf as [Hf Hc]; apply orb_false_elim in Hf as [_ Hn];
    [|discriminate Hn].
  destruct (H eq_refl) as (-> & -> & Hs). split_and!; try done; [by destruct c|].
  apply andb_false_iff in Hc as [Hc|Hc]; bool_to_prop; [left|right]; lia.
Qed.

(** What a walk keeps: the time, the live bridges, the other chains. *)
Record walk_env (mi : nat) (v : ip_version) (h : nat) (st st' : snooper) : Prop := {
  we_now : rtk_igmp_sysUpSeconds (db st') = rtk_igmp_sysUpSeconds (db st);
  we_valid : valid_flags (db st') = valid_flags (db st);
  we_other : forall mi' v' h', (mi', v', h') <> (mi, v, h) -> bucket mi' v' h' (db st') = bucket mi' v' h' (db st) }.
Lemma env_refl mi v h st : walk_env mi v h st st.
Proof. done. Qed.
Lemma env_trans mi v h st st' st'' : walk_env mi v h st st' -> walk_env mi v h st' st'' -> walk_env mi v h st st''.
Proof. intros [A1 A2 A3] [B1 B2 B3]. split; [congruence..|]. intros. by rewrite B3, A3. Qed.
Lemma env_fd mi v h st x : walk_env mi v h st (set_fd x st).
Proof. done. Qed.
Lemma env_write mi v h l (f : igmp -> igmp) st :
  (forall x, modules (f x) = modules x /\ rtk_igmp_sysUpSeconds (f x) = rtk_igmp_sysUpSeconds x) ->
  walk_env mi v h st (write_chain mi v h l (on_db f st)).
Proof.
  intros Hf. destruct (Hf (db st)) as [Em En]. split.
  - simpl. done.
  - simpl. rewrite valid_alter_bucket. unfold valid_flags. by rewrite Em.
  - intros mi' v' h' Hne. simpl. rewrite bucket_alter_ne by done. unfold bucket. by rewrite Em.
Qed.
(** The chain after a write. *)
Lemma chain_write mi v h l l' (f : igmp -> igmp) st :
  (forall x, modules (f x) = modules x /\ rtk_igmp_sysUpSeconds (f x) = rtk_igmp_sysUpSeconds x) ->
  in_chain mi v h l st -> Forall (tame_group v) l' -> in_chain mi v h l' (write_chain mi v h l' (on_db f st)).
Proof.
  intros Hf [[Hi Hc Hn] Hs Hr Hh Hb Ht] Ht'. destruct (Hf (db st)) as [Em En].
  assert (sized (f (db st))) as Hs1 by by eapply sized_modules_eq.
  assert (in_range mi (f (db st))) as Hr1 by by (unfold in_range; rewrite Em).
  split; try done.
  - split; [done|done|]. simpl. rewrite length_alter. by rewrite Em.
  - simpl. by apply sized_alter_bucket.
  - unfold in_range. simpl. rewrite length_alter. done.
  - simpl. by rewrite bucket_alter_eq.
Qed.
Lemma chain_fd mi v h l st x : in_chain mi v h l st -> flow_inv n N x -> in_chain mi v h l (set_fd x st).
Proof. intros [Hr Hs Hg Hh Hb Ht] Hx. split; try done. by apply (ready_set_fd n N st). Qed.

Lemma on_reflush_chain P ga mi v h l st : separate -> in_chain mi v h l st -> all_open (Some ga) ->
  let st' := rtk_igmp_flow_reflush_update None (Some ga) st in
  in_chain mi v h l st' /\ walk_env mi v h st st' /\
  (coherent_on (fun mi k => P mi k /\ ~ group_key ga k) st -> coherent_on (plus P (fun a => a = ga)) st').
Proof.
  intros Hs Hi Ho st'. destruct (on_reflush P ga st (ic_ready _ _ _ _ _ Hi) Hs Ho) as [H1 H2].
  pose proof (reflush_db None (Some ga) st) as E. fold st' in H1, H2, E. split; [|split; [|done]].
  - destruct Hi. split; rewrite ?E; done.
  - split; rewrite ?E; done.
Qed.
Lemma give_keeps c' k x : modules (return_entries c' k x) = modules x /\ rtk_igmp_sysUpSeconds (return_entries c' k x) = rtk_igmp_sysUpSeconds x.
Proof. done. Qed.
Lemma tame_clients v g cl : tame_group v g -> tame_group v (set_clientList cl g).
Proof. done. Qed.
Lemma coherent_valid P Q st st' :
  (forall mi, valid_module (db st') mi = valid_module (db st) mi) ->
  (forall mi k, Q mi k -> P mi k /\ fresh_route mi st' (stored_key k) = fresh_route mi st (stored_key k)) ->
  (forall mi k r, Q mi k -> cached mi k (fd st') = Some r -> cached mi k (fd st) = Some r) ->
  coherent_on P st -> coherent_on Q st'.
Proof.
  intros Hv Hq Hc Hco mi k r Hm Hk Hr. destruct (Hq mi k Hk) as [Hp ->]. apply Hco; [by rewrite <- Hv|done|by apply Hc].
Qed.
Lemma env_valid mi v h st st' i : walk_env mi v h st st' -> valid_module (db st') i = valid_module (db st) i.
Proof. intros He. by rewrite !valid_module_flags, (we_valid _ _ _ _ _ He). Qed.

Lemma clients_on P mi v h pre g post kept cl st : separate -> tame_group v g ->
  in_chain mi v h (pre ++ set_clientList (kept ++ cl) g :: post) st -> coherent_on P st ->
  let '(cl', st') := check_clients mi v h pre g post kept cl st in
  in_chain mi v h (pre ++ set_clientList cl' g :: post) st' /\ walk_env mi v h st st' /\
  coherent_on (plus P (fun a => a = groupAddr g /\ existsb (flagged (rtk_igmp_sysUpSeconds (db st))) cl = true)) st'.
Proof.
  intros Hs Hg. revert P kept st. induction cl as [|c cl IH]; intros P kept st Hi Hco.
  { cbn. rewrite app_nil_r in Hi. split; [done|]. split; [apply env_refl|]. eapply on_weaken; [|exact Hco]. by intros ? ? [?|[_ ?]]. }
  cbn [check_clients existsb]. set (now := rtk_igmp_sysUpSeconds (db st)).
  unfold flagged at 1. destruct (rtk_igmp_checkClientEntryTimer _ now c) as [[c' k] fl] eqn:Ec. cbn [snd].
  set (kept' := match c' with Some c' => kept ++ [c'] | None => kept end).
  set (l := pre ++ set_clientList (kept' ++ cl) g :: post). set (st1 := write_chain mi v h l (on_db (return_entries c' k) st)).
  assert (Forall (tame_group v) l) as Ht.
  { pose proof (ic_tame _ _ _ _ _ Hi) as Ht. apply Forall_app in Ht as [H1 H2]. apply Forall_cons in H2 as [_ H2].
    apply Forall_app. split; [done|]. by constructor. }
  pose proof (chain_write mi v h _ l (return_entries c' k) st (give_keeps c' k) Hi Ht) as Hi1.
  pose proof (env_write mi v h l (return_entries c' k) st (give_keeps c' k)) as He1. fold st1 in Hi1, He1.
  assert (rtk_igmp_sysUpSeconds (db st1) = now) as En1 by apply He1.
  destruct fl.
  - assert (coherent_on (fun mi k => P mi k /\ ~ group_key (groupAddr g) k) st1) as Hco1.
    { refine (coherent_valid P _ st st1 (fun i => env_valid _ _ _ _ _ i He1) _ (fun _ _ _ _ H => H) Hco).
      intros m q [Hp Hn]. split; [done|].
      refine (fresh_chain mi v h pre (set_clientList (kept ++ c :: cl) g) post (Some (set_clientList (kept' ++ cl) g))
        (return_entries c' k) st m (stored_key q) (give_keeps c' k) Hi _ (stored_key_idem _) _).
      - by intros g' [= <-].
      - intros (_ & _ & E). by apply Hn. }
    destruct (on_reflush_chain P (groupAddr g) mi v h l st1 Hs Hi1 ltac:(apply Hg)) as (Hi2 & He2 & Hco2). specialize (Hco2 Hco1).
    set (st2 := rtk_igmp_flow_reflush_update _ _ st1) in *. specialize (IH _ kept' st2 Hi2 Hco2).
    assert (rtk_igmp_sysUpSeconds (db st2) = now) as En2 by (by rewrite (we_now _ _ _ _ _ He2)). rewrite En2 in IH.
    destruct (check_clients mi v h pre g post kept' cl st2) as [cl' st']. destruct IH as (A & B & D).
    split; [done|]. split; [by do 2 (eapply env_trans; [eassumption|])|]. eapply on_weaken; [|exact D].
    intros m q [Hp|[Ha _]]; [by left; left|left; by right].
  - destruct (client_unflagged now c c' k Ec) as (-> & -> & _). subst kept'. cbn [return_entries] in *.
    assert (db st1 = db st) as E1.
    { subst st1 l. simpl. rewrite <- app_assoc. cbn [app]. rewrite <- (ic_bucket _ _ _ _ _ Hi).
      change (alter_bucket mi v h (fun _ => bucket mi v h (db st)) (set_free (freeGroups (db st)) (freeClients (db st)) (freeSources (db st)) (db st)) = db st).
      replace (set_free _ _ _ (db st)) with (db st) by (by destruct (db st)). apply chain_same. }
    assert (st1 = st) as -> by (transitivity (set_db (db st1) st); [done|]; rewrite E1; by destruct st).
    specialize (IH P (kept ++ [c]) st). rewrite <- app_assoc in IH. specialize (IH Hi Hco). fold now in IH.
    destruct (check_clients mi v h pre g post (kept ++ [c]) cl st) as [cl' st']. exact IH.
Qed.

(** *** Groups *)

(** A group one of whose clients has its flows decided afresh. *)
Definition hot (now : Z) (g : groupEntry) : bool := existsb (flagged now) (clientList g).
Lemma group_keeps x : modules (give_group x) = modules x /\ rtk_igmp_sysUpSeconds (give_group x) = rtk_igmp_sysUpSeconds x.
Proof. done. Qed.

(** A group without clients takes its flows with it. *)
Lemma deleted_on P mi v h pre g post st : in_chain mi v h (pre ++ g :: post) st -> tame_group v g -> coherent_on P st ->
  let st1 := set_fd (rtk_igmp_invalidateMCastGroupFlow mi (groupIpVersion g) (groupAddr g) (fd st)) st in
  let st2 := if hwGroupDelCb (db st1)
             then set_fd (call_hw (FlowGroupDelCb (is_ipv6 (groupIpVersion g)) (vlanId g) (svlanId g) (groupAddr g)) (fd st1)) st1
             else st1 in
  let st' := on_db give_group (write_chain mi v h (pre ++ post) st2) in
  in_chain mi v h (pre ++ post) st' /\ walk_env mi v h st st' /\ coherent_on P st'.
Proof.
  intros Hi Hg Hco st1 st2 st'. destruct (invalidate_spec n N mi (groupIpVersion g) (groupAddr g) (fd st)) as [I1 F1];
    [apply Hi|]. fold (fd st1) in *.
  assert (exists x, st2 = set_fd x st /\ flow_inv n N x /\ forall m k, find_flow m k x = find_flow m k (fd st1)) as (x & E2 & Ix & Fx).
  { subst st2 st1. destruct (hwGroupDelCb _); simpl; eexists; (split; [reflexivity|]); [|done]. split; [by apply inv_call_hw|done]. }
  assert (st' = set_fd x (write_chain mi v h (pre ++ post) (on_db give_group st))) as E by (subst st'; by rewrite E2).
  rewrite E. clear E. assert (Forall (tame_group v) (pre ++ post)) as Ht.
  { pose proof (ic_tame _ _ _ _ _ Hi) as Ht. apply Forall_app in Ht as [H1 H2]. apply Forall_cons in H2 as [_ H2]. by apply Forall_app. }
  pose proof (chain_write mi v h _ _ give_group st group_keeps Hi Ht) as Hi1.
  pose proof (env_write mi v h (pre ++ post) give_group st group_keeps) as He1. split; [by apply chain_fd|]. split; [by destruct He1; split|].
  intros m k r Hv Hp Hr. unfold cached, seen in Hr. simpl in Hr. rewrite Fx in Hr. unfold st1 in Hr. simpl in Hr. rewrite F1 in Hr.
  destruct (bool_decide (m = mi) && names_flow (groupIpVersion g) (groupAddr g) k) eqn:En; [done|].
  change (fresh_route m (set_fd x ?s) ?q) with (fresh_route m s q).
  pose proof (fresh_chain mi v h pre g post None give_group st m (stored_key k) group_keeps Hi) as Hf. simpl in Hf. etransitivity; [apply Hf|].
  - done.
  - apply stored_key_idem.
  - destruct Hg as (Eg & Hcan & _). intros (-> & Ev & Ea). rewrite bool_decide_true in En by done. unfold names_flow in En. cbn [andb] in En.
    change (fk_ipVersion (stored_key k)) with (fk_ipVersion k) in Ev.
    change (fk_groupAddr (stored_key k)) with (stored_addr (fk_ipVersion k) (fk_groupAddr k)) in Ea.
    rewrite Eg in En. rewrite bool_decide_true in En by done. cbn [andb] in En. rewrite addr_match_stored, Hcan, <- Ea, Ev in En.
    rewrite bool_decide_true, orb_true_r in En by done. done.
  - apply (Hco m k r); [|done|done]. by rewrite <- (env_valid mi v h st (write_chain mi v h (pre ++ post) (on_db give_group st)) m He1).
Qed.

Lemma group_on P mi v h pre g post st : separate -> in_chain mi v h (pre ++ g :: post) st -> coherent_on P st ->
  let '(o, st') := rtk_igmp_checkGroupEntryTimer mi v h pre g post st in
  in_chain mi v h (pre ++ match o with Some g' => g' :: post | None => post end) st' /\ walk_env mi v h st st' /\
  coherent_on (plus P (fun a => a = groupAddr g /\ hot (rtk_igmp_sysUpSeconds (db st)) g = true)) st'.
Proof.
  intros Hs Hi Hco. unfold rtk_igmp_checkGroupEntryTimer, hot.
  assert (tame_group v g) as Hg.
  { pose proof (ic_tame _ _ _ _ _ Hi) as Ht. apply Forall_app in Ht as [_ Ht]. by apply Forall_cons in Ht as [Ht _]. }
  pose proof (clients_on P mi v h pre g post [] (clientList g) st Hs Hg) as Hc. cbn [app] in Hc. rewrite set_same_clients in Hc.
  specialize (Hc Hi Hco). destruct (check_clients mi v h pre g post [] (clientList g) st) as [cl st1].
  destruct Hc as (Hi1 & He1 & Hco1). destruct cl as [|c cl]; [|done].
  destruct (deleted_on _ mi v h pre (set_clientList [] g) post st1 Hi1 Hg Hco1) as (Hi2 & He2 & Hco2).
  split; [exact Hi2|]. split; [by eapply env_trans|exact Hco2].
Qed.

Lemma chain_on P mi v h pre gs st : separate -> in_chain mi v h (pre ++ gs) st -> coherent_on P st ->
  let st' := check_chain mi v h pre gs st in
  (exists l, in_chain mi v h l st') /\ walk_env mi v h st st' /\
  coherent_on (plus P (fun a => exists g, g ∈ gs /\ a = groupAddr g /\ hot (rtk_igmp_sysUpSeconds (db st)) g = true)) st'.
Proof.
  intros Hs. revert P pre st. induction gs as [|g gs IH]; intros P pre st Hi Hco; cbn [check_chain].
  { split; [by eexists|]. split; [apply env_refl|]. eapply on_weaken; [|exact Hco].
    intros m k [Hp|(g & Hg & _)]; [done|by apply elem_of_nil in Hg]. }
  pose proof (group_on P mi v h pre g gs st Hs Hi Hco) as H1.
  destruct (rtk_igmp_checkGroupEntryTimer mi v h pre g gs st) as [o st1]. destruct H1 as (Hi1 & He1 & Hco1).
  assert (in_chain mi v h (match o with Some g' => pre ++ [g'] | None => pre end ++ gs) st1) as Hi1'.
  { destruct o; [by rewrite <- app_assoc|done]. }
  destruct (IH _ _ st1 Hi1' Hco1) as (Hi2 & He2 & Hco2). split; [done|]. split; [by eapply env_trans|].
  eapply on_weaken; [|exact Hco2]. rewrite (we_now _ _ _ _ _ He1). intros m k [Hp|(g' & Hg' & Ha & Hh)]; [left; by left|].
  apply elem_of_cons in Hg' as [->|Hg']; [left; by right|right; eauto].
Qed.

(** *** The whole walk

    A walk is a sequence of visits, each to chains of its own; [heat]: the addresses of the
    groups there whose flows are decided afresh. *)

Definition region := nat -> ip_version -> nat -> Prop.
Definition tame (x : igmp) : Prop := forall mi v h, Forall (tame_group v) (bucket mi v h x).
Lemma tame_init k G C S start : tame (init_igmp k G C S start).
Proof.
  intros mi v h. apply Forall_forall. intros g Hg. exfalso. unfold bucket in Hg. simpl in Hg.
  destruct (replicate k _ !! mi) as [m|] eqn:E; [|by apply not_elem_of_nil in Hg]. apply lookup_replicate in E as [-> _].
  simpl in Hg. destruct (_ !! h) as [l|] eqn:E; [|by apply not_elem_of_nil in Hg].
  destruct v; apply lookup_replicate in E as [-> _]; by apply not_elem_of_nil in Hg.
Qed.
Record walkable (flags : list bool) (st : snooper) : Prop := {
  wk_ready : ready n N st;
  wk_sized : sized (db st);
  wk_tame : tame (db st);
  wk_flags : valid_flags (db st) = flags }.
Record env_on (Q : region) (st st' : snooper) : Prop := {
  eo_now : rtk_igmp_sysUpSeconds (db st') = rtk_igmp_sysUpSeconds (db st);
  eo_other : forall mi v h, ~ Q mi v h -> bucket mi v h (db st') = bucket mi v h (db st) }.
Definition heat (Q : region) (x : igmp) (a : addr) : Prop :=
  exists mi v h g, Q mi v h /\ g ∈ bucket mi v h x /\ a = groupAddr g /\ hot (rtk_igmp_sysUpSeconds x) g = true.
(** What one visit to [Q] does. *)
Definition visit_ok (flags : list bool) (Q : region) (f : snooper -> snooper) : Prop :=
  forall P st, walkable flags st -> coherent_on P st ->
    walkable flags (f st) /\ env_on Q st (f st) /\ coherent_on (plus P (heat Q (db st))) (f st).

Lemma heat_other Q Q' st st' a : env_on Q' st st' -> (forall mi v h, Q mi v h -> ~ Q' mi v h) -> heat Q (db st) a -> heat Q (db st') a.
Proof.
  intros He Hd (mi & v & h & g & Hq & Hg & Ha & Hh). exists mi, v, h, g. rewrite (eo_now _ _ _ He), (eo_other _ _ _ He) by eauto. done.
Qed.
Lemma visits_ok {A} flags (Q : A -> region) (f : snooper -> A -> snooper) l : NoDup l ->
  (forall x y mi v h, Q x mi v h -> Q y mi v h -> x = y) ->
  (forall x, x ∈ l -> visit_ok flags (Q x) (fun st => f st x)) ->
  visit_ok flags (fun mi v h => exists x, x ∈ l /\ Q x mi v h) (fun st => foldl f st l).
Proof.
  intros Hn Hd Hf. induction Hn as [|x l Hx Hn IH]; intros P st Hw Hco; cbn [foldl].
  { split; [done|]. split; [done|]. eapply on_weaken; [|exact Hco].
    intros m k [Hp|(? & ? & ? & ? & (y & Hy & _) & _)]; [done|by apply elem_of_nil in Hy]. }
  destruct (Hf x (list_elem_of_here _ _) P st Hw Hco) as (Hw1 & He1 & Hco1).
  destruct (IH (fun y Hy => Hf y (list_elem_of_further _ _ _ Hy)) _ _ Hw1 Hco1) as (Hw2 & He2 & Hco2). split; [done|]. split.
  - split; [by rewrite (eo_now _ _ _ He2), (eo_now _ _ _ He1)|]. intros mi v h Hq. rewrite (eo_other _ _ _ He2), (eo_other _ _ _ He1).
    + done.
    + intros H. apply Hq. exists x. split; [apply list_elem_of_here|done].
    + intros (y & Hy & H). apply Hq. exists y. split; [by apply list_elem_of_further|done].
  - eapply on_weaken; [|exact Hco2]. intros m k [Hp|(mi & v & h & g & (y & Hy & Hq) & Hr)]; [by left; left|].
    apply elem_of_cons in Hy as [->|Hy]; [left; right; by exists mi, v, h, g|]. right.
    apply (heat_other _ (Q x) st (f st x) _ He1); [|exists mi, v, h, g; split; [by exists y|done]].
    intros mi' v' h' (z & Hz & Hq1) Hq2. by rewrite (Hd _ _ _ _ _ Hq1 Hq2) in Hz.
Qed.
Lemma visit_region flags (Q Q' : region) f : (forall mi v h, Q mi v h <-> Q' mi v h) -> visit_ok flags Q f -> visit_ok flags Q' f.
Proof.
  intros He Hf P st Hw Hco. destruct (Hf P st Hw Hco) as (H1 & [H2 H3] & H4). split; [done|]. split.
  - split; [done|]. intros mi v h Hq. apply H3. by rewrite He.
  - eapply on_weaken; [|exact H4]. intros m k [Hp|(mi & v & h & g & Hq & Hr)]; [by left|right]. exists mi, v, h, g. by rewrite He.
Qed.

Lemma bucket_visit flags mi v h : separate -> (mi < n)%nat -> (h < Z.to_nat IGMP_HASH_TBL_SIZE)%nat ->
  visit_ok flags (fun mi' v' h' => (mi', v', h') = (mi, v, h)) (fun st => check_bucket mi v st h).
Proof.
  intros Hs Hm Hh P st [Hr Hz Ht Hfl] Hco.
  assert (in_chain mi v h ([] ++ bucket mi v h (db st)) st) as Hi.
  { split; try done; [unfold in_range; by rewrite (rd_len _ _ _ Hr)|apply Ht]. }
  destruct (chain_on P mi v h [] (bucket mi v h (db st)) st Hs Hi Hco) as ((l & Hl) & [E1 E2 E3] & Hco1).
  fold (check_bucket mi v st h) in *. split; [|split].
  - split; [apply Hl|apply Hl| |by rewrite E2]. intros mi' v' h'. destruct (decide ((mi', v', h') = (mi, v, h))) as [E|E].
    + injection E as -> -> ->. rewrite (ic_bucket _ _ _ _ _ Hl). apply Hl.
    + rewrite E3 by done. apply Ht.
  - by split.
  - eapply on_weaken; [|exact Hco1]. intros m k [Hp|(mi' & v' & h' & g & [= -> -> ->] & Hg & Ha & Hh')]; [by left|right]. by exists g.
Qed.
Lemma table_visit flags mi v : separate -> (mi < n)%nat ->
  visit_ok flags (fun mi' v' h' => mi' = mi /\ v' = v /\ (h' < Z.to_nat IGMP_HASH_TBL_SIZE)%nat) (check_table mi v).
Proof.
  intros Hs Hm. eapply visit_region; [|apply (visits_ok flags (fun h mi' v' h' => (mi', v', h') = (mi, v, h)))].
  - intros mi' v' h'. cbv beta. split.
    + intros (h & Hh & [= -> -> ->]). apply elem_of_seq in Hh. split_and!; [done..|lia].
    + intros (-> & -> & Hh). exists h'. split; [apply elem_of_seq; lia|done].
  - apply NoDup_seq.
  - intros h1 h2 mi' v' h' [= _ _ ->] [= _ _ ->]. done.
  - intros h Hh. apply elem_of_seq in Hh. apply bucket_visit; [done..|lia].
Qed.

Lemma walkable_fd flags st x : walkable flags st -> flow_inv n N x -> walkable flags (set_fd x st).
Proof. intros [H1 H2 H3 H4] Hx. split; try done. by apply (ready_set_fd n N st). Qed.
(** The aging of flows only takes flows away. *)
Lemma visit_then flags Q f g : visit_ok flags Q f ->
  (forall st, walkable flags st -> exists x, g st = set_fd x st /\ flow_inv n N x /\ shrinks (fd st) x) ->
  visit_ok flags Q (fun st => g (f st)).
Proof.
  intros Hf Hg P st Hw Hco. destruct (Hf P st Hw Hco) as (H1 & H2 & H3). destruct (Hg _ H1) as (x & -> & Hx & Hsh).
  split; [by apply walkable_fd|]. split; [by destruct H2|by apply on_shrink].
Qed.
Lemma module_visit flags mi : separate -> (mi < n)%nat ->
  visit_ok flags (fun mi' v h => mi' = mi /\ flags !! mi = Some true /\ (h < Z.to_nat IGMP_HASH_TBL_SIZE)%nat)
    (fun st => check_module st mi).
Proof.
  intros Hs Hm P st Hw Hco. unfold check_module. rewrite valid_module_flags, (wk_flags _ _ Hw).
  destruct (flags !! mi) as [[]|] eqn:Ef; cbn [default].
  2,3: (split; [done|]; split; [done|]; eapply on_weaken; [|exact Hco]; intros m k [Hp|(? & ? & ? & ? & (_ & [=] & _) & _)]; done).
  assert (visit_ok flags (fun mi' v h => mi' = mi /\ Some true = Some true /\ (h < Z.to_nat IGMP_HASH_TBL_SIZE)%nat)
    (fun st => foldl (fun st v => check_table mi v st) st [IP_VERSION4; IP_VERSION6])) as Hv.
  { eapply visit_region; [|apply (visits_ok flags (fun v mi' v' h' => mi' = mi /\ v' = v /\ (h' < Z.to_nat IGMP_HASH_TBL_SIZE)%nat))].
    - intros mi' v' h'. cbv beta. split; [intros (v & _ & -> & -> & ?); done|]. intros (-> & _ & ?). exists v'. split; [|done].
      destruct v'; [left|right; left].
    - apply (bool_decide_unpack (NoDup [IP_VERSION4; IP_VERSION6])). by vm_compute.
    - intros v1 v2 mi' v' h' (_ & -> & _) (_ & -> & _). done.
    - intros v _. by apply table_visit. }
  refine (visit_then flags _ _ (fun st => let st := rtk_igmp_agingMcastFlow mi st in
    if unknownFlood then rtk_igmp_deleteUnknownFloodMacstFlow mi st else st) Hv _ P st Hw Hco).
  intros st1 Hw1. destruct (aging_spec n N mi st1) as (x & E & Hx & Fx); [apply Hw1|]. cbv zeta. rewrite E.
  assert (shrinks (fd st1) x) as Hsh by by eapply sweep_shrinks. destruct unknownFlood; [|by exists x].
  destruct (deleteUnknown_spec n N mi (set_fd x st1) Hx) as (y & E' & Hy & Fy). exists y. rewrite E'. split; [done|]. split; [done|].
  assert (shrinks x y) as Hsh' by by eapply sweep_shrinks. intros m k r Hr. by apply Hsh, Hsh'.
Qed.
Lemma modules_visit flags : separate ->
  visit_ok flags (fun mi v h => (mi < n)%nat /\ flags !! mi = Some true /\ (h < Z.to_nat IGMP_HASH_TBL_SIZE)%nat)
    (fun st => foldl check_module st (seq 0 n)).
Proof.
  intros Hs. eapply visit_region; [|apply (visits_ok flags
    (fun mi mi' v h => mi' = mi /\ flags !! mi = Some true /\ (h < Z.to_nat IGMP_HASH_TBL_SIZE)%nat))].
  - intros mi v h. cbv beta. split; [intros (m & Hm & -> & ?); apply elem_of_seq in Hm; split; [lia|done]|].
    intros (Hm & ?). exists mi. split; [apply elem_of_seq; lia|done].
  - apply NoDup_seq.
  - intros m1 m2 mi v h (-> & _) (-> & _). done.
  - intros mi Hm. apply elem_of_seq in Hm. apply module_visit; [done|lia].
Qed.

(** *** The new time *)

(** The timer comes at most its period after the one before, and a source whose time ran
    out in between, while its client was and stays in exclude mode, had been seen running
    by a walk. *)
Definition timely (cur : Z) (st : snooper) : Prop :=
  let old := rtk_igmp_sysUpSeconds (db st) in
  let now := rtk_igmp_sysUpSeconds (set_uptime cur (db st)) in
  old <= now <= old + igmp_sys_timer_sec /\ is_u32 igmp_sys_timer_sec /\
  forall mi v h g c s, g ∈ bucket mi v h (db st) -> c ∈ clientList g -> s ∈ sourceList c ->
    old < portTimer s <= now -> now < groupFilterTimer c -> fwdState s = true.

(** The same, decided. *)
Definition every_source (p : clientEntry -> sourceEntry -> bool) (x : igmp) : bool :=
  forallb (fun m => forallb (fun v => forallb (forallb (fun g => forallb (fun c =>
    forallb (p c) (sourceList c)) (clientList g))) (table_of v m)) [IP_VERSION4; IP_VERSION6]) (modules x).
Definition timelyb (cur : Z) (st : snooper) : bool :=
  let old := rtk_igmp_sysUpSeconds (db st) in
  let now := rtk_igmp_sysUpSeconds (set_uptime cur (db st)) in
  (old <=? now) && (now <=? old + igmp_sys_timer_sec) &&
  (0 <=? igmp_sys_timer_sec) && (igmp_sys_timer_sec <? 2 ^ 32) &&
  every_source (fun c s => implb ((old <? portTimer s) && (portTimer s <=? now) && (now <? groupFilterTimer c)) (fwdState s)) (db st).
Lemma every_source_elem p x mi v h g c s : every_source p x = true ->
  g ∈ bucket mi v h x -> c ∈ clientList g -> s ∈ sourceList c -> p c s = true.
Proof.
  unfold every_source, bucket. intros Hp Hg Hc Hs. rewrite forallb_forall in Hp.
  destruct (modules x !! mi) as [m|] eqn:Em; simpl in Hg; [|by apply not_elem_of_nil in Hg].
  destruct (table_of v m !! h) as [l|] eqn:El; simpl in Hg; [|by apply not_elem_of_nil in Hg].
  apply list_elem_of_lookup_2, list_elem_of_In, Hp in Em. rewrite forallb_forall in Em. specialize (Em v).
  apply list_elem_of_lookup_2, list_elem_of_In in El. rewrite forallb_forall in Em. apply Em in El; [|destruct v; simpl; tauto].
  rewrite forallb_forall in El. apply list_elem_of_In, El in Hg. rewrite forallb_forall in Hg.
  apply list_elem_of_In, Hg in Hc. rewrite forallb_forall in Hc. by apply list_elem_of_In, Hc in Hs.
Qed.
Lemma timelyb_timely cur st : timelyb cur st = true -> timely cur st.
Proof.
  unfold timelyb. rewrite !andb_true_iff, !Z.leb_le, Z.ltb_lt. intros [[[[H1 H2] H3] H4] H5].
  split; [lia|]. split; [unfold is_u32; lia|]. intros mi v h g c s Hg Hc Hs Hp Hn.
  pose proof (every_source_elem _ _ _ _ _ _ _ _ H5 Hg Hc Hs) as H. cbv beta in H.
  rewrite (proj2 (Z.ltb_lt _ _)), (proj2 (Z.leb_le _ _)), (proj2 (Z.ltb_lt _ _)) in H by lia. done.
Qed.

Lemma wants_later cares old now v src c : old <= now <= old + igmp_sys_timer_sec -> is_u32 igmp_sys_timer_sec ->
  flagged now c = false ->
  (forall s, s ∈ sourceList c -> old < portTimer s <= now -> now < groupFilterTimer c -> fwdState s = true) ->
  client_wants cares now v src c = client_wants cares old v src c.
Proof.
  unfold flagged. intros Ht Hu Hf Hs. destruct (rtk_igmp_checkClientEntryTimer igmp_sys_timer_sec now c) as [[c' k] fl] eqn:Ec.
  simpl in Hf. subst fl. destruct (client_unflagged now c c' k Ec) as (_ & _ & Hm & Hall). rewrite Forall_forall in Hall.
  assert (forall s, s ∈ sourceList c -> (now <? portTimer s) = (old <? portTimer s)) as Hp.
  { intros s Hin. specialize (Hs s Hin). destruct (Hall s Hin) as [[H _]|(H1 & H2 & H3)].
    - rewrite !(proj2 (Z.ltb_lt _ _)) by lia. done.
    - rewrite (proj2 (Z.ltb_ge _ _)) by lia. symmetry. apply Z.ltb_ge. destruct (Z.le_gt_cases (portTimer s) old) as [|Hlt]; [done|].
      exfalso. rewrite Hs in H3; [done|lia|lia]. }
  assert ((groupFilterTimer c <=? now) = (groupFilterTimer c <=? old)) as Hg.
  { destruct Hm as [Hm|Hm]; [rewrite !(proj2 (Z.leb_gt _ _)) by lia; done|].
    destruct (Z.le_gt_cases (groupFilterTimer c) old) as [Hle|Hlt]; [rewrite !(proj2 (Z.leb_le _ _)) by lia; done|].
    destruct (Z.le_gt_cases (groupFilterTimer c) now) as [Hle'|Hlt']; [|rewrite !(proj2 (Z.leb_gt _ _)) by lia; done].
    unfold is_u32 in Hu. rewrite u32_small in Hm by (unfold is_u32; lia). lia. }
  unfold client_wants. rewrite Hg.
  assert (forall s, rtk_igmp_searchSourceEntry v src c = Some s -> (now <? portTimer s) = (old <? portTimer s)) as Hp'.
  { intros s [Hin _]%List.find_some. apply Hp. by apply list_elem_of_In. }
  destruct cares.
  - destruct (rtk_igmp_searchSourceEntry v src c) as [s|]; [by rewrite Hp'|done].
  - destruct (groupFilterTimer c <=? old); [|done]. clear -Hp. induction (sourceList c) as [|s l IH]; [done|]. simpl.
    rewrite Hp by apply list_elem_of_here. f_equal. apply IH. intros s' Hs'. apply Hp. by apply list_elem_of_further.
Qed.

(** The flows of groups none of whose clients is flagged are right at the new time. *)
Definition cold (cur : Z) (st : snooper) (mi : nat) (k : flowKey) : Prop :=
  forall g, rtk_igmp_searchGroupEntry mi (fk_ipVersion (stored_key k)) (fk_groupAddr (stored_key k)) (db st) = Some g ->
    hot (rtk_igmp_sysUpSeconds (set_uptime cur (db st))) g = false.
Lemma uptime_on cur st : timely cur st -> coherent st -> coherent_on (cold cur st) (on_db (set_uptime cur) st).
Proof.
  intros (Ht & Hu & Hs) Hco mi k r Hv Hp Hr. rewrite <- (Hco mi k r Hv Hr).
  assert (decided mi (data_of_flow (stored_key k)) (on_db (set_uptime cur) st) = decided mi (data_of_flow (stored_key k)) st) as E;
    [|unfold fresh_route; by rewrite E].
  unfold decided, forward_set. f_equal. f_equal. f_equal. unfold cold in Hp.
  change (rtk_igmp_searchGroupEntry mi ?v ?a (db (on_db (set_uptime cur) st))) with (rtk_igmp_searchGroupEntry mi v a (db st)).
  change (d_ipVersion (data_of_flow (stored_key k))) with (fk_ipVersion (stored_key k)).
  change (d_groupAddr (data_of_flow (stored_key k))) with (fk_groupAddr (stored_key k)).
  destruct (rtk_igmp_searchGroupEntry mi _ _ (db st)) as [g|] eqn:Eg; [|done]. specialize (Hp g eq_refl). f_equal.
  apply List.find_some in Eg as [Hg _]. apply list_elem_of_In in Hg.
  assert (forall c, c ∈ clientList g -> client_served (data_of_flow (stored_key k)) (on_db (set_uptime cur) st) g c =
    client_served (data_of_flow (stored_key k)) st g c) as Hc.
  { intros c Hc. unfold client_served. change (_rtk_igmp_devIfidx_to_devInfo ?i (on_db (set_uptime cur) st)) with (_rtk_igmp_devIfidx_to_devInfo i st).
    destruct (_rtk_igmp_devIfidx_to_devInfo _ st) as [di|]; [|done]. f_equal. apply wants_later; [done..| |].
    - unfold hot in Hp. destruct (flagged _ c) eqn:Ef; [|done]. rewrite <- Hp. symmetry. apply existsb_exists. exists c.
      split; [by apply list_elem_of_In|done].
    - intros s Hin H1 H2. exact (Hs _ _ _ g c s Hg Hc Hin H1 H2). }
  clear -Hc. induction (clientList g) as [|c l IH]; [done|]. simpl. rewrite Hc by apply list_elem_of_here.
  rewrite IH; [done|]. intros c' Hc'. apply Hc. by apply list_elem_of_further.
Qed.

(** After the timer the cache is coherent again. *)
Lemma maintain_coherent cur st : separate -> ready n N st -> sized (db st) -> tame (db st) -> timely cur st -> coherent st ->
  let st' := rtk_igmp_maintainMulticastSnoopingTimerList cur st in
  ready n N st' /\ tame (db st') /\ coherent st'.
Proof.
  intros Hs Hr Hz Ht Hti Hco st'. set (st0 := on_db (set_uptime cur) st). set (flags := valid_flags (db st)).
  assert (walkable flags st0) as Hw by (destruct Hr; by split).
  assert (st' = foldl check_module st0 (seq 0 n)) as ->.
  { unfold st', rtk_igmp_maintainMulticastSnoopingTimerList. fold st0. change (modules (db st0)) with (modules (db st)).
    by rewrite (rd_len _ _ _ Hr). }
  destruct (modules_visit flags Hs _ st0 Hw (uptime_on cur st Hti Hco)) as (Hw' & _ & Hco').
  split; [apply Hw'|]. split; [apply Hw'|]. intros mi k r Hv Hc. apply (Hco' mi k r Hv); [|done].
  destruct (rtk_igmp_searchGroupEntry mi (fk_ipVersion (stored_key k)) (fk_groupAddr (stored_key k)) (db st)) as [g|] eqn:Eg;
    [|left; intros g Hg; by rewrite Eg in Hg].
  destruct (hot (rtk_igmp_sysUpSeconds (db st0)) g) eqn:Eh; [|left; intros g' Hg'; rewrite Eg in Hg'; by injection Hg' as <-].
  apply List.find_some in Eg as [Hg Hm]. apply list_elem_of_In in Hg. right.
  exists mi, (fk_ipVersion (stored_key k)), (hash (fk_ipVersion (stored_key k)) (fk_groupAddr (stored_key k))), g.
  rewrite valid_module_flags, (wk_flags _ _ Hw') in Hv.
  destruct (flags !! mi) as [[]|] eqn:Ef; [|done|done]. split; [split_and!; [|done|apply hash_bound]|].
  - apply lookup_lt_Some in Ef. unfold flags in Ef. by rewrite valid_flags_length, (rd_len _ _ _ Hr) in Ef.
  - split; [done|]. split; [|done]. pose proof (Ht mi (fk_ipVersion (stored_key k)) (hash (fk_ipVersion (stored_key k)) (fk_groupAddr (stored_key k)))) as Htm.
    rewrite Forall_forall in Htm. apply (stored_group (fk_ipVersion (stored_key k))); [done|apply stored_key_idem|by apply Htm|done].
Qed.

(** ** The memberships *)

(** C39: the aging timer removes exactly what ran out.  It sets the uptime to the
    seconds since the start, counter overflow included, keeps the database
    consistent (nothing leaks), and leaves in every chain of every valid module
    the groups that still have a receiving client, with those clients and with
    their live sources, in the same order; invalid modules are not touched. *)
Theorem aging_leaves_exactly_the_living G C S cur st :
  is_u32 cur -> is_u32 (rtk_igmp_startTime (db st)) -> inv G C S (db st) ->
  let now := u32 (cur - rtk_igmp_startTime (db st)) in
  let st' := rtk_igmp_maintainMulticastSnoopingTimerList cur st in
  inv G C S (db st') /\ rtk_igmp_sysUpSeconds (db st') = now /\
  forall mi m v h, modules (db st) !! mi = Some m ->
    bucket mi v h (db st') = if validBit m then omap (alive_group now) (bucket mi v h (db st)) else bucket mi v h (db st).
Proof. intros Hc Hs Hi now st'. unfold st'. rewrite maintain_db. by apply sweep_memberships_spec. Qed.

(** ** The snooper as a transition system *)

(** What happens: a report, a packet with or without the cache, the sweep of idle flows,
    the sweep of flooded flows, and the timer, with which time passes. *)
Inductive step : snooper -> snooper -> Prop :=
| step_report hdr r st :
    (moduleIndex hdr < n)%nat -> all_open (Some (report_group r)) ->
    stored_addr (report_ip r) (report_group r) = report_group r -> settled hdr r st ->
    step st (snd (with_flows (handle hdr r) st))
| step_packet mi first d st :
    (mi < n)%nat -> valid_module (db st) mi = true ->
    step st (snd (_rtk_igmp_getMulticastDataFwdInfo mi first d st))
| step_age mi st : step st (rtk_igmp_agingMcastFlow mi st)
| step_unflood mi st : step st (rtk_igmp_deleteUnknownFloodMacstFlow mi st)
| step_tick cur st : timely cur st -> step st (rtk_igmp_maintainMulticastSnoopingTimerList cur st).

(** Both databases are well-formed, and the cache says what a fresh decision says. *)
Record consistent (G C S : nat) (st : snooper) : Prop := {
  cs_sound : sound G C S n N st;
  cs_tame : tame (db st);
  cs_coherent : coherent st }.

Lemma tame_report G C S hdr r st : sound G C S n N st -> tame (db st) -> (moduleIndex hdr < n)%nat ->
  all_open (Some (report_group r)) -> stored_addr (report_ip r) (report_group r) = report_group r ->
  let x := snd (run (handle hdr r) (clear_events (db st))) in inv G C S x -> tame x.
Proof.
  intros [Hi Hrd] Ht Hm Ho Hc x Hix mi v h. apply Forall_forall. intros g Hg.
  assert (good G C S n (moduleIndex hdr) (clear_events (db st))) as Hgood.
  { apply (good_same G C S n (moduleIndex hdr) (db st)); [done..|]. split; [done|]. unfold in_range. by rewrite (rd_len _ _ _ Hrd). }
  pose proof (frame_handle G C S n hdr r _ Hgood) as Hf. fold x in Hf.
  split; [apply (inv_hashed _ _ _ _ Hix _ _ _ _ Hg)|]. destruct (fr_addr _ _ _ _ _ Hf _ _ _ _ Hg) as [[-> ->]|(g0 & Hg0 & <-)]; [done|].
  pose proof (Ht mi v h) as H. rewrite Forall_forall in H. by apply H.
Qed.

Lemma step_invariant G C S st st' : separate -> step st st' -> consistent G C S st -> consistent G C S st'.
Proof.
  intros Hs Hst [[Hi Hrd] Ht Hco]. destruct Hst as [hdr r st Hm Ho Hc Hset|mi first d st Hm Hv|mi st|mi st|cur st Hti].
  - destruct (report_coherent G C S n N hdr r st) as (H1 & H2 & E); try done. split; [done| |done].
    pose proof (tame_report G C S hdr r st (Build_sound _ _ _ _ _ _ Hi Hrd) Ht Hm Ho Hc) as H. cbv zeta in H.
    rewrite E. apply H. rewrite E in H1. apply H1.
  - pose proof (packet_coherent n N mi first d st Hrd Hs (inv_hashed _ _ _ _ Hi) Hm Hv Hco) as Hp.
    destruct (_rtk_igmp_getMulticastDataFwdInfo mi first d st) as [[[r d'] f] st'].
    destruct Hp as (H1 & H2 & H3 & _). simpl. split; [split; [by rewrite H2|done]|by rewrite H2|done].
  - destruct (aging_spec n N mi st (rd_inv _ _ _ Hrd)) as (x & -> & H1 & H2).
    split; [split; [done|by apply ready_set_fd]|done|]. eapply shrink_coherent; [by eapply sweep_shrinks|done].
  - destruct (deleteUnknown_spec n N mi st (rd_inv _ _ _ Hrd)) as (x & -> & H1 & H2).
    split; [split; [done|by apply ready_set_fd]|done|]. eapply shrink_coherent; [by eapply sweep_shrinks|done].
  - destruct (maintain_coherent cur st Hs Hrd (inv_sized _ _ _ _ Hi) Ht Hti Hco) as (H1 & H2 & H3). split; [|done..]. split; [|done].
    rewrite maintain_db. by apply sweep_memberships_inv.
Qed.
Lemma steps_invariant G C S st st' : separate -> rtc step st st' -> consistent G C S st -> consistent G C S st'.
Proof. intros Hs. induction 1 as [|st st1 st2 Hst _ IH]; [done|]. intros H. by eapply IH, step_invariant. Qed.
End Timer.

(** ** Concrete runs *)

Definition timer_flow_config : FlowConfig := {|
  IGMP_MAX_DEV_NUM := 4; max_dev_num_pos := ltac:(lia);
  flowSetCbEvt := true; flowUpdateCbEvt := true; flowDelCbEvt := true;
  groupAddCbEvt := true; groupDelCbEvt := true; cleared_isIPv6 := false |}.
Definition timer_policy : AdmissionPolicy := {|
  gorup2PsList := []; rtk_igmp_group_limitCheck := fun _ _ _ _ _ => RTK_IGMP_NF_CONTINUE;
  rtk_igmp_filterWhiteListCheck := fun _ _ _ _ _ _ => true |}.
Definition timer_env : SnooperEnv := {|
  bridges := [Bridge 10 0 (Some [3])]; unknownFlood := false; trapWlanToPS := false;
  rt_igmp_userGroup_check := fun _ _ => false; rt_igmp_multicastFlow_check := fun _ => true;
  jiffies := 0; cycle_duration := 100; igmp_sys_timer_sec := 5 |}.
#[local] Existing Instance timer_config.
#[local] Existing Instance timer_flow_config.
#[local] Existing Instance timer_policy.
#[local] Existing Instance timer_env.

Definition timer_snooper : snooper := Snooper timer_state (FlowDb [[[]]] [0%nat] []) [] [].
Lemma aging_leaves_exactly_the_living_witness :
  let st' := rtk_igmp_maintainMulticastSnoopingTimerList 0x1a timer_snooper in
  rtk_igmp_sysUpSeconds (db st') = 42 /\ bucket 0 IP_VERSION4 0 (db st') = [timer_group [timer_client 1 50]].
Proof.
  destruct (aging_leaves_exactly_the_living 4 4 4 0x1a timer_snooper) as (_ & Hn & Hb);
    [vm_compute; by split|vm_compute; by split|exact timer_state_inv|].
  cbv zeta. split; [rewrite Hn; by_compute|]. rewrite (Hb 0%nat _ IP_VERSION4 0%nat eq_refl). by_compute.
Defined.
