(* ===== verification/IgmpDataPlane.v ===== *)
(** * IgmpDataPlane: the snooper as a whole

    What a user of the data plane relies on, for the models of IgmpFlow and
    IgmpForward: a packet goes to its receivers and to nobody else; the flow cache
    never changes that answer; a client that joins gets the next packet of the
    stream; the table of flows stays well-formed, evicts the right flows when it is
    full, and finds what was recorded. *)
From S2P Require Import Prelude IgmpTable IgmpReport IgmpInvariant IgmpView IgmpUnique IgmpSemantics IgmpTimer IgmpFlow IgmpFlowSpec IgmpFlowOps IgmpForward IgmpForwardSpec IgmpCoherence IgmpAging.

Section DataPlane.
Context {cfg : IgmpConfig} {fcfg : FlowConfig} {policy : AdmissionPolicy} {env : SnooperEnv}.

(** ** Helper lemmas *)

(** A client of the view is one of its group's list. *)
Lemma view_search x k c : view x k = Some c ->
  exists g, rtk_igmp_searchGroupEntry (k_mod k) (k_ver k) (k_group k) x = Some g /\ c ∈ clientList g.
Proof.
  unfold view, get_client. destruct (rtk_igmp_searchGroupEntry _ _ _ _) as [g|]; [|done]. simpl.
  intros [Hin _]%List.find_some. exists g. split; [done|]. by apply list_elem_of_In.
Qed.

Lemma mk_egress_ports p : ports_ok p -> ports_of (mk_egress p) = p.
Proof. intros. by apply ports_of_mk. Qed.

(** The decision of one bridge, with the drop flag of the entry point. *)
Definition finish_drop (f : fwdInfo) : fwdInfo :=
  if _rtk_igmp_IsflowToDevInfoIsNonValidPort (egressDevInfo f) then set_drop f else f.
Lemma finish_drop_egress f : egressDevInfo (finish_drop f) = egressDevInfo f.
Proof. unfold finish_drop. by case_match. Qed.

(** ** Theorems *)

(** C7: a multicast packet of a bridge that is not combined with others, decided without the
    cache.  A group reserved for the protocol stack goes to the stack only.  A packet of a
    group nobody joined is dropped exactly if unknown groups are flooded and one of the
    ports it would be flooded to is under a limiter of unknown multicast that refuses it
    now; then nothing is learnt.  Every other packet goes to exactly these interfaces, as
    long as they fit into the array of devices: the ports of its bridge without snooping,
    the trapped wireless device, and the interfaces of the clients that want its source
    (or, for a group nobody joined, the ports of the bridge if unknown groups are
    flooded).  The ports of the bridge are listed once each. *)
Theorem packet_goes_to_its_receivers mi d st :
  combineId (bridge_of mi) = 0 -> NoDup (ports_on mi) ->
  (length (remove_dups (forward_set mi d st)) <= IGMP_MAX_DEV_NUM)%nat ->
  let '(r, _, f, st') := _rtk_igmp_getMulticastDataFwdInfo mi false d st in
  db st' = db st /\
  (open_group (d_ipVersion d) (d_groupAddr d) = false ->
     r = FAIL /\ reservedMCast f = true /\ cpuFlag f = true /\ st' = st) /\
  (open_group (d_ipVersion d) (d_groupAddr d) = true -> flood_limited mi d st = true ->
     r = FAIL /\ dropPkt f = true /\ fd st' = fd st) /\
  (open_group (d_ipVersion d) (d_groupAddr d) = true -> flood_limited mi d st = false ->
     r = SUCCESS /\
     forall i, i ∈ ports_of (egressDevInfo f) <->
       (i ∈ ports_on mi /\ floods_always (d_ipVersion d) st i = true) \/ i ∈ wlan_target d st \/
       match rtk_igmp_searchGroupEntry mi (d_ipVersion d) (d_groupAddr d) (db st) with
       | Some g => exists c, c ∈ clientList g /\ inIfidx c = i /\ entitled d st g c
       | None => unknownFlood = true /\ i ∈ ports_on mi /\ forwards (d_ipVersion d) st i = true
       end).
Proof.
  intros Hc Hnd Hl. unfold _rtk_igmp_getMulticastDataFwdInfo. rewrite Hc. simpl.
  enough (forall c2c f0, egressDevInfo f0 = no_egress ->
    let '(r, _, f, st') := cache_then_decide mi false d c2c f0 st in
    db st' = db st /\
    (flood_limited mi d st = true -> r = FAIL /\ dropPkt (finish_drop f) = true /\ fd st' = fd st) /\
    (flood_limited mi d st = false -> r = SUCCESS /\ egressDevInfo (finish_drop f) = mk_egress (decided mi d st))) as Hd.
  { assert (forall i, i ∈ ports_of (mk_egress (decided mi d st)) <-> i ∈ forward_set mi d st) as Hp.
    { intros i. rewrite mk_egress_ports by apply decided_ok. by apply decided_spec. }
    unfold __rtk_igmp_getMulticastDataFwdInfo, open_group.
    destruct (rtk_igmp_checkGroupToPsTbl _ _) as [g|] eqn:Eg; [destruct (isCopy2cpu g) eqn:Er|].
    1: specialize (Hd true (set_copy2cpu true fwdInfo0) eq_refl).
    3: specialize (Hd false fwdInfo0 eq_refl).
    1,3: destruct (cache_then_decide _ _ _ _ _ _) as [[[r0 d0] f] st0]; fold (finish_drop f);
      destruct Hd as (Hdb & Hx & Hy); (split; [done|]); (split; [done|]); (split; [intros _; exact Hx|]); intros _ Hf;
      destruct (Hy Hf) as [-> He]; (split; [done|]); intros i; rewrite He, Hp; apply elem_forward_set.
    split; [done|]. split; [|done]. intros _. split_and!; try done; by case_match. }
  intros c2c f0 Ef. pose proof (decide_uncached_spec mi d c2c f0 st Ef) as Hs. unfold cache_then_decide.
  pose proof (decide_uncached_limited mi d c2c f0 st Hnd) as Hr.
  destruct (decide_uncached mi d c2c f0 st) as [[[r d'] f] st']. cbn [fst] in Hr. destruct Hs as (Hdb & _ & _ & Hs).
  split; [done|]. rewrite finish_drop_egress.
  destruct Hs as [(-> & He & _)|(-> & Hdrop & Hfd & Hu)]; destruct (flood_limited mi d st); try done.
  split; [|done]. intros _. split_and!; try done. unfold finish_drop. by case_match.
Qed.

(** The snooper of a freshly loaded module with [n] bridges, pools of [G] groups,
    [C] clients and [S] sources, and [N] flow entries, whose clock starts at zero; no
    device has a limiter on unknown multicast. *)
Definition loaded (G C S n N : nat) (st : snooper) : Prop :=
  db st = init_igmp n G C S 0 /\ fd st = empty_flows n N /\ calm st.

Lemma loaded_consistent G C S n N st : loaded G C S n N st -> consistent n N G C S st.
Proof.
  intros (Hd & Hf & Hc). split; [|rewrite Hd; apply tame_init|by eapply coherent_empty]. split.
  - rewrite Hd. apply inv_init.
  - split; [rewrite Hf; apply inv_empty|done|]. rewrite Hd. simpl. by rewrite length_replicate.
Qed.
Lemma reachable_consistent G C S n N st0 st :
  separate -> loaded G C S n N st0 -> rtc (step n) st0 st -> consistent n N G C S st.
Proof. intros Hs Hl Hst. eapply steps_invariant; [done..|by apply loaded_consistent]. Qed.

(** C8: however reports, packets, sweeps of idle flows, sweeps of flooded flows and ticks of
    the aging timer interleave after the module is loaded, every cached flow of a live
    bridge says what a fresh decision on the current memberships at the current time says:
    the devices and whether the stack gets a copy.  This is for bridges that are not
    combined with others and devices without a limiter on unknown multicast.  The runs
    are those of [step]: a report is for a group that is not reserved for the stack alone
    and in its canonical form, and it either reaches the refresh of its group, or leaves
    the tables as they were, or is a leave without fast leave, on the port the client is
    behind, that leaves the client some time (so it did not run out of entries halfway);
    packets come in on valid bridges; a tick comes at most the timer's period after the
    one before, the clock does not wrap in between, and a source that ran out in between
    while its client stays in exclude mode had been seen running by the tick before. *)
Theorem cache_stays_coherent G C S n N st0 st mi k e :
  separate -> loaded G C S n N st0 -> rtc (step n) st0 st ->
  valid_module (db st) mi = true -> find_flow mi k (fd st) = Some e ->
  egressDevInfo (multicastFwdInfo e) = mk_egress (decided mi (data_of_flow (stored_key k)) st) /\
  decided mi (data_of_flow (stored_key k)) st <> [] /\
  copy2cpu (multicastFwdInfo e) = wants_copy (fk_ipVersion k) (stored_addr (fk_ipVersion k) (fk_groupAddr k)).
Proof.
  intros Hs Hl Hst Hv He. destruct (reachable_consistent _ _ _ _ _ _ _ Hs Hl Hst) as [_ _ Hco].
  assert (cached mi k (fd st) = Some (route e)) as Hc by (unfold cached, seen; by rewrite He).
  pose proof (Hco mi k _ Hv Hc) as Hf. unfold fresh_route in Hf. case_decide; [done|].
  unfold route in Hf. simplify_eq. simpl in *. split_and!; congruence.
Qed.

(** C5: the cache is an optimisation and nothing else: for a packet on a valid bridge, of a
    group that is not reserved for the stack alone, asking with the cache sends it to the
    same devices as deciding without it.  This holds in every state that reports, packets,
    sweeps of flows and ticks of the aging timer lead to from a freshly loaded module whose
    bridges are not combined with others and whose devices have no limiter on unknown
    multicast, where a report is for a canonical group that is not reserved for the
    stack alone and reaches the refresh of its group, or leaves the tables as they were,
    or is a leave without fast leave on its client's port that leaves the client some
    time; and a tick comes at most the timer's period after the one before, the clock does
    not wrap in between, and a source that ran out in between while its client stays in
    exclude mode had been seen running by the tick before. *)
Theorem cached_answer_is_fresh G C S n N st0 st mi d :
  separate -> loaded G C S n N st0 -> rtc (step n) st0 st ->
  (mi < n)%nat -> valid_module (db st) mi = true -> open_group (d_ipVersion d) (d_groupAddr d) = true ->
  let '(r1, _, f1, _) := _rtk_igmp_getMulticastDataFwdInfo mi true d st in
  let '(r2, _, f2, _) := _rtk_igmp_getMulticastDataFwdInfo mi false d st in
  r1 = SUCCESS /\ r2 = SUCCESS /\ egressDevInfo f1 = egressDevInfo f2.
Proof.
  intros Hs Hl Hst Hm Hv Ho. destruct (reachable_consistent _ _ _ _ _ _ _ Hs Hl Hst) as [[Hi Hrd] _ Hco].
  pose proof (packet_coherent n N mi true d st Hrd Hs (inv_hashed _ _ _ _ Hi) Hm Hv Hco) as Ht.
  pose proof (packet_coherent n N mi false d st Hrd Hs (inv_hashed _ _ _ _ Hi) Hm Hv Hco) as Hf.
  destruct (_rtk_igmp_getMulticastDataFwdInfo mi true d st) as [[[r1 d1] f1] st1].
  destruct (_rtk_igmp_getMulticastDataFwdInfo mi false d st) as [[[r2 d2] f2] st2].
  destruct Ht as (_ & _ & _ & Ht), Hf as (_ & _ & _ & Hf).
  destruct (Ht Ho) as [-> ->], (Hf Ho) as [-> ->]. done.
Qed.

(** In every state the snooper can reach the flow table is well-formed: every
    cell of the pool is either free or in exactly one chain, every entry is in the
    chain its group hashes to, no two entries of a bridge answer the same key, and
    every entry sends somewhere. *)
Theorem reachable_flow_table G C S n N st0 st :
  separate -> loaded G C S n N st0 -> rtc (step n) st0 st ->
  rtk_igmp_mcastFlowEntryPool (fd st) ++ (flowCell <$> all_flows (fd st)) ≡ₚ seq 0 N /\
  forall mi h e, e ∈ flow_bucket mi h (fd st) ->
    h = flow_hash (flowId e) /\ find_flow mi (flowId e) (fd st) = Some e /\
    ports_of (egressDevInfo (multicastFwdInfo e)) <> [].
Proof.
  intros Hs Hl Hst. destruct (reachable_consistent _ _ _ _ _ _ _ Hs Hl Hst) as [[_ Hrd] _ _].
  pose proof (rd_inv _ _ _ Hrd) as Hi. split; [apply Hi|]. intros mi h e He.
  pose proof (fi_entry _ _ _ Hi _ _ _ He) as Hok. split_and!; [symmetry; apply Hok|by eapply find_flow_in|apply Hok].
Qed.

(** When the pool of flows is empty and the bridge has flows, recycling makes
    room: if flows of the bridge have expired exactly those go, else exactly the one
    that was used least recently; no other bridge loses a flow. *)
Theorem recycle_evicts_oldest n N mi now x :
  flow_inv n N x -> module_flows mi x <> [] ->
  let x' := rtk_igmp_doMcastFlowRecycle mi now x in
  rtk_igmp_mcastFlowEntryPool x' <> [] /\
  (forall mi' k, mi' <> mi -> find_flow mi' k x' = find_flow mi' k x) /\
  (existsb (flow_expired now) (module_flows mi x) = true -> forall k e,
     find_flow mi k x' = Some e <-> find_flow mi k x = Some e /\ flow_expired now e = false) /\
  (existsb (flow_expired now) (module_flows mi x) = false ->
     exists o, o ∈ module_flows mi x /\ Forall (fun e => refreshTime o <= refreshTime e) (module_flows mi x) /\
  forall k e, find_flow mi k x' = Some e <-> find_flow mi k x = Some e /\ flowCell e <> flowCell o).
Proof.
  intros Hi Hne x'. destruct (recycle_spec n N mi now x Hi) as (_ & Hf & Hp). fold x' in Hf, Hp.
  assert (forall k, find_flow mi k x' = find_flow mi k x ≫= fun e => if victim mi now x e then None else Some e) as Hm.
  { intros k. by rewrite Hf, bool_decide_true. }
  split; [by apply Hp|]. split; [intros mi' k Hne'; by rewrite Hf, bool_decide_false|]. unfold victim in Hm.
  split; intros Ex; rewrite Ex in Hm.
  - intros k e. rewrite Hm. destruct (find_flow mi k x) as [e'|]; simpl; [|by split; [|intros [? _]]].
    destruct (flow_expired now e') eqn:Ee; split; [done|intros [[= ->] ?]; congruence|by intros [= ->]|by intros [? _]].
  - pose proof (foldl_older_spec (module_flows mi x)) as Ho.
    destruct (foldl older None (module_flows mi x)) as [o|]; [|done]. destruct Ho as [Hin Hall].
    exists o. split; [done|]. split; [done|]. intros k e. rewrite Hm.
    destruct (find_flow mi k x) as [e'|]; simpl; [|by split; [|intros [? _]]].
    destruct (flowCell o =? flowCell e')%nat eqn:Ee; [apply Nat.eqb_eq in Ee|apply Nat.eqb_neq in Ee].
    + split; [done|]. intros [[= ->] ?]. congruence.
    + split; [intros [= ->]; split; congruence|by intros [? _]].
Qed.

(** A decision that is recorded is found again under its key, by every packet
    of the flow; it takes a cell that is free, or one that recycling frees; when a
    cell was free no other flow is touched. *)
Theorem recorded_flow_is_found n N x0 mi d p f x :
  flow_inv n N x -> (mi < n)%nat -> recordable d = true ->
  egressDevInfo f = mk_egress p -> ports_ok p -> p <> [] ->
  rtk_igmp_mcastFlowEntryPool x <> [] \/ module_flows mi x <> [] ->
  let '(r, x') := rtk_igmp_recordMcastFlow x0 mi d f x in
  r = SUCCESS /\
  (forall k, key_match (key_of_data d) k = true -> exists e, find_flow mi k x' = Some e /\
     ports_of (egressDevInfo (multicastFwdInfo e)) = p /\ copy2cpu (multicastFwdInfo e) = copy2cpu f) /\
  (rtk_igmp_mcastFlowEntryPool x <> [] -> forall mi' k, same_flow mi (key_of_data d) mi' k = false ->
     cached mi' k x' = cached mi' k x).
Proof.
  intros Hi Hm Hr Ef Hp Hn Hroom.
  enough (let out := rtk_igmp_recordMcastFlow x0 mi d f x in
    exists y, (rtk_igmp_mcastFlowEntryPool x <> [] -> y = x) /\ fst out = SUCCESS /\
    forall mi' k', cached mi' k' (snd out) =
      if same_flow mi (key_of_data d) mi' k' then Some (mk_egress p, copy2cpu f) else cached mi' k' y) as Hx.
  { destruct (rtk_igmp_recordMcastFlow x0 mi d f x) as [r x']. simpl in Hx. destruct Hx as (y & Hy & -> & Hx).
    split; [done|]. split.
    - intros k Hk. specialize (Hx mi k). unfold same_flow in Hx. rewrite bool_decide_true, Hk in Hx by done. simpl in Hx.
      unfold cached, seen in Hx. destruct (find_flow mi k x') as [e|]; [|done]. simpl in Hx. exists e.
      unfold route in Hx. simplify_eq. split_and!; try done. rewrite H. by apply mk_egress_ports.
    - intros Hpool mi' k Hk. by rewrite Hx, Hk, Hy. }
  destruct (find_flow mi (key_of_data d) x) as [e|] eqn:Ee.
  - destruct (record_found n N x0 mi d p f x e Hi Ef Hp Hr Ee) as (H1 & _ & H2). exists x.
    split; [done|]. split; [done|]. intros. rewrite H2. by rewrite decide_False.
  - destruct (record_new n N x0 mi d p f x Hi Hm Ef Hp Hn Hr Ee Hroom) as (H1 & _ & H2).
    eexists. split; [|split; [done|exact H2]]. by destruct (rtk_igmp_mcastFlowEntryPool x).
Qed.

(** Dropping a group's flows drops exactly them: the flows of that bridge whose
    group and IP version are named (every flow of the version for the zero group);
    what remains is unchanged, and the table stays well-formed. *)
Theorem invalidation_is_exact n N mi v ga x :
  flow_inv n N x ->
  let x' := rtk_igmp_invalidateMCastGroupFlow mi v ga x in
  flow_inv n N x' /\
  forall mi' k, find_flow mi' k x' =
    if bool_decide (mi' = mi) && bool_decide (fk_ipVersion k = v) && (zero_group ga || addr_match v ga (fk_groupAddr k))
    then None else find_flow mi' k x.
Proof.
  intros Hi. destruct (invalidate_spec n N mi v ga x Hi) as [H1 H2]. split; [done|]. intros mi' k.
  rewrite H2. unfold names_flow. by rewrite andb_assoc.
Qed.

(** The aging of flows removes a flow only if it was idle for the expiry time,
    none of its devices snoops, and the hardware has let it go; every other flow
    stays with its devices. *)
Theorem flow_aging_spares_live_flows n N mi st mi' k e :
  flow_inv n N (fd st) -> find_flow mi' k (fd st) = Some e ->
  let st' := rtk_igmp_agingMcastFlow mi st in
  find_flow mi' k (fd st') =
    if bool_decide (mi' = mi) && flow_expired (rtk_igmp_sysUpSeconds (db st)) e &&
       negb (existsb (snooped_device (fk_ipVersion (flowId e)) st) (ports_of (egressDevInfo (multicastFwdInfo e)))) 
    then if rt_igmp_multicastFlow_check (flow_cb e) then None else Some (set_refresh (rtk_igmp_sysUpSeconds (db st)) e)
    else Some e.
Proof.
  intros Hi He st'. destruct (aging_spec n N mi st Hi) as (x & E & _ & Hx). unfold st'. rewrite E. simpl.
  rewrite Hx, He. case_bool_decide; [|done]. simpl. unfold swept. fold (idle_flood st e).
  change (rt_igmp_multicastFlow_check (flow_cb e)) with (flood_gone e).
  by destruct (idle_flood st e), (flood_gone e).
Qed.

(** C6: end to end: after an admitted join on a valid bridge, for which the pools have room,
    the next packet of any source to the group, even one answered from the cache, goes out
    on the interface the join came in on, if that device forwards and snoops.  The group is
    canonical and not reserved for the stack alone, the uptime plus the aging interval
    does not overflow, and the interfaces the packet goes to fit into the array of devices.
    The join comes in a state that reports, packets, sweeps of flows and ticks of the aging
    timer lead to from a freshly loaded module whose bridges are not combined with others
    and whose devices have no limiter on unknown multicast, where every earlier report is
    for a canonical group that is not reserved for the stack alone and reaches the refresh
    of its group, or leaves the tables as they were, or is a leave without fast leave on
    its client's port that leaves the client some time; and every tick comes at most the
    timer's period after the one before, the clock does not wrap in between, and a source
    that ran out in between while its client stays in exclude mode had been seen running
    by the tick before. *)
Theorem joined_client_receives G C S n N st0 st hdr v ty ca ga0 d di :
  separate -> loaded G C S n N st0 -> rtc (step n) st0 st ->
  let ga := join_group v ty ga0 in
  let mi := moduleIndex hdr in
  (mi < n)%nat -> valid_module (db st) mi = true ->
  admitted hdr v false ga ca None (clear_events (db st)) = true -> room (key_of hdr v ga ca) (clear_events (db st)) = true ->
  all_open (Some ga) -> stored_addr v ga = ga ->
  rtk_igmp_sysUpSeconds (db st) < u32 (rtk_igmp_sysUpSeconds (db st) + memberAgingInterval (conf_of hdr v)) ->
  _rtk_igmp_devIfidx_to_devInfo (devIfindex hdr) st = Some di ->
  forwardDisable (snoop_conf v di) = false -> snoopingDisable (snoop_conf v di) = false ->
  d_ipVersion d = v -> d_groupAddr d = ga ->
  let st1 := snd (with_flows (handle hdr (Join v ty ca ga0)) st) in
  (length (remove_dups (forward_set mi d st1)) <= IGMP_MAX_DEV_NUM)%nat ->
  let '(r, _, f, _) := _rtk_igmp_getMulticastDataFwdInfo mi true d st1 in
  r = SUCCESS /\ devIfindex hdr ∈ ports_of (egressDevInfo f).
Proof.
  intros Hs Hl Hst ga mi Hm Hv Ha Hroom Ho Hga Ht Hdi Hfw Hsn Hdv Hdg st1 Hfit.
  destruct (reachable_consistent _ _ _ _ _ _ _ Hs Hl Hst) as [Hso _ Hco].
  set (x := clear_events (db st)) in *.
  assert (good G C S n mi x) as Hg.
  { apply (good_same G C S n mi (db st)); [done..|]. split; [apply Hso|]. unfold in_range.
    rewrite (rd_len _ _ _ (so_ready _ _ _ _ _ _ Hso)). done. }
  assert (in_range mi x /\ sized x) as [Hr Hsz] by (split; [apply Hg|apply (inv_sized _ _ _ _ (proj1 Hg))]).
  destruct (learn_admitted hdr v false ga ca None _ _ _ _ (rtk_igmp_processJoin hdr v ty ca ga0) x eq_refl
    Hr Hsz Ha Hroom) as [Hret Hview]; [done|done|]. simpl in Hret.
  assert (FlowReflush ga ∈ events (snd (run (handle hdr (Join v ty ca ga0)) x))) as Hev.
  { simpl. unfold run, rtk_igmp_processJoin. rewrite (guards_pass hdr v false ga ca None _ x Ha).
    by apply (learn_refreshes hdr v ga ca). }
  destruct (report_coherent G C S n N hdr (Join v ty ca ga0) st Hso Hs Hm Ho Hga (or_intror (or_introl Hev)) Hco) as (Hso1 & Hco1 & E1).
  fold st1 x in Hso1, Hco1, E1.
  assert (db st1 = snd (run (handle hdr (Join v ty ca ga0)) x)) as Edb by by rewrite E1.
  assert (forall i, _rtk_igmp_devIfidx_to_devInfo i st1 = _rtk_igmp_devIfidx_to_devInfo i st) as Edev by by rewrite E1.
  pose proof (frame_handle G C S n hdr (Join v ty ca ga0) x Hg) as Hfr.
  assert (valid_module (db st1) mi = true) as Hv1 by by rewrite Edb, (frame_valid _ _ _ _ _ mi Hfr).
  pose proof (packet_coherent n N mi true d st1 (so_ready _ _ _ _ _ _ Hso1) Hs (inv_hashed _ _ _ _ (so_good _ _ _ _ _ _ Hso1)) Hm Hv1 Hco1) as Hp.
  destruct (_rtk_igmp_getMulticastDataFwdInfo mi true d st1) as [[[r d1] f1] st2]. destruct Hp as (_ & _ & _ & Hp).
  destruct Hp as [-> ->]; [rewrite Hdv, Hdg; by apply Ho|]. split; [done|].
  rewrite mk_egress_ports by apply decided_ok. apply decided_spec; [done|]. apply elem_forward_set. right. right.
  specialize (Hview (key_of hdr v ga ca)). rewrite same_key_refl in Hview.
  change (rtk_igmp_processJoin hdr v ty ca ga0) with (handle hdr (Join v ty ca ga0)) in Hview. rewrite <- Edb in Hview.
  apply view_search in Hview as (g & Hgs & Hin). simpl in Hgs. fold mi in Hgs. rewrite Hdv, Hdg, Hgs.
  assert (inIfidx (client0 hdr v ga ca 0 x) = devIfindex hdr) as Hif by (unfold client0; by destruct (view x (key_of hdr v ga ca))).
  eexists. split; [exact Hin|]. simpl. split; [exact Hif|]. apply client_served_iff. unfold client_served. simpl. rewrite Hif, Edev, Hdi, Hdv, Hfw, Hsn. simpl.
  assert (rtk_igmp_sysUpSeconds (db st1) = rtk_igmp_sysUpSeconds (db st)) as -> by by rewrite Edb, (fr_now _ _ _ _ _ Hfr).
  unfold client_wants. simpl. rewrite (proj2 (Z.leb_gt _ _)) by exact Ht.
  by destruct (careSource _).
Qed.
End DataPlane.

(** ** Concrete runs *)

#[local] Existing Instance demo_config.
#[local] Existing Instance demo_policy.

Definition demo_flow_config : FlowConfig := {|
  IGMP_MAX_DEV_NUM := 4; max_dev_num_pos := ltac:(lia);
  flowSetCbEvt := true; flowUpdateCbEvt := true; flowDelCbEvt := true;
  groupAddCbEvt := true; groupDelCbEvt := true; cleared_isIPv6 := false |}.
(** One bridge with the ports 3 and 4; unknown groups are not flooded. *)
Definition demo_env : SnooperEnv := {|
  bridges := [Bridge 10 0 (Some [3; 4])]; unknownFlood := false; trapWlanToPS := false;
  rt_igmp_userGroup_check := fun _ _ => false; rt_igmp_multicastFlow_check := fun _ => true;
  jiffies := 0; cycle_duration := 100; igmp_sys_timer_sec := 1 |}.
#[local] Existing Instance demo_flow_config.
#[local] Existing Instance demo_env.

Definition demo_conf : snoopConf :=
  SnoopConf false false true false false false false false false false (RateLimit 0 0 0) (RateLimit 0 0 0)
    (DevConf false 260 2).
Definition demo_dev (i : Z) : deviceInfo := DeviceInfo i false 0 demo_conf demo_conf.
Definition demo_snooper : snooper :=
  Snooper (init_igmp 1 4 4 4 0) (empty_flows 1 2) [Some (demo_dev 3); Some (demo_dev 4)] [].
Definition demo_data (src sport : Z) : multicastDataInfo :=
  MulticastDataInfo IP_VERSION4 (ip4 src) demo_group sport 5000 false 0 false 0 17 false false.
Definition demo_join : report := Join IP_VERSION4 0x16 demo_client demo_group.
(** A client on port 3 has joined; then a packet of the group was forwarded. *)
Definition demo_joined : snooper := snd (with_flows (handle (demo_hdr false) demo_join) demo_snooper).
Definition demo_flowing : snooper := snd (_rtk_igmp_getMulticastDataFwdInfo 0 true (demo_data 0x0A000001 1000) demo_joined).

Lemma demo_separate : separate.
Proof. intros [|[]]; done. Qed.
Lemma demo_loaded : loaded 4 4 4 1 2 demo_snooper.
Proof.
  split; [done|]. split; [done|]. intros i di v. unfold _rtk_igmp_devIfidx_to_devInfo.
  destruct (List.find _ _) as [o|] eqn:E; [|done]. apply List.find_some in E as [Hin _]. intros ->.
  destruct Hin as [[= <-]|[[= <-]|[]]]; by destruct v.
Qed.
Lemma demo_open ga : all_open (Some ga).
Proof. intros v a _. done. Qed.
Lemma demo_settled hdr r st :
  existsb (fun e => match e with FlowReflush a => bool_decide (a = report_group r) | _ => false end)
    (events (snd (run (handle hdr r) (clear_events (db st))))) = true -> settled hdr r st.
Proof.
  intros (e & Hin & He)%existsb_exists. right. left. apply list_elem_of_In. destruct e; try done.
  apply bool_decide_eq_true in He. by subst.
Qed.
Lemma demo_steps : rtc (step 1) demo_snooper demo_flowing.
Proof.
  apply (rtc_l _ _ demo_joined); [unfold demo_joined|apply rtc_once; unfold demo_flowing].
  - refine (step_report 1 (demo_hdr false) demo_join demo_snooper _ (demo_open _) _ (demo_settled _ _ _ _));
      [simpl; lia|done|by_compute].
  - refine (step_packet 1 0 true (demo_data 0x0A000001 1000) demo_joined _ _); [lia|by_compute].
Qed.
(** A second later the timer has come. *)
Definition demo_ticked : snooper := rtk_igmp_maintainMulticastSnoopingTimerList 1 demo_flowing.
Lemma demo_ticks : rtc (step 1) demo_snooper demo_ticked.
Proof.
  refine (rtc_r _ demo_flowing _ demo_steps _). unfold demo_ticked. apply step_tick, timelyb_timely. by_compute.
Qed.

(** A leave on another port moves the client there and does not refresh its flows: the
    cached flow still goes to the old port, a fresh decision to the new one. *)
Definition demo_left : snooper :=
  snd (with_flows (handle (PktHdr [0; 1; 2; 3; 4; 5] 4 0 1 2 true 100 false 0 (DevConf false 260 2) (DevConf false 260 2))
    (Leave IP_VERSION4 demo_client demo_group)) demo_flowing).
Example leave_on_another_port_leaves_cache_stale :
  let out first := match _rtk_igmp_getMulticastDataFwdInfo 0 first (demo_data 0x0A000001 1000) demo_left with
                   | (_, _, f, _) => ports_of (egressDevInfo f) end in
  out true = [3] /\ out false = [4].
Proof. split; by_compute. Qed.

Lemma demo_table : flow_inv 1 2 (fd demo_flowing).
Proof.
  destruct (reachable_consistent _ _ _ _ _ _ _ demo_separate demo_loaded demo_steps) as [Hso _ _].
  exact (rd_inv _ _ _ (so_ready _ _ _ _ _ _ Hso)).
Qed.

Lemma demo_cached : exists e, find_flow 0 (key_of_data (demo_data 0x0A000001 1000)) (fd demo_flowing) = Some e /\
  flow_expired (rtk_igmp_sysUpSeconds (db demo_flowing)) e = false.
Proof.
  assert (match find_flow 0 (key_of_data (demo_data 0x0A000001 1000)) (fd demo_flowing) with
          | Some e => negb (flow_expired (rtk_igmp_sysUpSeconds (db demo_flowing)) e) | None => false end = true) as H
    by by_compute.
  destruct (find_flow _ _ _) as [e|]; [|done]. exists e. split; [done|]. by apply negb_true_iff.
Qed.

Lemma packet_goes_to_its_receivers_witness :
  let '(r, _, f, _) := _rtk_igmp_getMulticastDataFwdInfo 0 false (demo_data 0x0A000002 7) demo_flowing in
  3 ∈ ports_of (egressDevInfo f) /\ ~ 4 ∈ ports_of (egressDevInfo f).
Proof.
  unshelve epose proof (packet_goes_to_its_receivers 0 (demo_data 0x0A000002 7) demo_flowing _ _ _) as Hp;
    [by_compute|by apply (bool_decide_unpack (NoDup [3; 4]))|by_compute|].
  destruct (_rtk_igmp_getMulticastDataFwdInfo 0 false (demo_data 0x0A000002 7) demo_flowing) as [[[r d] f] st].
  destruct Hp as (_ & _ & _ & Hp). destruct (Hp ltac:(by_compute) ltac:(by_compute)) as [_ Hi].
  split.
  - apply Hi. right. right. vm_compute. eexists. split; [left|]. split; [done|].
    eexists. split; [done|]. split; [done|]. split; [done|]. by left.
  - rewrite Hi. vm_compute. intros [[_ Hf]|[Hw|(c & Hin & Hif & _)]]; [done|set_solver|].
    apply list_elem_of_singleton in Hin. by subst.
Defined.

Lemma cache_stays_coherent_witness :
  exists e, find_flow 0 (key_of_data (demo_data 0x0A000001 1000)) (fd demo_ticked) = Some e /\
  egressDevInfo (multicastFwdInfo e) = [Some 3; None; None; None].
Proof.
  destruct (find_flow 0 (key_of_data (demo_data 0x0A000001 1000)) (fd demo_ticked)) as [e|] eqn:He;
    [|exfalso; revert He; by_compute]. exists e. split; [done|].
  destruct (cache_stays_coherent 4 4 4 1 2 demo_snooper demo_ticked 0
    (key_of_data (demo_data 0x0A000001 1000)) e demo_separate demo_loaded demo_ticks) 
    as (-> & _); [by_compute|exact He|by_compute].
Defined.

Lemma cached_answer_is_fresh_witness :
  egressDevInfo (snd (fst (_rtk_igmp_getMulticastDataFwdInfo 0 true (demo_data 0x0A000001 1000) demo_ticked))) =
  egressDevInfo (snd (fst (_rtk_igmp_getMulticastDataFwdInfo 0 false (demo_data 0x0A000001 1000) demo_ticked))).
Proof.
  unshelve epose proof (cached_answer_is_fresh 4 4 4 1 2 demo_snooper demo_ticked 0 (demo_data 0x0A000001 1000)
    demo_separate demo_loaded demo_ticks _ _ _) as Hx; [lia|by_compute..|].
  destruct (_rtk_igmp_getMulticastDataFwdInfo 0 true _ _) as [[[r1 d1] f1] st1].
  destruct (_rtk_igmp_getMulticastDataFwdInfo 0 false _ _) as [[[r2 d2] f2] st2]. apply Hx.
Defined.

Lemma reachable_flow_table_witness :
  rtk_igmp_mcastFlowEntryPool (fd demo_flowing) ++ (flowCell <$> all_flows (fd demo_flowing)) ≡ₚ [0; 1]%nat.
Proof. exact (proj1 (reachable_flow_table 4 4 4 1 2 demo_snooper demo_flowing demo_separate demo_loaded demo_steps)). Defined.

Lemma recycle_evicts_oldest_witness :
  module_flows 0 (fd demo_flowing) <> [] /\
  rtk_igmp_mcastFlowEntryPool (rtk_igmp_doMcastFlowRecycle 0 200 (fd demo_flowing)) <> [].
Proof.
  assert (module_flows 0 (fd demo_flowing) <> []) as Hne by (by_compute). split; [done|].
  exact (proj1 (recycle_evicts_oldest 1 2 0 200 (fd demo_flowing) demo_table Hne)).
Defined.

Lemma recorded_flow_is_found_witness :
  let d := demo_data 0x0A000002 7 in
  let f := set_egressDevInfo (mk_egress [4]) fwdInfo0 in
  exists e, find_flow 0 (key_of_data d) (snd (rtk_igmp_recordMcastFlow (db demo_flowing) 0 d f (fd demo_flowing))) = Some e /\
  ports_of (egressDevInfo (multicastFwdInfo e)) = [4].
Proof.
  intros d f.
  unshelve epose proof (recorded_flow_is_found 1 2 (db demo_flowing) 0 d [4] f (fd demo_flowing) demo_table _ _ _) as Hx;
    [lia|by_compute..|].
  destruct (rtk_igmp_recordMcastFlow (db demo_flowing) 0 d f (fd demo_flowing)) as [r x'].
  destruct Hx as (_ & Hx & _); [|done|left; by_compute|].
  - split; [apply NoDup_singleton|simpl; lia].
  - destruct (Hx (key_of_data d) (key_match_refl _)) as (e & H1 & H2 & _). by exists e.
Defined.

Lemma invalidation_is_exact_witness :
  find_flow 0 (key_of_data (demo_data 0x0A000001 1000))
    (rtk_igmp_invalidateMCastGroupFlow 0 IP_VERSION4 demo_group (fd demo_flowing)) = None.
Proof.
  destruct (invalidation_is_exact 1 2 0 IP_VERSION4 demo_group (fd demo_flowing) demo_table) as [_ ->]. by_compute.
Defined.

Lemma flow_aging_spares_live_flows_witness :
  is_Some (find_flow 0 (key_of_data (demo_data 0x0A000001 1000)) (fd (rtk_igmp_agingMcastFlow 0 demo_flowing))).
Proof.
  destruct demo_cached as (e & He & Ht).
  pose proof (flow_aging_spares_live_flows 1 2 0 demo_flowing 0 (key_of_data (demo_data 0x0A000001 1000)) e
    demo_table He) as Hx. cbv zeta in Hx. by rewrite Hx, Ht, andb_false_r.
Defined.

Lemma joined_client_receives_witness :
  3 ∈ ports_of (egressDevInfo (snd (fst (_rtk_igmp_getMulticastDataFwdInfo (moduleIndex (demo_hdr false)) true
    (demo_data 0x0A000001 1000) (snd (with_flows (handle (demo_hdr false) demo_join) demo_snooper)))))).
Proof.
  unshelve epose proof (joined_client_receives 4 4 4 1 2 demo_snooper demo_snooper (demo_hdr false) IP_VERSION4 0x16 demo_client demo_group
    (demo_data 0x0A000001 1000) (demo_dev 3) demo_separate demo_loaded (rtc_refl _ _) _ _ _ _ (demo_open _) _ _ _ _ _ eq_refl eq_refl _) as Hx;
    [simpl; lia|by_compute..|].
  cbv zeta in Hx. fold demo_join in Hx.
  destruct (_rtk_igmp_getMulticastDataFwdInfo _ true _ _) as [[[r d] f] st]. exact (proj2 Hx).
Defined.
