(* ===== verification/IgmpBlack.v ===== *)
(** * IgmpBlack: the black list of the snooper

    Rules on source MACs: one table of rules shared by all devices, counted
    references, and for every device and IP version an ordered list of the indices
    it uses.  A report from a black-listed MAC is passed on but not learnt, and
    adding a rule throws the MAC's clients out of the database.  The check and the
    delete walk both lists with one cursor that is never rewound. *)
From S2P Require Import Prelude IgmpTable IgmpReport IgmpInvariant IgmpView IgmpPolicy IgmpTimer IgmpFlow IgmpFlowSpec IgmpFlowOps IgmpForward IgmpForwardSpec IgmpCoherence.
From stdpp Require Import gmap.
From Stdlib Require Import Sorted.
Open Scope Z_scope.

(** ** Data *)

(** [rt_igmpHook_blackList_t] *)
Record blackPattern := BlackPattern {
  bl_isIpv6 : bool;
  bl_smacChk : bool;
  bl_smac : list Z;
  bl_smacMask : list Z
}.
#[export] Instance blackPattern_eq_dec : EqDecision blackPattern.
Proof. solve_decision. Defined.

(** [rtk_igmp_blackListEntry_t] *)
Record blackListEntry := BlackListEntry { blackListIdx : Z; blackRefCnt : Z; bl_patten : blackPattern }.

(** The table of rules, the next index, and by interface index the lists
    [devConf.igmp.black] and [devConf.igmp6.black] of the devices. *)
Record blackState := BlackState {
  blackListHead : list blackListEntry;
  blackLisIcrIdx : Z;
  blackDev : gmap Z (list Z * list Z)
}.

Definition set_blackListHead (l : list blackListEntry) (bs : blackState) : blackState :=
  BlackState l (blackLisIcrIdx bs) (blackDev bs).
Definition black_lists (ifidx : Z) (bs : blackState) : list Z * list Z := default ([], []) (blackDev bs !! ifidx).
Definition black_of (ifidx : Z) (v6 : bool) (bs : blackState) : list Z :=
  if v6 then snd (black_lists ifidx bs) else fst (black_lists ifidx bs).
Definition set_black (ifidx : Z) (v6 : bool) (l : list Z) (bs : blackState) : blackState :=
  let '(a, b) := black_lists ifidx bs in
  BlackState (blackListHead bs) (blackLisIcrIdx bs) (<[ifidx := if v6 then (a, l) else (l, b)]> (blackDev bs)).

Definition rule_is (i : Z) (e : blackListEntry) : bool := blackListIdx e =? i.
Definition add_ref (k : Z) (e : blackListEntry) : blackListEntry :=
  BlackListEntry (blackListIdx e) (blackRefCnt e + k) (bl_patten e).

(** ** Operations *)

Definition rtk_igmp_blackEntry_flashInit : blackState := BlackState [] 0 ∅.

(** A zeroed rule with the next index, at the end of the table; the counter is a
    32-bit [atomic_t]. *)
Definition rtk_igmp_blackEntry_malloc (ok : bool) (bs : blackState) : option Z * blackState :=
  if ok
  then (Some (blackLisIcrIdx bs),
        BlackState (blackListHead bs ++ [BlackListEntry (blackLisIcrIdx bs) 0 (BlackPattern false false [] [])])
          (s32 (blackLisIcrIdx bs + 1)) (blackDev bs))
  else (None, bs).

Definition rtk_igmp_blackEntry_free (i : Z) (bs : blackState) : blackState :=
  set_blackListHead (remove_first (rule_is i) (blackListHead bs)) bs.

(** One reference less, and the rule goes with the last. *)
Definition rtk_igmp_blackEntry_del (i : Z) (bs : blackState) : blackState :=
  match List.find (rule_is i) (blackListHead bs) with
  | None => bs
  | Some e => if blackRefCnt e - 1 =? 0 then rtk_igmp_blackEntry_free i bs
              else set_blackListHead (update_first (rule_is i) (add_ref (-1)) (blackListHead bs)) bs
  end.

(** Where an index goes in a device's list: [None] when it is there already. *)
Fixpoint place_idx (i : Z) (l : list Z) : option (list Z) :=
  match l with
  | [] => Some [i]
  | j :: l' => if j =? i then None
               else if i <? j then Some (i :: l)
               else cons j <$> place_idx i l'
  end.

(** The part of the add after the rule is found or made: [ok] says whether the
    index entry can be had. *)
Definition use_rule (ifidx : Z) (v6 : bool) (i : Z) (ok : bool) (bs : blackState) : wl_result * bool * blackState :=
  match place_idx i (black_of ifidx v6 bs) with
  | None => (WlOk i, false, bs)
  | Some l =>
      if ok then (WlOk i, true, set_blackListHead (update_first (rule_is i) (add_ref 1) (blackListHead bs))
                                  (set_black ifidx v6 l bs))
      else (WlFail, false, bs)
  end.

(** The add on the lists, for a device that exists; the flag says whether the clients
    of the database are to be updated.  The pattern of a new rule is copied before
    the NULL test. *)
Definition black_add (p : blackPattern) (ifidx : Z) (okRule okIdx : bool) (bs : blackState)
    : wl_result * bool * blackState :=
  match List.find (fun e => bool_decide (bl_patten e = p)) (blackListHead bs) with
  | Some e => use_rule ifidx (bl_isIpv6 p) (blackListIdx e) okIdx bs
  | None =>
      match rtk_igmp_blackEntry_malloc okRule bs with
      | (None, bs') => (WlNullDeref, false, bs')
      | (Some i, bs') =>
          let bs' := set_blackListHead
                       (update_first (rule_is i) (fun e => BlackListEntry (blackListIdx e) (blackRefCnt e) p)
                          (blackListHead bs')) bs' in
          if okIdx then use_rule ifidx (bl_isIpv6 p) i true bs'
          else (WlFail, false, rtk_igmp_blackEntry_free i bs')
      end
  end.

(** MACs under the mask of a rule. *)
Definition mac_masked (p : blackPattern) (mac : list Z) : bool :=
  forallb (fun '(m, (k, a)) => Z.land m k =? Z.land a k) (zip (bl_smac p) (zip (bl_smacMask p) mac)).

(** A client that a new rule throws out: only rules with a MAC throw anybody out. *)
Definition black_client (p : blackPattern) (ifidx : Z) (c : clientEntry) : bool :=
  (inIfidx c =? ifidx) && bl_smacChk p && mac_masked p (clientMacAddr c).

Section Update.
Context {cfg : IgmpConfig} {fcfg : FlowConfig} {policy : AdmissionPolicy} {env : SnooperEnv}.

(** One group of the walk: its first matching client goes, and its flows are
    refreshed. *)
Definition black_group (p : blackPattern) (ifidx : Z) (mi : nat) (st : snooper) (g : groupEntry) : snooper :=
  match List.find (black_client p ifidx) (clientList g) with
  | None => st
  | Some _ =>
      let '(g', db') := rtk_igmp_deleteClientEntry (black_client p ifidx) g (db st) in
      let db' := alter_group mi (groupIpVersion g) (groupAddr g) (fun _ => g') db' in
      rtk_igmp_flow_reflush_update (Some mi) (Some (groupAddr g)) (set_db db' st)
  end.
Definition black_bucket (p : blackPattern) (ifidx : Z) (mi : nat) (v : ip_version) (st : snooper) (h : nat) : snooper :=
  foldl (black_group p ifidx mi) st (bucket mi v h (db st)).
Definition black_module (p : blackPattern) (ifidx : Z) (st : snooper) (mi : nat) : snooper :=
  if valid_module (db st) mi
  then foldl (black_bucket p ifidx mi (if bl_isIpv6 p then IP_VERSION6 else IP_VERSION4)) st buckets
  else st.
Definition _rtk_igmp_blackList_updateFlow (p : blackPattern) (ifidx : Z) (st : snooper) : snooper :=
  foldl (black_module p ifidx) st (seq 0 (length (modules (db st)))).

Definition rtk_igmp_blackListAdd (p : blackPattern) (ifidx : Z) (okRule okIdx : bool) (bs : blackState) (st : snooper)
    : wl_result * blackState * snooper :=
  match _rtk_igmp_devIfidx_to_devInfo ifidx st with
  | None => (WlFail, bs, st)
  | Some _ =>
      let '(r, upd, bs') := black_add p ifidx okRule okIdx bs in
      (r, bs', if upd then _rtk_igmp_blackList_updateFlow p ifidx st else st)
  end.
End Update.

(** Delete by index: out of the IPv4 list, or else of the IPv6 list. *)
Definition drop_index (ifidx : Z) (v6 : bool) (i : Z) (bs : blackState) : blackState :=
  set_black ifidx v6 (remove_first (Z.eqb i) (black_of ifidx v6 bs)) bs.
Definition rtk_igmp_blackListDel_byIdx (dev : bool) (ifidx i : Z) (bs : blackState) : Z * blackState :=
  if negb dev then (FAIL, bs)
  else if existsb (Z.eqb i) (black_of ifidx false bs)
  then (SUCCESS, rtk_igmp_blackEntry_del i (drop_index ifidx false i bs))
  else if existsb (Z.eqb i) (black_of ifidx true bs)
  then (SUCCESS, rtk_igmp_blackEntry_del i (drop_index ifidx true i bs))
  else (FAIL, bs).

(** The cursor: the rule it is on, [None] on the head of the list. *)
Fixpoint behind (i : Z) (l : list blackListEntry) : list blackListEntry :=
  match l with
  | [] => []
  | e :: l' => if blackListIdx e =? i then l' else behind i l'
  end.
Definition from_cursor (cur : option Z) (l : list blackListEntry) : list blackListEntry :=
  match cur with None => l | Some i => behind i l end.
(** The rule in front of rule [i]. *)
Fixpoint prev_of (i : Z) (prev : option Z) (l : list blackListEntry) : option Z :=
  match l with
  | [] => prev
  | e :: l' => if blackListIdx e =? i then prev else prev_of i (Some (blackListIdx e)) l'
  end.

Definition del_hit (p : blackPattern) (e : blackListEntry) : bool :=
  Bool.eqb (bl_isIpv6 p) (bl_isIpv6 (bl_patten e)) &&
  (negb (bl_smacChk p) ||
   (bl_smacChk (bl_patten e) && bool_decide (bl_smac (bl_patten e) = bl_smac p) &&
    bool_decide (bl_smacMask (bl_patten e) = bl_smacMask p))).

(** Delete by pattern: the loop over the device's list as it was. *)
Fixpoint black_del_loop (p : blackPattern) (ifidx : Z) (todo : list Z) (cur : option Z) (bs : blackState) : blackState :=
  match todo with
  | [] => bs
  | i :: todo' =>
      match List.find (rule_is i) (from_cursor cur (blackListHead bs)) with
      | None => black_del_loop p ifidx todo' None bs
      | Some e =>
          if del_hit p e
          then black_del_loop p ifidx todo' (prev_of i None (blackListHead bs))
                 (rtk_igmp_blackEntry_del i (drop_index ifidx (bl_isIpv6 p) i bs))
          else black_del_loop p ifidx todo' (Some i) bs
      end
  end.
Definition rtk_igmp_blackListDel (p : option blackPattern) (dev : bool) (ifidx i : Z) (bs : blackState) : Z * blackState :=
  match p with
  | None => rtk_igmp_blackListDel_byIdx dev ifidx i bs
  | Some p => if dev then (SUCCESS, black_del_loop p ifidx (black_of ifidx (bl_isIpv6 p) bs) None bs) else (FAIL, bs)
  end.

(** The check: an all-zero MAC is unknown, and a rule with a MAC misses it. *)
Definition black_hit (mac : list Z) (p : blackPattern) : bool :=
  if bl_smacChk p then negb (forallb (Z.eqb 0) mac) && mac_masked p mac else true.
Fixpoint black_loop (mac : list Z) (dev : list Z) (cur : option Z) (l : list blackListEntry) : bool :=
  match dev with
  | [] => false
  | i :: dev' =>
      match List.find (rule_is i) (from_cursor cur l) with
      | None => black_loop mac dev' None l
      | Some e => if black_hit mac (bl_patten e) then true else black_loop mac dev' (Some i) l
      end
  end.
Definition rtk_igmp_filterblackListCheck (ifidx : Z) (v : ip_version) (mac : list Z) (bs : blackState) : bool :=
  black_loop mac (black_of ifidx (is_ipv6 v) bs) None (blackListHead bs).

(** ** Configurations *)

Inductive black_op :=
| BlAdd (p : blackPattern) (ifidx : Z) (okRule okIdx : bool)
| BlDel (p : option blackPattern) (ifidx i : Z).
Definition black_do (bs : blackState) (o : black_op) : blackState :=
  match o with
  | BlAdd p ifidx a b => snd (black_add p ifidx a b bs)
  | BlDel p ifidx i => snd (rtk_igmp_blackListDel p true ifidx i bs)
  end.

(** All indices in use, one for each device and version that uses it. *)
Definition refs (bs : blackState) : list Z :=
  '(_, (a, b)) ← map_to_list (blackDev bs); a ++ b.
Definition uses (i : Z) (l : list Z) : Z := Z.of_nat (length (List.filter (Z.eqb i) l)).
