(* ===== verification/IgmpBlackSpec.v ===== *)
(** * IgmpBlackSpec: the black list is exact

    The references of every rule are counted right, so that a rule lives as long as
    a device uses it and no longer; the check with its single cursor decides what a
    search for every rule would; deleting by pattern removes exactly the matching
    rules of the device. *)
From S2P Require Import Prelude IgmpTable IgmpReport IgmpInvariant IgmpView IgmpPolicy IgmpTimer IgmpFlow IgmpFlowSpec IgmpFlowOps IgmpForward IgmpForwardSpec IgmpCoherence IgmpSemantics IgmpDataPlane IgmpBlack.
From stdpp Require Import gmap.
From Stdlib Require Import Sorted.
Open Scope Z_scope.

(** ** Rules by index *)

Definition rule (i : Z) (bs : blackState) : option blackListEntry := List.find (rule_is i) (blackListHead bs).

Lemma rule_is_idx i e : rule_is i e = true <-> blackListIdx e = i.
Proof. unfold rule_is. apply Z.eqb_eq. Qed.
Lemma rule_idx i l e : List.find (rule_is i) l = Some e -> blackListIdx e = i.
Proof. intros [_ H]%List.find_some. by apply rule_is_idx. Qed.

Lemma find_upd i f l j : (forall e, blackListIdx (f e) = blackListIdx e) ->
  List.find (rule_is j) (update_first (rule_is i) f l) =
  if i =? j then f <$> List.find (rule_is j) l else List.find (rule_is j) l.
Proof.
  intros Hf. destruct (i =? j) eqn:E; bool_to_prop.
  - subst. destruct (List.find (rule_is j) l) as [e|] eqn:Ee; simpl.
    + apply find_update_first; [done|]. apply rule_is_idx. rewrite Hf. by eapply rule_idx.
    + by rewrite update_first_none.
  - apply find_update_first_other. intros e He%rule_is_idx. unfold rule_is. rewrite Hf, He. by apply Z.eqb_neq in E as ->.
Qed.

Lemma find_none_idx i l : i ∉ (blackListIdx <$> l) -> List.find (rule_is i) l = None.
Proof.
  intros Hi. destruct (List.find (rule_is i) l) as [e|] eqn:E; [|done]. exfalso. apply Hi.
  apply List.find_some in E as [Hin <-%rule_is_idx]. apply list_elem_of_In in Hin. set_solver.
Qed.
Lemma find_some_idx i l : i ∈ (blackListIdx <$> l) -> is_Some (List.find (rule_is i) l).
Proof.
  intros (e & -> & He)%list_elem_of_fmap. destruct (List.find (rule_is (blackListIdx e)) l) eqn:E; [done|].
  exfalso. apply list_elem_of_In in He. pose proof (List.find_none _ _ E e He) as Hx. unfold rule_is in Hx.
  by rewrite Z.eqb_refl in Hx.
Qed.

Definition sorted_rules (l : list blackListEntry) : Prop := StronglySorted Z.lt (blackListIdx <$> l).

Lemma sorted_head e l : sorted_rules (e :: l) -> sorted_rules l /\ forall i, i ∈ (blackListIdx <$> l) -> blackListIdx e < i.
Proof. unfold sorted_rules. intros [Hs Hx]%StronglySorted_inv. rewrite Forall_forall in Hx. auto. Qed.

Lemma find_rem i l j : sorted_rules l ->
  List.find (rule_is j) (remove_first (rule_is i) l) = if i =? j then None else List.find (rule_is j) l.
Proof.
  intros Hs. destruct (i =? j) eqn:E; bool_to_prop.
  - subst. induction l as [|e l IH]; simpl; [done|]. apply sorted_head in Hs as [Hs He].
    destruct (rule_is j e) eqn:Ej; simpl; [|rewrite Ej; auto]. apply rule_is_idx in Ej. apply find_none_idx.
    intros Hin. specialize (He j Hin). lia.
  - apply find_remove_first_other. intros e He%rule_is_idx. unfold rule_is. rewrite He. by apply Z.eqb_neq.
Qed.

(** ** The cursor *)

(** The part behind a rule holds every rule with a larger index. *)
Lemma find_behind c l i : sorted_rules l -> c ∈ (blackListIdx <$> l) -> c < i ->
  List.find (rule_is i) (behind c l) = List.find (rule_is i) l.
Proof.
  induction l as [|e l IH]; simpl; [set_solver|]. intros [Hs He]%sorted_head Hc Hi. unfold rule_is at 2. simpl.
  destruct (blackListIdx e =? c) eqn:E; bool_to_prop.
  - destruct (blackListIdx e =? i) eqn:E'; bool_to_prop; [lia|done].
  - assert (c ∈ (blackListIdx <$> l)) as Hc' by set_solver. specialize (He c Hc').
    destruct (blackListIdx e =? i) eqn:E'; bool_to_prop; [lia|]. by apply IH.
Qed.

(** A cursor that has not passed the rules still to be looked up. *)
Definition cursor_ok (cur : option Z) (todo : list Z) (l : list blackListEntry) : Prop :=
  match cur with None => True | Some c => c ∈ (blackListIdx <$> l) /\ Forall (fun i => c < i) todo end.

Lemma find_cursor cur i todo l : sorted_rules l -> cursor_ok cur (i :: todo) l ->
  List.find (rule_is i) (from_cursor cur l) = List.find (rule_is i) l.
Proof. destruct cur as [c|]; [|done]. intros Hs [Hc Hf]. apply find_behind; try done. by inversion Hf. Qed.

Lemma prev_of_spec i l : sorted_rules l -> i ∈ (blackListIdx <$> l) -> forall prev,
  (forall c, prev = Some c -> c < i) ->
  forall c, prev_of i prev l = Some c -> (prev = Some c \/ c ∈ (blackListIdx <$> l)) /\ c < i.
Proof.
  induction l as [|e l IH]; simpl; [set_solver|]. intros [Hs He]%sorted_head Hin prev Hp c.
  destruct (blackListIdx e =? i) eqn:E; bool_to_prop; [auto|].
  apply elem_of_cons in Hin as [->|Hin]; [done|]. pose proof (He i Hin) as Hlt. intros Hc.
  assert (forall d, Some (blackListIdx e) = Some d -> d < i) as Hp' by (intros d [= <-]; done).
  destruct (IH Hs Hin (Some (blackListIdx e)) Hp' c Hc) as [[[= <-]|H] Hci]; (split; [right|done]); [left|by right].
Qed.

(** ** References *)

Lemma uses_app i a b : uses i (a ++ b) = uses i a + uses i b.
Proof. unfold uses. rewrite List.filter_app, length_app. lia. Qed.
#[export] Instance uses_perm i : Proper ((≡ₚ) ==> (=)) (uses i).
Proof.
  intros a b Hp. unfold uses. f_equal. induction Hp; simpl; [done| | |congruence].
  - destruct (i =? x); simpl; congruence.
  - by destruct (i =? x), (i =? y).
Qed.
Lemma uses_zero i l : uses i l = 0 <-> i ∉ l.
Proof.
  unfold uses. induction l as [|j l IH]; simpl; [set_solver|]. destruct (i =? j) eqn:E; bool_to_prop; simpl.
  - split; [lia|]. set_solver.
  - rewrite IH. set_solver.
Qed.
Lemma uses_cons i j l : uses i (j :: l) = (if i =? j then 1 else 0) + uses i l.
Proof. unfold uses. simpl. destruct (i =? j); simpl; lia. Qed.

Definition refs_of (m : gmap Z (list Z * list Z)) : list Z := '(_, (a, b)) ← map_to_list m; a ++ b.

Lemma refs_insert_fresh k a b m : m !! k = None -> refs_of (<[k := (a, b)]> m) ≡ₚ a ++ b ++ refs_of m.
Proof. intros Hk. unfold refs_of. rewrite map_to_list_insert by done. csimpl. by rewrite <- app_assoc. Qed.

Lemma refs_at k m : refs_of m ≡ₚ fst (default ([], []) (m !! k)) ++ snd (default ([], []) (m !! k)) ++ refs_of (delete k m).
Proof.
  destruct (m !! k) as [[a b]|] eqn:E; simpl.
  - rewrite <- (insert_delete_id m k (a, b)) at 1 by done. apply refs_insert_fresh. apply lookup_delete_eq.
  - by rewrite delete_id.
Qed.

Lemma refs_insert k a b m : refs_of (<[k := (a, b)]> m) ≡ₚ a ++ b ++ refs_of (delete k m).
Proof. rewrite <- insert_delete_eq. apply refs_insert_fresh. apply lookup_delete_eq. Qed.

(** Replacing one list of one device. *)
Lemma refs_set ifidx v6 l bs :
  refs (set_black ifidx v6 l bs) ++ black_of ifidx v6 bs ≡ₚ refs bs ++ l.
Proof.
  unfold refs, set_black, black_of, black_lists. fold (refs_of (blackDev bs)).
  rewrite (refs_at ifidx (blackDev bs)). destruct (default ([], []) (blackDev bs !! ifidx)) as [a b]. simpl.
  match goal with |- context [map_to_list ?m] => fold (refs_of m) end.
  destruct v6; rewrite refs_insert; solve_Permutation.
Qed.

Lemma uses_set ifidx v6 l bs j :
  uses j (refs (set_black ifidx v6 l bs)) = uses j (refs bs) + uses j l - uses j (black_of ifidx v6 bs).
Proof.
  pose proof (uses_perm j _ _ (refs_set ifidx v6 l bs)) as Hp. rewrite !uses_app in Hp. lia.
Qed.

Lemma black_of_refs ifidx v6 bs i : i ∈ black_of ifidx v6 bs -> i ∈ refs bs.
Proof.
  unfold refs. fold (refs_of (blackDev bs)). rewrite (refs_at ifidx (blackDev bs)). unfold black_of, black_lists.
  destruct v6; set_solver.
Qed.

Lemma black_of_set ifidx v6 l bs ifidx' v6' :
  black_of ifidx' v6' (set_black ifidx v6 l bs) =
  if bool_decide (ifidx' = ifidx /\ v6' = v6) then l else black_of ifidx' v6' bs.
Proof.
  unfold black_of, set_black, black_lists. destruct (default ([], []) (blackDev bs !! ifidx)) as [a b] eqn:E. simpl.
  destruct (decide (ifidx' = ifidx)) as [->|Hne].
  - rewrite lookup_insert_eq, E. destruct v6, v6'; simpl;
      first [rewrite bool_decide_true by done | rewrite bool_decide_false by (by intros [_ ?])]; done.
  - rewrite lookup_insert_ne by done. rewrite bool_decide_false by tauto. done.
Qed.

(** ** The invariant *)

Record black_inv (bs : blackState) : Prop := {
  bi_sorted : sorted_rules (blackListHead bs);
  bi_bound : Forall (fun i => 0 <= i < blackLisIcrIdx bs) (blackListIdx <$> blackListHead bs);
  bi_dev : forall ifidx v6, StronglySorted Z.lt (black_of ifidx v6 bs);
  bi_refs : forall i e, rule i bs = Some e -> blackRefCnt e = uses i (refs bs);
  bi_live : forall i, i ∈ refs bs -> is_Some (rule i bs)
}.
(** Every rule but one that is being made is in use. *)
Definition in_use (but : option Z) (bs : blackState) : Prop :=
  forall i e, rule i bs = Some e -> Some i <> but -> 0 < blackRefCnt e.

Lemma place_perm i l l' : place_idx i l = Some l' -> l' ≡ₚ i :: l.
Proof.
  revert l'. induction l as [|j l IH]; intros l'; simpl; [by intros [= <-]|].
  destruct (j =? i); [done|]. destruct (i <? j); [by intros [= <-]|].
  destruct (place_idx i l) as [l1|]; [|done]. simpl. intros [= <-]. rewrite (IH l1) by done. solve_Permutation.
Qed.

Lemma place_sorted i l l' : StronglySorted Z.lt l -> place_idx i l = Some l' -> StronglySorted Z.lt l'.
Proof.
  revert l'. induction l as [|j l IH]; intros l' Hs; simpl; [intros [= <-]; repeat constructor|].
  pose proof Hs as Hs0. apply StronglySorted_inv in Hs as [Hs Hj]. destruct (j =? i) eqn:E; [done|]. bool_to_prop.
  destruct (i <? j) eqn:Ei; bool_to_prop.
  - intros [= <-]. constructor; [done|]. constructor; [done|]. eapply Forall_impl; [done|]. simpl. lia.
  - destruct (place_idx i l) as [l1|] eqn:E1; [|done]. simpl. intros [= <-]. constructor; [by apply IH|].
    rewrite (place_perm _ _ _ E1). constructor; [lia|done].
Qed.

Lemma update_idx i f l : (forall e, blackListIdx (f e) = blackListIdx e) ->
  blackListIdx <$> update_first (rule_is i) f l = blackListIdx <$> l.
Proof. intros Hf. induction l as [|x l IH]; simpl; [done|]. destruct (rule_is i x); csimpl; rewrite ?Hf; congruence. Qed.

(** A device starts to use a rule. *)
Lemma gain_inv ifidx v6 i l bs : black_inv bs -> is_Some (rule i bs) ->
  place_idx i (black_of ifidx v6 bs) = Some l ->
  let bs' := set_blackListHead (update_first (rule_is i) (add_ref 1) (blackListHead bs)) (set_black ifidx v6 l bs) in
  black_inv bs' /\ (in_use (Some i) bs -> in_use None bs').
Proof.
  intros [H1 H2 H3 H4 H5] [e He] Hl bs'.
  assert (blackListIdx <$> blackListHead bs' = blackListIdx <$> blackListHead bs) as Eidx.
  { by apply update_idx. }
  assert (forall j, rule j bs' = if i =? j then add_ref 1 <$> rule j bs else rule j bs) as Hr by (intros; by apply find_upd).
  assert (forall j, uses j (refs bs') = uses j (refs bs) + (if j =? i then 1 else 0)) as Hu.
  { intros j. change (refs bs') with (refs (set_black ifidx v6 l bs)).
    rewrite uses_set, (place_perm _ _ _ Hl), uses_cons. lia. }
  split.
  - split.
    + unfold sorted_rules. by rewrite Eidx.
    + rewrite Eidx. unfold set_blackListHead, set_black in *. subst bs'. by destruct (black_lists ifidx bs).
    + intros ifidx' v6'. change (black_of ifidx' v6' bs') with (black_of ifidx' v6' (set_black ifidx v6 l bs)).
      rewrite black_of_set. case_bool_decide; [eapply place_sorted; [apply (H3 ifidx v6)|done]|done].
    + intros j e'. rewrite Hr, Hu, (Z.eqb_sym j i). destruct (i =? j) eqn:E; [|intros Hj; rewrite (H4 _ _ Hj); lia].
      bool_to_prop. subst. rewrite He. intros [= <-]. simpl. rewrite (H4 _ _ He). lia.
    + intros j Hj. rewrite Hr. destruct (i =? j) eqn:E; bool_to_prop; [subst; by rewrite He|].
      apply H5. destruct (decide (j ∈ refs bs)) as [|Hn]; [done|]. exfalso. apply uses_zero in Hn.
      specialize (Hu j). rewrite Hn, (proj2 (Z.eqb_neq j i)) in Hu by done. by apply uses_zero in Hu.
  - intros Hin j e' Hj _. rewrite Hr in Hj. destruct (i =? j) eqn:E; bool_to_prop.
    + subst. rewrite He in Hj. injection Hj as <-. simpl. rewrite (H4 _ _ He). unfold uses. lia.
    + apply (Hin j e'); [done|congruence].
Qed.

Lemma remove_perm i l : i ∈ l -> l ≡ₚ i :: remove_first (Z.eqb i) l.
Proof.
  induction l as [|j l IH]; simpl; [set_solver|]. destruct (i =? j) eqn:E; bool_to_prop; [by subst|].
  intros Hi. rewrite (IH ltac:(set_solver)) at 1. solve_Permutation.
Qed.

(** *** Giving up a rule *)

Section Lose.
Context (ifidx : Z) (v6 : bool) (i : Z) (bs : blackState) (e : blackListEntry).
Hypothesis (Hinv : black_inv bs) (He : rule i bs = Some e) (Hi : i ∈ black_of ifidx v6 bs).

Let bs1 := drop_index ifidx v6 i bs.
Let bs' := rtk_igmp_blackEntry_del i bs1.

Lemma drop_head : blackListHead bs1 = blackListHead bs /\ blackLisIcrIdx bs1 = blackLisIcrIdx bs.
Proof. unfold bs1, drop_index, set_black. by destruct (black_lists ifidx bs). Qed.

Lemma lose_dev : blackDev bs' = blackDev bs1 /\ blackLisIcrIdx bs' = blackLisIcrIdx bs.
Proof. pose proof drop_head as [_ <-]. unfold bs', rtk_igmp_blackEntry_del. repeat case_match; done. Qed.

Lemma lose_refs : refs bs' = refs bs1.
Proof. unfold refs. by rewrite (proj1 lose_dev). Qed.

Lemma lose_head : blackListHead bs' =
  if blackRefCnt e - 1 =? 0 then remove_first (rule_is i) (blackListHead bs)
  else update_first (rule_is i) (add_ref (-1)) (blackListHead bs).
Proof.
  unfold bs', rtk_igmp_blackEntry_del. rewrite (proj1 drop_head). fold (rule i bs). rewrite He.
  destruct (_ =? 0); simpl; by rewrite ?(proj1 drop_head).
Qed.

Lemma lose_rule j : rule j bs' =
  if i =? j then (if blackRefCnt e - 1 =? 0 then None else Some (add_ref (-1) e)) else rule j bs.
Proof.
  unfold rule at 1. rewrite lose_head. destruct (blackRefCnt e - 1 =? 0).
  - by rewrite find_rem by apply Hinv.
  - rewrite find_upd by done. fold (rule j bs). destruct (i =? j) eqn:E; [|done]. bool_to_prop. subst j. by rewrite He.
Qed.

Lemma lose_uses j : uses j (refs bs') = uses j (refs bs) - (if j =? i then 1 else 0).
Proof.
  rewrite lose_refs. unfold bs1, drop_index. rewrite uses_set.
  rewrite (remove_perm i (black_of ifidx v6 bs)) at 2 by done. rewrite uses_cons. lia.
Qed.

Lemma lose_lists ifidx' v6' : black_of ifidx' v6' bs' =
  if bool_decide (ifidx' = ifidx /\ v6' = v6) then remove_first (Z.eqb i) (black_of ifidx v6 bs) else black_of ifidx' v6' bs.
Proof.
  unfold black_of at 1, black_lists. rewrite (proj1 lose_dev). fold (black_lists ifidx' bs1).
  fold (black_of ifidx' v6' bs1). apply black_of_set.
Qed.

Lemma lose_live j : j <> i -> j ∈ refs bs' -> j ∈ refs bs.
Proof.
  intros Hne Hj. destruct (decide (j ∈ refs bs)) as [|Hn]; [done|]. exfalso. apply uses_zero in Hn.
  pose proof (lose_uses j) as Hu. rewrite Hn, (proj2 (Z.eqb_neq j i)) in Hu by done. by apply uses_zero in Hu.
Qed.

Lemma lose_inv : black_inv bs'.
Proof.
  pose proof Hinv as [H1 H2 H3 H4 H5]. pose proof (H4 _ _ He) as Ecnt. split.
  - unfold sorted_rules. rewrite lose_head. destruct (_ =? 0); [by apply sorted_remove_first|]. by rewrite update_idx.
  - rewrite (proj2 lose_dev), lose_head. destruct (_ =? 0); [|by rewrite update_idx].
    rewrite Forall_fmap in H2 |- *. by apply Forall_remove_first.
  - intros ifidx' v6'. rewrite lose_lists. case_bool_decide; [|done].
    pose proof (sorted_remove_first id (Z.eqb i) (black_of ifidx v6 bs)) as Hs. rewrite !list_fmap_id in Hs. auto.
  - intros j e'. rewrite lose_rule, lose_uses, (Z.eqb_sym j i). destruct (i =? j) eqn:E; bool_to_prop.
    + subst j. destruct (_ =? 0); [done|]. intros [= <-]. simpl. lia.
    + intros Hj. rewrite (H4 _ _ Hj). lia.
  - intros j Hj. rewrite lose_rule. destruct (i =? j) eqn:E; bool_to_prop; [|apply H5; by apply lose_live].
    subst j. destruct (blackRefCnt e - 1 =? 0) eqn:E0; [|done]. bool_to_prop. exfalso.
    revert Hj. apply uses_zero. rewrite lose_uses, Z.eqb_refl. lia.
Qed.

Lemma lose_in_use : in_use None bs -> in_use None bs'.
Proof.
  intros Hin j e' Hj _. rewrite lose_rule in Hj. destruct (i =? j) eqn:E; bool_to_prop; [|by apply (Hin j e')].
  subst j. destruct (blackRefCnt e - 1 =? 0) eqn:E0; [done|]. injection Hj as <-. simpl. bool_to_prop.
  specialize (Hin i e He ltac:(done)). lia.
Qed.
End Lose.

(** ** The operations keep the invariant *)

Lemma bound_fresh bs : Forall (fun i => 0 <= i < blackLisIcrIdx bs) (blackListIdx <$> blackListHead bs) ->
  rule (blackLisIcrIdx bs) bs = None.
Proof. intros Hb. apply find_none_idx. intros Hin. rewrite Forall_forall in Hb. specialize (Hb _ Hin). lia. Qed.


Section Make.
Context (p : blackPattern) (bs : blackState).
Hypothesis (Hinv : black_inv bs) (Hicr : 0 <= blackLisIcrIdx bs < 2 ^ 31 - 1).

(** The state with the new rule. *)
Definition with_rule : blackState :=
  BlackState (blackListHead bs ++ [BlackListEntry (blackLisIcrIdx bs) 0 p]) (blackLisIcrIdx bs + 1) (blackDev bs).

Lemma made_rule :
  let bs' := snd (rtk_igmp_blackEntry_malloc true bs) in
  set_blackListHead (update_first (rule_is (blackLisIcrIdx bs)) (fun e => BlackListEntry (blackListIdx e) (blackRefCnt e) p)
    (blackListHead bs')) bs' = with_rule.
Proof.
  simpl. unfold set_blackListHead, with_rule. simpl. f_equal.
  - pose proof (bound_fresh bs (bi_bound _ Hinv)) as Hf. unfold rule in Hf. clear Hinv Hicr.
    generalize dependent (blackLisIcrIdx bs). intros i. induction (blackListHead bs) as [|e l IH]; simpl.
    + unfold rule_is. simpl. by rewrite Z.eqb_refl.
    + destruct (rule_is i e); [done|]. intros Hf. by rewrite (IH Hf).
  - unfold s32. rewrite Z.mod_small by lia. lia.
Qed.

Lemma rule_with j : rule j with_rule = if blackLisIcrIdx bs =? j then Some (BlackListEntry j 0 p) else rule j bs.
Proof.
  unfold rule, with_rule. simpl. rewrite find_app. fold (rule j bs). unfold rule_is. simpl.
  destruct (blackLisIcrIdx bs =? j) eqn:E; bool_to_prop; [|by destruct (rule j bs)].
  subst. by rewrite (bound_fresh bs (bi_bound _ Hinv)).
Qed.

Lemma with_rule_inv : black_inv with_rule.
Proof.
  pose proof Hinv as [H1 H2 H3 H4 H5].
  assert (uses (blackLisIcrIdx bs) (refs bs) = 0) as Hz.
  { apply uses_zero. intros [e He]%H5. by rewrite (bound_fresh bs H2) in He. }
  split; [| |done| |].
  - unfold sorted_rules, with_rule. simpl. rewrite fmap_app. simpl. apply sorted_snoc; [done|].
    eapply Forall_impl; [exact H2|]. simpl. lia.
  - unfold with_rule. simpl. rewrite fmap_app. apply Forall_app. split; [|constructor; simpl; [lia|done]].
    eapply Forall_impl; [exact H2|]. simpl. lia.
  - intros j e. rewrite rule_with. change (refs with_rule) with (refs bs).
    destruct (_ =? j) eqn:E; [|apply H4]. bool_to_prop. subst. intros [= <-]. by rewrite Hz.
  - intros j Hj. rewrite rule_with. case_match; [done|]. by apply H5.
Qed.

Lemma with_rule_use : in_use None bs -> in_use (Some (blackLisIcrIdx bs)) with_rule.
Proof.
  intros Hin j e. rewrite rule_with. destruct (_ =? j) eqn:E; bool_to_prop; [by subst|].
  intros Hj _. by apply (Hin j).
Qed.

(** Freed at once, when there is no entry for the device's list. *)
Lemma unmake_inv : black_inv (rtk_igmp_blackEntry_free (blackLisIcrIdx bs) with_rule) /\
  forall j, rule j (rtk_igmp_blackEntry_free (blackLisIcrIdx bs) with_rule) = rule j bs.
Proof.
  assert (remove_first (rule_is (blackLisIcrIdx bs)) (blackListHead with_rule) = blackListHead bs) as E.
  { pose proof (bound_fresh bs (bi_bound _ Hinv)) as Hf. unfold rule in Hf. unfold with_rule. simpl. clear Hinv Hicr.
    generalize dependent (blackLisIcrIdx bs). intros i. induction (blackListHead bs) as [|e l IH]; simpl.
    - unfold rule_is. simpl. by rewrite Z.eqb_refl.
    - destruct (rule_is i e); [done|]. intros Hf. by rewrite (IH Hf). }
  unfold rtk_igmp_blackEntry_free. rewrite E. split; [|done]. pose proof Hinv as [H1 H2 H3 H4 H5]. split; try done.
  eapply Forall_impl; [exact H2|]. simpl. lia.
Qed.
End Make.

Lemma use_rule_inv ifidx v6 i ok bs : black_inv bs -> is_Some (rule i bs) -> in_use (Some i) bs ->
  (place_idx i (black_of ifidx v6 bs) = None \/ ok = false -> in_use None bs) ->
  let '(_, _, bs') := use_rule ifidx v6 i ok bs in
  black_inv bs' /\ in_use None bs' /\ blackLisIcrIdx bs' = blackLisIcrIdx bs.
Proof.
  intros Hi Hr Hu Hn. unfold use_rule. destruct (place_idx i (black_of ifidx v6 bs)) as [l|] eqn:E; [|by auto].
  destruct ok; [|by auto]. destruct (gain_inv ifidx v6 i l bs Hi Hr E) as [H1 H2]. split_and!; auto.
  unfold set_blackListHead, set_black. by destruct (black_lists ifidx bs).
Qed.

Lemma fresh_place i l : i ∉ l -> is_Some (place_idx i l).
Proof.
  induction l as [|j l IH]; simpl; [done|]. intros Hn. destruct (j =? i) eqn:E; bool_to_prop; [set_solver|].
  destruct (i <? j); [done|]. destruct IH as [l' ->]; [set_solver|done].
Qed.

(** What every configuration satisfies. *)
Definition black_good (bs : blackState) : Prop := black_inv bs /\ in_use None bs.

Lemma add_good p ifidx a b bs : black_good bs -> 0 <= blackLisIcrIdx bs < 2 ^ 31 - 1 ->
  let bs' := snd (black_add p ifidx a b bs) in
  black_good bs' /\ blackLisIcrIdx bs <= blackLisIcrIdx bs' <= blackLisIcrIdx bs + 1.
Proof.
  intros [Hi Hu] Hb. unfold black_add. destruct (List.find _ (blackListHead bs)) as [e|] eqn:Ee.
  - assert (is_Some (rule (blackListIdx e) bs)) as Hr.
    { apply find_some_idx. apply List.find_some in Ee as [Hin _]. apply list_elem_of_In in Hin. set_solver. }
    pose proof (use_rule_inv ifidx (bl_isIpv6 p) (blackListIdx e) b bs Hi Hr) as Hx.
    destruct (use_rule _ _ _ _ _) as [[r u] bs']. simpl. destruct Hx as (H1 & H2 & H3); [|auto|].
    + intros j x Hj _. by apply (Hu j).
    + split; [by split|lia].
  - destruct a; [|simpl; split; [by split|lia]]. pose proof (made_rule p bs Hi Hb) as Hm. simpl in Hm. simpl.
    rewrite Hm. destruct b; simpl.
    + pose proof (use_rule_inv ifidx (bl_isIpv6 p) (blackLisIcrIdx bs) true (with_rule p bs) (with_rule_inv p bs Hi Hb)) as Hx.
      destruct (fresh_place (blackLisIcrIdx bs) (black_of ifidx (bl_isIpv6 p) (with_rule p bs))) as [l Hl].
      { intros [x Hx']%black_of_refs%(bi_live _ Hi). by rewrite (bound_fresh bs (bi_bound _ Hi)) in Hx'. }
      destruct (use_rule _ _ _ _ _) as [[r u] bs']. simpl. destruct Hx as (H1 & H2 & H3).
      * by rewrite (rule_with p bs Hi), Z.eqb_refl.
      * by apply with_rule_use.
      * rewrite Hl. by intros [|].
      * split; [by split|]. rewrite H3. simpl. lia.
    + destruct (unmake_inv p bs Hi) as [H1 H2]. split; [|simpl; lia]. split; [done|]. intros j x. rewrite H2. apply Hu.
Qed.

Lemma del_idx_good ifidx v6 i bs : black_good bs -> i ∈ black_of ifidx v6 bs ->
  black_good (rtk_igmp_blackEntry_del i (drop_index ifidx v6 i bs)).
Proof.
  intros [Hi Hu] Hin. destruct (bi_live _ Hi i) as [e He]; [by eapply black_of_refs|].
  split; [by eapply lose_inv|by eapply lose_in_use].
Qed.

Lemma existsb_elem i l : existsb (Z.eqb i) l = true -> i ∈ l.
Proof. intros (x & Hx & Ex)%existsb_exists. bool_to_prop. subst. by apply list_elem_of_In. Qed.

(** ** Delete by pattern *)

Definition hits (p : blackPattern) (bs : blackState) (j : Z) : bool :=
  match rule j bs with Some e => del_hit p e | None => false end.

Lemma filter_remove_first (f : Z -> bool) i l : NoDup l ->
  List.filter f (remove_first (Z.eqb i) l) = List.filter (fun j => negb (i =? j) && f j) l.
Proof.
  induction 1 as [|j l Hj Hn IH]; simpl; [done|]. destruct (i =? j) eqn:E; simpl.
  - bool_to_prop. subst. apply List.filter_ext_in. intros x Hx. apply list_elem_of_In in Hx.
    rewrite (proj2 (Z.eqb_neq j x)) by set_solver. done.
  - by rewrite IH.
Qed.

Lemma sorted_NoDup (l : list Z) : StronglySorted Z.lt l -> NoDup l.
Proof.
  induction 1 as [|x l Hs IH Hx]; constructor; [|done]. intros Hin. rewrite Forall_forall in Hx.
  specialize (Hx x Hin). lia.
Qed.

Lemma rule_in_idx i bs e : rule i bs = Some e -> i ∈ (blackListIdx <$> blackListHead bs).
Proof.
  intros He. pose proof (rule_idx _ _ _ He) as <-. apply List.find_some in He as [Hin _].
  apply list_elem_of_In in Hin. set_solver.
Qed.

(** The cursor after a deletion: on the rule in front of the deleted one. *)
Lemma cursor_after ifidx v6 i todo bs e : black_inv bs -> rule i bs = Some e -> Forall (Z.lt i) todo ->
  cursor_ok (prev_of i None (blackListHead bs)) todo
    (blackListHead (rtk_igmp_blackEntry_del i (drop_index ifidx v6 i bs))).
Proof.
  intros Hi He Hf. unfold cursor_ok. destruct (prev_of i None (blackListHead bs)) as [c|] eqn:E; [|done].
  destruct (prev_of_spec i (blackListHead bs) (bi_sorted _ Hi) (rule_in_idx _ _ _ He) None ltac:(done) c E) as [[?|Hc] Hlt]; [done|].
  split; [|eapply Forall_impl; [exact Hf|simpl; lia]].
  destruct (find_some_idx _ _ Hc) as [x Hx]. eapply rule_in_idx.
  rewrite (lose_rule ifidx v6 i bs e Hi He c), (proj2 (Z.eqb_neq i c)) by lia. exact Hx.
Qed.

Lemma del_loop_spec p ifidx todo : let v6 := bl_isIpv6 p in forall cur bs,
  black_good bs -> StronglySorted Z.lt todo -> (forall i, i ∈ todo -> i ∈ black_of ifidx v6 bs) ->
  cursor_ok cur todo (blackListHead bs) ->
  let bs' := black_del_loop p ifidx todo cur bs in
  black_good bs' /\ blackLisIcrIdx bs' = blackLisIcrIdx bs /\
  forall ifidx' v6', black_of ifidx' v6' bs' =
    if bool_decide (ifidx' = ifidx /\ v6' = v6)
    then List.filter (fun j => negb (existsb (Z.eqb j) todo && hits p bs j)) (black_of ifidx v6 bs)
    else black_of ifidx' v6' bs.
Proof.
  intros v6. induction todo as [|i todo IH]; intros cur bs Hg Hs Hin Hc; simpl.
  { split_and!; try done. intros. case_bool_decide as Hd; [|done]. destruct Hd as [-> ->].
    clear. by induction (black_of ifidx v6 bs) as [|x l IH]; simpl; [|rewrite <- IH]. }
  pose proof Hg as [Hi Hu]. apply StronglySorted_inv in Hs as [Hs Hlt].
  rewrite (find_cursor cur i todo) by (done || apply Hi). fold (rule i bs).
  destruct (bi_live _ Hi i) as [e He]; [eapply black_of_refs, Hin; left|]. rewrite He.
  assert (hits p bs i = del_hit p e) as Hhit by (unfold hits; by rewrite He).
  destruct (del_hit p e) eqn:Eh.
  - set (bs1 := rtk_igmp_blackEntry_del i _).
    assert (forall j, rule j bs1 = if i =? j then _ else rule j bs) as Hr by (intros; by apply (lose_rule ifidx v6 i bs e)).
    assert (forall j, j ∈ todo -> (i =? j) = false) as Hne.
    { intros j Hj. rewrite Forall_forall in Hlt. specialize (Hlt j Hj). apply Z.eqb_neq. lia. }
    assert (forall f w, black_of f w bs1 = _) as Hb by (intros; apply (lose_lists ifidx v6 i bs)).
    destruct (IH (prev_of i None (blackListHead bs)) bs1) as (H1 & H2 & H3).
    + apply del_idx_good; [done|]. apply Hin. left.
    + done.
    + intros j Hj. rewrite Hb, bool_decide_true by done. pose proof (Hin j ltac:(by right)) as Hj'.
      rewrite (remove_perm i) in Hj' by (apply Hin; left). apply elem_of_cons in Hj' as [->|]; [|done].
      specialize (Hne _ Hj). by rewrite Z.eqb_refl in Hne.
    + by eapply cursor_after.
    + split_and!; [done|rewrite H2; by apply (lose_dev ifidx v6 i bs)|]. intros f w. rewrite H3.
      case_bool_decide as Hd; [|by rewrite Hb, bool_decide_false]. destruct Hd as [-> ->]. rewrite Hb, bool_decide_true by done.
      rewrite filter_remove_first by apply sorted_NoDup, (bi_dev _ Hi). apply List.filter_ext. intros j.
      unfold hits at 1. rewrite Hr, (Z.eqb_sym j i). destruct (i =? j) eqn:E; simpl.
      * bool_to_prop. subst. by rewrite Hhit.
      * done.
  - destruct (IH (Some i) bs Hg Hs) as (H1 & H2 & H3).
    + intros j Hj. apply Hin. by right.
    + split; [by eapply rule_in_idx|done].
    + split_and!; [done|done|]. intros f w. rewrite H3. case_bool_decide; [|done]. apply List.filter_ext. intros j.
      destruct (j =? i) eqn:E; simpl; [|done]. bool_to_prop. subst. rewrite Hhit. by rewrite andb_false_r.
Qed.

Lemma del_good p ifidx i bs : black_good bs ->
  black_good (snd (rtk_igmp_blackListDel p true ifidx i bs)) /\
  blackLisIcrIdx (snd (rtk_igmp_blackListDel p true ifidx i bs)) = blackLisIcrIdx bs.
Proof.
  intros Hg. pose proof Hg as [Hi _]. unfold rtk_igmp_blackListDel. destruct p as [p|].
  - destruct (del_loop_spec p ifidx (black_of ifidx (bl_isIpv6 p) bs) None bs Hg (bi_dev _ Hi _ _)) as (H1 & H2 & _); done.
  - unfold rtk_igmp_blackListDel_byIdx. simpl. repeat case_match; simpl; try done;
      (split; [apply del_idx_good; [done|by apply existsb_elem]|]).
    + by apply (lose_dev ifidx false i bs).
    + by apply (lose_dev ifidx true i bs).
Qed.

Lemma init_good : black_good rtk_igmp_blackEntry_flashInit.
Proof. split; [|by intros i e]. split; [constructor|constructor|by intros ? []; constructor|done|by intros ? ?%elem_of_nil]. Qed.

Lemma ops_good ops bs k : black_good bs -> 0 <= blackLisIcrIdx bs <= k -> k + Z.of_nat (length ops) < 2 ^ 31 ->
  black_good (foldl black_do bs ops).
Proof.
  revert bs k. induction ops as [|o ops IH]; intros bs k Hg Hb Hl; simpl; [done|]. simpl in Hl.
  assert (black_good (black_do bs o) /\ 0 <= blackLisIcrIdx (black_do bs o) <= k + 1) as [H1 H2].
  { destruct o as [p f a b|p f i]; simpl.
    - destruct (add_good p f a b bs Hg) as [? ?]; [lia|]. split; [done|lia].
    - destruct (del_good p f i bs Hg) as [? ->]. split; [done|lia]. }
  apply (IH _ (k + 1)); [done|lia|lia].
Qed.

(** ** The check *)

Lemma black_loop_spec mac dev cur l : StronglySorted Z.lt dev -> sorted_rules l -> cursor_ok cur dev l ->
  black_loop mac dev cur l =
  existsb (fun i => match List.find (rule_is i) l with Some e => black_hit mac (bl_patten e) | None => false end) dev.
Proof.
  intros Hs Hl. revert cur. induction Hs as [|i dev Hs IH Hlt]; intros cur Hc; simpl; [done|].
  rewrite (find_cursor cur i dev) by done. destruct (List.find (rule_is i) l) as [e|] eqn:Ee; [|by apply IH].
  destruct (black_hit mac (bl_patten e)); [done|]. simpl. apply IH. split; [|done].
  pose proof (rule_idx _ _ _ Ee) as <-. apply List.find_some in Ee as [Hin _]. apply list_elem_of_In in Hin. set_solver.
Qed.

(** ** Theorems *)

(** Configurations that calls of add and delete build from the empty one; fewer
    calls than the 32-bit counter of indices has room for. *)
Definition black_config (ops : list black_op) : blackState := foldl black_do rtk_igmp_blackEntry_flashInit ops.

Lemma config_good ops : Z.of_nat (length ops) < 2 ^ 31 -> black_good (black_config ops).
Proof. intros Hl. apply (ops_good ops _ 0); [apply init_good|simpl; lia|lia]. Qed.

(** The reference counts of the black list are exact after any sequence of adds
    and deletes, failed allocations included: a rule is in the table exactly as long
    as some device uses it, its count is the number of device lists that hold its
    index, and no device list holds an index without a rule. *)
Theorem black_references_exact ops :
  Z.of_nat (length ops) < 2 ^ 31 ->
  let bs := black_config ops in
  (forall i e, rule i bs = Some e -> blackRefCnt e = uses i (refs bs) /\ 0 < blackRefCnt e) /\
  (forall ifidx v6 i, i ∈ black_of ifidx v6 bs -> is_Some (rule i bs)) /\
  NoDup (blackListIdx <$> blackListHead bs) /\ forall ifidx v6, NoDup (black_of ifidx v6 bs).
Proof.
  intros Hl bs. destruct (config_good ops Hl) as [Hi Hu]. fold bs in Hi, Hu. split_and!.
  - intros i e He. split; [by apply (bi_refs _ Hi)|by apply (Hu i)].
  - intros ifidx v6 i Hin. by eapply (bi_live _ Hi), black_of_refs.
  - apply sorted_NoDup, (bi_sorted _ Hi).
  - intros. apply sorted_NoDup, (bi_dev _ Hi).
Qed.

(** The check, which walks the device's list and the table of rules with one
    cursor, answers what a search of the table for every index of the device would:
    whether one of the device's rules hits the MAC. *)
Theorem black_check_is_search ops ifidx v mac :
  Z.of_nat (length ops) < 2 ^ 31 ->
  rtk_igmp_filterblackListCheck ifidx v mac (black_config ops) = true <->
  exists i e, i ∈ black_of ifidx (is_ipv6 v) (black_config ops) /\ rule i (black_config ops) = Some e /\
    black_hit mac (bl_patten e) = true.
Proof.
  intros Hl. destruct (config_good ops Hl) as [Hi _]. unfold rtk_igmp_filterblackListCheck.
  rewrite black_loop_spec by (done || apply Hi). rewrite existsb_exists. setoid_rewrite <- list_elem_of_In. split.
  - intros (i & Hin & Hm). fold (rule i (black_config ops)) in Hm.
    destruct (rule i (black_config ops)) as [e|] eqn:Ee; [|done]. eauto.
  - intros (i & e & Hin & He & Hm). exists i. split; [done|]. unfold rule in He. by rewrite He.
Qed.

(** Deleting by pattern takes from the device exactly the rules that the
    pattern names (all rules of the IP version if it gives no MAC), from no other
    device anything, and leaves the counts exact. *)
Theorem black_delete_by_pattern_exact ops p ifidx i :
  Z.of_nat (length ops) < 2 ^ 31 ->
  let bs := black_config ops in
  let '(r, bs') := rtk_igmp_blackListDel (Some p) true ifidx i bs in
  r = SUCCESS /\ black_good bs' /\
  forall ifidx' v6, black_of ifidx' v6 bs' =
    if bool_decide (ifidx' = ifidx /\ v6 = bl_isIpv6 p)
    then List.filter (fun j => negb (match rule j bs with Some e => del_hit p e | None => false end)) (black_of ifidx v6 bs)
    else black_of ifidx' v6 bs.
Proof.
  intros Hl bs. pose proof (config_good ops Hl) as Hg. fold bs in Hg.
  destruct (del_loop_spec p ifidx (black_of ifidx (bl_isIpv6 p) bs) None bs Hg (bi_dev _ (proj1 Hg) _ _)) as (H1 & _ & H3); [done..|].
  simpl. split_and!; try done. intros ifidx' v6. rewrite H3. case_bool_decide as Hd; [|done]. destruct Hd as [_ ->].
  apply List.filter_ext_in. intros j Hj. f_equal. unfold hits.
  replace (existsb (Z.eqb j) (black_of ifidx (bl_isIpv6 p) bs)) with true; [done|].
  symmetry. apply existsb_exists. exists j. split; [done|apply Z.eqb_refl].
Qed.

(** ** Concrete runs *)

Definition mac_a : list Z := [2; 0; 0; 0; 0; 1].
Definition mac_b : list Z := [2; 0; 0; 0; 0; 2].
Definition full_mask : list Z := [255; 255; 255; 255; 255; 255].
Definition rule_a : blackPattern := BlackPattern false true mac_a full_mask.
Definition rule_b : blackPattern := BlackPattern false true mac_b full_mask.
(** Two rules on device 3, one of them on device 4 too, then taken from device 3. *)
Definition demo_ops : list black_op :=
  [BlAdd rule_a 3 true true; BlAdd rule_b 3 true true; BlAdd rule_a 4 true true; BlDel (Some rule_a) 3 0].

Lemma black_references_exact_witness :
  match rule 0 (black_config demo_ops) with Some e => 0 < blackRefCnt e | None => False end.
Proof.
  destruct (black_references_exact demo_ops ltac:(by_compute)) as (H1 & H2 & _). cbv zeta in H1, H2.
  destruct (H2 4 false 0) as [e He]; [vm_compute; left|]. rewrite He. by apply (H1 0).
Defined.

Lemma black_check_is_search_witness :
  rtk_igmp_filterblackListCheck 3 IP_VERSION4 mac_b (black_config demo_ops) = true.
Proof.
  apply black_check_is_search; [by_compute|]. exists 1, (BlackListEntry 1 1 rule_b).
  split; [vm_compute; left|]. split; by_compute.
Defined.

Lemma black_delete_by_pattern_exact_witness :
  black_of 3 false (snd (rtk_igmp_blackListDel (Some rule_b) true 3 0 (black_config demo_ops))) = [].
Proof.
  pose proof (black_delete_by_pattern_exact demo_ops rule_b 3 0 ltac:(by_compute)) as Hx. cbv zeta in Hx.
  destruct (rtk_igmp_blackListDel (Some rule_b) true 3 0 (black_config demo_ops)) as [r bs']. cbn [snd].
  destruct Hx as (_ & _ & ->). by_compute.
Defined.

(** A rule added against a MAC throws out one client of each group only: of two
    clients that share the MAC, in one group, the second stays. *)
#[local] Existing Instance demo_config.
#[local] Existing Instance demo_policy.
#[local] Existing Instance demo_flow_config.
#[local] Existing Instance demo_env.
Definition demo_shared : snooper :=
  snd (with_flows (handle (demo_hdr false) (IgmpInvariant.Join IP_VERSION4 0x16 (ip4 0xC0A80103) demo_group)) demo_joined).
Example update_keeps_second_client :
  length (members_of 0 IP_VERSION4 (db demo_shared)) = 2%nat /\
  length (members_of 0 IP_VERSION4 (db (_rtk_igmp_blackList_updateFlow
    (BlackPattern false true [0; 1; 2; 3; 4; 5] full_mask) 3 demo_shared))) = 1%nat.
Proof. vm_compute. done. Qed.
