(* ===== verification/IgmpPacket.v ===== *)
(** * IgmpPacket: from a packet to the handlers

    The entry point of the control path, [rtk_igmp_mld_process]: which packets are
    looked at, the rate limit, the version filters, and for an IGMPv3 or MLDv2
    report the walk over its group records.

    The packet is memory from the IGMP or ICMPv6 header on: the code does not stop
    at the end of the packet, so the memory does not either.  The layout of the
    messages and the numbers of the types are in headers that are not in the tree;
    they are parameters, the fields of [WireFormat], and what RFC 3376 and RFC 3810
    say about them is the class [RfcWire]. *)
From S2P Require Import Prelude IgmpTable IgmpReport IgmpInvariant IgmpTimer IgmpFlow IgmpForward IgmpBlack.

(** ** Memory *)

Definition mem := nat -> Z.
Definition be16 (m : mem) (o : nat) : Z := m o * 2 ^ 8 + m (o + 1)%nat.
Definition be32 (m : mem) (o : nat) : Z := be16 m o * 2 ^ 16 + be16 m (o + 2).
Definition le32 (m : mem) (o : nat) : Z :=
  m o + m (o + 1)%nat * 2 ^ 8 + m (o + 2)%nat * 2 ^ 16 + m (o + 3)%nat * 2 ^ 24.

(** Offsets of fields and numbers of types; whether [memcpy] into words sees the
    bytes in little-endian order; and the verdict whose value is 0, if any. *)
Class WireFormat := {
  off_msgType : nat;
  off_msgGroup : ip_version -> nat;
  off_numOfRecords : ip_version -> nat;
  off_recordList : ip_version -> nat;
  off_type : ip_version -> nat;
  off_auxLen : ip_version -> nat;
  off_numOfSrc : ip_version -> nat;
  off_groupAddr : ip_version -> nat;
  off_srcList : ip_version -> nat;
  MODE_IS_INCLUDE : Z;
  MODE_IS_EXCLUDE : Z;
  CHANGE_TO_INCLUDE_MODE : Z;
  CHANGE_TO_EXCLUDE_MODE : Z;
  ALLOW_NEW_SOURCES : Z;
  BLOCK_OLD_SOURCES : Z;
  IGMP_HOST_MEMBERSHIP_REPORT : Z;
  IGMPV2_HOST_MEMBERSHIP_REPORT : Z;
  IGMPV3_HOST_MEMBERSHIP_REPORT : Z;
  IGMP_HOST_MEMBERSHIP_QUERY : Z;
  IGMP_HOST_LEAVE_MESSAGE : Z;
  ICMPV6_MLD2_REPORT : Z;
  ICMPV6_MGM_QUERY : Z;
  ICMPV6_MGM_REPORT : Z;
  ICMPV6_MGM_REDUCTION : Z;
  little_endian : bool;
  verdict_of_zero : option nf_ret
}.

(** The messages of RFC 3376 (4.2) and RFC 3810 (5.2), and the older ones. *)
Class RfcWire {w : WireFormat} := {
  rfc_numOfRecords v : off_numOfRecords v = 6%nat;
  rfc_recordList v : off_recordList v = 8%nat;
  rfc_type v : off_type v = 0%nat;
  rfc_auxLen v : off_auxLen v = 1%nat;
  rfc_numOfSrc v : off_numOfSrc v = 2%nat;
  rfc_groupAddr v : off_groupAddr v = 4%nat;
  rfc_srcList v : off_srcList v = match v with IP_VERSION4 => 8%nat | IP_VERSION6 => 20%nat end;
  rfc_modes : (MODE_IS_INCLUDE, MODE_IS_EXCLUDE, CHANGE_TO_INCLUDE_MODE, CHANGE_TO_EXCLUDE_MODE,
               ALLOW_NEW_SOURCES, BLOCK_OLD_SOURCES) = (1, 2, 3, 4, 5, 6)
}.

(** ** Packets *)

Record ipv4Hdr := Ipv4Hdr { ip4_saddr : Z; tot_len : Z; ihl : Z }.
Record ipv6Hdr := Ipv6Hdr { ip6_saddr : addr; payload_len : Z }.

(** [rtk_igmp_pktHdr_t] as the receive path fills it. *)
Record packet := Packet {
  p_smac : list Z;
  p_ethHdr : bool;
  p_devIfindex : Z;
  p_devExtPortEn : Z;
  p_devExtPortId : Z;
  p_ctagif : bool;
  p_cvid : Z;
  p_stagif : bool;
  p_svid : Z;
  iph : option ipv4Hdr;
  ip6h : option ipv6Hdr;
  igmph : option mem;
  icmp6h : option mem
}.

Section Packet.
Context {cfg : IgmpConfig} {fcfg : FlowConfig} {policy : AdmissionPolicy} {env : SnooperEnv} {wire : WireFormat}.

Definition hdr_of (p : packet) (mi : nat) (di : deviceInfo) : pktHdr :=
  PktHdr (p_smac p) (p_devIfindex p) mi (p_devExtPortEn p) (p_devExtPortId p) (p_ctagif p) (p_cvid p)
    (p_stagif p) (p_svid p) (aging (confIgmp di)) (aging (confIgmp6 di)).

(** The IP version, the message, the sender and [igmpDataLen]; [None] is "Not
    support". *)
Definition packet_parts (p : packet) : option (ip_version * mem * addr * Z) :=
  match iph p, ip6h p, igmph p, icmp6h p with
  | Some h, None, Some m, _ => Some (IP_VERSION4, m, Addr (ip4_saddr h) 0 0 0, u16 (tot_len h - ihl h * 4))
  | None, Some h, _, Some m => Some (IP_VERSION6, m, ip6_saddr h, payload_len h)
  | _, _, _, _ => None
  end.

(** An address in the packet: [ntohl] for IPv4, [memcpy] for IPv6. *)
Definition raw32 (m : mem) (o : nat) : Z := if little_endian then le32 m o else be32 m o.
Definition addr_at (v : ip_version) (m : mem) (o : nat) : addr :=
  match v with
  | IP_VERSION4 => Addr (be32 m o) 0 0 0
  | IP_VERSION6 => Addr (raw32 m o) (raw32 m (o + 4)) (raw32 m (o + 8)) (raw32 m (o + 12))
  end.

(** ** The walk over the group records *)

Definition addr_len (v : ip_version) : nat := match v with IP_VERSION4 => 4 | IP_VERSION6 => 16 end.
Definition rec_numOfSrc (v : ip_version) (m : mem) (o : nat) : nat := Z.to_nat (be16 m (o + off_numOfSrc v)).

(** What the handlers read of the record at [o]. *)
Definition record_at (v : ip_version) (m : mem) (o : nat) : groupRecord :=
  GroupRecord (addr_at v m (o + off_groupAddr v))
    ((fun i => addr_at v m (o + off_srcList v + i * addr_len v)) <$> seq 0 (rec_numOfSrc v m o)).

(** The switch on the type of a record. *)
Definition record_report (v : ip_version) (ca : addr) (ty : Z) (r : groupRecord) : option report :=
  if ty =? MODE_IS_INCLUDE then Some (IsInclude v ca r)
  else if ty =? MODE_IS_EXCLUDE then Some (IsExclude v ca r)
  else if ty =? CHANGE_TO_INCLUDE_MODE then Some (ToInclude v ca r)
  else if ty =? CHANGE_TO_EXCLUDE_MODE then Some (ToExclude v ca r)
  else if ty =? ALLOW_NEW_SOURCES then Some (Allow v ca r)
  else if ty =? BLOCK_OLD_SOURCES then Some (Block v ca r)
  else None.

(** The shift of the pointer to the next record. *)
Definition next_record (v : ip_version) (m : mem) (o : nat) : nat :=
  let head := match v with IP_VERSION4 => 8%nat | IP_VERSION6 => 20%nat end in
  (o + head + rec_numOfSrc v m o * addr_len v + Z.to_nat (m (o + off_auxLen v)%nat) * 4)%nat.

(** [returnVal] is [None] while it is 0 and 0 is no verdict. *)
Definition stops (r : option nf_ret) : option nf_ret :=
  match r with Some RTK_IGMP_NF_DROP => Some RTK_IGMP_NF_DROP
             | Some RTK_IGMP_NF_ACCEPT => Some RTK_IGMP_NF_ACCEPT | _ => None end.

(** [k] records are left of [numOfRecords], the next is at [o]; a record may start
    at most at the end of the packet. *)
Fixpoint walk_records (hdr : pktHdr) (v : ip_version) (ca : addr) (m : mem) (igmpDataLen numOfRecords : Z)
    (k o : nat) (returnVal : option nf_ret) (st : snooper) : nf_ret * snooper :=
  match k with
  | O => (RTK_IGMP_NF_ACCEPT, st)
  | S k =>
      if igmpDataLen <? Z.of_nat o then (RTK_IGMP_NF_ACCEPT, st)
      else
        let '(returnVal, st) :=
          match record_report v ca (m (o + off_type v)%nat) (record_at v m o) with
          | Some r => let '(x, st) := with_flows (handle hdr r) st in (Some x, st)
          | None => (returnVal, st)
          end in
        match (if numOfRecords =? 1 then stops returnVal else None) with
        | Some r => (r, st)
        | None => walk_records hdr v ca m igmpDataLen numOfRecords k (next_record v m o) returnVal st
        end
  end.

Definition rtk_igmp_processIgmpv3Mldv2Reports (hdr : pktHdr) (p : packet) (st : snooper) : nf_ret * snooper :=
  match packet_parts p with
  | None => (RTK_IGMP_NF_ACCEPT, st)
  | Some (v, m, ca, len) =>
      let n := be16 m (off_numOfRecords v) in
      walk_records hdr v ca m len n (Z.to_nat n) (off_recordList v) verdict_of_zero st
  end.

(** ** The other messages *)

Definition process_join (hdr : pktHdr) (p : packet) (st : snooper) : nf_ret * snooper :=
  match packet_parts p with
  | None => (RTK_IGMP_NF_ACCEPT, st)
  | Some (v, m, ca, _) => with_flows (handle hdr (Join v (m 0%nat) ca (addr_at v m (off_msgGroup v)))) st
  end.
Definition process_leave (hdr : pktHdr) (p : packet) (st : snooper) : nf_ret * snooper :=
  match packet_parts p with
  | None => (RTK_IGMP_NF_ACCEPT, st)
  | Some (v, m, ca, _) => with_flows (handle hdr (Leave v ca (addr_at v m (off_msgGroup v)))) st
  end.

(** The rate limit of the device, if it has one for the IP version. *)
Definition limit_packet (v : ip_version) (di : deviceInfo) (p : packet) (st : snooper) : bool * snooper :=
  if nonzero (rate (ratelimit (snoop_conf v di))) then
    let '(ok, (r4, r6)) := check_rate_limit cycle_duration (bool_decide (is_Some (iph p))) (bool_decide (is_Some (ip6h p)))
                             jiffies (ratelimit (confIgmp di), ratelimit (confIgmp6 di)) in
    (ok, alter_dev (p_devIfindex p) (fun d => alter_conf IP_VERSION6 (set_ratelimit r6) (alter_conf IP_VERSION4 (set_ratelimit r4) d)) st)
  else (true, st).

(** One case of the switch: rate limit, versions to drop, versions to ignore, work. *)
Definition gated (v : ip_version) (di : deviceInfo) (p : packet) (drop ignore : bool)
    (act : snooper -> nf_ret * snooper) (st : snooper) : nf_ret * snooper :=
  let '(ok, st) := limit_packet v di p st in
  if negb ok then (RTK_IGMP_NF_DROP, st)
  else if drop then (RTK_IGMP_NF_DROP, st)
  else if ignore then (RTK_IGMP_NF_ACCEPT, st)
  else act st.

Definition process_igmp (hdr : pktHdr) (di : deviceInfo) (p : packet) (ty : Z) (st : snooper) : nf_ret * snooper :=
  let cf := confIgmp di in
  if snoopingDisable cf then (RTK_IGMP_NF_ACCEPT, st)
  else if ty =? IGMP_HOST_MEMBERSHIP_REPORT
  then gated IP_VERSION4 di p (verDrp_v1 cf || reportDrop cf) (verIgr_v1 cf) (process_join hdr p) st
  else if ty =? IGMPV2_HOST_MEMBERSHIP_REPORT
  then gated IP_VERSION4 di p (verDrp_v2 cf || reportDrop cf) (verIgr_v2 cf) (process_join hdr p) st
  else if ty =? IGMPV3_HOST_MEMBERSHIP_REPORT
  then gated IP_VERSION4 di p (verDrp_v3 cf || reportDrop cf) (verIgr_v3 cf) (rtk_igmp_processIgmpv3Mldv2Reports hdr p) st
  else if ty =? IGMP_HOST_MEMBERSHIP_QUERY
  then gated IP_VERSION4 di p false false (pair RTK_IGMP_NF_ACCEPT) st
  else if ty =? IGMP_HOST_LEAVE_MESSAGE
  then gated IP_VERSION4 di p (verDrp_v2 cf) (verIgr_v2 cf) (process_leave hdr p) st
  else (RTK_IGMP_NF_ACCEPT, st).

Definition process_mld (hdr : pktHdr) (di : deviceInfo) (p : packet) (ty : Z) (st : snooper) : nf_ret * snooper :=
  let cf := confIgmp6 di in
  if snoopingDisable cf then (RTK_IGMP_NF_ACCEPT, st)
  else if ty =? ICMPV6_MLD2_REPORT
  then gated IP_VERSION6 di p (verDrp_v2 cf || reportDrop cf) (verIgr_v2 cf) (rtk_igmp_processIgmpv3Mldv2Reports hdr p) st
  else if ty =? ICMPV6_MGM_QUERY
  then gated IP_VERSION6 di p false false (pair RTK_IGMP_NF_ACCEPT) st
  else if ty =? ICMPV6_MGM_REPORT
  then gated IP_VERSION6 di p (verDrp_v1 cf || reportDrop cf) (verIgr_v1 cf) (process_join hdr p) st
  else if ty =? ICMPV6_MGM_REDUCTION
  then gated IP_VERSION6 di p (verDrp_v1 cf) (verIgr_v1 cf) (process_leave hdr p) st
  else (RTK_IGMP_NF_ACCEPT, st).

Definition rtk_igmp_mld_process (bs : blackState) (srcDev : netDevice) (p : packet) (st : snooper) : nf_ret * snooper :=
  match _rtk_igmp_devIfidx_to_devInfo (p_devIfindex p) st with
  | None => (RTK_IGMP_NF_ACCEPT, st)
  | Some di =>
      let mi := rtk_igmp_srcNetDevToModuleIdx (Some srcDev) (Some di) st in
      if mi =? FAIL then (RTK_IGMP_NF_ACCEPT, st)
      else if p_ethHdr p && rtk_igmp_filterblackListCheck (ifindex di)
                              (match iph p with Some _ => IP_VERSION4 | None => IP_VERSION6 end) (p_smac p) bs
      then (RTK_IGMP_NF_ACCEPT, st)
      else
        let hdr := hdr_of p (Z.to_nat mi) di in
        match igmph p, icmp6h p with
        | Some m, _ => process_igmp hdr di p (m off_msgType) st
        | None, Some m => process_mld hdr di p (m off_msgType) st
        | None, None => (RTK_IGMP_NF_ACCEPT, st)
        end
  end.
End Packet.
