(* ===== verification/IgmpPacketSpec.v ===== *)
(** * IgmpPacketSpec: the control path of the snooper

    The walk over the records of an IGMPv3 or MLDv2 report reads what a sender
    encoded; a forged count does not prolong it; it reads past the packet, though.
    Only packets that pass every filter are learnt from, and no sequence of packets,
    whatever is in them, breaks the database. *)
From S2P Require Import Prelude IgmpTable IgmpReport IgmpInvariant IgmpView IgmpSemantics IgmpPolicy IgmpTimer IgmpFlow IgmpFlowSpec IgmpFlowOps IgmpForward IgmpForwardSpec IgmpCoherence IgmpDataPlane IgmpBlack IgmpPacket.

(** ** Encoding *)

(** A group record as a sender has it. *)
Record wireRecord := WireRecord { w_type : Z; w_record : groupRecord; w_aux : list Z }.

Section Encode.
Context {wire : WireFormat}.

Definition bytes16 (x : Z) : list Z := [x / 2 ^ 8; x mod 2 ^ 8].
Definition bytes32 (x : Z) : list Z := bytes16 (x / 2 ^ 16) ++ bytes16 (x mod 2 ^ 16).
Definition raw_bytes (x : Z) : list Z := if little_endian then reverse (bytes32 x) else bytes32 x.
Definition encode_addr (v : ip_version) (a : addr) : list Z :=
  match v with
  | IP_VERSION4 => bytes32 (word0 a)
  | IP_VERSION6 => raw_bytes (word0 a) ++ raw_bytes (word1 a) ++ raw_bytes (word2 a) ++ raw_bytes (word3 a)
  end.
Definition encode_record (v : ip_version) (r : wireRecord) : list Z :=
  [w_type r; Z.of_nat (length (w_aux r) / 4)] ++ bytes16 (Z.of_nat (length (recSources (w_record r)))) ++
  encode_addr v (recGroup (w_record r)) ++ concat (encode_addr v <$> recSources (w_record r)) ++ w_aux r.
Definition encode_report (v : ip_version) (ty : Z) (rs : list wireRecord) : list Z :=
  [ty; 0; 0; 0; 0; 0] ++ bytes16 (Z.of_nat (length rs)) ++ concat (encode_record v <$> rs).

Definition wf_addr (v : ip_version) (a : addr) : Prop :=
  stored_addr v a = a /\ is_u32 (word0 a) /\ is_u32 (word1 a) /\ is_u32 (word2 a) /\ is_u32 (word3 a).
Record wf_record (v : ip_version) (r : wireRecord) : Prop := {
  wf_type : 1 <= w_type r <= 6;
  wf_group : wf_addr v (recGroup (w_record r));
  wf_sources : Forall (wf_addr v) (recSources (w_record r));
  wf_count : Z.of_nat (length (recSources (w_record r))) < 2 ^ 16;
  wf_aux : exists k, length (w_aux r) = (k * 4)%nat
}.

(** ** Decoding *)

(** The bytes are in memory at [o]. *)
Definition holds (m : mem) (o : nat) (bs : list Z) : Prop := forall i b, bs !! i = Some b -> m (o + i)%nat = b.

Lemma holds_app m o a b : holds m o (a ++ b) <-> holds m o a /\ holds m (o + length a)%nat b.
Proof.
  split.
  - intros H. split; intros i x Hi; [apply H; by apply lookup_app_l_Some|].
    rewrite <- Nat.add_assoc. apply H. rewrite lookup_app_r by lia. by replace (length a + i - length a)%nat with i by lia.
  - intros [H1 H2] i x [Hi|[Hl Hi]]%lookup_app_Some; [by apply H1|].
    replace (o + i)%nat with (o + length a + (i - length a))%nat by lia. by apply H2.
Qed.

Lemma holds_cons m o x b : holds m o (x :: b) <-> m o = x /\ holds m (S o) b.
Proof.
  split.
  - intros H. split; [rewrite <- (Nat.add_0_r o); by apply H|]. intros i y Hi.
    replace (S o + i)%nat with (o + S i)%nat by lia. by apply H.
  - intros [H1 H2] [|i] y Hi; simplify_eq/=; [by rewrite Nat.add_0_r|]. rewrite <- Nat.add_succ_comm. by apply H2.
Qed.

Lemma be16_holds m o x : holds m o (bytes16 x) -> be16 m o = x.
Proof.
  unfold bytes16. rewrite !holds_cons. intros (H1 & H2 & _). unfold be16. rewrite Nat.add_1_r, H1, H2.
  pose proof (Z.div_mod x (2 ^ 8) ltac:(lia)). lia.
Qed.

Lemma be32_holds m o x : holds m o (bytes32 x) -> be32 m o = x.
Proof.
  unfold bytes32. rewrite holds_app. intros [H1%be16_holds H2%be16_holds]. unfold be32.
  change (length (bytes16 (x / 2 ^ 16))) with 2%nat in H2. rewrite H1, H2.
  pose proof (Z.div_mod x (2 ^ 16) ltac:(lia)). lia.
Qed.

Lemma le32_holds m o x : holds m o (reverse (bytes32 x)) -> le32 m o = x.
Proof.
  unfold bytes32, bytes16. simpl app. unfold reverse. cbn [rev_append]. rewrite !holds_cons. intros (H1 & H2 & H3 & H4 & _).
  unfold le32. replace (o + 1)%nat with (S o) by lia. replace (o + 2)%nat with (S (S o)) by lia.
  replace (o + 3)%nat with (S (S (S o))) by lia. rewrite H1, H2, H3, H4.
  pose proof (Z.div_mod x (2 ^ 16) ltac:(lia)). pose proof (Z.div_mod (x / 2 ^ 16) (2 ^ 8) ltac:(lia)).
  pose proof (Z.div_mod (x mod 2 ^ 16) (2 ^ 8) ltac:(lia)). lia.
Qed.

Lemma raw32_holds m o x : holds m o (raw_bytes x) -> raw32 m o = x.
Proof. unfold raw_bytes, raw32. destruct little_endian; [apply le32_holds|apply be32_holds]. Qed.

Lemma raw_bytes_length x : length (raw_bytes x) = 4%nat.
Proof. unfold raw_bytes. by destruct little_endian. Qed.
Lemma encode_addr_length v a : length (encode_addr v a) = addr_len v.
Proof. destruct v; simpl; [done|]. by rewrite !length_app, !raw_bytes_length. Qed.

Lemma addr_holds v m o a : wf_addr v a -> holds m o (encode_addr v a) -> addr_at v m o = a.
Proof.
  intros (Hc & _) H. destruct a as [a b c d], v; simpl in *.
  - rewrite (be32_holds _ _ _ H). exact Hc.
  - rewrite !holds_app, !raw_bytes_length in H. destruct H as (H1 & H2 & H3 & H4).
    replace (o + 4 + 4)%nat with (o + 8)%nat in * by lia. replace (o + 8 + 4)%nat with (o + 12)%nat in * by lia.
    by rewrite (raw32_holds _ _ _ H1), (raw32_holds _ _ _ H2), (raw32_holds _ _ _ H3), (raw32_holds _ _ _ H4).
Qed.

Lemma sources_length v l : length (concat (encode_addr v <$> l)) = (length l * addr_len v)%nat.
Proof. induction l as [|a l IH]; [done|]. csimpl. rewrite length_app, encode_addr_length, IH. lia. Qed.

Lemma sources_holds v m l : Forall (wf_addr v) l -> forall o, holds m o (concat (encode_addr v <$> l)) ->
  (fun i => addr_at v m (o + i * addr_len v)) <$> seq 0 (length l) = l.
Proof.
  induction 1 as [|a l Ha Hl IH]; intros o H; [done|]. csimpl in H. rewrite holds_app, encode_addr_length in H.
  destruct H as [H1 H2]. csimpl. f_equal; [rewrite Nat.add_0_r; by apply addr_holds|].
  rewrite <- (fmap_S_seq 0), <- list_fmap_compose. rewrite <- (IH _ H2) at 2. apply list_fmap_ext. intros i j _. simpl. f_equal. lia.
Qed.
End Encode.

Section Walk.
Context {cfg : IgmpConfig} {fcfg : FlowConfig} {policy : AdmissionPolicy} {env : SnooperEnv} {wire : WireFormat}.

Section Rfc.
Context {rfc : RfcWire}.

Definition head_len (v : ip_version) : nat := match v with IP_VERSION4 => 8 | IP_VERSION6 => 20 end.

Lemma encode_record_length v r :
  length (encode_record v r) = (head_len v + length (recSources (w_record r)) * addr_len v + length (w_aux r))%nat.
Proof.
  unfold encode_record. rewrite !length_app, encode_addr_length, sources_length. destruct v; simpl; lia.
Qed.

Lemma record_holds v m o r : wf_record v r -> holds m o (encode_record v r) ->
  m (o + off_type v)%nat = w_type r /\ record_at v m o = w_record r /\
  next_record v m o = (o + length (encode_record v r))%nat.
Proof.
  intros [Ht Hg Hs Hn [k Hk]] H. rewrite encode_record_length. unfold encode_record in H.
  rewrite !holds_app in H. destruct H as (H0 & H2 & H4 & H8 & _).
  rewrite encode_addr_length in H8. simpl length in *. rewrite !holds_cons in H0. destruct H0 as (T & A & _).
  assert (rec_numOfSrc v m o = length (recSources (w_record r))) as En.
  { unfold rec_numOfSrc. rewrite rfc_numOfSrc, (be16_holds _ _ _ H2). lia. }
  split_and!.
  - by rewrite rfc_type, Nat.add_0_r.
  - unfold record_at. rewrite En, rfc_groupAddr, rfc_srcList. destruct (w_record r) as [g l]. simpl in *. f_equal.
    + apply addr_holds; [done|]. by replace (o + 4)%nat with (o + 2 + 2)%nat by lia.
    + rewrite <- (sources_holds v m l Hs _ H8) at 2. apply list_fmap_ext. intros i j _. simpl. f_equal.
      destruct v; simpl; lia.
  - unfold next_record. rewrite En, rfc_auxLen, Nat.add_1_r, A, Hk, Nat.div_mul by lia. destruct v; simpl; lia.
Qed.

Definition report_of (v : ip_version) (ca : addr) (r : wireRecord) : option report :=
  record_report v ca (w_type r) (w_record r).

Lemma report_of_known v ca r : wf_record v r -> is_Some (report_of v ca r).
Proof.
  intros [Ht _ _ _ _]. unfold report_of, record_report. pose proof rfc_modes as E. simplify_eq.
  repeat case_match; try done. bool_to_prop. lia.
Qed.

(** The records handled one after the other. *)
Definition run_reports (hdr : pktHdr) (rs : list report) (st : snooper) : snooper :=
  foldl (fun st r => snd (with_flows (handle hdr r) st)) st rs.

(** What the RFCs say a record of each number means: RFC 3376 section 4.2.12 and
    RFC 3810 section 5.2.12. *)
Definition rfc_handler (ty : Z) : option (pktHdr -> ip_version -> addr -> groupRecord -> H nf_ret) :=
  match ty with
  | 1 => Some rtk_igmp_processIsInclude
  | 2 => Some rtk_igmp_processIsExclude
  | 3 => Some rtk_igmp_processToInclude
  | 4 => Some rtk_igmp_processToExclude
  | 5 => Some rtk_igmp_processAllow
  | 6 => Some rtk_igmp_processBlock
  | _ => None
  end.
Definition rfc_step (hdr : pktHdr) (v : ip_version) (ca : addr) (st : snooper) (r : wireRecord) : snooper :=
  match rfc_handler (w_type r) with
  | Some h => snd (with_flows (h hdr v ca (w_record r)) st)
  | None => st
  end.

Lemma run_rfc hdr v ca rs st : Forall (wf_record v) rs ->
  run_reports hdr (omap (report_of v ca) rs) st = foldl (rfc_step hdr v ca) st rs.
Proof.
  intros Hw. revert st. induction Hw as [|r rs Hr _ IH]; intros st; [done|]. rewrite omap_cons. cbn [foldl].
  rewrite <- IH. unfold rfc_step, report_of, record_report. destruct Hr as [Ht _ _ _ _].
  pose proof rfc_modes as E. injection E as -> -> -> -> -> ->.
  assert (w_type r = 1 \/ w_type r = 2 \/ w_type r = 3 \/ w_type r = 4 \/ w_type r = 5 \/ w_type r = 6) as Hc by lia.
  by destruct Hc as [-> |[-> |[-> |[-> |[-> | ->]]]]].
Qed.

Lemma walk_many hdr v ca m len n rs : n <> 1 -> Forall (wf_record v) rs -> forall o rv st,
  holds m o (concat (encode_record v <$> rs)) -> Z.of_nat (o + length (concat (encode_record v <$> rs))) <= len ->
  walk_records hdr v ca m len n (length rs) o rv st =
  (RTK_IGMP_NF_ACCEPT, run_reports hdr (omap (report_of v ca) rs) st).
Proof.
  intros Hn. induction 1 as [|r rs Hr Hrs IH]; intros o rv st H Hl; [done|].
  rewrite fmap_cons in H, Hl. cbn [concat] in H, Hl. rewrite holds_app in H. destruct H as [H1 H2].
  rewrite length_app in Hl. simpl.
  destruct (record_holds v m o r Hr H1) as (-> & -> & ->).
  rewrite (proj2 (Z.ltb_ge _ _)) by lia. fold (report_of v ca r). rewrite (proj2 (Z.eqb_neq n 1)) by done.
  destruct (report_of_known v ca r Hr) as [x Hx]. rewrite Hx.
  destruct (with_flows (handle hdr x) st) as [q st1] eqn:E. unfold run_reports. simpl. rewrite E.
  exact (IH (o + length (encode_record v r))%nat (Some q) st1 H2 ltac:(lia)).
Qed.
End Rfc.

(** ** Forged counts *)

(** From offset [o] on, the packet has room for so many starts of records. *)
Definition starts_left (len : Z) (o : nat) : nat := Z.to_nat ((len - Z.of_nat o) / 8 + 1).

Lemma starts_left_mono len o o' : (o <= o')%nat -> (starts_left len o' <= starts_left len o)%nat.
Proof.
  intros Ho. unfold starts_left. assert ((len - Z.of_nat o') / 8 <= (len - Z.of_nat o) / 8) by (apply Z.div_le_mono; lia). lia.
Qed.

Lemma next_record_advances v m o : (o + 8 <= next_record v m o)%nat.
Proof. unfold next_record. destruct v; lia. Qed.

Lemma walk_cut hdr v ca m len n k : forall k' o rv st, (starts_left len o <= k' <= k)%nat ->
  walk_records hdr v ca m len n k o rv st = walk_records hdr v ca m len n k' o rv st.
Proof.
  induction k as [|k IH]; intros k' o rv st Hk; [by replace k' with O by lia|].
  destruct (len <? Z.of_nat o) eqn:E.
  - simpl. rewrite E. destruct k'; simpl; by rewrite ?E.
  - bool_to_prop. assert (starts_left len o = S (starts_left len (o + 8))) as Es.
    { unfold starts_left. replace (len - Z.of_nat (o + 8)) with (len - Z.of_nat o + (-1) * 8) by lia.
      rewrite Z.div_add by lia. pose proof (Z.div_pos (len - Z.of_nat o) 8 ltac:(lia) ltac:(lia)). lia. }
    destruct k' as [|k']; [lia|]. simpl. rewrite (proj2 (Z.ltb_ge _ _)) by lia.
    destruct (match record_report _ _ _ _ with Some r => _ | None => _ end) as [rv' st'].
    destruct (if n =? 1 then stops rv' else None); [done|]. apply IH.
    pose proof (starts_left_mono len _ _ (next_record_advances v m o)). lia.
Qed.
End Walk.

(** ** What forwarding leaves alone *)

Section Keep.
Context {cfg : IgmpConfig} {fcfg : FlowConfig} {policy : AdmissionPolicy} {env : SnooperEnv} {wire : WireFormat}.

Definition bound_to (i : Z) (st : snooper) : option Z := bind2BrModuleIdx <$> _rtk_igmp_devIfidx_to_devInfo i st.

(** The same memberships, and every device still bound to the same bridge. *)
Record keeps (st st' : snooper) : Prop := {
  keeps_db : db st' = db st;
  keeps_bound : forall i, bound_to i st' = bound_to i st
}.
Lemma keeps_refl st : keeps st st.
Proof. done. Qed.
Lemma keeps_trans st st1 st2 : keeps st st1 -> keeps st1 st2 -> keeps st st2.
Proof. intros [H1 H2] [H3 H4]. split; [congruence|]. intros. by rewrite H4, H2. Qed.
Lemma keeps_set_fd x st : keeps st (set_fd x st).
Proof. done. Qed.
Lemma keeps_foldl {A} (f : snooper -> A -> snooper) l st : (forall st x, keeps st (f st x)) -> keeps st (foldl f st l).
Proof. intros Hf. revert st. induction l as [|x l IH]; intros st; [done|]. simpl. eapply keeps_trans; [apply Hf|apply IH]. Qed.

Lemma same_devs_bound st st' : same_devs st st' -> forall i, bound_to i st' = bound_to i st.
Proof.
  intros Hs i. specialize (Hs i). unfold bound_to.
  destruct (_rtk_igmp_devIfidx_to_devInfo i st'), (_rtk_igmp_devIfidx_to_devInfo i st); simpl in *; try done.
  injection Hs as _ _ E _ _. by rewrite E.
Qed.

Lemma keeps_decide mi d c2c f st : egressDevInfo f = no_egress -> keeps st (snd (decide_uncached mi d c2c f st)).
Proof.
  intros Hf. pose proof (decide_uncached_spec mi d c2c f st Hf) as Hs.
  destruct (decide_uncached mi d c2c f st) as [[[r d'] f'] st']. destruct Hs as (H1 & H2 & _).
  split; [done|by apply same_devs_bound].
Qed.

Lemma keeps_cache mi b d c2c f st : egressDevInfo f = no_egress -> keeps st (snd (cache_then_decide mi b d c2c f st)).
Proof.
  intros Hf. unfold cache_then_decide. destruct b; [|by apply keeps_decide].
  destruct (rtk_igmp_searchMcastFlowEntry _ _ _ _) as [[e|] fd']; [|by apply keeps_decide].
  destruct (_ && _); [|done]. eapply keeps_trans; [apply (keeps_set_fd fd')|by apply keeps_decide].
Qed.

Lemma keeps_one_bridge mi b d f st : egressDevInfo f = no_egress ->
  keeps st (snd (__rtk_igmp_getMulticastDataFwdInfo mi b d f st)).
Proof.
  intros Hf. unfold __rtk_igmp_getMulticastDataFwdInfo. repeat case_match; try done; by apply keeps_cache.
Qed.

Lemma keeps_combine ms cid b r d f st : keeps st (snd (combine_bridges ms cid b r d f st)).
Proof.
  revert r d f st. induction ms as [|i ms IH]; intros r d f st; simpl; [done|]. destruct (_ && _); [|apply IH].
  pose proof (keeps_one_bridge i b d fwdInfo0 st eq_refl) as Hk.
  destruct (__rtk_igmp_getMulticastDataFwdInfo i b d fwdInfo0 st) as [[[r1 d1] t] st1]. simpl in Hk.
  destruct (r1 =? SUCCESS); [|done]. eapply keeps_trans; [exact Hk|apply IH].
Qed.

Lemma keeps_fwdInfo mi b d st : keeps st (snd (_rtk_igmp_getMulticastDataFwdInfo mi b d st)).
Proof.
  unfold _rtk_igmp_getMulticastDataFwdInfo. destruct (_ =? 0).
  - pose proof (keeps_one_bridge mi b d fwdInfo0 st eq_refl) as Hk. by destruct (__rtk_igmp_getMulticastDataFwdInfo _ _ _ _ _) as [[[]]].
  - pose proof (keeps_combine (seq 0 (length (modules (db st)))) (combineId (bridge_of mi)) b FAIL d fwdInfo0 st) as Hk.
    by destruct (combine_bridges _ _ _ _ _ _ _) as [[[]]].
Qed.

Lemma keeps_reflush_flow mi e st : keeps st (reflush_flow mi e st).
Proof.
  unfold reflush_flow. pose proof (keeps_fwdInfo mi false (data_of_flow (flowId e)) st) as Hk.
  destruct (_rtk_igmp_getMulticastDataFwdInfo _ _ _ _) as [[[r d] f] st1]. simpl in Hk.
  destruct (in_cell _ _); [|done]. case_match; [|done]. eapply keeps_trans; [exact Hk|apply keeps_set_fd].
Qed.

Lemma keeps_reflush mi ga st : keeps st (rtk_igmp_flow_reflush_update mi ga st).
Proof.
  unfold rtk_igmp_flow_reflush_update, reflush_walk. apply keeps_foldl. intros st1 m. destruct (valid_module _ _); [|done].
  apply keeps_foldl. intros st2 h. apply keeps_foldl. intros st3 e. destruct (flow_of_group ga e); [apply keeps_reflush_flow|done].
Qed.

Lemma keeps_event e st : keeps st (apply_event st e).
Proof. destruct e; simpl; try apply keeps_set_fd. apply keeps_reflush. Qed.

(** A handler with its effect on the cache: the database is the handler's. *)
Lemma with_flows_db (m : H nf_ret) st :
  db (snd (with_flows m st)) = snd (run m (clear_events (db st))) /\
  forall i, bound_to i (snd (with_flows m st)) = bound_to i st.
Proof.
  unfold with_flows. destruct (run m (clear_events (db st))) as [r x]. simpl.
  pose proof (keeps_foldl apply_event (events x) (set_db x st) (fun st e => keeps_event e st)) as [H1 H2].
  split; [by rewrite H1|]. intros i. by rewrite H2.
Qed.

(** ** The database under packets *)

Section Sound.
Context (G C S n : nat).

(** The database is well-formed and every device is bound to a bridge of the array,
    or to none. *)
Record packet_ok (st : snooper) : Prop := {
  po_inv : inv G C S (db st);
  po_len : length (modules (db st)) = n;
  po_bound : forall i b, bound_to i st = Some b -> b = FAIL \/ 0 <= b < Z.of_nat n
}.

Lemma ok_handle hdr r st : packet_ok st -> (moduleIndex hdr < n)%nat -> packet_ok (snd (with_flows (handle hdr r) st)).
Proof.
  intros [H1 H2 H3] Hm. destruct (with_flows_db (handle hdr r) st) as [E1 E2].
  assert (good G C S n (moduleIndex hdr) (clear_events (db st))) as Hg.
  { apply (good_same G C S n (moduleIndex hdr) (db st)); [done..|]. split; [done|]. split; [|done]. unfold in_range. lia. }
  pose proof (preserves_handle G C S n (moduleIndex hdr) hdr r eq_refl _ Hg) as (Hi & _ & Hl). rewrite <- snd_run in Hi, Hl.
  split; [by rewrite E1|by rewrite E1|]. intros i b. rewrite E2. apply H3.
Qed.

Lemma ok_walk hdr v ca m len c k o rv st : packet_ok st -> (moduleIndex hdr < n)%nat ->
  packet_ok (snd (walk_records hdr v ca m len c k o rv st)).
Proof.
  intros Hok Hm. revert o rv st Hok. induction k as [|k IH]; intros o rv st Hok; simpl; [done|].
  destruct (len <? _); [done|]. destruct (record_report _ _ _ _) as [r|].
  - pose proof (ok_handle hdr r st Hok Hm) as Hok1. destruct (with_flows (handle hdr r) st) as [x st1]. simpl in Hok1.
    destruct (if c =? 1 then stops (Some x) else None); [done|by apply IH].
  - destruct (if c =? 1 then stops rv else None); [done|by apply IH].
Qed.

Lemma limit_keeps v di p st : _rtk_igmp_devIfidx_to_devInfo (p_devIfindex p) st = Some di ->
  db (snd (limit_packet v di p st)) = db st /\ fd (snd (limit_packet v di p st)) = fd st /\
  forall i, bound_to i (snd (limit_packet v di p st)) = bound_to i st.
Proof.
  intros Hd. unfold limit_packet. destruct (nonzero _); [|done]. destruct (check_rate_limit _ _ _ _ _) as [ok [r4 r6]]. simpl.
  split_and!; [unfold alter_dev; by case_match|unfold alter_dev; by case_match|]. intros i. unfold bound_to.
  rewrite lookup_alter_dev by done. destruct (_ =? i) eqn:E; [|done]. by destruct (_rtk_igmp_devIfidx_to_devInfo i st).
Qed.

Lemma ok_gated v di p dr ig act st : packet_ok st -> _rtk_igmp_devIfidx_to_devInfo (p_devIfindex p) st = Some di ->
  (forall st', packet_ok st' -> packet_ok (snd (act st'))) -> packet_ok (snd (gated v di p dr ig act st)).
Proof.
  intros Hok Hd Hact. unfold gated. destruct (limit_keeps v di p st Hd) as (E1 & _ & E2).
  destruct (limit_packet v di p st) as [ok st1]. simpl in *. assert (packet_ok st1) as Hok1.
  { destruct Hok as [H1 H2 H3]. split; [by rewrite E1..|]. intros i b. rewrite E2. apply H3. }
  destruct ok, dr, ig; simpl; auto.
Qed.

Lemma module_range srcDev di st : packet_ok st -> (exists i, _rtk_igmp_devIfidx_to_devInfo i st = Some di) ->
  let mi := rtk_igmp_srcNetDevToModuleIdx (Some srcDev) (Some di) st in
  (mi =? FAIL) = false -> (Z.to_nat mi < n)%nat.
Proof.
  intros Hok [i Hi] mi Hmi. unfold mi, rtk_igmp_srcNetDevToModuleIdx in *. destruct (nd_bridge srcDev) as [b|].
  - unfold rtk_igmp_dstNetDevToModuleIdx in *. destruct (module_with (db st) b) as [k|] eqn:E; [|done].
    apply List.find_some in E as [E _]. apply in_seq in E. rewrite (po_len _ Hok) in E. lia.
  - destruct (po_bound _ Hok i (bind2BrModuleIdx di)) as [E|E]; [unfold bound_to; by rewrite Hi| |].
    + bool_to_prop. done.
    + lia.
Qed.

Lemma ok_process bs srcDev p st : packet_ok st -> packet_ok (snd (rtk_igmp_mld_process bs srcDev p st)).
Proof.
  intros Hok. unfold rtk_igmp_mld_process. destruct (_rtk_igmp_devIfidx_to_devInfo _ st) as [di|] eqn:Ed; [|done].
  pose proof (module_range srcDev di st Hok (ex_intro _ _ Ed)) as Hm. simpl in Hm.
  destruct (_ =? FAIL) eqn:Ef; [done|]. specialize (Hm eq_refl). destruct (_ && _); [done|].
  set (hdr := hdr_of p _ di). assert (moduleIndex hdr < n)%nat as Hh by exact Hm. clearbody hdr.
  assert (forall st', packet_ok st' -> packet_ok (snd (rtk_igmp_processIgmpv3Mldv2Reports hdr p st'))) as H3.
  { intros st' H. unfold rtk_igmp_processIgmpv3Mldv2Reports. destruct (packet_parts p) as [[[[v m] ca] len]|]; [|done].
    by apply ok_walk. }
  assert (forall st', packet_ok st' -> packet_ok (snd (process_join hdr p st'))) as Hj.
  { intros st' H. unfold process_join. destruct (packet_parts p) as [[[[v m] ca] len]|]; [|done]. by apply ok_handle. }
  assert (forall st', packet_ok st' -> packet_ok (snd (process_leave hdr p st'))) as Hl.
  { intros st' H. unfold process_leave. destruct (packet_parts p) as [[[[v m] ca] len]|]; [|done]. by apply ok_handle. }
  destruct (igmph p) as [m|]; [|destruct (icmp6h p) as [m|]; [|done]].
  - unfold process_igmp. repeat case_match; try done; by apply ok_gated.
  - unfold process_mld. repeat case_match; try done; by apply ok_gated.
Qed.
End Sound.
End Keep.

(** ** Theorems *)

Section Theorems.
Context {cfg : IgmpConfig} {fcfg : FlowConfig} {policy : AdmissionPolicy} {env : SnooperEnv} {wire : WireFormat}.

(** C4: whatever packets arrive, with whatever records, lengths and counts in them,
    the membership database stays well-formed: no entry of the three pools is lost or
    used twice, and every group is in the table and the chain it hashes to. *)
Theorem packets_keep_database G C S n bs ps st :
  packet_ok G C S n st ->
  packet_ok G C S n (foldl (fun st '(srcDev, p) => snd (rtk_igmp_mld_process bs srcDev p st)) st ps).
Proof.
  revert st. induction ps as [|[d p] ps IH]; intros st Hok; [done|]. simpl. by apply IH, ok_process.
Qed.

(** C9: the walk over an IGMPv3 or MLDv2 report reads back what a sender following
    the RFCs wrote: every record, with its group, its sources in order and whatever
    auxiliary data, is handed to the handler the RFCs name for its number (1
    IS_INCLUDE, 2 IS_EXCLUDE, 3 TO_INCLUDE, 4 TO_EXCLUDE, 5 ALLOW, 6 BLOCK), in the
    order of the message, and the verdict is ACCEPT (any number of records but one:
    a single record gives the verdict of its handler). *)
Theorem report_walk_decodes {rfc : RfcWire} hdr p v m ca len ty rs st :
  packet_parts p = Some (v, m, ca, len) ->
  Forall (wf_record v) rs -> (length rs <> 1)%nat ->
  holds m 0 (encode_report v ty rs) -> Z.of_nat (length (encode_report v ty rs)) <= len ->
  rtk_igmp_processIgmpv3Mldv2Reports hdr p st =
  (RTK_IGMP_NF_ACCEPT, foldl (rfc_step hdr v ca) st rs).
Proof.
  intros Hp Hw Hn Hh Hl. rewrite <- run_rfc by done. unfold rtk_igmp_processIgmpv3Mldv2Reports. rewrite Hp.
  unfold encode_report in Hh, Hl. rewrite !holds_app in Hh. destruct Hh as (_ & Hc & Hr). rewrite !length_app in Hl. simpl length in *.
  apply be16_holds in Hc. simpl in Hc. rewrite rfc_numOfRecords, rfc_recordList, Hc, Nat2Z.id.
  apply walk_many; [lia|done|exact Hr|lia].
Qed.

(** The count in the message does not decide how long the walk takes: it ends
    after as many records as can start within the packet, at least eight bytes
    apart, and a larger count gives the same result. *)
Theorem forged_count_is_cut hdr v ca m len n k k' o rv st :
  (Z.to_nat ((len - Z.of_nat o) / 8 + 1) <= k')%nat -> (k' <= k)%nat ->
  walk_records hdr v ca m len n k o rv st = walk_records hdr v ca m len n k' o rv st.
Proof. intros H1 H2. by apply walk_cut. Qed.

(** The messages of a device that are learnt from. *)
Definition igmp_learns (cf : snoopConf) (ty : Z) : bool :=
  if ty =? IGMP_HOST_MEMBERSHIP_REPORT then negb (verDrp_v1 cf || reportDrop cf) && negb (verIgr_v1 cf)
  else if ty =? IGMPV2_HOST_MEMBERSHIP_REPORT then negb (verDrp_v2 cf || reportDrop cf) && negb (verIgr_v2 cf)
  else if ty =? IGMPV3_HOST_MEMBERSHIP_REPORT then negb (verDrp_v3 cf || reportDrop cf) && negb (verIgr_v3 cf)
  else if ty =? IGMP_HOST_MEMBERSHIP_QUERY then false
  else if ty =? IGMP_HOST_LEAVE_MESSAGE then negb (verDrp_v2 cf) && negb (verIgr_v2 cf)
  else false.
Definition mld_learns (cf : snoopConf) (ty : Z) : bool :=
  if ty =? ICMPV6_MLD2_REPORT then negb (verDrp_v2 cf || reportDrop cf) && negb (verIgr_v2 cf)
  else if ty =? ICMPV6_MGM_QUERY then false
  else if ty =? ICMPV6_MGM_REPORT then negb (verDrp_v1 cf || reportDrop cf) && negb (verIgr_v1 cf)
  else if ty =? ICMPV6_MGM_REDUCTION then negb (verDrp_v1 cf) && negb (verIgr_v1 cf)
  else false.

Lemma gated_quiet v di p dr ig act st : _rtk_igmp_devIfidx_to_devInfo (p_devIfindex p) st = Some di ->
  dr || ig = true \/ (forall st', db (snd (act st')) = db st' /\ fd (snd (act st')) = fd st') ->
  db (snd (gated v di p dr ig act st)) = db st /\ fd (snd (gated v di p dr ig act st)) = fd st.
Proof.
  intros Hd Hq. unfold gated. destruct (limit_keeps v di p st Hd) as (E1 & E2 & _).
  destruct (limit_packet v di p st) as [ok st1]. simpl in *. rewrite <- E1, <- E2.
  destruct ok, dr, ig; simpl; try done; destruct Hq as [?|Hq]; done.
Qed.

Lemma igmp_quiet hdr di p ty st : _rtk_igmp_devIfidx_to_devInfo (p_devIfindex p) st = Some di ->
  igmp_learns (confIgmp di) ty = false ->
  db (snd (process_igmp hdr di p ty st)) = db st /\ fd (snd (process_igmp hdr di p ty st)) = fd st.
Proof.
  intros Hd. unfold igmp_learns, process_igmp. destruct (snoopingDisable _); [done|].
  repeat case_match; intros Hl; try done; apply gated_quiet; try done;
    first [right; done | left; rewrite <- negb_orb in Hl; by apply negb_false_iff].
Qed.
Lemma mld_quiet hdr di p ty st : _rtk_igmp_devIfidx_to_devInfo (p_devIfindex p) st = Some di ->
  mld_learns (confIgmp6 di) ty = false ->
  db (snd (process_mld hdr di p ty st)) = db st /\ fd (snd (process_mld hdr di p ty st)) = fd st.
Proof.
  intros Hd. unfold mld_learns, process_mld. destruct (snoopingDisable _); [done|].
  repeat case_match; intros Hl; try done; apply gated_quiet; try done;
    first [right; done | left; rewrite <- negb_orb in Hl; by apply negb_false_iff].
Qed.

(** C11: a packet changes the memberships or the flow cache only if it came in on a
    known device that belongs to a bridge and snoops, its sender is not on the black
    list, and it is a report or leave of a version the device neither drops nor
    ignores. *)
Theorem only_admitted_packets_learn bs srcDev p st :
  let st' := snd (rtk_igmp_mld_process bs srcDev p st) in
  db st' <> db st \/ fd st' <> fd st ->
  exists di, _rtk_igmp_devIfidx_to_devInfo (p_devIfindex p) st = Some di /\
    rtk_igmp_srcNetDevToModuleIdx (Some srcDev) (Some di) st <> FAIL /\
    (p_ethHdr p = true -> rtk_igmp_filterblackListCheck (ifindex di)
       (match iph p with Some _ => IP_VERSION4 | None => IP_VERSION6 end) (p_smac p) bs = false) /\
    match igmph p, icmp6h p with
    | Some m, _ => snoopingDisable (confIgmp di) = false /\ igmp_learns (confIgmp di) (m off_msgType) = true
    | None, Some m => snoopingDisable (confIgmp6 di) = false /\ mld_learns (confIgmp6 di) (m off_msgType) = true
    | None, None => False
    end.
Proof.
  intros st'. unfold st', rtk_igmp_mld_process. destruct (_rtk_igmp_devIfidx_to_devInfo (p_devIfindex p) st) as [di|] eqn:Ed; [|by intros [|]].
  cbv zeta. destruct (_ =? FAIL) eqn:Ef; [by intros [|]|]. destruct (p_ethHdr p && _) eqn:Eb; [by intros [|]|].
  intros Hch. exists di. split; [done|]. split; [by bool_to_prop|].
  split; [intros He; by rewrite He in Eb|]. destruct (igmph p) as [m|]; [|destruct (icmp6h p) as [m|]; [|by destruct Hch]].
  - destruct (snoopingDisable (confIgmp di)) eqn:Es; [exfalso; unfold process_igmp in Hch; rewrite Es in Hch; by destruct Hch|].
    split; [done|]. destruct (igmp_learns _ _) eqn:El; [done|]. exfalso.
    destruct (igmp_quiet (hdr_of p (Z.to_nat (rtk_igmp_srcNetDevToModuleIdx (Some srcDev) (Some di) st)) di) di p (m off_msgType) st Ed El). by destruct Hch.
  - destruct (snoopingDisable (confIgmp6 di)) eqn:Es; [exfalso; unfold process_mld in Hch; rewrite Es in Hch; by destruct Hch|].
    split; [done|]. destruct (mld_learns _ _) eqn:El; [done|]. exfalso.
    destruct (mld_quiet (hdr_of p (Z.to_nat (rtk_igmp_srcNetDevToModuleIdx (Some srcDev) (Some di) st)) di) di p (m off_msgType) st Ed El). by destruct Hch.
Qed.
End Theorems.

(** ** Concrete runs *)

#[local] Existing Instance demo_config.
#[local] Existing Instance demo_policy.
#[local] Existing Instance demo_flow_config.
#[local] Existing Instance demo_env.

(** The layout of the RFCs, on a big-endian machine. *)
Definition demo_wire : WireFormat := {|
  off_msgType := 0; off_msgGroup v := match v with IP_VERSION4 => 4%nat | IP_VERSION6 => 8%nat end;
  off_numOfRecords _ := 6%nat; off_recordList _ := 8%nat; off_type _ := 0%nat; off_auxLen _ := 1%nat; off_numOfSrc _ := 2%nat;
  off_groupAddr _ := 4%nat; off_srcList v := match v with IP_VERSION4 => 8%nat | IP_VERSION6 => 20%nat end;
  MODE_IS_INCLUDE := 1; MODE_IS_EXCLUDE := 2; CHANGE_TO_INCLUDE_MODE := 3; CHANGE_TO_EXCLUDE_MODE := 4;
  ALLOW_NEW_SOURCES := 5; BLOCK_OLD_SOURCES := 6;
  IGMP_HOST_MEMBERSHIP_REPORT := 0x12; IGMPV2_HOST_MEMBERSHIP_REPORT := 0x16; IGMPV3_HOST_MEMBERSHIP_REPORT := 0x22;
  IGMP_HOST_MEMBERSHIP_QUERY := 0x11; IGMP_HOST_LEAVE_MESSAGE := 0x17;
  ICMPV6_MLD2_REPORT := 143; ICMPV6_MGM_QUERY := 130; ICMPV6_MGM_REPORT := 131; ICMPV6_MGM_REDUCTION := 132;
  little_endian := false; verdict_of_zero := None |}.
#[local] Existing Instance demo_wire.
Definition demo_rfc : RfcWire (w := demo_wire).
Proof. by split. Defined.

Definition mem_of (l : list Z) : mem := fun i => nth i l 0.
Lemma mem_of_holds l : holds (mem_of l) 0 l.
Proof. intros i b Hi. unfold mem_of. simpl. by apply nth_lookup_Some. Qed.

(** An IGMP message of [len] bytes from the demo client on device 3. *)
Definition demo_packet (m : mem) (len : Z) : packet :=
  Packet [0; 1; 2; 3; 4; 5] true 3 1 2 true 100 false 0 (Some (Ipv4Hdr 0xC0A80102 (len + 20) 5)) None (Some m) None.
Definition demo_src : netDevice := NetDevice 3 (Some 10).
Definition demo_records : list wireRecord :=
  [WireRecord 2 (GroupRecord demo_group []) []; WireRecord 5 (GroupRecord (ip4 0xE1010102) [src1; src2]) [7; 7; 7; 7]].
Definition demo_report : list Z := encode_report IP_VERSION4 0x22 demo_records.

Lemma demo_packet_ok : packet_ok 4 4 4 1 demo_snooper.
Proof.
  split; [apply inv_init|done|]. intros i b. unfold bound_to. destruct (_rtk_igmp_devIfidx_to_devInfo i demo_snooper) as [di|] eqn:E; [|done].
  intros [= <-]. right. unfold _rtk_igmp_devIfidx_to_devInfo in E.
  destruct (List.find _ _) as [o|] eqn:Eo; [|done]. apply List.find_some in Eo as [Hin _]. subst.
  destruct Hin as [[= <-]|[[= <-]|[]]]; simpl; lia.
Qed.

Lemma packets_keep_database_witness :
  packet_ok 4 4 4 1 (foldl (fun st '(srcDev, p) => snd (rtk_igmp_mld_process rtk_igmp_blackEntry_flashInit srcDev p st)) demo_snooper
    [(demo_src, demo_packet (mem_of demo_report) (Z.of_nat (length demo_report)))]) /\
  length (members_of 0 IP_VERSION4 (db (snd (rtk_igmp_mld_process rtk_igmp_blackEntry_flashInit demo_src
    (demo_packet (mem_of demo_report) (Z.of_nat (length demo_report))) demo_snooper)))) = 2%nat.
Proof. split; [exact (packets_keep_database 4 4 4 1 _ _ _ demo_packet_ok)|by_compute]. Defined.

Lemma demo_records_wf : Forall (wf_record IP_VERSION4) demo_records.
Proof. repeat constructor; simpl; try lia; try done; [by exists 0%nat|by exists 1%nat]. Qed.

Lemma report_walk_decodes_witness :
  rtk_igmp_processIgmpv3Mldv2Reports (demo_hdr false) (demo_packet (mem_of demo_report) 40) demo_snooper =
  (RTK_IGMP_NF_ACCEPT,
   snd (with_flows (rtk_igmp_processAllow (demo_hdr false) IP_VERSION4 demo_client (GroupRecord (ip4 0xE1010102) [src1; src2]))
     (snd (with_flows (rtk_igmp_processIsExclude (demo_hdr false) IP_VERSION4 demo_client (GroupRecord demo_group [])) demo_snooper)))).
Proof.
  rewrite (report_walk_decodes (rfc := demo_rfc) (demo_hdr false) (demo_packet (mem_of demo_report) 40) IP_VERSION4
    (mem_of demo_report) demo_client 40 0x22 demo_records demo_snooper eq_refl demo_records_wf); [|done|apply mem_of_holds|by_compute].
  unfold demo_records. cbn [foldl]. unfold rfc_step. cbn [w_type w_record rfc_handler]. reflexivity.
Defined.

Lemma forged_count_is_cut_witness :
  walk_records (demo_hdr false) IP_VERSION4 demo_client (mem_of demo_report) 40 65535 1000 8 None demo_snooper =
  walk_records (demo_hdr false) IP_VERSION4 demo_client (mem_of demo_report) 40 65535 5 8 None demo_snooper.
Proof. apply forged_count_is_cut; [by_compute|lia]. Defined.

Lemma only_admitted_packets_learn_witness :
  exists di, _rtk_igmp_devIfidx_to_devInfo 3 demo_snooper = Some di /\ snoopingDisable (confIgmp di) = false.
Proof.
  destruct (only_admitted_packets_learn rtk_igmp_blackEntry_flashInit demo_src (demo_packet (mem_of demo_report) 40) demo_snooper)
    as (di & H1 & _ & _ & H2 & _); [|by exists di].
  left. intros E. apply (f_equal (fun x => length (members_of 0 IP_VERSION4 x))) in E. revert E. vm_compute. done.
Defined.

(** The walk reads past the packet: a record may start at its very end, so two
    packets with the same bytes are told apart by what happens to lie behind them in
    memory. *)
Theorem report_reads_past_packet :
  exists (m1 m2 : mem) (len : nat),
    (forall i, (i < len)%nat -> m1 i = m2 i) /\
    let after m := snd (rtk_igmp_mld_process rtk_igmp_blackEntry_flashInit demo_src (demo_packet m (Z.of_nat len)) demo_snooper) in
    length (members_of 0 IP_VERSION4 (db (after m1))) = 1%nat /\ members_of 0 IP_VERSION4 (db (after m2)) = [].
Proof.
  exists (mem_of ([0x22; 0; 0; 0; 0; 0; 0; 1] ++ [2; 0; 0; 0; 0xE1; 1; 1; 1])), (mem_of [0x22; 0; 0; 0; 0; 0; 0; 1]), 8%nat.
  split; [|vm_compute; done]. intros i Hi. unfold mem_of. by rewrite List.app_nth1.
Qed.
