(* ===== verification/FcLut.v ===== *)
(** * The layer-2 table of the flow cache

    Model of the look-up table (LUT) of the flow-cache driver, [FleetConntrackDriver/core/
    rtk_fc_internal.c]: the table of learned MAC addresses that shadows the switch's own
    table.  Entries are objects of a preallocated pool; an object is named by its number,
    so two places can hold the same object, as the C pointers do.  The table holds one
    object per hardware slot; a deleted entry keeps its slot until its RCU callback has
    run, and until then its object can be taken over by a new entry for the slot.

    This file holds the data and the operations: the hash, the pool, adding and deleting,
    the RCU callback, the CAM lists, the searches, the choice of a victim, learning, the
    learning limits, link-down and the house keeping.  The switch is the class [L2Hw]; the
    constants and settings that the headers and the running system supply are the class
    [LutConfig].  The build is the one of [configs/rtl9607c.config]: no port trunking.
    The flows that refer to an entry are deleted elsewhere; here that is an event. *)
From stdpp Require Import sorting.
From S2P Require Import Prelude.
Open Scope Z_scope.

(** ** Data *)

Inductive ret :=
| RTK_FC_RET_OK | RTK_FC_RET_ERR | RTK_FC_RET_ERR_ENTRY_FULL | RTK_FC_RET_ERR_ENTRY_EXIST
| RTK_FC_RET_ERR_ENTRY_REPLASE | RTK_FC_RET_ERR_INVALID_PARAM
| RTK_FC_RET_DROP_GROUPLEARNING_LIMIT | RTK_FC_RET_DROP_PORTLEARNING_LIMIT
| RTK_FC_RET_LRN_FAIL | RTK_FC_RET_LRN_SKIP_FROMCPUPKT | RTK_FC_RET_LRN_SKIP_MCPKT.
#[export] Instance ret_eq_dec : EqDecision ret.
Proof. solve_decision. Defined.

(** The fields of an entry that this build uses; [lutIdx] is written by the switch. *)
Record lut_entry := LutEntry {
  l2Addr : list Z;
  svl_fid : Z;
  spa : Z;
  extspa : Z;
  wlan_dev_idx : Z;
  lutIdx : nat;
  valid : bool;
  isStatic : bool;
  staticRefCount : Z;
  isSync2PsEntry : bool;
  isUnknowUcMc : bool;
  isPortAggEntry : bool;
  duplicateEntry_exist : bool;
  rcuFreeEnt_skipDel : bool;
  anyFlowEstablish : bool;
  isGMAC : bool;
  isPermitWanAccess : bool;
  CTAG_IF : bool;
  CVID : Z;
  last_jiffies : Z;
  hostPolIdx : Z }.
Definition set_lutIdx (x : nat) (r : lut_entry) : lut_entry :=
  LutEntry (l2Addr r) (svl_fid r) (spa r) (extspa r) (wlan_dev_idx r) x (valid r) (isStatic r)
    (staticRefCount r) (isSync2PsEntry r) (isUnknowUcMc r) (isPortAggEntry r) (duplicateEntry_exist r)
    (rcuFreeEnt_skipDel r) (anyFlowEstablish r) (isGMAC r) (isPermitWanAccess r) (CTAG_IF r) (CVID r)
    (last_jiffies r) (hostPolIdx r).
Definition set_valid (x : bool) (r : lut_entry) : lut_entry :=
  LutEntry (l2Addr r) (svl_fid r) (spa r) (extspa r) (wlan_dev_idx r) (lutIdx r) x (isStatic r)
    (staticRefCount r) (isSync2PsEntry r) (isUnknowUcMc r) (isPortAggEntry r) (duplicateEntry_exist r)
    (rcuFreeEnt_skipDel r) (anyFlowEstablish r) (isGMAC r) (isPermitWanAccess r) (CTAG_IF r) (CVID r)
    (last_jiffies r) (hostPolIdx r).
Definition set_isStatic (x : bool) (r : lut_entry) : lut_entry :=
  LutEntry (l2Addr r) (svl_fid r) (spa r) (extspa r) (wlan_dev_idx r) (lutIdx r) (valid r) x
    (staticRefCount r) (isSync2PsEntry r) (isUnknowUcMc r) (isPortAggEntry r) (duplicateEntry_exist r)
    (rcuFreeEnt_skipDel r) (anyFlowEstablish r) (isGMAC r) (isPermitWanAccess r) (CTAG_IF r) (CVID r)
    (last_jiffies r) (hostPolIdx r).
Definition set_staticRefCount (x : Z) (r : lut_entry) : lut_entry :=
  LutEntry (l2Addr r) (svl_fid r) (spa r) (extspa r) (wlan_dev_idx r) (lutIdx r) (valid r) (isStatic r) x
    (isSync2PsEntry r) (isUnknowUcMc r) (isPortAggEntry r) (duplicateEntry_exist r) (rcuFreeEnt_skipDel r)
    (anyFlowEstablish r) (isGMAC r) (isPermitWanAccess r) (CTAG_IF r) (CVID r) (last_jiffies r)
    (hostPolIdx r).
Definition set_isSync2PsEntry (x : bool) (r : lut_entry) : lut_entry :=
  LutEntry (l2Addr r) (svl_fid r) (spa r) (extspa r) (wlan_dev_idx r) (lutIdx r) (valid r) (isStatic r)
    (staticRefCount r) x (isUnknowUcMc r) (isPortAggEntry r) (duplicateEntry_exist r)
    (rcuFreeEnt_skipDel r) (anyFlowEstablish r) (isGMAC r) (isPermitWanAccess r) (CTAG_IF r) (CVID r)
    (last_jiffies r) (hostPolIdx r).
Definition set_duplicateEntry_exist (x : bool) (r : lut_entry) : lut_entry :=
  LutEntry (l2Addr r) (svl_fid r) (spa r) (extspa r) (wlan_dev_idx r) (lutIdx r) (valid r) (isStatic r)
    (staticRefCount r) (isSync2PsEntry r) (isUnknowUcMc r) (isPortAggEntry r) x (rcuFreeEnt_skipDel r)
    (anyFlowEstablish r) (isGMAC r) (isPermitWanAccess r) (CTAG_IF r) (CVID r) (last_jiffies r)
    (hostPolIdx r).
Definition set_rcuFreeEnt_skipDel (x : bool) (r : lut_entry) : lut_entry :=
  LutEntry (l2Addr r) (svl_fid r) (spa r) (extspa r) (wlan_dev_idx r) (lutIdx r) (valid r) (isStatic r)
    (staticRefCount r) (isSync2PsEntry r) (isUnknowUcMc r) (isPortAggEntry r) (duplicateEntry_exist r) x
    (anyFlowEstablish r) (isGMAC r) (isPermitWanAccess r) (CTAG_IF r) (CVID r) (last_jiffies r)
    (hostPolIdx r).
Definition set_last_jiffies (x : Z) (r : lut_entry) : lut_entry :=
  LutEntry (l2Addr r) (svl_fid r) (spa r) (extspa r) (wlan_dev_idx r) (lutIdx r) (valid r) (isStatic r)
    (staticRefCount r) (isSync2PsEntry r) (isUnknowUcMc r) (isPortAggEntry r) (duplicateEntry_exist r)
    (rcuFreeEnt_skipDel r) (anyFlowEstablish r) (isGMAC r) (isPermitWanAccess r) (CTAG_IF r) (CVID r) x
    (hostPolIdx r).
Definition set_hostPolIdx (x : Z) (r : lut_entry) : lut_entry :=
  LutEntry (l2Addr r) (svl_fid r) (spa r) (extspa r) (wlan_dev_idx r) (lutIdx r) (valid r) (isStatic r)
    (staticRefCount r) (isSync2PsEntry r) (isUnknowUcMc r) (isPortAggEntry r) (duplicateEntry_exist r)
    (rcuFreeEnt_skipDel r) (anyFlowEstablish r) (isGMAC r) (isPermitWanAccess r) (CTAG_IF r) (CVID r)
    (last_jiffies r) x.
(** A zeroed entry. *)
Definition entry0 : lut_entry :=
  LutEntry [0; 0; 0; 0; 0; 0] 0 0 0 0 0 false false 0 false false false false false false false false false 0 0 0.

(** What the module does to others. *)
Inductive lut_event :=
| FlowDeleteByL2Idx (i : nat)
| FlowDeleteByWlan (w : Z)
| FlowDeleteBySpa (port : Z)
| NotifyRefresh (mac : list Z) (vid : Z) (flow : bool).

(** Constants of the headers, settings, and the questions put to the kernel. *)
Class LutConfig := {
  RTK_FC_LUTENTRY_POOL_SIZE : nat;
  RTK_FC_TABLESIZE_LUT : nat;
  LUTTABLE_SRAM_SIZE : nat;
  LUTTABLE_BCAM_SIZE : nat;
  RTK_FC_LUT_BUCKET_SIZE : nat;
  L2HOUSE_KEEP_NUM : nat;
  CONFIG_HZ : Z;
  RTK_FC_MAC_PORT_MAX : Z;
  RTK_FC_MAC_EXT_PORT_MAX : Z;
  RTK_FC_MAC_PORT0 : Z;
  RTK_FC_MAC_PORT_PON : Z;
  RTK_FC_MAC_PORT_MAINCPU : Z;
  RTK_FC_MAC_PORT_MASTERCPU_CORE1 : Z;
  RTK_FC_MAC_PORT_SLAVECPU : Z;
  RTK_FC_WLANX_END_INTF : Z;
  RTK_FC_WLANX_NOT_FOUND : Z;
  DEFAULT_FID : Z;
  RTK_FC_WIFI_FID_1 : Z;
  RTK_FC_WIFI_FID_2 : Z;
  RTK_FC_WIFI_FID_END : Z;
  FC_F_SWLUT_PORT_AGG_ENTRY : bool;       (* optional feature of the headers *)
  skipDel_copied : bool;                  (* the field lies before [lutRcuHead] *)
  _rtk_fc_quickhash_mac_fid : list Z -> Z -> nat;
  flow_skipAllPsTracking : bool;
  l2_skipPsTracking : bool;
  hwnat_spec_test : bool;
  wifi_tx_gmac_auto_sel_en : bool;
  wifi_tx_gmac_trunking_num : Z;
  gmac_tx_trunking : Z -> bool;
  wanAccessLimit_byMac : bool;
  ucTimeout_unit1s : Z;
  mcTimeout_unit1s : Z;
  ASICDRIVERVER : Z;
  has_notify : bool;
  hostPolice_macs : list (list Z);
  fdb_hook : list Z -> Z -> bool;         (* the bridges know this MAC and VLAN *)
  neighV4_hook : list Z -> bool;
  neighV6_hook : list Z -> bool }.

(** The switch: adding gives the slot or an error, deleting may fail; the traffic bits
    and ages of its entries. *)
Class L2Hw := {
  hw : Type;
  rtk_fc_api_lut_add : lut_entry -> hw -> (ret + nat) * hw;
  rtk_fc_api_lut_del : lut_entry -> hw -> hw;
  rtk_rg_asic_lutSATraffic_get : nat -> hw -> Z * hw;
  rtk_l2_addr_get : list Z -> hw -> option Z;
  rtk_l2_addr_add : list Z -> Z -> hw -> hw }.

(** Pool, table and chains: what has to fit together. *)
Record lut_mem := LutMem {
  objs : list lut_entry;
  lutEntry_pool_ring : list nat;
  lutEntry_pool_free : nat;
  lutTbl : list (option nat);
  lut_hash_list_head : list (list nat);
  lut_quickhash_list_head : list (list nat);
  rcu : list nat }.
Definition set_objs (x : list lut_entry) (r : lut_mem) : lut_mem :=
  LutMem x (lutEntry_pool_ring r) (lutEntry_pool_free r) (lutTbl r) (lut_hash_list_head r)
    (lut_quickhash_list_head r) (rcu r).
Definition set_lutEntry_pool_ring (x : list nat) (r : lut_mem) : lut_mem :=
  LutMem (objs r) x (lutEntry_pool_free r) (lutTbl r) (lut_hash_list_head r) (lut_quickhash_list_head r)
    (rcu r).
Definition set_lutEntry_pool_free (x : nat) (r : lut_mem) : lut_mem :=
  LutMem (objs r) (lutEntry_pool_ring r) x (lutTbl r) (lut_hash_list_head r) (lut_quickhash_list_head r)
    (rcu r).
Definition set_lutTbl (x : list (option nat)) (r : lut_mem) : lut_mem :=
  LutMem (objs r) (lutEntry_pool_ring r) (lutEntry_pool_free r) x (lut_hash_list_head r)
    (lut_quickhash_list_head r) (rcu r).
Definition set_lut_hash_list_head (x : list (list nat)) (r : lut_mem) : lut_mem :=
  LutMem (objs r) (lutEntry_pool_ring r) (lutEntry_pool_free r) (lutTbl r) x (lut_quickhash_list_head r)
    (rcu r).
Definition set_lut_quickhash_list_head (x : list (list nat)) (r : lut_mem) : lut_mem :=
  LutMem (objs r) (lutEntry_pool_ring r) (lutEntry_pool_free r) (lutTbl r) (lut_hash_list_head r) x
    (rcu r).
Definition set_rcu (x : list nat) (r : lut_mem) : lut_mem :=
  LutMem (objs r) (lutEntry_pool_ring r) (lutEntry_pool_free r) (lutTbl r) (lut_hash_list_head r)
    (lut_quickhash_list_head r) x.
(** The CAM part of the table: free slots, and slots by hash. *)
Record lut_cam := LutCam {
  lutCam_freeListHead : list nat;
  lutCam_hashListHead : list (list nat) }.
(** Learning counters: per port, per wireless device, of the port group, of WAN access. *)
Record lut_counts := LutCounts {
  learningCount : list Z;
  wlanLearningCount : list Z;
  groupCount : Z;
  wanCount : Z }.
Definition set_learningCount (x : list Z) (r : lut_counts) : lut_counts :=
  LutCounts x (wlanLearningCount r) (groupCount r) (wanCount r).
Definition set_wlanLearningCount (x : list Z) (r : lut_counts) : lut_counts :=
  LutCounts (learningCount r) x (groupCount r) (wanCount r).
Definition set_groupCount (x : Z) (r : lut_counts) : lut_counts :=
  LutCounts (learningCount r) (wlanLearningCount r) x (wanCount r).
Definition set_wanCount (x : Z) (r : lut_counts) : lut_counts :=
  LutCounts (learningCount r) (wlanLearningCount r) (groupCount r) x.
Record lut_limits := LutLimits {
  learningLimit : list Z;
  groupLimit : Z;
  group_portmask : Z }.

Definition is_multicast (mac : list Z) : bool := Z.odd (nth 0 mac 0).

(** ** Hash *)

Section Hash.
Context (mac : list Z) (fid : Z).
Let b (k i : nat) : Z := Z.land (Z.shiftr (nth k mac 0) (Z.of_nat i)) 1.
Let x (l : list Z) : Z := foldr Z.lxor 0 l.
Definition hashidx : list Z :=
  [ x [b 5 0; b 4 1; b 3 2; b 2 3; b 1 4; b 0 5];
    x [b 5 1; b 4 2; b 3 3; b 2 4; b 1 5; b 0 6];
    x [b 5 2; b 4 3; b 3 4; b 2 5; b 1 6; b 0 7];
    x [b 5 3; b 4 4; b 3 5; b 2 6; b 1 7; Z.land (Z.shiftr fid 0) 1];
    x [b 5 4; b 4 5; b 3 6; b 2 7; b 0 0; Z.land (Z.shiftr fid 1) 1];
    x [b 5 5; b 4 6; b 3 7; b 1 0; b 0 1];
    x [b 5 6; b 4 7; b 2 0; b 1 1; b 0 2];
    x [b 5 7; b 3 0; b 2 1; b 1 2; b 0 3];
    x [b 4 0; b 3 1; b 2 2; b 1 3; b 0 4] ].
Definition _rtk_fc_hash_mac_fid : nat :=
  Z.to_nat (foldr Z.lor 0 (imap (fun k h => Z.shiftl h (Z.of_nat k)) hashidx)).
End Hash.

Section Lut.
Context {cfg : LutConfig} {l2 : L2Hw}.

Record fc_db := FcDb {
  mem : lut_mem;
  cam : lut_cam;
  counts : lut_counts;
  limits : lut_limits;
  skipHwlookUp : option (Z * Z);
  l2_hkCurIdx : nat;
  jiffies : Z;
  hwst : hw;
  events : list lut_event }.
Definition set_mem (x : lut_mem) (r : fc_db) : fc_db :=
  FcDb x (cam r) (counts r) (limits r) (skipHwlookUp r) (l2_hkCurIdx r) (jiffies r) (hwst r) (events r).
Definition set_cam (x : lut_cam) (r : fc_db) : fc_db :=
  FcDb (mem r) x (counts r) (limits r) (skipHwlookUp r) (l2_hkCurIdx r) (jiffies r) (hwst r) (events r).
Definition set_counts (x : lut_counts) (r : fc_db) : fc_db :=
  FcDb (mem r) (cam r) x (limits r) (skipHwlookUp r) (l2_hkCurIdx r) (jiffies r) (hwst r) (events r).
Definition set_limits (x : lut_limits) (r : fc_db) : fc_db :=
  FcDb (mem r) (cam r) (counts r) x (skipHwlookUp r) (l2_hkCurIdx r) (jiffies r) (hwst r) (events r).
Definition set_skipHwlookUp (x : option (Z * Z)) (r : fc_db) : fc_db :=
  FcDb (mem r) (cam r) (counts r) (limits r) x (l2_hkCurIdx r) (jiffies r) (hwst r) (events r).
Definition set_l2_hkCurIdx (x : nat) (r : fc_db) : fc_db :=
  FcDb (mem r) (cam r) (counts r) (limits r) (skipHwlookUp r) x (jiffies r) (hwst r) (events r).
Definition set_jiffies (x : Z) (r : fc_db) : fc_db :=
  FcDb (mem r) (cam r) (counts r) (limits r) (skipHwlookUp r) (l2_hkCurIdx r) x (hwst r) (events r).
Definition set_hwst (x : hw) (r : fc_db) : fc_db :=
  FcDb (mem r) (cam r) (counts r) (limits r) (skipHwlookUp r) (l2_hkCurIdx r) (jiffies r) x (events r).
Definition set_events (x : list lut_event) (r : fc_db) : fc_db :=
  FcDb (mem r) (cam r) (counts r) (limits r) (skipHwlookUp r) (l2_hkCurIdx r) (jiffies r) (hwst r) x.
Definition log (e : lut_event) (db : fc_db) : fc_db := set_events (events db ++ [e]) db.

(** ** Objects, pool, lists *)

Definition obj (p : nat) (m : lut_mem) : lut_entry := default entry0 (objs m !! p).
Definition upd (p : nat) (f : lut_entry -> lut_entry) (m : lut_mem) : lut_mem := set_objs (alter f p (objs m)) m.
Definition slot (i : nat) (m : lut_mem) : option nat := mjoin (lutTbl m !! i).
Definition on_mem (f : lut_mem -> lut_mem) (db : fc_db) : fc_db := set_mem (f (mem db)) db.

Definition _rtk_fc_lutEntry_pool_init (tbl : list (option nat)) (hash quick : list (list nat)) : lut_mem :=
  LutMem (replicate RTK_FC_LUTENTRY_POOL_SIZE entry0) (seq 0 RTK_FC_LUTENTRY_POOL_SIZE) RTK_FC_LUTENTRY_POOL_SIZE
    tbl hash quick [].

Definition _rtk_fc_lutEntry_getFromPool (m : lut_mem) : option (nat * lut_mem) :=
  match lutEntry_pool_free m with
  | O => None
  | S n => match lutEntry_pool_ring m !! n with
           | Some p => Some (p, upd p (fun _ => entry0) (set_lutEntry_pool_free n m))
           | None => None
           end
  end.

Definition _rtk_fc_lutEntry_returnToPool (p : nat) (m : lut_mem) : lut_mem :=
  let n := lutEntry_pool_free m in
  set_lutEntry_pool_free (S n) (set_lutEntry_pool_ring (<[n := p]> (lutEntry_pool_ring m)) m).

(** [list_add_tail] to a chain, and [list_del], which takes the object out of the chain
    it is on. *)
Definition list_add_tail (h p : nat) (ls : list (list nat)) : list (list nat) := alter (fun l => l ++ [p]) h ls.
Definition list_del (p : nat) (ls : list (list nat)) : list (list nat) := (fun l => filter (fun q => q <> p) l) <$> ls.

Definition link_entry (p : nat) (m : lut_mem) : lut_mem :=
  let e := obj p m in
  set_lut_quickhash_list_head (list_add_tail (_rtk_fc_quickhash_mac_fid (l2Addr e) (svl_fid e)) p (lut_quickhash_list_head m))
    (set_lut_hash_list_head (list_add_tail (_rtk_fc_hash_mac_fid (l2Addr e) (svl_fid e)) p (lut_hash_list_head m)) m).
Definition unlink_entry (p : nat) (m : lut_mem) : lut_mem :=
  set_lut_quickhash_list_head (list_del p (lut_quickhash_list_head m))
    (set_lut_hash_list_head (list_del p (lut_hash_list_head m)) m).

(** The RCU callback of a deleted entry. *)
Definition rtk_fc_lut_free_entry (p : nat) (m : lut_mem) : lut_mem :=
  let m := set_rcu (filter (fun q => q <> p) (rcu m)) m in
  if rcuFreeEnt_skipDel (obj p m) then upd p (set_rcuFreeEnt_skipDel false) m
  else _rtk_fc_lutEntry_returnToPool p (set_lutTbl (<[lutIdx (obj p m) := None]> (lutTbl m)) m).

(** ** CAM lists *)

Definition cam_base : nat := RTK_FC_TABLESIZE_LUT - LUTTABLE_BCAM_SIZE.
Definition in_cam (i : nat) : bool := (cam_base <=? i)%nat && (i <? RTK_FC_TABLESIZE_LUT)%nat.

Definition _rtk_fc_lutCamListAdd (h i : nat) (c : lut_cam) : ret * lut_cam :=
  if (h <? RTK_FC_LUT_BUCKET_SIZE)%nat && in_cam i then
    (RTK_FC_RET_OK, LutCam (filter (fun j => j <> i) (lutCam_freeListHead c))
                      (list_add_tail h i (list_del i (lutCam_hashListHead c))))
  else (RTK_FC_RET_ERR, c).

(** Where a freed slot goes: in front of the first greater one, else behind the last. *)
Fixpoint cam_insert (i : nat) (l : list nat) : list nat :=
  match l with
  | [] => [i]
  | j :: l => if (i <? j)%nat then i :: j :: l else j :: cam_insert i l
  end.
Definition _rtk_fc_lutCamListDel (i : nat) (c : lut_cam) : ret * lut_cam :=
  if in_cam i then
    (RTK_FC_RET_OK, LutCam (cam_insert i (filter (fun j => j <> i) (lutCam_freeListHead c)))
                      (list_del i (lutCam_hashListHead c)))
  else (RTK_FC_RET_ERR, c).

(** ** Learning counters *)

Definition atomic_inc (z : Z) : Z := s32 (z + 1).
Definition atomic_dec (z : Z) : Z := s32 (z - 1).
Definition in_group (port : Z) (db : fc_db) : bool := Z.testbit (group_portmask (limits db)) port.

Definition rtk_fc_macAddr_portGroup_lrnCnt_inc (e : lut_entry) (db : fc_db) : fc_db :=
  if in_group (spa e) db then set_counts (set_groupCount (atomic_inc (groupCount (counts db))) (counts db)) db else db.
Definition rtk_fc_macAddr_portGroup_lrnCnt_dec (e : lut_entry) (db : fc_db) : fc_db :=
  if in_group (spa e) db then set_counts (set_groupCount (atomic_dec (groupCount (counts db))) (counts db)) db else db.
Definition rtk_fc_macAddr_portGroup_lrnCnt_check (port : Z) (db : fc_db) : ret :=
  if RTK_FC_MAC_PORT_MAX <=? port then RTK_FC_RET_ERR
  else if in_group port db then
    if groupLimit (limits db) <=? groupCount (counts db) then RTK_FC_RET_DROP_GROUPLEARNING_LIMIT else RTK_FC_RET_OK
  else
    let n := nth (Z.to_nat port) (learningLimit (limits db)) 0 in
    if (0 <=? n) && (n <=? nth (Z.to_nat port) (learningCount (counts db)) 0)
    then RTK_FC_RET_DROP_PORTLEARNING_LIMIT else RTK_FC_RET_OK.

(** The counters of a port and of a wireless device, changed by [f]. *)
Definition count_port (f : Z -> Z) (e : lut_entry) (c : lut_counts) : lut_counts :=
  let c := set_learningCount (alter f (Z.to_nat (spa e)) (learningCount c)) c in
  if (0 <=? wlan_dev_idx e) && (wlan_dev_idx e <? RTK_FC_WLANX_END_INTF)
  then set_wlanLearningCount (alter f (Z.to_nat (wlan_dev_idx e)) (wlanLearningCount c)) c else c.

Definition count_add (e : lut_entry) (db : fc_db) : fc_db :=
  if (spa e <? RTK_FC_MAC_PORT_MAX) && negb (is_multicast (l2Addr e)) && negb (isStatic e) && (svl_fid e =? 0)
  then rtk_fc_macAddr_portGroup_lrnCnt_inc e (set_counts (count_port atomic_inc e (counts db)) db)
  else db.
Definition count_del (e : lut_entry) (db : fc_db) : fc_db :=
  if negb (is_multicast (l2Addr e)) && negb (isStatic e) then
    let db := rtk_fc_macAddr_portGroup_lrnCnt_dec e (set_counts (count_port atomic_dec e (counts db)) db) in
    if wanAccessLimit_byMac && isPermitWanAccess e
    then set_counts (set_wanCount (atomic_dec (wanCount (counts db))) (counts db)) db else db
  else db.

(** ** Adding *)

(** The copy of everything before [lutRcuHead]. *)
Definition memcpy_entry (src dst : lut_entry) : lut_entry :=
  if skipDel_copied then src else set_rcuFreeEnt_skipDel (rcuFreeEnt_skipDel dst) src.

Definition cam_add (h i : nat) (db : fc_db) : fc_db :=
  if in_cam i then set_cam (snd (_rtk_fc_lutCamListAdd h i (cam db))) db else db.

(** The end of an add: count, enter into the table, the CAM list and the chains. *)
Definition add_finish (p : nat) (db : fc_db) : fc_db :=
  let e := obj p (mem db) in
  let db := count_add e db in
  let db := on_mem (fun m => set_lutTbl (<[lutIdx e := Some p]> (lutTbl m)) m) db in
  let db := cam_add (_rtk_fc_hash_mac_fid (l2Addr e) (svl_fid e)) (lutIdx e) db in
  on_mem (fun m => link_entry p (upd p (set_valid true) m)) db.

Definition add_hw (p : nat) (db : fc_db) : (ret + nat) * fc_db :=
  let e := obj p (mem db) in
  if isPortAggEntry e then
    let i := (LUTTABLE_SRAM_SIZE + LUTTABLE_BCAM_SIZE + Z.to_nat (spa e))%nat in
    if (i <? RTK_FC_TABLESIZE_LUT)%nat && bool_decide (slot i (mem db) = None)
    then (inr i, db) else (inl RTK_FC_RET_ERR_INVALID_PARAM, db)
  else let '(r, h) := rtk_fc_api_lut_add e (hwst db) in (r, set_hwst h db).

Definition RTK_FC_LUT_ADD (p : nat) (update : bool) (db : fc_db) : ret * fc_db :=
  let '(r, db) := add_hw p db in
  match r with
  | inl err => (err, db)
  | inr i =>
      let db := on_mem (upd p (set_lutIdx i)) db in
      if update then (RTK_FC_RET_OK, db)
      else match slot i (mem db) with
           | Some q =>
               let e := obj p (mem db) in
               let o := obj q (mem db) in
               if negb (valid o) then
                 let db := on_mem (upd q (fun o => set_rcuFreeEnt_skipDel true (memcpy_entry e o))) db in
                 (RTK_FC_RET_ERR_ENTRY_REPLASE, add_finish q db)
               else if bool_decide (l2Addr e = l2Addr o) then (RTK_FC_RET_ERR_ENTRY_EXIST, db)
               else (RTK_FC_RET_ERR, set_hwst (rtk_fc_api_lut_del e (hwst db)) db)
           | None => (RTK_FC_RET_OK, add_finish p db)
           end
  end.

(** ** Searching *)

Definition _rtk_fc_lut_find_fid (mac : list Z) (fid : Z) (m : lut_mem) : option nat :=
  let h := _rtk_fc_hash_mac_fid mac fid in
  let hit p := valid (obj p m) && bool_decide (l2Addr (obj p m) = mac) && (svl_fid (obj p m) =? fid) in
  (fun p => lutIdx (obj p m)) <$> List.find hit (default [] (lut_hash_list_head m !! h)).

Definition _rtk_fc_lut_find (mac : list Z) (m : lut_mem) : option nat :=
  let h := _rtk_fc_quickhash_mac_fid mac DEFAULT_FID in
  let hit p := valid (obj p m) && bool_decide (l2Addr (obj p m) = mac) in
  (fun p => lutIdx (obj p m)) <$> List.find hit (default [] (lut_quickhash_list_head m !! h)).

(** ** Deleting *)

Definition cam_del (i : nat) (db : fc_db) : fc_db :=
  if in_cam i then set_cam (snd (_rtk_fc_lutCamListDel i (cam db))) db else db.

(** The deletion of one entry that is valid and not static. *)
Definition del_one (p : nat) (skipFlowFlush : bool) (db : fc_db) : fc_db :=
  let e := obj p (mem db) in
  let db := if negb skipFlowFlush && anyFlowEstablish e then log (FlowDeleteByL2Idx (lutIdx e)) db else db in
  let db := count_del e db in
  let db := if isPortAggEntry e then db else set_hwst (rtk_fc_api_lut_del e (hwst db)) db in
  let db := cam_del (lutIdx e) db in
  let db := on_mem (fun m => unlink_entry p (upd p (set_valid false) m)) db in
  if rcuFreeEnt_skipDel e then db else on_mem (fun m => set_rcu (rcu m ++ [p]) m) db.

(** Deleting an entry deletes its duplicates.  Every call that goes on makes one entry
    invalid, so the number of objects bounds the depth. *)
Fixpoint del_fuel (n : nat) (p : nat) (skipFlowFlush : bool) (db : fc_db) : fc_db :=
  match n with
  | O => db
  | S n =>
      let e := obj p (mem db) in
      if negb (valid e) then db
      else if isStatic e then db
      else
        let db := del_one p skipFlowFlush db in
        if duplicateEntry_exist e then
          foldl (fun db fid =>
                   match _rtk_fc_lut_find_fid (l2Addr e) fid (mem db) with
                   | Some i => match slot i (mem db) with
                               | Some q => del_fuel n q skipFlowFlush db
                               | None => db
                               end
                   | None => db
                   end)
            db (seqZ RTK_FC_WIFI_FID_1 (RTK_FC_WIFI_FID_END - RTK_FC_WIFI_FID_1))
        else db
  end.
Definition RTK_FC_LUT_DEL (p : nat) (skipFlowFlush : bool) (db : fc_db) : fc_db :=
  del_fuel (S (length (objs (mem db)))) p skipFlowFlush db.

(** ** The victim of an eviction *)

Definition time_after (a b : Z) : bool := s32 (b - a) <? 0.

(** The scan: time and object of the oldest entry without flows, and of the oldest with. *)
Definition lru_acc : Type := (Z * option nat) * (Z * option nat).
Definition lru_visit (m : lut_mem) (acc : lru_acc) (p : nat) : lru_acc :=
  let '((tn, pn), (tf, pf)) := acc in
  let e := obj p m in
  if isStatic e || is_multicast (l2Addr e) then acc
  else if bool_decide (is_Some pn) && anyFlowEstablish e then acc
  else if anyFlowEstablish e then
    if time_after tf (last_jiffies e) then ((tn, pn), (last_jiffies e, Some p)) else acc
  else if time_after tn (last_jiffies e) then ((last_jiffies e, Some p), (tf, pf)) else acc.

(** The chain of the bucket, then the valid entries of the CAM. *)
Definition cam_entries (m : lut_mem) : list nat :=
  filter (fun p => valid (obj p m) = true)
    (omap (fun i => slot i m) (seq LUTTABLE_SRAM_SIZE (RTK_FC_TABLESIZE_LUT - LUTTABLE_SRAM_SIZE))).
Definition lru_victim (h : nat) (db : fc_db) : option nat :=
  let m := mem db in
  let t := u32 (jiffies db + 1) in
  let '((_, pn), (_, pf)) :=
    foldl (lru_visit m) ((t, None), (t, None)) (default [] (lut_hash_list_head m !! h) ++ cam_entries m) in
  match pn with Some p => Some p | None => pf end.

Definition _rtk_fc_lut_LRU (h : nat) (bridge : bool) (db : fc_db) : option nat * fc_db :=
  match lru_victim h db with
  | None => (None, db)
  | Some p =>
      let e := obj p (mem db) in
      if FC_F_SWLUT_PORT_AGG_ENTRY && anyFlowEstablish e && bridge then (None, db)
      else (Some (lutIdx e), RTK_FC_LUT_DEL p (negb (anyFlowEstablish e)) db)
  end.

(** ** Learning *)

Inductive lut_learning_state := LUT_DIR_SA_LEARNING | LUT_DIR_DA_LEARNING | LUT_DIR_DONT_CARE.
#[local] Instance state_eq_dec : EqDecision lut_learning_state.
Proof. solve_decision. Defined.
(** What learning reads of a packet's header record. *)
Record pktHdr := PktHdr {
  fwd_bridge : bool;
  inDev_internal_vid_fdb_find : bool;
  outDev_internal_vid_fdb_find : bool }.
Record learn_req := LearnReq {
  srcMac : list Z;
  igrPort : Z * Z;                       (* port, extension port *)
  lr_vid : Z;
  lr_wlan : Z;
  verify_fdb : bool;
  lr_static : bool;
  pPktHdr : option pktHdr;
  learning_state : lut_learning_state }.

Definition _rtk_fc_lookup_fdb (mac : list Z) (vid : Z) : bool :=
  if flow_skipAllPsTracking || l2_skipPsTracking then false else fdb_hook mac vid.
Definition _rtk_fc_lookup_v4neighbor (mac : list Z) : bool :=
  if flow_skipAllPsTracking || l2_skipPsTracking then false else neighV4_hook mac.
Definition _rtk_fc_lookup_v6neighbor (mac : list Z) : bool :=
  if flow_skipAllPsTracking || l2_skipPsTracking then false else neighV6_hook mac.
Definition ps_knows (mac : list Z) (vid : Z) : bool :=
  _rtk_fc_lookup_fdb mac vid || _rtk_fc_lookup_v4neighbor mac || _rtk_fc_lookup_v6neighbor mac.
Definition fdb_by_pvid (r : learn_req) : bool :=
  match pPktHdr r, learning_state r with
  | Some k, LUT_DIR_SA_LEARNING => inDev_internal_vid_fdb_find k
  | Some k, LUT_DIR_DA_LEARNING => outDev_internal_vid_fdb_find k
  | _, _ => false
  end.

(** An address without a known port is learned on port 0. *)
Definition unknown_ucmc (r : learn_req) : bool :=
  (RTK_FC_MAC_PORT_MAX =? fst (igrPort r)) && (RTK_FC_MAC_EXT_PORT_MAX =? snd (igrPort r)) &&
  (RTK_FC_WLANX_NOT_FOUND =? lr_wlan r).
Definition ingress (r : learn_req) : Z * Z :=
  if unknown_ucmc r then (RTK_FC_MAC_PORT0, RTK_FC_MAC_EXT_PORT_MAX) else igrPort r.

(** The requests that are refused before the table is looked at. *)
Definition learn_guard (r : learn_req) : option ret :=
  if negb (lr_static r) && (RTK_FC_MAC_PORT_MAINCPU =? fst (ingress r)) && (lr_wlan r =? RTK_FC_WLANX_NOT_FOUND)
  then Some RTK_FC_RET_LRN_SKIP_FROMCPUPKT
  else if is_multicast (srcMac r) && negb (unknown_ucmc r) then Some RTK_FC_RET_LRN_SKIP_MCPKT
  else if foldr Z.lor 0 (srcMac r) =? 0 then Some RTK_FC_RET_ERR_INVALID_PARAM
  else None.

(** The entry is known on this port (or is learned as static): refresh it. *)
Definition same_place (r : learn_req) (e : lut_entry) : bool :=
  lr_static r || ((spa e =? fst (ingress r)) && (extspa e =? snd (ingress r)) && (wlan_dev_idx e =? lr_wlan r)).
Definition refresh (r : learn_req) (now : Z) (e : lut_entry) : lut_entry :=
  let e := if lr_static r
           then set_isSync2PsEntry false (set_staticRefCount (staticRefCount e + 1) (set_isStatic true e)) else e in
  let e := if verify_fdb r && negb (isSync2PsEntry e) && negb (isStatic e)
           then set_isSync2PsEntry (ps_knows (srcMac r) (lr_vid r) || fdb_by_pvid r) e else e in
  set_last_jiffies now e.

Definition new_entry (r : learn_req) (now : Z) : lut_entry :=
  LutEntry (srcMac r) 0 (fst (ingress r)) (snd (ingress r)) (lr_wlan r) 0 false (lr_static r)
    (if lr_static r then 1 else 0) (if lr_static r then false else verify_fdb r) (unknown_ucmc r)
    false false false false false false (negb (lr_vid r =? 0)) (lr_vid r) now 0.

(** The entry that stands for all addresses of a port, ff:ff:ff:ff:ff:<port>. *)
Definition agg_mac (port : Z) : list Z := [255; 255; 255; 255; 255; u8 port].
Definition agg_entry (e : lut_entry) : lut_entry :=
  LutEntry (agg_mac (spa e)) (svl_fid e) (spa e) (extspa e) (wlan_dev_idx e) (lutIdx e) (valid e) (isStatic e)
    (staticRefCount e) false (isUnknowUcMc e) true (duplicateEntry_exist e) (rcuFreeEnt_skipDel e)
    (anyFlowEstablish e) (isGMAC e) (isPermitWanAccess e) (CTAG_IF e) (CVID e) (last_jiffies e) (hostPolIdx e).

Definition first_index (mac : list Z) (l : list (list Z)) : Z :=
  match list_find (fun k => k = mac) l with Some (i, _) => Z.of_nat i | None => -1 end.
Definition _rtk_fc_lutHostPolicingIdxUpdate (mac : list Z) (m : lut_mem) : lut_mem :=
  match _rtk_fc_lut_find mac m with
  | Some i => match slot i m with
              | Some p => upd p (set_hostPolIdx (first_index mac hostPolice_macs)) m
              | None => m
              end
  | None => m
  end.

(** Add, and if the table is full evict and add again. *)
Inductive add_result := Added (r : ret) | Replaced | NoVictim.
Definition add_or_evict (h p : nat) (bridge : bool) (db : fc_db) : add_result * fc_db :=
  let '(r, db) := RTK_FC_LUT_ADD p false db in
  match r with
  | RTK_FC_RET_ERR_ENTRY_FULL =>
      match _rtk_fc_lut_LRU h bridge db with
      | (None, db) => (NoVictim, db)
      | (Some _, db) => let '(r, db) := RTK_FC_LUT_ADD p false db in (Added r, db)
      end
  | RTK_FC_RET_ERR_ENTRY_REPLASE => (Replaced, db)
  | r => (Added r, db)
  end.

Definition return_obj (p : nat) (db : fc_db) : fc_db := on_mem (_rtk_fc_lutEntry_returnToPool p) db.

(** One more entry per further trunked CPU port for an address behind wireless. *)
Definition dup_port (fid port : Z) : Z :=
  if fid =? RTK_FC_WIFI_FID_1 then RTK_FC_MAC_PORT_MASTERCPU_CORE1
  else if fid =? RTK_FC_WIFI_FID_2 then RTK_FC_MAC_PORT_SLAVECPU else port.
Definition dup_entry (fid : Z) (src dst : lut_entry) : lut_entry :=
  let e := memcpy_entry src dst in
  LutEntry (l2Addr e) fid (dup_port fid (spa e)) (extspa e) (wlan_dev_idx e) (lutIdx e) (valid e) (isStatic e)
    (staticRefCount e) (isSync2PsEntry e) (isUnknowUcMc e) (isPortAggEntry e) false (rcuFreeEnt_skipDel e)
    (anyFlowEstablish e) (isGMAC e) (isPermitWanAccess e) (CTAG_IF e) (CVID e) (last_jiffies e) (hostPolIdx e).
Fixpoint duplicate_loop (h p : nat) (fids : list Z) (db : fc_db) : ret * fc_db :=
  match fids with
  | [] => (RTK_FC_RET_OK, db)
  | fid :: fids =>
      match _rtk_fc_lutEntry_getFromPool (mem db) with
      | None => (RTK_FC_RET_ERR_ENTRY_FULL, db)
      | Some (q, m) =>
          let db := set_mem (upd q (dup_entry fid (obj p m)) m) db in
          match add_or_evict h q false db with
          | (Added RTK_FC_RET_OK, db) => duplicate_loop h p fids db
          | (_, db) => (RTK_FC_RET_OK, return_obj q db)
          end
      end
  end.

(** After the entry [p] is in the table. *)
Definition learned (r : learn_req) (p : nat) (db : fc_db) : ret * option nat * fc_db :=
  let i := lutIdx (obj p (mem db)) in
  let db := on_mem (_rtk_fc_lutHostPolicingIdxUpdate (l2Addr (obj p (mem db)))) db in
  let db := if bool_decide (skipHwlookUp db = Some (ingress r)) then set_skipHwlookUp None db else db in
  if (lr_wlan r <? RTK_FC_WLANX_END_INTF) && wifi_tx_gmac_auto_sel_en && gmac_tx_trunking (lr_wlan r) then
    let db := on_mem (upd p (set_duplicateEntry_exist true)) db in
    let '(x, db) := duplicate_loop (_rtk_fc_hash_mac_fid (srcMac r) DEFAULT_FID) p
                      (seqZ RTK_FC_WIFI_FID_1 (wifi_tx_gmac_trunking_num - RTK_FC_WIFI_FID_1)) db in
    (x, Some i, db)
  else (RTK_FC_RET_OK, Some i, db).

Definition is_bridge (r : learn_req) : bool :=
  match pPktHdr r with Some k => fwd_bridge k | None => false end.
Definition port_agg_allowed (r : learn_req) (e : lut_entry) (db : fc_db) : bool :=
  FC_F_SWLUT_PORT_AGG_ENTRY && bool_decide (learning_state r <> LUT_DIR_DONT_CARE) && is_bridge r &&
  (spa e <=? RTK_FC_MAC_PORT_PON) && (nth (Z.to_nat (spa e)) (learningLimit (limits db)) 0 =? -1).

(** The address is not in the table: take an object, fill it, add it. *)
Definition learn_new (r : learn_req) (db : fc_db) : ret * option nat * fc_db :=
  let h := _rtk_fc_hash_mac_fid (srcMac r) DEFAULT_FID in
  match _rtk_fc_lutEntry_getFromPool (mem db) with
  | None => (RTK_FC_RET_ERR_ENTRY_FULL, None, db)
  | Some (p, m) =>
      let db := set_mem (upd p (fun _ => new_entry r (jiffies db)) m) db in
      let finish '(x, db) :=
        match x with
        | RTK_FC_RET_OK => learned r p db
        | _ => (RTK_FC_RET_LRN_FAIL, None, return_obj p db)
        end in
      match add_or_evict h p (is_bridge r) db with
      | (Added x, db) => finish (x, db)
      | (Replaced, db) =>
          let db := return_obj p db in
          match slot (lutIdx (obj p (mem db))) (mem db) with
          | Some q => learned r q db
          | None => (RTK_FC_RET_LRN_FAIL, None, db)
          end
      | (NoVictim, db) =>
          if port_agg_allowed r (obj p (mem db)) db then
            let db := on_mem (upd p agg_entry) db in
            match _rtk_fc_lut_find (l2Addr (obj p (mem db))) (mem db) with
            | Some i => (RTK_FC_RET_OK, Some i, return_obj p db)
            | None => finish (RTK_FC_LUT_ADD p false db)
            end
          else finish (RTK_FC_RET_ERR_ENTRY_FULL, db)
      end
  end.

(** The address is not in the table, or not any more: the kernel has to know it, and the
    limit of the port must not be reached. *)
Definition learn_absent (r : learn_req) (db : fc_db) : ret * option nat * fc_db :=
  if verify_fdb r && negb (ps_knows (srcMac r) (lr_vid r)) && negb (lr_static r)
  then (RTK_FC_RET_LRN_FAIL, None, db)
  else if bool_decide (rtk_fc_macAddr_portGroup_lrnCnt_check (fst (ingress r)) db = RTK_FC_RET_OK)
       then learn_new r db else (RTK_FC_RET_LRN_FAIL, None, db).

Definition _rtk_fc_lut_learning (r : learn_req) (db : fc_db) : ret * option nat * fc_db :=
  match learn_guard r with
  | Some x => (x, None, db)
  | None =>
      let h := _rtk_fc_hash_mac_fid (srcMac r) DEFAULT_FID in
      match List.find (fun p => bool_decide (l2Addr (obj p (mem db)) = srcMac r))
              (default [] (lut_hash_list_head (mem db) !! h)) with
      | None => learn_absent r db
      | Some p =>
          let e := obj p (mem db) in
          if same_place r e then (RTK_FC_RET_OK, Some (lutIdx e), on_mem (upd p (refresh r (jiffies db))) db)
          else if isStatic e then (RTK_FC_RET_LRN_FAIL, None, db)
          else learn_absent r (RTK_FC_LUT_DEL p false db)
      end
  end.

(** ** Deletion from outside *)

Definition recover_count (port : Z) (db : fc_db) : fc_db :=
  let db := set_counts (set_learningCount (alter atomic_inc (Z.to_nat port) (learningCount (counts db))) (counts db)) db in
  if in_group port db then set_counts (set_groupCount (atomic_inc (groupCount (counts db))) (counts db)) db else db.

(** One user of a static entry goes; [None] is FAILED. *)
Definition _rtk_fc_lut_staticEntry_del (i : nat) (db : fc_db) : option fc_db :=
  if (RTK_FC_TABLESIZE_LUT <=? i)%nat then None
  else match slot i (mem db) with
  | None => None
  | Some p =>
      let e := obj p (mem db) in
      if negb (isStatic e) then None
      else if staticRefCount e =? 0 then None
      else
        let n := staticRefCount e - 1 in
        let db := on_mem (upd p (fun e => set_staticRefCount n (if n =? 0 then set_isStatic false e else e))) db in
        if n =? 0 then
          if is_multicast (l2Addr e) then Some (RTK_FC_LUT_DEL p false db)
          else if isGMAC e && (wlan_dev_idx e =? RTK_FC_WLANX_NOT_FOUND)
               then Some (recover_count (spa e) (RTK_FC_LUT_DEL p false db))
               else Some db
        else Some db
  end.

(** Walk over all quick chains.  A deleted entry keeps its successor until the walk has
    passed, so the walk sees the chains as they were. *)
Definition delete_where (c : lut_entry -> bool) (db : fc_db) : fc_db :=
  foldl (fun db p => if c (obj p (mem db)) then RTK_FC_LUT_DEL p true db else db) db
    (concat (lut_quickhash_list_head (mem db))).
Definition _rtk_fc_lut_nonStaticEntry_flush (db : fc_db) : fc_db :=
  foldl (fun db p => log (FlowDeleteByL2Idx (lutIdx (obj p (mem db)))) db) db
    (concat (lut_quickhash_list_head (mem db))).
Definition _rtk_fc_lut_wlanDevidx_del (w : Z) (db : fc_db) : fc_db :=
  if (RTK_FC_WLANX_END_INTF <=? w) || hwnat_spec_test then db
  else delete_where (fun e => wlan_dev_idx e =? w) (log (FlowDeleteByWlan w) db).
Definition _rtk_fc_lut_linkdown_del (port : Z) (db : fc_db) : fc_db :=
  if hwnat_spec_test then db
  else delete_where (fun e => spa e =? port) (log (FlowDeleteBySpa port) db).

(** The table part of [rtk_fc_flow_flush]. *)
Definition flush_unknown (db : fc_db) : fc_db :=
  foldl (fun db i => match slot i (mem db) with
                     | Some p => let e := obj p (mem db) in
                                 if valid e && isUnknowUcMc e then RTK_FC_LUT_DEL p (negb (anyFlowEstablish e)) db else db
                     | None => db
                     end) db (seq 0 RTK_FC_TABLESIZE_LUT).

(** Which ports share a limit: their entries go, their limits are added up. *)
Definition rtk_fc_macAddr_portGroup_lrnCnt_config (mask : Z) (db : fc_db) : fc_db :=
  let ports := seqZ 0 RTK_FC_MAC_PORT_MAX in
  let db := foldl (fun db i => if Z.testbit (Z.lor mask (group_portmask (limits db))) i
                               then _rtk_fc_lut_linkdown_del i db else db) db ports in
  let limit l i := nth (Z.to_nat i) l 0 in
  let l := foldl (fun l i => if Z.testbit mask i && (limit l i =? -1) then <[Z.to_nat i := 0]> l else l)
             (learningLimit (limits db)) ports in
  let sum := foldl (fun s i => if Z.testbit mask i && (0 <? limit l i) then s32 (s + limit l i) else s) 0 ports in
  set_limits (LutLimits l (if mask =? 0 then -1 else sum) mask) db.

(** ** House keeping *)

Definition window_end (cur : nat) : nat := Nat.min (cur + L2HOUSE_KEEP_NUM) RTK_FC_TABLESIZE_LUT.
Definition next_window (cur : nat) : nat :=
  if (RTK_FC_TABLESIZE_LUT <? cur + L2HOUSE_KEEP_NUM)%nat then O else (cur + L2HOUSE_KEEP_NUM)%nat.

Definition idle (timeout : Z) (e : lut_entry) (db : fc_db) : bool :=
  time_after (jiffies db) (u32 (last_jiffies e + timeout * CONFIG_HZ)).
Definition expire (timeout : Z) (p : nat) (db : fc_db) : fc_db :=
  if idle timeout (obj p (mem db)) db then RTK_FC_LUT_DEL p false db else db.
Definition used (p : nat) (db : fc_db) : fc_db :=
  let e := obj p (mem db) in
  let db := on_mem (upd p (set_last_jiffies (jiffies db))) db in
  if negb (isStatic e) && has_notify then log (NotifyRefresh (l2Addr e) (CVID e) (anyFlowEstablish e)) db else db.

(** What one slot gets; [seen] is the answer of the switch for a unicast address, [None]
    when it does not know it. *)
Definition check_slot (seen : nat -> fc_db -> option bool * fc_db) (i : nat) (db : fc_db) : fc_db :=
  match slot i (mem db) with
  | None => db
  | Some p =>
      let e := obj p (mem db) in
      if negb (valid e) || negb (svl_fid e =? 0) then db
      else if is_multicast (l2Addr e) then if isStatic e then db else expire mcTimeout_unit1s p db
      else match seen p db with
           | (None, db) => db
           | (Some s, db) =>
               let db := if s : bool then used p db else db in
               if isStatic e then db else expire ucTimeout_unit1s p db
           end
  end.

(** By the age of the switch's entry, which is set back to 1. *)
Definition seen_by_age (p : nat) (db : fc_db) : option bool * fc_db :=
  let mac := l2Addr (obj p (mem db)) in
  match rtk_l2_addr_get mac (hwst db) with
  | None => (None, db)
  | Some age => (Some (negb (age =? 1)), set_hwst (rtk_l2_addr_add mac 1 (hwst db)) db)
  end.
Definition _rtk_fc_lut_timeout_byCheckAging (db : fc_db) : fc_db :=
  let cur := l2_hkCurIdx db in
  set_l2_hkCurIdx (next_window cur)
    (foldl (fun db i => check_slot seen_by_age i db) db (seq cur (window_end cur - cur))).

(** By the traffic bits, 32 slots at a time. *)
Definition check_block (start : nat) (db : fc_db) : fc_db :=
  let '(mask, h) := rtk_rg_asic_lutSATraffic_get start (hwst db) in
  foldl (fun db i => check_slot (fun _ db => (Some (Z.testbit mask (Z.of_nat (i - start))), db)) i db) (set_hwst h db)
    (seq start (Nat.min (start + 32) RTK_FC_TABLESIZE_LUT - start)).
Definition _rtk_fc_lut_timeout_byCheckTrfBits (db : fc_db) : fc_db :=
  let cur := l2_hkCurIdx db in
  set_l2_hkCurIdx (next_window cur)
    (foldl (fun db k => check_block (cur + 32 * k) db) db (seq 0 ((window_end cur - cur + 31) / 32))).
Definition _rtk_fc_lut_timeoutCheck (db : fc_db) : fc_db :=
  if ASICDRIVERVER =? 1 then _rtk_fc_lut_timeout_byCheckAging db else _rtk_fc_lut_timeout_byCheckTrfBits db.

(** ** Runs *)

(** What can happen to the table.  [OAnnotate] is the rest of the driver, which marks
    entries; [OGrace] is the end of a grace period. *)
Inductive lut_op :=
| OLearn (r : learn_req)
| OStaticDel (i : nat)
| OWlanDel (w : Z)
| OLinkDown (port : Z)
| OConfig (mask : Z)
| OFlush
| OHouseKeeping
| OGrace (p : nat)
| OTick (now : Z)
| OAnnotate (i : nat) (flow gmac permit : bool).

Definition annotate (flow gmac permit : bool) (e : lut_entry) : lut_entry :=
  LutEntry (l2Addr e) (svl_fid e) (spa e) (extspa e) (wlan_dev_idx e) (lutIdx e) (valid e) (isStatic e)
    (staticRefCount e) (isSync2PsEntry e) (isUnknowUcMc e) (isPortAggEntry e) (duplicateEntry_exist e)
    (rcuFreeEnt_skipDel e) flow gmac permit (CTAG_IF e) (CVID e) (last_jiffies e) (hostPolIdx e).

Definition lut_step (o : lut_op) (db : fc_db) : fc_db :=
  match o with
  | OLearn r => snd (_rtk_fc_lut_learning r db)
  | OStaticDel i => default db (_rtk_fc_lut_staticEntry_del i db)
  | OWlanDel w => _rtk_fc_lut_wlanDevidx_del w db
  | OLinkDown port => _rtk_fc_lut_linkdown_del port db
  | OConfig mask => rtk_fc_macAddr_portGroup_lrnCnt_config mask db
  | OFlush => flush_unknown db
  | OHouseKeeping => _rtk_fc_lut_timeoutCheck db
  | OGrace p => if bool_decide (p ∈ rcu (mem db)) then on_mem (rtk_fc_lut_free_entry p) db else db
  | OTick now => set_jiffies (u32 now) db
  | OAnnotate i flow gmac permit =>
      match slot i (mem db) with
      | Some p => on_mem (upd p (annotate flow gmac permit)) db
      | None => db
      end
  end.
Definition lut_run (os : list lut_op) (db : fc_db) : fc_db := foldl (fun db o => lut_step o db) db os.

(** The table as the driver finds it at start. *)
Definition lut_init (ports wlans : nat) (limit : list Z) (h : hw) (now : Z) : fc_db :=
  FcDb (_rtk_fc_lutEntry_pool_init (replicate RTK_FC_TABLESIZE_LUT None)
          (replicate RTK_FC_LUT_BUCKET_SIZE []) (replicate RTK_FC_LUT_BUCKET_SIZE []))
    (LutCam (seq cam_base LUTTABLE_BCAM_SIZE) (replicate RTK_FC_LUT_BUCKET_SIZE []))
    (LutCounts (replicate ports 0) (replicate wlans 0) 0 0) (LutLimits limit (-1) 0) None 0 now h [].

End Lut.
