(* ===== verification/FcLutInv.v ===== *)
(** * The invariant of the layer-2 table

    [lut_wf]: every object of the pool is in exactly one place (the ring of free objects,
    one slot of the table, or in the hands of the running operation); an entry in a slot
    carries the number of the slot; the two kinds of hash chains hold exactly the valid
    entries; a pending RCU callback belongs to an entry of the table, and one that was
    taken over meanwhile is marked.  Every operation of [FcLut] preserves it. *)
From S2P Require Import Prelude FcLut.
Open Scope Z_scope.

(** What the module relies on: the hash values fit the tables, the quick hash does not
    depend on the filter id, learned entries have the default id, and the switch answers
    an add with a slot of the table or with an error of its own. *)
Class LutLaws {cfg : LutConfig} {l2 : L2Hw} : Prop := {
  hash_fits : (512 <= RTK_FC_LUT_BUCKET_SIZE)%nat;
  quick_fits mac fid : (_rtk_fc_quickhash_mac_fid mac fid < RTK_FC_LUT_BUCKET_SIZE)%nat;
  quick_fid mac fid : _rtk_fc_quickhash_mac_fid mac fid = _rtk_fc_quickhash_mac_fid mac DEFAULT_FID;
  default_fid : DEFAULT_FID = 0;
  fid_1_pos : 0 < RTK_FC_WIFI_FID_1;
  trunk_fids : wifi_tx_gmac_trunking_num <= 4;
  cam_size : (LUTTABLE_BCAM_SIZE <= RTK_FC_TABLESIZE_LUT)%nat;
  hw_slot e h i h' : rtk_fc_api_lut_add e h = (inr i, h') -> (i < RTK_FC_TABLESIZE_LUT)%nat;
  hw_error e h r h' : rtk_fc_api_lut_add e h = (inl r, h') -> r <> RTK_FC_RET_OK /\ r <> RTK_FC_RET_ERR_ENTRY_REPLASE }.

(** ** The hash is below 512 *)

Definition is_bit (z : Z) : Prop := z = 0 \/ z = 1.
Lemma land_bit z : is_bit (Z.land z 1).
Proof.
  unfold is_bit. pose proof (Z.land_ones z 1 ltac:(lia)) as H. change (Z.ones 1) with 1 in H. rewrite H.
  pose proof (Z.mod_pos_bound z (2 ^ 1)). change (2 ^ 1) with 2 in *. lia.
Qed.
Lemma lxor_bits l : Forall is_bit l -> is_bit (foldr Z.lxor 0 l).
Proof.
  induction 1 as [|z l [-> | ->] _ [IH|IH]]; simpl; [by left|..]; rewrite IH; [by left|by right|by right|by left].
Qed.
Lemma hashidx_bits mac fid : Forall is_bit (hashidx mac fid).
Proof.
  unfold hashidx. cbv beta zeta.
  repeat (apply Forall_cons_2; [apply lxor_bits; repeat (apply Forall_cons_2; [apply land_bit|]); apply Forall_nil_2|]).
  apply Forall_nil_2.
Qed.
Lemma hash_512 mac fid : (_rtk_fc_hash_mac_fid mac fid < 512)%nat.
Proof.
  unfold _rtk_fc_hash_mac_fid. pose proof (hashidx_bits mac fid) as H.
  assert (length (hashidx mac fid) = 9%nat) as Hl by done.
  destruct (hashidx mac fid) as [|z0 [|z1 [|z2 [|z3 [|z4 [|z5 [|z6 [|z7 [|z8 [|]]]]]]]]]]; try done.
  rewrite !Forall_cons in H. unfold is_bit in H. destruct H as (H0 & H1 & H2 & H3 & H4 & H5 & H6 & H7 & H8 & _).
  destruct H0 as [-> | ->], H1 as [-> | ->], H2 as [-> | ->], H3 as [-> | ->], H4 as [-> | ->], H5 as [-> | ->],
    H6 as [-> | ->], H7 as [-> | ->], H8 as [-> | ->]; apply Nat.ltb_lt; vm_compute; reflexivity.
Qed.

(** Filter ids below 4 hash an address to different buckets. *)
Definition hash_bits (l : list Z) : nat := Z.to_nat (foldr Z.lor 0 (imap (fun k h => Z.shiftl h (Z.of_nat k)) l)).
Lemma foldr_lxor_snoc l z : foldr Z.lxor 0 (l ++ [z]) = Z.lxor (foldr Z.lxor 0 l) z.
Proof. induction l as [|y l IH]; simpl; [by rewrite Z.lxor_0_r|]. by rewrite IH, Z.lxor_assoc. Qed.
Lemma hashidx_fid mac : exists z0 z1 z2 y3 y4 z5 z6 z7 z8, Forall is_bit [z0; z1; z2; y3; y4; z5; z6; z7; z8] /\
  forall fid, hashidx mac fid = [z0; z1; z2; Z.lxor y3 (Z.land (Z.shiftr fid 0) 1);
                                 Z.lxor y4 (Z.land (Z.shiftr fid 1) 1); z5; z6; z7; z8].
Proof.
  unfold hashidx. cbv beta zeta. do 9 eexists. split; [|intros fid; repeat f_equal; apply (foldr_lxor_snoc [_; _; _; _; _])].
  repeat (apply Forall_cons_2; [apply lxor_bits; repeat (apply Forall_cons_2; [apply land_bit|]); apply Forall_nil_2|]).
  apply Forall_nil_2.
Qed.
Lemma hash_fid mac fid : 0 <= fid < 4 -> _rtk_fc_hash_mac_fid mac fid = _rtk_fc_hash_mac_fid mac 0 -> fid = 0.
Proof.
  intros Hf. change (hash_bits (hashidx mac fid) = hash_bits (hashidx mac 0) -> fid = 0).
  destruct (hashidx_fid mac) as (z0 & z1 & z2 & y3 & y4 & z5 & z6 & z7 & z8 & Hb & E). rewrite !E. clear E.
  rewrite !Forall_cons in Hb. unfold is_bit in Hb. destruct Hb as (H0 & H1 & H2 & H3 & H4 & H5 & H6 & H7 & H8 & _).
  assert (fid = 0 \/ fid = 1 \/ fid = 2 \/ fid = 3) as [-> | [-> | [-> | ->]]] by lia; [done|..];
  destruct H0 as [-> | ->], H1 as [-> | ->], H2 as [-> | ->], H3 as [-> | ->], H4 as [-> | ->], H5 as [-> | ->],
    H6 as [-> | ->], H7 as [-> | ->], H8 as [-> | ->]; intros E; vm_compute in E; discriminate E.
Qed.

(** ** Chains *)

Definition chain (h : nat) (ls : list (list nat)) : list nat := default [] (ls !! h).

Lemma chain_elem h (ls : list (list nat)) p : p ∈ chain h ls -> exists l, ls !! h = Some l /\ p ∈ l.
Proof. unfold chain. destruct (ls !! h) as [l|]; simpl; [eauto|]. by rewrite elem_of_nil. Qed.
Lemma elem_add_tail h k p q ls : (k < length ls)%nat ->
  p ∈ chain h (list_add_tail k q ls) <-> p ∈ chain h ls \/ (h = k /\ p = q).
Proof.
  intros Hk. unfold chain, list_add_tail. destruct (decide (h = k)) as [->|Hn].
  - rewrite list_lookup_alter_eq. apply lookup_lt_is_Some in Hk as [l ->]. simpl.
    rewrite elem_of_app, list_elem_of_singleton. tauto.
  - rewrite list_lookup_alter_ne by done. tauto.
Qed.
Lemma elem_del h p q ls : p ∈ chain h (list_del q ls) <-> p ∈ chain h ls /\ p <> q.
Proof.
  unfold chain, list_del. rewrite list_lookup_fmap. destruct (ls !! h) as [l|]; simpl.
  - rewrite list_elem_of_filter. tauto.
  - rewrite elem_of_nil. tauto.
Qed.
Lemma nodup_add_tail k q ls : (forall h, ~ q ∈ chain h ls) -> Forall NoDup ls -> Forall NoDup (list_add_tail k q ls).
Proof.
  intros Hq Hf. unfold list_add_tail. rewrite Forall_lookup in Hf |- *. intros h l.
  destruct (decide (h = k)) as [->|Hn]; [|rewrite list_lookup_alter_ne by done; apply Hf].
  rewrite list_lookup_alter_eq. specialize (Hq k). unfold chain in Hq. destruct (ls !! k) as [l'|] eqn:E; [|done].
  intros [= <-]. simpl in Hq. apply NoDup_app. split; [by eapply Hf|]. split; [|apply NoDup_singleton].
  intros x Hx ->%list_elem_of_singleton. done.
Qed.
Lemma nodup_del q ls : Forall NoDup ls -> Forall NoDup (list_del q ls).
Proof.
  unfold list_del. rewrite Forall_fmap. intros H. apply (Forall_impl _ _ _ H). intros l. apply NoDup_filter.
Qed.

Section Inv.
Context {cfg : LutConfig} {l2 : L2Hw} {laws : LutLaws}.

(** ** The invariant *)

Definition in_table (p : nat) (m : lut_mem) : Prop := exists i, slot i m = Some p.
Definition free_objs (m : lut_mem) : list nat := take (lutEntry_pool_free m) (lutEntry_pool_ring m).
Definition table_objs (m : lut_mem) : list nat := omap id (lutTbl m).
Definition hash_of (e : lut_entry) : nat := _rtk_fc_hash_mac_fid (l2Addr e) (svl_fid e).
Definition quick_of (e : lut_entry) : nat := _rtk_fc_quickhash_mac_fid (l2Addr e) (svl_fid e).

(** The chains hold exactly the valid entries, each where its key says. *)
Definition chains_exact (key : lut_entry -> nat) (ls : list (list nat)) (m : lut_mem) : Prop :=
  length ls = RTK_FC_LUT_BUCKET_SIZE /\ Forall NoDup ls /\
  forall h p, p ∈ chain h ls <-> in_table p m /\ valid (obj p m) = true /\ key (obj p m) = h.

(** [fl] are the objects in the hands of the running operation. *)
Record lut_wf (fl : list nat) (m : lut_mem) : Prop := {
  wf_objs : length (objs m) = RTK_FC_LUTENTRY_POOL_SIZE;
  wf_ring : length (lutEntry_pool_ring m) = RTK_FC_LUTENTRY_POOL_SIZE;
  wf_free : (lutEntry_pool_free m <= RTK_FC_LUTENTRY_POOL_SIZE)%nat;
  wf_places : fl ++ free_objs m ++ table_objs m ≡ₚ seq 0 RTK_FC_LUTENTRY_POOL_SIZE;
  wf_tbl : length (lutTbl m) = RTK_FC_TABLESIZE_LUT;
  wf_idx : forall i p, slot i m = Some p -> lutIdx (obj p m) = i;
  wf_hash : chains_exact hash_of (lut_hash_list_head m) m;
  wf_quick : chains_exact quick_of (lut_quickhash_list_head m) m;
  wf_rcu : NoDup (rcu m) /\ forall p, p ∈ rcu m ->
    in_table p m /\ (valid (obj p m) = true -> rcuFreeEnt_skipDel (obj p m) = true) }.

Lemma hash_lt e : (hash_of e < RTK_FC_LUT_BUCKET_SIZE)%nat.
Proof. pose proof (hash_512 (l2Addr e) (svl_fid e)). pose proof hash_fits. unfold hash_of. lia. Qed.
Lemma quick_lt e : (quick_of e < RTK_FC_LUT_BUCKET_SIZE)%nat.
Proof. apply quick_fits. Qed.

Lemma elem_table p m : p ∈ table_objs m <-> in_table p m.
Proof.
  unfold table_objs, in_table, slot. rewrite list_elem_of_omap. unfold id. split.
  - intros (x & Hx & ->). apply list_elem_of_lookup in Hx as [i Hi]. exists i. by rewrite Hi.
  - intros [i Hi]. destruct (lutTbl m !! i) as [x|] eqn:E; [|done]. simpl in Hi. subst x.
    exists (Some p). split; [|done]. by eapply list_elem_of_lookup_2.
Qed.

Lemma slot_lookup i p m : slot i m = Some p -> lutTbl m !! i = Some (Some p).
Proof. unfold slot. destruct (lutTbl m !! i) as [x|]; [|done]. simpl. by intros ->. Qed.

Lemma wf_nodup fl m : lut_wf fl m -> NoDup (fl ++ free_objs m ++ table_objs m).
Proof. intros H. rewrite (wf_places _ _ H). apply NoDup_seq. Qed.
Lemma wf_bound fl m p : lut_wf fl m -> p ∈ fl \/ in_table p m -> (p < length (objs m))%nat.
Proof.
  intros H Hp. assert (p ∈ seq 0 RTK_FC_LUTENTRY_POOL_SIZE) as Hs.
  { rewrite <- (wf_places _ _ H). rewrite !elem_of_app, elem_table. tauto. }
  apply elem_of_seq in Hs. rewrite (wf_objs _ _ H). lia.
Qed.
Lemma flight_apart fl m p : lut_wf fl m -> p ∈ fl -> ~ in_table p m.
Proof.
  intros H Hp Ht. pose proof (wf_nodup _ _ H) as Hn. apply NoDup_app in Hn as (_ & Hd & _).
  apply (Hd p Hp). apply elem_of_app. right. by apply elem_table.
Qed.
Lemma slot_inj fl m i j p : lut_wf fl m -> slot i m = Some p -> slot j m = Some p -> i = j.
Proof. intros H Hi Hj. by rewrite <- (wf_idx _ _ H _ _ Hi), <- (wf_idx _ _ H _ _ Hj). Qed.

(** ** Writing an object *)

Lemma obj_upd_eq p f m : (p < length (objs m))%nat -> obj p (upd p f m) = f (obj p m).
Proof.
  intros Hp. unfold obj, upd. simpl. rewrite list_lookup_alter_eq.
  apply lookup_lt_is_Some in Hp as [e ->]. done.
Qed.
Lemma obj_upd_ne p q f m : q <> p -> obj q (upd p f m) = obj q m.
Proof. intros Hn. unfold obj, upd. simpl. by rewrite list_lookup_alter_ne. Qed.
Lemma alter_twice p f g m : upd p f (upd p g m) = upd p (fun e => f (g e)) m.
Proof. unfold upd. simpl. by rewrite list_alter_alter_eq. Qed.

Lemma upd_ext p f g m : f (obj p m) = g (obj p m) -> upd p f m = upd p g m.
Proof.
  intros E. unfold upd, set_objs. f_equal. apply list_eq. intros i. rewrite !list_lookup_alter.
  case_decide as Ei; [subst i|done]. unfold obj in E. destruct (objs m !! p) as [e|]; [|done]. simpl in *. by rewrite E.
Qed.

(** Fields the invariant speaks of. *)
Definition same_core (e e' : lut_entry) : Prop :=
  l2Addr e' = l2Addr e /\ svl_fid e' = svl_fid e /\ lutIdx e' = lutIdx e /\ valid e' = valid e /\
  rcuFreeEnt_skipDel e' = rcuFreeEnt_skipDel e.

Lemma wf_ext fl m m' :
  lut_wf fl m -> length (objs m') = length (objs m) ->
  lutEntry_pool_ring m' = lutEntry_pool_ring m -> lutEntry_pool_free m' = lutEntry_pool_free m ->
  lutTbl m' = lutTbl m -> lut_hash_list_head m' = lut_hash_list_head m ->
  lut_quickhash_list_head m' = lut_quickhash_list_head m -> rcu m' = rcu m ->
  (forall p, in_table p m -> same_core (obj p m) (obj p m')) -> lut_wf fl m'.
Proof.
  intros [] Ho Hr Hf Ht Hh Hq Hc Hs.
  assert (forall i, slot i m' = slot i m) as Es by (intros; unfold slot; by rewrite Ht).
  assert (forall p, in_table p m' <-> in_table p m) as Ei by (intros; unfold in_table; by setoid_rewrite Es).
  assert (forall key ls, (forall e e', same_core e e' -> key e' = key e) ->
    chains_exact key ls m -> chains_exact key ls m') as Hch.
  { intros key ls Hk (? & ? & Hex). split_and!; [done..|]. intros h p. rewrite Hex, Ei.
    split; intros (Hp & Hv & <-); pose proof (Hs p Hp) as Hsc; rewrite (Hk _ _ Hsc);
      destruct Hsc as (_ & _ & _ & Hv' & _); split_and!; congruence. }
  constructor; unfold free_objs, table_objs; rewrite ?Hr, ?Hf, ?Ht, ?Hh, ?Hq, ?Hc, ?Ho; try done.
  - intros i p. rewrite Es. intros Hi. destruct (Hs p) as (_ & _ & -> & _); [by exists i|]. auto.
  - apply Hch; [|done]. intros e e' (E1 & E2 & _). unfold hash_of. by rewrite E1, E2.
  - apply Hch; [|done]. intros e e' (E1 & E2 & _). unfold quick_of. by rewrite E1, E2.
  - destruct wf_rcu0 as [? Hin]. split; [done|]. intros p Hp. rewrite Ei. destruct (Hin p Hp) as [? Hv].
    destruct (Hs p) as (_ & _ & _ & -> & ->); auto.
Qed.

Lemma wf_upd fl m p f : lut_wf fl m -> (in_table p m -> same_core (obj p m) (f (obj p m))) -> lut_wf fl (upd p f m).
Proof.
  intros H Hf. eapply wf_ext; try done; [unfold upd; simpl; by rewrite length_alter|].
  intros q Hq. destruct (decide (q = p)) as [->|Hn].
  - rewrite obj_upd_eq by (eapply wf_bound; [done|by right]). auto.
  - by rewrite obj_upd_ne.
Qed.
Lemma wf_upd_flight fl m p f : lut_wf fl m -> p ∈ fl -> lut_wf fl (upd p f m).
Proof. intros H Hp. apply wf_upd; [done|]. intros Ht. by destruct (flight_apart _ _ _ H Hp). Qed.
(** ** Pool *)

Lemma get_wf fl m p m' : lut_wf fl m -> _rtk_fc_lutEntry_getFromPool m = Some (p, m') ->
  lut_wf (p :: fl) m' /\ obj p m' = entry0 /\ (forall q, q <> p -> obj q m' = obj q m) /\
  (forall i, slot i m' = slot i m) /\ lut_hash_list_head m' = lut_hash_list_head m /\
  lut_quickhash_list_head m' = lut_quickhash_list_head m /\ ~ in_table p m.
Proof.
  intros H. unfold _rtk_fc_lutEntry_getFromPool. destruct (lutEntry_pool_free m) as [|n] eqn:En; [done|].
  destruct (lutEntry_pool_ring m !! n) as [p'|] eqn:Ep; [|done]. intros [= -> <-].
  assert (free_objs m = take n (lutEntry_pool_ring m) ++ [p]) as Ef.
  { unfold free_objs. rewrite En. by apply take_S_r. }
  assert (lut_wf (p :: fl) (set_lutEntry_pool_free n m)) as Hw.
  { pose proof (wf_free _ _ H). pose proof (wf_places _ _ H) as Hp. destruct H. constructor; try done; simpl; [lia|].
    unfold free_objs at 1. simpl. rewrite <- Hp, Ef. unfold table_objs. simpl. solve_Permutation. }
  pose proof (flight_apart _ _ p Hw ltac:(set_solver)) as Ht.
  split_and!; try done; [apply wf_upd_flight; [done|set_solver]| |].
  - apply (obj_upd_eq p). eapply (wf_bound _ _ _ Hw). set_solver.
  - intros q Hq. rewrite obj_upd_ne by done. done.
Qed.

Lemma free_room fl m p : lut_wf (p :: fl) m -> (lutEntry_pool_free m < RTK_FC_LUTENTRY_POOL_SIZE)%nat.
Proof.
  intros H. pose proof (Permutation_length (wf_places _ _ H)) as Hl. simpl in Hl.
  rewrite !length_app, length_seq in Hl. unfold free_objs in Hl.
  rewrite length_take, (wf_ring _ _ H) in Hl. pose proof (wf_free _ _ H). lia.
Qed.
Lemma return_wf fl m p : lut_wf (p :: fl) m -> lut_wf fl (_rtk_fc_lutEntry_returnToPool p m).
Proof.
  intros H. pose proof (free_room _ _ _ H) as Hr. unfold _rtk_fc_lutEntry_returnToPool.
  pose proof (wf_places _ _ H) as Hp. destruct H. constructor; try done; simpl; [by rewrite length_insert|].
  rewrite <- Hp. unfold free_objs at 1. simpl.
  rewrite (take_S_r _ _ p) by (apply list_lookup_insert_eq; lia). rewrite take_insert_ge by lia.
  unfold free_objs, table_objs. simpl. solve_Permutation.
Qed.

Lemma length_omap_id (l : list (option nat)) : (length (omap id l) <= length l)%nat.
Proof. induction l as [|[x|] l IH]; csimpl; lia. Qed.

(** With more objects than slots the pool never runs dry. *)
Lemma pool_not_dry m : lut_wf [] m -> (RTK_FC_TABLESIZE_LUT < RTK_FC_LUTENTRY_POOL_SIZE)%nat ->
  is_Some (_rtk_fc_lutEntry_getFromPool m).
Proof.
  intros H Hs. pose proof (Permutation_length (wf_places _ _ H)) as Hl. simpl in Hl.
  rewrite !length_app, length_seq in Hl. unfold free_objs in Hl. rewrite length_take, (wf_ring _ _ H) in Hl.
  assert (length (table_objs m) <= RTK_FC_TABLESIZE_LUT)%nat as Ht.
  { rewrite <- (wf_tbl _ _ H). apply length_omap_id. }
  unfold _rtk_fc_lutEntry_getFromPool. destruct (lutEntry_pool_free m) as [|n] eqn:En; [lia|].
  pose proof (wf_free _ _ H) as Hf. rewrite En in Hf.
  destruct (lookup_lt_is_Some_2 (lutEntry_pool_ring m) n) as [p ->]; [rewrite (wf_ring _ _ H); lia|]. eauto.
Qed.

(** ** Slots *)

Lemma omap_insert_in (l : list (option nat)) i p : l !! i = Some None -> omap id (<[i := Some p]> l) ≡ₚ p :: omap id l.
Proof.
  intros Hi. rewrite insert_take_drop by (by eapply lookup_lt_Some). rewrite <- (take_drop_middle l i None Hi) at 3.
  rewrite !omap_app. simpl. solve_Permutation.
Qed.
Lemma omap_insert_out (l : list (option nat)) i p : l !! i = Some (Some p) -> p :: omap id (<[i := None]> l) ≡ₚ omap id l.
Proof.
  intros Hi. rewrite insert_take_drop by (by eapply lookup_lt_Some). rewrite <- (take_drop_middle l i (Some p) Hi) at 3.
  rewrite !omap_app. simpl. solve_Permutation.
Qed.

Lemma slot_insert i j x m : (i < length (lutTbl m))%nat ->
  slot j (set_lutTbl (<[i := x]> (lutTbl m)) m) = if decide (j = i) then x else slot j m.
Proof.
  intros Hi. unfold slot. simpl. case_decide as E.
  - subst. by rewrite list_lookup_insert_eq.
  - by rewrite list_lookup_insert_ne.
Qed.

(** An object in the hands of an operation enters a free slot, not yet valid. *)
Lemma place_wf fl m p : lut_wf (p :: fl) m -> valid (obj p m) = false ->
  (lutIdx (obj p m) < RTK_FC_TABLESIZE_LUT)%nat -> slot (lutIdx (obj p m)) m = None ->
  lut_wf fl (set_lutTbl (<[lutIdx (obj p m) := Some p]> (lutTbl m)) m).
Proof.
  intros H Hv Hi Hs. set (i := lutIdx (obj p m)) in *.
  assert (lutTbl m !! i = Some None) as Ei.
  { unfold slot in Hs. destruct (lookup_lt_is_Some_2 (lutTbl m) i) as [x Hx]; [rewrite (wf_tbl _ _ H); lia|].
    rewrite Hx in Hs |- *. simpl in Hs. by subst. }
  pose proof (wf_tbl _ _ H) as Hlen.
  assert (forall j, slot j (set_lutTbl (<[i := Some p]> (lutTbl m)) m) = if decide (j = i) then Some p else slot j m) as Es.
  { intros j. apply slot_insert. lia. }
  assert (forall q, in_table q (set_lutTbl (<[i := Some p]> (lutTbl m)) m) <-> q = p \/ in_table q m) as Et.
  { intros q. unfold in_table. setoid_rewrite Es. split.
    - intros [j Hj]. case_decide; [left; congruence|right; eauto].
    - intros [-> | [j Hj]]; [exists i; by rewrite decide_True|].
      exists j. rewrite decide_False; [done|]. intros ->. congruence. }
  assert (forall key ls, chains_exact key ls m -> chains_exact key ls (set_lutTbl (<[i := Some p]> (lutTbl m)) m)) as Hch.
  { intros key ls (? & ? & Hex). split_and!; [done..|]. intros h q. rewrite Hex, Et.
    change (obj q (set_lutTbl (<[i := Some p]> (lutTbl m)) m)) with (obj q m). split; [tauto|].
    intros ([-> | ?] & Hq & ?); [congruence|tauto]. }
  pose proof (wf_places _ _ H) as Hp. pose proof (wf_idx _ _ H) as Hx. pose proof (wf_rcu _ _ H) as [Hn Hr].
  destruct H; constructor; try done; simpl; try (by apply Hch).
  - unfold table_objs. simpl. rewrite omap_insert_in by done. rewrite <- Hp. unfold free_objs, table_objs. simpl. solve_Permutation.
  - by rewrite length_insert.
  - intros j q. rewrite Es. case_decide as E; [|apply Hx]. intros [= <-]. by subst.
  - split; [done|]. intros q Hq. rewrite Et. destruct (Hr q Hq). split; [by right|done].
Qed.

(** ** Chains of valid entries *)

(** An entry of the table that is not valid becomes valid and is linked. *)
Lemma link_wf fl m p : lut_wf fl m -> in_table p m -> valid (obj p m) = false ->
  (p ∈ rcu m -> rcuFreeEnt_skipDel (obj p m) = true) -> lut_wf fl (link_entry p (upd p (set_valid true) m)).
Proof.
  intros H Ht Hv Hr. set (m1 := upd p (set_valid true) m).
  pose proof (wf_bound _ _ p H (or_intror Ht)) as Hb.
  assert (obj p m1 = set_valid true (obj p m)) as Ep by by apply obj_upd_eq.
  assert (forall q, q <> p -> obj q m1 = obj q m) as Eq by (intros; by apply obj_upd_ne).
  assert (forall key ls, key (obj p m1) = key (obj p m) -> (key (obj p m1) < RTK_FC_LUT_BUCKET_SIZE)%nat ->
    chains_exact key ls m -> chains_exact key (list_add_tail (key (obj p m1)) p ls) (link_entry p m1)) as Hch.
  { intros key ls Hk Hlt (Hlen & Hnd & Hex).
    assert (forall h, ~ p ∈ chain h ls) as Hno by (intros h (_ & ? & _)%Hex; congruence).
    split_and!; [unfold list_add_tail; by rewrite length_alter|by apply nodup_add_tail|].
    intros h q. rewrite elem_add_tail by (rewrite Hlen; lia). rewrite Hex.
    change (in_table q (link_entry p m1)) with (in_table q m). change (obj q (link_entry p m1)) with (obj q m1).
    destruct (decide (q = p)) as [->|Hn].
    - assert (valid (obj p m1) = true) as Hv1 by by rewrite Ep.
      split; [intros [(_ & ? & _)|[-> _]]; [congruence|by split_and!]|]. intros (_ & _ & <-). by right.
    - rewrite (Eq q) by done. split; [intros [?|[_ ?]]; [done|congruence]|]. by left. }
  destruct H; constructor; try done; unfold link_entry; simpl.
  - unfold m1, upd. simpl. by rewrite length_alter.
  - intros i q Hi. change (slot i m = Some q) in Hi. change (lutIdx (obj q m1) = i).
    destruct (decide (q = p)) as [->|Hn]; [rewrite Ep; by apply wf_idx0|rewrite (Eq q) by done; by apply wf_idx0].
  - apply (Hch hash_of); [by rewrite Ep|apply hash_lt|done].
  - apply (Hch quick_of); [by rewrite Ep|apply quick_lt|done].
  - destruct wf_rcu0 as [Hn Hi]. split; [done|]. intros q Hq. destruct (Hi q Hq) as [? Hs]. split; [done|].
    change (valid (obj q m1) = true -> rcuFreeEnt_skipDel (obj q m1) = true).
    destruct (decide (q = p)) as [->|Hne]; [rewrite Ep; simpl; intros _; auto|rewrite (Eq q) by done; auto].
Qed.

(** A valid entry becomes invalid and leaves the chains. *)
Lemma unlink_wf fl m p : lut_wf fl m -> in_table p m -> lut_wf fl (unlink_entry p (upd p (set_valid false) m)).
Proof.
  intros H Ht. set (m1 := upd p (set_valid false) m).
  pose proof (wf_bound _ _ p H (or_intror Ht)) as Hb.
  assert (obj p m1 = set_valid false (obj p m)) as Ep by by apply obj_upd_eq.
  assert (forall q, q <> p -> obj q m1 = obj q m) as Eq by (intros; by apply obj_upd_ne).
  assert (forall key ls, chains_exact key ls m -> chains_exact key (list_del p ls) (unlink_entry p m1)) as Hch.
  { intros key ls (Hlen & Hnd & Hex).
    split_and!; [unfold list_del; by rewrite length_fmap|by apply nodup_del|].
    intros h q. rewrite elem_del, Hex.
    change (in_table q (unlink_entry p m1)) with (in_table q m). change (obj q (unlink_entry p m1)) with (obj q m1).
    destruct (decide (q = p)) as [->|Hn].
    - rewrite Ep. simpl. split; [tauto|]. by intros (_ & ? & _).
    - rewrite (Eq q) by done. tauto. }
  destruct H; constructor; try done; unfold unlink_entry; simpl; try (by apply Hch).
  - unfold m1, upd. simpl. by rewrite length_alter.
  - intros i q Hi. change (slot i m = Some q) in Hi. change (lutIdx (obj q m1) = i).
    destruct (decide (q = p)) as [->|Hn]; [rewrite Ep; by apply wf_idx0|rewrite (Eq q) by done; by apply wf_idx0].
  - destruct wf_rcu0 as [Hn Hi]. split; [done|]. intros q Hq. destruct (Hi q Hq) as [? Hs]. split; [done|].
    change (valid (obj q m1) = true -> rcuFreeEnt_skipDel (obj q m1) = true).
    destruct (decide (q = p)) as [->|Hne]; [by rewrite Ep|rewrite (Eq q) by done; auto].
Qed.

Lemma set_rcu_wf fl m l : lut_wf fl m -> NoDup l ->
  (forall p, p ∈ l -> in_table p m /\ (valid (obj p m) = true -> rcuFreeEnt_skipDel (obj p m) = true)) ->
  lut_wf fl (set_rcu l m).
Proof. intros [] ? ?. by constructor. Qed.

(** The object of a dead entry may be overwritten, as long as it stays dead in its slot. *)
Lemma dead_upd_wf fl m p f : lut_wf fl m -> valid (obj p m) = false -> valid (f (obj p m)) = false ->
  lutIdx (f (obj p m)) = lutIdx (obj p m) -> lut_wf fl (upd p f m).
Proof.
  intros H Hv Hv' Hi.
  assert (forall q, q <> p -> obj q (upd p f m) = obj q m) as Eq by (intros; by apply obj_upd_ne).
  assert (in_table p m -> obj p (upd p f m) = f (obj p m)) as Ep.
  { intros Ht. apply obj_upd_eq. eapply wf_bound; [done|by right]. }
  assert (forall key ls, chains_exact key ls m -> chains_exact key ls (upd p f m)) as Hch.
  { intros key ls (? & ? & Hex). split_and!; [done..|]. intros h q. rewrite Hex.
    change (in_table q (upd p f m)) with (in_table q m).
    destruct (decide (q = p)) as [->|Hn]; [|by rewrite Eq]. split; [intros (_ & ? & _); congruence|].
    intros (Ht & Hb & _). rewrite (Ep Ht) in Hb. congruence. }
  destruct H. constructor; try done; try (by apply Hch).
  - unfold upd. simpl. by rewrite length_alter.
  - intros i q Hs. change (slot i m = Some q) in Hs. destruct (decide (q = p)) as [->|Hn]; [|rewrite Eq by done; auto].
    rewrite Ep by (by exists i). rewrite Hi. auto.
  - destruct wf_rcu0 as [? Hin]. split; [done|]. intros q Hq. destruct (Hin q Hq) as [Ht Hs]. split; [done|].
    destruct (decide (q = p)) as [->|Hn]; [rewrite Ep by done; congruence|by rewrite Eq].
Qed.

(** ** The RCU callback *)

Lemma skip_wf fl m p b : lut_wf fl m -> ~ p ∈ rcu m \/ b = true -> lut_wf fl (upd p (set_rcuFreeEnt_skipDel b) m).
Proof.
  intros H Hno.
  assert (forall q, in_table q m -> exists b', obj q (upd p (set_rcuFreeEnt_skipDel b) m) = set_rcuFreeEnt_skipDel b' (obj q m)
    /\ (q <> p -> b' = rcuFreeEnt_skipDel (obj q m)) /\ (q = p -> b' = b)) as Ho.
  { intros q Hq. destruct (decide (q = p)) as [->|Hn].
    - exists b. rewrite obj_upd_eq by (eapply wf_bound; [done|by right]). split_and!; done.
    - exists (rcuFreeEnt_skipDel (obj q m)). rewrite obj_upd_ne by done. split_and!; [by destruct (obj q m)|done..]. }
  assert (forall key ls, (forall e x, key (set_rcuFreeEnt_skipDel x e) = key e) ->
    chains_exact key ls m -> chains_exact key ls (upd p (set_rcuFreeEnt_skipDel b) m)) as Hch.
  { intros key ls Hk (? & ? & Hex). split_and!; [done..|]. intros h q. rewrite Hex.
    change (in_table q (upd p (set_rcuFreeEnt_skipDel b) m)) with (in_table q m).
    split; intros (Hq & ?); destruct (Ho q Hq) as (b' & E & _); rewrite E in *; rewrite Hk in *; done. }
  destruct H. constructor; try done; try (by apply Hch).
  - unfold upd. simpl. by rewrite length_alter.
  - intros i q Hi. change (slot i m = Some q) in Hi. destruct (Ho q) as (b' & -> & _); [by exists i|]. by apply wf_idx0.
  - destruct wf_rcu0 as [? Hin]. split; [done|]. intros q Hq. destruct (Hin q Hq) as [? Hs]. split; [done|].
    destruct (Ho q) as (b' & -> & H1 & H2); [done|]. simpl. intros Hv.
    destruct (decide (q = p)) as [->|Hn]; [|rewrite H1 by done; auto].
    rewrite H2 by done. by destruct Hno.
Qed.

(** A dead entry without callback leaves its slot. *)
Lemma vacate_wf fl m i p : lut_wf fl m -> slot i m = Some p -> valid (obj p m) = false -> ~ p ∈ rcu m ->
  lut_wf (p :: fl) (set_lutTbl (<[i := None]> (lutTbl m)) m).
Proof.
  intros H Hi Hnv Hno.
  pose proof (slot_lookup _ _ _ Hi) as Ei.
  assert (forall j, slot j (set_lutTbl (<[i := None]> (lutTbl m)) m) = if decide (j = i) then None else slot j m) as Esl.
  { intros j. apply slot_insert. by eapply lookup_lt_Some. }
  assert (forall q, in_table q (set_lutTbl (<[i := None]> (lutTbl m)) m) <-> in_table q m /\ q <> p) as Et.
  { intros q. unfold in_table. setoid_rewrite Esl. split.
    - intros [j Hj]. case_decide as E; [done|]. split; [eauto|]. intros ->. apply E. by eapply slot_inj.
    - intros [[j Hj] Hn]. exists j. rewrite decide_False; [done|]. intros ->. congruence. }
  assert (forall key ls, chains_exact key ls m -> chains_exact key ls (set_lutTbl (<[i := None]> (lutTbl m)) m)) as Hch.
  { intros key ls (? & ? & Hex). split_and!; [done..|]. intros h q. rewrite Hex, Et.
    change (obj q (set_lutTbl (<[i := None]> (lutTbl m)) m)) with (obj q m).
    split; [|tauto]. intros (? & Hq & ?). split_and!; try done. intros ->. congruence. }
  pose proof (wf_places _ _ H) as Hpl. pose proof (wf_idx _ _ H) as Hx.
  destruct H; constructor; try done; simpl; try (by apply Hch).
  - rewrite <- Hpl. unfold table_objs at 2. rewrite <- (omap_insert_out (lutTbl m) i p Ei).
    unfold free_objs, table_objs. simpl. solve_Permutation.
  - by rewrite length_insert.
  - intros j q. rewrite Esl. case_decide; [done|apply Hx].
  - destruct wf_rcu0 as [? Hin]. split; [done|]. intros q Hq. rewrite Et. destruct (Hin q Hq) as [? Hs].
    split; [split; [done|]|done]. by intros ->.
Qed.

Lemma grace_wf fl m p : lut_wf fl m -> p ∈ rcu m -> lut_wf fl (rtk_fc_lut_free_entry p m).
Proof.
  intros H Hp. pose proof (wf_rcu _ _ H) as [Hnd Hr]. destruct (Hr p Hp) as [Ht Hv].
  assert (lut_wf fl (set_rcu (filter (fun q => q <> p) (rcu m)) m)) as H1.
  { apply set_rcu_wf; [done|by apply NoDup_filter|]. intros q [_ Hq]%list_elem_of_filter. auto. }
  unfold rtk_fc_lut_free_entry. set (m1 := set_rcu _ m) in *.
  change (obj p m1) with (obj p m). pose proof (wf_bound _ _ p H (or_intror Ht)) as Hb.
  assert (~ p ∈ rcu m1) as Hno by (unfold m1; simpl; rewrite list_elem_of_filter; tauto).
  destruct (rcuFreeEnt_skipDel (obj p m)) eqn:Es.
  - apply (skip_wf fl m1 p false H1). by left.
  - apply (return_wf fl _ p). destruct Ht as [i Hi]. pose proof (wf_idx _ _ H _ _ Hi) as ->.
    assert (valid (obj p m) = false) as Hnv by (apply not_true_iff_false; intros Hx; by specialize (Hv Hx)).
    apply vacate_wf; [done|exact Hi|done|done].
Qed.

End Inv.
