(* ===== verification/FcLutOps.v ===== *)
(** * The operations of the layer-2 table keep its invariant

    What deletion, adding, eviction and learning do to the objects and slots, and that
    each of them keeps [lut_wf].  Deletion terminates: every nested call invalidates an
    entry. *)
From S2P Require Import Prelude FcLut FcLutInv.
Open Scope Z_scope.

Section Ops.
Context {cfg : LutConfig} {l2 : L2Hw} {laws : LutLaws}.

Definition ok (fl : list nat) (db : fc_db) : Prop := lut_wf fl (mem db).

(** [db'] is [db] with some valid dynamic entries made invalid. *)
Record shrinks (db db' : fc_db) : Prop := {
  sh_tbl : lutTbl (mem db') = lutTbl (mem db);
  sh_len : length (objs (mem db')) = length (objs (mem db));
  sh_obj : forall q, obj q (mem db') = obj q (mem db) \/
    (obj q (mem db') = set_valid false (obj q (mem db)) /\ valid (obj q (mem db)) = true /\
     isStatic (obj q (mem db)) = false);
  sh_limits : limits db' = limits db;
  sh_jiffies : jiffies db' = jiffies db;
  sh_skip : skipHwlookUp db' = skipHwlookUp db }.

Lemma shrinks_refl db : shrinks db db.
Proof. constructor; auto. Qed.
Lemma shrinks_trans db1 db2 db3 : shrinks db1 db2 -> shrinks db2 db3 -> shrinks db1 db3.
Proof.
  intros [] []. constructor; try congruence. intros q.
  destruct (sh_obj0 q) as [E|(E & ? & ?)], (sh_obj1 q) as [F|(F & Hv & Hs)]; rewrite F, ?E in *; auto.
Qed.
Lemma shrinks_slot db db' i : shrinks db db' -> slot i (mem db') = slot i (mem db).
Proof. intros H. unfold slot. by rewrite (sh_tbl _ _ H). Qed.
Lemma shrinks_table db db' p : shrinks db db' -> in_table p (mem db') <-> in_table p (mem db).
Proof. intros H. unfold in_table. by setoid_rewrite (shrinks_slot _ _ _ H). Qed.
Lemma shrinks_valid db db' q : shrinks db db' -> valid (obj q (mem db')) = true ->
  obj q (mem db') = obj q (mem db).
Proof. intros H. destruct (sh_obj _ _ H q) as [->|(-> & _)]; done. Qed.
(** The fields other than [valid] are as before. *)
Lemma shrinks_field {A} (f : lut_entry -> A) db db' q : (forall e, f (set_valid false e) = f e) ->
  shrinks db db' -> f (obj q (mem db')) = f (obj q (mem db)).
Proof. intros Hf H. destruct (sh_obj _ _ H q) as [->|(-> & _)]; auto. Qed.

Lemma shrinks_foldl {A} (g : fc_db -> A -> fc_db) l db :
  (forall db' a, a ∈ l -> shrinks db db' -> shrinks db' (g db' a)) -> shrinks db (foldl g db l).
Proof.
  intros Hg. enough (forall l' db', (forall a, a ∈ l' -> a ∈ l) -> shrinks db db' -> shrinks db (foldl g db' l')) as He.
  { apply He; [done|apply shrinks_refl]. }
  induction l' as [|a l' IH]; intros db' Hin Hs; [done|]. simpl. apply IH; [intros; apply Hin; by right|].
  eapply shrinks_trans; [done|]. apply Hg; [apply Hin; left|done].
Qed.

(** ** What counting does not touch *)

Definition same_but_counts (db db' : fc_db) : Prop :=
  db' = set_counts (counts db') db.
Lemma count_add_same e db : same_but_counts db (count_add e db).
Proof.
  unfold same_but_counts, count_add, rtk_fc_macAddr_portGroup_lrnCnt_inc.
  case_match; [|by destruct db]. destruct db. simpl. by case_match.
Qed.
Lemma count_del_same e db : same_but_counts db (count_del e db).
Proof.
  unfold same_but_counts, count_del, rtk_fc_macAddr_portGroup_lrnCnt_dec.
  case_match; [|by destruct db]. destruct db. simpl. do 2 case_match; done.
Qed.

(** ** Deleting *)

Lemma obj_set_rcu q l m : obj q (set_rcu l m) = obj q m.
Proof. done. Qed.

Definition del_mem (p : nat) (m : lut_mem) : lut_mem :=
  let m1 := unlink_entry p (upd p (set_valid false) m) in
  if rcuFreeEnt_skipDel (obj p m) then m1 else set_rcu (rcu m ++ [p]) m1.

Lemma del_one_eq p f db : exists h ev,
  del_one p f db = FcDb (del_mem p (mem db)) (cam (cam_del (lutIdx (obj p (mem db))) db))
    (counts (count_del (obj p (mem db)) db)) (limits db) (skipHwlookUp db) (l2_hkCurIdx db) (jiffies db) h ev.
Proof.
  unfold del_one, del_mem. set (e := obj p (mem db)). set (db1 := if _ && _ then _ else db).
  assert (exists ev, db1 = set_events ev db) as [ev ->].
  { unfold db1. case_match; [by eexists|]. exists (events db). by destruct db. }
  assert (count_del e (set_events ev db) = set_events ev (count_del e db)) as ->.
  { unfold count_del, rtk_fc_macAddr_portGroup_lrnCnt_dec. case_match; [|done]. unfold in_group. simpl.
    case_match; simpl; by case_match. }
  pose proof (count_del_same e db) as E2. red in E2. rewrite E2. set (k := counts (count_del e db)).
  unfold cam_del. destruct db. simpl.
  destruct (isPortAggEntry e), (in_cam (lutIdx e)), (rcuFreeEnt_skipDel e); simpl; eexists _, _; reflexivity.
Qed.

Lemma obj_del_mem q p m : obj q (del_mem p m) = obj q (upd p (set_valid false) m).
Proof. unfold del_mem. by case_match. Qed.
Lemma obj_invalid q p m : obj q (upd p (set_valid false) m) = if decide (q = p) then set_valid false (obj p m) else obj q m.
Proof.
  case_decide as E; [subst q|by apply obj_upd_ne]. unfold obj, upd. simpl. rewrite list_lookup_alter_eq.
  by destruct (objs m !! p).
Qed.

Lemma del_one_shrinks p f db : valid (obj p (mem db)) = true -> isStatic (obj p (mem db)) = false ->
  shrinks db (del_one p f db).
Proof.
  intros Hv Hs. destruct (del_one_eq p f db) as (h & ev & ->). constructor; try done; simpl.
  - unfold del_mem. by case_match.
  - unfold del_mem. case_match; simpl; by rewrite length_alter.
  - intros q. rewrite obj_del_mem, obj_invalid. case_decide as E; [subst q; by right|by left].
Qed.

Lemma del_mem_wf fl p m : lut_wf fl m -> in_table p m -> valid (obj p m) = true -> lut_wf fl (del_mem p m).
Proof.
  intros H Ht Hv. pose proof (unlink_wf _ _ _ H Ht) as Hu. unfold del_mem.
  destruct (rcuFreeEnt_skipDel (obj p m)) eqn:Es; [done|].
  pose proof (wf_rcu _ _ H) as [Hn Hr].
  apply set_rcu_wf; [done| |].
  - apply NoDup_app. split; [done|]. split; [|apply NoDup_singleton].
    intros q Hq ->%list_elem_of_singleton. destruct (Hr p Hq) as [_ Hs]. rewrite Hs in Es by done. done.
  - intros q [Hq|[-> | []%not_elem_of_nil]%elem_of_cons]%elem_of_app; [by apply (wf_rcu _ _ Hu)|].
    split; [done|]. change (obj p (unlink_entry p (upd p (set_valid false) m))) with (obj p (upd p (set_valid false) m)).
    rewrite obj_invalid, decide_True by done. done.
Qed.

Lemma del_one_ok fl p f db : ok fl db -> in_table p (mem db) -> valid (obj p (mem db)) = true -> ok fl (del_one p f db).
Proof.
  intros H Ht Hv. unfold ok. destruct (del_one_eq p f db) as (h & ev & ->). by apply del_mem_wf.
Qed.

(** The nested deletions, one filter id at a time. *)
Definition del_dups (n : nat) (mac : list Z) (f : bool) (db : fc_db) (fids : list Z) : fc_db :=
  foldl (fun db fid =>
           match _rtk_fc_lut_find_fid mac fid (mem db) with
           | Some i => match slot i (mem db) with
                       | Some q => del_fuel n q f db
                       | None => db
                       end
           | None => db
           end) db fids.

Lemma del_fuel_shrinks n : forall p f db, shrinks db (del_fuel n p f db).
Proof.
  induction n as [|n IH]; intros p f db; simpl; [apply shrinks_refl|].
  destruct (valid (obj p (mem db))) eqn:Hv; simpl; [|apply shrinks_refl].
  destruct (isStatic (obj p (mem db))) eqn:Hs; [apply shrinks_refl|].
  pose proof (del_one_shrinks p f db Hv Hs) as H1. case_match; [|done].
  eapply shrinks_trans; [done|]. apply shrinks_foldl. intros db' fid _ _.
  repeat case_match; [apply IH|apply shrinks_refl..].
Qed.
Lemma del_shrinks p f db : shrinks db (RTK_FC_LUT_DEL p f db).
Proof. apply del_fuel_shrinks. Qed.

Lemma foldl_ok {A} fl (g : fc_db -> A -> fc_db) l db :
  (forall db' a, a ∈ l -> ok fl db' -> shrinks db db' -> ok fl (g db' a) /\ shrinks db' (g db' a)) ->
  ok fl db -> ok fl (foldl g db l).
Proof.
  intros Hg H. enough (forall l' db', (forall a, a ∈ l' -> a ∈ l) -> ok fl db' -> shrinks db db' -> ok fl (foldl g db' l')) as He.
  { apply He; [done|done|apply shrinks_refl]. }
  induction l' as [|a l' IH]; intros db' Hin Hok Hs; [done|]. simpl.
  destruct (Hg db' a) as [H1 H2]; [apply Hin; left|done..|]. apply IH; [intros; apply Hin; by right|done|]. by eapply shrinks_trans.
Qed.

Lemma del_fuel_ok fl n : forall p f db, ok fl db -> in_table p (mem db) -> ok fl (del_fuel n p f db).
Proof.
  induction n as [|n IH]; intros p f db H Ht; simpl; [done|].
  destruct (valid (obj p (mem db))) eqn:Hv; simpl; [|done].
  destruct (isStatic (obj p (mem db))); [done|]. pose proof (del_one_ok fl p f db H Ht Hv) as H1.
  case_match; [|done]. apply foldl_ok; [|done]. intros db' fid _ Hok _.
  repeat case_match; try (split; [done|apply shrinks_refl]).
  split; [|apply del_fuel_shrinks]. apply IH; [done|]. eexists. eassumption.
Qed.
Lemma del_ok fl p f db : ok fl db -> in_table p (mem db) -> ok fl (RTK_FC_LUT_DEL p f db).
Proof. apply del_fuel_ok. Qed.

(** ** Termination of deletion *)

Definition n_valid (db : fc_db) : nat := length (filter (fun e => valid e = true) (objs (mem db))).

Lemma n_valid_shrinks db db' : shrinks db db' -> (n_valid db' <= n_valid db)%nat.
Proof.
  intros H. unfold n_valid. pose proof (sh_len _ _ H) as Hl.
  assert (forall i, valid (default entry0 (objs (mem db') !! i)) = true -> valid (default entry0 (objs (mem db) !! i)) = true) as Hi.
  { intros i. destruct (sh_obj _ _ H i) as [E|(E & _)]; unfold obj in E; rewrite E; done. }
  revert Hl Hi. generalize (objs (mem db')) (objs (mem db)). induction l as [|x l IH]; intros [|y l'] Hl Hi; try done.
  specialize (IH l' ltac:(simpl in Hl; lia) (fun i => Hi (S i))). specialize (Hi 0%nat). simpl in Hi.
  rewrite !filter_cons. repeat case_decide; simpl; try lia. exfalso. auto.
Qed.
Lemma n_valid_del p f db : valid (obj p (mem db)) = true -> (n_valid (del_one p f db) < n_valid db)%nat.
Proof.
  intros Hv. unfold n_valid. destruct (del_one_eq p f db) as (h & ev & ->). simpl.
  assert (objs (del_mem p (mem db)) = alter (set_valid false) p (objs (mem db))) as -> by (unfold del_mem; by case_match).
  revert Hv. unfold obj. generalize (objs (mem db)). intros l. revert p.
  induction l as [|x l IH]; intros [|p] Hv; try done; simpl in Hv.
  - change (alter (set_valid false) 0%nat (x :: l)) with (set_valid false x :: l). rewrite !filter_cons. rewrite decide_False, decide_True by done. simpl. lia.
  - change (alter (set_valid false) (S p) (x :: l)) with (x :: alter (set_valid false) p l).
    rewrite !filter_cons. specialize (IH p Hv). case_decide; cbn [length]; lia.
Qed.

Lemma del_fuel_enough n : forall n' p f db, (n_valid db < n)%nat -> (n_valid db < n')%nat ->
  del_fuel n p f db = del_fuel n' p f db.
Proof.
  induction n as [|n IH]; intros [|n'] p f db H H'; try lia. simpl.
  destruct (valid (obj p (mem db))) eqn:Hv; simpl; [|done].
  destruct (isStatic (obj p (mem db))) eqn:Hs; [done|]. pose proof (n_valid_del p f db Hv) as Hn.
  case_match; [|done].
  generalize (seqZ RTK_FC_WIFI_FID_1 (RTK_FC_WIFI_FID_END - RTK_FC_WIFI_FID_1)). intros l.
  assert (n_valid (del_one p f db) < n)%nat as H1 by lia. assert (n_valid (del_one p f db) < n')%nat as H2 by lia.
  revert H1 H2. generalize (del_one p f db). induction l as [|fid l IHl]; intros db1 H1 H2; [done|]. simpl.
  destruct (_rtk_fc_lut_find_fid _ fid (mem db1)) as [i|]; [|by apply IHl].
  destruct (slot i (mem db1)) as [q|]; [|by apply IHl].
  rewrite (IH n' q f db1) by done. pose proof (n_valid_shrinks _ _ (del_fuel_shrinks n' q f db1)). apply IHl; lia.
Qed.

(** ** Adding *)

Definition add_mem (p : nat) (m : lut_mem) : lut_mem :=
  link_entry p (upd p (set_valid true) (set_lutTbl (<[lutIdx (obj p m) := Some p]> (lutTbl m)) m)).

Lemma add_finish_eq p db : exists c,
  add_finish p db = FcDb (add_mem p (mem db)) c (counts (count_add (obj p (mem db)) db)) (limits db)
    (skipHwlookUp db) (l2_hkCurIdx db) (jiffies db) (hwst db) (events db).
Proof.
  unfold add_finish, add_mem. set (e := obj p (mem db)). pose proof (count_add_same e db) as E. red in E. rewrite E.
  set (k := counts (count_add e db)). unfold cam_add. destruct db. simpl. case_match; simpl; eexists; reflexivity.
Qed.

(** Where a new entry goes: its own object into a free slot, or the object of a dead entry
    that still holds the slot. *)
Record entered (p i q : nat) (db db' : fc_db) : Prop := {
  en_slot : slot i (mem db') = Some q;
  en_lt : (i < RTK_FC_TABLESIZE_LUT)%nat;
  en_from : (slot i (mem db) = None /\ q = p) \/ (slot i (mem db) = Some q /\ valid (obj q (mem db)) = false);
  en_others : forall j, j <> i -> slot j (mem db') = slot j (mem db);
  en_obj : exists b, obj q (mem db') = set_rcuFreeEnt_skipDel b (set_valid true (set_lutIdx i (obj p (mem db))));
  en_objs : forall q', q' <> q -> q' <> p -> obj q' (mem db') = obj q' (mem db);
  en_counts : exists b, counts db' = counts (count_add (set_rcuFreeEnt_skipDel b (set_lutIdx i (obj p (mem db)))) db);
  en_limits : limits db' = limits db;
  en_jiffies : jiffies db' = jiffies db;
  en_skip : skipHwlookUp db' = skipHwlookUp db }.

Lemma set_skip_id e : set_rcuFreeEnt_skipDel (rcuFreeEnt_skipDel e) e = e.
Proof. by destruct e. Qed.
Lemma obj_link q p m : obj q (link_entry p m) = obj q m.
Proof. done. Qed.
Lemma slot_add p m j : (lutIdx (obj p m) < length (lutTbl m))%nat ->
  slot j (add_mem p m) = if decide (j = lutIdx (obj p m)) then Some p else slot j m.
Proof. intros H. exact (slot_insert _ j (Some p) m H). Qed.
Lemma obj_add q p m : (p < length (objs m))%nat -> obj q (add_mem p m) = if decide (q = p) then set_valid true (obj p m) else obj q m.
Proof.
  intros Hp. unfold add_mem. rewrite obj_link. case_decide as E; [subst q|by rewrite obj_upd_ne].
  by rewrite obj_upd_eq.
Qed.
Lemma count_add_mono e db m h : counts (count_add e (set_hwst h (set_mem m db))) = counts (count_add e db).
Proof.
  unfold count_add, rtk_fc_macAddr_portGroup_lrnCnt_inc, in_group. simpl. case_match; [|done]. simpl. by case_match.
Qed.

(** The hardware's part of an add only touches the switch. *)
Lemma add_hw_spec p db r db' : add_hw p db = (r, db') -> exists h, db' = set_hwst h db /\
  match r with
  | inr i => (i < RTK_FC_TABLESIZE_LUT)%nat
  | inl x => x <> RTK_FC_RET_OK /\ x <> RTK_FC_RET_ERR_ENTRY_REPLASE
  end.
Proof.
  unfold add_hw. case_match.
  - case_match eqn:Eb; intros [= <- <-]; exists (hwst db); (split; [by destruct db|]); [|done].
    apply andb_true_iff in Eb as [Eb _]. by apply Nat.ltb_lt.
  - destruct (rtk_fc_api_lut_add _ _) as [r' h] eqn:Ea. intros [= <- <-]. exists h. split; [done|].
    destruct r' as [x|i]; [by eapply hw_error|by eapply hw_slot].
Qed.

Lemma set_valid_idem e b b' : set_valid b (set_valid b' e) = set_valid b e.
Proof. done. Qed.

(** An object in flight that gets a free slot; its copied [valid] flag does not matter. *)
Lemma add_mem_new fl m p : lut_wf (p :: fl) m -> (lutIdx (obj p m) < RTK_FC_TABLESIZE_LUT)%nat ->
  slot (lutIdx (obj p m)) m = None -> lut_wf fl (add_mem p m).
Proof.
  intros H Hi Hs. set (m1 := upd p (set_valid false) m).
  assert (lut_wf (p :: fl) m1) as H1 by (apply wf_upd_flight; [done|left]).
  assert (obj p m1 = set_valid false (obj p m)) as Ep by (unfold m1; by rewrite obj_invalid, decide_True).
  pose proof (place_wf fl m1 p H1) as Hp. rewrite Ep in Hp. specialize (Hp eq_refl Hi Hs).
  set (m2 := set_lutTbl _ m1) in Hp.
  assert (slot (lutIdx (obj p m)) m2 = Some p) as Hs2.
  { unfold m2. simpl. rewrite (slot_insert (lutIdx (obj p m)) _ (Some p) m1), decide_True; [done..|].
    rewrite (wf_tbl _ _ H1). done. }
  assert (add_mem p m = link_entry p (upd p (set_valid true) m2)) as ->.
  { unfold add_mem, m2, m1, upd. simpl. f_equal. unfold set_objs, set_lutTbl. simpl. f_equal.
    by rewrite list_alter_alter_eq. }
  apply link_wf; [done|by exists (lutIdx (obj p m))|exact (f_equal valid Ep)|].
  intros Hr. destruct (wf_rcu _ _ Hp) as [_ Hin].
  assert (in_table p m) as Ht by (apply (wf_rcu _ _ H); exact Hr). destruct (flight_apart _ _ p H); [left|done].
Qed.

(** An object of the table whose entry is dead, taken over. *)
Lemma add_mem_over fl m q : lut_wf fl m -> slot (lutIdx (obj q m)) m = Some q -> valid (obj q m) = false ->
  rcuFreeEnt_skipDel (obj q m) = true -> lut_wf fl (add_mem q m).
Proof.
  intros H Hs Hv Hk.
  assert (set_lutTbl (<[lutIdx (obj q m) := Some q]> (lutTbl m)) m = m) as E.
  { rewrite list_insert_id; [by destruct m|]. by apply slot_lookup. }
  unfold add_mem. rewrite E. apply link_wf; [done|by eexists|done|done].
Qed.

(** An add that did not enter anything. *)
Record kept (p : nat) (db db' : fc_db) : Prop := {
  kp_tbl : lutTbl (mem db') = lutTbl (mem db);
  kp_objs : forall q, q <> p -> obj q (mem db') = obj q (mem db);
  kp_obj : exists i, obj p (mem db') = set_lutIdx i (obj p (mem db));
  kp_counts : counts db' = counts db;
  kp_limits : limits db' = limits db;
  kp_jiffies : jiffies db' = jiffies db;
  kp_skip : skipHwlookUp db' = skipHwlookUp db }.

Lemma set_lutIdx_id e : set_lutIdx (lutIdx e) e = e.
Proof. by destruct e. Qed.
Lemma kept_hw p h db : kept p db (set_hwst h db).
Proof. constructor; try done. exists (lutIdx (obj p (mem db))). by rewrite set_lutIdx_id. Qed.

Lemma memcpy_skip e o : set_rcuFreeEnt_skipDel true (memcpy_entry e o) = set_rcuFreeEnt_skipDel true e.
Proof. unfold memcpy_entry. by case_match. Qed.

(** The object of a dead entry is taken over by the entry [e] for its slot. *)
Definition taken (e : lut_entry) (o : lut_entry) : lut_entry := set_rcuFreeEnt_skipDel true (memcpy_entry e o).
Lemma takeover_wf fl m q e : lut_wf fl m -> slot (lutIdx e) m = Some q -> valid (obj q m) = false ->
  lut_wf fl (add_mem q (upd q (taken e) m)).
Proof.
  intros H Hs Hv. set (e' := set_rcuFreeEnt_skipDel true e).
  assert (forall o, taken e o = e') as Et by (intros; apply memcpy_skip).
  assert (q < length (objs m))%nat as Hb by (eapply wf_bound; [done|right; by eexists]).
  rewrite (upd_ext q (taken e) (fun _ => e')) by apply Et.
  assert (add_mem q (upd q (fun _ => e') m) = add_mem q (upd q (fun _ => set_valid false e') m)) as ->.
  { unfold add_mem. rewrite !obj_upd_eq by done. f_equal. unfold upd, set_lutTbl, set_objs. simpl. f_equal.
    by rewrite !list_alter_alter_eq. }
  apply add_mem_over; try rewrite obj_upd_eq by done; try done.
  apply dead_upd_wf; try done. simpl. symmetry. by eapply wf_idx.
Qed.

Definition write_idx (p i : nat) (m : lut_mem) : lut_mem := upd p (set_lutIdx i) m.
Lemma obj_write_idx fl p q i m : lut_wf (p :: fl) m ->
  obj q (write_idx p i m) = if decide (q = p) then set_lutIdx i (obj p m) else obj q m.
Proof.
  intros H. unfold write_idx. case_decide as E; [subst q|by apply obj_upd_ne].
  apply obj_upd_eq. eapply wf_bound; [done|]. left. left.
Qed.

(** The table after [q] with the entry [e] was added, given how it was before. *)
Lemma entered_finish p q e db m : length (lutTbl m) = RTK_FC_TABLESIZE_LUT -> (q < length (objs m))%nat ->
  (forall j, slot j m = slot j (mem db)) -> (forall q', q' <> q -> q' <> p -> obj q' m = obj q' (mem db)) ->
  obj q m = e -> (exists b i, e = set_rcuFreeEnt_skipDel b (set_lutIdx i (obj p (mem db)))) ->
  (lutIdx e < RTK_FC_TABLESIZE_LUT)%nat ->
  (slot (lutIdx e) (mem db) = None /\ q = p) \/ (slot (lutIdx e) (mem db) = Some q /\ valid (obj q (mem db)) = false) ->
  forall h, entered p (lutIdx e) q db (add_finish q (set_mem m (set_hwst h db))).
Proof.
  intros Hl Hq Hs Ho He (b & i & Hb) Hi Hf h.
  destruct (add_finish_eq q (set_mem m (set_hwst h db))) as [c ->].
  assert (lutIdx e = i) as Ei by by rewrite Hb. subst i.
  constructor; try done; simpl.
  - rewrite slot_add by (rewrite He; lia). rewrite He. by rewrite decide_True.
  - intros j Hj. rewrite slot_add by (rewrite He; lia). rewrite He, decide_False by done. apply Hs.
  - exists b. rewrite obj_add, decide_True by done. rewrite He. by rewrite Hb at 1.
  - intros q' H1 H2. rewrite obj_add, decide_False by done. auto.
  - exists b. rewrite He. rewrite <- Hb. by rewrite <- (count_add_mono e db m h).
Qed.

Lemma add_spec fl p db r db' : ok (p :: fl) db -> RTK_FC_LUT_ADD p false db = (r, db') ->
  (r = RTK_FC_RET_OK /\ ok fl db' /\ exists i, entered p i p db db') \/
  (r = RTK_FC_RET_ERR_ENTRY_REPLASE /\ ok (p :: fl) db' /\
     exists q, q <> p /\ entered p (lutIdx (obj p (mem db'))) q db db') \/
  (r <> RTK_FC_RET_OK /\ r <> RTK_FC_RET_ERR_ENTRY_REPLASE /\ ok (p :: fl) db' /\ kept p db db').
Proof.
  intros H. unfold RTK_FC_LUT_ADD. destruct (add_hw p db) as [x dbh] eqn:Eh.
  destruct (add_hw_spec _ _ _ _ Eh) as (h & -> & Hx).
  destruct x as [err|i]; [intros [= <- <-]; right; right; destruct Hx; split_and!; try done; apply kept_hw|].
  cbn zeta. set (m1 := write_idx p i (mem db)).
  assert (on_mem (upd p (set_lutIdx i)) (set_hwst h db) = set_mem m1 (set_hwst h db)) as -> by done.
  assert (lut_wf (p :: fl) m1) as H1 by (apply wf_upd_flight; [done|left]).
  assert (forall q, obj q m1 = if decide (q = p) then set_lutIdx i (obj p (mem db)) else obj q (mem db)) as Eo
    by (intros; by eapply obj_write_idx).
  assert (obj p m1 = set_lutIdx i (obj p (mem db))) as Ep by (by rewrite Eo, decide_True).
  assert (forall q, q <> p -> obj q m1 = obj q (mem db)) as Eq by (intros; by rewrite Eo, decide_False).
  cbn [mem set_mem]. change (slot i m1) with (slot i (mem db)). destruct (slot i (mem db)) as [q|] eqn:Esl.
  - assert (q <> p) as Hqp.
    { intros ->. destruct (flight_apart _ _ p H1); [left|]. by exists i. }
    destruct (valid (obj q m1)) eqn:Hv; simpl.
    + assert (kept p db (set_mem m1 (set_hwst h db))) as Hk by (constructor; try done; by exists i).
      case_bool_decide; intros [= <- <-]; right; right; split_and!; try done.
      destruct Hk; by constructor.
    + intros [= <- <-]. right. left. fold (taken (obj p m1)).
      assert (q < length (objs m1))%nat as Hb by (eapply wf_bound; [done|right; by exists i]).
      change (on_mem (upd q (taken (obj p m1))) (set_mem m1 (set_hwst h db))) with
        (set_mem (upd q (taken (obj p m1)) m1) (set_hwst h db)).
      set (m2 := upd q (taken (obj p m1)) m1).
      assert (obj q m2 = set_rcuFreeEnt_skipDel true (obj p m1)) as Eq2 by (unfold m2; rewrite obj_upd_eq by done; apply memcpy_skip).
      assert (lutIdx (obj q m2) = i) as Ei by (by rewrite Eq2, Ep).
      assert (ok (p :: fl) (add_finish q (set_mem m2 (set_hwst h db)))) as Hok.
      { unfold ok. destruct (add_finish_eq q (set_mem m2 (set_hwst h db))) as [c ->].
        apply takeover_wf; [done| |done]. change (slot (lutIdx (obj p m1)) m1) with (slot (lutIdx (obj p m1)) (mem db)).
        by rewrite Ep. }
      assert (entered p i q db (add_finish q (set_mem m2 (set_hwst h db)))) as Hen.
      { rewrite <- Ei. apply entered_finish; try done.
        - apply (wf_tbl _ _ H1).
        - unfold m2, upd. simpl. by rewrite length_alter.
        - intros q' ? ?. unfold m2. rewrite obj_upd_ne by done. by apply Eq.
        - exists true, i. by rewrite Eq2, Ep.
        - by rewrite Ei.
        - right. rewrite Ei, <- (Eq q) by done. done. }
      split_and!; [done..|]. exists q. split; [done|].
      assert (obj p (mem (add_finish q (set_mem m2 (set_hwst h db)))) = obj p m1) as ->; [|by rewrite Ep].
      destruct (add_finish_eq q (set_mem m2 (set_hwst h db))) as [c ->]. simpl.
      rewrite obj_add, decide_False by (done || (unfold m2, upd; simpl; by rewrite length_alter)).
      unfold m2. by rewrite obj_upd_ne.
  - intros [= <- <-]. left. split_and!; [done| |].
    + unfold ok. destruct (add_finish_eq p (set_mem m1 (set_hwst h db))) as [c ->].
      change (mem (set_mem m1 (set_hwst h db))) with m1.
      apply add_mem_new; [done|by rewrite Ep|]. rewrite Ep. exact Esl.
    + exists i. assert (lutIdx (obj p m1) = i) as Ei by by rewrite Ep. rewrite <- Ei.
      apply entered_finish; try done.
      * apply (wf_tbl _ _ H1).
      * eapply wf_bound; [done|left; left].
      * intros q' ? ?. by apply Eq.
      * exists (rcuFreeEnt_skipDel (obj p m1)), i. rewrite Ep. by destruct (obj p (mem db)).
      * by rewrite Ei.
      * left. by rewrite Ei.
Qed.

(** ** Eviction *)

Definition lru_no (acc : lru_acc) : option nat := snd (fst acc).
Definition lru_fl (acc : lru_acc) : option nat := snd (snd acc).
Lemma lru_visit_in m acc x :
  (lru_no (lru_visit m acc x) = lru_no acc \/ lru_no (lru_visit m acc x) = Some x) /\
  (lru_fl (lru_visit m acc x) = lru_fl acc \/ lru_fl (lru_visit m acc x) = Some x).
Proof. destruct acc as [[tn pn] [tf pf]]. unfold lru_visit. repeat case_match; simpl; auto. Qed.
Lemma lru_fold_in m l : forall acc,
  (lru_no (foldl (lru_visit m) acc l) = lru_no acc \/ exists p, lru_no (foldl (lru_visit m) acc l) = Some p /\ p ∈ l) /\
  (lru_fl (foldl (lru_visit m) acc l) = lru_fl acc \/ exists p, lru_fl (foldl (lru_visit m) acc l) = Some p /\ p ∈ l).
Proof.
  induction l as [|x l IH]; intros acc; simpl; [auto|]. destruct (lru_visit_in m acc x) as [Hn Hf].
  destruct (IH (lru_visit m acc x)) as [[-> | (p1 & -> & ?)] [-> | (p2 & -> & ?)]]; split;
    repeat match goal with H : _ \/ _ |- _ => destruct H as [-> | ->] end;
    eauto using list_elem_of_here, list_elem_of_further.
Qed.

Lemma victim_in h db p : lru_victim h db = Some p ->
  p ∈ chain h (lut_hash_list_head (mem db)) \/ p ∈ cam_entries (mem db).
Proof.
  unfold lru_victim. set (t := u32 _).
  pose proof (lru_fold_in (mem db) (default [] (lut_hash_list_head (mem db) !! h) ++ cam_entries (mem db)) ((t, None), (t, None))) as Hl.
  destruct (foldl _ _ _) as [[? pn] [? pf]]. rewrite <- elem_of_app. unfold chain, lru_no, lru_fl in *. simpl in Hl.
  destruct Hl as [[-> | (p1 & -> & ?)] [-> | (p2 & -> & ?)]]; intros E; simplify_eq; done.
Qed.

Lemma chain_table fl m p h : lut_wf fl m -> p ∈ chain h (lut_hash_list_head m) ->
  in_table p m /\ valid (obj p m) = true /\ hash_of (obj p m) = h.
Proof. intros H Hp. by apply (wf_hash _ _ H). Qed.
Lemma quick_table fl m p h : lut_wf fl m -> p ∈ chain h (lut_quickhash_list_head m) ->
  in_table p m /\ valid (obj p m) = true /\ quick_of (obj p m) = h.
Proof. intros H Hp. by apply (wf_quick _ _ H). Qed.
Lemma cam_table m p : p ∈ cam_entries m -> in_table p m /\ valid (obj p m) = true.
Proof.
  unfold cam_entries. intros [Hv Hp]%list_elem_of_filter. split; [|done].
  apply list_elem_of_omap in Hp as (i & _ & Hi). by exists i.
Qed.
Lemma victim_table fl db h p : ok fl db -> lru_victim h db = Some p ->
  in_table p (mem db) /\ valid (obj p (mem db)) = true.
Proof.
  intros H [Hp|Hp]%victim_in; [destruct (chain_table _ _ _ _ H Hp) as (? & ? & _); done|by apply cam_table].
Qed.

Lemma lru_ok fl h b db : ok fl db ->
  ok fl (snd (_rtk_fc_lut_LRU h b db)) /\ shrinks db (snd (_rtk_fc_lut_LRU h b db)).
Proof.
  intros H. unfold _rtk_fc_lut_LRU. destruct (lru_victim h db) as [p|] eqn:Ev; [|split; [done|apply shrinks_refl]].
  destruct (victim_table _ _ _ _ H Ev) as [Ht _].
  case_match; simpl; [split; [done|apply shrinks_refl]|]. split; [by apply del_ok|apply del_shrinks].
Qed.

(** ** Add or evict *)

Lemma kept_ok_table p db db' : kept p db db' -> forall i, slot i (mem db') = slot i (mem db).
Proof. intros H i. unfold slot. by rewrite (kp_tbl _ _ _ H). Qed.

(** What happens around the entry that is added: failed adds and an eviction. *)
Definition eroded (p : nat) : fc_db -> fc_db -> Prop := rtc (fun a b => kept p a b \/ shrinks a b).
Lemma eroded_kept p db db' : kept p db db' -> eroded p db db'.
Proof. intros H. apply rtc_once. by left. Qed.
Lemma eroded_shrinks p db db' : shrinks db db' -> eroded p db db'.
Proof. intros H. apply rtc_once. by right. Qed.

Lemma add_or_evict_spec fl h p b db r db' : ok (p :: fl) db -> add_or_evict h p b db = (r, db') ->
  match r with
  | Added RTK_FC_RET_OK => ok fl db' /\ exists i db1, eroded p db db1 /\ entered p i p db1 db'
  | Replaced => ok (p :: fl) db' /\ exists q, q <> p /\ entered p (lutIdx (obj p (mem db'))) q db db'
  | Added RTK_FC_RET_ERR_ENTRY_REPLASE => ok (p :: fl) db' /\ exists i q db1, q <> p /\ eroded p db db1 /\ entered p i q db1 db'
  | _ => ok (p :: fl) db' /\ eroded p db db'
  end.
Proof.
  intros H. unfold add_or_evict. destruct (RTK_FC_LUT_ADD p false db) as [r1 db1] eqn:E1.
  destruct (add_spec _ _ _ _ _ H E1) as [(-> & Hok & i & Hen)|[(-> & Hok & q & Hq & Hen)|(Hn1 & Hn2 & Hok & Hk)]].
  - intros [= <- <-]. split; [done|]. exists i, db. split; [apply rtc_refl|done].
  - intros [= <- <-]. split; [done|]. by exists q.
  - pose proof (eroded_kept p db db1 Hk) as He1.
    destruct r1; try done; try (by intros [= <- <-]).
    destruct (lru_ok (p :: fl) h b db1 Hok) as [Hok2 Hs2]. destruct (_rtk_fc_lut_LRU h b db1) as [v db2]. simpl in *.
    assert (eroded p db db2) as He2 by (etrans; [done|by apply eroded_shrinks]).
    destruct v as [v|]; [|by intros [= <- <-]].
    destruct (RTK_FC_LUT_ADD p false db2) as [r3 db3] eqn:E3. intros [= <- <-].
    destruct (add_spec _ _ _ _ _ Hok2 E3) as [(-> & Hok3 & i & Hen)|[(-> & Hok3 & q & Hq & Hen)|(Hm1 & Hm2 & Hok3 & Hk3)]].
    + split; [done|]. by exists i, db2.
    + split; [done|]. by exists (lutIdx (obj p (mem db3))), q, db2.
    + assert (eroded p db db3) as He3 by (etrans; [done|by apply eroded_kept]). by destruct r3.
Qed.

(** ** Learning *)

Lemma upd_ok fl p f db : ok fl db -> (forall e, same_core e (f e)) -> ok fl (on_mem (upd p f) db).
Proof. intros H Hf. apply wf_upd; [done|]. intros _. apply Hf. Qed.
Lemma upd_flight_ok fl p f db : ok (p :: fl) db -> ok (p :: fl) (on_mem (upd p f) db).
Proof. intros H. apply wf_upd_flight; [done|left]. Qed.
Lemma return_ok fl p db : ok (p :: fl) db -> ok fl (return_obj p db).
Proof. apply return_wf. Qed.
Lemma get_ok fl db p m f : ok fl db -> _rtk_fc_lutEntry_getFromPool (mem db) = Some (p, m) ->
  ok (p :: fl) (set_mem (upd p f m) db).
Proof. intros H Hg. apply wf_upd_flight; [|left]. by eapply get_wf. Qed.

Lemma same_core_refl e : same_core e e.
Proof. done. Qed.
Lemma refresh_core r now e : same_core e (refresh r now e).
Proof. unfold refresh. repeat case_match; done. Qed.

Lemma hostpol_ok fl mac db : ok fl db -> ok fl (on_mem (_rtk_fc_lutHostPolicingIdxUpdate mac) db).
Proof.
  intros H. unfold _rtk_fc_lutHostPolicingIdxUpdate, on_mem. repeat case_match; try (by destruct db). by apply wf_upd.
Qed.

Lemma duplicate_loop_ok h p fids : forall db, ok [] db -> ok [] (snd (duplicate_loop h p fids db)).
Proof.
  induction fids as [|fid fids IH]; intros db H; simpl; [done|].
  destruct (_rtk_fc_lutEntry_getFromPool (mem db)) as [[q m]|] eqn:Eg; [|done].
  pose proof (get_ok _ _ _ _ (dup_entry fid (obj p m)) H Eg) as H1. set (db1 := set_mem _ db) in *.
  destruct (add_or_evict h q false db1) as [x db2] eqn:Ea. pose proof (add_or_evict_spec _ _ _ _ _ _ _ H1 Ea) as Hs.
  destruct x as [x| |]; [|by apply return_ok, Hs..]. destruct x; try (by apply return_ok, Hs). apply IH, Hs.
Qed.

Lemma learned_ok r p db : ok [] db -> ok [] (snd (learned r p db)).
Proof.
  intros H. unfold learned. set (db1 := on_mem (_rtk_fc_lutHostPolicingIdxUpdate _) db).
  assert (ok [] db1) as H1 by by apply hostpol_ok. set (db2 := if bool_decide _ then _ else db1).
  assert (ok [] db2) as H2 by (unfold db2; by case_match).
  case_match; [|done]. set (db3 := on_mem _ db2).
  assert (ok [] db3) as H3 by (by apply upd_ok).
  pose proof (duplicate_loop_ok (_rtk_fc_hash_mac_fid (srcMac r) DEFAULT_FID) p
    (seqZ RTK_FC_WIFI_FID_1 (wifi_tx_gmac_trunking_num - RTK_FC_WIFI_FID_1)) db3 H3) as H4.
  destruct (duplicate_loop _ _ _ db3). done.
Qed.

Lemma learn_new_ok r db : ok [] db -> ok [] (snd (learn_new r db)).
Proof.
  intros H. unfold learn_new. destruct (_rtk_fc_lutEntry_getFromPool (mem db)) as [[p m]|] eqn:Eg; [|done].
  pose proof (get_ok _ _ _ _ (fun _ => new_entry r (jiffies db)) H Eg) as H1. set (db1 := set_mem _ db) in *.
  destruct (add_or_evict _ p _ db1) as [x db2] eqn:Ea. pose proof (add_or_evict_spec _ _ _ _ _ _ _ H1 Ea) as Hs.
  destruct x as [x| |].
  - destruct x; try (by apply return_ok, Hs). apply learned_ok, Hs.
  - destruct Hs as [Hok _]. case_match; [|by apply return_ok]. by apply learned_ok, return_ok.
  - destruct Hs as [Hok _]. case_match; [|by apply return_ok].
    pose proof (upd_flight_ok _ p agg_entry db2 Hok) as H3. set (db3 := on_mem _ db2) in *.
    case_match; [by apply return_ok|]. destruct (RTK_FC_LUT_ADD p false db3) as [x db4] eqn:Ed.
    destruct (add_spec _ _ _ _ _ H3 Ed) as [(-> & Hok4 & _)|[(-> & Hok4 & _)|(Hn & _ & Hok4 & _)]];
      [by apply learned_ok|by apply return_ok|]. destruct x; try done; by apply return_ok.
Qed.

Lemma absent_ok r db : ok [] db -> ok [] (snd (learn_absent r db)).
Proof. intros H. unfold learn_absent. repeat case_match; try done. by apply learn_new_ok. Qed.
Lemma learning_ok r db : ok [] db -> ok [] (snd (_rtk_fc_lut_learning r db)).
Proof.
  intros H. unfold _rtk_fc_lut_learning. destruct (learn_guard r); [done|].
  destruct (List.find _ _) as [p|] eqn:Ef; [|by apply absent_ok].
  assert (in_table p (mem db)) as Ht.
  { apply List.find_some in Ef as [Hin _]. apply list_elem_of_In in Hin. by eapply chain_table. }
  repeat case_match; [|done|by apply absent_ok, del_ok]. apply upd_ok; [done|]. apply refresh_core.
Qed.

(** ** The other operations *)

Lemma delete_where_ok c db : ok [] db -> ok [] (delete_where c db) /\ shrinks db (delete_where c db).
Proof.
  intros H. unfold delete_where.
  assert (forall p, p ∈ concat (lut_quickhash_list_head (mem db)) -> in_table p (mem db)) as Hin.
  { intros p Hp. apply elem_of_concat in Hp as (l & Hp & Hl). apply list_elem_of_lookup in Hl as [h Hh].
    apply (quick_table [] (mem db) p h H). unfold chain. by rewrite Hh. }
  split.
  - apply foldl_ok; [|done]. intros db' p Hp Hok Hs. case_match; [|split; [done|apply shrinks_refl]].
    split; [|apply del_shrinks]. apply del_ok; [done|]. apply (shrinks_table _ _ _ Hs). by apply Hin.
  - apply shrinks_foldl. intros db' p _ _. case_match; [apply del_shrinks|apply shrinks_refl].
Qed.
Lemma log_ok fl e db : ok fl db -> ok fl (log e db).
Proof. done. Qed.
Lemma log_shrinks e db : shrinks db (log e db).
Proof. constructor; auto. Qed.
Lemma linkdown_ok port db : ok [] db -> ok [] (_rtk_fc_lut_linkdown_del port db) /\ shrinks db (_rtk_fc_lut_linkdown_del port db).
Proof.
  intros H. unfold _rtk_fc_lut_linkdown_del. case_match; [split; [done|apply shrinks_refl]|].
  destruct (delete_where_ok (fun e => spa e =? port) (log (FlowDeleteBySpa port) db) H) as [H1 H2].
  split; [done|]. eapply shrinks_trans; [apply log_shrinks|done].
Qed.
Lemma wlan_del_ok w db : ok [] db -> ok [] (_rtk_fc_lut_wlanDevidx_del w db).
Proof.
  intros H. unfold _rtk_fc_lut_wlanDevidx_del. case_match; [done|].
  by destruct (delete_where_ok (fun e => wlan_dev_idx e =? w) (log (FlowDeleteByWlan w) db) H).
Qed.
Lemma config_ok mask db : ok [] db -> ok [] (rtk_fc_macAddr_portGroup_lrnCnt_config mask db).
Proof.
  intros H. unfold rtk_fc_macAddr_portGroup_lrnCnt_config. set (db1 := foldl _ db _). change (ok [] db1).
  apply foldl_ok; [|done]. intros db' i _ Hok _. case_match; [by apply linkdown_ok|split; [done|apply shrinks_refl]].
Qed.
Lemma flush_ok db : ok [] db -> ok [] (flush_unknown db).
Proof.
  intros H. apply foldl_ok; [|done]. intros db' i _ Hok _. destruct (slot i (mem db')) as [p|] eqn:Es;
    [|split; [done|apply shrinks_refl]]. cbv zeta. case_match; [|split; [done|apply shrinks_refl]].
  split; [|apply del_shrinks]. apply del_ok; [done|]. by exists i.
Qed.
Lemma static_del_ok i db db' : ok [] db -> _rtk_fc_lut_staticEntry_del i db = Some db' -> ok [] db'.
Proof.
  intros H. unfold _rtk_fc_lut_staticEntry_del. case_match; [done|].
  destruct (slot i (mem db)) as [p|] eqn:Es; [|done]. do 2 (case_match; [done|]).
  set (n := staticRefCount _ - 1). set (db1 := on_mem _ db).
  assert (ok [] db1) as Hok by (apply upd_ok; [done|intros e; by destruct (n =? 0)]).
  assert (in_table p (mem db1)) as Ht by by exists i.
  assert (forall port db, ok [] db -> ok [] (recover_count port db)) as Hr
    by (intros; unfold recover_count; by case_match).
  repeat case_match; intros [= <-]; auto using del_ok.
Qed.

(** ** House keeping *)

Lemma used_ok p db : ok [] db -> ok [] (used p db).
Proof. intros H. unfold used. set (db1 := on_mem _ db). assert (ok [] db1) by by apply upd_ok. by case_match. Qed.
Lemma used_slot p i db : slot i (mem (used p db)) = slot i (mem db).
Proof. unfold used. by case_match. Qed.
Lemma expire_ok t i p db : ok [] db -> slot i (mem db) = Some p -> ok [] (expire t p db).
Proof. intros H Hs. unfold expire. case_match; [|done]. apply del_ok; [done|]. by exists i. Qed.

Lemma check_slot_ok seen i db : (forall p db x db', seen p db = (x, db') -> mem db' = mem db) ->
  ok [] db -> ok [] (check_slot seen i db).
Proof.
  intros Hseen H. unfold check_slot. destruct (slot i (mem db)) as [p|] eqn:Es; [|done].
  case_match; [done|]. case_match; [case_match; [done|by eapply expire_ok]|].
  destruct (seen p db) as [[s|] db1] eqn:E1; pose proof (Hseen _ _ _ _ E1) as Em; [|unfold ok; by rewrite Em].
  assert (ok [] db1) as Hk1 by (unfold ok; by rewrite Em).
  set (db2 := if s then used p db1 else db1).
  assert (ok [] db2) as Hk2 by (unfold db2; case_match; [by apply used_ok|done]).
  case_match; [done|]. apply (expire_ok _ i); [done|]. unfold db2. case_match; [rewrite used_slot|]; by rewrite Em.
Qed.

Lemma foldl_keep {A} (P : fc_db -> Prop) (g : fc_db -> A -> fc_db) l : forall db,
  (forall db a, P db -> P (g db a)) -> P db -> P (foldl g db l).
Proof. induction l as [|a l IH]; intros db Hg H; simpl; auto. Qed.

Lemma seen_by_age_mem p db x db' : seen_by_age p db = (x, db') -> mem db' = mem db.
Proof. unfold seen_by_age. case_match; by intros [= <- <-]. Qed.
Lemma check_block_ok start db : ok [] db -> ok [] (check_block start db).
Proof.
  intros H. unfold check_block. destruct (rtk_rg_asic_lutSATraffic_get _ _) as [mask h]. apply foldl_keep; [|done].
  intros db' i H'. apply check_slot_ok; [|done]. by intros ? ? ? ? [= <- <-].
Qed.
Lemma timeout_ok db : ok [] db -> ok [] (_rtk_fc_lut_timeoutCheck db).
Proof.
  intros H. unfold _rtk_fc_lut_timeoutCheck. case_match; unfold ok; simpl; apply foldl_keep; try done; intros db' i H'.
  - apply check_slot_ok; [apply seen_by_age_mem|done].
  - by apply check_block_ok.
Qed.

(** ** Runs *)

Lemma step_ok o db : ok [] db -> ok [] (lut_step o db).
Proof.
  intros H. destruct o; simpl.
  - by apply learning_ok.
  - destruct (_rtk_fc_lut_staticEntry_del i db) eqn:E; [|done]. by eapply static_del_ok.
  - by apply wlan_del_ok.
  - by apply linkdown_ok.
  - by apply config_ok.
  - by apply flush_ok.
  - by apply timeout_ok.
  - case_bool_decide; [|done]. by apply grace_wf.
  - done.
  - case_match; [|done]. by apply upd_ok.
Qed.
Lemma run_ok os : forall db, ok [] db -> ok [] (lut_run os db).
Proof. induction os as [|o os IH]; intros db H; simpl; [done|]. by apply IH, step_ok. Qed.

Lemma chain_replicate h n p : ~ p ∈ chain h (replicate n []).
Proof.
  unfold chain. destruct (replicate n [] !! h) as [l|] eqn:E; simpl; [|by apply not_elem_of_nil].
  apply lookup_replicate in E as [-> _]. by apply not_elem_of_nil.
Qed.
Lemma init_ok ports wlans limit h now : ok [] (lut_init ports wlans limit h now).
Proof.
  assert (forall i, slot i (mem (lut_init ports wlans limit h now)) = None) as Hs.
  { intros i. unfold slot. simpl. destruct (replicate RTK_FC_TABLESIZE_LUT None !! i) as [x|] eqn:E; [|done].
    by apply lookup_replicate in E as [-> _]. }
  assert (forall p, ~ in_table p (mem (lut_init ports wlans limit h now))) as Ht.
  { intros p [i Hi]. by rewrite Hs in Hi. }
  assert (forall key, chains_exact key (replicate RTK_FC_LUT_BUCKET_SIZE []) (mem (lut_init ports wlans limit h now))) as Hc.
  { intros key. split_and!; [by rewrite length_replicate|apply Forall_replicate, NoDup_nil_2|].
    intros k p. split; [intros Hp; by apply chain_replicate in Hp|]. by intros [Hp%Ht _]. }
  constructor; try apply Hc; simpl.
  - by rewrite length_replicate.
  - by rewrite length_seq.
  - done.
  - unfold free_objs, table_objs. simpl. rewrite firstn_all2 by (by rewrite length_seq).
    assert (omap id (replicate RTK_FC_TABLESIZE_LUT (@None nat)) = []) as ->; [|by rewrite app_nil_r].
    induction RTK_FC_TABLESIZE_LUT; [done|]. by csimpl.
  - by rewrite length_replicate.
  - intros i p Hi. by rewrite Hs in Hi.
  - split; [apply NoDup_nil_2|]. by intros p Hp%not_elem_of_nil.
Qed.
End Ops.
