(* ===== verification/FcLutUnique.v ===== *)
(** * An address is in the layer-2 table at most once

    [uniq]: no two valid entries of the table have the same address and the default
    filter id.  Deletion only shrinks the table, and learning looks for the address first.
    With it, a search finds exactly the entry of an address, and what was learned is
    found. *)
From S2P Require Import Prelude FcLut FcLutInv FcLutOps.
Open Scope Z_scope.

Section Unique.
Context {cfg : LutConfig} {l2 : L2Hw} {laws : LutLaws}.

(** The valid entries of the table with an address and a filter id. *)
Definition holds (mac : list Z) (fid : Z) (p : nat) (m : lut_mem) : Prop :=
  in_table p m /\ valid (obj p m) = true /\ l2Addr (obj p m) = mac /\ svl_fid (obj p m) = fid.
Definition absent (mac : list Z) (m : lut_mem) : Prop := forall p, ~ holds mac 0 p m.
Definition uniq (m : lut_mem) : Prop :=
  (forall mac p q, holds mac 0 p m -> holds mac 0 q m -> p = q) /\
  (forall mac fid p, holds mac fid p m -> 0 <= fid < 4).

(** ** Steps that add nothing *)

(** Every holder was one before. *)
Definition loses (m m' : lut_mem) : Prop := forall mac fid p, holds mac fid p m' -> holds mac fid p m.
Lemma loses_refl m : loses m m.
Proof. by intros ???. Qed.
Lemma loses_trans m1 m2 m3 : loses m1 m2 -> loses m2 m3 -> loses m1 m3.
Proof. unfold loses. eauto. Qed.
Lemma loses_uniq m m' : loses m m' -> uniq m -> uniq m'.
Proof. intros Hl [H1 H2]. split; eauto. Qed.
Lemma loses_absent m m' mac : loses m m' -> absent mac m -> absent mac m'.
Proof. intros Hl Ha p Hp. by apply (Ha p), Hl. Qed.

Lemma loses_same m m' : (forall i, slot i m' = slot i m) ->
  (forall p, in_table p m -> same_core (obj p m) (obj p m')) -> loses m m'.
Proof.
  intros Hs Ho mac fid p ((i & Hi) & Hv & Hm & Hf). rewrite Hs in Hi.
  assert (in_table p m) as Ht by by exists i. destruct (Ho p Ht) as (E1 & E2 & _ & E4 & _).
  split_and!; congruence.
Qed.
Lemma shrinks_loses db db' : shrinks db db' -> loses (mem db) (mem db').
Proof.
  intros H mac fid p (Ht & Hv & Hm & Hf). pose proof (shrinks_valid _ _ _ H Hv) as E. rewrite E in *.
  split_and!; try done. by apply (shrinks_table _ _ _ H).
Qed.
Lemma kept_loses fl p db db' : ok (p :: fl) db -> kept p db db' -> loses (mem db) (mem db').
Proof.
  intros H Hk. apply loses_same; [by apply (kept_ok_table p)|]. intros q Hq. rewrite (kp_objs _ _ _ Hk); [done|].
  intros ->. destruct (flight_apart _ _ p H); [left|done].
Qed.
Lemma upd_loses fl p f m : lut_wf fl m -> (in_table p m -> same_core (obj p m) (f (obj p m))) -> loses m (upd p f m).
Proof.
  intros H Hf. apply loses_same; [done|]. intros q Hq. destruct (decide (q = p)) as [->|Hn].
  - rewrite obj_upd_eq by (eapply wf_bound; [done|by right]). auto.
  - by rewrite obj_upd_ne.
Qed.
Lemma upd_core_loses fl p f db : ok fl db -> (forall e, same_core e (f e)) -> loses (mem db) (mem (on_mem (upd p f) db)).
Proof. intros H Hf. eapply upd_loses; [exact H|]. intros _. apply Hf. Qed.
Lemma flight_loses fl p f m : lut_wf (p :: fl) m -> loses m (upd p f m).
Proof. intros H. eapply upd_loses; [exact H|]. intros Ht. destruct (flight_apart _ _ p H); [left|done]. Qed.
Lemma get_loses fl m p m' f : lut_wf fl m -> _rtk_fc_lutEntry_getFromPool m = Some (p, m') -> loses m (upd p f m').
Proof.
  intros H Hg. destruct (get_wf _ _ _ _ H Hg) as (Hw & _ & Ho & Hs & _ & _ & Hn).
  eapply loses_trans; [|by eapply flight_loses]. apply loses_same; [done|].
  intros q Hq. rewrite Ho; [done|]. by intros ->.
Qed.
Lemma hostpol_loses fl mac db : ok fl db -> loses (mem db) (mem (on_mem (_rtk_fc_lutHostPolicingIdxUpdate mac) db)).
Proof.
  intros H. unfold _rtk_fc_lutHostPolicingIdxUpdate, on_mem. simpl. repeat case_match; try apply loses_refl.
  by eapply upd_loses.
Qed.

(** ** Entering *)

(** The holders afterwards: the new entry and those of before. *)
Lemma entered_holds p i q db db' mac fid x : ~ in_table p (mem db) -> entered p i q db db' -> holds mac fid x (mem db') ->
  (x = q /\ mac = l2Addr (obj p (mem db)) /\ fid = svl_fid (obj p (mem db))) \/ holds mac fid x (mem db).
Proof.
  intros Hp Hen ((j & Hj) & Hv & Hm & Hf). destruct (decide (x = q)) as [->|Hn].
  - left. destruct (en_obj _ _ _ _ _ Hen) as [b E]. rewrite E in Hm, Hf. simpl in Hm, Hf. done.
  - right. assert (j <> i) as Hji by (intros ->; rewrite (en_slot _ _ _ _ _ Hen) in Hj; congruence).
    rewrite (en_others _ _ _ _ _ Hen) in Hj by done.
    assert (x <> p) as Hxp by (intros ->; apply Hp; by exists j).
    rewrite (en_objs _ _ _ _ _ Hen) in Hv, Hm, Hf by done. split_and!; try done. by exists j.
Qed.
Lemma entered_uniq p i q db db' : ~ in_table p (mem db) -> entered p i q db db' ->
  0 <= svl_fid (obj p (mem db)) < 4 ->
  (svl_fid (obj p (mem db)) = 0 -> absent (l2Addr (obj p (mem db))) (mem db)) -> uniq (mem db) -> uniq (mem db').
Proof.
  intros Hp Hen Hr Ha [Hu Hu4]. split.
  2: { intros mac fid x Hx. destruct (entered_holds _ _ _ _ _ _ _ _ Hp Hen Hx) as [(-> & Em & ->)|Hx']; [done|by eapply Hu4]. }
  intros mac x y Hx Hy.
  destruct (entered_holds _ _ _ _ _ _ _ _ Hp Hen Hx) as [(-> & Em & Ef)|Hx'],
    (entered_holds _ _ _ _ _ _ _ _ Hp Hen Hy) as [(-> & Em' & Ef')|Hy']; [done| | |by eapply Hu].
  - subst mac. by destruct (Ha (eq_sym Ef) y).
  - subst mac. by destruct (Ha (eq_sym Ef') x).
Qed.

(** Failed adds and an eviction add nothing, and leave the new entry's key alone. *)
Lemma eroded_facts fl p db db' : ok (p :: fl) db -> eroded p db db' -> 
  (~ in_table p (mem db')) /\ loses (mem db) (mem db') /\
  l2Addr (obj p (mem db')) = l2Addr (obj p (mem db)) /\ svl_fid (obj p (mem db')) = svl_fid (obj p (mem db)) /\
  jiffies db' = jiffies db /\ (exists i b, obj p (mem db') = set_valid b (set_lutIdx i (obj p (mem db)))).
Proof.
  intros H He. assert (~ in_table p (mem db)) as H0 by (apply (flight_apart _ _ p H); left).
  clear H. induction He as [db|db db1 db2 [Hk|Hs] _ IH].
  - split_and!; try done; [apply loses_refl|]. exists (lutIdx (obj p (mem db))), (valid (obj p (mem db))). by destruct (obj p (mem db)).
  - assert (~ in_table p (mem db1)) as H1 by (unfold in_table; by setoid_rewrite (kept_ok_table _ _ _ Hk)).
    destruct (IH H1) as (H2 & Hl & -> & -> & -> & i & b & ->). destruct (kp_obj _ _ _ Hk) as [i' ->].
    split_and!; try done; [|apply (kp_jiffies _ _ _ Hk)|by exists i, b].
    eapply loses_trans; [|exact Hl]. apply loses_same; [by apply (kept_ok_table p)|].
    intros q Hq. rewrite (kp_objs _ _ _ Hk); [done|]. by intros ->.
  - assert (~ in_table p (mem db1)) as H1 by (by rewrite (shrinks_table _ _ _ Hs)).
    destruct (IH H1) as (H2 & Hl & -> & -> & -> & i & b & ->).
    split_and!; try done.
    + eapply loses_trans; [by apply shrinks_loses|done].
    + by apply (shrinks_field l2Addr).
    + by apply (shrinks_field svl_fid).
    + apply (sh_jiffies _ _ Hs).
    + destruct (sh_obj _ _ Hs p) as [->|(-> & _)]; by exists i, b.
Qed.

(** ** Searching *)

Lemma find_fid_spec fl m mac fid : lut_wf fl m ->
  match _rtk_fc_lut_find_fid mac fid m with
  | Some i => exists p, slot i m = Some p /\ holds mac fid p m
  | None => forall p, ~ holds mac fid p m
  end.
Proof.
  intros H. unfold _rtk_fc_lut_find_fid. cbv zeta. match goal with |- context [List.find ?f _] => set (hit := f) end.
  destruct (List.find hit _) as [p|] eqn:Ef; simpl.
  - apply List.find_some in Ef as [Hin Hh]. apply list_elem_of_In in Hin.
    destruct (chain_table _ _ _ _ H Hin) as ((i & Hi) & Hv & _). exists p.
    unfold hit in Hh. bool_to_prop. split; [by rewrite (wf_idx _ _ H _ _ Hi)|].
    split_and!; [by exists i|done| |lia]. by eapply bool_decide_eq_true_1.
  - intros p (Ht & Hv & Hm & Hfid). assert (p ∈ chain (_rtk_fc_hash_mac_fid mac fid) (lut_hash_list_head m)) as Hin.
    { apply (wf_hash _ _ H). split_and!; try done. unfold hash_of. by rewrite Hm, Hfid. }
    apply list_elem_of_In in Hin. pose proof (List.find_none hit _ Ef p Hin) as Hh. unfold hit in Hh.
    rewrite Hv, (bool_decide_true _ Hm), Hfid, Z.eqb_refl in Hh. done.
Qed.
Lemma find_spec fl m mac : lut_wf fl m ->
  match _rtk_fc_lut_find mac m with
  | Some i => exists p fid, slot i m = Some p /\ holds mac fid p m
  | None => forall fid p, ~ holds mac fid p m
  end.
Proof.
  intros H. unfold _rtk_fc_lut_find. cbv zeta. match goal with |- context [List.find ?f _] => set (hit := f) end.
  destruct (List.find hit _) as [p|] eqn:Ef; simpl.
  - apply List.find_some in Ef as [Hin Hh]. apply list_elem_of_In in Hin.
    destruct (quick_table _ _ _ _ H Hin) as ((i & Hi) & Hv & _). exists p, (svl_fid (obj p m)).
    unfold hit in Hh. bool_to_prop. split; [by rewrite (wf_idx _ _ H _ _ Hi)|].
    split_and!; [by exists i|done| |done]. by eapply bool_decide_eq_true_1.
  - intros fid p (Ht & Hv & Hm & Hfid).
    assert (p ∈ chain (_rtk_fc_quickhash_mac_fid mac DEFAULT_FID) (lut_quickhash_list_head m)) as Hin.
    { apply (wf_quick _ _ H). split_and!; try done. unfold quick_of. rewrite Hm. apply quick_fid. }
    apply list_elem_of_In in Hin. pose proof (List.find_none hit _ Ef p Hin) as Hh. unfold hit in Hh.
    rewrite Hv, (bool_decide_true _ Hm) in Hh. done.
Qed.

(** ** Learning *)

Lemma duplicate_loop_uniq h p fids : forall db, ok [] db -> uniq (mem db) -> Forall (fun f => 0 < f < 4) fids ->
  uniq (mem (snd (duplicate_loop h p fids db))).
Proof.
  induction fids as [|fid fids IH]; intros db H Hu Hf; simpl; [done|]. apply Forall_cons in Hf as [Hf0 Hf].
  destruct (_rtk_fc_lutEntry_getFromPool (mem db)) as [[q m]|] eqn:Eg; [|done].
  pose proof (get_ok _ _ _ _ (dup_entry fid (obj p m)) H Eg) as H1.
  pose proof (loses_uniq _ _ (get_loses _ _ _ _ (dup_entry fid (obj p m)) H Eg) Hu) as Hu1.
  set (db1 := set_mem _ db) in *. change (uniq (mem db1)) in Hu1.
  assert (svl_fid (obj q (mem db1)) = fid) as Efid.
  { unfold db1. simpl. rewrite obj_upd_eq; [done|]. destruct (get_wf _ _ _ _ H Eg) as (Hw & _). eapply wf_bound; [done|left; left]. }
  destruct (add_or_evict h q false db1) as [x db2] eqn:Ea. pose proof (add_or_evict_spec _ _ _ _ _ _ _ H1 Ea) as Hs.
  assert (forall db2 i q', eroded q db1 db2 -> forall db3, entered q i q' db2 db3 -> uniq (mem db3)) as Hen.
  { intros db3 i q' He db4 Hen. destruct (eroded_facts _ _ _ _ H1 He) as (Hn & Hl & _ & Ef & _).
    eapply entered_uniq; [exact Hn|done| | |by eapply loses_uniq]; rewrite Ef, Efid; lia. }
  assert (eroded q db1 db2 -> uniq (mem db2)) as Her.
  { intros He. destruct (eroded_facts _ _ _ _ H1 He) as (_ & Hl & _). by eapply loses_uniq. }
  assert (forall db, uniq (mem db) -> uniq (mem (return_obj q db))) as Hr by done.
  destruct x as [x| |].
  - destruct x; simpl; try (by apply Hr, Her, Hs).
    + destruct Hs as (Hok & i & db' & He & Hen'). apply IH; [done|by eapply Hen|done].
    + destruct Hs as (Hok & i & q' & db' & _ & He & Hen'). apply Hr. by eapply Hen.
  - destruct Hs as (Hok & q' & _ & Hen'). apply Hr. eapply Hen; [apply rtc_refl|done].
  - by apply Hr, Her, Hs.
Qed.

Lemma trunk_range : Forall (fun f => 0 < f < 4) (seqZ RTK_FC_WIFI_FID_1 (wifi_tx_gmac_trunking_num - RTK_FC_WIFI_FID_1)).
Proof. apply Forall_forall. intros f Hf%elem_of_seqZ. pose proof fid_1_pos. pose proof trunk_fids. lia. Qed.

Lemma learned_uniq r p db : ok [] db -> uniq (mem db) -> uniq (mem (snd (learned r p db))).
Proof.
  intros H Hu. unfold learned. set (db1 := on_mem (_rtk_fc_lutHostPolicingIdxUpdate _) db).
  assert (ok [] db1) as H1 by by apply hostpol_ok.
  assert (uniq (mem db1)) as Hu1 by (eapply loses_uniq; [by eapply hostpol_loses|done]).
  set (db2 := if bool_decide _ then _ else db1).
  assert (ok [] db2) as H2 by (unfold db2; by case_match). assert (uniq (mem db2)) as Hu2 by (unfold db2; by case_match).
  case_match; [|done]. set (db3 := on_mem _ db2). assert (ok [] db3) as H3 by by apply upd_ok.
  assert (uniq (mem db3)) as Hu3 by (eapply loses_uniq; [by eapply upd_core_loses|done]).
  pose proof (duplicate_loop_uniq (_rtk_fc_hash_mac_fid (srcMac r) DEFAULT_FID) p
    (seqZ RTK_FC_WIFI_FID_1 (wifi_tx_gmac_trunking_num - RTK_FC_WIFI_FID_1)) db3 H3 Hu3 trunk_range).
  by destruct (duplicate_loop _ _ _ db3).
Qed.

Lemma learn_new_uniq r db : ok [] db -> uniq (mem db) -> absent (srcMac r) (mem db) -> uniq (mem (snd (learn_new r db))).
Proof.
  intros H Hu Ha. unfold learn_new. destruct (_rtk_fc_lutEntry_getFromPool (mem db)) as [[p m]|] eqn:Eg; [|done].
  pose proof (get_ok _ _ _ _ (fun _ => new_entry r (jiffies db)) H Eg) as H1.
  pose proof (get_loses _ _ _ _ (fun _ => new_entry r (jiffies db)) H Eg) as Hl1. set (db1 := set_mem _ db) in *.
  change (loses (mem db) (mem db1)) in Hl1.
  assert (obj p (mem db1) = new_entry r (jiffies db)) as Ep.
  { unfold db1. simpl. rewrite obj_upd_eq; [done|]. destruct (get_wf _ _ _ _ H Eg) as (Hw & _). eapply wf_bound; [done|left; left]. }
  destruct (add_or_evict _ p _ db1) as [x db2] eqn:Ea. pose proof (add_or_evict_spec _ _ _ _ _ _ _ H1 Ea) as Hs.
  assert (forall db2 i q', eroded p db1 db2 -> forall db3, entered p i q' db2 db3 -> uniq (mem db3)) as Hen.
  { intros db3 i q' He db4 Hen. destruct (eroded_facts _ _ _ _ H1 He) as (Hn & Hl & Em & Ef & _).
    eapply entered_uniq; [exact Hn|done| | |eapply loses_uniq; [|exact Hu]; by eapply loses_trans];
      [by rewrite Ef, Ep|].
    intros _. rewrite Em, Ep. simpl. eapply loses_absent; [|exact Ha]. by eapply loses_trans. }
  assert (eroded p db1 db2 -> uniq (mem db2)) as Her.
  { intros He. destruct (eroded_facts _ _ _ _ H1 He) as (_ & Hl & _). eapply loses_uniq; [|exact Hu]. by eapply loses_trans. }
  assert (forall db, uniq (mem db) -> uniq (mem (return_obj p db))) as Hr by done.
  destruct x as [x| |].
  - destruct x; simpl; try (by apply Hr, Her, Hs).
    + destruct Hs as (Hok & i & db' & He & Hen'). apply learned_uniq; [done|by eapply Hen].
    + destruct Hs as (Hok & i & q' & db' & _ & He & Hen'). apply Hr. by eapply Hen.
  - destruct Hs as (Hok & q' & _ & Hen').
    assert (uniq (mem db2)) as Hu2 by (eapply Hen; [apply rtc_refl|done]).
    case_match; [|done]. by apply learned_uniq; [apply return_ok|].
  - destruct Hs as [Hok He]. specialize (Her He). case_match; [|done].
    pose proof (upd_flight_ok _ p agg_entry db2 Hok) as H3.
    assert (uniq (mem (on_mem (upd p agg_entry) db2))) as Hu3 by (eapply loses_uniq; [by eapply flight_loses|done]).
    assert (svl_fid (obj p (mem (on_mem (upd p agg_entry) db2))) = 0) as E3.
    { simpl. rewrite obj_upd_eq by (eapply wf_bound; [exact Hok|left; left]). simpl.
      destruct (eroded_facts _ _ _ _ H1 He) as (_ & _ & _ & -> & _). by rewrite Ep. }
    set (db3 := on_mem _ db2) in *. pose proof (find_spec _ _ (l2Addr (obj p (mem db3))) H3) as Hfind.
    case_match; [done|]. destruct (RTK_FC_LUT_ADD p false db3) as [x db4] eqn:Ed.
    assert (~ in_table p (mem db3)) as Hn by (apply (flight_apart _ _ p H3); left).
    assert (forall i q, entered p i q db3 db4 -> uniq (mem db4)) as Hen4.
    { intros i q Hen4. eapply entered_uniq; [exact Hn|done|by rewrite E3| |done]. intros _ y Hy. by apply (Hfind 0 y). }
    destruct (add_spec _ _ _ _ _ H3 Ed) as [(-> & Hok4 & i & Hen')|[(-> & Hok4 & q & _ & Hen')|(Hx & _ & Hok4 & Hk)]].
    + apply learned_uniq; [done|by eapply Hen4].
    + apply Hr. by eapply Hen4.
    + assert (uniq (mem db4)) as Hu4 by (eapply loses_uniq; [by apply (kept_loses [] p db3)|done]).
      destruct x; try done; by apply Hr.
Qed.

Lemma absent_uniq r db : ok [] db -> uniq (mem db) -> absent (srcMac r) (mem db) -> uniq (mem (snd (learn_absent r db))).
Proof. intros. unfold learn_absent. repeat case_match; try done. by apply learn_new_uniq. Qed.

(** The search of learning looks at the whole bucket of the address. *)
Lemma learning_search r db : ok [] db -> uniq (mem db) ->
  match List.find (fun p => bool_decide (l2Addr (obj p (mem db)) = srcMac r))
          (default [] (lut_hash_list_head (mem db) !! _rtk_fc_hash_mac_fid (srcMac r) DEFAULT_FID)) with
  | None => absent (srcMac r) (mem db)
  | Some p => holds (srcMac r) 0 p (mem db)
  end.
Proof.
  intros H Hu. destruct (List.find _ _) as [p|] eqn:Ef.
  - apply List.find_some in Ef as [Hin Hm]. apply list_elem_of_In in Hin.
    destruct (chain_table _ _ _ _ H Hin) as (Ht & Hv & Hh). apply bool_decide_eq_true_1 in Hm.
    split_and!; try done. destruct Hu as [_ Hr]. specialize (Hr _ _ p (conj Ht (conj Hv (conj Hm eq_refl)))).
    unfold hash_of in Hh. rewrite Hm, default_fid in Hh. by eapply hash_fid.
  - intros p (Ht & Hv & Hm & Hf).
    assert (p ∈ chain (_rtk_fc_hash_mac_fid (srcMac r) DEFAULT_FID) (lut_hash_list_head (mem db))) as Hin.
    { apply (wf_hash _ _ H). split_and!; try done. unfold hash_of. by rewrite Hm, Hf, default_fid. }
    apply list_elem_of_In in Hin. pose proof (List.find_none _ _ Ef p Hin) as Hh. simpl in Hh. by rewrite bool_decide_true in Hh.
Qed.

(** A deleted entry is gone. *)
Lemma shrinks_invalid db db' p : shrinks db db' -> valid (obj p (mem db)) = false -> valid (obj p (mem db')) = false.
Proof. intros H Hv. by destruct (sh_obj _ _ H p) as [->|(-> & _)]. Qed.
Lemma del_invalid p f db : isStatic (obj p (mem db)) = false -> valid (obj p (mem (RTK_FC_LUT_DEL p f db))) = false.
Proof.
  intros Hs. unfold RTK_FC_LUT_DEL. simpl. destruct (valid (obj p (mem db))) eqn:Hv; simpl; [|done]. rewrite Hs.
  assert (valid (obj p (mem (del_one p f db))) = false) as H1.
  { destruct (del_one_eq p f db) as (h & ev & ->). simpl. by rewrite obj_del_mem, obj_invalid, decide_True. }
  case_match; [|done]. eapply shrinks_invalid; [|exact H1]. apply shrinks_foldl. intros db' fid _ _.
  repeat case_match; [apply (del_fuel_shrinks (length (objs (mem db))))|apply shrinks_refl..].
Qed.

Lemma del_absent r p f db : uniq (mem db) -> holds (srcMac r) 0 p (mem db) -> isStatic (obj p (mem db)) = false ->
  absent (srcMac r) (mem (RTK_FC_LUT_DEL p f db)).
Proof.
  intros [Hu _] Hp Hs q Hq. pose proof (shrinks_loses _ _ (del_shrinks p f db) _ _ _ Hq) as Hq'.
  rewrite (Hu _ _ _ Hq' Hp) in Hq. destruct Hq as (_ & Hv & _). by rewrite del_invalid in Hv.
Qed.

Lemma learning_uniq r db : ok [] db -> uniq (mem db) -> uniq (mem (snd (_rtk_fc_lut_learning r db))).
Proof.
  intros H Hu. unfold _rtk_fc_lut_learning. destruct (learn_guard r); [done|].
  pose proof (learning_search r db H Hu) as Hs. destruct (List.find _ _) as [p|]; [|by apply absent_uniq].
  case_match; [eapply loses_uniq; [eapply upd_core_loses; [done|apply refresh_core]|done]|].
  destruct (isStatic (obj p (mem db))) eqn:Est; [done|].
  apply absent_uniq; [apply del_ok; [done|apply Hs]|eapply loses_uniq; [apply shrinks_loses, del_shrinks|done]|].
  by apply del_absent.
Qed.

(** ** The other operations lose at most *)

Lemma foldl_loses {A} (g : fc_db -> A -> fc_db) l : forall db,
  (forall db a, ok [] db -> ok [] (g db a) /\ loses (mem db) (mem (g db a))) -> ok [] db -> loses (mem db) (mem (foldl g db l)).
Proof.
  induction l as [|a l IH]; intros db Hg H; simpl; [apply loses_refl|]. destruct (Hg db a H) as [H1 H2].
  eapply loses_trans; [exact H2|by apply IH].
Qed.
Lemma del_loses p f db : loses (mem db) (mem (RTK_FC_LUT_DEL p f db)).
Proof. apply shrinks_loses, del_shrinks. Qed.
Lemma expire_loses t p db : loses (mem db) (mem (expire t p db)).
Proof. unfold expire. case_match; [apply del_loses|apply loses_refl]. Qed.
Lemma used_loses p db : ok [] db -> loses (mem db) (mem (used p db)).
Proof.
  intros H. unfold used. set (db1 := on_mem _ db). assert (loses (mem db) (mem db1)) by by eapply upd_core_loses.
  by case_match.
Qed.
Lemma check_slot_loses seen i db : (forall p db x db', seen p db = (x, db') -> mem db' = mem db) ->
  ok [] db -> loses (mem db) (mem (check_slot seen i db)).
Proof.
  intros Hseen H. unfold check_slot. destruct (slot i (mem db)) as [p|]; [|apply loses_refl].
  case_match; [apply loses_refl|]. case_match; [case_match; [apply loses_refl|apply expire_loses]|].
  destruct (seen p db) as [[s|] db1] eqn:E1; pose proof (Hseen _ _ _ _ E1) as Em; [|rewrite Em; apply loses_refl].
  assert (ok [] db1) as Hk by (unfold ok; by rewrite Em).
  assert (loses (mem db) (mem (if s then used p db1 else db1))) as Hl.
  { case_match; rewrite <- Em; [by apply used_loses|apply loses_refl]. }
  destruct (isStatic (obj p (mem db))); [exact Hl|]. eapply loses_trans; [exact Hl|apply expire_loses].
Qed.
Lemma check_block_loses start db : ok [] db -> loses (mem db) (mem (check_block start db)).
Proof.
  intros H. unfold check_block. destruct (rtk_rg_asic_lutSATraffic_get _ _) as [mask h].
  apply (foldl_loses _ _ (set_hwst h db)); [|done]. intros db' i H'.
  assert (forall (p : nat) (db : fc_db) x db', ((Some (Z.testbit mask (Z.of_nat (i - start))), db) : option bool * fc_db) = (x, db') -> mem db' = mem db) as Hx
    by (by intros ? ? ? ? [= <- <-]).
  split; [by apply check_slot_ok|by apply check_slot_loses].
Qed.
Lemma timeout_loses db : ok [] db -> loses (mem db) (mem (_rtk_fc_lut_timeoutCheck db)).
Proof.
  intros H. unfold _rtk_fc_lut_timeoutCheck. case_match; apply (foldl_loses _ _ db); try done; intros db' i H'.
  - split; [apply check_slot_ok|apply check_slot_loses]; try done; apply seen_by_age_mem.
  - split; [by apply check_block_ok|by apply check_block_loses].
Qed.
Lemma static_del_loses i db db' : ok [] db -> _rtk_fc_lut_staticEntry_del i db = Some db' -> loses (mem db) (mem db').
Proof.
  intros H. unfold _rtk_fc_lut_staticEntry_del. case_match; [done|].
  destruct (slot i (mem db)) as [p|] eqn:Es; [|done]. cbv zeta. do 2 (case_match; [done|]).
  set (n := staticRefCount _ - 1). set (db1 := on_mem _ db).
  assert (loses (mem db) (mem db1)) as Hl by (eapply upd_core_loses; [done|intros e; by destruct (n =? 0)]).
  assert (forall port db, mem (recover_count port db) = mem db) as Hr by (intros; unfold recover_count; by case_match).
  repeat case_match; intros [= <-]; rewrite ?Hr; try exact Hl; (eapply loses_trans; [exact Hl|apply del_loses]).
Qed.
Lemma grace_loses p m : lut_wf [] m -> p ∈ rcu m -> loses m (rtk_fc_lut_free_entry p m).
Proof.
  intros H Hp. pose proof (wf_rcu _ _ H) as [_ Hr]. destruct (Hr p Hp) as [Ht Hv]. unfold rtk_fc_lut_free_entry.
  set (m1 := set_rcu _ m). change (obj p m1) with (obj p m).
  destruct (rcuFreeEnt_skipDel (obj p m)).
  - intros mac fid q (Hq & Hvq & Hm & Hf). change (in_table q m) in Hq.
    assert (exists b, obj q (upd p (set_rcuFreeEnt_skipDel false) m1) = set_rcuFreeEnt_skipDel b (obj q m)) as [b E].
    { destruct (decide (q = p)) as [->|Hn]; [exists false|exists (rcuFreeEnt_skipDel (obj q m))].
      - apply (obj_upd_eq p _ m1). exact (wf_bound _ m p H (or_intror Ht)).
      - rewrite obj_upd_ne by done. by rewrite set_skip_id. }
    rewrite E in Hvq, Hm, Hf. by split_and!.
  - intros mac fid q ((j & Hj) & Hq). change (lutTbl m1) with (lutTbl m) in Hj.
    destruct Ht as [i Hi]. pose proof (wf_idx _ _ H _ _ Hi) as Ei. rewrite Ei in *.
    assert (slot j (set_lutTbl (<[i := None]> (lutTbl m)) m1) = Some q) as Hj' by exact Hj.
    pose proof (slot_insert i j None m1) as Es. change (lutTbl m1) with (lutTbl m) in Es.
    rewrite Es in Hj' by (eapply lookup_lt_Some; by apply slot_lookup). case_decide; [done|].
    split; [by exists j|exact Hq].
Qed.

Lemma step_uniq o db : ok [] db -> uniq (mem db) -> uniq (mem (lut_step o db)).
Proof.
  intros H Hu. destruct o; simpl; [by apply learning_uniq|..]; (eapply loses_uniq; [|exact Hu]).
  - destruct (_rtk_fc_lut_staticEntry_del i db) eqn:E; [by eapply static_del_loses|apply loses_refl].
  - unfold _rtk_fc_lut_wlanDevidx_del. case_match; [apply loses_refl|].
    by apply (shrinks_loses (log (FlowDeleteByWlan w) db)), delete_where_ok.
  - apply shrinks_loses. by apply linkdown_ok.
  - unfold rtk_fc_macAddr_portGroup_lrnCnt_config. cbn [mem set_limits]. apply foldl_loses; [|done]. intros db' i H'.
    case_match; [|split; [done|apply loses_refl]]. split; [|apply shrinks_loses]; by apply linkdown_ok.
  - apply foldl_loses; [|done]. intros db' i H'. destruct (slot i (mem db')) as [p|] eqn:Es; [|split; [done|apply loses_refl]].
    cbv zeta. case_match; [|split; [done|apply loses_refl]]. split; [apply del_ok; [done|by exists i]|apply del_loses].
  - by apply timeout_loses.
  - case_bool_decide; [by apply grace_loses|apply loses_refl].
  - apply loses_refl.
  - case_match; [by eapply upd_core_loses|apply loses_refl].
Qed.
Lemma run_uniq os : forall db, ok [] db -> uniq (mem db) -> uniq (mem (lut_run os db)).
Proof. induction os as [|o os IH]; intros db H Hu; simpl; [done|]. apply IH; [by apply step_ok|by apply step_uniq]. Qed.
Lemma init_uniq ports wlans limit h now : uniq (mem (lut_init ports wlans limit h now)).
Proof.
  assert (forall mac fid p, ~ holds mac fid p (mem (lut_init ports wlans limit h now))) as Hn.
  { intros mac fid p ((i & Hi) & _). unfold slot in Hi. simpl in Hi.
    destruct (replicate RTK_FC_TABLESIZE_LUT None !! i) as [x|] eqn:E; [|done].
    apply lookup_replicate in E as [-> _]. done. }
  split; intros; exfalso; by eapply Hn.
Qed.
End Unique.
