(* ===== verification/FcLutSmall.v ===== *)
(** * A small switch

    An instance of the parameters of [FcLut], on which the theorems are tried: a table of
    four buckets of two ways and a CAM of two slots.  The switch looks a key up by content;
    a new key goes to a free way of its bucket, then to the CAM, else the table is full.
    Wireless device 0 is spread over trunked CPU ports, with filter ids 1 and 2. *)
From S2P Require Import Prelude FcLut FcLutInv.
Open Scope Z_scope.

(** ** The switch *)

#[export] Instance small_cfg : LutConfig := {|
  RTK_FC_LUTENTRY_POOL_SIZE := 14;
  RTK_FC_TABLESIZE_LUT := 10;
  LUTTABLE_SRAM_SIZE := 8;
  LUTTABLE_BCAM_SIZE := 2;
  RTK_FC_LUT_BUCKET_SIZE := 512;
  L2HOUSE_KEEP_NUM := 4;
  CONFIG_HZ := 100;
  RTK_FC_MAC_PORT_MAX := 11;
  RTK_FC_MAC_EXT_PORT_MAX := 6;
  RTK_FC_MAC_PORT0 := 0;
  RTK_FC_MAC_PORT_PON := 5;
  RTK_FC_MAC_PORT_MAINCPU := 9;
  RTK_FC_MAC_PORT_MASTERCPU_CORE1 := 10;
  RTK_FC_MAC_PORT_SLAVECPU := 7;
  RTK_FC_WLANX_END_INTF := 4;
  RTK_FC_WLANX_NOT_FOUND := 5;
  DEFAULT_FID := 0;
  RTK_FC_WIFI_FID_1 := 1;
  RTK_FC_WIFI_FID_2 := 2;
  RTK_FC_WIFI_FID_END := 3;
  FC_F_SWLUT_PORT_AGG_ENTRY := false;
  skipDel_copied := true;
  _rtk_fc_quickhash_mac_fid mac fid := _rtk_fc_hash_mac_fid mac 0;
  flow_skipAllPsTracking := false;
  l2_skipPsTracking := false;
  hwnat_spec_test := false;
  wifi_tx_gmac_auto_sel_en := true;
  wifi_tx_gmac_trunking_num := 3;
  gmac_tx_trunking w := w =? 0;
  wanAccessLimit_byMac := false;
  ucTimeout_unit1s := 300;
  mcTimeout_unit1s := 300;
  ASICDRIVERVER := 2;
  has_notify := true;
  hostPolice_macs := [];
  fdb_hook _ _ := true;
  neighV4_hook _ := false;
  neighV6_hook _ := false |}.

Definition small_key (e : lut_entry) : list Z * Z := (l2Addr e, svl_fid e).
Definition small_at (h : list (option (list Z * Z))) (x : option (list Z * Z)) (i : nat) : bool :=
  bool_decide (h !! i = Some x).
(** Where a key may go: the two ways of its bucket, then the CAM. *)
Definition small_ways (k : list Z * Z) : list nat :=
  let b := (_rtk_fc_hash_mac_fid k.1 k.2 mod 4)%nat in [(2 * b)%nat; (2 * b + 1)%nat; 8%nat; 9%nat].
Definition small_add (e : lut_entry) (h : list (option (list Z * Z))) : (ret + nat) * list (option (list Z * Z)) :=
  let k := small_key e in
  match List.find (small_at h (Some k)) (seq 0 10) with
  | Some i => (inr i, h)
  | None => match List.find (small_at h None) (small_ways k) with
            | Some i => (inr i, <[i := Some k]> h)
            | None => (inl RTK_FC_RET_ERR_ENTRY_FULL, h)
            end
  end.
Definition small_del (e : lut_entry) (h : list (option (list Z * Z))) : list (option (list Z * Z)) :=
  match List.find (small_at h (Some (small_key e))) (seq 0 10) with
  | Some i => <[i := None]> h
  | None => h
  end.
#[export] Instance small_l2 : L2Hw := {|
  hw := list (option (list Z * Z));
  rtk_fc_api_lut_add := small_add;
  rtk_fc_api_lut_del := small_del;
  rtk_rg_asic_lutSATraffic_get _ h := (0, h);
  rtk_l2_addr_get _ _ := None;
  rtk_l2_addr_add _ _ h := h |}.

(** ** Requests and states *)

(** Closed statements about addresses, slots and answers are decided by evaluation. *)
Ltac small_eval := vm_compute; reflexivity.
Definition small_hw : hw := replicate 10 (@None (list Z * Z)).
Definition small_start : fc_db := lut_init 11 4 (replicate 11 (-1)) small_hw 1000.
(** An address whose hash depends on [x] alone; on port [port], or behind device [w]. *)
Definition small_mac (x y : Z) : list Z := [0; 0; 0; 0; y; x].
Definition small_req (mac : list Z) (port w : Z) (static : bool) : learn_req :=
  LearnReq mac (port, 6) 0 w false static None LUT_DIR_SA_LEARNING.
Definition lan (x y port : Z) : lut_op := OLearn (small_req (small_mac x y) port 5 false).
Definition wifi (x y w : Z) : lut_op := OLearn (small_req (small_mac x y) 9 w false).

(** A full bucket and a full CAM, entered at different times. *)
Definition small_full : fc_db := lut_run [lan 2 0 0; OTick 1010; lan 6 0 0; lan 10 0 0; lan 14 0 0] small_start.
(** Two static entries hold the CAM, the bucket is free again. *)
Definition small_static_cam : fc_db :=
  lut_run [lan 2 0 0; lan 6 0 0; OLearn (small_req (small_mac 10 0) 1 5 true); OLearn (small_req (small_mac 14 0) 1 5 true);
           OLinkDown 0; OGrace 13; OGrace 12] small_start.

(** ** The laws hold *)

#[export] Instance small_laws : LutLaws.
Proof.
  constructor; try done; cbv [small_cfg DEFAULT_FID RTK_FC_LUT_BUCKET_SIZE RTK_FC_WIFI_FID_1 LUTTABLE_BCAM_SIZE RTK_FC_TABLESIZE_LUT wifi_tx_gmac_trunking_num]; try lia.
  - intros mac fid. apply hash_512.
  - intros e h i h'. unfold rtk_fc_api_lut_add, small_l2, small_add; cbv zeta. destruct (List.find _ (seq 0 10)) as [j|] eqn:E.
    + intros [= <- <-]. apply List.find_some in E as [E%list_elem_of_In _]. apply elem_of_seq in E. lia.
    + destruct (List.find (small_at h None) _) as [j|] eqn:E2; [|discriminate]. intros [= <- <-]. apply List.find_some in E2 as [E2 _].
      unfold small_ways in E2. pose proof (Nat.mod_upper_bound (_rtk_fc_hash_mac_fid (small_key e).1 (small_key e).2) 4 ltac:(done)) as Hb.
      revert Hb E2. generalize (_rtk_fc_hash_mac_fid (small_key e).1 (small_key e).2 mod 4)%nat. intros b Hb E2.
      apply list_elem_of_In in E2. rewrite !elem_of_cons in E2. cbv [RTK_FC_TABLESIZE_LUT small_cfg].
      destruct E2 as [->|[->|[->|[->|[]%not_elem_of_nil]]]]; lia.
  - intros e h r h'. unfold rtk_fc_api_lut_add, small_l2, small_add; cbv zeta. destruct (List.find _ (seq 0 10)); [discriminate|].
    destruct (List.find (small_at h None) _); [discriminate|]. by intros [= <- <-].
Qed.
