(* ===== verification/FcLutSpec.v ===== *)
(** * What the layer-2 table guarantees

    The table stays sound under every sequence of operations, an address is found exactly
    when it is in the table, what was learned is found, the oldest entry is evicted,
    deletion terminates, and idle addresses age out.  A small switch with buckets of two
    ways and a CAM shows that the assumptions can be met; runs on it show where the code
    does not do what it means to. *)
From S2P Require Import Prelude FcLut FcLutInv FcLutOps FcLutUnique FcLutSmall.
Open Scope Z_scope.

Section Spec.
Context {cfg : LutConfig} {l2 : L2Hw}.

(** The states that operations lead to after the start. *)
Definition lut_reachable (db : fc_db) : Prop :=
  exists os ports wlans limit h now, db = lut_run os (lut_init ports wlans limit h now).
Lemma reachable_ok {laws : LutLaws} db : lut_reachable db -> ok [] db /\ uniq (mem db).
Proof. intros (os & ports & wlans & limit & h & now & ->). split; [apply run_ok, init_ok|apply run_uniq; [apply init_ok|apply init_uniq]]. Qed.

(** ** Entering, seen from learning *)

(** Nothing but the host-policing index of some entry changes. *)
Lemma hostpol_obj mac m q : exists n, obj q (_rtk_fc_lutHostPolicingIdxUpdate mac m) = set_hostPolIdx n (obj q m).
Proof.
  assert (forall e, exists n, e = set_hostPolIdx n e) as Hid by (intros e; exists (hostPolIdx e); by destruct e).
  unfold _rtk_fc_lutHostPolicingIdxUpdate. repeat case_match; try apply Hid.
  unfold obj, upd. simpl. rewrite list_lookup_alter. case_decide; [subst|apply Hid].
  destruct (objs m !! q) as [e|]; [by eexists|]. apply (Hid entry0).
Qed.
Lemma hostpol_slot mac m i : slot i (_rtk_fc_lutHostPolicingIdxUpdate mac m) = slot i m.
Proof. unfold _rtk_fc_lutHostPolicingIdxUpdate. by repeat case_match. Qed.

Definition untrunked (w : Z) : Prop :=
  (w <? RTK_FC_WLANX_END_INTF) && wifi_tx_gmac_auto_sel_en && gmac_tx_trunking w = false.
Lemma learned_plain r p db : untrunked (lr_wlan r) -> exists db',
  learned r p db = (RTK_FC_RET_OK, Some (lutIdx (obj p (mem db))), db') /\
  mem db' = _rtk_fc_lutHostPolicingIdxUpdate (l2Addr (obj p (mem db))) (mem db).
Proof. intros Hu. unfold learned. rewrite Hu. eexists. split; [done|]. by case_match. Qed.

(** The entry a successful learning leaves behind. *)
Definition placed (r : learn_req) (now : Z) (e : lut_entry) : Prop :=
  l2Addr e = srcMac r /\ svl_fid e = 0 /\ valid e = true /\ last_jiffies e = now /\
  (lr_static r = true \/ (spa e = fst (ingress r) /\ extspa e = snd (ingress r) /\ wlan_dev_idx e = lr_wlan r)).

Lemma entered_placed {laws : LutLaws} r p i q db db1 db2 : ok [p] db -> obj p (mem db) = new_entry r (jiffies db) ->
  eroded p db db1 -> entered p i q db1 db2 -> lutIdx (obj q (mem db2)) = i /\ placed r (jiffies db) (obj q (mem db2)).
Proof.
  intros H Ep He Hen. destruct (eroded_facts _ _ _ _ H He) as (_ & _ & _ & _ & _ & i' & b & E).
  destruct (en_obj _ _ _ _ _ Hen) as [b' ->]. rewrite E, Ep. split; [done|]. unfold placed. simpl. split_and!; auto.
Qed.

Lemma learned_placed r q db i db' : untrunked (lr_wlan r) -> learned r q db = (RTK_FC_RET_OK, Some i, db') ->
  forall now, placed r now (obj q (mem db)) -> slot (lutIdx (obj q (mem db))) (mem db) = Some q ->
  slot i (mem db') = Some q /\ placed r now (obj q (mem db')).
Proof.
  intros Hu E now Hp Hs. destruct (learned_plain r q db Hu) as (db2 & E2 & Em). rewrite E in E2. injection E2 as -> ->.
  rewrite Em, hostpol_slot. split; [done|]. by destruct (hostpol_obj (l2Addr (obj q (mem db))) (mem db) q) as [n ->].
Qed.

Lemma learn_new_placed {laws : LutLaws} r db i db' : ok [] db -> untrunked (lr_wlan r) -> FC_F_SWLUT_PORT_AGG_ENTRY = false ->
  learn_new r db = (RTK_FC_RET_OK, Some i, db') ->
  exists q, slot i (mem db') = Some q /\ placed r (jiffies db) (obj q (mem db')).
Proof.
  intros H Hu Hagg. unfold learn_new. destruct (_rtk_fc_lutEntry_getFromPool (mem db)) as [[p m]|] eqn:Eg; [|done].
  pose proof (get_ok _ _ _ _ (fun _ => new_entry r (jiffies db)) H Eg) as H1. set (db1 := set_mem _ db) in *.
  assert (obj p (mem db1) = new_entry r (jiffies db)) as Ep.
  { unfold db1. simpl. rewrite obj_upd_eq; [done|]. destruct (get_wf _ _ _ _ H Eg) as (Hw & _). eapply wf_bound; [done|left; left]. }
  destruct (add_or_evict _ p _ db1) as [x db2] eqn:Ea. pose proof (add_or_evict_spec _ _ _ _ _ _ _ H1 Ea) as Hs.
  destruct x as [x| |].
  - destruct x; try done. destruct Hs as (Hok & j & db3 & He & Hen). intros El.
    destruct (entered_placed r p j p db1 db3 db2 H1 Ep He Hen) as [Ei Hpl].
    exists p. eapply learned_placed; [done|exact El|done|]. rewrite Ei. apply (en_slot _ _ _ _ _ Hen).
  - destruct Hs as (Hok & q & Hqp & Hen). pose proof (en_slot _ _ _ _ _ Hen) as Hsl.
    destruct (entered_placed r p _ q db1 db1 db2 H1 Ep (rtc_refl _ _) Hen) as [Ei Hpl].
    change (slot (lutIdx (obj p (mem (return_obj p db2)))) (mem (return_obj p db2))) with
      (slot (lutIdx (obj p (mem db2))) (mem db2)). rewrite Hsl. intros El.
    exists q. eapply learned_placed; [done|exact El|exact Hpl|]. simpl.
    change (slot (lutIdx (obj q (mem db2))) (mem db2) = Some q). by rewrite Ei.
  - unfold port_agg_allowed. rewrite Hagg. done.
Qed.

Lemma absent_placed {laws : LutLaws} r db i db' : ok [] db -> untrunked (lr_wlan r) -> FC_F_SWLUT_PORT_AGG_ENTRY = false ->
  learn_absent r db = (RTK_FC_RET_OK, Some i, db') ->
  exists q, slot i (mem db') = Some q /\ placed r (jiffies db) (obj q (mem db')).
Proof.
  intros H Hu Hagg. unfold learn_absent. destruct (_ && _ && _); [done|].
  destruct (bool_decide _); [|done]. by apply learn_new_placed.
Qed.

Lemma find_holder {laws : LutLaws} db mac p i : ok [] db -> uniq (mem db) -> slot i (mem db) = Some p ->
  holds mac 0 p (mem db) -> _rtk_fc_lut_find_fid mac 0 (mem db) = Some i.
Proof.
  intros H [Hu _] Hs Hp. pose proof (find_fid_spec _ _ mac 0 H) as Hf.
  destruct (_rtk_fc_lut_find_fid mac 0 (mem db)) as [j|]; [|by destruct (Hf p)].
  destruct Hf as (q & Hj & Hq). rewrite (Hu _ _ _ Hp Hq) in Hs. f_equal. by eapply slot_inj.
Qed.
(** ** The age of entries, on a clock that wraps *)

Definition lru_age (now : Z) (e : lut_entry) : Z := u32 (now - last_jiffies e).
Lemma s32_diff x d : (x - d) mod 2 ^ 32 = 0 -> - 2 ^ 31 <= d < 2 ^ 31 -> s32 x = d.
Proof.
  intros Hx Hd. unfold s32. apply Z.mod_divide in Hx as [k Hk]; [|lia].
  replace (x + 2 ^ 31) with (d + 2 ^ 31 + k * 2 ^ 32) by lia. rewrite Z.mod_add, Z.mod_small by lia. lia.
Qed.
Lemma age_mod now e : exists k, lru_age now e = now - last_jiffies e + k * 2 ^ 32.
Proof.
  unfold lru_age, u32. exists (- ((now - last_jiffies e) / 2 ^ 32)).
  pose proof (Z.div_mod (now - last_jiffies e) (2 ^ 32)). lia.
Qed.
Lemma older_iff now a b : lru_age now a < 2 ^ 31 -> lru_age now b < 2 ^ 31 ->
  time_after (last_jiffies a) (last_jiffies b) = true <-> lru_age now a < lru_age now b.
Proof.
  intros Ha Hb. pose proof (u32_range (now - last_jiffies a)) as Ra. pose proof (u32_range (now - last_jiffies b)) as Rb.
  unfold is_u32 in *. fold (lru_age now a) in Ra. fold (lru_age now b) in Rb.
  destruct (age_mod now a) as [ka Ea], (age_mod now b) as [kb Eb]. unfold time_after.
  rewrite (s32_diff _ (lru_age now a - lru_age now b)); [bool_to_prop; rewrite Z.ltb_lt; lia| |lia].
  rewrite Ea, Eb. replace (_ - _) with ((kb - ka) * 2 ^ 32) by lia. apply Z.mod_mul. lia.
Qed.
Lemma first_pick now e : lru_age now e < 2 ^ 31 -> time_after (u32 (now + 1)) (last_jiffies e) = true.
Proof.
  intros He. pose proof (u32_range (now - last_jiffies e)) as Re. fold (lru_age now e) in Re. unfold is_u32 in Re.
  destruct (age_mod now e) as [k Ek]. unfold time_after.
  rewrite (s32_diff _ (- 1 - lru_age now e)); [apply Z.ltb_lt; lia| |lia].
  unfold u32. pose proof (Z.div_mod (now + 1) (2 ^ 32)) as Hd.
  replace (_ - _) with ((k + (now + 1) / 2 ^ 32) * 2 ^ 32) by lia. apply Z.mod_mul. lia.
Qed.

(** ** The victim *)

(** What an eviction may throw out: dynamic unicast entries. *)
Definition evictable (m : lut_mem) (p : nat) : Prop :=
  isStatic (obj p m) = false /\ is_multicast (l2Addr (obj p m)) = false.
(** [o], with its time [t], is the oldest entry of [l] for which [c] holds. *)
Definition oldest (m : lut_mem) (now : Z) (c : lut_entry -> bool) (l : list nat) (t : Z) (o : option nat) : Prop :=
  match o with
  | None => t = u32 (now + 1) /\ forall q, q ∈ l -> evictable m q -> c (obj q m) = false
  | Some p => p ∈ l /\ evictable m p /\ c (obj p m) = true /\ t = last_jiffies (obj p m) /\
      forall q, q ∈ l -> evictable m q -> c (obj q m) = true -> lru_age now (obj q m) <= lru_age now (obj p m)
  end.

Lemma oldest_skip m now c l t o x : oldest m now c l t o -> (evictable m x -> c (obj x m) = false) -> oldest m now c (l ++ [x]) t o.
Proof.
  destruct o as [p|]; simpl.
  - intros (Hp & ? & ? & ? & Ho) Hx. split_and!; try done; [apply elem_of_app; by left|].
    intros q [Hq|Hq%list_elem_of_singleton]%elem_of_app; [by apply Ho|]. subst q. intros He Hc. by rewrite Hx in Hc.
  - intros [? Ho] Hx. split; [done|]. intros q [Hq|Hq%list_elem_of_singleton]%elem_of_app; [by apply Ho|]. by subst q.
Qed.
Lemma oldest_visit m now c l t o x : (forall q, q ∈ l ++ [x] -> evictable m q -> lru_age now (obj q m) < 2 ^ 31) ->
  evictable m x -> c (obj x m) = true -> oldest m now c l t o ->
  if time_after t (last_jiffies (obj x m)) then oldest m now c (l ++ [x]) (last_jiffies (obj x m)) (Some x)
  else oldest m now c (l ++ [x]) t o.
Proof.
  intros Hage' Hx Hc Ho. assert (lru_age now (obj x m) < 2 ^ 31) as Hax by (apply Hage'; [apply elem_of_app; right; by left|done]).
  assert (forall q, q ∈ l -> evictable m q -> lru_age now (obj q m) < 2 ^ 31) as Hage by (intros q Hq; apply Hage', elem_of_app; by left).
  destruct o as [p|]; simpl in Ho.
  - destruct Ho as (Hp & He & Hcp & -> & Hmax).
    pose proof (older_iff now (obj p m) (obj x m) (Hage _ Hp He) Hax) as Hiff.
    destruct (time_after _ _); simpl.
    + assert (lru_age now (obj p m) < lru_age now (obj x m)) as Hlt by by apply Hiff.
      split_and!; try done; [apply elem_of_app; right; by left|apply Hx..|].
      intros q [Hq|Hq%list_elem_of_singleton]%elem_of_app He' Hc'; [specialize (Hmax q Hq He' Hc'); lia|subst q; lia].
    + assert (~ lru_age now (obj p m) < lru_age now (obj x m)) as Hlt by (intros H; apply Hiff in H; done).
      split_and!; try done; [apply elem_of_app; by left|apply He..|].
      intros q [Hq|Hq%list_elem_of_singleton]%elem_of_app He' Hc'; [by apply Hmax|subst q; lia].
  - destruct Ho as [-> Hno]. rewrite first_pick by done. simpl.
    split_and!; try done; [apply elem_of_app; right; by left|apply Hx..|].
    intros q [Hq|Hq%list_elem_of_singleton]%elem_of_app He' Hc'; [by rewrite Hno in Hc'|subst q; lia].
Qed.

Lemma lru_scan m now l : (forall q, q ∈ l -> evictable m q -> lru_age now (obj q m) < 2 ^ 31) ->
  let '((tn, pn), (tf, pf)) := foldl (lru_visit m) ((u32 (now + 1), None), (u32 (now + 1), None)) l in
  oldest m now (fun e => negb (anyFlowEstablish e)) l tn pn /\ (pn = None -> oldest m now anyFlowEstablish l tf pf).
Proof.
  intros Hage. induction l as [|x l IH] using rev_ind; simpl.
  { split; [|intros _]; (split; [done|]); intros q []%not_elem_of_nil. }
  specialize (IH (fun q Hq => Hage q (proj2 (elem_of_app _ _ _) (or_introl Hq)))).
  rewrite foldl_app. destruct (foldl _ _ l) as [[tn pn] [tf pf]]. destruct IH as [Hn Hf]. simpl.
  destruct (isStatic (obj x m) || is_multicast (l2Addr (obj x m))) eqn:Es.
  { assert (~ evictable m x) as Hx by (intros [H1 H2]; by rewrite H1, H2 in Es).
    split; [|intros E; specialize (Hf E)]; apply oldest_skip; done. }
  assert (evictable m x) as Hx by (unfold evictable; by bool_to_prop).
  destruct (bool_decide (is_Some pn) && anyFlowEstablish (obj x m)) eqn:Eb.
  { apply andb_true_iff in Eb as [Eb Efl]. apply bool_decide_eq_true in Eb as [p ->].
    split; [|done]. apply oldest_skip; [done|]. by rewrite Efl. }
  destruct (anyFlowEstablish (obj x m)) eqn:Efl.
  - assert (pn = None) as ->.
    { rewrite andb_true_r in Eb. apply bool_decide_eq_false in Eb. destruct pn; [by destruct Eb|done]. }
    specialize (Hf eq_refl). pose proof (oldest_visit _ _ _ _ _ _ x Hage Hx Efl Hf) as Hv.
    destruct (time_after tf _); (split; [apply oldest_skip; [done|]; by rewrite Efl|done]).
  - pose proof (oldest_visit m now (fun e => negb (anyFlowEstablish e)) l tn pn x Hage Hx) as Hv.
    cbv beta in Hv. rewrite Efl in Hv. specialize (Hv eq_refl Hn). destruct (time_after tn _); (split; [done|]); [done|].
    intros ->. apply oldest_skip; [by apply Hf|]. by rewrite Efl.
Qed.

(** ** House keeping *)

(** A deletion spares every other entry of the default filter id. *)
Lemma del_fuel_spares {laws : LutLaws} fl n q : forall p f db, ok fl db -> in_table p (mem db) -> q <> p -> svl_fid (obj q (mem db)) = 0 ->
  obj q (mem (del_fuel n p f db)) = obj q (mem db).
Proof.
  induction n as [|n IH]; intros p f db H Ht Hq Hf; simpl; [done|].
  destruct (valid (obj p (mem db))) eqn:Hv; simpl; [|done]. destruct (isStatic (obj p (mem db))) eqn:Hs; [done|].
  assert (obj q (mem (del_one p f db)) = obj q (mem db)) as E1.
  { destruct (del_one_eq p f db) as (h & ev & ->). simpl. by rewrite obj_del_mem, obj_invalid, decide_False. }
  pose proof (del_one_ok _ p f db H Ht Hv) as H1. case_match; [|done]. rewrite <- E1 in Hf |- *. clear E1.
  assert (Forall (fun k => k <> 0) (seqZ RTK_FC_WIFI_FID_1 (RTK_FC_WIFI_FID_END - RTK_FC_WIFI_FID_1))) as Hk.
  { apply Forall_forall. intros k Hk%elem_of_seqZ. pose proof fid_1_pos. lia. }
  revert H1 Hf Hk. generalize (del_one p f db). generalize (seqZ RTK_FC_WIFI_FID_1 (RTK_FC_WIFI_FID_END - RTK_FC_WIFI_FID_1)).
  induction l as [|k l IHl]; intros db1 H1 Hf Hk; [done|]. simpl. apply Forall_cons in Hk as [Hk0 Hk].
  pose proof (find_fid_spec _ _ (l2Addr (obj p (mem db))) k H1) as Hfind.
  destruct (_rtk_fc_lut_find_fid _ k (mem db1)) as [i|]; [|by apply IHl].
  destruct Hfind as (x & Hx & Hh). rewrite Hx.
  assert (q <> x) as Hqx by (intros ->; destruct Hh as (_ & _ & _ & Hh); congruence).
  assert (obj q (mem (del_fuel n x f db1)) = obj q (mem db1)) as Es by (apply IH; try done; apply Hh).
  rewrite IHl; [done|apply del_fuel_ok; [done|apply Hh]|by rewrite Es|done].
Qed.

(** An entry the house keeping lets go: dynamic, and idle for longer than its timeout. *)
Definition expired (db : fc_db) (p : nat) : Prop :=
  let e := obj p (mem db) in
  isStatic e = false /\
  idle (if is_multicast (l2Addr e) then mcTimeout_unit1s else ucTimeout_unit1s) e db = true.
Definition spares (db db' : fc_db) : Prop := forall q, svl_fid (obj q (mem db)) = 0 -> ~ expired db q ->
  obj q (mem db') = obj q (mem db).
Definition cleared (i : nat) (db : fc_db) : Prop := forall p, slot i (mem db) = Some p ->
  valid (obj p (mem db)) = true -> svl_fid (obj p (mem db)) = 0 -> ~ expired db p.

Lemma expired_same db db' p : jiffies db' = jiffies db -> obj p (mem db') = obj p (mem db) -> expired db' p <-> expired db p.
Proof. intros Hj E. unfold expired, idle. by rewrite Hj, E. Qed.
Lemma spares_trans db1 db2 db3 : jiffies db2 = jiffies db1 -> spares db1 db2 -> spares db2 db3 -> spares db1 db3.
Proof.
  intros Hj H1 H2 q Hf He. pose proof (H1 q Hf He) as E. rewrite <- E. apply H2; [by rewrite E|].
  by rewrite (expired_same _ _ _ Hj E).
Qed.
Lemma cleared_shrinks i db db' : shrinks db db' -> cleared i db -> cleared i db'.
Proof.
  intros H Hc p Hs Hv Hf. rewrite (shrinks_slot _ _ _ H) in Hs. pose proof (shrinks_valid _ _ _ H Hv) as E.
  rewrite (expired_same _ _ _ (sh_jiffies _ _ H) E). rewrite E in Hv, Hf. by apply Hc.
Qed.

(** One slot when the switch has not seen its address. *)
Definition hushed (seen : nat -> fc_db -> option bool * fc_db) : Prop := forall p db, seen p db = (Some false, db).
Lemma expire_spec {laws : LutLaws} i p db t : ok [] db -> slot i (mem db) = Some p -> isStatic (obj p (mem db)) = false ->
  t = (if is_multicast (l2Addr (obj p (mem db))) then mcTimeout_unit1s else ucTimeout_unit1s) ->
  let db' := expire t p db in ok [] db' /\ shrinks db db' /\ spares db db' /\ cleared i db'.
Proof.
  intros H Hs Hst -> db'. unfold db', expire. assert (in_table p (mem db)) as Ht by by exists i.
  destruct (idle _ _ db) eqn:Ei.
  - split_and!; [by apply del_ok|apply del_shrinks| |].
    + intros q Hf He. apply (del_fuel_spares [] _ q); try done. intros ->. by apply He.
    + intros q Hq Hv. rewrite (shrinks_slot _ _ _ (del_shrinks p false db)), Hs in Hq. injection Hq as <-.
      by rewrite del_invalid in Hv.
  - split_and!; [done|apply shrinks_refl|done|]. intros q Hq _ _ [_ Hi]. rewrite Hs in Hq. injection Hq as <-. congruence.
Qed.
Lemma check_slot_quiet {laws : LutLaws} seen i db : hushed seen -> ok [] db ->
  let db' := check_slot seen i db in ok [] db' /\ shrinks db db' /\ spares db db' /\ cleared i db'.
Proof.
  intros Hq H db'. unfold db', check_slot. destruct (slot i (mem db)) as [p|] eqn:Es.
  2: { split_and!; [done|apply shrinks_refl|done|]. intros p Hp. congruence. }
  destruct (negb _ || negb _) eqn:Ev.
  { split_and!; [done|apply shrinks_refl|done|]. intros q Hp Hv Hf. rewrite Es in Hp. injection Hp as <-.
    by rewrite Hv, Hf in Ev. }
  assert (isStatic (obj p (mem db)) = true -> ok [] db /\ shrinks db db /\ spares db db /\ cleared i db) as Hst.
  { intros Hst. split_and!; [done|apply shrinks_refl|done|]. intros q Hp _ _ [He _]. rewrite Es in Hp. injection Hp as <-. congruence. }
  rewrite Hq. destruct (is_multicast (l2Addr (obj p (mem db)))) eqn:Em;
    (destruct (isStatic (obj p (mem db))) eqn:E; [by apply Hst|]); apply expire_spec; try done; by rewrite Em.
Qed.

(** A list of slots, one after the other; the state of the switch may change in between. *)
Lemma check_all {laws : LutLaws} {A} (g : fc_db -> A -> fc_db) (covers : A -> nat -> Prop) l db :
  (forall db a, ok [] db -> ok [] (g db a) /\ shrinks db (g db a) /\ spares db (g db a) /\ forall i, covers a i -> cleared i (g db a)) ->
  ok [] db -> let db' := foldl g db l in
  ok [] db' /\ shrinks db db' /\ spares db db' /\ forall a i, a ∈ l -> covers a i -> cleared i db'.
Proof.
  intros Hg. revert db. induction l as [|a l IH]; intros db H; simpl.
  { split_and!; [done|apply shrinks_refl|done|]. by intros ? ? []%not_elem_of_nil. }
  destruct (Hg db a H) as (H1 & S1 & P1 & C1). destruct (IH _ H1) as (H2 & S2 & P2 & C2).
  split_and!; [done|by eapply shrinks_trans|by eapply spares_trans; [apply (sh_jiffies _ _ S1)|..]|].
  intros b i [-> | Hb]%elem_of_cons Hc; [|by eapply C2]. eapply cleared_shrinks; [done|]. by apply C1.
Qed.

(** A switch on which nothing moves, polled by traffic bits. *)
Definition quiet_switch : Prop :=
  (ASICDRIVERVER =? 1) = false /\ forall s h, fst (rtk_rg_asic_lutSATraffic_get s h) = 0.

Lemma check_block_quiet {laws : LutLaws} start db : quiet_switch -> ok [] db ->
  let db' := check_block start db in ok [] db' /\ shrinks db db' /\ spares db db' /\
  forall i, (start <= i < Nat.min (start + 32) RTK_FC_TABLESIZE_LUT)%nat -> cleared i db'.
Proof.
  intros [_ Hq] H db'. unfold db', check_block. specialize (Hq start (hwst db)).
  destruct (rtk_rg_asic_lutSATraffic_get start (hwst db)) as [mask h]. simpl in Hq. subst mask.
  set (db1 := set_hwst h db).
  destruct (check_all (fun db i => check_slot (fun _ db => (Some (Z.testbit 0 (Z.of_nat (i - start))), db)) i db)
    (fun a i => i = a) (seq start (Nat.min (start + 32) RTK_FC_TABLESIZE_LUT - start)) db1) as (H1 & S1 & P1 & C1); [|done|].
  { intros db2 a H2. destruct (check_slot_quiet (fun _ db => (Some (Z.testbit 0 (Z.of_nat (a - start))), db)) a db2) as (? & ? & ? & ?).
    - intros p db3. by rewrite Z.bits_0.
    - done.
    - split_and!; try done. by intros i ->. }
  split_and!; [done| |done|].
  - destruct S1. by constructor.
  - intros i Hi. apply (C1 i); [|done]. apply elem_of_seq. lia.
Qed.

Lemma round_quiet {laws : LutLaws} db : quiet_switch -> ok [] db ->
  let db' := _rtk_fc_lut_timeoutCheck db in
  ok [] db' /\ shrinks db db' /\ spares db db' /\ l2_hkCurIdx db' = next_window (l2_hkCurIdx db) /\
  forall i, (l2_hkCurIdx db <= i < window_end (l2_hkCurIdx db))%nat -> cleared i db'.
Proof.
  intros Hq H db'. unfold db', _rtk_fc_lut_timeoutCheck. rewrite (proj1 Hq).
  unfold _rtk_fc_lut_timeout_byCheckTrfBits. set (cur := l2_hkCurIdx db).
  destruct (check_all (fun db k => check_block (cur + 32 * k) db)
    (fun k i => (cur + 32 * k <= i < Nat.min (cur + 32 * k + 32) RTK_FC_TABLESIZE_LUT)%nat)
    (seq 0 ((window_end cur - cur + 31) / 32)) db) as (H1 & S1 & P1 & C1); [|done|].
  { intros db2 k H2. by apply check_block_quiet. }
  split_and!; [done| |done|done|].
  - destruct S1. by constructor.
  - intros i Hi. apply (C1 ((i - cur) / 32)%nat).
    + apply elem_of_seq. split; [lia|]. apply Nat.Div0.div_lt_upper_bound.
      pose proof (Nat.div_mod (window_end cur - cur + 31) 32 ltac:(done)).
      pose proof (Nat.mod_upper_bound (window_end cur - cur + 31) 32 ltac:(done)). lia.
    + pose proof (Nat.div_mod (i - cur) 32 ltac:(done)). pose proof (Nat.mod_upper_bound (i - cur) 32 ltac:(done)).
      unfold window_end in Hi. lia.
Qed.

(** The window comes round. *)
Definition hk_rounds : nat := 2 * (RTK_FC_TABLESIZE_LUT / L2HOUSE_KEEP_NUM + 1).
Lemma window_restarts cur : (0 < L2HOUSE_KEEP_NUM)%nat ->
  exists k, (k <= (RTK_FC_TABLESIZE_LUT - cur) / L2HOUSE_KEEP_NUM + 1)%nat /\ Nat.iter k next_window cur = 0%nat.
Proof.
  intros Hn. remember (RTK_FC_TABLESIZE_LUT - cur)%nat as d eqn:Ed. revert cur Ed.
  induction (lt_wf d) as [d _ IH]. intros cur Ed.
  destruct (Nat.ltb_spec RTK_FC_TABLESIZE_LUT (cur + L2HOUSE_KEEP_NUM)) as [Hl|Hl].
  - exists 1%nat. simpl. unfold next_window. apply Nat.ltb_lt in Hl. rewrite Hl. split; [lia|done].
  - destruct (IH (d - L2HOUSE_KEEP_NUM)%nat ltac:(lia) (cur + L2HOUSE_KEEP_NUM)%nat ltac:(lia)) as (k & Hk & E).
    exists (S k). rewrite Nat.iter_succ_r. unfold next_window at 2. rewrite (proj2 (Nat.ltb_ge _ _) Hl). split; [|done].
    assert (d / L2HOUSE_KEEP_NUM = (d - L2HOUSE_KEEP_NUM) / L2HOUSE_KEEP_NUM + 1)%nat as ->; [|lia].
    replace d with (d - L2HOUSE_KEEP_NUM + 1 * L2HOUSE_KEEP_NUM)%nat at 1 by lia. rewrite Nat.div_add by lia. done.
Qed.
Lemma window_reaches i : (0 < L2HOUSE_KEEP_NUM)%nat -> (i < RTK_FC_TABLESIZE_LUT)%nat ->
  let k := (i / L2HOUSE_KEEP_NUM)%nat in Nat.iter k next_window 0%nat = (k * L2HOUSE_KEEP_NUM)%nat.
Proof.
  intros Hn Hi. cbv zeta. assert (i / L2HOUSE_KEEP_NUM * L2HOUSE_KEEP_NUM <= i)%nat as Hle
    by (rewrite Nat.mul_comm; apply Nat.Div0.mul_div_le).
  revert Hle. generalize (i / L2HOUSE_KEEP_NUM)%nat. induction n as [|n IH]; intros Hle; [done|].
  rewrite Nat.iter_succ, IH by lia. unfold next_window. rewrite (proj2 (Nat.ltb_ge _ _)) by lia. lia.
Qed.
Lemma window_visits cur i : (0 < L2HOUSE_KEEP_NUM)%nat -> (i < RTK_FC_TABLESIZE_LUT)%nat ->
  exists k, (k < hk_rounds)%nat /\ (Nat.iter k next_window cur <= i < window_end (Nat.iter k next_window cur))%nat.
Proof.
  intros Hn Hi. destruct (window_restarts cur Hn) as (k & Hk & E).
  pose proof (window_reaches i Hn Hi) as E2. cbv zeta in E2. set (j := (i / L2HOUSE_KEEP_NUM)%nat) in *.
  exists (j + k)%nat. rewrite Nat.iter_add, E, E2. unfold window_end.
  pose proof (Nat.div_mod i L2HOUSE_KEEP_NUM ltac:(lia)) as Hd. pose proof (Nat.mod_upper_bound i L2HOUSE_KEEP_NUM ltac:(lia)).
  fold j in Hd. split; [|lia]. unfold hk_rounds.
  assert (j <= RTK_FC_TABLESIZE_LUT / L2HOUSE_KEEP_NUM)%nat by (apply Nat.Div0.div_le_mono; lia).
  assert ((RTK_FC_TABLESIZE_LUT - cur) / L2HOUSE_KEEP_NUM <= RTK_FC_TABLESIZE_LUT / L2HOUSE_KEEP_NUM)%nat
    by (apply Nat.Div0.div_le_mono; lia). lia.
Qed.

Lemma rounds_quiet {laws : LutLaws} n db : quiet_switch -> ok [] db ->
  let db' := Nat.iter n _rtk_fc_lut_timeoutCheck db in
  ok [] db' /\ shrinks db db' /\ spares db db' /\ l2_hkCurIdx db' = Nat.iter n next_window (l2_hkCurIdx db) /\
  forall k i, (k < n)%nat -> (Nat.iter k next_window (l2_hkCurIdx db) <= i < window_end (Nat.iter k next_window (l2_hkCurIdx db)))%nat ->
    cleared i db'.
Proof.
  intros Hq H. induction n as [|n IH]; cbv zeta; simpl.
  { split_and!; [done|apply shrinks_refl|done|done|]. intros; lia. }
  destruct IH as (H1 & S1 & P1 & E1 & C1). destruct (round_quiet _ Hq H1) as (H2 & S2 & P2 & E2 & C2). cbv zeta in *.
  split_and!; [done|by eapply shrinks_trans|by eapply spares_trans; [apply (sh_jiffies _ _ S1)|..]|by rewrite E2, E1|].
  intros k i Hk Hi. destruct (decide (k = n)) as [->|Hn].
  - apply C2. by rewrite E1.
  - eapply cleared_shrinks; [done|]. by apply (C1 k); [lia|].
Qed.

(** ** Theorems *)

(** C12: whatever sequence of learning, deletion, link changes, reconfiguration, house
    keeping and RCU callbacks happens, the table stays sound: every object is in exactly
    one place, free or in one slot, the hash chains hold exactly the valid entries, a
    pending callback frees only what is dead, no address is in the table twice under the
    default filter id, and with more objects than slots the pool never runs dry.  (A station
    behind trunked ports has further entries, its copies under the filter ids 1 to 3, so its
    address is in several slots: [trunked_station_has_copies].) *)
Theorem lut_stays_sound {laws : LutLaws} os ports wlans limit h now :
  let m := mem (lut_run os (lut_init ports wlans limit h now)) in
  lut_wf [] m /\ uniq m /\
  ((RTK_FC_TABLESIZE_LUT < RTK_FC_LUTENTRY_POOL_SIZE)%nat -> is_Some (_rtk_fc_lutEntry_getFromPool m)).
Proof.
  destruct (reachable_ok (lut_run os (lut_init ports wlans limit h now))) as [H Hu]; [by repeat eexists|].
  split_and!; [done|done|]. by apply pool_not_dry.
Qed.

(** C13: a search by address and filter id answers a slot exactly when a valid entry of the
    table has that key, and for the default id it answers the slot of that entry; the
    search that ignores filter ids finds an address exactly when some entry has it. *)
Theorem lut_find_exact {laws : LutLaws} db mac : lut_reachable db ->
  (forall i, _rtk_fc_lut_find_fid mac 0 (mem db) = Some i <-> exists p, slot i (mem db) = Some p /\ holds mac 0 p (mem db)) /\
  (forall fid, is_Some (_rtk_fc_lut_find_fid mac fid (mem db)) <-> exists p, holds mac fid p (mem db)) /\
  (is_Some (_rtk_fc_lut_find mac (mem db)) <-> exists p fid, holds mac fid p (mem db)).
Proof.
  intros Hr. destruct (reachable_ok _ Hr) as [H Hu]. split_and!.
  - intros i. split.
    + intros E. pose proof (find_fid_spec _ _ mac 0 H) as Hf. by rewrite E in Hf.
    + intros (p & Hs & Hp). by eapply find_holder.
  - intros fid. pose proof (find_fid_spec _ _ mac fid H) as Hf. destruct (_rtk_fc_lut_find_fid mac fid (mem db)).
    + destruct Hf as (p & _ & Hp). split; eauto.
    + split; [by intros [? ?]|intros [p Hp]; by destruct (Hf p)].
  - pose proof (find_spec _ _ mac H) as Hf. destruct (_rtk_fc_lut_find mac (mem db)).
    + destruct Hf as (p & fid & _ & Hp). split; eauto.
    + split; [by intros [? ?]|intros (p & fid & Hp); by destruct (Hf fid p)].
Qed.

(** C14: when learning reports success for an address that is not spread over trunked
    ports, and entries that stand for a whole port are not configured
    (FC_F_SWLUT_PORT_AGG_ENTRY is off: with it, learning in a full table may answer with
    such an entry), the search finds the address at the reported slot, and the entry there
    is fresh and, unless the request was static, on the port and device of the request. *)
Theorem learned_address_is_found {laws : LutLaws} r db i db' : lut_reachable db ->
  untrunked (lr_wlan r) -> FC_F_SWLUT_PORT_AGG_ENTRY = false ->
  _rtk_fc_lut_learning r db = (RTK_FC_RET_OK, Some i, db') ->
  _rtk_fc_lut_find_fid (srcMac r) 0 (mem db') = Some i /\
  exists p, slot i (mem db') = Some p /\ placed r (jiffies db) (obj p (mem db')).
Proof.
  intros Hr Hu Hagg E. destruct (reachable_ok _ Hr) as [H Hun].
  pose proof (learning_ok r db H) as H'. pose proof (learning_uniq r db H Hun) as Hun'. rewrite E in H', Hun'. simpl in *.
  enough (exists p, slot i (mem db') = Some p /\ placed r (jiffies db) (obj p (mem db'))) as (p & Hs & Hp).
  { split; [|by exists p]. eapply find_holder; [done..|]. destruct Hp as (? & ? & ? & _). split_and!; try done. by exists i. }
  unfold _rtk_fc_lut_learning in E. destruct (learn_guard r); [done|].
  pose proof (learning_search r db H Hun) as Hs.
  destruct (List.find _ _) as [p|]; [|by eapply absent_placed].
  destruct (same_place r (obj p (mem db))) eqn:Esp.
  - assert (i = lutIdx (obj p (mem db)) /\ db' = on_mem (upd p (refresh r (jiffies db))) db) as [-> ->] by (split; congruence).
    destruct Hs as ((j & Hj) & Hv & Hm & Hf). exists p.
    rewrite (wf_idx _ _ H _ _ Hj). split; [done|]. simpl.
    rewrite obj_upd_eq by (eapply wf_bound; [exact H|right; by exists j]).
    destruct (refresh_core r (jiffies db) (obj p (mem db))) as (E1 & E2 & _ & E4 & _).
    unfold placed. rewrite E1, E2, E4. split_and!; try done.
    unfold same_place in Esp. destruct (lr_static r) eqn:Est; [by left|right]. simpl in Esp. bool_to_prop.
    unfold refresh. rewrite Est. case_match; simpl; split_and!; lia.
  - destruct (isStatic (obj p (mem db))); [done|]. rewrite <- (sh_jiffies _ _ (del_shrinks p false db)).
    eapply absent_placed; [apply del_ok; [done|apply Hs]|done..].
Qed.

(** As long as no candidate is older than half the range of the clock, the victim of an
    eviction is a dynamic unicast entry of the bucket or the CAM; it carries flows only if
    all of them do, and it is the one not used for longest among its like.  There is a
    victim exactly when there is a candidate. *)
Theorem eviction_takes_the_oldest h db :
  let m := mem db in
  let l := chain h (lut_hash_list_head m) ++ cam_entries m in
  (forall q, q ∈ l -> evictable m q -> lru_age (jiffies db) (obj q m) < 2 ^ 31) ->
  match lru_victim h db with
  | None => forall q, q ∈ l -> ~ evictable m q
  | Some p => p ∈ l /\ evictable m p /\ forall q, q ∈ l -> evictable m q ->
      (anyFlowEstablish (obj p m) = true -> anyFlowEstablish (obj q m) = true) /\
      (anyFlowEstablish (obj q m) = anyFlowEstablish (obj p m) ->
       lru_age (jiffies db) (obj q m) <= lru_age (jiffies db) (obj p m))
  end.
Proof.
  intros m l Hage. unfold lru_victim. fold m. change (default [] (lut_hash_list_head m !! h)) with (chain h (lut_hash_list_head m)).
  fold l. pose proof (lru_scan m (jiffies db) l Hage) as Hs. destruct (foldl _ _ l) as [[tn pn] [tf pf]].
  destruct Hs as [Hn Hf]. destruct pn as [p|].
  - destruct Hn as (Hp & He & Hc & _ & Hmax). split_and!; [done..|]. intros q Hq Heq. apply negb_true_iff in Hc.
    rewrite Hc. split; [done|]. intros E. apply Hmax; try done. by rewrite E.
  - specialize (Hf eq_refl). destruct Hn as [_ Hn].
    assert (forall q, q ∈ l -> evictable m q -> anyFlowEstablish (obj q m) = true) as Hall
      by (intros q Hq He; by apply negb_false_iff, Hn).
    destruct pf as [p|].
    + destruct Hf as (Hp & He & Hc & _ & Hmax). split_and!; [done..|]. intros q Hq Heq. split; auto.
    + intros q Hq He. destruct Hf as [_ Hf]. specialize (Hf q Hq He). rewrite Hall in Hf; done.
Qed.

(** C15: deleting an entry, with all its duplicates, terminates: however much fuel there is
    beyond the number of valid entries, the result is the one of [RTK_FC_LUT_DEL]. *)
Theorem lut_deletion_terminates n p f db : (n_valid db < n)%nat -> del_fuel n p f db = RTK_FC_LUT_DEL p f db.
Proof.
  intros Hn. apply del_fuel_enough; [done|]. unfold n_valid.
  pose proof (length_filter (fun e => valid e = true) (objs (mem db))). lia.
Qed.

(** C16: on a switch that is polled by traffic bits (every driver version but 1, which polls
    by age) and on which nothing moves, so that it reports no traffic for any slot, and at
    one moment of the clock: after two turns of the house-keeping window an entry of the
    default filter id is still valid exactly when it was valid and at that moment static or
    not idle beyond its timeout. *)
Theorem idle_addresses_age_out {laws : LutLaws} n db p : lut_reachable db -> quiet_switch ->
  (0 < L2HOUSE_KEEP_NUM)%nat -> (hk_rounds <= n)%nat -> in_table p (mem db) -> svl_fid (obj p (mem db)) = 0 ->
  valid (obj p (mem (Nat.iter n _rtk_fc_lut_timeoutCheck db))) = true <->
  valid (obj p (mem db)) = true /\ ~ expired db p.
Proof.
  intros Hr Hq Hnum Hn [i Hi] Hf. destruct (reachable_ok _ Hr) as [H _].
  destruct (rounds_quiet n db Hq H) as (H1 & S1 & P1 & _ & C1). cbv zeta in *. set (db' := Nat.iter n _ db) in *. split.
  - intros Hv. pose proof (shrinks_valid _ _ _ S1 Hv) as E. rewrite E in Hv. split; [done|].
    destruct (window_visits (l2_hkCurIdx db) i Hnum) as (k & Hk & Hw).
    { rewrite <- (wf_tbl _ _ H). eapply lookup_lt_Some. by apply slot_lookup. }
    specialize (C1 k i ltac:(lia) Hw p). rewrite (shrinks_slot _ _ _ S1), E in C1.
    by rewrite <- (expired_same _ _ _ (sh_jiffies _ _ S1) E); apply C1.
  - intros [Hv He]. by rewrite (P1 p Hf He).
Qed.
End Spec.

(** ** Runs on the small switch *)

Lemma forallb_elem {A} (f : A -> bool) l : forallb f l = true -> forall x, x ∈ l -> f x = true.
Proof. intros H x Hx. rewrite forallb_forall in H. by apply H, list_elem_of_In. Qed.
Lemma small_reachable os : lut_reachable (lut_run os small_start).
Proof. by exists os, 11%nat, 4%nat, (replicate 11 (-1)), (small_hw), 1000. Qed.

Lemma lut_stays_sound_witness :
  let m := mem small_static_cam in
  lut_wf [] m /\ uniq m /\ is_Some (_rtk_fc_lutEntry_getFromPool m).
Proof.
  destruct (lut_stays_sound [lan 2 0 0; lan 6 0 0; OLearn (small_req (small_mac 10 0) 1 5 true);
    OLearn (small_req (small_mac 14 0) 1 5 true); OLinkDown 0; OGrace 13; OGrace 12]
    11 4 (replicate 11 (-1)) (small_hw) 1000) as (H1 & H2 & H3).
  split; [exact H1|split; [exact H2|]]. apply H3. apply Nat.ltb_lt. reflexivity.
Defined.

Lemma lut_find_exact_witness : exists p, slot 8 (mem small_full) = Some p /\ holds (small_mac 10 0) 0 p (mem small_full).
Proof. apply (lut_find_exact small_full (small_mac 10 0)); [apply small_reachable|]. small_eval. Defined.

Lemma learned_address_is_found_witness :
  let db := snd (_rtk_fc_lut_learning (small_req (small_mac 3 0) 2 5 false) small_full) in
  _rtk_fc_lut_find_fid (small_mac 3 0) 0 (mem db) = Some 6%nat /\
  exists p, slot 6 (mem db) = Some p /\ placed (small_req (small_mac 3 0) 2 5 false) (jiffies small_full) (obj p (mem db)).
Proof.
  intros db.
  assert (fst (_rtk_fc_lut_learning (small_req (small_mac 3 0) 2 5 false) small_full) = (RTK_FC_RET_OK, Some 6%nat)) as E by small_eval.
  refine (learned_address_is_found (small_req (small_mac 3 0) 2 5 false) small_full 6 db (small_reachable _) eq_refl eq_refl _).
  rewrite <- E. apply surjective_pairing.
Defined.

Lemma eviction_takes_the_oldest_witness : exists p, lru_victim 2 small_full = Some p /\
  evictable (mem small_full) p /\ lru_age (jiffies small_full) (obj p (mem small_full)) = 10 /\
  forall q, q ∈ cam_entries (mem small_full) -> lru_age (jiffies small_full) (obj q (mem small_full)) <= 10.
Proof.
  assert (forallb (fun q => lru_age (jiffies small_full) (obj q (mem small_full)) <? 2 ^ 31)
    (chain 2 (lut_hash_list_head (mem small_full)) ++ cam_entries (mem small_full)) = true) as Hage by small_eval.
  assert (forallb (fun q => negb (isStatic (obj q (mem small_full))) && negb (is_multicast (l2Addr (obj q (mem small_full)))) &&
    negb (anyFlowEstablish (obj q (mem small_full)))) (cam_entries (mem small_full)) = true) as Hdyn by small_eval.
  assert (lru_victim 2 small_full = Some 13%nat) as E by small_eval.
  assert (lru_age (jiffies small_full) (obj 13 (mem small_full)) = 10) as Ea by small_eval.
  assert (anyFlowEstablish (obj 13 (mem small_full)) = false) as Ef by small_eval.
  revert Hage Hdyn E Ea Ef. generalize small_full. intros db Hage Hdyn E Ea Ef.
  pose proof (eviction_takes_the_oldest 2 db) as Hv. cbv zeta in Hv. rewrite E in Hv. destruct Hv as (_ & He & Hmax).
  { intros q Hq _. apply Z.ltb_lt. exact (forallb_elem _ _ Hage q Hq). }
  exists 13%nat. split_and!; try done. intros q Hq. pose proof (forallb_elem _ _ Hdyn q Hq) as Hd.
  rewrite !andb_true_iff, !negb_true_iff in Hd. destruct Hd as [[Hs Hm] Hf].
  rewrite <- Ea. apply Hmax; [apply elem_of_app; by right|done|congruence].
Defined.

Lemma lut_deletion_terminates_witness :
  del_fuel 5 13 false small_full = RTK_FC_LUT_DEL 13 false small_full.
Proof. apply lut_deletion_terminates. apply Nat.ltb_lt. small_eval. Defined.

Lemma idle_addresses_age_out_witness :
  let db := lut_step (OTick 40000) small_full in
  valid (obj 13 (mem (Nat.iter 8 _rtk_fc_lut_timeoutCheck db))) = false.
Proof.
  intros db. destruct (valid (obj 13 (mem (Nat.iter 8 _rtk_fc_lut_timeoutCheck db)))) eqn:E; [|reflexivity].
  apply (idle_addresses_age_out 8 db 13) in E.
  - destruct E as [_ E]. destruct E. split; small_eval.
  - unfold db, small_full. exists [lan 2 0 0; OTick 1010; lan 6 0 0; lan 10 0 0; lan 14 0 0; OTick 40000].
    by exists 11%nat, 4%nat, (replicate 11 (-1)), (small_hw), 1000.
  - split; [reflexivity|intros s h; reflexivity].
  - apply Nat.ltb_lt. reflexivity.
  - apply Nat.leb_le. reflexivity.
  - exists 4%nat. small_eval.
  - small_eval.
Defined.

(** A station behind trunked ports is counted once when learned, three times when deleted. *)
Example trunked_station_drifts :
  wlanLearningCount (counts (lut_run [wifi 2 0 0; OLinkDown 9] small_start)) = [-2; 0; 0; 0] /\
  learningCount (counts (lut_run [wifi 2 0 0; OLinkDown 9] small_start)) = [0; 0; 0; 0; 0; 0; 0; -1; 0; 0; -1].
Proof. split; small_eval. Qed.

(** The address of a station behind trunked ports is in three slots: once under the default
    filter id, and in a copy for each of the two others. *)
Example trunked_station_has_copies :
  let m := mem (lut_run [wifi 2 0 0] small_start) in
  (fun p => (l2Addr (obj p m), svl_fid (obj p m), valid (obj p m))) <$> omap (fun i => slot i m) (seq 0 10) =
  [(small_mac 2 0, 0, true); (small_mac 2 0, 1, true); (small_mac 2 0, 2, true)].
Proof. small_eval. Qed.

(** A duplicate that finds the table full looks for a victim in the bucket of the default
    filter id and throws out the entry it duplicates: learning succeeds, the address is gone. *)
Example duplicate_evicts_its_original :
  let '(r, i, db) := _rtk_fc_lut_learning (small_req (small_mac 2 0) 9 0 false) small_static_cam in
  r = RTK_FC_RET_OK /\ i = Some 4%nat /\ _rtk_fc_lut_find_fid (small_mac 2 0) 0 (mem db) = None.
Proof. vm_compute. repeat split. Qed.

(** After an eviction the address is entered, but learning reports a failure. *)
Example learned_but_reported_failed :
  let '(r, i, db) := _rtk_fc_lut_learning (small_req (small_mac 18 0) 1 5 false) small_full in
  r = RTK_FC_RET_LRN_FAIL /\ i = None /\ is_Some (_rtk_fc_lut_find_fid (small_mac 18 0) 0 (mem db)).
Proof. vm_compute. repeat split. by eexists. Qed.

(** An entry deleted, learned again and deleted again within one grace period keeps its
    slot: no callback is left that would free it. *)
Example slot_is_not_given_back :
  let m := mem (lut_run [lan 1 0 0; OLinkDown 0; lan 1 0 0; OLinkDown 0; OGrace 13] small_start) in
  rcu m = [] /\ slot 2 m = Some 13%nat /\ valid (obj 13 m) = false.
Proof. vm_compute. repeat split. Qed.

(** An entry learned as static is not counted, but is when it ages out as a dynamic one. *)
Example released_static_entry_is_uncounted :
  learningCount (counts (lut_run [OLearn (small_req (small_mac 1 0) 1 5 true); OStaticDel 2; OTick 40000; OHouseKeeping] small_start))
  = [0; -1; 0; 0; 0; 0; 0; 0; 0; 0; 0].
Proof. small_eval. Qed.
