(* ===== verification/FcChecksum.v ===== *)
(** * Internet checksums of the flow cache

    The checksum routines of [FleetConntrackDriver/core/rtk_fc_internal.c]: the sum over a
    buffer ([_rtk_rg_standard_chksum], [inet_chksum], with pseudo header
    [inet_chksum_pseudo], [inet_chksum_pseudoV6]) and the incremental updates after a
    change of header fields ([_rtk_fc_L3ChecksumDiff_update], [_rtk_fc_L4ChecksumDiff_update],
    [_rtk_fc_icmpChecksumDiff_update], [_rtk_fc_ipv6_L4ChecksumDiff_update]); and the
    bit operations on arrays of words.  A buffer is a list of bytes; the machine is
    big-endian, so [htons] and [ntohs] change nothing. *)
From S2P Require Import Prelude.
Open Scope Z_scope.

(** ** Sums over a buffer *)

Definition htons (x : Z) : Z := u16 x.
Definition ntohs (x : Z) : Z := u16 x.
(** [~x & 0xffff]. *)
Definition not16 (x : Z) : Z := Z.land (Z.lnot x) 0xffff.

(** [while (acc >> 16) acc = (acc & 0xffff) + (acc >> 16)]; two rounds are enough for 32 bits. *)
Definition fold_once (acc : Z) : Z := u32 (Z.land acc 0xffff + Z.shiftr acc 16).
Fixpoint fold_carry (n : nat) (acc : Z) : Z :=
  match n with
  | O => acc
  | S n => if Z.shiftr acc 16 =? 0 then acc else fold_carry n (fold_once acc)
  end.
Definition end_around (acc : Z) : Z := fold_carry 2 acc.

(** The loop over the octets; the callers' buffers hold at least [len] of them. *)
Fixpoint chksum_loop (len : nat) (octetptr : list Z) (acc : Z) : Z :=
  match len with
  | O => acc
  | S O => u32 (acc + u16 (Z.shiftl (nth 0 octetptr 0) 8))
  | S (S len) =>
      let src := Z.lor (u16 (Z.shiftl (nth 0 octetptr 0) 8)) (nth 1 octetptr 0) in
      chksum_loop len (drop 2 octetptr) (u32 (acc + src))
  end.
Definition _rtk_rg_standard_chksum (dataptr : list Z) (len : Z) : Z :=
  htons (u16 (end_around (fold_once (chksum_loop (Z.to_nat (u16 len)) dataptr 0)))).

Definition inet_chksum (dataptr : list Z) (len : Z) : Z := u16 (Z.lnot (_rtk_rg_standard_chksum dataptr len)).

(** The two bytes of a 16-bit sum exchanged. *)
Definition swap_bytes (acc : Z) : Z := Z.lor (Z.shiftl (Z.land acc 0xff) 8) (Z.shiftr (Z.land acc 0xff00) 8).
(** The sum over the segment; for an odd length it is swapped and swapped back. *)
Definition segment_sum (seg : list Z) (len : Z) : Z :=
  let acc := end_around (_rtk_rg_standard_chksum seg len) in
  if Z.odd len then swap_bytes (swap_bytes acc) else acc.

Definition inet_chksum_pseudo (tcphdr : list Z) (tcplen srcip destip proto : Z) : Z :=
  let acc := segment_sum tcphdr tcplen in
  let acc := u32 (acc + Z.land srcip 0xffff) in
  let acc := u32 (acc + Z.land (Z.shiftr srcip 16) 0xffff) in
  let acc := u32 (acc + Z.land destip 0xffff) in
  let acc := u32 (acc + Z.land (Z.shiftr destip 16) 0xffff) in
  let acc := u32 (acc + htons (u16 proto)) in
  let acc := u32 (acc + htons tcplen) in
  not16 (end_around acc).

(** An IPv6 address is its eight 16-bit words. *)
Definition inet_chksum_pseudoV6 (tcphdr : list Z) (tcplen : Z) (srcip destip : list Z) (proto : Z) : Z :=
  let acc := segment_sum tcphdr tcplen in
  let acc := foldl (fun acc w => u32 (acc + w)) acc (srcip ++ destip) in
  let acc := u32 (acc + htons (u16 proto)) in
  let acc := u32 (acc + htons tcplen) in
  not16 (end_around acc).

(** ** Incremental updates: [ori_checksum] and the fields in host order *)

(** A 16-bit field, and the two halves of a 32-bit field; an unchanged one adds nothing. *)
Definition diff_field (ori new tmp : Z) : Z :=
  if ori =? new then tmp else u32 (tmp + (not16 ori + Z.land new 0xffff)).
Definition diff_address (ori new tmp : Z) : Z :=
  let tmp := if Z.lxor (Z.land ori 0xffff0000) (Z.land new 0xffff0000) =? 0 then tmp
             else u32 (tmp + (Z.shiftr (not32 ori) 16 + Z.shiftr new 16)) in
  if Z.lxor (Z.land ori 0xffff) (Z.land new 0xffff) =? 0 then tmp
  else u32 (tmp + (Z.land (not32 ori) 0xffff + Z.land new 0xffff)).

(** [ttldiff] is an unsigned 32-bit number, -1 for one hop less. *)
Definition _rtk_fc_L3ChecksumDiff_update (ori_checksum ori_sip ori_dip ori_tos new_sip new_dip new_tos ttldiff : Z) : Z :=
  let tmp := not16 ori_checksum in
  let tmp := diff_address ori_sip new_sip tmp in
  let tmp := diff_address ori_dip new_dip tmp in
  let tmp := diff_field ori_tos new_tos tmp in
  let tmp := if u32 ttldiff =? 0 then tmp
             else u32 (tmp + Z.land (Z.lnot (u32 (Z.shiftl (u32 (- ttldiff)) 8))) 0xffff) in
  htons (Z.lnot (Z.land (end_around tmp) 0xffff)).

Definition _rtk_fc_L4ChecksumDiff_update (ori_checksum ori_sip ori_dip ori_sport ori_dport
    new_sip new_dip new_sport new_dport : Z) : Z :=
  let tmp := not16 ori_checksum in
  let tmp := diff_address ori_sip new_sip tmp in
  let tmp := diff_address ori_dip new_dip tmp in
  let tmp := diff_field ori_sport new_sport tmp in
  let tmp := diff_field ori_dport new_dport tmp in
  htons (Z.lnot (Z.land (end_around tmp) 0xffff)).

Definition _rtk_fc_icmpChecksumDiff_update (ori_checksum ori_id new_id : Z) : Z :=
  htons (Z.lnot (Z.land (end_around (diff_field ori_id new_id (not16 ori_checksum))) 0xffff)).

Definition csum_incremental_update_modified (old_csum old_field new_field : Z) : Z :=
  let csum := u32 (not16 old_csum + not16 old_field + new_field) in
  let csum := u32 (Z.shiftr csum 16 + Z.land csum 0xffff) in
  let csum := u32 (csum + Z.shiftr csum 16) in
  u16 (Z.lnot csum).

Definition _rtk_fc_ipv6_L4ChecksumDiff_update (new_ip old_ip : list Z) (checksum : Z) : Z :=
  htons (foldl (fun acc i => csum_incremental_update_modified acc (ntohs (nth i old_ip 0)) (ntohs (nth i new_ip 0)))
           (ntohs checksum) (seq 0 8)).

(** ** Bits of an array of 32-bit words *)

Definition word_of (nr : Z) : nat := Z.to_nat (Z.shiftr nr 5).
Definition rtk_fc_set_bit (nr : Z) (a : list Z) : list Z :=
  alter (fun w => Z.lor w (u32 (Z.shiftl 1 (Z.land nr 0x1f)))) (word_of nr) a.
Definition rtk_fc_clear_bit (nr : Z) (a : list Z) : list Z :=
  alter (fun w => Z.land w (not32 (u32 (Z.shiftl 1 (Z.land nr 0x1f))))) (word_of nr) a.
Definition rtk_fc_test_bit (nr : Z) (a : list Z) : bool :=
  Z.odd (Z.shiftr (nth (word_of nr) a 0) (Z.land nr 0x1f)).
