(* ===== verification/FcChecksumSpec.v ===== *)
(** * What the checksum routines compute

    Sums in one's complement arithmetic are integers modulo 65535; a buffer verifies when
    its sum is a positive multiple of 65535.  The incremental updates add the change of
    the fields. *)
From S2P Require Import Prelude FcChecksum.
Open Scope Z_scope.

(** ** The sums *)

(** What the sums are modulo 65535, where [256 * 256] is 1. *)
Definition is_u16 (z : Z) : Prop := 0 <= z < 2 ^ 16.
Fixpoint word_sum (l : list Z) : Z :=
  match l with
  | [] => 0
  | [a] => 256 * a
  | a :: b :: l => 256 * a + b + word_sum l
  end.
Notation "a ≡₁ b" := (a mod 65535 = b mod 65535) (at level 70).

Lemma u16_lnot x : is_u16 x -> u16 (Z.lnot x) = 65535 - x.
Proof.
  intros H. unfold u16, is_u16 in *. rewrite <- (Z.mod_add _ 1) by done. rewrite Z.mod_small; unfold Z.lnot; lia.
Qed.
Lemma low16 x : Z.land x 0xffff = x mod 2 ^ 16.
Proof. change 0xffff with (Z.ones 16). by rewrite Z.land_ones. Qed.
Lemma not16_spec x : is_u16 x -> not16 x = 65535 - x.
Proof. intros H. unfold not16. rewrite low16. by apply u16_lnot. Qed.
Lemma shift16 x : Z.shiftr x 16 = x / 2 ^ 16.
Proof. by rewrite Z.shiftr_div_pow2. Qed.
Lemma u16_range z : is_u16 (u16 z).
Proof. unfold is_u16, u16. by apply Z.mod_pos_bound. Qed.
Lemma u16_small z : is_u16 z -> u16 z = z.
Proof. apply Z.mod_small. Qed.
Lemma htons_small z : is_u16 z -> htons z = z.
Proof. apply Z.mod_small. Qed.
Lemma mod_eq_intro a b k : a = b + k * 65535 -> a ≡₁ b.
Proof. intros ->. by rewrite Z.mod_add. Qed.

Lemma mod_eq_elim a b : a ≡₁ b -> exists k, a = b + k * 65535.
Proof. intros E. exists (a / 65535 - b / 65535). pose proof (Z.div_mod a 65535). pose proof (Z.div_mod b 65535). lia. Qed.

Lemma fold_once_spec acc : 0 <= acc < 2 ^ 32 ->
  0 <= fold_once acc <= 131070 /\ fold_once acc ≡₁ acc /\ (fold_once acc = 0 <-> acc = 0) /\
  (acc <= 131070 -> fold_once acc <= 65535).
Proof.
  intros H. unfold fold_once. rewrite low16, shift16. pose proof (Z.div_mod acc (2 ^ 16)) as Hd.
  pose proof (Z.mod_pos_bound acc (2 ^ 16)). change (2 ^ 16) with 65536 in *. change (2 ^ 32) with (65536 * 65536) in H.
  assert (0 <= acc / 65536 < 65536) by (split; [apply Z.div_pos|apply Z.div_lt_upper_bound]; lia).
  rewrite u32_small by (unfold is_u32; lia). split; [lia|]. split; [apply mod_eq_intro with (k := - (acc / 65536)); lia|].
  split; [lia|]. intros Hlt. assert (acc / 65536 < 2) by (apply Z.div_lt_upper_bound; lia). lia.
Qed.
Lemma fold_done acc : 0 <= acc -> Z.shiftr acc 16 = 0 <-> acc < 2 ^ 16.
Proof. rewrite shift16. intros H. rewrite Z.div_small_iff by done. lia. Qed.

(** The loop has ended, and the result is the sum modulo 65535. *)
Lemma end_around_spec acc : 0 <= acc < 2 ^ 32 ->
  is_u16 (end_around acc) /\ end_around acc ≡₁ acc /\ (end_around acc = 0 <-> acc = 0).
Proof.
  intros H. unfold end_around, is_u16. cbn [fold_carry]. pose proof (fold_once_spec acc H) as (H1 & E1 & Z1 & _).
  destruct (Z.eqb_spec (Z.shiftr acc 16) 0) as [Hs|_]; [apply fold_done in Hs; lia|].
  pose proof (fold_once_spec (fold_once acc) ltac:(lia)) as (H2 & E2 & Z2 & L2).
  destruct (Z.eqb_spec (Z.shiftr (fold_once acc) 16) 0) as [Hs|_]; [apply fold_done in Hs; lia|].
  split; [lia|]. split; [congruence|]. by rewrite Z2, Z1.
Qed.

(** ** The sum over a buffer *)

Lemma word_sum_range l : Forall is_u8 l -> 0 <= word_sum l <= 65535 * Z.of_nat (length l).
Proof.
  induction l as [l IH] using (induction_ltof1 _ (@length Z)). unfold ltof in IH. intros H.
  destruct l as [|a [|b l]]; simpl; [lia| |].
  - apply Forall_cons in H as [Ha _]. unfold is_u8 in Ha. lia.
  - apply Forall_cons in H as [Ha H]. apply Forall_cons in H as [Hb H]. unfold is_u8 in Ha, Hb.
    specialize (IH l ltac:(simpl; lia) H). lia.
Qed.
Lemma word_sum_app l l' : Nat.even (length l) = true -> word_sum (l ++ l') = word_sum l + word_sum l'.
Proof.
  induction l as [l IH] using (induction_ltof1 _ (@length Z)). unfold ltof in IH.
  destruct l as [|a [|b l]]; simpl; intros H; [lia|done|]. rewrite IH; [lia|simpl; lia|done].
Qed.
Lemma lor_disjoint a b k : 0 <= k -> 0 <= b < 2 ^ k -> Z.lor (a * 2 ^ k) b = a * 2 ^ k + b.
Proof.
  intros Hk Hb. assert (Z.land (a * 2 ^ k) b = 0) as Hl.
  { apply Z.bits_inj'. intros n Hn. rewrite Z.land_spec, Z.bits_0. destruct (Z.ltb_spec n k).
    - by rewrite Z.mul_pow2_bits_low by lia.
    - rewrite (Z.testbit_eqb b n), Z.div_small, andb_false_r; [done| |done].
      split; [lia|]. apply Z.lt_le_trans with (2 ^ k); [lia|]. apply Z.pow_le_mono_r; lia. }
  pose proof (Z.add_lor_land (a * 2 ^ k) b). lia.
Qed.
Lemma octet_high a : is_u8 a -> u16 (Z.shiftl a 8) = a * 2 ^ 8.
Proof. unfold is_u8. intros H. rewrite Z.shiftl_mul_pow2, u16_small; [done|unfold is_u16; lia|done]. Qed.
Lemma octet_pair a b : is_u8 a -> is_u8 b -> Z.lor (u16 (Z.shiftl a 8)) b = 256 * a + b.
Proof. intros Ha Hb. rewrite octet_high, lor_disjoint; [lia|done..]. Qed.

Lemma chksum_loop_spec l : Forall is_u8 l -> forall acc, 0 <= acc -> acc + 65535 * Z.of_nat (length l) < 2 ^ 32 ->
  chksum_loop (length l) l acc = acc + word_sum l.
Proof.
  induction l as [l IH] using (induction_ltof1 _ (@length Z)). unfold ltof in IH. intros H acc Ha Hb.
  destruct l as [|a [|b l]]; cbn [length chksum_loop word_sum nth drop] in *; [lia| |].
  - apply Forall_cons in H as [Hx _]. rewrite octet_high by done. unfold is_u8 in Hx. rewrite u32_small; unfold is_u32; lia.
  - apply Forall_cons in H as [Hx H]. apply Forall_cons in H as [Hy H]. cbv zeta. rewrite octet_pair by done.
    unfold is_u8 in Hx, Hy. rewrite drop_0, u32_small by (unfold is_u32; lia). rewrite IH; [lia|simpl; lia|done|lia..].
Qed.

Definition short (l : list Z) : Prop := Z.of_nat (length l) < 2 ^ 16.
Lemma standard_spec l : Forall is_u8 l -> short l -> let r := _rtk_rg_standard_chksum l (Z.of_nat (length l)) in
  is_u16 r /\ r ≡₁ word_sum l /\ (r = 0 <-> word_sum l = 0).
Proof.
  unfold short. intros H Hs. pose proof (word_sum_range l H) as Hw. unfold _rtk_rg_standard_chksum.
  rewrite (u16_small (Z.of_nat _)), Nat2Z.id by (unfold is_u16; lia). rewrite chksum_loop_spec, Z.add_0_l by (done || lia).
  pose proof (fold_once_spec (word_sum l) ltac:(lia)) as (H1 & E1 & Z1 & _).
  pose proof (end_around_spec (fold_once (word_sum l)) ltac:(lia)) as (H2 & E2 & Z2).
  rewrite (u16_small (end_around _)), htons_small by done. split; [done|]. split; [congruence|]. by rewrite Z2, Z1.
Qed.

(** ** What a receiver checks *)

Definition balanced (s : Z) : Prop := 0 < s /\ s ≡₁ 0.
Lemma is_u16_full r : is_u16 r -> r = 65535 <-> r <> 0 /\ r ≡₁ 0.
Proof.
  unfold is_u16. intros H. split; [by intros ->|]. intros [Hn Hm]. rewrite (Z.mod_small 0) in Hm by lia.
  apply Z.mod_divide in Hm as [k Hk]; lia.
Qed.
Lemma balanced_iff r s : is_u16 r -> r ≡₁ s -> (r = 0 <-> s = 0) -> 0 <= s -> r = 65535 <-> balanced s.
Proof. intros Hr E Hz Hs. rewrite is_u16_full by done. unfold balanced. rewrite <- E. intuition lia. Qed.

Lemma inet_verifies l : Forall is_u8 l -> short l -> inet_chksum l (Z.of_nat (length l)) = 0 <-> balanced (word_sum l).
Proof.
  intros H Hs. destruct (standard_spec l H Hs) as (H1 & E1 & Z1). pose proof (word_sum_range l H) as [Hw _].
  unfold inet_chksum. rewrite u16_lnot by done. rewrite <- (balanced_iff _ _ H1 E1 Z1 Hw). lia.
Qed.

(** ** The sum with a pseudo header *)

Lemma swap_spec x : is_u16 x -> swap_bytes x = 256 * (x mod 256) + x / 256 /\ is_u16 (swap_bytes x).
Proof.
  unfold is_u16. intros H. pose proof (Z.div_mod x 256). pose proof (Z.mod_pos_bound x 256).
  assert (0 <= x / 256 < 256) by (split; [apply Z.div_pos|apply Z.div_lt_upper_bound]; lia).
  assert (swap_bytes x = 256 * (x mod 256) + x / 256) as ->; [|lia].
  unfold swap_bytes. assert (Z.shiftr (Z.land x 0xff00) 8 = x / 256) as ->.
  { rewrite Z.shiftr_land. change (Z.shiftr 0xff00 8) with (Z.ones 8). rewrite Z.land_ones, Z.shiftr_div_pow2 by lia.
    apply Z.mod_small. change (2 ^ 8) with 256. lia. }
  change 0xff with (Z.ones 8). rewrite Z.land_ones, Z.shiftl_mul_pow2, lor_disjoint; change (2 ^ 8) with 256; lia.
Qed.
Lemma swap_twice x : is_u16 x -> swap_bytes (swap_bytes x) = x.
Proof.
  intros H. destruct (swap_spec x H) as [E H1]. destruct (swap_spec _ H1) as [-> _]. rewrite E. unfold is_u16 in H.
  pose proof (Z.div_mod x 256). assert (0 <= x / 256 < 256) by (split; [apply Z.div_pos|apply Z.div_lt_upper_bound]; lia).
  replace (256 * (x mod 256) + x / 256) with (x / 256 + x mod 256 * 256) by lia.
  rewrite Z.mod_add, Z.div_add, (Z.mod_small (x / 256)), (Z.div_small (x / 256)) by lia. lia.
Qed.
Lemma segment_spec l : Forall is_u8 l -> short l -> let r := segment_sum l (Z.of_nat (length l)) in
  is_u16 r /\ r ≡₁ word_sum l /\ (r = 0 <-> word_sum l = 0).
Proof.
  intros H Hs. destruct (standard_spec l H Hs) as (H1 & E1 & Z1). unfold segment_sum. unfold is_u16 in H1.
  destruct (end_around_spec _ (conj (proj1 H1) (Z.lt_trans _ _ (2 ^ 32) (proj2 H1) eq_refl))) as (H2 & E2 & Z2).
  assert (forall b : bool, (if b then swap_bytes (swap_bytes (end_around (_rtk_rg_standard_chksum l (Z.of_nat (length l)))))
    else end_around (_rtk_rg_standard_chksum l (Z.of_nat (length l)))) = end_around (_rtk_rg_standard_chksum l (Z.of_nat (length l)))) as ->.
  { intros [|]; [by apply swap_twice|done]. }
  split; [done|]. split; [congruence|]. by rewrite Z2, Z1.
Qed.

(** The two words of an IPv4 address. *)
Definition address_sum (ip : Z) : Z := ip / 2 ^ 16 + ip mod 2 ^ 16.
Lemma address_range ip : is_u32 ip -> 0 <= address_sum ip <= 131070 /\
  Z.land ip 0xffff = ip mod 2 ^ 16 /\ Z.land (Z.shiftr ip 16) 0xffff = ip / 2 ^ 16 /\ is_u16 (ip mod 2 ^ 16) /\ is_u16 (ip / 2 ^ 16).
Proof.
  unfold is_u32, address_sum, is_u16. intros H. rewrite !low16, shift16. pose proof (Z.mod_pos_bound ip (2 ^ 16) eq_refl).
  change (2 ^ 32) with (2 ^ 16 * 2 ^ 16) in H. assert (0 <= ip / 2 ^ 16 < 2 ^ 16) by (split; [apply Z.div_pos|apply Z.div_lt_upper_bound]; lia).
  rewrite (Z.mod_small (ip / 2 ^ 16)) by done. lia.
Qed.

(** [acc] is a sum [s] in one's complement, with room to spare. *)
Definition sums (acc s room : Z) : Prop := 0 <= acc <= room /\ acc ≡₁ s /\ (acc = 0 <-> s = 0) /\ 0 <= s.
Lemma sums_add acc s room x : sums acc s room -> 0 <= x <= 65535 -> room + 65535 < 2 ^ 32 ->
  sums (u32 (acc + x)) (s + x) (room + 65535).
Proof.
  intros (H & E & Hz & Hs) Hx Hr. rewrite u32_small by (unfold is_u32; lia). unfold sums.
  rewrite (Z.add_mod acc), (Z.add_mod s), E by done. split; [lia|]. split; [done|]. lia.
Qed.
Lemma sums_zero acc s room : sums acc s room -> room < 2 ^ 32 -> not16 (end_around acc) = 0 <-> balanced s.
Proof.
  intros (H & E & Hz & Hs) Hr. destruct (end_around_spec acc ltac:(lia)) as (H1 & E1 & Z1).
  rewrite not16_spec by done. rewrite <- (balanced_iff (end_around acc) s); [lia|done|congruence|by rewrite Z1|done].
Qed.
Lemma segment_sums l : Forall is_u8 l -> short l -> sums (segment_sum l (Z.of_nat (length l))) (word_sum l) 65535.
Proof.
  intros H Hs. destruct (segment_spec l H Hs) as (H1 & E1 & Z1). unfold sums, is_u16 in *.
  pose proof (word_sum_range l H). split; [lia|]. split; [done|]. split; [done|lia].
Qed.

Lemma pseudo_sums seg s d p : Forall is_u8 seg -> short seg -> is_u32 s -> is_u32 d -> is_u16 p ->
  exists acc, inet_chksum_pseudo seg (Z.of_nat (length seg)) s d p = not16 (end_around acc) /\
    sums acc (word_sum seg + address_sum s + address_sum d + p + Z.of_nat (length seg)) (7 * 65535).
Proof.
  intros H Hl Hs Hd Hp. unfold inet_chksum_pseudo, short in *.
  destruct (address_range s Hs) as (_ & Es1 & Es2 & Bs1 & Bs2), (address_range d Hd) as (_ & Ed1 & Ed2 & Bd1 & Bd2).
  rewrite Es1, Es2, Ed1, Ed2, (u16_small p), (htons_small p), (htons_small (Z.of_nat (length seg))) by (unfold is_u16 in *; lia).
  eexists. split; [done|]. unfold address_sum.
  replace (word_sum seg + (s / 2 ^ 16 + s mod 2 ^ 16) + _ + p + Z.of_nat (length seg))
    with (word_sum seg + s mod 2 ^ 16 + s / 2 ^ 16 + d mod 2 ^ 16 + d / 2 ^ 16 + p + Z.of_nat (length seg)) by lia.
  unfold is_u16 in *. change (7 * 65535) with (65535 + 65535 + 65535 + 65535 + 65535 + 65535 + 65535).
  repeat (apply sums_add; [|lia..]). by apply segment_sums.
Qed.
Lemma pseudo_verifies seg s d p : Forall is_u8 seg -> short seg -> is_u32 s -> is_u32 d -> is_u16 p ->
  inet_chksum_pseudo seg (Z.of_nat (length seg)) s d p = 0 <->
  balanced (word_sum seg + address_sum s + address_sum d + p + Z.of_nat (length seg)).
Proof.
  intros H Hl Hs Hd Hp. destruct (pseudo_sums seg s d p H Hl Hs Hd Hp) as (acc & -> & Ha). by apply (sums_zero _ _ _ Ha).
Qed.
Lemma sums_value acc s room : sums acc s room -> room < 2 ^ 32 -> is_u16 (not16 (end_around acc)) /\ not16 (end_around acc) ≡₁ - s.
Proof.
  intros (H & E & Hz & Hs) Hr. destruct (end_around_spec acc ltac:(lia)) as (H1 & E1 & _). rewrite not16_spec by done.
  unfold is_u16 in *. split; [lia|]. apply mod_eq_elim in E as [k1 E], E1 as [k2 E1]. apply mod_eq_intro with (k := 1 - k1 - k2). lia.
Qed.

Definition words_sum (l : list Z) : Z := foldr Z.add 0 l.
Lemma sums_fold ws : Forall is_u16 ws -> forall acc s n, sums acc s (65535 * Z.of_nat n) ->
  65535 * Z.of_nat (n + length ws) < 2 ^ 32 ->
  sums (foldl (fun acc w => u32 (acc + w)) acc ws) (s + words_sum ws) (65535 * Z.of_nat (n + length ws)).
Proof.
  induction 1 as [|w ws Hw H IH]; intros acc s n Ha Hn; cbn [foldl words_sum foldr length] in *.
  { by rewrite Nat.add_0_r, Z.add_0_r. }
  fold (words_sum ws) in *. replace (s + (w + words_sum ws)) with (s + w + words_sum ws) by lia.
  replace (n + S (length ws))%nat with (S n + length ws)%nat in * by lia. apply IH; [|done].
  replace (65535 * Z.of_nat (S n)) with (65535 * Z.of_nat n + 65535) by lia. unfold is_u16 in Hw.
  apply sums_add; [done|lia..].
Qed.
Lemma pseudoV6_sums seg s d p : Forall is_u8 seg -> short seg -> Forall is_u16 s -> Forall is_u16 d ->
  length s = 8%nat -> length d = 8%nat -> is_u16 p ->
  exists acc, inet_chksum_pseudoV6 seg (Z.of_nat (length seg)) s d p = not16 (end_around acc) /\
    sums acc (word_sum seg + words_sum s + words_sum d + p + Z.of_nat (length seg)) (65535 * 19).
Proof.
  intros H Hl Hs Hd Ls Ld Hp. unfold inet_chksum_pseudoV6, short in *.
  rewrite (u16_small p), (htons_small p), (htons_small (Z.of_nat (length seg))) by (unfold is_u16 in *; lia).
  eexists. split; [done|]. assert (word_sum seg + words_sum s + words_sum d = word_sum seg + words_sum (s ++ d)) as ->.
  { rewrite <- Z.add_assoc. f_equal. clear. unfold words_sum. induction s as [|x s IH]; cbn [app foldr]; lia. }
  unfold is_u16 in *. change (65535 * 19) with (65535 * 17 + 65535 + 65535). repeat (apply sums_add; [|lia..]).
  pose proof (sums_fold (s ++ d) ltac:(by apply Forall_app) _ _ 1 (segment_sums seg H Hl)) as Hf.
  rewrite length_app, Ls, Ld in Hf. apply Hf. lia.
Qed.
Lemma pseudoV6_verifies seg s d p : Forall is_u8 seg -> short seg -> Forall is_u16 s -> Forall is_u16 d ->
  length s = 8%nat -> length d = 8%nat -> is_u16 p ->
  inet_chksum_pseudoV6 seg (Z.of_nat (length seg)) s d p = 0 <->
  balanced (word_sum seg + words_sum s + words_sum d + p + Z.of_nat (length seg)).
Proof.
  intros H Hl Hs Hd Ls Ld Hp. destruct (pseudoV6_sums seg s d p H Hl Hs Hd Ls Ld Hp) as (acc & -> & Ha).
  by apply (sums_zero _ _ _ Ha).
Qed.

(** ** The incremental updates *)

Lemma diff_field_spec o n t room : is_u16 o -> is_u16 n -> 0 <= t <= room -> room + 131070 < 2 ^ 32 ->
  0 <= diff_field o n t <= room + 131070 /\ diff_field o n t ≡₁ t - o + n.
Proof.
  intros Ho Hn Ht Hr. unfold diff_field. destruct (Z.eqb_spec o n) as [->|_]; [split; [lia|f_equal; lia]|].
  rewrite not16_spec, low16 by done. fold (u16 n). rewrite (u16_small n) by done. unfold is_u16 in *.
  rewrite u32_small by (unfold is_u32; lia). split; [lia|]. apply mod_eq_intro with (k := 1). lia.
Qed.
Lemma diff_half (b : bool) o n t room : is_u16 o -> is_u16 n -> 0 <= t <= room -> room + 131070 < 2 ^ 32 -> (b = true -> o = n) ->
  let r := if b then t else u32 (t + (65535 - o + n)) in 0 <= r <= room + 131070 /\ r ≡₁ t - o + n.
Proof.
  unfold is_u16. intros Ho Hn Ht Hr Hb. destruct b; cbv zeta.
  - rewrite (Hb eq_refl). split; [lia|]. f_equal. lia.
  - rewrite u32_small by (unfold is_u32; lia). split; [lia|]. apply mod_eq_intro with (k := 1). lia.
Qed.

Lemma not32_sub x : is_u32 x -> not32 x = 2 ^ 32 - 1 - x.
Proof.
  intros H. assert (not32 x = Z.land (Z.lnot x) (Z.ones 32)) as ->.
  { apply Z.bits_inj'. intros n Hn. rewrite Z.land_spec, Z.lnot_spec by done. destruct (Z.ltb_spec n 32).
    - rewrite not32_bit, Z.ones_spec_low, andb_true_r by lia. done.
    - unfold not32. change (2 ^ 32 - 1) with (Z.ones 32). rewrite Z.lxor_spec, Z.ones_spec_high, u32_high by (done || lia).
      by rewrite andb_false_r. }
  rewrite Z.land_ones, <- (Z.mod_add _ 1) by done. unfold is_u32 in H. rewrite Z.mod_small; unfold Z.lnot; lia.
Qed.
Lemma not32_halves x : is_u32 x -> Z.shiftr (not32 x) 16 = 65535 - x / 2 ^ 16 /\ Z.land (not32 x) 0xffff = 65535 - x mod 2 ^ 16.
Proof.
  intros H. rewrite shift16, low16, not32_sub by done.
  pose proof (Z.div_mod x (2 ^ 16)). pose proof (Z.mod_pos_bound x (2 ^ 16) eq_refl).
  replace (2 ^ 32 - 1 - x) with (65535 - x mod 2 ^ 16 + (65535 - x / 2 ^ 16) * 2 ^ 16) by lia.
  rewrite Z.div_add, Z.mod_add, (Z.div_small (65535 - _)), (Z.mod_small (65535 - _)) by lia. lia.
Qed.
Lemma mask_high a b : is_u32 a -> is_u32 b -> Z.lxor (Z.land a 0xffff0000) (Z.land b 0xffff0000) = 0 -> a / 2 ^ 16 = b / 2 ^ 16.
Proof.
  intros Ha Hb E. apply Z.lxor_eq in E. apply (f_equal (fun z => Z.shiftr z 16)) in E. rewrite !Z.shiftr_land in E.
  change (Z.shiftr 0xffff0000 16) with 0xffff in E. destruct (address_range a Ha) as (_ & _ & <- & _), (address_range b Hb) as (_ & _ & <- & _).
  done.
Qed.
Lemma mask_low a b : Z.lxor (Z.land a 0xffff) (Z.land b 0xffff) = 0 -> a mod 2 ^ 16 = b mod 2 ^ 16.
Proof. intros E. apply Z.lxor_eq in E. by rewrite !low16 in E. Qed.

Lemma diff_address_spec o n t room : is_u32 o -> is_u32 n -> 0 <= t <= room -> room + 2 * 131070 < 2 ^ 32 ->
  0 <= diff_address o n t <= room + 2 * 131070 /\ diff_address o n t ≡₁ t - address_sum o + address_sum n.
Proof.
  intros Ho Hn Ht Hr. destruct (address_range o Ho) as (_ & _ & _ & Bo1 & Bo2), (address_range n Hn) as (_ & El & _ & Bn1 & Bn2).
  unfold diff_address. destruct (not32_halves o Ho) as [-> ->]. rewrite El, (shift16 n).
  destruct (diff_half (Z.lxor (Z.land o 0xffff0000) (Z.land n 0xffff0000) =? 0) (o / 2 ^ 16) (n / 2 ^ 16) t room Bo2 Bn2 Ht ltac:(lia)
    (fun E => mask_high o n Ho Hn (proj1 (Z.eqb_eq _ _) E))) as [R1 E1].
  cbv zeta in *. set (t1 := if Z.lxor (Z.land o 0xffff0000) _ =? 0 then t else _) in *.
  assert ((Z.lxor (Z.land o 0xffff) (n mod 2 ^ 16) =? 0) = true -> o mod 2 ^ 16 = n mod 2 ^ 16) as Hl.
  { intros E%Z.eqb_eq. rewrite <- El in E. by apply mask_low. }
  destruct (diff_half (Z.lxor (Z.land o 0xffff) (n mod 2 ^ 16) =? 0) (o mod 2 ^ 16) (n mod 2 ^ 16) t1 (room + 131070) Bo1 Bn1 R1 ltac:(lia) Hl)
    as [R2 E2]. cbv zeta in *. split; [lia|]. unfold address_sum.
  apply mod_eq_elim in E1 as [k1 E1], E2 as [k2 E2]. apply mod_eq_intro with (k := k1 + k2). lia.
Qed.

Lemma close_spec t : 0 <= t < 2 ^ 32 -> let r := htons (Z.lnot (Z.land (end_around t) 0xffff)) in is_u16 r /\ r ≡₁ - t.
Proof.
  intros H. destruct (end_around_spec t H) as (H1 & E1 & _). cbv zeta. rewrite low16. fold (u16 (end_around t)).
  rewrite (u16_small (end_around t)) by done. unfold htons. rewrite u16_lnot by done. unfold is_u16 in *. split; [lia|].
  apply mod_eq_elim in E1 as [k E1]. apply mod_eq_intro with (k := 1 - k). lia.
Qed.

Lemma L3_update_spec c os od ot ns nd nt (hop : bool) :
  is_u16 c -> is_u32 os -> is_u32 od -> is_u32 ns -> is_u32 nd -> is_u16 ot -> is_u16 nt ->
  let r := _rtk_fc_L3ChecksumDiff_update c os od ot ns nd nt (if hop then -1 else 0) in
  is_u16 r /\ r ≡₁ c + address_sum os - address_sum ns + address_sum od - address_sum nd + ot - nt + (if hop then 256 else 0).
Proof.
  intros Hc Hos Hod Hns Hnd Hot Hnt. unfold _rtk_fc_L3ChecksumDiff_update. rewrite not16_spec by done. unfold is_u16 in Hc.
  destruct (diff_address_spec os ns (65535 - c) 65535 Hos Hns ltac:(lia) ltac:(lia)) as [R1 E1].
  set (t1 := diff_address os ns _) in *.
  destruct (diff_address_spec od nd t1 _ Hod Hnd R1 ltac:(lia)) as [R2 E2]. set (t2 := diff_address od nd _) in *.
  destruct (diff_field_spec ot nt t2 _ Hot Hnt R2 ltac:(lia)) as [R3 E3]. set (t3 := diff_field ot nt _) in *.
  assert (exists t4, (if u32 (if hop then -1 else 0) =? 0 then t3
    else u32 (t3 + Z.land (Z.lnot (u32 (Z.shiftl (u32 (- (if hop then -1 else 0))) 8))) 0xffff)) = t4 /\
    0 <= t4 < 2 ^ 32 /\ t4 ≡₁ t3 - (if hop then 256 else 0)) as (t4 & -> & R4 & E4).
  { eexists. split; [done|]. destruct hop.
    - change (u32 (-1) =? 0) with false. change (Z.land _ 0xffff) with 65279. cbv iota. rewrite u32_small by (unfold is_u32; lia).
      split; [lia|]. apply mod_eq_intro with (k := 1). lia.
    - change (u32 0 =? 0) with true. cbv iota. split; [lia|]. f_equal. lia. }
  destruct (close_spec t4 R4) as [R5 E5]. split; [done|].
  apply mod_eq_elim in E1 as [k1 E1], E2 as [k2 E2], E3 as [k3 E3], E4 as [k4 E4], E5 as [k5 E5].
  apply mod_eq_intro with (k := k5 - k4 - k3 - k2 - k1 - 1). lia.
Qed.

Lemma L4_update_spec c os od op oq ns nd np nq :
  is_u16 c -> is_u32 os -> is_u32 od -> is_u32 ns -> is_u32 nd -> is_u16 op -> is_u16 oq -> is_u16 np -> is_u16 nq ->
  let r := _rtk_fc_L4ChecksumDiff_update c os od op oq ns nd np nq in
  is_u16 r /\ r ≡₁ c + address_sum os - address_sum ns + address_sum od - address_sum nd + op - np + oq - nq.
Proof.
  intros Hc Hos Hod Hns Hnd Hop Hoq Hnp Hnq. unfold _rtk_fc_L4ChecksumDiff_update. rewrite not16_spec by done. unfold is_u16 in Hc.
  destruct (diff_address_spec os ns (65535 - c) 65535 Hos Hns ltac:(lia) ltac:(lia)) as [R1 E1].
  set (t1 := diff_address os ns _) in *.
  destruct (diff_address_spec od nd t1 _ Hod Hnd R1 ltac:(lia)) as [R2 E2]. set (t2 := diff_address od nd _) in *.
  destruct (diff_field_spec op np t2 _ Hop Hnp R2 ltac:(lia)) as [R3 E3]. set (t3 := diff_field op np _) in *.
  destruct (diff_field_spec oq nq t3 _ Hoq Hnq R3 ltac:(lia)) as [R4 E4]. set (t4 := diff_field oq nq _) in *.
  destruct (close_spec t4 ltac:(lia)) as [R5 E5]. split; [done|].
  apply mod_eq_elim in E1 as [k1 E1], E2 as [k2 E2], E3 as [k3 E3], E4 as [k4 E4], E5 as [k5 E5].
  apply mod_eq_intro with (k := k5 - k4 - k3 - k2 - k1 - 1). lia.
Qed.

Lemma icmp_update_spec c o n : is_u16 c -> is_u16 o -> is_u16 n ->
  let r := _rtk_fc_icmpChecksumDiff_update c o n in is_u16 r /\ r ≡₁ c + o - n.
Proof.
  intros Hc Ho Hn. unfold _rtk_fc_icmpChecksumDiff_update. rewrite not16_spec by done. unfold is_u16 in Hc.
  destruct (diff_field_spec o n (65535 - c) 65535 Ho Hn ltac:(lia) ltac:(lia)) as [R1 E1].
  destruct (close_spec (diff_field o n (65535 - c)) ltac:(lia)) as [R5 E5]. split; [done|].
  apply mod_eq_elim in E1 as [k1 E1], E5 as [k5 E5]. apply mod_eq_intro with (k := k5 - k1 - 1). lia.
Qed.

Lemma modified_spec c o n : is_u16 c -> is_u16 o -> is_u16 n ->
  let r := csum_incremental_update_modified c o n in is_u16 r /\ r ≡₁ c + o - n.
Proof.
  intros Hc Ho Hn. unfold csum_incremental_update_modified. rewrite !not16_spec by done. unfold is_u16 in *.
  set (x := 65535 - c + (65535 - o) + n). assert (0 <= x <= 3 * 65535) as Hx by lia. rewrite (u32_small x) by (unfold is_u32; lia).
  change (u32 (Z.shiftr x 16 + Z.land x 0xffff)) with (u32 (Z.shiftr x 16 + Z.land x 0xffff)).
  assert (u32 (Z.shiftr x 16 + Z.land x 0xffff) = fold_once x) as -> by (unfold fold_once; by rewrite Z.add_comm).
  destruct (fold_once_spec x ltac:(lia)) as (R1 & E1 & _). set (y := fold_once x) in *.
  assert (0 <= Z.shiftr y 16 <= 1 /\ (Z.shiftr y 16 = 1 <-> 65536 <= y)) as [Hy Hy1].
  { rewrite shift16. change (2 ^ 16) with 65536. pose proof (Z.div_mod y 65536). pose proof (Z.mod_pos_bound y 65536). lia. }
  rewrite u32_small by (unfold is_u32; lia).
  assert (exists z, u16 (Z.lnot (y + Z.shiftr y 16)) = 65535 - z /\ 0 <= z <= 65535 /\ z ≡₁ y) as (z & -> & Rz & Ez).
  { destruct (Z.eq_dec (Z.shiftr y 16) 1) as [E|E].
    - rewrite E. exists (y - 65535). split; [|split; [lia|apply mod_eq_intro with (k := -1); lia]].
      unfold u16. rewrite <- (Z.mod_add _ 2) by done. rewrite Z.mod_small; unfold Z.lnot; lia.
    - exists y. replace (y + Z.shiftr y 16) with y by lia. split; [|split; [lia|done]]. apply u16_lnot. unfold is_u16. lia. }
  split; [lia|]. apply mod_eq_elim in E1 as [k1 E1], Ez as [k2 E2]. apply mod_eq_intro with (k := - k1 - k2 - 1). lia.
Qed.

Lemma v6_update_spec ns os c : Forall is_u16 ns -> Forall is_u16 os -> length ns = 8%nat -> length os = 8%nat -> is_u16 c ->
  let r := _rtk_fc_ipv6_L4ChecksumDiff_update ns os c in is_u16 r /\ r ≡₁ c + words_sum os - words_sum ns.
Proof.
  intros Hn Ho Ln Lo Hc. unfold _rtk_fc_ipv6_L4ChecksumDiff_update. change (ntohs c) with (u16 c). rewrite (u16_small c) by done.
  assert (forall k acc s, (k <= 8)%nat -> is_u16 acc -> acc ≡₁ s ->
    let r := foldl (fun acc i => csum_incremental_update_modified acc (ntohs (nth i os 0)) (ntohs (nth i ns 0))) acc (seq (8 - k) k) in
    is_u16 r /\ r ≡₁ s + words_sum (drop (8 - k) os) - words_sum (drop (8 - k) ns)) as Hloop.
  { induction k as [|k IH]; intros acc s Hk Ha Es.
    { rewrite !drop_ge by lia. cbn. split; [done|]. by rewrite Z.sub_0_r, Z.add_0_r. }
    destruct (lookup_lt_is_Some_2 os (8 - S k) ltac:(lia)) as [x Ex], (lookup_lt_is_Some_2 ns (8 - S k) ltac:(lia)) as [y Ey].
    rewrite (drop_S _ _ _ Ex), (drop_S _ _ _ Ey). cbn [seq foldl words_sum foldr].
    replace (S (8 - S k)) with (8 - k)%nat by lia. fold (words_sum (drop (8 - k) os)) (words_sum (drop (8 - k) ns)).
    assert (nth (8 - S k) os 0 = x /\ nth (8 - S k) ns 0 = y) as [-> ->] by (split; by apply nth_lookup_Some).
    pose proof (Forall_lookup_1 _ _ _ _ Ho Ex) as Hx. pose proof (Forall_lookup_1 _ _ _ _ Hn Ey) as Hy.
    change (ntohs x) with (u16 x). change (ntohs y) with (u16 y). rewrite (u16_small x), (u16_small y) by done.
    destruct (modified_spec acc x y Ha Hx Hy) as [H1 E1]. apply mod_eq_elim in E1 as [k1 E1], Es as [k2 Es].
    destruct (IH _ (s + x - y) ltac:(lia) H1) as [H2 E2]; [apply mod_eq_intro with (k := k1 + k2); lia|].
    split; [done|]. cbv zeta in E2. rewrite E2. f_equal. lia. }
  destruct (Hloop 8%nat c c ltac:(lia) Hc eq_refl) as [H1 E1]. rewrite htons_small by done. done.
Qed.
