(* ===== verification/FcRewrite.v ===== *)
(** * Address translation in the short cut of the flow cache

    What [_rtk_fc_flowModifyAndDirTx] ([FleetConntrackDriver/core/rtk_fc_internal.c]) does to
    the layer-3 and layer-4 headers of a packet whose flow is known, before it sends it:
    remarking of the type of service, NAPT with loop back, the identifier of an ICMP echo,
    IPv6 address translation, the hop count, and the checksums when no hardware makes them;
    the whole recomputation of a checksum ([_rtk_fc_pktHdr_v4L4Checksum_update],
    [_rtk_fc_pktHdr_v6L4Checksum_update]); and the same step for the flows that are kept in
    software only ([_rtk_fc_abstrSw_flow_packet_modification]).  The build is the one of
    [configs/rtl9607c.config]. *)
From S2P Require Import Prelude FcChecksum.
Open Scope Z_scope.

(** ** Headers *)

Record iphdr := IpHdr {
  ip_first : Z;                          (* version and header length *)
  tos : Z;
  tot_len : Z;
  ip_id : Z;
  frag_off : Z;
  ttl : Z;
  protocol : Z;
  ip_check : Z;
  saddr : Z;
  daddr : Z;
  ip_options : list Z }.
(** Traffic class and flow label stand for the first word, words for the addresses. *)
Record ip6hdr := Ip6Hdr {
  tclass : Z;
  payload_len : Z;
  nexthdr : Z;
  hop_limit : Z;
  saddr6 : list Z;
  daddr6 : list Z }.
(** TCP and UDP: ports, what lies before the checksum, the rest with the payload. *)
Record l4hdr := L4Hdr {
  source : Z;
  dest : Z;
  l4_mid : list Z;
  l4_check : Z;
  l4_rest : list Z }.
(** Echo request and reply, of both versions. *)
Record icmphdr := IcmpHdr {
  icmp_head : list Z;
  icmp_checksum : Z;
  icmp_identifier : Z;
  icmp_rest : list Z }.

Inductive frag_flag := RTK_FC_IP_NO_FRAG | RTK_FC_IP_FIRST_FRAG | RTK_FC_IP_LATER_FRAG.
Record packet := Packet {
  h_dest : list Z;
  h_source : list Z;
  iph : option iphdr;
  ip6h : option ip6hdr;
  tcph : option l4hdr;
  udph : option l4hdr;
  icmph : option icmphdr;
  icmp6h : option icmphdr;
  isMAPT : bool;
  isXLAT : bool;
  ipFragFlag : frag_flag }.
Definition set_iph (x : option iphdr) (p : packet) : packet :=
  Packet (h_dest p) (h_source p) x (ip6h p) (tcph p) (udph p) (icmph p) (icmp6h p) (isMAPT p) (isXLAT p) (ipFragFlag p).
Definition set_ip6h (x : option ip6hdr) (p : packet) : packet :=
  Packet (h_dest p) (h_source p) (iph p) x (tcph p) (udph p) (icmph p) (icmp6h p) (isMAPT p) (isXLAT p) (ipFragFlag p).
Definition set_tcph (x : option l4hdr) (p : packet) : packet :=
  Packet (h_dest p) (h_source p) (iph p) (ip6h p) x (udph p) (icmph p) (icmp6h p) (isMAPT p) (isXLAT p) (ipFragFlag p).
Definition set_udph (x : option l4hdr) (p : packet) : packet :=
  Packet (h_dest p) (h_source p) (iph p) (ip6h p) (tcph p) x (icmph p) (icmp6h p) (isMAPT p) (isXLAT p) (ipFragFlag p).
Definition set_icmph (x : option icmphdr) (p : packet) : packet :=
  Packet (h_dest p) (h_source p) (iph p) (ip6h p) (tcph p) (udph p) x (icmp6h p) (isMAPT p) (isXLAT p) (ipFragFlag p).
Definition set_icmp6h (x : option icmphdr) (p : packet) : packet :=
  Packet (h_dest p) (h_source p) (iph p) (ip6h p) (tcph p) (udph p) (icmph p) x (isMAPT p) (isXLAT p) (ipFragFlag p).
Definition set_eth (dst src : list Z) (p : packet) : packet :=
  Packet dst src (iph p) (ip6h p) (tcph p) (udph p) (icmph p) (icmp6h p) (isMAPT p) (isXLAT p) (ipFragFlag p).

Definition with_tos (x : Z) (h : iphdr) : iphdr :=
  IpHdr (ip_first h) x (tot_len h) (ip_id h) (frag_off h) (ttl h) (protocol h) (ip_check h) (saddr h) (daddr h) (ip_options h).
Definition with_id (x : Z) (h : iphdr) : iphdr :=
  IpHdr (ip_first h) (tos h) (tot_len h) x (frag_off h) (ttl h) (protocol h) (ip_check h) (saddr h) (daddr h) (ip_options h).
Definition with_ttl (x : Z) (h : iphdr) : iphdr :=
  IpHdr (ip_first h) (tos h) (tot_len h) (ip_id h) (frag_off h) x (protocol h) (ip_check h) (saddr h) (daddr h) (ip_options h).
Definition with_ip_check (x : Z) (h : iphdr) : iphdr :=
  IpHdr (ip_first h) (tos h) (tot_len h) (ip_id h) (frag_off h) (ttl h) (protocol h) x (saddr h) (daddr h) (ip_options h).
Definition with_addresses (s d : Z) (h : iphdr) : iphdr :=
  IpHdr (ip_first h) (tos h) (tot_len h) (ip_id h) (frag_off h) (ttl h) (protocol h) (ip_check h) s d (ip_options h).
Definition with_ports (s d : Z) (h : l4hdr) : l4hdr := L4Hdr s d (l4_mid h) (l4_check h) (l4_rest h).
Definition with_l4_check (x : Z) (h : l4hdr) : l4hdr := L4Hdr (source h) (dest h) (l4_mid h) x (l4_rest h).
Definition with_identifier (x c : Z) (h : icmphdr) : icmphdr := IcmpHdr (icmp_head h) c x (icmp_rest h).

(** ** The bytes of a header, in network order *)

Definition be2 (z : Z) : list Z := [z / 256; z mod 256].
Definition be4 (z : Z) : list Z := be2 (z / 2 ^ 16) ++ be2 (z mod 2 ^ 16).
Definition ip_bytes (h : iphdr) : list Z :=
  [ip_first h; tos h] ++ be2 (tot_len h) ++ be2 (ip_id h) ++ be2 (frag_off h) ++ [ttl h; protocol h] ++
  be2 (ip_check h) ++ be4 (saddr h) ++ be4 (daddr h) ++ ip_options h.
Definition l4_bytes (h : l4hdr) : list Z :=
  be2 (source h) ++ be2 (dest h) ++ l4_mid h ++ be2 (l4_check h) ++ l4_rest h.
Definition icmp_bytes (h : icmphdr) : list Z :=
  icmp_head h ++ be2 (icmp_checksum h) ++ be2 (icmp_identifier h) ++ icmp_rest h.

(** ** Checksums made anew *)

(** [len] of UDP, or the length that follows from the IP header, is the length of the segment. *)
Definition v4_check (h : iphdr) (l : l4hdr) (len : Z) : l4hdr :=
  with_l4_check (inet_chksum_pseudo (l4_bytes (with_l4_check 0 l)) len (saddr h) (daddr h) (protocol h)) l.
Definition v6_check (h : ip6hdr) (l : l4hdr) (len : Z) : l4hdr :=
  with_l4_check (inet_chksum_pseudoV6 (l4_bytes (with_l4_check 0 l)) len (saddr6 h) (daddr6 h) (nexthdr h)) l.
(** [udph->len]: the first half of what lies between the ports and the checksum. *)
Definition udp_len (l : l4hdr) : Z := 256 * nth 0 (l4_mid l) 0 + nth 1 (l4_mid l) 0.
Definition _rtk_fc_pktHdr_v4L4Checksum_update (p : packet) : packet :=
  match iph p with
  | None => p
  | Some h =>
      let p := set_udph ((fun l => v4_check h l (udp_len l)) <$> udph p) p in
      set_tcph ((fun l => v4_check h l (u16 (tot_len h - Z.shiftl (Z.land (ip_first h) 0xf) 2))) <$> tcph p) p
  end.
Definition _rtk_fc_pktHdr_v6L4Checksum_update (p : packet) : packet :=
  match ip6h p with
  | None => p
  | Some h =>
      let p := set_udph ((fun l => v6_check h l (udp_len l)) <$> udph p) p in
      set_tcph ((fun l => v6_check h l (payload_len h)) <$> tcph p) p
  end.

(** ** Flows *)

Inductive proto_ctrl :=
| FLOW_PROTO_CTRL_NONE
| FLOW_PROTO_CTRL_MAPE_ACC (mape_tun_ipv4_addr : Z)
| FLOW_PROTO_CTRL_ICMP_ACC (egress_icmp_id : Z)
| FLOW_PROTO_CTRL_V6NAT (mapping : option (Z * list Z * bool)).
(** For the last: reference count, address and kind of the mapping; [None] is index 0. *)

Inductive in_path_t := FB_PATH_12 | FB_PATH_34 | FB_PATH_5 | FB_PATH_6.
(** What the flow entry says, with what it refers to in other tables. *)
Record flow := Flow {
  in_path : in_path_t;
  out_smac_trans : bool;
  gateway_mac_addr : list Z;             (* of the egress interface *)
  gateway_ipv4_addr : Z;
  dual_ip4inip6 : bool;
  l2Addr_da : list Z;                    (* address of the egress layer-2 entry *)
  out_dscp_act : bool;
  out_dscp : Z;
  egr_tos_ecn_remark : bool;
  egr_tos_ecn : Z;
  out_l4_act : bool;
  out_l4_direction : bool;               (* true is upstream *)
  out_l4_port : Z;
  out_dst_ipv4_addr : Z;
  protoCtrl : proto_ctrl;
  natloopback : option (option (Z * Z)); (* marked, and what the table has for it *)
  ipid_hook : option Z;                  (* an identification for MAP-E *)
  sw_chksum : bool }.                    (* no hardware makes the checksums *)

(** ** Rewriting *)

Definition new_tos (f : flow) (oriTos : Z) : Z :=
  Z.lor (if out_dscp_act f then Z.land (Z.shiftl (out_dscp f) 2) 0xfc else Z.land oriTos 0xfc)
        (if egr_tos_ecn_remark f then Z.land (egr_tos_ecn f) 3 else Z.land oriTos 3).
Definition remark (f : flow) (p : packet) : packet :=
  if out_dscp_act f || egr_tos_ecn_remark f then
    match iph p, ip6h p with
    | Some h, _ => set_iph (Some (with_tos (new_tos f (tos h)) h)) p
    | None, Some h => set_ip6h (Some (Ip6Hdr (new_tos f (tclass h)) (payload_len h) (nexthdr h) (hop_limit h) (saddr6 h) (daddr6 h))) p
    | None, None => p
    end
  else p.

Definition v6nat_index (f : flow) : option (Z * list Z * bool) :=
  match protoCtrl f with FLOW_PROTO_CTRL_V6NAT m => m | _ => None end.
Definition napt_applies (f : flow) (p : packet) : bool :=
  out_l4_act f && (bool_decide (is_Some (iph p)) || isMAPT p || isXLAT p ||
                   bool_decide (is_Some (ip6h p)) && bool_decide (is_Some (v6nat_index f))).
Definition mape_upstream (f : flow) (p : packet) : option Z :=
  match protoCtrl f with
  | FLOW_PROTO_CTRL_MAPE_ACC tun =>
      if napt_applies f p && out_l4_direction f && negb (isMAPT p || isXLAT p) && dual_ip4inip6 f then Some tun else None
  | _ => None
  end.
(** The addresses the packet gets. *)
Definition translated (f : flow) (p : packet) (h : iphdr) : Z * Z :=
  if out_l4_direction f then
    if isMAPT p || isXLAT p then (0, 0)
    else (default (gateway_ipv4_addr f) (mape_upstream f p), daddr h)
  else (saddr h, if isMAPT p || isXLAT p then daddr h else out_dst_ipv4_addr f).
Definition translate_l3 (f : flow) (p : packet) : packet :=
  match iph p with
  | None => p
  | Some h =>
      let '(s, d) := translated f p h in
      let h' := with_addresses s d h in
      set_iph (Some (match mape_upstream f p, ipid_hook f with Some _, Some x => with_id (htons x) h' | _, _ => h' end)) p
  end.
Definition has_l4 (p : packet) : bool :=
  match ipFragFlag p with RTK_FC_IP_LATER_FRAG => false | _ => true end.
(** A function of the TCP header, or if there is none of the UDP header. *)
Definition on_l4 (g : l4hdr -> l4hdr) (p : packet) : packet :=
  match tcph p, udph p with
  | Some l, _ => set_tcph (Some (g l)) p
  | None, Some l => set_udph (Some (g l)) p
  | None, None => p
  end.
Definition translate_l4 (f : flow) (p : packet) : packet :=
  if has_l4 p then
    on_l4 (fun l => if out_l4_direction f then with_ports (out_l4_port f) (dest l) l
                    else with_ports (source l) (out_l4_port f) l) p
  else p.
(** The other half of the translation, for a client and a server on the same side. *)
Definition loopback (f : flow) (p : packet) : option packet :=
  match natloopback f, iph p with
  | Some None, Some _ => None
  | Some (Some (l3_ip, l4_port)), Some h =>
      Some (if out_l4_direction f then
              on_l4 (fun l => with_ports (source l) l4_port l) (set_iph (Some (with_addresses (saddr h) l3_ip h)) p)
            else
              on_l4 (fun l => with_ports l4_port (dest l) l) (set_iph (Some (with_addresses l3_ip (daddr h) h)) p))
  | _, _ => Some p
  end.
Definition napt (f : flow) (p : packet) : option packet :=
  if napt_applies f p then loopback f (translate_l4 f (translate_l3 f p)) else Some p.

Definition icmp_identifier_update (f : flow) (p : packet) : packet :=
  match protoCtrl f with
  | FLOW_PROTO_CTRL_ICMP_ACC id =>
      let g h := with_identifier id (_rtk_fc_icmpChecksumDiff_update (ntohs (icmp_checksum h)) (ntohs (icmp_identifier h)) (ntohs id)) h in
      match icmp6h p, icmph p with
      | Some h, _ => set_icmp6h (Some (g h)) p
      | None, Some h => set_icmph (Some (g h)) p
      | None, None => p
      end
  | _ => p
  end.

(** [Some true] is NPTv6, [Some false] NAT66. *)
Definition v6nat (f : flow) (p : packet) : option bool * packet :=
  match iph p, ip6h p, v6nat_index f with
  | None, Some h, Some (refCount, addr, isNPTv6) =>
      if refCount =? 0 then (None, p)
      else (Some isNPTv6,
            set_ip6h (Some (if out_l4_direction f
                            then Ip6Hdr (tclass h) (payload_len h) (nexthdr h) (hop_limit h) addr (daddr6 h)
                            else Ip6Hdr (tclass h) (payload_len h) (nexthdr h) (hop_limit h) (saddr6 h) addr)) p)
  | _, _, _ => (None, p)
  end.

Definition hop (p : packet) : packet :=
  match iph p, ip6h p with
  | Some h, _ => set_iph (Some (with_ttl (u8 (ttl h - 1)) h)) p
  | None, Some h => set_ip6h (Some (Ip6Hdr (tclass h) (payload_len h) (nexthdr h) (u8 (hop_limit h - 1)) (saddr6 h) (daddr6 h))) p
  | None, None => p
  end.

(** The checksums, from what the packet [p0] was. *)
Definition l3_fixup (f : flow) (p0 : packet) (h0 h : iphdr) : iphdr :=
  if out_l4_act f then
    let c := _rtk_fc_L3ChecksumDiff_update (ntohs (ip_check h)) (saddr h0) (daddr h0) (tos h0) (saddr h) (daddr h) (tos h) (-1) in
    match mape_upstream f p0, ipid_hook f with
    | Some _, Some x => with_ip_check (_rtk_fc_L3ChecksumDiff_update (ntohs c) 0 0 (ntohs (ip_id h0)) 0 0 x 0) h
    | _, _ => with_ip_check c h
    end
  else with_ip_check (_rtk_fc_L3ChecksumDiff_update (ntohs (ip_check h)) 0 0 (tos h0) 0 0 (tos h) (-1)) h.
Definition l4_fixup (h0 h : iphdr) (l0 l : l4hdr) : l4hdr :=
  with_l4_check (_rtk_fc_L4ChecksumDiff_update (ntohs (l4_check l)) (saddr h0) (daddr h0) (ntohs (source l0)) (ntohs (dest l0))
                   (saddr h) (daddr h) (ntohs (source l)) (ntohs (dest l))) l.
(** A UDP checksum of 0 means that there is none. *)
Definition udp_fixup (g : l4hdr -> l4hdr) (l : l4hdr) : l4hdr := if l4_check l =? 0 then l else g l.
Definition v6_fixup (f : flow) (changed : bool) (h0 h : ip6hdr) (l0 l : l4hdr) : l4hdr :=
  let l := if changed
           then with_l4_check (_rtk_fc_L4ChecksumDiff_update (ntohs (l4_check l)) 0 0 (ntohs (source l0)) (ntohs (dest l0))
                                 0 0 (ntohs (source l)) (ntohs (dest l))) l else l in
  with_l4_check (if out_l4_direction f
                 then _rtk_fc_ipv6_L4ChecksumDiff_update (saddr6 h) (saddr6 h0) (l4_check l)
                 else _rtk_fc_ipv6_L4ChecksumDiff_update (daddr6 h) (daddr6 h0) (l4_check l)) l.
Definition fixup (f : flow) (v6Type : option bool) (p0 p : packet) : packet :=
  if negb (sw_chksum f) then p
  else match v6Type with
  | Some true => p
  | _ =>
      match iph p0, iph p with
      | Some h0, Some h =>
          let p := set_iph (Some (l3_fixup f p0 h0 h)) p in
          if out_l4_act f && has_l4 p then
            let p := match tcph p0, tcph p with Some l0, Some l => set_tcph (Some (l4_fixup h0 h l0 l)) p | _, _ => p end in
            match udph p0, udph p with Some l0, Some l => set_udph (Some (udp_fixup (l4_fixup h0 h l0) l)) p | _, _ => p end
          else p
      | _, _ =>
          match v6Type, ip6h p0, ip6h p with
          | Some false, Some h0, Some h =>
              let changed := napt_applies f p0 && has_l4 p0 in
              match tcph p0, tcph p, udph p0, udph p with
              | Some l0, Some l, _, _ => set_tcph (Some (v6_fixup f changed h0 h l0 l)) p
              | _, _, Some l0, Some l => set_udph (Some (udp_fixup (v6_fixup f changed h0 h l0) l)) p
              | _, _, _, _ => p
              end
          | _, _, _ => p
          end
      end
  end.

(** The header part of [_rtk_fc_flowModifyAndDirTx]; [None] is its early return. *)
Definition modify_headers (f : flow) (p0 : packet) : option packet :=
  let p := remark f p0 in
  match in_path f with
  | FB_PATH_5 =>
      let p := set_eth (l2Addr_da f) (gateway_mac_addr f) p in
      p ← napt f p;
      let p := icmp_identifier_update f p in
      let '(v6Type, p) := v6nat f p in
      Some (fixup f v6Type p0 (hop p))
  | FB_PATH_34 | FB_PATH_12 =>
      Some (if out_smac_trans f then set_eth (h_dest p) (gateway_mac_addr f) p else p)
  | FB_PATH_6 => Some p
  end.

(** ** Flows kept in software only *)

(** The actions of such a flow; an address of IPv6 has eight words. *)
Record sw_action := SwAction {
  l4dport : option Z;
  l4sport : option Z;
  dip : option Z;
  sip : option Z;
  dip6 : list Z;
  sip6 : list Z;
  dscpCmd : bool;
  ecnCmd : bool;
  pTos : Z;
  dmac : option (list Z);
  smac : option (list Z) }.
(** FC_IP_DSCP_MASK is 0xfc, FC_IP_ECN_MASK is 3. *)
Definition sw_tos (a : sw_action) (t : Z) : Z :=
  let t := if dscpCmd a then Z.lor (Z.land t 3) (Z.land (pTos a) 0xfc) else t in
  if ecnCmd a then Z.lor (Z.land t 0xfc) (Z.land (pTos a) 3) else t.
Definition sw_l4 (a : sw_action) (p : packet) : packet :=
  let g l := with_ports (default (source l) (l4sport a)) (default (dest l) (l4dport a)) l in
  match udph p, tcph p with
  | Some l, _ => set_udph (Some (g l)) p
  | None, Some l => set_tcph (Some (g l)) p
  | None, None => p
  end.
Definition sw_l3 (a : sw_action) (p : packet) : packet :=
  match iph p, ip6h p with
  | Some h, _ => set_iph (Some (with_tos (sw_tos a (tos h)) (with_addresses (default (saddr h) (sip a)) (default (daddr h) (dip a)) h))) p
  | None, Some h =>
      set_ip6h (Some (Ip6Hdr (sw_tos a (tclass h)) (payload_len h) (nexthdr h) (hop_limit h)
        (match sip a with Some _ => sip6 a | None => saddr6 h end) (match dip a with Some _ => dip6 a | None => daddr6 h end))) p
  | None, None => p
  end.
(** [oriTos] is the old type of service if it is remarked, else 0. *)
Definition sw_ori_tos (a : sw_action) (t : Z) : Z :=
  if dscpCmd a || ecnCmd a then t else 0.
(** [None] is FAILED: the hop count is used up, and the caller drops the packet. *)
Definition _rtk_fc_abstrSw_flow_packet_modification (a : sw_action) (p0 : packet) : option packet :=
  let p := sw_l3 a (sw_l4 a p0) in
  let p := set_eth (default (h_dest p) (dmac a)) (default (h_source p) (smac a)) p in
  let p := match smac a with Some _ => hop p | None => p end in
  match iph p0, iph p, ip6h p with
  | Some h0, Some h, _ =>
      if bool_decide (is_Some (smac a)) && (ttl h =? 0) then None
      else Some (set_iph (Some (with_ip_check
        (_rtk_fc_L3ChecksumDiff_update (ntohs (ip_check h)) 0 0 (sw_ori_tos a (tos h0)) 0 0 (tos h)
           (match smac a with Some _ => -1 | None => 0 end)) h)) p)
  | _, _, Some h => if bool_decide (is_Some (smac a)) && (hop_limit h =? 0) then None else Some p
  | _, _, None => Some p
  end.
