(* ===== verification/FcRewriteSpec.v ===== *)
(** * What rewriting a packet guarantees

    A packet whose checksums are right leaves address translation with right checksums,
    and the reply to a translated packet is translated back. *)
From S2P Require Import Prelude FcChecksum FcChecksumSpec FcRewrite.
Open Scope Z_scope.

(** ** Well-formed packets *)

Definition ip_ok (h : iphdr) : Prop :=
  is_u8 (ip_first h) /\ 0 < ip_first h /\ is_u8 (tos h) /\ is_u16 (tot_len h) /\ is_u16 (ip_id h) /\ is_u16 (frag_off h) /\
  is_u8 (ttl h) /\ is_u8 (protocol h) /\ is_u16 (ip_check h) /\ is_u32 (saddr h) /\ is_u32 (daddr h) /\
  Forall is_u8 (ip_options h) /\ (length (ip_options h) <= 40)%nat.
Definition l4_ok (l : l4hdr) : Prop :=
  is_u16 (source l) /\ is_u16 (dest l) /\ is_u16 (l4_check l) /\ Forall is_u8 (l4_mid l) /\ Forall is_u8 (l4_rest l) /\
  Nat.even (length (l4_mid l)) = true /\ short (l4_bytes l).
Definition ip_verifies (h : iphdr) : Prop := inet_chksum (ip_bytes h) (Z.of_nat (length (ip_bytes h))) = 0.
(** The receiver's check of a segment: its bytes with the pseudo header. *)
Definition l4_verifies (h : iphdr) (l : l4hdr) : Prop :=
  inet_chksum_pseudo (l4_bytes l) (Z.of_nat (length (l4_bytes l))) (saddr h) (daddr h) (protocol h) = 0.

Lemma be2_bytes z : is_u16 z -> Forall is_u8 (be2 z) /\ word_sum (be2 z) = z.
Proof.
  unfold is_u16, is_u8. intros H. pose proof (Z.div_mod z 256). pose proof (Z.mod_pos_bound z 256).
  assert (0 <= z / 256 < 256) by (split; [apply Z.div_pos|apply Z.div_lt_upper_bound]; lia).
  split; [repeat constructor; lia|cbn [be2 word_sum]; lia].
Qed.
Lemma be4_bytes z : is_u32 z -> Forall is_u8 (be4 z) /\ word_sum (be4 z) = address_sum z.
Proof.
  intros H. destruct (address_range z H) as (_ & _ & _ & H1 & H2).
  destruct (be2_bytes _ H1) as [F1 W1], (be2_bytes _ H2) as [F2 W2].
  unfold be4. split; [by apply Forall_app|]. rewrite word_sum_app by done. unfold address_sum. lia.
Qed.

(** The sum of a header without its checksum and addresses. *)
Definition ip_fixed (h : iphdr) : Z := 256 * ip_first h + tot_len h + ip_id h + frag_off h + protocol h + word_sum (ip_options h).
Lemma ip_sum h : ip_ok h -> Forall is_u8 (ip_bytes h) /\ short (ip_bytes h) /\
  word_sum (ip_bytes h) = ip_fixed h + tos h + 256 * ttl h + ip_check h + address_sum (saddr h) + address_sum (daddr h) /\
  0 < ip_fixed h.
Proof.
  intros (H1 & Hpos & H2 & H3 & H4 & H5 & H6 & H7 & H8 & H9 & H10 & H11 & H12).
  destruct (be2_bytes _ H3) as [F3 W3], (be2_bytes _ H4) as [F4 W4], (be2_bytes _ H5) as [F5 W5], (be2_bytes _ H8) as [F8 W8].
  destruct (be4_bytes _ H9) as [F9 W9], (be4_bytes _ H10) as [F10 W10]. pose proof (word_sum_range _ H11) as Ho.
  unfold ip_bytes. split; [|split; [|split]].
  - rewrite !Forall_app. rewrite !Forall_cons, !Forall_nil. tauto.
  - unfold short. rewrite !length_app. unfold be4. rewrite !length_app. unfold be2. simpl length. lia.
  - rewrite !word_sum_app by done. rewrite W3, W4, W5, W8, W9, W10. unfold ip_fixed. simpl. lia.
  - unfold ip_fixed, is_u8, is_u16 in *. lia.
Qed.
Definition l4_fixed (l : l4hdr) : Z := word_sum (l4_mid l) + word_sum (l4_rest l).
Lemma l4_sum l : l4_ok l -> Forall is_u8 (l4_bytes l) /\
  word_sum (l4_bytes l) = l4_fixed l + source l + dest l + l4_check l /\ 0 <= l4_fixed l /\ (0 < length (l4_bytes l))%nat.
Proof.
  intros (H1 & H2 & H3 & H4 & H5 & H6 & H7).
  destruct (be2_bytes _ H1) as [F1 W1], (be2_bytes _ H2) as [F2 W2], (be2_bytes _ H3) as [F3 W3].
  pose proof (word_sum_range _ H4). pose proof (word_sum_range _ H5). unfold l4_bytes, l4_fixed. split; [|split; [|split]].
  - rewrite !Forall_app. tauto.
  - rewrite !word_sum_app by done. lia.
  - lia.
  - rewrite !length_app. simpl. lia.
Qed.

Lemma balanced_shift a b : balanced a -> b ≡₁ a -> 0 < b -> balanced b.
Proof. intros [_ E] E2 Hb. split; [done|]. congruence. Qed.

Lemma ip_verifies_iff h : ip_ok h -> ip_verifies h <->
  (ip_fixed h + tos h + 256 * ttl h + ip_check h + address_sum (saddr h) + address_sum (daddr h)) ≡₁ 0.
Proof.
  intros H. pose proof (ip_sum h H) as (F & S & E & P). unfold ip_verifies. rewrite inet_verifies by done. rewrite E.
  unfold balanced. split; [by intros [_ ?]|]. intros ?. split; [|done].
  destruct H as (_ & _ & H2 & _ & _ & _ & H6 & _ & H8 & H9 & H10 & _).
  pose proof (address_range _ H9) as [? _]. pose proof (address_range _ H10) as [? _]. unfold is_u8, is_u16 in *. lia.
Qed.
Lemma l4_verifies_iff h l : ip_ok h -> l4_ok l -> l4_verifies h l <->
  (l4_fixed l + source l + dest l + l4_check l + address_sum (saddr h) + address_sum (daddr h) + protocol h +
   Z.of_nat (length (l4_bytes l))) ≡₁ 0.
Proof.
  intros Hh Hl. pose proof (l4_sum l Hl) as (F & E & P & Hlen). pose proof Hl as (H1 & H2 & H3 & _ & _ & _ & S).
  destruct Hh as (_ & _ & _ & _ & _ & _ & _ & H7 & _ & H9 & H10 & _). unfold l4_verifies.
  pose proof (address_range _ H9) as [? _]. pose proof (address_range _ H10) as [? _]. unfold is_u8 in H7.
  rewrite pseudo_verifies, E by (try done; unfold is_u16; lia). unfold balanced. unfold is_u16 in *.
  split; [by intros [_ ?]|]. intros ?. split; [lia|done].
Qed.

(** ** The steps of rewriting an IPv4 packet *)

Definition flow_ok (f : flow) : Prop :=
  is_u32 (gateway_ipv4_addr f) /\ is_u32 (out_dst_ipv4_addr f) /\ is_u16 (out_l4_port f) /\
  match protoCtrl f with FLOW_PROTO_CTRL_MAPE_ACC tun => is_u32 tun | FLOW_PROTO_CTRL_ICMP_ACC id => is_u16 id | _ => True end /\
  match natloopback f with Some (Some (ip, port)) => is_u32 ip /\ is_u16 port | _ => True end /\
  match ipid_hook f with Some x => is_u16 x | None => True end.
(** The layer-4 header of a later fragment is payload. *)
Definition packet_ok (p : packet) : Prop :=
  match iph p with Some h => ip_ok h | None => True end /\
  match tcph p with Some l => l4_ok l | None => True end /\
  match udph p with Some l => l4_ok l | None => True end /\
  (has_l4 p = false -> tcph p = None /\ udph p = None).

(** What rewriting leaves as it is. *)
Definition ip_moved (h0 h : iphdr) : Prop :=
  ip_first h = ip_first h0 /\ tot_len h = tot_len h0 /\ frag_off h = frag_off h0 /\ protocol h = protocol h0 /\
  ip_check h = ip_check h0 /\ ip_options h = ip_options h0 /\ is_u8 (tos h) /\ is_u32 (saddr h) /\ is_u32 (daddr h).
Definition l4_moved (l0 l : l4hdr) : Prop :=
  l4_mid l = l4_mid l0 /\ l4_check l = l4_check l0 /\ l4_rest l = l4_rest l0 /\ is_u16 (source l) /\ is_u16 (dest l).
Definition l4s_moved (p0 p : packet) : Prop :=
  option_Forall2 l4_moved (tcph p0) (tcph p) /\ option_Forall2 l4_moved (udph p0) (udph p).

Lemma mask_u8 a m : 0 <= m < 256 -> 0 <= Z.land a m < 256.
Proof.
  intros Hm. split; [apply Z.land_nonneg; right; lia|]. destruct (Z.eq_dec m 0) as [->|Hn]; [by rewrite Z.land_0_r|].
  apply Z.le_lt_trans with (Z.land (Z.land a m) (Z.ones 8)); [|rewrite Z.land_ones by done; apply Z.mod_pos_bound; done].
  rewrite <- Z.land_assoc, (Z.land_ones m) by done. change (2 ^ 8) with 256. by rewrite Z.mod_small.
Qed.
Lemma lor_u8 a b : is_u8 a -> is_u8 b -> is_u8 (Z.lor a b).
Proof.
  unfold is_u8. intros Ha Hb. split; [apply Z.lor_nonneg; lia|].
  destruct (Z.eq_dec (Z.lor a b) 0) as [->|Hn]; [done|]. apply Z.log2_lt_pow2; [pose proof (Z.lor_nonneg a b); lia|].
  rewrite Z.log2_lor by lia. assert (forall x, 0 <= x < 2 ^ 8 -> Z.log2 x < 8) as Hl.
  { intros x Hx. destruct (Z.eq_dec x 0) as [->|]; [done|]. apply Z.log2_lt_pow2; lia. }
  apply Z.max_lub_lt; by apply Hl.
Qed.
Lemma new_tos_u8 f t : is_u8 (new_tos f t).
Proof. unfold new_tos. apply lor_u8; case_match; apply mask_u8; lia. Qed.

Lemma remark_v4 f p h0 : iph p = Some h0 -> ip_ok h0 -> exists t, is_u8 t /\ remark f p = set_iph (Some (with_tos t h0)) p.
Proof.
  intros E H. unfold remark. rewrite E. destruct (out_dscp_act f || egr_tos_ecn_remark f).
  - exists (new_tos f (tos h0)). split; [apply new_tos_u8|done].
  - exists (tos h0). split; [apply H|]. destruct p, h0; simpl in *; by rewrite E.
Qed.

Lemma on_l4_moved g p0 p : (forall l0 l, l4_moved l0 l -> l4_moved l0 (g l)) -> l4s_moved p0 p -> l4s_moved p0 (on_l4 g p).
Proof.
  intros Hg [Ht Hu]. unfold on_l4, l4s_moved. destruct (tcph p) as [l|] eqn:Et; [|destruct (udph p) as [l|] eqn:Eu]; simpl.
  - inversion Ht; subst. split; [constructor; auto|done].
  - inversion Hu; subst. rewrite Et. split; [done|constructor; auto].
  - by rewrite Et, Eu.
Qed.
Lemma on_l4_iph g p : iph (on_l4 g p) = iph p.
Proof. unfold on_l4. by repeat case_match. Qed.
Lemma on_l4_frag g p : ipFragFlag (on_l4 g p) = ipFragFlag p.
Proof. unfold on_l4. by repeat case_match. Qed.

(** Translation changes addresses, ports and, for MAP-E, the identification. *)
Lemma napt_v4 f p0 p p' h0 h : flow_ok f -> iph p = Some h -> ip_moved h0 h -> l4s_moved p0 p -> napt f p = Some p' ->
  exists h', iph p' = Some h' /\ ip_moved h0 h' /\ l4s_moved p0 p' /\ ttl h' = ttl h /\ tos h' = tos h /\
    ipFragFlag p' = ipFragFlag p /\
    ip_id h' = (match mape_upstream f p, ipid_hook f with Some _, Some x => x | _, _ => ip_id h end) /\
    (out_l4_act f = false -> p' = p).
Proof.
  intros (Hg & Hd & Hp & Hc & Hn & Hi) E Hm Hl. unfold napt. destruct (napt_applies f p) eqn:Ea.
  2: { intros [= <-]. exists h. split_and!; try done. unfold mape_upstream. rewrite Ea. by destruct (protoCtrl f). }
  assert (out_l4_act f = true) as Hact by (unfold napt_applies in Ea; by apply andb_true_iff in Ea as [? _]).
  unfold translate_l3. rewrite E. destruct (translated f p h) as [s d] eqn:Etr.
  assert (is_u32 s /\ is_u32 d) as [Hs' Hd'].
  { destruct Hm as (_ & _ & _ & _ & _ & _ & _ & Hsa & Hda). assert (is_u32 0) by (unfold is_u32; lia).
    assert (is_u32 (default (gateway_ipv4_addr f) (mape_upstream f p))).
    { unfold mape_upstream. destruct (protoCtrl f); try done. by destruct (_ && _ && _ && _). }
    unfold translated in Etr. destruct (out_l4_direction f), (isMAPT p || isXLAT p); by injection Etr as <- <-. }
  set (h1 := match mape_upstream f p, ipid_hook f with Some _, Some x => _ | _, _ => _ end).
  assert (ip_moved h0 h1 /\ ttl h1 = ttl h /\ tos h1 = tos h /\
    ip_id h1 = (match mape_upstream f p, ipid_hook f with Some _, Some x => x | _, _ => ip_id h end)) as (Hm1 & T1 & O1 & I1).
  { destruct Hm as (? & ? & ? & ? & ? & ? & ? & ? & ?). unfold h1, ip_moved. destruct (mape_upstream f p), (ipid_hook f); simpl;
      rewrite ?htons_small by done; tauto. }
  clearbody h1. set (q := translate_l4 f _). assert (iph q = Some h1 /\ l4s_moved p0 q /\ ipFragFlag q = ipFragFlag p) as (Eq & Hlq & Fq).
  { unfold q, translate_l4. destruct (has_l4 _); [|by split; [|split]].
    rewrite on_l4_iph, on_l4_frag. split; [done|]. split; [|done].
    apply on_l4_moved; [|done]. intros l0 l (? & ? & ? & ? & ?). destruct (out_l4_direction f); unfold l4_moved; simpl; tauto. }
  clearbody q. unfold loopback. rewrite Eq. destruct (natloopback f) as [[[lip lport]|]|]; [|done|].
  - destruct Hn as [Hn1 Hn2]. destruct Hm1 as (? & ? & ? & ? & ? & ? & ? & ? & ?). intros [= <-].
    exists (if out_l4_direction f then with_addresses (saddr h1) lip h1 else with_addresses lip (daddr h1) h1).
    destruct (out_l4_direction f); rewrite on_l4_iph, on_l4_frag; (split; [done|]; split; [unfold ip_moved; simpl; tauto|]; split;
      [apply on_l4_moved; [intros l0 l (? & ? & ? & ? & ?); unfold l4_moved; simpl; tauto|done]|
       split; [done|]; split; [done|]; split; [done|]; split; [done|congruence]]).
  - intros [= <-]. exists h1. split_and!; try done. congruence.
Qed.

(** The whole of it, up to the checksums. *)
Lemma mape_same f p q : (is_Some (iph q) <-> is_Some (iph p)) -> (is_Some (ip6h q) <-> is_Some (ip6h p)) ->
  isMAPT q = isMAPT p -> isXLAT q = isXLAT p -> mape_upstream f q = mape_upstream f p.
Proof.
  intros H1 H2 E1 E2. unfold mape_upstream, napt_applies. rewrite E1, E2.
  by rewrite (bool_decide_ext _ _ H1), (bool_decide_ext _ _ H2).
Qed.
Lemma icmp_step f p : iph (icmp_identifier_update f p) = iph p /\ tcph (icmp_identifier_update f p) = tcph p /\
  udph (icmp_identifier_update f p) = udph p /\ ipFragFlag (icmp_identifier_update f p) = ipFragFlag p.
Proof. unfold icmp_identifier_update. by repeat case_match. Qed.

Lemma path5_v4 f p0 p' h0 : flow_ok f -> packet_ok p0 -> in_path f = FB_PATH_5 -> iph p0 = Some h0 -> modify_headers f p0 = Some p' ->
  exists p h, p' = fixup f None p0 p /\ iph p = Some h /\ ip_moved h0 h /\ l4s_moved p0 p /\ ttl h = u8 (ttl h0 - 1) /\
    ipFragFlag p = ipFragFlag p0 /\
    ip_id h = (match mape_upstream f p0, ipid_hook f with Some _, Some x => x | _, _ => ip_id h0 end) /\
    (out_l4_act f = false -> saddr h = saddr h0 /\ daddr h = daddr h0 /\ tcph p = tcph p0 /\ udph p = udph p0).
Proof.
  intros Hf (Hh & Ht & Hu & Hfr) Ep E Hmod. rewrite E in Hh. unfold modify_headers in Hmod. rewrite Ep in Hmod.
  destruct (remark_v4 f p0 h0 E Hh) as (t & Bt & Er). rewrite Er in Hmod.
  set (p1 := set_eth _ _ _) in Hmod. destruct (napt f p1) as [p2|] eqn:En; [|done]. simpl in Hmod.
  destruct Hh as (B1 & B0 & B2 & B3 & B4 & B5 & B6 & B7 & B8 & B9 & B10 & B11 & B12).
  assert (l4s_moved p0 p1) as Hl1.
  { assert (forall o, match o with Some l => l4_ok l | None => True end -> option_Forall2 l4_moved o o) as Hr.
    { intros [l|] Hl; constructor. destruct Hl as (? & ? & _). unfold l4_moved. tauto. }
    split; by apply Hr. }
  destruct (napt_v4 f p0 p1 p2 h0 (with_tos t h0) Hf eq_refl ltac:(unfold ip_moved; simpl; tauto) Hl1 En)
    as (h2 & E2 & Hm2 & Hl2 & T2 & O2 & F2 & I2 & N2).
  assert (mape_upstream f p1 = mape_upstream f p0) as Emape.
  { by apply mape_same. }
  rewrite Emape in I2. destruct (icmp_step f p2) as (E3 & Et3 & Eu3 & F3). set (p3 := icmp_identifier_update f p2) in *.
  rewrite E2 in E3. unfold v6nat in Hmod. rewrite E3 in Hmod. unfold hop in Hmod. rewrite E3 in Hmod. injection Hmod as <-.
  exists (set_iph (Some (with_ttl (u8 (ttl h2 - 1)) h2)) p3), (with_ttl (u8 (ttl h2 - 1)) h2).
  split; [done|]. split; [done|]. split; [exact Hm2|]. split; [unfold l4s_moved in *; simpl; by rewrite Et3, Eu3|].
  split; [by simpl; rewrite T2|]. split; [simpl; by rewrite F3, F2|]. split; [exact I2|].
  intros Hact. specialize (N2 Hact). subst p2. simpl in E2. injection E2 as <-. simpl. by rewrite Et3, Eu3.
Qed.

(** ** The checksums of the result *)

Lemma moved_ok h0 h c x : ip_ok h0 -> ip_moved h0 h -> is_u8 (ttl h) -> is_u16 (ip_id h) -> is_u16 c -> x = with_ip_check c h -> ip_ok x.
Proof.
  intros (? & ? & ? & ? & ? & ? & ? & ? & ? & ? & ? & ? & ?) (E1 & E2 & E3 & E4 & E5 & E6 & ? & ? & ?) Ht Hi Hc ->.
  unfold ip_ok. simpl. rewrite E1, E2, E3, E4, E6. tauto.
Qed.
Lemma tos_u16 z : is_u8 z -> is_u16 z.
Proof. unfold is_u8, is_u16. lia. Qed.

Lemma l3_fixup_verifies f p0 h0 h : ip_ok h0 -> ip_moved h0 h -> 1 <= ttl h0 -> ttl h = u8 (ttl h0 - 1) ->
  match ipid_hook f with Some x => is_u16 x | None => True end ->
  ip_id h = (match mape_upstream f p0, ipid_hook f with Some _, Some x => x | _, _ => ip_id h0 end) ->
  (out_l4_act f = false -> saddr h = saddr h0 /\ daddr h = daddr h0) ->
  ip_verifies h0 -> ip_verifies (l3_fixup f p0 h0 h) /\ ip_ok (l3_fixup f p0 h0 h).
Proof.
  intros H0 Hm Htt Et Hx Ei Hna Hv. apply (ip_verifies_iff h0 H0) in Hv.
  pose proof H0 as (B1 & B0 & B2 & B3 & B4 & B5 & B6 & B7 & B8 & B9 & B10 & B11 & B12).
  destruct Hm as (E1 & E2 & E3 & E4 & E5 & E6 & M2 & M9 & M10).
  rewrite u8_small in Et by (unfold is_u8 in *; lia).
  assert (exists c, l3_fixup f p0 h0 h = with_ip_check c h /\ is_u16 c /\
    c ≡₁ ip_check h0 + address_sum (saddr h0) - address_sum (saddr h) + address_sum (daddr h0) - address_sum (daddr h) +
         tos h0 - tos h + 256 + ip_id h0 - ip_id h) as (c & -> & Hc & Ec).
  { assert (is_u32 0) by (unfold is_u32; lia). assert (is_u16 0) by (unfold is_u16; lia).
    assert (address_sum 0 = 0) as A0 by done.
    pose proof (tos_u16 _ B2) as T0. pose proof (tos_u16 _ M2) as T1.
    unfold l3_fixup, ntohs. rewrite E5, (u16_small (ip_check h0)), (u16_small (ip_id h0)) by done.
    destruct (out_l4_act f) eqn:Ea.
    - destruct (L3_update_spec (ip_check h0) (saddr h0) (daddr h0) (tos h0) (saddr h) (daddr h) (tos h) true) as [R1 C1]; try done.
      set (c1 := _rtk_fc_L3ChecksumDiff_update (ip_check h0) _ _ _ _ _ _ _) in *.
      destruct (mape_upstream f p0) as [tun|]; [destruct (ipid_hook f) as [x|]|].
      + destruct (L3_update_spec c1 0 0 (ip_id h0) 0 0 x false) as [R2 C2]; try done. rewrite (u16_small c1) by done. eexists. split; [done|]. split; [done|].
        apply mod_eq_elim in C1 as [k1 C1], C2 as [k2 C2]. apply mod_eq_intro with (k := k1 + k2). rewrite Ei. cbv zeta in *. lia.
      + eexists. split; [done|]. split; [done|]. apply mod_eq_elim in C1 as [k1 C1]. apply mod_eq_intro with (k := k1). lia.
      + eexists. split; [done|]. split; [done|]. apply mod_eq_elim in C1 as [k1 C1]. apply mod_eq_intro with (k := k1). lia.
    - destruct (Hna eq_refl) as [-> ->]. assert (ip_id h = ip_id h0) as ->.
      { rewrite Ei. unfold mape_upstream, napt_applies. rewrite Ea. by destruct (protoCtrl f). }
      destruct (L3_update_spec (ip_check h0) 0 0 (tos h0) 0 0 (tos h) true) as [R1 C1]; try done. eexists. split; [done|]. split; [done|].
      apply mod_eq_elim in C1 as [k1 C1]. apply mod_eq_intro with (k := k1). lia. }
  assert (is_u16 (ip_id h)) as Hi by (rewrite Ei; repeat case_match; done).
  assert (ip_ok (with_ip_check c h)) as Hok.
  { apply (moved_ok h0 h c); [done|unfold ip_moved; tauto|unfold is_u8 in *; lia|done..]. }
  split; [|done]. apply (ip_verifies_iff _ Hok). unfold ip_fixed in *. simpl. rewrite E1, E2, E3, E4, E6, Et.
  apply mod_eq_elim in Hv as [k1 Hv], Ec as [k2 Ec]. apply mod_eq_intro with (k := k1 + k2). lia.
Qed.

Lemma l4_moved_bytes l0 l : l4_ok l0 -> l4_moved l0 l -> forall c, is_u16 c -> let x := with_l4_check c l in
  l4_ok x /\ length (l4_bytes x) = length (l4_bytes l0) /\ l4_fixed x = l4_fixed l0 /\ source x = source l /\ dest x = dest l /\ l4_check x = c.
Proof.
  intros (H1 & H2 & H3 & H4 & H5 & H6 & H7) (E1 & E2 & E3 & Hs & Hd) c Hc x.
  assert (length (l4_bytes x) = length (l4_bytes l0)) as El.
  { unfold x, l4_bytes, be2. simpl. rewrite E1, E3, !length_app. done. }
  split; [unfold l4_ok, short in *; rewrite El; simpl; rewrite E1, E3; tauto|].
  split; [done|]. split; [|done]. unfold l4_fixed, x. cbn [l4_mid l4_rest with_l4_check]. by rewrite E1, E3.
Qed.
Lemma l4_fixup_verifies h0 h h' l0 l : ip_ok h0 -> ip_moved h0 h -> ip_ok h' -> protocol h' = protocol h0 -> saddr h' = saddr h ->
  daddr h' = daddr h -> l4_ok l0 -> l4_moved l0 l -> l4_verifies h0 l0 -> l4_verifies h' (l4_fixup h0 h l0 l).
Proof.
  intros H0 Hm H' Ep Es Ed Hl0 Hl Hv. pose proof Hl0 as (B1 & B2 & B3 & _). pose proof Hl as (_ & E2 & _ & B4 & B5).
  pose proof H0 as (_ & _ & _ & _ & _ & _ & _ & _ & _ & A1 & A2 & _). destruct Hm as (_ & _ & _ & _ & _ & _ & _ & A3 & A4).
  unfold l4_fixup, ntohs. rewrite E2, !u16_small by done.
  destruct (L4_update_spec (l4_check l0) (saddr h0) (daddr h0) (source l0) (dest l0) (saddr h) (daddr h) (source l) (dest l)) as [Hc Ec];
    try done. set (c := _rtk_fc_L4ChecksumDiff_update _ _ _ _ _ _ _ _ _) in *. cbv zeta in Hc, Ec.
  destruct (l4_moved_bytes l0 l Hl0 Hl c Hc) as (Hok & Elen & Efix & Eso & Ede & Ech).
  apply (l4_verifies_iff _ _ H0 Hl0) in Hv. apply (l4_verifies_iff _ _ H' Hok). rewrite Efix, Eso, Ede, Ech, Es, Ed, Ep, Elen.
  apply mod_eq_elim in Hv as [k1 Hv], Ec as [k2 Ec]. apply mod_eq_intro with (k := k1 + k2). lia.
Qed.
Lemma l4_same_verifies h h' l : protocol h' = protocol h -> saddr h' = saddr h -> daddr h' = daddr h ->
  l4_verifies h l -> l4_verifies h' l.
Proof. unfold l4_verifies. by intros -> -> ->. Qed.

(** One layer-4 header of the result. *)
Definition l4_kept (V V' : l4hdr -> Prop) (o o' : option l4hdr) : Prop :=
  match o with
  | None => o' = None
  | Some l => V l -> exists l', o' = Some l' /\ V' l'
  end.
(** UDP without a checksum stays without. *)
Definition udp_kept (V V' : l4hdr -> Prop) (o o' : option l4hdr) : Prop :=
  match o with
  | Some l => if l4_check l =? 0 then exists l', o' = Some l' /\ l4_check l' = 0 else l4_kept V V' o o'
  | None => o' = None
  end.
Definition verifies_after (h0 : iphdr) (p0 p' : packet) : Prop :=
  exists h', iph p' = Some h' /\ ip_verifies h' /\ l4_kept (l4_verifies h0) (l4_verifies h') (tcph p0) (tcph p') /\ udp_kept (l4_verifies h0) (l4_verifies h') (udph p0) (udph p').

Lemma fixup_v4 f p0 p h0 h : flow_ok f -> packet_ok p0 -> sw_chksum f = true -> iph p0 = Some h0 -> iph p = Some h ->
  ip_moved h0 h -> l4s_moved p0 p -> ttl h = u8 (ttl h0 - 1) -> ipFragFlag p = ipFragFlag p0 -> 1 <= ttl h0 ->
  ip_id h = (match mape_upstream f p0, ipid_hook f with Some _, Some x => x | _, _ => ip_id h0 end) ->
  (out_l4_act f = false -> saddr h = saddr h0 /\ daddr h = daddr h0 /\ tcph p = tcph p0 /\ udph p = udph p0) ->
  ip_verifies h0 -> verifies_after h0 p0 (fixup f None p0 p).
Proof.
  intros Hf (Hh & Ht & Hu & Hfr) Hsw E0 E Hm [Lt Lu] Et Ef Htt Ei Hna Hv. rewrite E0 in Hh.
  destruct (l3_fixup_verifies f p0 h0 h) as [Hv' Hok']; try done; [apply Hf|intros Ha; destruct (Hna Ha) as (? & ? & _); done|].
  set (h' := l3_fixup f p0 h0 h) in *.
  assert (protocol h' = protocol h0 /\ saddr h' = saddr h /\ daddr h' = daddr h) as (Ep & Es & Ed).
  { destruct Hm as (_ & _ & _ & Ep & _). unfold h', l3_fixup. repeat case_match; done. }
  unfold verifies_after, fixup. rewrite Hsw, E0, E. cbn [negb]. fold h'.
  set (p1 := set_iph (Some h') p). assert (has_l4 p1 = has_l4 p0) as Ehas by (unfold has_l4, p1; simpl; by rewrite Ef).
  destruct (out_l4_act f) eqn:Ea; cbn [andb].
  2: { destruct (Hna eq_refl) as (Es0 & Ed0 & Et0 & Eu0). exists h'. split_and!; [done|done| |]; simpl; rewrite ?Et0, ?Eu0.
    - unfold l4_kept. destruct (tcph p0) as [l|]; [|done]. intros Hl. exists l. split; [done|]. eapply l4_same_verifies; [..|exact Hl]; congruence.
    - unfold udp_kept, l4_kept. destruct (udph p0) as [l|]; [|done]. destruct (Z.eqb_spec (l4_check l) 0); [by exists l|].
      intros Hl. exists l. split; [done|]. eapply l4_same_verifies; [..|exact Hl]; congruence. }
  rewrite Ehas. destruct (has_l4 p0) eqn:Eh.
  2: { destruct (Hfr eq_refl) as [Nt Nu]. rewrite Nt in Lt. rewrite Nu in Lu. inversion Lt. inversion Lu.
    exists h'. rewrite Nt, Nu. split_and!; try done. }
  change (tcph p1) with (tcph p). set (p2 := match tcph p0 with Some _ => _ | None => _ end).
  assert (iph p2 = Some h' /\ udph p2 = udph p /\ l4_kept (l4_verifies h0) (l4_verifies h') (tcph p0) (tcph p2)) as (I2 & U2 & K2).
  { unfold p2, l4_kept. inversion Lt as [l0 l Hl El0 El|El0 El]; simpl; [|by rewrite <- El].
    split_and!; try done. intros Hlv. eexists. split; [done|]. rewrite <- El0 in Ht. eapply l4_fixup_verifies; done. }
  clearbody p2. rewrite U2. exists h'.
  inversion Lu as [l0 l Hl El0 El|El0 El]; simpl; [|rewrite <- El in U2; split_and!; by rewrite ?U2].
  split_and!; try done. rewrite <- El0 in Hu. unfold udp_kept, udp_fixup. destruct Hl as (X1 & X2 & X3). rewrite X2.
  destruct (Z.eqb_spec (l4_check l0) 0) as [Ez|Ez]; [by exists l; rewrite X2|].
  intros Hlv. eexists. split; [done|]. eapply l4_fixup_verifies; try done.
Qed.

(** ** IPv6 *)

Definition address6_ok (a : list Z) : Prop := Forall is_u16 a /\ length a = 8%nat.
Definition ip6_ok (h : ip6hdr) : Prop := address6_ok (saddr6 h) /\ address6_ok (daddr6 h) /\ is_u8 (nexthdr h).
Definition l4_verifies6 (h : ip6hdr) (l : l4hdr) : Prop :=
  inet_chksum_pseudoV6 (l4_bytes l) (Z.of_nat (length (l4_bytes l))) (saddr6 h) (daddr6 h) (nexthdr h) = 0.
Definition packet6_ok (p : packet) : Prop :=
  iph p = None /\ match ip6h p with Some h => ip6_ok h | None => True end /\
  match tcph p with Some l => l4_ok l | None => True end /\
  match udph p with Some l => l4_ok l | None => True end /\ (tcph p = None \/ udph p = None).

Lemma words_nonneg ws : Forall is_u16 ws -> 0 <= words_sum ws.
Proof. induction 1 as [|w ws Hw _ IH]; cbn; [done|]. fold (words_sum ws). unfold is_u16 in Hw. lia. Qed.
Lemma l4_verifies6_iff h l : ip6_ok h -> l4_ok l -> l4_verifies6 h l <->
  (l4_fixed l + source l + dest l + l4_check l + words_sum (saddr6 h) + words_sum (daddr6 h) + nexthdr h +
   Z.of_nat (length (l4_bytes l))) ≡₁ 0.
Proof.
  intros ([Hs Ls] & [Hd Ld] & Hn) Hl. pose proof (l4_sum l Hl) as (F & E & P & Hlen). pose proof Hl as (H1 & H2 & H3 & _ & _ & _ & S).
  pose proof (words_nonneg _ Hs). pose proof (words_nonneg _ Hd).
  unfold l4_verifies6. rewrite pseudoV6_verifies, E by (try done; by apply tos_u16). unfold balanced, is_u8, is_u16 in *.
  split; [by intros [_ ?]|]. intros ?. split; [lia|done].
Qed.

(** The new address of one side. *)
Definition readdress (up : bool) (a : list Z) (h : ip6hdr) : ip6hdr :=
  if up then Ip6Hdr (tclass h) (payload_len h) (nexthdr h) (hop_limit h) a (daddr6 h)
  else Ip6Hdr (tclass h) (payload_len h) (nexthdr h) (hop_limit h) (saddr6 h) a.
Lemma v6_fixup_verifies f changed h0 h a l0 l : ip6_ok h0 -> address6_ok a -> l4_ok l0 -> l4_moved l0 l ->
  saddr6 h = saddr6 (readdress (out_l4_direction f) a h0) -> daddr6 h = daddr6 (readdress (out_l4_direction f) a h0) ->
  nexthdr h = nexthdr h0 -> (changed = false -> source l = source l0 /\ dest l = dest l0) ->
  l4_verifies6 h0 l0 -> l4_verifies6 h (v6_fixup f changed h0 h l0 l).
Proof.
  intros H0 Ha Hl0 Hl Es Ed En Hch Hv. pose proof Hl0 as (B1 & B2 & B3 & _). pose proof Hl as (_ & E2 & _ & B4 & B5).
  pose proof H0 as ([Hs Ls] & [Hd Ld] & Hn). destruct Ha as [Ha La].
  assert (ip6_ok h) as H.
  { unfold ip6_ok, address6_ok. rewrite Es, Ed, En. unfold readdress. destruct (out_l4_direction f); simpl; tauto. }
  assert (exists c1, is_u16 c1 /\ c1 ≡₁ l4_check l0 + source l0 - source l + dest l0 - dest l /\
    v6_fixup f changed h0 h l0 l = with_l4_check (if out_l4_direction f
      then _rtk_fc_ipv6_L4ChecksumDiff_update (saddr6 h) (saddr6 h0) c1
      else _rtk_fc_ipv6_L4ChecksumDiff_update (daddr6 h) (daddr6 h0) c1) l) as (c1 & Hc1 & Ec1 & ->).
  { unfold v6_fixup, ntohs. destruct changed.
    - rewrite E2, !u16_small by done. assert (is_u32 0) by (unfold is_u32; lia).
      destruct (L4_update_spec (l4_check l0) 0 0 (source l0) (dest l0) 0 0 (source l) (dest l)) as [Hc Ec]; try done.
      eexists. split; [exact Hc|]. split; [|by destruct (out_l4_direction f)]. rewrite Ec. change (address_sum 0) with 0. f_equal. lia.
    - destruct (Hch eq_refl) as [-> ->]. exists (l4_check l0). rewrite E2. split; [done|]. split; [f_equal; lia|by destruct (out_l4_direction f)]. }
  assert (exists c, is_u16 c /\ c ≡₁ c1 + words_sum (saddr6 h0) - words_sum (saddr6 h) + words_sum (daddr6 h0) - words_sum (daddr6 h) /\
    (if out_l4_direction f then _rtk_fc_ipv6_L4ChecksumDiff_update (saddr6 h) (saddr6 h0) c1
     else _rtk_fc_ipv6_L4ChecksumDiff_update (daddr6 h) (daddr6 h0) c1) = c) as (c & Hc & Ec & ->).
  { rewrite Es, Ed. unfold readdress. destruct (out_l4_direction f); simpl.
    - destruct (v6_update_spec a (saddr6 h0) c1) as [R C]; try done. eexists. split; [exact R|]. split; [rewrite C; f_equal; lia|done].
    - destruct (v6_update_spec a (daddr6 h0) c1) as [R C]; try done. eexists. split; [exact R|]. split; [rewrite C; f_equal; lia|done]. }
  destruct (l4_moved_bytes l0 l Hl0 Hl c Hc) as (Hok & Elen & Efix & Eso & Ede & Ech).
  apply (l4_verifies6_iff _ _ H0 Hl0) in Hv. apply (l4_verifies6_iff _ _ H Hok). rewrite Efix, Eso, Ede, Ech, En, Elen.
  apply mod_eq_elim in Hv as [k1 Hv], Ec as [k2 Ec], Ec1 as [k3 Ec1]. apply mod_eq_intro with (k := k1 + k2 + k3). lia.
Qed.

(** What NAT66 makes of a packet before the checksums. *)
Lemma path5_v6 f p0 p' h0 rc addr : flow_ok f -> packet6_ok p0 -> in_path f = FB_PATH_5 -> ip6h p0 = Some h0 ->
  protoCtrl f = FLOW_PROTO_CTRL_V6NAT (Some (rc, addr, false)) -> rc <> 0 -> modify_headers f p0 = Some p' ->
  exists p h, p' = fixup f (Some false) p0 p /\ iph p = None /\ ip6h p = Some h /\
    saddr6 h = saddr6 (readdress (out_l4_direction f) addr h0) /\ daddr6 h = daddr6 (readdress (out_l4_direction f) addr h0) /\
    nexthdr h = nexthdr h0 /\ l4s_moved p0 p /\ ipFragFlag p = ipFragFlag p0 /\
    (napt_applies f p0 && has_l4 p0 = false -> tcph p = tcph p0 /\ udph p = udph p0).
Proof.
  intros (_ & _ & Bp & _) (Ei & Hh & Ht & Hu & _) Ep E Epc Hrc Hmod. unfold modify_headers in Hmod. rewrite Ep in Hmod.
  assert (exists t, remark f p0 = set_ip6h (Some (Ip6Hdr t (payload_len h0) (nexthdr h0) (hop_limit h0) (saddr6 h0) (daddr6 h0))) p0) as [t Er].
  { unfold remark. rewrite Ei, E. destruct (_ || _); [by eexists|]. exists (tclass h0). destruct p0, h0; simpl in *; by subst. }
  rewrite Er in Hmod. set (p1 := set_eth _ _ _) in Hmod.
  assert (l4s_moved p0 p1) as Hl1.
  { assert (forall o, match o with Some l => l4_ok l | None => True end -> option_Forall2 l4_moved o o) as Hr.
    { intros [l|] Hl; constructor. destruct Hl as (? & ? & _). unfold l4_moved. tauto. }
    split; by apply Hr. }
  assert (napt_applies f p1 = napt_applies f p0) as Ena.
  { unfold napt_applies. simpl. by rewrite Ei, E. }
  assert (exists p2, napt f p1 = Some p2 /\ iph p2 = None /\ ip6h p2 = ip6h p1 /\ l4s_moved p0 p2 /\ ipFragFlag p2 = ipFragFlag p0 /\
    (napt_applies f p0 && has_l4 p0 = false -> tcph p2 = tcph p0 /\ udph p2 = udph p0)) as (p2 & En & I2 & S2 & L2 & F2 & N2).
  { unfold napt. rewrite Ena. unfold translate_l3, loopback. assert (iph p1 = None) as E1 by done. rewrite E1.
    assert (has_l4 p1 = has_l4 p0) as Eh by done.
    destruct (napt_applies f p0); [|by exists p1]. unfold translate_l4. rewrite Eh. destruct (has_l4 p0); [|exists p1; rewrite E1].
    - eexists. split; [rewrite on_l4_iph, E1; by destruct (natloopback f) as [[[]|]|]|]. rewrite on_l4_iph, on_l4_frag.
      split; [done|]. split; [unfold on_l4; by repeat case_match|]. split; [|split; [done|done]].
      apply on_l4_moved; [|done]. intros l l' (? & ? & ? & ? & ?). destruct (out_l4_direction f); unfold l4_moved; simpl; tauto.
    - split; [by destruct (natloopback f) as [[[]|]|]|]. by split_and!. }
  rewrite En in Hmod. simpl in Hmod. assert (icmp_identifier_update f p2 = p2) as Eic by (unfold icmp_identifier_update; by rewrite Epc).
  rewrite Eic in Hmod. unfold v6nat, v6nat_index in Hmod. rewrite I2, S2, Epc in Hmod. simpl in Hmod.
  rewrite (proj2 (Z.eqb_neq rc 0) Hrc) in Hmod. unfold hop in Hmod. simpl in Hmod. rewrite I2 in Hmod. injection Hmod as <-.
  eexists _, _. split; [done|]. simpl. split; [exact I2|]. split; [done|]. unfold readdress.
  destruct (out_l4_direction f); simpl; (split; [done|split; [done|split; [done|split; [exact L2|split; [exact F2|exact N2]]]]]).
Qed.

(** ** One's complement addition *)

Definition oc_add (a b : Z) : Z := if 65536 <=? a + b then a + b - 65535 else a + b.
Fixpoint words_of (l : list Z) : list Z :=
  match l with
  | [] => []
  | [a] => [256 * a]
  | a :: b :: l => 256 * a + b :: words_of l
  end.
Lemma oc_add_spec a b s : is_u16 a -> is_u16 b -> b ≡₁ s -> (b = 0 <-> s = 0) -> 0 <= s ->
  is_u16 (oc_add a b) /\ oc_add a b ≡₁ a + s /\ (oc_add a b = 0 <-> a + s = 0).
Proof.
  unfold is_u16, oc_add. intros Ha Hb E Hz Hs. apply mod_eq_elim in E as [k E].
  destruct (Z.leb_spec 65536 (a + b)); (split; [lia|]; split; [|lia]);
    [apply mod_eq_intro with (k := k - 1)|apply mod_eq_intro with (k := k)]; lia.
Qed.
Lemma oc_fold l : Forall is_u8 l -> let r := foldr oc_add 0 (words_of l) in is_u16 r /\ r ≡₁ word_sum l /\ (r = 0 <-> word_sum l = 0).
Proof.
  induction l as [l IH] using (induction_ltof1 _ (@length Z)). unfold ltof in IH. intros H.
  destruct l as [|a [|b l]]; cbn [words_of foldr word_sum].
  - by split_and!.
  - apply Forall_cons in H as [Ha _]. unfold is_u8 in Ha.
    destruct (oc_add_spec (256 * a) 0 0) as (R & E & Z0); try (unfold is_u16; lia). rewrite Z.add_0_r in *. done.
  - apply Forall_cons in H as [Ha H]. apply Forall_cons in H as [Hb H]. unfold is_u8 in Ha, Hb.
    destruct (IH l ltac:(simpl; lia) H) as (R & E & Z0). pose proof (word_sum_range l H) as [Hw _].
    apply oc_add_spec; [unfold is_u16; lia|done..].
Qed.
Lemma oc_unique a b : is_u16 a -> is_u16 b -> a ≡₁ b -> (a = 0 <-> b = 0) -> a = b.
Proof. unfold is_u16. intros Ha Hb E Hz. apply mod_eq_elim in E as [k E]. lia. Qed.

(** ** Who talks to whom *)

Definition endpoint : Type := Z * Z.
Definition endpoints (p : packet) : option (endpoint * endpoint) :=
  match iph p, (match tcph p with Some l => Some l | None => udph p end) with
  | Some h, Some l => Some ((saddr h, source l), (daddr h, dest l))
  | _, _ => None
  end.
(** The endpoints a flow gives a packet. *)
Definition through (f : flow) (e : endpoint * endpoint) : endpoint * endpoint :=
  let loop x := match natloopback f with Some (Some y) => y | _ => x end in
  if out_l4_direction f then ((gateway_ipv4_addr f, out_l4_port f), loop e.2)
  else (loop e.1, (out_dst_ipv4_addr f, out_l4_port f)).
(** A plain translation: no tunnel, and an entry for loop back if the flow is marked. *)
Definition plain (f : flow) (p : packet) : Prop :=
  in_path f = FB_PATH_5 /\ out_l4_act f = true /\ protoCtrl f = FLOW_PROTO_CTRL_NONE /\ natloopback f <> Some None /\
  isMAPT p = false /\ isXLAT p = false /\ has_l4 p = true.

Lemma endpoints_fixup f p0 p : endpoints (fixup f None p0 p) = endpoints p.
Proof.
  unfold fixup, endpoints. destruct (sw_chksum f); [|done]. cbn [negb].
  destruct (iph p0) as [h0|]; [|done]. destruct (iph p) as [h|] eqn:E; [|by rewrite E].
  assert (saddr (l3_fixup f p0 h0 h) = saddr h /\ daddr (l3_fixup f p0 h0 h) = daddr h) as [E1 E2]
    by (unfold l3_fixup; by repeat case_match).
  revert E1 E2. generalize (l3_fixup f p0 h0 h). intros h' E1 E2.
  destruct (out_l4_act f && has_l4 _); [|simpl; by rewrite E1, E2].
  destruct p as [? ? i ? t u ? ? ? ? ?]; simpl in *; subst i.
  destruct (tcph p0), t, (udph p0), u as [lu|]; simpl; rewrite ?E1, ?E2; try done;
    unfold udp_fixup; simpl; by destruct (l4_check lu =? 0).
Qed.
Lemma endpoints_step f p e : plain f p -> endpoints p = Some e -> exists p', modify_headers f p = Some p' /\ endpoints p' = Some (through f e).
Proof.
  intros (E1 & E2 & E3 & E4 & E5 & E6 & E7) He. unfold modify_headers. rewrite E1.
  unfold endpoints in He. destruct (iph p) as [h|] eqn:Eh; [|done].
  assert (exists t, remark f p = set_iph (Some (with_tos t h)) p) as [t Er].
  { unfold remark. rewrite Eh. destruct (_ || _); [by eexists|]. exists (tos h). destruct p, h; simpl in *; by subst. }
  rewrite Er. set (p1 := set_eth _ _ _). unfold napt. assert (napt_applies f p1 = true) as -> by (unfold napt_applies; by rewrite E2).
  assert (mape_upstream f p1 = None) as Em by (unfold mape_upstream; by rewrite E3).
  assert (isMAPT p1 = false /\ isXLAT p1 = false) as [X1 X2] by done.
  unfold translate_l3. change (iph p1) with (Some (with_tos t h)). cbv iota beta. unfold translated. rewrite Em, X1, X2. cbn [orb default].
  unfold translate_l4, icmp_identifier_update, v6nat, v6nat_index. rewrite E3.
  assert (forall x, has_l4 (set_iph x p1) = true) as Hhas by (intros; exact E7).
  unfold loopback, through. destruct (out_l4_direction f); rewrite Hhas.
  - destruct (natloopback f) as [[[ip port]|]|] eqn:En; [|done|];
      destruct (tcph p) as [l|] eqn:Et; [| destruct (udph p) as [l|] eqn:Eu; [|done]| | destruct (udph p) as [l|] eqn:Eu; [|done]];
      injection He as <-; unfold on_l4; simpl; rewrite ?Et, ?Eu; simpl; rewrite ?Et, ?Eu; eexists; (split; [reflexivity|]);
      rewrite endpoints_fixup; unfold endpoints; simpl; rewrite ?Et; done.
  - destruct (natloopback f) as [[[ip port]|]|] eqn:En; [|done|];
      destruct (tcph p) as [l|] eqn:Et; [| destruct (udph p) as [l|] eqn:Eu; [|done]| | destruct (udph p) as [l|] eqn:Eu; [|done]];
      injection He as <-; unfold on_l4; simpl; rewrite ?Et, ?Eu; simpl; rewrite ?Et, ?Eu; eexists; (split; [reflexivity|]);
      rewrite endpoints_fixup; unfold endpoints; simpl; rewrite ?Et; done.
Qed.

(** ** Flows kept in software *)

(** Without address actions, and with the type of service remarked or 0, the header
    checksum stays right. *)
Lemma software_flow_verifies a p0 p' h0 : iph p0 = Some h0 -> ip_ok h0 -> is_u8 (pTos a) -> 1 <= ttl h0 ->
  sip a = None -> dip a = None -> dscpCmd a || ecnCmd a = true \/ tos h0 = 0 -> ip_verifies h0 ->
  _rtk_fc_abstrSw_flow_packet_modification a p0 = Some p' -> exists h', iph p' = Some h' /\ ip_verifies h'.
Proof.
  intros E H0 Ba Ht Es Ed Htos Hv. pose proof H0 as (B1 & B0 & B2 & B3 & B4 & B5 & B6 & B7 & B8 & B9 & B10 & B11 & B12).
  set (t := sw_tos a (tos h0)). assert (is_u8 t) as Bt.
  { assert (forall m x, 0 <= m < 256 -> is_u8 (Z.land x m)) as Hm by (intros; by apply mask_u8).
    unfold t, sw_tos. destruct (dscpCmd a), (ecnCmd a); try done; apply lor_u8; by apply Hm. }
  set (h := with_ttl (match smac a with Some _ => u8 (ttl h0 - 1) | None => ttl h0 end) (with_tos t h0)).
  assert (iph (sw_l3 a (sw_l4 a p0)) = Some (with_tos t h0)) as E1.
  { unfold sw_l3, sw_l4. destruct (udph p0), (tcph p0); simpl; rewrite E, Es, Ed; by destruct h0. }
  unfold _rtk_fc_abstrSw_flow_packet_modification. rewrite E.
  set (p := set_eth _ _ _). assert (iph (match smac a with Some _ => hop p | None => p end) = Some h) as ->.
  { assert (iph p = Some (with_tos t h0)) as E2 by done. unfold hop, h. rewrite E2. destruct (smac a); [done|]. by rewrite E2. }
  destruct (bool_decide _ && _); [done|]. intros [= <-]. eexists. split; [done|].
  set (hopped := match smac a with Some _ => true | None => false end).
  assert ((match smac a with Some _ => -1 | None => 0 end) = (if hopped then -1 else 0)) as -> by (unfold hopped; by destruct (smac a)).
  assert (sw_ori_tos a (tos h0) = tos h0) as -> by (unfold sw_ori_tos; destruct Htos as [-> | ->]; [done|by destruct (_ || _)]).
  change (ip_check h) with (ip_check h0). change (tos h) with t. unfold ntohs. rewrite u16_small by done.
  assert (is_u32 0) by (unfold is_u32; lia).
  destruct (L3_update_spec (ip_check h0) 0 0 (tos h0) 0 0 t hopped) as [Hc Ec]; try done; try by apply tos_u16.
  set (c := _rtk_fc_L3ChecksumDiff_update _ _ _ _ _ _ _ _) in *. cbv zeta in Hc, Ec.
  assert (is_u8 (ttl h) /\ 256 * ttl h = 256 * ttl h0 - (if hopped then 256 else 0)) as [Bh Eh].
  { unfold h, hopped. simpl. destruct (smac a); [|split; [done|lia]]. rewrite u8_small; unfold is_u8 in *; lia. }
  assert (ip_ok (with_ip_check c h)) as Hok.
  { apply (moved_ok h0 h c); [done| |done..]. unfold ip_moved, h. simpl. tauto. }
  apply (ip_verifies_iff h0 H0) in Hv. apply (ip_verifies_iff _ Hok). unfold ip_fixed in *. simpl in *. fold t.
  change (address_sum 0) with 0 in Ec. apply mod_eq_elim in Hv as [k1 Hv], Ec as [k2 Ec].
  apply mod_eq_intro with (k := k1 + k2). destruct hopped; lia.
Qed.

(** ** Packets and flows to try *)

Definition sealed (h : iphdr) : iphdr := with_ip_check (inet_chksum (ip_bytes (with_ip_check 0 h)) (Z.of_nat (length (ip_bytes h)))) h.
(** From 192.168.1.2 port 4000 to 198.51.100.7 port 80; the gateway is 203.0.113.9. *)
Definition demo_ip (t : Z) : iphdr := sealed (IpHdr 0x45 t 44 7 0 64 17 0 0xc0a80102 0xc6336407 []).
Definition demo_udp (c : Z) (x : Z) : l4hdr := L4Hdr 4000 80 [0; 12] c [1; 2; x / 256; x mod 256].
Definition demo_packet (t : Z) (tcp udp : option l4hdr) : packet :=
  Packet [0; 0; 0; 0; 0; 1] [0; 0; 0; 0; 0; 2] (Some (demo_ip t)) None tcp udp None None false false RTK_FC_IP_NO_FRAG.
Definition demo_flow (path : in_path_t) (act up remark : bool) (port dst : Z) : flow :=
  Flow path true [0; 0; 0; 0; 0; 3] 0xcb007109 false [0; 0; 0; 0; 0; 4] remark 46 false 0 act up port dst
    FLOW_PROTO_CTRL_NONE None None true.
Definition demo_action (mac : bool) (src : option Z) : sw_action :=
  SwAction None None None src [] [] false false 0 None (if mac then Some [0; 0; 0; 0; 0; 3] else None).
Definition demo6_ip : ip6hdr := Ip6Hdr 0 12 17 64 [0xfd00; 0; 0; 0; 0; 0; 0; 2] [0x2001; 0xdb8; 0; 0; 0; 0; 0; 1].
Definition demo6 : packet :=
  Packet [0; 0; 0; 0; 0; 1] [0; 0; 0; 0; 0; 2] None (Some demo6_ip)
    None (Some (v6_check demo6_ip (demo_udp 0 0) 12))
    None None false false RTK_FC_IP_NO_FRAG.
Definition demo6_flow : flow :=
  Flow FB_PATH_5 true [] 0 false [] false 0 false 0 true true 5000 0
    (FLOW_PROTO_CTRL_V6NAT (Some (1, [0x2001; 0xdb8; 1; 0; 0; 0; 0; 9], false))) None None true.

(** ** Theorems *)

(** The sum over a buffer is the one's complement sum of its words, added one after
    the other with end-around carry. *)
Theorem chksum_is_ones_complement l : Forall is_u8 l -> short l ->
  _rtk_rg_standard_chksum l (Z.of_nat (length l)) = foldr oc_add 0 (words_of l).
Proof.
  intros H Hs. destruct (standard_spec l H Hs) as (H1 & E1 & Z1). destruct (oc_fold l H) as (H2 & E2 & Z2).
  apply oc_unique; [done|done|congruence|]. by rewrite Z1, Z2.
Qed.

Lemma fixup_ttl f p0 p h t : iph p = Some h -> ttl h = t -> exists h', iph (fixup f None p0 p) = Some h' /\ ttl h' = t.
Proof.
  intros E Ht. assert (ttl (l3_fixup f p0 (default h (iph p0)) h) = t) as Hl by (unfold l3_fixup; repeat case_match; done).
  unfold fixup. destruct (sw_chksum f); simpl; [|by exists h]. destruct (iph p0) as [h0|]; [|by exists h].
  rewrite E. simpl in Hl. exists (l3_fixup f p0 h0 h). split; [|exact Hl]. cbv zeta.
  by repeat case_match; simplify_eq/=.
Qed.

(** C29: an IPv4 packet on a routed or translated flow whose header checksum is right, and
    that may travel one more hop, leaves the short cut with its hop counted.  If the driver
    has to make the checksums (it is told to, or the packet goes to a wireless device or a
    dual interface), the header checksum is right, and the words of a TCP segment or UDP
    datagram that added up still do, while a datagram without a checksum stays without; a
    UDP checksum that comes out as 0 is sent as 0, though, which a receiver takes for none
    ([udp_checksum_lost]).  If not, all three checksums leave as they came, for the
    hardware to correct. *)
Theorem translated_packet_verifies f p0 p' h0 : flow_ok f -> packet_ok p0 -> in_path f = FB_PATH_5 ->
  iph p0 = Some h0 -> 1 <= ttl h0 -> ip_verifies h0 -> modify_headers f p0 = Some p' ->
  (exists h', iph p' = Some h' /\ ttl h' = ttl h0 - 1) /\
  (if sw_chksum f then verifies_after h0 p0 p'
   else ip_check <$> iph p' = Some (ip_check h0) /\ l4_check <$> tcph p' = l4_check <$> tcph p0 /\
        l4_check <$> udph p' = l4_check <$> udph p0).
Proof.
  intros Hf Hp Ep E Ht Hv Hmod. destruct (path5_v4 f p0 p' h0 Hf Hp Ep E Hmod) as (p & h & -> & Eh & Hm & Hl & Et & Ef & Ei & Hna).
  assert (ttl h = ttl h0 - 1) as Et'.
  { rewrite Et. apply u8_small. destruct Hp as (Hh & _). rewrite E in Hh. destruct Hh as (_ & _ & _ & _ & _ & _ & Hb & _). unfold is_u8 in *. lia. }
  split; [by apply (fixup_ttl f p0 p h)|]. destruct (sw_chksum f) eqn:Hsw; [by apply (fixup_v4 f p0 p h0 h)|].
  assert (fixup f None p0 p = p) as -> by (unfold fixup; by rewrite Hsw). rewrite Eh.
  destruct Hm as (_ & _ & _ & _ & Ec & _). destruct Hl as [Lt Lu]. split; [simpl; congruence|]. clear Ec. split; [destruct Lt as [l0 l (_ & Ec & _)|]|destruct Lu as [l0 l (_ & Ec & _)|]]; simpl; congruence.
Qed.

(** NAT66 sets the address of its side and keeps a right TCP or UDP checksum right. *)
Theorem nat66_packet_verifies f p0 p' h0 rc addr : flow_ok f -> packet6_ok p0 -> in_path f = FB_PATH_5 -> sw_chksum f = true ->
  ip6h p0 = Some h0 -> protoCtrl f = FLOW_PROTO_CTRL_V6NAT (Some (rc, addr, false)) -> rc <> 0 -> address6_ok addr ->
  modify_headers f p0 = Some p' ->
  exists h', ip6h p' = Some h' /\ saddr6 h' = (if out_l4_direction f then addr else saddr6 h0) /\
    daddr6 h' = (if out_l4_direction f then daddr6 h0 else addr) /\
    l4_kept (l4_verifies6 h0) (l4_verifies6 h') (tcph p0) (tcph p') /\
    (tcph p0 = None -> udp_kept (l4_verifies6 h0) (l4_verifies6 h') (udph p0) (udph p')).
Proof.
  intros Hf Hp Ep Hsw E Epc Hrc Ha Hmod.
  destruct (path5_v6 f p0 p' h0 rc addr Hf Hp Ep E Epc Hrc Hmod) as (p & h & -> & Ei & Eh & Es & Ed & En & [Lt Lu] & Ef & Hna).
  destruct Hp as (Ei0 & Hh & Ht & Hu & _). rewrite E in Hh. exists h. unfold fixup. rewrite Hsw, Ei0, E, Eh. cbn [negb].
  assert (forall l0 l, l4_moved l0 l -> (napt_applies f p0 && has_l4 p0 = false -> source l = source l0 /\ dest l = dest l0) ->
    l4_ok l0 -> l4_verifies6 h0 l0 -> l4_verifies6 h (v6_fixup f (napt_applies f p0 && has_l4 p0) h0 h l0 l)) as Hfix.
  { intros l0 l Hm Hc Hok. by apply (v6_fixup_verifies f _ h0 h addr l0 l). }
  assert (forall q, ip6h q = Some h -> ip6h q = Some h /\ saddr6 h = (if out_l4_direction f then addr else saddr6 h0) /\
    daddr6 h = (if out_l4_direction f then daddr6 h0 else addr)) as Hq.
  { intros q Hq. rewrite Es, Ed. unfold readdress. by destruct (out_l4_direction f). }
  inversion Lt as [l0 l Hl El0 El|El0 El].
  - destruct (Hq (set_tcph (Some (v6_fixup f (napt_applies f p0 && has_l4 p0) h0 h l0 l)) p) Eh) as (Q1 & Q2 & Q3).
    split_and!; [done..| |done]. simpl. intros Hv. eexists. split; [done|]. rewrite <- El0 in Ht. apply Hfix; [done| |done|done].
    intros Hc. destruct (Hna Hc) as [Et _]. rewrite <- El, <- El0 in Et. by injection Et as ->.
  - inversion Lu as [l0 l Hl Eu0 Eu|Eu0 Eu].
    + set (x := udp_fixup _ l). destruct (Hq (set_udph (Some x) p) Eh) as (Q1 & Q2 & Q3). split_and!; [done..|by simpl|].
      intros _. rewrite <- Eu0 in Hu. unfold udp_kept, x, udp_fixup. simpl. pose proof Hl as (_ & X2 & _). rewrite X2.
      destruct (Z.eqb_spec (l4_check l0) 0) as [Ez|Ez]; [by exists l; rewrite X2|]. intros Hv. eexists. split; [done|].
      apply Hfix; [done| |done|done]. intros Hc. destruct (Hna Hc) as [_ Et]. rewrite <- Eu, <- Eu0 in Et. by injection Et as ->.
    + destruct (Hq p Eh) as (Q1 & Q2 & Q3). by split_and!.
Qed.

(** The whole recomputation gives a checksum the receiver accepts, when the length
    taken from the headers is the length of the segment. *)
Theorem recomputed_checksum_verifies h l : ip_ok h -> l4_ok l ->
  l4_verifies h (v4_check h l (Z.of_nat (length (l4_bytes l)))).
Proof.
  intros Hh Hl. assert (l4_moved l l) as Hm by (destruct Hl as (? & ? & _); unfold l4_moved; tauto).
  assert (is_u16 0) as B0 by (unfold is_u16; lia).
  destruct (l4_moved_bytes l l Hl Hm 0 B0) as (Hok & Elen & Efix & Eso & Ede & Ech).
  pose proof Hh as (_ & _ & _ & _ & _ & _ & _ & H7 & _ & H9 & H10 & _).
  destruct (l4_sum _ Hok) as (F & E & _). unfold v4_check. rewrite <- Elen.
  destruct (pseudo_sums (l4_bytes (with_l4_check 0 l)) (saddr h) (daddr h) (protocol h)) as (acc & -> & Ha); try done;
    [apply Hok|by apply tos_u16|]. destruct (sums_value _ _ _ Ha ltac:(lia)) as [Hc Ec].
  destruct (l4_moved_bytes l l Hl Hm _ Hc) as (Hok2 & Elen2 & Efix2 & Eso2 & Ede2 & Ech2).
  apply (l4_verifies_iff _ _ Hh Hok2). rewrite Efix2, Eso2, Ede2, Ech2, Elen2.
  rewrite E, Efix, Eso, Ede, Ech, Elen in Ec. apply mod_eq_elim in Ec as [k Ec]. apply mod_eq_intro with (k := k). lia.
Qed.

(** C30: what address translation does on the way out it undoes on the way in: the packet
    leaves with the public address and the port of the flow, and the answer to it reaches
    the client, from the server the client called; with loop back also when the server
    that answers is another address on the same side. *)
Theorem reply_reaches_client fo fi p q client server peer :
  plain fo p -> plain fi q -> out_l4_direction fo = true -> out_l4_direction fi = false ->
  (out_dst_ipv4_addr fi, out_l4_port fi) = client ->
  peer = (match natloopback fo with Some (Some x) => x | _ => server end) ->
  server = (match natloopback fi with Some (Some x) => x | _ => peer end) ->
  endpoints p = Some (client, server) ->
  exists p', modify_headers fo p = Some p' /\ endpoints p' = Some ((gateway_ipv4_addr fo, out_l4_port fo), peer) /\
    (endpoints q = Some (peer, (gateway_ipv4_addr fo, out_l4_port fo)) ->
     exists q', modify_headers fi q = Some q' /\ endpoints q' = Some (server, client)).
Proof.
  intros Hp Hq Uo Ui Hc Epeer Eserver He. destruct (endpoints_step fo p _ Hp He) as (p' & E1 & E2).
  exists p'. split; [done|]. unfold through in E2. rewrite Uo in E2. simpl in E2. rewrite <- Epeer in E2. split; [done|].
  intros Hq'. destruct (endpoints_step fi q _ Hq Hq') as (q' & E3 & E4). exists q'. split; [done|].
  unfold through in E4. rewrite Ui in E4. simpl in E4. by rewrite <- Eserver, Hc in E4.
Qed.

(** ** Witnesses and runs *)

Lemma u8_all l : forallb (fun z => (0 <=? z) && (z <? 2 ^ 8)) l = true -> Forall is_u8 l.
Proof. rewrite forallb_forall, List.Forall_forall. intros H x Hx. specialize (H x Hx). unfold is_u8. lia. Qed.
Lemma u16_all l : forallb (fun z => (0 <=? z) && (z <? 2 ^ 16)) l = true -> Forall is_u16 l.
Proof. rewrite forallb_forall, List.Forall_forall. intros H x Hx. specialize (H x Hx). unfold is_u16. lia. Qed.
Lemma u8_one z : (0 <=? z) && (z <? 2 ^ 8) = true -> is_u8 z.
Proof. unfold is_u8. lia. Qed.
Lemma u16_one z : (0 <=? z) && (z <? 2 ^ 16) = true -> is_u16 z.
Proof. unfold is_u16. lia. Qed.
Lemma u32_one z : (0 <=? z) && (z <? 2 ^ 32) = true -> is_u32 z.
Proof. unfold is_u32. lia. Qed.
Ltac range := first [apply u8_one|apply u16_one|apply u32_one|apply u8_all|apply u16_all]; vm_compute; reflexivity.

Lemma demo_ip_ok t : is_u8 t -> ip_ok (demo_ip t).
Proof.
  intros Ht. assert (is_u16 (ip_check (demo_ip t))) as Hc by (unfold demo_ip, sealed, inet_chksum; apply u16_range).
  revert Hc. generalize (ip_check (demo_ip t)). intros c Hc. unfold demo_ip, sealed. revert Hc.
  unfold ip_ok, is_u8, is_u16, is_u32 in *. simpl. intros _.
  assert (forall x, 0 <= inet_chksum x 20 < 2 ^ 16) as Hi by (intros; apply u16_range).
  specialize (Hi (ip_bytes (IpHdr 0x45 t 44 7 0 64 17 0 0xc0a80102 0xc6336407 []))).
  simpl length. rewrite Forall_nil. split; [lia|]. repeat (split; [first [exact Ht|exact Hi|exact I|lia]|]). lia.
Qed.
Lemma demo_udp_ok c x : is_u16 c -> is_u16 x -> l4_ok (demo_udp c x).
Proof.
  intros Hc Hx. destruct (be2_bytes x Hx) as [Hb _]. unfold l4_ok, demo_udp. simpl.
  split; [range|]. split; [range|]. split; [done|]. split; [range|]. split; [|split; reflexivity].
  constructor; [range|]. constructor; [range|]. exact Hb.
Qed.

Lemma chksum_is_ones_complement_witness :
  _rtk_rg_standard_chksum [255; 255; 0; 1; 7] 5 = 0x701 /\ foldr oc_add 0 (words_of [255; 255; 0; 1; 7]) = 0x701.
Proof.
  pose proof (chksum_is_ones_complement [255; 255; 0; 1; 7] ltac:(apply u8_all; reflexivity) eq_refl) as H.
  split; [|reflexivity]. etransitivity; [exact H|reflexivity].
Defined.
Lemma recomputed_checksum_verifies_witness : l4_verifies (demo_ip 0) (v4_check (demo_ip 0) (demo_udp 0 9) 12).
Proof. apply (recomputed_checksum_verifies (demo_ip 0) (demo_udp 0 9)); [apply demo_ip_ok; range|apply demo_udp_ok; range]. Defined.
Lemma translated_packet_verifies_witness :
  exists p', modify_headers (demo_flow FB_PATH_5 true true true 5000 0) (demo_packet 3 None (Some (v4_check (demo_ip 3) (demo_udp 0 9) 12))) = Some p' /\
    verifies_after (demo_ip 3) (demo_packet 3 None (Some (v4_check (demo_ip 3) (demo_udp 0 9) 12))) p'.
Proof.
  eexists. split; [reflexivity|].
  refine (proj2 (translated_packet_verifies (demo_flow FB_PATH_5 true true true 5000 0)
    (demo_packet 3 None (Some (v4_check (demo_ip 3) (demo_udp 0 9) 12))) _ (demo_ip 3) _ _ _ _ _ _ _)); try reflexivity.
  - unfold flow_ok. simpl. split_and!; try done; range.
  - split; [apply demo_ip_ok; range|]. split; [exact I|]. split; [|intros E; vm_compute in E; discriminate].
    split_and!; try (simpl; range); reflexivity.
  - vm_compute. discriminate.
Defined.
Lemma nat66_packet_verifies_witness : exists p' h', modify_headers demo6_flow demo6 = Some p' /\ ip6h p' = Some h' /\
  saddr6 h' = [0x2001; 0xdb8; 1; 0; 0; 0; 0; 9].
Proof.
  destruct (modify_headers demo6_flow demo6) as [p'|] eqn:E; [|vm_compute in E; discriminate].
  destruct (nat66_packet_verifies demo6_flow demo6 p' demo6_ip 1 [0x2001; 0xdb8; 1; 0; 0; 0; 0; 9]) as (h' & E1 & E2 & _).
  9: { exact E. }
  9: { exists p', h'. split; [reflexivity|]. split; [exact E1|exact E2]. }
  - unfold flow_ok. simpl. split_and!; try done; range.
  - unfold packet6_ok, ip6_ok, address6_ok. simpl. split; [reflexivity|]. split; [split_and!; try reflexivity; try range|].
    split; [exact I|]. split; [|by left]. split_and!; try (simpl; range); reflexivity.
  - reflexivity.
  - reflexivity.
  - reflexivity.
  - reflexivity.
  - discriminate.
  - split; [range|reflexivity].
Defined.
Lemma reply_reaches_client_witness :
  exists p', modify_headers (demo_flow FB_PATH_5 true true false 5000 0) (demo_packet 0 None (Some (demo_udp 1 2))) = Some p' /\
    endpoints p' = Some ((0xcb007109, 5000), (0xc6336407, 80)).
Proof.
  destruct (reply_reaches_client (demo_flow FB_PATH_5 true true false 5000 0) (demo_flow FB_PATH_5 true false false 4000 0xc0a80102)
    (demo_packet 0 None (Some (demo_udp 1 2))) (demo_packet 0 None (Some (demo_udp 1 2))) (0xc0a80102, 4000) (0xc6336407, 80) (0xc6336407, 80))
    as (p' & E1 & E2 & _); try reflexivity; try (unfold plain; split_and!; try reflexivity; discriminate).
  exists p'. split; [exact E1|exact E2].
Defined.

(** A UDP datagram with a right checksum leaves with checksum 0, which means that it has none. *)
Example udp_checksum_lost :
  let l := v4_check (demo_ip 0) (demo_udp 0 0x84b7) 12 in
  l4_verifies (demo_ip 0) l /\ l4_check l <> 0 /\
  match modify_headers (demo_flow FB_PATH_5 true true false 5000 0) (demo_packet 0 None (Some l)) with
  | Some p' => l4_check <$> udph p' = Some 0
  | None => False
  end.
Proof. vm_compute. repeat split. discriminate. Qed.

(** A bridged flow whose type of service is remarked leaves with a wrong header checksum. *)
Example bridged_remark_breaks_checksum :
  ip_verifies (demo_ip 0) /\
  match modify_headers (demo_flow FB_PATH_34 false true true 0 0) (demo_packet 0 None None) with
  | Some p' => match iph p' with Some h => ~ ip_verifies h | None => False end
  | None => False
  end.
Proof. vm_compute. split; [reflexivity|discriminate]. Qed.

(** A flow kept in software breaks the header checksum of a packet with a type of service
    that is not remarked, and of one whose address it changes. *)
Example software_flow_breaks_checksum :
  ip_verifies (demo_ip 8) /\ ip_verifies (demo_ip 0) /\
  match _rtk_fc_abstrSw_flow_packet_modification (demo_action true None) (demo_packet 8 None None) with
  | Some p' => match iph p' with Some h => ~ ip_verifies h | None => False end
  | None => False
  end /\
  match _rtk_fc_abstrSw_flow_packet_modification (demo_action false (Some 0xcb007109)) (demo_packet 0 None None) with
  | Some p' => match iph p' with Some h => ~ ip_verifies h | None => False end
  | None => False
  end.
Proof. vm_compute. split; [reflexivity|split; [reflexivity|split; discriminate]]. Qed.
