(* ===== verification/FcTags.v ===== *)
(** * VLAN and PPPoE tags in the buffer of a packet

    The functions of [FleetConntrackDriver/core/rtk_fc_internal.c] that insert, replace and
    remove tags in an skb: with the header pointers of the flow cache kept in step
    ([rtk_fc_skbVlanTag_insert], [rtk_fc_skbVlanTag_remove], [_rtk_fc_skbPPPoETag_insert],
    [_rtk_fc_skbPPPoETag_remove], composed by [_rtk_fc_swPktHdrModify]) and without them
    ([rtk_fc_skbVlanTag_fast_insert] and its relatives, composed by
    [rtk_fc_abstrSwPktHdrModify]).  The buffer is modelled byte for byte; a pointer into it
    is an offset, and an access is at that offset.  Making room in front of the data is the
    kernel's work, and reaches the model as the class [SkbOps] with its laws. *)
From S2P Require Import Prelude FcChecksum FcRewrite.
Open Scope nat_scope.

(** ** Buffers *)

(** [head .. end] as bytes, and the address of [head]; [data] and the header fields count
    from [head]. *)
Record skb := Skb {
  buf : list Z;
  data : nat;
  len : nat;
  mac_header : Z;
  network_header : Z;
  transport_header : Z;
  buf_addr : Z }.

(** [memmove(head + dst, head + src, n)]; the regions may overlap. *)
Definition memmove (dst src n : nat) (b : list Z) : list Z := take dst b ++ take n (drop src b) ++ drop (dst + n) b.
(** Bytes written at an offset, and a 16-bit field read in network order. *)
Definition store (off : nat) (bs : list Z) (b : list Z) : list Z := take off b ++ bs ++ drop (off + length bs) b.
Definition byte_at (off : nat) (b : list Z) : Z := nth off b 0%Z.
Definition load2 (off : nat) (b : list Z) : Z := (256 * byte_at off b + byte_at (off + 1) b)%Z.

Definition on_buf (g : list Z -> list Z) (s : skb) : skb :=
  Skb (g (buf s)) (data s) (len s) (mac_header s) (network_header s) (transport_header s) (buf_addr s).
Definition move_data (d l : nat) (s : skb) : skb :=
  Skb (buf s) d l (mac_header s) (network_header s) (transport_header s) (buf_addr s).
Definition move_headers (m n t : Z) (s : skb) : skb :=
  Skb (buf s) (data s) (len s) (mac_header s + m) (network_header s + n) (transport_header s + t) (buf_addr s).
(** [skb->data] as an address. *)
Definition data_addr (s : skb) : Z := (buf_addr s + Z.of_nat (data s))%Z.
Definition bytes (s : skb) : list Z := take (len s) (drop (data s) (buf s)).

(** What the kernel offers.  [None] is a negative return. *)
Class SkbOps := {
  skb_cow_head : nat -> skb -> option skb;
  skb_push : nat -> skb -> skb;
  skb_reset_mac_header : skb -> skb }.
(** [skb_cow_head] keeps the bytes and makes room, in the same buffer or in another one; the
    header fields follow the data. *)
Class SkbLaws (K : SkbOps) : Prop := {
  cow_head_keeps n s s' : skb_cow_head n s = Some s' ->
    exists pre, buf s' = pre ++ drop (data s) (buf s) /\ data s' = length pre /\ len s' = len s /\ n <= data s' /\
      (mac_header s' - Z.of_nat (data s') = mac_header s - Z.of_nat (data s))%Z /\
      (network_header s' - Z.of_nat (data s') = network_header s - Z.of_nat (data s))%Z /\
      (transport_header s' - Z.of_nat (data s') = transport_header s - Z.of_nat (data s))%Z;
  cow_head_stays n s s' : skb_cow_head n s = Some s' -> data_addr s' = data_addr s -> s' = s;
  push_is n s : n <= data s -> skb_push n s = move_data (data s - n) (len s + n) s;
  reset_is s : skb_reset_mac_header s =
    Skb (buf s) (data s) (len s) (Z.of_nat (data s)) (network_header s) (transport_header s) (buf_addr s) }.

Definition ETH_HLEN : nat := 14.
Definition ETH_TLEN : nat := 2.
Definition VLAN_HLEN : nat := 4.
Definition PPPOE_SES_HLEN : nat := 8.
Definition ETH_P_IP : Z := 0x0800.
Definition ETH_P_IPV6 : Z := 0x86dd.
Definition ETH_P_8021Q : Z := 0x8100.
Definition ETH_P_PPP_SES : Z := 0x8864.

(** ** Without header pointers *)
Section Fast.
Context {K : SkbOps}.

(** A result is SUCCESS or not, with the buffer. *)
Definition rtk_fc_skbVlanTag_fast_insert (insertOffset : nat) (tpid vlanTCI : Z) (s : skb) : bool * skb :=
  match skb_cow_head VLAN_HLEN s with
  | None => (false, s)
  | Some s =>
      let s := move_data (data s - VLAN_HLEN) (len s + VLAN_HLEN) s in
      let s := on_buf (memmove (data s) (data s + VLAN_HLEN) insertOffset) s in
      let s := on_buf (store (data s + insertOffset) (be2 (u16 tpid) ++ be2 (u16 vlanTCI))) s in
      (true, move_headers (-4) (-4) (-4) s)
  end.
Definition rtk_fc_skbVlanTag_fast_remove (removeOffset : nat) (s : skb) : bool * skb :=
  let s := on_buf (memmove (data s + VLAN_HLEN) (data s) removeOffset) s in
  let s := move_data (data s + VLAN_HLEN) (len s - VLAN_HLEN) s in
  (true, move_headers 4 4 4 s).

(** Type 1, version 1, code 0, session, length. *)
Definition pppoe_hdr (sid plen : Z) : list Z := [0x11%Z; 0%Z] ++ be2 (u16 sid) ++ be2 (u16 plen).
Definition _rtk_fc_skbPPPoETag_fast_insert (insertOffset : nat) (sessionid : Z) (s : skb) : bool * skb :=
  match skb_cow_head PPPOE_SES_HLEN s with
  | None => (false, s)
  | Some s =>
      let l3proto := load2 (data s + insertOffset) (buf s) in
      match (if (l3proto =? ETH_P_IPV6)%Z then Some 0x0057%Z
             else if (l3proto =? ETH_P_IP)%Z then Some 0x0021%Z else None) with
      | None => (false, s)
      | Some p2p =>
          let s := on_buf (store (data s + insertOffset) (be2 p2p)) s in
          let s := move_data (data s - PPPOE_SES_HLEN) (len s + PPPOE_SES_HLEN) s in
          let s := on_buf (memmove (data s) (data s + PPPOE_SES_HLEN) insertOffset) s in
          let s := move_headers (-8) (-8) (-8) s in
          let s := on_buf (store (data s + insertOffset) (be2 ETH_P_PPP_SES)) s in
          (true, on_buf (store (data s + insertOffset + ETH_TLEN)
             (pppoe_hdr sessionid (Z.of_nat (len s) - Z.of_nat insertOffset - Z.of_nat PPPOE_SES_HLEN))) s)
      end
  end.
(** The ethertype for the PPP protocol at [p], written in one or two bytes. *)
Definition p2p_l3proto (p : nat) (b : list Z) : option Z :=
  if ((byte_at p b =? 0x21) || (byte_at p b =? 0) && (byte_at (p + 1) b =? 0x21))%Z then Some ETH_P_IP
  else if ((byte_at p b =? 0x57) || (byte_at p b =? 0) && (byte_at (p + 1) b =? 0x57))%Z then Some ETH_P_IPV6
  else None.
Definition rm_size (p : nat) (b : list Z) : nat := if (byte_at p b =? 0)%Z then PPPOE_SES_HLEN else PPPOE_SES_HLEN - 1.
Definition _rtk_fc_skbPPPoETag_fast_remove (removeOffset : nat) (s : skb) : bool * skb :=
  let pP2Pproto := data s + removeOffset + PPPOE_SES_HLEN in
  match p2p_l3proto pP2Pproto (buf s) with
  | None => (false, s)
  | Some l3proto =>
      let rmSize := rm_size pP2Pproto (buf s) in
      let s := on_buf (memmove (data s + rmSize) (data s) removeOffset) s in
      let s := move_data (data s + rmSize) (len s - rmSize) s in
      let s := move_headers 8 8 8 s in
      (true, on_buf (store (data s + removeOffset) (be2 l3proto)) s)
  end.

(** What an action says about the tags. *)
Inductive egact := SWFLOW_EGACT_TAG | SWFLOW_EGACT_UNTAG | SWFLOW_EGACT_OTHER.
Record tag_action := TagAction {
  pppoeCmd : egact;
  pPppoeSid : Z;
  ctagCmd : egact;
  pCvlanTpid : Z;
  pCvlanTCI : Z;
  stagCmd : egact;
  pSvlanTpid : Z;
  pSvlanTCI : Z }.
Definition is_tag (c : egact) : bool := match c with SWFLOW_EGACT_TAG => true | _ => false end.
Definition is_untag (c : egact) : bool := match c with SWFLOW_EGACT_UNTAG => true | _ => false end.
Definition vlan_len (b : bool) : nat := if b then VLAN_HLEN else 0.

(** One tag: replace, insert or remove it. *)
Definition egress_tag (cmd : egact) (present : bool) (off : nat) (tpid tci : Z) (s : skb) : skb :=
  if is_tag cmd then
    if present then on_buf (store (data s + off) (be2 (u16 tpid) ++ be2 (u16 tci))) s
    else (rtk_fc_skbVlanTag_fast_insert off tpid tci s).2
  else if present then (rtk_fc_skbVlanTag_fast_remove off s).2 else s.
(** The session: insert or remove it. *)
Definition egress_session (cmd : egact) (present : bool) (off : nat) (sid : Z) (s : skb) : skb :=
  if negb present && is_tag cmd then (_rtk_fc_skbPPPoETag_fast_insert off sid s).2
  else if present && is_untag cmd then (_rtk_fc_skbPPPoETag_fast_remove off s).2 else s.
(** [svh], [cvh], [ppph]: whether the packet has them. *)
Definition rtk_fc_abstrSwPktHdrModify (svh cvh ppph : bool) (a : tag_action) (s : skb) : skb :=
  let s := egress_session (pppoeCmd a) ppph (ETH_HLEN - ETH_TLEN + vlan_len svh + vlan_len cvh) (pPppoeSid a) s in
  let s := egress_tag (ctagCmd a) cvh (ETH_HLEN - ETH_TLEN + vlan_len svh) (pCvlanTpid a) (pCvlanTCI a) s in
  egress_tag (stagCmd a) svh (ETH_HLEN - ETH_TLEN) (pSvlanTpid a) (pSvlanTCI a) s.
End Fast.

(** ** With header pointers *)

(** The pointers and the tag fields of the packet's description.  [p_others]: those of layer
    3 and above and of tunnels ([iph], [ip6h], [tcph], [udph], [igmph], [icmp6h], [arph],
    [esph], [outer_iph], [outer_udph], [greh], [icmph], the fields of PPTP and VXLAN,
    [outer_eth], [outer_svh], [outer_cvh], [outer_ppph]), as many as are set, as offsets.
    [p_fixed]: [outer_ip6h] and [srh], as addresses; no function moves them. *)
Record hdrs := Hdrs {
  p_eth : nat;
  p_svh : option nat;
  p_cvh : option nat;
  p_ppph : option nat;
  p_others : list nat;
  p_fixed : list Z;
  svlanid : Z;
  svlanpri : Z;
  cvlanid : Z;
  cvlanpri : Z;
  skbLen_egress : Z }.
Definition vid (tci : Z) : Z := Z.land tci 0xfff.
Definition pri (tci : Z) : Z := Z.shiftr (Z.land tci 0xe000) 13.
Definition set_svh (p : option nat) (tci : Z) (h : hdrs) : hdrs :=
  Hdrs (p_eth h) p (p_cvh h) (p_ppph h) (p_others h) (p_fixed h) (vid tci) (pri tci) (cvlanid h) (cvlanpri h) (skbLen_egress h).
Definition set_cvh (p : option nat) (tci : Z) (h : hdrs) : hdrs :=
  Hdrs (p_eth h) (p_svh h) p (p_ppph h) (p_others h) (p_fixed h) (svlanid h) (svlanpri h) (vid tci) (pri tci) (skbLen_egress h).
Definition set_pointers (eth : nat) (sv cv pp : option nat) (h : hdrs) : hdrs :=
  Hdrs eth sv cv pp (p_others h) (p_fixed h) (svlanid h) (svlanpri h) (cvlanid h) (cvlanpri h) (skbLen_egress h).
Definition put_egress (x : Z) (h : hdrs) : hdrs :=
  Hdrs (p_eth h) (p_svh h) (p_cvh h) (p_ppph h) (p_others h) (p_fixed h) (svlanid h) (svlanpri h) (cvlanid h) (cvlanpri h) x.
Definition have (p : option nat) : bool := match p with Some _ => true | None => false end.

Section Slow.
Context {K : SkbOps}.

(** The kernel may move the data; then most pointers follow, and [p_fixed] does not. *)
Definition _rtk_fc_skb_cow_head_and_pktHdr_update (headroom : nat) (s : skb) (h : hdrs) : option (skb * hdrs) :=
  match skb_cow_head headroom s with
  | None => None
  | Some s' =>
      if (data_addr s' =? data_addr s)%Z then Some (s', h) else
      let re p := p - data s + data s' in
      Some (s', Hdrs (re (p_eth h)) (re <$> p_svh h) (re <$> p_cvh h) (re <$> p_ppph h) (re <$> p_others h) (p_fixed h)
                  (svlanid h) (svlanpri h) (cvlanid h) (cvlanpri h) (skbLen_egress h))
  end.

Definition vlan_insert_stag (tci stpid : Z) (s : skb) (h : hdrs) : skb * hdrs :=
  let insertOff := ETH_HLEN - 2 in
  let s := skb_push VLAN_HLEN s in
  let s := on_buf (memmove (data s) (data s + VLAN_HLEN) insertOff) s in
  let s := move_headers (-4) 0 0 s in
  let p := data s + insertOff + 2 in
  let s := on_buf (store (data s + 12) (be2 (u16 stpid))) s in
  (on_buf (store p (be2 (u16 tci))) s, set_svh (Some p) tci (set_pointers (data s) (p_svh h) (p_cvh h) (p_ppph h) h)).
Definition vlan_insert_ctag (tci : Z) (s : skb) (h : hdrs) : skb * hdrs :=
  let insertOff := ETH_HLEN - 2 + vlan_len (have (p_svh h)) in
  let s := skb_push VLAN_HLEN s in
  let s := on_buf (memmove (data s) (data s + VLAN_HLEN) insertOff) s in
  let s := move_headers (-4) 0 0 s in
  let sv := (fun q => q - VLAN_HLEN) <$> p_svh h in
  let s := match sv with
           | Some q => on_buf (store (q + 2) (be2 ETH_P_8021Q)) s
           | None => on_buf (store (data s + 12) (be2 ETH_P_8021Q)) s
           end in
  let p := data s + insertOff + 2 in
  (on_buf (store p (be2 (u16 tci))) s, set_cvh (Some p) tci (set_pointers (data s) sv (p_cvh h) (p_ppph h) h)).
Definition rtk_fc_skbVlanTag_insert (vlanTCI : Z) (isStag : bool) (stpid : Z) (s : skb) (h : hdrs) : bool * (skb * hdrs) :=
  if have (if isStag then p_svh h else p_cvh h) then (false, (s, h))
  else match _rtk_fc_skb_cow_head_and_pktHdr_update VLAN_HLEN s h with
  | None => (false, (s, h))
  | Some (s, h) => (true, if isStag then vlan_insert_stag vlanTCI stpid s h else vlan_insert_ctag vlanTCI s h)
  end.

Definition rtk_fc_skbVlanTag_remove (isStag : bool) (s : skb) (h : hdrs) : bool * (skb * hdrs) :=
  if negb (have (if isStag then p_svh h else p_cvh h)) then (false, (s, h))
  else
    let rmOff := ETH_HLEN - 2 + (if isStag then 0 else vlan_len (have (p_svh h))) in
    let s := on_buf (memmove (data s + VLAN_HLEN) (data s) rmOff) s in
    let s := skb_reset_mac_header (move_data (data s + VLAN_HLEN) (len s - VLAN_HLEN) s) in
    (true, (s, if isStag then set_svh None 0 (set_pointers (data s) (p_svh h) (p_cvh h) (p_ppph h) h)
               else set_cvh None 0 (set_pointers (data s) ((fun q => q + VLAN_HLEN) <$> p_svh h) (p_cvh h) (p_ppph h) h))).

(** Where the protocol of what follows the tags is written. *)
Definition proto_field (h : hdrs) : nat :=
  match p_cvh h, p_svh h with
  | Some q, _ => q + 2
  | None, Some q => q + 2
  | None, None => p_eth h + 12
  end.
Definition _rtk_fc_skbPPPoETag_insert (sessionid : Z) (s : skb) (h : hdrs) : bool * (skb * hdrs) :=
  if have (p_ppph h) then (false, (s, h))
  else
    let insertOff := ETH_HLEN + vlan_len (have (p_svh h)) + vlan_len (have (p_cvh h)) in
    match _rtk_fc_skb_cow_head_and_pktHdr_update PPPOE_SES_HLEN s h with
    | None => (false, (s, h))
    | Some (s, h) =>
        let s := skb_push PPPOE_SES_HLEN s in
        let s := on_buf (memmove (data s) (data s + PPPOE_SES_HLEN) insertOff) s in
        let s := move_headers (-8) 0 0 s in
        let back q := q - PPPOE_SES_HLEN in
        let h := set_pointers (data s) (back <$> p_svh h) (back <$> p_cvh h) (p_ppph h) h in
        let l3proto := load2 (proto_field h) (buf s) in
        let s := on_buf (store (proto_field h) (be2 ETH_P_PPP_SES)) s in
        let l3proto := (if l3proto =? ETH_P_IPV6 then 0x0057 else 0x0021)%Z in
        let p := data s + insertOff in
        let s := on_buf (store p (pppoe_hdr sessionid (Z.of_nat (len s) - Z.of_nat insertOff - Z.of_nat PPPOE_SES_HLEN + 2))) s in
        (true, (on_buf (store (p + 6) (be2 l3proto)) s, set_pointers (p_eth h) (p_svh h) (p_cvh h) (Some p) h))
    end.
Definition _rtk_fc_skbPPPoETag_remove (s : skb) (h : hdrs) : bool * (skb * hdrs) :=
  match p_ppph h with
  | None => (false, (s, h))
  | Some p =>
      match p2p_l3proto (p + 6) (buf s) with
      | None => (false, (s, h))
      | Some l3proto =>
          let rmSize := rm_size (p + 6) (buf s) in
          let rmOff := ETH_HLEN + vlan_len (have (p_svh h)) + vlan_len (have (p_cvh h)) in
          let s := on_buf (memmove (data s + rmSize) (data s) rmOff) s in
          let s := skb_reset_mac_header (move_data (data s + rmSize) (len s - rmSize) s) in
          let sv := (fun _ => data s + 14) <$> p_svh h in
          let cv := (fun _ => data s + 14 + vlan_len (have (p_svh h))) <$> p_cvh h in
          let h := set_pointers (data s) sv cv None h in
          (true, (on_buf (store (proto_field h) (be2 l3proto)) s, h))
      end
  end.

(** Inside a layer-2 tunnel: where the outer headers are, and the length of what they make up. *)
Record outer := Outer {
  outerTag_off : nat;
  o_ppph : option nat;
  o_iph : option nat;
  o_ip6h : option nat;
  o_udph : option nat }.
(** A length field that grows by a tag. *)
Definition grow (p : nat) (s : skb) : skb := on_buf (store p (be2 (u16 (load2 p (buf s) + 4)))) s.
Definition grow_at (p : option nat) (off : nat) (s : skb) : skb := match p with Some p => grow (p + off) s | None => s end.
Definition rtk_fc_inner_skbVlanTag_insert (vlanTCI : Z) (isStag : bool) (stpid : Z) (s : skb) (h : hdrs) (o : outer)
    : bool * (skb * hdrs * outer) :=
  if have (if isStag then p_svh h else p_cvh h) then (false, (s, h, o))
  else match skb_cow_head VLAN_HLEN s with
  | None => (false, (s, h, o))
  | Some s =>
      let insertOff := outerTag_off o + (ETH_HLEN - 2) + (if isStag then 0 else vlan_len (have (p_svh h))) in
      let s := skb_push VLAN_HLEN s in
      let s := on_buf (memmove (data s) (data s + VLAN_HLEN) insertOff) s in
      let back q := q - VLAN_HLEN in
      let o := Outer (outerTag_off o) (back <$> o_ppph o) (back <$> o_iph o) (o_ip6h o) (back <$> o_udph o) in
      let s := move_headers (-4) 0 0 s in
      let s := grow_at (o_ppph o) 4 s in
      let s := match o_ip6h o with Some p => grow (p + 4) s | None => grow_at (o_iph o) 2 s end in
      let s := grow_at (o_udph o) 4 s in
      let eth := data s + outerTag_off o in
      let p := data s + insertOff + 2 in
      if isStag then
        let s := on_buf (store (eth + 12) (be2 (u16 stpid))) s in
        (true, (on_buf (store p (be2 (u16 vlanTCI))) s, set_svh (Some p) vlanTCI (set_pointers eth (p_svh h) (p_cvh h) (p_ppph h) h), o))
      else
        let sv := back <$> p_svh h in
        let s := match sv with
                 | Some q => on_buf (store (q + 2) (be2 ETH_P_8021Q)) s
                 | None => on_buf (store (eth + 12) (be2 ETH_P_8021Q)) s
                 end in
        (true, (on_buf (store p (be2 (u16 vlanTCI))) s, set_cvh (Some p) vlanTCI (set_pointers eth sv (p_cvh h) (p_ppph h) h), o))
  end.

Definition rtk_fc_skbVlanTag_update (vlanID : Z) (isStag : bool) (s : skb) (h : hdrs) : bool * (skb * hdrs) :=
  match (if isStag then p_svh h else p_cvh h) with
  | None => (false, (s, h))
  | Some p =>
      let tci := Z.lor (Z.land (load2 p (buf s)) (Z.lnot 0xfff)) (Z.land vlanID 0xfff) in
      (true, (on_buf (store p (be2 (u16 tci))) s, if isStag then set_svh (Some p) tci h else set_cvh (Some p) tci h))
  end.

(** What the flow says about tags, and the egress interface about PPPoE. *)
Inductive pppoe_act := FB_NETIFPPPOE_ACT_KEEP | FB_NETIFPPPOE_ACT_ADD | FB_NETIFPPPOE_ACT_MODIFY | FB_NETIFPPPOE_ACT_REMOVE.
Record tag_flow := TagFlow {
  out_svid_format_act : bool;
  out_svlan_id : Z;
  out_spri : Z;
  egr_svlan_dei : Z;
  stpid_differs : bool;                  (* igr_stpid_sel and egr_stpid_sel *)
  egr_stpid : Z;                         (* stagTPID[egr_stpid_sel] *)
  out_cvid_format_act : bool;
  out_cvlan_id : Z;
  out_cpri : Z;
  egr_cvlan_cfi : Z;
  tag_path : in_path_t;
  tag_smac_trans : bool;
  out_pppoe_act : pppoe_act;
  out_pppoe_sid : Z }.
Definition svlan_tci (f : tag_flow) : Z := Z.lor (out_svlan_id f) (Z.lor (Z.shiftl (out_spri f) 13) (Z.shiftl (egr_svlan_dei f) 12)).
Definition cvlan_tci (f : tag_flow) : Z := Z.lor (out_cvlan_id f) (Z.lor (Z.shiftl (out_cpri f) 13) (Z.shiftl (egr_cvlan_cfi f) 12)).
Definition pppoe_allowed (f : tag_flow) : bool :=
  match tag_path f with FB_PATH_5 => true | FB_PATH_12 | FB_PATH_34 => tag_smac_trans f | FB_PATH_6 => false end.
Definition adds (a : pppoe_act) : bool := match a with FB_NETIFPPPOE_ACT_ADD | FB_NETIFPPPOE_ACT_MODIFY => true | _ => false end.
Definition removes (a : pppoe_act) : bool := match a with FB_NETIFPPPOE_ACT_REMOVE => true | _ => false end.

(** The three steps, each with its part of [len_diff]; packets without a layer-2 tunnel. *)
Definition svlan_step (f : tag_flow) (s : skb) (h : hdrs) : Z * (skb * hdrs) :=
  if out_svid_format_act f then
    match p_svh h with
    | Some p =>
        let s := if stpid_differs f then on_buf (store (p - 2) (be2 (u16 (egr_stpid f)))) s else s in
        (0%Z, (on_buf (store p (be2 (u16 (svlan_tci f)))) s, h))
    | None => (4%Z, (rtk_fc_skbVlanTag_insert (svlan_tci f) true (egr_stpid f) s h).2)
    end
  else match p_svh h with
  | Some _ => ((-4)%Z, (rtk_fc_skbVlanTag_remove true s h).2)
  | None => (0%Z, (s, h))
  end.
Definition cvlan_step (f : tag_flow) (s : skb) (h : hdrs) : Z * (skb * hdrs) :=
  if out_cvid_format_act f then
    match p_cvh h with
    | Some p => (0%Z, (on_buf (store p (be2 (u16 (cvlan_tci f)))) s, h))
    | None => (4%Z, (rtk_fc_skbVlanTag_insert (cvlan_tci f) false 0 s h).2)
    end
  else match p_cvh h with
  | Some _ => ((-4)%Z, (rtk_fc_skbVlanTag_remove false s h).2)
  | None => (0%Z, (s, h))
  end.
Definition pppoe_step (f : tag_flow) (s : skb) (h : hdrs) : Z * (skb * hdrs) :=
  if pppoe_allowed f then
    if negb (have (p_ppph h)) && adds (out_pppoe_act f) then (8%Z, (_rtk_fc_skbPPPoETag_insert (out_pppoe_sid f) s h).2)
    else if have (p_ppph h) && removes (out_pppoe_act f) then ((-8)%Z, (_rtk_fc_skbPPPoETag_remove s h).2)
    else (0%Z, (s, h))
  else (0%Z, (s, h)).
Definition _rtk_fc_swPktHdrModify (f : tag_flow) (s : skb) (h : hdrs) : skb * hdrs :=
  let '(d1, (s, h)) := svlan_step f s h in
  let '(d2, (s, h)) := cvlan_step f s h in
  let '(d3, (s, h)) := pppoe_step f s h in
  (s, put_egress (skbLen_egress h + (d1 + d2 + d3)) h).
End Slow.
