(* ===== verification/FcTagsSpec.v ===== *)
(** * What tag rewriting guarantees

    A buffer that holds a frame still holds a frame after tags were rewritten: the one
    with the tags the flow asks for, the addresses and the payload untouched. *)
From S2P Require Import Prelude FcChecksum FcChecksumSpec FcRewrite FcTags.
Open Scope nat_scope.

(** ** Frames *)

Record vtag := Vtag { tpid : Z; tci : Z }.
(** After the tags: a packet of its ethertype, or one in a PPPoE session. *)
Inductive inner :=
| Plain (etype : Z)
| Session (vt code sid plen : Z) (proto : list Z).
Record frame := Frame {
  macs : list Z;
  stag : option vtag;
  ctag : option vtag;
  within : inner;
  body : list Z }.

Definition tag_bytes (t : option vtag) : list Z := match t with Some t => be2 (tpid t) ++ be2 (tci t) | None => [] end.
Definition inner_bytes (i : inner) : list Z :=
  match i with
  | Plain e => be2 e
  | Session vt code sid plen proto => be2 ETH_P_PPP_SES ++ ([vt; code] ++ be2 sid ++ be2 plen) ++ proto
  end.
Definition encode (f : frame) : list Z := macs f ++ tag_bytes (stag f) ++ tag_bytes (ctag f) ++ inner_bytes (within f) ++ body f.
(** The protocol of PPP is written in one byte if the byte is odd, else in two. *)
Definition proto_ok (p : list Z) : Prop :=
  match p with [x] => Z.odd x = true | [x; _] => Z.odd x = false | _ => False end.
Definition frame_ok (f : frame) : Prop :=
  length (macs f) = 12 /\ match within f with Plain e => is_u16 e | Session _ _ _ _ p => proto_ok p end.
Definition present (t : option vtag) : bool := match t with Some _ => true | None => false end.
Definition in_session (f : frame) : bool := match within f with Session _ _ _ _ _ => true | Plain _ => false end.

Lemma be2_length z : length (be2 z) = 2.
Proof. done. Qed.
Lemma tag_length t : length (tag_bytes t) = vlan_len (present t).
Proof. by destruct t. Qed.

(** ** Buffers that hold bytes *)

Definition holds (s : skb) (b : list Z) : Prop :=
  exists pre post, buf s = pre ++ b ++ post /\ length pre = data s /\ len s = length b.

Lemma holds_bytes s b : holds s b -> bytes s = b.
Proof. intros (pre & post & E & E1 & E2). unfold bytes. rewrite E, <- E1, drop_app_length, E2. apply take_app_length. Qed.
Lemma holds_headers s b m n t : holds s b -> holds (move_headers m n t s) b.
Proof. done. Qed.
Lemma holds_stored s x old y bs off : holds s (x ++ old ++ y) -> length old = length bs -> off = data s + length x ->
  holds (on_buf (store off bs) s) (x ++ bs ++ y).
Proof.
  intros (pre & post & E & E1 & E2) Hl ->. exists pre, post. split; [|split; [done|]].
  - simpl. unfold store. rewrite E, <- E1.
    assert (pre ++ (x ++ old ++ y) ++ post = (pre ++ x) ++ old ++ y ++ post) as -> by (by rewrite !app_assoc).
    rewrite <- length_app, take_app_length, <- Hl, <- length_app.
    rewrite (app_assoc (pre ++ x) old), drop_app_length. by rewrite <- !app_assoc.
  - simpl. rewrite E2, !length_app. lia.
Qed.
Lemma nth_middle' (x y : list Z) b off : off = length x -> nth off (x ++ b :: y) 0%Z = b.
Proof. intros ->. apply nth_middle. Qed.
Lemma holds_byte s x b y off : holds s (x ++ b :: y) -> off = data s + length x -> byte_at off (buf s) = b.
Proof.
  intros (pre & post & E & E1 & E2) ->. unfold byte_at. rewrite E, <- E1.
  rewrite <- app_assoc, app_assoc. simpl. apply nth_middle'. by rewrite length_app.
Qed.
Lemma holds_load2 s x v y off : holds s (x ++ be2 v ++ y) -> is_u16 v -> off = data s + length x -> load2 off (buf s) = v.
Proof.
  unfold be2, load2. intros H Hv ->. simpl in H. rewrite (holds_byte s _ _ _ _ H eq_refl).
  assert (holds s ((x ++ [(v / 256)%Z]) ++ (v mod 256)%Z :: y)) as H2 by (by rewrite <- app_assoc).
  rewrite (holds_byte s _ _ _ (data s + length x + 1) H2) by (rewrite length_app; simpl; lia).
  unfold is_u16 in Hv. pose proof (Z.div_mod v 256). lia.
Qed.
Lemma holds_left s a rest n : holds s (a ++ rest) -> n <= data s -> exists g, length g = n /\
  holds (on_buf (memmove (data s - n) (data s) (length a)) (move_data (data s - n) (len s + n) s)) (a ++ g ++ rest).
Proof.
  intros (pre & post & E & E1 & E2) Hn. exists (drop (data s - n + length a) (pre ++ a)).
  split; [rewrite length_drop, length_app; lia|]. exists (take (data s - n) pre), post. simpl. split; [|split].
  - unfold memmove. rewrite E, take_app_le by lia. f_equal. rewrite <- E1 at 1. rewrite drop_app_length.
    rewrite <- !app_assoc, take_app_length. f_equal. rewrite app_assoc, drop_app_le by (rewrite length_app; lia). done.
  - rewrite length_take. lia.
  - rewrite E2, !length_app, length_drop, length_app. lia.
Qed.
Lemma holds_right s a cut rest n : holds s (a ++ cut ++ rest) -> length cut = n ->
  holds (move_data (data s + n) (len s - n) (on_buf (memmove (data s + n) (data s) (length a)) s)) (a ++ rest).
Proof.
  intros (pre & post & E & E1 & E2) Hn. exists (take (data s + n) (pre ++ a ++ cut)), post. simpl. split; [|split].
  - unfold memmove. rewrite E. assert (pre ++ (a ++ cut ++ rest) ++ post = (pre ++ a ++ cut) ++ rest ++ post) as E3 by (by rewrite <- !app_assoc).
    rewrite E3 at 1. rewrite take_app_le by (rewrite !length_app; lia). f_equal.
    rewrite <- E1 at 1. rewrite drop_app_length, <- !app_assoc, take_app_length. f_equal.
    assert (data s + n + length a = length (pre ++ a ++ cut)) as -> by (rewrite !length_app; lia).
    rewrite !app_assoc. rewrite <- (app_assoc pre a cut). rewrite <- app_assoc. apply drop_app_length.
  - rewrite length_take, !length_app. lia.
  - rewrite E2, !length_app. lia.
Qed.

(** What the bytes of a PPP protocol stand for. *)
Definition ppp_etype (x : Z) : option Z :=
  if (x =? 0x21)%Z then Some ETH_P_IP else if (x =? 0x57)%Z then Some ETH_P_IPV6 else None.
Definition etype_of (p : list Z) : option Z :=
  match p with
  | [x] => ppp_etype x
  | [y; x] => if (y =? 0)%Z then ppp_etype x else None
  | _ => None
  end.
Lemma odd_not x : Z.odd x = true -> x <> 0%Z.
Proof. by intros H ->. Qed.
Lemma p2p_read s x p rest off : holds s (x ++ p ++ rest) -> proto_ok p -> off = data s + length x ->
  p2p_l3proto off (buf s) = etype_of p /\ (etype_of p <> None -> rm_size off (buf s) = 6 + length p).
Proof.
  intros H Hp Eo. unfold p2p_l3proto, rm_size, etype_of, ppp_etype. destruct p as [|y [|z []]]; [destruct Hp| | |destruct Hp]; simpl in H, Hp.
  - rewrite (holds_byte s x y rest off H Eo). pose proof (odd_not y Hp) as Hy. rewrite (proj2 (Z.eqb_neq y 0) Hy). simpl.
    rewrite !orb_false_r. done.
  - rewrite (holds_byte s x y (z :: rest) off H Eo).
    assert (holds s ((x ++ [y]) ++ z :: rest)) as H2 by (by rewrite <- app_assoc).
    rewrite (holds_byte s _ z rest (off + 1) H2) by (rewrite length_app; simpl; lia).
    assert (forall k, Z.odd k = true -> (y =? k)%Z = false) as Hk.
    { intros k Hk. apply Z.eqb_neq. intros ->. congruence. }
    rewrite (Hk 0x21%Z), (Hk 0x57%Z) by done. simpl. by destruct (y =? 0)%Z; [|split; [|congruence]].
Qed.

(** ** What tag rewriting is to do *)

Definition set_stag (t : option vtag) (f : frame) : frame := Frame (macs f) t (ctag f) (within f) (body f).
Definition set_ctag (t : option vtag) (f : frame) : frame := Frame (macs f) (stag f) t (within f) (body f).
Definition set_within (i : inner) (f : frame) : frame := Frame (macs f) (stag f) (ctag f) i (body f).
(** [new], once there was room for it. *)
Definition tagged (ok : bool) (new : vtag) (old : option vtag) : option vtag :=
  if ok || present old then Some new else None.
(** A session for the protocol [p2p] gives to the ethertype. *)
Definition add_session (p2p : Z -> option Z) (ok : bool) (sid : Z) (f : frame) : frame :=
  match within f with
  | Plain e =>
      match p2p e with
      | Some p => if ok then set_within (Session 0x11 0 (u16 sid) (u16 (2 + Z.of_nat (length (body f)))) [0%Z; p]) f else f
      | None => f
      end
  | Session _ _ _ _ _ => f
  end.
Definition drop_session (f : frame) : frame :=
  match within f with
  | Session _ _ _ _ p => match etype_of p with Some e => set_within (Plain e) f | None => f end
  | Plain _ => f
  end.
(** The byte of the PPP protocol that stands for an ethertype. *)
Definition p2p_of (e : Z) : option Z :=
  if (e =? ETH_P_IPV6)%Z then Some 0x57%Z else if (e =? ETH_P_IP)%Z then Some 0x21%Z else None.

Definition session_result (ok : bool) (cmd : egact) (sid : Z) (f : frame) : frame :=
  if negb (in_session f) && is_tag cmd then add_session p2p_of ok sid f
  else if in_session f && is_untag cmd then drop_session f else f.
Definition tag_result (ok : bool) (cmd : egact) (t c : Z) (old : option vtag) : option vtag :=
  if is_tag cmd then tagged ok (Vtag (u16 t) (u16 c)) old else None.
(** A flow kept in software; the flags say whether there was room. *)
Definition software_tags (okp okc oks : bool) (a : tag_action) (f : frame) : frame :=
  set_stag (tag_result oks (stagCmd a) (pSvlanTpid a) (pSvlanTCI a) (stag f))
    (set_ctag (tag_result okc (ctagCmd a) (pCvlanTpid a) (pCvlanTCI a) (ctag f))
      (session_result okp (pppoeCmd a) (pPppoeSid a) f)).

(** ** The steps on bytes *)
Section Steps.
Context {K : SkbOps} {L : SkbLaws K}.

Definition never_fails : Prop := forall n s, skb_cow_head n s <> None.

Lemma cow_holds n s s' b : holds s b -> skb_cow_head n s = Some s' -> holds s' b /\ n <= data s'.
Proof.
  intros (pre & post & E & E1 & E2) Hc. destruct (cow_head_keeps n s s' Hc) as (pre' & Eb & Ed & El & Hn & _).
  split; [|done]. exists pre', post. split; [|split; congruence]. rewrite Eb, E, <- E1. by rewrite drop_app_length.
Qed.
Lemma gap_tag s x g rest t c : holds s (x ++ g ++ rest) -> length g = 4 ->
  holds (on_buf (store (data s + length x) (be2 t ++ be2 c)) s) (x ++ (be2 t ++ be2 c) ++ rest).
Proof. intros H Hg. by apply (holds_stored s x g rest). Qed.
Lemma opened s x rest n : holds s (x ++ rest) -> n <= data s -> exists g, length g = n /\
  holds (on_buf (memmove (data s - n) (data s - n + n) (length x)) (move_data (data s - n) (len s + n) s)) (x ++ g ++ rest).
Proof. intros H Hn. replace (data s - n + n) with (data s) by lia. by apply holds_left. Qed.

Lemma fast_insert_holds off t c s a rest : holds s (a ++ rest) -> length a = off ->
  exists ok : bool, (never_fails -> ok = true) /\
    holds (rtk_fc_skbVlanTag_fast_insert off t c s).2 (a ++ (if ok then be2 (u16 t) ++ be2 (u16 c) else []) ++ rest).
Proof.
  intros H <-. unfold rtk_fc_skbVlanTag_fast_insert. destruct (skb_cow_head VLAN_HLEN s) as [s1|] eqn:Hc.
  - exists true. split; [done|]. destruct (cow_holds _ _ _ _ H Hc) as [H1 Hn].
    destruct (opened s1 a rest VLAN_HLEN H1 Hn) as (g & Hg & H2). apply holds_headers.
    exact (gap_tag _ a g rest (u16 t) (u16 c) H2 Hg).
  - exists false. split; [intros Hf; by destruct (Hf _ _ Hc)|done].
Qed.
Lemma fast_remove_holds off s a cut rest : holds s (a ++ cut ++ rest) -> length a = off -> length cut = 4 ->
  holds (rtk_fc_skbVlanTag_fast_remove off s).2 (a ++ rest).
Proof. intros H <- Hc. apply holds_headers. exact (holds_right s a cut rest VLAN_HLEN H Hc). Qed.

Definition session_bytes (sid : Z) (p : Z) (rest : list Z) : list Z :=
  be2 ETH_P_PPP_SES ++ pppoe_hdr sid (2 + Z.of_nat (length rest)) ++ [0%Z; p] ++ rest.

Lemma fast_session_holds off sid s a e rest : holds s (a ++ be2 e ++ rest) -> length a = off -> is_u16 e ->
  exists ok : bool, (never_fails -> ok = true) /\
    holds (_rtk_fc_skbPPPoETag_fast_insert off sid s).2
      (a ++ (match p2p_of e with Some p => if ok then session_bytes sid p rest else be2 e ++ rest | None => be2 e ++ rest end)).
Proof.
  intros H <- He. unfold _rtk_fc_skbPPPoETag_fast_insert. destruct (skb_cow_head PPPOE_SES_HLEN s) as [s1|] eqn:Hc.
  2: { exists false. split; [intros Hf; by destruct (Hf _ _ Hc)|]. by destruct (p2p_of e). }
  exists true. split; [done|]. destruct (cow_holds _ _ _ _ H Hc) as [H1 Hn]. cbv zeta.
  rewrite (holds_load2 s1 a e rest _ H1 He eq_refl). unfold p2p_of.
  set (put := fun p : Z => on_buf (store (data s1 + length a) (be2 p)) s1).
  assert (forall p, (0 <= p < 256)%Z -> let s2 := put p in
    let s3 := on_buf (memmove (data s2 - PPPOE_SES_HLEN) (data s2 - PPPOE_SES_HLEN + PPPOE_SES_HLEN) (length a))
                (move_data (data s2 - PPPOE_SES_HLEN) (len s2 + PPPOE_SES_HLEN) s2) in
    let s4 := on_buf (store (data s3 + length a) (be2 ETH_P_PPP_SES)) (move_headers (-8) (-8) (-8) s3) in
    holds (on_buf (store (data s4 + length a + ETH_TLEN)
       (pppoe_hdr sid (Z.of_nat (len s4) - Z.of_nat (length a) - Z.of_nat PPPOE_SES_HLEN))) s4) (a ++ session_bytes sid p rest)) as Hput.
  { intros p Hp s2 s3 s4. assert (holds s2 (a ++ be2 p ++ rest)) as H2 by (by apply (holds_stored s1 a (be2 e) rest)).
    destruct (opened s2 a (be2 p ++ rest) PPPOE_SES_HLEN H2 Hn) as (g & Hg & H3). fold s3 in H3.
    assert (holds s4 (a ++ be2 ETH_P_PPP_SES ++ drop 2 g ++ be2 p ++ rest)) as H4.
    { rewrite <- (take_drop 2 g), <- app_assoc in H3. apply (holds_stored (move_headers _ _ _ s3) a (take 2 g)); [done| |done].
      rewrite length_take, Hg. done. }
    assert (Z.of_nat (len s4) - Z.of_nat (length a) - Z.of_nat PPPOE_SES_HLEN = 2 + Z.of_nat (length rest))%Z as ->.
    { destruct H4 as (_ & _ & _ & _ & ->). rewrite !length_app, length_drop, Hg. unfold be2, PPPOE_SES_HLEN. simpl. lia. }
    rewrite (app_assoc a) in H4.
    pose proof (holds_stored s4 (a ++ be2 ETH_P_PPP_SES) (drop 2 g) (be2 p ++ rest)
      (pppoe_hdr sid (2 + Z.of_nat (length rest))) (data s4 + length a + ETH_TLEN) H4) as H5.
    unfold session_bytes. rewrite <- app_assoc in H5. assert (be2 p = [0%Z; p]) as E.
    { unfold be2. rewrite Z.div_small, Z.mod_small by lia. done. }
    rewrite E in H5. apply H5; [rewrite length_drop, Hg; done|]. rewrite length_app. unfold be2, ETH_TLEN. simpl. lia. }
  destruct (e =? ETH_P_IPV6)%Z; [exact (Hput 0x57%Z ltac:(lia))|].
  destruct (e =? ETH_P_IP)%Z; [exact (Hput 0x21%Z ltac:(lia))|exact H1].
Qed.
Lemma fast_unsession_holds off s a hdr p rest : holds s (a ++ be2 ETH_P_PPP_SES ++ hdr ++ p ++ rest) -> length a = off ->
  length hdr = 6 -> proto_ok p ->
  holds (_rtk_fc_skbPPPoETag_fast_remove off s).2
    (a ++ (match etype_of p with Some e => be2 e | None => be2 ETH_P_PPP_SES ++ hdr ++ p end) ++ rest).
Proof.
  intros H <- Hh Hp. unfold _rtk_fc_skbPPPoETag_fast_remove. cbv zeta.
  assert (holds s ((a ++ be2 ETH_P_PPP_SES ++ hdr) ++ p ++ rest)) as H1 by (by rewrite <- !app_assoc).
  destruct (p2p_read s _ p rest (data s + length a + PPPOE_SES_HLEN) H1 Hp) as [-> Er].
  { rewrite !length_app, Hh. unfold be2, PPPOE_SES_HLEN. simpl. lia. }
  destruct (etype_of p) as [e|] eqn:Ee; [|by rewrite <- !app_assoc in *]. rewrite Er by done.
  set (mid := be2 ETH_P_PPP_SES ++ hdr ++ p). assert (length mid = 8 + length p) as Hm.
  { unfold mid. rewrite !length_app, Hh. done. }
  assert (holds s (a ++ take (6 + length p) mid ++ drop (6 + length p) mid ++ rest)) as H2.
  { rewrite (app_assoc (take _ _)), take_drop. unfold mid. by rewrite <- !app_assoc. }
  pose proof (holds_right s a _ _ (6 + length p) H2 ltac:(rewrite length_take; lia)) as H3.
  apply (holds_stored (move_headers 8 8 8 _) a (drop (6 + length p) mid) rest); [exact H3| |done].
  rewrite length_drop, Hm. unfold be2. simpl. lia.
Qed.

(** ** Flows kept in software *)

Lemma egress_tag_holds cmd off t c s a old rest : holds s (a ++ tag_bytes old ++ rest) -> length a = off ->
  exists ok : bool, (never_fails -> ok = true) /\
    holds (egress_tag cmd (present old) off t c s) (a ++ tag_bytes (tag_result ok cmd t c old) ++ rest).
Proof.
  intros H <-. unfold egress_tag, tag_result, tagged. destruct (is_tag cmd), old as [o|]; simpl.
  - exists true. split; [done|]. by apply (holds_stored s a (tag_bytes (Some o)) rest).
  - destruct (fast_insert_holds _ t c s a rest H eq_refl) as (ok & Hok & H1). exists ok. split; [done|]. by destruct ok.
  - exists true. split; [done|]. by apply (fast_remove_holds _ s a (tag_bytes (Some o)) rest).
  - by exists true.
Qed.
(** The session step leaves all before it as it is. *)
Lemma session_holds cmd sid off f s a : frame_ok f -> holds s (a ++ inner_bytes (within f) ++ body f) -> length a = off ->
  exists ok : bool, (never_fails -> ok = true) /\
    let g := session_result ok cmd sid f in
    holds (egress_session cmd (in_session f) off sid s) (a ++ inner_bytes (within g) ++ body g) /\ stag g = stag f /\ ctag g = ctag f /\ macs g = macs f.
Proof.
  intros [_ Hi] H Ha. unfold session_result, egress_session, in_session, add_session, drop_session. destruct (within f) as [e|vt code sd pl p] eqn:Ew; cbn [negb andb].
  - destruct (is_tag cmd); [|exists true; rewrite Ew; split_and!; done].
    destruct (fast_session_holds off sid s a e (body f) H Ha Hi) as (ok & Hok & H1). exists ok. split; [done|].
    destruct (p2p_of e) as [p|]; [|by rewrite Ew]. destruct ok; [|by rewrite Ew]. split; [|done].
    simpl. unfold session_bytes, pppoe_hdr in H1. by rewrite <- !app_assoc in *.
  - exists true. split; [done|]. destruct (is_untag cmd); cbn [andb negb]; [|by rewrite Ew]. cbn [inner_bytes] in H. rewrite <- !app_assoc in H.
    pose proof (fast_unsession_holds off s a ([vt; code] ++ be2 sd ++ be2 pl) p (body f) H Ha eq_refl Hi) as H1.
    destruct (etype_of p); [done|]. rewrite Ew. cbn [inner_bytes]. by rewrite <- !app_assoc in *.
Qed.

Lemma software_tags_hold a f s : frame_ok f -> holds s (encode f) ->
  exists okp okc oks, (never_fails -> okp = true /\ okc = true /\ oks = true) /\
    holds (rtk_fc_abstrSwPktHdrModify (present (stag f)) (present (ctag f)) (in_session f) a s) (encode (software_tags okp okc oks a f)).
Proof.
  intros Hf H. pose proof Hf as [Hm _]. unfold encode in H. rewrite !app_assoc in H. rewrite <- (app_assoc _ _ (body f)) in H.
  destruct (session_holds (pppoeCmd a) (pPppoeSid a) (ETH_HLEN - ETH_TLEN + vlan_len (present (stag f)) + vlan_len (present (ctag f)))
    f s _ Hf H) as (okp & Hokp & H1 & Es & Ec & Em); [rewrite !length_app, !tag_length, Hm; done|].
  unfold rtk_fc_abstrSwPktHdrModify. revert H1 Es Ec Em. cbv zeta.
  set (g := session_result _ _ _ f). set (s1 := egress_session _ _ _ _ s). intros H1 Es Ec Em. rewrite <- app_assoc in H1.
  destruct (egress_tag_holds (ctagCmd a) (ETH_HLEN - ETH_TLEN + vlan_len (present (stag f))) (pCvlanTpid a) (pCvlanTCI a) s1 _ _ _ H1)
    as (okc & Hokc & H2); [rewrite length_app, tag_length, Hm; done|]. rewrite <- app_assoc in H2.
  destruct (egress_tag_holds (stagCmd a) (ETH_HLEN - ETH_TLEN) (pSvlanTpid a) (pSvlanTCI a) _ _ _ _ H2 Hm) as (oks & Hoks & H3).
  exists okp, okc, oks. split; [tauto|]. unfold encode, software_tags. fold g. simpl. by rewrite Em.
Qed.

(** ** With header pointers *)

(** What lies before the payload. *)
Definition head_len (f : frame) : nat := 12 + vlan_len (present (stag f)) + vlan_len (present (ctag f)) + length (inner_bytes (within f)).
#[local] Arguments head_len : simpl never.
Definition body_at (s : skb) (f : frame) : nat := data s + head_len f.
(** The buffer holds the frame and every pointer its part of it. *)
Record represents (s : skb) (h : hdrs) (f : frame) (offs : list nat) : Prop := {
  rep_bytes : holds s (encode f);
  rep_mac : mac_header s = Z.of_nat (data s);
  rep_net : network_header s = Z.of_nat (body_at s f);
  rep_eth : p_eth h = data s;
  rep_svh : p_svh h = if present (stag f) then Some (data s + 14) else None;
  rep_cvh : p_cvh h = if present (ctag f) then Some (data s + 14 + vlan_len (present (stag f))) else None;
  rep_ppph : p_ppph h = if in_session f
                        then Some (data s + 14 + vlan_len (present (stag f)) + vlan_len (present (ctag f))) else None;
  rep_others : p_others h = (fun o => body_at s f + o) <$> offs }.

Lemma have_if (b : bool) (x : nat) : have (if b then Some x else None) = b.
Proof. by destruct b. Qed.
Lemma rep_have s h f offs : represents s h f offs ->
  have (p_svh h) = present (stag f) /\ have (p_cvh h) = present (ctag f) /\ have (p_ppph h) = in_session f.
Proof. intros R. by rewrite (rep_svh _ _ _ _ R), (rep_cvh _ _ _ _ R), (rep_ppph _ _ _ _ R), !have_if. Qed.

Lemma cow_represents n s h f offs s' h' : represents s h f offs -> _rtk_fc_skb_cow_head_and_pktHdr_update n s h = Some (s', h') ->
  represents s' h' f offs /\ n <= data s' /\ skbLen_egress h' = skbLen_egress h.
Proof.
  intros [H Hm Hn He Hs Hc Hp Ho] E. unfold _rtk_fc_skb_cow_head_and_pktHdr_update in E.
  destruct (skb_cow_head n s) as [s1|] eqn:Ec; [|done].
  destruct (cow_holds n s s1 _ H Ec) as [H1 Hr]. destruct (cow_head_keeps n s s1 Ec) as (_ & _ & _ & _ & _ & Em & En & _).
  destruct (_ =? _)%Z eqn:Ea; injection E as <- <-.
  { apply Z.eqb_eq in Ea. rewrite (cow_head_stays n s s1 Ec Ea) in *. split; [by split|done]. }
  split; [|done]. unfold body_at in *. split; unfold body_at; simpl; [done|lia|lia|lia|..].
  - rewrite Hs. destruct (present (stag f)); simpl; [f_equal; lia|done].
  - rewrite Hc. destruct (present (ctag f)); simpl; [f_equal; lia|done].
  - rewrite Hp. destruct (in_session f); simpl; [f_equal; lia|done].
  - rewrite Ho, <- list_fmap_compose. apply list_fmap_ext. intros i x _. simpl. lia.
Qed.

(** Data moved by [n] to the front, a tag put into the gap. *)
Lemma pushed_tag s x rest t c k o1 o2 : holds s (x ++ rest) -> VLAN_HLEN <= data s -> k = length x ->
  o1 = data s - VLAN_HLEN + k -> o2 = data s - VLAN_HLEN + k + 2 ->
  holds (on_buf (store o2 (be2 c)) (on_buf (store o1 (be2 t))
    (on_buf (memmove (data s - VLAN_HLEN) (data s - VLAN_HLEN + VLAN_HLEN) k) (move_data (data s - VLAN_HLEN) (len s + VLAN_HLEN) s))))
    (x ++ (be2 t ++ be2 c) ++ rest).
Proof.
  intros H Hn -> -> ->. destruct (opened s x rest _ H Hn) as (g & Hg & H1).
  rewrite <- (take_drop 2 g), <- app_assoc in H1.
  apply (holds_stored _ x (take 2 g)) with (bs := be2 t) (off := data s - VLAN_HLEN + length x) in H1; [|rewrite length_take, Hg; done|done].
  rewrite app_assoc in H1.
  apply (holds_stored _ (x ++ be2 t) (drop 2 g)) with (bs := be2 c) (off := data s - VLAN_HLEN + length x + 2) in H1;
    [|rewrite length_drop, Hg; done|simpl; rewrite length_app; simpl; lia].
  by rewrite <- !app_assoc in *.
Qed.
(** The pointers after the data moved by a number of bytes that were taken in or left out. *)
Ltac fields := cbn [data len mac_header network_header on_buf move_headers move_data p_eth p_svh p_cvh p_ppph p_others
  set_pointers set_svh set_cvh skbLen_egress fst snd have option_fmap option_map fmap stag ctag within set_stag set_ctag set_within].
Ltac pointers := fields; unfold body_at, VLAN_HLEN, PPPOE_SES_HLEN, ETH_HLEN in *; lia.
(** The pointers to the tags; [within] decides whether there is a session. *)
Ltac tags f := fields; unfold in_session, present, vlan_len, VLAN_HLEN, PPPOE_SES_HLEN, ETH_HLEN in *; fields;
  destruct (stag f), (ctag f), (within f); try discriminate; fields; try reflexivity; f_equal; lia.

Lemma others_moved (offs : list nat) a b : a = b -> (fun o => a + o) <$> offs = (fun o => b + o) <$> offs.
Proof. by intros ->. Qed.

Lemma stag_inserted tc tp s h f offs : frame_ok f -> represents s h f offs -> stag f = None -> VLAN_HLEN <= data s ->
  represents (vlan_insert_stag tc tp s h).1 (vlan_insert_stag tc tp s h).2 (set_stag (Some (Vtag (u16 tp) (u16 tc))) f) offs /\
  skbLen_egress (vlan_insert_stag tc tp s h).2 = skbLen_egress h.
Proof.
  intros [Hm _] [H Hmac Hn He Hs Hc Hp Ho] E Hr. unfold vlan_insert_stag. rewrite push_is by done. split; [|done].
  unfold encode in H. rewrite E in *. simpl app in H.
  assert (head_len (set_stag (Some (Vtag (u16 tp) (u16 tc))) f) = head_len f + 4) as El by (unfold head_len; simpl; rewrite E; simpl; lia).
  split.
  - apply (pushed_tag s (macs f) _ (u16 tp) (u16 tc) 12); [done|done|done|simpl; lia|simpl; lia].
  - pointers.
  - unfold body_at in *. rewrite El. pointers.
  - done.
  - tags f.
  - fields. rewrite Hc. tags f.
  - fields. rewrite Hp. tags f.
  - fields. rewrite Ho. apply others_moved. unfold body_at. rewrite El. pointers.
Qed.

Lemma ctag_inserted tc s h f offs : frame_ok f -> represents s h f offs -> ctag f = None -> VLAN_HLEN <= data s ->
  represents (vlan_insert_ctag tc s h).1 (vlan_insert_ctag tc s h).2 (set_ctag (Some (Vtag ETH_P_8021Q (u16 tc))) f) offs /\
  skbLen_egress (vlan_insert_ctag tc s h).2 = skbLen_egress h.
Proof.
  intros [Hm _] [H Hmac Hn He Hs Hc Hp Ho] E Hr. unfold vlan_insert_ctag. rewrite push_is, Hs, have_if by done.
  split; [|by destruct (present (stag f))]. unfold encode in H. rewrite E in H. simpl app in H. rewrite app_assoc in H.
  assert (head_len (set_ctag (Some (Vtag ETH_P_8021Q (u16 tc))) f) = head_len f + 4) as El by (unfold head_len, vlan_len, present, VLAN_HLEN; fields; rewrite E; lia).
  split.
  - fields. unfold encode. fields.
    assert (forall q, q = data s - VLAN_HLEN + (12 + vlan_len (present (stag f))) ->
      holds (on_buf (store (q + 2) (be2 (u16 tc))) (on_buf (store q (be2 ETH_P_8021Q))
        (on_buf (memmove (data s - VLAN_HLEN) (data s - VLAN_HLEN + VLAN_HLEN) (12 + vlan_len (present (stag f))))
          (move_data (data s - VLAN_HLEN) (len s + VLAN_HLEN) s))))
        ((macs f ++ tag_bytes (stag f)) ++ (be2 ETH_P_8021Q ++ be2 (u16 tc)) ++ inner_bytes (within f) ++ body f)) as Hq.
    { intros q ->. apply pushed_tag; [done|done|by rewrite length_app, Hm, tag_length|done|done]. }
    rewrite app_assoc. pose proof (Hq _ eq_refl) as H1. clear Hq. unfold present in *.
    destruct (stag f) as [t|]; simpl in H1 |- *; [|exact H1].
    replace (data s + 14 - VLAN_HLEN + 2) with (data s - VLAN_HLEN + 16) by pointers.
    replace (data s - VLAN_HLEN + 16 + 2) with (data s - VLAN_HLEN + 18) in H1 |- * by lia. exact H1.
  - destruct (present (stag f)); pointers.
  - unfold body_at in *. rewrite El. destruct (present (stag f)); pointers.
  - by destruct (present (stag f)).
  - tags f.
  - tags f.
  - fields. rewrite Hp. tags f.
  - fields. rewrite Ho. apply others_moved. unfold body_at. rewrite El. destruct (present (stag f)); pointers.
Qed.

Lemma stag_removed s h f offs t : frame_ok f -> represents s h f offs -> stag f = Some t ->
  let r := (rtk_fc_skbVlanTag_remove true s h).2 in
  represents r.1 r.2 (set_stag None f) offs /\ skbLen_egress r.2 = skbLen_egress h.
Proof.
  intros [Hm _] [H Hmac Hn He Hs Hc Hp Ho] E. unfold rtk_fc_skbVlanTag_remove. rewrite Hs, have_if, E. cbn [present negb snd fst].
  split; [|done]. rewrite reset_is. unfold encode in H. rewrite E in H.
  assert (head_len f = head_len (set_stag None f) + 4) as El by (unfold head_len, vlan_len, present, VLAN_HLEN; fields; rewrite E; lia).
  split.
  - pose proof (holds_right s (macs f) (tag_bytes (Some t)) _ VLAN_HLEN H eq_refl) as H1. rewrite Hm in H1. exact H1.
  - pointers.
  - unfold body_at in *. rewrite El in *. pointers.
  - done.
  - done.
  - fields. rewrite Hc. tags f.
  - fields. rewrite Hp. tags f.
  - fields. rewrite Ho. apply others_moved. unfold body_at in *. rewrite El. pointers.
Qed.
Lemma ctag_removed s h f offs t : frame_ok f -> represents s h f offs -> ctag f = Some t ->
  let r := (rtk_fc_skbVlanTag_remove false s h).2 in
  represents r.1 r.2 (set_ctag None f) offs /\ skbLen_egress r.2 = skbLen_egress h.
Proof.
  intros [Hm _] [H Hmac Hn He Hs Hc Hp Ho] E. unfold rtk_fc_skbVlanTag_remove. rewrite Hc, Hs, !have_if, E. cbn [present negb snd fst].
  split; [|done]. rewrite reset_is. unfold encode in H. rewrite E, app_assoc in H.
  assert (head_len f = head_len (set_ctag None f) + 4) as El by (unfold head_len, vlan_len, present, VLAN_HLEN; fields; rewrite E; lia).
  split.
  - pose proof (holds_right s (macs f ++ tag_bytes (stag f)) (tag_bytes (Some t)) _ VLAN_HLEN H eq_refl) as H1.
    rewrite length_app, Hm, tag_length, <- app_assoc in H1. exact H1.
  - pointers.
  - unfold body_at in *. rewrite El in *. pointers.
  - done.
  - tags f.
  - done.
  - fields. rewrite Hp. tags f.
  - fields. rewrite Ho. apply others_moved. unfold body_at in *. rewrite El. pointers.
Qed.

(** The pointer version takes every other ethertype for IPv4. *)
Definition p2p_any (e : Z) : option Z := Some (if (e =? ETH_P_IPV6)%Z then 0x57 else 0x21)%Z.
Definition head_bytes (f : frame) : list Z := macs f ++ tag_bytes (stag f) ++ tag_bytes (ctag f).
Lemma head_bytes_length f : frame_ok f -> length (head_bytes f) = 12 + vlan_len (present (stag f)) + vlan_len (present (ctag f)).
Proof. intros [Hm _]. unfold head_bytes. rewrite !length_app, !tag_length, Hm. lia. Qed.
Lemma proto_field_at h d (a b : bool) : p_eth h = d -> p_svh h = (if a then Some (d + 14) else None) ->
  p_cvh h = (if b then Some (d + 14 + vlan_len a) else None) -> proto_field h = d + (12 + vlan_len a + vlan_len b).
Proof. intros H1 H2 H3. unfold proto_field. rewrite H1, H2, H3. destruct a, b; unfold vlan_len, VLAN_HLEN; lia. Qed.

(** On bytes: the gap before the payload filled with a session header. *)
Lemma pushed_session s x e sid rest k o : holds s (x ++ be2 e ++ rest) -> is_u16 e -> PPPOE_SES_HLEN <= data s -> k = length x + 2 ->
  o = data s - PPPOE_SES_HLEN + length x ->
  let s1 := on_buf (memmove (data s - PPPOE_SES_HLEN) (data s - PPPOE_SES_HLEN + PPPOE_SES_HLEN) k)
              (move_data (data s - PPPOE_SES_HLEN) (len s + PPPOE_SES_HLEN) s) in
  load2 o (buf s1) = e /\
  (forall p, (0 <= p < 256)%Z ->
   holds (on_buf (store (data s - PPPOE_SES_HLEN + k + 6) (be2 p)) (on_buf (store (data s - PPPOE_SES_HLEN + k)
     (pppoe_hdr sid (Z.of_nat (len s1) - Z.of_nat k - Z.of_nat PPPOE_SES_HLEN + 2))) (on_buf (store o (be2 ETH_P_PPP_SES)) s1)))
     (x ++ session_bytes sid p rest)).
Proof.
  intros H He Hn -> -> s1. rewrite app_assoc in H. destruct (opened s (x ++ be2 e) rest _ H Hn) as (g & Hg & H1).
  rewrite length_app in H1. change (length (be2 e)) with 2 in H1. fold s1 in H1. rewrite <- app_assoc in H1.
  split; [exact (holds_load2 s1 x e _ _ H1 He eq_refl)|]. intros p Hp.
  assert (Z.of_nat (len s1) - Z.of_nat (length x + 2) - Z.of_nat PPPOE_SES_HLEN + 2 = 2 + Z.of_nat (length rest))%Z as ->.
  { destruct H1 as (_ & _ & _ & _ & ->). rewrite !length_app, Hg. unfold be2, PPPOE_SES_HLEN. simpl. lia. }
  apply (holds_stored s1 x (be2 e)) with (bs := be2 ETH_P_PPP_SES) (off := data s - PPPOE_SES_HLEN + length x) in H1; [|done|done].
  rewrite <- (take_drop 6 g), <- (app_assoc (take 6 g)), (app_assoc x) in H1.
  eapply (holds_stored _ _ (take 6 g)) with (bs := pppoe_hdr sid (2 + Z.of_nat (length rest)))
    (off := data s - PPPOE_SES_HLEN + (length x + 2)) in H1; [|rewrite length_take, Hg; done|rewrite length_app; done].
  rewrite (app_assoc (x ++ _)) in H1.
  eapply (holds_stored _ _ (drop 6 g)) with (bs := be2 p)
    (off := data s - PPPOE_SES_HLEN + (length x + 2) + 6) in H1;
    [|rewrite length_drop, Hg; done|rewrite !length_app; unfold pppoe_hdr, be2; simpl; lia].
  unfold session_bytes. assert (be2 p = [0%Z; p]) as E by (unfold be2; by rewrite Z.div_small, Z.mod_small by lia).
  rewrite E in H1 at 2. rewrite <- !app_assoc in H1. exact H1.
Qed.

Lemma session_inserted sid s h f offs e : frame_ok f -> represents s h f offs -> within f = Plain e ->
  let r := (_rtk_fc_skbPPPoETag_insert sid s h).2 in
  exists ok : bool, (never_fails -> ok = true) /\
    represents r.1 r.2 (add_session p2p_any ok sid f) offs /\ skbLen_egress r.2 = skbLen_egress h.
Proof.
  intros Hf R E. pose proof Hf as [_ He]. rewrite E in He. pose proof (rep_have _ _ _ _ R) as (Hsv & Hcv & Hh).
  unfold _rtk_fc_skbPPPoETag_insert, add_session, p2p_any. rewrite Hh, Hsv, Hcv, E. unfold in_session. rewrite E.
  destruct (_rtk_fc_skb_cow_head_and_pktHdr_update _ s h) as [[s' h']|] eqn:Ec.
  2: { exists false. split; [|by split]. intros Hn. unfold _rtk_fc_skb_cow_head_and_pktHdr_update in Ec.
       destruct (skb_cow_head _ s) eqn:Ek; [by destruct (_ =? _)%Z|]. by destruct (Hn _ _ Ek). }
  exists true. split; [done|]. destruct (cow_represents _ _ _ _ _ _ _ R Ec) as (R' & Hr & <-). clear Ec R Hh s.
  destruct R' as [H Hmac Hn Hp0 Hs Hc Hp Ho].
  rewrite push_is by done. split; [|done].
  set (i := Session _ _ _ _ _). assert (head_len (set_within i f) = head_len f + 8) as El.
  { unfold head_len. fields. rewrite E. change (length (inner_bytes i)) with 10. change (length (inner_bytes (Plain e))) with 2. lia. }
  set (h1 := set_pointers _ (_ <$> p_svh h') _ _ h'). set (k := ETH_HLEN + _ + _).
  assert (proto_field h1 = data s' - PPPOE_SES_HLEN + length (head_bytes f)) as Epf.
  { rewrite (head_bytes_length f Hf). apply proto_field_at; [done|..]; unfold h1; fields; rewrite ?Hs, ?Hc; tags f. }
  fields. rewrite Epf. unfold encode in H. rewrite E in H. rewrite (app_assoc (tag_bytes _)), app_assoc in H.
  destruct (pushed_session s' (head_bytes f) e sid (body f) k (data s' - PPPOE_SES_HLEN + length (head_bytes f)) H He Hr) as [E2 H1]; [|done|].
  { rewrite (head_bytes_length f Hf). unfold k, ETH_HLEN. lia. }
  assert (Hb : (0 <= (if (e =? ETH_P_IPV6)%Z then 87 else 33) < 256)%Z) by (destruct (e =? ETH_P_IPV6)%Z; lia).
  match goal with |- context [load2 ?o ?b] => replace (load2 o b) with e by (symmetry; exact E2) end. split.
  - specialize (H1 _ Hb). unfold session_bytes, head_bytes in H1. unfold encode. cbn [inner_bytes within set_within stag ctag macs body i].
    unfold pppoe_hdr in H1 |- *. rewrite <- !app_assoc in *. exact H1.
  - pointers.
  - unfold body_at in *. rewrite El. pointers.
  - done.
  - unfold h1. fields. rewrite Hs. tags f.
  - unfold h1. fields. rewrite Hc. tags f.
  - fields. unfold in_session, k. fields. f_equal. pointers.
  - unfold h1. fields. rewrite Ho. apply others_moved. unfold body_at. rewrite El. pointers.
Qed.

Lemma session_removed s h f offs : frame_ok f -> represents s h f offs -> in_session f = true ->
  let r := (_rtk_fc_skbPPPoETag_remove s h).2 in
  represents r.1 r.2 (drop_session f) offs /\ skbLen_egress r.2 = skbLen_egress h.
Proof.
  intros Hf R. pose proof Hf as [_ Hi]. unfold in_session, drop_session. destruct (within f) as [|vt code sd pl p] eqn:E; [done|].
  intros _. pose proof (rep_have _ _ _ _ R) as (Hsv & Hcv & _). pose proof R as [H Hmac Hn Hp0 Hs Hc Hp Ho].
  unfold in_session in Hp. rewrite E in Hp. unfold _rtk_fc_skbPPPoETag_remove. rewrite Hp. cbv zeta.
  unfold encode in H. rewrite E in H. cbn [inner_bytes] in H. set (hdr := [vt; code] ++ be2 sd ++ be2 pl) in H.
  rewrite (app_assoc (tag_bytes _)), (app_assoc (macs f)) in H. fold (head_bytes f) in H. rewrite <- !app_assoc in H.
  assert (holds s ((head_bytes f ++ be2 ETH_P_PPP_SES ++ hdr) ++ p ++ body f)) as H0 by (by rewrite <- !app_assoc).
  destruct (p2p_read s _ p (body f) (data s + 14 + vlan_len (present (stag f)) + vlan_len (present (ctag f)) + 6) H0 Hi) as [-> Er].
  { rewrite !length_app, (head_bytes_length f Hf). change (length hdr) with 6. unfold be2. simpl. lia. }
  destruct (etype_of p) as [e|]; [|by split; [destruct f|]]. rewrite Er by done. rewrite Hsv, Hcv, reset_is. split; [|done].
  assert (head_len f = head_len (set_within (Plain e) f) + (6 + length p)) as El.
  { unfold head_len. fields. rewrite E. cbn [inner_bytes]. rewrite !length_app. unfold be2. simpl length. lia. }
  set (h1 := set_pointers _ _ _ None h). assert (proto_field h1 = data s + (6 + length p) + length (head_bytes f)) as Epf.
  { rewrite (head_bytes_length f Hf). apply proto_field_at; [done|..]; unfold h1; fields; rewrite ?Hs, ?Hc; tags f. }
  rewrite Epf. rewrite app_assoc in H. change (be2 ETH_P_PPP_SES) with ([136; 100]%Z) in H.
  rewrite (app_assoc hdr p) in H.
  pose proof (holds_right s (head_bytes f ++ [136; 100]%Z) (hdr ++ p) (body f) (6 + length p) H ltac:(by rewrite length_app)) as H1.
  rewrite length_app, (head_bytes_length f Hf), <- app_assoc in H1. split.
  - unfold encode. fields. rewrite (app_assoc (tag_bytes _)), (app_assoc (macs f)).
    apply (holds_stored _ (head_bytes f) [136; 100]%Z (body f) (be2 e)); [|done|done].
    unfold ETH_HLEN. replace (14 + vlan_len (present (stag f)) + vlan_len (present (ctag f)))
      with (12 + vlan_len (present (stag f)) + vlan_len (present (ctag f)) + length [136; 100]%Z) by (simpl; lia). exact H1.
  - pointers.
  - unfold body_at in *. rewrite El in *. pointers.
  - done.
  - unfold h1. fields. rewrite Hs. tags f.
  - unfold h1. fields. rewrite Hc. tags f.
  - done.
  - unfold h1. fields. rewrite Ho. apply others_moved. unfold body_at in *. rewrite El. pointers.
Qed.

(** Bytes overwritten in place; the frame keeps its shape. *)
Lemma rep_stored s h f g offs x old y bs off : represents s h f offs -> encode f = x ++ old ++ y -> encode g = x ++ bs ++ y ->
  length old = length bs -> off = data s + length x -> head_len g = head_len f ->
  present (stag g) = present (stag f) -> present (ctag g) = present (ctag f) -> in_session g = in_session f ->
  represents (on_buf (store off bs) s) h g offs.
Proof.
  intros [H Hm Hn He Hs Hc Hp Ho] E1 E2 El Eo Eh Es Ec Ei. split; unfold body_at; rewrite ?Es, ?Ec, ?Ei, ?Eh; try done.
  rewrite E2. rewrite E1 in H. by apply (holds_stored s x old).
Qed.
Ltac reshape E := try done; unfold encode, head_len, in_session; fields; rewrite ?E; try done; try (by rewrite <- !app_assoc).
Lemma stag_retagged s h f offs o c : frame_ok f -> represents s h f offs -> stag f = Some o ->
  represents (on_buf (store (data s + 14) (be2 c)) s) h (set_stag (Some (Vtag (tpid o) c)) f) offs.
Proof.
  intros [Hm _] R E. apply (rep_stored s h f _ offs (macs f ++ be2 (tpid o)) (be2 (tci o)) (tag_bytes (ctag f) ++ inner_bytes (within f) ++ body f));
    reshape E.
  rewrite length_app, Hm. unfold be2. simpl. lia.
Qed.
Lemma stag_repid s h f offs o t : frame_ok f -> represents s h f offs -> stag f = Some o ->
  represents (on_buf (store (data s + 14 - 2) (be2 t)) s) h (set_stag (Some (Vtag t (tci o))) f) offs.
Proof.
  intros [Hm _] R E. apply (rep_stored s h f _ offs (macs f) (be2 (tpid o)) (be2 (tci o) ++ tag_bytes (ctag f) ++ inner_bytes (within f) ++ body f));
    reshape E.
  rewrite Hm. lia.
Qed.
Lemma ctag_retagged s h f offs o c : frame_ok f -> represents s h f offs -> ctag f = Some o ->
  represents (on_buf (store (data s + 14 + vlan_len (present (stag f))) (be2 c)) s) h (set_ctag (Some (Vtag (tpid o) c)) f) offs.
Proof.
  intros [Hm _] R E. apply (rep_stored s h f _ offs (macs f ++ tag_bytes (stag f) ++ be2 (tpid o)) (be2 (tci o)) (inner_bytes (within f) ++ body f));
    reshape E.
  rewrite !length_app, Hm, tag_length. unfold be2. simpl. lia.
Qed.

(** The tags a flow of the table gives. *)
Definition flow_stag (ok : bool) (t : tag_flow) (old : option vtag) : option vtag :=
  if out_svid_format_act t
  then tagged ok (Vtag (match old with Some o => if stpid_differs t then u16 (egr_stpid t) else tpid o | None => u16 (egr_stpid t) end)
                       (u16 (svlan_tci t))) old
  else None.
Definition flow_ctag (ok : bool) (t : tag_flow) (old : option vtag) : option vtag :=
  if out_cvid_format_act t
  then tagged ok (Vtag (match old with Some o => tpid o | None => ETH_P_8021Q end) (u16 (cvlan_tci t))) old
  else None.
Definition flow_session (ok : bool) (t : tag_flow) (f : frame) : frame :=
  if pppoe_allowed t && negb (in_session f) && adds (out_pppoe_act t) then add_session p2p_any ok (out_pppoe_sid t) f
  else if pppoe_allowed t && in_session f && removes (out_pppoe_act t) then drop_session f else f.
Definition flow_tags (oks okc okp : bool) (t : tag_flow) (f : frame) : frame :=
  flow_session okp t (set_ctag (flow_ctag okc t (ctag f)) (set_stag (flow_stag oks t (stag f)) f)).

(** An insertion that may fail for want of room. *)
Lemma vlan_inserted tc (st : bool) tp s h f offs : frame_ok f -> represents s h f offs -> (if st then stag f else ctag f) = None ->
  let r := (rtk_fc_skbVlanTag_insert tc st tp s h).2 in
  exists ok : bool, (never_fails -> ok = true) /\
    represents r.1 r.2 (if ok then (if st then set_stag (Some (Vtag (u16 tp) (u16 tc))) f else set_ctag (Some (Vtag ETH_P_8021Q (u16 tc))) f) else f) offs /\
    skbLen_egress r.2 = skbLen_egress h.
Proof.
  intros Hf R E. pose proof (rep_have _ _ _ _ R) as (Hs & Hc & _). unfold rtk_fc_skbVlanTag_insert.
  assert (have (if st then p_svh h else p_cvh h) = false) as ->.
  { destruct st; [rewrite Hs|rewrite Hc]; by rewrite E. }
  destruct (_rtk_fc_skb_cow_head_and_pktHdr_update _ s h) as [[s' h']|] eqn:Ec.
  - destruct (cow_represents _ _ _ _ _ _ _ R Ec) as (R' & Hr & <-). exists true. split; [done|].
    destruct st; [by apply stag_inserted|by apply ctag_inserted].
  - exists false. split; [|done]. intros Hn. unfold _rtk_fc_skb_cow_head_and_pktHdr_update in Ec.
    destruct (skb_cow_head _ s) eqn:Ek; [by destruct (_ =? _)%Z|]. by destruct (Hn _ _ Ek).
Qed.

Lemma svlan_step_holds t s h f offs : frame_ok f -> represents s h f offs ->
  exists ok : bool, (never_fails -> ok = true) /\
    let r := (svlan_step t s h).2 in
    represents r.1 r.2 (set_stag (flow_stag ok t (stag f)) f) offs /\ skbLen_egress r.2 = skbLen_egress h.
Proof.
  intros Hf R. assert (stag f = None -> set_stag None f = f) as E0 by (intros <-; by destruct f).
  pose proof (rep_svh _ _ _ _ R) as Hs. unfold svlan_step, flow_stag, tagged.
  destruct (out_svid_format_act t); rewrite Hs; destruct (stag f) as [o|] eqn:E; cbn [present orb].
  - exists true. split; [done|]. split; [|done]. cbn [orb snd fst].
    assert (forall s1 o1, represents s1 h (set_stag (Some o1) f) offs -> data s1 = data s ->
      represents (on_buf (store (data s + 14) (be2 (u16 (svlan_tci t)))) s1) h (set_stag (Some (Vtag (tpid o1) (u16 (svlan_tci t)))) f) offs) as Hgo.
    { intros s1 o1 R1 <-. exact (stag_retagged s1 h (set_stag (Some o1) f) offs o1 _ Hf R1 eq_refl). }
    destruct (stpid_differs t).
    + exact (Hgo _ (Vtag (u16 (egr_stpid t)) (tci o)) (stag_repid s h f offs o _ Hf R E) eq_refl).
    + apply (Hgo s o); [by destruct f; simpl in E; subst|done].
  - destruct (vlan_inserted (svlan_tci t) true (egr_stpid t) s h f offs Hf R E) as (ok & Hok & R1 & E1).
    exists ok. split; [done|]. split; [|done]. destruct ok; cbn [orb]; [exact R1|by rewrite E0].
  - exists true. split; [done|]. by apply (stag_removed s h f offs o).
  - exists true. split; [done|]. by rewrite E0.
Qed.
Lemma cvlan_step_holds t s h f offs : frame_ok f -> represents s h f offs ->
  exists ok : bool, (never_fails -> ok = true) /\
    let r := (cvlan_step t s h).2 in
    represents r.1 r.2 (set_ctag (flow_ctag ok t (ctag f)) f) offs /\ skbLen_egress r.2 = skbLen_egress h.
Proof.
  intros Hf R. assert (ctag f = None -> set_ctag None f = f) as E0 by (intros <-; by destruct f).
  pose proof (rep_cvh _ _ _ _ R) as Hc. unfold cvlan_step, flow_ctag, tagged.
  destruct (out_cvid_format_act t); rewrite Hc; destruct (ctag f) as [o|] eqn:E; cbn [present orb].
  - exists true. split; [done|]. split; [|done]. by apply ctag_retagged.
  - destruct (vlan_inserted (cvlan_tci t) false 0 s h f offs Hf R E) as (ok & Hok & R1 & E1).
    exists ok. split; [done|]. split; [|done]. destruct ok; cbn [orb]; [exact R1|by rewrite E0].
  - exists true. split; [done|]. by apply (ctag_removed s h f offs o).
  - exists true. split; [done|]. by rewrite E0.
Qed.
Lemma pppoe_step_holds t s h f offs : frame_ok f -> represents s h f offs ->
  exists ok : bool, (never_fails -> ok = true) /\
    let r := (pppoe_step t s h).2 in
    represents r.1 r.2 (flow_session ok t f) offs /\ skbLen_egress r.2 = skbLen_egress h.
Proof.
  intros Hf R. pose proof (rep_have _ _ _ _ R) as (_ & _ & Hp). unfold pppoe_step, flow_session. rewrite Hp.
  destruct (pppoe_allowed t); [|by exists true]. destruct (in_session f) eqn:E; cbn [negb andb].
  - exists true. split; [done|]. destruct (removes _); [|done]. by apply session_removed.
  - destruct (adds _); [|by exists true]. unfold in_session in E. destruct (within f) as [e|] eqn:Ew; [|done].
    exact (session_inserted _ s h f offs e Hf R Ew).
Qed.
Lemma flow_tags_hold t s h f offs : frame_ok f -> represents s h f offs ->
  exists oks okc okp, (never_fails -> oks = true /\ okc = true /\ okp = true) /\
    let r := _rtk_fc_swPktHdrModify t s h in represents r.1 r.2 (flow_tags oks okc okp t f) offs.
Proof.
  intros Hf R. unfold _rtk_fc_swPktHdrModify.
  destruct (svlan_step_holds t s h f offs Hf R) as (oks & Hoks & R1 & _).
  destruct (svlan_step t s h) as [d1 [s1 h1]]. cbn [fst snd] in R1.
  destruct (cvlan_step_holds t s1 h1 _ offs (Hf : frame_ok (set_stag _ f)) R1) as (okc & Hokc & R2 & _).
  destruct (cvlan_step t s1 h1) as [d2 [s2 h2]]. cbn [fst snd] in R2.
  destruct (pppoe_step_holds t s2 h2 _ offs (Hf : frame_ok (set_ctag _ (set_stag _ f))) R2) as (okp & Hokp & R3 & _).
  destruct (pppoe_step t s2 h2) as [d3 [s3 h3]]. cbn [fst snd] in R3.
  exists oks, okc, okp. split; [tauto|]. cbn [fst snd]. destruct R3. by split.
Qed.

(** ** Tags on and off *)

Lemma untagged f x y : stag f = None -> ctag f = None -> set_ctag None (set_stag None (set_ctag x (set_stag y f))) = f.
Proof. destruct f. simpl. by intros -> ->. Qed.
Lemma session_undone sid f e : within f = Plain e -> e = ETH_P_IP \/ e = ETH_P_IPV6 -> drop_session (add_session p2p_any true sid f) = f.
Proof.
  intros E He. unfold add_session, p2p_any. rewrite E. unfold drop_session, set_within. cbn [within].
  destruct He as [-> | ->]; simpl; destruct f; simpl in *; by subst.
Qed.
Lemma drop_session_tags x y f : drop_session (set_ctag x (set_stag y f)) = set_ctag x (set_stag y (drop_session f)).
Proof. unfold drop_session. cbn [within set_ctag set_stag]. destruct (within f); [done|]. by destruct (etype_of _). Qed.
Lemma flow_session_strips ok u f : pppoe_allowed u = true -> removes (out_pppoe_act u) = true -> flow_session ok u f = drop_session f.
Proof.
  intros U1 U2. unfold flow_session, drop_session, in_session. rewrite U1, U2.
  assert (adds (out_pppoe_act u) = false) as -> by (by destruct (out_pppoe_act u)). by destruct (within f).
Qed.
Lemma flow_session_off t f e : within f = Plain e -> e = ETH_P_IP \/ e = ETH_P_IPV6 -> drop_session (flow_session true t f) = f.
Proof.
  intros E He. unfold flow_session, in_session. rewrite E. cbn [negb]. rewrite andb_true_r, andb_false_r. cbn [andb].
  destruct (_ && _); [by apply (session_undone _ _ e)|]. unfold drop_session. by rewrite E.
Qed.
Lemma flow_session_within ok t f : macs (flow_session ok t f) = macs f /\ stag (flow_session ok t f) = stag f /\
  ctag (flow_session ok t f) = ctag f /\ body (flow_session ok t f) = body f /\ (frame_ok f -> frame_ok (flow_session ok t f)).
Proof.
  unfold flow_session, add_session, drop_session, frame_ok.
  destruct (_ && adds _); [|destruct (_ && removes _); [|done]].
  - destruct (within f) eqn:E; [|by rewrite E]. unfold p2p_any. destruct ok; [|by rewrite E]. split_and!; try done. by intros [Hm _].
  - destruct (within f) as [|vt code sd pl p] eqn:E; [by rewrite E|]. destruct (etype_of p) as [e|] eqn:Ee; [|by rewrite E].
    split_and!; try done. intros [Hm _]. split; [done|]. simpl. unfold etype_of, ppp_etype in Ee.
    unfold is_u16. destruct p as [|x [|y []]]; try done; repeat case_match; try done; injection Ee as <-; by compute.
Qed.

(** When a flow has tagged a packet of IP, a flow that takes the tags off again leaves
    the bytes of the packet as they were. *)
Theorem tags_come_off t u s h f offs e : never_fails -> frame_ok f -> represents s h f offs ->
  stag f = None -> ctag f = None -> within f = Plain e -> e = ETH_P_IP \/ e = ETH_P_IPV6 ->
  out_svid_format_act u = false -> out_cvid_format_act u = false -> pppoe_allowed u = true -> removes (out_pppoe_act u) = true ->
  let '(s1, h1) := _rtk_fc_swPktHdrModify t s h in bytes (_rtk_fc_swPktHdrModify u s1 h1).1 = bytes s.
Proof.
  intros Hn Hf R Es Ec Ew He U1 U2 U3 U4. destruct (flow_tags_hold t s h f offs Hf R) as (oks & okc & okp & Hok & R1).
  destruct (Hok Hn) as (-> & -> & ->). destruct (_rtk_fc_swPktHdrModify t s h) as [s1 h1]. cbn [fst snd] in R1.
  set (g := flow_tags true true true t f) in R1. assert (frame_ok g) as Hg by (by apply flow_session_within).
  destruct (flow_tags_hold u s1 h1 g offs Hg R1) as (o1 & o2 & o3 & _ & R2).
  rewrite (holds_bytes _ _ (rep_bytes _ _ _ _ R2)), (holds_bytes _ _ (rep_bytes _ _ _ _ R)). f_equal.
  unfold flow_tags. rewrite flow_session_strips, drop_session_tags by done.
  unfold g, flow_tags. rewrite (flow_session_off t _ e) by done.
  assert (forall x, flow_stag o1 u x = None) as -> by (intros; unfold flow_stag; by rewrite U1).
  assert (forall x, flow_ctag o2 u x = None) as -> by (intros; unfold flow_ctag; by rewrite U2). by apply untagged.
Qed.

(** ** The two ways to rewrite agree *)

(** An action that asks for what a flow of the table asks for. *)
Definition same_wish (a : tag_action) (t : tag_flow) (f : frame) : Prop :=
  is_tag (stagCmd a) = out_svid_format_act t /\ u16 (pSvlanTCI a) = u16 (svlan_tci t) /\
  u16 (pSvlanTpid a) = (match stag f with Some o => if stpid_differs t then u16 (egr_stpid t) else tpid o | None => u16 (egr_stpid t) end) /\
  is_tag (ctagCmd a) = out_cvid_format_act t /\ u16 (pCvlanTCI a) = u16 (cvlan_tci t) /\
  u16 (pCvlanTpid a) = (match ctag f with Some o => tpid o | None => ETH_P_8021Q end) /\
  pppoe_allowed t = true /\ is_tag (pppoeCmd a) = adds (out_pppoe_act t) /\ is_untag (pppoeCmd a) = removes (out_pppoe_act t) /\
  pPppoeSid a = out_pppoe_sid t.

(** On packets of IP the two ways to rewrite tags, with header pointers and without,
    leave the same bytes when they are asked for the same tags. *)
Theorem rewriters_agree a t s s' h f offs : never_fails -> frame_ok f -> represents s h f offs -> holds s' (encode f) ->
  (forall e, within f = Plain e -> e = ETH_P_IP \/ e = ETH_P_IPV6) -> same_wish a t f ->
  bytes (rtk_fc_abstrSwPktHdrModify (present (stag f)) (present (ctag f)) (in_session f) a s') =
  bytes (_rtk_fc_swPktHdrModify t s h).1.
Proof.
  intros Hn Hf R H He (W1 & W2 & W3 & W4 & W5 & W6 & W7 & W8 & W9 & W10).
  destruct (flow_tags_hold t s h f offs Hf R) as (oks & okc & okp & Hok & R1). destruct (Hok Hn) as (-> & -> & ->).
  destruct (software_tags_hold a f s' Hf H) as (p & c & x & Hok2 & H2). destruct (Hok2 Hn) as (-> & -> & ->).
  rewrite (holds_bytes _ _ H2), (holds_bytes _ _ (rep_bytes _ _ _ _ R1)). f_equal.
  unfold software_tags, flow_tags, tag_result, flow_stag, flow_ctag. rewrite W1, W2, W3, W4, W5, W6.
  set (y := if out_svid_format_act t then _ else _). set (z := if out_cvid_format_act t then _ else _).
  assert (forall g, set_stag y (set_ctag z g) = set_ctag z (set_stag y g)) as -> by done.
  unfold session_result, flow_session. rewrite W7, W8, W9, W10. cbn [andb].
  assert (in_session (set_ctag z (set_stag y f)) = in_session f) as -> by done.
  destruct (negb (in_session f) && adds (out_pppoe_act t)).
  - unfold add_session. cbn [within set_ctag set_stag body]. destruct (within f) as [e|]; [|done].
    unfold p2p_of, p2p_any. destruct (He e eq_refl) as [-> | ->]; done.
  - destruct (in_session f && removes (out_pppoe_act t)); [|done]. by rewrite drop_session_tags.
Qed.

(** ** What a packet of the flow cache looks like afterwards *)

Lemma cow_fixed n s h s' h' : _rtk_fc_skb_cow_head_and_pktHdr_update n s h = Some (s', h') -> p_fixed h' = p_fixed h.
Proof. unfold _rtk_fc_skb_cow_head_and_pktHdr_update. intros E. repeat case_match; simplify_eq; done. Qed.
Lemma insert_fixed tc (st : bool) tp s h : p_fixed (rtk_fc_skbVlanTag_insert tc st tp s h).2.2 = p_fixed h.
Proof.
  unfold rtk_fc_skbVlanTag_insert. destruct (have _); [done|].
  destruct (_rtk_fc_skb_cow_head_and_pktHdr_update VLAN_HLEN s h) as [[s1 h1]|] eqn:E; [|done]. rewrite <- (cow_fixed _ _ _ _ _ E). by destruct st.
Qed.
Lemma remove_fixed (st : bool) s h : p_fixed (rtk_fc_skbVlanTag_remove st s h).2.2 = p_fixed h.
Proof. unfold rtk_fc_skbVlanTag_remove. destruct (negb _); [done|]. by destruct st. Qed.
Lemma session_fixed sid s h : p_fixed (_rtk_fc_skbPPPoETag_insert sid s h).2.2 = p_fixed h.
Proof.
  unfold _rtk_fc_skbPPPoETag_insert. destruct (have _); [done|].
  destruct (_rtk_fc_skb_cow_head_and_pktHdr_update PPPOE_SES_HLEN s h) as [[s1 h1]|] eqn:E; [|done]. by rewrite <- (cow_fixed _ _ _ _ _ E).
Qed.
Lemma unsession_fixed s h : p_fixed (_rtk_fc_skbPPPoETag_remove s h).2.2 = p_fixed h.
Proof. unfold _rtk_fc_skbPPPoETag_remove. destruct (p_ppph h); [|done]. by destruct (p2p_l3proto _ _). Qed.
Lemma svlan_fixed t s h : p_fixed (svlan_step t s h).2.2 = p_fixed h.
Proof. unfold svlan_step. destruct (out_svid_format_act t), (p_svh h); [done|apply insert_fixed|apply remove_fixed|done]. Qed.
Lemma cvlan_fixed t s h : p_fixed (cvlan_step t s h).2.2 = p_fixed h.
Proof. unfold cvlan_step. destruct (out_cvid_format_act t), (p_cvh h); [done|apply insert_fixed|apply remove_fixed|done]. Qed.
Lemma pppoe_fixed t s h : p_fixed (pppoe_step t s h).2.2 = p_fixed h.
Proof.
  unfold pppoe_step. destruct (pppoe_allowed t); [|done]. destruct (_ && adds _); [apply session_fixed|].
  destruct (_ && removes _); [apply unsession_fixed|done].
Qed.
Lemma modify_fixed t s h : p_fixed (_rtk_fc_swPktHdrModify t s h).2 = p_fixed h.
Proof.
  unfold _rtk_fc_swPktHdrModify. pose proof (svlan_fixed t s h) as E1. destruct (svlan_step t s h) as [d1 [s1 h1]].
  pose proof (cvlan_fixed t s1 h1) as E2. destruct (cvlan_step t s1 h1) as [d2 [s2 h2]].
  pose proof (pppoe_fixed t s2 h2) as E3. destruct (pppoe_step t s2 h2) as [d3 [s3 h3]]. cbn [fst snd] in *. cbn. congruence.
Qed.

(** C31: after the tags of a packet were rewritten its buffer holds the frame the flow asks
    for, less the tags for which the kernel had no room; addresses and payload are
    untouched, and every header pointer points to its header, wherever the kernel moved
    the packet, but for [outer_ip6h] and [srh], which keep their old addresses. *)
Theorem tag_rewriting_refines t s h f offs : frame_ok f -> represents s h f offs ->
  exists oks okc okp, (never_fails -> oks = true /\ okc = true /\ okp = true) /\
    let g := flow_tags oks okc okp t f in
    let '(s', h') := _rtk_fc_swPktHdrModify t s h in
    represents s' h' g offs /\ bytes s' = encode g /\ frame_ok g /\ macs g = macs f /\ body g = body f /\
    p_fixed h' = p_fixed h.
Proof.
  intros Hf R. destruct (flow_tags_hold t s h f offs Hf R) as (oks & okc & okp & Hok & R1).
  exists oks, okc, okp. split; [done|]. intros g. pose proof (modify_fixed t s h) as Hx. destruct (_rtk_fc_swPktHdrModify t s h) as [s' h'].
  destruct (flow_session_within okp t (set_ctag (flow_ctag okc t (ctag f)) (set_stag (flow_stag oks t (stag f)) f))) as (G1 & _ & _ & G4 & G5).
  split; [exact R1|]. split; [exact (holds_bytes _ _ (rep_bytes _ _ _ _ R1))|]. split; [exact (G5 Hf)|]. by split_and!.
Qed.

(** Updating the identifier of a tag keeps its priority. *)
Lemma vid_update_keeps_priority v s h f offs o : frame_ok f -> represents s h f offs -> stag f = Some o -> is_u16 (tci o) ->
  exists c, pri c = pri (tci o) /\ vid c = vid v /\
    let r := (rtk_fc_skbVlanTag_update v true s h).2 in represents r.1 r.2 (set_stag (Some (Vtag (tpid o) (u16 c))) f) offs.
Proof.
  intros Hf R E Ho. exists (Z.lor (Z.land (tci o) (Z.lnot 0xfff)) (Z.land v 0xfff)). split; [|split].
  - unfold pri. f_equal. rewrite Z.land_lor_distr_l, <- !Z.land_assoc. change (Z.land (Z.lnot 0xfff) 0xe000) with 0xe000%Z.
    change (Z.land 0xfff 0xe000) with 0%Z. by rewrite Z.land_0_r, Z.lor_0_r.
  - unfold vid. rewrite Z.land_lor_distr_l, <- !Z.land_assoc. change (Z.land (Z.lnot 0xfff) 0xfff) with 0%Z.
    change (Z.land 0xfff 0xfff) with 0xfff%Z. by rewrite Z.land_0_r.
  - unfold rtk_fc_skbVlanTag_update. pose proof (rep_svh _ _ _ _ R) as Es. pose proof (rep_bytes _ _ _ _ R) as H.
    rewrite E in Es. cbn [present] in Es. rewrite Es. unfold encode in H. rewrite E in H. cbn [tag_bytes] in H.
    rewrite <- (app_assoc (be2 (tpid o))), (app_assoc (macs f)) in H.
    rewrite (holds_load2 s (macs f ++ be2 (tpid o)) (tci o) _ (data s + 14) H Ho) by (rewrite length_app; destruct Hf as [-> _]; done).
    pose proof (stag_retagged s h f offs o (u16 (Z.lor (Z.land (tci o) (Z.lnot 0xfff)) (Z.land v 0xfff))) Hf R E) as R2.
    destruct R2. split; try done.
Qed.
End Steps.

(** ** Kernels to try *)

(** Always moves the data to a new buffer; or never has room. *)
#[local] Instance roomy : SkbOps := {|
  skb_cow_head n s := let d := Nat.max n (data s) in let z := (Z.of_nat d - Z.of_nat (data s))%Z in
    Some (Skb (replicate d 0%Z ++ drop (data s) (buf s)) d (len s) (mac_header s + z) (network_header s + z) (transport_header s + z)
          (buf_addr s + Z.of_nat (length (buf s)) + 1));
  skb_push n s := move_data (data s - n) (len s + n) s;
  skb_reset_mac_header s := Skb (buf s) (data s) (len s) (Z.of_nat (data s)) (network_header s) (transport_header s) (buf_addr s) |}.
#[local] Instance roomy_laws : SkbLaws roomy.
Proof.
  split; [| |done|done]; intros n s s' E; simpl in E; injection E as <-.
  - eexists. split; [reflexivity|]. simpl. rewrite length_replicate. split_and!; lia.
  - unfold data_addr. simpl. lia.
Qed.
Definition full : SkbOps := {|
  skb_cow_head _ _ := None;
  skb_push n s := move_data (data s - n) (len s + n) s;
  skb_reset_mac_header s := Skb (buf s) (data s) (len s) (Z.of_nat (data s)) (network_header s) (transport_header s) (buf_addr s) |}.
Lemma full_laws : SkbLaws full.
Proof. by split. Qed.
Lemma roomy_never_fails : never_fails (K := roomy).
Proof. done. Qed.

(** A frame without tags at offset 16 of its buffer; the payload is four bytes. *)
Definition demo_frame : frame := Frame [1;2;3;4;5;6;7;8;9;10;11;12]%Z None None (Plain ETH_P_IP) [69;0;0;4]%Z.
Definition demo_skb (f : frame) : skb :=
  Skb (replicate 16 0%Z ++ encode f ++ [0; 0]%Z) 16 (length (encode f)) 16 (Z.of_nat (16 + head_len f)) (Z.of_nat (16 + head_len f) + 20) 4096.
Definition demo_hdrs (f : frame) : hdrs :=
  Hdrs 16 (if present (stag f) then Some 30 else None) (if present (ctag f) then Some (30 + vlan_len (present (stag f))) else None)
    (if in_session f then Some (30 + vlan_len (present (stag f)) + vlan_len (present (ctag f))) else None)
    [16 + head_len f] [] 0 0 0 0 (Z.of_nat (length (encode f))).
Definition demo_tags (s c : bool) (p : pppoe_act) : tag_flow :=
  TagFlow s 100 3 0 true 0x88a8 c 200 5 0 FB_PATH_5 false p 7.
Definition demo_wish (s c : bool) (p : egact) : tag_action :=
  TagAction p 7 (if c then SWFLOW_EGACT_TAG else SWFLOW_EGACT_UNTAG) 0x8100 (cvlan_tci (demo_tags s c FB_NETIFPPPOE_ACT_KEEP))
    (if s then SWFLOW_EGACT_TAG else SWFLOW_EGACT_UNTAG) 0x88a8 (svlan_tci (demo_tags s c FB_NETIFPPPOE_ACT_KEEP)).
Lemma demo_represents : represents (demo_skb demo_frame) (demo_hdrs demo_frame) demo_frame [0].
Proof. split; try reflexivity. exists (replicate 16 0%Z), [0; 0]%Z. by split_and!. Qed.
Lemma demo_frame_ok : frame_ok demo_frame.
Proof. split; [done|]. by compute. Qed.

Lemma tag_rewriting_refines_witness : exists oks okc okp,
  let g := flow_tags oks okc okp (demo_tags true true FB_NETIFPPPOE_ACT_ADD) demo_frame in
  macs g = macs demo_frame /\ body g = [69;0;0;4]%Z.
Proof.
  destruct (tag_rewriting_refines (demo_tags true true FB_NETIFPPPOE_ACT_ADD) (demo_skb demo_frame) (demo_hdrs demo_frame) demo_frame [0]
    demo_frame_ok demo_represents) as (oks & okc & okp & _ & H). exists oks, okc, okp. revert H. cbv zeta.
  destruct (_rtk_fc_swPktHdrModify _ _ _) as [s' h']. intros (_ & _ & _ & H1 & H2 & _). exact (conj H1 H2).
Defined.
Lemma tags_come_off_witness :
  let '(s1, h1) := _rtk_fc_swPktHdrModify (demo_tags true true FB_NETIFPPPOE_ACT_ADD) (demo_skb demo_frame) (demo_hdrs demo_frame) in
  bytes (_rtk_fc_swPktHdrModify (demo_tags false false FB_NETIFPPPOE_ACT_REMOVE) s1 h1).1 = bytes (demo_skb demo_frame).
Proof.
  exact (tags_come_off (demo_tags true true FB_NETIFPPPOE_ACT_ADD) (demo_tags false false FB_NETIFPPPOE_ACT_REMOVE)
    (demo_skb demo_frame) (demo_hdrs demo_frame) demo_frame [0] ETH_P_IP roomy_never_fails demo_frame_ok demo_represents
    eq_refl eq_refl eq_refl (or_introl eq_refl) eq_refl eq_refl eq_refl eq_refl).
Defined.
Lemma rewriters_agree_witness :
  bytes (rtk_fc_abstrSwPktHdrModify false false false (demo_wish true true SWFLOW_EGACT_TAG) (demo_skb demo_frame)) =
  bytes (_rtk_fc_swPktHdrModify (demo_tags true true FB_NETIFPPPOE_ACT_ADD) (demo_skb demo_frame) (demo_hdrs demo_frame)).1.
Proof.
  apply (rewriters_agree (demo_wish true true SWFLOW_EGACT_TAG) (demo_tags true true FB_NETIFPPPOE_ACT_ADD)
    (demo_skb demo_frame) (demo_skb demo_frame) (demo_hdrs demo_frame) demo_frame [0]).
  - exact roomy_never_fails.
  - exact demo_frame_ok.
  - exact demo_represents.
  - exact (rep_bytes _ _ _ _ demo_represents).
  - intros e E. injection E as <-. by left.
  - repeat split.
Defined.

(** The bytes with both tags and a session. *)
Example all_tags :
  bytes (_rtk_fc_swPktHdrModify (demo_tags true true FB_NETIFPPPOE_ACT_ADD) (demo_skb demo_frame) (demo_hdrs demo_frame)).1 =
  ([1;2;3;4;5;6;7;8;9;10;11;12] ++ [0x88; 0xa8; 0x60; 100; 0x81; 0; 0xa0; 200; 0x88; 0x64; 0x11; 0; 0; 7; 0; 6; 0; 0x21] ++ [69;0;0;4])%Z.
Proof. vm_compute. reflexivity. Qed.
(** Without room the packet stays untagged, and the length counts the tag. *)
Example failed_tag_is_counted :
  let '(s, h) := _rtk_fc_swPktHdrModify (K := full) (demo_tags true false FB_NETIFPPPOE_ACT_KEEP) (demo_skb demo_frame) (demo_hdrs demo_frame) in
  bytes s = encode demo_frame /\ skbLen_egress h = (Z.of_nat (length (bytes s)) + 4)%Z.
Proof. vm_compute. by split. Qed.
(** Without header pointers the network header is moved with the front of the packet, which
    the payload is not part of. *)
Example fast_insert_misplaces_network_header :
  let s := (rtk_fc_skbVlanTag_fast_insert 12 0x8100 5 (demo_skb demo_frame)).2 in
  network_header s = (Z.of_nat (data s + 14 + 4) - 4)%Z /\ drop (data s + 18) (buf s) = ([69;0;0;4;0;0])%Z.
Proof. vm_compute. by split. Qed.
(** A session whose protocol has one byte: the header fields move by eight bytes, the data by seven. *)
Example short_protocol_misplaces_mac_header :
  let f := set_within (Session 0x11 0 7 5 [0x21%Z]) demo_frame in
  let s := (_rtk_fc_skbPPPoETag_fast_remove 12 (demo_skb f)).2 in
  bytes s = encode demo_frame /\ mac_header s = (Z.of_nat (data s) + 1)%Z.
Proof. vm_compute. by split. Qed.
(** A packet that is not of IP enters a session as IPv4. *)
Example other_protocols_become_ipv4 :
  let f := set_within (Plain 0x0806) demo_frame in
  bytes (_rtk_fc_swPktHdrModify (demo_tags false false FB_NETIFPPPOE_ACT_ADD) (demo_skb f) (demo_hdrs f)).1 =
  encode (set_within (Session 0x11 0 7 6 [0; 0x21]%Z) f).
Proof. vm_compute. reflexivity. Qed.
(** The header of IPv6 outside a tunnel at the start of the payload: once the packet has
    moved to another buffer for its tag, [outer_ip6h] points outside of it. *)
Example outer_ip6h_dangles :
  let h := demo_hdrs demo_frame in
  let h := Hdrs (p_eth h) (p_svh h) (p_cvh h) (p_ppph h) (p_others h) [(4096 + 30)%Z] 0 0 0 0 (skbLen_egress h) in
  let '(s', h') := _rtk_fc_swPktHdrModify (demo_tags true false FB_NETIFPPPOE_ACT_KEEP) (demo_skb demo_frame) h in
  p_others h' = [data s' + 18] /\ p_fixed h' = [4126%Z] /\ buf_addr s' = 4133%Z.
Proof. vm_compute. by split_and!. Qed.
(** Inside a tunnel over IPv6 the length of the outer header keeps its old value, and four
    is added to the first bytes of the source address. *)
Example outer_ipv6_length_lost :
  let outer_ip6 := ([0x60; 0; 0; 0; 0; 50; 17; 64] ++ [0x20; 0x01; 0x0d; 0xb8] ++ replicate 28 0)%Z in
  let s := Skb (replicate 8 0%Z ++ replicate 12 0%Z ++ [0x86; 0xdd]%Z ++ outer_ip6 ++ encode demo_frame) 8 (54 + 18) 8 22 62 4096 in
  let r := (rtk_fc_inner_skbVlanTag_insert 5 true 0x88a8 s (Hdrs 62 None None None [] [] 0 0 0 0 72) (Outer 54 None None (Some 22) None)).2 in
  load2 (4 + 14 + 4) (buf r.1.1) = 50%Z /\ load2 (4 + 14 + 8) (buf r.1.1) = 0x2005%Z.
Proof. vm_compute. by split. Qed.
