(* ===== verification/FcLists.v ===== *)
(** * Entries that move between a free list and hash chains

    Several tables of the flow cache keep their entries in an array and thread them through
    kernel lists: one list of free entries and one for each hash.  An entry is its index; a
    move is [list_del_init] followed by [list_add] or [list_add_tail].  [idx_lists] is such
    a pair of lists with the moves; [partitioned] says that every entry is on exactly one. *)
From S2P Require Import Prelude.
Open Scope nat_scope.

(** [list_del_init]: the entry leaves the list it is on. *)
Definition without (i : nat) (l : list nat) : list nat := filter (fun j => j <> i) l.

Lemma without_spec i j l : j ∈ without i l <-> j ∈ l /\ j <> i.
Proof. unfold without. rewrite list_elem_of_filter. tauto. Qed.
Lemma without_none i l : i ∉ l -> without i l = l.
Proof.
  induction l as [|x l IH]; [done|]. rewrite not_elem_of_cons. intros [Hx Hl]. unfold without in *. rewrite filter_cons.
  rewrite decide_True by congruence. by rewrite IH.
Qed.
Lemma without_perm i l : NoDup l -> i ∈ l -> i :: without i l ≡ₚ l.
Proof.
  induction 1 as [|x l Hx Hl IH]; [by rewrite elem_of_nil|]. intros Hi. unfold without. rewrite filter_cons.
  destruct (decide (x <> i)) as [Hn|Hn].
  - rewrite elem_of_cons in Hi. destruct Hi as [->|Hi]; [done|]. rewrite perm_swap. constructor. by apply IH.
  - apply dec_stable in Hn as ->. constructor. fold (without i l). by rewrite without_none.
Qed.
Lemma without_concat i ls : concat (without i <$> ls) = without i (concat ls).
Proof. induction ls as [|l ls IH]; [done|]. rewrite fmap_cons. simpl. rewrite IH. unfold without. by rewrite filter_app. Qed.
Lemma concat_alter_add (i h : nat) ls : h < length ls -> concat (alter (fun l => l ++ [i]) h ls) ≡ₚ i :: concat ls.
Proof.
  revert h. induction ls as [|l ls IH]; intros [|h] Hh; simpl in *; try lia.
  - rewrite <- app_assoc. simpl. by rewrite Permutation_middle.
  - rewrite (IH h) by lia. by rewrite Permutation_middle.
Qed.
Lemma concat_alter_cons (i h : nat) ls : h < length ls -> concat (alter (cons i) h ls) ≡ₚ i :: concat ls.
Proof.
  revert h. induction ls as [|l ls IH]; intros [|h] Hh; simpl in *; try lia; [done|].
  rewrite (IH h) by lia. by rewrite Permutation_middle.
Qed.

(** ** A free list and chains *)

Record idx_lists := IdxLists { free_list : list nat; chains : list (list nat) }.
Definition bucket_list (h : nat) (p : idx_lists) : list nat := nth h (chains p) [].
Definition on_bucket (h i : nat) (p : idx_lists) : Prop := i ∈ bucket_list h p.
Definition unlink_idx (i : nat) (p : idx_lists) : idx_lists := IdxLists (without i (free_list p)) (without i <$> chains p).
Definition free_idx_head (i : nat) (p : idx_lists) : idx_lists := IdxLists (i :: free_list p) (chains p).
Definition hash_idx_head (h i : nat) (p : idx_lists) : idx_lists := IdxLists (free_list p) (alter (cons i) h (chains p)).
(** To the free list, and to the chain of a hash. *)
Definition give_back (i : nat) (p : idx_lists) : idx_lists := free_idx_head i (unlink_idx i p).
Definition hash_in (h i : nat) (p : idx_lists) : idx_lists := hash_idx_head h i (unlink_idx i p).

Definition members (p : idx_lists) : list nat := free_list p ++ concat (chains p).
Definition partitioned (n : nat) (p : idx_lists) : Prop := members p ≡ₚ seq 0 n.

Lemma bucket_lookup h p : bucket_list h p = default [] (chains p !! h).
Proof. unfold bucket_list. by rewrite nth_lookup. Qed.
Lemma bucket_member p i : i ∈ concat (chains p) <-> exists h, on_bucket h i p.
Proof.
  unfold on_bucket. rewrite list_elem_of_In, in_concat. split.
  - intros (l & Hl & Hi). apply list_elem_of_In, list_elem_of_lookup in Hl as [h Hh]. exists h. rewrite bucket_lookup, Hh. by apply list_elem_of_In.
  - intros [h Hi]. rewrite bucket_lookup in Hi. destruct (chains p !! h) as [l|] eqn:E; [|by apply elem_of_nil in Hi].
    exists l. split; [apply list_elem_of_In; by eapply list_elem_of_lookup_2|by apply list_elem_of_In].
Qed.
Lemma bucket_inside h i p : on_bucket h i p -> h < length (chains p).
Proof. unfold on_bucket. rewrite bucket_lookup. destruct (chains p !! h) eqn:E; [by apply lookup_lt_Some in E|by intros ?%elem_of_nil]. Qed.
Lemma members_spec p i : i ∈ members p <-> i ∈ free_list p \/ exists h, on_bucket h i p.
Proof. unfold members. by rewrite elem_of_app, bucket_member. Qed.

Section Partition.
Context (n : nat) (p : idx_lists).
Hypothesis P : partitioned n p.

Lemma part_nodup : NoDup (members p).
Proof. rewrite P. apply NoDup_seq. Qed.
Lemma part_member i : i ∈ members p <-> i < n.
Proof. rewrite P, elem_of_seq. lia. Qed.
Lemma part_bound h i : on_bucket h i p -> i < n.
Proof. intros Hi. apply part_member, members_spec. right. by exists h. Qed.
Lemma part_free i : i ∈ free_list p -> i < n.
Proof. intros Hi. apply part_member, members_spec. by left. Qed.
Lemma part_disjoint i h : i ∈ free_list p -> ~ on_bucket h i p.
Proof.
  intros Hf Hc. pose proof part_nodup as H. unfold members in H. apply NoDup_app in H as (_ & H & _). apply (H i Hf), bucket_member. by exists h.
Qed.
Lemma members_unlink i : members (unlink_idx i p) = without i (members p).
Proof. unfold members, unlink_idx, without. simpl. fold (without i). rewrite without_concat. by rewrite filter_app. Qed.
Lemma give_back_part i : i < n -> partitioned n (give_back i p).
Proof.
  intros Hi. unfold partitioned. rewrite <- P, <- (without_perm i (members p) part_nodup (proj2 (part_member i) Hi)).
  by rewrite <- members_unlink.
Qed.
Lemma hash_in_part h i : i < n -> h < length (chains p) -> partitioned n (hash_in h i p).
Proof.
  intros Hi Hh. unfold partitioned. rewrite <- P, <- (without_perm i (members p) part_nodup (proj2 (part_member i) Hi)), <- members_unlink.
  unfold members, hash_in, hash_idx_head. simpl. rewrite concat_alter_cons by (by rewrite length_fmap). by rewrite <- Permutation_middle.
Qed.
(** The same entry is not on two chains. *)
Lemma part_unique h h' i : on_bucket h i p -> on_bucket h' i p -> h = h'.
Proof.
  pose proof part_nodup as H. unfold members in H. apply NoDup_app in H as (_ & _ & H). unfold on_bucket. rewrite !bucket_lookup.
  revert h h' H. induction (chains p) as [|l ls IH]; intros h h' H Hi Hi'; [by apply elem_of_nil in Hi|]. simpl in H.
  apply NoDup_app in H as (_ & Hd & H).
  assert (forall k, i ∈ default [] (ls !! k) -> i ∈ concat ls) as Hc by (intros k Hk; apply (bucket_member (IdxLists [] ls)); exists k; unfold on_bucket; by rewrite bucket_lookup).
  destruct h as [|h], h' as [|h']; simpl in *; [done|by destruct (Hd i Hi); apply (Hc h')|by destruct (Hd i Hi'); apply (Hc h)|f_equal; by apply IH].
Qed.
End Partition.

Lemma bucket_unlink h i j p : on_bucket h j (unlink_idx i p) <-> on_bucket h j p /\ j <> i.
Proof.
  unfold on_bucket. rewrite !bucket_lookup. unfold unlink_idx. simpl. rewrite list_lookup_fmap.
  destruct (chains p !! h) as [l|]; simpl; [apply without_spec|]. rewrite elem_of_nil. tauto.
Qed.
Lemma bucket_give_back h i j p : on_bucket h j (give_back i p) <-> on_bucket h j p /\ j <> i.
Proof. apply bucket_unlink. Qed.
Lemma free_give_back i j p : j ∈ free_list (give_back i p) <-> j = i \/ (j ∈ free_list p /\ j <> i).
Proof. unfold give_back. simpl. by rewrite elem_of_cons, without_spec. Qed.
Lemma bucket_hash_in h h' i j p : h < length (chains p) -> on_bucket h' j (hash_in h i p) <-> (h' = h /\ j = i) \/ (on_bucket h' j p /\ j <> i).
Proof.
  intros Hh. rewrite <- bucket_unlink. unfold on_bucket, hash_in. rewrite !bucket_lookup. unfold hash_idx_head. simpl. destruct (decide (h = h')) as [<-|Hn].
  - rewrite list_lookup_alter_eq. assert (h < length (without i <$> chains p)) as [l E]%lookup_lt_is_Some by by rewrite length_fmap.
    rewrite E. simpl. rewrite elem_of_cons. naive_solver.
  - rewrite list_lookup_alter_ne by done. naive_solver.
Qed.
Lemma free_hash_in h i j p : j ∈ free_list (hash_in h i p) <-> j ∈ free_list p /\ j <> i.
Proof. apply without_spec. Qed.
Lemma give_back_concat i p : concat (chains (give_back i p)) = without i (concat (chains p)).
Proof. apply without_concat. Qed.
Lemma hash_in_concat h i p : h < length (chains p) -> concat (chains (hash_in h i p)) ≡ₚ i :: without i (concat (chains p)).
Proof. intros Hh. rewrite <- without_concat. apply concat_alter_cons. by rewrite length_fmap. Qed.

(** ** Moves to another place than the head

    [place] says where an entry goes on a list it is added to. *)
Class Placing (place : nat -> list nat -> list nat) := place_perm i l : place i l ≡ₚ i :: l.

Definition free_at (place : nat -> list nat -> list nat) (i : nat) (p : idx_lists) : idx_lists :=
  IdxLists (place i (without i (free_list p))) (without i <$> chains p).
Definition hash_at (place : nat -> list nat -> list nat) (h i : nat) (p : idx_lists) : idx_lists :=
  IdxLists (without i (free_list p)) (alter (place i) h (without i <$> chains p)).

Section Place.
Context {place : nat -> list nat -> list nat} `{!Placing place}.

Lemma place_member i j l : j ∈ place i l <-> j = i \/ j ∈ l.
Proof. by rewrite place_perm, elem_of_cons. Qed.
Lemma concat_alter_place (i h : nat) ls : h < length ls -> concat (alter (place i) h ls) ≡ₚ i :: concat ls.
Proof.
  revert h. induction ls as [|l ls IH]; intros [|h] Hh; simpl in *; try lia; [by rewrite place_perm|].
  rewrite (IH h) by lia. by rewrite Permutation_middle.
Qed.
Lemma free_at_part n p i : partitioned n p -> i < n -> partitioned n (free_at place i p).
Proof.
  intros P Hi. unfold partitioned, members, free_at. simpl. rewrite place_perm. apply (give_back_part n p P i Hi).
Qed.
Lemma hash_at_part n p h i : partitioned n p -> i < n -> h < length (chains p) -> partitioned n (hash_at place h i p).
Proof.
  intros P Hi Hh. unfold partitioned. rewrite <- (hash_in_part n p P h i Hi Hh). unfold members, hash_at, hash_in, hash_idx_head. simpl.
  apply Permutation_app; [done|]. by rewrite concat_alter_place, concat_alter_cons by (by rewrite length_fmap).
Qed.
Lemma bucket_free_at h i j p : on_bucket h j (free_at place i p) <-> on_bucket h j p /\ j <> i.
Proof. apply bucket_unlink. Qed.
Lemma free_free_at i j p : j ∈ free_list (free_at place i p) <-> j = i \/ (j ∈ free_list p /\ j <> i).
Proof. simpl. by rewrite place_member, without_spec. Qed.
Lemma free_hash_at h i j p : j ∈ free_list (hash_at place h i p) <-> j ∈ free_list p /\ j <> i.
Proof. apply without_spec. Qed.
Lemma bucket_hash_at h h' i j p : h < length (chains p) ->
  on_bucket h' j (hash_at place h i p) <-> (h' = h /\ j = i) \/ (on_bucket h' j p /\ j <> i).
Proof.
  intros Hh. rewrite <- bucket_unlink. unfold on_bucket, hash_at. rewrite !bucket_lookup. simpl. destruct (decide (h = h')) as [<-|Hn].
  - rewrite list_lookup_alter_eq. assert (h < length (without i <$> chains p)) as [l E]%lookup_lt_is_Some by by rewrite length_fmap.
    rewrite E. simpl. rewrite place_member. naive_solver.
  - rewrite list_lookup_alter_ne by done. naive_solver.
Qed.
Lemma chains_hash_at h i p : length (chains (hash_at place h i p)) = length (chains p).
Proof. simpl. by rewrite length_alter, length_fmap. Qed.
End Place.
Lemma chains_free_at place i p : length (chains (free_at place i p)) = length (chains p).
Proof. simpl. by rewrite length_fmap. Qed.
#[export] Instance placing_cons : Placing cons.
Proof. by intros i l. Qed.
Definition at_tail (i : nat) (l : list nat) : list nat := l ++ [i].
#[export] Instance placing_tail : Placing at_tail.
Proof. intros i l. unfold at_tail. by rewrite Permutation_app_comm. Qed.

Lemma part_init n m : partitioned n (IdxLists (seq 0 n) (replicate m [])).
Proof.
  unfold partitioned, members. simpl. assert (concat (replicate m ([] : list nat)) = []) as ->; [|by rewrite app_nil_r]. by induction m.
Qed.
