(* ===== verification/FcFrag.v ===== *)
(** * The fragment caches of the flow cache

    Only the first fragment of a UDP datagram has the ports by which a flow is found; the
    cache remembers them for the fragments that follow, the negative cache remembers
    datagrams that have no flow ([rtk_fc_ipFrag_cache_add], [rtk_fc_ipFrag_cache_find] and
    their relatives in [FleetConntrackDriver/core/rtk_fc_internal.c]).  An entry is on the
    free list or on the chain of its hash, and a timer runs for it; entries are their
    indices, the kernel's lists are lists of them.  A packet is that of [FcRewrite]. *)
From S2P Require Import Prelude FcLists FcChecksum FcRewrite.
Open Scope Z_scope.

(** ** Entries *)

Record frag_info := FragInfo { src_ip : Z; dst_ip : Z; frag_id : Z; frag_proto : Z }.
#[global] Instance frag_info_dec : EqDecision frag_info.
Proof. solve_decision. Defined.
Record frag_entry := FragEntry {
  valid : bool;
  hash_idx_valid : bool;
  src_port : Z;
  dst_port : Z;
  rcv_data_len : Z;
  total_data_len : Z;
  tmp_data_len : Z;
  hash_idx : nat;
  info : frag_info }.
Definition no_info : frag_info := FragInfo 0 0 0 0.
Definition empty_entry : frag_entry := FragEntry false false 0 0 0 0 0 0 no_info.
Definition set_ports (s d : Z) (e : frag_entry) : frag_entry :=
  FragEntry (valid e) (hash_idx_valid e) s d (rcv_data_len e) (total_data_len e) (tmp_data_len e) (hash_idx e) (info e).
Definition set_lens (rcv total tmp : Z) (e : frag_entry) : frag_entry :=
  FragEntry (valid e) (hash_idx_valid e) (src_port e) (dst_port e) rcv total tmp (hash_idx e) (info e).
Definition set_key (i : frag_info) (e : frag_entry) : frag_entry :=
  FragEntry true (hash_idx_valid e) (src_port e) (dst_port e) (rcv_data_len e) (total_data_len e) (tmp_data_len e) (hash_idx e) i.
Definition set_hash (h : nat) (e : frag_entry) : frag_entry :=
  FragEntry (valid e) true (src_port e) (dst_port e) (rcv_data_len e) (total_data_len e) (tmp_data_len e) h (info e).

(** The settings, and the width of the length fields. *)
Class FragConfig := {
  max_hash_size : Z;
  max_hash_entry_size : Z;
  cache_timeout : Z;                     (* in jiffies *)
  wrap : Z -> Z }.

Record frag_cache := FragCache {
  ents : list frag_entry;
  freeList : list nat;
  hashList : list (list nat);
  timers : list (option Z);              (* pending, with its time *)
  waiting : list nat }.                  (* handlers of timers between their check and the lock *)
Inductive frag_ret := RTK_FC_RET_OK | RTK_FC_RET_ERR_NULL_POINTER | RTK_FC_RET_ERR_INVALID_PARAM | RTK_FC_RET_ERR_ENTRY_NOT_FOUND.

Section Frag.
Context {C : FragConfig}.

Definition frag_count : nat := Z.to_nat (max_hash_size * max_hash_entry_size).
Definition frag_init : frag_cache :=
  FragCache (replicate frag_count empty_entry) (seq 0 frag_count) (replicate (Z.to_nat max_hash_size) []) (replicate frag_count None) [].

Definition rtk_fc_ipFrag_hashFunc (i : frag_info) : option nat :=
  if max_hash_size <=? 0 then None
  else
    let h := Z.lxor (src_ip i) (dst_ip i) in
    let h := Z.lxor h (Z.lxor (Z.shiftr h 16) (frag_id i)) in
    let h := Z.lxor h (Z.lxor (Z.shiftr h 8) (frag_proto i)) in
    Some (Z.to_nat (Z.land h (max_hash_size - 1))).

(** ** Lists and timers *)

Definition get (c : frag_cache) (i : nat) : frag_entry := nth i (ents c) empty_entry.
Definition upd_entry (i : nat) (g : frag_entry -> frag_entry) (c : frag_cache) : frag_cache :=
  FragCache (alter g i (ents c)) (freeList c) (hashList c) (timers c) (waiting c).
(** The entry leaves the list it is on. *)
Definition list_del_init (i : nat) (c : frag_cache) : frag_cache :=
  FragCache (ents c) (without i (freeList c)) (without i <$> hashList c) (timers c) (waiting c).
Definition add_free (i : nat) (c : frag_cache) : frag_cache :=
  FragCache (ents c) (freeList c ++ [i]) (hashList c) (timers c) (waiting c).
Definition add_chain (h i : nat) (c : frag_cache) : frag_cache :=
  FragCache (ents c) (freeList c) (alter (fun l => l ++ [i]) h (hashList c)) (timers c) (waiting c).
Definition set_timer (i : nat) (t : option Z) (c : frag_cache) : frag_cache :=
  FragCache (ents c) (freeList c) (hashList c) (<[i := t]> (timers c)) (waiting c).
Definition set_waiting (w : list nat) (c : frag_cache) : frag_cache :=
  FragCache (ents c) (freeList c) (hashList c) (timers c) w.
Definition chain (h : nat) (c : frag_cache) : list nat := nth h (hashList c) [].

Definition rtk_fc_ipFrag_cache_free (i : nat) (c : frag_cache) : frag_cache :=
  add_free i (list_del_init i (upd_entry i (fun _ => empty_entry) c)).
(** The timer's handler, up to the lock: it looks at [valid] without it, and returns or waits
    ([None]). *)
Definition rtk_fc_ipFrag_cache_timeout (i : nat) (c : frag_cache) : option frag_ret * frag_cache :=
  if valid (get c i) then (None, set_waiting (waiting c ++ [i]) c) else (Some RTK_FC_RET_ERR_ENTRY_NOT_FOUND, c).
(** With the lock: it frees the entry, whatever that has become. *)
Definition timeout_locked (i : nat) (c : frag_cache) : frag_ret * frag_cache :=
  (RTK_FC_RET_OK, rtk_fc_ipFrag_cache_free i (set_waiting (without i (waiting c)) c)).
Definition rtk_fc_ipFrag_cache_del (i : nat) (c : frag_cache) : frag_cache :=
  rtk_fc_ipFrag_cache_free i (set_timer i None c).

(** ** Packets *)

Definition info_of (h : iphdr) : frag_info := FragInfo (saddr h) (daddr h) (ip_id h) (protocol h).
Definition ip_data_len (h : iphdr) : Z := tot_len h - Z.shiftl (Z.land (ip_first h) 0xf) 2.
Definition first_frag (p : packet) : bool := match ipFragFlag p with RTK_FC_IP_FIRST_FRAG => true | _ => false end.

(** What [rtk_fc_ipFrag_cache_add] writes into a free entry. *)
Definition fill_entry (h : iphdr) (p : packet) (e : frag_entry) : frag_entry :=
  let e := set_key (info_of h) e in
  match tcph p, udph p with
  | Some l, _ => set_ports (source l) (dest l) e
  | None, Some l =>
      set_lens (rcv_data_len e) (wrap (udp_len l - 8)) (wrap (ip_data_len h - 8)) (set_ports (source l) (dest l) e)
  | None, None => e
  end.
(** [k] is the packet's own copy, [cacheIpFragInfo]. *)
Definition rtk_fc_ipFrag_cache_add (now : Z) (p : packet) (k : frag_entry) (c : frag_cache) : frag_ret * frag_entry * frag_cache :=
  match iph p with
  | None => (RTK_FC_RET_ERR_NULL_POINTER, k, c)
  | Some h =>
      if cache_timeout <=? 0 then (RTK_FC_RET_ERR_NULL_POINTER, k, c)
      else match rtk_fc_ipFrag_hashFunc (info_of h) with
      | None => (RTK_FC_RET_ERR_INVALID_PARAM, k, c)
      | Some hash =>
          match freeList c with
          | [] => (RTK_FC_RET_OK, k, c)
          | i :: _ =>
              (RTK_FC_RET_OK,
               FragEntry (valid k) true (src_port k) (dst_port k) (rcv_data_len k) (total_data_len k) (tmp_data_len k) hash (info_of h),
               set_timer i (Some (now + cache_timeout)) (add_chain hash i (list_del_init i (upd_entry i (fill_entry h p) c))))
          end
      end
  end.

Definition find_in (i : frag_info) (l : list nat) (c : frag_cache) : option nat :=
  List.find (fun j => bool_decide (info (get c j) = i)) l.
(** What a hit writes into the entry. *)
Definition note_packet (h : iphdr) (p : packet) (e : frag_entry) : frag_entry :=
  set_lens (rcv_data_len e)
    (match udph p with Some l => if first_frag p then wrap (udp_len l - 8) else total_data_len e | None => total_data_len e end)
    (match udph p with Some _ => wrap (ip_data_len h - 8) | None => wrap (ip_data_len h) end) e.
Definition rtk_fc_ipFrag_cache_find (p : packet) (k : frag_entry) (c : frag_cache) : frag_ret * frag_entry * frag_cache :=
  match iph p with
  | None => (RTK_FC_RET_ERR_NULL_POINTER, k, c)
  | Some h =>
      match rtk_fc_ipFrag_hashFunc (info_of h) with
      | None => (RTK_FC_RET_ERR_INVALID_PARAM, k, c)
      | Some hash =>
          match find_in (info_of h) (chain hash c) c with
          | Some i => (RTK_FC_RET_OK, set_hash hash (get c i), upd_entry i (note_packet h p) c)
          | None => (RTK_FC_RET_ERR_ENTRY_NOT_FOUND, k, c)
          end
      end
  end.

Definition count_data (e : frag_entry) : frag_entry := set_lens (wrap (rcv_data_len e + tmp_data_len e)) (total_data_len e) 0 e.
Definition complete (e : frag_entry) : bool := negb (total_data_len e =? 0) && (total_data_len e =? rcv_data_len e).
Definition rtk_fc_ipfrag_ingress_del_cache (k : frag_entry) (c : frag_cache) : frag_ret * frag_cache :=
  match find_in (info k) (chain (hash_idx k) c) c with
  | Some i =>
      let c := upd_entry i count_data c in
      (RTK_FC_RET_OK, if complete (get c i) then rtk_fc_ipFrag_cache_del i c else c)
  | None => (RTK_FC_RET_ERR_ENTRY_NOT_FOUND, c)
  end.
Definition rtk_fc_ipfrag_shortcut_find_cache (k : frag_entry) (c : frag_cache) : option nat :=
  find_in (info k) (chain (hash_idx k) c) c.
(** The end of the short cut: a fragment that found no flow, or is too long, gives the entry up. *)
Definition shortcut_del (k : frag_entry) (c : frag_cache) : frag_cache :=
  match rtk_fc_ipfrag_shortcut_find_cache k c with Some i => rtk_fc_ipFrag_cache_del i c | None => c end.

(** ** The negative cache: entries with a key only *)

Definition rtk_fc_negative_ipFrag_cache_add (now : Z) (p : packet) (c : frag_cache) : frag_ret * frag_cache :=
  match iph p with
  | None => (RTK_FC_RET_ERR_NULL_POINTER, c)
  | Some h =>
      if cache_timeout <=? 0 then (RTK_FC_RET_ERR_NULL_POINTER, c)
      else match rtk_fc_ipFrag_hashFunc (info_of h) with
      | None => (RTK_FC_RET_ERR_INVALID_PARAM, c)
      | Some hash =>
          match freeList c with
          | [] => (RTK_FC_RET_OK, c)
          | i :: _ =>
              (RTK_FC_RET_OK,
               set_timer i (Some (now + cache_timeout)) (add_chain hash i (list_del_init i (upd_entry i (set_key (info_of h)) c))))
          end
      end
  end.
Definition rtk_fc_negative_ipFrag_cache_find (p : packet) (c : frag_cache) : frag_ret :=
  match iph p with
  | None => RTK_FC_RET_ERR_NULL_POINTER
  | Some h =>
      match rtk_fc_ipFrag_hashFunc (info_of h) with
      | None => RTK_FC_RET_ERR_INVALID_PARAM
      | Some hash => match find_in (info_of h) (chain hash c) c with Some _ => RTK_FC_RET_OK | None => RTK_FC_RET_ERR_ENTRY_NOT_FOUND end
      end
  end.
Definition rtk_fc_negtive_ipFrag_cache_free (i : nat) (c : frag_cache) : frag_cache := rtk_fc_ipFrag_cache_free i c.
Definition rtk_fc_negtive_ipFrag_cache_timeout (i : nat) (c : frag_cache) : option frag_ret * frag_cache :=
  if valid (get c i) then (None, set_waiting (waiting c ++ [i]) c) else (Some RTK_FC_RET_ERR_ENTRY_NOT_FOUND, c).
Definition negative_timeout_locked (i : nat) (c : frag_cache) : frag_ret * frag_cache :=
  (RTK_FC_RET_OK, rtk_fc_negtive_ipFrag_cache_free i (set_waiting (without i (waiting c)) c)).

(** ** Runs *)

(** What happens to the cache: packets, the passing of time, a timer that is due, and its
    handler with the lock.  The kernel does not run the handler of a timer twice at a time. *)
Inductive frag_event :=
| FragAdd (p : packet) (k : frag_entry)
| FragNegAdd (p : packet)
| FragFind (p : packet) (k : frag_entry)
| FragCount (k : frag_entry)
| FragGiveUp (k : frag_entry)
| FragTime (t : Z)
| FragFire (i : nat)
| FragLock (i : nat).
Definition frag_state : Type := Z * frag_cache.
Definition frag_step (ev : frag_event) (s : frag_state) : frag_state :=
  let '(now, c) := s in
  match ev with
  | FragAdd p k => (now, (rtk_fc_ipFrag_cache_add now p k c).2)
  | FragNegAdd p => (now, (rtk_fc_negative_ipFrag_cache_add now p c).2)
  | FragFind p k => (now, (rtk_fc_ipFrag_cache_find p k c).2)
  | FragCount k => (now, (rtk_fc_ipfrag_ingress_del_cache k c).2)
  | FragGiveUp k => (now, shortcut_del k c)
  | FragTime t => (Z.max now t, c)
  | FragFire i =>
      match nth i (timers c) None with
      | Some t =>
          if (t <=? now) && negb (bool_decide (i ∈ waiting c))
          then (now, (rtk_fc_ipFrag_cache_timeout i (set_timer i None c)).2) else s
      | None => s
      end
  | FragLock i => if bool_decide (i ∈ waiting c) then (now, (timeout_locked i c).2) else s
  end.
Definition frag_run (es : list frag_event) (s : frag_state) : frag_state := foldl (fun s e => frag_step e s) s es.
End Frag.
