(* ===== verification/FcFragSpec.v ===== *)
(** * What the fragment cache guarantees

    Every entry is on exactly one list, searches are exact, the fragments that follow the
    first one get its ports whatever else happens in between, and entries come back. *)
From S2P Require Import Prelude FcLists FcChecksum FcRewrite FcFrag.
Open Scope Z_scope.

(** The timeout is positive; the length fields hold what a length field of IP holds. *)
Class FragLaws (C : FragConfig) : Prop := {
  size_pos : 0 < max_hash_size;
  entries_pos : 0 < max_hash_entry_size;
  timeout_pos : 0 < cache_timeout;
  wrap_small z : 0 <= z < 2 ^ 16 -> wrap z = z }.

Section Spec.
Context {C : FragConfig} {L : FragLaws C}.

Definition all (c : frag_cache) : list nat := freeList c ++ concat (hashList c).
Definition on_chain (c : frag_cache) (h i : nat) : Prop := i ∈ chain h c.
(** Every entry is on exactly one list; a free one is empty, one on a chain is valid, belongs
    there, and its timer is pending or the handler waits for the lock to free it. *)
Record frag_inv (c : frag_cache) : Prop := {
  inv_ents : length (ents c) = frag_count;
  inv_timers : length (timers c) = frag_count;
  inv_chains : length (hashList c) = Z.to_nat max_hash_size;
  inv_all : all c ≡ₚ seq 0 frag_count;
  inv_waiting : Forall (fun i => i < frag_count)%nat (waiting c);
  inv_free : forall i, i ∈ freeList c -> get c i = empty_entry;
  inv_chain : forall h i, on_chain c h i ->
    valid (get c i) = true /\ rtk_fc_ipFrag_hashFunc (info (get c i)) = Some h /\
    (is_Some (nth i (timers c) None) \/ i ∈ waiting c) }.

Lemma frag_hash_bound i h : rtk_fc_ipFrag_hashFunc i = Some h -> (h < Z.to_nat max_hash_size)%nat.
Proof.
  unfold rtk_fc_ipFrag_hashFunc. pose proof size_pos. destruct (Z.leb_spec max_hash_size 0); [done|]. intros [= <-].
  match goal with |- context [Z.land ?y _] => set (x := y) end.
  assert (0 <= Z.land x (max_hash_size - 1)) by (apply Z.land_nonneg; lia).
  assert (Z.land x (max_hash_size - 1) <= max_hash_size - 1); [|lia].
  apply Z.ldiff_le; [lia|]. apply Z.bits_inj'. intros n Hn. rewrite Z.ldiff_spec, Z.land_spec, Z.bits_0.
  by destruct (Z.testbit x n), (Z.testbit (max_hash_size - 1) n).
Qed.
Lemma frag_hash_some i : exists h, rtk_fc_ipFrag_hashFunc i = Some h.
Proof. unfold rtk_fc_ipFrag_hashFunc. pose proof size_pos. destruct (Z.leb_spec max_hash_size 0); [lia|]. by eexists. Qed.

(** ** The lists after an entry moved *)

Lemma chain_lookup c h : chain h c = default [] (hashList c !! h).
Proof. unfold chain. by rewrite nth_lookup. Qed.
Lemma inv_bound c i : frag_inv c -> i ∈ all c <-> (i < frag_count)%nat.
Proof. intros I. rewrite (inv_all c I), elem_of_seq. lia. Qed.
Lemma in_chains c i : i ∈ concat (hashList c) <-> exists h, on_chain c h i.
Proof.
  unfold on_chain. rewrite list_elem_of_In, in_concat. split.
  - intros (l & Hl & Hi). apply list_elem_of_In, list_elem_of_lookup in Hl as [h Hh]. exists h. rewrite chain_lookup, Hh.
    by apply list_elem_of_In.
  - intros [h Hi]. rewrite chain_lookup in Hi. destruct (hashList c !! h) as [l|] eqn:E; [|by apply elem_of_nil in Hi].
    exists l. split; [apply list_elem_of_In; by eapply list_elem_of_lookup_2|by apply list_elem_of_In].
Qed.
Lemma in_all c i : i ∈ all c <-> i ∈ freeList c \/ exists h, on_chain c h i.
Proof. unfold all. by rewrite elem_of_app, in_chains. Qed.
Lemma all_nodup c : frag_inv c -> NoDup (all c).
Proof. intros I. rewrite (inv_all c I). apply NoDup_seq. Qed.
Lemma free_not_chain c i h : frag_inv c -> i ∈ freeList c -> ~ on_chain c h i.
Proof.
  intros I Hf Hc. pose proof (inv_free c I i Hf) as E. pose proof (inv_chain c I h i Hc) as [V _]. by rewrite E in V.
Qed.

Lemma get_upd i j g c : get (upd_entry i g c) j = if decide (i = j) then (if decide (j < length (ents c))%nat then g (get c j) else get c j) else get c j.
Proof.
  unfold get, upd_entry. simpl. rewrite !nth_lookup. destruct (decide (i = j)) as [->|Hn].
  - rewrite list_lookup_alter_eq. destruct (decide (j < length (ents c))%nat) as [Hl|Hl].
    + apply lookup_lt_is_Some in Hl as [e ->]. done.
    + apply Nat.nlt_ge, lookup_ge_None in Hl. by rewrite Hl.
  - by rewrite list_lookup_alter_ne.
Qed.
Lemma get_upd_eq c i g : frag_inv c -> (i < frag_count)%nat -> get (upd_entry i g c) i = g (get c i).
Proof. intros I Hi. rewrite get_upd, decide_True by done. rewrite (inv_ents c I). by rewrite decide_True. Qed.
Lemma get_upd_ne c i j g : i <> j -> get (upd_entry i g c) j = get c j.
Proof. intros Hn. rewrite get_upd. by rewrite decide_False. Qed.
Lemma timer_set c i j t : frag_inv c -> (i < frag_count)%nat ->
  nth j (timers (set_timer i t c)) None = if decide (i = j) then t else nth j (timers c) None.
Proof.
  intros I Hi. unfold set_timer. simpl. rewrite !nth_lookup. destruct (decide (i = j)) as [<-|Hn].
  - by rewrite list_lookup_insert_eq by (rewrite (inv_timers c I); done).
  - by rewrite list_lookup_insert_ne.
Qed.
Lemma chain_without c h i j : j ∈ chain h (list_del_init i c) <-> on_chain c h j /\ j <> i.
Proof.
  unfold on_chain. rewrite !chain_lookup. unfold list_del_init. simpl. rewrite list_lookup_fmap.
  destruct (hashList c !! h) as [l|]; simpl; [apply without_spec|]. rewrite elem_of_nil. tauto.
Qed.
Lemma chain_added c h h' i j : (h < length (hashList c))%nat -> j ∈ chain h' (add_chain h i c) <-> on_chain c h' j \/ (h' = h /\ j = i).
Proof.
  intros Hh. unfold on_chain. rewrite !chain_lookup. unfold add_chain. simpl. destruct (decide (h = h')) as [<-|Hn].
  - rewrite list_lookup_alter_eq. apply lookup_lt_is_Some in Hh as [l ->]. simpl. rewrite elem_of_app, list_elem_of_singleton. naive_solver.
  - rewrite list_lookup_alter_ne by done. naive_solver.
Qed.

(** ** The steps keep the invariant *)

Lemma inv_note c i h g : frag_inv c -> on_chain c h i -> (forall e, valid (g e) = valid e /\ info (g e) = info e) -> frag_inv (upd_entry i g c).
Proof.
  intros I Hi Hg. assert ((i < frag_count)%nat) as Hb by (apply (inv_bound c i I), in_all; right; by exists h).
  split; try apply I; [by simpl; rewrite length_alter, (inv_ents c I)|..].
  - intros j Hj. assert (i <> j) as Hn by (intros ->; by apply (free_not_chain c j h I)).
    rewrite get_upd_ne by done. by apply (inv_free c I).
  - intros h' j Hj. destruct (inv_chain c I h' j Hj) as (V & E & T). destruct (decide (i = j)) as [<-|Hn].
    + rewrite (get_upd_eq c i g I Hb). destruct (Hg (get c i)) as [-> ->]. done.
    + by rewrite get_upd_ne.
Qed.
(** Timers and handlers of [c] but for those of one entry. *)
Definition but_for (i : nat) (c : frag_cache) (ts : list (option Z)) (w : list nat) : Prop :=
  length ts = length (timers c) /\ Forall (fun i => i < frag_count)%nat w /\
  forall j, j <> i -> nth j ts None = nth j (timers c) None /\ (j ∈ w <-> j ∈ waiting c).
Definition put_timers (ts : list (option Z)) (w : list nat) (c : frag_cache) : frag_cache :=
  FragCache (ents c) (freeList c) (hashList c) ts w.
Lemma inv_free_any c i ts w : frag_inv c -> (i < frag_count)%nat -> but_for i c ts w ->
  frag_inv (rtk_fc_ipFrag_cache_free i (put_timers ts w c)).
Proof.
  intros I Hb (Hl & Hw & Ht). unfold rtk_fc_ipFrag_cache_free. split; simpl.
  - by rewrite length_alter, (inv_ents c I).
  - by rewrite Hl, (inv_timers c I).
  - by rewrite length_fmap, (inv_chains c I).
  - rewrite <- (inv_all c I), <- (without_perm i (all c) (all_nodup c I) (proj2 (inv_bound c i I) Hb)).
    unfold all, without. simpl. fold (without i). rewrite without_concat, <- app_assoc. simpl.
    unfold without. by rewrite <- Permutation_middle, filter_app.
  - done.
  - intros j Hj. apply elem_of_app in Hj as [Hj|Hj].
    + apply without_spec in Hj as [Hj Hn]. change (get (upd_entry i (fun _ => empty_entry) c) j = empty_entry).
      rewrite get_upd_ne by done. by apply (inv_free c I).
    + apply list_elem_of_singleton in Hj as ->. exact (get_upd_eq c i _ I Hb).
  - intros h j Hj. apply (chain_without (upd_entry i (fun _ => empty_entry) (put_timers ts w c)) h i j) in Hj as [Hj Hn].
    change (valid (get (upd_entry i (fun _ => empty_entry) c) j) = true /\
      rtk_fc_ipFrag_hashFunc (info (get (upd_entry i (fun _ => empty_entry) c) j)) = Some h /\ (is_Some (nth j ts None) \/ j ∈ w)).
    destruct (Ht j Hn) as [-> ->]. rewrite get_upd_ne by done. exact (inv_chain c I h j Hj).
Qed.
Lemma inv_freed c i : frag_inv c -> (i < frag_count)%nat -> frag_inv (rtk_fc_ipFrag_cache_del i c).
Proof.
  intros I Hb. apply (inv_free_any c i (<[i := None]> (timers c)) (waiting c) I Hb).
  split; [by rewrite length_insert|]. split; [apply I|]. intros j Hn. split; [|done].
  change (nth j (timers (set_timer i None c)) None = nth j (timers c) None). rewrite (timer_set c i j None I Hb). by rewrite decide_False.
Qed.
Lemma inv_locked c i : frag_inv c -> i ∈ waiting c -> frag_inv (timeout_locked i c).2.
Proof.
  intros I Hi. assert ((i < frag_count)%nat) as Hb by (by apply (proj1 (Forall_forall _ _) (inv_waiting c I))).
  apply (inv_free_any c i (timers c) (without i (waiting c)) I Hb). split; [done|]. split.
  - apply Forall_forall. intros j Hj. apply without_spec in Hj as [Hj _]. by apply (proj1 (Forall_forall _ _) (inv_waiting c I)).
  - intros j Hn. split; [done|]. rewrite without_spec. tauto.
Qed.
(** A timer that fired: its handler waits, if it found the entry valid. *)
Lemma inv_fired c i : frag_inv c -> (i < frag_count)%nat -> frag_inv (rtk_fc_ipFrag_cache_timeout i (set_timer i None c)).2.
Proof.
  intros I Hb. unfold rtk_fc_ipFrag_cache_timeout. change (get (set_timer i None c) i) with (get c i).
  assert (forall j, nth j (<[i := None]> (timers c)) None = if decide (i = j) then None else nth j (timers c) None) as Ht.
  { intros j. exact (timer_set c i j None I Hb). }
  destruct (valid (get c i)) eqn:V; (split; simpl; [apply I|by rewrite length_insert, (inv_timers c I)|apply I|apply I| |apply I|]).
  - apply Forall_app. split; [apply I|by constructor].
  - intros h j Hj. destruct (inv_chain c I h j Hj) as (A & B & D). split_and!; [done..|]. rewrite Ht.
    destruct (decide (i = j)) as [->|Hn]; [right; apply elem_of_app; right; by apply list_elem_of_singleton|].
    destruct D as [D|D]; [by left|right; apply elem_of_app; by left].
  - apply I.
  - intros h j Hj. destruct (inv_chain c I h j Hj) as (A & B & D). split_and!; [done..|]. rewrite Ht.
    destruct (decide (i = j)) as [->|Hn]; [|done]. change (get (set_timer j None c) j) with (get c j) in *. congruence.
Qed.
Lemma inv_taken c i l h t g : frag_inv c -> freeList c = i :: l -> valid (g empty_entry) = true ->
  rtk_fc_ipFrag_hashFunc (info (g empty_entry)) = Some h ->
  frag_inv (set_timer i (Some t) (add_chain h i (list_del_init i (upd_entry i g c)))).
Proof.
  intros I Ef Hv Hh. assert (i ∈ freeList c) as Hf by (rewrite Ef; apply list_elem_of_here).
  assert ((i < frag_count)%nat) as Hb by (apply (inv_bound c i I), in_all; by left).
  pose proof (frag_hash_bound _ _ Hh) as Hl. rewrite <- (inv_chains c I) in Hl.
  set (c1 := list_del_init i (upd_entry i g c)). assert ((h < length (hashList c1))%nat) as Hl1 by (simpl; by rewrite length_fmap).
  split.
  - simpl. by rewrite length_alter, (inv_ents c I).
  - simpl. by rewrite length_insert, (inv_timers c I).
  - simpl. by rewrite length_alter, length_fmap, (inv_chains c I).
  - unfold all. simpl. rewrite concat_alter_add by exact Hl1. rewrite without_concat. rewrite <- Permutation_middle.
    rewrite <- (inv_all c I), <- (without_perm i (all c) (all_nodup c I) (proj2 (inv_bound c i I) Hb)).
    unfold all, without. by rewrite filter_app.
  - apply I.
  - simpl. intros j Hj. apply without_spec in Hj as [Hj Hn]. change (get (upd_entry i g c) j = empty_entry).
    rewrite get_upd_ne by done. by apply (inv_free c I).
  - intros h' j Hj. apply (chain_added c1 h h' i j Hl1) in Hj.
    change (valid (get (upd_entry i g c) j) = true /\ rtk_fc_ipFrag_hashFunc (info (get (upd_entry i g c) j)) = Some h' /\
      (is_Some (nth j (timers (set_timer i (Some t) c)) None) \/ j ∈ waiting c)).
    rewrite (timer_set c i j (Some t) I Hb). destruct Hj as [Hj|[-> ->]].
    + apply (chain_without (upd_entry i g c) h' i j) in Hj as [Hj Hn]. rewrite get_upd_ne, decide_False by done. by apply (inv_chain c I h' j).
    + rewrite (get_upd_eq c i g I Hb), decide_True by done. rewrite (inv_free c I i Hf). split_and!; [done..|by left].
Qed.

Lemma find_in_some k l c i : find_in k l c = Some i -> i ∈ l /\ info (get c i) = k.
Proof. unfold find_in. intros H. apply find_some in H as [Hi E]. apply bool_decide_eq_true in E. by apply list_elem_of_In in Hi. Qed.
Lemma find_in_none k l c : find_in k l c = None -> forall i, i ∈ l -> info (get c i) <> k.
Proof. unfold find_in. intros H i Hi. apply list_elem_of_In in Hi. pose proof (find_none _ _ H i Hi) as E. by apply bool_decide_eq_false in E. Qed.
Lemma fill_key h p e : valid (fill_entry h p e) = true /\ info (fill_entry h p e) = info_of h.
Proof. unfold fill_entry. destruct (tcph p), (udph p); done. Qed.
Lemma note_key h p e : valid (note_packet h p e) = valid e /\ info (note_packet h p e) = info e.
Proof. done. Qed.
Lemma pending_bound c i t : frag_inv c -> nth i (timers c) None = Some t -> (i < frag_count)%nat.
Proof.
  intros I E. rewrite <- (inv_timers c I). rewrite nth_lookup in E. destruct (timers c !! i) eqn:El; [|done]. by eapply lookup_lt_Some.
Qed.
Lemma chain_bound c h i : frag_inv c -> on_chain c h i -> (i < frag_count)%nat.
Proof. intros I Hi. apply (inv_bound c i I), in_all. right. by exists h. Qed.
Lemma frag_step_inv ev s : frag_inv s.2 -> frag_inv (frag_step ev s).2.
Proof.
  destruct s as [now c]. intros I. simpl in I. destruct ev as [p k|p|p k|k|k|t|i|i]; simpl.
  - unfold rtk_fc_ipFrag_cache_add. destruct (iph p) as [h|]; [|done]. destruct (_ <=? _); [done|].
    destruct (rtk_fc_ipFrag_hashFunc (info_of h)) as [hash|] eqn:Eh; [|done]. destruct (freeList c) as [|i l] eqn:Ef; [done|].
    simpl. destruct (fill_key h p empty_entry) as [V E]. apply (inv_taken c i l hash); [done..|by rewrite E].
  - unfold rtk_fc_negative_ipFrag_cache_add. destruct (iph p) as [h|]; [|done]. destruct (_ <=? _); [done|].
    destruct (rtk_fc_ipFrag_hashFunc (info_of h)) as [hash|] eqn:Eh; [|done]. destruct (freeList c) as [|i l] eqn:Ef; [done|].
    by apply (inv_taken c i l hash).
  - unfold rtk_fc_ipFrag_cache_find. destruct (iph p) as [h|]; [|done].
    destruct (rtk_fc_ipFrag_hashFunc (info_of h)) as [hash|]; [|done]. destruct (find_in _ _ _) as [i|] eqn:Ei; [|done].
    apply find_in_some in Ei as [Hi _]. simpl. by apply (inv_note c i hash).
  - unfold rtk_fc_ipfrag_ingress_del_cache. destruct (find_in _ _ _) as [i|] eqn:Ei; [|done].
    apply find_in_some in Ei as [Hi _]. assert (frag_inv (upd_entry i count_data c)) as I1 by (by apply (inv_note c i (hash_idx k))).
    simpl. destruct (complete _); [|done]. apply inv_freed; [done|]. by eapply chain_bound.
  - unfold shortcut_del, rtk_fc_ipfrag_shortcut_find_cache. destruct (find_in _ _ _) as [i|] eqn:Ei; [|done].
    apply find_in_some in Ei as [Hi _]. apply inv_freed; [done|]. by eapply chain_bound.
  - done.
  - destruct (nth i (timers c) None) as [t|] eqn:Et; [|done]. destruct (_ && _); [|done].
    apply (inv_fired c i I). by eapply pending_bound.
  - destruct (bool_decide_reflect (i ∈ waiting c)) as [Hi|]; [|done]. by apply inv_locked.
Qed.
Lemma frag_init_inv : frag_inv frag_init.
Proof.
  assert (forall l : list nat, concat (replicate (Z.to_nat max_hash_size) ([] : list nat)) = []) as E.
  { intros _. induction (Z.to_nat max_hash_size); [done|]. simpl. by rewrite IHn. }
  split; simpl; rewrite ?length_replicate; try done.
  - unfold all. simpl. by rewrite (E []), app_nil_r.
  - intros i Hi. unfold get. simpl. rewrite nth_lookup. apply elem_of_seq in Hi. by rewrite lookup_replicate_2 by lia.
  - intros h i Hi. unfold on_chain in Hi. rewrite chain_lookup in Hi. simpl in Hi.
    destruct (replicate _ _ !! h) eqn:El; [|by apply elem_of_nil in Hi]. apply lookup_replicate in El as [-> _]. by apply elem_of_nil in Hi.
Qed.
Lemma frag_run_inv es s : frag_inv s.2 -> frag_inv (frag_run es s).2.
Proof. revert s. induction es as [|e es IH]; [done|]. intros s I. simpl. by apply IH, frag_step_inv. Qed.

(** ** Who holds a datagram *)

Definition holder (k : frag_info) (c : frag_cache) (i : nat) : Prop := (exists h, on_chain c h i) /\ info (get c i) = k.
Definition nobody (k : frag_info) (c : frag_cache) : Prop := forall i, ~ holder k c i.
Definition only (k : frag_info) (c : frag_cache) (i : nat) : Prop := holder k c i /\ forall j, holder k c j -> j = i.

Lemma holder_chain k c i h : frag_inv c -> holder k c i -> rtk_fc_ipFrag_hashFunc k = Some h -> on_chain c h i.
Proof. intros I [[h' Hc] E] Hk. destruct (inv_chain c I h' i Hc) as (_ & Eh & _). by rewrite E, Hk in Eh; injection Eh as <-. Qed.
Lemma frag_find_holder k c h : frag_inv c -> rtk_fc_ipFrag_hashFunc k = Some h ->
  match find_in k (chain h c) c with Some i => holder k c i | None => nobody k c end.
Proof.
  intros I Hk. destruct (find_in _ _ _) as [i|] eqn:E.
  - apply find_in_some in E as [Hi E]. split; [by exists h|done].
  - intros i Hi. exact (find_in_none _ _ _ E i (holder_chain k c i h I Hi Hk) (proj2 Hi)).
Qed.
Lemma find_only k c h i : frag_inv c -> only k c i -> rtk_fc_ipFrag_hashFunc k = Some h -> find_in k (chain h c) c = Some i.
Proof.
  intros I [H U] Hk. pose proof (frag_find_holder k c h I Hk) as F. destruct (find_in _ _ _) as [j|]; [by f_equal; apply U|]. by destruct (F i).
Qed.

(** What a step does to the holders of a key. *)
Lemma holder_noted k c i g j : frag_inv c -> (exists h, on_chain c h i) -> (forall e, info (g e) = info e) ->
  holder k (upd_entry i g c) j <-> holder k c j.
Proof.
  intros I [h Hi] Hg. assert (get (upd_entry i g c) j = if decide (i = j) then g (get c j) else get c j) as E.
  { destruct (decide (i = j)) as [<-|Hn]; [|by rewrite get_upd_ne]. apply get_upd_eq; [done|]. by eapply chain_bound. }
  unfold holder. rewrite E. change (on_chain (upd_entry i g c)) with (on_chain c). destruct (decide (i = j)); [by rewrite Hg|done].
Qed.
Lemma del_chain c i h j : on_chain (rtk_fc_ipFrag_cache_del i c) h j <-> on_chain c h j /\ j <> i.
Proof. exact (chain_without (upd_entry i (fun _ => empty_entry) (set_timer i None c)) h i j). Qed.
Lemma holder_freed k c i j : holder k (rtk_fc_ipFrag_cache_del i c) j <-> holder k c j /\ j <> i.
Proof.
  unfold holder. setoid_rewrite del_chain. split.
  - intros [(h & Hc & Hn) E]. change (info (get (upd_entry i (fun _ => empty_entry) c) j) = k) in E. rewrite get_upd_ne in E by done. eauto.
  - intros [[(h & Hc) E] Hn]. split; [by exists h|]. change (info (get (upd_entry i (fun _ => empty_entry) c) j) = k). by rewrite get_upd_ne.
Qed.
Lemma holder_taken k c i l h t g j : frag_inv c -> freeList c = i :: l -> rtk_fc_ipFrag_hashFunc (info (g empty_entry)) = Some h ->
  holder k (set_timer i (Some t) (add_chain h i (list_del_init i (upd_entry i g c)))) j <->
  (j = i /\ info (g empty_entry) = k) \/ (j <> i /\ holder k c j).
Proof.
  intros I Ef Hh. assert (i ∈ freeList c) as Hf by (rewrite Ef; apply list_elem_of_here).
  assert ((i < frag_count)%nat) as Hb by (apply (inv_bound c i I), in_all; by left).
  pose proof (frag_hash_bound _ _ Hh) as Hl. rewrite <- (inv_chains c I) in Hl.
  set (c1 := list_del_init i (upd_entry i g c)). assert ((h < length (hashList c1))%nat) as Hl1 by (simpl; by rewrite length_fmap).
  assert (forall h' j, on_chain (set_timer i (Some t) (add_chain h i c1)) h' j <-> (on_chain c h' j /\ j <> i) \/ (h' = h /\ j = i)) as Hc.
  { intros h' j'. etransitivity; [exact (chain_added c1 h h' i j' Hl1)|]. f_equiv. exact (chain_without (upd_entry i g c) h' i j'). }
  unfold holder. setoid_rewrite Hc. change (get (set_timer i (Some t) (add_chain h i c1)) j) with (get (upd_entry i g c) j).
  destruct (decide (j = i)) as [->|Hn].
  - rewrite (get_upd_eq c i g I Hb), (inv_free c I i Hf). split.
    + intros [_ E]. by left.
    + intros [[_ E]|[Hn _]]; [|done]. split; [exists h; by right|done].
  - rewrite get_upd_ne by done. split.
    + intros [(h' & [[Hc' _]|[_ ->]]) E]; [|done]. right. split; [done|]. split; [by exists h'|done].
    + intros [[-> _]|(_ & (h' & Hc') & E)]; [done|]. split; [exists h'; by left|done].
Qed.

(** ** Events of other datagrams *)

Definition other (k : frag_info) (ev : frag_event) : Prop :=
  match ev with
  | FragAdd p _ | FragNegAdd p | FragFind p _ => forall h, iph p = Some h -> info_of h <> k
  | FragCount e | FragGiveUp e => info e <> k
  | FragTime _ | FragFire _ | FragLock _ => True
  end.
(** The holders of the key, their contents, their timers and handlers stay. *)
Definition undisturbed (k : frag_info) (c c' : frag_cache) : Prop :=
  forall j, (holder k c' j <-> holder k c j) /\
    (holder k c j -> get c' j = get c j /\ nth j (timers c') None = nth j (timers c) None /\ (j ∈ waiting c' <-> j ∈ waiting c)).
(** No timer of a holder is due, and no handler waits to free one. *)
Definition not_due (k : frag_info) (now : Z) (c : frag_cache) : Prop :=
  forall i, holder k c i -> i ∉ waiting c /\ forall t, nth i (timers c) None = Some t -> now < t.

Lemma undisturbed_refl k c : undisturbed k c c.
Proof. by split. Qed.
Lemma taken_undisturbed k c i l h t g : frag_inv c -> freeList c = i :: l -> rtk_fc_ipFrag_hashFunc (info (g empty_entry)) = Some h ->
  info (g empty_entry) <> k -> undisturbed k c (set_timer i (Some t) (add_chain h i (list_del_init i (upd_entry i g c)))).
Proof.
  intros I Ef Hh Hk j. rewrite (holder_taken k c i l h t g j I Ef Hh).
  assert (i ∈ freeList c) as Hf by (rewrite Ef; apply list_elem_of_here).
  assert ((i < frag_count)%nat) as Hb by (apply (inv_bound c i I), in_all; by left).
  assert (holder k c j -> j <> i) as Hn.
  { intros [[h' Hc] _] ->. by apply (free_not_chain c i h' I). }
  split; [naive_solver|]. intros Hj. change (get (upd_entry i g c) j = get c j /\
    nth j (timers (set_timer i (Some t) c)) None = nth j (timers c) None /\ (j ∈ waiting c <-> j ∈ waiting c)).
  specialize (Hn Hj). by rewrite get_upd_ne, (timer_set c i j (Some t) I Hb), decide_False by done.
Qed.
Lemma noted_undisturbed k c i h g : frag_inv c -> on_chain c h i -> (forall e, info (g e) = info e) -> info (get c i) <> k ->
  undisturbed k c (upd_entry i g c).
Proof.
  intros I Hi Hg Hk j. rewrite (holder_noted k c i g j I) by (by eauto). split; [done|]. intros [_ E].
  split; [|done]. apply get_upd_ne. intros ->. done.
Qed.
Lemma freed_undisturbed k c i : frag_inv c -> (i < frag_count)%nat -> ~ holder k c i -> undisturbed k c (rtk_fc_ipFrag_cache_del i c).
Proof.
  intros I Hb Hk j. rewrite holder_freed. split; [naive_solver|]. intros Hj. assert (i <> j) as Hn by congruence.
  change (get (upd_entry i (fun _ => empty_entry) c) j = get c j /\
    nth j (timers (set_timer i None c)) None = nth j (timers c) None /\ (j ∈ waiting c <-> j ∈ waiting c)).
  by rewrite get_upd_ne, (timer_set c i j None I Hb), decide_False by done.
Qed.
Lemma locked_undisturbed k c i : ~ holder k c i -> undisturbed k c (timeout_locked i c).2.
Proof.
  intros Hk j. set (c' := (timeout_locked i c).2).
  assert (forall h, on_chain c' h j <-> on_chain c h j /\ j <> i) as Hc.
  { intros h. exact (chain_without (upd_entry i (fun _ => empty_entry) (set_waiting (without i (waiting c)) c)) h i j). }
  assert (j <> i -> get c' j = get c j) as Hg.
  { intros Hn. change (get (upd_entry i (fun _ => empty_entry) c) j = get c j). by apply get_upd_ne. }
  assert (holder k c' j <-> holder k c j /\ j <> i) as Hh.
  { unfold holder. setoid_rewrite Hc. split.
    - intros [(h & Hj & Hn) E]. rewrite Hg in E by done. eauto.
    - intros [[(h & Hj) E] Hn]. rewrite Hg by done. eauto. }
  rewrite Hh. split; [naive_solver|]. intros Hj. assert (j <> i) as Hn by (intros ->; done).
  split; [by apply Hg|]. split; [done|]. change (j ∈ without i (waiting c) <-> j ∈ waiting c). rewrite without_spec. tauto.
Qed.
Lemma fired_undisturbed k c i : frag_inv c -> (i < frag_count)%nat -> ~ holder k c i ->
  undisturbed k c (rtk_fc_ipFrag_cache_timeout i (set_timer i None c)).2.
Proof.
  intros I Hb Hk j. unfold rtk_fc_ipFrag_cache_timeout. change (get (set_timer i None c) i) with (get c i).
  assert (forall w, (holder k (set_waiting w (set_timer i None c)) j <-> holder k c j)) as Hh by done.
  destruct (valid _); (split; [done|]; intros Hj; assert (i <> j) as Hn by congruence; split; [done|]; split;
    [change (nth j (timers (set_timer i None c)) None = nth j (timers c) None);
     by rewrite (timer_set c i j None I Hb), decide_False|]); [|done].
  simpl. rewrite elem_of_app, list_elem_of_singleton. naive_solver.
Qed.
Lemma undisturbed_trans k c1 c2 c3 : undisturbed k c1 c2 -> undisturbed k c2 c3 -> undisturbed k c1 c3.
Proof.
  intros H1 H2 j. destruct (H1 j) as [A1 B1], (H2 j) as [A2 B2]. split; [by rewrite A2|]. intros Hj.
  destruct (B1 Hj) as (<- & <- & <-). apply B2. by apply A1.
Qed.
Lemma other_undisturbed k ev now c : frag_inv c -> other k ev -> not_due k now c -> undisturbed k c (frag_step ev (now, c)).2.
Proof.
  intros I Ho Hd. destruct ev as [p e|p|p e|e|e|t|i|i]; simpl in *.
  - unfold rtk_fc_ipFrag_cache_add. destruct (iph p) as [h|]; [|done]. destruct (_ <=? _); [done|].
    destruct (rtk_fc_ipFrag_hashFunc (info_of h)) as [hash|] eqn:Eh; [|done]. destruct (freeList c) as [|i l] eqn:Ef; [done|].
    simpl. destruct (fill_key h p empty_entry) as [_ E]. apply (taken_undisturbed k c i l hash); rewrite ?E; auto.
  - unfold rtk_fc_negative_ipFrag_cache_add. destruct (iph p) as [h|]; [|done]. destruct (_ <=? _); [done|].
    destruct (rtk_fc_ipFrag_hashFunc (info_of h)) as [hash|] eqn:Eh; [|done]. destruct (freeList c) as [|i l] eqn:Ef; [done|].
    apply (taken_undisturbed k c i l hash); [done..|]. simpl. by apply Ho.
  - unfold rtk_fc_ipFrag_cache_find. destruct (iph p) as [h|]; [|done].
    destruct (rtk_fc_ipFrag_hashFunc (info_of h)) as [hash|]; [|done]. destruct (find_in _ _ _) as [i|] eqn:Ei; [|done].
    apply find_in_some in Ei as [Hi E]. simpl. apply (noted_undisturbed k c i hash); [done..|]. rewrite E. auto.
  - unfold rtk_fc_ipfrag_ingress_del_cache. destruct (find_in _ _ _) as [i|] eqn:Ei; [|done].
    apply find_in_some in Ei as [Hi E]. assert (undisturbed k c (upd_entry i count_data c)) as U
      by (apply (noted_undisturbed k c i (hash_idx e)); [done..|congruence]).
    simpl. destruct (complete _); [|done]. eapply undisturbed_trans; [exact U|]. apply freed_undisturbed.
    + by apply (inv_note c i (hash_idx e)).
    + by eapply chain_bound.
    + rewrite (holder_noted k c i count_data i I) by (by eauto). intros [_ E']. congruence.
  - unfold shortcut_del, rtk_fc_ipfrag_shortcut_find_cache. destruct (find_in _ _ _) as [i|] eqn:Ei; [|done].
    apply find_in_some in Ei as [Hi E]. apply freed_undisturbed; [done|by eapply chain_bound|]. intros [_ E']. congruence.
  - done.
  - destruct (nth i (timers c) None) as [t|] eqn:Et; [|done]. destruct (Z.leb_spec t now); [|done]. cbn [andb].
    destruct (negb _); [|done]. apply (fired_undisturbed k c i I); [by eapply pending_bound|].
    intros Hk. pose proof (proj2 (Hd i Hk) t Et). lia.
  - destruct (bool_decide_reflect (i ∈ waiting c)) as [Hi|]; [|done]. apply locked_undisturbed. intros Hk. by apply (Hd i Hk).
Qed.

(** ** A datagram in fragments *)

Definition data_of (p : packet) : Z := match iph p with Some h => ip_data_len h | None => 0 end.
Definition total_of (ps : list packet) : Z := foldr (fun p z => data_of p + z) 0 ps.
(** A fragment after the first: no UDP header, and some data. *)
Definition later_frag (k : frag_info) (p : packet) : Prop :=
  exists h, iph p = Some h /\ info_of h = k /\ udph p = None /\ 0 < ip_data_len h.
(** The events of one datagram among those of others: each fragment is looked up and then
    counted; [true] while a fragment waits to be counted. *)
Inductive datagram (k : frag_info) : bool -> list packet -> list frag_event -> Prop :=
| dg_end : datagram k false [] []
| dg_other b ps ev es : other k ev -> datagram k b ps es -> datagram k b ps (ev :: es)
| dg_find p ps e es : later_frag k p -> datagram k true ps es -> datagram k false (p :: ps) (FragFind p e :: es)
| dg_count ps e es : info e = k -> rtk_fc_ipFrag_hashFunc k = Some (hash_idx e) -> datagram k false ps es ->
    datagram k true ps (FragCount e :: es).
(** What the lookups of a datagram's fragments answer. *)
Definition answer (k : frag_info) (ev : frag_event) (s : frag_state) : list (frag_ret * Z * Z) :=
  match ev with
  | FragFind p e =>
      if bool_decide ((info_of <$> iph p) = Some k)
      then let '(r, e', _) := rtk_fc_ipFrag_cache_find p e s.2 in [(r, src_port e', dst_port e')] else []
  | _ => []
  end.
Fixpoint answers (k : frag_info) (es : list frag_event) (s : frag_state) : list (frag_ret * Z * Z) :=
  match es with [] => [] | ev :: es => answer k ev s ++ answers k es (frag_step ev s) end.
Definition before (t : Z) (ev : frag_event) : Prop := match ev with FragTime x => x < t | _ => True end.

(** The entry of a datagram of [total] bytes, [ps] still to come. *)
Record live (k : frag_info) (sp dp total t : Z) (b : bool) (ps : list packet) (c : frag_cache) (i : nat) : Prop := {
  live_only : only k c i;
  live_timer : nth i (timers c) None = Some t /\ i ∉ waiting c;
  live_ports : src_port (get c i) = sp /\ dst_port (get c i) = dp;
  live_total : total_data_len (get c i) = total;
  live_rcv : 0 <= rcv_data_len (get c i);
  live_left : if b then 0 < tmp_data_len (get c i) /\ rcv_data_len (get c i) + tmp_data_len (get c i) + total_of ps = total
              else rcv_data_len (get c i) + total_of ps = total /\ ps <> [] }.

Lemma step_time ev now c t : before t ev -> now < t -> (frag_step ev (now, c)).1 < t.
Proof.
  destruct ev as [| | | | |x|i|i]; simpl; try done; [lia|..]; intros _ Hn.
  - destruct (nth i (timers c) None) as [y|]; [|done]. by destruct (_ && _).
  - by destruct (bool_decide _).
Qed.
Lemma answer_other k ev s : other k ev -> answer k ev s = [].
Proof.
  destruct ev as [| |p e| | | | |]; try done. simpl. intros Ho. destruct (iph p) as [h|]; [|done]. simpl.
  rewrite bool_decide_false; [done|]. intros [= E]. by apply (Ho h).
Qed.
Lemma live_not_due k sp dp total t b ps c i now : live k sp dp total t b ps c i -> now < t -> not_due k now c.
Proof. intros [[_ U] [Ht Hw] _ _ _ _] Hn j Hj. rewrite (U j Hj), Ht. split; [done|]. by intros t' [= <-]. Qed.
Lemma live_undisturbed k sp dp total t b ps c c' i : live k sp dp total t b ps c i -> undisturbed k c c' -> live k sp dp total t b ps c' i.
Proof.
  intros [[Ho U] Ht Hp Htot Hr Hl] Hu. destruct (Hu i) as [A B]. destruct (B Ho) as (E1 & E2 & E3).
  split; rewrite ?E1, ?E2, ?E3; try done. split; [by apply A|]. intros j Hj. apply U. by apply (Hu j).
Qed.
Lemma total_nonneg k ps b es : datagram k b ps es -> Forall (later_frag k) ps /\ 0 <= total_of ps.
Proof.
  induction 1 as [|b ps ev es _ _ IH|p ps e es Hp _ [IH1 IH2]|ps e es _ _ _ IH]; try done.
  split; [by constructor|]. simpl. destruct Hp as (h & E & _ & _ & Hd). unfold data_of. rewrite E. lia.
Qed.

Lemma later_total k ps : Forall (later_frag k) ps -> 0 <= total_of ps.
Proof. induction 1 as [|q ps (h & E & _ & _ & Hd) _ IH]; [done|]. simpl. unfold data_of. rewrite E. lia. Qed.
Lemma find_live k sp dp total t p ps e now c i : frag_inv c -> total < 2 ^ 16 -> 0 <= total_of ps -> later_frag k p ->
  live k sp dp total t false (p :: ps) c i ->
  answer k (FragFind p e) (now, c) = [(RTK_FC_RET_OK, sp, dp)] /\
  live k sp dp total t true ps (frag_step (FragFind p e) (now, c)).2 i.
Proof.
  intros I HT Hps (h & Eh & Ek & Eu & Hd) [Ho Ht [Hs Hp] Htot Hr [Hl _]].
  destruct (frag_hash_some k) as [hash Hk]. pose proof (find_only k c hash i I Ho Hk) as Ef.
  unfold answer, frag_step, rtk_fc_ipFrag_cache_find. rewrite Eh. simpl. rewrite Ek, Hk, Ef, bool_decide_true by done. simpl.
  split; [by rewrite Hs, Hp|]. assert (on_chain c hash i) as Hc by (exact (holder_chain k c i hash I (proj1 Ho) Hk)).
  assert ((i < frag_count)%nat) as Hb by (by eapply chain_bound).
  simpl in Hl. unfold data_of in Hl. rewrite Eh in Hl.
  assert (wrap (ip_data_len h) = ip_data_len h) as Ew by (apply wrap_small; lia).
  split; try done; rewrite ?(get_upd_eq c i _ I Hb); unfold note_packet; rewrite ?Eu, ?Ew; simpl; try done; [|lia].
  destruct Ho as [Ho U]. split; [by apply (holder_noted k c i _ i I); [exists hash|..]|].
  intros j Hj. apply U. apply (holder_noted k c i _ j I) in Hj; [done|by exists hash|done].
Qed.
Lemma count_live k sp dp total t ps e now c i : frag_inv c -> total < 2 ^ 16 -> Forall (later_frag k) ps ->
  info e = k -> rtk_fc_ipFrag_hashFunc k = Some (hash_idx e) -> live k sp dp total t true ps c i ->
  let c' := (frag_step (FragCount e) (now, c)).2 in
  if bool_decide (ps = []) then nobody k c' else live k sp dp total t false ps c' i.
Proof.
  intros I HT Hps Ek Hk [Ho Ht [Hs Hp] Htot Hr [Htmp Hl]]. pose proof (find_only k c (hash_idx e) i I Ho Hk) as Ef.
  simpl. unfold rtk_fc_ipfrag_ingress_del_cache. rewrite Ek, Ef. simpl.
  assert (on_chain c (hash_idx e) i) as Hc by (exact (holder_chain k c i _ I (proj1 Ho) Hk)).
  assert ((i < frag_count)%nat) as Hb by (by eapply chain_bound).
  assert (0 <= total_of ps /\ (total_of ps = 0 <-> ps = [])) as [Hnn Hz].
  { pose proof (later_total _ _ Hps) as Hn. destruct Hps as [|p ps (h & E & _ & _ & Hd) Hps]; [done|].
    pose proof (later_total _ _ Hps). change (total_of (p :: ps)) with (data_of p + total_of ps) in *. unfold data_of in *.
    rewrite E in *. split; [lia|]. split; [intros; lia|done]. }
  assert (get (upd_entry i count_data c) i = set_lens (rcv_data_len (get c i) + tmp_data_len (get c i)) total 0 (get c i)) as Eg.
  { rewrite (get_upd_eq c i _ I Hb). unfold count_data. by rewrite Htot, wrap_small by lia. }
  rewrite Eg. unfold complete. simpl. assert (forall j, holder k (upd_entry i count_data c) j <-> holder k c j) as Hh.
  { intros j. by apply (holder_noted k c i count_data j I); [exists (hash_idx e)|]. }
  destruct (decide (ps = [])) as [->|Hn].
  - rewrite bool_decide_true by done. simpl in Hl. rewrite (proj2 (Z.eqb_neq total 0)), (proj2 (Z.eqb_eq total _)) by lia. simpl.
    intros j Hj. apply holder_freed in Hj as [Hj Hn]. apply Hn. by apply Ho, Hh.
  - rewrite bool_decide_false by done. assert (total_of ps <> 0) by (by rewrite Hz).
    rewrite (proj2 (Z.eqb_neq total (_ + _))) by lia. rewrite andb_false_r. destruct Ho as [Ho U].
    split; rewrite ?Eg; simpl; try done; try lia; try (split; [lia|done]).
    split; [by apply Hh|]. intros j Hj. by apply U, Hh.
Qed.
Lemma run_cons ev es s : frag_run (ev :: es) s = frag_run es (frag_step ev s).
Proof. done. Qed.
(** Whatever comes in between, the fragments get the ports, and the entry is given back. *)
Lemma datagram_run k sp dp total t b ps es : datagram k b ps es -> total < 2 ^ 16 -> Forall (before t) es ->
  forall now c, frag_inv c -> now < t -> ((exists i, live k sp dp total t b ps c i) \/ b = false /\ ps = [] /\ nobody k c) ->
  answers k es (now, c) = replicate (length ps) (RTK_FC_RET_OK, sp, dp) /\
  nobody k (frag_run es (now, c)).2.
Proof.
  intros Hd HT. induction Hd as [|b ps ev es Ho Hd IH|p ps e es Hp Hd IH|ps e es Ek Hk Hd IH];
    intros Hf now c I Hn Hst; [..].
  - split; [done|]. destruct Hst as [[i [_ _ _ _ _ [_ ?]]]|(_ & _ & ?)]; done.
  - apply Forall_cons in Hf as [Hf1 Hf]. rewrite run_cons. cbn [answers]. rewrite answer_other by done. cbn [app].
    pose proof (frag_step_inv ev (now, c) I) as I1. pose proof (step_time ev now c t Hf1 Hn) as Hn1.
    assert (not_due k now c) as Hnd.
    { destruct Hst as [[i Hl]|(_ & _ & Hno)]; [by eapply live_not_due|]. intros j Hj. by destruct (Hno j). }
    pose proof (other_undisturbed k ev now c I Ho Hnd) as Hu. destruct (frag_step ev (now, c)) as [now1 c1]. cbn [fst snd] in *.
    apply (IH Hf now1 c1 I1 Hn1). destruct Hst as [[i Hl]|(-> & -> & Hno)].
    + left. exists i. by eapply live_undisturbed.
    + right. split_and!; try done. intros j Hj. apply (Hno j). by apply (Hu j).
  - apply Forall_cons in Hf as [Hf1 Hf]. destruct Hst as [[i Hl]|(_ & ? & _)]; [|done].
    destruct (total_nonneg k ps true es Hd) as [_ Hnn]. destruct (find_live k sp dp total t p ps e now c i I HT Hnn Hp Hl) as [Ea Hl1].
    rewrite run_cons. cbn [answers]. rewrite Ea. pose proof (frag_step_inv (FragFind p e) (now, c) I) as I1.
    pose proof (step_time (FragFind p e) now c t Hf1 Hn) as Hn1. destruct (frag_step (FragFind p e) (now, c)) as [now1 c1]. cbn [fst snd] in *.
    destruct (IH Hf now1 c1 I1 Hn1) as [E1 E2]; [left; by exists i|]. by rewrite E1.
  - apply Forall_cons in Hf as [Hf1 Hf]. destruct Hst as [[i Hl]|(? & _)]; [|done].
    destruct (total_nonneg k ps false es Hd) as [Hps _]. pose proof (count_live k sp dp total t ps e now c i I HT Hps Ek Hk Hl) as Hc.
    rewrite run_cons. cbn [answers]. change (answer k (FragCount e) (now, c)) with (@nil (frag_ret * Z * Z)). cbn [app].
    pose proof (frag_step_inv (FragCount e) (now, c) I) as I1. pose proof (step_time (FragCount e) now c t Hf1 Hn) as Hn1.
    destruct (frag_step (FragCount e) (now, c)) as [now1 c1]. cbn [fst snd] in *. apply (IH Hf now1 c1 I1 Hn1).
    destruct (decide (ps = [])) as [Hz|Hz]; [rewrite bool_decide_true in Hc by done; by right|].
    rewrite bool_decide_false in Hc by done. left. by exists i.
Qed.

(** ** Time-outs *)

Definition due_by (d : Z) (c : frag_cache) : Prop := forall i t, nth i (timers c) None = Some t -> t <= d.
Lemma due_weaken d d' c : d <= d' -> due_by d c -> due_by d' c.
Proof. intros Hd H i t E. specialize (H i t E). lia. Qed.
Lemma due_set d c i o : due_by d c -> (forall t, o = Some t -> t <= d) -> due_by d (set_timer i o c).
Proof.
  intros H Ho j t E. unfold set_timer in E. simpl in E. rewrite nth_lookup in E. destruct (decide (i = j)) as [<-|Hn].
  - destruct (decide (i < length (timers c))%nat) as [Hl|Hl].
    + rewrite list_lookup_insert_eq in E by done. by apply Ho.
    + rewrite list_insert_ge in E by lia. apply (H i t). by rewrite nth_lookup.
  - rewrite list_lookup_insert_ne in E by done. apply (H j t). by rewrite nth_lookup.
Qed.
Lemma due_step ev now c : due_by (now + cache_timeout) c -> let s := frag_step ev (now, c) in due_by (s.1 + cache_timeout) s.2.
Proof.
  intros H. assert (forall c', timers c' = timers c -> due_by (now + cache_timeout) c') as Hsame by (intros c' E i t; rewrite E; apply H).
  assert (forall i c', timers c' = timers (set_timer i None c) -> due_by (now + cache_timeout) c') as Hnone.
  { intros i c' E j t. rewrite E. by apply (due_set _ c i None). }
  destruct ev as [p e|p|p e|e|e|x|i|i]; simpl.
  - unfold rtk_fc_ipFrag_cache_add. destruct (iph p); [|done]. destruct (_ <=? _); [done|]. destruct (rtk_fc_ipFrag_hashFunc _); [|done].
    destruct (freeList c); [done|]. apply due_set; [by apply Hsame|]. intros t [= <-]. lia.
  - unfold rtk_fc_negative_ipFrag_cache_add. destruct (iph p); [|done]. destruct (_ <=? _); [done|]. destruct (rtk_fc_ipFrag_hashFunc _); [|done].
    destruct (freeList c); [done|]. apply due_set; [by apply Hsame|]. intros t [= <-]. lia.
  - unfold rtk_fc_ipFrag_cache_find. destruct (iph p); [|done]. destruct (rtk_fc_ipFrag_hashFunc _); [|done]. destruct (find_in _ _ _); [by apply Hsame|done].
  - unfold rtk_fc_ipfrag_ingress_del_cache. destruct (find_in _ _ _) as [i|]; [|done]. simpl. destruct (complete _); [by apply (Hnone i)|by apply Hsame].
  - unfold shortcut_del, rtk_fc_ipfrag_shortcut_find_cache. destruct (find_in _ _ _) as [i|]; [by apply (Hnone i)|done].
  - eapply due_weaken; [|exact H]. lia.
  - destruct (nth i (timers c) None) as [t|]; [|done]. destruct (_ && _); [|done]. simpl. unfold rtk_fc_ipFrag_cache_timeout.
    destruct (valid _); by apply (Hnone i).
  - destruct (bool_decide _); [by apply Hsame|done].
Qed.
Lemma due_run es s : due_by (s.1 + cache_timeout) s.2 -> due_by ((frag_run es s).1 + cache_timeout) (frag_run es s).2.
Proof. revert s. induction es as [|e es IH]; [done|]. intros [now c] H. rewrite run_cons. apply IH. by apply due_step. Qed.

(** When all pending timers are due and their handlers have run, every entry is free. *)
Definition run_out (i : nat) : list frag_event := [FragFire i; FragLock i].
Lemma expired i now c : frag_inv c -> due_by now c -> let s := frag_run (run_out i) (now, c) in
  s.1 = now /\ frag_inv s.2 /\ due_by now s.2 /\ forall h j, on_chain s.2 h j -> on_chain c h j /\ j <> i.
Proof.
  intros I H. cbv zeta. unfold run_out. rewrite run_cons. cbn [frag_run foldl].
  pose proof (frag_step_inv (FragFire i) (now, c) I) as I1.
  assert (exists c1, frag_step (FragFire i) (now, c) = (now, c1) /\ (forall h j, on_chain c1 h j <-> on_chain c h j) /\
    due_by now c1 /\ ((exists h, on_chain c h i) -> i ∈ waiting c1)) as (c1 & E1 & C1 & D1 & W1).
  { cbn [frag_step]. destruct (nth i (timers c) None) as [t|] eqn:Et.
    - rewrite (proj2 (Z.leb_le t now)) by (by apply (H i)). cbn [andb]. destruct (bool_decide_reflect (i ∈ waiting c)) as [Hw|Hw]; cbn [negb].
      + by exists c.
      + eexists. split; [reflexivity|]. unfold rtk_fc_ipFrag_cache_timeout. change (get (set_timer i None c) i) with (get c i).
        assert (due_by now (set_timer i None c)) as H1 by (by apply due_set).
        destruct (valid _) eqn:Ev; (split; [done|]; split; [exact H1|]; intros [h Hh]).
        * apply elem_of_app. right. by apply list_elem_of_singleton.
        * destruct (inv_chain c I h i Hh) as [V _]. congruence.
    - exists c. split_and!; try done. intros [h Hh]. destruct (inv_chain c I h i Hh) as (_ & _ & [[t E]|Hw]); [congruence|done]. }
  rewrite E1 in *. cbn [snd] in I1. pose proof (frag_step_inv (FragLock i) (now, c1) I1) as I2. cbn [frag_step] in *.
  destruct (bool_decide_reflect (i ∈ waiting c1)) as [Hw|Hw]; cbn [fst snd] in *.
  - split; [done|]. split; [done|]. split; [exact D1|]. intros h j Hj.
    apply (chain_without (upd_entry i (fun _ => empty_entry) (set_waiting (without i (waiting c1)) c1)) h i j) in Hj as [Hj Hn].
    split; [by apply C1|done].
  - split; [done|]. split; [done|]. split; [exact D1|]. intros h j Hj. apply C1 in Hj. split; [done|]. intros ->. apply Hw, W1. by exists h.
Qed.
Lemma frag_run_app es es' s : frag_run (es ++ es') s = frag_run es' (frag_run es s).
Proof. unfold frag_run. apply foldl_app. Qed.
Lemma expire_all l now c : frag_inv c -> due_by now c -> let s := frag_run (l ≫= run_out) (now, c) in
  frag_inv s.2 /\ forall h j, on_chain s.2 h j -> on_chain c h j /\ j ∉ l.
Proof.
  revert c. induction l as [|i l IH]; intros c I H; [split; [done|]; intros h j Hj; split; [done|apply not_elem_of_nil]|].
  cbn [mbind list_bind]. cbv zeta. rewrite frag_run_app. destruct (expired i now c I H) as (En & I1 & H1 & C1).
  destruct (frag_run (run_out i) (now, c)) as [n c1]. cbn [fst snd] in *. subst n. destruct (IH c1 I1 H1) as [I2 C2]. split; [done|].
  intros h j Hj. destruct (C2 h j Hj) as [Hj1 Hl]. destruct (C1 h j Hj1) as [Hj2 Hn]. split; [done|]. by apply not_elem_of_cons.
Qed.

(** ** Theorems *)

(** C32: whatever packets and timers do to the fragment cache, and whenever the handler of a
    timer gets the lock after it looked at its entry, every entry is on exactly one list,
    a free entry is empty, one on a chain is valid, belongs to that chain, and its timer
    is pending or a handler waits to free it, so that it does not stay for ever; a search
    finds an entry exactly if there is one. *)
Theorem frag_cache_stays_sound es now : let c := (frag_run es (now, frag_init)).2 in
  frag_inv c /\ forall p e h, iph p = Some h ->
    ((rtk_fc_ipFrag_cache_find p e c).1.1 = RTK_FC_RET_OK <-> exists i, holder (info_of h) c i).
Proof.
  intros c. assert (frag_inv c) as I by (apply frag_run_inv, frag_init_inv). split; [done|]. intros p e h Eh.
  unfold rtk_fc_ipFrag_cache_find. rewrite Eh. destruct (frag_hash_some (info_of h)) as [hash Hk]. rewrite Hk.
  pose proof (frag_find_holder _ c hash I Hk) as F. destruct (find_in _ _ _) as [i|]; simpl.
  - split; [intros _; by exists i|done].
  - split; [done|]. intros [i Hi]. by destruct (F i).
Qed.

(** C33: take a UDP datagram in fragments, none of them empty, with the length that its
    header says; the cache is not full, nobody holds its identification, and no handler of
    a timer waits to free the entry it takes with its first fragment.  If each later
    fragment is looked up and counted before the next one is looked up, and all of them
    before the time-out of the first, then all get the ports of the first, whatever other
    datagrams and timers do in between, and after the last of them the entry is given back. *)
Theorem fragments_follow_the_first k p0 h0 l0 e0 ps es now c i : frag_inv c -> nobody k c ->
  head (freeList c) = Some i -> i ∉ waiting c ->
  iph p0 = Some h0 -> info_of h0 = k -> tcph p0 = None -> udph p0 = Some l0 ->
  0 < ip_data_len h0 - 8 -> ip_data_len h0 - 8 + total_of ps = udp_len l0 - 8 -> udp_len l0 < 2 ^ 16 ->
  datagram k true ps es -> Forall (before (now + cache_timeout)) es ->
  let s := frag_step (FragAdd p0 e0) (now, c) in
  answers k es s = replicate (length ps) (RTK_FC_RET_OK, source l0, dest l0) /\ nobody k (frag_run es s).2.
Proof.
  intros I Hno Hf Hw Eh Ek Et Eu Hd Hsum Hlt Hdg Hb s.
  destruct (total_nonneg k ps true es Hdg) as [_ Hnn]. pose proof (frag_step_inv (FragAdd p0 e0) (now, c) I) as I1. fold s in I1.
  assert (exists c1, s = (now, c1) /\ exists i, live k (source l0) (dest l0) (udp_len l0 - 8) (now + cache_timeout) true ps c1 i) as (c1 & -> & Hl).
  2: { apply (datagram_run k _ _ (udp_len l0 - 8) (now + cache_timeout) true ps es Hdg ltac:(lia) Hb now c1 I1); [|by left].
       pose proof timeout_pos. lia. }
  unfold s. simpl. unfold rtk_fc_ipFrag_cache_add. rewrite Eh. pose proof timeout_pos. rewrite (proj2 (Z.leb_gt _ _)) by lia.
  destruct (frag_hash_some (info_of h0)) as [hash Hk]. rewrite Hk. destruct (freeList c) as [|i' l] eqn:Ef; [done|]. injection Hf as ->. simpl.
  eexists. split; [done|]. exists i. assert (i ∈ freeList c) as Hi by (rewrite Ef; apply list_elem_of_here).
  assert ((i < frag_count)%nat) as Hb1 by (apply (inv_bound c i I), in_all; by left).
  set (g := fill_entry h0 p0). destruct (fill_key h0 p0 empty_entry) as [V E]. fold g in V, E.
  assert (g empty_entry = FragEntry true false (source l0) (dest l0) 0 (udp_len l0 - 8) (ip_data_len h0 - 8) 0 k) as Eg.
  { unfold g, fill_entry. rewrite Et, Eu. unfold set_lens, set_ports, set_key. simpl. rewrite !wrap_small by lia. by rewrite Ek. }
  set (c2 := set_timer _ _ _). assert (get c2 i = g empty_entry) as E2.
  { change (get (upd_entry i g c) i = g empty_entry). by rewrite (get_upd_eq c i g I Hb1), (inv_free c I i Hi). }
  assert (forall j, holder k c2 j <-> (j = i /\ info (g empty_entry) = k) \/ (j <> i /\ holder k c j)) as Hh.
  { intros j. apply (holder_taken k c i l hash _ g j I Ef). by rewrite E. }
  split; rewrite ?E2, ?Eg; simpl; try done; [|..].
  - split; [apply Hh; left; by rewrite E|]. intros j Hj. apply Hh in Hj as [[? _]|[_ Hj]]; [done|]. by destruct (Hno j).
  - change (nth i (timers (set_timer i (Some (now + cache_timeout)) c)) None = Some (now + cache_timeout) /\ i ∉ waiting c).
    by rewrite (timer_set c i i _ I Hb1), decide_True.
Qed.

(** Fragments that are never completed do not fill the cache: from every state that can
    be reached, once the time-out has passed, the timers have fired and their handlers had
    the lock, all entries are free. *)
Theorem frag_cache_drains es now : let s := frag_run es (now, frag_init) in
  let s' := frag_run (FragTime (s.1 + cache_timeout) :: (seq 0 frag_count ≫= run_out)) s in
  freeList s'.2 ≡ₚ seq 0 frag_count /\ forall k, nobody k s'.2.
Proof.
  intros s. pose proof (frag_run_inv es (now, frag_init) frag_init_inv) as I. fold s in I.
  assert (due_by (s.1 + cache_timeout) s.2) as H.
  { apply due_run. intros i t E. simpl in E. rewrite nth_lookup in E. destruct (replicate _ _ !! i) eqn:El; [|done].
    by apply lookup_replicate in El as [-> _]. }
  rewrite run_cons. destruct s as [n c]. cbn [fst snd frag_step] in *. pose proof timeout_pos.
  replace (Z.max n (n + cache_timeout)) with (n + cache_timeout) by lia.
  destruct (expire_all (seq 0 frag_count) (n + cache_timeout) c I H) as (I2 & F).
  set (c' := (frag_run _ _).2) in *. assert (forall h i, ~ on_chain c' h i) as Hc.
  { intros h i Hi. destruct (F h i Hi) as [_ Hn]. apply Hn, elem_of_seq. pose proof (chain_bound c' h i I2 Hi). lia. }
  split; [|intros k i [[h Hi] _]; by apply (Hc h i)]. rewrite <- (inv_all c' I2). unfold all.
  assert (concat (hashList c') = []) as ->; [|by rewrite app_nil_r].
  apply elem_of_nil_inv. intros i Hi. apply in_chains in Hi as [h Hi]. by apply (Hc h i).
Qed.
End Spec.

(** ** A small cache to try: four chains, two entries each *)

#[local] Instance small_frag : FragConfig := {| max_hash_size := 4; max_hash_entry_size := 2; cache_timeout := 100; wrap := u16 |}.
#[local] Instance small_frag_laws : FragLaws small_frag.
Proof. split; [done..|]. intros z Hz. change (u16 z = z). unfold u16. by rewrite Z.mod_small. Qed.

(** A datagram of 24 bytes from port [sp] in two fragments of 16 and 8, and one more packet. *)
Definition frag_ip (id len : Z) : iphdr := IpHdr 0x45 0 (20 + len) id 0 64 17 0 0xc0a80102 0xc6336407 [].
Definition frag_pkt (id len : Z) (udp : option l4hdr) : packet :=
  Packet [] [] (Some (frag_ip id len)) None None udp None None false false
    (match udp with Some _ => RTK_FC_IP_FIRST_FRAG | None => RTK_FC_IP_LATER_FRAG end).
Definition frag_first (id sp : Z) : packet := frag_pkt id 24 (Some (L4Hdr sp 80 [0; 32] 0 [])).
Definition frag_second (id : Z) : packet := frag_pkt id 8 None.
Definition frag_key (id : Z) : frag_info := info_of (frag_ip id 0).
(** The packet's own copy of its entry. *)
Definition frag_copy (id : Z) : frag_entry :=
  set_hash (default 0%nat (rtk_fc_ipFrag_hashFunc (frag_key id))) (set_key (frag_key id) empty_entry).

Lemma frag_cache_stays_sound_witness : frag_inv (frag_run [FragAdd (frag_first 7 4000) empty_entry] (0, frag_init)).2.
Proof. exact (proj1 (frag_cache_stays_sound [FragAdd (frag_first 7 4000) empty_entry] 0)). Defined.
(** Between the fragments of datagram 7 comes the first one of datagram 8, which is counted. *)
Lemma fragments_follow_the_first_witness :
  let es := [FragCount (frag_copy 7); FragAdd (frag_first 8 5000) empty_entry; FragFind (frag_second 7) empty_entry;
             FragCount (frag_copy 8); FragTime 50; FragCount (frag_copy 7)] in
  let s := frag_step (FragAdd (frag_first 7 4000) empty_entry) (0, frag_init) in
  answers (frag_key 7) es s = [(RTK_FC_RET_OK, 4000, 80)] /\ nobody (frag_key 7) (frag_run es s).2.
Proof.
  intros es s. apply (fragments_follow_the_first (frag_key 7) (frag_first 7 4000) (frag_ip 7 24) (L4Hdr 4000 80 [0; 32] 0 []) empty_entry
    [frag_second 7] es 0 frag_init 0%nat); [| |reflexivity|apply not_elem_of_nil|reflexivity..| |].
  - exact frag_init_inv.
  - intros i [[h Hi] _]. pose proof (chain_lookup frag_init h) as E. unfold on_chain in Hi. rewrite E in Hi.
    destruct h as [|[|[|[|h]]]]; simpl in Hi; by apply elem_of_nil in Hi.
  - apply dg_count; [reflexivity|reflexivity|]. apply dg_other; [intros h [= <-]; discriminate|].
    apply dg_find; [exists (frag_ip 7 8); split; [reflexivity|split; [reflexivity|split; reflexivity]]|].
    apply dg_other; [discriminate|]. apply dg_other; [exact I|]. apply dg_count; [reflexivity|reflexivity|]. apply dg_end.
  - repeat (constructor; [first [exact I|reflexivity]|]). constructor.
Defined.
Lemma frag_cache_drains_witness :
  let s := frag_run [FragAdd (frag_first 7 4000) empty_entry] (0, frag_init) in
  freeList (frag_run (FragTime (s.1 + cache_timeout) :: (seq 0 frag_count ≫= run_out)) s).2 ≡ₚ seq 0 8.
Proof. exact (proj1 (frag_cache_drains [FragAdd (frag_first 7 4000) empty_entry] 0)). Defined.

(** The handler of the timer looks at [valid] without the lock: a new datagram that took the
    entry in the meantime loses it, and the free entry has its timer. *)
Example timeout_frees_a_new_datagram :
  let s1 := frag_run [FragAdd (frag_first 7 4000) empty_entry; FragTime 100; FragFire 0; FragGiveUp (frag_copy 7)] (0, frag_init) in
  let s2 := frag_run ((fun i => FragAdd (frag_first i 4000) empty_entry) <$> [11; 12; 13; 14; 15; 16; 17; 18]) s1 in
  let s3 := frag_step (FragLock 0) s2 in
  waiting s1.2 = [0%nat] /\ info (get s2.2 0) = frag_key 18 /\
  (rtk_fc_ipFrag_cache_find (frag_second 18) empty_entry s3.2).1.1 = RTK_FC_RET_ERR_ENTRY_NOT_FOUND /\
  freeList s3.2 = [0%nat] /\ nth 0 (timers s3.2) None = Some 200.
Proof. vm_compute. repeat split. Qed.
(** A datagram that uses the identification of one whose fragments were lost: the lookup
    of its first fragment keeps the old ports, and they answer its later fragments. *)
Example stale_ports :
  let c1 := (frag_step (FragAdd (frag_first 7 4000) empty_entry) (0, frag_init)).2 in
  let c2 := (rtk_fc_ipFrag_cache_find (frag_first 7 6000) empty_entry c1).2 in
  src_port (rtk_fc_ipFrag_cache_find (frag_second 7) empty_entry c2).1.2 = 4000.
Proof. vm_compute. reflexivity. Qed.
(** Two fragments looked up before either is counted: the second length is counted for both. *)
Example length_counted_for_another :
  let c1 := (frag_run [FragAdd (frag_first 7 4000) empty_entry; FragFind (frag_second 7) empty_entry;
                       FragCount (frag_copy 7); FragCount (frag_copy 7)] (0, frag_init)).2 in
  rcv_data_len (get c1 0) = 8 /\ total_data_len (get c1 0) = 24.
Proof. vm_compute. split; reflexivity. Qed.
(** A full cache takes nothing in, and says OK. *)
Example full_cache_says_ok :
  let c := (frag_run ((fun i => FragAdd (frag_first i 4000) empty_entry) <$> [1; 2; 3; 4; 5; 6; 7; 8]) (0, frag_init)).2 in
  rtk_fc_ipFrag_cache_add 0 (frag_first 9 4000) empty_entry c = (RTK_FC_RET_OK, empty_entry, c).
Proof. vm_compute. reflexivity. Qed.
