(* ===== verification/ShaperRing.v ===== *)
(** * The rings of the software shapers

    A shaper keeps the packets that wait in an array of slots, each marked as free or
    scheduled, with an index where the next packet is put and one where the oldest is
    ([queue], [free_idx], [sched_idx] in [FleetConntrackDriver/core/rtk_fc_internal.c] and
    in [romeDriver/rtk_rg_apollo_liteRomeDriver.c]).  The size is a power of two and the
    indices wrap by a mask.  The ring is a bounded queue: first in, first out. *)
From S2P Require Import Prelude.
Open Scope nat_scope.

Section Ring.
Context {A : Type}.

(** [SMP_WORK_STATE_SCHED] is [true]; a slot keeps its content when it is freed. *)
Record ring := Ring { slots : list (bool * option A); free_idx : nat; sched_idx : nat }.

Definition ring_init (n : nat) : ring := Ring (replicate n (false, None)) 0 0.
Definition slot (r : ring) (i : nat) : bool * option A := nth i (slots r) (false, None).
Definition next_idx (r : ring) (i : nat) : nat := Nat.land (i + 1) (length (slots r) - 1).
Definition full_at (r : ring) : bool := (slot r (free_idx r)).1.
(** A packet is put into the slot at [free_idx], which has to be free. *)
Definition ring_put (x : A) (r : ring) : ring :=
  Ring (<[free_idx r := (true, Some x)]> (slots r)) (next_idx r (free_idx r)) (sched_idx r).
(** The oldest packet, if the slot at [sched_idx] is in use. *)
Definition oldest (r : ring) : option A := if (slot r (sched_idx r)).1 then (slot r (sched_idx r)).2 else None.
Definition ring_free (r : ring) : ring :=
  Ring (alter (fun s => (false, s.2)) (sched_idx r) (slots r)) (free_idx r) (next_idx r (sched_idx r)).

(** ** The queue in a ring *)

Definition at_dist (r : ring) (k : nat) : nat := (sched_idx r + k) mod length (slots r).
Record holds (n : nat) (r : ring) (q : list A) : Prop := {
  holds_size : length (slots r) = n;
  holds_sched : sched_idx r < n;
  holds_room : length q <= n;
  holds_free : free_idx r = at_dist r (length q);
  holds_used : forall k x, q !! k = Some x -> slot r (at_dist r k) = (true, Some x);
  holds_rest : forall k, length q <= k < n -> (slot r (at_dist r k)).1 = false }.

Lemma holds_init n : 0 < n -> holds n (ring_init n) [].
Proof.
  intros Hn. assert (forall i, slot (ring_init n) i = (false, None)) as E.
  { intros i. unfold slot. simpl. rewrite nth_lookup. destruct (replicate _ _ !! i) eqn:El; [|done].
    by apply lookup_replicate in El as [-> _]. }
  split; simpl; rewrite ?length_replicate; try done; try lia.
  - unfold at_dist. simpl. rewrite length_replicate. by rewrite Nat.Div0.mod_0_l.
  - intros k Hk. by rewrite E.
Qed.

Lemma next_mod k r i : length (slots r) = 2 ^ k -> next_idx r i = (i + 1) mod length (slots r).
Proof.
  intros E. unfold next_idx. rewrite E. replace (2 ^ k - 1) with (Nat.ones k); [by rewrite Nat.land_ones|].
  by rewrite Nat.ones_equiv, Nat.sub_1_r.
Qed.
Lemma at_dist_lt n r q k : holds n r q -> 0 < n -> at_dist r k < n.
Proof. intros H Hn. unfold at_dist. rewrite (holds_size n r q H). apply Nat.mod_upper_bound. lia. Qed.
(** Slots at different distances below the size are different. *)
Lemma at_dist_inj n r q j k : holds n r q -> j < n -> k < n -> at_dist r j = at_dist r k -> j = k.
Proof.
  intros H Hj Hk. unfold at_dist. rewrite (holds_size n r q H). pose proof (holds_sched n r q H) as Hs. intros E.
  assert (forall x, x < n -> (sched_idx r + x) mod n = if decide (sched_idx r + x < n) then sched_idx r + x else sched_idx r + x - n) as M.
  { intros x Hx. destruct (decide _); [by apply Nat.mod_small|].
    replace (sched_idx r + x) with (sched_idx r + x - n + 1 * n) at 1 by lia. rewrite Nat.Div0.mod_add. apply Nat.mod_small. lia. }
  rewrite (M j Hj), (M k Hk) in E. repeat destruct (decide _) in E; lia.
Qed.

Lemma slot_put x r i : free_idx r < length (slots r) ->
  slot (ring_put x r) i = if decide (i = free_idx r) then (true, Some x) else slot r i.
Proof.
  intros Hb. unfold slot, ring_put. simpl. rewrite !nth_lookup. destruct (decide (i = free_idx r)) as [->|Hn].
  - by rewrite list_lookup_insert_eq.
  - by rewrite list_lookup_insert_ne.
Qed.
Lemma slot_freed r i : sched_idx r < length (slots r) ->
  slot (ring_free r) i = if decide (i = sched_idx r) then (false, (slot r i).2) else slot r i.
Proof.
  intros Hb. unfold slot, ring_free. simpl. rewrite !nth_lookup. destruct (decide (i = sched_idx r)) as [->|Hn].
  - rewrite list_lookup_alter_eq. destruct (lookup_lt_is_Some_2 (slots r) (sched_idx r) Hb) as [s ->]. done.
  - by rewrite list_lookup_alter_ne.
Qed.
End Ring.
Arguments ring : clear implicits.

Section Queue.
Context {A : Type} (k : nat) (r : ring A) (q : list A).
Let n := 2 ^ k.
Hypothesis H : holds n r q.

Lemma size_pos : 0 < n.
Proof. unfold n. pose proof (Nat.pow_nonzero 2 k). lia. Qed.
Lemma ring_full : full_at r = bool_decide (length q = n).
Proof.
  unfold full_at. rewrite (holds_free n r q H). case_bool_decide as E.
  - destruct q as [|x q'] eqn:Eq; [simpl in E; pose proof size_pos; lia|].
    assert (at_dist r (length (x :: q')) = at_dist r 0) as ->.
    { unfold at_dist. rewrite (holds_size n r _ H), E. replace (sched_idx r + n) with (sched_idx r + 0 + 1 * n) by lia.
      by rewrite Nat.Div0.mod_add. }
    by rewrite (holds_used n r _ H 0 x).
  - apply (holds_rest n r q H). pose proof (holds_room n r q H). lia.
Qed.
Lemma ring_oldest : oldest r = head q.
Proof.
  unfold oldest. assert (at_dist r 0 = sched_idx r) as E.
  { unfold at_dist. rewrite (holds_size n r q H), Nat.add_0_r. apply Nat.mod_small, (holds_sched n r q H). }
  destruct q as [|x q'] eqn:Eq; simpl.
  - pose proof (holds_rest n r _ H 0) as E2. rewrite E in E2. rewrite E2; [done|]. pose proof size_pos. simpl. lia.
  - pose proof (holds_used n r _ H 0 x eq_refl) as E2. rewrite E in E2. by rewrite E2.
Qed.
Lemma put_queue x : length q < n -> holds n (ring_put x r) (q ++ [x]).
Proof.
  intros Hr. pose proof size_pos as Hp. pose proof (holds_size n r q H) as Hs. pose proof (holds_free n r q H) as Hf.
  assert (free_idx r < length (slots r)) as Hb by (rewrite Hf, Hs; by apply (at_dist_lt n r q)).
  assert (forall j, at_dist (ring_put x r) j = at_dist r j) as D.
  { intros j. unfold at_dist. simpl. by rewrite length_insert. }
  split; [simpl; by rewrite length_insert|apply (holds_sched n r q H)|rewrite length_app; simpl; lia|..].
  - rewrite D. simpl. rewrite (next_mod k) by done. rewrite Hf, length_app. simpl. unfold at_dist.
    rewrite Nat.Div0.add_mod_idemp_l. f_equal. lia.
  - intros j y Hj. rewrite D, slot_put by done. rewrite Hf. apply lookup_snoc_Some in Hj as [[Hl Hj]|[-> ->]].
    + rewrite decide_False; [by apply (holds_used n r q H)|]. intros E. apply (at_dist_inj n r q) in E; [|done|lia|lia]. lia.
    + by rewrite decide_True.
  - intros j. rewrite length_app. simpl. intros Hj. rewrite D, slot_put by done. rewrite Hf, decide_False; [apply (holds_rest n r q H); lia|].
    intros E. apply (at_dist_inj n r q) in E; [|done|lia|lia]. lia.
Qed.
End Queue.

Lemma free_queue {A} k (r : ring A) x q : holds (2 ^ k) r (x :: q) -> holds (2 ^ k) (ring_free r) q.
Proof.
  set (n := 2 ^ k). intros H. pose proof (size_pos k) as Hp. fold n in Hp. pose proof (holds_size n r _ H) as Hs.
  pose proof (holds_sched n r _ H) as Hb. pose proof (holds_room n r _ H) as Hl. simpl in Hl.
  assert (forall j, at_dist (ring_free r) j = at_dist r (S j)) as D.
  { intros j. unfold at_dist. simpl. rewrite length_alter, (next_mod k), Hs by done. rewrite Nat.Div0.add_mod_idemp_l. f_equal. lia. }
  assert (at_dist r 0 = sched_idx r) as E0 by (unfold at_dist; rewrite Hs, Nat.add_0_r; by apply Nat.mod_small).
  assert (forall j, S j < n -> slot (ring_free r) (at_dist r (S j)) = slot r (at_dist r (S j))) as F.
  { intros j Hj. rewrite slot_freed by lia. rewrite decide_False; [done|]. intros E. rewrite <- E0 in E.
    apply (at_dist_inj n r (x :: q)) in E; [|done|lia|lia]. lia. }
  split; [simpl; by rewrite length_alter|simpl; rewrite (next_mod k), Hs by done; apply Nat.mod_upper_bound; lia|lia|..].
  - rewrite D. apply (holds_free n r _ H).
  - intros j y Hj. rewrite D, F; [by apply (holds_used n r _ H)|]. apply lookup_lt_Some in Hj. lia.
  - intros j Hj. rewrite D. destruct (decide (S j = n)) as [E|].
    + assert (at_dist r (S j) = sched_idx r) as ->.
      { unfold at_dist. rewrite Hs, E. replace (sched_idx r + n) with (sched_idx r + 1 * n) by lia.
        rewrite Nat.Div0.mod_add. by apply Nat.mod_small. }
      rewrite slot_freed by lia. by rewrite decide_True.
    + rewrite F by lia. apply (holds_rest n r _ H). simpl. lia.
Qed.
