(* ===== verification/FcShaper.v ===== *)
(** * The software shaper of the flow cache

    Packets of a host or a flow with a rate limit are counted by meters; what is over the
    limit waits in the ring of the slowest meter until a timer sends it
    ([rtk_fc_sw_shaper], [rtk_fc_sw_shaper_rate_couting],
    [rtk_fc_sw_shaper_kicktx_timerfunc] and the setting of the meters in
    [FleetConntrackDriver/core/rtk_fc_internal.c]).  The table that says which host has
    which meter, the switches of the driver and the network card are the class
    [ShaperConfig].  What leaves, what is put into a ring and what is counted is logged. *)
From S2P Require Import Prelude ShaperRing.
Open Scope Z_scope.

(** ** Packets *)

Record skb_ref := SkbRef { skb_id : Z; skb_len : Z }.
Inductive tx_priv :=
| NicTx (skb : skb_ref)
| WifiTx (wlandevidx outputQid : Z) (skb : skb_ref).
Definition skb_of (p : tx_priv) : skb_ref := match p with NicTx s | WifiTx _ _ s => s end.
Record tcp_flags := TcpFlags { syn : bool; fin : bool; rst : bool; ack : bool; urg : bool; ece : bool; cwr : bool; psh : bool; doff : Z }.
Inductive l3_len := V4 (tot_len ihl : Z) | V6 (payload_len : Z) | NoIp.
Record shaper_pkt := ShaperPkt {
  smacHostPolIdx : option nat;
  dmacHostPolIdx : option nat;
  skbLen_ingress : Z;
  skbLen_egress : Z;
  payloadLen : Z;
  skb_list_cnt : Z;
  flowIdx : option Z;
  swShaper : option nat;               (* remarkDec.swShaper_en, with meterIdx *)
  reason : Z;
  l3 : l3_len;
  tcph : option tcp_flags }.

Record bucket := Bucket {
  tx : tx_priv;
  b_smac : option Z;
  b_dmac : option Z;
  b_flow : option Z;
  b_reason : Z;
  b_payLoadLen : Z;
  b_pkt_cnt : Z }.
Record mib_info := MibInfo { rx_cpureason : Z; pkt_cnt : Z; skbLenIgr : Z; skbLenEgr : Z; mib_payloadLen : Z }.
Inductive shaper_log :=
| Queued (idx : nat) (p : tx_priv)
| Sent (from : option nat) (p : tx_priv)         (* from a ring, or directly *)
| NicBusy (from : option nat) (p : tx_priv)
| GemCount (p : tx_priv)
| MibCount (smac dmac flow : option Z) (c : mib_info).

(** ** Settings *)

Record host_info := HostInfo { hostPolConfList_idx : option nat; mib_count_control : bool }.
Record host_conf := HostConf {
  ingress_limit_by_swShaper : bool; ingress_limit_meter_hwIndex : nat;
  egress_limit_by_swShaper : bool; egress_limit_meter_hwIndex : nat }.
Class ShaperConfig := {
  RTK_FC_SW_SHAPING_JIFFIES : Z;
  CONFIG_HZ : Z;
  RTK_FC_SW_SHAPING_TIMER_TICK : Z;
  RTK_FC_SW_SHAPING_BURST_BYTES : Z;
  RTK_FC_MAX_SHAPING_QUEUE_SIZE : nat;
  OFFSET_FLOWMETER : nat;
  OFFSET_SWMETER : nat;
  RT_RATE_HOSTPOLICING_TABLE_SIZE : Z;
  SW_SHAPERMIB_UPDATE_BY_PKTLEN : Z;
  SW_SHAPERMIB_UPDATE_BY_PAYLOADLEN : Z;
  SW_SHAPER_UPDATE_BY_PKTLEN_MIB_UPDATE_BY_PAYLOADLEN : Z;
  SW_SHAPER_UPDATE_BY_PAYLOADLEN_MIB_UPDATE_BY_PKTLEN : Z;
  sw_shaperMib_update_mode_host : Z;
  sw_shaperMib_update_mode_flow : Z;
  tx_busy_to_ps : bool;
  gemFilter_conf_en : bool;
  hostPoliceInfoTable : nat -> host_info;
  hostPoliceConfList : nat -> host_conf;
  wrap : Z -> Z;                                   (* the width of a meter's counters *)
  (* does the network card take a packet, after what happened so far? *)
  nic_busy : list shaper_log -> tx_priv -> bool }.

Inductive shaper_ret := RTK_FC_RET_OK | RTK_FC_RET_ERR_OVER_RATE_LIMIT | RTK_FC_RET_NIC_TX_BUSY_TO_PS | RTK_FC_RET_DROP_SHAPING_RATE_LIMIT.
#[global] Instance shaper_ret_dec : EqDecision shaper_ret.
Proof. solve_decision. Defined.

(** ** Meters and controls *)

Record meter := Meter {
  rate : Z;
  ifgInclude : bool;
  lastJiffies : Z;
  byteCount : Z;
  packetCount : Z;
  lastBandwthByte_curInterval : Z;
  lastBandwthByte_preInterval : Z }.
Record ctrl := Ctrl {
  queue : ring bucket;
  congestion : bool;
  lastJiffies_kickTimer : Z;
  kicktxtimer : option Z;                          (* pending, with its time *)
  enququcnt : Z;
  pausetxcnt : Z }.
Record shaper := Shaper {
  jiffies : Z;
  l34Meter : list meter;
  swMeter : list meter;
  shapingCtrl : list ctrl;
  sent_log : list shaper_log }.                    (* the newest first *)

Section Shaper.
Context {C : ShaperConfig}.

Definition no_meter : meter := Meter 0 false 0 0 0 0 0.
Definition no_ctrl : ctrl := Ctrl (ring_init RTK_FC_MAX_SHAPING_QUEUE_SIZE) false 0 None 0 0.
Definition meter_of (idx : nat) (s : shaper) : meter :=
  if (idx <? OFFSET_SWMETER)%nat then nth (idx - OFFSET_FLOWMETER) (l34Meter s) no_meter
  else nth (idx - OFFSET_SWMETER) (swMeter s) no_meter.
Definition set_meter (idx : nat) (m : meter) (s : shaper) : shaper :=
  if (idx <? OFFSET_SWMETER)%nat
  then Shaper (jiffies s) (<[(idx - OFFSET_FLOWMETER)%nat := m]> (l34Meter s)) (swMeter s) (shapingCtrl s) (sent_log s)
  else Shaper (jiffies s) (l34Meter s) (<[(idx - OFFSET_SWMETER)%nat := m]> (swMeter s)) (shapingCtrl s) (sent_log s).
Definition ctrl_of (idx : nat) (s : shaper) : ctrl := nth idx (shapingCtrl s) no_ctrl.
Definition on_ctrl (idx : nat) (g : ctrl -> ctrl) (s : shaper) : shaper :=
  Shaper (jiffies s) (l34Meter s) (swMeter s) (alter g idx (shapingCtrl s)) (sent_log s).
Definition log (e : shaper_log) (s : shaper) : shaper :=
  Shaper (jiffies s) (l34Meter s) (swMeter s) (shapingCtrl s) (e :: sent_log s).

Definition set_congestion (b : bool) (c : ctrl) : ctrl :=
  Ctrl (queue c) b (lastJiffies_kickTimer c) (kicktxtimer c) (enququcnt c) (pausetxcnt c).
Definition set_timer (now : Z) (c : ctrl) : ctrl :=
  Ctrl (queue c) (congestion c) now (Some (u32 (now + RTK_FC_SW_SHAPING_TIMER_TICK))) (enququcnt c) (pausetxcnt c).
Definition stop_timer (c : ctrl) : ctrl :=
  Ctrl (queue c) (congestion c) (lastJiffies_kickTimer c) None (enququcnt c) (pausetxcnt c).
Definition count_sent (c : ctrl) : ctrl :=
  Ctrl (queue c) (congestion c) (lastJiffies_kickTimer c) (kicktxtimer c) (enququcnt c) (u32 (pausetxcnt c + 1)).
Definition take_oldest (c : ctrl) : ctrl :=
  Ctrl (ring_free (queue c)) (congestion c) (lastJiffies_kickTimer c) (kicktxtimer c) (enququcnt c) (pausetxcnt c).
Definition put_bucket (b : bucket) (c : ctrl) : ctrl :=
  Ctrl (ring_put b (queue c)) (congestion c) (lastJiffies_kickTimer c) (kicktxtimer c) (u32 (enququcnt c + 1)) (pausetxcnt c).

(** ** Counting *)

Definition time_after_eq (a b : Z) : bool := 0 <=? s32 (a - b).
(** The bytes of an interval: [rate] is in kilobits per second. *)
Definition quota (m : meter) : Z := u32 (rate m * Z.quot (Z.quot 1000 8 * RTK_FC_SW_SHAPING_JIFFIES) CONFIG_HZ).
Definition byte_limit (m : meter) : Z := wrap (quota m + lastBandwthByte_preInterval m).
(** What a packet costs: with its checksum, and the gap between frames where the meter says so. *)
Definition charge (m : meter) (cnt len mode : Z) : Z :=
  if (mode =? SW_SHAPERMIB_UPDATE_BY_PKTLEN) || (mode =? SW_SHAPER_UPDATE_BY_PKTLEN_MIB_UPDATE_BY_PAYLOADLEN) then
    let l := u32 (len + Z.shiftl cnt 2) in
    if ifgInclude m then u32 (l + cnt * 20) else l
  else len.
Definition new_interval (now : Z) (m : meter) : meter :=
  if time_after_eq now (u32 (lastJiffies m + RTK_FC_SW_SHAPING_JIFFIES))
  then Meter (rate m) (ifgInclude m) now 0 0 0 (lastBandwthByte_curInterval m)
  else m.
Definition over_limit (m : meter) : meter :=
  Meter (rate m) (ifgInclude m) (lastJiffies m) (byteCount m) (packetCount m) (wrap (byte_limit m - byteCount m)) (lastBandwthByte_preInterval m).
Definition count_bytes (n : Z) (m : meter) : meter :=
  Meter (rate m) (ifgInclude m) (lastJiffies m) (wrap (byteCount m + n)) (wrap (packetCount m + 1))
    (lastBandwthByte_curInterval m) (lastBandwthByte_preInterval m).
(** The meter's part of [rtk_fc_sw_shaper_rate_couting]: may the packet go? *)
Definition count_packet (now : Z) (congested reschedule : bool) (cnt len mode : Z) (m : meter) : bool * meter :=
  let n := charge m cnt len mode in
  let m := new_interval now m in
  if negb reschedule && congested then (false, m)
  else if byte_limit m <? wrap (byteCount m + n) then (false, over_limit m)
  else (true, count_bytes n m).
Definition rtk_fc_sw_shaper_rate_couting (idx : nat) (cnt len : Z) (reschedule : bool) (mode : Z) (s : shaper) : shaper_ret * shaper :=
  let '(ok, m) := count_packet (jiffies s) (congestion (ctrl_of idx s)) reschedule cnt len mode (meter_of idx s) in
  (if ok then RTK_FC_RET_OK else RTK_FC_RET_ERR_OVER_RATE_LIMIT, set_meter idx m s).
(** [_rtk_fc_l3Meter_set], where the switch took the setting. *)
Definition _rtk_fc_l3Meter_set (index : nat) (r : Z) (ifg : bool) (s : shaper) : shaper :=
  Shaper (jiffies s)
    (alter (fun m => Meter r ifg (lastJiffies m) (byteCount m) (packetCount m) (lastBandwthByte_curInterval m) (lastBandwthByte_preInterval m))
       index (l34Meter s)) (swMeter s) (shapingCtrl s) (sent_log s).
(** ** The timer: packets leave the ring *)

Definition is_flow (idx : nat) : bool := (idx <? OFFSET_SWMETER)%nat.
Definition ifPayLoadLenMode (idx : nat) : bool :=
  if is_flow idx
  then (sw_shaperMib_update_mode_flow =? SW_SHAPERMIB_UPDATE_BY_PAYLOADLEN)
       || (sw_shaperMib_update_mode_flow =? SW_SHAPER_UPDATE_BY_PAYLOADLEN_MIB_UPDATE_BY_PKTLEN)
  else sw_shaperMib_update_mode_host =? SW_SHAPERMIB_UPDATE_BY_PAYLOADLEN.
Definition kick_len (idx : nat) (b : bucket) : Z := if ifPayLoadLenMode idx then b_payLoadLen b else skb_len (skb_of (tx b)).
(** The card can be busy, the wireless driver takes everything. *)
Definition transmit (from : option nat) (p : tx_priv) (s : shaper) : bool * shaper :=
  match p with
  | WifiTx _ _ _ => (true, log (Sent from p) s)
  | NicTx _ => if nic_busy (sent_log s) p then (false, log (NicBusy from p) s) else (true, log (Sent from p) s)
  end.
Definition kick_mib (b : bucket) : shaper_log :=
  let l := skb_len (skb_of (tx b)) in
  MibCount (b_smac b) (b_dmac b) (b_flow b) (MibInfo (b_reason b) (b_pkt_cnt b) l l (b_payLoadLen b)).
(** One round of the loop: [None] where the packet has to wait. *)
Definition kick_one (idx : nat) (b : bucket) (s : shaper) : bool * shaper :=
  let '(ret, s) := rtk_fc_sw_shaper_rate_couting idx (b_pkt_cnt b) (kick_len idx b) true (Z.b2z (ifPayLoadLenMode idx)) s in
  match ret with
  | RTK_FC_RET_OK =>
      let '(taken, s) := transmit (Some idx) (tx b) s in
      if taken then (true, on_ctrl idx take_oldest (log (kick_mib b) (on_ctrl idx count_sent s))) else (false, s)
  | _ => (false, s)
  end.
(** [cnt] packets at most, and no more than a burst; does the timer have to run again? *)
Fixpoint kick_loop (cnt : nat) (idx : nat) (burst threshold : Z) (s : shaper) : bool * shaper :=
  match cnt with
  | O => (true, s)
  | S cnt =>
      match oldest (queue (ctrl_of idx s)) with
      | None => (false, s)
      | Some b =>
          let '(gone, s) := kick_one idx b s in
          if negb gone then (true, s)
          else
            let burst := u32 (burst + kick_len idx b) in
            if threshold <=? burst then (true, s)
            else match oldest (queue (ctrl_of idx s)) with
                 | None => (false, s)
                 | Some _ => kick_loop cnt idx burst threshold s
                 end
      end
  end.
(** The bytes of a burst are the interval's share of the time that passed since the timer
    was set; there is none when the division's divisor is 0. *)
Definition burst_threshold (idx : nat) (s : shaper) : option Z :=
  let elapsed := u32 (jiffies s - lastJiffies_kickTimer (ctrl_of idx s)) in
  if elapsed =? 0 then None
  else
    let parts := RTK_FC_SW_SHAPING_JIFFIES / elapsed in
    if parts =? 0 then None
    else Some (u32 (byte_limit (meter_of idx s) / parts + RTK_FC_SW_SHAPING_BURST_BYTES)).
(** [None] is a division by zero. *)
Definition rtk_fc_sw_shaper_kicktx_timerfunc (idx : nat) (s : shaper) : option shaper :=
  match oldest (queue (ctrl_of idx s)) with
  | None => Some (on_ctrl idx (set_congestion false) s)
  | Some _ =>
      threshold ← burst_threshold idx s;
      let '(resched, s) := kick_loop RTK_FC_MAX_SHAPING_QUEUE_SIZE idx 0 threshold s in
      Some (if resched then on_ctrl idx (set_timer (jiffies s)) s else on_ctrl idx (set_congestion false) s)
  end.

(** ** A packet is sent *)

(** Connection control and bare acknowledgements do not wait. *)
Definition rtk_fc_sw_shaper_skip_specific_tcp (h : shaper_pkt) : bool :=
  match tcph h with
  | None => false
  | Some t =>
      let pure := ack t && negb (urg t) && negb (ece t) && negb (cwr t) in
      let check rest := syn t || (fin t || rst t) || (pure && ((negb (psh t) && (rest =? 0)) || (psh t && (rest =? 1)))) in
      match l3 h with
      | V4 tot_len ihl => check (tot_len - Z.shiftl ihl 2 - Z.shiftl (doff t) 2)
      | V6 payload_len => check (payload_len - Z.shiftl (doff t) 2)
      | NoIp => false
      end
  end.

Definition conf_of (i : option nat) : option (host_info * host_conf) :=
  i ← i; j ← hostPolConfList_idx (hostPoliceInfoTable i); Some (hostPoliceInfoTable i, hostPoliceConfList j).
Definition src_applies (h : shaper_pkt) (isIngress : bool) : bool := isIngress && negb (skbLen_ingress h =? 0).
Definition dst_applies (h : shaper_pkt) (isEgress : bool) : bool := isEgress && negb (skbLen_egress h =? 0).
(** The meters of a packet: the control, the length it is counted with, and how. *)
Definition host_len (h : shaper_pkt) (len : Z) : Z := if negb (sw_shaperMib_update_mode_host =? 0) then payloadLen h else len.
Definition sa_meter (h : shaper_pkt) (isIngress : bool) : option (nat * Z * Z) :=
  if src_applies h isIngress then
    '(_, c) ← conf_of (smacHostPolIdx h);
    if ingress_limit_by_swShaper c
    then Some ((ingress_limit_meter_hwIndex c + OFFSET_SWMETER)%nat, host_len h (skbLen_ingress h), sw_shaperMib_update_mode_host)
    else None
  else None.
Definition da_meter (h : shaper_pkt) (isEgress : bool) : option (nat * Z * Z) :=
  if dst_applies h isEgress then
    '(_, c) ← conf_of (dmacHostPolIdx h);
    if egress_limit_by_swShaper c
    then Some ((egress_limit_meter_hwIndex c + OFFSET_SWMETER)%nat, host_len h (skbLen_egress h), sw_shaperMib_update_mode_host)
    else None
  else None.
Definition flow_meter (h : shaper_pkt) (isEgress : bool) : option (nat * Z * Z) :=
  if dst_applies h isEgress then
    i ← swShaper h;
    Some ((i + OFFSET_FLOWMETER)%nat,
          if (sw_shaperMib_update_mode_flow =? SW_SHAPERMIB_UPDATE_BY_PAYLOADLEN)
             || (sw_shaperMib_update_mode_flow =? SW_SHAPER_UPDATE_BY_PAYLOADLEN_MIB_UPDATE_BY_PKTLEN)
          then payloadLen h else skbLen_egress h,
          sw_shaperMib_update_mode_flow)
  else None.
Definition meters_of (h : shaper_pkt) (isIngress isEgress : bool) : list (nat * Z * Z) :=
  option_list (sa_meter h isIngress) ++ option_list (da_meter h isEgress) ++ option_list (flow_meter h isEgress).
Definition mib_smac (h : shaper_pkt) (isIngress : bool) : option nat :=
  if src_applies h isIngress then
    '(i, _) ← conf_of (smacHostPolIdx h); if mib_count_control i then smacHostPolIdx h else None
  else None.
Definition mib_dmac (h : shaper_pkt) (isEgress : bool) : option nat :=
  if dst_applies h isEgress then
    '(i, _) ← conf_of (dmacHostPolIdx h); if mib_count_control i then dmacHostPolIdx h else None
  else None.
Definition mib_flow (h : shaper_pkt) (isEgress : bool) : option Z := if dst_applies h isEgress then flowIdx h else None.
Definition pkts (h : shaper_pkt) : Z := u16 (skb_list_cnt h + 1).

(** Every meter counts; among those that are over their limit the slowest one is chosen. *)
Record choice := Choice { ifCongestion : bool; shapingCtrlIdx : nat; minCongestionRate : Z }.
Definition no_choice : choice := Choice false 0 0xFFFFFFFF.
Definition try_meter (h : shaper_pkt) (a : choice * shaper) (m : nat * Z * Z) : choice * shaper :=
  let '(ch, s) := a in
  let '(idx, len, mode) := m in
  let '(ret, s) := rtk_fc_sw_shaper_rate_couting idx (pkts h) len false mode s in
  match ret with
  | RTK_FC_RET_OK => (ch, s)
  | _ =>
      let r := rate (meter_of idx s) in
      (if r <? minCongestionRate ch then Choice true idx r else Choice true (shapingCtrlIdx ch) (minCongestionRate ch), s)
  end.
Definition try_meters (h : shaper_pkt) (ms : list (nat * Z * Z)) (s : shaper) : choice * shaper :=
  foldl (try_meter h) (no_choice, s) ms.

Definition mask_host (i : nat) : Z := Z.land (Z.of_nat i) (RT_RATE_HOSTPOLICING_TABLE_SIZE - 1).
Definition bucket_of (p : tx_priv) (h : shaper_pkt) (isIngress isEgress : bool) : bucket :=
  Bucket p (mask_host <$> mib_smac h isIngress) (mask_host <$> mib_dmac h isEgress)
    ((fun i => Z.land i 0x1ffff) <$> mib_flow h isEgress) (reason h) (payloadLen h) (pkts h).
Definition gem_count (p : tx_priv) (s : shaper) : shaper := if gemFilter_conf_en then log (GemCount p) s else s.
(** The packet is put into the ring, if there is room, and the timer is started. *)
Definition enqueue (idx : nat) (p : tx_priv) (b : bucket) (s : shaper) : shaper_ret * shaper :=
  let s := on_ctrl idx (set_congestion true) s in
  let '(ret, s) :=
    if full_at (queue (ctrl_of idx s))
    then (if tx_busy_to_ps then RTK_FC_RET_NIC_TX_BUSY_TO_PS else RTK_FC_RET_DROP_SHAPING_RATE_LIMIT, s)
    else (RTK_FC_RET_OK, gem_count p (log (Queued idx p) (on_ctrl idx (put_bucket b) s))) in
  (ret, match kicktxtimer (ctrl_of idx s) with Some _ => s | None => on_ctrl idx (set_timer (jiffies s)) s end).
Definition send_now (p : tx_priv) (h : shaper_pkt) (isIngress isEgress : bool) (s : shaper) : shaper_ret * shaper :=
  let '(taken, s) := transmit None p s in
  if taken then
    (RTK_FC_RET_OK,
     log (MibCount (Z.of_nat <$> mib_smac h isIngress) (Z.of_nat <$> mib_dmac h isEgress) (mib_flow h isEgress)
            (MibInfo (reason h) (pkts h) (skbLen_ingress h) (skbLen_egress h) (payloadLen h))) (gem_count p s))
  else (RTK_FC_RET_NIC_TX_BUSY_TO_PS, s).
Definition rtk_fc_sw_shaper (p : tx_priv) (h : shaper_pkt) (isIngress isEgress : bool) (s : shaper) : shaper_ret * shaper :=
  let '(ch, s) := try_meters h (meters_of h isIngress isEgress) s in
  let wait := ifCongestion ch && negb (rtk_fc_sw_shaper_skip_specific_tcp h) in
  if wait then enqueue (shapingCtrlIdx ch) p (bucket_of p h isIngress isEgress) s
  else send_now p h isIngress isEgress s.
(** The callers shape everything but what the router itself sends. *)
Definition shape (p : tx_priv) (h : shaper_pkt) (isNotLocalOut isHitShortcut : bool) (s : shaper) : shaper_ret * shaper :=
  let b := isNotLocalOut || isHitShortcut in rtk_fc_sw_shaper p h b b s.

(** ** Runs *)

Inductive shaper_event :=
| ShSend (p : tx_priv) (h : shaper_pkt) (isNotLocalOut isHitShortcut : bool)
| ShTime (d : Z)
| ShKick (idx : nat)
| ShRate (index : nat) (r : Z) (ifg : bool).
Definition due (idx : nat) (s : shaper) : bool :=
  match kicktxtimer (ctrl_of idx s) with Some t => time_after_eq (jiffies s) t | None => false end.
Definition shaper_step (e : shaper_event) (s : shaper) : option shaper :=
  match e with
  | ShSend p h a b => Some (shape p h a b s).2
  | ShTime d => Some (Shaper (u32 (jiffies s + d)) (l34Meter s) (swMeter s) (shapingCtrl s) (sent_log s))
  | ShKick idx => if due idx s then rtk_fc_sw_shaper_kicktx_timerfunc idx (on_ctrl idx stop_timer s) else Some s
  | ShRate i r ifg => Some (_rtk_fc_l3Meter_set i r ifg s)
  end.
Fixpoint shaper_run (es : list shaper_event) (s : shaper) : option shaper :=
  match es with
  | [] => Some s
  | e :: es => s ← shaper_step e s; shaper_run es s
  end.
(** All meters start an interval, all rings are empty. *)
Definition shaper_init (now : Z) (flows hosts : list Z) (n : nat) : shaper :=
  let m r := Meter r false now 0 0 0 0 in
  Shaper now (m <$> flows) (m <$> hosts) (replicate n no_ctrl) [].
End Shaper.
