(* ===== verification/FcShaperSpec.v ===== *)
(** * What the software shaper guarantees

    A meter lets no more than its rate pass, up to one packet for each interval; packets
    wait first in, first out; none overtakes those that wait; the timer runs while packets
    wait, and they leave.  And where the code fails: a late timer divides by zero, and what
    is left of an interval can be used twice. *)
From S2P Require Import Prelude ShaperRing FcShaper.
Open Scope Z_scope.

(** The size of a ring is a power of two, the timer ticks within an interval. *)
Class ShaperLaws (C : ShaperConfig) := {
  size_log : nat;
  size_pow : RTK_FC_MAX_SHAPING_QUEUE_SIZE = (2 ^ size_log)%nat;
  interval_range : 0 < RTK_FC_SW_SHAPING_JIFFIES < 2 ^ 30;
  tick_range : 0 < RTK_FC_SW_SHAPING_TIMER_TICK <= RTK_FC_SW_SHAPING_JIFFIES;
  shaper_wrap z : 0 <= z < 2 ^ 32 -> wrap z = z }.

(** ** The clock *)

Lemma s32_mod a : s32 (a mod 2 ^ 32) = s32 a.
Proof. unfold s32. by rewrite Zplus_mod_idemp_l. Qed.
Lemma s32_u32 a b : s32 (u32 a - u32 b) = s32 (a - b).
Proof. rewrite <- (s32_mod (u32 a - u32 b)), <- (s32_mod (a - b)). unfold u32. by rewrite <- Zminus_mod. Qed.
Lemma s32_small z : - 2 ^ 31 <= z < 2 ^ 31 -> s32 z = z.
Proof. intros H. unfold s32. rewrite Z.mod_small; lia. Qed.
Lemma u32_add_l a b : u32 (u32 a + b) = u32 (a + b).
Proof. unfold u32. by rewrite Zplus_mod_idemp_l. Qed.
Lemma after_eq_near t l d : - 2 ^ 31 <= t - (l + d) < 2 ^ 31 -> time_after_eq (u32 t) (u32 (u32 l + d)) = (l + d <=? t).
Proof.
  intros H. unfold time_after_eq. rewrite u32_add_l, s32_u32, s32_small by done.
  destruct (Z.leb_spec (l + d) t), (Z.leb_spec 0 (t - (l + d))); lia.
Qed.

Lemma age_unique t a b : u32 a = u32 b -> t - 2 ^ 31 < a <= t -> t - 2 ^ 31 < b <= t -> a = b.
Proof.
  unfold u32. intros E Ha Hb. assert ((a - b) mod 2 ^ 32 = 0) as H.
  { rewrite Zminus_mod, E, Z.sub_diag. done. }
  apply Z.mod_divide in H as [k Hk]; [|lia]. lia.
Qed.

Section Spec.
Context {C : ShaperConfig} {L : ShaperLaws C}.
Abbreviation J := RTK_FC_SW_SHAPING_JIFFIES.

(** ** Meters *)

Record call := Call { c_now : Z; c_congested : bool; c_resched : bool; c_cnt : Z; c_len : Z; c_mode : Z }.
Definition do_call (c : call) (m : meter) : bool * meter :=
  count_packet (u32 (c_now c)) (c_congested c) (c_resched c) (c_cnt c) (c_len c) (c_mode c) m.
Definition cost (c : call) (m : meter) : Z := charge m (c_cnt c) (c_len c) (c_mode c).
(** The bytes a meter lets pass. *)
Fixpoint passed (cs : list call) (m : meter) : Z :=
  match cs with
  | [] => 0
  | c :: cs => (if (do_call c m).1 then cost c m else 0) + passed cs (do_call c m).2
  end.
Fixpoint in_order (t : Z) (cs : list call) (t1 : Z) : Prop :=
  match cs with [] => t <= t1 | c :: cs => t <= c_now c /\ in_order (c_now c) cs t1 end.

(** The interval began at [l]; [B] bounds the cost of a packet. *)
Record meter_ok (B l : Z) (m : meter) : Prop := {
  ok_last : lastJiffies m = u32 l;
  ok_bytes : 0 <= byteCount m <= quota m + lastBandwthByte_preInterval m;
  ok_pre : 0 <= lastBandwthByte_preInterval m <= B;
  ok_cur : 0 <= lastBandwthByte_curInterval m <= B }.
Definition fits (B : Z) (m : meter) : Prop := 0 <= B /\ quota m + 2 * B < 2 ^ 32.

Lemma same_rate c m : rate (do_call c m).2 = rate m /\ ifgInclude (do_call c m).2 = ifgInclude m.
Proof.
  unfold do_call, count_packet, new_interval. destruct (time_after_eq _ _), (_ && _); try done; simpl; by destruct (_ <? _).
Qed.
Lemma quota_rate m m' : rate m = rate m' -> quota m = quota m'.
Proof. unfold quota. by intros ->. Qed.
Lemma charge_ifg m m' a b c : ifgInclude m = ifgInclude m' -> charge m a b c = charge m' a b c.
Proof. unfold charge. by intros ->. Qed.
Lemma quota_nonneg m : 0 <= quota m.
Proof. unfold quota, u32. apply Z.mod_pos_bound. lia. Qed.

Lemma count_ok B l c m : fits B m -> meter_ok B l m -> 0 <= cost c m <= B ->
  let m0 := new_interval (u32 (c_now c)) m in
  forall l0, meter_ok B l0 m0 ->
  meter_ok B l0 (do_call c m).2 /\ byteCount (do_call c m).2 = byteCount m0 + if (do_call c m).1 then cost c m else 0.
Proof.
  intros [HB Hf] _ Hc m0 l0 [Hl Hb Hp Hu]. unfold do_call, count_packet. fold m0. unfold cost in *.
  assert (quota m0 = quota m) as Eq.
  { apply quota_rate. unfold m0, new_interval. by destruct (time_after_eq _ _). }
  set (n := charge m _ _ _) in *. destruct (_ && _); simpl; [split; [done|lia]|].
  assert (byte_limit m0 = quota m0 + lastBandwthByte_preInterval m0) as EL by (unfold byte_limit; apply shaper_wrap; rewrite Eq in *; lia).
  rewrite EL, (shaper_wrap (byteCount m0 + n)) by (rewrite Eq in *; lia).
  destruct (Z.ltb_spec (quota m0 + lastBandwthByte_preInterval m0) (byteCount m0 + n)) as [Hlt|Hge]; simpl.
  - split; [|lia]. split; simpl; try done. rewrite EL, shaper_wrap by (rewrite Eq in *; lia). lia.
  - assert (wrap (byteCount m0 + n) = byteCount m0 + n) as EW by (apply shaper_wrap; rewrite Eq in *; lia).
    split; [|lia]. split; simpl; try done. rewrite EW. change (quota (count_bytes n m0)) with (quota m0). lia.
Qed.
Lemma new_interval_ok B l t m : fits B m -> meter_ok B l m -> l <= t -> t - l < 2 ^ 31 ->
  if l + J <=? t then meter_ok B t (new_interval (u32 t) m) /\ byteCount (new_interval (u32 t) m) = 0
  else new_interval (u32 t) m = m.
Proof.
  intros [HB Hf] [Hl Hb Hp Hu] H1 H2. unfold new_interval. pose proof interval_range. rewrite Hl, after_eq_near by lia.
  destruct (Z.leb_spec (l + J) t); [|done]. split; [|done]. split; simpl; try done. pose proof (quota_nonneg m). unfold quota in *. simpl. lia.
Qed.

Lemma passed_bound B t1 cs m l t0 : fits B m -> meter_ok B l m -> Forall (fun c => 0 <= cost c m <= B) cs ->
  l <= t0 -> in_order t0 cs t1 -> t1 - l < 2 ^ 31 ->
  passed cs m <= ((t1 - l) / J + 1) * (quota m + B) - byteCount m.
Proof.
  pose proof interval_range as HJ. revert m l t0.
  induction cs as [|c cs IH]; intros m l t0 Hf Hok Hc Hl0 Ho Ht; simpl in Ho |- *.
  - pose proof (quota_nonneg m). destruct Hf as [HB _]. destruct Hok as [_ Hb Hp _].
    assert (0 <= (t1 - l) / J) by (apply Z.div_pos; lia). nia.
  - inversion Hc as [|? ? Hc1 Hc2]; subst. destruct Ho as [Ho1 Ho2].
    assert (c_now c <= t1) as Hle.
    { clear -Ho2. revert Ho2. generalize (c_now c) as t. induction cs as [|x cs IH]; simpl; [done|]. intros t [? ?]. pose proof (IH _ H0). lia. }
    pose proof (same_rate c m) as [Hr Hi]. set (m' := (do_call c m).2) in *.
    assert (quota m' = quota m) as Eq by by apply quota_rate.
    assert (fits B m') as Hf' by (destruct Hf; split; rewrite ?Eq; done).
    assert (Forall (fun c => 0 <= cost c m' <= B) cs) as Hc'.
    { eapply Forall_impl; [exact Hc2|]. intros x. unfold cost. by rewrite (charge_ifg m' m). }
    pose proof (new_interval_ok B l (c_now c) m Hf Hok ltac:(lia) ltac:(lia)) as HN.
    destruct (Z.leb_spec (l + J) (c_now c)) as [Hn|Hn].
    + destruct HN as [HN HN0]. destruct (count_ok B l c m Hf Hok Hc1 (c_now c) HN) as [K1 K2]. fold m' in K1, K2.
      pose proof (IH m' (c_now c) (c_now c) Hf' K1 Hc' ltac:(lia) Ho2 ltac:(lia)) as K3. rewrite Eq, K2, HN0 in K3.
      assert ((t1 - c_now c) / J + 1 <= (t1 - l) / J) as HD.
      { rewrite <- Z.div_add by lia. apply Z.div_le_mono; lia. }
      pose proof (quota_nonneg m). destruct Hok as [_ Hb Hp _]. destruct Hf as [HB _]. nia.
    + assert (new_interval (u32 (c_now c)) m = m) as HN' by exact HN.
      destruct (count_ok B l c m Hf Hok Hc1 l ltac:(by rewrite HN')) as [K1 K2]. fold m' in K1, K2.
      rewrite HN' in K2. pose proof (IH m' l (c_now c) Hf' K1 Hc' ltac:(lia) Ho2 Ht) as K3. rewrite Eq in K3. lia.
Qed.

(** ** Rings *)

Abbreviation size := RTK_FC_MAX_SHAPING_QUEUE_SIZE.

Definition enters (i : nat) (e : shaper_log) : option tx_priv :=
  match e with Queued j p => if decide (i = j) then Some p else None | _ => None end.
Definition leaves (i : nat) (e : shaper_log) : option tx_priv :=
  match e with Sent (Some j) p => if decide (i = j) then Some p else None | _ => None end.
(** What entered and left a ring so far, the oldest first. *)
Definition entered (i : nat) (s : shaper) : list tx_priv := omap (enters i) (rev (sent_log s)).
Definition left (i : nat) (s : shaper) : list tx_priv := omap (leaves i) (rev (sent_log s)).
Record fifo (i : nat) (s : shaper) (q : list bucket) : Prop := {
  fifo_holds : holds size (queue (ctrl_of i s)) q;
  fifo_order : entered i s = left i s ++ (tx <$> q);
  fifo_in : enququcnt (ctrl_of i s) = u32 (Z.of_nat (length (entered i s)));
  fifo_out : pausetxcnt (ctrl_of i s) = u32 (Z.of_nat (length (left i s))) }.

Lemma entered_log i e s : entered i (log e s) = entered i s ++ option_list (enters i e).
Proof. unfold entered. simpl. rewrite omap_app. simpl. by destruct (enters i e). Qed.
Lemma left_log i e s : left i (log e s) = left i s ++ option_list (leaves i e).
Proof. unfold left. simpl. rewrite omap_app. simpl. by destruct (leaves i e). Qed.
Lemma ctrl_log i e s : ctrl_of i (log e s) = ctrl_of i s.
Proof. done. Qed.
Lemma ctrl_meter i j m s : ctrl_of i (set_meter j m s) = ctrl_of i s.
Proof. unfold set_meter. by destruct (_ <? _)%nat. Qed.
Lemma log_meter j m s : sent_log (set_meter j m s) = sent_log s /\ length (shapingCtrl (set_meter j m s)) = length (shapingCtrl s)
  /\ jiffies (set_meter j m s) = jiffies s.
Proof. unfold set_meter. by destruct (_ <? _)%nat. Qed.
Lemma ctrl_on i j g s : (i < length (shapingCtrl s))%nat ->
  ctrl_of i (on_ctrl j g s) = if decide (i = j) then g (ctrl_of i s) else ctrl_of i s.
Proof.
  intros Hi. unfold ctrl_of, on_ctrl. simpl. rewrite !nth_lookup. destruct (decide (i = j)) as [->|Hn].
  - rewrite list_lookup_alter_eq. by destruct (lookup_lt_is_Some_2 _ _ Hi) as [c ->].
  - by rewrite list_lookup_alter_ne.
Qed.

(** Nothing a ring depends on changed. *)
Record keeps (i : nat) (s s' : shaper) : Prop := {
  keeps_ring : queue (ctrl_of i s') = queue (ctrl_of i s);
  keeps_counts : enququcnt (ctrl_of i s') = enququcnt (ctrl_of i s) /\ pausetxcnt (ctrl_of i s') = pausetxcnt (ctrl_of i s);
  keeps_log : entered i s' = entered i s /\ left i s' = left i s }.
Lemma meter_keeps_refl i s : keeps i s s.
Proof. by split. Qed.
Lemma meter_keeps_trans i s1 s2 s3 : keeps i s1 s2 -> keeps i s2 s3 -> keeps i s1 s3.
Proof. intros [A1 [A2 A3] [A4 A5]] [B1 [B2 B3] [B4 B5]]. split; rewrite ?B1, ?B2, ?B3, ?B4, ?B5; done. Qed.
Lemma keeps_fifo i s s' q : keeps i s s' -> fifo i s q -> fifo i s' q.
Proof. intros [A1 [A2 A3] [A4 A5]] [B1 B2 B3 B4]. split; rewrite ?A1, ?A2, ?A3, ?A4, ?A5; done. Qed.
Lemma keeps_meter i j m s : keeps i s (set_meter j m s).
Proof. split; rewrite ?ctrl_meter; [done..|]. unfold entered, left. by rewrite (proj1 (log_meter j m s)). Qed.
Lemma keeps_logged i e s : enters i e = None -> leaves i e = None -> keeps i s (log e s).
Proof. intros E1 E2. split; [done..|]. by rewrite entered_log, left_log, E1, E2, !app_nil_r. Qed.
Lemma keeps_on i j g s : (i < length (shapingCtrl s))%nat ->
  (i = j -> queue (g (ctrl_of i s)) = queue (ctrl_of i s) /\ enququcnt (g (ctrl_of i s)) = enququcnt (ctrl_of i s) /\
            pausetxcnt (g (ctrl_of i s)) = pausetxcnt (ctrl_of i s)) -> keeps i s (on_ctrl j g s).
Proof. intros Hi Hg. split; [..|done]; rewrite ctrl_on by done; destruct (decide (i = j)); try done; by apply Hg. Qed.

Lemma rate_counting_keeps j cnt len b mode s : let r := rtk_fc_sw_shaper_rate_couting j cnt len b mode s in
  (forall i, keeps i s r.2 /\ ctrl_of i r.2 = ctrl_of i s) /\ sent_log r.2 = sent_log s /\
  length (shapingCtrl r.2) = length (shapingCtrl s) /\ jiffies r.2 = jiffies s.
Proof.
  intros r. unfold r, rtk_fc_sw_shaper_rate_couting. destruct (count_packet _ _ _ _ _ _ _) as [ok m]. simpl.
  split; [|apply log_meter]. intros i. split; [apply keeps_meter|apply ctrl_meter].
Qed.
Lemma size_positive : (0 < size)%nat.
Proof. rewrite size_pow. pose proof (Nat.pow_nonzero 2 size_log). lia. Qed.
Lemma ring_head i s q : fifo i s q -> oldest (queue (ctrl_of i s)) = head q.
Proof. intros F. apply (ring_oldest size_log). rewrite <- size_pow. apply (fifo_holds i s q F). Qed.

Lemma u32_count n : u32 (u32 (Z.of_nat n) + 1) = u32 (Z.of_nat (S n)).
Proof. rewrite u32_add_l. f_equal. lia. Qed.
Lemma fifo_put i s q b p g : (i < length (shapingCtrl s))%nat -> fifo i s q -> (length q < size)%nat -> tx b = p ->
  (forall c, queue (g c) = queue c /\ enququcnt (g c) = enququcnt c /\ pausetxcnt (g c) = pausetxcnt c) ->
  fifo i (log (Queued i p) (on_ctrl i (put_bucket b) (on_ctrl i g s))) (q ++ [b]).
Proof.
  intros Hi [F1 F2 F3 F4] Hl <- Hg. destruct (Hg (ctrl_of i s)) as (G1 & G2 & G3).
  assert (length (shapingCtrl (on_ctrl i g s)) = length (shapingCtrl s)) as El by (simpl; apply length_alter).
  split; rewrite ?ctrl_log, ?ctrl_on, ?decide_True, ?entered_log, ?left_log by (done || lia); simpl; rewrite ?decide_True by done; simpl;
    rewrite ?G1, ?G2, ?G3, ?app_nil_r.
  - rewrite size_pow in *. by apply put_queue.
  - change (entered i (on_ctrl _ _ _)) with (entered i s). change (left i (on_ctrl _ _ _)) with (left i s).
    rewrite F2, fmap_app, <- app_assoc. done.
  - change (entered i (on_ctrl _ _ _)) with (entered i s). rewrite F3, length_app, u32_count. f_equal. simpl. lia.
  - done.
Qed.
Lemma fifo_take i s b q : (i < length (shapingCtrl s))%nat -> fifo i s (b :: q) ->
  fifo i (on_ctrl i take_oldest (log (kick_mib b) (on_ctrl i count_sent (log (Sent (Some i) (tx b)) s)))) q.
Proof.
  intros Hi [F1 F2 F3 F4]. set (s1 := log _ (on_ctrl _ _ _)). assert (length (shapingCtrl s1) = length (shapingCtrl s)) as El by (simpl; apply length_alter).
  assert (entered i s1 = entered i s) as E1.
  { unfold s1. rewrite entered_log. simpl. change (entered i (on_ctrl _ _ ?x)) with (entered i x). rewrite entered_log. simpl. by rewrite !app_nil_r. }
  assert (left i s1 = left i s ++ [tx b]) as E2.
  { unfold s1. rewrite left_log. simpl. change (left i (on_ctrl _ _ ?x)) with (left i x). rewrite left_log. simpl.
    rewrite decide_True by done. by rewrite !app_nil_r. }
  split; change (entered i (on_ctrl i take_oldest s1)) with (entered i s1); change (left i (on_ctrl i take_oldest s1)) with (left i s1);
    rewrite ?E1, ?E2, ?ctrl_on, ?decide_True by (done || lia); simpl; unfold s1; rewrite ?ctrl_log, ?ctrl_on, ?decide_True by (done || lia); simpl; rewrite ?ctrl_log.
  - rewrite size_pow in *. by apply (free_queue size_log _ b).
  - rewrite F2. simpl. by rewrite <- app_assoc.
  - done.
  - rewrite F4, length_app, u32_count. f_equal. simpl. lia.
Qed.

(** ** Steps *)

(** The flags and timers of all controls, and the clock. *)
Record steady (s s' : shaper) : Prop := {
  steady_size : length (shapingCtrl s') = length (shapingCtrl s);
  steady_clock : jiffies s' = jiffies s;
  steady_flags : forall j, (j < length (shapingCtrl s))%nat ->
    congestion (ctrl_of j s') = congestion (ctrl_of j s) /\ kicktxtimer (ctrl_of j s') = kicktxtimer (ctrl_of j s) /\
    lastJiffies_kickTimer (ctrl_of j s') = lastJiffies_kickTimer (ctrl_of j s) }.
Lemma steady_refl s : steady s s.
Proof. by split. Qed.
Lemma steady_trans s1 s2 s3 : steady s1 s2 -> steady s2 s3 -> steady s1 s3.
Proof.
  intros [A1 A2 A3] [B1 B2 B3]. split; [congruence..|]. intros j Hj. destruct (A3 j Hj) as (? & ? & ?).
  destruct (B3 j ltac:(lia)) as (? & ? & ?). repeat split; congruence.
Qed.
Lemma steady_on j g s : (forall c, congestion (g c) = congestion c /\ kicktxtimer (g c) = kicktxtimer c /\ lastJiffies_kickTimer (g c) = lastJiffies_kickTimer c) ->
  steady s (on_ctrl j g s).
Proof.
  intros Hg. split; [apply length_alter|done|]. intros i Hi. rewrite ctrl_on by done. destruct (decide (i = j)); [apply Hg|done].
Qed.
Lemma steady_counting j cnt len b mode s : steady s (rtk_fc_sw_shaper_rate_couting j cnt len b mode s).2.
Proof.
  destruct (rate_counting_keeps j cnt len b mode s) as (K & _ & K2 & K3). split; [done..|]. intros i _. by rewrite (proj2 (K i)).
Qed.
Lemma transmit_cases from p s : transmit from p s = (true, log (Sent from p) s) \/ transmit from p s = (false, log (NicBusy from p) s).
Proof. unfold transmit. destruct p; [destruct (nic_busy _ _)|]; tauto. Qed.

Lemma kick_one_spec i b q s : (i < length (shapingCtrl s))%nat -> fifo i s (b :: q) -> let r := kick_one i b s in
  fifo i r.2 (if r.1 then q else b :: q) /\ left i r.2 = left i s ++ (if r.1 then [tx b] else []) /\
  steady s r.2 /\ forall j, (j < length (shapingCtrl s))%nat -> j <> i -> keeps j s r.2.
Proof.
  intros Hi F r. unfold r, kick_one.
  pose proof (rate_counting_keeps i (b_pkt_cnt b) (kick_len i b) true (Z.b2z (ifPayLoadLenMode i)) s) as (K & _ & K2 & _).
  pose proof (steady_counting i (b_pkt_cnt b) (kick_len i b) true (Z.b2z (ifPayLoadLenMode i)) s) as S1.
  destruct (rtk_fc_sw_shaper_rate_couting _ _ _ _ _ _) as [ret s1]. simpl in *.
  pose proof (keeps_fifo i s s1 _ (proj1 (K i)) F) as F1.
  assert (forall j, keeps j s s1) as K1 by (intros j; apply K).
  assert (fifo i s1 (b :: q) /\ left i s1 = left i s ++ [] /\ steady s s1 /\ forall j, (j < length (shapingCtrl s))%nat -> j <> i -> keeps j s s1) as Stay.
  { split_and!; [done|rewrite app_nil_r; apply (keeps_log i s s1 (K1 i))|done|intros; apply K1]. }
  destruct ret; try exact Stay.
  destruct (transmit_cases (Some i) (tx b) s1) as [E|E]; rewrite E; simpl.
  - split; [by apply fifo_take; [lia|]|]. split.
    { change (left i (on_ctrl _ _ ?x)) with (left i x). rewrite left_log. simpl. change (left i (on_ctrl _ _ ?x)) with (left i x).
      rewrite left_log, app_nil_r, (proj2 (keeps_log i s s1 (K1 i))). simpl. by rewrite decide_True. }
    split.
    + eapply steady_trans; [exact S1|]. eapply steady_trans; [|by apply steady_on].
      assert (forall e x, steady x (log e x)) as SL by by split.
      eapply steady_trans; [|apply SL]. eapply steady_trans; [apply SL|by apply steady_on].
    + intros j Hj Hn. eapply meter_keeps_trans; [apply K1|].
      eapply meter_keeps_trans; [apply (keeps_logged j (Sent (Some i) (tx b))); simpl; by rewrite ?decide_False|].
      eapply meter_keeps_trans; [apply (keeps_on j i count_sent); [simpl; lia|done]|].
      eapply meter_keeps_trans; [by apply (keeps_logged j (kick_mib b))|]. apply keeps_on; [simpl; rewrite length_alter; lia|done].
  - split; [by apply (keeps_fifo i s1); [apply keeps_logged|]|].
    split; [rewrite left_log; simpl; by rewrite !app_nil_r, (proj2 (keeps_log i s s1 (K1 i)))|]. split; [by eapply steady_trans; [exact S1|]|].
    intros j Hj Hn. eapply meter_keeps_trans; [apply K1|]. by apply keeps_logged.
Qed.

Lemma kick_loop_spec i cnt : forall burst thr s q, (i < length (shapingCtrl s))%nat -> fifo i s q -> let r := kick_loop cnt i burst thr s in
  exists gone q', q = gone ++ q' /\ fifo i r.2 q' /\ left i r.2 = left i s ++ (tx <$> gone) /\ (r.1 = false -> q' = []) /\
    (gone = [] -> forall b q0, q = b :: q0 -> cnt <> O -> (kick_one i b s).1 = false) /\
    steady s r.2 /\ forall j, (j < length (shapingCtrl s))%nat -> j <> i -> keeps j s r.2.
Proof.
  assert (forall s, forall j, (j < length (shapingCtrl s))%nat -> j <> i -> keeps j s s) as KR by (intros; apply meter_keeps_refl).
  induction cnt as [|cnt IH]; intros burst thr s q Hi F r; unfold r; clear r; simpl.
  { exists [], q. split_and!; [done..|by rewrite app_nil_r|done|done|apply steady_refl|apply KR]. }
  rewrite (ring_head i s q F). destruct q as [|b q]; simpl.
  { exists [], []. split_and!; [done..|by rewrite app_nil_r|done|done|apply steady_refl|apply KR]. }
  pose proof (kick_one_spec i b q s Hi F) as (F1 & L1 & S1 & K1). destruct (kick_one i b s) as [gone s1] eqn:E1. simpl in *.
  destruct gone; simpl.
  2: { exists [], (b :: q). split_and!; try done. intros _ b' q' [= <- <-] _. by rewrite E1. }
  destruct (thr <=? _); [by exists [b], q|]. rewrite (ring_head i s1 q F1).
  pose proof (steady_size s s1 S1) as El. destruct q as [|b' q]; simpl; [by exists [b], []|].
  destruct (IH (u32 (burst + kick_len i b)) thr s1 (b' :: q) ltac:(lia) F1) as (g & q' & -> & A & A2 & B & _ & D & E).
  exists (b :: g), q'. split; [done|]. split; [done|]. split; [rewrite A2, L1, <- app_assoc; done|]. split; [done|]. split; [done|].
  split; [by eapply steady_trans|]. intros j Hj Hn. eapply meter_keeps_trans; [by apply K1|]. apply E; [lia|done].
Qed.
Lemma kick_loop_refused i cnt burst thr s b q : fifo i s (b :: q) -> cnt <> O -> (kick_one i b s).1 = false ->
  kick_loop cnt i burst thr s = (true, (kick_one i b s).2).
Proof. intros F Hc E. destruct cnt; [done|]. simpl. rewrite (ring_head i s _ F). simpl. destruct (kick_one i b s). simpl in *. by subst. Qed.

(** ** The invariant *)

Record shaper_inv (n : nat) (s : shaper) : Prop := {
  inv_size : length (shapingCtrl s) = n;
  inv_ring : forall i, (i < n)%nat -> exists q, fifo i s q /\ (q <> [] -> congestion (ctrl_of i s) = true);
  inv_timer : forall i, (i < n)%nat -> congestion (ctrl_of i s) = true -> is_Some (kicktxtimer (ctrl_of i s)) }.
Lemma inv_steady n s s' : shaper_inv n s -> steady s s' -> (forall i, (i < n)%nat -> keeps i s s') -> shaper_inv n s'.
Proof.
  intros [I1 I2 I3] [S1 S2 S3] K. split; [congruence|..]; intros i Hi; destruct (S3 i ltac:(lia)) as (E1 & E2 & _); rewrite E1.
  - destruct (I2 i Hi) as (q & F & Hq). exists q. split; [|done]. by apply (keeps_fifo i s); [apply K|].
  - rewrite E2. by apply I3.
Qed.
Lemma init_inv now flows hosts n : shaper_inv n (shaper_init now flows hosts n).
Proof.
  assert (forall i, ctrl_of i (shaper_init now flows hosts n) = no_ctrl) as E.
  { intros i. unfold ctrl_of. simpl. rewrite nth_lookup. destruct (replicate n no_ctrl !! i) eqn:El; [|done]. by apply lookup_replicate in El as [-> _]. }
  split; [apply length_replicate|..]; intros i Hi; rewrite E; [|done]. exists []. split; [|done].
  split; rewrite ?E; simpl; [apply holds_init, size_positive|done|done|done].
Qed.


(** After the loop of the timer the flag goes if the ring is empty, else the timer is set again. *)
Lemma kick_end n i s s1 q q' g : shaper_inv n s -> (i < n)%nat -> fifo i s q -> fifo i s1 q' -> (q' <> [] -> q <> []) ->
  length (shapingCtrl s1) = n ->
  (forall j, (j < n)%nat -> congestion (ctrl_of j s1) = congestion (ctrl_of j s) /\
     (j <> i -> kicktxtimer (ctrl_of j s1) = kicktxtimer (ctrl_of j s) /\ keeps j s s1)) ->
  (forall c, queue (g c) = queue c /\ enququcnt (g c) = enququcnt c /\ pausetxcnt (g c) = pausetxcnt c) ->
  (forall c, (q' = [] /\ congestion (g c) = false) \/ (congestion (g c) = congestion c /\ is_Some (kicktxtimer (g c)))) ->
  shaper_inv n (on_ctrl i g s1) /\ fifo i (on_ctrl i g s1) q'.
Proof.
  intros I Hi F F1 Hq En Hc G1 G2. assert (fifo i (on_ctrl i g s1) q') as F'.
  { apply (keeps_fifo i s1); [|done]. apply keeps_on; [lia|]. intros _. apply G1. }
  split; [|done]. split; [simpl; by rewrite length_alter|..]; intros j Hj; destruct (Hc j Hj) as [C1 C2];
    destruct (inv_ring n s I j Hj) as (q0 & F0 & Hq0); rewrite ctrl_on by lia; destruct (decide (j = i)) as [->|Hn].
  - exists q'. split; [done|]. intros Hne. destruct (G2 (ctrl_of i s1)) as [[? _]|[-> _]]; [done|]. rewrite C1. apply Hq0. intros ->.
    pose proof (ring_head i s [] F0) as H1. rewrite (ring_head i s q F) in H1. destruct q; [by apply Hq|done].
  - exists q0. destruct (C2 Hn) as [_ K]. split; [|by rewrite C1].
    apply (keeps_fifo j s1); [apply keeps_on; [lia|done]|by apply (keeps_fifo j s)].
  - intros Hx. destruct (G2 (ctrl_of i s1)) as [[_ ?]|[_ ?]]; [congruence|done].
  - rewrite C1, (proj1 (C2 Hn)). by apply (inv_timer n s I).
Qed.
(** A run of the timer takes packets from the front of its ring, and sends them in order. *)
Lemma kick_spec n i s s' q : shaper_inv n s -> (i < n)%nat -> fifo i s q ->
  rtk_fc_sw_shaper_kicktx_timerfunc i (on_ctrl i stop_timer s) = Some s' ->
  shaper_inv n s' /\ exists gone q', q = gone ++ q' /\ fifo i s' q' /\ left i s' = left i s ++ (tx <$> gone).
Proof.
  intros I Hi F. set (s0 := on_ctrl i stop_timer s). pose proof (inv_size n s I) as En.
  assert (length (shapingCtrl s0) = n) as E0 by (unfold s0; simpl; by rewrite length_alter).
  assert (forall j, (j < n)%nat -> congestion (ctrl_of j s0) = congestion (ctrl_of j s) /\
     (j <> i -> kicktxtimer (ctrl_of j s0) = kicktxtimer (ctrl_of j s) /\ keeps j s s0)) as C0.
  { intros j Hj. unfold s0. rewrite ctrl_on by lia. destruct (decide (j = i)); (split; [done|]); intros Hn; [done|].
    split; [done|]. apply keeps_on; [lia|done]. }
  assert (fifo i s0 q) as F0 by (apply (keeps_fifo i s); [apply keeps_on; [lia|done]|done]).
  unfold rtk_fc_sw_shaper_kicktx_timerfunc. rewrite (ring_head i s0 q F0). destruct q as [|b q]; simpl.
  { intros [= <-]. destruct (kick_end n i s s0 [] [] (set_congestion false) I Hi F F0 ltac:(done) E0 C0 ltac:(done) ltac:(by left)) as [I' F'].
    split; [done|]. exists [], []. split_and!; [done..|]. by rewrite app_nil_r. }
  destruct (burst_threshold i s0) as [thr|]; simpl; [|done].
  destruct (kick_loop_spec i size 0 thr s0 (b :: q) ltac:(lia) F0) as (gone & q' & Eq & F1 & L1 & He & _ & [S1 S2 S3] & K).
  destruct (kick_loop _ _ _ _ _) as [resched s1]. simpl in *. intros [= <-].
  assert (forall j, (j < n)%nat -> congestion (ctrl_of j s1) = congestion (ctrl_of j s) /\
     (j <> i -> kicktxtimer (ctrl_of j s1) = kicktxtimer (ctrl_of j s) /\ keeps j s s1)) as C1.
  { intros j Hj. destruct (C0 j Hj) as [A1 A2]. destruct (S3 j ltac:(lia)) as (B1 & B2 & _). rewrite B1, B2. split; [done|]. intros Hn.
    destruct (A2 Hn) as [A3 A4]. split; [done|]. eapply meter_keeps_trans; [exact A4|]. apply K; [lia|done]. }
  destruct resched.
  - destruct (kick_end n i s s1 (b :: q) q' (set_timer (jiffies s1)) I Hi F F1 ltac:(done) ltac:(lia) C1 ltac:(done) ltac:(right; by eexists)) as [I' F'].
    split; [done|]. by exists gone, q'.
  - destruct (kick_end n i s s1 (b :: q) q' (set_congestion false) I Hi F F1 ltac:(done) ltac:(lia) C1 ltac:(done) ltac:(left; split; [by apply He|done])) as [I' F'].
    split; [done|]. by exists gone, q'.
Qed.

(** ** Sending *)

Lemma nth_insert_rate j k m (l : list meter) : rate m = rate (nth j l no_meter) -> rate (nth k (<[j := m]> l) no_meter) = rate (nth k l no_meter).
Proof.
  intros E. rewrite !nth_lookup in *. destruct (decide (k = j)) as [->|]; [|by rewrite list_lookup_insert_ne].
  destruct (decide (j < length l)%nat); [by rewrite list_lookup_insert_eq|by rewrite list_insert_ge by lia].
Qed.
Lemma rate_counting i j cnt len b mode s : rate (meter_of i (rtk_fc_sw_shaper_rate_couting j cnt len b mode s).2) = rate (meter_of i s).
Proof.
  unfold rtk_fc_sw_shaper_rate_couting. destruct (count_packet _ _ _ _ _ _ _) as [ok m] eqn:E. simpl.
  assert (rate m = rate (meter_of j s)) as Er.
  { replace m with (count_packet (jiffies s) (congestion (ctrl_of j s)) b cnt len mode (meter_of j s)).2 by by rewrite E.
    unfold count_packet, new_interval. destruct (time_after_eq _ _), (_ && _); try done; simpl; by destruct (_ <? _). }
  unfold meter_of, set_meter in *. destruct (i <? _)%nat eqn:Ei, (j <? _)%nat eqn:Ej; simpl; rewrite ?Ei; try done; by apply nth_insert_rate.
Qed.

(** What the meters leave behind, and what they choose. *)
Record chosen (h : shaper_pkt) (ms : list (nat * Z * Z)) (s : shaper) (r : choice * shaper) : Prop := {
  ch_steady : steady s r.2;
  ch_keeps : forall i, keeps i s r.2;
  ch_log : sent_log r.2 = sent_log s;
  ch_rates : forall i, rate (meter_of i r.2) = rate (meter_of i s);
  ch_idx : shapingCtrlIdx r.1 = 0%nat \/ shapingCtrlIdx r.1 ∈ ms.*1.*1;
  ch_waits : forall i, i ∈ ms.*1.*1 -> (i < length (shapingCtrl s))%nat -> congestion (ctrl_of i s) = true -> ifCongestion r.1 = true;
  ch_slow : ifCongestion r.1 = true -> Forall (fun i => rate (meter_of i s) < 0xFFFFFFFF) ms.*1.*1 -> shapingCtrlIdx r.1 ∈ ms.*1.*1 }.
Lemma try_meters_snoc h ms m s : try_meters h (ms ++ [m]) s = try_meter h (try_meters h ms s) m.
Proof. unfold try_meters. by rewrite foldl_app. Qed.
Lemma try_meters_spec h ms s : chosen h ms s (try_meters h ms s) /\
  (ifCongestion (try_meters h ms s).1 = false -> (try_meters h ms s).1 = no_choice).
Proof.
  induction ms as [|m ms IH] using rev_ind.
  { split; [|done]. split; simpl; try done; [by left|by intros i Hi; apply elem_of_nil in Hi]. }
  rewrite try_meters_snoc. destruct (try_meters h ms s) as [ch s1]. destruct IH as [[S1 K1 L1 R1 X1 W1 Z1] N1]. destruct m as [[i len] mode]. simpl in *.
  pose proof (rate_counting_keeps i (pkts h) len false mode s1) as (K & L2 & _).
  pose proof (steady_counting i (pkts h) len false mode s1) as S2.
  pose proof (fun j => rate_counting j i (pkts h) len false mode s1) as R2.
  assert (congestion (ctrl_of i s1) = true -> (rtk_fc_sw_shaper_rate_couting i (pkts h) len false mode s1).1 <> RTK_FC_RET_OK) as Wait.
  { intros Hc. unfold rtk_fc_sw_shaper_rate_couting, count_packet. rewrite Hc. done. }
  destruct (rtk_fc_sw_shaper_rate_couting _ _ _ _ _ _) as [ret s2]. simpl in *.
  assert (steady s s2) as S by by eapply steady_trans.
  assert (forall j, keeps j s s2) as Ks by (intros j; eapply meter_keeps_trans; [apply K1|apply K]).
  assert (forall j, j ∈ (ms ++ [(i, len, mode)]).*1.*1 <-> j ∈ ms.*1.*1 \/ j = i) as El.
  { intros j. rewrite !fmap_app, elem_of_app. simpl. rewrite list_elem_of_singleton. done. }
  set (r := rate (meter_of i s2)). destruct (decide (ret = RTK_FC_RET_OK)) as [->|Hr].
  - split; [|done]. split; simpl; try done; [congruence|intros j; by rewrite R2|destruct X1; [by left|right; apply El; by left]|..].
    + intros j Hj Hn Hc. apply El in Hj as [Hj| ->]; [by apply (W1 j)|]. exfalso. apply Wait; [|done].
      destruct (steady_flags s s1 S1 i Hn) as [-> _]. done.
    + intros Hc Hs. apply El. left. rewrite !fmap_app, Forall_app in Hs. by apply Z1; [|apply Hs].
  - assert (forall a b : choice * shaper, match ret with RTK_FC_RET_OK => a | _ => b end = b) as -> by (intros; destruct ret; done).
    assert (minCongestionRate ch = 0xFFFFFFFF -> r < 0xFFFFFFFF -> r <? minCongestionRate ch = true) as Hm by (intros -> ?; by apply Z.ltb_lt).
    split; [|by destruct (_ <? _)].
    split; simpl; try done; [congruence|intros j; by rewrite R2|..].
    + destruct (_ <? _); simpl; [right; apply El; by right|]. destruct X1; [by left|right; apply El; by left].
    + intros; by destruct (_ <? _).
    + intros _ Hs. rewrite !fmap_app, Forall_app in Hs. destruct Hs as [Hs H1]. simpl in H1. rewrite Forall_singleton in H1. apply El.
      destruct (ifCongestion ch) eqn:Ec.
      * specialize (Z1 eq_refl Hs). destruct (_ <? _); simpl; [by right|by left].
      * rewrite Hm; [by right|by rewrite N1|unfold r; by rewrite R2, R1].
Qed.

Lemma gem_keeps i p s : keeps i s (gem_count p s).
Proof. unfold gem_count. destruct gemFilter_conf_en; [by apply keeps_logged|apply meter_keeps_refl]. Qed.
Lemma gem_same p s : shapingCtrl (gem_count p s) = shapingCtrl s /\ jiffies (gem_count p s) = jiffies s.
Proof. unfold gem_count. by destruct gemFilter_conf_en. Qed.
Lemma gem_ctrl i p s : ctrl_of i (gem_count p s) = ctrl_of i s.
Proof. unfold ctrl_of. by rewrite (proj1 (gem_same p s)). Qed.
(** The timer is started where it does not run. *)
Definition start (i : nat) (s : shaper) : shaper := match kicktxtimer (ctrl_of i s) with Some _ => s | None => on_ctrl i (set_timer (jiffies s)) s end.
Lemma start_keeps i j s : (j < length (shapingCtrl s))%nat -> keeps j s (start i s) /\ congestion (ctrl_of j (start i s)) = congestion (ctrl_of j s) /\
  (is_Some (kicktxtimer (ctrl_of j s)) \/ j = i -> is_Some (kicktxtimer (ctrl_of j (start i s)))) /\ length (shapingCtrl (start i s)) = length (shapingCtrl s).
Proof.
  intros Hj. unfold start. destruct (kicktxtimer (ctrl_of i s)) as [t|] eqn:E.
  - split_and!; [apply meter_keeps_refl|done| |done]. intros [| ->]; [done|by eexists].
  - split_and!; [by apply keeps_on| | |apply length_alter]; rewrite ctrl_on by done; destruct (decide (j = i)); try done.
    intros [|]; done.
Qed.
Lemma enqueue_spec n idx p b s q : shaper_inv n s -> (idx < n)%nat -> fifo idx s q -> tx b = p -> let r := enqueue idx p b s in
  let room := bool_decide (length q < size)%nat in
  shaper_inv n r.2 /\ fifo idx r.2 (if room then q ++ [b] else q) /\ left idx r.2 = left idx s /\
  (forall j, (j < n)%nat -> j <> idx -> keeps j s r.2) /\
  (if room then r.1 = RTK_FC_RET_OK
   else r.1 = if tx_busy_to_ps then RTK_FC_RET_NIC_TX_BUSY_TO_PS else RTK_FC_RET_DROP_SHAPING_RATE_LIMIT) /\
  (forall from, Sent from p ∈ sent_log r.2 -> Sent from p ∈ sent_log s).
Proof.
  intros I Hi F Hb r room. unfold r, enqueue. set (s0 := on_ctrl idx (set_congestion true) s). pose proof (inv_size n s I) as En.
  assert (length (shapingCtrl s0) = n) as E0 by (unfold s0; simpl; by rewrite length_alter).
  assert (forall j, (j < n)%nat -> keeps j s s0) as K0 by (intros j Hj; apply keeps_on; [lia|done]).
  assert (fifo idx s0 q) as F0 by by apply (keeps_fifo idx s); [apply K0|].
  assert (full_at (queue (ctrl_of idx s0)) = bool_decide (length q = size)) as ->.
  { pose proof (fifo_holds idx s0 q F0) as Hh. rewrite size_pow in *. by apply ring_full. }
  pose proof (holds_room size _ q (fifo_holds idx s0 q F0)) as Hle.
  (* the state before the timer is started: ring [idx] holds [q'], flagged; the others are as before *)
  assert (forall s1 q', length (shapingCtrl s1) = n -> fifo idx s1 q' -> congestion (ctrl_of idx s1) = true ->
    (forall j, (j < n)%nat -> j <> idx -> keeps j s s1 /\ congestion (ctrl_of j s1) = congestion (ctrl_of j s) /\ kicktxtimer (ctrl_of j s1) = kicktxtimer (ctrl_of j s)) ->
    shaper_inv n (start idx s1) /\ fifo idx (start idx s1) q' /\ forall j, (j < n)%nat -> j <> idx -> keeps j s (start idx s1)) as Fin.
  { intros s1 q' L1 F1 Hc Ho. assert (forall j, (j < n)%nat -> j <> idx -> keeps j s (start idx s1)) as Ks.
    { intros j Hj Hn. eapply meter_keeps_trans; [by apply Ho|]. apply start_keeps. lia. }
    assert (fifo idx (start idx s1) q') as Fs by (apply (keeps_fifo idx s1); [apply start_keeps; lia|done]).
    split; [|done]. split; [destruct (start_keeps idx idx s1 ltac:(lia)) as (_ & _ & _ & ->); done|..]; intros j Hj;
      destruct (start_keeps idx j s1 ltac:(lia)) as (_ & A & B & _); rewrite A; destruct (decide (j = idx)) as [->|Hn].
    - exists q'. split; [done|]. by intros _.
    - destruct (inv_ring n s I j Hj) as (q0 & G & Hq). exists q0. split; [by apply (keeps_fifo j s); [apply Ks|]|].
      destruct (Ho j Hj Hn) as (_ & -> & _). done.
    - intros _. apply B. by right.
    - destruct (Ho j Hj Hn) as (_ & -> & Et). intros Hx. apply B. left. rewrite Et. by apply (inv_timer n s I). }
  assert (forall j, (j < n)%nat -> j <> idx -> ctrl_of j s0 = ctrl_of j s) as C0.
  { intros j Hj Hn. unfold s0. rewrite ctrl_on by lia. by rewrite decide_False. }
  assert (congestion (ctrl_of idx s0) = true) as Ci by (unfold s0; rewrite ctrl_on by lia; by rewrite decide_True).
  unfold room. destruct (decide (length q = size)) as [Hf|Hf].
  - rewrite (bool_decide_eq_true_2 (length q = size)), (bool_decide_eq_false_2 (length q < size)%nat) by lia. cbv beta iota zeta. fold (start idx s0). cbn [fst snd].
    destruct (Fin s0 q E0 F0 Ci) as (A & B & D); [intros j Hj Hn; split; [by apply K0|by rewrite C0]|]. split_and!; try done.
    + apply (proj1 (start_keeps idx idx s0 ltac:(lia))).
    + unfold start. intros from. by destruct (kicktxtimer _).
  - rewrite (bool_decide_eq_false_2 (length q = size)), (bool_decide_eq_true_2 (length q < size)%nat) by lia.
    set (s1 := gem_count p (log (Queued idx p) (on_ctrl idx (put_bucket b) s0))). fold (start idx s1). cbn [fst snd].
    assert (fifo idx s1 (q ++ [b])) as F1.
    { apply (keeps_fifo idx (log (Queued idx p) (on_ctrl idx (put_bucket b) s0))); [apply gem_keeps|]. apply (fifo_put idx s q); try done; lia. }
    assert (length (shapingCtrl s1) = n) as E1 by (unfold s1; rewrite (proj1 (gem_same _ _)); simpl; by rewrite !length_alter).
    destruct (Fin s1 (q ++ [b]) E1 F1) as (A & B & D).
    { unfold s1. rewrite gem_ctrl, ctrl_log, ctrl_on by lia. by rewrite decide_True. }
    { intros j Hj Hn. unfold s1 at 2 3. rewrite gem_ctrl, ctrl_log, ctrl_on by lia. rewrite decide_False by done. rewrite C0 by done.
      split; [|done]. eapply meter_keeps_trans; [by apply K0|]. eapply meter_keeps_trans; [by apply (keeps_on j idx (put_bucket b)); [lia|]|].
      eapply meter_keeps_trans; [|apply gem_keeps]. apply keeps_logged; [simpl; by rewrite decide_False|done]. }
    split_and!; try done.
    + rewrite (proj2 (keeps_log idx s1 _ (proj1 (start_keeps idx idx s1 ltac:(lia))))). unfold s1.
      rewrite (proj2 (keeps_log idx _ _ (gem_keeps idx p _))), left_log. simpl. by rewrite app_nil_r.
    + intros from. assert (sent_log (start idx s1) = sent_log s1) as -> by (unfold start; by destruct (kicktxtimer _)).
      unfold s1, gem_count. destruct gemFilter_conf_en; simpl; rewrite !elem_of_cons; intuition congruence.
Qed.

Lemma send_now_spec p h a b s : let r := send_now p h a b s in steady s r.2 /\ (forall i, keeps i s r.2).
Proof.
  assert (forall e x, steady x (log e x)) as SL by by split. intros r. unfold r, send_now.
  destruct (transmit_cases None p s) as [-> | ->]; simpl; split; try (by split); try (intros i).
  - eapply steady_trans; [apply SL|]. eapply steady_trans; [|apply SL]. unfold gem_count. destruct gemFilter_conf_en; [apply SL|apply steady_refl].
  - eapply meter_keeps_trans; [by apply (keeps_logged i (Sent None p))|]. eapply meter_keeps_trans; [apply gem_keeps|]. by apply keeps_logged.
  - by apply keeps_logged.
Qed.

Definition in_range (n : nat) (h : shaper_pkt) : Prop := Forall (fun i => (i < n)%nat) (meters_of h true true).*1.*1.
Definition ev_ok (n : nat) (e : shaper_event) : Prop :=
  match e with ShSend _ h _ _ => in_range n h | ShKick i => (i < n)%nat | _ => True end.
Lemma meters_none h : meters_of h false false = [].
Proof. done. Qed.
Lemma chosen_range n h b s : (0 < n)%nat -> in_range n h -> (shapingCtrlIdx (try_meters h (meters_of h b b) s).1 < n)%nat.
Proof.
  intros Hn Hr. destruct (try_meters_spec h (meters_of h b b) s) as [[_ _ _ _ [->|Hx] _ _] _]; [done|].
  unfold in_range in Hr. rewrite Forall_forall in Hr. apply Hr. destruct b; [done|]. rewrite meters_none in Hx. by apply elem_of_nil in Hx.
Qed.
Lemma shape_inv n p h a b s : (0 < n)%nat -> in_range n h -> shaper_inv n s -> shaper_inv n (shape p h a b s).2 /\
  forall i, (i < n)%nat -> left i (shape p h a b s).2 = left i s.
Proof.
  intros Hn Hr I. unfold shape, rtk_fc_sw_shaper. set (w := a || b). pose proof (chosen_range n h w s Hn Hr) as Hi.
  destruct (try_meters_spec h (meters_of h w w) s) as [[S K _ _ _ _ _] _]. destruct (try_meters h _ s) as [ch s1]. simpl in *.
  assert (shaper_inv n s1) as I1 by (apply (inv_steady n s); [done..|]; intros; apply K).
  destruct (_ && _).
  - destruct (inv_ring n s1 I1 _ Hi) as (q & F & _).
    destruct (enqueue_spec n (shapingCtrlIdx ch) p (bucket_of p h w w) s1 q I1 Hi F eq_refl) as (A & B & B2 & D & _). split; [done|].
    intros i Hlt. rewrite <- (proj2 (keeps_log i s s1 (K i))). destruct (decide (i = shapingCtrlIdx ch)) as [->|Hne]; [done|].
    apply (keeps_log i s1 _ (D i Hlt Hne)).
  - destruct (send_now_spec p h w w s1) as [A B]. split; [apply (inv_steady n s1); [done..|]; intros; apply B|].
    intros i Hlt. rewrite <- (proj2 (keeps_log i s s1 (K i))). apply (keeps_log i s1 _ (B i)).
Qed.
Lemma shaper_step_inv n e s s' : (0 < n)%nat -> ev_ok n e -> shaper_inv n s -> shaper_step e s = Some s' -> shaper_inv n s'.
Proof.
  intros Hn He I. destruct e as [p h a b|d|i|i r ifg]; simpl.
  - intros [= <-]. by apply shape_inv.
  - intros [= <-]. destruct I as [I1 I2 I3]. split; [done| |done]. intros i Hi. destruct (I2 i Hi) as (q & [F1 F2 F3 F4] & Hq). by exists q.
  - destruct (due i s); [|by intros [= <-]]. intros E. destruct (inv_ring n s I i He) as (q & F & _). by apply (kick_spec n i s s' q).
  - intros [= <-]. destruct I as [I1 I2 I3]. split; [done| |done]. intros j Hj. destruct (I2 j Hj) as (q & [F1 F2 F3 F4] & Hq). by exists q.
Qed.
Lemma shaper_run_inv n es : forall s s', (0 < n)%nat -> Forall (ev_ok n) es -> shaper_inv n s -> shaper_run es s = Some s' -> shaper_inv n s'.
Proof.
  induction es as [|e es IH]; intros s s' Hn He I; simpl; [by intros [= <-]|]. inversion He; subst.
  destruct (shaper_step e s) as [s1|] eqn:E; simpl; [|done]. apply IH; [done..|]. by apply (shaper_step_inv n e s).
Qed.

(** ** Packets leave *)

Definition bcost (i : nat) (b : bucket) (m : meter) : Z := charge m (b_pkt_cnt b) (kick_len i b) (Z.b2z (ifPayLoadLenMode i)).
Definition has_meter (i : nat) (s : shaper) : Prop :=
  if is_flow i then (i - OFFSET_FLOWMETER < length (l34Meter s))%nat else (i - OFFSET_SWMETER < length (swMeter s))%nat.
Lemma meter_set i m s : has_meter i s -> meter_of i (set_meter i m s) = m /\ has_meter i (set_meter i m s).
Proof.
  unfold has_meter, is_flow, meter_of, set_meter. destruct (i <? _)%nat eqn:E; simpl; rewrite ?E; intros H;
    (split; [rewrite nth_lookup, list_lookup_insert_eq by done; done|by rewrite length_insert]).
Qed.
Definition kick_call (i : nat) (b : bucket) (t : Z) (s : shaper) : call :=
  Call t (congestion (ctrl_of i s)) true (b_pkt_cnt b) (kick_len i b) (Z.b2z (ifPayLoadLenMode i)).

(** A card that is never busy; a meter with a rate; costs up to [B]. *)
Section Drain.
Context (n i : nat) (B : Z).
Hypothesis idle : forall l p, nic_busy l p = false.
Hypothesis Hi : (i < n)%nat.

Lemma kick_one_meter b t s : jiffies s = u32 t -> has_meter i s ->
  let d := do_call (kick_call i b t s) (meter_of i s) in
  let r := kick_one i b s in r.1 = d.1 /\ meter_of i r.2 = d.2 /\ has_meter i r.2.
Proof.
  intros Hj Hm d r. unfold r, kick_one, rtk_fc_sw_shaper_rate_couting. rewrite Hj.
  change (count_packet _ _ _ _ _ _ _) with d. destruct d as [ok m]. simpl. destruct (meter_set i m s Hm) as [E1 E2].
  destruct ok; simpl; [|done]. unfold transmit. destruct (tx b); rewrite ?idle; done.
Qed.

(** At jiffy [t] the interval began at [l]. *)
Record metered (t l : Z) (s : shaper) : Prop := {
  md_has : has_meter i s;
  md_clock : jiffies s = u32 t;
  md_fits : fits B (meter_of i s);
  md_ok : meter_ok B l (meter_of i s);
  md_age : l <= t < l + 2 ^ 31 }.
Definition costs (s : shaper) (q : list bucket) : Prop := Forall (fun b => 0 <= bcost i b (meter_of i s) <= B) q.
Lemma do_call_ok t l c m : fits B m -> meter_ok B l m -> l <= t < l + 2 ^ 31 -> c_now c = t -> 0 <= cost c m <= B ->
  meter_ok B (if l + J <=? t then t else l) (do_call c m).2.
Proof.
  intros H3 H4 H5 <- Hc. pose proof (new_interval_ok B l (c_now c) _ H3 H4 ltac:(lia) ltac:(lia)) as HN.
  apply (count_ok B l c m H3 H4 Hc). destruct (l + J <=? c_now c); [apply HN|by rewrite HN].
Qed.
Lemma kick_one_metered t l b s : metered t l s -> (i < length (shapingCtrl s))%nat -> 0 <= bcost i b (meter_of i s) <= B ->
  jiffies (kick_one i b s).2 = jiffies s ->
  metered t (if l + J <=? t then t else l) (kick_one i b s).2 /\ rate (meter_of i (kick_one i b s).2) = rate (meter_of i s) /\
  ifgInclude (meter_of i (kick_one i b s).2) = ifgInclude (meter_of i s).
Proof.
  intros M Hn Hc Ej. pose proof M as [H1 H2 H3 H4 H5]. destruct (kick_one_meter b t s H2 H1) as (A1 & A2 & A3).
  pose proof (do_call_ok t l (kick_call i b t s) _ H3 H4 H5 eq_refl Hc) as D1. destruct (same_rate (kick_call i b t s) (meter_of i s)) as [R1 R2].
  rewrite <- A2 in *. split; [|done]. split; [done|by rewrite Ej| |done|].
  - destruct H3 as [F1 F2]. split; [done|]. by rewrite (quota_rate _ (meter_of i s)).
  - pose proof interval_range. destruct (Z.leb_spec (l + J) t); lia.
Qed.
Lemma costs_same s s' q : ifgInclude (meter_of i s') = ifgInclude (meter_of i s) -> costs s q -> costs s' q.
Proof. intros E H. eapply Forall_impl; [exact H|]. intros b. unfold bcost. by rewrite (charge_ifg (meter_of i s') (meter_of i s)). Qed.
Lemma kick_loop_metered cnt : forall burst thr s q t l, (i < length (shapingCtrl s))%nat -> fifo i s q -> costs s q -> metered t l s ->
  let r := kick_loop cnt i burst thr s in
  (exists l', metered t l' r.2 /\ l <= l' /\ (q <> [] -> cnt <> O -> t < l' + J)) /\ rate (meter_of i r.2) = rate (meter_of i s) /\ ifgInclude (meter_of i r.2) = ifgInclude (meter_of i s).
Proof.
  induction cnt as [|cnt IH]; intros burst thr s q t l Hn F Hc M r; unfold r; clear r; simpl.
  { split; [exists l; split; [done|]; split; [lia|done]|done]. }
  rewrite (ring_head i s q F). destruct q as [|b q]; simpl.
  { split; [exists l; split; [done|]; split; [lia|done]|done]. }
  inversion Hc as [|? ? Hb Hq]; subst.
  pose proof (kick_one_spec i b q s Hn F) as (F1 & _ & [S1 S2 _] & _). destruct (kick_one_metered t l b s M Hn Hb S2) as (M1 & R1 & R2).
  set (l1 := if l + J <=? t then t else l) in *. destruct (kick_one i b s) as [gone s1]. simpl in *.
  assert (l <= l1 /\ t < l1 + J) as [La Lb] by (unfold l1; pose proof interval_range; destruct (Z.leb_spec (l + J) t); lia).
  destruct gone; simpl; [|by split; [exists l1|]]. destruct (thr <=? _); [by split; [exists l1|]|]. rewrite (ring_head i s1 q F1).
  destruct q as [|b' q]; simpl; [by split; [exists l1|]|].
  destruct (IH (u32 (burst + kick_len i b)) thr s1 (b' :: q) t l1 ltac:(lia) F1 ltac:(by apply (costs_same s)) M1) as ((l' & A1 & A2 & A3) & A4 & A5).
  split; [|split; congruence]. exists l'. split; [done|]. lia.
Qed.

(** Rounds in which nothing is sent, but the timer runs. *)
Definition rounds (k : nat) : list shaper_event := concat (replicate k [ShTime RTK_FC_SW_SHAPING_TIMER_TICK; ShKick i]).
Lemma shaper_run_app es fs s : shaper_run (es ++ fs) s = s' ← shaper_run es s; shaper_run fs s'.
Proof. revert s. induction es as [|e es IH]; intros s; simpl; [done|]. destruct (shaper_step e s); simpl; [apply IH|done]. Qed.
Lemma rounds_add a b : rounds (a + b) = rounds a ++ rounds b.
Proof. unfold rounds. by rewrite replicate_add, concat_app. Qed.
Record same_conf (s s' : shaper) : Prop := {
  sc_rate : rate (meter_of i s') = rate (meter_of i s);
  sc_ifg : ifgInclude (meter_of i s') = ifgInclude (meter_of i s) }.
(** The timer was just set, in the interval that began at [l]. *)
Record ready (t l : Z) (s : shaper) (q : list bucket) : Prop := {
  rd_inv : shaper_inv n s;
  rd_fifo : fifo i s q;
  rd_costs : costs s q;
  rd_meter : metered t l s;
  rd_age : t < l + J;
  rd_timer : q <> [] -> lastJiffies_kickTimer (ctrl_of i s) = u32 t /\
    kicktxtimer (ctrl_of i s) = Some (u32 (t + RTK_FC_SW_SHAPING_TIMER_TICK)) }.

Lemma burst_some t s : jiffies s = u32 (t + RTK_FC_SW_SHAPING_TIMER_TICK) -> lastJiffies_kickTimer (ctrl_of i s) = u32 t ->
  is_Some (burst_threshold i s).
Proof.
  intros E1 E2. unfold burst_threshold. rewrite E1, E2. pose proof interval_range. pose proof tick_range.
  assert (u32 (u32 (t + RTK_FC_SW_SHAPING_TIMER_TICK) - u32 t) = RTK_FC_SW_SHAPING_TIMER_TICK) as ->.
  { unfold u32. rewrite <- Zminus_mod. replace (_ + _ - _) with RTK_FC_SW_SHAPING_TIMER_TICK by lia. apply Z.mod_small. lia. }
  destruct (Z.eqb_spec RTK_FC_SW_SHAPING_TIMER_TICK 0); [lia|]. destruct (Z.eqb_spec (J / RTK_FC_SW_SHAPING_TIMER_TICK) 0) as [E|]; [|by eexists].
  exfalso. assert (1 <= J / RTK_FC_SW_SHAPING_TIMER_TICK); [|lia]. apply Z.div_le_lower_bound; lia.
Qed.
(** The timer fires: the state in which its handler runs. *)
Record fired (t l : Z) (s : shaper) (b : bucket) (q : list bucket) : Prop := {
  fd_in : (i < length (shapingCtrl s))%nat;
  fd_fifo : fifo i s (b :: q);
  fd_costs : costs s (b :: q);
  fd_meter : metered t l s;
  fd_burst : is_Some (burst_threshold i s) }.
Lemma ready_fires t l s b q : ready t l s (b :: q) -> let t' := t + RTK_FC_SW_SHAPING_TIMER_TICK in
  exists s2, fired t' l s2 b q /\ shaper_run (rounds 1) s = rtk_fc_sw_shaper_kicktx_timerfunc i s2 /\ meter_of i s2 = meter_of i s /\
    left i s2 = left i s /\ congestion (ctrl_of i s2) = congestion (ctrl_of i s).
Proof.
  intros [I F Hc M Ha Ht] t'. destruct (Ht ltac:(done)) as [Ht1 Ht2]. pose proof interval_range as HJ. pose proof tick_range as HT.
  set (s1 := Shaper (u32 (jiffies s + RTK_FC_SW_SHAPING_TIMER_TICK)) (l34Meter s) (swMeter s) (shapingCtrl s) (sent_log s)).
  assert (jiffies s1 = u32 t') as Ej by (simpl; rewrite (md_clock t l s M); apply u32_add_l). pose proof (inv_size n s I) as En.
  assert (i < length (shapingCtrl s1))%nat as Hl1 by (simpl; lia).
  assert (ctrl_of i (on_ctrl i stop_timer s1) = stop_timer (ctrl_of i s)) as Ec by (rewrite ctrl_on by done; by rewrite decide_True).
  assert (due i s1 = true) as Hd.
  { unfold due. change (ctrl_of i s1) with (ctrl_of i s). rewrite Ht2, Ej. unfold time_after_eq, t'. by rewrite Z.sub_diag. }
  exists (on_ctrl i stop_timer s1). split.
  - split; [simpl; rewrite length_alter; lia| |done| |].
    + apply (keeps_fifo i s1); [by apply keeps_on|]. destruct F as [A1 A2 A3 A4]. by split.
    + destruct M as [A1 A2 A3 A4 A5]. split; try done. lia.
    + apply (burst_some t); [done|by rewrite Ec].
  - split; [|by rewrite Ec]. simpl. fold s1. rewrite Hd. by destruct (rtk_fc_sw_shaper_kicktx_timerfunc _ _).
Qed.
(** What the handler did: some packets left, or the first one was refused by the meter. *)
Record kicked (t l : Z) (s s' : shaper) (b : bucket) (q : list bucket) (gone q' : list bucket) (l' : Z) : Prop := {
  kd_queue : b :: q = gone ++ q';
  kd_fifo : fifo i s' q';
  kd_left : left i s' = left i s ++ (tx <$> gone);
  kd_meter : metered t l' s';
  kd_conf : same_conf s s';
  kd_age : t < l' + J;
  kd_timer : q' <> [] -> lastJiffies_kickTimer (ctrl_of i s') = u32 t /\
    kicktxtimer (ctrl_of i s') = Some (u32 (t + RTK_FC_SW_SHAPING_TIMER_TICK));
  kd_refused : gone = [] -> let d := do_call (kick_call i b t s) (meter_of i s) in
    d.1 = false /\ meter_of i s' = d.2 }.
Lemma fired_kick t l s b q : fired t l s b q ->
  exists s' gone q' l', rtk_fc_sw_shaper_kicktx_timerfunc i s = Some s' /\ kicked t l s s' b q gone q' l'.
Proof.
  intros [Hl F Hc M [thr Hthr]].
  destruct (kick_loop_spec i size 0 thr s (b :: q) Hl F) as (gone & q' & Eq & F3 & L3 & He & Hg & [S31 S32 S33] & _).
  destruct (kick_loop_metered size 0 thr s (b :: q) t l Hl F Hc M) as ((l' & M3 & _ & Ha3) & R3 & I3).
  pose proof size_positive as Hs. destruct (kick_one_meter b t s (md_clock t l s M) (md_has t l s M)) as (K1 & K2 & _).
  pose proof (kick_loop_refused i size 0 thr s b q F) as Hr. set (r := kick_loop size i 0 thr s) in *.
  set (g := if r.1 then set_timer (jiffies r.2) else set_congestion false).
  exists (on_ctrl i g r.2), gone, q', l'. split.
  { unfold rtk_fc_sw_shaper_kicktx_timerfunc, g. rewrite (ring_head i s _ F). simpl. rewrite Hthr. simpl. fold r. by destruct r as [[] ?]. }
  assert (ctrl_of i (on_ctrl i g r.2) = g (ctrl_of i r.2)) as Ec by (rewrite ctrl_on by lia; by rewrite decide_True).
  split; try done.
  - apply (keeps_fifo i r.2); [|done]. apply keeps_on; [lia|]. intros _. unfold g. by destruct r.1.
  - destruct M3 as [A1 A2 A3 A4 A5]. by split.
  - apply Ha3; [done|lia].
  - intros Hq. rewrite Ec. unfold g. destruct r.1; [|by rewrite He in Hq]. simpl. rewrite S32, (md_clock t l s M). by rewrite u32_add_l.
  - intros Hgo. specialize (Hg Hgo b q eq_refl ltac:(lia)). cbv zeta. rewrite <- K1, <- K2. split; [done|].
    change (meter_of i (on_ctrl i g r.2)) with (meter_of i r.2). by rewrite (Hr ltac:(lia) Hg).
Qed.
Lemma round_spec t l s b q : ready t l s (b :: q) -> let t' := t + RTK_FC_SW_SHAPING_TIMER_TICK in
  exists s' gone q' l', shaper_run (rounds 1) s = Some s' /\ same_conf s s' /\ b :: q = gone ++ q' /\ ready t' l' s' q' /\
    left i s' = left i s ++ (tx <$> gone) /\
    (gone = [] -> let d := do_call (kick_call i b t' s) (meter_of i s) in d.1 = false /\ meter_of i s' = d.2).
Proof.
  intros R t'. destruct (ready_fires t l s b q R) as (s2 & Fd & Er & Em & El & Ecg). destruct R as [I _ Hc _ _ _].
  destruct (fired_kick _ _ _ _ _ Fd) as (s' & gone & q' & l' & Ek & [D1 D2 D3 D4 [D51 D52] D6 D7 D8]). rewrite Em in *.
  assert (kick_call i b t' s2 = kick_call i b t' s) as Eca by (unfold kick_call; by rewrite Ecg). fold t' in D8. rewrite Eca in D8.
  exists s', gone, q', l'. rewrite Er, Ek. split; [done|]. split; [split; congruence|]. split; [done|]. split; [|by rewrite <- El].
  split; [|done| |done|done|done].
  - apply (shaper_run_inv n (rounds 1) s); [lia| |done|by rewrite Er, Ek]. repeat constructor. done.
  - apply (costs_same s); [congruence|]. unfold costs in *. rewrite D1, Forall_app in Hc. apply Hc.
Qed.

(** What a refusal leaves: the rest of the interval is kept for the next one. *)
Definition rest (m : meter) : Z := quota m + lastBandwthByte_preInterval m - byteCount m.
Lemma refused_meter t l c m : fits B m -> meter_ok B l m -> l <= t < l + 2 ^ 31 -> c_now c = t -> 0 <= cost c m <= B ->
  (do_call c m).1 = false -> c_resched c = true -> let m' := (do_call c m).2 in
  lastBandwthByte_curInterval m' = rest m' /\ rest m' < cost c m /\
  if l + J <=? t then byteCount m' = 0 /\ lastBandwthByte_preInterval m' = lastBandwthByte_curInterval m
  else byteCount m' = byteCount m /\ lastBandwthByte_preInterval m' = lastBandwthByte_preInterval m.
Proof.
  intros F H4 H5 Ht Hc Hd Hr m'. pose proof (new_interval_ok B l t _ F H4 ltac:(lia) ltac:(lia)) as HN. destruct F as [F1 F2].
  assert (l + J <=? t = true -> lastBandwthByte_preInterval (new_interval (u32 t) m) = lastBandwthByte_curInterval m) as HP.
  { intros E. unfold new_interval. rewrite (ok_last B l m H4), after_eq_near, E by (pose proof interval_range; lia). done. }
  assert (quota (new_interval (u32 t) m) = quota m) as Eq by (apply quota_rate; unfold new_interval; by destruct (time_after_eq _ _)).
  unfold m' in *. unfold do_call, count_packet in *. rewrite Hr, Ht in *. simpl in *. fold (cost c m) in *.
  set (m0 := new_interval (u32 t) m) in *.
  assert (exists l0, meter_ok B l0 m0) as [l0 [_ Ob Op Ou]] by (destruct (l + J <=? t); [exists t; apply HN|exists l; by rewrite HN]).
  assert (byte_limit m0 = quota m0 + lastBandwthByte_preInterval m0) as EL by (unfold byte_limit; apply shaper_wrap; lia).
  rewrite (shaper_wrap (byteCount m0 + cost c m)) in * by lia.
  destruct (Z.ltb_spec (byte_limit m0) (byteCount m0 + cost c m)) as [Hlt|]; [|done]. simpl.
  unfold rest. simpl. change (quota (over_limit m0)) with (quota m0). rewrite EL, shaper_wrap by lia.
  split; [done|]. split; [lia|]. destruct (l + J <=? t); [split; [apply HN|by apply HP]|by rewrite HN].
Qed.

(** Within [k] rounds packets leave. *)
Definition progress (t l : Z) (s : shaper) (q : list bucket) (k : nat) : Prop :=
  exists k' s' gone q' t' l', (k' <= k)%nat /\ shaper_run (rounds k') s = Some s' /\ same_conf s s' /\ q = gone ++ q' /\ gone <> [] /\
    ready t' l' s' q' /\ left i s' = left i s ++ (tx <$> gone).
Lemma progress_after t l s q k t1 l1 s1 : shaper_run (rounds 1) s = Some s1 -> same_conf s s1 -> left i s1 = left i s ->
  progress t1 l1 s1 q k -> progress t l s q (S k).
Proof.
  intros E [C1 C2] L1 (k' & s' & gone & q' & t' & l' & P1 & P2 & [P3 P4] & P5 & P6 & P7 & P8).
  exists (1 + k')%nat, s', gone, q', t', l'. split; [lia|]. split; [by rewrite rounds_add, shaper_run_app, E|].
  split; [split; congruence|]. split_and!; try done. by rewrite P8, L1.
Qed.
Lemma progress_more t l s q k k' : (k <= k')%nat -> progress t l s q k -> progress t l s q k'.
Proof. intros Hk (k1 & s' & gone & q' & t' & l' & P1 & P). exists k1, s', gone, q', t', l'. split; [lia|done]. Qed.
(** The rest of the interval, and then [j] intervals that each add the meter's quota. *)
Lemma waiting j : forall r t l s b q, ready t l s (b :: q) -> let m := meter_of i s in
  lastBandwthByte_curInterval m = rest m -> rest m < bcost i b m ->
  l + J - t <= Z.of_nat r * RTK_FC_SW_SHAPING_TIMER_TICK ->
  bcost i b m <= rest m + Z.of_nat j * quota m ->
  progress t l s (b :: q) (r + j * Z.to_nat (J / RTK_FC_SW_SHAPING_TIMER_TICK + 1)).
Proof.
  pose proof tick_range as HT. pose proof interval_range as HJ. induction j as [|j IHj]; [intros; simpl in *; lia|].
  set (R := Z.to_nat (J / RTK_FC_SW_SHAPING_TIMER_TICK + 1)) in *.
  assert (J <= Z.of_nat R * RTK_FC_SW_SHAPING_TIMER_TICK) as HR.
  { unfold R. assert (0 <= J / RTK_FC_SW_SHAPING_TIMER_TICK) by (apply Z.div_pos; lia). rewrite Z2Nat.id by lia.
    pose proof (Z.mul_succ_div_gt J RTK_FC_SW_SHAPING_TIMER_TICK). lia. }
  induction r as [|r IHr]; intros t l s b q Rd m E1 E2 Hr Hj.
  { pose proof (rd_age _ _ _ _ Rd). simpl in Hr. lia. }
  destruct (round_spec t l s b q Rd) as (s' & gone & q' & l' & Er & Cf & Eq & Rd' & Lf & Hg). set (t' := t + RTK_FC_SW_SHAPING_TIMER_TICK) in *.
  destruct gone as [|g gone]; [|by exists 1%nat, s', (g :: gone), q', t', l'; split; [lia|]]. specialize (Hg eq_refl). cbv zeta in Hg. destruct Hg as [Hg1 Hg2].
  simpl in Eq. subst q'. rewrite app_nil_r in Lf. pose proof Rd as [_ _ Hc M Ha _]. inversion Hc as [|? ? Hb _]; subst.
  pose proof M as [M1 M2 M3 M4 M5].
  assert (quota (meter_of i s') = quota m) as Qs by (apply quota_rate, Cf).
  assert (bcost i b (meter_of i s') = bcost i b m) as Bs by (apply charge_ifg, Cf).
  assert (l <= t' < l + 2 ^ 31) as Ht' by (unfold t'; lia).
  destruct (refused_meter t' l (kick_call i b t' s) m M3 M4 Ht' eq_refl Hb Hg1 eq_refl) as (W1 & W2 & W3).
  pose proof (do_call_ok t' l (kick_call i b t' s) m M3 M4 Ht' eq_refl Hb) as D1. fold m in Hg2. rewrite <- Hg2 in *.
  change (cost _ m) with (bcost i b m) in W2. pose proof (rd_meter _ _ _ _ Rd') as [_ _ _ M4' M5'].
  apply (progress_after t l s _ (r + S j * R) t' l' s'); [done|done|done|].
  assert (l' = if l + J <=? t' then t' else l) as El.
  { apply (age_unique t'); [|lia|destruct (l + J <=? t'); lia]. by rewrite <- (ok_last B l' _ M4'), (ok_last B _ _ D1). }
  unfold rest in *. rewrite Qs, ?Bs in *. destruct (Z.leb_spec (l + J) t') as [Hn|Hn]; destruct W3 as [W3 W4].
  - apply (progress_more _ _ _ _ (R + j * R)); [lia|]. apply IHj; try done; unfold rest; rewrite ?Qs, ?Bs; try done.
    + subst l'. lia.
    + rewrite W3, W4, E1. lia.
  - apply IHr; try done; unfold rest; rewrite ?Qs, ?Bs; try done.
    + subst l'. unfold t' in *. lia.
    + rewrite W3, W4. lia.
Qed.

Abbreviation interval_rounds := (Z.to_nat (J / RTK_FC_SW_SHAPING_TIMER_TICK + 1)).
(** The rounds after which the oldest packet is gone. *)
Definition patience (m : meter) : nat := 1 + (interval_rounds + Z.to_nat (B / quota m + 1) * interval_rounds).
Lemma oldest_leaves t l s b q : ready t l s (b :: q) -> 0 < quota (meter_of i s) -> progress t l s (b :: q) (patience (meter_of i s)).
Proof.
  intros Rd HQ. pose proof tick_range as HT. pose proof interval_range as HJ.
  destruct (round_spec t l s b q Rd) as (s' & gone & q' & l' & Er & Cf & Eq & Rd' & Lf & Hg). set (t' := t + RTK_FC_SW_SHAPING_TIMER_TICK) in *.
  destruct gone as [|g gone]; [|exists 1%nat, s', (g :: gone), q', t', l'; split; [unfold patience; lia|done]].
  specialize (Hg eq_refl). cbv zeta in Hg. destruct Hg as [Hg1 Hg2].
  simpl in Eq. subst q'. rewrite app_nil_r in Lf. pose proof Rd as [_ _ Hc [_ _ M3 M4 M5] Ha _]. inversion Hc as [|? ? Hb _]; subst.
  destruct (refused_meter t' l (kick_call i b t' s) _ M3 M4 ltac:(unfold t'; lia) eq_refl Hb Hg1 eq_refl) as (W1 & W2 & _).
  rewrite <- Hg2 in *. change (cost _ (meter_of i s)) with (bcost i b (meter_of i s)) in W2.
  assert (quota (meter_of i s') = quota (meter_of i s)) as Qs by (apply quota_rate, Cf).
  assert (bcost i b (meter_of i s') = bcost i b (meter_of i s)) as Bs by (apply charge_ifg, Cf).
  pose proof (rd_meter _ _ _ _ Rd') as [_ _ [F1 _] [_ O2 _ _] A5].
  apply (progress_after t l s _ _ t' l' s'); [done|done|done|]. apply waiting; rewrite ?Qs, ?Bs; try done.
  - assert (0 <= J / RTK_FC_SW_SHAPING_TIMER_TICK) by (apply Z.div_pos; lia). rewrite Z2Nat.id by lia.
    pose proof (Z.mul_succ_div_gt J RTK_FC_SW_SHAPING_TIMER_TICK). lia.
  - assert (0 <= B / quota (meter_of i s)) by (apply Z.div_pos; lia). rewrite Z2Nat.id by lia.
    pose proof (Z.mul_succ_div_gt B (quota (meter_of i s))). unfold rest. rewrite Qs in *. nia.
Qed.
Lemma ring_drains q : forall t l s, ready t l s q -> 0 < quota (meter_of i s) ->
  exists k s', (k <= length q * patience (meter_of i s))%nat /\ shaper_run (rounds k) s = Some s' /\ left i s' = left i s ++ (tx <$> q) /\
    oldest (queue (ctrl_of i s')) = None.
Proof.
  induction q as [q IH] using (induction_ltof1 _ (@length bucket)). intros t l s Rd HQ. destruct q as [|b q].
  { exists 0%nat, s. split_and!; [lia|done|by rewrite app_nil_r|]. by rewrite (ring_head i s [] (rd_fifo _ _ _ _ Rd)). }
  destruct (oldest_leaves t l s b q Rd HQ) as (k & s1 & gone & q' & t' & l' & P1 & P2 & P3 & P4 & P5 & P6 & P7).
  assert (quota (meter_of i s1) = quota (meter_of i s)) as Qs by (apply quota_rate, P3).
  assert (length q' < length (b :: q))%nat as Hl by (rewrite P4, length_app; destruct gone; [done|simpl; lia]).
  destruct (IH q' Hl t' l' s1 P6) as (k2 & s2 & E1 & E2 & E3 & E4); [by rewrite Qs|].
  assert (patience (meter_of i s1) = patience (meter_of i s)) as Ep by (unfold patience; by rewrite Qs).
  exists (k + k2)%nat, s2. rewrite Ep in E1. split.
  { apply Nat.le_trans with (S (length q') * patience (meter_of i s))%nat; [rewrite Nat.mul_succ_l; lia|]. apply Nat.mul_le_mono_r. lia. }
  split; [by rewrite rounds_add, shaper_run_app, P2|].
  split; [|done]. by rewrite E3, P7, P4, fmap_app, app_assoc.
Qed.
End Drain.

(** ** Theorems *)

(** C34: whatever is sent and however the timers run, what entered the ring of a meter is
    what left it followed by what still waits, in the same order; while packets wait the
    meter is marked as congested and its timer runs. *)
Theorem shaper_rings_are_queues n es now flows hosts s i : (0 < n)%nat -> Forall (ev_ok n) es ->
  shaper_run es (shaper_init now flows hosts n) = Some s -> (i < n)%nat ->
  exists q, holds size (queue (ctrl_of i s)) q /\ entered i s = left i s ++ (tx <$> q) /\ (length q <= size)%nat /\
    enququcnt (ctrl_of i s) = u32 (Z.of_nat (length (entered i s))) /\ pausetxcnt (ctrl_of i s) = u32 (Z.of_nat (length (left i s))) /\
    (q <> [] -> congestion (ctrl_of i s) = true /\ is_Some (kicktxtimer (ctrl_of i s))).
Proof.
  intros Hn He E Hi. pose proof (shaper_run_inv n es _ _ Hn He (init_inv now flows hosts n) E) as I.
  destruct (inv_ring n s I i Hi) as (q & [F1 F2 F3 F4] & Hq). exists q. split_and!; try done.
  - apply (holds_room size _ q F1).
  - intros Hne. split; [by apply Hq|]. by apply (inv_timer n s I i Hi), Hq.
Qed.

(** A packet that is limited by a meter whose ring holds packets does not overtake
    them: it is put at the end of the ring of one of its meters or refused, not sent.  This
    holds for all packets but those of the control of a TCP connection, and for meters
    whose rate is not the largest number. *)
Theorem shaper_does_not_reorder n es now flows hosts s i p h a b : (0 < n)%nat -> Forall (ev_ok n) es ->
  shaper_run es (shaper_init now flows hosts n) = Some s -> (i < n)%nat -> oldest (queue (ctrl_of i s)) <> None ->
  a || b = true -> in_range n h -> i ∈ (meters_of h true true).*1.*1 -> rtk_fc_sw_shaper_skip_specific_tcp h = false ->
  Forall (fun j => rate (meter_of j s) < 0xFFFFFFFF) (meters_of h true true).*1.*1 ->
  (forall from, Sent from p ∉ sent_log s) ->
  let r := shape p h a b s in exists j, j ∈ (meters_of h true true).*1.*1 /\
  (forall from, Sent from p ∉ sent_log r.2) /\
  (r.1 = RTK_FC_RET_OK -> entered j r.2 = entered j s ++ [p]) /\
  (r.1 <> RTK_FC_RET_OK -> entered j r.2 = entered j s /\ full_at (queue (ctrl_of j s)) = true).
Proof.
  intros Hn He E Hi Hw Hab Hr Hm Ht Hs Hnew r. pose proof (shaper_run_inv n es _ _ Hn He (init_inv now flows hosts n) E) as I.
  unfold r, shape, rtk_fc_sw_shaper. rewrite Hab. clear r. pose proof (chosen_range n h true s Hn Hr) as Hx.
  destruct (try_meters_spec h (meters_of h true true) s) as [[S K L1 _ _ W Z1] _]. destruct (try_meters h _ s) as [ch s1]. simpl in *.
  assert (shaper_inv n s1) as I1 by (apply (inv_steady n s); [done..|]; intros; apply K).
  destruct (inv_ring n s I i Hi) as (qi & Fi & Hqi). rewrite (ring_head i s qi Fi) in Hw.
  assert (ifCongestion ch = true) as Hc.
  { apply (W i Hm); [rewrite (inv_size n s I); lia|]. apply Hqi. by intros ->. }
  rewrite Hc, Ht. simpl. exists (shapingCtrlIdx ch). split; [by apply Z1|].
  destruct (inv_ring n s1 I1 _ Hx) as (q & F & _).
  pose proof (enqueue_spec n (shapingCtrlIdx ch) p (bucket_of p h true true) s1 q I1 Hx F eq_refl) as (_ & F2 & L2 & _ & Hret & Hsent).
  split; [intros from Hin; apply (Hnew from); rewrite <- L1; by apply Hsent|].
  rewrite <- (proj1 (keeps_log _ s s1 (K (shapingCtrlIdx ch)))).
  rewrite (fifo_order _ _ _ F2), L2, (fifo_order _ _ _ F).
  assert (full_at (queue (ctrl_of (shapingCtrlIdx ch) s)) = bool_decide (length q = size)) as ->.
  { rewrite <- (keeps_ring _ s s1 (K (shapingCtrlIdx ch))). pose proof (fifo_holds _ s1 q F) as Hh. rewrite size_pow in *. by apply ring_full. }
  pose proof (holds_room size _ q (fifo_holds _ s1 q F)) as Hle. case_bool_decide as Hq; simpl in *.
  - split; [intros _; by rewrite fmap_app, <- app_assoc|]. by intros [].
  - split; [intros E1; rewrite E1 in Hret; by destruct tx_busy_to_ps|]. intros _. split; [done|]. apply bool_decide_eq_true_2. lia.
Qed.
(** C35: a meter lets no more bytes pass in [T] jiffies than its quota and one packet for
    each interval that began, whoever asks and however often. *)
Theorem meters_keep_their_rate B t0 t1 cs m : fits B m -> lastJiffies m = u32 t0 -> byteCount m = 0 ->
  lastBandwthByte_curInterval m = 0 -> lastBandwthByte_preInterval m = 0 ->
  Forall (fun c => 0 <= cost c m <= B) cs -> in_order t0 cs t1 -> t1 - t0 < 2 ^ 31 ->
  passed cs m <= ((t1 - t0) / J + 1) * (quota m + B).
Proof.
  intros Hf E1 E2 E3 E4 Hc Ho Ht. pose proof (quota_nonneg m). destruct Hf as [HB Hf].
  pose proof (passed_bound B t1 cs m t0 t0 (conj HB Hf)) as H1. rewrite E2, Z.sub_0_r in H1. apply H1; try done.
  split; rewrite ?E2, ?E3, ?E4; try done; lia.
Qed.

(** Waiting packets leave: while nothing else is sent, the card takes packets and the
    timer runs on time, all packets of a ring are sent, in their order, within a number of
    rounds of the timer that depends on the packets' size and the meter's rate. *)
Theorem waiting_packets_leave n i B t l s q : (forall x p, nic_busy x p = false) -> (i < n)%nat -> ready n i B t l s q ->
  0 < quota (meter_of i s) ->
  exists k s', (k <= length q * patience B (meter_of i s))%nat /\ shaper_run (rounds i k) s = Some s' /\
    left i s' = left i s ++ (tx <$> q) /\ oldest (queue (ctrl_of i s')) = None.
Proof. intros Hb Hi. by apply ring_drains. Qed.

(** C36: the handler of the timer divides by zero exactly if packets wait and it runs later
    than an interval after it was set, or in the same jiffy. *)
Theorem late_timer_divides_by_zero i s : let elapsed := u32 (jiffies s - lastJiffies_kickTimer (ctrl_of i s)) in
  rtk_fc_sw_shaper_kicktx_timerfunc i s = None <-> oldest (queue (ctrl_of i s)) <> None /\ (elapsed = 0 \/ J < elapsed).
Proof.
  intros elapsed. unfold rtk_fc_sw_shaper_kicktx_timerfunc. pose proof interval_range. destruct (oldest _) as [b|]; [|by split; [|intros []]].
  unfold burst_threshold. fold elapsed. assert (0 <= elapsed) by (apply Z.mod_pos_bound; lia).
  destruct (Z.eqb_spec elapsed 0) as [E|E]; simpl; [by split; [intros _; split; [|left]|]|].
  destruct (Z.eqb_spec (J / elapsed) 0) as [E2|E2]; simpl.
  - split; [|done]. intros _. split; [done|]. right. apply Z.div_small_iff in E2; lia.
  - split; [by destruct (kick_loop _ _ _ _ _)|]. intros [_ [?|?]]; [lia|]. destruct E2. apply Z.div_small. lia.
Qed.
End Spec.

(** ** A small shaper to try: rings of four, intervals of ten jiffies *)

#[local] Instance small_shaper : ShaperConfig := {|
  RTK_FC_SW_SHAPING_JIFFIES := 10; CONFIG_HZ := 100; RTK_FC_SW_SHAPING_TIMER_TICK := 5; RTK_FC_SW_SHAPING_BURST_BYTES := 100;
  RTK_FC_MAX_SHAPING_QUEUE_SIZE := 4; OFFSET_FLOWMETER := 0; OFFSET_SWMETER := 2; RT_RATE_HOSTPOLICING_TABLE_SIZE := 16;
  SW_SHAPERMIB_UPDATE_BY_PKTLEN := 0; SW_SHAPERMIB_UPDATE_BY_PAYLOADLEN := 1;
  SW_SHAPER_UPDATE_BY_PKTLEN_MIB_UPDATE_BY_PAYLOADLEN := 2; SW_SHAPER_UPDATE_BY_PAYLOADLEN_MIB_UPDATE_BY_PKTLEN := 3;
  sw_shaperMib_update_mode_host := 0; sw_shaperMib_update_mode_flow := 0; tx_busy_to_ps := false; gemFilter_conf_en := false;
  hostPoliceInfoTable := fun i => HostInfo (Some i) true; hostPoliceConfList := fun i => HostConf true i false 0;
  wrap := u32; nic_busy := fun _ _ => false |}.
#[local] Instance small_shaper_laws : ShaperLaws small_shaper.
Proof. refine {| size_log := 2 |}; [done..|]. intros z Hz. change (u32 z = z). unfold u32. by rewrite Z.mod_small. Defined.

(** A packet of flow 0, whose meter lets 1200 bytes pass in an interval. *)
Definition small_pkt (len : Z) : shaper_pkt := ShaperPkt None None len len len 0 (Some 7) (Some 0%nat) 0 NoIp None.
Definition small_tx (id len : Z) : tx_priv := NicTx (SkbRef id len).
Definition small_send (id len : Z) : shaper_event := ShSend (small_tx id len) (small_pkt len) true false.
Definition small_start : shaper := shaper_init 1000 [100; 50] [200] 3.
Definition small_sends : list shaper_event := [small_send 1 996; small_send 2 496; small_send 3 96].
Definition small_waiting : shaper := Eval vm_compute in default small_start (shaper_run small_sends small_start).
Lemma small_run : shaper_run small_sends small_start = Some small_waiting.
Proof. vm_compute. reflexivity. Qed.
Lemma small_sends_ok : Forall (ev_ok 3) small_sends.
Proof. repeat (constructor; [unfold ev_ok, small_send, in_range; vm_compute; repeat constructor|]). constructor. Qed.

Lemma shaper_rings_are_queues_witness : exists q, holds 4 (queue (ctrl_of 0 small_waiting)) q /\
  entered 0 small_waiting = left 0 small_waiting ++ (tx <$> q).
Proof.
  destruct (shaper_rings_are_queues 3 small_sends 1000 [100; 50] [200] small_waiting 0 ltac:(lia) small_sends_ok small_run ltac:(lia))
    as (q & H1 & H2 & _). by exists q.
Defined.
(** The first packet goes at once, the second waits, the third is not sent before it. *)
Lemma shaper_does_not_reorder_witness :
  exists j, entered j (shape (small_tx 4 96) (small_pkt 96) true false small_waiting).2 = entered j small_waiting ++ [small_tx 4 96].
Proof.
  assert ((meters_of (small_pkt 96) true true).*1.*1 = [0%nat]) as E by (vm_compute; reflexivity).
  destruct (shaper_does_not_reorder 3 small_sends 1000 [100; 50] [200] small_waiting 0 (small_tx 4 96) (small_pkt 96) true false)
    as (j & _ & _ & H & _).
  - lia.
  - exact small_sends_ok.
  - exact small_run.
  - lia.
  - vm_compute. discriminate.
  - reflexivity.
  - unfold in_range. rewrite E. constructor; [lia|constructor].
  - rewrite E. by left.
  - reflexivity.
  - rewrite E. constructor; [vm_compute; reflexivity|constructor].
  - intros from H. unfold small_waiting in H. cbn [sent_log] in H.
    repeat (apply elem_of_cons in H as [H|H]; [vm_compute in H; congruence|]). by apply elem_of_nil in H.
  - exists j. apply H. reflexivity.
Defined.
Lemma meters_keep_their_rate_witness :
  let m := Meter 100 false 1000 0 0 0 0 in
  let cs := [Call 1000 false false 1 996 0; Call 1003 false false 1 500 0; Call 1012 false false 1 500 0] in
  passed cs m <= ((1012 - 1000) / RTK_FC_SW_SHAPING_JIFFIES + 1) * (quota m + 1500).
Proof.
  intros m cs. apply (meters_keep_their_rate 1500 1000 1012 cs m).
  - by vm_compute.
  - reflexivity.
  - reflexivity.
  - reflexivity.
  - reflexivity.
  - unfold cs. repeat (constructor; [by vm_compute|]). constructor.
  - simpl. lia.
  - done.
Defined.
Definition small_bucket (id len : Z) : bucket := Bucket (small_tx id len) None None (Some 7) 0 len 1.
Lemma small_ready : ready 3 0 1500 1000 1000 small_waiting [small_bucket 2 496; small_bucket 3 96].
Proof.
  assert (shaper_inv 3 small_waiting) as I.
  { apply (shaper_run_inv 3 small_sends small_start); [lia|exact small_sends_ok|apply init_inv|exact small_run]. }
  split; [done| | | |done|done].
  - split; [|reflexivity..]. split; try reflexivity; [vm_compute; lia|vm_compute; lia| |].
    + intros [|[|k]] x E; vm_compute in E; simplify_eq; reflexivity.
    + intros k Hk. simpl in Hk. assert (k = 2%nat \/ k = 3%nat) as [->| ->] by lia; reflexivity.
  - repeat (constructor; [by vm_compute|]). constructor.
  - split; [vm_compute; lia|reflexivity|by vm_compute| |lia]. split; by vm_compute.
Qed.
Lemma waiting_packets_leave_witness : exists k s', shaper_run (rounds 0 k) small_waiting = Some s' /\
  left 0 s' = left 0 small_waiting ++ [small_tx 2 496; small_tx 3 96].
Proof.
  destruct (waiting_packets_leave 3 0 1500 1000 1000 small_waiting [small_bucket 2 496; small_bucket 3 96]) as (k & s' & _ & E1 & E2 & _);
    [reflexivity|lia|exact small_ready|reflexivity|]. by exists k, s'.
Defined.
Lemma late_timer_divides_by_zero_witness :
  rtk_fc_sw_shaper_kicktx_timerfunc 0 (Shaper 1011 (l34Meter small_waiting) (swMeter small_waiting) (shapingCtrl small_waiting) []) = None.
Proof. apply late_timer_divides_by_zero. split; [discriminate|]. right. vm_compute. reflexivity. Defined.

(** What is left of an interval is kept for the next one even if smaller packets use it: in
    each interval a packet that is too long is refused, and a short one takes the rest. *)
Example rest_is_used_twice :
  let m := Meter 100 false 1000 0 0 0 0 in
  let interval i rest := [Call (1000 + 10 * i) false false 1 992 0; Call (1000 + 10 * i) false false 1 992 0; Call (1000 + 10 * i) false false 1 rest 0] in
  let cs := interval 0 200 ++ interval 1 404 ++ interval 2 608 ++ interval 3 812 in
  quota m = 1200 /\ 4 * quota m + 1000 < passed cs m.
Proof. vm_compute. done. Qed.
(** When the rate is lowered below what the interval has used, the rest is negative, and
    wraps to a number that switches the limit off for the next interval. *)
Example lowered_rate_lifts_the_limit :
  let m := (do_call (Call 1000 false false 1 996 0) (Meter 100 false 1000 0 0 0 0)).2 in
  let m := Meter 10 (ifgInclude m) (lastJiffies m) (byteCount m) (packetCount m) (lastBandwthByte_curInterval m) (lastBandwthByte_preInterval m) in
  let m := (do_call (Call 1005 false false 1 996 0) m).2 in
  let m := (do_call (Call 1010 false false 1 100000000 0) m) in
  m.1 = true.
Proof. vm_compute. done. Qed.
(** A meter that was idle for 2^31 jiffies starts no new interval. *)
Example idle_meter_is_stuck :
  let m := Meter 100 false 1000 1200 3 0 0 in
  (do_call (Call (1000 + 2 ^ 31 + 20) false false 1 100 0) m).1 = false.
Proof. vm_compute. done. Qed.
(** When the card is busy the packet stays, but the meter has counted it. *)
Example busy_card_costs_quota :
  let busy : ShaperConfig := {|
    RTK_FC_SW_SHAPING_JIFFIES := 10; CONFIG_HZ := 100; RTK_FC_SW_SHAPING_TIMER_TICK := 5; RTK_FC_SW_SHAPING_BURST_BYTES := 100;
    RTK_FC_MAX_SHAPING_QUEUE_SIZE := 4; OFFSET_FLOWMETER := 0; OFFSET_SWMETER := 2; RT_RATE_HOSTPOLICING_TABLE_SIZE := 16;
    SW_SHAPERMIB_UPDATE_BY_PKTLEN := 0; SW_SHAPERMIB_UPDATE_BY_PAYLOADLEN := 1;
    SW_SHAPER_UPDATE_BY_PKTLEN_MIB_UPDATE_BY_PAYLOADLEN := 2; SW_SHAPER_UPDATE_BY_PAYLOADLEN_MIB_UPDATE_BY_PKTLEN := 3;
    sw_shaperMib_update_mode_host := 0; sw_shaperMib_update_mode_flow := 0; tx_busy_to_ps := false; gemFilter_conf_en := false;
    hostPoliceInfoTable := fun i => HostInfo (Some i) true; hostPoliceConfList := fun i => HostConf true i false 0;
    wrap := u32; nic_busy := fun _ _ => true |} in
  let s := Shaper 1010 (l34Meter small_waiting) (swMeter small_waiting) (shapingCtrl small_waiting) [] in
  match @rtk_fc_sw_shaper_kicktx_timerfunc busy 0 s with
  | Some s' => byteCount (@meter_of busy 0 s') = 500 /\ oldest (queue (@ctrl_of busy 0 s')) = Some (small_bucket 2 496)
  | None => False
  end.
Proof. vm_compute. done. Qed.
(** A full ring refuses a packet. *)
Example full_ring_drops :
  let s := default small_start (shaper_run ((fun i => small_send i 996) <$> [1; 2; 3; 4; 5]) small_start) in
  (shape (small_tx 6 96) (small_pkt 96) true false s).1 = RTK_FC_RET_DROP_SHAPING_RATE_LIMIT.
Proof. vm_compute. done. Qed.
