(* ===== verification/RomeShaper.v ===== *)
(** * The software shaper of the Rome driver

    The older driver limits the rate of its software meters in the same way, with the same
    ring, but counts bytes or packets, for an interval and for a second, and carries nothing
    over ([rtk_rg_sw_shaper], [rtk_rg_sw_shaper_rate_couting],
    [rtk_rg_sw_shaper_kicktx_timerfunc] in [romeDriver/rtk_rg_apollo_liteRomeDriver.c]).
    The lookup of a meter's settings, which is not in the sources, is a parameter. *)
From S2P Require Import Prelude ShaperRing.
Open Scope Z_scope.

Inductive rg_ret := RG_FWDENGINE_RET_CONTINUE | RG_FWDENGINE_RET_DROP.
#[global] Instance rg_ret_dec : EqDecision rg_ret.
Proof. solve_decision. Defined.
Inductive meter_mode := METER_MODE_BIT_RATE | METER_MODE_PACKET_RATE | METER_MODE_OTHER.
Record counts := Counts { rg_byteCount : Z; rg_packetCount : Z }.
Record rg_meter := RgMeter {
  rg_rate : Z;
  rg_mode : meter_mode;
  meterCount : counts;
  rg_lastJiffies : Z;
  meterCountPersec : counts;
  lastJiffiesPersec : Z }.
(** A packet for the wired or the wireless card. *)
Record rg_bucket := RgBucket { wifiTx : bool; rg_skb : Z; rg_skbLen : Z }.
Record rg_ctrl := RgCtrl {
  rg_queue : ring rg_bucket;
  rg_congestion : bool;
  rg_timer : option Z;
  rg_enququcnt : Z;
  rg_pausetxcnt : Z;
  rg_timerCnt : Z }.
Record rg_state := RgState {
  rg_jiffies : Z;
  rg_swMeter : list rg_meter;
  rg_shapingCtrl : list rg_ctrl;
  rg_sent : list (bool * Z) }.                      (* the newest first *)
Class RgConfig := {
  RTK_RG_SWRATELIMIT_JIFFIES : Z;
  RG_CONFIG_HZ : Z;
  RTK_RG_SW_SHAPER_TIMER_TICK : Z;
  MAX_SW_SHAPER_QUEUE_SIZE : nat;
  MAX_SWITCH_METER_RATE : Z;
  rg_wrap : Z -> Z;
  (* [_rtk_rg_shareMeterConf_get]: the settings a meter's number stands for *)
  shareMeterConf : nat -> option nat }.

Section Rome.
Context {C : RgConfig}.

Definition rg_after_eq (a b : Z) : bool := 0 <=? s32 (a - b).
Definition rg_no_meter : rg_meter := RgMeter 0 METER_MODE_OTHER (Counts 0 0) 0 (Counts 0 0) 0.
Definition rg_no_ctrl : rg_ctrl := RgCtrl (ring_init MAX_SW_SHAPER_QUEUE_SIZE) false None 0 0 0.
Definition rg_meter_of (i : nat) (s : rg_state) : rg_meter := nth i (rg_swMeter s) rg_no_meter.
Definition rg_ctrl_of (i : nat) (s : rg_state) : rg_ctrl := nth i (rg_shapingCtrl s) rg_no_ctrl.
Definition on_rg_meter (i : nat) (m : rg_meter) (s : rg_state) : rg_state :=
  RgState (rg_jiffies s) (<[i := m]> (rg_swMeter s)) (rg_shapingCtrl s) (rg_sent s).
Definition on_rg_ctrl (i : nat) (g : rg_ctrl -> rg_ctrl) (s : rg_state) : rg_state :=
  RgState (rg_jiffies s) (rg_swMeter s) (alter g i (rg_shapingCtrl s)) (rg_sent s).
Definition rg_tx (b : rg_bucket) (s : rg_state) : rg_state :=
  RgState (rg_jiffies s) (rg_swMeter s) (rg_shapingCtrl s) ((wifiTx b, rg_skb b) :: rg_sent s).
Definition in_table (i : nat) (s : rg_state) : bool := (i <? length (rg_swMeter s))%nat.

(** The part of the initialisation that concerns the software meters. *)
Definition rg_init (now : Z) (n : nat) : rg_state :=
  RgState now (replicate n (RgMeter MAX_SWITCH_METER_RATE METER_MODE_BIT_RATE (Counts 0 0) now (Counts 0 0) now)) (replicate n rg_no_ctrl) [].

(** ** Counting *)

Definition rg_windows (now : Z) (m : rg_meter) : rg_meter :=
  let '(c, l) := if rg_after_eq now (u32 (rg_lastJiffies m + RTK_RG_SWRATELIMIT_JIFFIES)) then (Counts 0 0, now) else (meterCount m, rg_lastJiffies m) in
  let '(cs, ls) := if rg_after_eq now (u32 (lastJiffiesPersec m + RG_CONFIG_HZ)) then (Counts 0 0, now) else (meterCountPersec m, lastJiffiesPersec m) in
  RgMeter (rg_rate m) (rg_mode m) c l cs ls.
(** [None]: the mode is neither bits nor packets. *)
Definition rg_over (n : Z) (m : rg_meter) : option bool :=
  let c := meterCount m in
  let cs := meterCountPersec m in
  match rg_mode m with
  | METER_MODE_BIT_RATE => Some
      ((u32 (rg_rate m * Z.quot (Z.quot 1000 8 * RTK_RG_SWRATELIMIT_JIFFIES) RG_CONFIG_HZ) <? rg_wrap (rg_byteCount c + n))
       || (u32 (rg_rate m * Z.quot 1000 8) <? rg_wrap (rg_byteCount cs + n)))
  | METER_MODE_PACKET_RATE => Some
      ((u32 (rg_rate m * RTK_RG_SWRATELIMIT_JIFFIES) / RG_CONFIG_HZ <? rg_wrap (rg_packetCount c + 1))
       || (rg_rate m <? rg_wrap (rg_packetCount cs + 1)))
  | METER_MODE_OTHER => None
  end.
Definition rg_add (n : Z) (c : counts) : counts := Counts (rg_wrap (rg_byteCount c + n)) (rg_wrap (rg_packetCount c + 1)).
Definition rg_count_packet (now : Z) (congested reschedule : bool) (skbLen : Z) (m : rg_meter) : rg_ret * rg_meter :=
  let n := u32 (skbLen + 4) in
  let m := rg_windows now m in
  if negb reschedule && congested then (RG_FWDENGINE_RET_DROP, m)
  else match rg_over n m with
  | None => (RG_FWDENGINE_RET_CONTINUE, m)
  | Some true => (RG_FWDENGINE_RET_DROP, m)
  | Some false =>
      (RG_FWDENGINE_RET_CONTINUE,
       RgMeter (rg_rate m) (rg_mode m) (rg_add n (meterCount m)) (rg_lastJiffies m) (rg_add n (meterCountPersec m)) (lastJiffiesPersec m))
  end.
Definition rtk_rg_sw_shaper_rate_couting (i : nat) (skbLen : Z) (reschedule : bool) (s : rg_state) : rg_ret * rg_state :=
  if negb (in_table i s) then (RG_FWDENGINE_RET_CONTINUE, s)
  else match shareMeterConf i with
  | None => (RG_FWDENGINE_RET_CONTINUE, s)
  | Some j =>
      let '(ret, m) := rg_count_packet (rg_jiffies s) (rg_congestion (rg_ctrl_of i s)) reschedule skbLen (rg_meter_of j s) in
      (ret, on_rg_meter j m s)
  end.

(** ** The timer *)

Definition rg_take (c : rg_ctrl) : rg_ctrl :=
  RgCtrl (ring_free (rg_queue c)) (rg_congestion c) (rg_timer c) (rg_enququcnt c) (u32 (rg_pausetxcnt c + 1)) (rg_timerCnt c).
Definition rg_flag (b : bool) (c : rg_ctrl) : rg_ctrl :=
  RgCtrl (rg_queue c) b (rg_timer c) (rg_enququcnt c) (rg_pausetxcnt c) (rg_timerCnt c).
Definition rg_set_timer (t : option Z) (c : rg_ctrl) : rg_ctrl :=
  RgCtrl (rg_queue c) (rg_congestion c) t (rg_enququcnt c) (rg_pausetxcnt c) (rg_timerCnt c).
Definition rg_put (b : rg_bucket) (c : rg_ctrl) : rg_ctrl :=
  RgCtrl (ring_put b (rg_queue c)) (rg_congestion c) (rg_timer c) (u32 (rg_enququcnt c + 1)) (rg_pausetxcnt c) (rg_timerCnt c).
Definition rg_tick (c : rg_ctrl) : rg_ctrl :=
  RgCtrl (rg_queue c) (rg_congestion c) (rg_timer c) (rg_enququcnt c) (rg_pausetxcnt c) (u32 (rg_timerCnt c + 1)).
Definition rg_mod_timer (i : nat) (s : rg_state) : rg_state :=
  on_rg_ctrl i (rg_set_timer (Some (u32 (rg_jiffies s + RTK_RG_SW_SHAPER_TIMER_TICK)))) s.
Fixpoint rg_kick_loop (cnt : nat) (i : nat) (s : rg_state) : bool * rg_state :=
  match cnt with
  | O => (true, s)
  | S cnt =>
      match oldest (rg_queue (rg_ctrl_of i s)) with
      | None => (false, s)
      | Some b =>
          let '(ret, s) := rtk_rg_sw_shaper_rate_couting i (rg_skbLen b) true s in
          match ret with
          | RG_FWDENGINE_RET_DROP => (true, s)
          | RG_FWDENGINE_RET_CONTINUE =>
              let s := on_rg_ctrl i rg_take (rg_tx b s) in
              match oldest (rg_queue (rg_ctrl_of i s)) with None => (false, s) | Some _ => rg_kick_loop cnt i s end
          end
      end
  end.
Definition rtk_rg_sw_shaper_kicktx_timerfunc (i : nat) (s : rg_state) : rg_state :=
  let s := on_rg_ctrl i rg_tick s in
  match oldest (rg_queue (rg_ctrl_of i s)) with
  | None => on_rg_ctrl i (rg_flag false) s
  | Some _ =>
      let '(resched, s) := rg_kick_loop MAX_SW_SHAPER_QUEUE_SIZE i s in
      if resched then rg_mod_timer i s else on_rg_ctrl i (rg_flag false) s
  end.

(** ** A packet is sent *)

Definition rg_enqueue (i : nat) (b : rg_bucket) (s : rg_state) : rg_ret * rg_state :=
  let s := on_rg_ctrl i (rg_flag true) s in
  let '(ret, s) :=
    if full_at (rg_queue (rg_ctrl_of i s)) then (RG_FWDENGINE_RET_DROP, s)
    else (RG_FWDENGINE_RET_CONTINUE, on_rg_ctrl i (rg_put b) s) in
  (ret, match rg_timer (rg_ctrl_of i s) with Some _ => s | None => rg_mod_timer i s end).
Definition rtk_rg_sw_shaper (b : rg_bucket) (i : nat) (s : rg_state) : rg_ret * rg_state :=
  if in_table i s then
    if rg_rate (rg_meter_of i s) =? 0 then (RG_FWDENGINE_RET_DROP, s)
    else
      let '(ret, s) := rtk_rg_sw_shaper_rate_couting i (rg_skbLen b) false s in
      match ret with
      | RG_FWDENGINE_RET_CONTINUE => (ret, rg_tx b s)
      | RG_FWDENGINE_RET_DROP => rg_enqueue i b s
      end
  else (RG_FWDENGINE_RET_CONTINUE, rg_tx b s).

Inductive rg_event := RgSend (b : rg_bucket) (i : nat) | RgTime (d : Z) | RgKick (i : nat).
Definition rg_due (i : nat) (s : rg_state) : bool :=
  match rg_timer (rg_ctrl_of i s) with Some t => rg_after_eq (rg_jiffies s) t | None => false end.
Definition rg_step (e : rg_event) (s : rg_state) : rg_state :=
  match e with
  | RgSend b i => (rtk_rg_sw_shaper b i s).2
  | RgTime d => RgState (u32 (rg_jiffies s + d)) (rg_swMeter s) (rg_shapingCtrl s) (rg_sent s)
  | RgKick i => if rg_due i s then rtk_rg_sw_shaper_kicktx_timerfunc i (on_rg_ctrl i (rg_set_timer None) s) else s
  end.
Definition rg_run (es : list rg_event) (s : rg_state) : rg_state := foldl (fun s e => rg_step e s) s es.
End Rome.
