(* ===== verification/RomeShaperSpec.v ===== *)
(** * What the Rome driver's shaper guarantees, and what it does not

    A meter never lets more than its rate pass in a second.  But it carries nothing over: a
    packet that costs more than an interval allows is never sent, and blocks its ring for
    ever. *)
From S2P Require Import Prelude ShaperRing RomeShaper.
Open Scope Z_scope.

Class RgLaws (C : RgConfig) := {
  rg_size_log : nat;
  rg_size_pow : MAX_SW_SHAPER_QUEUE_SIZE = (2 ^ rg_size_log)%nat;
  rg_hz : 0 < RG_CONFIG_HZ < 2 ^ 30;
  rg_interval : 0 < RTK_RG_SWRATELIMIT_JIFFIES < 2 ^ 30;
  rg_wrap_small z : 0 <= z < 2 ^ 32 -> rg_wrap z = z;
  rg_conf i : shareMeterConf i = Some i }.

Section Spec.
Context {C : RgConfig} {L : RgLaws C}.

(** ** Limits *)

Definition per_interval (m : rg_meter) : Z := u32 (rg_rate m * Z.quot (Z.quot 1000 8 * RTK_RG_SWRATELIMIT_JIFFIES) RG_CONFIG_HZ).
Definition per_second (m : rg_meter) : Z := u32 (rg_rate m * Z.quot 1000 8).
Definition rg_cost (skbLen : Z) : Z := u32 (skbLen + 4).
(** The counts of a meter for bits; packets cost at most [B]. *)
Record rg_ok (B : Z) (m : rg_meter) : Prop := {
  rk_mode : rg_mode m = METER_MODE_BIT_RATE;
  rk_bytes : 0 <= rg_byteCount (meterCount m) <= per_interval m;
  rk_second : 0 <= rg_byteCount (meterCountPersec m) <= per_second m;
  rk_fits : 0 <= B /\ per_interval m + B < 2 ^ 32 /\ per_second m + B < 2 ^ 32 }.

Lemma limits_nonneg m : 0 <= per_interval m /\ 0 <= per_second m.
Proof. unfold per_interval, per_second, u32. split; apply Z.mod_pos_bound; lia. Qed.
Lemma windows_same now m : rg_rate (rg_windows now m) = rg_rate m /\ rg_mode (rg_windows now m) = rg_mode m.
Proof. unfold rg_windows. by destruct (rg_after_eq _ _), (rg_after_eq _ _). Qed.
Lemma windows_ok B now m : rg_ok B m -> rg_ok B (rg_windows now m).
Proof.
  intros [E Hb Hs Hf]. pose proof (limits_nonneg m) as [L1 L2]. unfold rg_windows.
  destruct (rg_after_eq _ _), (rg_after_eq _ _); split; try done; simpl; unfold per_interval, per_second in *; simpl; lia.
Qed.
(** A packet passes exactly if both limits allow it, and then it is counted. *)
Lemma count_spec B now cong resched len m : rg_ok B m -> 0 <= rg_cost len <= B ->
  let m0 := rg_windows now m in let r := rg_count_packet now cong resched len m in
  rg_ok B r.2 /\ rg_rate r.2 = rg_rate m /\ lastJiffiesPersec r.2 = lastJiffiesPersec m0 /\
  rg_byteCount (meterCountPersec r.2) = rg_byteCount (meterCountPersec m0) + (if decide (r.1 = RG_FWDENGINE_RET_CONTINUE) then rg_cost len else 0) /\
  (r.1 = RG_FWDENGINE_RET_CONTINUE <-> (negb resched && cong) = false /\
     rg_byteCount (meterCount m0) + rg_cost len <= per_interval m /\ rg_byteCount (meterCountPersec m0) + rg_cost len <= per_second m).
Proof.
  intros Ok Hc m0 r. pose proof (windows_ok B now m Ok) as Ok0. fold m0 in Ok0. destruct (windows_same now m) as [R1 R2]. fold m0 in R1, R2.
  unfold r, rg_count_packet. fold m0 (rg_cost len). destruct Ok0 as [E Hb Hs (F1 & F2 & F3)].
  assert (per_interval m0 = per_interval m /\ per_second m0 = per_second m) as [P1 P2] by (unfold per_interval, per_second; by rewrite R1).
  cbn [fst snd].
  assert (forall P : Prop, ~ P -> rg_ok B m0 /\ rg_rate m0 = rg_rate m /\ lastJiffiesPersec m0 = lastJiffiesPersec m0 /\
    rg_byteCount (meterCountPersec m0) = rg_byteCount (meterCountPersec m0) +
      (if decide (RG_FWDENGINE_RET_DROP = RG_FWDENGINE_RET_CONTINUE) then rg_cost len else 0) /\
    (RG_FWDENGINE_RET_DROP = RG_FWDENGINE_RET_CONTINUE <-> P)) as Refuse.
  { intros P HP. rewrite decide_False by done. split_and!; try done; lia. }
  destruct (negb resched && cong); [apply Refuse; by intros []|].
  unfold rg_over. rewrite E. fold (per_interval m0) (per_second m0). rewrite !rg_wrap_small by lia.
  destruct (Z.ltb_spec (per_interval m0) (rg_byteCount (meterCount m0) + rg_cost len)); simpl; [apply Refuse; lia|].
  destruct (Z.ltb_spec (per_second m0) (rg_byteCount (meterCountPersec m0) + rg_cost len)); simpl; [apply Refuse; lia|].
  unfold rg_add. rewrite (rg_wrap_small (rg_byteCount (meterCount m0) + _)), (rg_wrap_small (rg_byteCount (meterCountPersec m0) + _)) by lia.
  split; [split; try done; simpl; unfold per_interval, per_second in *; simpl; lia|]. split_and!; try done. split; [|done]. intros _. split; [done|lia].
Qed.

(** ** The rate *)

Record rg_call := RgCall { rc_now : Z; rc_congested : bool; rc_resched : bool; rc_len : Z }.
Definition rg_do (c : rg_call) (m : rg_meter) : rg_ret * rg_meter := rg_count_packet (u32 (rc_now c)) (rc_congested c) (rc_resched c) (rc_len c) m.
Fixpoint rg_passed (cs : list rg_call) (m : rg_meter) : Z :=
  match cs with
  | [] => 0
  | c :: cs => (if decide ((rg_do c m).1 = RG_FWDENGINE_RET_CONTINUE) then rg_cost (rc_len c) else 0) + rg_passed cs (rg_do c m).2
  end.
Fixpoint rg_in_order (t : Z) (cs : list rg_call) (t1 : Z) : Prop :=
  match cs with [] => t <= t1 | c :: cs => t <= rc_now c /\ rg_in_order (rc_now c) cs t1 end.
Lemma rg_in_order_le cs : forall t t1, rg_in_order t cs t1 -> t <= t1.
Proof. induction cs as [|c cs IH]; simpl; [done|]. intros t t1 [H1 H2]. pose proof (IH _ _ H2). lia. Qed.
Lemma second_window t l m : lastJiffiesPersec m = u32 l -> l <= t -> t - l < 2 ^ 31 ->
  lastJiffiesPersec (rg_windows (u32 t) m) = u32 (if l + RG_CONFIG_HZ <=? t then t else l) /\
  rg_byteCount (meterCountPersec (rg_windows (u32 t) m)) = if l + RG_CONFIG_HZ <=? t then 0 else rg_byteCount (meterCountPersec m).
Proof.
  intros E H1 H2. pose proof rg_hz as Hz.
  assert (rg_after_eq (u32 t) (u32 (lastJiffiesPersec m + RG_CONFIG_HZ)) = (l + RG_CONFIG_HZ <=? t)) as EA.
  { rewrite E. unfold rg_after_eq, s32, u32.
    assert ((t mod 2 ^ 32 - (l mod 2 ^ 32 + RG_CONFIG_HZ) mod 2 ^ 32 + 2 ^ 31) mod 2 ^ 32 = t - (l + RG_CONFIG_HZ) + 2 ^ 31) as ->.
    { rewrite Zplus_mod_idemp_l. rewrite <- (Zplus_mod_idemp_l (_ - _)), <- Zminus_mod, Zplus_mod_idemp_l. apply Z.mod_small. lia. }
    destruct (Z.leb_spec (l + RG_CONFIG_HZ) t), (Z.leb_spec 0 (t - (l + RG_CONFIG_HZ) + 2 ^ 31 - 2 ^ 31)); lia. }
  unfold rg_windows. rewrite EA. destruct (l + RG_CONFIG_HZ <=? t), (rg_after_eq _ (u32 (rg_lastJiffies m + _))); done.
Qed.
Lemma rg_passed_bound B t1 cs : forall m l t0, rg_ok B m -> lastJiffiesPersec m = u32 l -> Forall (fun c => 0 <= rg_cost (rc_len c) <= B) cs ->
  l <= t0 -> rg_in_order t0 cs t1 -> t1 - l < 2 ^ 31 ->
  rg_passed cs m <= ((t1 - l) / RG_CONFIG_HZ + 1) * per_second m - rg_byteCount (meterCountPersec m).
Proof.
  pose proof rg_hz as Hz. induction cs as [|c cs IH]; intros m l t0 Ok El Hc Hl Ho Ht; simpl in Ho |- *.
  - pose proof (limits_nonneg m). destruct Ok as [_ _ Hs _]. assert (0 <= (t1 - l) / RG_CONFIG_HZ) by (apply Z.div_pos; lia). nia.
  - inversion Hc as [|? ? Hc1 Hc2]; subst. destruct Ho as [Ho1 Ho2]. pose proof (rg_in_order_le _ _ _ Ho2) as Hle.
    destruct (count_spec B (u32 (rc_now c)) (rc_congested c) (rc_resched c) (rc_len c) m Ok Hc1) as (K1 & K2 & K3 & K4 & _).
    fold (rg_do c m) in *. set (r := rg_do c m) in *. destruct (second_window (rc_now c) l m El ltac:(lia) ltac:(lia)) as [W1 W2].
    rewrite W1 in K3. rewrite W2 in K4. assert (per_second r.2 = per_second m) as Ep by (unfold per_second; by rewrite K2).
    destruct (Z.leb_spec (l + RG_CONFIG_HZ) (rc_now c)) as [Hn|Hn].
    + pose proof (IH r.2 (rc_now c) (rc_now c) K1 K3 Hc2 ltac:(lia) Ho2 ltac:(lia)) as K5. rewrite Ep, K4 in K5.
      assert ((t1 - rc_now c) / RG_CONFIG_HZ + 1 <= (t1 - l) / RG_CONFIG_HZ) by (rewrite <- Z.div_add by lia; apply Z.div_le_mono; lia).
      pose proof (limits_nonneg m). destruct Ok as [_ _ Hs _]. nia.
    + pose proof (IH r.2 l (rc_now c) K1 K3 Hc2 ltac:(lia) Ho2 ltac:(lia)) as K5. rewrite Ep, K4 in K5. lia.
Qed.

(** ** A packet that is too long *)

(** Nothing about meter [i] changed. *)
Record untouched (i : nat) (s s' : rg_state) : Prop := {
  un_meter : rg_meter_of i s' = rg_meter_of i s;
  un_ctrl : rg_ctrl_of i s' = rg_ctrl_of i s;
  un_meters : length (rg_swMeter s') = length (rg_swMeter s);
  un_ctrls : length (rg_shapingCtrl s') = length (rg_shapingCtrl s) }.
Lemma untouched_refl i s : untouched i s s.
Proof. by split. Qed.
Lemma untouched_trans i s1 s2 s3 : untouched i s1 s2 -> untouched i s2 s3 -> untouched i s1 s3.
Proof. intros [A1 A2 A3 A4] [B1 B2 B3 B4]. split; congruence. Qed.
Lemma untouched_ctrl i j g s : j <> i -> untouched i s (on_rg_ctrl j g s).
Proof. intros Hn. split; try done; [|apply length_alter]. unfold rg_ctrl_of. simpl. rewrite !nth_lookup. by rewrite list_lookup_alter_ne. Qed.
Lemma untouched_meter i j m s : j <> i -> untouched i s (on_rg_meter j m s).
Proof. intros Hn. split; try done; [|apply length_insert]. unfold rg_meter_of. simpl. rewrite !nth_lookup. by rewrite list_lookup_insert_ne. Qed.
Lemma untouched_count i j len b s : j <> i -> untouched i s (rtk_rg_sw_shaper_rate_couting j len b s).2.
Proof.
  intros Hn. unfold rtk_rg_sw_shaper_rate_couting. destruct (negb _); [apply untouched_refl|]. rewrite rg_conf.
  destruct (rg_count_packet _ _ _ _ _). by apply untouched_meter.
Qed.
Lemma untouched_loop i j cnt : forall s, j <> i -> untouched i s (rg_kick_loop cnt j s).2.
Proof.
  induction cnt as [|cnt IH]; intros s Hn; simpl; [apply untouched_refl|]. destruct (oldest _) as [b|]; [|apply untouched_refl].
  pose proof (untouched_count i j (rg_skbLen b) true s Hn) as U. destruct (rtk_rg_sw_shaper_rate_couting _ _ _ _) as [[] s1]; simpl in *; [|done].
  assert (untouched i s (on_rg_ctrl j rg_take (rg_tx b s1))) as U1.
  { eapply untouched_trans; [exact U|]. eapply untouched_trans; [|by apply untouched_ctrl]. by split. }
  destruct (oldest _); [|done]. eapply untouched_trans; [exact U1|by apply IH].
Qed.
Lemma untouched_kick i j s : j <> i -> untouched i s (rtk_rg_sw_shaper_kicktx_timerfunc j s).
Proof.
  intros Hn. unfold rtk_rg_sw_shaper_kicktx_timerfunc. eapply untouched_trans; [by apply (untouched_ctrl i j rg_tick)|].
  destruct (oldest _); [|by apply untouched_ctrl]. pose proof (untouched_loop i j MAX_SW_SHAPER_QUEUE_SIZE (on_rg_ctrl j rg_tick s) Hn) as U.
  destruct (rg_kick_loop _ _ _) as [[] s1]; simpl in U; (eapply untouched_trans; [exact U|by apply untouched_ctrl]).
Qed.
Lemma untouched_send i j b s : j <> i -> untouched i s (rtk_rg_sw_shaper b j s).2.
Proof.
  intros Hn. assert (forall b x, untouched i x (rg_tx b x)) as UT by (intros; by split). unfold rtk_rg_sw_shaper.
  destruct (in_table j s); [|apply UT]. destruct (_ =? _); [apply untouched_refl|].
  pose proof (untouched_count i j (rg_skbLen b) false s Hn) as U. destruct (rtk_rg_sw_shaper_rate_couting _ _ _ _) as [[] s1]; simpl in *.
  { eapply untouched_trans; [exact U|apply UT]. }
  eapply untouched_trans; [exact U|]. unfold rg_enqueue. eapply untouched_trans; [by apply (untouched_ctrl i j (rg_flag true))|].
  set (s2 := on_rg_ctrl j (rg_flag true) s1). destruct (full_at _); simpl; unfold rg_mod_timer.
  - destruct (rg_timer _); [apply untouched_refl|by apply untouched_ctrl].
  - eapply untouched_trans; [by apply (untouched_ctrl i j (rg_put b))|]. destruct (rg_timer _); [apply untouched_refl|by apply untouched_ctrl].
Qed.

(** Packet [b] is the oldest one of ring [i] and costs more than an interval allows. *)
Record blocked (B : Z) (i : nat) (b : rg_bucket) (s : rg_state) : Prop := {
  bl_table : in_table i s = true;
  bl_ctrl : (i < length (rg_shapingCtrl s))%nat;
  bl_ok : rg_ok B (rg_meter_of i s);
  bl_cost : per_interval (rg_meter_of i s) < rg_cost (rg_skbLen b) <= B;
  bl_queue : exists q, holds MAX_SW_SHAPER_QUEUE_SIZE (rg_queue (rg_ctrl_of i s)) (b :: q) }.
Lemma blocked_untouched B i b s s' : untouched i s s' -> blocked B i b s -> blocked B i b s'.
Proof. intros [U1 U2 U3 U4] [B1 B2 B3 B4 B5]. unfold in_table in *. split; unfold in_table; by rewrite ?U1, ?U2, ?U3, ?U4. Qed.
Lemma ctrl_rg i g s : (i < length (rg_shapingCtrl s))%nat -> rg_ctrl_of i (on_rg_ctrl i g s) = g (rg_ctrl_of i s).
Proof.
  intros Hi. unfold rg_ctrl_of, on_rg_ctrl. simpl. rewrite !nth_lookup, list_lookup_alter_eq. by destruct (lookup_lt_is_Some_2 _ _ Hi) as [c ->].
Qed.
Lemma blocked_ctrl B i b g s : (forall c, rg_queue (g c) = rg_queue c) -> blocked B i b s -> blocked B i b (on_rg_ctrl i g s).
Proof. intros Hg [B1 B2 B3 B4 B5]. split; try done; [simpl; by rewrite length_alter|]. by rewrite ctrl_rg, Hg. Qed.
Lemma blocked_oldest B i b s : blocked B i b s -> oldest (rg_queue (rg_ctrl_of i s)) = Some b.
Proof. intros [_ _ _ _ [q H]]. rewrite rg_size_pow in H. by rewrite (ring_oldest rg_size_log _ _ H). Qed.
(** Counting keeps the state blocked; the packet itself is refused. *)
Lemma blocked_count B i b len resched s : blocked B i b s -> 0 <= rg_cost len <= B ->
  let r := rtk_rg_sw_shaper_rate_couting i len resched s in
  blocked B i b r.2 /\ (per_interval (rg_meter_of i s) < rg_cost len -> r.1 = RG_FWDENGINE_RET_DROP).
Proof.
  intros Bl Hc r. pose proof Bl as [B1 B2 B3 B4 B5]. unfold r, rtk_rg_sw_shaper_rate_couting. rewrite B1, rg_conf. simpl.
  pose proof (count_spec B (rg_jiffies s) (rg_congestion (rg_ctrl_of i s)) resched len _ B3 Hc) as (K1 & K2 & _ & _ & K3).
  pose proof (rk_bytes _ _ (windows_ok B (rg_jiffies s) _ B3)) as Hb. destruct (rg_count_packet _ _ _ _ _) as [ret m]. simpl in *.
  assert (rg_meter_of i (on_rg_meter i m s) = m) as Em.
  { unfold rg_meter_of. simpl. rewrite nth_lookup. unfold in_table in B1. apply Nat.ltb_lt in B1. by rewrite list_lookup_insert_eq. }
  split.
  - split; rewrite ?Em; try done; [unfold in_table; simpl; by rewrite length_insert|]. unfold per_interval in *. by rewrite K2.
  - intros Hl. destruct ret; [|done]. destruct K3 as [K3 _]. destruct (K3 eq_refl) as (_ & K4 & _). lia.
Qed.
Lemma blocked_step B i b e s : blocked B i b s -> (forall x, e = RgSend x i -> rg_cost (rg_skbLen x) <= B) -> blocked B i b (rg_step e s).
Proof.
  intros Bl He. assert (forall len, 0 <= rg_cost len) as Hp by (intros; unfold rg_cost, u32; apply Z.mod_pos_bound; lia).
  destruct e as [x j|d|j]; simpl.
  - destruct (decide (j = i)) as [->|Hn]; [|by apply (blocked_untouched B i b s); [apply untouched_send|]].
    unfold rtk_rg_sw_shaper. rewrite (bl_table _ _ _ _ Bl). destruct (_ =? _); [done|].
    destruct (blocked_count B i b (rg_skbLen x) false s Bl (conj (Hp _) (He x eq_refl))) as [Bl1 _].
    destruct (rtk_rg_sw_shaper_rate_couting _ _ _ _) as [[] s1]; simpl in *; [by apply (blocked_untouched B i b s1)|].
    unfold rg_enqueue, rg_mod_timer. assert (blocked B i b (on_rg_ctrl i (rg_flag true) s1)) as Bl2 by by apply blocked_ctrl.
    set (s2 := on_rg_ctrl i (rg_flag true) s1) in *. destruct (full_at _) eqn:Ef; simpl; [destruct (rg_timer _); [done|by apply blocked_ctrl]|].
    assert (blocked B i b (on_rg_ctrl i (rg_put x) s2)) as Bl3.
    { destruct Bl2 as [C1 C2 C3 C4 [q H]]. split; try done; [simpl; rewrite !length_alter; by apply (bl_ctrl _ _ _ _ Bl1)|]. exists (q ++ [x]).
      rewrite ctrl_rg by done. simpl. rewrite rg_size_pow in *. apply (put_queue rg_size_log _ (b :: q) H).
      rewrite (ring_full rg_size_log _ _ H) in Ef. apply bool_decide_eq_false in Ef. pose proof (holds_room _ _ _ H). lia. }
    destruct (rg_timer _); [done|by apply blocked_ctrl].
  - apply (blocked_untouched B i b s); [by split|done].
  - destruct (rg_due j s); [|done]. destruct (decide (j = i)) as [->|Hn].
    2: { apply (blocked_untouched B i b s); [|done]. eapply untouched_trans; [by apply untouched_ctrl|by apply untouched_kick]. }
    unfold rtk_rg_sw_shaper_kicktx_timerfunc. set (s1 := on_rg_ctrl i rg_tick _).
    assert (blocked B i b s1) as Bl1 by (apply blocked_ctrl; [done|by apply blocked_ctrl]). rewrite (blocked_oldest B i b s1 Bl1).
    assert (exists c, MAX_SW_SHAPER_QUEUE_SIZE = S c) as [c ->] by (rewrite rg_size_pow; pose proof (Nat.pow_nonzero 2 rg_size_log); destruct (2 ^ rg_size_log)%nat; [lia|by eexists]).
    simpl. rewrite (blocked_oldest B i b s1 Bl1).
    destruct (blocked_count B i b (rg_skbLen b) true s1 Bl1) as [Bl2 Hd]; [split; [apply Hp|apply (bl_cost _ _ _ _ Bl1)]|].
    specialize (Hd (proj1 (bl_cost _ _ _ _ Bl1))). destruct (rtk_rg_sw_shaper_rate_couting _ _ _ _) as [ret s2]. simpl in *. subst ret.
    by apply blocked_ctrl.
Qed.

(** ** Theorems *)

(** A meter for bits lets no more bytes pass in [T] jiffies than its rate for each
    second that began, whoever asks and however often. *)
Theorem rome_meters_keep_their_rate B t0 t1 cs m : rg_ok B m -> lastJiffiesPersec m = u32 t0 -> rg_byteCount (meterCountPersec m) = 0 ->
  Forall (fun c => 0 <= rg_cost (rc_len c) <= B) cs -> rg_in_order t0 cs t1 -> t1 - t0 < 2 ^ 31 ->
  rg_passed cs m <= ((t1 - t0) / RG_CONFIG_HZ + 1) * per_second m.
Proof.
  intros Ok E1 E2 Hc Ho Ht. pose proof (rg_passed_bound B t1 cs m t0 t0 Ok E1 Hc ltac:(lia) Ho Ht) as H. by rewrite E2, Z.sub_0_r in H.
Qed.
(** A packet that costs more than an interval allows blocks its ring for ever: after
    whatever is sent and however the timers run it is still the oldest one. *)
Theorem long_packet_blocks_ring B i b es s : blocked B i b s ->
  Forall (fun e => forall x, e = RgSend x i -> rg_cost (rg_skbLen x) <= B) es ->
  oldest (rg_queue (rg_ctrl_of i (rg_run es s))) = Some b.
Proof.
  intros Bl He. apply (blocked_oldest B). revert s Bl. unfold rg_run. induction He as [|e es He _ IH]; intros s Bl; simpl; [done|].
  by apply IH, blocked_step.
Qed.
End Spec.

(** ** A small shaper to try: rings of four, intervals of ten jiffies *)

#[local] Instance small_rome : RgConfig := {|
  RTK_RG_SWRATELIMIT_JIFFIES := 10; RG_CONFIG_HZ := 100; RTK_RG_SW_SHAPER_TIMER_TICK := 5; MAX_SW_SHAPER_QUEUE_SIZE := 4;
  MAX_SWITCH_METER_RATE := 80; rg_wrap := u32; shareMeterConf := Some |}.
#[local] Instance small_rome_laws : RgLaws small_rome.
Proof. refine {| rg_size_log := 2 |}; try done. intros z Hz. change (u32 z = z). unfold u32. by rewrite Z.mod_small. Defined.

Lemma rome_meters_keep_their_rate_witness :
  let m := RgMeter 80 METER_MODE_BIT_RATE (Counts 0 0) 1000 (Counts 0 0) 1000 in
  let cs := [RgCall 1000 false false 900; RgCall 1010 false false 900; RgCall 1105 false false 900] in
  rg_passed cs m <= ((1105 - 1000) / RG_CONFIG_HZ + 1) * per_second m.
Proof.
  intros m cs. apply (rome_meters_keep_their_rate 1500 1000 1105 cs m).
  - split; by vm_compute.
  - reflexivity.
  - reflexivity.
  - unfold cs. repeat (constructor; [by vm_compute|]). constructor.
  - simpl. lia.
  - done.
Defined.
(** An interval has 960 bytes; a packet of 1500 waits for ever, and the next ones behind it. *)
Definition long_bucket : rg_bucket := RgBucket false 1 1500.
Definition rome_blocked : rg_state := Eval vm_compute in rg_step (RgSend long_bucket 0) (rg_init 1000 1).
Lemma small_blocked : blocked 2000 0 long_bucket rome_blocked.
Proof.
  split; [reflexivity|vm_compute; lia| |by vm_compute|].
  - split; by vm_compute.
  - exists []. split; try reflexivity; [vm_compute; lia|vm_compute; lia| |].
    + intros [|k] x E; vm_compute in E; simplify_eq; reflexivity.
    + intros k Hk. simpl in Hk. assert (k = 1%nat \/ k = 2%nat \/ k = 3%nat) as [->|[->| ->]] by lia; reflexivity.
Qed.
Lemma long_packet_blocks_ring_witness :
  oldest (rg_queue (rg_ctrl_of 0 (rg_run [RgTime 5; RgKick 0; RgSend (RgBucket false 2 100) 0; RgTime 500; RgKick 0] rome_blocked))) = Some long_bucket.
Proof.
  apply (long_packet_blocks_ring 2000 0 long_bucket _ _ small_blocked).
  repeat (constructor; [intros x E; try discriminate E; injection E as <-; by vm_compute|]). constructor.
Defined.
