(* ===== verification/FcAckDelay.v ===== *)
(** * Delayed acknowledgements

    Towards slow ports the flow cache holds back TCP acknowledgements: of each flow one is
    kept, by its sequence number, until enough have been seen or a timer runs out; the
    others are freed
    ([_rtk_fc_ackDelay_check], [_rtk_fc_ackDelay_kicktx], [_rtk_fc_ackDelay_shortCut_Check],
    [_rtk_fc_ackDelay_shortCut_parser] and the timer's handler in
    [FleetConntrackDriver/core/rtk_fc_internal.c]).  The search for the packet's flow is a
    parameter.  A timer that expires and its handler that gets the lock are two steps. *)
From S2P Require Import Prelude FcLists.
Open Scope Z_scope.

Inductive ack_ret := ACK_OK | ACK_DROP | ACK_ERR | ACK_NOT_SUPPORT.
#[global] Instance ack_ret_dec : EqDecision ack_ret.
Proof. solve_decision. Defined.
Inductive flow_path := FB_PATH_12 | FB_PATH_34 | FB_PATH_5 | FB_PATH_OTHER.
(** What the flow of a packet says. *)
Record ack_flow := AckFlow {
  flowTblIdx : nat;
  flow_dpa : Z;                        (* the port it leaves by *)
  is_mc : bool;                        (* pAbstrSwFlowEt *)
  proto_ctrl : bool;
  dual_hdr : bool;
  in_l4proto : Z;
  in_stagif : bool;
  in_ctagif : bool;
  in_pppoeif : bool;
  in_path : flow_path;
  in_ipv6 : bool }.
Record ack_pkt := AckPkt {
  ap_skb : Z;
  ap_data : list Z;
  crc_recal : bool;                    (* the hash of the card cannot be used *)
  acl_rsn : bool;                      (* trapped as a small acknowledgement *)
  hash_crc16 : Z;
  hash_crc32 : Z;
  ap_port : Z }.

Class AckConfig := {
  RTK_FC_ACKDELAY_ENTRY_SIZE : nat;
  ack_hash_size : nat;
  RTK_FC_ACKDELAY_HASH_IDX : Z -> nat;
  FLOW_TABLE_LIMIT : nat;              (* hardware flows and short cuts *)
  egr_portmask : Z;
  pktNum_timeout : Z;
  jiffies_timeout : Z;
  timer_jiffies : Z;
  flow_search : ack_pkt -> option ack_flow }.

Record ack_entry := AckEntry {
  ae_valid : bool;
  ae_port : Z;
  l4_offset : nat;
  crc16 : Z;
  crc32 : Z;
  ae_skb : Z;
  seq_no : Z;
  pktNum : Z;
  expireJiffies : Z }.
Inductive ack_log := AckTx (skb : Z) | AckFree (skb : Z) | AckPass (skb : Z).
Record ack_state := AckState {
  ack_jiffies : Z;
  ackDelayList : list ack_entry;
  ack_lists : idx_lists;
  kicktxTimer : list (option Z);
  firing : list nat;                   (* handlers that wait for the lock *)
  ack_events : list ack_log }.         (* the newest first *)

Section AckDelay.
Context {C : AckConfig}.

(** ** Bytes *)

Definition byte_at (d : list Z) (i : nat) : Z := nth i d 0.
Definition be16_at (d : list Z) (i : nat) : Z := byte_at d i * 256 + byte_at d (i + 1).
Definition be32_at (d : list Z) (i : nat) : Z := be16_at d i * 65536 + be16_at d (i + 2).
Definition tcp_seq (d : list Z) (off : nat) : Z := be32_at d (off + 4).

(** ** Does the packet's flow allow it, and where is the TCP header? *)

Definition l3_offset (f : ack_flow) : nat :=
  14 + (if in_stagif f then 4 else 0) + (if in_ctagif f then 4 else 0) + (if in_pppoeif f then 8 else 0).
(** [Some false] is IPv4, [Some true] IPv6. *)
Definition bridged_proto (d : list Z) (off : nat) : option bool :=
  let t := be16_at d (off - 2) in
  let b := byte_at d (off - 2) in
  if (t =? 0x0800) || (t =? 0x0021) || (b =? 0x21) then Some false
  else if (t =? 0x86dd) || (t =? 0x0057) || (b =? 0x57) then Some true
  else None.
Definition l3_proto (f : ack_flow) (d : list Z) : option bool :=
  match in_path f with
  | FB_PATH_5 | FB_PATH_34 => Some (in_ipv6 f)
  | FB_PATH_12 => bridged_proto d (l3_offset f)
  | FB_PATH_OTHER => None
  end.
Definition l3_hlen (v6 : bool) (d : list Z) (off : nat) : nat :=
  if v6 then 40 else Z.to_nat (Z.shiftl (Z.land (byte_at d off) 0xf) 2).
Definition _rtk_fc_ackDelay_shortCut_parser (f : ack_flow) (p : ack_pkt) : ack_ret * nat :=
  if is_mc f || proto_ctrl f || dual_hdr f || negb (in_l4proto f =? 6) then (ACK_NOT_SUPPORT, O)
  else match l3_proto f (ap_data p) with
  | None => (ACK_NOT_SUPPORT, O)
  | Some v6 => (ACK_OK, l3_offset f + l3_hlen v6 (ap_data p) (l3_offset f))%nat
  end.
Definition _rtk_fc_ackDelay_shortCut_Check (p : ack_pkt) : ack_ret * nat :=
  match flow_search p with
  | None => (ACK_ERR, O)
  | Some f =>
      if (FLOW_TABLE_LIMIT <=? flowTblIdx f)%nat then (ACK_ERR, O)
      else if Z.land (Z.shiftl 1 (flow_dpa f)) egr_portmask =? 0 then (ACK_ERR, O)
      else _rtk_fc_ackDelay_shortCut_parser f p
  end.

(** ** State *)

Definition no_entry : ack_entry := AckEntry false 0 0 0 0 0 0 0 0.
Definition ack_init (now : Z) : ack_state :=
  AckState now (replicate RTK_FC_ACKDELAY_ENTRY_SIZE no_entry)
    (IdxLists (seq 0 RTK_FC_ACKDELAY_ENTRY_SIZE) (replicate ack_hash_size []))
    (replicate RTK_FC_ACKDELAY_ENTRY_SIZE None) [] [].
Definition aget (s : ack_state) (i : nat) : ack_entry := nth i (ackDelayList s) no_entry.
Definition atimer (s : ack_state) (i : nat) : option Z := nth i (kicktxTimer s) None.
Definition on_entry (i : nat) (g : ack_entry -> ack_entry) (s : ack_state) : ack_state :=
  AckState (ack_jiffies s) (alter g i (ackDelayList s)) (ack_lists s) (kicktxTimer s) (firing s) (ack_events s).
Definition on_lists (g : idx_lists -> idx_lists) (s : ack_state) : ack_state :=
  AckState (ack_jiffies s) (ackDelayList s) (g (ack_lists s)) (kicktxTimer s) (firing s) (ack_events s).
Definition set_kick (i : nat) (t : option Z) (s : ack_state) : ack_state :=
  AckState (ack_jiffies s) (ackDelayList s) (ack_lists s) (<[i := t]> (kicktxTimer s)) (firing s) (ack_events s).
Definition ack_log_event (e : ack_log) (s : ack_state) : ack_state :=
  AckState (ack_jiffies s) (ackDelayList s) (ack_lists s) (kicktxTimer s) (firing s) (e :: ack_events s).

Definition invalidate (e : ack_entry) : ack_entry :=
  AckEntry false (ae_port e) (l4_offset e) (crc16 e) (crc32 e) (ae_skb e) (seq_no e) (pktNum e) (expireJiffies e).
Definition count_pkt (e : ack_entry) : ack_entry :=
  AckEntry (ae_valid e) (ae_port e) (l4_offset e) (crc16 e) (crc32 e) (ae_skb e) (seq_no e) (pktNum e + 1) (expireJiffies e).
Definition keep_skb (skb seq : Z) (e : ack_entry) : ack_entry :=
  AckEntry (ae_valid e) (ae_port e) (l4_offset e) (crc16 e) (crc32 e) skb seq (pktNum e) (expireJiffies e).

(** ** The operations *)

Definition _rtk_fc_ackDelay_kicktx (i : nat) (s : ack_state) : ack_state :=
  if (RTK_FC_ACKDELAY_ENTRY_SIZE <=? i)%nat then s
  else on_lists (give_back i) (set_kick i None (on_entry i invalidate (ack_log_event (AckTx (ae_skb (aget s i))) s))).
Definition matches (p : ack_pkt) (e : ack_entry) : bool := ae_valid e && (crc16 e =? hash_crc16 p) && (crc32 e =? hash_crc32 p).
Definition find_ack (p : ack_pkt) (s : ack_state) : option nat :=
  List.find (fun i => matches p (aget s i)) (bucket_list (RTK_FC_ACKDELAY_HASH_IDX (hash_crc16 p)) (ack_lists s)).
(** A later acknowledgement: the one with the larger number is kept. *)
Definition keep_newer (i : nat) (p : ack_pkt) (s : ack_state) : ack_state :=
  let s := on_entry i count_pkt s in
  let seq := tcp_seq (ap_data p) (l4_offset (aget s i)) in
  if seq_no (aget s i) <? seq
  then on_entry i (keep_skb (ap_skb p) seq) (ack_log_event (AckFree (ae_skb (aget s i))) s)
  else ack_log_event (AckFree (ap_skb p)) s.
Definition ack_due (i : nat) (s : ack_state) : bool :=
  (pktNum_timeout <? pktNum (aget s i)) || (expireJiffies (aget s i) <? ack_jiffies s).
Definition later_ack (i : nat) (p : ack_pkt) (s : ack_state) : ack_ret * ack_state :=
  match atimer s i with
  | None => (ACK_OK, s)
  | Some _ =>
      let s := keep_newer i p s in
      (ACK_DROP, if ack_due i s then _rtk_fc_ackDelay_kicktx i (set_kick i None s) else s)
  end.
Definition ack_new_entry (now : Z) (p : ack_pkt) (off : nat) : ack_entry :=
  AckEntry true (ap_port p) off (hash_crc16 p) (hash_crc32 p) (ap_skb p) (tcp_seq (ap_data p) off) 0 (u32 (now + jiffies_timeout)).
Definition first_ack (p : ack_pkt) (s : ack_state) : ack_ret * ack_state :=
  let '(ret, off) := _rtk_fc_ackDelay_shortCut_Check p in
  match ret, free_list (ack_lists s) with
  | ACK_OK, i :: _ =>
      (ACK_DROP,
       on_lists (hash_in (RTK_FC_ACKDELAY_HASH_IDX (hash_crc16 p)) i)
         (set_kick i (Some (u32 (ack_jiffies s + timer_jiffies))) (on_entry i (fun _ => ack_new_entry (ack_jiffies s) p off) s)))
  | _, _ => (ACK_OK, s)
  end.
Definition _rtk_fc_ackDelay_check (p : ack_pkt) (s : ack_state) : ack_ret * ack_state :=
  if crc_recal p then (ACK_OK, s)
  else if negb (acl_rsn p) then (ACK_OK, s)
  else match find_ack p s with
  | Some i => later_ack i p s
  | None => first_ack p s
  end.
Definition rtk_fc_sw_ackDelay_kicktx_timerfunc (i : nat) (s : ack_state) : ack_state := _rtk_fc_ackDelay_kicktx i s.

(** ** Runs *)

Inductive ack_event :=
| AckRecv (p : ack_pkt)
| AckTime (d : Z)
| AckExpire (i : nat)                  (* the timer is due; its handler waits for the lock *)
| AckRun (i : nat).
Definition ack_after_eq (a b : Z) : bool := 0 <=? s32 (a - b).
Definition remove_one (i : nat) (l : list nat) : list nat := filter (fun j => j <> i) l.
Definition ack_step (e : ack_event) (s : ack_state) : ack_state :=
  match e with
  | AckRecv p =>
      let '(ret, s) := _rtk_fc_ackDelay_check p s in
      match ret with ACK_OK => ack_log_event (AckPass (ap_skb p)) s | _ => s end
  | AckTime d => AckState (u32 (ack_jiffies s + d)) (ackDelayList s) (ack_lists s) (kicktxTimer s) (firing s) (ack_events s)
  | AckExpire i =>
      match atimer s i with
      | Some t =>
          if ack_after_eq (ack_jiffies s) t
          then AckState (ack_jiffies s) (ackDelayList s) (ack_lists s) (<[i := None]> (kicktxTimer s)) (firing s ++ [i]) (ack_events s)
          else s
      | None => s
      end
  | AckRun i =>
      if decide (i ∈ firing s) then
        rtk_fc_sw_ackDelay_kicktx_timerfunc i
          (AckState (ack_jiffies s) (ackDelayList s) (ack_lists s) (kicktxTimer s) (remove_one i (firing s)) (ack_events s))
      else s
  end.
Definition ack_run (es : list ack_event) (s : ack_state) : ack_state := foldl (fun s e => ack_step e s) s es.
End AckDelay.
