(* ===== verification/FcAckDelaySpec.v ===== *)
(** * What delaying acknowledgements guarantees

    Every held entry has its timer pending or its handler waiting, so no handler meets an
    entry of another flow; every packet that came is passed on, sent, freed or still held,
    once; what is held leaves; of a flow the packet with the largest sequence number is
    sent.  Small runs show where the code's comparisons go wrong. *)
From S2P Require Import Prelude FcLists FcAckDelay.
Open Scope Z_scope.

(** The hash of an entry is the number of a chain. *)
Class AckLaws (C : AckConfig) : Prop := {
  ack_hash_bound c : (RTK_FC_ACKDELAY_HASH_IDX c < ack_hash_size)%nat }.

Section Spec.
Context {C : AckConfig} {L : AckLaws C}.
Abbreviation ENTRIES := RTK_FC_ACKDELAY_ENTRY_SIZE.
Abbreviation is_held s h i := (on_bucket h i (ack_lists s)).

Definition same_flow (e e' : ack_entry) : Prop := crc16 e = crc16 e' /\ crc32 e = crc32 e'.
Record ack_inv (s : ack_state) : Prop := {
  ai_list : length (ackDelayList s) = ENTRIES;
  ai_timers : length (kicktxTimer s) = ENTRIES;
  ai_chains : length (chains (ack_lists s)) = ack_hash_size;
  ai_part : partitioned ENTRIES (ack_lists s);
  ai_free : forall i, i ∈ free_list (ack_lists s) -> ae_valid (aget s i) = false /\ atimer s i = None /\ i ∉ firing s;
  ai_held : forall h i, is_held s h i ->
    ae_valid (aget s i) = true /\ h = RTK_FC_ACKDELAY_HASH_IDX (crc16 (aget s i)) /\ (is_Some (atimer s i) <-> i ∉ firing s);
  ai_unique : forall h h' i j, is_held s h i -> is_held s h' j -> same_flow (aget s i) (aget s j) -> i = j }.

(** ** Entries, timers and lists after a change *)

Lemma aget_hit s i g : (i < length (ackDelayList s))%nat -> aget (on_entry i g s) i = g (aget s i).
Proof. intros [e Hi]%lookup_lt_is_Some. unfold aget, on_entry. simpl. by rewrite !nth_lookup, list_lookup_alter_eq, Hi. Qed.
Lemma aget_upd s i j g : ack_inv s -> (i < ENTRIES)%nat ->
  aget (on_entry i g s) j = if decide (i = j) then g (aget s j) else aget s j.
Proof.
  intros I Hi. unfold aget, on_entry. simpl. rewrite !nth_lookup. destruct (decide (i = j)) as [<-|Hn].
  - rewrite list_lookup_alter_eq. rewrite <- (ai_list s I) in Hi. apply lookup_lt_is_Some in Hi as [e ->]. done.
  - by rewrite list_lookup_alter_ne.
Qed.
Lemma atimer_set s i j t : ack_inv s -> (i < ENTRIES)%nat ->
  nth j (<[i := t]> (kicktxTimer s)) None = if decide (i = j) then t else atimer s j.
Proof.
  intros I Hi. unfold atimer. rewrite !nth_lookup. destruct (decide (i = j)) as [<-|Hn].
  - by rewrite list_lookup_insert_eq by (rewrite (ai_timers s I); done).
  - by rewrite list_lookup_insert_ne.
Qed.
Lemma held_bound s h i : ack_inv s -> is_held s h i -> (i < ENTRIES)%nat.
Proof. intros I. apply (part_bound ENTRIES), (ai_part s I). Qed.
Lemma held_not_free s h i : ack_inv s -> is_held s h i -> i ∉ free_list (ack_lists s).
Proof. intros I Hh Hf. by apply (part_disjoint ENTRIES (ack_lists s) (ai_part s I) i h). Qed.
Lemma bound_cases s i : ack_inv s -> (i < ENTRIES)%nat -> i ∈ free_list (ack_lists s) \/ exists h, is_held s h i.
Proof. intros I Hi. by apply members_spec, (part_member ENTRIES (ack_lists s) (ai_part s I)). Qed.
Lemma firing_held s i : ack_inv s -> i ∈ firing s -> (i < ENTRIES)%nat -> exists h, is_held s h i.
Proof. intros I Hf Hb. destruct (bound_cases s i I Hb) as [Hx|]; [|done]. by apply (ai_free s I) in Hx as (_ & _ & Hx). Qed.

Lemma aget_out s i : ack_inv s -> (ENTRIES <= i)%nat -> atimer s i = None.
Proof. intros I Hi. unfold atimer. rewrite nth_overflow; [done|]. rewrite (ai_timers s I). lia. Qed.

(** ** The search *)

Lemma matches_spec p e : matches p e = true <-> ae_valid e = true /\ crc16 e = hash_crc16 p /\ crc32 e = hash_crc32 p.
Proof. unfold matches. rewrite !andb_true_iff, !Z.eqb_eq. tauto. Qed.
(** The entry of the packet's flow is found, wherever it is. *)
Lemma find_ack_spec p s i : ack_inv s ->
  find_ack p s = Some i <-> (exists h, is_held s h i) /\ crc16 (aget s i) = hash_crc16 p /\ crc32 (aget s i) = hash_crc32 p.
Proof.
  intros I. unfold find_ack. split.
  - intros E. apply find_some in E as [Hi (V & E1 & E2)%matches_spec]. apply list_elem_of_In in Hi. split; [by eexists|done].
  - intros ((h & Hi) & E1 & E2). destruct (ai_held s I h i Hi) as (V & -> & _). rewrite E1 in Hi.
    destruct (List.find _ _) as [j|] eqn:E.
    + apply find_some in E as [Hj (_ & F1 & F2)%matches_spec]. apply list_elem_of_In in Hj. f_equal.
      apply (ai_unique s I _ _ j i Hj Hi). split; congruence.
    + eapply find_none in E; [|by apply list_elem_of_In, Hi]. unfold matches in E. by rewrite V, E1, E2, !Z.eqb_refl in E.
Qed.
Lemma find_ack_none p s h i : ack_inv s -> find_ack p s = None -> is_held s h i ->
  ~ (crc16 (aget s i) = hash_crc16 p /\ crc32 (aget s i) = hash_crc32 p).
Proof. intros I E Hi [E1 E2]. assert (find_ack p s = Some i) as E3 by (apply find_ack_spec; [done|]; split; [by exists h|done]). congruence. Qed.

(** ** The operations keep the invariant *)

Definition keeps_key (g : ack_entry -> ack_entry) : Prop :=
  forall e, ae_valid (g e) = ae_valid e /\ crc16 (g e) = crc16 e /\ crc32 (g e) = crc32 e.
Lemma inv_on_entry s h i g : ack_inv s -> is_held s h i -> keeps_key g -> ack_inv (on_entry i g s).
Proof.
  intros I Hi Hg. pose proof (held_bound s h i I Hi) as Hb.
  assert (forall j, ae_valid (aget (on_entry i g s) j) = ae_valid (aget s j) /\ crc16 (aget (on_entry i g s) j) = crc16 (aget s j)
    /\ crc32 (aget (on_entry i g s) j) = crc32 (aget s j)) as K.
  { intros j. rewrite (aget_upd s i j g I Hb). destruct (decide (i = j)); [apply Hg|done]. }
  split; try apply I.
  - simpl. rewrite length_alter. apply I.
  - intros j Hj. destruct (K j) as (-> & _). by apply (ai_free s I).
  - intros h' j Hj. destruct (K j) as (-> & -> & _). by apply (ai_held s I).
  - intros h1 h2 j k Hj Hk. unfold same_flow. destruct (K j) as (_ & -> & ->), (K k) as (_ & -> & ->). by apply (ai_unique s I h1 h2).
Qed.
Lemma inv_log s e : ack_inv s -> ack_inv (ack_log_event e s).
Proof. intros I. split; apply I. Qed.
(** [_rtk_fc_ackDelay_kicktx] when no timer and no handler is left of the entry. *)
Definition kick_done (i : nat) (s : ack_state) : ack_state := on_lists (give_back i) (set_kick i None (on_entry i invalidate s)).
Lemma kick_eq i s : (i < ENTRIES)%nat ->
  _rtk_fc_ackDelay_kicktx i s = kick_done i (ack_log_event (AckTx (ae_skb (aget s i))) s).
Proof. intros Hi. unfold _rtk_fc_ackDelay_kicktx. by rewrite (proj2 (Nat.leb_gt _ _) Hi). Qed.
Lemma inv_kick s i f : ack_inv s -> (exists h, is_held s h i) -> f = without i (firing s) ->
  ack_inv (kick_done i (AckState (ack_jiffies s) (ackDelayList s) (ack_lists s) (kicktxTimer s) f (ack_events s))).
Proof.
  intros I [h Hi] ->. pose proof (held_bound s h i I Hi) as Hb.
  set (s' := AckState _ _ _ _ _ _).
  assert (forall j, j <> i -> aget (kick_done i s') j = aget s j) as Ke.
  { intros j Hn. change (aget (on_entry i invalidate s) j = aget s j). rewrite (aget_upd s i j _ I Hb). by rewrite decide_False. }
  assert (forall j, atimer (kick_done i s') j = if decide (i = j) then None else atimer s j) as Kt by (intros j; by apply (atimer_set s i j None I Hb)).
  split; simpl.
  - rewrite length_alter. apply I.
  - rewrite length_insert. apply I.
  - rewrite length_fmap. apply I.
  - apply give_back_part; [apply I|done].
  - intros j [->|[Hj Hn]]%free_give_back; rewrite Kt.
    + split_and!; [|by rewrite decide_True|by rewrite without_spec; intros [_ ?]].
      change (ae_valid (aget (on_entry i invalidate s) i) = false). rewrite (aget_upd s i i _ I Hb). by rewrite decide_True.
    + rewrite Ke by done. rewrite decide_False by done. destruct (ai_free s I j Hj) as (V & T & F).
      split_and!; [done|done|]. rewrite without_spec. by intros [? _].
  - intros h' j [Hj Hn]%bucket_give_back. rewrite Ke, Kt by done. rewrite decide_False by done.
    destruct (ai_held s I h' j Hj) as (V & E & T). split_and!; [done|done|]. rewrite T, without_spec. tauto.
  - intros h1 h2 j k [Hj Hn]%bucket_give_back [Hk Hn']%bucket_give_back. unfold same_flow. rewrite !Ke by done. by apply (ai_unique s I h1 h2).
Qed.
Lemma count_keeps_key : keeps_key count_pkt.
Proof. intros e. done. Qed.
Lemma skb_keeps_key a b : keeps_key (keep_skb a b).
Proof. intros e. done. Qed.
Lemma keep_newer_same i p s : ack_lists (keep_newer i p s) = ack_lists s /\ kicktxTimer (keep_newer i p s) = kicktxTimer s
  /\ firing (keep_newer i p s) = firing s /\ ack_jiffies (keep_newer i p s) = ack_jiffies s.
Proof. unfold keep_newer. cbv zeta. by case_match. Qed.
Lemma inv_keep_newer s h i p : ack_inv s -> is_held s h i -> ack_inv (keep_newer i p s).
Proof.
  intros I Hi. unfold keep_newer. cbv zeta.
  assert (ack_inv (on_entry i count_pkt s)) as I1 by (by eapply inv_on_entry; [| |apply count_keeps_key]).
  case_match; [|by apply inv_log]. eapply inv_on_entry; [by apply inv_log|exact Hi|apply skb_keeps_key].
Qed.
Lemma kick_held_inv s i : ack_inv s -> (exists h, is_held s h i) -> is_Some (atimer s i) -> ack_inv (_rtk_fc_ackDelay_kicktx i s).
Proof.
  intros I (h & Hi) Ht. rewrite (kick_eq i s (held_bound s h i I Hi)).
  apply (inv_kick (ack_log_event (AckTx (ae_skb (aget s i))) s) i (firing s)); [by apply inv_log|by exists h|].
  simpl. symmetry. apply without_none. by apply (ai_held s I h i Hi).
Qed.
(** Deleting a timer before [kicktx], which deletes it again, changes nothing. *)
Lemma kick_timer_off i s : _rtk_fc_ackDelay_kicktx i (set_kick i None s) = _rtk_fc_ackDelay_kicktx i s \/ (ENTRIES <= i)%nat.
Proof.
  unfold _rtk_fc_ackDelay_kicktx. destruct (Nat.leb_spec ENTRIES i); [by right|left].
  unfold on_lists, set_kick, on_entry, ack_log_event. simpl. by rewrite list_insert_insert_eq.
Qed.
Lemma inv_later s h i p : ack_inv s -> is_held s h i -> ack_inv (later_ack i p s).2.
Proof.
  intros I Hi. unfold later_ack. destruct (atimer s i) eqn:Et; [|done]. cbv zeta. simpl.
  destruct (keep_newer_same i p s) as (E1 & E2 & _). pose proof (inv_keep_newer s h i p I Hi) as I1.
  destruct (ack_due i _); [|done].
  destruct (kick_timer_off i (keep_newer i p s)) as [->|Hb]; [|pose proof (held_bound s h i I Hi); lia].
  apply kick_held_inv; [done|exists h; by rewrite E1|]. unfold atimer. rewrite E2. by eexists.
Qed.
Lemma inv_first s p : ack_inv s -> find_ack p s = None -> ack_inv (first_ack p s).2.
Proof.
  intros I Hnone. unfold first_ack. destruct (_rtk_fc_ackDelay_shortCut_Check p) as [[] off]; try done.
  destruct (free_list (ack_lists s)) as [|i fl] eqn:Ef; [done|]. simpl.
  assert (i ∈ free_list (ack_lists s)) as Hi by (rewrite Ef; apply list_elem_of_here).
  pose proof (part_free ENTRIES _ (ai_part s I) i Hi) as Hb. destruct (ai_free s I i Hi) as (_ & _ & Hf).
  set (h := RTK_FC_ACKDELAY_HASH_IDX (hash_crc16 p)). set (e := ack_new_entry _ _ _). set (t := u32 (_ + _)).
  assert ((h < length (chains (ack_lists s)))%nat) as Hh by (rewrite (ai_chains s I); apply ack_hash_bound).
  set (s' := on_lists _ _).
  assert (forall j, aget s' j = if decide (i = j) then e else aget s j) as Ke by (intros j; by apply (aget_upd s i j (fun _ => e) I Hb)).
  assert (forall j, atimer s' j = if decide (i = j) then Some t else atimer s j) as Kt by (intros j; by apply (atimer_set s i j (Some t) I Hb)).
  split; simpl.
  - rewrite length_alter. apply I.
  - rewrite length_insert. apply I.
  - rewrite length_alter, length_fmap. apply I.
  - apply hash_in_part; [apply I|done|done].
  - intros j [Hj Hn]%(free_hash_in h i j (ack_lists s)). rewrite Ke, Kt, !decide_False by done. by apply (ai_free s I).
  - intros h' j [[-> ->]|[Hj Hn]]%(bucket_hash_in h h' i j _ Hh); rewrite Ke, Kt.
    + rewrite !decide_True by done. split_and!; [done|done|]. split; [done|by eexists].
    + rewrite !decide_False by done. by apply (ai_held s I).
  - assert (forall h' j, is_held s h' j -> ~ same_flow e (aget s j)) as N.
    { intros h' j Hj [E1 E2]. apply (find_ack_none p s h' j I Hnone Hj). by split. }
    intros h1 h2 j k [[-> ->]|[Hj Hn]]%(bucket_hash_in h h1 i j _ Hh) [[-> ->]|[Hk Hn']]%(bucket_hash_in h h2 i k _ Hh); [done|..];
      rewrite !Ke; rewrite ?(decide_True _ _ (eq_refl i)), ?decide_False by done.
    + intros S. by destruct (N h2 k Hk).
    + intros [S1 S2]. destruct (N h1 j Hj). by split.
    + by apply (ai_unique s I h1 h2).
Qed.
Lemma inv_check s p : ack_inv s -> ack_inv (_rtk_fc_ackDelay_check p s).2.
Proof.
  intros I. unfold _rtk_fc_ackDelay_check. destruct (crc_recal p); [done|]. destruct (negb _); [done|].
  destruct (find_ack p s) as [i|] eqn:E; [|by apply inv_first]. apply (find_ack_spec p s i I) in E as [[h Hi] _]. by apply (inv_later s h).
Qed.
Lemma inv_expire s i t : ack_inv s -> atimer s i = Some t ->
  ack_inv (AckState (ack_jiffies s) (ackDelayList s) (ack_lists s) (<[i := None]> (kicktxTimer s)) (firing s ++ [i]) (ack_events s)).
Proof.
  intros I Ht. assert ((i < ENTRIES)%nat) as Hb by (destruct (Nat.lt_ge_cases i ENTRIES) as [|Hx]; [done|]; by rewrite (aget_out s i I Hx) in Ht).
  set (s' := AckState _ _ _ _ _ _).
  assert (forall j, atimer s' j = if decide (i = j) then None else atimer s j) as Kt by (intros j; by apply (atimer_set s i j None I Hb)).
  split; try apply I.
  - simpl. rewrite length_insert. apply I.
  - intros j Hj. destruct (ai_free s I j Hj) as (V & T & F). rewrite Kt. assert (i <> j) by (intros ->; congruence).
    rewrite decide_False by done. split_and!; [done|done|]. simpl. rewrite elem_of_app, list_elem_of_singleton. intros [?| ->]; done.
  - intros h j Hj. destruct (ai_held s I h j Hj) as (V & E & T). split_and!; [done|done|]. rewrite Kt. simpl. rewrite elem_of_app, list_elem_of_singleton.
    destruct (decide (i = j)) as [->|Hn]; [split; [by intros [? ?]|tauto]|]. rewrite T. split; [intros HT [?|?]; [done|congruence]|tauto].
Qed.
Lemma inv_ack_step s e : ack_inv s -> ack_inv (ack_step e s).
Proof.
  intros I. destruct e as [p|d|i|i]; simpl.
  - pose proof (inv_check s p I) as I1. destruct (_rtk_fc_ackDelay_check p s) as [[] s1]; simpl in *; [by apply inv_log|done..].
  - split; apply I.
  - destruct (atimer s i) as [t|] eqn:Et; [|done]. destruct (ack_after_eq _ _); [|done]. by apply (inv_expire s i t).
  - destruct (decide _) as [Hf|]; [|done]. unfold rtk_fc_sw_ackDelay_kicktx_timerfunc.
    set (s1 := AckState _ _ _ _ _ _).
    destruct (Nat.lt_ge_cases i ENTRIES) as [Hb|Hb].
    + rewrite (kick_eq i s1 Hb).
      apply (inv_kick (ack_log_event (AckTx (ae_skb (aget s i))) s) i (remove_one i (firing s))); [by apply inv_log| |done].
      exact (firing_held s i I Hf Hb).
    + unfold _rtk_fc_ackDelay_kicktx. rewrite (proj2 (Nat.leb_le _ _) Hb). split; try apply I.
      * intros j Hj. destruct (ai_free s I j Hj) as (V & T & F). split_and!; [done|done|]. simpl. unfold remove_one. fold (without i (firing s)). rewrite without_spec. tauto.
      * intros h j Hj. destruct (ai_held s I h j Hj) as (V & E & T). split_and!; [done|done|]. change (atimer s1 j) with (atimer s j). rewrite T. simpl.
        unfold remove_one. fold (without i (firing s)). rewrite without_spec. pose proof (held_bound s h j I Hj).
        assert (j <> i) by lia. tauto.
Qed.
Lemma inv_ack_run es s : ack_inv s -> ack_inv (ack_run es s).
Proof. revert s. induction es as [|e es IH]; intros s I; [done|]. simpl. apply IH. by apply inv_ack_step. Qed.
Lemma inv_ack_init now : ack_inv (ack_init now).
Proof.
  assert (forall h i, ~ on_bucket h i (IdxLists (seq 0 ENTRIES) (replicate ack_hash_size []))) as N.
  { intros h i. unfold on_bucket. rewrite bucket_lookup. simpl. destruct (_ !! h) as [l|] eqn:E; [|by intros ?%elem_of_nil].
    apply lookup_replicate in E as [-> _]. by intros ?%elem_of_nil. }
  split; simpl; rewrite ?length_replicate; try done.
  - apply part_init.
  - intros i _. unfold aget, atimer. simpl. rewrite !nth_lookup. split_and!; [| |by apply not_elem_of_nil].
    + destruct (_ !! i) eqn:E; [|done]. by apply lookup_replicate in E as [-> _].
    + destruct (_ !! i) eqn:E; [|done]. by apply lookup_replicate in E as [-> _].
  - intros h i Hi. by destruct (N h i).
  - intros h h' i j Hi. by destruct (N h i).
Qed.

(** ** No packet is lost or sent twice *)

Definition log_skb (e : ack_log) : Z := match e with AckTx k | AckFree k | AckPass k => k end.
Definition skb_at (s : ack_state) (i : nat) : Z := ae_skb (aget s i).
Definition held_skbs (s : ack_state) : list Z := skb_at s <$> concat (chains (ack_lists s)).
Definition rest_skbs (i : nat) (s : ack_state) : list Z := skb_at s <$> without i (concat (chains (ack_lists s))).
(** Where the packets are that came so far. *)
Definition whereabouts (s : ack_state) : list Z := (log_skb <$> ack_events s) ++ held_skbs s.
Definition received (es : list ack_event) : list Z := omap (fun e => match e with AckRecv p => Some (ap_skb p) | _ => None end) es.

Lemma held_split s i : ack_inv s -> (exists h, is_held s h i) -> held_skbs s ≡ₚ skb_at s i :: rest_skbs i s.
Proof.
  intros I Hi. unfold held_skbs, rest_skbs. rewrite <- fmap_cons. apply fmap_Permutation. symmetry. apply without_perm; [|by apply bucket_member].
  pose proof (part_nodup ENTRIES _ (ai_part s I)) as N. unfold members in N. by apply NoDup_app in N as (_ & _ & N).
Qed.
Lemma rest_same i s s' : ack_lists s' = ack_lists s -> (forall j, j <> i -> aget s' j = aget s j) -> rest_skbs i s' = rest_skbs i s.
Proof.
  intros E K. unfold rest_skbs. rewrite E. apply list_fmap_ext. intros _ j Hj%list_elem_of_lookup_2%without_spec. unfold skb_at. by rewrite K by apply Hj.
Qed.
Lemma aget_other s i j g : ack_inv s -> j <> i -> aget (on_entry i g s) j = aget s j.
Proof. intros I Hn. unfold aget, on_entry. simpl. rewrite !nth_lookup. by rewrite list_lookup_alter_ne. Qed.

Lemma where_keep i p s : ack_inv s -> (exists h, is_held s h i) -> whereabouts (keep_newer i p s) ≡ₚ ap_skb p :: whereabouts s.
Proof.
  intros I [h Hi]. pose proof (held_bound s h i I Hi) as Hb. assert (exists h, is_held s h i) as Hx by by exists h.
  unfold whereabouts, keep_newer. cbv zeta. set (s1 := on_entry i count_pkt s).
  assert (ack_inv s1) as I1 by (by eapply inv_on_entry; [| |apply count_keeps_key]).
  assert (skb_at s1 i = skb_at s i) as E1 by (unfold skb_at, s1; by rewrite (aget_upd s i i _ I Hb), decide_True).
  assert (rest_skbs i s1 = rest_skbs i s) as R1 by (apply rest_same; [done|]; intros j Hj; by apply aget_other).
  destruct (_ <? _); simpl.
  - set (s2 := on_entry i _ _).
    assert (ack_inv s2) as I2 by (by eapply inv_on_entry; [apply inv_log| |apply skb_keeps_key]).
    rewrite (held_split s2 i I2 Hx), (held_split s i I Hx).
    assert (skb_at s2 i = ap_skb p) as -> by (unfold skb_at, s2; by rewrite (aget_upd (ack_log_event _ s1) i i _ (inv_log _ _ I1) Hb), decide_True).
    assert (rest_skbs i s2 = rest_skbs i s) as ->.
    { rewrite <- R1. apply rest_same; [done|]. intros j Hj. by apply (aget_other (ack_log_event _ s1) i j _ (inv_log _ _ I1) Hj). }
    change (ae_skb (aget s1 i)) with (skb_at s1 i). rewrite E1. rewrite <- !Permutation_middle. apply perm_swap.
  - f_equiv. change (held_skbs s1) with (held_skbs (ack_log_event (AckFree (ap_skb p)) s1)).
    change (held_skbs (ack_log_event (AckFree (ap_skb p)) s1)) with (held_skbs s1). by rewrite (held_split s1 i I1 Hx), (held_split s i I Hx), E1, R1.
Qed.
Lemma where_kick i s : ack_inv s -> (exists h, is_held s h i) -> whereabouts (_rtk_fc_ackDelay_kicktx i s) ≡ₚ whereabouts s.
Proof.
  intros I Hx. destruct Hx as [h Hi]. pose proof (held_bound s h i I Hi) as Hb. rewrite (kick_eq i s Hb). unfold whereabouts.
  assert (held_skbs (kick_done i (ack_log_event (AckTx (ae_skb (aget s i))) s)) = rest_skbs i s) as ->.
  { unfold held_skbs, rest_skbs. change (ack_lists (kick_done i _)) with (give_back i (ack_lists s)). rewrite give_back_concat. apply list_fmap_ext.
    intros _ j Hj%list_elem_of_lookup_2%without_spec. unfold skb_at. f_equal. by apply (aget_other s i j invalidate I), Hj. }
  rewrite (held_split s i I) by by exists h. simpl. by rewrite <- Permutation_middle.
Qed.
Lemma kick_cases i s : ack_inv s -> _rtk_fc_ackDelay_kicktx i (set_kick i None s) = _rtk_fc_ackDelay_kicktx i s.
Proof.
  intros I. destruct (kick_timer_off i s) as [|Hb]; [done|]. unfold _rtk_fc_ackDelay_kicktx. rewrite !(proj2 (Nat.leb_le _ _) Hb).
  unfold set_kick. rewrite list_insert_ge by (rewrite (ai_timers s I); lia). by destruct s.
Qed.
Definition dealt (p : ack_pkt) (r : ack_ret * ack_state) (s : ack_state) : Prop :=
  (r.1 = ACK_OK /\ whereabouts r.2 ≡ₚ whereabouts s) \/ (r.1 = ACK_DROP /\ whereabouts r.2 ≡ₚ ap_skb p :: whereabouts s).
Lemma where_check p s : ack_inv s -> dealt p (_rtk_fc_ackDelay_check p s) s.
Proof.
  intros I. unfold _rtk_fc_ackDelay_check. destruct (crc_recal p); [by left|]. destruct (negb _); [by left|].
  destruct (find_ack p s) as [i|] eqn:E.
  - apply (find_ack_spec p s i I) in E as [Hi _]. unfold later_ack. destruct (atimer s i) eqn:Et; [|by left]. right. split; [done|].
    cbv zeta. cbn [snd]. pose proof (where_keep i p s I Hi) as W. destruct Hi as [h Hi]. pose proof (inv_keep_newer s h i p I Hi) as I1.
    destruct (ack_due i _); [|done]. rewrite (kick_cases _ _ I1), where_kick; [done|done|]. exists h. by rewrite (proj1 (keep_newer_same i p s)).
  - unfold first_ack. destruct (_rtk_fc_ackDelay_shortCut_Check p) as [[] off]; try by left.
    destruct (free_list (ack_lists s)) as [|i fl] eqn:Ef; [by left|]. right. split; [done|].
    assert (i ∈ free_list (ack_lists s)) as Hi by (rewrite Ef; apply list_elem_of_here).
    pose proof (part_free ENTRIES _ (ai_part s I) i Hi) as Hb. cbn [snd]. unfold whereabouts. rewrite Permutation_middle. apply Permutation_app; [done|].
    unfold held_skbs. set (s' := on_lists _ _).
    change (ack_lists s') with (hash_in (RTK_FC_ACKDELAY_HASH_IDX (hash_crc16 p)) i (ack_lists s)).
    rewrite hash_in_concat by (rewrite (ai_chains s I); apply ack_hash_bound).
    assert (i ∉ concat (chains (ack_lists s))) as Hn.
    { intros [h Hh]%bucket_member. by apply (held_not_free s h i I Hh). }
    rewrite (without_none i _ Hn), fmap_cons. f_equiv.
    + change (ap_skb p) with (ae_skb (ack_new_entry (ack_jiffies s) p off)).
      change (skb_at s' i) with (ae_skb (aget (on_entry i (fun _ => ack_new_entry (ack_jiffies s) p off) s) i)).
      rewrite (aget_upd s i i _ I Hb). by rewrite decide_True.
    + match goal with |- ?a ≡ₚ ?b => enough (a = b) as -> by done end. apply list_fmap_ext. intros _ j Hj%list_elem_of_lookup_2. unfold skb_at. f_equal.
      apply (aget_other s i j (fun _ => ack_new_entry (ack_jiffies s) p off) I). congruence.
Qed.
Lemma where_step e s : ack_inv s -> whereabouts (ack_step e s) ≡ₚ received [e] ++ whereabouts s.
Proof.
  intros I. destruct e as [p|d|i|i]; simpl.
  - pose proof (where_check p s I) as D. destruct (_rtk_fc_ackDelay_check p s) as [r s1]. destruct D as [[E D]|[E D]]; simpl in E; subst r; simpl in D |- *; [|done].
    change (whereabouts (ack_log_event (AckPass (ap_skb p)) s1)) with (ap_skb p :: whereabouts s1). by rewrite D.
  - done.
  - destruct (atimer s i); [|done]. by destruct (ack_after_eq _ _).
  - destruct (decide _) as [Hf|]; [|done]. unfold rtk_fc_sw_ackDelay_kicktx_timerfunc. destruct (Nat.lt_ge_cases i ENTRIES) as [Hb|Hb].
    + rewrite (kick_eq i _ Hb). pose proof (where_kick i s I (firing_held s i I Hf Hb)) as W. rewrite (kick_eq i s Hb) in W. exact W.
    + unfold _rtk_fc_ackDelay_kicktx. by rewrite (proj2 (Nat.leb_le _ _) Hb).
Qed.
Lemma where_run es s : ack_inv s -> whereabouts (ack_run es s) ≡ₚ received es ++ whereabouts s.
Proof.
  revert s. induction es as [|e es IH]; intros s I; [done|]. simpl. rewrite IH by by apply inv_ack_step. rewrite (where_step e s I).
  destruct e; simpl; [|done..]. by rewrite <- Permutation_middle.
Qed.
(** C37: a packet that came has been passed on, sent or freed, or it is held, and that once,
    whatever packets, timers and handlers did in between; and an entry that is held has its
    timer pending or its handler waiting, never both. *)
Theorem acks_are_conserved es now : let s := ack_run es (ack_init now) in
  received es ≡ₚ whereabouts s /\
  (forall h i, is_held s h i -> ae_valid (aget s i) = true /\ (is_Some (atimer s i) <-> i ∉ firing s)).
Proof.
  intros s. pose proof (inv_ack_init now) as I0. split.
  - unfold s. rewrite (where_run es _ I0). unfold whereabouts at 1. unfold held_skbs. simpl.
    assert (concat (replicate ack_hash_size ([] : list nat)) = []) as -> by by induction ack_hash_size. simpl. by rewrite app_nil_r.
  - intros h i Hi. destruct (ai_held s (inv_ack_run es _ I0) h i Hi) as (V & _ & T). by split.
Qed.

(** ** What is held leaves *)

(** Time passes, the timers expire and their handlers run. *)
Definition fire (i : nat) : list ack_event := [AckExpire i; AckRun i].
Definition drain (d : Z) : list ack_event := AckTime d :: flat_map fire (seq 0 ENTRIES).
Definition all_due (s : ack_state) : Prop := forall i t, atimer s i = Some t -> ack_after_eq (ack_jiffies s) t = true.
Record drained (done : nat -> Prop) (s s' : ack_state) : Prop := {
  dr_inv : ack_inv s';
  dr_time : ack_jiffies s' = ack_jiffies s;
  dr_held : forall h j, is_held s' h j <-> is_held s h j /\ ~ done j;
  dr_due : all_due s';
  dr_sent : exists l, ack_events s' = (AckTx <$> l) ++ ack_events s }.

Lemma run_handler i s : ack_inv s -> (i < ENTRIES)%nat -> i ∈ firing s -> all_due s -> drained (eq i) s (ack_step (AckRun i) s).
Proof.
  intros I Hb Hf D. assert (ack_inv (ack_step (AckRun i) s)) as I1 by by apply inv_ack_step.
  revert I1. simpl. rewrite decide_True by done. unfold rtk_fc_sw_ackDelay_kicktx_timerfunc. rewrite (kick_eq i _ Hb). intros I1. split; [done|done|..].
  - intros h j. etransitivity; [apply (bucket_give_back h i j (ack_lists s))|]. split; intros [? N]; (split; [done|]); by intros ->.
  - intros j t Hj. apply (D j t). revert Hj.
    change (atimer (kick_done i _) j) with (nth j (<[i := None]> (kicktxTimer s)) None). rewrite (atimer_set s i j None I Hb). by destruct (decide _).
  - by exists [ae_skb (aget s i)].
Qed.
Lemma ack_fire_drains i s : ack_inv s -> (i < ENTRIES)%nat -> all_due s -> drained (eq i) s (ack_run (fire i) s).
Proof.
  intros I Hb D. unfold fire. change (ack_run _ s) with (ack_step (AckRun i) (ack_step (AckExpire i) s)).
  cbn [ack_step]. destruct (atimer s i) as [t|] eqn:Et.
  - rewrite (D i t Et). pose proof (inv_expire s i t I Et) as I1. set (s1 := AckState _ _ _ _ _ _) in *.
    assert (i ∈ firing s1) as Hf by (simpl; apply elem_of_app; right; by apply list_elem_of_singleton).
    assert (all_due s1) as D1.
    { intros j u Hj. apply (D j u). change (atimer s1 j) with (nth j (<[i := None]> (kicktxTimer s)) None) in Hj.
      rewrite (atimer_set s i j None I Hb) in Hj. by destruct (decide _). }
    destruct (run_handler i s1 I1 Hb Hf D1) as [A1 A2 A3 A4 A5]. split; [exact A1|exact A2|exact A3|exact A4|exact A5].
  - destruct (decide (i ∈ firing s)) as [Hf|Hn].
    + pose proof (run_handler i s I Hb Hf D) as R. cbn [ack_step] in R. by rewrite decide_True in R.
    + split; [done|done| |done|by exists []]. intros h j. split; [|tauto]. intros Hj. split; [done|]. intros <-.
      apply (ai_held s I) in Hj as (_ & _ & T). apply T in Hn as [? Hx]. congruence.
Qed.
Lemma ack_fire_all l s : ack_inv s -> Forall (fun i => (i < ENTRIES)%nat) l -> all_due s ->
  drained (fun j => j ∈ l) s (ack_run (flat_map fire l) s).
Proof.
  revert s. induction l as [|i l IH]; intros s I Hl D.
  - split; [done|done| |done|by exists []]. intros h j. split; [|tauto]. intros ?. split; [done|]. apply not_elem_of_nil.
  - apply Forall_cons in Hl as [Hi Hl]. change (flat_map fire (i :: l)) with (fire i ++ flat_map fire l). unfold ack_run. rewrite foldl_app.
    destruct (ack_fire_drains i s I Hi D) as [A1 A2 A3 A4 [k A5]]. destruct (IH _ A1 Hl A4) as [B1 B2 B3 B4 [k' B5]].
    unfold ack_run in *. split; [done|congruence| |done|].
    + intros h j. rewrite B3, A3, elem_of_cons. naive_solver.
    + exists (k' ++ k). rewrite B5, A5, fmap_app. by rewrite app_assoc.
Qed.
Lemma no_held s : ack_inv s -> (forall h i, ~ is_held s h i) -> held_skbs s = [] /\ free_list (ack_lists s) ≡ₚ seq 0 ENTRIES.
Proof.
  intros I N. assert (concat (chains (ack_lists s)) = []) as E.
  { destruct (concat _) as [|i l] eqn:E; [done|]. assert (i ∈ concat (chains (ack_lists s))) as [h Hi]%bucket_member by (rewrite E; apply list_elem_of_here).
    by destruct (N h i). }
  unfold held_skbs. rewrite E. split; [done|]. pose proof (ai_part s I) as P. unfold partitioned, members in P. by rewrite E, app_nil_r in P.
Qed.
(** C38: once every timer is due and has expired and every handler has run, nothing is held
    any more: each packet that was held has been sent, once, and every entry is free. *)
Theorem held_acks_leave es now d : let s := ack_run es (ack_init now) in
  (forall i t, atimer s i = Some t -> ack_after_eq (u32 (ack_jiffies s + d)) t = true) ->
  let s' := ack_run (drain d) s in
  held_skbs s' = [] /\ free_list (ack_lists s') ≡ₚ seq 0 ENTRIES /\
  exists l, ack_events s' = (AckTx <$> l) ++ ack_events s /\ l ≡ₚ held_skbs s.
Proof.
  intros s D s'. assert (ack_inv s) as I by apply inv_ack_run, inv_ack_init. pose proof (inv_ack_step s (AckTime d) I) as I1.
  assert (Forall (fun i => (i < ENTRIES)%nat) (seq 0 ENTRIES)) as Hl by (apply Forall_forall; intros i ?%elem_of_seq; lia).
  destruct (ack_fire_all _ (ack_step (AckTime d) s) I1 Hl D) as [A1 _ A3 _ [l A5]].
  change (ack_run (flat_map fire (seq 0 ENTRIES)) (ack_step (AckTime d) s)) with s' in *.
  destruct (no_held s' A1) as [E F].
  { intros h i [Hi Hn]%A3. apply Hn, elem_of_seq. pose proof (held_bound _ h i I1 Hi). lia. }
  split_and!; [done|done|]. exists l. split; [done|].
  pose proof (where_run (drain d) s I) as W. fold s' in W. unfold whereabouts in W. rewrite E, A5, fmap_app, <- list_fmap_compose, app_nil_r in W.
  assert (received (drain d) = []) as R.
  { unfold received, drain. simpl. clear. induction (seq 0 ENTRIES) as [|i l IH]; [done|]. exact IH. }
  rewrite R in W. simpl in W. rewrite (Permutation_app_comm (_ <$> l)) in W. apply Permutation_app_inv_l in W.
  rewrite (list_fmap_ext (log_skb ∘ AckTx) id) in W by done. by rewrite list_fmap_id in W.
Qed.

(** ** Which packet of a flow is sent *)

Definition of_flow (e : ack_entry) (p : ack_pkt) : Prop :=
  crc_recal p = false /\ acl_rsn p = true /\ crc16 e = hash_crc16 p /\ crc32 e = hash_crc32 p.
(** A packet that is held, with its sequence number; the larger number wins, the older packet at a tie. *)
Definition numbered (off : nat) (p : ack_pkt) : Z * Z := (ap_skb p, tcp_seq (ap_data p) off).
Definition larger (a b : Z * Z) : Z * Z := if a.2 <? b.2 then b else a.
Definition smaller (a b : Z * Z) : Z * Z := if a.2 <? b.2 then a else b.
Definition kept (s : ack_state) (i : nat) : Z * Z := (skb_at s i, seq_no (aget s i)).
Fixpoint losers (a : Z * Z) (l : list (Z * Z)) : list Z :=
  match l with [] => [] | b :: l => (smaller a b).1 :: losers (larger a b) l end.

Lemma losers_perm a l : (foldl larger a l).1 :: losers a l ≡ₚ a.1 :: l.*1.
Proof.
  revert a. induction l as [|b l IH]; intros a; [done|]. simpl. rewrite perm_swap, IH. unfold larger, smaller. case_match; [done|apply perm_swap].
Qed.
Lemma larger_bound a b : a.2 <= (larger a b).2 /\ b.2 <= (larger a b).2.
Proof. unfold larger. destruct (Z.ltb_spec a.2 b.2); lia. Qed.
Lemma largest_start a l : a.2 <= (foldl larger a l).2.
Proof. revert a. induction l as [|c l IH]; intros a; [done|]. simpl. pose proof (larger_bound a c). pose proof (IH (larger a c)). lia. Qed.
Lemma largest_bound a l b : b ∈ a :: l -> b.2 <= (foldl larger a l).2.
Proof.
  revert a. induction l as [|c l IH]; intros a; [rewrite list_elem_of_singleton; by intros ->|]. simpl.
  pose proof (larger_bound a c). pose proof (largest_start (larger a c) l). rewrite !elem_of_cons. intros [->|[->|Hb]]; [lia|lia|].
  apply IH. by apply list_elem_of_further.
Qed.

Lemma aget_log e s i : aget (ack_log_event e s) i = aget s i.
Proof. done. Qed.
Lemma keep_newer_at i p s : ack_inv s -> (i < ENTRIES)%nat -> let s1 := keep_newer i p s in let b := numbered (l4_offset (aget s i)) p in
  kept s1 i = larger (kept s i) b /\ ack_events s1 = AckFree (smaller (kept s i) b).1 :: ack_events s /\
  pktNum (aget s1 i) = pktNum (aget s i) + 1 /\ expireJiffies (aget s1 i) = expireJiffies (aget s i) /\ l4_offset (aget s1 i) = l4_offset (aget s i) /\
  crc16 (aget s1 i) = crc16 (aget s i) /\ crc32 (aget s1 i) = crc32 (aget s i).
Proof.
  intros I Hb. unfold keep_newer, kept, larger, smaller, skb_at. cbv zeta.
  assert (aget (on_entry i count_pkt s) i = count_pkt (aget s i)) as E by (by rewrite (aget_upd s i i _ I Hb), decide_True).
  rewrite !E. cbn [numbered fst snd seq_no l4_offset count_pkt]. destruct (_ <? _) eqn:Hlt; [|by rewrite aget_log, E].
  set (s1 := ack_log_event _ _). assert (ack_list_len : length (ackDelayList s1) = ENTRIES) by (simpl; rewrite length_alter; apply I).
  rewrite (aget_hit s1 i) by (rewrite ack_list_len; exact Hb). unfold s1. by rewrite aget_log, E.
Qed.
Lemma recv_of_flow p s h i t : ack_inv s -> is_held s h i -> atimer s i = Some t -> of_flow (aget s i) p ->
  _rtk_fc_ackDelay_check p s = later_ack i p s.
Proof.
  intros I Hi Ht (R & A & E1 & E2). unfold _rtk_fc_ackDelay_check. rewrite R, A. simpl.
  rewrite (proj2 (find_ack_spec p s i I)); [done|]. split; [by exists h|done].
Qed.
(** Of the packets of a flow that come while one is held and the limits are not reached,
    the one with the largest sequence number stays, the first of these where several have
    it; all others are freed and nothing is sent. *)
Theorem largest_sequence_is_held ps s h i t : ack_inv s -> is_held s h i -> atimer s i = Some t ->
  Forall (of_flow (aget s i)) ps -> pktNum (aget s i) + Z.of_nat (length ps) <= pktNum_timeout ->
  ack_jiffies s <= expireJiffies (aget s i) ->
  let s' := ack_run (AckRecv <$> ps) s in
  let l := numbered (l4_offset (aget s i)) <$> ps in
  kept s' i = foldl larger (kept s i) l /\ is_held s' h i /\ atimer s' i = Some t /\
  ack_events s' = (AckFree <$> rev (losers (kept s i) l)) ++ ack_events s.
Proof.
  revert s. induction ps as [|p ps IH]; intros s I Hi Ht Hf Hn He; [done|]. apply Forall_cons in Hf as [Hp Hf].
  pose proof (held_bound s h i I Hi) as Hb. destruct (keep_newer_at i p s I Hb) as (K1 & K2 & K3 & K4 & K5 & K6 & K7).
  destruct (keep_newer_same i p s) as (E1 & E2 & E3 & E4). set (s1 := keep_newer i p s) in *.
  assert (ack_step (AckRecv p) s = s1) as Es.
  { simpl. rewrite (recv_of_flow p s h i t I Hi Ht Hp). unfold later_ack. rewrite Ht. fold s1. cbv zeta.
    assert (ack_due i s1 = false) as ->; [|done]. unfold ack_due. rewrite K3, K4, E4. simpl length in Hn. apply orb_false_iff. split; apply Z.ltb_ge; lia. }
  specialize (IH s1). cbv zeta in IH. unfold ack_run in *. rewrite fmap_cons. cbn [foldl]. rewrite Es. rewrite K5, K1, K2 in IH. simpl length in Hn.
  destruct IH as (A1 & A2 & A3 & A4).
  - by apply (inv_keep_newer s h).
  - by rewrite E1.
  - unfold atimer. by rewrite E2.
  - eapply Forall_impl; [exact Hf|]. intros q. unfold of_flow. by rewrite K6, K7.
  - rewrite K3. lia.
  - by rewrite K4, E4.
  - split_and!; [exact A1|exact A2|exact A3|]. etransitivity; [exact A4|]. simpl. rewrite fmap_app, <- app_assoc. done.
Qed.
End Spec.

(** ** A small table, and where the comparisons go wrong *)

Definition small_flow (p : ack_pkt) : option ack_flow :=
  Some (AckFlow 0 0 false false false 6 false false false (if hash_crc32 p =? 9 then FB_PATH_12 else FB_PATH_5) false).
#[global] Instance small_acks : AckConfig := {|
  RTK_FC_ACKDELAY_ENTRY_SIZE := 2; ack_hash_size := 2; RTK_FC_ACKDELAY_HASH_IDX c := Z.to_nat (c mod 2); FLOW_TABLE_LIMIT := 4;
  egr_portmask := 1; pktNum_timeout := 3; jiffies_timeout := 5; timer_jiffies := 1; flow_search := small_flow |}.
#[global] Instance small_ack_laws : AckLaws small_acks.
Proof. split. intros c. simpl. pose proof (Z.mod_pos_bound c 2). lia. Qed.
Definition be32 (z : Z) : list Z := [z / 16777216; z / 65536 mod 256; z / 256 mod 256; z mod 256].
(** An acknowledgement over IPv4: sequence number and number acknowledged. *)
Definition small_ack (skb flow seq acked : Z) : ack_pkt :=
  AckPkt skb (replicate 12 0 ++ [8; 0] ++ [0x45] ++ replicate 19 0 ++ replicate 4 0 ++ be32 seq ++ be32 acked) false true flow (flow + 7) 0.
Definition first_acks : list ack_event := [AckRecv (small_ack 1 0 100 5); AckRecv (small_ack 2 1 200 5)].
Definition more_acks : list ack_pkt := [small_ack 3 0 150 6; small_ack 4 0 120 7; small_ack 5 0 150 8].

Lemma acks_are_conserved_witness : [1; 2; 3] ≡ₚ whereabouts (ack_run (first_acks ++ [AckRecv (small_ack 3 0 150 6)]) (ack_init 0)).
Proof. exact (proj1 (acks_are_conserved (first_acks ++ [AckRecv (small_ack 3 0 150 6)]) 0)). Defined.
Lemma held_acks_leave_witness : held_skbs (ack_run (drain 1) (ack_run first_acks (ack_init 0))) = [].
Proof.
  refine (proj1 (held_acks_leave first_acks 0 1 _)). intros i t.
  assert (kicktxTimer (ack_run first_acks (ack_init 0)) = [Some 1; Some 1]) as E by by vm_compute.
  unfold atimer. rewrite E. intros Ht. assert (t = 1) as -> by (destruct i as [|[|[|i]]]; simpl in Ht; congruence). by vm_compute.
Defined.
Lemma largest_sequence_is_held_witness : kept (ack_run (AckRecv <$> more_acks) (ack_run first_acks (ack_init 0))) 0 = (3, 150).
Proof.
  etransitivity; [refine (proj1 (largest_sequence_is_held more_acks (ack_run first_acks (ack_init 0)) 0 0 1 _ _ _ _ _ _))|].
  - apply inv_ack_run, inv_ack_init.
  - vm_compute. apply list_elem_of_here.
  - by vm_compute.
  - repeat constructor.
  - vm_compute. by intros.
  - vm_compute. by intros.
  - by vm_compute.
Defined.

(** One more than the limit: what is held is sent at once. *)
Example limit_sends_at_once : ack_events (ack_run ((AckRecv <$> more_acks) ++ [AckRecv (small_ack 6 0 160 9)]) (ack_run first_acks (ack_init 0)))
  = [AckTx 6; AckFree 3; AckFree 5; AckFree 4; AckFree 1].
Proof. by vm_compute. Qed.
(** With both entries in use a third flow is not delayed. *)
Example full_table_passes : ack_events (ack_run (first_acks ++ [AckRecv (small_ack 3 2 1 1)]) (ack_init 0)) = [AckPass 3].
Proof. by vm_compute. Qed.
(** A flow that only receives does not move its sequence number: its first, oldest
    acknowledgement is kept and the newer ones are freed. *)
Example newer_ack_is_freed :
  ack_events (ack_run ([AckRecv (small_ack 1 0 100 1000); AckRecv (small_ack 2 0 100 2000); AckRecv (small_ack 3 0 100 3000)] ++ drain 1) (ack_init 0))
  = [AckTx 1; AckFree 3; AckFree 2].
Proof. by vm_compute. Qed.
(** Sequence numbers are compared as numbers: what comes after the wrap-around is freed. *)
Example wrapped_ack_is_freed :
  ack_events (ack_run ([AckRecv (small_ack 1 0 0xffffff00 1); AckRecv (small_ack 2 0 0x10 2)] ++ drain 1) (ack_init 0)) = [AckTx 1; AckFree 2].
Proof. by vm_compute. Qed.
(** So are times: shortly before jiffies wrap the limit is in the past already. *)
Example wrapped_limit_sends_at_once :
  ack_events (ack_run [AckRecv (small_ack 1 0 1 1); AckRecv (small_ack 2 0 2 2)] (ack_init 0xfffffffe)) = [AckTx 2; AckFree 1].
Proof. by vm_compute. Qed.
(** In a bridged PPPoE session with a one-byte protocol the offset is one byte too far. *)
Definition ppp_flow : ack_flow := AckFlow 0 0 false false false 6 false false true FB_PATH_12 false.
Definition ppp_frame : list Z := replicate 12 0 ++ [0x88; 0x64] ++ [0x11; 0; 0; 1; 0; 41] ++ [0x21] ++ [0x45] ++ replicate 39 0.
Example short_protocol_shifts_the_header :
  _rtk_fc_ackDelay_shortCut_parser ppp_flow (AckPkt 1 ppp_frame false true 0 0 0) = (ACK_OK, 22%nat) /\
  nth 21 ppp_frame 0 = 0x45 /\ l3_offset ppp_flow = 22%nat.
Proof. by vm_compute. Qed.
