(* ===== verification/FcFlowKey.v ===== *)
(** * When two flows are the same flow

    Model of the comparisons of flow entries in [FleetConntrackDriver/core/rtk_fc_internal.c]:
    [_rtk_fc_flow_matchOrNot_hw_fields] compares what the switch looks at,
    [_rtk_fc_flow_matchOrNot] adds the software fields of a new flow and
    [_rtk_fc_flow_matchOrNot_tblEntry] those of another flow of the table.

    The six layouts of an entry (path 1 to 6) are one record here: a field that has the same
    name in several layouts is one field, and a comparison reads the fields of its own
    layout.  Bits and numbers are [Z].  The settings of the switch are the class
    [FlowChecks]; a global state is [true] when the field is skipped.  The build is the one
    of [configs/rtl9607c.config]. *)
From S2P Require Import Prelude.
Open Scope Z_scope.

(** ** Entries *)

Inductive fb_path := FB_PATH_12 | FB_PATH_34 | FB_PATH_5 | FB_PATH_6.
#[export] Instance fb_path_eq_dec : EqDecision fb_path.
Proof. solve_decision. Defined.

(** The pattern of a flow. *)
Record igr_pattern := Igr {
  in_smac_lut_idx : Z; in_dmac_lut_idx : Z;
  in_stagif : Z; in_svlan_id : Z; in_ctagif : Z; in_cvlan_id : Z; in_cvlan_pri : Z;
  in_pppoeif : Z; in_pppoe_sid_check : Z; in_pppoe_sid : Z;
  in_tos_check : Z; in_tos : Z;
  in_protocol : Z;
  in_spa_check : Z; in_spa : Z; in_ext_spa : Z;
  in_out_stream_idx_check_act : Z; in_out_stream_idx : Z; in_stream_idx : Z;
  in_ipv4_or_ipv6 : Z; in_src_ipv4_addr : Z; in_dst_ipv4_addr : Z;
  in_l4_src_port : Z; in_l4_dst_port : Z; in_l4proto : Z; in_intf_idx : Z;
  in_dsliteif : Z; rsvd_in_6rdif : Z; in_greEthBrif : Z;
  in_pptpif : Z; in_gre_call_id : Z; in_l2tpif : Z; in_l2tp_tunnel_id : Z; in_l2tp_session_id : Z }.

(** The part of its action that the table looks at. *)
Record egr_action := Egr {
  out_l4_act : Z; out_l4_direction : Z; out_dst_ipv4_addr : Z; out_l4_port : Z;
  out_intf_idx : Z; out_dmac_idx : Z; out_dmac_trans : Z; out_uc_lut_lookup : Z;
  out_ext_portmask_idx : Z; out_portmask : Z;
  out_svlan_id : Z; out_spri : Z; out_cvlan_id : Z; out_cpri : Z;
  out_stream_idx_act : Z; out_stream_idx : Z; out_user_pri_act : Z; out_user_priority : Z; out_multiple_act : Z }.

Record entry := Entry {
  valid : bool; lock : bool; in_path : fb_path; in_multiple_act : Z; igr : igr_pattern; egr : egr_action }.

Definition igr0 : igr_pattern := Igr 0 0 0 0 0 0 0 0 0 0 0 0 0 0 0 0 0 0 0 0 0 0 0 0 0 0 0 0 0 0 0 0 0 0.
Definition egr0 : egr_action := Egr 0 0 0 0 0 0 0 0 0 0 0 0 0 0 0 0 0 0 0.
Definition entry0 : entry := Entry false false FB_PATH_12 0 igr0 egr0.

(** ** Settings *)

Class FlowChecks := {
  ASICDRIVERVER : Z;
  SKIP_PATH12_SVID : bool; SKIP_PATH12_CVID : bool; SKIP_PATH12_CPRI : bool;
  SKIP_PATH34_MC_SVID : bool; SKIP_PATH34_MC_CVID : bool; SKIP_PATH34_MC_CPRI : bool;
  SKIP_PATH34_UCBC_SVID : bool; SKIP_PATH34_UCBC_CVID : bool; SKIP_PATH34_UCBC_CPRI : bool;
  SKIP_PATH5_SVID : bool; SKIP_PATH5_CVID : bool; SKIP_PATH5_CPRI : bool;
  SKIP_PATH6_SVID : bool; SKIP_PATH6_CVID : bool; SKIP_PATH6_CPRI : bool;
  SKIP_SPRI : bool; SKIP_VLAN_DEICFI : bool;
  CMP_TOS : bool;
  CHECK_PATH12_TOS : bool; CHECK_PATH12_PROTOCOL : bool; CHECK_PATH12_SPA : bool; CHECK_PATH12_STREAM_IDX : bool;
  CHECK_PATH34_TOS : bool; CHECK_PATH5_TOS : bool; CHECK_PATH345_STREAM_IDX : bool;
  CHECK_PATH6_SMAC_IDX : bool; CHECK_PATH6_DMAC_IDX : bool; CHECK_PATH6_SIP : bool; CHECK_PATH6_DIP : bool;
  CHECK_PATH6_SPORT : bool; CHECK_PATH6_DPORT : bool; CHECK_PATH6_PROTOCOL : bool;
  CHECK_PATH6_GRE_CALL_ID : bool; CHECK_PATH6_L2TP_TUNNEL_ID : bool; CHECK_PATH6_L2TP_SID : bool;
  wanPortMask : Z;
  (** The header's macro that turns the port field of an entry into a port. *)
  PATH12_SPA : Z -> Z }.

Section Match.
Context `{FlowChecks}.

(** [if (guard) { if (different) return FALSE; }] *)
Definition only (guard same : bool) : bool := implb guard same.
Definition on (x : Z) : bool := negb (x =? 0).
(** The type-of-service byte, or its six upper bits. *)
Definition tos_part (x : Z) : Z := if CMP_TOS then x else Z.land x 0xfc.
Definition wan_port (p : Z) : bool := on (Z.land (Z.shiftl 1 p) wanPortMask).
Definition first_asic : bool := ASICDRIVERVER =? 1.

(** ** What the switch compares

    [c] is the entry of the table ([pFlowEntryCmp]), [e] the other one. *)

Definition same_ctag12 (c e : igr_pattern) : bool :=
  if first_asic then only (negb SKIP_PATH12_CVID) ((in_ctagif c =? in_ctagif e) && (in_cvlan_id c =? in_cvlan_id e))
  else only (negb SKIP_PATH12_CVID || negb SKIP_PATH12_CPRI) (in_ctagif c =? in_ctagif e)
    && only (negb SKIP_PATH12_CVID) (in_cvlan_id c =? in_cvlan_id e)
    && only (negb SKIP_PATH12_CPRI) (in_cvlan_pri c =? in_cvlan_pri e).
Definition same_pppoe_sid (c e : igr_pattern) : bool :=
  (in_pppoeif c =? in_pppoeif e) && (in_pppoe_sid_check c =? in_pppoe_sid_check e)
  && only (on (in_pppoeif e) && on (in_pppoe_sid_check e)) (in_pppoe_sid c =? in_pppoe_sid e).
Definition same_port12 (c e : igr_pattern) : bool :=
  only CHECK_PATH12_SPA ((PATH12_SPA (in_spa c) =? in_spa e) && (in_ext_spa c =? in_ext_spa e)).
Definition both_wan (c e : igr_pattern) : bool :=
  CHECK_PATH12_STREAM_IDX && wan_port (PATH12_SPA (in_spa c)) && wan_port (in_spa e).

Definition match_path1 (c e : igr_pattern) : bool :=
  (in_smac_lut_idx c =? in_smac_lut_idx e) && (in_dmac_lut_idx c =? in_dmac_lut_idx e)
  && only (negb SKIP_PATH12_SVID) ((in_stagif c =? in_stagif e) && (in_svlan_id c =? in_svlan_id e))
  && same_ctag12 c e && same_pppoe_sid c e
  && only CHECK_PATH12_TOS (tos_part (in_tos c) =? tos_part (in_tos e))
  && only CHECK_PATH12_PROTOCOL (in_protocol c =? in_protocol e)
  && same_port12 c e
  && only (both_wan c e) (in_out_stream_idx c =? in_out_stream_idx e).

Definition match_path2 (c e : igr_pattern) : bool :=
  (in_smac_lut_idx c =? in_smac_lut_idx e) && (in_dmac_lut_idx c =? in_dmac_lut_idx e)
  && only (negb SKIP_PATH12_SVID) ((in_stagif c =? in_stagif e) && (in_svlan_id c =? in_svlan_id e))
  && same_ctag12 c e && same_pppoe_sid c e
  && only CHECK_PATH12_TOS (tos_part (in_tos c) =? tos_part (in_tos e))
  && only CHECK_PATH12_PROTOCOL (in_protocol c =? in_protocol e)
  && same_port12 c e
  && only (both_wan c e) (in_stream_idx c =? in_stream_idx e).

Definition care_svid34 (mc : bool) : bool := negb (if mc then SKIP_PATH34_MC_SVID else SKIP_PATH34_UCBC_SVID).
Definition care_cvid34 (mc : bool) : bool := negb (if mc then SKIP_PATH34_MC_CVID else SKIP_PATH34_UCBC_CVID).
Definition care_cpri34 (mc : bool) : bool := negb (if mc then SKIP_PATH34_MC_CPRI else SKIP_PATH34_UCBC_CPRI).
Definition same_tuple34 (c e : igr_pattern) : bool :=
  (in_ipv4_or_ipv6 c =? in_ipv4_or_ipv6 e) && (in_src_ipv4_addr c =? in_src_ipv4_addr e)
  && (in_dst_ipv4_addr c =? in_dst_ipv4_addr e) && (in_l4_src_port c =? in_l4_src_port e)
  && (in_l4_dst_port c =? in_l4_dst_port e) && (in_l4proto c =? in_l4proto e).
Definition same_ctag34 (mc : bool) (c e : igr_pattern) : bool :=
  if first_asic then only (care_cvid34 mc) (in_ctagif c =? in_ctagif e)
  else only (care_cvid34 mc || care_cpri34 mc) (in_ctagif c =? in_ctagif e)
    && only (care_cpri34 mc) (in_cvlan_pri c =? in_cvlan_pri e).
Definition same_pppoe_intf (c e : igr_pattern) : bool :=
  (in_pppoeif c =? in_pppoeif e) && (in_pppoe_sid_check c =? in_pppoe_sid_check e)
  && only (on (in_pppoeif e) && on (in_pppoe_sid_check e)) (in_intf_idx c =? in_intf_idx e).

Definition match_path3 (mc : bool) (c e : igr_pattern) : bool :=
  same_tuple34 c e && only (care_svid34 mc) (in_stagif c =? in_stagif e) && same_ctag34 mc c e && same_pppoe_intf c e
  && only CHECK_PATH34_TOS (tos_part (in_tos c) =? tos_part (in_tos e)).
Definition match_path4 (mc : bool) (c e : igr_pattern) : bool :=
  same_tuple34 c e && only (care_svid34 mc) (in_stagif c =? in_stagif e) && same_ctag34 mc c e && same_pppoe_intf c e
  && only CHECK_PATH34_TOS (tos_part (in_tos c) =? tos_part (in_tos e)).

(** Address translation into the network: the destination is the address of the interface. *)
Definition naptr (e : entry) : bool :=
  (in_ipv4_or_ipv6 (igr e) =? 0) && (out_l4_act (egr e) =? 1) && (out_l4_direction (egr e) =? 0).

Definition match_path5 (c e : entry) : bool :=
  (in_l4_src_port (igr c) =? in_l4_src_port (igr e)) && (in_l4_dst_port (igr c) =? in_l4_dst_port (igr e))
  && (in_src_ipv4_addr (igr c) =? in_src_ipv4_addr (igr e))
  && (if naptr e then in_intf_idx (igr c) =? in_intf_idx (igr e) else in_dst_ipv4_addr (igr c) =? in_dst_ipv4_addr (igr e))
  && (in_l4proto (igr c) =? in_l4proto (igr e)) && (in_ipv4_or_ipv6 (igr c) =? in_ipv4_or_ipv6 (igr e))
  && (out_l4_act (egr c) =? out_l4_act (egr e))
  && only (on (out_l4_act (egr e))) (out_l4_direction (egr c) =? out_l4_direction (egr e))
  && only (negb SKIP_PATH5_SVID) (in_stagif (igr c) =? in_stagif (igr e))
  && (if first_asic then only (negb SKIP_PATH5_CVID) (in_ctagif (igr c) =? in_ctagif (igr e))
      else only (negb SKIP_PATH5_CVID || negb SKIP_PATH5_CPRI) (in_ctagif (igr c) =? in_ctagif (igr e))
        && only (negb SKIP_PATH5_CPRI) (in_cvlan_pri (igr c) =? in_cvlan_pri (igr e)))
  && (in_pppoeif (igr c) =? in_pppoeif (igr e)) && only (on (in_pppoeif (igr e))) (in_intf_idx (igr c) =? in_intf_idx (igr e))
  && only CHECK_PATH5_TOS (tos_part (in_tos (igr c)) =? tos_part (in_tos (igr e))).

Definition match_path6 (c e : igr_pattern) : bool :=
  only CHECK_PATH6_SMAC_IDX (in_smac_lut_idx c =? in_smac_lut_idx e) && only CHECK_PATH6_DMAC_IDX (in_dmac_lut_idx c =? in_dmac_lut_idx e)
  && only (negb SKIP_PATH6_SVID) (in_stagif c =? in_stagif e)
  && (if first_asic then only (negb SKIP_PATH6_CVID) (in_ctagif c =? in_ctagif e)
      else only (negb SKIP_PATH6_CVID || negb SKIP_PATH6_CPRI) (in_ctagif c =? in_ctagif e)
        && only (negb SKIP_PATH6_CPRI) (in_cvlan_pri c =? in_cvlan_pri e))
  && same_pppoe_sid c e
  && (in_dsliteif c =? in_dsliteif e) && (rsvd_in_6rdif c =? rsvd_in_6rdif e) && (in_greEthBrif c =? in_greEthBrif e)
  && only CHECK_PATH6_SIP (in_src_ipv4_addr c =? in_src_ipv4_addr e) && only CHECK_PATH6_DIP (in_dst_ipv4_addr c =? in_dst_ipv4_addr e)
  && only CHECK_PATH6_SPORT (in_l4_src_port c =? in_l4_src_port e) && only CHECK_PATH6_DPORT (in_l4_dst_port c =? in_l4_dst_port e)
  && only CHECK_PATH6_PROTOCOL (in_protocol c =? in_protocol e)
  && (in_pptpif c =? in_pptpif e) && only (on (in_pptpif e) && CHECK_PATH6_GRE_CALL_ID) (in_gre_call_id c =? in_gre_call_id e)
  && (in_l2tpif c =? in_l2tpif e) && only (on (in_l2tpif e) && CHECK_PATH6_L2TP_TUNNEL_ID) (in_l2tp_tunnel_id c =? in_l2tp_tunnel_id e)
  && only (on (in_l2tpif e) && CHECK_PATH6_L2TP_SID) (in_l2tp_session_id c =? in_l2tp_session_id e).

Definition _rtk_fc_flow_matchOrNot_hw_fields (c e : entry) (isMulticast : bool) : bool :=
  bool_decide (in_path c = in_path e)
  && match in_path e with
     | FB_PATH_12 => (in_multiple_act c =? in_multiple_act e)
         && (if in_multiple_act e =? 0 then match_path1 (igr c) (igr e) else match_path2 (igr c) (igr e))
     | FB_PATH_34 => (in_multiple_act c =? in_multiple_act e)
         && (if in_multiple_act e =? 0 then match_path3 isMulticast (igr c) (igr e) else match_path4 isMulticast (igr c) (igr e))
     | FB_PATH_5 => match_path5 c e
     | FB_PATH_6 => match_path6 (igr c) (igr e)
     end.
End Match.

(** ** The software fields

    The kinds of dual header that carry something to compare; the others are numbers. *)
Inductive dual_hdr := DUAL_NONE | DUAL_PPTP (in_gre_call_id : Z) | DUAL_L2TP (in_l2tp_tunnel_id in_l2tp_session_id : Z)
  | DUAL_IPSEC (esp_spi : Z) | DUAL_VXLAN | DUAL_OTHER (dual_type : Z).
#[export] Instance dual_hdr_eq_dec : EqDecision dual_hdr.
Proof. solve_decision. Defined.

(** [protoCtrl] and the field of the union that goes with it. *)
Inductive proto_ctrl :=
| PROTO_NONE
| ICMP_ACC (ingress_icmp_id egress_icmp_id icmp_seqence_num : Z)
| MAPT_ACC (sip_indirect_mapping_index dip_indirect_mapping_index : nat)
| XLAT_ACC (sip_indirect_mapping_index dip_indirect_mapping_index : nat)
| MAPE_ACC
| DUAL_PT (dual_pt_flowMapTbl_idx : nat)
| DUAL_PT_VXLAN
| V6NAT (ipv6_nat_indirect_mapping_index : nat)
| VXLAN_ADD (out_src_port : Z) | VXLAN_REMOVE
| SRV6_ADD.
#[export] Instance proto_ctrl_eq_dec : EqDecision proto_ctrl.
Proof. solve_decision. Defined.

Inductive candidate := CANDIDATE_STATE_NONE | CANDIDATE_STATE_NEW | CANDIDATE_STATE_READY | CANDIDATE_STATE_AGING.
#[export] Instance candidate_eq_dec : EqDecision candidate.
Proof. solve_decision. Defined.

Inductive flow_info := STATIC_ENTRY | MC_ENTRY | SOFTWARE_ONLY | SKIP_CT | ACL_PRI_FWD | NATLOOPBACK_ENTRY
  | VLAN_FILTERING_PVID_ENTRY | PATH5_DS | DUPLICATE_EXIST | ALG_EXIST | FORCE_TO_BRIDGE_FLOW.
#[export] Instance flow_info_eq_dec : EqDecision flow_info.
Proof. solve_decision. Defined.

(** What is known of a packet when its flow is added or looked up. *)
Record sw_fields := SwFields {
  lutIgrSaIdx : Z; lutEgrDaIdx : Z; pppoe_sid : Z; svlan_pri : Z; igr_svlan_dei : Z; igr_cvlan_cfi : Z;
  pon_stream_id : Z; igr_stpid_sel : Z; igrWlanDevIdx : Z; egrWlanDevIdx : Z }.
Definition sw0 : sw_fields := SwFields 0 0 0 0 0 0 0 0 0 0.

(** An entry of [flowTbl]; [ent] is what [pFlowEntry] points to. *)
Record flow := Flow {
  candidateState : candidate;
  ent : entry;
  cachedCt : option Z;
  infos : list flow_info;
  idleSecs : Z; needUpdate : bool; swTrfBit : bool; flow_hit_times : Z;
  sw : sw_fields;
  protoCtrl : proto_ctrl;
  path5_ds_bucket_idx : nat; vlan_filtering_pvid_lutivlsel : nat }.
(** The flow that [memset] leaves: only the entry stays. *)
Definition reset_flow (f : flow) : flow := Flow CANDIDATE_STATE_NONE (ent f) None [] 0 false false 0 sw0 PROTO_NONE 0 0.
Definition flow0 : flow := Flow CANDIDATE_STATE_NONE entry0 None [] 0 false false 0 sw0 PROTO_NONE 0 0.

Definition FLOW_INFO_IS_SET (f : flow) (x : flow_info) : bool := bool_decide (x ∈ infos f).
Definition set_infos (l : list flow_info) (f : flow) : flow :=
  Flow (candidateState f) (ent f) (cachedCt f) l (idleSecs f) (needUpdate f) (swTrfBit f) (flow_hit_times f) (sw f)
    (protoCtrl f) (path5_ds_bucket_idx f) (vlan_filtering_pvid_lutivlsel f).
Definition FLOW_INFO_SET (x : flow_info) (v : bool) (f : flow) : flow :=
  let rest := filter (fun y => y <> x) (infos f) in set_infos (if v then x :: rest else rest) f.
Definition set_hit_times (n : Z) (f : flow) : flow :=
  Flow (candidateState f) (ent f) (cachedCt f) (infos f) (idleSecs f) (needUpdate f) (swTrfBit f) n (sw f)
    (protoCtrl f) (path5_ds_bucket_idx f) (vlan_filtering_pvid_lutivlsel f).
Definition in_use (f : flow) : bool := bool_decide (candidateState f <> CANDIDATE_STATE_NONE).

(** [pIgrExtraInfo]: the software fields of the flow to be added. *)
Record g3_info := G3Info {
  g3_sw : sw_fields;
  isHitSwFwdedAclTrapPri : bool;
  ingress_icmp_valid : bool; ingress_icmp : Z;
  dualPt : dual_hdr;
  is_vxlanUS_innerFlow : bool; is_vxlanDS_innerFlow : bool;
  bypass_flowDelay : bool }.

Section SoftMatch.
Context `{FlowChecks}.
(** The dual header of the flows that pass through; entry 0 stands for none. *)
Variable dual_pt_flowMapTbl : list dual_hdr.

Definition dual_at (i : nat) : dual_hdr := nth i dual_pt_flowMapTbl DUAL_NONE.
Definition dual_type_eq (a b : dual_hdr) : bool :=
  match a, b with
  | DUAL_NONE, DUAL_NONE | DUAL_VXLAN, DUAL_VXLAN | DUAL_PPTP _, DUAL_PPTP _ | DUAL_L2TP _ _, DUAL_L2TP _ _ | DUAL_IPSEC _, DUAL_IPSEC _ => true
  | DUAL_OTHER x, DUAL_OTHER y => x =? y
  | _, _ => false
  end.
Definition _rtk_fc_flow_extraSwflowPatternCheck (info : dual_hdr) (idx : nat) : bool :=
  if bool_decide (info = DUAL_NONE) && (idx =? 0)%nat then true
  else dual_type_eq info (dual_at idx) &&
    match info, dual_at idx with
    | DUAL_PPTP x, DUAL_PPTP y => x =? y
    | DUAL_L2TP t s, DUAL_L2TP t' s' => (t =? t') && (s =? s')
    | DUAL_IPSEC x, DUAL_IPSEC y => x =? y
    | _, _ => true
    end.

Definition path34_or_5 (e : entry) : bool := bool_decide (in_path e = FB_PATH_34) || bool_decide (in_path e = FB_PATH_5).
Definition pppoe_by_sw (e : entry) : bool :=
  bool_decide (in_path e = FB_PATH_34) && on (in_pppoeif (igr e)) && (in_pppoe_sid_check (igr e) =? 0).
(** The fields that are compared alike with a new flow and with another of the table. *)
Definition same_sw (c : flow) (s : sw_fields) (acl : bool) : bool :=
  Bool.eqb (FLOW_INFO_IS_SET c ACL_PRI_FWD) acl
  && negb (FLOW_INFO_IS_SET c SOFTWARE_ONLY && bool_decide (in_path (ent c) = FB_PATH_34)
           && (negb (lutIgrSaIdx (sw c) =? lutIgrSaIdx s) || negb (lutEgrDaIdx (sw c) =? lutEgrDaIdx s)))
  && only (pppoe_by_sw (ent c)) (pppoe_sid s =? pppoe_sid (sw c))
  && only (negb SKIP_SPRI) (svlan_pri s =? svlan_pri (sw c))
  && only (negb SKIP_VLAN_DEICFI) ((igr_svlan_dei s =? igr_svlan_dei (sw c)) && (igr_cvlan_cfi s =? igr_cvlan_cfi (sw c)))
  && only (path34_or_5 (ent c) && CHECK_PATH345_STREAM_IDX) (pon_stream_id s =? pon_stream_id (sw c))
  && (igr_stpid_sel (sw c) =? igr_stpid_sel s).

Definition _rtk_fc_flow_matchOrNot_tblEntry (c f : flow) : bool :=
  _rtk_fc_flow_matchOrNot_hw_fields (ent c) (ent f) (FLOW_INFO_IS_SET f MC_ENTRY)
  && same_sw c (sw f) (FLOW_INFO_IS_SET f ACL_PRI_FWD)
  && match protoCtrl c, protoCtrl f with
     | DUAL_PT i, DUAL_PT j => _rtk_fc_flow_extraSwflowPatternCheck (dual_at j) i
     | DUAL_PT _, _ | _, DUAL_PT _ => false
     | _, _ => true
     end.

Definition same_icmp (c : flow) (g : g3_info) : bool :=
  match protoCtrl c with
  | ICMP_ACC id _ _ => ingress_icmp_valid g && (id =? ingress_icmp g)
  | _ => negb (ingress_icmp_valid g)
  end.
Definition same_dual (c : flow) (g : g3_info) : bool :=
  match protoCtrl c, dualPt g with
  | DUAL_PT i, DUAL_NONE => false
  | DUAL_PT i, d => _rtk_fc_flow_extraSwflowPatternCheck d i
  | _, DUAL_NONE => true
  | _, _ => false
  end.
Definition vxlan_inner (c : flow) (g : g3_info) : bool :=
  match protoCtrl c with
  | VXLAN_ADD _ | VXLAN_REMOVE => (is_vxlanUS_innerFlow g || is_vxlanDS_innerFlow g) && FLOW_INFO_IS_SET c SOFTWARE_ONLY
  | _ => false
  end.
(** The verdict.  A match also counts as a hit of a flow that is delayed: [delay_hit]. *)
Definition _rtk_fc_flow_matchOrNot (c : flow) (e : entry) (g : option g3_info) (isMulticast : bool) : bool :=
  _rtk_fc_flow_matchOrNot_hw_fields (ent c) e isMulticast
  && match g with
     | None => true
     | Some g => same_sw c (g3_sw g) (isHitSwFwdedAclTrapPri g) && same_icmp c g && same_dual c g && negb (vxlan_inner c g)
     end.
End SoftMatch.
