(* ===== verification/FcFlowKeySpec.v ===== *)
(** * Matching is equality of keys

    [hw_key] lists what the switch tells flows apart by, under its settings: each field that
    is compared, or nothing where it is skipped.  Two entries match exactly when their keys
    are the same, so matching is an equivalence and does not depend on which of the two is
    in the table.  This needs that the stream of a WAN port is only compared together with
    the port itself: without, matching is not even transitive. *)
From S2P Require Import Prelude FcFlowKey.
Open Scope Z_scope.

(** ** Keys *)

Definition guard (g : bool) (x : Z) : option Z := if g then Some x else None.

Section Keys.
Context `{FlowChecks}.

Definition key12 (e : igr_pattern) : list (option Z) :=
  [Some (in_smac_lut_idx e); Some (in_dmac_lut_idx e);
   guard (negb SKIP_PATH12_SVID) (in_stagif e); guard (negb SKIP_PATH12_SVID) (in_svlan_id e);
   guard (negb SKIP_PATH12_CVID || (negb first_asic && negb SKIP_PATH12_CPRI)) (in_ctagif e);
   guard (negb SKIP_PATH12_CVID) (in_cvlan_id e);
   guard (negb first_asic && negb SKIP_PATH12_CPRI) (in_cvlan_pri e);
   Some (in_pppoeif e); Some (in_pppoe_sid_check e);
   guard (on (in_pppoeif e) && on (in_pppoe_sid_check e)) (in_pppoe_sid e);
   guard CHECK_PATH12_TOS (tos_part (in_tos e)); guard CHECK_PATH12_PROTOCOL (in_protocol e);
   guard CHECK_PATH12_SPA (in_spa e); guard CHECK_PATH12_SPA (in_ext_spa e)].
Definition wan_stream (e : igr_pattern) (stream : Z) : option Z :=
  guard (CHECK_PATH12_STREAM_IDX && wan_port (in_spa e)) stream.
Definition key34 (mc : bool) (e : igr_pattern) : list (option Z) :=
  [Some (in_ipv4_or_ipv6 e); Some (in_src_ipv4_addr e); Some (in_dst_ipv4_addr e);
   Some (in_l4_src_port e); Some (in_l4_dst_port e); Some (in_l4proto e);
   guard (care_svid34 mc) (in_stagif e);
   guard (care_cvid34 mc || (negb first_asic && care_cpri34 mc)) (in_ctagif e);
   guard (negb first_asic && care_cpri34 mc) (in_cvlan_pri e);
   Some (in_pppoeif e); Some (in_pppoe_sid_check e);
   guard (on (in_pppoeif e) && on (in_pppoe_sid_check e)) (in_intf_idx e);
   guard CHECK_PATH34_TOS (tos_part (in_tos e))].
Definition key5 (e : entry) : list (option Z) :=
  [Some (in_l4_src_port (igr e)); Some (in_l4_dst_port (igr e)); Some (in_src_ipv4_addr (igr e));
   Some (if naptr e then in_intf_idx (igr e) else in_dst_ipv4_addr (igr e));
   Some (in_l4proto (igr e)); Some (in_ipv4_or_ipv6 (igr e));
   Some (out_l4_act (egr e)); guard (on (out_l4_act (egr e))) (out_l4_direction (egr e));
   guard (negb SKIP_PATH5_SVID) (in_stagif (igr e));
   guard (negb SKIP_PATH5_CVID || (negb first_asic && negb SKIP_PATH5_CPRI)) (in_ctagif (igr e));
   guard (negb first_asic && negb SKIP_PATH5_CPRI) (in_cvlan_pri (igr e));
   Some (in_pppoeif (igr e)); guard (on (in_pppoeif (igr e))) (in_intf_idx (igr e));
   guard CHECK_PATH5_TOS (tos_part (in_tos (igr e)))].
Definition key6 (e : igr_pattern) : list (option Z) :=
  [guard CHECK_PATH6_SMAC_IDX (in_smac_lut_idx e); guard CHECK_PATH6_DMAC_IDX (in_dmac_lut_idx e);
   guard (negb SKIP_PATH6_SVID) (in_stagif e);
   guard (negb SKIP_PATH6_CVID || (negb first_asic && negb SKIP_PATH6_CPRI)) (in_ctagif e);
   guard (negb first_asic && negb SKIP_PATH6_CPRI) (in_cvlan_pri e);
   Some (in_pppoeif e); Some (in_pppoe_sid_check e);
   guard (on (in_pppoeif e) && on (in_pppoe_sid_check e)) (in_pppoe_sid e);
   Some (in_dsliteif e); Some (rsvd_in_6rdif e); Some (in_greEthBrif e);
   guard CHECK_PATH6_SIP (in_src_ipv4_addr e); guard CHECK_PATH6_DIP (in_dst_ipv4_addr e);
   guard CHECK_PATH6_SPORT (in_l4_src_port e); guard CHECK_PATH6_DPORT (in_l4_dst_port e);
   guard CHECK_PATH6_PROTOCOL (in_protocol e);
   Some (in_pptpif e); guard (on (in_pptpif e) && CHECK_PATH6_GRE_CALL_ID) (in_gre_call_id e);
   Some (in_l2tpif e); guard (on (in_l2tpif e) && CHECK_PATH6_L2TP_TUNNEL_ID) (in_l2tp_tunnel_id e);
   guard (on (in_l2tpif e) && CHECK_PATH6_L2TP_SID) (in_l2tp_session_id e)].

Definition hw_key (mc : bool) (e : entry) : fb_path * list (option Z) :=
  (in_path e,
   match in_path e with
   | FB_PATH_12 => Some (in_multiple_act e) :: wan_stream (igr e) (if in_multiple_act e =? 0 then in_out_stream_idx (igr e) else in_stream_idx (igr e)) :: key12 (igr e)
   | FB_PATH_34 => Some (in_multiple_act e) :: key34 mc (igr e)
   | FB_PATH_5 => key5 e
   | FB_PATH_6 => key6 (igr e)
   end).

(** ** Fields and guards *)

Lemma only_guard g x y : only g (x =? y) = true <-> guard g x = guard g y.
Proof. destruct g; simpl; [rewrite Z.eqb_eq; split; congruence|done]. Qed.
Lemma only_and g a b : only g (a && b) = only g a && only g b.
Proof. by destruct g, a, b. Qed.
Lemma some_eqb (x y : Z) : (x =? y) = true <-> Some x = Some y.
Proof. rewrite Z.eqb_eq. split; congruence. Qed.
Lemma cons_eq {A} (x y : A) l m : x :: l = y :: m <-> x = y /\ l = m.
Proof. split; [by intros [= -> ->]|by intros [-> ->]]. Qed.
Lemma and_dep (P Q R : Prop) : (P -> Q <-> R) -> P /\ Q <-> P /\ R.
Proof. tauto. Qed.
Lemma ctag_eq (asic cvid cpri : bool) (x y p q : Z) :
  (if asic then only cvid (x =? y) else only (cvid || cpri) (x =? y) && only cpri (p =? q)) = true <->
  guard (cvid || (negb asic && cpri)) x = guard (cvid || (negb asic && cpri)) y /\ guard (negb asic && cpri) p = guard (negb asic && cpri) q.
Proof. destruct asic, cvid, cpri; simpl; rewrite ?andb_true_iff, ?some_eqb; tauto. Qed.
Lemma ctag12_eq c e : same_ctag12 c e = true <->
  guard (negb SKIP_PATH12_CVID || (negb first_asic && negb SKIP_PATH12_CPRI)) (in_ctagif c) = guard (negb SKIP_PATH12_CVID || (negb first_asic && negb SKIP_PATH12_CPRI)) (in_ctagif e) /\
  guard (negb SKIP_PATH12_CVID) (in_cvlan_id c) = guard (negb SKIP_PATH12_CVID) (in_cvlan_id e) /\
  guard (negb first_asic && negb SKIP_PATH12_CPRI) (in_cvlan_pri c) = guard (negb first_asic && negb SKIP_PATH12_CPRI) (in_cvlan_pri e).
Proof. unfold same_ctag12. destruct first_asic, SKIP_PATH12_CVID, SKIP_PATH12_CPRI; simpl; rewrite ?andb_true_iff, ?some_eqb; tauto. Qed.
Lemma ctag34_eq mc c e : same_ctag34 mc c e = true <->
  guard (care_cvid34 mc || (negb first_asic && care_cpri34 mc)) (in_ctagif c) = guard (care_cvid34 mc || (negb first_asic && care_cpri34 mc)) (in_ctagif e) /\
  guard (negb first_asic && care_cpri34 mc) (in_cvlan_pri c) = guard (negb first_asic && care_cpri34 mc) (in_cvlan_pri e).
Proof. apply ctag_eq. Qed.
(** Comparisons of fields as equations of key components; a guard that is itself compared
    is the same on both sides. *)
Ltac keys := rewrite ?only_and, ?andb_true_iff, ?only_guard, ?some_eqb, ?ctag_eq, ?ctag12_eq, ?ctag34_eq, ?cons_eq.
Ltac same_keys := keys; split; intros; destruct_and!; repeat split; congruence.

(** ** The layouts *)

Lemma path3_eq mc c e : match_path3 mc c e = true <-> key34 mc c = key34 mc e.
Proof. unfold match_path3, same_tuple34, same_pppoe_intf, key34. same_keys. Qed.
Lemma path4_eq mc c e : match_path4 mc c e = true <-> key34 mc c = key34 mc e.
Proof. apply path3_eq. Qed.
Lemma path6_eq c e : match_path6 c e = true <-> key6 c = key6 e.
Proof. unfold match_path6, same_pppoe_sid, key6. same_keys. Qed.
Lemma path5_eq c e : match_path5 c e = true <-> key5 c = key5 e.
Proof.
  assert (forall b : bool, (if b then in_intf_idx (igr c) =? in_intf_idx (igr e) else in_dst_ipv4_addr (igr c) =? in_dst_ipv4_addr (igr e)) = true <->
    (if b then in_intf_idx (igr c) else in_dst_ipv4_addr (igr c)) = (if b then in_intf_idx (igr e) else in_dst_ipv4_addr (igr e))) as Hd
    by (intros []; apply Z.eqb_eq).
  assert (in_ipv4_or_ipv6 (igr c) = in_ipv4_or_ipv6 (igr e) -> out_l4_act (egr c) = out_l4_act (egr e) ->
    guard (on (out_l4_act (egr e))) (out_l4_direction (egr c)) = guard (on (out_l4_act (egr e))) (out_l4_direction (egr e)) -> naptr c = naptr e) as Hn.
  { unfold naptr. intros -> ->. destruct (Z.eqb_spec (out_l4_act (egr e)) 1) as [->|]; [|by rewrite !andb_false_r].
    intros [= ->]. done. }
  unfold match_path5, key5. keys. rewrite Hd. split; intros; destruct_and!; assert (naptr c = naptr e) as Hce by (apply Hn; congruence);
    rewrite ?Hce in *; repeat split; congruence.
Qed.

Context (Hspa : forall p, PATH12_SPA p = p) (Hstream : CHECK_PATH12_STREAM_IDX = true -> CHECK_PATH12_SPA = true).

Lemma stream_eq c e x y : guard CHECK_PATH12_SPA (in_spa c) = guard CHECK_PATH12_SPA (in_spa e) ->
  only (both_wan c e) (x =? y) = true <-> wan_stream c x = wan_stream e y.
Proof.
  intros Hs. unfold both_wan, wan_stream. rewrite Hspa. destruct CHECK_PATH12_STREAM_IDX; [|done].
  rewrite (Hstream eq_refl) in Hs. injection Hs as ->. simpl. rewrite andb_diag. apply only_guard.
Qed.
Lemma path12_eq c e x y :
  (in_smac_lut_idx c =? in_smac_lut_idx e) && (in_dmac_lut_idx c =? in_dmac_lut_idx e)
  && only (negb SKIP_PATH12_SVID) ((in_stagif c =? in_stagif e) && (in_svlan_id c =? in_svlan_id e))
  && same_ctag12 c e && same_pppoe_sid c e
  && only CHECK_PATH12_TOS (tos_part (in_tos c) =? tos_part (in_tos e))
  && only CHECK_PATH12_PROTOCOL (in_protocol c =? in_protocol e)
  && same_port12 c e
  && only (both_wan c e) (x =? y) = true <-> wan_stream c x = wan_stream e y /\ key12 c = key12 e.
Proof.
  rewrite andb_true_iff, (and_comm (wan_stream c x = _)). split; intros [K S]; (split; [|apply stream_eq; [|done]]).
  all: unfold same_port12, same_pppoe_sid, key12 in *; rewrite ?Hspa in *; revert K; keys; intros; destruct_and!; repeat split; congruence.
Qed.

Lemma hw_match_iff mc c e : _rtk_fc_flow_matchOrNot_hw_fields c e mc = true <-> hw_key mc c = hw_key mc e.
Proof.
  unfold _rtk_fc_flow_matchOrNot_hw_fields, hw_key. rewrite andb_true_iff, bool_decide_eq_true.
  assert (forall (a b : fb_path * list (option Z)), a = b <-> a.1 = b.1 /\ a.2 = b.2) as Hp by (intros [] []; simpl; naive_solver).
  rewrite Hp. simpl. apply and_dep. intros Hpath. rewrite Hpath. destruct (in_path e).
  - rewrite !cons_eq, andb_true_iff, some_eqb. apply and_dep. intros [= ->]. destruct (in_multiple_act e =? 0); apply path12_eq.
  - rewrite cons_eq, andb_true_iff, some_eqb. apply and_dep. intros _. destruct (in_multiple_act e =? 0); apply path3_eq.
  - apply path5_eq.
  - apply path6_eq.
Qed.
End Keys.

(** ** The property *)

Section Equal.
Context `{FlowChecks} (Hspa : forall p, PATH12_SPA p = p) (Hstream : CHECK_PATH12_STREAM_IDX = true -> CHECK_PATH12_SPA = true).

(** C25: matching is equality of keys.  When the port field of an entry is the port, and
    the stream of a WAN port is compared only together with the port, two entries match
    exactly when the lists of the fields that the settings let the switch look at are the
    same: so matching is the equivalence of having the same key, in all four layouts, and
    the answer does not depend on which of the two is the entry of the table. *)
Theorem flows_match_by_key mc c e :
  _rtk_fc_flow_matchOrNot_hw_fields c e mc = bool_decide (hw_key mc c = hw_key mc e) /\
  _rtk_fc_flow_matchOrNot_hw_fields c e mc = _rtk_fc_flow_matchOrNot_hw_fields e c mc.
Proof.
  assert (forall c e, _rtk_fc_flow_matchOrNot_hw_fields c e mc = bool_decide (hw_key mc c = hw_key mc e)) as Hm
    by (intros; apply eq_true_iff_eq; rewrite bool_decide_eq_true; by apply hw_match_iff).
  split; [done|]. rewrite !Hm. by apply bool_decide_ext.
Qed.
End Equal.

(** ** Settings to try it with *)

(** Every field that has a setting is compared; [spa] and [stream] say whether the port and
    the stream of the two layouts of path 1 and 2 are. *)
Definition checks_with (spa stream : bool) : FlowChecks := {|
  ASICDRIVERVER := 2;
  SKIP_PATH12_SVID := false; SKIP_PATH12_CVID := false; SKIP_PATH12_CPRI := true;
  SKIP_PATH34_MC_SVID := false; SKIP_PATH34_MC_CVID := false; SKIP_PATH34_MC_CPRI := true;
  SKIP_PATH34_UCBC_SVID := false; SKIP_PATH34_UCBC_CVID := false; SKIP_PATH34_UCBC_CPRI := true;
  SKIP_PATH5_SVID := false; SKIP_PATH5_CVID := false; SKIP_PATH5_CPRI := true;
  SKIP_PATH6_SVID := false; SKIP_PATH6_CVID := false; SKIP_PATH6_CPRI := true;
  SKIP_SPRI := true; SKIP_VLAN_DEICFI := true; CMP_TOS := true;
  CHECK_PATH12_TOS := true; CHECK_PATH12_PROTOCOL := true; CHECK_PATH12_SPA := spa; CHECK_PATH12_STREAM_IDX := stream;
  CHECK_PATH34_TOS := true; CHECK_PATH5_TOS := true; CHECK_PATH345_STREAM_IDX := false;
  CHECK_PATH6_SMAC_IDX := true; CHECK_PATH6_DMAC_IDX := true; CHECK_PATH6_SIP := true; CHECK_PATH6_DIP := true;
  CHECK_PATH6_SPORT := true; CHECK_PATH6_DPORT := true; CHECK_PATH6_PROTOCOL := true;
  CHECK_PATH6_GRE_CALL_ID := true; CHECK_PATH6_L2TP_TUNNEL_ID := true; CHECK_PATH6_L2TP_SID := true;
  wanPortMask := 2; PATH12_SPA := fun p => p |}.
(** A flow of path 1 from a port, with a stream. *)
Definition bridged (port stream : Z) : entry :=
  Entry true false FB_PATH_12 0
    (Igr 1 2 0 0 0 0 0 0 0 0 0 0 0 0 port 0 0 stream 0 0 0 0 0 0 0 0 0 0 0 0 0 0 0 0) egr0.

Lemma flows_match_by_key_witness :
  @_rtk_fc_flow_matchOrNot_hw_fields (checks_with true true) (bridged 1 7) (bridged 1 8) false
    = bool_decide (@hw_key (checks_with true true) false (bridged 1 7) = @hw_key (checks_with true true) false (bridged 1 8)) /\
  @_rtk_fc_flow_matchOrNot_hw_fields (checks_with true true) (bridged 1 7) (bridged 1 8) false
    = @_rtk_fc_flow_matchOrNot_hw_fields (checks_with true true) (bridged 1 8) (bridged 1 7) false.
Proof. apply (@flows_match_by_key (checks_with true true) (fun p => eq_refl) (fun _ => eq_refl) false (bridged 1 7) (bridged 1 8)). Defined.

(** When the stream is compared without the port, a flow of a LAN port matches both flows
    of the WAN port, which do not match each other: what is found depends on the order. *)
Example matching_is_not_transitive :
  let same c e := @_rtk_fc_flow_matchOrNot_hw_fields (checks_with false true) c e false in
  same (bridged 1 7) (bridged 0 0) = true /\ same (bridged 0 0) (bridged 1 8) = true /\ same (bridged 1 7) (bridged 1 8) = false.
Proof. by_compute. Qed.
