(* ===== verification/FcFlowSide.v ===== *)
(** * What hangs on a flow

    Model of the small tables of [FleetConntrackDriver/core/rtk_fc_internal.c] in which a
    flow keeps something that does not fit its entry: the second address and port of a NAT
    loopback ([rtk_fc_flow_info_natloopback_*]), the VLANs a learned address was seen on
    ([rtk_fc_flow_info_lutivl_*]), and which two flows belong to a connection
    ([rtk_fc_ct_hash_info_*]).

    A connection of the kernel is named by its address.  The 256 lists of the connection
    information are one map here: the list is chosen by the address, a search compares the
    whole address, and an address is only added when the search does not find it. *)
From stdpp Require Import gmap.
From S2P Require Import Prelude.
Open Scope nat_scope.

(** ** NAT loopback

    A hash table: the low bits of the flow's index choose the bucket. *)

Record natloopback := NatLoopback { nl_valid : bool; flow_ent_dx : nat; l3_ip : Z; l4_port : Z; key_l3_dip : Z }.
Definition natloopback0 : natloopback := NatLoopback false 0 0 0 0.
Abbreviation nl_tbl := (list (list natloopback)).

Class FlowSideConfig := {
  RTK_FC_TABLESIZE_NATLOOPBACK_BUCKET : nat;
  RTK_FC_TABLESIZE_NATLOOPBACK_WAY : nat;
  RTK_FC_TABLESIZE_LUT : nat;
  RTK_FC_TABLESIZE_LUT_IVL : nat }.

Inductive side_ret := SIDE_OK | SIDE_FULL | SIDE_NOT_FOUND.
#[export] Instance side_ret_eq_dec : EqDecision side_ret.
Proof. solve_decision. Defined.

Section Side.
Context `{FlowSideConfig}.

Definition nl_bucket (i : nat) : nat := Nat.land i (RTK_FC_TABLESIZE_NATLOOPBACK_BUCKET - 1).
Definition nl_is (i : nat) (e : natloopback) : bool := nl_valid e && (flow_ent_dx e =? i).
Definition nl_free (e : natloopback) : bool := negb (nl_valid e).
(** The way an entry for the flow goes to: its own, else the first that is not in use. *)
Definition nl_way (i : nat) (ways : list natloopback) : option nat :=
  match list_find (fun e => nl_is i e = true) ways with
  | Some (w, _) => Some w
  | None => fst <$> list_find (fun e => nl_free e = true) ways
  end.
Definition nl_init : nl_tbl := replicate RTK_FC_TABLESIZE_NATLOOPBACK_BUCKET (replicate RTK_FC_TABLESIZE_NATLOOPBACK_WAY natloopback0).

(** What the copy of an entry leaves in the table. *)
Definition stored (e : natloopback) : natloopback := NatLoopback true (flow_ent_dx e) (l3_ip e) (l4_port e) (key_l3_dip e).
Definition rtk_fc_flow_info_natloopback_alloc (e : natloopback) (t : nl_tbl) : side_ret * nl_tbl :=
  let b := nl_bucket (flow_ent_dx e) in
  match nl_way (flow_ent_dx e) (nth b t []) with
  | None => (SIDE_FULL, t)
  | Some w => (SIDE_OK, alter (fun ways => <[w := stored e]> ways) b t)
  end.
Definition rtk_fc_flow_info_natloopback_get (i : nat) (t : nl_tbl) : option natloopback :=
  snd <$> list_find (fun e => nl_is i e = true) (nth (nl_bucket i) t []).
Definition nl_clear (e : natloopback) : natloopback := NatLoopback false (flow_ent_dx e) (l3_ip e) (l4_port e) (key_l3_dip e).
Definition rtk_fc_flow_info_natloopback_free (i : nat) (t : nl_tbl) : side_ret * nl_tbl :=
  match list_find (fun e => nl_is i e = true) (nth (nl_bucket i) t []) with
  | None => (SIDE_NOT_FOUND, t)
  | Some (w, _) => (SIDE_OK, alter (alter nl_clear w) (nl_bucket i) t)
  end.
End Side.

(** ** VLANs of a learned address

    [lutIvlTbl] counts the flows of each VLAN; the selectors of an address point into it. *)

Record ivl := Ivl { ivl_valid : bool; ivl_pvid : Z; flow_ref_cnt : Z }.
Record ivl_sel := IvlSel { sel_valid : bool; ivl_tbl_idx : nat; traffic_bit : bool }.
(** The table and, for each address of the look-up table, its selectors. *)
Record ivl_db := IvlDb { lutIvlTbl : list ivl; sels : gmap nat (list ivl_sel) }.
Definition ivl0 : ivl := Ivl false 0 0.
Definition ivl_sel0 : ivl_sel := IvlSel false 0 false.

Section Ivl.
Context `{FlowSideConfig}.
Context (count : Z -> Z). (* how the counter wraps: its width is the header's *)

Definition ivl_at (d : ivl_db) (i : nat) : ivl := nth i (lutIvlTbl d) ivl0.
Definition sel_at (d : ivl_db) (sa i : nat) : ivl_sel := nth i (default [] (sels d !! sa)) ivl_sel0.
Definition ivl_find (pvid : Z) (l : list ivl) : option nat :=
  match list_find (fun e => ivl_valid e = true /\ ivl_pvid e = pvid) l with
  | Some (i, _) => Some i
  | None => fst <$> list_find (fun e => ivl_valid e = false) l
  end.
Definition sel_find (pvid : Z) (d : ivl_db) (l : list ivl_sel) : option nat :=
  match list_find (fun e => sel_valid e = true /\ ivl_pvid (ivl_at d (ivl_tbl_idx e)) = pvid) l with
  | Some (i, _) => Some i
  | None => fst <$> list_find (fun e => sel_valid e = false) l
  end.
Definition ivl_count (n : Z) (e : ivl) : ivl := Ivl (ivl_valid e) (ivl_pvid e) (count (flow_ref_cnt e + n)).
Definition set_sel (sa i : nat) (f : ivl_sel -> ivl_sel) (d : ivl_db) : ivl_db :=
  IvlDb (lutIvlTbl d) (alter (alter f i) sa (sels d)).

Definition rtk_fc_flow_info_lutivl_ref (pvid : Z) (sa : nat) (d : ivl_db) : (side_ret + nat) * ivl_db :=
  if RTK_FC_TABLESIZE_LUT <=? sa then (inl SIDE_NOT_FOUND, d) else
  match sels d !! sa with
  | None => (inl SIDE_NOT_FOUND, d)
  | Some _ =>
    match ivl_find pvid (lutIvlTbl d) with
    | None => (inl SIDE_FULL, d)
    | Some i =>
      let d := IvlDb (alter (fun e => Ivl true pvid (count (flow_ref_cnt e + 1))) i (lutIvlTbl d)) (sels d) in
      match sel_find pvid d (default [] (sels d !! sa)) with
      | None => (inl SIDE_FULL, IvlDb (alter (ivl_count (-1)) i (lutIvlTbl d)) (sels d))
      | Some k => (inr k, set_sel sa k (fun s => IvlSel true i (traffic_bit s)) d)
      end
    end
  end.

Definition sel_of (sa k : nat) (d : ivl_db) : option ivl_sel :=
  if (RTK_FC_TABLESIZE_LUT <=? sa) || (RTK_FC_TABLESIZE_LUT_IVL <=? k) then None else
  match sels d !! sa with
  | None => None
  | Some _ => if sel_valid (sel_at d sa k) then Some (sel_at d sa k) else None
  end.
Definition ivl_release (e : ivl) : ivl :=
  let n := count (flow_ref_cnt e - 1) in Ivl (ivl_valid e && negb (n =? 0)%Z) (ivl_pvid e) n.
Definition rtk_fc_flow_info_lutivl_deref (sa k : nat) (d : ivl_db) : side_ret * ivl_db :=
  match sel_of sa k d with
  | None => (SIDE_NOT_FOUND, d)
  | Some s => (SIDE_OK, IvlDb (alter ivl_release (ivl_tbl_idx s) (lutIvlTbl d)) (sels d))
  end.
Definition rtk_fc_flow_info_lutivl_trf_set (sa k : nat) (d : ivl_db) : side_ret * ivl_db :=
  match sel_of sa k d with
  | None => (SIDE_NOT_FOUND, d)
  | Some _ => (SIDE_OK, set_sel sa k (fun s => IvlSel (sel_valid s) (ivl_tbl_idx s) true) d)
  end.
End Ivl.

(** ** The flows of a connection *)

Inductive direction := UPSTREAM | DOWNSTREAM | LANBRIDGE.
#[export] Instance direction_eq_dec : EqDecision direction.
Proof. solve_decision. Defined.

Record ct_info := CtInfo {
  upstream_flow_index : nat; upstream_flow_hash_index : nat;
  downstream_flow_index : nat; downstream_flow_hash_index : nat }.
Abbreviation ct_infos := (gmap Z ct_info).

Definition rtk_fc_ct_hash_info_add (ct : Z) (flow_index : nat) (dir : direction) (flow_hash_index : nat) (m : ct_infos) : ct_infos :=
  match m !! ct with
  | Some c =>
      match dir with
      | DOWNSTREAM => <[ct := CtInfo (upstream_flow_index c) (upstream_flow_hash_index c) flow_index flow_hash_index]> m
      | UPSTREAM => <[ct := CtInfo flow_index flow_hash_index (downstream_flow_index c) (downstream_flow_hash_index c)]> m
      | LANBRIDGE =>
          if negb (upstream_flow_index c =? 0) && negb (upstream_flow_index c =? flow_index)
          then <[ct := CtInfo (upstream_flow_index c) (upstream_flow_hash_index c) flow_index flow_hash_index]> m else m
      end
  | None =>
      <[ct := match dir with
              | DOWNSTREAM => CtInfo 0 0 flow_index flow_hash_index
              | UPSTREAM | LANBRIDGE => CtInfo flow_index flow_hash_index 0 0
              end]> m
  end.
Definition rtk_fc_ct_hash_info_del (ct : Z) (m : ct_infos) : ct_infos := delete ct m.
