(* ===== verification/FcFlowSideSpec.v ===== *)
(** * The NAT-loopback table is a map from flows

    The hash table of NAT-loopback entries keeps at most one entry for a flow, in the
    flow's bucket ([nl_ok]); reading it through [rtk_fc_flow_info_natloopback_get], its
    operations insert, look up and delete, and an insertion fails only when the bucket is
    full of other flows.  The examples at the end show what the VLAN table does not keep. *)
From stdpp Require Import gmap.
From S2P Require Import Prelude FcFlowSide.
Open Scope nat_scope.

Section NatLoopback.
Context `{FlowSideConfig}.

(** ** The invariant *)

Record row_ok (b : nat) (ways : list natloopback) : Prop := {
  row_bucket : forall w e, ways !! w = Some e -> nl_valid e = true -> nl_bucket (flow_ent_dx e) = b;
  row_single : forall w w' e e', ways !! w = Some e -> ways !! w' = Some e' -> nl_valid e = true -> nl_valid e' = true ->
    flow_ent_dx e = flow_ent_dx e' -> w = w' }.
Record nl_ok (t : nl_tbl) : Prop := {
  nl_length : length t = RTK_FC_TABLESIZE_NATLOOPBACK_BUCKET;
  nl_rows : forall b ways, t !! b = Some ways -> length ways = RTK_FC_TABLESIZE_NATLOOPBACK_WAY /\ row_ok b ways }.
Context (buckets_pos : RTK_FC_TABLESIZE_NATLOOPBACK_BUCKET <> 0).

Lemma nl_bucket_bound i : nl_bucket i < RTK_FC_TABLESIZE_NATLOOPBACK_BUCKET.
Proof. unfold nl_bucket. pose proof (Nat.land_le_r i (RTK_FC_TABLESIZE_NATLOOPBACK_BUCKET - 1)). lia. Qed.
Lemma nl_is_spec i e : nl_is i e = true <-> nl_valid e = true /\ flow_ent_dx e = i.
Proof. unfold nl_is. by rewrite andb_true_iff, Nat.eqb_eq. Qed.
Lemma nl_init_ok : nl_ok nl_init.
Proof.
  split; [apply length_replicate|]. intros b ways [-> _]%lookup_replicate. split; [apply length_replicate|].
  split; [intros w e [-> _]%lookup_replicate|intros w w' e e' [-> _]%lookup_replicate _]; done.
Qed.

Lemma nl_row t i : nl_ok t -> exists ways, t !! nl_bucket i = Some ways /\ nth (nl_bucket i) t [] = ways /\
  length ways = RTK_FC_TABLESIZE_NATLOOPBACK_WAY /\ row_ok (nl_bucket i) ways.
Proof.
  intros Ht. assert (nl_bucket i < length t) as [ways Hw]%lookup_lt_is_Some by (rewrite (nl_length t Ht); apply nl_bucket_bound).
  exists ways. pose proof (nl_rows t Ht _ _ Hw) as [? ?]. rewrite nth_lookup, Hw. done.
Qed.

(** In a row, what is found is the flow's entry. *)
Definition row_get (i : nat) (ways : list natloopback) : option natloopback := snd <$> list_find (fun e => nl_is i e = true) ways.
Lemma row_get_iff b i ways e : row_ok b ways ->
  row_get i ways = Some e <-> exists w, ways !! w = Some e /\ nl_valid e = true /\ flow_ent_dx e = i.
Proof.
  intros Hr. unfold row_get. rewrite fmap_Some. split.
  - intros ([w x] & Hf & ->). apply list_find_Some in Hf as (Hw & Hx%nl_is_spec & _). by exists w.
  - intros (w & Hw & Hv & Hi). destruct (list_find _ ways) as [[w' x]|] eqn:E.
    + apply list_find_Some in E as (Hw' & [Hx Hxi]%nl_is_spec & _). exists (w', x). split; [done|].
      assert (w' = w) as -> by (eapply (row_single b ways Hr); eauto; congruence). simpl. congruence.
    + apply list_find_None in E. eapply Forall_lookup_1 in E; [|done]. destruct E. by apply nl_is_spec.
Qed.
(** ** Changing one row *)

Lemma nl_alter_ok t b f : nl_ok t -> (forall ways, length ways = RTK_FC_TABLESIZE_NATLOOPBACK_WAY -> row_ok b ways ->
  t !! b = Some ways -> length (f ways) = length ways /\ row_ok b (f ways)) -> nl_ok (alter f b t).
Proof.
  intros Ht Hf. split; [by rewrite length_alter; apply nl_length|]. intros b' ways'. destruct (decide (b' = b)) as [->|Hn].
  - rewrite list_lookup_alter_eq, fmap_Some. intros (ways & Hw & ->). destruct (nl_rows t Ht _ _ Hw) as [Hl Hr].
    destruct (Hf ways Hl Hr Hw) as [Hl' ?]. by rewrite Hl'.
  - rewrite list_lookup_alter_ne by done. apply (nl_rows t Ht).
Qed.
Lemma get_row t i ways : nth (nl_bucket i) t [] = ways -> rtk_fc_flow_info_natloopback_get i t = row_get i ways.
Proof. by intros <-. Qed.
Lemma get_alter_other t f b i : nl_bucket i <> b -> rtk_fc_flow_info_natloopback_get i (alter f b t) = rtk_fc_flow_info_natloopback_get i t.
Proof. intros Hn. unfold rtk_fc_flow_info_natloopback_get. by rewrite !nth_lookup, list_lookup_alter_ne. Qed.
Lemma get_alter_same t f b i : t !! b <> None -> nl_bucket i = b ->
  rtk_fc_flow_info_natloopback_get i (alter f b t) = row_get i (f (nth b t [])).
Proof.
  intros Ht <-. apply get_row. rewrite !nth_lookup, list_lookup_alter_eq. by destruct (t !! nl_bucket i).
Qed.

(** ** Insertion and deletion in a row *)

Lemma way_row b i ways w : row_ok b ways -> nl_way i ways = Some w ->
  w < length ways /\ (forall w' e, ways !! w' = Some e -> nl_valid e = true -> flow_ent_dx e = i -> w' = w) /\
  (forall e, ways !! w = Some e -> nl_valid e = true -> flow_ent_dx e = i).
Proof.
  intros Hr. unfold nl_way. destruct (list_find _ ways) as [[w' x]|] eqn:E; [intros [= <-]|intros Hf].
  - apply list_find_Some in E as (Hw & [Hx Hi]%nl_is_spec & _). split; [by eapply lookup_lt_Some|]. split; [|intros e; congruence].
    intros w'' e He Hv Hi'. eapply (row_single b ways Hr); eauto; congruence.
  - apply list_find_None in E. apply fmap_Some in Hf as ([k x] & Hf & ->). apply list_find_Some in Hf as (Hw & Hx & _). simpl.
    split; [by eapply lookup_lt_Some|]. split.
    + intros w' e He Hv Hi. eapply Forall_lookup_1 in E; [|done]. destruct E. by apply nl_is_spec.
    + intros e He Hv. rewrite He in Hw. injection Hw as ->. unfold nl_free in Hx. by rewrite Hv in Hx.
Qed.
Lemma insert_row_ok b i ways w e : row_ok b ways -> nl_way i ways = Some w -> nl_bucket i = b -> flow_ent_dx e = i -> row_ok b (<[w := e]> ways).
Proof.
  intros Hr Hw Hb Hi. destruct (way_row b i ways w Hr Hw) as (Hl & Hu & Ho).
  split.
  - intros k x. rewrite list_lookup_insert_Some. intros [(-> & <- & _)|[_ Hk]]; [congruence|by apply (row_bucket b ways Hr k)].
  - intros k k' x x' Hk Hk' Hv Hv' Heq. rewrite list_lookup_insert_Some in Hk, Hk'.
    destruct Hk as [(-> & <- & _)|[Hn Hk]], Hk' as [(-> & <- & _)|[Hn' Hk']]; [done| | |by eapply (row_single b ways Hr)].
    + symmetry. apply (Hu k' x'); congruence.
    + apply (Hu k x); congruence.
Qed.
Lemma clear_row_ok b ways w : row_ok b ways -> row_ok b (alter nl_clear w ways).
Proof.
  intros Hr. assert (forall k x, alter nl_clear w ways !! k = Some x -> nl_valid x = true -> ways !! k = Some x) as Hk.
  { intros k x. destruct (decide (k = w)) as [->|Hn]; [|by rewrite list_lookup_alter_ne].
    rewrite list_lookup_alter_eq, fmap_Some. by intros (y & _ & ->). }
  split; [intros k x Hx Hv; eapply (row_bucket b ways Hr); eauto|].
  intros k k' x x' Hx Hx' Hv Hv' ?. eapply (row_single b ways Hr); eauto.
Qed.

Lemma nl_way_full i ways : nl_way i ways = None <-> Forall (fun e => nl_valid e = true /\ flow_ent_dx e <> i) ways.
Proof.
  unfold nl_way. rewrite Forall_forall. destruct (list_find _ ways) as [[w x]|] eqn:E.
  - split; [done|]. apply list_find_Some in E as (Hw & [_ Hi]%nl_is_spec & _). intros Hall. by destruct (Hall x (list_elem_of_lookup_2 _ _ _ Hw)).
  - rewrite fmap_None, list_find_None, Forall_forall. apply list_find_None in E. rewrite Forall_forall in E. unfold nl_free. split.
    + intros Hf e He. destruct (nl_valid e) eqn:Hv; [|by destruct (Hf e He); rewrite Hv]. split; [done|]. intros Hi. by apply (E e He), nl_is_spec.
    + intros Hf e He. destruct (Hf e He) as [-> _]. done.
Qed.

Lemma insert_row_get b ways w e j : row_ok b ways -> nl_way (flow_ent_dx e) ways = Some w -> nl_bucket (flow_ent_dx e) = b ->
  row_get j (<[w := stored e]> ways) = if decide (j = flow_ent_dx e) then Some (stored e) else row_get j ways.
Proof.
  intros Hr Hw Hb. destruct (way_row b _ ways w Hr Hw) as (Hl & Hu & Ho).
  assert (row_ok b (<[w := stored e]> ways)) as Hr' by by eapply insert_row_ok.
  apply option_eq. intros x. rewrite (row_get_iff b _ _ _ Hr'). destruct (decide (j = flow_ent_dx e)) as [->|Hj].
  - split.
    + intros (k & [(-> & <- & _)|[Hn Hk]]%list_lookup_insert_Some & Hv & Hi); [done|]. by destruct Hn; symmetry; apply (Hu k x).
    + intros [= <-]. exists w. by rewrite list_lookup_insert_eq.
  - rewrite (row_get_iff b _ _ _ Hr). split.
    + intros (k & [(-> & <- & _)|[Hn Hk]]%list_lookup_insert_Some & Hv & Hi); [by destruct Hj|]. by exists k.
    + intros (k & Hk & Hv & Hi). exists k. rewrite list_lookup_insert_ne; [done|]. intros <-. destruct Hj. rewrite <- Hi. by apply (Ho x).
Qed.
Lemma clear_row_get b ways w x j : row_ok b ways -> ways !! w = Some x -> nl_valid x = true ->
  row_get j (alter nl_clear w ways) = if decide (j = flow_ent_dx x) then None else row_get j ways.
Proof.
  intros Hr Hw Hv. pose proof (clear_row_ok b ways w Hr) as Hr'. apply option_eq. intros e. rewrite (row_get_iff b _ _ _ Hr').
  assert (forall k, k <> w -> alter nl_clear w ways !! k = ways !! k) as Hk by (intros; by apply list_lookup_alter_ne).
  destruct (decide (j = flow_ent_dx x)) as [->|Hj]; [|rewrite (row_get_iff b _ _ _ Hr)]; split; try done.
  - intros (k & Hl & He & Hi). destruct (decide (k = w)) as [->|Hn].
    + rewrite list_lookup_alter_eq, Hw in Hl. by injection Hl as <-.
    + rewrite Hk in Hl by done. destruct Hn. by eapply (row_single b ways Hr).
  - intros (k & Hl & He & Hi). destruct (decide (k = w)) as [->|Hn]; [|rewrite Hk in Hl by done; by exists k].
    rewrite list_lookup_alter_eq, Hw in Hl. by injection Hl as <-.
  - intros (k & Hl & He & Hi). exists k. rewrite Hk; [done|]. intros ->. congruence.
Qed.

Lemma nl_alloc_ok t e : nl_ok t -> nl_ok (rtk_fc_flow_info_natloopback_alloc e t).2.
Proof.
  intros Ht. destruct (nl_row t (flow_ent_dx e) Ht) as (ways & Hl & Hn & _ & Hr). unfold rtk_fc_flow_info_natloopback_alloc. rewrite Hn.
  destruct (nl_way _ ways) as [w|] eqn:E; [|done]. apply nl_alter_ok; [done|]. intros ways' _ _ Hl'.
  assert (ways' = ways) as -> by congruence. rewrite length_insert. split; [done|]. by eapply insert_row_ok.
Qed.

(** ** The refinement *)

(** The NAT-loopback table is a map.  On a table whose entries lie in their buckets,
    each flow at most once: storing an entry makes it what the flow's lookup finds and
    changes no other flow's, and is refused only when the flow has no entry and every way
    of its bucket holds a live entry of another flow; giving an entry back removes exactly
    the flow's and is refused only when there is none; and the table stays such a table. *)
Theorem natloopback_is_a_map t e (i : nat) : nl_ok t ->
  (let '(r, t') := rtk_fc_flow_info_natloopback_alloc e t in
   nl_ok t' /\
   (r = SIDE_OK -> forall j, rtk_fc_flow_info_natloopback_get j t' =
      if decide (j = flow_ent_dx e) then Some (stored e) else rtk_fc_flow_info_natloopback_get j t) /\
   (r <> SIDE_OK -> r = SIDE_FULL /\ t' = t /\
      Forall (fun x => nl_valid x = true /\ flow_ent_dx x <> flow_ent_dx e) (nth (nl_bucket (flow_ent_dx e)) t []))) /\
  (let '(r, t') := rtk_fc_flow_info_natloopback_free i t in
   nl_ok t' /\
   (forall j, rtk_fc_flow_info_natloopback_get j t' = if decide (j = i) then None else rtk_fc_flow_info_natloopback_get j t) /\
   (r = SIDE_OK <-> rtk_fc_flow_info_natloopback_get i t <> None)).
Proof.
  intros Ht. split.
  - pose proof (nl_alloc_ok t e Ht) as Hok. destruct (nl_row t (flow_ent_dx e) Ht) as (ways & Hl & Hn & _ & Hr).
    unfold rtk_fc_flow_info_natloopback_alloc in *. rewrite Hn in *. destruct (nl_way _ ways) as [w|] eqn:E.
    + split; [done|]. split; [|done].
      * intros _ j. destruct (decide (nl_bucket j = nl_bucket (flow_ent_dx e))) as [Hb|Hb].
        -- rewrite get_alter_same by (done || congruence). rewrite Hn, (insert_row_get (nl_bucket (flow_ent_dx e))) by done.
           case_decide; [done|]. symmetry; apply get_row. by rewrite Hb.
        -- rewrite get_alter_other by done. case_decide; [congruence|done].
    + split; [done|]. split; [done|]. intros _. split; [done|]. split; [done|]. by apply nl_way_full.
  - destruct (nl_row t i Ht) as (ways & Hl & Hn & Hlen & Hr). unfold rtk_fc_flow_info_natloopback_free. rewrite Hn.
    assert (rtk_fc_flow_info_natloopback_get i t = snd <$> list_find (fun e => nl_is i e = true) ways) as Hget by by apply get_row.
    destruct (list_find _ ways) as [[w x]|] eqn:E.
    + apply list_find_Some in E as (Hw & [Hv Hi]%nl_is_spec & _). split; [|split; [|by rewrite Hget]].
      * apply nl_alter_ok; [done|]. intros ways' _ Hr' _. rewrite length_alter. split; [done|]. by apply clear_row_ok.
      * intros j. destruct (decide (nl_bucket j = nl_bucket i)) as [Hb|Hb].
        -- rewrite get_alter_same by (done || congruence). rewrite Hn, (clear_row_get (nl_bucket i) _ _ x), Hi by done.
           case_decide; [done|]. symmetry. apply get_row. by rewrite Hb.
        -- rewrite get_alter_other by done. case_decide; [congruence|done].
    + split; [done|]. split; [|by rewrite Hget]. intros j. case_decide; [|done]. subst. done.
Qed.
End NatLoopback.

(** ** A small device *)

#[export] Instance small_side : FlowSideConfig := {|
  RTK_FC_TABLESIZE_NATLOOPBACK_BUCKET := 2; RTK_FC_TABLESIZE_NATLOOPBACK_WAY := 2;
  RTK_FC_TABLESIZE_LUT := 4; RTK_FC_TABLESIZE_LUT_IVL := 2 |}.

Definition loop_of (i : nat) : natloopback := NatLoopback true i (Z.of_nat i) 80 0.
Definition loop_tbl : nl_tbl := (rtk_fc_flow_info_natloopback_alloc (loop_of 2) (rtk_fc_flow_info_natloopback_alloc (loop_of 4) nl_init).2).2.
Lemma loop_tbl_ok : nl_ok loop_tbl.
Proof. apply nl_alloc_ok; [done|]. apply nl_alloc_ok; [done|]. apply nl_init_ok. Qed.

Lemma natloopback_is_a_map_witness :
  (let '(r, t') := rtk_fc_flow_info_natloopback_alloc (loop_of 6) loop_tbl in
   nl_ok t' /\
   (r = SIDE_OK -> forall j, rtk_fc_flow_info_natloopback_get j t' =
      if decide (j = 6) then Some (stored (loop_of 6)) else rtk_fc_flow_info_natloopback_get j loop_tbl) /\
   (r <> SIDE_OK -> r = SIDE_FULL /\ t' = loop_tbl /\
      Forall (fun x => nl_valid x = true /\ flow_ent_dx x <> 6) (nth (nl_bucket 6) loop_tbl []))) /\
  (let '(r, t') := rtk_fc_flow_info_natloopback_free 2 loop_tbl in
   nl_ok t' /\
   (forall j, rtk_fc_flow_info_natloopback_get j t' = if decide (j = 2) then None else rtk_fc_flow_info_natloopback_get j loop_tbl) /\
   (r = SIDE_OK <-> rtk_fc_flow_info_natloopback_get 2 loop_tbl <> None)).
Proof. apply (@natloopback_is_a_map small_side (Nat.neq_succ_0 1) loop_tbl (loop_of 6) 2 loop_tbl_ok). Defined.

(** The bucket of flows 2, 4 and 6 is full with two of them. *)
Example third_loopback_is_refused : (rtk_fc_flow_info_natloopback_alloc (loop_of 6) loop_tbl).1 = SIDE_FULL.
Proof. reflexivity. Qed.

(** ** What the VLAN table does not keep *)

Definition wide (n : Z) : Z := n.
Definition two_addresses : ivl_db := IvlDb (replicate 2 ivl0) (<[1 := replicate 2 ivl_sel0]> {[2 := replicate 2 ivl_sel0]}).
Definition vlan_ref (pvid : Z) (sa : nat) (d : ivl_db) : ivl_db := (rtk_fc_flow_info_lutivl_ref wide pvid sa d).2.
Definition vlan_deref (sa k : nat) (d : ivl_db) : ivl_db := (rtk_fc_flow_info_lutivl_deref wide sa k d).2.

(** The last flow of an address on VLAN 5 goes; the address keeps its selector, and when
    another address takes the slot for VLAN 7, the first is listed on VLAN 7 as well. *)
Example selector_survives_its_vlan :
  let d := vlan_ref 7 2 (vlan_deref 1 0 (vlan_ref 5 1 two_addresses)) in
  sel_of 1 0 d = Some (IvlSel true 0 false) /\ ivl_pvid (ivl_at d 0) = 7%Z.
Proof. by_compute. Qed.

(** When an address has no free selector the reference is taken back, but the slot found
    for the new VLAN stays in use with no flow to release it. *)
Definition selectors_full : ivl_db :=
  IvlDb [ivl0; ivl0] (<[1 := [IvlSel true 0 false; IvlSel true 0 false]]> {[2 := replicate 2 ivl_sel0]}).
Example refused_vlan_keeps_its_slot :
  rtk_fc_flow_info_lutivl_ref wide 7 1 (IvlDb [Ivl true 5 2; ivl0] (sels selectors_full)) =
  (inl SIDE_FULL, IvlDb [Ivl true 5 2; Ivl true 7 0] (sels selectors_full)).
Proof. by_compute. Qed.
