(* ===== verification/FcFlow.v ===== *)
(** * The flow table

    Model of the flow table of [FleetConntrackDriver/core/rtk_fc_internal.c]: finding an
    entry for a new flow, adding and deleting it, and the house keeping.

    [flowTbl] has three parts.  A hash bucket owns a few consecutive entries, its ways; in
    the 4K mode there follow the entries of a TCAM, and then those that only software
    looks at.  Entries of the last two parts are on a free list or on the list of a bucket
    ([FcLists], with indices that start at 0); an entry of the first part is free when its
    [candidateState] is NONE.

    The build is the one of [configs/rtl9607c.config].  The code that writes the switch's
    table, the interface and list macros of the headers and the kernel's answers about
    connections are the class [FlowEnv].  Reference counters are as wide as needed (their
    types are in headers that are not in the tree).  Flows of the abstract flow table, and
    those whose side tables are filled by code outside the tree (MAP-E, MAP-T, XLAT, NAT66,
    VXLAN), are not part of the model, nor are the collision statistics and the special
    fast-forward mode, both switched off by default. *)
From stdpp Require Import gmap.
From S2P Require Import Prelude FcLists FcFlowKey FcFlowSide.
Open Scope nat_scope.

(** ** State *)

(** Calls that leave the flow table. *)
Inductive flow_event :=
| FLOWPATH_SET (i : nat) | FLOWPATH_DEL (i : nat) | FLOWPATH_INVALID (i : nat)
| EXTPORTMASKTABLE_DEL (k : Z)
| cbFlowAdd (i : nat) (sw_only : bool) | cbFlowDel (i : nat)
| FLOW_MIB_CLEAR (i : nat)
| REC_FLOW_LRU | REC_FLOW_ADD_FAIL.

Record fc := Fc {
  flowTbl : list flow;
  tcam : idx_lists;
  swl : idx_lists;
  hwFlow_validBits : list bool;
  flowCntRef : list Z;                 (* by interface *)
  indMac : list (bool * Z);            (* valid, indMacRefCount *)
  natloops : nl_tbl;
  ivls : ivl_db;
  cts : ct_infos;
  ct_held : list Z;                    (* the references taken on connections *)
  dual_pt_flowMapTbl : list dual_hdr;
  path5_downStream : list (list nat);
  outerHdrFlowIdx : list (option nat); (* of the 6RD interfaces *)
  anyFlowEstablish : gmap nat bool;    (* of the entries of the layer-2 table *)
  events : list flow_event;
  swFlow_hkCurIdx : nat }.

Definition set_flows (l : list flow) (d : fc) : fc :=
  Fc l (tcam d) (swl d) (hwFlow_validBits d) (flowCntRef d) (indMac d) (natloops d) (ivls d) (cts d) (ct_held d)
    (dual_pt_flowMapTbl d) (path5_downStream d) (outerHdrFlowIdx d) (anyFlowEstablish d) (events d) (swFlow_hkCurIdx d).
Definition set_lists (t s : idx_lists) (b : list bool) (d : fc) : fc :=
  Fc (flowTbl d) t s b (flowCntRef d) (indMac d) (natloops d) (ivls d) (cts d) (ct_held d)
    (dual_pt_flowMapTbl d) (path5_downStream d) (outerHdrFlowIdx d) (anyFlowEstablish d) (events d) (swFlow_hkCurIdx d).
Definition set_refs (n : list Z) (m : list (bool * Z)) (d : fc) : fc :=
  Fc (flowTbl d) (tcam d) (swl d) (hwFlow_validBits d) n m (natloops d) (ivls d) (cts d) (ct_held d)
    (dual_pt_flowMapTbl d) (path5_downStream d) (outerHdrFlowIdx d) (anyFlowEstablish d) (events d) (swFlow_hkCurIdx d).
Definition set_natloops (t : nl_tbl) (d : fc) : fc :=
  Fc (flowTbl d) (tcam d) (swl d) (hwFlow_validBits d) (flowCntRef d) (indMac d) t (ivls d) (cts d) (ct_held d)
    (dual_pt_flowMapTbl d) (path5_downStream d) (outerHdrFlowIdx d) (anyFlowEstablish d) (events d) (swFlow_hkCurIdx d).
Definition set_ivls (t : ivl_db) (d : fc) : fc :=
  Fc (flowTbl d) (tcam d) (swl d) (hwFlow_validBits d) (flowCntRef d) (indMac d) (natloops d) t (cts d) (ct_held d)
    (dual_pt_flowMapTbl d) (path5_downStream d) (outerHdrFlowIdx d) (anyFlowEstablish d) (events d) (swFlow_hkCurIdx d).
Definition set_cts (m : ct_infos) (l : list Z) (d : fc) : fc :=
  Fc (flowTbl d) (tcam d) (swl d) (hwFlow_validBits d) (flowCntRef d) (indMac d) (natloops d) (ivls d) m l
    (dual_pt_flowMapTbl d) (path5_downStream d) (outerHdrFlowIdx d) (anyFlowEstablish d) (events d) (swFlow_hkCurIdx d).
Definition set_dual (l : list dual_hdr) (d : fc) : fc :=
  Fc (flowTbl d) (tcam d) (swl d) (hwFlow_validBits d) (flowCntRef d) (indMac d) (natloops d) (ivls d) (cts d) (ct_held d)
    l (path5_downStream d) (outerHdrFlowIdx d) (anyFlowEstablish d) (events d) (swFlow_hkCurIdx d).
Definition set_p5ds (l : list (list nat)) (d : fc) : fc :=
  Fc (flowTbl d) (tcam d) (swl d) (hwFlow_validBits d) (flowCntRef d) (indMac d) (natloops d) (ivls d) (cts d) (ct_held d)
    (dual_pt_flowMapTbl d) l (outerHdrFlowIdx d) (anyFlowEstablish d) (events d) (swFlow_hkCurIdx d).
Definition set_outer (l : list (option nat)) (d : fc) : fc :=
  Fc (flowTbl d) (tcam d) (swl d) (hwFlow_validBits d) (flowCntRef d) (indMac d) (natloops d) (ivls d) (cts d) (ct_held d)
    (dual_pt_flowMapTbl d) (path5_downStream d) l (anyFlowEstablish d) (events d) (swFlow_hkCurIdx d).
Definition set_anyFlow (m : gmap nat bool) (d : fc) : fc :=
  Fc (flowTbl d) (tcam d) (swl d) (hwFlow_validBits d) (flowCntRef d) (indMac d) (natloops d) (ivls d) (cts d) (ct_held d)
    (dual_pt_flowMapTbl d) (path5_downStream d) (outerHdrFlowIdx d) m (events d) (swFlow_hkCurIdx d).
Definition log (e : flow_event) (d : fc) : fc :=
  Fc (flowTbl d) (tcam d) (swl d) (hwFlow_validBits d) (flowCntRef d) (indMac d) (natloops d) (ivls d) (cts d) (ct_held d)
    (dual_pt_flowMapTbl d) (path5_downStream d) (outerHdrFlowIdx d) (anyFlowEstablish d) (events d ++ [e]) (swFlow_hkCurIdx d).
Definition set_hkCurIdx (n : nat) (d : fc) : fc :=
  Fc (flowTbl d) (tcam d) (swl d) (hwFlow_validBits d) (flowCntRef d) (indMac d) (natloops d) (ivls d) (cts d) (ct_held d)
    (dual_pt_flowMapTbl d) (path5_downStream d) (outerHdrFlowIdx d) (anyFlowEstablish d) (events d) n.

Definition flow_at (i : nat) (d : fc) : flow := nth i (flowTbl d) flow0.
Definition on_flow (f : flow -> flow) (i : nat) (d : fc) : fc := set_flows (alter f i (flowTbl d)) d.

(** ** Fields of a flow *)

Definition set_state (c : candidate) (f : flow) : flow :=
  Flow c (ent f) (cachedCt f) (infos f) (idleSecs f) (needUpdate f) (swTrfBit f) (flow_hit_times f) (sw f)
    (protoCtrl f) (path5_ds_bucket_idx f) (vlan_filtering_pvid_lutivlsel f).
Definition set_ent (e : entry) (f : flow) : flow :=
  Flow (candidateState f) e (cachedCt f) (infos f) (idleSecs f) (needUpdate f) (swTrfBit f) (flow_hit_times f) (sw f)
    (protoCtrl f) (path5_ds_bucket_idx f) (vlan_filtering_pvid_lutivlsel f).
Definition set_ct (c : option Z) (f : flow) : flow :=
  Flow (candidateState f) (ent f) c (infos f) (idleSecs f) (needUpdate f) (swTrfBit f) (flow_hit_times f) (sw f)
    (protoCtrl f) (path5_ds_bucket_idx f) (vlan_filtering_pvid_lutivlsel f).
Definition set_idle (n : Z) (f : flow) : flow :=
  Flow (candidateState f) (ent f) (cachedCt f) (infos f) n (needUpdate f) (swTrfBit f) (flow_hit_times f) (sw f)
    (protoCtrl f) (path5_ds_bucket_idx f) (vlan_filtering_pvid_lutivlsel f).
Definition set_trf (b : bool) (f : flow) : flow :=
  Flow (candidateState f) (ent f) (cachedCt f) (infos f) (idleSecs f) (needUpdate f) b (flow_hit_times f) (sw f)
    (protoCtrl f) (path5_ds_bucket_idx f) (vlan_filtering_pvid_lutivlsel f).
Definition set_needUpdate (b : bool) (f : flow) : flow :=
  Flow (candidateState f) (ent f) (cachedCt f) (infos f) (idleSecs f) b (swTrfBit f) (flow_hit_times f) (sw f)
    (protoCtrl f) (path5_ds_bucket_idx f) (vlan_filtering_pvid_lutivlsel f).
Definition set_sw (s : sw_fields) (f : flow) : flow :=
  Flow (candidateState f) (ent f) (cachedCt f) (infos f) (idleSecs f) (needUpdate f) (swTrfBit f) (flow_hit_times f) s
    (protoCtrl f) (path5_ds_bucket_idx f) (vlan_filtering_pvid_lutivlsel f).
Definition set_proto (p : proto_ctrl) (f : flow) : flow :=
  Flow (candidateState f) (ent f) (cachedCt f) (infos f) (idleSecs f) (needUpdate f) (swTrfBit f) (flow_hit_times f) (sw f)
    p (path5_ds_bucket_idx f) (vlan_filtering_pvid_lutivlsel f).
Definition set_p5bucket (n : nat) (f : flow) : flow :=
  Flow (candidateState f) (ent f) (cachedCt f) (infos f) (idleSecs f) (needUpdate f) (swTrfBit f) (flow_hit_times f) (sw f)
    (protoCtrl f) n (vlan_filtering_pvid_lutivlsel f).
Definition set_lutivlsel (n : nat) (f : flow) : flow :=
  Flow (candidateState f) (ent f) (cachedCt f) (infos f) (idleSecs f) (needUpdate f) (swTrfBit f) (flow_hit_times f) (sw f)
    (protoCtrl f) (path5_ds_bucket_idx f) n.
Definition with_valid (v : bool) (e : entry) : entry := Entry v (lock e) (in_path e) (in_multiple_act e) (igr e) (egr e).

(** ** The environment *)

Class FlowEnv := {
  fbMode_4K : bool;
  FLOWSRAM : nat;
  flowHwTableSize : nat;
  shortcut_flow_count : nat;
  flowHashBuckets : nat;
  flowHashWayShift : nat;
  flowSync_GRANULARITY : nat;
  RTK_SW_FLOW_LIST_HEAD_COUNT : nat;
  RTK_HASH_VAL_TO_SW_FLOW_LIST_IDX : nat -> nat;
  SW_FLOW_LISTS_IN_BUCKET : nat -> list nat;
  SWFLOW_LIST_ADD : nat -> list nat -> list nat;
  NETIF_HWTOSW : Z -> nat;
  PATH34_SKIP_DA : bool;
  hwnat_sw_only : bool;
  RTK_FC_WLANX_NOT_FOUND : Z;
  kernel_delay_mode : bool;
  flow_delay_hit_num : Z;
  HIT_NUMBER_TO_DELAY_MAX : Z;
  DUAL_PT_TBL_START_IDX : nat;
  house_keeping_flow_delete_immediatly : bool;
  flowSyncPeriod_unit1s : Z;
  flowIdleTimeout_unit1s : Z;
  mcTimeout_unit1s : Z;
  has_cbFlowAdd : bool; has_cbFlowDel : bool;
  (** Counters of the VLAN table wrap like this. *)
  ivl_wrap : Z -> Z;
  (** The egress address of a flow is behind the WLAN port of the CPU. *)
  wlan_egress : Z -> bool;
  (** The switch's driver: it stores the entry, or fails; what it leaves of one. *)
  asic_flow_set : nat -> entry -> bool -> option entry;
  asic_flow_del : nat -> entry -> entry;
  (** Connections: a reference can be taken; the session lives; it can be prolonged; when
      it expires (the old answer stays when there is no connection). *)
  ct_get_ok : Z -> bool;
  CT_SESSION_ALIVE : Z -> bool;
  CT_REFRESH : Z -> bool;
  CT_EXPIRETIME_GET : option Z -> Z -> Z }.

Inductive fret := RTK_FC_RET_OK | RTK_FC_RET_ERR_FLOW_LRU | RTK_FC_RET_ERR_ENTRY_EXIST | RTK_FC_RET_ERR_FLOW_FULL
  | RTK_FC_RET_ERR_INVALID_PARAM | RTK_FC_RET_ERR_ENTRY_FULL | RTK_FC_RET_ERR_FLOW_TIMEOUT | RTK_FC_RET_ERR_ASIC.
#[export] Instance fret_eq_dec : EqDecision fret.
Proof. solve_decision. Defined.

Section Table.
Context `{FlowChecks} `{FlowSideConfig} `{FlowEnv}.

Definition flowSwTableSize : nat := flowHwTableSize + shortcut_flow_count.
Definition ways : nat := 2 ^ flowHashWayShift.
Definition is_tcam (i : nat) : bool := fbMode_4K && (FLOWSRAM <=? i) && (i <? flowHwTableSize).

(** ** Lists

    The free list of the TCAM is kept sorted. *)
Fixpoint tcam_place (i : nat) (l : list nat) : list nat :=
  match l with
  | [] => [i]
  | x :: l' => if i <? x then i :: x :: l' else x :: tcam_place i l'
  end.
Definition _rtk_fc_flowTcamListAdd (flowHashIdx addFlowIdx : nat) (t : idx_lists) : idx_lists :=
  if negb fbMode_4K || negb (flowHashIdx <? flowHashBuckets) || negb (is_tcam addFlowIdx) then t
  else hash_at at_tail flowHashIdx (addFlowIdx - FLOWSRAM) t.
Definition _rtk_fc_flowTcamListDel (delFlowIdx : nat) (t : idx_lists) : idx_lists :=
  if negb fbMode_4K || negb (is_tcam delFlowIdx) then t else free_at tcam_place (delFlowIdx - FLOWSRAM) t.
Definition is_sw (i : nat) : bool := (flowHwTableSize <=? i) && (i <? flowSwTableSize).
Definition _rtk_fc_swFlowListAdd (flowHashListIdx addFlowIdx : nat) (s : idx_lists) : idx_lists :=
  if negb (flowHashListIdx <? RTK_SW_FLOW_LIST_HEAD_COUNT) || negb (is_sw addFlowIdx) then s
  else hash_at SWFLOW_LIST_ADD flowHashListIdx (addFlowIdx - flowHwTableSize) s.
Definition _rtk_fc_swFlowListDel (delFlowIdx : nat) (s : idx_lists) : idx_lists :=
  if negb (is_sw delFlowIdx) then s else free_at SWFLOW_LIST_ADD (delFlowIdx - flowHwTableSize) s.

(** The lists after start: everything is free (without FC_F_SWFLOWLIST_IDX_MODE, and with a
    node of the list for each entry of software). *)
Definition _rtk_fc_flowTable_init (d : fc) : fc :=
  set_lists (if fbMode_4K then IdxLists (seq 0 (flowHwTableSize - FLOWSRAM)) (replicate flowHashBuckets []) else tcam d)
    (IdxLists (fold_left (fun l i => SWFLOW_LIST_ADD i l) (seq 0 shortcut_flow_count) []) (replicate RTK_SW_FLOW_LIST_HEAD_COUNT []))
    (hwFlow_validBits d) d.

(** ** Deleting a flow *)

(** [indmac]: the entry refers to an indirect MAC address. *)
Definition uses_indMac (e : entry) : bool :=
  ((bool_decide (in_path e = FB_PATH_12) || bool_decide (in_path e = FB_PATH_34)) && negb (in_multiple_act e =? 1)%Z
   && (on (out_dmac_trans (egr e)) || on (out_uc_lut_lookup (egr e))))
  || bool_decide (in_path e = FB_PATH_5).
Definition uses_netif (e : entry) : bool :=
  bool_decide (in_path e = FB_PATH_12) || bool_decide (in_path e = FB_PATH_34) || bool_decide (in_path e = FB_PATH_5).
Definition indMac_add (n : Z) (i : nat) (d : fc) : fc :=
  set_refs (flowCntRef d) (alter (fun m : bool * Z => if m.1 then (true, (m.2 + n)%Z) else m) i (indMac d)) d.
Definition netif_get (i : Z) (d : fc) : fc := set_refs (alter (Z.add 1) (NETIF_HWTOSW i) (flowCntRef d)) (indMac d) d.
Definition netif_put (i : Z) (d : fc) : fc :=
  set_refs (alter (fun n => if (0 <? n)%Z then (n - 1)%Z else n) (NETIF_HWTOSW i) (flowCntRef d)) (indMac d) d.
Definition sa_index (x : Z) : nat := Z.to_nat (x mod 65536).

Definition rtk_fc_flow_ct_detach (i : nat) (d : fc) : fc :=
  match cachedCt (flow_at i d) with
  | None => d
  | Some ct =>
      on_flow (fun f => set_ct None (FLOW_INFO_SET SKIP_CT true f)) i
        (set_cts (rtk_fc_ct_hash_info_del ct (cts d)) (remove_first (Z.eqb ct) (ct_held d)) d)
  end.
(** What hangs on the flow is given back, in this order. *)
Definition del_path5_ds (i : nat) (d : fc) : fc :=
  if FLOW_INFO_IS_SET (flow_at i d) PATH5_DS
  then set_p5ds (alter (filter (fun j => j <> i)) (path5_ds_bucket_idx (flow_at i d)) (path5_downStream d)) d else d.
Definition del_ext_mask (i : nat) (d : fc) : fc :=
  let e := ent (flow_at i d) in
  if (bool_decide (in_path e = FB_PATH_12) || bool_decide (in_path e = FB_PATH_34)) && on (out_ext_portmask_idx (egr e))
  then log (EXTPORTMASKTABLE_DEL (out_ext_portmask_idx (egr e))) d else d.
Definition del_natloopback (i : nat) (d : fc) : fc :=
  if FLOW_INFO_IS_SET (flow_at i d) NATLOOPBACK_ENTRY then set_natloops (rtk_fc_flow_info_natloopback_free i (natloops d)).2 d else d.
Definition del_lutivl (i : nat) (d : fc) : fc :=
  let f := flow_at i d in
  if FLOW_INFO_IS_SET f VLAN_FILTERING_PVID_ENTRY
  then set_ivls (rtk_fc_flow_info_lutivl_deref ivl_wrap (sa_index (lutIgrSaIdx (sw f))) (vlan_filtering_pvid_lutivlsel f) (ivls d)).2 d else d.
Definition del_indMac (i : nat) (d : fc) : fc :=
  let e := ent (flow_at i d) in if uses_indMac e then indMac_add (-1) (Z.to_nat (out_dmac_idx (egr e))) d else d.
Definition del_dual (i : nat) (d : fc) : fc :=
  match protoCtrl (flow_at i d) with
  | DUAL_PT (S k) => set_dual (<[S k := DUAL_NONE]> (dual_pt_flowMapTbl d)) d
  | _ => d
  end.
Definition del_6rd (i : nat) (d : fc) : fc :=
  if bool_decide (in_path (ent (flow_at i d)) = FB_PATH_6)
  then set_outer ((fun o => if bool_decide (o = Some i) then None else o) <$> outerHdrFlowIdx d) d else d.
Definition del_netif (i : nat) (d : fc) : fc :=
  let e := ent (flow_at i d) in
  if uses_netif e then netif_put (out_intf_idx (egr e)) (netif_put (in_intf_idx (igr e)) d) else d.
Definition del_lists (i : nat) (d : fc) : fc :=
  if i <? flowHwTableSize
  then set_lists (if fbMode_4K && (FLOWSRAM <=? i) then _rtk_fc_flowTcamListDel i (tcam d) else tcam d) (swl d)
         (<[i := false]> (hwFlow_validBits d)) d
  else if 0 <? shortcut_flow_count then set_lists (tcam d) (_rtk_fc_swFlowListDel i (swl d)) (hwFlow_validBits d) d else d.

Definition del_refs (i : nat) (d : fc) : fc :=
  let d := del_path5_ds i d in
  let d := if has_cbFlowDel then log (cbFlowDel i) d else d in
  let d := del_ext_mask i d in
  let d := del_natloopback i d in
  let d := del_lutivl i d in
  let d := del_indMac i d in
  let d := rtk_fc_flow_ct_detach i d in
  let d := del_dual i d in
  let d := del_6rd i d in
  del_netif i d.
Definition del_entry (i : nat) (d : fc) : fc :=
  let d := del_lists i (on_flow reset_flow i d) in
  let d := log (FLOWPATH_DEL i) (on_flow (fun f => set_ent (asic_flow_del i (ent f)) f) i d) in
  log (FLOW_MIB_CLEAR i) d.
Definition rtk_fc_flow_delete (i : nat) (d : fc) : fret * fc :=
  if flowSwTableSize <=? i then (RTK_FC_RET_ERR_INVALID_PARAM, d)
  else if negb (in_use (flow_at i d)) then (RTK_FC_RET_OK, d)
  else (RTK_FC_RET_OK, del_entry i (del_refs i d)).

(** The switch forgets the flow; software keeps it. *)
Definition rtk_fc_flow_invalid_hw (i : nat) (d : fc) : fret * fc :=
  if flowSwTableSize <=? i then (RTK_FC_RET_ERR_INVALID_PARAM, d)
  else if negb (in_use (flow_at i d)) then (RTK_FC_RET_OK, d)
  else
    let d := on_flow (set_state CANDIDATE_STATE_AGING) i d in
    if flowHwTableSize <=? i then (RTK_FC_RET_OK, d)
    else (RTK_FC_RET_OK, log (FLOWPATH_INVALID i) (on_flow (fun f => set_ent (with_valid false (ent f)) f) i d)).

(** ** Finding an entry for a new flow *)

Record scan := Scan {
  flowHitIdx : option nat; first_invalid : option nat; first_dynamic : option nat;
  longestIdleTimeFlowIdx : option nat; longestIdleTime : Z;
  nearestExpiryTimeFlowIdx : option nat; nearestExpiryTime : Z; extime : Z }.
Definition scan0 : scan := Scan None None None None 0 None 0 0.
Definition hit_at (i : nat) (s : scan) : scan :=
  Scan (Some i) (first_invalid s) (first_dynamic s) (longestIdleTimeFlowIdx s) (longestIdleTime s)
    (nearestExpiryTimeFlowIdx s) (nearestExpiryTime s) (extime s).
Definition invalid_at (o : option nat) (s : scan) : scan :=
  match first_invalid s with
  | Some _ => s
  | None => Scan (flowHitIdx s) o (first_dynamic s) (longestIdleTimeFlowIdx s) (longestIdleTime s)
      (nearestExpiryTimeFlowIdx s) (nearestExpiryTime s) (extime s)
  end.
Definition is_some {A} (o : option A) : bool := match o with Some _ => true | None => false end.
Definition time_before (a b : Z) : bool := (s32 (a - b) <? 0)%Z.

(** A flow that may give way is compared with the best so far. *)
Definition victim (i : nat) (f : flow) (s : scan) : scan :=
  let dyn := match first_dynamic s with Some j => Some j | None => Some i end in
  if FLOW_INFO_IS_SET f SKIP_CT
  then if (longestIdleTime s <=? idleSecs f)%Z
       then Scan (flowHitIdx s) (first_invalid s) dyn (Some i) (idleSecs f) (nearestExpiryTimeFlowIdx s) (nearestExpiryTime s) (extime s)
       else Scan (flowHitIdx s) (first_invalid s) dyn (longestIdleTimeFlowIdx s) (longestIdleTime s)
              (nearestExpiryTimeFlowIdx s) (nearestExpiryTime s) (extime s)
  else let ex := CT_EXPIRETIME_GET (cachedCt f) (extime s) in
       if negb (is_some (nearestExpiryTimeFlowIdx s)) || time_before ex (nearestExpiryTime s)
       then Scan (flowHitIdx s) (first_invalid s) dyn (longestIdleTimeFlowIdx s) (longestIdleTime s) (Some i) ex ex
       else Scan (flowHitIdx s) (first_invalid s) dyn (longestIdleTimeFlowIdx s) (longestIdleTime s)
              (nearestExpiryTimeFlowIdx s) (nearestExpiryTime s) ex.

(** One walk over a bucket: the ways ([hw]: an entry may be free) or a list. *)
Fixpoint walk (hw : bool) (same may : flow -> bool) (d : fc) (l : list nat) (s : scan) : scan :=
  match l with
  | [] => s
  | i :: l =>
      let f := flow_at i d in
      if hw && negb (in_use f) then walk hw same may d l (if lock (ent f) then s else invalid_at (Some i) s)
      else if same f then hit_at i s
      else walk hw same may d l (if negb (is_some (first_invalid s)) && may f then victim i f s else s)
  end.

Definition tcam_bucket (hash : nat) (d : fc) : list nat := Nat.add FLOWSRAM <$> bucket_list (hash / ways) (tcam d).
Definition sw_bucket (hash : nat) (d : fc) : list nat := Nat.add flowHwTableSize <$> bucket_list (RTK_HASH_VAL_TO_SW_FLOW_LIST_IDX hash) (swl d).
Definition tcam_free_entry (d : fc) : option nat :=
  List.find (fun i => negb (lock (ent (flow_at i d)))) (Nat.add FLOWSRAM <$> free_list (tcam d)).
Definition sw_free_entry (d : fc) : option nat := head (Nat.add flowHwTableSize <$> free_list (swl d)).

Definition static (f : flow) : bool := FLOW_INFO_IS_SET f STATIC_ENTRY.
Definition may_hw (forceGet addHwOnly : bool) (f : flow) : bool :=
  (forceGet && negb (static f)) || (addHwOnly && negb (static f) && negb (lock (ent f))).
Definition may_sw (f : flow) : bool := negb (static f) && negb (lock (ent f)).

Definition scan_hw (hash : nat) (same : flow -> bool) (notTcam addHwOnly forceGet : bool) (d : fc) : scan :=
  let s := walk true same (may_hw forceGet addHwOnly) d (seq hash ways) scan0 in
  if is_some (flowHitIdx s) || negb (fbMode_4K && negb notTcam) then s
  else walk false same (may_hw forceGet addHwOnly) d (tcam_bucket hash d) (invalid_at (tcam_free_entry d) s).
Definition scan_sw (hash : nat) (same : flow -> bool) (d : fc) (s : scan) : scan :=
  walk false same may_sw d (sw_bucket hash d) (invalid_at (sw_free_entry d) s).
(** Nothing in the switch can give way to a flow that belongs there. *)
Definition nothing_found (s : scan) : bool :=
  negb (is_some (first_invalid s)) && negb (is_some (longestIdleTimeFlowIdx s)) && negb (is_some (nearestExpiryTimeFlowIdx s)).
Definition search_entry (hash : nat) (same : flow -> bool) (notTcam addHwOnly addSwOnly forceGet : bool) (d : fc) : scan :=
  let s := if addSwOnly then scan0 else scan_hw hash same notTcam addHwOnly forceGet d in
  if is_some (flowHitIdx s) then s
  else let hwOnly := addHwOnly && negb (nothing_found s) in
       if (0 <? shortcut_flow_count) && negb hwOnly then scan_sw hash same d s else s.

(** A match in the kernel-delay mode counts as a hit. *)
Definition delay_hit (g : option g3_info) (f : flow) : flow :=
  if is_some g && kernel_delay_mode && (flow_hit_times f <? flow_delay_hit_num)%Z then set_hit_times (flow_hit_times f + 1) f else f.

Definition replace (i : nat) (d : fc) : fret * option nat * fc :=
  (RTK_FC_RET_ERR_FLOW_LRU, Some i, log REC_FLOW_LRU (rtk_fc_flow_delete i d).2).
Definition _rtk_fc_flow_freeEntry_get (hash : nat) (e : entry) (g : option g3_info)
    (isMulticast notTcam addHwOnly addSwOnly forceGet : bool) (d : fc) : fret * option nat * fc :=
  if addHwOnly && addSwOnly then (RTK_FC_RET_ERR_INVALID_PARAM, None, d) else
  let s := search_entry hash (fun c => _rtk_fc_flow_matchOrNot (dual_pt_flowMapTbl d) c e g isMulticast) notTcam addHwOnly addSwOnly forceGet d in
  match flowHitIdx s, first_invalid s, longestIdleTimeFlowIdx s, nearestExpiryTimeFlowIdx s, first_dynamic s with
  | Some i, _, _, _, _ => (RTK_FC_RET_ERR_ENTRY_EXIST, Some i, on_flow (delay_hit g) i d)
  | None, Some i, _, _, _ => (RTK_FC_RET_OK, Some i, d)
  | None, None, Some i, _, _ => replace i d
  | None, None, None, Some i, _ => replace i d
  | None, None, None, None, Some i => if forceGet then replace i d else (RTK_FC_RET_ERR_FLOW_FULL, None, d)
  | None, None, None, None, None => (RTK_FC_RET_ERR_FLOW_FULL, None, d)
  end.
End Table.
