(* ===== verification/FcFlowAdd.v ===== *)
(** * Adding flows and letting them age

    Model of [rtk_fc_flow_add] with [_rtk_fc_flow_swField_set] and
    [_rtk_fc_flow_isTheSamePatternExist_get], and of the house keeping
    [_rtk_fc_flow_timeoutCheck] with [rtk_fc_flow_updateTimer_and_checkTimeout], of
    [FleetConntrackDriver/core/rtk_fc_internal.c]; the table and the parts of it that the
    model leaves out are those of [FcFlow].  Fields of a packet that are only copied into
    the flow and not read by the table are left out. *)
From stdpp Require Import gmap.
From S2P Require Import Prelude FcLists FcFlowKey FcFlowSide FcFlow.
Open Scope nat_scope.

(** ** What comes with a new flow *)

(** [pPktHdr]: what the table takes from the packet. *)
Record pkt := Pkt {
  p_natloopback : bool;            (* fwdType NATLOOPBACK, with an IPv4 and a layer-4 header *)
  p_direction : direction;
  p_saddr : Z; p_sport : Z; p_daddr : Z; p_dport : Z;
  p_icmp : option (Z * Z);         (* identifier and sequence number *)
  p_skip_alg_check : bool;
  p_isHitSwFwdedAclTrapPri : bool;
  p_p5ds : option nat;             (* downstream flow to be synchronised: its bucket *)
  p_fdb_vid : option Z;            (* VLAN of the device the source was found on *)
  p_force_to_bridge : bool;
  p_streamId_en : Z; p_streamId : Z; p_outputQid : Z; p_wifi_tx_pri : Z }.

(** [pG3IgrExtraInfo] beyond what is compared. *)
Record g3_extra := G3Extra {
  g3 : g3_info;
  g3_daddr : Z;                    (* first word of ipv6_Daddr *)
  g3_srv6_up : bool;               (* dual header SRV6, upstream *)
  g3_up_or_down : bool }.          (* direction is upstream or downstream *)

Section Add.
Context `{FlowChecks} `{FlowSideConfig} `{FlowEnv}.

(** ** Fields of the new flow *)

Definition entry_lists (i hash : nat) (d : fc) : fc :=
  if i <? flowHwTableSize
  then set_lists (if is_tcam i then _rtk_fc_flowTcamListAdd (hash / ways) i (tcam d) else tcam d) (swl d) (<[i := true]> (hwFlow_validBits d)) d
  else if 0 <? shortcut_flow_count
  then set_lists (tcam d) (_rtk_fc_swFlowListAdd (RTK_HASH_VAL_TO_SW_FLOW_LIST_IDX hash) i (swl d)) (hwFlow_validBits d) d
  else d.

Definition take_ct (i : nat) (ct : option Z) (d : fc) : fc :=
  match ct with
  | Some c => if ct_get_ok c then on_flow (set_ct (Some c)) i (set_cts (cts d) (c :: ct_held d) d) else on_flow (set_ct None) i d
  | None => on_flow (set_ct None) i d
  end.

Definition loopback_entry (i : nat) (p : pkt) (g : option g3_extra) : natloopback :=
  match p_direction p with
  | UPSTREAM => NatLoopback true i (p_daddr p) (p_dport p) 0
  | LANBRIDGE => NatLoopback true i (p_saddr p) (p_sport p) (match g with Some g => g3_daddr g | None => 0%Z end)
  | DOWNSTREAM => NatLoopback true i (p_saddr p) (p_sport p) 0
  end.
Definition needs_loopback (i : nat) (p : option pkt) (d : fc) : option pkt :=
  match p with
  | Some p => if p_natloopback p && bool_decide (in_path (ent (flow_at i d)) = FB_PATH_5) && on (out_l4_act (egr (ent (flow_at i d))))
              then Some p else None
  | None => None
  end.
Definition take_loopback (i : nat) (p : option pkt) (g : option g3_extra) (d : fc) : option fc :=
  match needs_loopback i p d with
  | None => Some d
  | Some p =>
      match rtk_fc_flow_info_natloopback_alloc (loopback_entry i p g) (natloops d) with
      | (SIDE_OK, t) => Some (on_flow (FLOW_INFO_SET NATLOOPBACK_ENTRY true) i (set_natloops t d))
      | _ => None
      end
  end.

Definition base_fields (swOnly staticEntry isMulticast : bool) (g : option g3_extra) (f : flow) : flow :=
  let f := FLOW_INFO_SET MC_ENTRY isMulticast (FLOW_INFO_SET STATIC_ENTRY staticEntry (FLOW_INFO_SET SOFTWARE_ONLY swOnly f)) in
  let f := set_hit_times 0 (set_trf true (set_needUpdate false (set_idle 0 f))) in
  match g with
  | Some g => let s := sw f in
      set_sw (SwFields (lutIgrSaIdx s) (lutEgrDaIdx s) (pppoe_sid s) (svlan_pri s) (igr_svlan_dei s) (igr_cvlan_cfi s) (pon_stream_id s)
                (igr_stpid_sel (g3_sw (g3 g))) (igrWlanDevIdx s) (egrWlanDevIdx s)) f
  | None => f
  end.

Definition packet_fields (swOnly : bool) (p : option pkt) (g : option g3_extra) (f : flow) : flow :=
  match p with
  | None => f
  | Some p =>
      let f := match g, p_icmp p with
               | Some g, Some (id, seq) => if swOnly && ingress_icmp_valid (g3 g) then set_proto (ICMP_ACC (ingress_icmp (g3 g)) id seq) f else f
               | _, _ => f
               end in
      let f := if p_skip_alg_check p then FLOW_INFO_SET ALG_EXIST true f else f in
      FLOW_INFO_SET ACL_PRI_FWD (p_isHitSwFwdedAclTrapPri p) f
  end.
Definition take_p5ds (i : nat) (p : option pkt) (d : fc) : fc :=
  match p with
  | Some p =>
      match p_p5ds p with
      | Some b => if bool_decide (i ∈ nth b (path5_downStream d) []) then d
          else on_flow (fun f => FLOW_INFO_SET PATH5_DS true (set_p5bucket b f)) i
                 (set_p5ds (alter (fun l => l ++ [i]) b (path5_downStream d)) d)
      | None => d
      end
  | None => d
  end.

(** [pExtraInfo]: the look-up table's entries of the flow's two addresses. *)
Definition lut_fields (x : option (Z * Z)) (f : flow) : flow :=
  let s := sw f in
  let '(sa, da) := default (-1, -1)%Z x in
  set_sw (SwFields sa da (pppoe_sid s) (svlan_pri s) (igr_svlan_dei s) (igr_cvlan_cfi s) (pon_stream_id s) (igr_stpid_sel s)
            (igrWlanDevIdx s) (egrWlanDevIdx s)) f.
Definition take_lutivl (i : nat) (x : option (Z * Z)) (p : option pkt) (d : fc) : fc :=
  match x, p with
  | Some (sa, _), Some p =>
      match p_fdb_vid p with
      | Some vid =>
          match rtk_fc_flow_info_lutivl_ref ivl_wrap vid (sa_index sa) (ivls d) with
          | (inr k, t) => on_flow (fun f => set_lutivlsel k (FLOW_INFO_SET VLAN_FILTERING_PVID_ENTRY true f)) i (set_ivls t d)
          | (inl _, t) => set_ivls t d
          end
      | None => d
      end
  | _, _ => d
  end.

Definition know_ct (i hash : nat) (ct : option Z) (p : option pkt) (d : fc) : fc :=
  match cachedCt (flow_at i d), ct, p with
  | None, _, _ => on_flow (FLOW_INFO_SET SKIP_CT true) i d
  | Some _, Some c, Some p => set_cts (rtk_fc_ct_hash_info_add c i (p_direction p) hash (cts d)) (ct_held d) d
  | Some _, _, _ => d
  end.
Definition first_state (f : flow) : flow := set_state (if valid (ent f) then CANDIDATE_STATE_READY else CANDIDATE_STATE_NEW) f.
Definition take_indMac (o : option nat) (d : fc) : fc := match o with Some k => indMac_add 1 k d | None => d end.
Definition g3_fields (g : option g3_extra) (f : flow) : flow :=
  let o := sw f in
  match g with
  | None => set_sw (SwFields (lutIgrSaIdx o) (lutEgrDaIdx o) (pppoe_sid o) (svlan_pri o) (igr_svlan_dei o) (igr_cvlan_cfi o)
                      (pon_stream_id o) (igr_stpid_sel o) RTK_FC_WLANX_NOT_FOUND RTK_FC_WLANX_NOT_FOUND) f
  | Some g => let s := g3_sw (g3 g) in
      set_hit_times (if bypass_flowDelay (g3 g) then HIT_NUMBER_TO_DELAY_MAX else 0)%Z
        (set_sw (SwFields (lutIgrSaIdx o) (lutEgrDaIdx o) (pppoe_sid s) (svlan_pri s) (igr_svlan_dei s) (igr_cvlan_cfi s)
                   (pon_stream_id s) (igr_stpid_sel o) (igrWlanDevIdx s) (egrWlanDevIdx s)) f)
  end.
(** The first entry of the table that is not in use, after the reserved ones. *)
Definition dual_free (l : list dual_hdr) : option nat :=
  List.find (fun k => bool_decide (nth k l DUAL_NONE = DUAL_NONE)) (seq DUAL_PT_TBL_START_IDX (length l - DUAL_PT_TBL_START_IDX)).
Definition take_dual (i : nat) (g : option g3_extra) (d : fc) : option fc :=
  match g with
  | None => Some d
  | Some g =>
      match dualPt (g3 g) with
      | DUAL_NONE => Some d
      | DUAL_VXLAN => Some (on_flow (set_proto DUAL_PT_VXLAN) i d)
      | h => match dual_free (dual_pt_flowMapTbl d) with
             | Some k => Some (on_flow (set_proto (DUAL_PT k)) i (set_dual (<[k := h]> (dual_pt_flowMapTbl d)) d))
             | None => None
             end
      end
  end.
Definition srv6_field (g : option g3_extra) (f : flow) : flow :=
  match g with Some g => if g3_srv6_up g then set_proto SRV6_ADD f else f | None => f end.
Definition mark_lut (x : option (Z * Z)) (d : fc) : fc :=
  let mark (k : Z) (m : gmap nat bool) := if (k =? -1)%Z then m else alter (fun _ => true) (Z.to_nat k) m in
  match x with Some (sa, da) => set_anyFlow (mark da (mark sa (anyFlowEstablish d))) d | None => d end.
Definition bridge_field (p : option pkt) (f : flow) : flow :=
  match p with Some p => if p_force_to_bridge p then FLOW_INFO_SET FORCE_TO_BRIDGE_FLOW true f else f | None => f end.
Definition take_netif (i : nat) (d : fc) : fc :=
  let e := ent (flow_at i d) in
  if uses_netif e then netif_get (out_intf_idx (egr e)) (netif_get (in_intf_idx (igr e)) d) else d.

(** Up to the flow's becoming a candidate, and after. *)
Definition fields_before (i hash : nat) (ct : option Z) (x : option (Z * Z)) (swOnly staticEntry isMulticast : bool)
    (g : option g3_extra) (p : option pkt) (d : fc) : fc :=
  let d := on_flow (fun f => packet_fields swOnly p g (base_fields swOnly staticEntry isMulticast g f)) i d in
  let d := take_p5ds i p d in
  let d := take_lutivl i x p (on_flow (lut_fields x) i d) in
  on_flow first_state i (know_ct i hash ct p d).
Definition fields_after (i : nat) (x : option (Z * Z)) (g : option g3_extra) (p : option pkt) (d : fc) : fc :=
  take_netif i (on_flow (fun f => bridge_field p (srv6_field g f)) i (mark_lut x d)).

Definition _rtk_fc_flow_swField_set (i hash : nat) (ct : option Z) (x : option (Z * Z)) (indMacIdx : option nat)
    (swOnly staticEntry isMulticast : bool) (g : option g3_extra) (p : option pkt) (d : fc) : fret * fc :=
  let d := take_ct i ct (entry_lists i hash d) in
  match take_loopback i p g d with
  | None => (RTK_FC_RET_ERR_ENTRY_FULL, d)
  | Some d =>
      let d := on_flow (g3_fields g) i (take_indMac indMacIdx (fields_before i hash ct x swOnly staticEntry isMulticast g p d)) in
      match take_dual i g d with
      | None => (RTK_FC_RET_ERR_ENTRY_FULL, (rtk_fc_flow_delete i d).2)
      | Some d => (RTK_FC_RET_OK, fields_after i x g p d)
      end
  end.

(** ** Another flow of the same pattern *)

Definition same_as (i : nat) (d : fc) (j : nat) : bool :=
  negb (i =? j) && _rtk_fc_flow_matchOrNot_tblEntry (dual_pt_flowMapTbl d) (flow_at j d) (flow_at i d).
Definition _rtk_fc_flow_isTheSamePatternExist_get (i hash : nat) (d : fc) : option nat :=
  let hw := if FLOW_INFO_IS_SET (flow_at i d) ACL_PRI_FWD
            then filter (fun j => in_use (flow_at j d) = true) (seq hash ways) ++ (if fbMode_4K then tcam_bucket hash d else [])
            else [] in
  let sw := if 0 <? shortcut_flow_count then sw_bucket hash d else [] in
  List.find (same_as i d) (hw ++ sw).

(** ** Adding *)

Definition after_add (i hash : nat) (g : option g3_extra) (d : fc) : fc :=
  let d := match _rtk_fc_flow_isTheSamePatternExist_get i hash d with
           | Some j => on_flow (FLOW_INFO_SET DUPLICATE_EXIST true) j (on_flow (FLOW_INFO_SET DUPLICATE_EXIST true) i d)
           | None => d
           end in
  match g with
  | Some g => if has_cbFlowAdd && g3_up_or_down g then log (cbFlowAdd i (flowHwTableSize <=? i)) d else d
  | None => d
  end.
(** In the kernel-delay mode a packet of a known flow refreshes its remarking. *)
Definition refresh_action (p : pkt) (f : flow) : flow :=
  let e := ent f in let a := egr e in
  let '(act, pri) := if negb (lutEgrDaIdx (sw f) =? -1)%Z && wlan_egress (lutEgrDaIdx (sw f)) then (1, p_wifi_tx_pri p)%Z
                     else ((if on (p_outputQid p) then 1 else 0), p_outputQid p)%Z in
  set_ent (Entry (valid e) (lock e) (in_path e) (in_multiple_act e) (igr e)
    (Egr (out_l4_act a) (out_l4_direction a) (out_dst_ipv4_addr a) (out_l4_port a) (out_intf_idx a) (out_dmac_idx a) (out_dmac_trans a)
       (out_uc_lut_lookup a) (out_ext_portmask_idx a) (out_portmask a) (out_svlan_id a) (out_spri a) (out_cvlan_id a) (out_cpri a)
       (p_streamId_en p) (p_streamId p) act pri (out_multiple_act a))) f.
Definition with_acl (b : bool) (g : g3_extra) : g3_extra :=
  G3Extra (G3Info (g3_sw (g3 g)) b (ingress_icmp_valid (g3 g)) (ingress_icmp (g3 g)) (dualPt (g3 g))
    (is_vxlanUS_innerFlow (g3 g)) (is_vxlanDS_innerFlow (g3 g)) (bypass_flowDelay (g3 g))) (g3_daddr g) (g3_srv6_up g) (g3_up_or_down g).
Definition indMac_of (e : entry) : option nat := if uses_indMac e then Some (Z.to_nat (out_dmac_idx (egr e))) else None.

Definition rtk_fc_flow_add (hash : nat) (e : entry) (ct : option Z) (x : option (Z * Z)) (isMulticast addSwOnly staticEntry : bool)
    (g : option g3_extra) (p : option pkt) (d : fc) : fret * option nat * fc :=
  let hit := match p with Some p => p_isHitSwFwdedAclTrapPri p | None => false end in
  let g := with_acl hit <$> g in
  let addSwOnly := addSwOnly || (hwnat_sw_only && negb (bool_decide (in_path e = FB_PATH_6))) || hit in
  let notTcam := bool_decide (in_path e = FB_PATH_6) || (bool_decide (in_path e = FB_PATH_34) && isMulticast && negb PATH34_SKIP_DA) in
  let addHwOnly := negb addSwOnly && lock e in
  match _rtk_fc_flow_freeEntry_get hash e (g3 <$> g) isMulticast notTcam addHwOnly addSwOnly isMulticast d with
  | (RTK_FC_RET_ERR_ENTRY_EXIST, Some i, d) =>
      (RTK_FC_RET_OK, Some i,
       match p with
       | Some p => if bool_decide (in_path e = FB_PATH_5) && kernel_delay_mode then on_flow (refresh_action p) i d else d
       | None => d
       end)
  | (RTK_FC_RET_OK, Some i, d) | (RTK_FC_RET_ERR_FLOW_LRU, Some i, d) =>
      match asic_flow_set i e addSwOnly with
      | None => (RTK_FC_RET_ERR_ASIC, Some i, log REC_FLOW_ADD_FAIL (log (FLOWPATH_SET i) d))
      | Some e' =>
          let '(r, d) := _rtk_fc_flow_swField_set i hash ct x (indMac_of e) addSwOnly staticEntry isMulticast g p
                           (log (FLOWPATH_SET i) (on_flow (set_ent e') i d)) in
          if bool_decide (r = RTK_FC_RET_OK) then (r, Some i, after_add i hash g d) else (r, Some i, log REC_FLOW_ADD_FAIL d)
      end
  | (r, i, d) => (r, i, log REC_FLOW_ADD_FAIL d)
  end.
End Add.

(** ** House keeping *)

Section Aging.
Context `{FlowChecks} `{FlowSideConfig} `{FlowEnv}.

(** What a visit decides: keep the flow, or delete it. *)
Inductive visit := Keep (d : fc) | Timeout (d : fc).

Definition force_update (f : flow) : bool := negb (FLOW_INFO_IS_SET f MC_ENTRY) && static f.
Definition idle_timeout (f : flow) : Z := if FLOW_INFO_IS_SET f MC_ENTRY then mcTimeout_unit1s else flowIdleTimeout_unit1s.
Definition idle_check (i : nat) (trf : bool) (d : fc) : visit :=
  let f := flow_at i d in
  if trf || force_update f then Keep (on_flow (set_idle 0) i d)
  else let n := (idleSecs f + flowSyncPeriod_unit1s)%Z in
       let d := on_flow (set_idle n) i d in
       if (idle_timeout f <=? n)%Z then Timeout d else Keep d.
(** The connection of the flow is gone. *)
Definition ct_lost (i : nat) (trf : bool) (d : fc) : visit :=
  if house_keeping_flow_delete_immediatly then Timeout d else idle_check i trf d.
Definition ct_check (i : nat) (trf : bool) (d : fc) : visit :=
  let f := flow_at i d in
  match cachedCt f with
  | None => ct_lost i trf d
  | Some ct =>
      if negb (CT_SESSION_ALIVE ct) then ct_lost i trf (rtk_fc_flow_ct_detach i d)
      else if trf || force_update f then
        let d := on_flow (set_idle 0) i d in
        if CT_REFRESH ct then Keep d else ct_lost i trf (rtk_fc_flow_ct_detach i d)
      else Keep (on_flow (set_idle (idleSecs f + flowSyncPeriod_unit1s)) i d)
  end.
Definition check_flow (i : nat) (trf : bool) (d : fc) : visit :=
  let f := flow_at i d in
  if needUpdate f && negb trf && negb (force_update f) then Timeout d else
  match in_path (ent f) with
  | FB_PATH_12 => idle_check i trf d
  | FB_PATH_34 | FB_PATH_5 =>
      if static f || FLOW_INFO_IS_SET f SKIP_CT || FLOW_INFO_IS_SET f MC_ENTRY then idle_check i trf d else ct_check i trf d
  | FB_PATH_6 => Keep d
  end.
Definition note_traffic (i : nat) (trf : bool) (d : fc) : fc :=
  let f := flow_at i d in
  if trf && FLOW_INFO_IS_SET f VLAN_FILTERING_PVID_ENTRY
  then set_ivls (rtk_fc_flow_info_lutivl_trf_set (sa_index (lutIgrSaIdx (sw f))) (vlan_filtering_pvid_lutivlsel f) (ivls d)).2 d else d.

Definition rtk_fc_flow_updateTimer_and_checkTimeout (i : nat) (trf : bool) (d : fc) : fret * fc :=
  if flowSwTableSize <=? i then (RTK_FC_RET_ERR_INVALID_PARAM, d) else
  match check_flow i trf (note_traffic i trf d) with
  | Keep d => (RTK_FC_RET_OK, d)
  | Timeout d => (RTK_FC_RET_ERR_FLOW_TIMEOUT, (rtk_fc_flow_delete i d).2)
  end.

(** One section of the buckets.  [trf] and [cam] are the switch's answers: the traffic bits
    of the entries it was asked for ([None] when it reports an error: then nothing is
    visited and the section is not moved on), and those of the TCAM. *)
Definition traffic_bit_of (trf cam : list bool) (camRead : bool) (i : nat) : bool :=
  if camRead && is_tcam i then nth (i - FLOWSRAM) cam false else nth i trf false.
Definition visit_hw (bits : nat -> bool) (i : nat) (d : fc) : fc :=
  let f := flow_at i d in
  if in_use f then (rtk_fc_flow_updateTimer_and_checkTimeout i (swTrfBit f || bits i) (on_flow (set_trf false) i d)).2 else d.
Definition visit_sw (i : nat) (d : fc) : fc :=
  let f := flow_at i d in
  if in_use f then on_flow (set_trf false) i (rtk_fc_flow_updateTimer_and_checkTimeout i (swTrfBit f) d).2 else d.
Definition each (f : nat -> fc -> fc) (l : list nat) (d : fc) : fc := fold_left (fun d i => f i d) l d.
Definition scan_bucket (bits : nat -> bool) (b : nat) (d : fc) : fc :=
  let d := each (visit_hw bits) (seq (b * ways) ways) d in
  let d := if fbMode_4K then each (visit_hw bits) (Nat.add FLOWSRAM <$> bucket_list b (tcam d)) d else d in
  each (fun l d => each visit_sw (Nat.add flowHwTableSize <$> bucket_list l (swl d)) d) (SW_FLOW_LISTS_IN_BUCKET b) d.
Definition scan_section (trf cam : list bool) (d : fc) : fc :=
  let start := swFlow_hkCurIdx d in
  let stop := min (start + flowSync_GRANULARITY) flowHashBuckets in
  let camRead := fbMode_4K && (FLOWSRAM / 32 <? stop * ways) in
  set_hkCurIdx (stop mod flowHashBuckets) (each (scan_bucket (traffic_bit_of trf cam camRead)) (seq start (stop - start)) d).
Definition _rtk_fc_flow_timeoutCheck (trf : option (list bool)) (cam : list bool) (d : fc) : Z * fc :=
  match trf with
  | None => ((-1)%Z, d)
  | Some trf => (0%Z, scan_section trf cam d)
  end.

End Aging.
