(* ===== verification/FcFlowFlush.v ===== *)
(** * Deleting the flows of something

    Model of the functions of [FleetConntrackDriver/core/rtk_fc_internal.c] that walk over
    all flows and delete some: those of an interface, of an address, of a WLAN device, of
    a port, of a pattern, or all.  Each walks over the buckets and in a bucket over the
    ways, the list of the TCAM and the lists of software; in each of the three places it
    decides for itself which flows go.  What the functions look up in the layer-2 table is
    the class [LutView]. *)
From stdpp Require Import gmap.
From S2P Require Import Prelude FcLists FcFlowKey FcFlowSide FcFlow FcFlowAdd.
Open Scope nat_scope.

(** What a flow's two addresses lead to: nothing when the index is [SIGNED_INVALID] or the
    entry does not exist.  [lut_find] looks an address up; [oob] is what the array holds at
    the index [SIGNED_INVALID], outside of it. *)
Record lut_brief := LutBrief { b_spa : Z; b_extspa : Z; b_wlan_dev_idx : Z }.
Class LutView := {
  lutTbl : Z -> option lut_brief;
  lutTbl_oob : option lut_brief;
  _rtk_fc_lut_find : list Z -> option Z;
  gateway_ipv4_addr : Z -> Z;
  flowHashIPv6SrcAddr : list Z -> Z;
  flowHashIPv6DstAddr : list Z -> Z;
  RTK_FC_MAC_PORT_PON : Z;
  RTK_FC_MAC_PORT_MAX : Z;
  RTK_FC_TABLESIZE_INTF : Z;
  RTK_FC_WLANX_END_INTF : Z }.
Definition SIGNED_INVALID : Z := -1.

Section Walks.
Context `{FlowChecks} `{FlowSideConfig} `{FlowEnv}.

(** ** Walks *)

(** The visits of a bucket: the ways, the list of the TCAM, the lists of software. *)
Definition each_of_bucket (hw tc sf : nat -> fc -> fc) (b : nat) (d : fc) : fc :=
  let d := each hw (seq (b * ways) ways) d in
  let d := if fbMode_4K then each tc (Nat.add FLOWSRAM <$> bucket_list b (tcam d)) d else d in
  each (fun l d => each sf (Nat.add flowHwTableSize <$> bucket_list l (swl d)) d) (SW_FLOW_LISTS_IN_BUCKET b) d.
Definition delete_if (gone : flow -> bool) (i : nat) (d : fc) : fc :=
  if in_use (flow_at i d) && gone (flow_at i d) then (rtk_fc_flow_delete i d).2 else d.
Definition delete_flows (hw tc sf : flow -> bool) (d : fc) : fc :=
  each (each_of_bucket (delete_if hw) (delete_if tc) (delete_if sf)) (seq 0 flowHashBuckets) d.

(** A busy flow is only marked when updates are postponed. *)
Definition flush_one (postpone : bool) (gone : flow -> bool) (i : nat) (d : fc) : fc :=
  let f := flow_at i d in
  if in_use f && gone f then
    if postpone && (idleSecs f =? 0)%Z then on_flow (set_needUpdate true) i d else (rtk_fc_flow_delete i d).2
  else d.
Definition flush_flows (postpone : bool) (gone : flow -> bool) (d : fc) : fc :=
  let one := flush_one postpone gone in each (each_of_bucket one one one) (seq 0 flowHashBuckets) d.
Definition rtk_fc_flow_flush_forHashChange (flow_not_update_in_real_time : bool) (d : fc) : fc :=
  flush_flows flow_not_update_in_real_time (fun f => negb (FLOW_INFO_IS_SET f MC_ENTRY)) d.
(** The part of [rtk_fc_flow_flush] that concerns flows. *)
Definition flush_flow_table (flow_not_update_in_real_time : bool) (d : fc) : fc :=
  flush_flows flow_not_update_in_real_time (fun f => negb (static f)) d.
Definition rtk_fc_flow_flush_all (d : fc) : fc := delete_flows (fun _ => true) (fun _ => true) (fun _ => true) d.

(** ** By interface *)

Definition uses_intf (intfIdx : Z) (f : flow) : bool :=
  let e := ent f in
  (bool_decide (in_path e = FB_PATH_12) && negb (in_multiple_act e =? 1)%Z && (in_intf_idx (igr e) =? intfIdx)%Z)
  || (negb (bool_decide (in_path e = FB_PATH_12)) && (in_intf_idx (igr e) =? intfIdx)%Z)
  || (negb (bool_decide (in_path e = FB_PATH_6)) && (out_intf_idx (egr e) =? intfIdx)%Z).
Definition intf_gone (intfIdx : Z) (f : flow) : bool := (FLOW_INFO_IS_SET f MC_ENTRY || negb (static f)) && uses_intf intfIdx f.
(** In the TCAM a static flow stays, multicast or not. *)
Definition intf_gone_tcam (intfIdx : Z) (f : flow) : bool := negb (static f) && uses_intf intfIdx f.
Definition rtk_fc_flow_delete_by_intfIdx `{LutView} (intfIdx : Z) (d : fc) : fc :=
  if (RTK_FC_TABLESIZE_INTF <=? intfIdx)%Z then d
  else delete_flows (intf_gone intfIdx) (intf_gone_tcam intfIdx) (intf_gone intfIdx) d.

(** ** By address

    A bucket is skipped when it looks empty: no flow in the 32 entries around its ways, an
    empty list of the TCAM, and an empty first list of software. *)
Definition word_empty (w : nat) (l : list bool) : bool := forallb (fun i => negb (nth i l false)) (seq (32 * w) 32).
Definition bucket_empty (b : nat) (d : fc) : bool :=
  word_empty (b * ways / 32) (hwFlow_validBits d)
  && (negb fbMode_4K || bool_decide (bucket_list b (tcam d) = []))
  && bool_decide (bucket_list b (swl d) = []).
Definition l2_gone (l2Idx : Z) (f : flow) : bool :=
  negb (static f) && ((lutIgrSaIdx (sw f) =? l2Idx)%Z || (lutEgrDaIdx (sw f) =? l2Idx)%Z).
Definition delete_l2_bucket (l2Idx : Z) (b : nat) (d : fc) : fc :=
  if bucket_empty b d then d
  else let one := delete_if (l2_gone l2Idx) in each_of_bucket one one one b d.
Definition rtk_fc_flow_delete_by_l2Idx (l2Idx : Z) (d : fc) : fc :=
  if (Z.of_nat RTK_FC_TABLESIZE_LUT <=? l2Idx)%Z then d else each (delete_l2_bucket l2Idx) (seq 0 flowHashBuckets) d.

(** ** By WLAN device, port and pair of ports *)

Section Lut.
Context `{LutView}.

(** Read with and without a check for [SIGNED_INVALID]. *)
Definition lut_of (k : Z) : option lut_brief := if (k =? SIGNED_INVALID)%Z then None else lutTbl k.
Definition lut_unchecked (k : Z) : option lut_brief := if (k =? SIGNED_INVALID)%Z then lutTbl_oob else lutTbl k.
Definition has (p : lut_brief -> bool) (o : option lut_brief) : bool := match o with Some l => p l | None => false end.

Definition wlan_gone (wlanIdx : Z) (f : flow) : bool :=
  let on_wlan := has (fun l => (b_wlan_dev_idx l =? wlanIdx)%Z) in
  negb (static f) && (on_wlan (lut_unchecked (lutIgrSaIdx (sw f))) || on_wlan (lut_unchecked (lutEgrDaIdx (sw f)))).
Definition rtk_fc_flow_delete_by_wlanIdx (wlanIdx : Z) (d : fc) : fc :=
  if (RTK_FC_WLANX_END_INTF <=? wlanIdx)%Z then d else delete_flows (wlan_gone wlanIdx) (wlan_gone wlanIdx) (wlan_gone wlanIdx) d.

(** The ways also look at the extension port. *)
Definition spa_gone (ext : bool) (port extspa : Z) (f : flow) : bool :=
  let at_port := has (fun l => (b_spa l =? port)%Z && implb ext (b_extspa l =? extspa)%Z) in
  negb (static f) && (at_port (lut_of (lutIgrSaIdx (sw f))) || at_port (lut_of (lutEgrDaIdx (sw f)))).
Definition rtk_fc_flow_delete_by_spa (port extspa : Z) (d : fc) : fc :=
  if (RTK_FC_MAC_PORT_MAX <=? port)%Z then d
  else delete_flows (spa_gone true port extspa) (spa_gone false port extspa) (spa_gone false port extspa) d.

Definition ports_gone (lspidMask ldpidMask : Z) (include_static : bool) (f : flow) : bool :=
  (negb (static f) || include_static)
  && has (fun l => on (Z.land lspidMask (Z.shiftl 1 (b_spa l)))) (lut_of (lutIgrSaIdx (sw f)))
  && has (fun l => on (Z.land ldpidMask (Z.shiftl 1 (b_spa l)))) (lut_of (lutEgrDaIdx (sw f))).
Definition rtk_fc_flow_delete_by_lspidMask_ldpidMask (lspidMask ldpidMask : Z) (include_static : bool) (d : fc) : fc :=
  let gone := ports_gone lspidMask ldpidMask include_static in delete_flows gone gone gone d.

(** ** By pattern: fields that are not given are [None] *)

Record pattern := Pattern {
  q_mac : option (list Z); q_smac : option (list Z); q_dmac : option (list Z);
  q_wlan : option Z; q_igr_wlan : option Z; q_egr_wlan : option Z;
  q_spa : option Z; q_pon_streamid : option Z;
  q_l4proto : option Z; q_sip4 : option Z; q_dip4 : option Z; q_sip6 : option (list Z); q_dip6 : option (list Z);
  q_sport : option Z; q_dport : option Z;
  q_msip4 : option Z; q_mdip4 : option Z; q_msport : option Z; q_mdport : option Z }.
Definition given {A} (p : A -> bool) (o : option A) : bool := match o with Some x => p x | None => true end.
Definition some {A} (o : option A) : bool := match o with Some _ => true | None => false end.
(** The index an address of the pattern is looked for under; -1 when it is not known. *)
Definition mac_lut_idx (mac : list Z) : Z := default SIGNED_INVALID (_rtk_fc_lut_find mac).
(** A flow's index counts only while its entry exists. *)
Definition live_idx (k : Z) : Z := if some (lut_of k) then k else SIGNED_INVALID.

Definition match_mac (q : pattern) (f : flow) : bool :=
  let i := live_idx (lutIgrSaIdx (sw f)) in let e := live_idx (lutEgrDaIdx (sw f)) in
  given (fun m => (mac_lut_idx m =? i)%Z || (mac_lut_idx m =? e)%Z) (q_mac q)
  && given (fun m => mac_lut_idx m =? i)%Z (q_smac q) && given (fun m => mac_lut_idx m =? e)%Z (q_dmac q).
Definition match_port (q : pattern) (f : flow) : bool :=
  let e := ent f in
  given (fun w => (w =? igrWlanDevIdx (sw f)) || (w =? egrWlanDevIdx (sw f)))%Z (q_wlan q)
  && given (fun w => w =? igrWlanDevIdx (sw f))%Z (q_igr_wlan q) && given (fun w => w =? egrWlanDevIdx (sw f))%Z (q_egr_wlan q)
  && given (fun p => has (fun l => b_spa l =? p)%Z (lut_of (lutIgrSaIdx (sw f))) || has (fun l => b_spa l =? p)%Z (lut_of (lutEgrDaIdx (sw f)))
                     || ((bool_decide (in_path e = FB_PATH_12) || bool_decide (in_path e = FB_PATH_34)) && on (Z.land (out_portmask (egr e)) (Z.shiftl 1 p)))) (q_spa q)
  && given (fun s => if has (fun l => b_spa l =? RTK_FC_MAC_PORT_PON)%Z (lut_of (lutIgrSaIdx (sw f))) then (s =? pon_stream_id (sw f))%Z
                     else has (fun l => b_spa l =? RTK_FC_MAC_PORT_PON)%Z (lut_of (lutEgrDaIdx (sw f))) && (s =? out_stream_idx (egr e))%Z) (q_pon_streamid q).
Definition match_modified (q : pattern) (e : entry) : bool :=
  if bool_decide (in_path e = FB_PATH_5) && on (out_l4_act (egr e)) then
    if on (out_l4_direction (egr e))
    then given (fun a => a =? gateway_ipv4_addr (out_intf_idx (egr e)))%Z (q_msip4 q) && given (fun p => p =? out_l4_port (egr e))%Z (q_msport q)
    else given (fun a => a =? out_dst_ipv4_addr (egr e))%Z (q_mdip4 q) && given (fun p => p =? out_l4_port (egr e))%Z (q_mdport q)
  else true.
Definition asks_v4 (q : pattern) : bool := some (q_sip4 q) || some (q_dip4 q) || some (q_msip4 q) || some (q_mdip4 q).
Definition asks_v6 (q : pattern) : bool := some (q_sip6 q) || some (q_dip6 q).
Definition asks_l34 (q : pattern) : bool :=
  some (q_l4proto q) || some (q_sip4 q) || some (q_dip4 q) || some (q_sip6 q) || some (q_dip6 q) || some (q_sport q) || some (q_dport q)
  || some (q_msip4 q) || some (q_msport q) || some (q_mdip4 q) || some (q_mdport q).
Definition match_l34 (q : pattern) (e : entry) : bool :=
  if bool_decide (in_path e = FB_PATH_34) || bool_decide (in_path e = FB_PATH_5) then
    given (fun p => p =? in_l4proto (igr e))%Z (q_l4proto q)
    && negb (asks_v4 q && asks_v6 q)
    && negb (asks_v4 q && on (in_ipv4_or_ipv6 (igr e)))
    && given (fun a => a =? in_src_ipv4_addr (igr e))%Z (q_sip4 q) && given (fun a => a =? in_dst_ipv4_addr (igr e))%Z (q_dip4 q)
    && negb (asks_v6 q && negb (on (in_ipv4_or_ipv6 (igr e))))
    && given (fun a => flowHashIPv6SrcAddr a =? in_src_ipv4_addr (igr e))%Z (q_sip6 q)
    && given (fun a => flowHashIPv6DstAddr a =? in_dst_ipv4_addr (igr e))%Z (q_dip6 q)
    && given (fun p => p =? in_l4_src_port (igr e))%Z (q_sport q) && given (fun p => p =? in_l4_dst_port (igr e))%Z (q_dport q)
    && match_modified q e
  else negb (asks_l34 q).
Definition rtk_fc_flow_delete_by_pattern_matchOrNot (q : pattern) (f : flow) : bool := match_mac q f && match_port q f && match_l34 q (ent f).
Definition asks_something (q : pattern) : bool :=
  asks_l34 q || some (q_mac q) || some (q_smac q) || some (q_dmac q) || some (q_wlan q) || some (q_igr_wlan q) || some (q_egr_wlan q)
  || some (q_spa q) || some (q_pon_streamid q).
Definition rtk_fc_flow_delete_by_pattern (q : pattern) (d : fc) : fc :=
  let gone f := negb (static f) && rtk_fc_flow_delete_by_pattern_matchOrNot q f in
  if asks_something q then delete_flows gone gone gone d else d.
End Lut.

(** ** One entry, found through its bucket *)

Definition delete_this (i j : nat) (d : fc) : fc := if i =? j then (rtk_fc_flow_delete i d).2 else d.
Definition rtk_fc_flow_delete_by_entryIdx (i : nat) (d : fc) : fc :=
  if flowSwTableSize <=? i then d
  else if i <? flowHashBuckets * ways then (rtk_fc_flow_delete i d).2
  else each (each_of_bucket (fun _ d => d) (delete_this i) (delete_this i)) (seq 0 flowHashBuckets) d.
End Walks.
