(* ===== verification/FcFlowInv.v ===== *)
(** * The flow table stays consistent

    [flows_ok]: every entry of the TCAM and of the software part is on exactly one list, a
    flow in use is never on a free list, and the switch's array of valid bits knows every
    flow in use.  The operations of [FcFlow] and [FcFlowAdd] are described by what they do
    to the table, the lists and the bits ([delete_core], [add_core]); from this follows
    that they keep [flows_ok].  [FlowLaws] is what is asked of the environment. *)
From stdpp Require Import gmap.
From S2P Require Import Prelude FcLists FcFlowKey FcFlowSide FcFlow FcFlowAdd.
Open Scope nat_scope.

(** What the model relies on: the sizes fit, a list of software takes an entry wherever it
    puts it, the lists of the buckets are all lists, each once, and the switch's driver
    stores the entry it is given, choosing its valid bit. *)
Class FlowLaws `{FlowEnv} := {
  laws_sram : FLOWSRAM <= flowHwTableSize;
  laws_ways : flowHashBuckets * ways = if fbMode_4K then FLOWSRAM else flowHwTableSize;
  laws_walk : concat (SW_FLOW_LISTS_IN_BUCKET <$> seq 0 flowHashBuckets) ≡ₚ seq 0 RTK_SW_FLOW_LIST_HEAD_COUNT;
  laws_list : forall h, RTK_HASH_VAL_TO_SW_FLOW_LIST_IDX h < RTK_SW_FLOW_LIST_HEAD_COUNT;
  laws_place : Placing SWFLOW_LIST_ADD;
  laws_set : forall i e s e', asic_flow_set i e s = Some e' -> exists v, e' = with_valid v e }.
#[export] Existing Instance laws_place.

Section Inv.
Context `{FlowChecks} `{FlowSideConfig} `{Env : FlowEnv} `{!FlowLaws}.

Definition tcam_size : nat := if fbMode_4K then flowHwTableSize - FLOWSRAM else 0.
Definition live (d : fc) (i : nat) : Prop := in_use (flow_at i d) = true.

(** Nothing of an earlier flow is left that a search compares. *)
Definition bare (f : flow) : Prop := protoCtrl f = PROTO_NONE /\ FLOW_INFO_IS_SET f ACL_PRI_FWD = false.

(** A change that a table in order survives. *)
Definition mild (f f' : flow) : Prop := in_use f' = in_use f /\ (bare f -> bare f').

Record flows_ok (d : fc) : Prop := {
  ok_length : length (flowTbl d) = flowSwTableSize;
  ok_bits_length : length (hwFlow_validBits d) = flowHwTableSize;
  ok_tcam : partitioned tcam_size (tcam d);
  ok_tcam_chains : length (chains (tcam d)) = flowHashBuckets;
  ok_sw : partitioned shortcut_flow_count (swl d);
  ok_sw_chains : length (chains (swl d)) = RTK_SW_FLOW_LIST_HEAD_COUNT;
  ok_tcam_free : forall i, i ∈ free_list (tcam d) -> ~ live d (FLOWSRAM + i);
  ok_sw_free : forall i, i ∈ free_list (swl d) -> ~ live d (flowHwTableSize + i);
  ok_bits : forall i, i < flowHwTableSize -> live d i -> nth i (hwFlow_validBits d) false = true;
  ok_bare : forall i, ~ live d i -> bare (flow_at i d) }.

(** ** Lists *)

#[export] Instance placing_tcam : Placing tcam_place.
Proof.
  intros i l. induction l as [|x l IH]; simpl; [done|]. destruct (i <? x); [done|]. rewrite IH. by rewrite perm_swap.
Qed.
Lemma is_tcam_spec i : is_tcam i = true <-> fbMode_4K = true /\ FLOWSRAM <= i < flowHwTableSize.
Proof. unfold is_tcam. rewrite !andb_true_iff, Nat.leb_le, Nat.ltb_lt. tauto. Qed.
Lemma is_sw_spec i : is_sw i = true <-> flowHwTableSize <= i < flowSwTableSize.
Proof. unfold is_sw. by rewrite andb_true_iff, Nat.leb_le, Nat.ltb_lt. Qed.
Lemma tcam_index i : is_tcam i = true -> i - FLOWSRAM < tcam_size.
Proof. intros [Hm ?]%is_tcam_spec. unfold tcam_size. rewrite Hm. lia. Qed.
Lemma sw_index i : is_sw i = true -> i - flowHwTableSize < shortcut_flow_count.
Proof. intros ?%is_sw_spec. unfold flowSwTableSize in *. lia. Qed.

(** ** Fields *)

(** What the invariant looks at, and the two list operations on it. *)
Definition core (d : fc) : list flow * idx_lists * idx_lists * list bool := (flowTbl d, tcam d, swl d, hwFlow_validBits d).
Definition lists_free (i : nat) (t s : idx_lists) : idx_lists * idx_lists :=
  (if is_tcam i then free_at tcam_place (i - FLOWSRAM) t else t, if is_sw i then free_at SWFLOW_LIST_ADD (i - flowHwTableSize) s else s).
Definition lists_hash (i hash : nat) (t s : idx_lists) : idx_lists * idx_lists :=
  (if is_tcam i && (hash / ways <? flowHashBuckets) then hash_at at_tail (hash / ways) (i - FLOWSRAM) t else t,
   if is_sw i then hash_at SWFLOW_LIST_ADD (RTK_HASH_VAL_TO_SW_FLOW_LIST_IDX hash) (i - flowHwTableSize) s else s).
Definition bits_at (i : nat) (v : bool) (b : list bool) : list bool := if i <? flowHwTableSize then <[i := v]> b else b.

Ltac same_core := intros; cbv delta [del_path5_ds del_ext_mask del_natloopback del_lutivl del_indMac del_dual del_6rd del_netif
  indMac_add netif_put netif_get take_indMac take_netif mark_lut log] beta zeta; repeat case_match; reflexivity.
Lemma core_path5_ds i d : core (del_path5_ds i d) = core d. Proof. same_core. Qed.
Lemma core_ext_mask i d : core (del_ext_mask i d) = core d. Proof. same_core. Qed.
Lemma core_natloopback i d : core (del_natloopback i d) = core d. Proof. same_core. Qed.
Lemma core_lutivl i d : core (del_lutivl i d) = core d. Proof. same_core. Qed.
Lemma core_indMac i d : core (del_indMac i d) = core d. Proof. same_core. Qed.
Lemma core_dual i d : core (del_dual i d) = core d. Proof. same_core. Qed.
Lemma core_6rd i d : core (del_6rd i d) = core d. Proof. same_core. Qed.
Lemma core_netif i d : core (del_netif i d) = core d. Proof. same_core. Qed.
Lemma core_log e d : core (log e d) = core d. Proof. done. Qed.
Lemma core_take_indMac o d : core (take_indMac o d) = core d. Proof. same_core. Qed.
Lemma core_take_netif i d : core (take_netif i d) = core d. Proof. same_core. Qed.
Lemma core_mark_lut x d : core (mark_lut x d) = core d. Proof. same_core. Qed.

Lemma core_flows d d' : core d = core d' -> flowTbl d = flowTbl d'.
Proof. by intros [= ->]. Qed.
Lemma core_flow_at i d d' : core d = core d' -> flow_at i d = flow_at i d'.
Proof. unfold flow_at. by intros ->%core_flows. Qed.
Lemma flow_at_on f i j d : flow_at j (on_flow f i d) = if decide (i = j /\ i < length (flowTbl d)) then f (flow_at j d) else flow_at j d.
Proof.
  unfold flow_at, on_flow. simpl. rewrite !nth_lookup. destruct (decide (i = j)) as [->|Hn].
  - rewrite list_lookup_alter_eq. destruct (flowTbl d !! j) eqn:E; simpl.
    + apply lookup_lt_Some in E. by rewrite decide_True.
    + apply lookup_ge_None in E. rewrite decide_False by lia. done.
  - rewrite list_lookup_alter_ne by done. rewrite decide_False by tauto. done.
Qed.
Lemma flow_at_same f i d : i < length (flowTbl d) -> flow_at i (on_flow f i d) = f (flow_at i d).
Proof. intros Hi. rewrite flow_at_on. by rewrite decide_True. Qed.
Lemma flow_at_other f i j d : i <> j -> flow_at j (on_flow f i d) = flow_at j d.
Proof. intros Hn. rewrite flow_at_on. rewrite decide_False by tauto. done. Qed.

(** ** Deleting *)

(** What is left of a deleted flow. *)
Definition dead (i : nat) (f : flow) : flow := reset_flow (set_ent (asic_flow_del i (ent f)) f).
Definition deleted (i : nat) (c : list flow * idx_lists * idx_lists * list bool) : list flow * idx_lists * idx_lists * list bool :=
  let '(l, t, s, b) := c in let '(t', s') := lists_free i t s in (alter (dead i) i l, t', s', bits_at i false b).

Lemma alter_alter_same {A} (f g : A -> A) i (l : list A) : alter f i (alter g i l) = alter (fun x => f (g x)) i l.
Proof.
  apply list_eq. intros j. destruct (decide (j = i)) as [->|Hn]; [|by rewrite !list_lookup_alter_ne].
  rewrite !list_lookup_alter_eq. by destruct (l !! i).
Qed.
Lemma detach_core i d : exists g, core (rtk_fc_flow_ct_detach i d) = (alter g i (flowTbl d), tcam d, swl d, hwFlow_validBits d) /\
  (forall f, ent (g f) = ent f).
Proof.
  unfold rtk_fc_flow_ct_detach. destruct (cachedCt (flow_at i d)) as [ct|].
  - eexists. split; [reflexivity|]. done.
  - exists (fun f => f). split; [|done]. unfold core. by rewrite list_alter_id.
Qed.

Lemma core_del_lists i l t s b d : core d = (l, t, s, b) -> i < flowSwTableSize ->
  core (del_lists i d) = (l, (lists_free i t s).1, (lists_free i t s).2, bits_at i false b).
Proof.
  intros [= <- <- <- <-] Hi. unfold del_lists, lists_free, bits_at, core. destruct (i <? flowHwTableSize) eqn:E.
  - assert (is_sw i = false) as -> by (apply not_true_iff_false; rewrite is_sw_spec; apply Nat.ltb_lt in E; lia).
    unfold _rtk_fc_flowTcamListDel, is_tcam. rewrite E, andb_true_r. by destruct fbMode_4K, (FLOWSRAM <=? i).
  - assert (is_sw i = true) as -> by (apply is_sw_spec; apply Nat.ltb_ge in E; lia).
    assert (is_tcam i = false) as -> by (unfold is_tcam; by rewrite E, andb_false_r).
    assert (0 <? shortcut_flow_count = true) as -> by (apply Nat.ltb_lt; unfold flowSwTableSize in Hi; apply Nat.ltb_ge in E; lia).
    unfold _rtk_fc_swFlowListDel. rewrite (proj2 (is_sw_spec i)); [done|]. apply Nat.ltb_ge in E. lia.
Qed.

Lemma del_refs_core i d : exists g, core (del_refs i d) = (alter g i (flowTbl d), tcam d, swl d, hwFlow_validBits d) /\
  (forall f, ent (g f) = ent f).
Proof.
  unfold del_refs. set (d1 := del_indMac i _). assert (core d1 = core d) as E1.
  { subst d1. rewrite core_indMac, core_lutivl, core_natloopback, core_ext_mask. by destruct has_cbFlowDel; rewrite ?core_log, core_path5_ds. }
  clearbody d1. destruct (detach_core i d1) as (g & E2 & Hg). exists g. split; [|done].
  rewrite core_netif, core_6rd, core_dual, E2. by injection E1 as -> -> -> ->.
Qed.
Lemma del_entry_core i g d d0 : core d = (alter g i (flowTbl d0), tcam d0, swl d0, hwFlow_validBits d0) -> (forall f, ent (g f) = ent f) ->
  i < flowSwTableSize -> core (del_entry i d) = deleted i (core d0).
Proof.
  intros E Hg Hi. unfold del_entry. rewrite core_log.
  assert (core (on_flow reset_flow i d) = (alter reset_flow i (alter g i (flowTbl d0)), tcam d0, swl d0, hwFlow_validBits d0)) as E1
    by (injection E as E2 E3 E4 E5; unfold core, on_flow; simpl; by rewrite E2, E3, E4, E5).
  apply (core_del_lists i) in E1; [|done]. set (d1 := del_lists i _) in *. clearbody d1. injection E1 as E2 E3 E4 E5.
  unfold core, deleted, on_flow. simpl. rewrite E2, E3, E4, E5. f_equal. f_equal. f_equal.
  rewrite !alter_alter_same. apply list_alter_ext; [|done]. intros f _. unfold dead, reset_flow, set_ent. cbn. by rewrite Hg.
Qed.
Lemma delete_core i d : i < flowSwTableSize -> live d i -> core (rtk_fc_flow_delete i d).2 = deleted i (core d).
Proof.
  intros Hi Hl. unfold rtk_fc_flow_delete. rewrite (proj2 (Nat.leb_gt _ _) Hi). unfold live in Hl. rewrite Hl. simpl.
  destruct (del_refs_core i d) as (g & E & Hg). by apply (del_entry_core i g).
Qed.
Lemma delete_dead i d : ~ live d i -> (rtk_fc_flow_delete i d).2 = d.
Proof. intros Hl%not_true_iff_false. unfold rtk_fc_flow_delete. rewrite Hl. by destruct (_ <=? _). Qed.
Lemma delete_out i d : flowSwTableSize <= i -> (rtk_fc_flow_delete i d).2 = d.
Proof. intros Hi. unfold rtk_fc_flow_delete. by rewrite (proj2 (Nat.leb_le _ _) Hi). Qed.

Lemma ok_core d d' : core d = core d' -> flows_ok d -> flows_ok d'.
Proof.
  unfold core. intros [= E1 E2 E3 E4] [A1 A2 A3 A4 A5 A6 A7 A8 A9 A10].
  assert (forall i, live d i <-> live d' i) as Hl by (intros i; unfold live, flow_at; by rewrite E1).
  split; rewrite <- ?E1, <- ?E2, <- ?E3, <- ?E4; try done; intros i; rewrite <- Hl; auto. unfold flow_at. rewrite <- E1. apply A10.
Qed.
Lemma nth_alter (f : flow -> flow) i j (l : list flow) : i < length l ->
  nth j (alter f i l) flow0 = if decide (i = j) then f (nth j l flow0) else nth j l flow0.
Proof.
  intros Hi. rewrite !nth_lookup. case_decide as E; [subst j; rewrite list_lookup_alter_eq|by rewrite list_lookup_alter_ne].
  apply lookup_lt_is_Some in Hi as [x Hx]. by rewrite Hx.
Qed.
Lemma bits_at_other i j v b : i <> j -> nth j (bits_at i v b) false = nth j b false.
Proof. intros Hn. unfold bits_at. case_match; [|done]. by rewrite !nth_lookup, list_lookup_insert_ne. Qed.
Lemma bits_at_length i v b : length (bits_at i v b) = length b.
Proof. unfold bits_at. case_match; [by rewrite length_insert|done]. Qed.

(** What a deletion leaves of the other flows, and of the flow. *)
Lemma deleted_flow d d' i j : core d' = deleted i (core d) -> i < length (flowTbl d) ->
  flow_at j d' = if decide (i = j) then dead i (flow_at j d) else flow_at j d.
Proof. unfold core, deleted, lists_free. intros [= E _ _ _] Hi. unfold flow_at. rewrite E. by apply nth_alter. Qed.
Lemma deleted_live d d' i j : core d' = deleted i (core d) -> i < length (flowTbl d) -> live d' j <-> live d j /\ j <> i.
Proof.
  intros E Hi. unfold live. rewrite (deleted_flow d d' i j E Hi). case_decide as Hj; [|naive_solver].
  subst j. unfold in_use, dead. simpl. split; [done|tauto].
Qed.
Lemma deleted_ok d d' i : flows_ok d -> i < flowSwTableSize -> core d' = deleted i (core d) -> flows_ok d'.
Proof.
  intros Hd Hi E. assert (i < length (flowTbl d)) as Hil by by rewrite (ok_length d Hd).
  pose proof (fun j => deleted_live d d' i j E Hil) as Hl. pose proof (fun j => deleted_flow d d' i j E Hil) as Hf. revert E. unfold core, deleted, lists_free. intros [= E1 E2 E3 E4].
  split; rewrite ?E1, ?E2, ?E3, ?E4.
  - rewrite length_alter. apply Hd.
  - rewrite bits_at_length. apply Hd.
  - destruct (is_tcam i) eqn:Hi'; [apply free_at_part; [apply Hd|by apply tcam_index]|apply Hd].
  - destruct (is_tcam i); [rewrite chains_free_at|]; apply Hd.
  - destruct (is_sw i) eqn:Hi'; [apply free_at_part; [apply Hd|by apply sw_index]|apply Hd].
  - destruct (is_sw i); [rewrite chains_free_at|]; apply Hd.
  - intros j Hj [Hlj Hn]%Hl. apply (ok_tcam_free d Hd j); [|done]. destruct (is_tcam i) eqn:Hi'; [|done].
    apply free_free_at in Hj as [->|[? _]]; [|done]. apply is_tcam_spec in Hi'. lia.
  - intros j Hj [Hlj Hn]%Hl. apply (ok_sw_free d Hd j); [|done]. destruct (is_sw i) eqn:Hi'; [|done].
    apply free_free_at in Hj as [->|[? _]]; [|done]. apply is_sw_spec in Hi'. lia.
  - intros j Hj [Hlj Hn]%Hl. rewrite bits_at_other by done. by apply (ok_bits d Hd).
  - intros j Hj. rewrite Hl in Hj. rewrite Hf. case_decide as Hij; [done|]. apply (ok_bare d Hd). intros ?. apply Hj. split; [done|congruence].
Qed.
Lemma delete_cases i d : (core (rtk_fc_flow_delete i d).2 = deleted i (core d) /\ i < flowSwTableSize /\ live d i) \/
  ((rtk_fc_flow_delete i d).2 = d /\ (i < flowSwTableSize -> ~ live d i)).
Proof.
  destruct (decide (i < flowSwTableSize)) as [Hi|Hi]; [|right; rewrite delete_out by lia; split; [done|lia]].
  destruct (in_use (flow_at i d)) eqn:E; [left; split; [by apply delete_core|done]|right]. unfold live. split; [|congruence].
  apply delete_dead. unfold live. congruence.
Qed.
Lemma delete_ok i d : flows_ok d -> flows_ok (rtk_fc_flow_delete i d).2.
Proof. intros Hd. destruct (delete_cases i d) as [(E & Hi & _)|[-> _]]; [by eapply deleted_ok|done]. Qed.
Lemma delete_live i j d : flows_ok d -> live (rtk_fc_flow_delete i d).2 j <-> live d j /\ (i = j -> flowSwTableSize <= i).
Proof.
  intros Hd. destruct (delete_cases i d) as [(E & Hi & _)|[-> Hn]].
  - rewrite (deleted_live d _ i j E) by (by rewrite (ok_length d Hd)). split; intros [Hj Hn]; (split; [done|]).
    + by intros ->.
    + intros ->. specialize (Hn eq_refl). lia.
  - split; [|tauto]. intros Hj. split; [done|]. intros ->. destruct (decide (j < flowSwTableSize)); [tauto|lia].
Qed.
Lemma delete_flow_other i j d : flows_ok d -> i <> j -> flow_at j (rtk_fc_flow_delete i d).2 = flow_at j d.
Proof.
  intros Hd Hn. destruct (delete_cases i d) as [(E & Hi & _)|[-> _]]; [|done].
  rewrite (deleted_flow d _ i j E) by (by rewrite (ok_length d Hd)). by rewrite decide_False.
Qed.
Lemma live_bound d i : flows_ok d -> live d i -> i < flowSwTableSize.
Proof.
  intros Hd Hl. destruct (decide (i < flowSwTableSize)) as [|Hi]; [done|]. exfalso. revert Hl. unfold live, flow_at.
  rewrite nth_lookup, lookup_ge_None_2 by (rewrite (ok_length d Hd); lia). done.
Qed.

(** ** Adding *)

(** The step changes only flow [i], as [P] allows. *)
Definition touch (P : flow -> flow -> Prop) (i : nat) (d d' : fc) : Prop :=
  exists g, core d' = (alter g i (flowTbl d), tcam d, swl d, hwFlow_validBits d) /\ forall f, P f (g f).
(** The pattern, the entry and the state stay. *)
Definition keeps (f f' : flow) : Prop := ent f' = ent f /\ candidateState f' = candidateState f.
Definition holds (f f' : flow) : Prop := keeps f f' /\ protoCtrl f' = protoCtrl f /\ infos f' = infos f.
Definition starts (f f' : flow) : Prop := ent f' = ent f /\ in_use f' = true.

Lemma touch_core P i d d' : (forall f, P f f) -> core d' = core d -> touch P i d d'.
Proof. intros HP E. exists (fun f => f). split; [|done]. rewrite E. unfold core. by rewrite list_alter_id. Qed.
Lemma touch_on P i g d : (forall f, P f (g f)) -> touch P i d (on_flow g i d).
Proof. intros HP. by exists g. Qed.
Lemma touch_trans (P Q R : flow -> flow -> Prop) i d d' d'' : (forall f f' f'', P f f' -> Q f' f'' -> R f f'') ->
  touch P i d d' -> touch Q i d' d'' -> touch R i d d''.
Proof.
  intros HR (g & E & Hg) (h & E' & Hh). exists (fun f => h (g f)). split; [|eauto]. rewrite E'. unfold core in E. injection E as -> -> -> ->.
  by rewrite alter_alter_same.
Qed.
Lemma touch_core_l P i d d' d'' : core d' = core d -> touch P i d' d'' -> touch P i d d''.
Proof. unfold core. intros [= E1 E2 E3 E4] (g & E & Hg). exists g. by rewrite <- E1, <- E2, <- E3, <- E4. Qed.
Lemma touch_core_r P i d d' d'' : core d'' = core d' -> touch P i d d' -> touch P i d d''.
Proof. intros E (g & E' & Hg). exists g. by rewrite E. Qed.
Lemma keeps_flow_refl f : keeps f f. Proof. done. Qed.
Lemma keeps_flow_trans f f' f'' : keeps f f' -> keeps f' f'' -> keeps f f''.
Proof. unfold keeps. intros [-> ->] [-> ->]. done. Qed.
Hint Resolve keeps_flow_refl : core.

Lemma keeps_infos l f : keeps f (set_infos l f). Proof. done. Qed.
Lemma keeps_set x v f : keeps f (FLOW_INFO_SET x v f). Proof. done. Qed.
Lemma keeps_packet swOnly p g f : keeps f (packet_fields swOnly p g f).
Proof. unfold packet_fields. by repeat case_match. Qed.
Lemma keeps_base swOnly st mc g f : keeps f (base_fields swOnly st mc g f).
Proof. unfold base_fields. by destruct g. Qed.
Lemma keeps_g3 g f : keeps f (g3_fields g f). Proof. unfold g3_fields. by destruct g. Qed.
Lemma keeps_lut x f : keeps f (lut_fields x f). Proof. unfold lut_fields. by destruct (default _ x). Qed.
Lemma keeps_last p g f : keeps f (bridge_field p (srv6_field g f)).
Proof. unfold bridge_field, srv6_field. by repeat case_match. Qed.
Lemma keeps_delay g f : keeps f (delay_hit g f). Proof. unfold delay_hit. by case_match. Qed.

Ltac touches := match goal with
  | |- touch _ _ ?d ?d => by apply touch_core
  | |- touch _ _ _ (on_flow _ _ _) => eapply touch_trans; [apply keeps_flow_trans| |by apply touch_on]; apply touch_core; done
  | _ => apply touch_core; done
  end.
Lemma holds_trans f f' f'' : holds f f' -> holds f' f'' -> holds f f''.
Proof. unfold holds. intros (? & -> & ->) (? & -> & ->). split; [by eapply keeps_flow_trans|done]. Qed.
Lemma touch_take_ct i ct d : touch holds i d (take_ct i ct d).
Proof. unfold take_ct. repeat case_match; by apply touch_on || (by exists (set_ct (Some z))). Qed.
Lemma touch_p5ds i p d : touch keeps i d (take_p5ds i p d).
Proof. unfold take_p5ds. repeat case_match; touches. Qed.
Lemma touch_lutivl i x p d : touch keeps i d (take_lutivl i x p d).
Proof. unfold take_lutivl. repeat case_match; touches. Qed.
Lemma touch_know_ct i hash ct p d : touch keeps i d (know_ct i hash ct p d).
Proof. unfold know_ct. repeat case_match; touches. Qed.
Lemma touch_loopback i p g d d' : take_loopback i p g d = Some d' -> touch keeps i d d'.
Proof. unfold take_loopback. repeat case_match; intros [= <-]; touches. Qed.
Lemma touch_dual i g d d' : take_dual i g d = Some d' -> touch keeps i d d'.
Proof. unfold take_dual. repeat case_match; intros [= <-]; touches. Qed.

Lemma touch_before i hash ct x swOnly st mc g p d : touch starts i d (fields_before i hash ct x swOnly st mc g p d).
Proof.
  unfold fields_before. eapply (touch_trans keeps starts); [unfold keeps, starts; intros ??? [-> _] [-> ?]; done| |].
  2: apply (touch_on starts); intros f; unfold starts, first_state, in_use; split; [done|]; simpl; by destruct (valid (ent f)).
  eapply touch_trans; [apply keeps_flow_trans| |apply touch_know_ct]. eapply touch_trans; [apply keeps_flow_trans| |apply touch_lutivl].
  eapply touch_trans; [apply keeps_flow_trans| |apply touch_on, keeps_lut]. eapply touch_trans; [apply keeps_flow_trans| |apply touch_p5ds].
  apply touch_on. intros f. eapply keeps_flow_trans; [apply keeps_base|apply keeps_packet].
Qed.
Lemma touch_after i x g p d : touch keeps i d (fields_after i x g p d).
Proof.
  unfold fields_after. eapply touch_core_r; [apply core_take_netif|]. eapply touch_core_l; [apply core_mark_lut|]. apply touch_on, keeps_last.
Qed.
Lemma starts_keeps f f' f'' : starts f f' -> keeps f' f'' -> starts f f''.
Proof. unfold starts, keeps, in_use. intros [-> Hu] [-> ->]. done. Qed.
Lemma touch_middle i hash ct x o swOnly st mc g p d :
  touch starts i d (on_flow (g3_fields g) i (take_indMac o (fields_before i hash ct x swOnly st mc g p d))).
Proof.
  eapply touch_trans; [apply starts_keeps| |apply touch_on, keeps_g3]. eapply touch_core_r; [apply core_take_indMac|]. apply touch_before.
Qed.

(** The entry's lists and bit after an addition; the table is changed only at [i]. *)
Definition hashed (i hash : nat) (g : flow -> flow) (c : list flow * idx_lists * idx_lists * list bool) : list flow * idx_lists * idx_lists * list bool :=
  let '(l, t, s, b) := c in let '(t', s') := lists_hash i hash t s in (alter g i l, t', s', bits_at i true b).
Definition adds (P : flow -> flow -> Prop) (i hash : nat) (d d' : fc) : Prop :=
  exists g, core d' = hashed i hash g (core d) /\ forall f, P f (g f).

Lemma adds_lists i hash d : i < flowSwTableSize -> hash / ways < flowHashBuckets -> adds holds i hash d (entry_lists i hash d).
Proof.
  intros Hi Hh. exists (fun f => f). split; [|done]. unfold entry_lists, hashed, lists_hash, bits_at, core. simpl. rewrite list_alter_id by done.
  rewrite (proj2 (Nat.ltb_lt _ _) Hh), andb_true_r. destruct (i <? flowHwTableSize) eqn:E.
  - assert (is_sw i = false) as -> by (apply not_true_iff_false; rewrite is_sw_spec; apply Nat.ltb_lt in E; lia).
    unfold _rtk_fc_flowTcamListAdd. rewrite (proj2 (Nat.ltb_lt _ _) Hh). destruct (is_tcam i) eqn:Ht; [|done].
    apply is_tcam_spec in Ht as [-> _]. done.
  - assert (is_sw i = true) as Hs by (apply is_sw_spec; apply Nat.ltb_ge in E; lia). rewrite Hs.
    assert (is_tcam i = false) as -> by (unfold is_tcam; by rewrite E, andb_false_r).
    assert (0 <? shortcut_flow_count = true) as -> by (apply Nat.ltb_lt; unfold flowSwTableSize in Hi; apply Nat.ltb_ge in E; lia).
    unfold _rtk_fc_swFlowListAdd. by rewrite Hs, (proj2 (Nat.ltb_lt _ _) (laws_list hash)).
Qed.
Lemma adds_touch (P Q R : flow -> flow -> Prop) i hash d d' d'' : (forall f f' f'', P f f' -> Q f' f'' -> R f f'') ->
  adds P i hash d d' -> touch Q i d' d'' -> adds R i hash d d''.
Proof.
  intros HR (g & E & Hg) (h & E' & Hh). exists (fun f => h (g f)). split; [|eauto]. rewrite E'. unfold core, hashed, lists_hash in *.
  injection E as -> -> -> ->. by rewrite alter_alter_same.
Qed.

Lemma adds_flow P i hash d d' j : adds P i hash d d' -> i < length (flowTbl d) ->
  (i <> j -> flow_at j d' = flow_at j d) /\ P (flow_at i d) (flow_at i d').
Proof.
  intros (g & E & Hg) Hi. unfold core, hashed, lists_hash in E. injection E as E _ _ _. unfold flow_at. rewrite E. split.
  - intros Hn. rewrite nth_alter by done. by rewrite decide_False.
  - rewrite nth_alter by done. rewrite decide_True by done. apply Hg.
Qed.
Lemma adds_ok (P : flow -> flow -> Prop) i hash d d' : (forall f f', P f f' -> in_use f' = true \/ (in_use f' = in_use f /\ (bare f -> bare f'))) ->
  flows_ok d -> i < flowSwTableSize -> hash / ways < flowHashBuckets -> adds P i hash d d' -> flows_ok d'.
Proof.
  intros HP Hd Hi Hh Ha. assert (i < length (flowTbl d)) as Hil by by rewrite (ok_length d Hd).
  assert (forall j, ~ live d' j -> bare (flow_at j d')) as Hbare.
  { intros j. unfold live. destruct (decide (i = j)) as [<-|Hn]; [|rewrite (proj1 (adds_flow P i hash d d' j Ha Hil) Hn); by apply ok_bare].
    destruct (HP _ _ (proj2 (adds_flow P i hash d d' i Ha Hil))) as [->|[-> Hb]]; [done|]. intros Hl. by apply Hb, (ok_bare d Hd). }
  assert (forall j, i <> j -> live d' j -> live d j) as Hl.
  { intros j Hj. unfold live. by rewrite (proj1 (adds_flow P i hash d d' j Ha Hil) Hj). }
  destruct Ha as (g & E & _). revert E. unfold core, hashed, lists_hash. intros [= E1 E2 E3 E4].
  rewrite (proj2 (Nat.ltb_lt _ _) Hh), andb_true_r in E2.
  split; rewrite ?E1, ?E2, ?E3, ?E4.
  - rewrite length_alter. apply Hd.
  - rewrite bits_at_length. apply Hd.
  - destruct (is_tcam i) eqn:Hi'; [|apply Hd]. apply hash_at_part; [apply Hd|by apply tcam_index|by rewrite (ok_tcam_chains d Hd)].
  - destruct (is_tcam i); [rewrite chains_hash_at|]; apply Hd.
  - destruct (is_sw i) eqn:Hi'; [|apply Hd]. apply hash_at_part; [apply Hd|by apply sw_index|rewrite (ok_sw_chains d Hd); apply laws_list].
  - destruct (is_sw i); [rewrite chains_hash_at|]; apply Hd.
  - intros j Hj Hlj. assert (j ∈ free_list (tcam d) /\ i <> FLOWSRAM + j) as [Hf Hn].
    { destruct (is_tcam i) eqn:Hi'; [apply free_hash_at in Hj as [? ?]; split; [done|]; lia|]. split; [done|]. intros ->.
      revert Hi'. apply not_false_iff_true, is_tcam_spec. pose proof (part_free _ _ (ok_tcam d Hd) j Hj). unfold tcam_size in *. destruct fbMode_4K; [|lia].
      split; [done|lia]. }
    apply (ok_tcam_free d Hd j Hf). by apply Hl.
  - intros j Hj Hlj. assert (j ∈ free_list (swl d) /\ i <> flowHwTableSize + j) as [Hf Hn].
    { destruct (is_sw i) eqn:Hi'; [apply free_hash_at in Hj as [? ?]; split; [done|]; lia|]. split; [done|]. intros ->.
      revert Hi'. apply not_false_iff_true, is_sw_spec. pose proof (part_free _ _ (ok_sw d Hd) j Hj). unfold flowSwTableSize. lia. }
    apply (ok_sw_free d Hd j Hf). by apply Hl.
  - intros j Hj Hlj. destruct (decide (i = j)) as [<-|Hn].
    + unfold bits_at. rewrite (proj2 (Nat.ltb_lt _ _) Hj). rewrite nth_lookup, list_lookup_insert_eq; [done|]. by rewrite (ok_bits_length d Hd).
    + rewrite bits_at_other by done. apply (ok_bits d Hd j Hj). by apply Hl.
  - exact Hbare.
Qed.

(** The outcomes of setting the fields of a new flow. *)
Definition stored_flow (f f' : flow) : Prop := ent f' = ent f.
Lemma swField_set_cases i hash ct x o swOnly st mc g p d : i < flowSwTableSize -> hash / ways < flowHashBuckets -> length (flowTbl d) = flowSwTableSize ->
  let '(r, d') := _rtk_fc_flow_swField_set i hash ct x o swOnly st mc g p d in
  (r = RTK_FC_RET_OK /\ adds starts i hash d d') \/
  (r = RTK_FC_RET_ERR_ENTRY_FULL /\ (adds holds i hash d d' \/ exists d1, adds starts i hash d d1 /\ core d' = deleted i (core d1))).
Proof.
  intros Hi Hh Hlen. unfold _rtk_fc_flow_swField_set.
  assert (adds holds i hash d (take_ct i ct (entry_lists i hash d))) as A1
    by (eapply adds_touch; [apply holds_trans|by apply adds_lists|apply touch_take_ct]).
  destruct (take_loopback i p g _) as [d1|] eqn:El; [|right; auto].
  assert (adds keeps i hash d d1) as A2 by (eapply (adds_touch holds keeps); [intros ??? [? _]; by apply keeps_flow_trans|apply A1|by apply touch_loopback in El]).
  set (d2 := on_flow (g3_fields g) i _).
  assert (adds starts i hash d d2) as A3.
  { eapply adds_touch; [|apply A2|apply touch_middle]. unfold keeps, starts. intros ??? [-> _] [-> ?]. done. }
  clearbody d2. destruct (take_dual i g d2) as [d3|] eqn:Ed.
  - left. split; [done|]. eapply adds_touch; [apply starts_keeps| |apply touch_after]. eapply adds_touch; [apply starts_keeps|apply A3|by apply touch_dual in Ed].
  - right. split; [done|]. right. exists d2. split; [done|]. apply delete_core; [done|].
    apply (adds_flow starts i hash d d2 i A3). by rewrite Hlen.
Qed.
End Inv.
