(* ===== verification/FcFlowSmall.v ===== *)
(** * A small flow table

    The start of every run ([fresh_fc]) is in order.  And a device to try the theorems on:
    four buckets of two ways, four entries of a TCAM and four of software. *)
From stdpp Require Import gmap.
From S2P Require Import Prelude FcLists FcFlowKey FcFlowKeySpec FcFlowSide FcFlowSideSpec FcFlow FcFlowAdd FcFlowInv.
Open Scope nat_scope.

Section Fresh.
Context `{FlowChecks} `{FlowSideConfig} `{Env : FlowEnv} `{!FlowLaws}.

(** Before the lists are set up: no flow, nothing counted. *)
Definition blank_fc : fc :=
  Fc (replicate flowSwTableSize flow0) (IdxLists [] (replicate flowHashBuckets [])) (IdxLists [] [])
    (replicate flowHwTableSize false) (replicate 8 0%Z) (replicate 8 (true, 0%Z)) nl_init (IvlDb [] ∅) ∅ []
    (replicate 4 DUAL_NONE) (replicate 4 []) [None; None] ∅ [] 0.
Definition fresh_fc : fc := _rtk_fc_flowTable_init blank_fc.

Lemma no_flow_at_start i : ~ live fresh_fc i.
Proof.
  unfold live, flow_at. simpl. rewrite nth_lookup. destruct (_ !! i) as [f|] eqn:E; [|done].
  by apply lookup_replicate in E as [-> _].
Qed.
Lemma fold_place n l : fold_left (fun l i => SWFLOW_LIST_ADD i l) n l ≡ₚ rev n ++ l.
Proof.
  revert l. induction n as [|i n IH]; intros l; simpl; [done|]. rewrite IH, (laws_place i l), <- app_assoc. done.
Qed.
Lemma no_chains m : concat (replicate m ([] : list nat)) = [].
Proof. by induction m. Qed.
Lemma fresh_ok : flows_ok fresh_fc.
Proof.
  split; try (intros; by destruct (no_flow_at_start _ ltac:(eassumption))).
  - apply length_replicate.
  - apply length_replicate.
  - unfold partitioned, members, fresh_fc, _rtk_fc_flowTable_init, tcam_size. destruct fbMode_4K; simpl; by rewrite no_chains, ?app_nil_r.
  - unfold fresh_fc, _rtk_fc_flowTable_init. destruct fbMode_4K; apply length_replicate.
  - unfold partitioned, members. simpl. rewrite no_chains, !app_nil_r, fold_place, app_nil_r. symmetry. apply Permutation_rev.
  - apply length_replicate.
  - intros i _. apply no_flow_at_start.
  - intros i _. apply no_flow_at_start.
  - intros i _. unfold flow_at. simpl. rewrite nth_lookup. destruct (_ !! i) as [f|] eqn:E; [|done]. by apply lookup_replicate in E as [-> _].
Qed.
End Fresh.

(** ** The device *)

#[export] Instance small_checks : FlowChecks := checks_with true true.
#[export] Instance small_flow_env : FlowEnv := {|
  fbMode_4K := true; FLOWSRAM := 8; flowHwTableSize := 12; shortcut_flow_count := 4;
  flowHashBuckets := 4; flowHashWayShift := 1; flowSync_GRANULARITY := 2;
  RTK_SW_FLOW_LIST_HEAD_COUNT := 4; RTK_HASH_VAL_TO_SW_FLOW_LIST_IDX := fun h => h / 2 mod 4;
  SW_FLOW_LISTS_IN_BUCKET := fun b => [b]; SWFLOW_LIST_ADD := cons; NETIF_HWTOSW := Z.to_nat;
  PATH34_SKIP_DA := false; hwnat_sw_only := false; RTK_FC_WLANX_NOT_FOUND := 255%Z;
  kernel_delay_mode := false; flow_delay_hit_num := 3%Z; HIT_NUMBER_TO_DELAY_MAX := 255%Z; DUAL_PT_TBL_START_IDX := 1;
  house_keeping_flow_delete_immediatly := true; flowSyncPeriod_unit1s := 5%Z; flowIdleTimeout_unit1s := 15%Z; mcTimeout_unit1s := 30%Z;
  has_cbFlowAdd := false; has_cbFlowDel := false; ivl_wrap := wide; wlan_egress := fun _ => false;
  asic_flow_set := fun _ e sw_only => Some (with_valid (negb sw_only) e); asic_flow_del := fun _ e => with_valid false e;
  ct_get_ok := fun _ => true; CT_SESSION_ALIVE := fun _ => true; CT_REFRESH := fun _ => true;
  CT_EXPIRETIME_GET := fun o x => default x o |}.
#[export] Instance small_flow_laws : FlowLaws.
Proof.
  split; simpl; [lia|done|done| |apply _|].
  - intros h. change (h / 2 mod 4 < 4). apply Nat.mod_upper_bound. lia.
  - intros i e s e' [= <-]. by eexists.
Qed.
