(* ===== verification/FcFlowFind.v ===== *)
(** * The entry a new flow gets

    What [_rtk_fc_flow_freeEntry_get] of [FcFlow] answers: a flow of the bucket that
    matches, else a free entry, else the flow that gives way.  A walk over a part of the
    bucket is described by what it adds to the scan ([walk_hit], [walk_free], [walk_seen]);
    [seen] says that the scan knows the best of the flows it was shown. *)
From stdpp Require Import gmap.
From S2P Require Import Prelude FcLists FcFlowKey FcFlowSide FcFlow FcFlowAdd FcFlowInv.
Open Scope nat_scope.

Section Find.
Context `{FlowChecks} `{FlowSideConfig} `{Env : FlowEnv} `{!FlowLaws}.

(** ** One walk *)

(** What a walk looks at: an entry of the ways only when it is in use. *)
Definition visible (hw : bool) (d : fc) (i : nat) : Prop := hw = true -> live d i.
Definition skips_ct (d : fc) (i : nat) : bool := FLOW_INFO_IS_SET (flow_at i d) SKIP_CT.
Definition idle_of (d : fc) (i : nat) : Z := idleSecs (flow_at i d).

(** The scan knows of the candidates [C]. *)
Record seen (d : fc) (C : nat -> Prop) (s : scan) : Prop := {
  seen_longest : forall i, longestIdleTimeFlowIdx s = Some i -> C i /\ skips_ct d i = true /\ longestIdleTime s = idle_of d i;
  seen_none : longestIdleTimeFlowIdx s = None -> longestIdleTime s = 0%Z;
  seen_nearest : forall i, nearestExpiryTimeFlowIdx s = Some i -> C i;
  seen_dynamic : forall i, first_dynamic s = Some i -> C i;
  seen_idle : first_invalid s = None -> forall j, C j -> skips_ct d j = true -> (0 <= idle_of d j)%Z ->
    longestIdleTimeFlowIdx s <> None /\ (idle_of d j <= longestIdleTime s)%Z;
  seen_ct : first_invalid s = None -> forall j, C j -> skips_ct d j = false -> nearestExpiryTimeFlowIdx s <> None }.

Lemma seen_scan0 d : seen d (fun _ => False) scan0.
Proof. by split. Qed.
Lemma seen_iff d (C C' : nat -> Prop) s : (forall i, C i <-> C' i) -> seen d C s -> seen d C' s.
Proof. intros E [S1 S2 S3 S4 S5 S6]. split; try setoid_rewrite <- E; auto. Qed.
Lemma seen_invalid d C o s : seen d C s -> seen d C (invalid_at o s).
Proof. intros [S1 S2 S3 S4 S5 S6]. unfold invalid_at. destruct (first_invalid s) eqn:E; [by split; rewrite ?E|].
  split; simpl; try done; intros; [by apply S5|by eapply S6].
Qed.
Lemma seen_more d (C C' : nat -> Prop) s : (forall i, C i -> C' i) -> first_invalid s <> None -> seen d C s -> seen d C' s.
Proof.
  intros E Hn [S1 S2 S3 S4 S5 S6]. split; [|done|naive_solver|naive_solver|done|done].
  intros i (Hi & ? & ?)%S1. auto.
Qed.
Lemma seen_victim d C i s : first_invalid s = None -> seen d C s -> seen d (fun j => C j \/ j = i) (victim i (flow_at i d) s).
Proof.
  intros Hf [S1 S2 S3 S4 S5 S6]. unfold victim. fold (skips_ct d i) (idle_of d i).
  assert (forall j, (match first_dynamic s with Some k => Some k | None => Some i end) = Some j -> C j \/ j = i) as Hdyn
    by (intros j; destruct (first_dynamic s); intros [= <-]; auto).
  destruct (skips_ct d i) eqn:Ek.
  - destruct (Z.leb_spec (longestIdleTime s) (idle_of d i)); split; simpl; auto; try done.
    + intros j [= <-]. auto.
    + intros _ j [Hj| ->] Hs Hp; (split; [done|]); [|done]. destruct (S5 Hf j Hj Hs Hp). lia.
    + intros _ j [Hj| ->] Hs; [by eapply S6|congruence].
    + intros j Hj. destruct (S1 j Hj) as (? & ? & ?). auto.
    + intros _ j [Hj| ->] Hs Hp; [by apply (S5 Hf)|]. destruct (longestIdleTimeFlowIdx s) eqn:E; [split; [done|lia]|].
      specialize (S2 eq_refl). lia.
    + intros _ j [Hj| ->] Hs; [by eapply S6|congruence].
  - assert (forall j, first_invalid s = None -> C j \/ j = i -> skips_ct d j = true -> (0 <= idle_of d j)%Z ->
      longestIdleTimeFlowIdx s <> None /\ (idle_of d j <= longestIdleTime s)%Z) as Hidle by (intros j _ [Hj| ->] Hs Hp; [by apply S5|congruence]).
    destruct (nearestExpiryTimeFlowIdx s) as [k|] eqn:En; simpl; [destruct (time_before _ _)|]; split; simpl; auto; try done.
    all: try (intros j Hj; destruct (S1 j Hj) as (? & ? & ?); by auto).
    all: try (intros j [= <-]; auto; fail).
Qed.

Lemma invalid_at_first o s : first_invalid (invalid_at o s) = match first_invalid s with Some i => Some i | None => o end.
Proof. unfold invalid_at. by destruct (first_invalid s) eqn:E. Qed.
Lemma invalid_at_hit o s : flowHitIdx (invalid_at o s) = flowHitIdx s.
Proof. unfold invalid_at. by destruct (first_invalid s). Qed.
Lemma victim_first i f s : first_invalid (victim i f s) = first_invalid s.
Proof. unfold victim. by repeat case_match. Qed.
Lemma victim_hit i f s : flowHitIdx (victim i f s) = flowHitIdx s.
Proof. unfold victim. by repeat case_match. Qed.

Lemma walk_hit hw same may d l s : flowHitIdx s = None ->
  match flowHitIdx (walk hw same may d l s) with
  | Some i => i ∈ l /\ visible hw d i /\ same (flow_at i d) = true
  | None => forall i, i ∈ l -> visible hw d i -> same (flow_at i d) = false
  end.
Proof.
  revert s. induction l as [|i l IH]; intros s Hs; simpl; [rewrite Hs; intros i Hi; by apply elem_of_nil in Hi|].
  assert (forall s', flowHitIdx s' = None -> (visible hw d i -> same (flow_at i d) = false) ->
    match flowHitIdx (walk hw same may d l s') with
    | Some i' => i' ∈ i :: l /\ visible hw d i' /\ same (flow_at i' d) = true
    | None => forall i', i' ∈ i :: l -> visible hw d i' -> same (flow_at i' d) = false
    end) as Hgo.
  { intros s' Hs' Hi. specialize (IH s' Hs'). destruct (flowHitIdx (walk hw same may d l s')) as [k|].
    - destruct IH as (? & ? & ?). split; [by right|done].
    - intros k [->|Hk]%elem_of_cons; [done|]. by apply IH. }
  destruct (hw && negb (in_use (flow_at i d))) eqn:Ev.
  - apply andb_true_iff in Ev as [-> Hu%negb_true_iff]. apply Hgo.
    + destruct (lock _); [done|]. by rewrite invalid_at_hit.
    + intros Hv. unfold visible, live in Hv. specialize (Hv eq_refl). congruence.
  - destruct (same (flow_at i d)) eqn:Em.
    + split; [by left|]. split; [|done]. intros ->. simpl in Ev. by apply negb_false_iff in Ev.
    + apply Hgo; [|done]. destruct (negb _ && may _); [|done]. by rewrite victim_hit.
Qed.
Lemma walk_invalid hw same may d l s i : first_invalid (walk hw same may d l s) = Some i ->
  first_invalid s = Some i \/ (hw = true /\ i ∈ l /\ ~ live d i /\ lock (ent (flow_at i d)) = false).
Proof.
  revert s. induction l as [|k l IH]; intros s; simpl; [auto|]. destruct (hw && negb (in_use (flow_at k d))) eqn:Ev.
  - apply andb_true_iff in Ev as [-> Hu%negb_true_iff]. destruct (lock (ent (flow_at k d))) eqn:El; intros [Hi|(? & ? & ? & ?)]%IH;
      [by left|right; repeat split; try done; by right| |right; repeat split; try done; by right].
    rewrite invalid_at_first in Hi. destruct (first_invalid s); [by left|]. injection Hi as ->. right. unfold live.
    repeat split; [by left|congruence|done].
  - destruct (same (flow_at k d)); [auto|]. intros [Hi|(? & ? & ? & ?)]%IH; [|right; repeat split; try done; by right]. left.
    destruct (negb _ && may _); [|done]. by rewrite victim_first in Hi.
Qed.
Lemma walk_list_first same may d l s : first_invalid (walk false same may d l s) = first_invalid s.
Proof.
  revert s. induction l as [|k l IH]; intros s; simpl; [done|]. destruct (same (flow_at k d)); [done|]. rewrite IH.
  destruct (negb (is_some (first_invalid s)) && may (flow_at k d)); [apply victim_first|done].
Qed.
Lemma walk_no_free same may d l s : first_invalid (walk true same may d l s) = None -> flowHitIdx (walk true same may d l s) = None ->
  forall i, i ∈ l -> live d i \/ lock (ent (flow_at i d)) = true.
Proof.
  assert (forall l s, first_invalid s <> None -> first_invalid (walk true same may d l s) <> None) as Hmono.
  { clear l s. induction l as [|k l IH]; intros s Hs; simpl; [done|].
    destruct (in_use (flow_at k d)); simpl; [destruct (same _); [done|]|destruct (lock _); apply IH; rewrite ?invalid_at_first; by destruct (first_invalid s)].
    apply IH. destruct (negb _ && may _); by rewrite ?victim_first. }
  revert s. induction l as [|k l IH]; intros s; simpl; [intros _ _ i ?%elem_of_nil; done|]. unfold live.
  destruct (in_use (flow_at k d)) eqn:Eu; simpl.
  - destruct (same (flow_at k d)); [done|]. intros Hi Hh i [->|Hk]%elem_of_cons; [by left|]. by eapply IH.
  - destruct (lock (ent (flow_at k d))) eqn:El; intros Hi Hh i [->|Hk]%elem_of_cons; auto; try by eapply IH. exfalso.
    eapply Hmono; [|exact Hi]. rewrite invalid_at_first. by destruct (first_invalid s).
Qed.
Lemma walk_seen hw same may d l C s : seen d C s -> flowHitIdx (walk hw same may d l s) = None ->
  seen d (fun i => C i \/ (i ∈ l /\ visible hw d i /\ may (flow_at i d) = true)) (walk hw same may d l s).
Proof.
  revert C s. induction l as [|k l IH]; intros C s Hs; simpl.
  { intros _. eapply seen_iff; [|exact Hs]. intros i. rewrite elem_of_nil. tauto. }
  destruct (hw && negb (in_use (flow_at k d))) eqn:Ev; [|destruct (same (flow_at k d)); [done|]].
  - intros Hh. eapply seen_iff; [|apply (IH C); [|done]; by destruct (lock _); [|apply seen_invalid]].
    apply andb_true_iff in Ev as [-> Hu%negb_true_iff]. intros i. rewrite elem_of_cons. unfold visible, live.
    split; [tauto|]. intros [?|([->|?] & Hv & ?)]; auto. specialize (Hv eq_refl). congruence.
  - assert (visible hw d k) as Hv by (intros ->; simpl in Ev; by apply negb_false_iff in Ev).
    destruct (may (flow_at k d)) eqn:Em; [|rewrite andb_false_r; intros Hh; eapply seen_iff; [|by apply (IH C)]; intros i; rewrite elem_of_cons;
      split; [tauto|]; intros [?|([->|?] & ? & ?)]; [auto|congruence|auto]].
    intros Hh. eapply seen_iff; [|apply (IH (fun i => C i \/ i = k)); [|done]]; [intros i; rewrite elem_of_cons; naive_solver|].
    destruct (first_invalid s) eqn:E; simpl; [|by apply seen_victim]. eapply seen_more; [| |exact Hs]; [auto|congruence].
Qed.

(** ** The parts of a bucket *)

(** [hash] is the index of the first way. *)
Definition bucket_start (hash : nat) : Prop := exists b, b < flowHashBuckets /\ hash = b * ways.
Definition hw_shown (hash : nat) (notTcam : bool) (d : fc) (i : nat) : Prop :=
  (i ∈ seq hash ways /\ live d i) \/ (fbMode_4K = true /\ notTcam = false /\ i ∈ tcam_bucket hash d).
Definition sw_shown (hash : nat) (d : fc) (i : nat) : Prop := 0 < shortcut_flow_count /\ i ∈ sw_bucket hash d.
(** Nothing free is left in a part. *)
Definition hw_full (hash : nat) (notTcam : bool) (d : fc) : Prop :=
  (forall i, i ∈ seq hash ways -> live d i \/ lock (ent (flow_at i d)) = true) /\
  (fbMode_4K = true -> notTcam = false -> forall i, i ∈ free_list (tcam d) -> lock (ent (flow_at (FLOWSRAM + i) d)) = true).
Definition sw_full (d : fc) : Prop := 0 < shortcut_flow_count -> free_list (swl d) = [].
Definition unused (d : fc) (i : nat) : Prop := i < flowSwTableSize /\ ~ live d i.
(** Entries in which a flow of the bucket is looked for. *)
Definition hw_place (hash : nat) (notTcam : bool) (i : nat) : Prop := i ∈ seq hash ways \/ (fbMode_4K = true /\ notTcam = false /\ is_tcam i = true).
Definition sw_place (i : nat) : Prop := 0 < shortcut_flow_count /\ is_sw i = true.
Definition place_for (hash : nat) (notTcam addSwOnly : bool) (i : nat) : Prop := (addSwOnly = false /\ hw_place hash notTcam i) \/ sw_place i.

Lemma way_bound hash i : bucket_start hash -> i ∈ seq hash ways -> i < flowHwTableSize /\ is_tcam i = false.
Proof.
  intros (b & Hb & ->) Hi%elem_of_seq. pose proof laws_ways. pose proof laws_sram.
  assert (b * ways + ways <= flowHashBuckets * ways) by nia. unfold is_tcam. destruct fbMode_4K; simpl; (split; [lia|]); [|done].
  apply andb_false_iff. left. apply Nat.leb_gt. lia.
Qed.
Lemma bucket_number hash : bucket_start hash -> hash / ways < flowHashBuckets.
Proof. intros (b & Hb & ->). rewrite Nat.div_mul; [done|]. by apply Nat.pow_nonzero. Qed.
Lemma tcam_bucket_bound hash d i : flows_ok d -> i ∈ tcam_bucket hash d -> is_tcam i = true.
Proof.
  intros Hd (j & -> & Hj)%list_elem_of_fmap. pose proof (part_bound _ _ (ok_tcam d Hd) (hash / ways) j Hj) as Hb.
  unfold tcam_size in Hb. apply is_tcam_spec. pose proof laws_sram. destruct fbMode_4K; [|lia]. split; [done|lia].
Qed.
Lemma sw_bucket_bound hash d i : flows_ok d -> i ∈ sw_bucket hash d -> is_sw i = true.
Proof.
  intros Hd (j & -> & Hj)%list_elem_of_fmap. pose proof (part_bound _ _ (ok_sw d Hd) _ j Hj) as Hb.
  apply is_sw_spec. unfold flowSwTableSize. lia.
Qed.
Lemma hw_shown_bound hash notTcam d i : flows_ok d -> bucket_start hash -> hw_shown hash notTcam d i -> i < flowHwTableSize.
Proof.
  intros Hd Hb [[Hi _]|(_ & _ & Hi)]; [by apply (way_bound hash)|]. apply tcam_bucket_bound in Hi; [|done]. apply is_tcam_spec in Hi; lia.
Qed.
Lemma sw_shown_bound hash d i : flows_ok d -> sw_shown hash d i -> i < flowSwTableSize.
Proof. intros Hd [_ Hi%sw_bucket_bound]; [|done]. apply is_sw_spec in Hi; lia. Qed.

Lemma tcam_free_unused d i : flows_ok d -> tcam_free_entry d = Some i -> unused d i /\ is_tcam i = true.
Proof.
  intros Hd [Hi _]%find_some. apply list_elem_of_In, list_elem_of_fmap in Hi as (j & -> & Hj).
  pose proof (part_free _ _ (ok_tcam d Hd) j Hj) as Hb. assert (is_tcam (FLOWSRAM + j) = true) as Ht.
  { apply is_tcam_spec. unfold tcam_size in Hb. pose proof laws_sram. destruct fbMode_4K; [split; [done|lia]|lia]. }
  split; [|done]. apply is_tcam_spec in Ht. split; [unfold flowSwTableSize; lia|by apply (ok_tcam_free d Hd)].
Qed.
Lemma tcam_free_none d : tcam_free_entry d = None -> forall i, i ∈ free_list (tcam d) -> lock (ent (flow_at (FLOWSRAM + i) d)) = true.
Proof.
  intros Hf i Hi. apply negb_false_iff. eapply find_none in Hf; [exact Hf|]. apply list_elem_of_In, list_elem_of_fmap. by exists i.
Qed.
Lemma sw_free_unused d i : flows_ok d -> sw_free_entry d = Some i -> unused d i /\ sw_place i.
Proof.
  intros Hd. unfold sw_free_entry. destruct (free_list (swl d)) as [|j l] eqn:E; [done|]. intros [= <-].
  assert (j ∈ free_list (swl d)) as Hj by (rewrite E; by left). pose proof (part_free _ _ (ok_sw d Hd) j Hj).
  split; [split; [unfold flowSwTableSize; lia|by apply (ok_sw_free d Hd)]|]. split; [lia|]. apply is_sw_spec. unfold flowSwTableSize. lia.
Qed.
Lemma hw_shown_place hash notTcam d i : flows_ok d -> hw_shown hash notTcam d i -> hw_place hash notTcam i.
Proof. intros Hd [[? _]|(? & ? & Hi)]; [by left|right]. by apply tcam_bucket_bound in Hi. Qed.
Lemma sw_shown_place hash d i : flows_ok d -> sw_shown hash d i -> sw_place i.
Proof. intros Hd [? Hi]. split; [done|]. by apply sw_bucket_bound in Hi. Qed.

(** ** The search *)

Definition scan_hw_post hash same notTcam addHwOnly forceGet d (s : scan) : Prop :=
  match flowHitIdx s with
  | Some i => hw_shown hash notTcam d i /\ same (flow_at i d) = true
  | None => (forall i, hw_shown hash notTcam d i -> same (flow_at i d) = false)
      /\ seen d (fun i => hw_shown hash notTcam d i /\ may_hw forceGet addHwOnly (flow_at i d) = true) s
      /\ (forall i, first_invalid s = Some i -> unused d i /\ hw_place hash notTcam i)
      /\ (first_invalid s = None -> hw_full hash notTcam d)
  end.
Lemma ways_post hash same notTcam addHwOnly forceGet d : flows_ok d -> bucket_start hash -> fbMode_4K && negb notTcam = false ->
  scan_hw_post hash same notTcam addHwOnly forceGet d (walk true same (may_hw forceGet addHwOnly) d (seq hash ways) scan0).
Proof.
  intros Hd Hb Hm. set (s := walk true _ _ _ _ _). pose proof (walk_hit true same (may_hw forceGet addHwOnly) d (seq hash ways) scan0 eq_refl) as Hh.
  assert (forall i, hw_shown hash notTcam d i <-> i ∈ seq hash ways /\ live d i) as Hs.
  { intros i. unfold hw_shown. split; [|auto]. intros [?|(H4 & Ht & _)]; [done|]. by rewrite H4, Ht in Hm. }
  fold s in Hh. unfold scan_hw_post. destruct (flowHitIdx s) eqn:E.
  - rewrite Hs. destruct Hh as (? & Hv & ?). split; [|done]. split; [done|by apply Hv].
  - split; [intros i [Hi ?]%Hs; apply Hh; [done|by intros _]|]. split; [|split].
    + eapply seen_iff; [|by apply (walk_seen _ _ _ _ _ _ _ (seen_scan0 d))]. intros i. rewrite Hs. unfold visible. naive_solver.
    + intros i [Hi|(_ & Hi & Hu & _)]%walk_invalid; [done|]. split; [|by left]. split; [|done]. apply (way_bound hash) in Hi as [? _]; [|done]. unfold flowSwTableSize. lia.
    + intros Hn. split; [by eapply walk_no_free|]. intros H4 Ht. by rewrite H4, Ht in Hm.
Qed.
Lemma tcam_post hash same notTcam addHwOnly forceGet d s : flows_ok d -> fbMode_4K = true -> notTcam = false -> flowHitIdx s = None ->
  scan_hw_post hash same true addHwOnly forceGet d s ->
  scan_hw_post hash same notTcam addHwOnly forceGet d
    (walk false same (may_hw forceGet addHwOnly) d (tcam_bucket hash d) (invalid_at (tcam_free_entry d) s)).
Proof.
  intros Hd Hm -> Hs. unfold scan_hw_post at 1. rewrite Hs. intros (Hw & Hseen & Hfree & Hfull). set (s1 := invalid_at _ _).
  assert (flowHitIdx s1 = None) as Hs1 by by (unfold s1; rewrite invalid_at_hit).
  assert (forall i, hw_shown hash false d i <-> hw_shown hash true d i \/ i ∈ tcam_bucket hash d) as Hsh by (intros i; unfold hw_shown; naive_solver).
  pose proof (walk_hit false same (may_hw forceGet addHwOnly) d (tcam_bucket hash d) s1 Hs1) as Hh. set (s2 := walk false _ _ _ _ _) in *.
  assert (forall i, visible false d i) as Hv by by intros i.
  unfold scan_hw_post. destruct (flowHitIdx s2) eqn:E; [destruct Hh as (? & _ & ?); rewrite Hsh; auto|].
  split; [intros i [Hi|Hi]%Hsh; auto|]. split; [|split].
  - eapply seen_iff; [|by apply (walk_seen _ _ _ _ _ _ _ (seen_invalid d _ (tcam_free_entry d) s Hseen))]. intros i. rewrite Hsh. naive_solver.
  - intros i [Hi|(? & _)]%walk_invalid; [|done]. unfold s1 in Hi. rewrite invalid_at_first in Hi.
    destruct (first_invalid s) eqn:Ef; [destruct (Hfree i) as [? [?|(_ & ? & _)]]; [congruence|split; [done|by left]|done]|].
    apply tcam_free_unused in Hi as [? ?]; [|done]. split; [done|by right].
  - intros Hn1. unfold s2 in Hn1. rewrite walk_list_first in Hn1.
    unfold s1 in Hn1. rewrite invalid_at_first in Hn1. destruct (first_invalid s) eqn:Ef; [done|]. destruct (Hfull eq_refl) as [Hf1 _].
    split; [done|]. intros _ _. by apply tcam_free_none.
Qed.
Lemma scan_hw_spec hash same notTcam addHwOnly forceGet d : flows_ok d -> bucket_start hash ->
  scan_hw_post hash same notTcam addHwOnly forceGet d (scan_hw hash same notTcam addHwOnly forceGet d).
Proof.
  intros Hd Hb. unfold scan_hw. destruct (fbMode_4K && negb notTcam) eqn:Hm; simpl.
  2: rewrite orb_true_r; by apply ways_post.
  apply andb_true_iff in Hm as [H4 Ht%negb_true_iff].
  pose proof (ways_post hash same true addHwOnly forceGet d Hd Hb (andb_false_r _)) as Hw. set (s := walk true _ _ _ _ _) in *.
  destruct (flowHitIdx s) eqn:E; simpl; [|by apply tcam_post].
  unfold scan_hw_post in *. rewrite E in *. unfold hw_shown in *. naive_solver.
Qed.

(** What the search knows at its end. *)
Definition shown (hash : nat) (notTcam addHwOnly addSwOnly : bool) (d : fc) (i : nat) : Prop :=
  (addSwOnly = false /\ hw_shown hash notTcam d i) \/ (addHwOnly = false /\ sw_shown hash d i).
Definition eligible (hash : nat) (notTcam addHwOnly addSwOnly forceGet : bool) (d : fc) (i : nat) : Prop :=
  (addSwOnly = false /\ hw_shown hash notTcam d i /\ may_hw forceGet addHwOnly (flow_at i d) = true)
  \/ (addHwOnly = false /\ sw_shown hash d i /\ may_sw (flow_at i d) = true).
Definition nothing_free (hash : nat) (notTcam addHwOnly addSwOnly : bool) (d : fc) : Prop :=
  (addSwOnly = false -> hw_full hash notTcam d) /\ (addHwOnly = false -> sw_full d).
(** Flows that may be replaced: of the bucket, and not static. *)
Definition replaceable (d : fc) (i : nat) : Prop := i < flowSwTableSize /\ static (flow_at i d) = false.
Definition bucket_flow (hash : nat) (d : fc) (i : nat) : Prop := hw_shown hash false d i \/ sw_shown hash d i.

Definition search_post hash same notTcam addHwOnly addSwOnly forceGet d (s : scan) : Prop :=
  match flowHitIdx s with
  | Some i => bucket_flow hash d i /\ same (flow_at i d) = true /\ (addHwOnly = false -> shown hash notTcam addHwOnly addSwOnly d i)
  | None => (forall i, shown hash notTcam addHwOnly addSwOnly d i -> same (flow_at i d) = false)
      /\ (exists C, seen d C s /\ (forall i, eligible hash notTcam addHwOnly addSwOnly forceGet d i -> C i) /\ (forall i, C i -> replaceable d i /\ place_for hash notTcam addSwOnly i))
      /\ (forall i, first_invalid s = Some i -> unused d i /\ place_for hash notTcam addSwOnly i)
      /\ (first_invalid s = None -> nothing_free hash notTcam addHwOnly addSwOnly d)
  end.

Lemma may_hw_static forceGet addHwOnly f : may_hw forceGet addHwOnly f = true -> static f = false.
Proof. unfold may_hw. by destruct (static f), forceGet, addHwOnly. Qed.
Lemma may_sw_static f : may_sw f = true -> static f = false.
Proof. unfold may_sw. by destruct (static f). Qed.

Lemma hw_search_post hash same notTcam addHwOnly forceGet d s : flows_ok d -> bucket_start hash ->
  (addHwOnly = true \/ shortcut_flow_count = 0) ->
  scan_hw_post hash same notTcam addHwOnly forceGet d s -> search_post hash same notTcam addHwOnly false forceGet d s.
Proof.
  intros Hd Hb Ho. unfold scan_hw_post, search_post. assert (forall i, addHwOnly = false -> ~ sw_shown hash d i) as Hno.
  { intros i Ha [? _]. destruct Ho; [congruence|lia]. }
  destruct (flowHitIdx s); [intros [? ?]; split; [left; unfold hw_shown in *; naive_solver|split; [done|by left]]|].
  intros (Hs & Hseen & Hfree & Hfull). split; [|split; [|split]].
  - intros i [[_ ?]|[? ?]]; [auto|by destruct (Hno i)].
  - eexists. split; [exact Hseen|]. split.
    + intros i [(_ & ? & ?)|(? & ? & _)]; [done|by destruct (Hno i)].
    + intros i [Hi Hm]. split; [|left; split; [done|by eapply hw_shown_place]].
      split; [apply hw_shown_bound in Hi; [unfold flowSwTableSize; lia|done..]|by eapply may_hw_static].
  - intros i [? ?]%Hfree. split; [done|by left].
  - intros Hn. split; [auto|]. intros -> ?. destruct Ho; [done|lia].
Qed.

(** The software part goes on with the scan of the others. *)
Lemma scan_sw_spec hash same notTcam addHwOnly addSwOnly forceGet d s : flows_ok d -> bucket_start hash -> 0 < shortcut_flow_count -> flowHitIdx s = None ->
  (addSwOnly = true /\ s = scan0 \/ addSwOnly = false /\ scan_hw_post hash same notTcam addHwOnly forceGet d s) ->
  search_post hash same notTcam addHwOnly addSwOnly forceGet d (scan_sw hash same d s).
Proof.
  intros Hd Hb Hpos Hs Hcase. unfold scan_sw. set (s1 := invalid_at _ _).
  assert (flowHitIdx s1 = None) as Hs1 by by (unfold s1; rewrite invalid_at_hit).
  pose proof (walk_hit false same may_sw d (sw_bucket hash d) s1 Hs1) as Hh. set (s2 := walk false _ _ _ _ _) in *.
  unfold search_post. destruct (flowHitIdx s2) eqn:E; [destruct Hh as (? & _ & ?); split; [right; done|split; [done|by right]]|].
  set (C := fun i => (addSwOnly = false /\ hw_shown hash notTcam d i /\ may_hw forceGet addHwOnly (flow_at i d) = true)).
  assert (seen d C s /\ (forall i, addSwOnly = false -> hw_shown hash notTcam d i -> same (flow_at i d) = false) /\
    (forall i, first_invalid s = Some i -> unused d i /\ place_for hash notTcam addSwOnly i) /\
    (first_invalid s = None -> addSwOnly = false -> hw_full hash notTcam d)) as (Hseen & Hhw & Hfree & Hfull).
  { destruct Hcase as [[-> ->]|[-> Hp]].
    - split; [|done]. eapply seen_iff; [|apply seen_scan0]. unfold C. naive_solver.
    - unfold scan_hw_post in Hp. rewrite Hs in Hp. destruct Hp as (? & Hseen & Hfr & ?). split; [|split; [auto|split; [|auto]]].
      + eapply seen_iff; [|exact Hseen]. unfold C. naive_solver.
      + intros i [? ?]%Hfr. split; [done|by left]. }
  assert (forall i, visible false d i) as Hv by by intros i.
  split; [intros i [[? ?]|[_ [_ ?]]]; auto|]. split; [|split].
  - exists (fun i => C i \/ (i ∈ sw_bucket hash d /\ visible false d i /\ may_sw (flow_at i d) = true)).
    split; [by apply (walk_seen _ _ _ _ _ _ _ (seen_invalid d _ (sw_free_entry d) s Hseen))|]. split.
    + intros i [?|(_ & [_ ?] & ?)]; [by left|right; auto].
    + intros i [(Ha & Hi & Hm)|(Hi & _ & Hm)].
      * split; [|left; split; [done|by eapply hw_shown_place]]. apply hw_shown_bound in Hi as Hb'; [|done..].
        split; [unfold flowSwTableSize; lia|by eapply may_hw_static].
      * assert (sw_shown hash d i) as Hsh by done. split; [|right; by eapply sw_shown_place].
        split; [by eapply sw_shown_bound|by apply may_sw_static].
  - intros i. unfold s2, s1. rewrite walk_list_first, invalid_at_first. destruct (first_invalid s) eqn:Ef; [intros [= <-]; auto|].
    intros [? ?]%sw_free_unused; [|done]. split; [done|by right].
  - unfold s2, s1. rewrite walk_list_first, invalid_at_first. destruct (first_invalid s) eqn:Ef; [done|]. intros Hn. split; [auto|].
    intros _ _. unfold sw_free_entry in Hn. by destruct (free_list (swl d)).
Qed.
Lemma search_entry_spec hash same notTcam addHwOnly addSwOnly forceGet d : flows_ok d -> bucket_start hash -> addHwOnly && addSwOnly = false ->
  search_post hash same notTcam addHwOnly addSwOnly forceGet d (search_entry hash same notTcam addHwOnly addSwOnly forceGet d).
Proof.
  intros Hd Hb Hx. unfold search_entry. destruct addSwOnly; simpl.
  - assert (addHwOnly = false) as -> by (by destruct addHwOnly). simpl. rewrite andb_true_r. destruct (Nat.ltb_spec 0 shortcut_flow_count).
    + apply scan_sw_spec; auto.
    + unfold search_post. simpl. assert (forall i, ~ sw_shown hash d i) as Hno by (intros i [? _]; lia). split; [|split; [|split]].
      * intros i [[? _]|[_ ?]]; [done|by destruct (Hno i)].
      * exists (fun _ => False). split; [apply seen_scan0|]. split; [|done]. intros i [[? _]|(_ & ? & _)]; [done|by destruct (Hno i)].
      * done.
      * intros _. split; [done|]. intros _ ?. lia.
  - pose proof (scan_hw_spec hash same notTcam addHwOnly forceGet d Hd Hb) as Hp. set (s := scan_hw _ _ _ _ _ _) in *. clearbody s.
    destruct (flowHitIdx s) eqn:E; simpl.
    + unfold search_post, scan_hw_post in *. rewrite E in *. destruct Hp. split; [left; unfold hw_shown in *; naive_solver|split; [done|by left]].
    + destruct (0 <? shortcut_flow_count) eqn:Ec; simpl; [apply Nat.ltb_lt in Ec|apply Nat.ltb_ge in Ec; apply hw_search_post; auto; right; lia].
      destruct (addHwOnly && negb (nothing_found s)) eqn:En; simpl; [|apply scan_sw_spec; auto].
      apply andb_true_iff in En as [-> _]. apply hw_search_post; auto.
Qed.

(** ** The choice *)

(** A flow that has been idle at least as long would also have been found. *)
Definition longest_idle hash notTcam addHwOnly addSwOnly forceGet d i : Prop :=
  forall j, eligible hash notTcam addHwOnly addSwOnly forceGet d j -> skips_ct d j = true -> (0 <= idle_of d j)%Z ->
    skips_ct d i = true /\ (idle_of d j <= idle_of d i)%Z.

(** The flow a scan without a match and without a free entry chooses. *)
Lemma choice_longest d C s i hash notTcam addHwOnly addSwOnly forceGet : seen d C s ->
  (forall j, eligible hash notTcam addHwOnly addSwOnly forceGet d j -> C j) -> first_invalid s = None -> longestIdleTimeFlowIdx s = Some i ->
  longest_idle hash notTcam addHwOnly addSwOnly forceGet d i.
Proof. intros [S1 S2 S3 S4 S5 S6] HC Hf Hi j Hj Hs Hp. destruct (S1 i Hi) as (_ & ? & <-). destruct (S5 Hf j (HC j Hj) Hs Hp). done. Qed.
Lemma choice_other d C s i hash notTcam addHwOnly addSwOnly forceGet : seen d C s ->
  (forall j, eligible hash notTcam addHwOnly addSwOnly forceGet d j -> C j) -> first_invalid s = None -> longestIdleTimeFlowIdx s = None ->
  longest_idle hash notTcam addHwOnly addSwOnly forceGet d i.
Proof. intros [S1 S2 S3 S4 S5 S6] HC Hf Hi j Hj Hs Hp. by destruct (S5 Hf j (HC j Hj) Hs Hp). Qed.
Lemma choice_none d C s hash notTcam addHwOnly addSwOnly forceGet : seen d C s ->
  (forall j, eligible hash notTcam addHwOnly addSwOnly forceGet d j -> C j) -> first_invalid s = None -> longestIdleTimeFlowIdx s = None ->
  nearestExpiryTimeFlowIdx s = None -> forall j, eligible hash notTcam addHwOnly addSwOnly forceGet d j -> (idle_of d j < 0)%Z.
Proof.
  intros [S1 S2 S3 S4 S5 S6] HC Hf Hi Hn j Hj. destruct (skips_ct d j) eqn:Ek; [|by destruct (S6 Hf j (HC j Hj) Ek)].
  destruct (Z_lt_ge_dec (idle_of d j) 0); [done|]. destruct (S5 Hf j (HC j Hj) Ek); [lia|done].
Qed.
Lemma delete_gone i d : flows_ok d -> i < flowSwTableSize -> ~ live (rtk_fc_flow_delete i d).2 i.
Proof. intros Hd Hi [_ Hn]%delete_live; [|done]. specialize (Hn eq_refl). lia. Qed.
Definition replaced (i : nat) (d : fc) : fc := log REC_FLOW_LRU (rtk_fc_flow_delete i d).2.

(** What a caller needs to know of the answer. *)
Lemma free_entry_cases hash e g isMulticast notTcam addHwOnly addSwOnly forceGet d : flows_ok d -> bucket_start hash ->
  match _rtk_fc_flow_freeEntry_get hash e g isMulticast notTcam addHwOnly addSwOnly forceGet d with
  | (RTK_FC_RET_ERR_ENTRY_EXIST, Some i, d') => i < flowSwTableSize /\ d' = on_flow (delay_hit g) i d /\
      _rtk_fc_flow_matchOrNot (dual_pt_flowMapTbl d) (flow_at i d) e g isMulticast = true /\
      (addHwOnly = false -> shown hash notTcam addHwOnly addSwOnly d i)
  | (RTK_FC_RET_OK, Some i, d') => unused d i /\ place_for hash notTcam addSwOnly i /\ d' = d
  | (RTK_FC_RET_ERR_FLOW_LRU, Some i, d') => replaceable d i /\ place_for hash notTcam addSwOnly i /\ d' = replaced i d
  | (r, o, d') => o = None /\ d' = d
  end.
Proof.
  intros Hd Hb. unfold _rtk_fc_flow_freeEntry_get. destruct (addHwOnly && addSwOnly) eqn:Hx; [done|].
  set (m c := _rtk_fc_flow_matchOrNot (dual_pt_flowMapTbl d) c e g isMulticast).
  pose proof (search_entry_spec hash m notTcam addHwOnly addSwOnly forceGet d Hd Hb Hx) as Hp. set (s := search_entry _ _ _ _ _ _ _) in *.
  unfold search_post in Hp. destruct (flowHitIdx s) as [i|] eqn:Eh.
  { destruct Hp as ([Hi|Hi] & Hm & Hs); (split; [|done]); [apply hw_shown_bound in Hi; [unfold flowSwTableSize; lia|done..]|by eapply sw_shown_bound]. }
  destruct Hp as (_ & (C & Hseen & _ & Hr) & Hfree & _). destruct (first_invalid s) as [i|] eqn:Ef; [by destruct (Hfree i eq_refl)|].
  assert (forall i, C i -> replaceable d i /\ place_for hash notTcam addSwOnly i /\ replaced i d = replaced i d) as Hlru by (intros i [? ?]%Hr; done).
  destruct (longestIdleTimeFlowIdx s) as [i|] eqn:El; [by apply Hlru, (seen_longest _ _ _ Hseen)|].
  destruct (nearestExpiryTimeFlowIdx s) as [i|] eqn:En; [by apply Hlru, (seen_nearest _ _ _ Hseen)|].
  destruct (first_dynamic s) as [i|] eqn:Edy; [|done]. destruct forceGet; [|done]. by apply Hlru, (seen_dynamic _ _ _ Hseen).
Qed.
End Find.
