(* ===== verification/FcFlowSteps.v ===== *)
(** * Steps that only delete and mark flows

    [thins U P d d']: the step keeps the table in order, brings no flow to life, and each
    flow either stays, on its list, changed at most as [U] says, or is gone and [P] allowed
    that.  The relation is a preorder ([thins_trans]), so a walk over flows has it when its
    visits have it ([thins_each]); and what the visits settle stays settled
    ([each_settles]). *)
From stdpp Require Import gmap.
From S2P Require Import Prelude FcLists FcFlowKey FcFlowSide FcFlow FcFlowAdd FcFlowFlush FcFlowInv FcFlowFind.
Open Scope nat_scope.

Section Thins.
Context `{FlowChecks} `{FlowSideConfig} `{Env : FlowEnv} `{!FlowLaws}.

(** The flow is among those that a walk visits in the bucket. *)
Definition on_tcam (d : fc) (b i : nat) : Prop := i ∈ Nat.add FLOWSRAM <$> bucket_list b (tcam d).
Definition on_sw (d : fc) (l i : nat) : Prop := i ∈ Nat.add flowHwTableSize <$> bucket_list l (swl d).
Definition in_bucket (d : fc) (b i : nat) : Prop :=
  i ∈ seq (b * ways) ways \/ (fbMode_4K = true /\ on_tcam d b i) \/ (exists l, l ∈ SW_FLOW_LISTS_IN_BUCKET b /\ on_sw d l i).
Definition stays (d d' : fc) (i : nat) : Prop := (forall b, on_tcam d b i -> on_tcam d' b i) /\ (forall l, on_sw d l i -> on_sw d' l i).

Lemma has_bucket d i : flows_ok d -> live d i -> exists b, b < flowHashBuckets /\ in_bucket d b i.
Proof.
  intros Hd Hl. pose proof (live_bound d i Hd Hl) as Hb. destruct (is_sw i) eqn:Es; [|destruct (is_tcam i) eqn:Et].
  - apply is_sw_spec in Es as [Hlo Hhi]. pose proof (sw_index i (proj2 (is_sw_spec i) (conj Hlo Hhi))) as Hi.
    apply (part_member _ _ (ok_sw d Hd)), members_spec in Hi as [Hi|[h Hi]].
    + destruct (ok_sw_free d Hd _ Hi). by replace (flowHwTableSize + (i - flowHwTableSize)) with i by lia.
    + pose proof (bucket_inside _ _ _ Hi) as Hh. rewrite (ok_sw_chains d Hd) in Hh.
      assert (h ∈ concat (SW_FLOW_LISTS_IN_BUCKET <$> seq 0 flowHashBuckets)) as Hc by (rewrite laws_walk; apply elem_of_seq; lia).
      apply list_elem_of_In, in_concat in Hc as (l & Hl' & Hhl). apply list_elem_of_In, list_elem_of_fmap in Hl' as (b & -> & Hb'%elem_of_seq).
      exists b. split; [lia|]. right. right. exists h. split; [by apply list_elem_of_In|]. apply list_elem_of_fmap.
      exists (i - flowHwTableSize). split; [lia|done].
  - pose proof (proj1 (is_tcam_spec i) Et) as [H4 [Hlo Hhi]]. pose proof (tcam_index i Et) as Hi.
    apply (part_member _ _ (ok_tcam d Hd)), members_spec in Hi as [Hi|[h Hi]].
    + destruct (ok_tcam_free d Hd _ Hi). by replace (FLOWSRAM + (i - FLOWSRAM)) with i by lia.
    + pose proof (bucket_inside _ _ _ Hi) as Hh. rewrite (ok_tcam_chains d Hd) in Hh.
      exists h. split; [done|]. right. left. split; [done|]. apply list_elem_of_fmap. exists (i - FLOWSRAM). split; [lia|done].
  - assert (i < flowHashBuckets * ways) as Hi.
    { rewrite laws_ways. assert (i < flowHwTableSize) by (destruct (Nat.lt_ge_cases i flowHwTableSize); [done|];
        destruct (proj2 (not_true_iff_false _) Es); by apply is_sw_spec).
      unfold is_tcam in Et. destruct fbMode_4K; [|done]. simpl in Et. apply andb_false_iff in Et as [Et|Et]; [by apply Nat.leb_gt in Et|].
      apply Nat.ltb_ge in Et. lia. }
    exists (i / ways). assert (ways <> 0) by by apply Nat.pow_nonzero. split; [apply Nat.Div0.div_lt_upper_bound; lia|]. left. apply elem_of_seq.
    pose proof (Nat.div_mod_eq i ways). pose proof (Nat.mod_upper_bound i ways). lia.
Qed.

Context (U : flow -> flow -> Prop) (P : nat -> flow -> Prop).

Definition thins (d d' : fc) : Prop := flows_ok d -> flows_ok d' /\ (forall j, live d' j -> live d j) /\
  forall j, live d j -> (U (flow_at j d) (flow_at j d') /\ live d' j /\ stays d d' j) \/ (P j (flow_at j d) /\ ~ live d' j).
Definition settled (d : fc) (j : nat) : Prop := ~ (live d j /\ P j (flow_at j d)).

Context (Hrefl : forall f, U f f) (Htrans : forall f f' f'', U f f' -> U f' f'' -> U f f'').
Context (Huse : forall f f', U f f' -> mild f f') (Hback : forall j f f', U f f' -> P j f' -> P j f).

Lemma thins_refl d : thins d d.
Proof. intros Hd. split; [done|]. split; [done|]. intros j Hj. left. split; [apply Hrefl|done]. Qed.
Lemma thins_trans d d' d'' : thins d d' -> thins d' d'' -> thins d d''.
Proof.
  intros T T' Hd. destruct (T Hd) as (Hd' & Hl & Hf). destruct (T' Hd') as (Hd'' & Hl' & Hf'). split; [done|]. split; [auto|].
  intros j Hj. destruct (Hf j Hj) as [(Hu & Hj' & Hb)|[Hp Hn]]; [|right; auto].
  destruct (Hf' j Hj') as [(Hu' & Hj'' & Hb')|[Hp' Hn']]; [left|right]; (split; [by eauto|]); [|done].
  split; [done|]. split; intros b ?; [by apply Hb', Hb|by apply Hb', Hb].
Qed.
Lemma thins_settled d d' j : flows_ok d -> thins d d' -> settled d j -> settled d' j.
Proof.
  intros Hd T Hs [Hl Hp]. destruct (T Hd) as (_ & Hl' & Hf). destruct (Hf j (Hl' j Hl)) as [(Hu & _ & _)|[_ Hn]]; [|done].
  apply Hs. split; [auto|]. by eapply Hback.
Qed.

Lemma stays_core d d' j : tcam d' = tcam d -> swl d' = swl d -> stays d d' j.
Proof. unfold stays, on_tcam, on_sw. by intros -> ->. Qed.
Lemma alter_out {A} (f : A -> A) i (l : list A) : length l <= i -> alter f i l = l.
Proof.
  intros Hi. apply list_eq. intros j. destruct (decide (j = i)) as [->|Hn]; [|by rewrite list_lookup_alter_ne].
  rewrite list_lookup_alter_eq. by rewrite lookup_ge_None_2.
Qed.
Lemma touch_ok (Q : flow -> flow -> Prop) i d d' : (forall f f', Q f f' -> mild f f') -> touch Q i d d' -> flows_ok d -> flows_ok d'.
Proof.
  intros HQ (g & E & Hg) Hd. assert (forall j, live d' j <-> live d j) as Hl.
  { intros j. unfold live, flow_at. injection E as -> _ _ _. destruct (Nat.lt_ge_cases i (length (flowTbl d))).
    - rewrite nth_alter by done. case_decide; [|done]. by rewrite (proj1 (HQ _ _ (Hg _))).
    - by rewrite alter_out. }
  assert (forall j, ~ live d j -> bare (flow_at j d')) as Hbare.
  { intros j Hj%(ok_bare d Hd). revert Hj. unfold flow_at. injection E as -> _ _ _. destruct (Nat.lt_ge_cases i (length (flowTbl d))).
    - rewrite nth_alter by done. case_decide; [|done]. apply (HQ _ _ (Hg _)).
    - by rewrite alter_out. }
  injection E as E1 E2 E3 E4. destruct Hd. split; rewrite ?E1, ?E2, ?E3, ?E4, ?length_alter; try done; intros j; rewrite Hl; auto.
Qed.
Lemma touch_flow Q i d d' j : touch Q i d d' -> (i <> j -> flow_at j d' = flow_at j d) /\ (Q (flow_at i d) (flow_at i d') \/ flow_at i d' = flow_at i d).
Proof.
  intros (g & E & Hg). unfold flow_at. injection E as -> _ _ _. destruct (Nat.lt_ge_cases i (length (flowTbl d))).
  - rewrite !nth_alter by done. rewrite (decide_True (P := i = i)) by done. split; [|by left]. intros Hn. by rewrite decide_False.
  - rewrite alter_out by done. auto.
Qed.
Lemma thins_touch i d d' : touch U i d d' -> thins d d'.
Proof.
  intros T Hd. pose proof (touch_ok U i d d' Huse T Hd) as Hd'.
  assert (forall j, U (flow_at j d) (flow_at j d')) as Hu.
  { intros j. destruct (touch_flow U i d d' j T) as [Ho Hs]. destruct (decide (i = j)) as [<-|Hn]; [|rewrite Ho by done; apply Hrefl].
    destruct Hs as [?| ->]; [done|apply Hrefl]. }
  split; [done|]. split; [intros j; unfold live; by rewrite (proj1 (Huse _ _ (Hu j)))|]. intros j Hj. left. split; [done|].
  split; [unfold live; by rewrite (proj1 (Huse _ _ (Hu j)))|]. destruct T as (g & [= _ E2 E3 _] & _). by apply stays_core.
Qed.
Lemma thins_delete i d : (live d i -> P i (flow_at i d)) -> thins d (rtk_fc_flow_delete i d).2.
Proof.
  intros HP Hd. split; [by apply delete_ok|]. split; [by intros j [? _]%delete_live|]. intros j Hj. destruct (decide (i = j)) as [<-|Hn].
  - right. split; [auto|]. intros [_ Hi]%delete_live; [|done]. pose proof (live_bound d i Hd Hj). specialize (Hi eq_refl). lia.
  - left. rewrite delete_flow_other by done. split; [apply Hrefl|]. split; [by apply delete_live|].
    destruct (delete_cases i d) as [(E & Hi & _)|[-> _]]; [|done]. unfold core, deleted, lists_free in E. injection E as _ E2 E3 _.
    split; intros b (k & -> & Hk)%list_elem_of_fmap; apply list_elem_of_fmap; exists k; (split; [done|]).
    + rewrite E2. destruct (is_tcam i) eqn:Et; [|done]. apply bucket_free_at. split; [done|]. apply is_tcam_spec in Et. lia.
    + rewrite E3. destruct (is_sw i) eqn:Et; [|done]. apply bucket_free_at. split; [done|]. apply is_sw_spec in Et. lia.
Qed.

(** A flow that is settled, or still is on its list. *)
Lemma stays_or_settled (Q : fc -> Prop) d d' j : flows_ok d -> thins d d' -> (stays d d' j -> Q d -> Q d') -> settled d j \/ Q d -> settled d' j \/ Q d'.
Proof.
  intros Hd T HQ [Hs|Hj]; [left; exact (thins_settled d d' j Hd T Hs)|]. destruct (decide (in_use (flow_at j d') = true)) as [Hl|Hn].
  - destruct (T Hd) as (_ & Hl' & Hf). destruct (Hf j (Hl' j Hl)) as [(_ & _ & Hb)|[_ Hn]]; [right; auto|done].
  - left. by intros [? _].
Qed.
(** ** Walks *)

Lemma thins_each (f : nat -> fc -> fc) l d : flows_ok d -> (forall i d, flows_ok d -> i ∈ l -> thins d (f i d)) -> thins d (each f l d).
Proof.
  unfold each. revert d. induction l as [|i l IH]; intros d Hd Hf; simpl; [apply thins_refl|].
  assert (thins d (f i d)) as T by (apply Hf; [done|by left]). eapply thins_trans; [exact T|]. apply IH; [by apply T|].
  intros k d1 Hd1 Hk. apply Hf; [done|by right].
Qed.
Lemma each_settles (f : nat -> fc -> fc) l d j : flows_ok d -> (forall i d, flows_ok d -> i ∈ l -> thins d (f i d)) ->
  j ∈ l -> (forall d, flows_ok d -> settled (f j d) j) -> settled (each f l d) j.
Proof.
  unfold each. revert d. induction l as [|i l IH]; intros d Hd Hf Hj Hs; [by apply elem_of_nil in Hj|]. simpl.
  assert (thins d (f i d)) as T by (apply Hf; [done|by left]). assert (flows_ok (f i d)) as Hd1 by by apply T.
  assert (forall k d, flows_ok d -> k ∈ l -> thins d (f k d)) as Hf' by (intros k d1 Hd' Hk; apply Hf; [done|by right]).
  apply elem_of_cons in Hj as [->|Hj]; [|by apply IH]. eapply thins_settled; [exact Hd1|by apply (thins_each f l)|]. by apply Hs.
Qed.

(** The entries of the three parts. *)
Definition is_way (i : nat) : bool := negb (is_tcam i) && negb (is_sw i).
Lemma way_is_way b i : b < flowHashBuckets -> i ∈ seq (b * ways) ways -> is_way i = true.
Proof.
  intros Hb Hi. apply (way_bound (b * ways)) in Hi as [Hi Ht]; [|by exists b]. unfold is_way. rewrite Ht. simpl.
  apply negb_true_iff, not_true_iff_false. rewrite is_sw_spec. lia.
Qed.
Lemma tcam_part d b i : flows_ok d -> i ∈ Nat.add FLOWSRAM <$> bucket_list b (tcam d) -> is_tcam i = true.
Proof.
  intros Hd Hi. apply (tcam_bucket_bound (b * ways) d); [done|]. unfold tcam_bucket. rewrite Nat.div_mul by (by apply Nat.pow_nonzero). done.
Qed.
Lemma sw_part d l i : flows_ok d -> i ∈ Nat.add flowHwTableSize <$> bucket_list l (swl d) -> is_sw i = true.
Proof.
  intros Hd (j & -> & Hj)%list_elem_of_fmap. pose proof (part_bound _ _ (ok_sw d Hd) _ j Hj) as Hb.
  apply is_sw_spec. unfold flowSwTableSize. lia.
Qed.

Section Visits.
Context (hw tc sf : nat -> fc -> fc).
Context (Vhw : forall i d, flows_ok d -> is_way i = true -> thins d (hw i d))
  (Vtc : forall i d, flows_ok d -> is_tcam i = true -> thins d (tc i d))
  (Vsf : forall i d, flows_ok d -> is_sw i = true -> thins d (sf i d)).

Lemma thins_ways b d : flows_ok d -> b < flowHashBuckets -> thins d (each hw (seq (b * ways) ways) d).
Proof. intros Hd Hb. apply thins_each; [done|]. intros i d' Hd' Hi. apply Vhw; [done|]. by eapply way_is_way. Qed.
Lemma thins_tcam b d : flows_ok d -> thins d (if fbMode_4K then each tc (Nat.add FLOWSRAM <$> bucket_list b (tcam d)) d else d).
Proof.
  intros Hd. destruct fbMode_4K; [|apply thins_refl]. apply thins_each; [done|]. intros i d' Hd' Hi. apply Vtc; [done|]. exact (tcam_part d b i Hd Hi).
Qed.
Lemma thins_list l d : flows_ok d -> thins d (each sf (Nat.add flowHwTableSize <$> bucket_list l (swl d)) d).
Proof. intros Hd. apply thins_each; [done|]. intros i d' Hd' Hi. apply Vsf; [done|]. exact (sw_part d l i Hd Hi). Qed.
Lemma thins_lists b d : flows_ok d ->
  thins d (each (fun l d => each sf (Nat.add flowHwTableSize <$> bucket_list l (swl d)) d) (SW_FLOW_LISTS_IN_BUCKET b) d).
Proof. intros Hd. apply thins_each; [done|]. intros l d' Hd' _. by apply thins_list. Qed.
Lemma thins_bucket b d : flows_ok d -> b < flowHashBuckets -> thins d (each_of_bucket hw tc sf b d).
Proof.
  intros Hd Hb. unfold each_of_bucket. pose proof (thins_ways b d Hd Hb) as T1. set (d1 := each hw _ d) in *.
  assert (flows_ok d1) as Hd1 by by apply T1. pose proof (thins_tcam b d1 Hd1) as T2. set (d2 := if fbMode_4K then _ else _) in *.
  assert (flows_ok d2) as Hd2 by by apply T2. eapply thins_trans; [exact T1|]. eapply thins_trans; [exact T2|]. by apply thins_lists.
Qed.
Lemma thins_buckets l d : flows_ok d -> (forall b, b ∈ l -> b < flowHashBuckets) -> thins d (each (each_of_bucket hw tc sf) l d).
Proof. intros Hd Hl. apply thins_each; [done|]. intros b d' Hd' Hb. apply thins_bucket; auto. Qed.

Context (Shw : forall i d, flows_ok d -> is_way i = true -> settled (hw i d) i)
  (Stc : forall i d, flows_ok d -> is_tcam i = true -> settled (tc i d) i)
  (Ssf : forall i d, flows_ok d -> is_sw i = true -> settled (sf i d) i).

Lemma ways_settle b d j : flows_ok d -> b < flowHashBuckets -> j ∈ seq (b * ways) ways -> settled (each hw (seq (b * ways) ways) d) j.
Proof.
  intros Hd Hb Hj. apply each_settles; [done| |done|].
  - intros i d' Hd' Hi. apply Vhw; [done|]. by eapply way_is_way.
  - intros d' Hd'. apply Shw; [done|]. by eapply way_is_way.
Qed.
Lemma tcam_settle b d j : flows_ok d -> fbMode_4K = true -> on_tcam d b j ->
  settled (if fbMode_4K then each tc (Nat.add FLOWSRAM <$> bucket_list b (tcam d)) d else d) j.
Proof.
  intros Hd -> Hj. apply each_settles; [done| |done|].
  - intros i d' Hd' Hi. apply Vtc; [done|]. exact (tcam_part d b i Hd Hi).
  - intros d' Hd'. apply Stc; [done|]. exact (tcam_part d b j Hd Hj).
Qed.
Definition sw_lists (l : list nat) (d : fc) : fc := each (fun l d => each sf (Nat.add flowHwTableSize <$> bucket_list l (swl d)) d) l d.
Lemma lists_settle j h l d : flows_ok d -> h ∈ l -> settled d j \/ on_sw d h j -> settled (sw_lists l d) j.
Proof.
  revert d. induction l as [|k l IH]; intros d Hd Hh Hj; [by apply elem_of_nil in Hh|]. change (sw_lists (k :: l) d) with
    (sw_lists l (each sf (Nat.add flowHwTableSize <$> bucket_list k (swl d)) d)).
  set (d1 := each sf _ d). assert (thins d d1) as T by by apply thins_list. assert (flows_ok d1) as Hd1 by by apply T.
  apply elem_of_cons in Hh as [->|Hh]; [|apply IH; [done..|]; eapply (stays_or_settled (fun d => on_sw d h j)); [exact Hd|done| |done]; intros Hst; apply Hst].
  assert (settled d1 j) as Hs.
  { destruct Hj as [Hs|Hj]; [exact (thins_settled d d1 j Hd T Hs)|]. unfold d1. apply each_settles; [done| |done|].
    - intros i d' Hd' Hi. apply Vsf; [done|]. exact (sw_part d k i Hd Hi).
    - intros d' Hd'. apply Ssf; [done|]. exact (sw_part d k j Hd Hj). }
  eapply thins_settled; [exact Hd1| |exact Hs]. apply thins_each; [done|]. intros; by apply thins_list.
Qed.
Lemma bucket_settles b d j : flows_ok d -> b < flowHashBuckets -> settled d j \/ in_bucket d b j -> settled (each_of_bucket hw tc sf b d) j.
Proof.
  intros Hd Hb Hj. unfold each_of_bucket. pose proof (thins_ways b d Hd Hb) as T1. set (d1 := each hw _ d) in *.
  assert (flows_ok d1) as Hd1 by by apply T1. pose proof (thins_tcam b d1 Hd1) as T2. set (d2 := if fbMode_4K then _ else _) in *.
  assert (flows_ok d2) as Hd2 by by apply T2. pose proof (thins_lists b d2 Hd2) as T3.
  assert (settled d1 j -> settled (sw_lists (SW_FLOW_LISTS_IN_BUCKET b) d2) j) as G1
    by (intros Hs; eapply thins_settled; [exact Hd2|exact T3|]; eapply thins_settled; [exact Hd1|exact T2|done]).
  assert (settled d2 j -> settled (sw_lists (SW_FLOW_LISTS_IN_BUCKET b) d2) j) as G2 by (intros Hs; eapply thins_settled; [exact Hd2|exact T3|done]).
  destruct Hj as [Hs|[Hw|[[H4 Ht]|(l & Hl & Hs)]]].
  - apply G1. exact (thins_settled d d1 j Hd T1 Hs).
  - apply G1. by apply ways_settle.
  - eapply (stays_or_settled (fun d => on_tcam d b j)) in T1; [|exact Hd|intros Hst; apply Hst|by right].
    destruct T1 as [Hs|Ht']; [by apply G1|]. apply G2. by apply tcam_settle.
  - eapply (stays_or_settled (fun d => on_sw d l j)) in T1; [|exact Hd|intros Hst; apply Hst|by right].
    eapply (stays_or_settled (fun d => on_sw d l j)) in T2; [|exact Hd1|intros Hst; apply Hst|exact T1]. by eapply lists_settle.
Qed.
End Visits.

(** ** All buckets *)

Section Buckets.
Context (f : nat -> fc -> fc) (Tf : forall b d, flows_ok d -> b < flowHashBuckets -> thins d (f b d))
  (Sf : forall b d j, flows_ok d -> b < flowHashBuckets -> settled d j \/ in_bucket d b j -> settled (f b d) j).

Lemma each_bucket_settles l d j b : flows_ok d -> (forall b, b ∈ l -> b < flowHashBuckets) -> b ∈ l -> settled d j \/ in_bucket d b j ->
  settled (each f l d) j.
Proof.
  revert d. induction l as [|k l IH]; intros d Hd Hl Hb Hj; [by apply elem_of_nil in Hb|]. unfold each. simpl. fold (each f l).
  assert (k < flowHashBuckets) as Hk by (apply Hl; by left). assert (forall b, b ∈ l -> b < flowHashBuckets) as Hl' by (intros; apply Hl; by right).
  pose proof (Tf k d Hd Hk) as T. set (d1 := f k d) in *. assert (flows_ok d1) as Hd1 by by apply T.
  apply elem_of_cons in Hb as [->|Hb].
  - eapply thins_settled; [exact Hd1|by apply thins_each; [|auto]|]. by apply Sf.
  - apply IH; [done..|]. eapply (stays_or_settled (fun d => in_bucket d b j)); [exact Hd|exact T| |done].
    intros [St Ss] [?|[[? ?]|(h & ? & ?)]]; [by left|right; left; auto|right; right; eauto].
Qed.
(** After all buckets every flow is settled. *)
Lemma every_bucket_settled d j : flows_ok d -> settled (each f (seq 0 flowHashBuckets) d) j.
Proof.
  intros Hd. assert (forall b, b ∈ seq 0 flowHashBuckets -> b < flowHashBuckets) as Hin by (intros b ?%elem_of_seq; lia).
  destruct (decide (in_use (flow_at j d) = true)) as [Hl|Hn].
  - destruct (has_bucket d j Hd Hl) as (b & Hb & Hj). apply (each_bucket_settles _ d j b); [done|done|apply elem_of_seq; lia|by right].
  - intros [Hl _]. apply Hn. apply (thins_each f (seq 0 flowHashBuckets) d Hd); auto.
Qed.
End Buckets.
Lemma all_settled hw tc sf d j :
  (forall i d, flows_ok d -> is_way i = true -> thins d (hw i d) /\ settled (hw i d) i) ->
  (forall i d, flows_ok d -> is_tcam i = true -> thins d (tc i d) /\ settled (tc i d) i) ->
  (forall i d, flows_ok d -> is_sw i = true -> thins d (sf i d) /\ settled (sf i d) i) ->
  flows_ok d -> settled (each (each_of_bucket hw tc sf) (seq 0 flowHashBuckets) d) j.
Proof.
  intros Vh Vt Vs Hd. apply every_bucket_settled; [| |done].
  - intros b d1 Hd1 Hb. apply thins_bucket; [intros; by apply Vh|intros; by apply Vt|intros; by apply Vs|done|done].
  - intros b d1 j1 Hd1 Hb Hj. apply bucket_settles; [intros; by apply Vh|intros; by apply Vt|intros; by apply Vs|intros; by apply Vh|intros; by apply Vt|intros; by apply Vs|done..].
Qed.
End Thins.
