(* ===== verification/FcFlowSafe.v ===== *)
(** * Every operation keeps the table in order, and static flows stay

    The steps of the flow table as a relation ([step]): adding, deleting, house keeping and
    the walks.  [flows_ok] holds in every state they lead to; and those that do not name
    their flows ([gentle]) never take away a static flow, nor change what it matches. *)
From stdpp Require Import gmap.
From S2P Require Import Prelude FcLists FcFlowKey FcFlowSide FcFlowSideSpec FcFlow FcFlowAdd FcFlowFlush FcFlowInv FcFlowSmall FcFlowFind FcFlowSteps.
Open Scope nat_scope.

Section Safe.
Context `{FlowChecks} `{FlowSideConfig} `{Env : FlowEnv} `{!FlowLaws}.

(** ** Pinned flows *)

(** Static and unicast: [forceUpdate] of the house keeping. *)
Abbreviation pinned := force_update.
(** The action without the two fields a packet of a known flow may bring up to date in the
    kernel-delay mode: the stream and the user priority. *)
Definition fixed_action (a : egr_action) : egr_action :=
  Egr (out_l4_act a) (out_l4_direction a) (out_dst_ipv4_addr a) (out_l4_port a) (out_intf_idx a) (out_dmac_idx a) (out_dmac_trans a)
    (out_uc_lut_lookup a) (out_ext_portmask_idx a) (out_portmask a) (out_svlan_id a) (out_spri a) (out_cvlan_id a) (out_cpri a)
    0 0 0 0 (out_multiple_act a).
(** The flow matches the same packets as before, sends them the same way and as the same
    flow, and is as static: its entry but for the stream and the priority, the fields of
    software, and the flags that say what it is. *)
Definition unmoved (f f' : flow) : Prop :=
  (in_use f' = in_use f /\ igr (ent f') = igr (ent f) /\ in_path (ent f') = in_path (ent f) /\ in_multiple_act (ent f') = in_multiple_act (ent f) /\
   static f' = static f /\ FLOW_INFO_IS_SET f' MC_ENTRY = FLOW_INFO_IS_SET f MC_ENTRY /\
   FLOW_INFO_IS_SET f' ACL_PRI_FWD = FLOW_INFO_IS_SET f ACL_PRI_FWD /\ protoCtrl f' = protoCtrl f) /\
  (valid (ent f') = valid (ent f) /\ lock (ent f') = lock (ent f) /\ fixed_action (egr (ent f')) = fixed_action (egr (ent f)) /\ sw f' = sw f /\
   path5_ds_bucket_idx f' = path5_ds_bucket_idx f /\ vlan_filtering_pvid_lutivlsel f' = vlan_filtering_pvid_lutivlsel f).
Abbreviation unpinned := (fun (_ : nat) f => pinned f = false).
Abbreviation moves := (thins unmoved unpinned).

Lemma unmoved_refl f : unmoved f f. Proof. done. Qed.
Lemma unmoved_trans f f' f'' : unmoved f f' -> unmoved f' f'' -> unmoved f f''.
Proof.
  unfold unmoved. intros [(-> & -> & -> & -> & -> & -> & -> & ->) (-> & -> & -> & -> & -> & ->)].
  intros [(-> & -> & -> & -> & -> & -> & -> & ->) (-> & -> & -> & -> & -> & ->)]. done.
Qed.
Lemma unmoved_use f f' : unmoved f f' -> mild f f'.
Proof. intros [(? & _ & _ & _ & _ & _ & Ha & Hp) _]. split; [done|]. unfold bare. by rewrite Ha, Hp. Qed.
Lemma unmoved_pinned f f' : unmoved f f' -> pinned f' = pinned f.
Proof. unfold unmoved, pinned. intros [(_ & _ & _ & _ & -> & -> & _) _]. done. Qed.
Lemma unmoved_back (j : nat) f f' : unmoved f f' -> pinned f' = false -> pinned f = false.
Proof. by intros ->%unmoved_pinned. Qed.
Hint Resolve unmoved_refl unmoved_trans unmoved_use unmoved_back : core.

Lemma info_other x y v f : x <> y -> FLOW_INFO_IS_SET (FLOW_INFO_SET x v f) y = FLOW_INFO_IS_SET f y.
Proof.
  intros Hn. unfold FLOW_INFO_IS_SET, FLOW_INFO_SET, set_infos. simpl. apply bool_decide_ext.
  destruct v; rewrite ?elem_of_cons, list_elem_of_filter; naive_solver.
Qed.
Lemma unmoved_info x v f : x <> STATIC_ENTRY -> x <> MC_ENTRY -> x <> ACL_PRI_FWD -> unmoved f (FLOW_INFO_SET x v f).
Proof. intros Hs Hm Ha. unfold unmoved, static. rewrite !info_other by done. by destruct f. Qed.

(** ** Visits of the house keeping *)

Lemma core_note_traffic i trf d : core (note_traffic i trf d) = core d.
Proof. unfold note_traffic. by case_match. Qed.
Lemma flow_note_traffic i j trf d : flow_at j (note_traffic i trf d) = flow_at j d.
Proof. apply core_flow_at, core_note_traffic. Qed.
Lemma touch_idle n i d : touch unmoved i d (on_flow (set_idle n) i d).
Proof. by apply touch_on. Qed.
Lemma touch_detach i d : touch unmoved i d (rtk_fc_flow_ct_detach i d).
Proof.
  unfold rtk_fc_flow_ct_detach. destruct (cachedCt _) as [ct|]; [|by apply touch_core].
  eapply touch_core_l; [|apply touch_on]; [done|]. intros f.
  apply (unmoved_trans f (FLOW_INFO_SET SKIP_CT true f)); [by apply unmoved_info|done].
Qed.

(** What a decision may have done. *)
Definition visit_ok (i : nat) (d : fc) (v : visit) : Prop :=
  match v with Keep d' => touch unmoved i d d' | Timeout d' => touch unmoved i d d' /\ pinned (flow_at i d) = false end.
Lemma touch_pinned i d d' : touch unmoved i d d' -> pinned (flow_at i d') = pinned (flow_at i d).
Proof. intros T. destruct (touch_flow _ i d d' i T) as [_ [Hu|E]]; [by apply unmoved_pinned|by rewrite E]. Qed.
Lemma idle_check_ok i trf d : visit_ok i d (idle_check i trf d).
Proof.
  unfold idle_check. destruct (trf || force_update (flow_at i d)) eqn:E; [apply touch_idle|]. apply orb_false_iff in E as [_ E].
  destruct (_ <=? _)%Z; [split; [|done]|]; apply touch_idle.
Qed.
Lemma ct_lost_ok i trf d d' : touch unmoved i d d' -> pinned (flow_at i d) = false -> visit_ok i d (ct_lost i trf d').
Proof.
  intros T Hp. unfold ct_lost. destruct house_keeping_flow_delete_immediatly; [done|]. pose proof (idle_check_ok i trf d') as Hv.
  assert (forall d'', touch unmoved i d' d'' -> touch unmoved i d d'') as Ht by (intros d''; exact (touch_trans unmoved unmoved unmoved i d d' d'' unmoved_trans T)).
  destruct (idle_check i trf d') as [d''|d'']; [by apply Ht|]. destruct Hv as [Hv _]. split; [by apply Ht|done].
Qed.
Lemma ct_check_ok i trf d : pinned (flow_at i d) = false -> visit_ok i d (ct_check i trf d).
Proof.
  intros Hp. unfold ct_check. destruct (cachedCt (flow_at i d)) as [ct|]; [|by apply ct_lost_ok; [apply touch_core|]].
  destruct (negb (CT_SESSION_ALIVE ct)); [apply ct_lost_ok; [apply touch_detach|done]|].
  destruct (trf || force_update (flow_at i d)); [|apply touch_idle]. destruct (CT_REFRESH ct); [apply touch_idle|].
  apply ct_lost_ok; [|done]. exact (touch_trans unmoved unmoved unmoved i d _ _ unmoved_trans (touch_idle 0 i d) (touch_detach i _)).
Qed.
Lemma check_flow_ok i trf d : visit_ok i d (check_flow i trf d).
Proof.
  unfold check_flow. destruct (needUpdate (flow_at i d) && negb trf && negb (force_update (flow_at i d))) eqn:E.
  { apply andb_true_iff in E as [_ E%negb_true_iff]. split; [by apply touch_core|done]. }
  assert (visit_ok i d (if static (flow_at i d) || FLOW_INFO_IS_SET (flow_at i d) SKIP_CT || FLOW_INFO_IS_SET (flow_at i d) MC_ENTRY
     then idle_check i trf d else ct_check i trf d)) as Hc.
  { destruct (static _) eqn:Es; simpl; [apply idle_check_ok|]. destruct (_ || _); [apply idle_check_ok|]. apply ct_check_ok.
    unfold pinned. rewrite Es. apply andb_false_r. }
  destruct (in_path (ent (flow_at i d))); [apply idle_check_ok|exact Hc|exact Hc|by apply touch_core].
Qed.
Lemma update_moves i trf d : moves d (rtk_fc_flow_updateTimer_and_checkTimeout i trf d).2.
Proof.
  unfold rtk_fc_flow_updateTimer_and_checkTimeout. destruct (flowSwTableSize <=? i); [by apply thins_refl|].
  pose proof (check_flow_ok i trf (note_traffic i trf d)) as Hv.
  assert (forall d', touch unmoved i (note_traffic i trf d) d' -> moves d d') as Hm
    by (intros d' T; apply (thins_touch unmoved unpinned unmoved_refl unmoved_use i); eapply touch_core_l; [apply core_note_traffic|exact T]).
  destruct (check_flow i trf (note_traffic i trf d)) as [d'|d']; [by apply Hm|]. destruct Hv as [T Hp]. simpl.
  apply (thins_trans unmoved unpinned unmoved_trans unmoved_back d d'); [by apply Hm|]. apply thins_delete; [done|].
  intros _. by rewrite (touch_pinned i _ d' T).
Qed.
Lemma moves_trf i d : moves d (on_flow (set_trf false) i d).
Proof. apply (thins_touch unmoved unpinned unmoved_refl unmoved_use i). by apply touch_on. Qed.
Lemma visit_hw_moves bits i d : moves d (visit_hw bits i d).
Proof.
  unfold visit_hw. destruct (in_use (flow_at i d)); [|by apply thins_refl].
  apply (thins_trans unmoved unpinned unmoved_trans unmoved_back d _ _ (moves_trf i d)), update_moves.
Qed.
Lemma visit_sw_moves i d : moves d (visit_sw i d).
Proof.
  unfold visit_sw. destruct (in_use (flow_at i d)); [|by apply thins_refl].
  apply (thins_trans unmoved unpinned unmoved_trans unmoved_back d _ _ (update_moves i (swTrfBit (flow_at i d)) d)), moves_trf.
Qed.
Lemma section_moves trf cam d : moves d (scan_section trf cam d).
Proof.
  intros Hd. set (bits := traffic_bit_of trf cam (fbMode_4K && (FLOWSRAM / 32 <? min (swFlow_hkCurIdx d + flowSync_GRANULARITY) flowHashBuckets * ways))).
  set (d1 := each (scan_bucket bits) (seq (swFlow_hkCurIdx d) (min (swFlow_hkCurIdx d + flowSync_GRANULARITY) flowHashBuckets - swFlow_hkCurIdx d)) d).
  assert (moves d d1) as T.
  { apply (thins_buckets unmoved unpinned unmoved_refl unmoved_trans unmoved_back (visit_hw bits) (visit_hw bits) visit_sw);
      auto using visit_hw_moves, visit_sw_moves. intros b ?%elem_of_seq. lia. }
  destruct (T Hd) as (Hd1 & Hl & Hf). split; [exact (ok_core d1 (scan_section trf cam d) eq_refl Hd1)|]. split; [exact Hl|exact Hf].
Qed.
Lemma timeoutCheck_moves trf cam d : moves d (_rtk_fc_flow_timeoutCheck trf cam d).2.
Proof. destruct trf; [apply section_moves|]. by apply (thins_refl unmoved unpinned unmoved_refl). Qed.

(** ** Adding a flow *)

(** The step concerns only flow [i]. *)
Definition only (i : nat) (d d' : fc) : Prop := flows_ok d' /\ forall j, i <> j -> flow_at j d' = flow_at j d.
Lemma only_touch (Q : flow -> flow -> Prop) i d d' : flows_ok d -> (forall f f', Q f f' -> mild f f') -> touch Q i d d' -> only i d d'.
Proof. intros Hd HQ T. split; [by eapply touch_ok|]. intros j. apply (touch_flow Q i d d' j T). Qed.
Lemma only_trans i d d' d'' : only i d d' -> only i d' d'' -> only i d d''.
Proof. intros [_ E] [? E']. split; [done|]. intros j Hj. by rewrite E', E. Qed.
Lemma only_adds (Q : flow -> flow -> Prop) i hash d d' : (forall f f', Q f f' -> in_use f' = true \/ mild f f') -> flows_ok d -> i < flowSwTableSize -> hash / ways < flowHashBuckets -> adds Q i hash d d' -> only i d d'.
Proof.
  intros HQ Hd Hi Hh Ha. split; [by eapply (adds_ok Q)|]. intros j Hj. apply (adds_flow Q i hash d d' j Ha); [by rewrite (ok_length d Hd)|done].
Qed.
Lemma only_deleted i d d' : flows_ok d -> i < flowSwTableSize -> core d' = deleted i (core d) -> only i d d'.
Proof.
  intros Hd Hi E. split; [by eapply deleted_ok|]. intros j Hj. rewrite (deleted_flow d d' i j E) by (by rewrite (ok_length d Hd)).
  by rewrite decide_False.
Qed.
Lemma swField_set_only i hash ct x o swOnly st mc g p d : flows_ok d -> i < flowSwTableSize -> hash / ways < flowHashBuckets ->
  only i d (_rtk_fc_flow_swField_set i hash ct x o swOnly st mc g p d).2.
Proof.
  intros Hd Hi Hh. pose proof (swField_set_cases i hash ct x o swOnly st mc g p d Hi Hh (ok_length d Hd)) as Hc.
  destruct (_rtk_fc_flow_swField_set i hash ct x o swOnly st mc g p d) as [r d']. simpl.
  assert (forall f f', starts f f' -> in_use f' = true \/ mild f f') as Hst by (intros f f' [_ ?]; by left).
  destruct Hc as [[_ Ha]|[_ [Ha|(d1 & Ha & E)]]]; [by apply (only_adds starts i hash)|apply (only_adds holds i hash); try done|].
  { intros f f' ([_ Hc] & Hp & Hinf). right. unfold mild, in_use, bare, FLOW_INFO_IS_SET. by rewrite Hc, Hp, Hinf. }
  pose proof (only_adds starts i hash d d1 Hst Hd Hi Hh Ha) as Ho. eapply only_trans; [exact Ho|]. apply only_deleted; [apply Ho|done|done].
Qed.

(** The flows before the step that are live and pinned are so after it, unmoved. *)
Definition spares (d d' : fc) : Prop :=
  flows_ok d -> flows_ok d' /\ forall j, live d j -> pinned (flow_at j d) = true -> live d' j /\ unmoved (flow_at j d) (flow_at j d').
Lemma spares_refl d : spares d d.
Proof. by intros Hd. Qed.
Lemma spares_steps d d' d'' : spares d d' -> spares d' d'' -> spares d d''.
Proof.
  intros S1 S2 Hd. destruct (S1 Hd) as [Hd' H1']. destruct (S2 Hd') as [Hd'' H2']. split; [done|]. intros j Hj Hp.
  destruct (H1' j Hj Hp) as [Hj' Hu]. destruct (H2' j Hj') as [Hj'' Hu']; [by rewrite (unmoved_pinned _ _ Hu)|]. split; [done|].
  by eapply unmoved_trans.
Qed.
Lemma moves_spares d d' : moves d d' -> spares d d'.
Proof.
  intros T Hd. destruct (T Hd) as (Hd' & _ & Hf). split; [done|]. intros j Hj Hp. destruct (Hf j Hj) as [(? & ? & _)|[? _]]; [done|congruence].
Qed.
Lemma thins_spares (gone : nat -> flow -> bool) d d' : (forall j f, gone j f = true -> pinned f = false) ->
  thins eq (fun j f => gone j f = true) d d' -> spares d d'.
Proof.
  intros Hg T Hd. destruct (T Hd) as (Hd' & _ & Hf). split; [done|]. intros j Hj Hp. destruct (Hf j Hj) as [(<- & ? & _)|[Hgj _]]; [done|].
  apply Hg in Hgj. congruence.
Qed.
Lemma touch_spares i d d' : touch unmoved i d d' -> spares d d'.
Proof. intros T. apply moves_spares. by apply (thins_touch unmoved unpinned unmoved_refl unmoved_use i). Qed.
Lemma only_spares i d d' : only i d d' -> ~ live d i -> spares d d'.
Proof.
  intros [Hd' Ho] Hn _. split; [done|]. intros j Hj _. assert (i <> j) as Hij by (by intros ->). unfold live. by rewrite Ho.
Qed.

Lemma touch_refresh p i d : touch unmoved i d (on_flow (refresh_action p) i d).
Proof. apply touch_on. intros f. unfold refresh_action. by match goal with |- context [let '(_, _) := ?x in _] => destruct x end. Qed.
Lemma touch_delay g i d : touch unmoved i d (on_flow (delay_hit g) i d).
Proof. apply touch_on. intros f. unfold delay_hit. by case_match. Qed.
Lemma after_add_spares i hash g d : spares d (after_add i hash g d).
Proof.
  unfold after_add. set (d1 := match _rtk_fc_flow_isTheSamePatternExist_get i hash d with Some _ => _ | None => _ end).
  assert (spares d d1) as Hs.
  { unfold d1. destruct (_rtk_fc_flow_isTheSamePatternExist_get i hash d) as [j|]; [|apply spares_refl].
    eapply spares_steps; [apply (touch_spares i)|apply (touch_spares j)]; apply touch_on; intros f; by apply unmoved_info. }
  destruct g as [g|]; [|done]. destruct (has_cbFlowAdd && g3_up_or_down g); [|done]. eapply spares_steps; [exact Hs|].
  apply (touch_spares i). by apply touch_core.
Qed.
(** The entry found is not in use: the flow is put there. *)
Lemma put_flow_spares i hash e ct x o swOnly st mc g p d : i < flowSwTableSize -> hash / ways < flowHashBuckets -> ~ live d i ->
  spares d match asic_flow_set i e swOnly with
           | None => log REC_FLOW_ADD_FAIL (log (FLOWPATH_SET i) d)
           | Some e' => let '(r, d1) := _rtk_fc_flow_swField_set i hash ct x o swOnly st mc g p (log (FLOWPATH_SET i) (on_flow (set_ent e') i d)) in
               if bool_decide (r = RTK_FC_RET_OK) then after_add i hash g d1 else log REC_FLOW_ADD_FAIL d1
           end.
Proof.
  intros Hi Hh Hn Hd. destruct (asic_flow_set i e swOnly) as [e'|]; [|revert Hd; by apply (touch_spares i), touch_core].
  set (d1 := log (FLOWPATH_SET i) (on_flow (set_ent e') i d)).
  assert (only i d d1) as H1' by (apply (only_touch mild); [done|done|]; by exists (set_ent e')).
  pose proof (swField_set_only i hash ct x o swOnly st mc g p d1 (proj1 H1') Hi Hh) as H2'.
  destruct (_rtk_fc_flow_swField_set i hash ct x o swOnly st mc g p d1) as [r d2]. simpl in H2'.
  assert (spares d d2) as Hs by (apply (only_spares i); [by eapply only_trans|done]).
  destruct (bool_decide (r = RTK_FC_RET_OK)); (eapply spares_steps; [exact Hs| |exact Hd]); [apply after_add_spares|].
  apply (touch_spares i). by apply touch_core.
Qed.
Lemma log_spares e d : spares d (log e d).
Proof. apply (touch_spares 0). by apply touch_core. Qed.
Lemma flow_add_spares hash e ct x mc swOnly st g p d : bucket_start hash -> spares d (rtk_fc_flow_add hash e ct x mc swOnly st g p d).2.
Proof.
  intros Hb Hd. pose proof (bucket_number hash Hb) as Hh. unfold rtk_fc_flow_add.
  set (sw := swOnly || _ || _). set (g' := with_acl _ <$> g).
  pose proof (free_entry_cases hash e (g3 <$> g') mc (bool_decide (in_path e = FB_PATH_6) || (bool_decide (in_path e = FB_PATH_34) && mc && negb PATH34_SKIP_DA))
    (negb sw && lock e) sw mc d Hd Hb) as Hc.
  destruct (_rtk_fc_flow_freeEntry_get _ _ _ _ _ _ _ _ _) as [[r o] d1].
  assert (forall i, i < flowSwTableSize -> spares d d1 -> ~ live d1 i ->
    spares d (match asic_flow_set i e sw with
      | None => (RTK_FC_RET_ERR_ASIC, Some i, log REC_FLOW_ADD_FAIL (log (FLOWPATH_SET i) d1))
      | Some e' => let '(r, d) := _rtk_fc_flow_swField_set i hash ct x (indMac_of e) sw st mc g' p (log (FLOWPATH_SET i) (on_flow (set_ent e') i d1)) in
          if bool_decide (r = RTK_FC_RET_OK) then (r, Some i, after_add i hash g' d) else (r, Some i, log REC_FLOW_ADD_FAIL d)
      end).2) as Hput.
  { intros i Hi Hs Hn. pose proof (put_flow_spares i hash e ct x (indMac_of e) sw st mc g' p d1 Hi Hh Hn) as Hp.
    destruct (asic_flow_set i e sw); [|by eapply spares_steps]. destruct (_rtk_fc_flow_swField_set _ _ _ _ _ _ _ _ _ _ _) as [r' d2].
    destruct (bool_decide (r' = RTK_FC_RET_OK)); by eapply spares_steps. }
  destruct r, o as [i|]; try (destruct Hc as [? ->]; try done; by apply log_spares).
  - destruct Hc as ([Hi Hn] & _ & ->). apply Hput; [done|apply spares_refl|done|done].
  - destruct Hc as ([Hi Hst] & _ & ->). apply Hput; [done| |by apply delete_gone|done]. eapply spares_steps; [|apply log_spares].
    apply moves_spares, thins_delete; [done|]. intros _. unfold pinned. unfold static in *. by rewrite Hst, andb_false_r.
  - destruct Hc as (Hi & -> & _). simpl. eapply spares_steps; [apply (touch_spares i), touch_delay| |exact Hd].
    clear Hput. destruct p as [p|]; [|apply spares_refl].
    destruct (bool_decide (in_path e = FB_PATH_5) && kernel_delay_mode); [|apply spares_refl]. apply (touch_spares i), touch_refresh.
Qed.
End Safe.
