(* ===== verification/FcFlowFound.v ===== *)
(** * A flow that was added is found

    What an addition leaves in the table ([put_flow]): the entry, the software fields of
    the packet, the special protocol, and the lists.  [recognised] says that a flow of the
    table matches what it was made from; [put_recognised] that the new flow does. *)
From stdpp Require Import gmap.
From S2P Require Import Prelude FcLists FcFlowKey FcFlowKeySpec FcFlowSide FcFlowSideSpec FcFlow FcFlowAdd FcFlowFlush FcFlowInv FcFlowSmall FcFlowFind.
From S2P Require Import FcFlowSteps FcFlowSafe.
Open Scope nat_scope.

Section Found.
Context `{FlowChecks} `{FlowSideConfig} `{Env : FlowEnv} `{!FlowLaws}.

(** ** Stages *)

(** A stage that leaves what a search compares. *)
Definition steady (f f' : flow) : Prop :=
  ent f' = ent f /\ sw f' = sw f /\ protoCtrl f' = protoCtrl f /\
  FLOW_INFO_IS_SET f' ACL_PRI_FWD = FLOW_INFO_IS_SET f ACL_PRI_FWD /\ FLOW_INFO_IS_SET f' SOFTWARE_ONLY = FLOW_INFO_IS_SET f SOFTWARE_ONLY.
Lemma same_refl f : steady f f. Proof. done. Qed.
Lemma same_trans f f' f'' : steady f f' -> steady f' f'' -> steady f f''.
Proof. unfold steady. intros (-> & -> & -> & -> & ->) (-> & -> & -> & -> & ->). done. Qed.
Lemma steady_info x v f : x <> ACL_PRI_FWD -> x <> SOFTWARE_ONLY -> steady f (FLOW_INFO_SET x v f).
Proof. intros Ha Hs. unfold steady. rewrite !info_other by done. by destruct f. Qed.

Lemma same_on (g : flow -> flow) i d d0 : flowTbl d0 = flowTbl d -> (forall f, steady f (g f)) -> steady (flow_at i d) (flow_at i (on_flow g i d0)).
Proof. intros E Hg. rewrite flow_at_on. unfold flow_at. rewrite E. case_decide; [apply Hg|done]. Qed.
Lemma steady_core i d d' : core d' = core d -> steady (flow_at i d) (flow_at i d').
Proof. intros E. by rewrite (core_flow_at i d' d E). Qed.

Lemma steady_take_ct i ct d : steady (flow_at i d) (flow_at i (take_ct i ct d)).
Proof. unfold take_ct. destruct ct as [c|]; [destruct (ct_get_ok c)|]; by apply same_on. Qed.
Lemma steady_lists i j hash d : steady (flow_at i d) (flow_at i (entry_lists j hash d)).
Proof. unfold entry_lists. by repeat case_match. Qed.
Lemma steady_loopback i p g d d' : take_loopback i p g d = Some d' -> steady (flow_at i d) (flow_at i d').
Proof.
  unfold take_loopback. destruct (needs_loopback i p d) as [p'|]; [|by intros [= <-]]. destruct (rtk_fc_flow_info_natloopback_alloc _ _) as [[] t]; [|done..].
  intros [= <-]. apply same_on; [done|]. intros f. by apply steady_info.
Qed.
Lemma steady_p5ds i p d : steady (flow_at i d) (flow_at i (take_p5ds i p d)).
Proof.
  unfold take_p5ds. repeat case_match; try done. apply same_on; [done|]. intros f.
  apply (same_trans f (set_p5bucket n f)); [done|by apply steady_info].
Qed.
Lemma steady_lutivl i x p d : steady (flow_at i d) (flow_at i (take_lutivl i x p d)).
Proof.
  unfold take_lutivl. destruct x as [[sa da]|]; [|done]. destruct p as [p|]; [|done]. destruct (p_fdb_vid p); [|done].
  destruct (rtk_fc_flow_info_lutivl_ref _ _ _ _) as [[r|k] t]; [done|]. apply same_on; [done|]. intros f.
  apply (same_trans f (FLOW_INFO_SET VLAN_FILTERING_PVID_ENTRY true f)); [by apply steady_info|done].
Qed.
Lemma steady_know_ct i hash ct p d : steady (flow_at i d) (flow_at i (know_ct i hash ct p d)).
Proof.
  unfold know_ct. repeat case_match; try done. apply same_on; [done|]. intros f. by apply steady_info.
Qed.

(** ** The fields that are set *)

Definition hit_of (p : option pkt) : bool := match p with Some p => p_isHitSwFwdedAclTrapPri p | None => false end.
(** The special protocol before a dual header or a segment route is noted. *)
Definition icmp_of (swOnly : bool) (g : option g3_extra) (p : option pkt) : proto_ctrl :=
  match p, g with
  | Some p, Some g => match p_icmp p with Some (id, seq) => if swOnly && ingress_icmp_valid (g3 g) then ICMP_ACC (ingress_icmp (g3 g)) id seq else PROTO_NONE | None => PROTO_NONE end
  | _, _ => PROTO_NONE
  end.
Record noted (swOnly : bool) (g : option g3_extra) (p : option pkt) (f0 f : flow) : Prop := {
  noted_ent : ent f = ent f0;
  noted_sw : FLOW_INFO_IS_SET f SOFTWARE_ONLY = swOnly;
  noted_acl : FLOW_INFO_IS_SET f ACL_PRI_FWD = hit_of p;
  noted_proto : protoCtrl f = icmp_of swOnly g p;
  noted_stpid : forall x, g = Some x -> igr_stpid_sel (sw f) = igr_stpid_sel (g3_sw (g3 x)) }.

Lemma info_set x v f : FLOW_INFO_IS_SET (FLOW_INFO_SET x v f) x = v.
Proof.
  unfold FLOW_INFO_IS_SET, FLOW_INFO_SET, set_infos. simpl. destruct v; [apply bool_decide_eq_true, elem_of_cons; by left|].
  apply bool_decide_eq_false. intros [? _]%list_elem_of_filter. done.
Qed.
Lemma noted_base swOnly st mc g p f : bare f -> noted swOnly g p f (packet_fields swOnly p g (base_fields swOnly st mc g f)).
Proof.
  intros [Hp Ha]. set (f1 := base_fields swOnly st mc g f).
  assert (ent f1 = ent f /\ protoCtrl f1 = PROTO_NONE /\ FLOW_INFO_IS_SET f1 SOFTWARE_ONLY = swOnly /\ FLOW_INFO_IS_SET f1 ACL_PRI_FWD = false /\
    forall x, g = Some x -> igr_stpid_sel (sw f1) = igr_stpid_sel (g3_sw (g3 x))) as (E1 & E2 & E3 & E4 & E5).
  { set (f2 := FLOW_INFO_SET MC_ENTRY mc (FLOW_INFO_SET STATIC_ENTRY st (FLOW_INFO_SET SOFTWARE_ONLY swOnly f))).
    assert (infos f1 = infos f2 /\ ent f1 = ent f /\ protoCtrl f1 = protoCtrl f) as (Ei & Ee & Ep) by (unfold f1, base_fields; by destruct g).
    split; [done|]. split; [congruence|]. unfold FLOW_INFO_IS_SET. rewrite Ei. fold (FLOW_INFO_IS_SET f2 SOFTWARE_ONLY) (FLOW_INFO_IS_SET f2 ACL_PRI_FWD).
    unfold f2. rewrite !(info_other MC_ENTRY), !(info_other STATIC_ENTRY), info_set, info_other by done. split; [done|]. split; [done|].
    intros x ->. done. }
  clearbody f1. destruct p as [p|]; [|by split]. unfold packet_fields.
  set (f2 := match g, p_icmp p with Some _, Some _ => _ | _, _ => _ end).
  assert (steady f1 (set_proto (protoCtrl f1) f2) /\ protoCtrl f2 = icmp_of swOnly g (Some p)) as [(S1 & S2 & _ & S4 & S5) Ep].
  { unfold f2, icmp_of. rewrite E2. destruct g as [g|]; [destruct (p_icmp p) as [[id seq]|]; [destruct (swOnly && _)|]|]; done. }
  change (ent (set_proto (protoCtrl f1) f2)) with (ent f2) in S1. change (sw (set_proto (protoCtrl f1) f2)) with (sw f2) in S2.
  change (FLOW_INFO_IS_SET (set_proto (protoCtrl f1) f2) ACL_PRI_FWD) with (FLOW_INFO_IS_SET f2 ACL_PRI_FWD) in S4.
  change (FLOW_INFO_IS_SET (set_proto (protoCtrl f1) f2) SOFTWARE_ONLY) with (FLOW_INFO_IS_SET f2 SOFTWARE_ONLY) in S5. clearbody f2.
  set (f3 := if p_skip_alg_check p then FLOW_INFO_SET ALG_EXIST true f2 else f2).
  assert (steady f2 f3) as (T1 & T2 & T3 & T4 & T5) by (unfold f3; destruct (p_skip_alg_check p); [by apply steady_info|done]). clearbody f3.
  split; simpl.
  - congruence.
  - rewrite info_other by done. congruence.
  - apply info_set.
  - change (protoCtrl f3 = icmp_of swOnly g (Some p)). congruence.
  - intros x Hx. unfold FLOW_INFO_SET, set_infos. simpl. rewrite T2, S2. by apply E5.
Qed.
Lemma noted_steady swOnly g p f0 f f' : steady f f' -> noted swOnly g p f0 f -> noted swOnly g p f0 f'.
Proof. intros (S1 & S2 & S3 & S4 & S5) [N1 N2 N3 N4 N5]. split; rewrite ?S1, ?S2, ?S3, ?S4, ?S5; done. Qed.
Lemma touch_length Q i d d' : touch Q i d d' -> length (flowTbl d') = length (flowTbl d).
Proof. intros (g & [= -> _ _ _] & _). apply length_alter. Qed.

(** The fields of the new flow, before dual headers. *)
Record filled (swOnly : bool) (x : option (Z * Z)) (g : option g3_extra) (p : option pkt) (f0 f : flow) : Prop := {
  filled_noted : noted swOnly g p f0 f;
  filled_sw : forall y, g = Some y -> x = Some (lutIgrSaIdx (g3_sw (g3 y)), lutEgrDaIdx (g3_sw (g3 y))) -> sw f = g3_sw (g3 y) }.
Lemma filled_steady swOnly x g p f0 f f' : steady f f' -> filled swOnly x g p f0 f -> filled swOnly x g p f0 f'.
Proof. intros S [N F]. split; [by eapply noted_steady|]. destruct S as (_ & -> & _). done. Qed.
Lemma filled_protos swOnly x g p f0 f pr : filled swOnly x g p f0 f -> sw (set_proto pr f) = sw f /\ noted swOnly g p f0 f.
Proof. intros [N _]. done. Qed.

Lemma fill i hash ct x o swOnly st mc g p d : i < length (flowTbl d) -> bare (flow_at i d) ->
  filled swOnly x g p (flow_at i d) (flow_at i (on_flow (g3_fields g) i (take_indMac o (fields_before i hash ct x swOnly st mc g p d)))).
Proof.
  intros Hi Hb. unfold fields_before. set (d1 := on_flow (fun f => packet_fields swOnly p g (base_fields swOnly st mc g f)) i d).
  assert (noted swOnly g p (flow_at i d) (flow_at i d1)) as N1 by (unfold d1; rewrite flow_at_same by done; by apply noted_base).
  assert (length (flowTbl d1) = length (flowTbl d)) as L1 by apply length_alter. clearbody d1.
  pose proof (noted_steady _ _ _ _ _ _ (steady_p5ds i p d1) N1) as N2. pose proof (touch_length _ _ _ _ (touch_p5ds i p d1)) as L2.
  set (d2 := take_p5ds i p d1) in *. clearbody d2. set (d3 := on_flow (lut_fields x) i d2).
  assert (flow_at i d3 = lut_fields x (flow_at i d2)) as E3 by (apply flow_at_same; lia).
  assert (length (flowTbl d3) = length (flowTbl d2)) as L3 by apply length_alter.
  assert (noted swOnly g p (flow_at i d) (flow_at i d3) /\ (forall sa da, x = Some (sa, da) -> lutIgrSaIdx (sw (flow_at i d3)) = sa /\ lutEgrDaIdx (sw (flow_at i d3)) = da)) as [N3 F3].
  { rewrite E3. unfold lut_fields. destruct N2 as [A1 A2 A3 A4 A5]. split; [|intros sa da ->; done]. destruct (default _ x). by split. }
  clearbody d3. pose proof (touch_length _ _ _ _ (touch_lutivl i x p d3)) as L4.
  pose proof (touch_length _ _ _ _ (touch_know_ct i hash ct p (take_lutivl i x p d3))) as L5.
  assert (steady (flow_at i d3) (flow_at i (on_flow first_state i (know_ct i hash ct p (take_lutivl i x p d3))))) as S6.
  { eapply same_trans; [apply steady_lutivl|]. eapply same_trans; [apply steady_know_ct|]. by apply same_on. }
  set (d6 := on_flow first_state i _) in *. assert (length (flowTbl d6) = length (flowTbl d3)) as L6 by (unfold d6; rewrite <- L4, <- L5; apply length_alter).
  clearbody d6. pose proof (noted_steady _ _ _ _ _ _ S6 N3) as [M1 M2 M3 M4 M5]. destruct S6 as (_ & S6 & _).
  pose proof (core_take_indMac o d6) as E7. set (d7 := take_indMac o d6) in *. clearbody d7.
  rewrite flow_at_same by (rewrite (core_flows d7 d6 E7); lia). rewrite (core_flow_at i d7 d6 E7). unfold g3_fields.
  destruct g as [y|]; [|by split]. split; [by split|]. intros z [= <-] Hx. destruct (F3 _ _ Hx) as [Fa Fb]. simpl.
  rewrite (M5 y eq_refl), S6, Fa, Fb. by destruct (g3_sw (g3 y)).
Qed.

(** ** Dual headers *)

Lemma dual_free_spec l k : dual_free l = Some k -> k < length l /\ nth k l DUAL_NONE = DUAL_NONE.
Proof.
  unfold dual_free. intros [Hk Hn]%find_some. apply list_elem_of_In, elem_of_seq in Hk. apply bool_decide_eq_true in Hn. split; [lia|done].
Qed.
(** What [take_dual] notes. *)
Definition proto_of (swOnly : bool) (g : option g3_extra) (p : option pkt) (tbl : list dual_hdr) (pr : proto_ctrl) : Prop :=
  match g with
  | None => True
  | Some y => match dualPt (g3 y) with
      | DUAL_NONE => pr = icmp_of swOnly g p
      | DUAL_VXLAN => pr = DUAL_PT_VXLAN
      | h => exists k, pr = DUAL_PT k /\ nth k tbl DUAL_NONE = h
      end
  end.
Lemma take_dual_proto i swOnly x g p f0 d d' : take_dual i g d = Some d' -> i < length (flowTbl d) -> filled swOnly x g p f0 (flow_at i d) ->
  proto_of swOnly g p (dual_pt_flowMapTbl d') (protoCtrl (flow_at i d')) /\
  steady (flow_at i d) (set_proto (protoCtrl (flow_at i d)) (flow_at i d')) /\ touch keeps i d d'.
Proof.
  intros Ht Hi [N _]. pose proof (touch_dual i g d d' Ht) as T. unfold take_dual, proto_of in *. destruct g as [y|]; [|by injection Ht as <-].
  assert (forall h k, dual_free (dual_pt_flowMapTbl d) = Some k -> 
    nth k (<[k := h]> (dual_pt_flowMapTbl d)) DUAL_NONE = h) as Hk.
  { intros h k [Hk _]%dual_free_spec. by rewrite nth_lookup, list_lookup_insert_eq. }
  destruct (dualPt (g3 y)) as [|call|t s|spi| |ty] eqn:Eh; simpl in *.
  1: injection Ht as <-; split; [apply N|done].
  4: injection Ht as <-; by rewrite flow_at_same.
  all: destruct (dual_free (dual_pt_flowMapTbl d)) as [k|] eqn:Ek; [|done]; injection Ht as <-.
  all: rewrite flow_at_same by done; split; [|done]; exists k; split; [done|]; by apply Hk.
Qed.

(** ** The new flow matches what it was made from *)

(** What has to come with a flow so that it can be found again: the addresses' entries that
    a search will see; an ICMP flow is one of software, with its header and without a dual
    header; no VXLAN that passes through; a segment route without a dual header. *)
Definition says_all (swOnly : bool) (x : option (Z * Z)) (g : option g3_extra) (p : option pkt) : Prop :=
  match g with
  | None => True
  | Some y =>
      x = Some (lutIgrSaIdx (g3_sw (g3 y)), lutEgrDaIdx (g3_sw (g3 y))) /\ isHitSwFwdedAclTrapPri (g3 y) = hit_of p /\ dualPt (g3 y) <> DUAL_VXLAN /\
      (ingress_icmp_valid (g3 y) = true ->
         swOnly = true /\ (exists pk echo, p = Some pk /\ p_icmp pk = Some echo) /\ dualPt (g3 y) = DUAL_NONE /\ g3_srv6_up y = false) /\
      (g3_srv6_up y = true -> dualPt (g3 y) = DUAL_NONE)
  end.
Definition final_proto (g : option g3_extra) (pr : proto_ctrl) : proto_ctrl :=
  match g with Some y => if g3_srv6_up y then SRV6_ADD else pr | None => pr end.

Lemma same_sw_refl c s acl : sw c = s -> FLOW_INFO_IS_SET c ACL_PRI_FWD = acl -> same_sw c s acl = true.
Proof.
  intros <- <-. unfold same_sw, only. rewrite !Z.eqb_refl, Bool.eqb_reflx. simpl. rewrite andb_false_r. simpl.
  by destruct (pppoe_by_sw _), SKIP_SPRI, SKIP_VLAN_DEICFI, (path34_or_5 _ && _).
Qed.
Lemma extra_refl tbl h k : h <> DUAL_NONE -> nth k tbl DUAL_NONE = h -> _rtk_fc_flow_extraSwflowPatternCheck tbl h k = true.
Proof.
  intros Hn Hk. unfold _rtk_fc_flow_extraSwflowPatternCheck, dual_at. rewrite Hk. rewrite bool_decide_eq_false_2 by done. simpl.
  destruct h; simpl; by rewrite ?Z.eqb_refl.
Qed.
Lemma protos_match tbl swOnly x g p pr c y : g = Some y -> says_all swOnly x g p -> proto_of swOnly g p tbl pr -> protoCtrl c = final_proto g pr ->
  same_icmp c (g3 y) && same_dual tbl c (g3 y) && negb (vxlan_inner c (g3 y)) = true.
Proof.
  intros -> (_ & _ & Hv & Hi & Hs) Hp Hc. unfold final_proto, proto_of, same_icmp, same_dual, vxlan_inner in *. rewrite Hc. clear Hc.
  destruct (g3_srv6_up y) eqn:Es.
  - rewrite (Hs eq_refl) in *. simpl. destruct (ingress_icmp_valid (g3 y)); [by destruct (Hi eq_refl) as (_ & _ & _ & ?)|done].
  - destruct (ingress_icmp_valid (g3 y)) eqn:Ei.
    + destruct (Hi eq_refl) as (-> & (pk & [id seq] & -> & Hpk) & Hd & _). rewrite Hd in Hp |- *. unfold icmp_of in Hp. rewrite Hpk, Ei in Hp. simpl in Hp.
      subst pr. by rewrite Z.eqb_refl.
    + assert (dualPt (g3 y) = DUAL_NONE -> pr = PROTO_NONE) as Hnone.
      { intros E. rewrite E in Hp. rewrite Hp. unfold icmp_of. destruct p as [pk|]; [|done]. destruct (p_icmp pk) as [[??]|]; [|done].
        by rewrite Ei, andb_false_r. }
      destruct (dualPt (g3 y)) as [|call|t s|spi| |ty] eqn:Eh; [by rewrite (Hnone eq_refl)| | | |done|].
      all: destruct Hp as (k & -> & Hk); simpl; by rewrite extra_refl.
Qed.

Section Match.
Context (Hspa : forall q, PATH12_SPA q = q) (Hstream : CHECK_PATH12_STREAM_IDX = true -> CHECK_PATH12_SPA = true).
Lemma hw_match_valid mc v e : _rtk_fc_flow_matchOrNot_hw_fields (with_valid v e) e mc = true.
Proof. apply hw_match_iff; [done..|]. by destruct e. Qed.
Lemma recognise tbl c e v mc swOnly x g p pr : ent c = with_valid v e -> says_all swOnly x g p -> (forall y, g = Some y -> sw c = g3_sw (g3 y)) ->
  FLOW_INFO_IS_SET c ACL_PRI_FWD = hit_of p -> proto_of swOnly g p tbl pr -> protoCtrl c = final_proto g pr ->
  _rtk_fc_flow_matchOrNot tbl c e (g3 <$> g) mc = true.
Proof.
  intros He Hc Hs Ha Hp Hpr. unfold _rtk_fc_flow_matchOrNot. rewrite He, hw_match_valid. simpl. destruct g as [y|]; [|done]. simpl.
  rewrite same_sw_refl; [|by apply Hs|rewrite Ha; symmetry; apply Hc]. by apply (protos_match tbl swOnly x (Some y) p pr).
Qed.

Lemma match_steady tbl f f' e g mc : steady f f' -> _rtk_fc_flow_matchOrNot tbl f' e g mc = _rtk_fc_flow_matchOrNot tbl f e g mc.
Proof.
  intros (S1 & S2 & S3 & S4 & S5). unfold _rtk_fc_flow_matchOrNot. rewrite S1. destruct g as [g|]; [|done].
  unfold same_sw, same_icmp, same_dual, vxlan_inner. by rewrite S1, S2, S3, S4, S5.
Qed.
Lemma match_refresh tbl q f e g mc : _rtk_fc_flow_matchOrNot tbl (refresh_action q f) e g mc = _rtk_fc_flow_matchOrNot tbl f e g mc.
Proof. unfold refresh_action. by match goal with |- context [let '(_, _) := ?y in _] => destruct y end. Qed.
Lemma dual_after i x g p d : dual_pt_flowMapTbl (fields_after i x g p d) = dual_pt_flowMapTbl d.
Proof. unfold fields_after, take_netif, mark_lut. by repeat case_match. Qed.
Lemma last_fields p g f : protoCtrl (bridge_field p (srv6_field g f)) = final_proto g (protoCtrl f) /\ steady f (set_proto (protoCtrl f) (bridge_field p (srv6_field g f))).
Proof.
  unfold bridge_field, srv6_field, final_proto. set (f1 := match g with Some y => _ | None => f end).
  assert (protoCtrl f1 = match g with Some y => if g3_srv6_up y then SRV6_ADD else protoCtrl f | None => protoCtrl f end /\
    ent f1 = ent f /\ sw f1 = sw f /\ infos f1 = infos f) as (E1 & E2 & E3 & E4) by (unfold f1; destruct g as [y|]; [destruct (g3_srv6_up y)|]; done).
  clearbody f1. set (f2 := match p with Some _ => _ | None => f1 end).
  assert (protoCtrl f2 = protoCtrl f1 /\ steady f1 f2) as [Ep (T1 & T2 & _ & T4 & T5)].
  { unfold f2. destruct p as [p|]; [destruct (p_force_to_bridge p)|]; try done. split; [done|]. by apply steady_info. }
  clearbody f2. split; [congruence|]. unfold steady, set_proto, FLOW_INFO_IS_SET in *. simpl. rewrite T1, T2, T4, T5, E2, E3, E4. done.
Qed.

Lemma put_match i hash ct x o swOnly st mc g p d d' v e : says_all swOnly x g p -> i < length (flowTbl d) -> bare (flow_at i d) ->
  ent (flow_at i d) = with_valid v e -> _rtk_fc_flow_swField_set i hash ct x o swOnly st mc g p d = (RTK_FC_RET_OK, d') ->
  _rtk_fc_flow_matchOrNot (dual_pt_flowMapTbl d') (flow_at i d') e (g3 <$> g) mc = true.
Proof.
  intros Hc Hi Hb He. unfold _rtk_fc_flow_swField_set. destruct (take_loopback i p g _) as [d1|] eqn:El; [|done].
  assert (length (flowTbl d1) = length (flowTbl d)) as L1.
  { rewrite (touch_length _ _ _ _ (touch_loopback i p g _ d1 El)), (touch_length _ _ _ _ (touch_take_ct i ct _)). unfold entry_lists. by repeat case_match. }
  assert (steady (flow_at i d) (flow_at i d1)) as S1.
  { eapply same_trans; [apply (steady_lists i i hash)|]. eapply same_trans; [apply steady_take_ct|]. by eapply steady_loopback. }
  assert (bare (flow_at i d1)) as Hb1 by (destruct S1 as (_ & _ & S3 & S4 & _); unfold bare; by rewrite S3, S4).
  pose proof (fill i hash ct x o swOnly st mc g p d1 ltac:(lia) Hb1) as F.
  assert (length (flowTbl (on_flow (g3_fields g) i (take_indMac o (fields_before i hash ct x swOnly st mc g p d1)))) = length (flowTbl d1)) as L2
    by (apply (touch_length _ _ _ _ (touch_middle i hash ct x o swOnly st mc g p d1))).
  set (d2 := on_flow (g3_fields g) i _) in *. clearbody d2. destruct (take_dual i g d2) as [d3|] eqn:Ed; [|done]. intros [= <-].
  destruct (take_dual_proto i swOnly x g p (flow_at i d1) d2 d3 Ed ltac:(lia) F) as (Hp & (T1 & T2 & _ & T4 & T5) & Tk).
  pose proof (touch_length _ _ _ _ Tk) as L3. rewrite dual_after. unfold fields_after.
  set (d4 := on_flow (fun f => bridge_field p (srv6_field g f)) i (mark_lut x d3)).
  assert (flow_at i d4 = bridge_field p (srv6_field g (flow_at i d3))) as E4.
  { unfold d4. rewrite flow_at_same by (rewrite (core_flows _ _ (core_mark_lut x d3)); lia). by rewrite (core_flow_at i _ _ (core_mark_lut x d3)). }
  rewrite (core_flow_at i _ _ (core_take_netif i d4)). clearbody d4. rewrite E4.
  destruct (last_fields p g (flow_at i d3)) as [Ep (U1 & U2 & _ & U4 & U5)].
  destruct F as [[N1 N2 N3 N4 N5] Fs].
  apply (recognise _ _ e v mc swOnly x g p (protoCtrl (flow_at i d3))); [|done| | |done|exact Ep].
  - rewrite <- He. transitivity (ent (flow_at i d3)); [exact U1|]. transitivity (ent (flow_at i d2)); [exact T1|]. rewrite N1. apply S1.
  - intros y ->. transitivity (sw (flow_at i d3)); [exact U2|]. transitivity (sw (flow_at i d2)); [exact T2|]. apply Fs; [done|]. apply Hc.
  - transitivity (FLOW_INFO_IS_SET (flow_at i d3) ACL_PRI_FWD); [exact U4|]. transitivity (FLOW_INFO_IS_SET (flow_at i d2) ACL_PRI_FWD); [exact T4|done].
Qed.

(** ** And it lies where it is looked for *)

Lemma put_shown hash notTcam swOnly i d d' : flows_ok d -> bucket_start hash -> i < flowSwTableSize -> place_for hash notTcam swOnly i ->
  adds starts i hash d d' -> shown hash notTcam false swOnly d' i.
Proof.
  intros Hd Hb Hi Hp Ha. assert (live d' i) as Hl by (apply (adds_flow starts i hash d d' i Ha); by rewrite (ok_length d Hd)).
  destruct Ha as (g & [= _ E2 E3 _] & _). pose proof (bucket_number hash Hb) as Hh. rewrite (proj2 (Nat.ltb_lt _ _) Hh), andb_true_r in E2.
  destruct Hp as [[-> [Hw|(H4 & -> & Ht)]]|[Hc Hs]].
  - left. split; [done|]. by left.
  - left. split; [done|]. right. split; [done|]. split; [done|]. unfold tcam_bucket. rewrite E2, Ht. apply list_elem_of_fmap.
    exists (i - FLOWSRAM). pose proof (proj1 (is_tcam_spec i) Ht) as [_ ?]. split; [lia|].
    apply bucket_hash_at; [by rewrite (ok_tcam_chains d Hd)|by left].
  - right. split; [done|]. split; [done|]. unfold sw_bucket. rewrite E3, Hs. apply list_elem_of_fmap.
    exists (i - flowHwTableSize). pose proof (proj1 (is_sw_spec i) Hs) as ?. split; [lia|].
    apply bucket_hash_at; [rewrite (ok_sw_chains d Hd); apply laws_list|by left].
Qed.

Lemma free_entry_exists hash e g mc nt swOnly force d i : flows_ok d -> bucket_start hash -> shown hash nt false swOnly d i ->
  _rtk_fc_flow_matchOrNot (dual_pt_flowMapTbl d) (flow_at i d) e g mc = true ->
  exists j, _rtk_fc_flow_freeEntry_get hash e g mc nt false swOnly force d = (RTK_FC_RET_ERR_ENTRY_EXIST, Some j, on_flow (delay_hit g) j d) /\
    _rtk_fc_flow_matchOrNot (dual_pt_flowMapTbl d) (flow_at j d) e g mc = true.
Proof.
  intros Hd Hb Hs Hm. unfold _rtk_fc_flow_freeEntry_get. simpl. set (m c := _rtk_fc_flow_matchOrNot (dual_pt_flowMapTbl d) c e g mc).
  pose proof (search_entry_spec hash m nt false swOnly force d Hd Hb eq_refl) as Hp. set (s := search_entry _ _ _ _ _ _ _) in *.
  unfold search_post in Hp. destruct (flowHitIdx s) as [j|] eqn:Eh; [exists j; split; [done|apply Hp]|].
  destruct Hp as (Hno & _). specialize (Hno i Hs). unfold m in Hno. congruence.
Qed.
Lemma shown_core hash nt a b d d' i : tcam d' = tcam d -> swl d' = swl d -> in_use (flow_at i d') = in_use (flow_at i d) ->
  shown hash nt a b d i -> shown hash nt a b d' i.
Proof. unfold shown, hw_shown, sw_shown, tcam_bucket, sw_bucket, live. by intros -> -> ->. Qed.
(** A step on flow [j] after which a flow is found as before. *)
Definition calm (i : nat) (d d' : fc) : Prop :=
  tcam d' = tcam d /\ swl d' = swl d /\ dual_pt_flowMapTbl d' = dual_pt_flowMapTbl d /\ in_use (flow_at i d') = in_use (flow_at i d) /\
  forall tbl e g mc, _rtk_fc_flow_matchOrNot tbl (flow_at i d') e g mc = _rtk_fc_flow_matchOrNot tbl (flow_at i d) e g mc.
Lemma calm_trans i d d' d'' : calm i d d' -> calm i d' d'' -> calm i d d''.
Proof. unfold calm. intros (-> & -> & -> & -> & M) (-> & -> & -> & -> & M'). repeat split; intros; by rewrite ?M', ?M. Qed.
Lemma calm_on (h : flow -> flow) i j d : (forall f, in_use (h f) = in_use f) ->
  (forall f tbl e g mc, _rtk_fc_flow_matchOrNot tbl (h f) e g mc = _rtk_fc_flow_matchOrNot tbl f e g mc) -> calm i d (on_flow h j d).
Proof. intros Hu Hm. unfold calm. rewrite flow_at_on. repeat split; intros; case_decide; auto. Qed.
Lemma calm_after i hash g d : calm i d (after_add i hash g d).
Proof.
  assert (forall j d, calm i d (on_flow (FLOW_INFO_SET DUPLICATE_EXIST true) j d)) as Hdup
    by (intros j d1; apply calm_on; [done|]; intros f tbl e g1 mc; by apply match_steady, steady_info).
  unfold after_add. set (d1 := match _rtk_fc_flow_isTheSamePatternExist_get i hash d with Some _ => _ | None => d end).
  assert (calm i d d1) as Hc by (unfold d1; destruct (_rtk_fc_flow_isTheSamePatternExist_get i hash d); [by eapply calm_trans|done]).
  destruct g as [y|]; [|done]. by destruct (has_cbFlowAdd && g3_up_or_down y).
Qed.
Lemma calm_delay i j g d : calm i d (on_flow (delay_hit g) j d).
Proof. apply calm_on; [intros f; unfold delay_hit; by case_match|]. intros f tbl e g1 mc. apply match_steady. unfold delay_hit. by case_match. Qed.
Lemma calm_refresh i j q d : calm i d (on_flow (refresh_action q) j d).
Proof.
  apply calm_on; [intros f; unfold refresh_action; by match goal with |- context [let '(_, _) := ?y in _] => destruct y end|].
  intros f tbl e g1 mc. apply match_refresh.
Qed.
(** What an addition does when the flow exists. *)
Definition met (e : entry) (p : option pkt) (i : nat) (d : fc) : fc :=
  match p with Some q => if bool_decide (in_path e = FB_PATH_5) && kernel_delay_mode then on_flow (refresh_action q) i d else d | None => d end.
Lemma calm_met e p i j d : calm i d (met e p j d).
Proof. unfold met. destruct p as [q|]; [|done]. destruct (bool_decide _ && _); [|done]. apply calm_refresh. Qed.

Section Request.
Context (hash : nat) (e : entry) (ct : option Z) (x : option (Z * Z)) (mc swOnly st : bool) (g : option g3_extra) (p : option pkt).
Context (Hb : bucket_start hash) (Hlock : lock e = false).
Definition sw_only : bool := swOnly || (hwnat_sw_only && negb (bool_decide (in_path e = FB_PATH_6))) || hit_of p.
Definition not_tcam : bool := bool_decide (in_path e = FB_PATH_6) || (bool_decide (in_path e = FB_PATH_34) && mc && negb PATH34_SKIP_DA).
Definition asked : option g3_extra := with_acl (hit_of p) <$> g.
Definition known (d : fc) (i : nat) : Prop :=
  shown hash not_tcam false sw_only d i /\ _rtk_fc_flow_matchOrNot (dual_pt_flowMapTbl d) (flow_at i d) e (g3 <$> asked) mc = true.

Lemma known_calm i d d' : calm i d d' -> known d i -> known d' i.
Proof. intros (Et & Es & Ed & Eu & Hm) [Hs M]. split; [by eapply shown_core|]. by rewrite Ed, Hm. Qed.
Lemma no_hw_only : negb sw_only && lock e = false.
Proof. rewrite Hlock. apply andb_false_r. Qed.

Lemma found_again i d : flows_ok d -> known d i ->
  exists j, rtk_fc_flow_add hash e ct x mc swOnly st g p d = (RTK_FC_RET_OK, Some j, met e p j (on_flow (delay_hit (g3 <$> asked)) j d)) /\
    _rtk_fc_flow_matchOrNot (dual_pt_flowMapTbl d) (flow_at j d) e (g3 <$> asked) mc = true.
Proof.
  intros Hd [Hs Hm]. destruct (free_entry_exists hash e (g3 <$> asked) mc not_tcam sw_only mc d i Hd Hb Hs Hm) as (j & E & Hj).
  exists j. split; [|done]. unfold rtk_fc_flow_add. fold (hit_of p). fold sw_only not_tcam asked. rewrite no_hw_only, E. done.
Qed.

Lemma added i d d1 : flows_ok d -> says_all sw_only x asked p -> rtk_fc_flow_add hash e ct x mc swOnly st g p d = (RTK_FC_RET_OK, Some i, d1) -> known d1 i.
Proof.
  intros Hd Hc. unfold rtk_fc_flow_add. fold (hit_of p). fold sw_only not_tcam asked. rewrite no_hw_only.
  pose proof (free_entry_cases hash e (g3 <$> asked) mc not_tcam false sw_only mc d Hd Hb) as Hf.
  destruct (_rtk_fc_flow_freeEntry_get _ _ _ _ _ _ _ _ _) as [[r o] d0].
  assert (forall k, flows_ok d0 -> unused d0 k -> place_for hash not_tcam sw_only k ->
    match asic_flow_set k e sw_only with
    | None => (RTK_FC_RET_ERR_ASIC, Some k, log REC_FLOW_ADD_FAIL (log (FLOWPATH_SET k) d0))
    | Some e' => let '(r, d) := _rtk_fc_flow_swField_set k hash ct x (indMac_of e) sw_only st mc asked p (log (FLOWPATH_SET k) (on_flow (set_ent e') k d0)) in
        if bool_decide (r = RTK_FC_RET_OK) then (r, Some k, after_add k hash asked d) else (r, Some k, log REC_FLOW_ADD_FAIL d)
    end = (RTK_FC_RET_OK, Some i, d1) -> known d1 i) as Hput.
  { intros k Hd0 [Hk Hn] Hp. destruct (asic_flow_set k e sw_only) as [e'|] eqn:Ea; [|done]. destruct (laws_set _ _ _ _ Ea) as [v ->].
    set (d2 := log (FLOWPATH_SET k) (on_flow (set_ent (with_valid v e)) k d0)).
    assert (k < length (flowTbl d0)) as Hlen by by rewrite (ok_length d0 Hd0).
    assert (flow_at k d2 = set_ent (with_valid v e) (flow_at k d0)) as E2 by by apply (flow_at_same (set_ent (with_valid v e)) k d0).
    assert (flows_ok d2) as Hd2 by (apply (touch_ok mild k d0); [done|by exists (set_ent (with_valid v e))|done]).
    pose proof (swField_set_cases k hash ct x (indMac_of e) sw_only st mc asked p d2 Hk (bucket_number hash Hb) (ok_length d2 Hd2)) as Hcases.
    pose proof (put_match k hash ct x (indMac_of e) sw_only st mc asked p d2) as Hpm.
    destruct (_rtk_fc_flow_swField_set k hash ct x (indMac_of e) sw_only st mc asked p d2) as [r2 d3].
    case_bool_decide as Hr2; [|by intros [= ? _ _]]. intros [= _ <- <-]. apply (known_calm k d3); [apply calm_after|].
    destruct Hcases as [[_ Ha]|[-> _]]; [|done]. split; [by apply (put_shown hash not_tcam sw_only k d2)|].
    apply (Hpm d3 v e); [done|by rewrite (ok_length d2 Hd2)| |by rewrite E2|by rewrite Hr2]. rewrite E2. apply (ok_bare d0 Hd0 k Hn). }
  destruct r, o as [k|]; try done.
  - destruct Hf as (Hu & Hp & ->). by apply Hput.
  - destruct Hf as ([Hk Hst] & Hp & ->). apply Hput; [|split; [done|by apply delete_gone]|done].
    apply (ok_core (rtk_fc_flow_delete k d).2); [done|by apply delete_ok].
  - destruct Hf as (Hk & -> & Hm & Hs). intros [= -> <-]. apply (known_calm i (on_flow (delay_hit (g3 <$> asked)) i d)); [apply (calm_met e p i i)|].
    apply (known_calm i d); [apply calm_delay|]. split; [by apply Hs|done].
Qed.
End Request.
End Match.
End Found.
