(* ===== verification/FcFlowAge.v ===== *)
(** * Idle flows age out

    A round of the house keeping visits every flow once.  A visit concerns only its flow
    ([only]); in a walk over entries without repetition a flow is visited once, or, when it
    is not among them, not at all ([each_once], [each_none]).  From this follow the walks
    over a bucket, a section and the whole table. *)
From stdpp Require Import gmap.
From S2P Require Import Prelude FcLists FcFlowKey FcFlowSide FcFlowSideSpec FcFlow FcFlowAdd FcFlowFlush FcFlowInv FcFlowSmall FcFlowFind FcFlowSteps FcFlowSafe.
Open Scope nat_scope.

Section Age.
Context `{FlowChecks} `{FlowSideConfig} `{Env : FlowEnv} `{!FlowLaws}.

Abbreviation moves_rel := (thins unmoved (fun (_ : nat) f => force_update f = false)).

(** ** Visits *)

Lemma update_only i trf d : flows_ok d -> only i d (rtk_fc_flow_updateTimer_and_checkTimeout i trf d).2.
Proof.
  intros Hd. split; [by apply update_moves|]. intros j Hj. unfold rtk_fc_flow_updateTimer_and_checkTimeout.
  destruct (flowSwTableSize <=? i); [done|]. pose proof (check_flow_ok i trf (note_traffic i trf d)) as Hv.
  destruct (check_flow i trf (note_traffic i trf d)) as [d'|d']; simpl.
  - rewrite (proj1 (touch_flow _ i _ d' j Hv) Hj). apply flow_note_traffic.
  - destruct Hv as [T _]. assert (flows_ok d') as Hd'.
    { eapply touch_ok; [by apply unmoved_use|exact T|]. by eapply ok_core; [symmetry; apply core_note_traffic|]. }
    rewrite delete_flow_other by done. rewrite (proj1 (touch_flow _ i _ d' j T) Hj). apply flow_note_traffic.
Qed.
Lemma trf_only i d : flows_ok d -> only i d (on_flow (set_trf false) i d).
Proof. intros Hd. apply (only_touch unmoved); [done|by apply unmoved_use|by apply touch_on]. Qed.
Lemma visit_hw_only bits i d : flows_ok d -> only i d (visit_hw bits i d).
Proof.
  intros Hd. unfold visit_hw. destruct (in_use _); [|done]. pose proof (trf_only i d Hd) as T. eapply only_trans; [exact T|]. by apply update_only, T.
Qed.
Lemma visit_sw_only i d : flows_ok d -> only i d (visit_sw i d).
Proof.
  intros Hd. unfold visit_sw. destruct (in_use _); [|done]. pose proof (update_only i (swTrfBit (flow_at i d)) d Hd) as T.
  eapply only_trans; [exact T|]. by apply trf_only, T.
Qed.

(** A flow that no connection is asked about, and that may go. *)
Definition idle_checked (f : flow) : Prop :=
  force_update f = false /\ needUpdate f = false /\
  match in_path (ent f) with
  | FB_PATH_12 => True
  | FB_PATH_34 | FB_PATH_5 => static f || FLOW_INFO_IS_SET f SKIP_CT || FLOW_INFO_IS_SET f MC_ENTRY = true
  | FB_PATH_6 => False
  end.
Definition silent (f : flow) : Prop := in_use f = true /\ idle_checked f /\ swTrfBit f = false.
Definition aged (f : flow) : flow := set_idle (idleSecs f + flowSyncPeriod_unit1s) f.
Definition expired (f : flow) : Prop := (idle_timeout f <= idleSecs f + flowSyncPeriod_unit1s)%Z.
(** One visit without traffic. *)
Definition one_visit (f f' : flow) : Prop := (expired f /\ in_use f' = false) \/ (~ expired f /\ f' = aged f).

Lemma silent_aged f : silent f -> silent (aged f).
Proof. done. Qed.
Lemma set_trf_same f : swTrfBit f = false -> set_trf false f = f.
Proof. destruct f. simpl. by intros ->. Qed.
Lemma check_silent i d : silent (flow_at i d) ->
  check_flow i false d = if (idle_timeout (flow_at i d) <=? idleSecs (flow_at i d) + flowSyncPeriod_unit1s)%Z
    then Timeout (on_flow aged i d) else Keep (on_flow aged i d).
Proof.
  intros (_ & (Hf & Hn & Hp) & _). unfold check_flow. rewrite Hn. simpl. assert (forall (a b : visit), (if true then a else b) = a) as Hif by done.
  assert (idle_check i false d = if (idle_timeout (flow_at i d) <=? idleSecs (flow_at i d) + flowSyncPeriod_unit1s)%Z
    then Timeout (on_flow aged i d) else Keep (on_flow aged i d)) as <-; [|destruct (in_path (ent (flow_at i d))); by rewrite ?Hp].
  unfold idle_check. rewrite Hf. simpl.
  assert (on_flow (set_idle (idleSecs (flow_at i d) + flowSyncPeriod_unit1s)) i d = on_flow aged i d) as ->; [|done].
  unfold on_flow. f_equal. apply list_alter_ext; [|done]. intros x Hx. unfold aged, flow_at. by rewrite nth_lookup, Hx.
Qed.
Lemma update_silent i d : flows_ok d -> silent (flow_at i d) ->
  one_visit (flow_at i d) (flow_at i (rtk_fc_flow_updateTimer_and_checkTimeout i false d).2).
Proof.
  intros Hd Hs. assert (i < flowSwTableSize) as Hi by (apply (live_bound d i Hd), Hs).
  unfold rtk_fc_flow_updateTimer_and_checkTimeout. rewrite (proj2 (Nat.leb_gt _ _) Hi). unfold note_traffic. simpl.
  rewrite check_silent by done. assert (touch unmoved i d (on_flow aged i d)) as T by by apply touch_on.
  assert (flow_at i (on_flow aged i d) = aged (flow_at i d)) as E by (apply flow_at_same; by rewrite (ok_length d Hd)).
  destruct (Z.leb_spec (idle_timeout (flow_at i d)) (idleSecs (flow_at i d) + flowSyncPeriod_unit1s)); simpl.
  - left. split; [done|]. apply not_true_iff_false. apply (delete_gone i); [|done]. by eapply touch_ok; [by apply unmoved_use|exact T|].
  - right. split; [unfold expired; lia|done].
Qed.
Lemma visit_hw_silent bits i d : flows_ok d -> silent (flow_at i d) -> bits i = false -> one_visit (flow_at i d) (flow_at i (visit_hw bits i d)).
Proof.
  intros Hd Hs Hb. assert (i < flowSwTableSize) as Hi by (apply (live_bound d i Hd), Hs). unfold visit_hw. destruct Hs as (Hu & Hc & Ht). rewrite Hu, Ht, Hb. simpl.
  assert (flow_at i (on_flow (set_trf false) i d) = flow_at i d) as E
    by (rewrite flow_at_same by (by rewrite (ok_length d Hd)); by apply set_trf_same).
  rewrite <- E at 1. apply update_silent; [by apply trf_only|]. by rewrite E.
Qed.
Lemma visit_sw_silent i d : flows_ok d -> silent (flow_at i d) -> one_visit (flow_at i d) (flow_at i (visit_sw i d)).
Proof.
  intros Hd Hs. unfold visit_sw. pose proof Hs as (Hu & Hc & Ht). rewrite Hu, Ht. pose proof (update_silent i d Hd Hs) as Hv.
  set (d' := (rtk_fc_flow_updateTimer_and_checkTimeout i false d).2) in *. rewrite flow_at_on. case_decide; [|done].
  destruct Hv as [[? Hn]|[? E]]; [by left|right]. split; [done|]. rewrite E. by apply set_trf_same.
Qed.
Lemma visit_hw_dead bits i d : ~ live d i -> visit_hw bits i d = d.
Proof. unfold live, visit_hw. by destruct (in_use _). Qed.
Lemma visit_sw_dead i d : ~ live d i -> visit_sw i d = d.
Proof. unfold live, visit_sw. by destruct (in_use _). Qed.

(** ** Walks *)

Section Walk.
Context (f : nat -> fc -> fc) (Honly : forall j d, flows_ok d -> only j d (f j d)) (Hdead : forall j d, ~ live d j -> f j d = d).

Lemma each_none l d i : flows_ok d -> i ∉ l \/ ~ live d i -> flow_at i (each f l d) = flow_at i d.
Proof.
  unfold each. revert d. induction l as [|j l IH]; intros d Hd Hi; [done|]. simpl. pose proof (Honly j d Hd) as [Hd' Ho].
  assert (flow_at i (f j d) = flow_at i d) as E.
  { destruct (decide (j = i)) as [->|Hn]; [|by apply Ho]. destruct Hi as [Hi|Hi]; [destruct Hi; by left|by rewrite Hdead]. }
  rewrite IH; [done|done|]. destruct Hi as [Hi|Hi]; [left; set_solver|right]. unfold live in *. by rewrite E.
Qed.
Lemma each_once l d i : flows_ok d -> NoDup l -> i ∈ l -> exists d1, flows_ok d1 /\ flow_at i d1 = flow_at i d /\ flow_at i (each f l d) = flow_at i (f i d1).
Proof.
  unfold each. revert d. induction l as [|j l IH]; intros d Hd Hl Hi; [by apply elem_of_nil in Hi|]. simpl.
  apply NoDup_cons in Hl as [Hj Hl]. pose proof (Honly j d Hd) as [Hd' Ho]. apply elem_of_cons in Hi as [->|Hi].
  - exists d. split; [done|]. split; [done|]. apply (each_none l (f j d) j Hd'). by left.
  - assert (j <> i) as Hn by (by intros ->). destruct (IH (f j d) Hd' Hl Hi) as (d1 & ? & E & ?). exists d1. by rewrite E, Ho.
Qed.
Lemma each_ok l d : flows_ok d -> flows_ok (each f l d).
Proof. unfold each. revert d. induction l as [|j l IH]; intros d Hd; [done|]. simpl. by apply IH, Honly. Qed.
End Walk.

(** ** One bucket *)

Section Bucket.
Context (bits : nat -> bool) (i : nat).

Lemma list_moves l d : flows_ok d -> moves_rel d (each visit_sw (Nat.add flowHwTableSize <$> bucket_list l (swl d)) d).
Proof.
  intros Hd. apply (thins_list unmoved _ unmoved_refl unmoved_trans unmoved_back visit_sw); [|done].
  intros; apply visit_sw_moves.
Qed.
Lemma ways_moves b d : flows_ok d -> b < flowHashBuckets -> moves_rel d (each (visit_hw bits) (seq (b * ways) ways) d).
Proof.
  intros Hd Hb. apply (thins_ways unmoved _ unmoved_refl unmoved_trans unmoved_back (visit_hw bits)); [|done|done].
  intros; apply visit_hw_moves.
Qed.
Lemma tcam_moves b d : flows_ok d -> moves_rel d (if fbMode_4K then each (visit_hw bits) (Nat.add FLOWSRAM <$> bucket_list b (tcam d)) d else d).
Proof.
  intros Hd. apply (thins_tcam unmoved _ unmoved_refl unmoved_trans unmoved_back (visit_hw bits)); [|done].
  intros; apply visit_hw_moves.
Qed.
Lemma bucket_moves b d : flows_ok d -> b < flowHashBuckets -> moves_rel d (scan_bucket bits b d).
Proof.
  intros Hd Hb. apply (thins_bucket unmoved _ unmoved_refl unmoved_trans unmoved_back (visit_hw bits) (visit_hw bits) visit_sw);
    auto using visit_hw_moves, visit_sw_moves.
Qed.

(** A flow that is in use keeps its place. *)
Lemma moves_stays d d' : flows_ok d -> moves_rel d d' -> live d' i -> live d i /\ stays d d' i.
Proof.
  intros Hd T Hl. destruct (T Hd) as (_ & Hl' & Hf). split; [auto|]. by destruct (Hf i (Hl' i Hl)) as [(_ & _ & ?)|[_ ?]].
Qed.
Lemma sw_unique d l l' : flows_ok d -> on_sw d l i -> on_sw d l' i -> l = l'.
Proof.
  intros Hd (k & -> & Hk)%list_elem_of_fmap (k' & E & Hk')%list_elem_of_fmap. assert (k' = k) as -> by lia.
  by apply (part_unique _ _ (ok_sw d Hd) l l' k).
Qed.
Lemma nodup_part n b (p : idx_lists) o : partitioned n p -> NoDup (Nat.add o <$> bucket_list b p).
Proof.
  intros P. apply NoDup_fmap_2; [by intros ???; lia|]. pose proof (part_nodup _ _ P) as Hn. unfold members in Hn. apply NoDup_app in Hn as (_ & _ & Hn).
  rewrite bucket_lookup. destruct (chains p !! b) as [l|] eqn:E; [|apply NoDup_nil_2]. simpl.
  apply list_elem_of_split_length in E as (l1 & l2 & E & _). rewrite E, concat_app in Hn. apply NoDup_app in Hn as (_ & _ & Hn).
  simpl in Hn. by apply NoDup_app in Hn as (? & _).
Qed.

(** The lists of software. *)
Definition scan_lists (ls : list nat) (d : fc) : fc :=
  each (fun l d => each visit_sw (Nat.add flowHwTableSize <$> bucket_list l (swl d)) d) ls d.
Lemma lists_none ls d : flows_ok d -> ~ live d i \/ is_sw i = false \/ (exists h, on_sw d h i /\ h ∉ ls) ->
  flow_at i (scan_lists ls d) = flow_at i d.
Proof.
  revert d. induction ls as [|k ls IH]; intros d Hd Hi; [done|].
  change (scan_lists (k :: ls) d) with (scan_lists ls (each visit_sw (Nat.add flowHwTableSize <$> bucket_list k (swl d)) d)).
  pose proof (list_moves k d Hd) as T. set (d1 := each visit_sw _ d) in *. assert (flows_ok d1) as Hd1 by by apply T.
  assert (flow_at i d1 = flow_at i d) as E.
  { apply each_none; [apply visit_sw_only|apply visit_sw_dead|done|]. destruct Hi as [?|[Hs|(h & Hh & Hn)]]; [by right|left|left].
    - intros Hk. by rewrite (sw_part d k i Hd Hk) in Hs.
    - intros Hk. apply Hn. rewrite (sw_unique d h k Hd Hh Hk). by left. }
  rewrite IH; [done|done|]. destruct (decide (in_use (flow_at i d1) = true)) as [Hl|Hn]; [|by left].
  destruct (moves_stays d d1 Hd T Hl) as [Hl' [_ Hst]]. destruct Hi as [?|[?|(h & Hh & Hn)]]; [done|auto|]. right. right. exists h. split; [auto|].
  set_solver.
Qed.
Lemma lists_once ls d h : flows_ok d -> silent (flow_at i d) -> NoDup ls -> h ∈ ls -> on_sw d h i ->
  one_visit (flow_at i d) (flow_at i (scan_lists ls d)).
Proof.
  revert d. induction ls as [|k ls IH]; intros d Hd Hs Hnd Hin Hh; [by apply elem_of_nil in Hin|].
  change (scan_lists (k :: ls) d) with (scan_lists ls (each visit_sw (Nat.add flowHwTableSize <$> bucket_list k (swl d)) d)).
  pose proof (list_moves k d Hd) as T. set (d1 := each visit_sw _ d) in *. assert (flows_ok d1) as Hd1 by by apply T.
  apply NoDup_cons in Hnd as [Hk Hnd]. apply elem_of_cons in Hin as [->|Hin].
  - destruct (each_once visit_sw visit_sw_only visit_sw_dead _ d i Hd (nodup_part _ _ _ _ (ok_sw d Hd)) Hh) as (d0 & Hd0 & E0 & E1).
    fold d1 in E1. rewrite lists_none; [|done|].
    + rewrite E1, <- E0. apply visit_sw_silent; [done|by rewrite E0].
    + destruct (decide (in_use (flow_at i d1) = true)) as [Hl|Hn]; [|by left]. right. right. exists k. split; [|done].
      by apply (moves_stays d d1 Hd T Hl).
  - assert (flow_at i d1 = flow_at i d) as E.
    { apply each_none; [apply visit_sw_only|apply visit_sw_dead|done|]. left. intros Hk'. by rewrite (sw_unique d h k Hd Hh Hk') in Hin. }
    assert (live d1 i) as Hl by (unfold live; rewrite E; apply Hs). rewrite <- E. apply IH; [done|by rewrite E|done|done|].
    by apply (moves_stays d d1 Hd T Hl).
Qed.

Lemma parts_exclusive : is_tcam i = true -> is_sw i = false.
Proof. intros Ht. apply is_tcam_spec in Ht. apply not_true_iff_false. rewrite is_sw_spec. lia. Qed.
Lemma way_only b : b < flowHashBuckets -> i ∈ seq (b * ways) ways -> is_tcam i = false /\ is_sw i = false.
Proof. intros Hb Hi. pose proof (way_is_way b i Hb Hi) as Hw. unfold is_way in Hw. by destruct (is_tcam i), (is_sw i). Qed.
Lemma lists_nodup : NoDup (concat (SW_FLOW_LISTS_IN_BUCKET <$> seq 0 flowHashBuckets)).
Proof. rewrite laws_walk. apply NoDup_seq. Qed.
Lemma concat_unique {A} (ls : list (list A)) b b' l l' x : NoDup (concat ls) -> ls !! b = Some l -> ls !! b' = Some l' -> x ∈ l -> x ∈ l' -> b = b'.
Proof.
  revert b b'. induction ls as [|k ls IH]; intros b b'; [done|]. simpl. intros (Hk & Hd & Hn)%NoDup_app Hb Hb' Hx Hx'.
  assert (forall c m, ls !! c = Some m -> x ∈ m -> x ∈ concat ls) as Hc
    by (intros c m Hm Hxm; apply list_elem_of_In, in_concat; exists m; split; apply list_elem_of_In; [by eapply list_elem_of_lookup_2|done]).
  destruct b as [|b], b' as [|b']; simpl in *; [done| | |f_equal; by apply IH].
  - injection Hb as ->. by destruct (Hd x Hx (Hc _ _ Hb' Hx')).
  - injection Hb' as ->. by destruct (Hd x Hx' (Hc _ _ Hb Hx)).
Qed.
Lemma lists_disjoint b b' h : b < flowHashBuckets -> b' < flowHashBuckets -> h ∈ SW_FLOW_LISTS_IN_BUCKET b -> h ∈ SW_FLOW_LISTS_IN_BUCKET b' -> b = b'.
Proof.
  intros Hb Hb'. assert (forall c, c < flowHashBuckets -> (SW_FLOW_LISTS_IN_BUCKET <$> seq 0 flowHashBuckets) !! c = Some (SW_FLOW_LISTS_IN_BUCKET c)) as Hl
    by (intros c Hc; rewrite list_lookup_fmap, lookup_seq_lt by done; done).
  apply (concat_unique _ b b' _ _ h lists_nodup); auto.
Qed.
Lemma bucket_lists_nodup b : b < flowHashBuckets -> NoDup (SW_FLOW_LISTS_IN_BUCKET b).
Proof.
  intros Hb. pose proof lists_nodup as Hn. assert ((SW_FLOW_LISTS_IN_BUCKET <$> seq 0 flowHashBuckets) !! b = Some (SW_FLOW_LISTS_IN_BUCKET b)) as E
    by (rewrite list_lookup_fmap, lookup_seq_lt by done; done).
  apply list_elem_of_split_length in E as (l1 & l2 & E & _). rewrite E, concat_app in Hn. apply NoDup_app in Hn as (_ & _ & Hn).
  simpl in Hn. by apply NoDup_app in Hn as (? & _).
Qed.
Lemma in_bucket_unique d b b' : flows_ok d -> b < flowHashBuckets -> b' < flowHashBuckets -> in_bucket d b i -> in_bucket d b' i -> b = b'.
Proof.
  intros Hd Hb Hb' [Hw|[[_ Ht]|(h & Hh & Hs)]] [Hw'|[[_ Ht']|(h' & Hh' & Hs')]].
  - apply elem_of_seq in Hw, Hw'. nia.
  - apply (way_only b Hb) in Hw as [Hw _]. by rewrite (tcam_part d b' i Hd Ht') in Hw.
  - apply (way_only b Hb) in Hw as [_ Hw]. by rewrite (sw_part d h' i Hd Hs') in Hw.
  - apply (way_only b' Hb') in Hw' as [Hw _]. by rewrite (tcam_part d b i Hd Ht) in Hw.
  - apply list_elem_of_fmap in Ht as (k & -> & Hk). apply list_elem_of_fmap in Ht' as (k' & E & Hk'). assert (k' = k) as -> by lia.
    by apply (part_unique _ _ (ok_tcam d Hd) b b' k).
  - pose proof (parts_exclusive (tcam_part d b i Hd Ht)) as Hn. by rewrite (sw_part d h' i Hd Hs') in Hn.
  - apply (way_only b' Hb') in Hw' as [_ Hw]. by rewrite (sw_part d h i Hd Hs) in Hw.
  - pose proof (parts_exclusive (tcam_part d b' i Hd Ht')) as Hn. by rewrite (sw_part d h i Hd Hs) in Hn.
  - rewrite (sw_unique d h h' Hd Hs Hs') in Hh. by apply (lists_disjoint b b' h').
Qed.
Lemma stays_in_bucket d d' b : stays d d' i -> in_bucket d b i -> in_bucket d' b i.
Proof. intros [Ht Hs] [?|[[? ?]|(h & ? & ?)]]; [by left|right; left; auto|right; right; eauto]. Qed.

(** The three stages of a bucket. *)
Definition scan_ways (b : nat) (d : fc) : fc := each (visit_hw bits) (seq (b * ways) ways) d.
Definition scan_tcam (b : nat) (d : fc) : fc := if fbMode_4K then each (visit_hw bits) (Nat.add FLOWSRAM <$> bucket_list b (tcam d)) d else d.
Lemma scan_stages b d : scan_bucket bits b d = scan_lists (SW_FLOW_LISTS_IN_BUCKET b) (scan_tcam b (scan_ways b d)).
Proof. done. Qed.
Lemma ways_none b d : flows_ok d -> i ∉ seq (b * ways) ways \/ ~ live d i -> flow_at i (scan_ways b d) = flow_at i d.
Proof. intros. apply each_none; [apply visit_hw_only|apply visit_hw_dead|done|done]. Qed.
Lemma tcam_none b d : flows_ok d -> ~ on_tcam d b i \/ ~ live d i -> flow_at i (scan_tcam b d) = flow_at i d.
Proof. intros. unfold scan_tcam. destruct fbMode_4K; [|done]. apply each_none; [apply visit_hw_only|apply visit_hw_dead|done|done]. Qed.

Lemma bucket_once b d : bits i = false -> flows_ok d -> silent (flow_at i d) -> b < flowHashBuckets -> in_bucket d b i ->
  one_visit (flow_at i d) (flow_at i (scan_bucket bits b d)).
Proof.
  intros Hquiet Hd Hs Hb Hi. rewrite scan_stages. assert (live d i) as Hl by apply Hs.
  pose proof (ways_moves b d Hd Hb) as T1. fold (scan_ways b d) in T1. assert (flows_ok (scan_ways b d)) as Hd1 by by apply T1.
  pose proof (tcam_moves b _ Hd1) as T2. fold (scan_tcam b (scan_ways b d)) in T2. assert (flows_ok (scan_tcam b (scan_ways b d))) as Hd2 by by apply T2.
  destruct Hi as [Hw|[[H4 Ht]|(h & Hh & Hsw)]].
  - destruct (way_only b Hb Hw) as [Hnt Hns]. rewrite lists_none by auto. rewrite tcam_none; [|done|left; intros Ht; by rewrite (tcam_part _ b i Hd1 Ht) in Hnt].
    destruct (each_once (visit_hw bits) (visit_hw_only bits) (visit_hw_dead bits) _ d i Hd (NoDup_seq _ _) Hw) as (d0 & Hd0 & E0 & E1).
    fold (scan_ways b d) in E1. rewrite E1, <- E0. apply visit_hw_silent; [done|by rewrite E0|done].
  - pose proof (tcam_part d b i Hd Ht) as Hti. rewrite lists_none by (auto using parts_exclusive).
    assert (flow_at i (scan_ways b d) = flow_at i d) as E by (apply ways_none; [done|]; left; intros Hw; destruct (way_only b Hb Hw); congruence).
    assert (on_tcam (scan_ways b d) b i) as Ht1 by (apply (moves_stays d _ Hd T1); [unfold live; by rewrite E|done]).
    rewrite <- E. unfold scan_tcam. rewrite H4. set (d1 := scan_ways b d) in *.
    destruct (each_once (visit_hw bits) (visit_hw_only bits) (visit_hw_dead bits) _ d1 i Hd1 (nodup_part _ _ _ _ (ok_tcam d1 Hd1)) Ht1) as (d0 & Hd0 & E0 & E1).
    rewrite E1, <- E0. apply visit_hw_silent; [done|by rewrite E0, E|done].
  - pose proof (sw_part d h i Hd Hsw) as Hsi. assert (is_tcam i = false) as Hti by (destruct (is_tcam i) eqn:Et; [|done]; apply parts_exclusive in Et; congruence).
    assert (flow_at i (scan_ways b d) = flow_at i d) as E by (apply ways_none; [done|]; left; intros Hw; destruct (way_only b Hb Hw); congruence).
    assert (flow_at i (scan_tcam b (scan_ways b d)) = flow_at i d) as E2.
    { rewrite tcam_none; [done|done|]. left. intros Ht. rewrite (tcam_part _ b i Hd1 Ht) in Hti. done. }
    rewrite <- E2. apply (lists_once _ _ h); [done|by rewrite E2|by apply bucket_lists_nodup|done|].
    apply (moves_stays _ _ Hd1 T2); [unfold live; by rewrite E2|]. apply (moves_stays _ _ Hd T1); [unfold live; by rewrite E|done].
Qed.
Lemma bucket_dead b d : flows_ok d -> b < flowHashBuckets -> ~ live d i -> flow_at i (scan_bucket bits b d) = flow_at i d.
Proof.
  intros Hd Hb Hn. rewrite scan_stages. pose proof (ways_moves b d Hd Hb) as T1. fold (scan_ways b d) in T1. assert (flows_ok (scan_ways b d)) as Hd1 by by apply T1.
  pose proof (tcam_moves b _ Hd1) as T2. fold (scan_tcam b (scan_ways b d)) in T2. assert (flows_ok (scan_tcam b (scan_ways b d))) as Hd2 by by apply T2.
  assert (flow_at i (scan_ways b d) = flow_at i d) as E1 by (apply ways_none; auto).
  assert (flow_at i (scan_tcam b (scan_ways b d)) = flow_at i d) as E2 by (rewrite tcam_none; [done|done|right; unfold live; by rewrite E1]).
  rewrite lists_none; [done|done|]. left. unfold live. by rewrite E2.
Qed.
Lemma bucket_none b b' d : flows_ok d -> b < flowHashBuckets -> b' < flowHashBuckets -> b <> b' -> live d i -> in_bucket d b' i ->
  flow_at i (scan_bucket bits b d) = flow_at i d.
Proof.
  intros Hd Hb Hb' Hne Hl Hi. rewrite scan_stages.
  pose proof (ways_moves b d Hd Hb) as T1. fold (scan_ways b d) in T1. assert (flows_ok (scan_ways b d)) as Hd1 by by apply T1.
  pose proof (tcam_moves b _ Hd1) as T2. fold (scan_tcam b (scan_ways b d)) in T2. assert (flows_ok (scan_tcam b (scan_ways b d))) as Hd2 by by apply T2.
  assert (flow_at i (scan_ways b d) = flow_at i d) as E1.
  { apply ways_none; [done|]. left. intros Hw. apply Hne, (in_bucket_unique d); [done..|by left|done]. }
  assert (in_bucket (scan_ways b d) b' i) as Hi1 by (eapply stays_in_bucket; [|exact Hi]; apply (moves_stays d _ Hd T1); unfold live; by rewrite E1).
  assert (flow_at i (scan_tcam b (scan_ways b d)) = flow_at i d) as E2.
  { unfold scan_tcam. destruct fbMode_4K eqn:H4; [|done]. rewrite <- E1. apply each_none; [apply visit_hw_only|apply visit_hw_dead|done|].
    left. intros Ht. apply Hne, (in_bucket_unique (scan_ways b d)); [done..|right; left; done|done]. }
  assert (in_bucket (scan_tcam b (scan_ways b d)) b' i) as Hi2 by (eapply stays_in_bucket; [|exact Hi1]; apply (moves_stays _ _ Hd1 T2); unfold live; by rewrite E2).
  rewrite lists_none; [done|done|]. right. destruct Hi2 as [Hw|[[_ Ht]|(h & Hh & Hs)]].
  - left. by apply (way_only b').
  - left. by eapply parts_exclusive, tcam_part.
  - right. exists h. split; [done|]. intros Hh'. by apply Hne, (lists_disjoint b b' h).
Qed.

(** ** Some buckets *)

(** What a walk over buckets has done to the flow of bucket [b0]. *)
Definition scanned (visited : bool) (b0 : nat) (d d' : fc) : Prop :=
  if visited then one_visit (flow_at i d) (flow_at i d') /\ (live d' i -> in_bucket d' b0 i)
  else flow_at i d' = flow_at i d /\ in_bucket d' b0 i.
Lemma buckets_scanned start n d b0 : bits i = false -> flows_ok d -> silent (flow_at i d) -> start + n <= flowHashBuckets -> b0 < flowHashBuckets -> in_bucket d b0 i ->
  scanned (bool_decide (start <= b0 < start + n)) b0 d (each (scan_bucket bits) (seq start n) d) /\ flows_ok (each (scan_bucket bits) (seq start n) d).
Proof.
  intros Hquiet Hd Hs. induction n as [|n IH]; intros Hle Hb0 Hi.
  { rewrite bool_decide_eq_false_2 by lia. by split. }
  destruct IH as [IH Hok]; [lia|done|done|]. assert (each (scan_bucket bits) (seq start (S n)) d = scan_bucket bits (start + n) (each (scan_bucket bits) (seq start n) d)) as ->
    by (unfold each; rewrite seq_S, fold_left_app; done).
  set (d' := each (scan_bucket bits) (seq start n) d) in *. assert (start + n < flowHashBuckets) as Hb by lia.
  pose proof (bucket_moves (start + n) d' Hok Hb) as T. split; [|by apply T].
  assert (live (scan_bucket bits (start + n) d') i -> in_bucket d' b0 i -> in_bucket (scan_bucket bits (start + n) d') b0 i) as Hst.
  { intros Hl Hib. eapply stays_in_bucket; [|exact Hib]. by apply (moves_stays d' _ Hok T). }
  case_bool_decide as Hv; case_bool_decide as Hv'; try lia; simpl in *.
  - destruct IH as [Hone Hib]. destruct (decide (in_use (flow_at i d') = true)) as [Hl|Hn].
    + rewrite (bucket_none (start + n) b0) by (auto; lia). split; [done|]. intros Hl'. auto.
    + rewrite (bucket_dead (start + n) d') by done. split; [done|]. unfold live. rewrite (bucket_dead (start + n) d') by done. done.
  - destruct IH as [E Hib]. assert (b0 = start + n) as -> by lia. split; [|auto]. rewrite <- E. by apply bucket_once; [| |rewrite E| |].
  - destruct IH as [E Hib]. assert (live d' i) as Hl by (unfold live; rewrite E; apply Hs).
    rewrite (bucket_none (start + n) b0) by (auto; lia). split; [done|]. apply Hst; [|done]. unfold live. rewrite (bucket_none (start + n) b0) by (auto; lia). done.
Qed.
Lemma buckets_dead start n d : flows_ok d -> ~ live d i -> start + n <= flowHashBuckets -> flow_at i (each (scan_bucket bits) (seq start n) d) = flow_at i d.
Proof.
  unfold each. revert start d. induction n as [|n IH]; intros start d Hd Hn Hle; [done|]. simpl.
  assert (flow_at i (scan_bucket bits start d) = flow_at i d) as E by (apply bucket_dead; [done|lia|done]).
  rewrite IH; [done| |unfold live; by rewrite E|lia]. apply (bucket_moves start d Hd); [lia|done].
Qed.
End Bucket.

(** ** Rounds *)

(** A sequence of checks, each with the traffic the switch reports (without an error). *)
Definition checks (l : list (list bool * list bool)) (d : fc) : fc := fold_left (fun d x => (_rtk_fc_flow_timeoutCheck (Some x.1) x.2 d).2) l d.
(** How many checks a round takes. *)
Definition round_checks : nat := (flowHashBuckets + flowSync_GRANULARITY - 1) / flowSync_GRANULARITY.
Definition no_traffic (i : nat) (x : list bool * list bool) : Prop := nth i x.1 false = false /\ nth (i - FLOWSRAM) x.2 false = false.

Section Rounds.
Context (i : nat) (Hgran : flowSync_GRANULARITY <> 0).

Lemma quiet_bits x r : no_traffic i x -> traffic_bit_of x.1 x.2 r i = false.
Proof. intros [E1 E2]. unfold traffic_bit_of. by destruct (r && is_tcam i). Qed.
Lemma check_scanned x d b0 : flows_ok d -> silent (flow_at i d) -> no_traffic i x -> swFlow_hkCurIdx d < flowHashBuckets ->
  b0 < flowHashBuckets -> in_bucket d b0 i ->
  let stop := min (swFlow_hkCurIdx d + flowSync_GRANULARITY) flowHashBuckets in let d' := scan_section x.1 x.2 d in
  scanned i (bool_decide (swFlow_hkCurIdx d <= b0 < stop)) b0 d d' /\ swFlow_hkCurIdx d' = stop mod flowHashBuckets.
Proof.
  intros Hd Hs Hq Hc Hb Hi stop d'. split; [|done]. unfold d', scan_section. fold stop. set (r := fbMode_4K && _).
  destruct (buckets_scanned (traffic_bit_of x.1 x.2 r) i (swFlow_hkCurIdx d) (stop - swFlow_hkCurIdx d) d b0 (quiet_bits x r Hq) Hd Hs) as [Hsc _];
    [unfold stop; lia|done|done|]. rewrite (bool_decide_ext _ (swFlow_hkCurIdx d <= b0 < stop)) in Hsc by (unfold stop; lia). exact Hsc.
Qed.
Lemma check_dead x d : flows_ok d -> ~ live d i -> swFlow_hkCurIdx d < flowHashBuckets -> flow_at i (scan_section x.1 x.2 d) = flow_at i d.
Proof.
  intros Hd Hn Hc. unfold scan_section. set (r := fbMode_4K && _).
  apply (buckets_dead (traffic_bit_of x.1 x.2 r)); [done|done|lia].
Qed.
Lemma checks_ok l d : flows_ok d -> flows_ok (checks l d).
Proof.
  unfold checks. revert d. induction l as [|x l IH]; intros d Hd; [done|]. simpl. apply IH. by apply (section_moves x.1 x.2 d).
Qed.
Lemma checks_snoc l x d : checks (l ++ [x]) d = scan_section x.1 x.2 (checks l d).
Proof. unfold checks. by rewrite fold_left_app. Qed.
Lemma round_edge k : k < round_checks -> k * flowSync_GRANULARITY < flowHashBuckets.
Proof.
  unfold round_checks. intros Hk. pose proof (Nat.Div0.mul_div_le (flowHashBuckets + flowSync_GRANULARITY - 1) flowSync_GRANULARITY). nia.
Qed.
Lemma round_end : flowHashBuckets <= round_checks * flowSync_GRANULARITY.
Proof.
  unfold round_checks. pose proof (Nat.div_mod_eq (flowHashBuckets + flowSync_GRANULARITY - 1) flowSync_GRANULARITY).
  pose proof (Nat.mod_upper_bound (flowHashBuckets + flowSync_GRANULARITY - 1) flowSync_GRANULARITY Hgran). nia.
Qed.

(** The first checks of a round. *)
Lemma part_of_round l d b0 : flows_ok d -> silent (flow_at i d) -> swFlow_hkCurIdx d = 0 -> b0 < flowHashBuckets -> in_bucket d b0 i ->
  Forall (no_traffic i) l -> length l <= round_checks ->
  scanned i (bool_decide (b0 < length l * flowSync_GRANULARITY)) b0 d (checks l d) /\
  swFlow_hkCurIdx (checks l d) = min (length l * flowSync_GRANULARITY) flowHashBuckets mod flowHashBuckets.
Proof.
  intros Hd Hs Hc Hb Hi. induction l as [|x l IH] using rev_ind; intros Hq Hlen.
  { rewrite bool_decide_eq_false_2 by (simpl; lia). split; [done|]. change (checks [] d) with d. rewrite Hc. simpl. by rewrite Nat.Div0.mod_0_l. }
  rewrite length_app in *. simpl in *. rewrite Forall_app, Forall_singleton in Hq. destruct Hq as [Hq Hx]. destruct IH as [IH Hcur]; [done|lia|].
  assert (length l * flowSync_GRANULARITY < flowHashBuckets) as Hlt by (apply round_edge; lia).
  rewrite Nat.min_l, Nat.mod_small in Hcur by lia. rewrite checks_snoc. pose proof (checks_ok l d Hd) as Hok. set (d' := checks l d) in *.
  replace ((length l + 1) * flowSync_GRANULARITY) with (length l * flowSync_GRANULARITY + flowSync_GRANULARITY) by lia.
  split; [|unfold scan_section; simpl; by rewrite Hcur].
  case_bool_decide as Hv; simpl in IH.
  - rewrite bool_decide_eq_true_2 by lia. destruct IH as [Hone Hib]. destruct (decide (in_use (flow_at i d') = true)) as [Hl|Hn].
    + assert (silent (flow_at i d')) as Hs'.
      { destruct Hone as [[_ Hn]|[_ E]]; [congruence|]. rewrite E. by apply silent_aged. }
      destruct (check_scanned x d' b0 Hok Hs' Hx) as [Hsc _]; [lia|done|by apply Hib|]. rewrite bool_decide_eq_false_2 in Hsc by lia.
      destruct Hsc as [E Hib']. split; [by rewrite E|done].
    + pose proof (check_dead x d' Hok Hn) as E. split; [rewrite E; [done|lia]|]. unfold live. rewrite E by lia. done.
  - destruct IH as [E Hib]. destruct (check_scanned x d' b0 Hok) as [Hsc _]; [by rewrite E|done|lia|done|done|].
    rewrite (bool_decide_ext _ (b0 < length l * flowSync_GRANULARITY + flowSync_GRANULARITY)) in Hsc by lia.
    unfold scanned in *. rewrite E in Hsc. exact Hsc.
Qed.
Lemma one_round l d : flows_ok d -> silent (flow_at i d) -> swFlow_hkCurIdx d = 0 -> Forall (no_traffic i) l -> length l = round_checks ->
  one_visit (flow_at i d) (flow_at i (checks l d)) /\ swFlow_hkCurIdx (checks l d) = 0.
Proof.
  intros Hd Hs Hc Hq Hlen. destruct (has_bucket d i Hd) as (b0 & Hb & Hi); [apply Hs|]. pose proof round_end as He.
  destruct (part_of_round l d b0 Hd Hs Hc Hb Hi Hq) as [Hsc Hcur]; [lia|]. rewrite Hlen in *. rewrite bool_decide_eq_true_2 in Hsc by lia.
  split; [apply Hsc|]. rewrite Hcur, Nat.min_r by lia. apply Nat.Div0.mod_same.
Qed.
Lemma dead_checks l d : flows_ok d -> ~ live d i -> swFlow_hkCurIdx d < flowHashBuckets -> ~ live (checks l d) i.
Proof.
  intros Hd Hn Hc. unfold checks. revert d Hd Hn Hc. induction l as [|x l IH]; intros d Hd Hn Hc; [done|]. simpl. apply IH.
  - by apply (section_moves x.1 x.2 d).
  - unfold live. by rewrite check_dead.
  - simpl. apply Nat.mod_upper_bound. lia.
Qed.

Definition waited (n : nat) (f : flow) : flow := set_idle (idleSecs f + Z.of_nat n * flowSyncPeriod_unit1s) f.
Lemma rounds n l d : flows_ok d -> silent (flow_at i d) -> swFlow_hkCurIdx d = 0 -> (0 < flowSyncPeriod_unit1s)%Z ->
  Forall (no_traffic i) l -> length l = n * round_checks ->
  let f := flow_at i d in let limit := (idleSecs f + Z.of_nat n * flowSyncPeriod_unit1s)%Z in
  if decide (n = 0 \/ (limit < idle_timeout f)%Z) then flow_at i (checks l d) = waited n f /\ swFlow_hkCurIdx (checks l d) = 0
  else ~ live (checks l d) i.
Proof.
  intros Hd Hs Hc Hp. revert l d Hd Hs Hc. induction n as [|n IH]; intros l d Hd Hs Hc Hq Hlen f limit.
  { destruct l; [|done]. rewrite decide_True by auto. simpl. split; [|done]. unfold waited. change (flow_at i d) with f. simpl. destruct f. unfold set_idle. simpl.
    by rewrite Z.add_0_r. }
  rewrite <- (take_drop round_checks l) in Hq |- *. apply Forall_app in Hq as [Hq1 Hq2].
  assert (length (take round_checks l) = round_checks) as Hl1 by (rewrite length_take; lia).
  assert (length (drop round_checks l) = n * round_checks) as Hl2 by (rewrite length_drop; lia).
  destruct (one_round (take round_checks l) d Hd Hs Hc Hq1 Hl1) as [Hone Hc1]. pose proof (checks_ok (take round_checks l) d Hd) as Hd1.
  unfold checks at 1 2 3. rewrite fold_left_app. fold (checks (take round_checks l) d) in *. set (d1 := checks (take round_checks l) d) in *.
  fold (checks (drop round_checks l) d1). assert (flowHashBuckets <> 0) as Hb by (destruct (has_bucket d i Hd) as (b & ? & _); [apply Hs|lia]).
  destruct Hone as [[Hex Hdead]|[Hex E]].
  - rewrite decide_False. { apply dead_checks; [done|unfold live; by rewrite Hdead|lia]. }
    unfold expired in Hex. fold f in Hex. unfold limit. intros [?|?]; [done|]. nia.
  - assert (silent (flow_at i d1)) as Hs1 by (rewrite E; by apply silent_aged).
    specialize (IH (drop round_checks l) d1 Hd1 Hs1 Hc1 Hq2 Hl2). cbv zeta in IH. rewrite E in IH. fold f in IH, E, Hex.
    unfold expired in Hex. change (idle_timeout (aged f)) with (idle_timeout f) in IH. change (idleSecs (aged f)) with (idleSecs f + flowSyncPeriod_unit1s)%Z in IH.
    replace (idleSecs f + flowSyncPeriod_unit1s + Z.of_nat n * flowSyncPeriod_unit1s)%Z with limit in IH by (unfold limit; lia).
    destruct (decide (n = 0 \/ (limit < idle_timeout f)%Z)) as [Hw|Hw].
    + rewrite decide_True. 2: { right. destruct Hw as [->|?]; [|done]. unfold limit. lia. }
      destruct IH as [IH ?]. split; [|done]. rewrite IH. unfold waited, aged, limit. destruct f. unfold set_idle. simpl. f_equal. lia.
    + rewrite decide_False; [done|]. intros [?|?]; [done|]. apply Hw. by right.
Qed.
End Rounds.
End Age.
