(* ===== verification/FcFlowExact.v ===== *)
(** * Exactly the flows that are meant go

    The functions of [FcFlowFlush] that walk over all flows, read by what they leave:
    [leaves gone d d'] says that of the flows in use those with [gone] are deleted and the
    others are untouched.  All walks are the one of [delete_flows] or of [flush_flows]. *)
From stdpp Require Import gmap.
From S2P Require Import Prelude FcLists FcFlowKey FcFlowSide FcFlow FcFlowAdd FcFlowFlush FcFlowInv FcFlowFind FcFlowSteps.
Open Scope nat_scope.

Section Exact.
Context `{FlowChecks} `{FlowSideConfig} `{Env : FlowEnv} `{!FlowLaws}.

Definition leaves (gone : nat -> flow -> bool) (d d' : fc) : Prop :=
  flows_ok d' /\ forall j, (live d' j <-> live d j /\ gone j (flow_at j d) = false) /\ (live d' j -> flow_at j d' = flow_at j d).
(** One predicate for each part of the table. *)
Definition by_part (hw tc sf : flow -> bool) (j : nat) : flow -> bool := if is_tcam j then tc else if is_sw j then sf else hw.
Definition all_parts (gone : flow -> bool) (_ : nat) : flow -> bool := gone.

Lemma leaves_ext gone gone' d d' : (forall j f, gone j f = gone' j f) -> leaves gone d d' -> leaves gone' d d'.
Proof. intros E [? Hl]. split; [done|]. intros j. rewrite <- E. apply Hl. Qed.
Lemma by_part_same gone j f : by_part gone gone gone j f = all_parts gone j f.
Proof. unfold by_part. by destruct (is_tcam j), (is_sw j). Qed.

(** A walk that thins the table by [gone], and leaves no flow with it. *)
Lemma thins_leaves gone d d' : flows_ok d -> thins eq (fun j f => gone j f = true) d d' ->
  (forall j, settled (fun j f => gone j f = true) d' j) -> leaves gone d d'.
Proof.
  intros Hd T Hs. destruct (T Hd) as (Hd' & Hl & Hf). split; [done|]. intros j.
  assert (live d' j -> flow_at j d' = flow_at j d) as Hsame
    by (intros Hj; destruct (Hf j (Hl j Hj)) as [[E _]|[_ Hn]]; [by rewrite E|done]).
  split; [|done]. split.
  - intros Hj. split; [auto|]. destruct (gone j (flow_at j d)) eqn:E; [|done]. destruct (Hs j). split; [done|]. by rewrite Hsame.
  - intros [Hj Hg]. destruct (Hf j Hj) as [(_ & ? & _)|[? _]]; [done|congruence].
Qed.

Section Gone.
Context (gone : nat -> flow -> bool).
Abbreviation thin := (thins eq (fun j f => gone j f = true)).
Lemma thin_delete_if p i d : gone i = p -> thin d (delete_if p i d).
Proof.
  intros <-. unfold delete_if. destruct (in_use (flow_at i d) && gone i (flow_at i d)) eqn:E; [|by apply thins_refl].
  apply andb_true_iff in E as [_ E]. apply thins_delete; [done|]. done.
Qed.
Lemma settled_delete_if p i d : flows_ok d -> gone i = p -> settled (fun j f => gone j f = true) (delete_if p i d) i.
Proof.
  intros Hd <- [Hl Hg]. unfold delete_if in *. destruct (in_use (flow_at i d)) eqn:Eu; simpl in *; [|unfold live in Hl; congruence].
  destruct (gone i (flow_at i d)) eqn:Eg; [|congruence]. by apply (delete_gone i d) in Hl; [|done|apply (live_bound d i Hd)].
Qed.
End Gone.

Lemma delete_flows_leaves hw tc sf d : flows_ok d -> leaves (by_part hw tc sf) d (delete_flows hw tc sf d).
Proof.
  intros Hd. assert (forall i, is_way i = true -> by_part hw tc sf i = hw) as E1 by (intros i; unfold is_way, by_part; by destruct (is_tcam i), (is_sw i)).
  assert (forall i, is_tcam i = true -> by_part hw tc sf i = tc) as E2 by (intros i; unfold by_part; by intros ->).
  assert (forall i, is_sw i = true -> by_part hw tc sf i = sf) as E3.
  { intros i Hi. unfold by_part. rewrite Hi. destruct (is_tcam i) eqn:Et; [|done]. apply is_sw_spec in Hi. apply is_tcam_spec in Et. lia. }
  apply thins_leaves; [done| |].
  - apply (thins_buckets eq _); [done|congruence|by intros ??? ->|auto using thin_delete_if..|done|intros b ?%elem_of_seq; lia].
  - intros j. apply (all_settled eq (fun j f => by_part hw tc sf j f = true)); [done|congruence|by intros ??? ->|auto using thin_delete_if, settled_delete_if..].
Qed.

(** ** Flushes that may only mark *)

Definition marks (postpone : bool) (gone : flow -> bool) (f f' : flow) : Prop :=
  f' = f \/ (gone f = true /\ postpone = true /\ idleSecs f = 0%Z /\ f' = set_needUpdate true f).
Definition goes (postpone : bool) (gone : flow -> bool) (f : flow) : bool := gone f && negb (postpone && (idleSecs f =? 0)%Z).

Section Flush.
Context (postpone : bool) (gone : flow -> bool) (Hgone : forall f, gone (set_needUpdate true f) = gone f).
Abbreviation U := (marks postpone gone).
Definition undone (j : nat) (f : flow) : Prop := gone f = true /\ (goes postpone gone f = true \/ needUpdate f = false).
Abbreviation gives := (thins U (fun j f => goes postpone gone f = true)).
Abbreviation thin := (thins U undone).

Lemma marks_refl f : U f f. Proof. by left. Qed.
Lemma marks_trans f f' f'' : U f f' -> U f' f'' -> U f f''.
Proof.
  intros [->|(? & ? & ? & ->)] [->|(? & ? & ? & ->)]; [by left|by right|by right|]. right. done.
Qed.
Lemma marks_use f f' : U f f' -> mild f f'. Proof. by intros [->|(? & ? & ? & ->)]. Qed.
Lemma marks_back j f f' : U f f' -> undone j f' -> undone j f.
Proof.
  intros [->|(? & ? & Hi & ->)] [Hg Hu]; [done|]. split; [done|]. left. destruct Hu as [Hu|Hu]; [|done]. unfold goes in *. by rewrite Hgone in Hu.
Qed.
Lemma flush_one_gives i d : gives d (flush_one postpone gone i d).
Proof.
  unfold flush_one. destruct (in_use (flow_at i d) && gone (flow_at i d)) eqn:E; [|apply thins_refl, marks_refl].
  apply andb_true_iff in E as [_ E]. destruct (postpone && (idleSecs (flow_at i d) =? 0)%Z) eqn:Em.
  - apply andb_true_iff in Em as [Hp Hi%Z.eqb_eq]. apply (thins_touch _ _ marks_refl marks_use i).
    (* the mark is allowed for this flow *)
    exists (fun f => if decide (gone f = true /\ idleSecs f = 0%Z) then set_needUpdate true f else f). split.
    + unfold core, on_flow. simpl. f_equal. f_equal. f_equal. apply list_alter_ext; [|done]. intros x Hx.
      assert (flow_at i d = x) as <- by (unfold flow_at; by rewrite nth_lookup, Hx). by rewrite decide_True.
    + intros f. case_decide as Hf; [right|left]; [|done]. by destruct Hf.
  - apply thins_delete; [apply marks_refl|]. intros _. unfold goes. by rewrite E, Em.
Qed.
Lemma gives_thin d d' : gives d d' -> thin d d'.
Proof.
  intros T Hd. destruct (T Hd) as (? & ? & Hf). split; [done|]. split; [done|]. intros j Hj. destruct (Hf j Hj) as [?|[Hg ?]]; [by left|right].
  split; [|done]. split; [|by left]. by apply andb_true_iff in Hg as [? _].
Qed.
Lemma flush_one_settles i d : flows_ok d -> settled undone (flush_one postpone gone i d) i.
Proof.
  intros Hd [Hl [Hg Hu]]. unfold flush_one in *. destruct (in_use (flow_at i d)) eqn:Eu; simpl in *; [|unfold live in Hl; congruence].
  pose proof (live_bound d i Hd Eu) as Hi. destruct (gone (flow_at i d)) eqn:Eg; [|congruence].
  destruct (postpone && (idleSecs (flow_at i d) =? 0)%Z) eqn:Em; [|by eapply delete_gone].
  rewrite flow_at_same in * by (by rewrite (ok_length d Hd)). destruct Hu as [Hu|Hu]; [|done]. unfold goes in Hu. simpl in Hu.
  by rewrite Em, andb_false_r in Hu.
Qed.
(** After a flush: who goes, who is marked, who stays as he is. *)
Definition flushed (d d' : fc) : Prop := flows_ok d' /\ forall j,
  (live d' j <-> live d j /\ goes postpone gone (flow_at j d) = false) /\
  (live d' j -> flow_at j d' = if gone (flow_at j d) then set_needUpdate true (flow_at j d) else flow_at j d).
Lemma flush_flows_flushed d : flows_ok d -> flushed d (flush_flows postpone gone d).
Proof.
  intros Hd. set (d' := flush_flows postpone gone d).
  assert (gives d d') as T.
  { apply (thins_buckets _ _ marks_refl marks_trans); [|auto using flush_one_gives..|done|intros b ?%elem_of_seq; lia].
    intros j f f' Hu Hg. destruct Hu as [->|(? & ? & Hi & ->)]; [done|]. unfold goes in *. by rewrite Hgone in Hg. }
  assert (forall j, settled undone d' j) as Hs
    by (intros j; apply (all_settled _ _ marks_refl marks_trans marks_back); auto using flush_one_gives, gives_thin, flush_one_settles).
  destruct (T Hd) as (Hd' & Hl & Hf). split; [done|]. intros j.
  assert (live d' j -> goes postpone gone (flow_at j d) = false /\
    flow_at j d' = if gone (flow_at j d) then set_needUpdate true (flow_at j d) else flow_at j d) as Hflow.
  { intros Hj. specialize (Hs j). destruct (Hf j (Hl j Hj)) as [[[E|(-> & Hp & Hi & E)] _]|[_ Hn]]; [| |done].
    - unfold settled, undone in Hs. rewrite E in *. unfold goes in *. destruct (gone (flow_at j d)) eqn:Eg; simpl in *; [|done].
      destruct (negb (postpone && (idleSecs (flow_at j d) =? 0)%Z)) eqn:Em; [by destruct Hs; auto|]. split; [done|].
      destruct (flow_at j d) as [c1 c2 c3 c4 c5 nu c7 c8 c9 c10 c11 c12]. unfold set_needUpdate. simpl in *. destruct nu; [done|]. by destruct Hs; auto.
    - unfold goes. by rewrite E, Hp, Hi, andb_false_r. }
  split; [|by intros [_ ?]%Hflow]. split; [intros Hj; split; [auto|by apply Hflow]|].
  intros [Hj Hg]. destruct (Hf j Hj) as [(_ & ? & _)|[? _]]; [done|congruence].
Qed.
End Flush.

(** ** Walks that skip buckets, and one entry *)

Lemma same_word b j : flowHashWayShift <= 5 -> j ∈ seq (b * ways) ways -> j ∈ seq (32 * (b * ways / 32)) 32.
Proof.
  intros Hs [Hlo Hhi]%elem_of_seq. apply elem_of_seq. unfold ways in *.
  assert (32 = 2 ^ (5 - flowHashWayShift) * 2 ^ flowHashWayShift) as E32 by (rewrite <- Nat.pow_add_r; by replace (5 - flowHashWayShift + flowHashWayShift) with 5 by lia).
  set (w := 2 ^ flowHashWayShift) in *. set (m := 2 ^ (5 - flowHashWayShift)) in *.
  assert (m <> 0) as Hm by (by apply Nat.pow_nonzero). pose proof (Nat.div_mod_eq b m) as Eb. pose proof (Nat.mod_upper_bound b m Hm) as Hb.
  set (q := b / m) in *. set (r := b mod m) in *. clearbody w m q r.
  assert (b * w = 32 * q + r * w) as E by nia. assert (r * w + w <= 32) as Hr by nia.
  assert (b * w / 32 = q) as ->; [|lia]. symmetry. apply (Nat.div_unique _ _ _ (r * w)); [|lia].
  assert (0 < w) by (destruct w; lia). lia.
Qed.
Lemma bucket_empty_dead d b j : flows_ok d -> flowHashWayShift <= 5 -> SW_FLOW_LISTS_IN_BUCKET b = [b] -> b < flowHashBuckets ->
  bucket_empty b d = true -> in_bucket d b j -> ~ live d j.
Proof.
  intros Hd Hs Hl Hb. unfold bucket_empty. rewrite !andb_true_iff. intros [[Hw Ht] Hsw] [Hj|[[H4 Hj]|(l & Hll & Hj)]] Hlive.
  - unfold word_empty in Hw. rewrite forallb_forall in Hw. specialize (Hw j (proj1 (list_elem_of_In _ _) (same_word b j Hs Hj))).
    apply (way_bound (b * ways)) in Hj as [Hj _]; [|by exists b]. by rewrite (ok_bits d Hd j Hj Hlive) in Hw.
  - rewrite H4 in Ht. simpl in Ht. apply bool_decide_eq_true in Ht. unfold on_tcam in Hj. rewrite Ht in Hj. by apply elem_of_nil in Hj.
  - rewrite Hl in Hll. apply list_elem_of_singleton in Hll as ->. apply bool_decide_eq_true in Hsw. unfold on_sw in Hj. rewrite Hsw in Hj. by apply elem_of_nil in Hj.
Qed.
Lemma delete_l2_thins k b d : flows_ok d -> b < flowHashBuckets -> thins eq (fun j f => all_parts (l2_gone k) j f = true) d (delete_l2_bucket k b d).
Proof.
  intros Hd Hb. unfold delete_l2_bucket. destruct (bucket_empty b d); [by apply thins_refl|].
  apply (thins_bucket eq (fun j f => all_parts (l2_gone k) j f = true)); [done|congruence|by intros ??? ->|intros; by apply thin_delete_if..|done|done].
Qed.
Lemma delete_l2_all_thins k d : flows_ok d ->
  thins eq (fun j f => all_parts (l2_gone k) j f = true) d (each (delete_l2_bucket k) (seq 0 flowHashBuckets) d).
Proof.
  intros Hd. apply (thins_each eq _); [done|congruence|by intros ??? ->|done|]. intros b d' Hd' ?%elem_of_seq. apply delete_l2_thins; [done|lia].
Qed.
Lemma delete_l2_leaves k d : flows_ok d -> flowHashWayShift <= 5 -> (forall b, SW_FLOW_LISTS_IN_BUCKET b = [b]) ->
  leaves (all_parts (l2_gone k)) d (each (delete_l2_bucket k) (seq 0 flowHashBuckets) d).
Proof.
  intros Hd Hs Hl. set (P := fun (j : nat) f => all_parts (l2_gone k) j f = true).
  apply thins_leaves; [done|by apply delete_l2_all_thins|].
  intros j. apply (every_bucket_settled eq P); [done|congruence|by intros ??? ->|intros; by apply delete_l2_thins| |done].
  intros b d' j' Hd' Hb Hj. unfold delete_l2_bucket. destruct (bucket_empty b d') eqn:E.
  - destruct Hj as [?|Hj]; [done|]. intros [Hlive _]. by apply (bucket_empty_dead d' b j').
  - apply (bucket_settles eq P); [done|congruence|by intros ??? ->|intros; by apply thin_delete_if|intros; by apply thin_delete_if|intros; by apply thin_delete_if|intros; by apply settled_delete_if|intros; by apply settled_delete_if|intros; by apply settled_delete_if|done..].
Qed.
Definition is_entry (i j : nat) (_ : flow) : bool := j =? i.
Lemma delete_this_leaves i d : flows_ok d -> leaves (is_entry i) d (rtk_fc_flow_delete_by_entryIdx i d).
Proof.
  intros Hd. set (P := fun (j : nat) f => is_entry i j f = true).
  assert (forall d, flows_ok d -> thins eq P d (rtk_fc_flow_delete i d).2 /\ settled P (rtk_fc_flow_delete i d).2 i) as Hdel.
  { intros d' Hd'. split; [apply thins_delete; [done|]; intros _; by apply Nat.eqb_refl|]. intros [Hl _].
    apply delete_live in Hl as [Hl Hi]; [|done]. pose proof (live_bound d' i Hd' Hl). specialize (Hi eq_refl). lia. }
  unfold rtk_fc_flow_delete_by_entryIdx. destruct (Nat.leb_spec flowSwTableSize i) as [Hge|Hlt].
  - apply thins_leaves; [done|by apply thins_refl|]. intros j [Hl%live_bound ->%Nat.eqb_eq]; [lia|done].
  - destruct (Nat.ltb_spec i (flowHashBuckets * ways)) as [Hi|Hi].
    + apply thins_leaves; [done|by apply Hdel|]. intros j. destruct (decide (j = i)) as [->|Hn]; [by apply Hdel|].
      intros [_ ?%Nat.eqb_eq]. done.
    + assert (forall j d, flows_ok d -> thins eq P d (delete_this i j d) /\ settled P (delete_this i j d) j) as Hone.
      { intros j d' Hd'. unfold delete_this. destruct (Nat.eqb_spec i j) as [<-|Hn]; [by apply Hdel|]. split; [by apply thins_refl|].
        intros [_ ?%Nat.eqb_eq]. congruence. }
      apply thins_leaves; [done| |].
      * apply (thins_buckets eq P); [done|congruence|by intros ??? ->|intros; by apply thins_refl|intros; by apply Hone|intros; by apply Hone|done|].
        intros b ?%elem_of_seq. lia.
      * intros j. apply (all_settled eq P); [done|congruence|by intros ??? ->| |intros; by apply Hone|intros; by apply Hone|done].
        intros j' d' Hd' Hj'. split; [by apply thins_refl|]. intros [Hl ->%Nat.eqb_eq]. revert Hj'. unfold is_way, is_tcam, is_sw.
        rewrite laws_ways in Hi. pose proof (live_bound d' i Hd' Hl) as Hb. rewrite (proj2 (Nat.ltb_lt _ _) Hb), andb_true_r.
        pose proof laws_sram. destruct fbMode_4K; simpl; intros Hj'.
        -- rewrite (proj2 (Nat.leb_le _ _) Hi) in Hj'. simpl in Hj'. apply andb_true_iff in Hj' as [Ha%negb_true_iff Hc%negb_true_iff].
           apply Nat.ltb_ge in Ha. apply Nat.leb_gt in Hc. lia.
        -- apply negb_true_iff, Nat.leb_gt in Hj'. lia.
Qed.
End Exact.
