(* ===== verification/FcFlowMeant.v ===== *)
(** * Which flows a deletion is for

    What the deletions of [FcFlowFlush] are meant to take, said from the outside: in terms of
    the stations, ports, interfaces and addresses of a flow, not with the tests of the walks;
    and that the tests say the same. *)
From stdpp Require Import gmap.
From S2P Require Import Prelude FcFlowKey FcFlowSide FcFlow FcFlowAdd FcFlowFlush FcFlowInv FcFlowFind FcFlowSteps FcFlowExact.
Open Scope nat_scope.

Section Meant.
Context `{FlowChecks} `{FlowSideConfig} `{Env : FlowEnv} `{LutView}.

(** The layer-2 entry behind an index of a flow: [known] for the readers that check for
    [SIGNED_INVALID], [read_raw] for those that do not. *)
Definition known (k : Z) (l : lut_brief) : Prop := k <> SIGNED_INVALID /\ lutTbl k = Some l.
Definition read_raw (k : Z) (l : lut_brief) : Prop := known k l \/ (k = SIGNED_INVALID /\ lutTbl_oob = Some l).
(** One of the two stations of the flow. *)
Definition an_end (rd : Z -> lut_brief -> Prop) (f : flow) (l : lut_brief) : Prop := rd (lutIgrSaIdx (sw f)) l \/ rd (lutEgrDaIdx (sw f)) l.
Definition dynamic (f : flow) : Prop := FLOW_INFO_IS_SET f STATIC_ENTRY = false.
Definition multicast (f : flow) : Prop := FLOW_INFO_IS_SET f MC_ENTRY = true.

(** The flow comes in or goes out through the interface; a second action of the first path
    has no ingress interface, the sixth path no egress interface. *)
Definition through_intf (k : Z) (f : flow) : Prop :=
  let e := ent f in
  (in_intf_idx (igr e) = k /\ ~ (in_path e = FB_PATH_12 /\ in_multiple_act e = 1%Z)) \/ (out_intf_idx (egr e) = k /\ in_path e <> FB_PATH_6).
Definition meant_intf (k : Z) (j : nat) (f : flow) : Prop := through_intf k f /\ (dynamic f \/ (multicast f /\ is_tcam j = false)).
Definition meant_wlan (w : Z) (_ : nat) (f : flow) : Prop := dynamic f /\ exists l, an_end read_raw f l /\ b_wlan_dev_idx l = w.
Definition meant_port (port ext : Z) (j : nat) (f : flow) : Prop :=
  dynamic f /\ exists l, an_end known f l /\ b_spa l = port /\ (is_tcam j = false -> is_sw j = false -> b_extspa l = ext).
Definition meant_pair (ls ld : Z) (st : bool) (_ : nat) (f : flow) : Prop :=
  (dynamic f \/ st = true) /\ (exists l, known (lutIgrSaIdx (sw f)) l /\ Z.testbit ls (b_spa l) = true) /\
  exists l, known (lutEgrDaIdx (sw f)) l /\ Z.testbit ld (b_spa l) = true.
Definition meant_address (k : Z) (_ : nat) (f : flow) : Prop := dynamic f /\ (lutIgrSaIdx (sw f) = k \/ lutEgrDaIdx (sw f) = k).

(** A pattern.  [says o P]: the field is not given, or what it gives satisfies [P].  An
    address names the station behind [k] when the layer-2 table finds it there; an address
    it does not find goes with stations it does not know. *)
Definition says {A} (o : option A) (P : A -> Prop) : Prop := forall x, o = Some x -> P x.
Definition names_station (m : list Z) (k : Z) : Prop :=
  ((exists l, known k l) /\ _rtk_fc_lut_find m = Some k) \/
  (~ (exists l, known k l) /\ default SIGNED_INVALID (_rtk_fc_lut_find m) = SIGNED_INVALID).
Definition says_stations (q : pattern) (f : flow) : Prop :=
  let i := lutIgrSaIdx (sw f) in let e := lutEgrDaIdx (sw f) in
  says (q_mac q) (fun m => names_station m i \/ names_station m e) /\
  says (q_smac q) (fun m => names_station m i) /\ says (q_dmac q) (fun m => names_station m e).
Definition on_pon (k : Z) : Prop := exists l, known k l /\ b_spa l = RTK_FC_MAC_PORT_PON.
Definition says_ports (q : pattern) (f : flow) : Prop :=
  let e := ent f in
  says (q_wlan q) (fun w => igrWlanDevIdx (sw f) = w \/ egrWlanDevIdx (sw f) = w) /\
  says (q_igr_wlan q) (fun w => igrWlanDevIdx (sw f) = w) /\ says (q_egr_wlan q) (fun w => egrWlanDevIdx (sw f) = w) /\
  says (q_spa q) (fun p => (exists l, an_end known f l /\ b_spa l = p) \/
    ((in_path e = FB_PATH_12 \/ in_path e = FB_PATH_34) /\ Z.testbit (out_portmask (egr e)) p = true)) /\
  says (q_pon_streamid q) (fun s => (on_pon (lutIgrSaIdx (sw f)) /\ pon_stream_id (sw f) = s) \/
    (~ on_pon (lutIgrSaIdx (sw f)) /\ on_pon (lutEgrDaIdx (sw f)) /\ out_stream_idx (egr e) = s)).
(** Addresses and ports, compared on the two paths that have them; what the flow rewrites
    them to, on the path that rewrites. *)
Definition is_given {A} (o : option A) : Prop := o <> None.
Definition given_v4 (q : pattern) : Prop := is_given (q_sip4 q) \/ is_given (q_dip4 q) \/ is_given (q_msip4 q) \/ is_given (q_mdip4 q).
Definition given_v6 (q : pattern) : Prop := is_given (q_sip6 q) \/ is_given (q_dip6 q).
Definition given_l34 (q : pattern) : Prop :=
  given_v4 q \/ given_v6 q \/ is_given (q_l4proto q) \/ is_given (q_sport q) \/ is_given (q_dport q) \/ is_given (q_msport q) \/ is_given (q_mdport q).
Definition says_rewrite (q : pattern) (e : entry) : Prop :=
  in_path e = FB_PATH_5 -> out_l4_act (egr e) <> 0%Z ->
  (out_l4_direction (egr e) <> 0%Z ->
     says (q_msip4 q) (fun a => gateway_ipv4_addr (out_intf_idx (egr e)) = a) /\ says (q_msport q) (fun p => out_l4_port (egr e) = p)) /\
  (out_l4_direction (egr e) = 0%Z ->
     says (q_mdip4 q) (fun a => out_dst_ipv4_addr (egr e) = a) /\ says (q_mdport q) (fun p => out_l4_port (egr e) = p)).
Definition says_addresses (q : pattern) (e : entry) : Prop :=
  ((in_path e = FB_PATH_34 \/ in_path e = FB_PATH_5) ->
    ~ (given_v4 q /\ given_v6 q) /\
    (given_v4 q -> in_ipv4_or_ipv6 (igr e) = 0%Z) /\ (given_v6 q -> in_ipv4_or_ipv6 (igr e) <> 0%Z) /\
    says (q_l4proto q) (fun p => in_l4proto (igr e) = p) /\
    says (q_sip4 q) (fun a => in_src_ipv4_addr (igr e) = a) /\ says (q_dip4 q) (fun a => in_dst_ipv4_addr (igr e) = a) /\
    says (q_sip6 q) (fun a => in_src_ipv4_addr (igr e) = flowHashIPv6SrcAddr a) /\
    says (q_dip6 q) (fun a => in_dst_ipv4_addr (igr e) = flowHashIPv6DstAddr a) /\
    says (q_sport q) (fun p => in_l4_src_port (igr e) = p) /\ says (q_dport q) (fun p => in_l4_dst_port (igr e) = p) /\
    says_rewrite q e) /\
  ((in_path e = FB_PATH_12 \/ in_path e = FB_PATH_6) -> ~ given_l34 q).
Definition meant_pattern (q : pattern) (_ : nat) (f : flow) : Prop :=
  dynamic f /\ says_stations q f /\ says_ports q f /\ says_addresses q (ent f).
Definition no_question : pattern :=
  Pattern None None None None None None None None None None None None None None None None None None None.

(** *** The tests of the walks say the same *)

Lemma land_testbit m n : on (Z.land m (Z.shiftl 1 n)) = Z.testbit m n.
Proof.
  unfold on. destruct (Z.ltb_spec n 0) as [Hn|Hn].
  - rewrite Z.testbit_neg_r by done. rewrite <- (Z.opp_involutive n), Z.shiftl_opp_r.
    rewrite Z.shiftr_div_pow2 by lia. rewrite Z.div_small; [by rewrite Z.land_0_r|]. split; [lia|]. apply Z.pow_gt_1; lia.
  - rewrite Z.shiftl_1_l. assert (Z.land m (2 ^ n) = if Z.testbit m n then 2 ^ n else 0)%Z as ->.
    { apply Z.bits_inj'. intros i Hi. rewrite Z.land_spec, Z.pow2_bits_eqb by lia. destruct (Z.eqb_spec n i) as [<-|Hne].
      - destruct (Z.testbit m n); simpl; [by rewrite Z.pow2_bits_true|by rewrite Z.bits_0].
      - rewrite andb_false_r. destruct (Z.testbit m n); [by rewrite Z.pow2_bits_false|by rewrite Z.bits_0]. }
    destruct (Z.testbit m n); [|done]. assert (0 < 2 ^ n)%Z by (apply Z.pow_pos_nonneg; lia). by rewrite (proj2 (Z.eqb_neq _ _)) by lia.
Qed.
Lemma has_iff p o : has p o = true <-> exists l, o = Some l /\ p l = true.
Proof. destruct o as [l|]; simpl; naive_solver. Qed.
Lemma known_iff k l : lut_of k = Some l <-> known k l.
Proof. unfold lut_of, known. destruct (Z.eqb_spec k SIGNED_INVALID); naive_solver. Qed.
Lemma raw_iff k l : lut_unchecked k = Some l <-> read_raw k l.
Proof. unfold lut_unchecked, read_raw, known. destruct (Z.eqb_spec k SIGNED_INVALID); naive_solver. Qed.
Lemma dynamic_iff f : negb (static f) = true <-> dynamic f.
Proof. apply negb_true_iff. Qed.
Lemma given_iff {A} (p : A -> bool) (P : A -> Prop) o : (forall x, p x = true <-> P x) -> given p o = true <-> says o P.
Proof. intros Hp. unfold says. destruct o as [x|]; simpl; [rewrite Hp|]; naive_solver. Qed.
Lemma some_iff {A} (o : option A) : some o = true <-> is_given o.
Proof. unfold is_given. destruct o; naive_solver. Qed.

Lemma wlan_meant w j f : wlan_gone w f = true <-> meant_wlan w j f.
Proof.
  unfold wlan_gone, meant_wlan, an_end. rewrite andb_true_iff, dynamic_iff, orb_true_iff, !has_iff. setoid_rewrite raw_iff.
  setoid_rewrite Z.eqb_eq. naive_solver.
Qed.
Lemma port_meant port ext j f :
  by_part (spa_gone true port ext) (spa_gone false port ext) (spa_gone false port ext) j f = true <-> meant_port port ext j f.
Proof.
  assert (forall b, spa_gone b port ext f = true <-> dynamic f /\ exists l, an_end known f l /\ b_spa l = port /\ (b = true -> b_extspa l = ext)) as Hs.
  { intros b. unfold spa_gone, an_end. rewrite andb_true_iff, dynamic_iff, orb_true_iff, !has_iff. setoid_rewrite known_iff.
    setoid_rewrite andb_true_iff. setoid_rewrite Z.eqb_eq. destruct b; simpl; [setoid_rewrite Z.eqb_eq|]; naive_solver. }
  unfold by_part, meant_port. destruct (is_tcam j), (is_sw j); rewrite Hs; naive_solver.
Qed.
Lemma pair_meant ls ld st j f : ports_gone ls ld st f = true <-> meant_pair ls ld st j f.
Proof.
  unfold ports_gone, meant_pair. rewrite !andb_true_iff, orb_true_iff, dynamic_iff, !has_iff. setoid_rewrite known_iff.
  setoid_rewrite land_testbit. naive_solver.
Qed.
Lemma address_meant k j f : l2_gone k f = true <-> meant_address k j f.
Proof. unfold l2_gone, meant_address. rewrite andb_true_iff, dynamic_iff, orb_true_iff, !Z.eqb_eq. done. Qed.
Lemma uses_meant k f : uses_intf k f = true <-> through_intf k f.
Proof.
  unfold uses_intf, through_intf. rewrite !orb_true_iff, !andb_true_iff, !negb_true_iff, !Z.eqb_eq, !Z.eqb_neq, !bool_decide_eq_false, bool_decide_eq_true.
  destruct (decide (in_path (ent f) = FB_PATH_12)); naive_solver.
Qed.
Lemma intf_meant k j f : by_part (intf_gone k) (intf_gone_tcam k) (intf_gone k) j f = true <-> meant_intf k j f.
Proof.
  assert (is_tcam j = true -> is_sw j = false) as Hp.
  { intros Ht%is_tcam_spec. apply not_true_iff_false. intros ?%is_sw_spec. lia. }
  unfold by_part, intf_gone, intf_gone_tcam, meant_intf, multicast. rewrite <- uses_meant.
  destruct (is_tcam j), (is_sw j); rewrite !andb_true_iff, ?orb_true_iff, dynamic_iff; naive_solver.
Qed.

Lemma live_idx_known k i : live_idx k = i <-> ((exists l, known k l) /\ i = k) \/ (~ (exists l, known k l) /\ i = SIGNED_INVALID).
Proof.
  unfold live_idx. destruct (lut_of k) as [l|] eqn:E; simpl.
  - apply known_iff in E. naive_solver.
  - assert (~ exists l, known k l) by (intros [l Hl%known_iff]; congruence). naive_solver.
Qed.
Lemma names_iff m k : (mac_lut_idx m =? live_idx k)%Z = true <-> names_station m k.
Proof.
  rewrite Z.eqb_eq. symmetry. rewrite (comm (=)), live_idx_known. unfold names_station, mac_lut_idx.
  assert (known k = known k) by done. split; (intros [[Hk E]|[Hk E]]; [left|right]); (split; [done|]); try done.
  - by rewrite E.
  - destruct (_rtk_fc_lut_find m) as [i|]; simpl in *; [by subst|]. destruct Hk as (l & Hn & _). congruence.
Qed.
Lemma stations_meant q f : match_mac q f = true <-> says_stations q f.
Proof.
  unfold match_mac, says_stations. rewrite !andb_true_iff.
  rewrite (given_iff _ (fun m => names_station m (lutIgrSaIdx (sw f)) \/ names_station m (lutEgrDaIdx (sw f)))) by (intros m; by rewrite orb_true_iff, !names_iff).
  rewrite (given_iff _ (fun m => names_station m (lutIgrSaIdx (sw f)))) by (intros m; apply names_iff).
  rewrite (given_iff _ (fun m => names_station m (lutEgrDaIdx (sw f)))) by (intros m; apply names_iff). tauto.
Qed.
Lemma pon_iff k : has (fun l => b_spa l =? RTK_FC_MAC_PORT_PON)%Z (lut_of k) = true <-> on_pon k.
Proof. unfold on_pon. rewrite has_iff. setoid_rewrite known_iff. by setoid_rewrite Z.eqb_eq. Qed.
Lemma eqb_sym_iff a b : (a =? b)%Z = true <-> b = a.
Proof. rewrite Z.eqb_eq. naive_solver. Qed.
Lemma ports_meant q f : match_port q f = true <-> says_ports q f.
Proof.
  unfold match_port, says_ports. rewrite !andb_true_iff.
  rewrite (given_iff _ (fun w => igrWlanDevIdx (sw f) = w \/ egrWlanDevIdx (sw f) = w) (q_wlan q)) by (intros w; by rewrite orb_true_iff, !eqb_sym_iff).
  rewrite (given_iff _ _ (q_igr_wlan q) (fun w => eqb_sym_iff w _)), (given_iff _ _ (q_egr_wlan q) (fun w => eqb_sym_iff w _)).
  rewrite (given_iff _ (fun p => (exists l, an_end known f l /\ b_spa l = p) \/
    ((in_path (ent f) = FB_PATH_12 \/ in_path (ent f) = FB_PATH_34) /\ Z.testbit (out_portmask (egr (ent f))) p = true)) (q_spa q)).
  2:{ intros p. rewrite !orb_true_iff, andb_true_iff, orb_true_iff, !bool_decide_eq_true, land_testbit, !has_iff. unfold an_end. setoid_rewrite known_iff.
      setoid_rewrite Z.eqb_eq. naive_solver. }
  rewrite (given_iff _ (fun s => (on_pon (lutIgrSaIdx (sw f)) /\ pon_stream_id (sw f) = s) \/
    (~ on_pon (lutIgrSaIdx (sw f)) /\ on_pon (lutEgrDaIdx (sw f)) /\ out_stream_idx (egr (ent f)) = s)) (q_pon_streamid q)); [tauto|].
  intros s. rewrite <- !pon_iff. destruct (has _ (lut_of (lutIgrSaIdx (sw f)))).
  - rewrite eqb_sym_iff. naive_solver.
  - rewrite andb_true_iff, eqb_sym_iff. naive_solver.
Qed.
Lemma v4_iff q : asks_v4 q = true <-> given_v4 q.
Proof. unfold asks_v4, given_v4. rewrite !orb_true_iff, !some_iff. tauto. Qed.
Lemma v6_iff q : asks_v6 q = true <-> given_v6 q.
Proof. unfold asks_v6, given_v6. rewrite !orb_true_iff, !some_iff. tauto. Qed.
Lemma l34_iff q : asks_l34 q = true <-> given_l34 q.
Proof. unfold asks_l34, given_l34, given_v4, given_v6. rewrite !orb_true_iff, !some_iff. tauto. Qed.
Lemma on_iff x : on x = true <-> x <> 0%Z.
Proof. unfold on. by rewrite negb_true_iff, Z.eqb_neq. Qed.
Lemma off_iff x : on x = false <-> x = 0%Z.
Proof. unfold on. by rewrite negb_false_iff, Z.eqb_eq. Qed.
Lemma rewrite_meant q e : match_modified q e = true <-> says_rewrite q e.
Proof.
  unfold match_modified, says_rewrite. case_bool_decide as Hp; simpl; [|naive_solver].
  destruct (on (out_l4_act (egr e))) eqn:Ea; [apply on_iff in Ea|apply off_iff in Ea; naive_solver].
  destruct (on (out_l4_direction (egr e))) eqn:Ed; [apply on_iff in Ed|apply off_iff in Ed]; rewrite andb_true_iff;
    rewrite (given_iff _ _ _ (fun a => eqb_sym_iff a _)), (given_iff _ _ _ (fun a => eqb_sym_iff a _)); naive_solver.
Qed.
Lemma addresses_meant q e : match_l34 q e = true <-> says_addresses q e.
Proof.
  unfold match_l34, says_addresses. destruct (bool_decide (in_path e = FB_PATH_34) || bool_decide (in_path e = FB_PATH_5)) eqn:Ep.
  - rewrite !andb_true_iff, !negb_true_iff, !andb_false_iff, rewrite_meant, off_iff, negb_false_iff, on_iff.
    rewrite <- !not_true_iff_false, v4_iff, v6_iff.
    rewrite !(given_iff _ _ _ (fun a => eqb_sym_iff a _)).
    rewrite (given_iff _ (fun a => in_src_ipv4_addr (igr e) = flowHashIPv6SrcAddr a)) by (intros a; apply eqb_sym_iff).
    rewrite (given_iff _ (fun a => in_dst_ipv4_addr (igr e) = flowHashIPv6DstAddr a)) by (intros a; apply eqb_sym_iff).
    apply orb_true_iff in Ep. rewrite !bool_decide_eq_true in Ep.
    assert (~ (in_path e = FB_PATH_12 \/ in_path e = FB_PATH_6)) as Hn by (destruct Ep as [-> | ->]; naive_solver).
    assert (given_v4 q \/ ~ given_v4 q) as H4 by (rewrite <- v4_iff; destruct (asks_v4 q); auto).
    assert (given_v6 q \/ ~ given_v6 q) as H6 by (rewrite <- v6_iff; destruct (asks_v6 q); auto). tauto.
  - apply orb_false_iff in Ep. rewrite !bool_decide_eq_false in Ep. rewrite negb_true_iff, <- not_true_iff_false, l34_iff.
    destruct (in_path e); naive_solver.
Qed.
Lemma pattern_meant q j f : negb (static f) && rtk_fc_flow_delete_by_pattern_matchOrNot q f = true <-> meant_pattern q j f.
Proof.
  unfold rtk_fc_flow_delete_by_pattern_matchOrNot, meant_pattern. rewrite !andb_true_iff, dynamic_iff, stations_meant, ports_meant, addresses_meant. tauto.
Qed.
Lemma asks_iff q : asks_something q = true <-> q <> no_question.
Proof.
  unfold asks_something, no_question. rewrite !orb_true_iff, l34_iff, !some_iff. unfold given_l34, given_v4, given_v6, is_given.
  split; [intros Hg ->; naive_solver|]. intros Hq. destruct q as [q1 q2 q3 q4 q5 q6 q7 q8 q9 q10 q11 q12 q13 q14 q15 q16 q17 q18 q19]. simpl.
  destruct q1; [naive_solver|]. destruct q2; [naive_solver|]. destruct q3; [naive_solver|]. destruct q4; [naive_solver|]. destruct q5; [naive_solver|].
  destruct q6; [naive_solver|]. destruct q7; [naive_solver|]. destruct q8; [naive_solver|]. destruct q9; [naive_solver|]. destruct q10; [naive_solver|].
  destruct q11; [naive_solver|]. destruct q12; [naive_solver|]. destruct q13; [naive_solver|]. destruct q14; [naive_solver|]. destruct q15; [naive_solver|].
  destruct q16; [naive_solver|]. destruct q17; [naive_solver|]. destruct q18; [naive_solver|]. destruct q19; [naive_solver|]. done.
Qed.

(** ** What a deletion leaves *)

(** The table is in order, of the flows in use exactly the meant ones are gone, and those
    left are as they were. *)
Definition takes (meant : nat -> flow -> Prop) (d d' : fc) : Prop :=
  flows_ok d' /\ forall j, (live d' j <-> live d j /\ ~ meant j (flow_at j d)) /\ (live d' j -> flow_at j d' = flow_at j d).
(** A flush: with [postpone] a meant flow that had a packet in this period ([idleSecs] is 0)
    stays, marked. *)
Definition flushes (postpone : bool) (meant : flow -> Prop) (d d' : fc) : Prop :=
  flows_ok d' /\ forall j, let f := flow_at j d in
  (live d' j <-> live d j /\ (meant f -> postpone = true /\ idleSecs f = 0%Z)) /\
  (live d' j -> (meant f -> flow_at j d' = set_needUpdate true f) /\ (~ meant f -> flow_at j d' = f)).

Lemma leaves_takes gone meant d d' : (forall j f, gone j f = true <-> meant j f) -> leaves gone d d' -> takes meant d d'.
Proof. intros Hg [Hd Hl]. split; [done|]. intros j. rewrite <- Hg, not_true_iff_false. apply Hl. Qed.
Lemma flushed_flushes postpone gone meant d d' : (forall f, gone f = true <-> meant f) -> flushed postpone gone d d' -> flushes postpone meant d d'.
Proof.
  intros Hg [Hd Hl]. split; [done|]. intros j f. destruct (Hl j) as [F1 F2]. fold f in F1, F2. split.
  - rewrite F1, <- Hg. unfold goes. rewrite andb_false_iff, negb_false_iff, andb_true_iff, Z.eqb_eq.
    destruct (gone f); naive_solver.
  - intros Hj. rewrite <- Hg, (F2 Hj). destruct (gone f); naive_solver.
Qed.
End Meant.
