(* ===== verification/FcFlowSpec.v ===== *)
(** * The flow table over time

    The operations of the flow table as steps, and what holds in every state they lead to:
    the table is in order, static flows stay, the walks delete exactly the flows they are
    meant for, and flows without traffic age out. *)
From stdpp Require Import gmap.
From S2P Require Import Prelude FcLists FcFlowKey FcFlowKeySpec FcFlowSide FcFlowSideSpec FcFlow FcFlowAdd FcFlowFlush FcFlowInv FcFlowSmall.
From S2P Require Import FcFlowFind FcFlowSteps FcFlowSafe FcFlowFound FcFlowAge FcFlowExact FcFlowMeant.
Open Scope nat_scope.

Section Steps.
Context `{FlowChecks} `{FlowSideConfig} `{Env : FlowEnv} `{!FlowLaws} `{LutView}.

(** Steps that choose their flows themselves; an addition comes with its bucket. *)
Inductive gentle : fc -> fc -> Prop :=
| gentle_add hash e ct x mc sw_only st g p d : bucket_start hash -> gentle d (rtk_fc_flow_add hash e ct x mc sw_only st g p d).2
| gentle_house_keeping trf cam d : gentle d (_rtk_fc_flow_timeoutCheck trf cam d).2
| gentle_by_intfIdx k d : gentle d (rtk_fc_flow_delete_by_intfIdx k d)
| gentle_by_l2Idx k d : gentle d (rtk_fc_flow_delete_by_l2Idx k d)
| gentle_by_wlanIdx w d : gentle d (rtk_fc_flow_delete_by_wlanIdx w d)
| gentle_by_spa port ext d : gentle d (rtk_fc_flow_delete_by_spa port ext d)
| gentle_by_pattern q d : gentle d (rtk_fc_flow_delete_by_pattern q d).
(** All steps. *)
Inductive flow_step : fc -> fc -> Prop :=
| step_gentle d d' : gentle d d' -> flow_step d d'
| step_delete i d : flow_step d (rtk_fc_flow_delete i d).2
| step_invalid_hw i d : flow_step d (rtk_fc_flow_invalid_hw i d).2
| step_by_ports ls ld st d : flow_step d (rtk_fc_flow_delete_by_lspidMask_ldpidMask ls ld st d)
| step_by_entryIdx i d : flow_step d (rtk_fc_flow_delete_by_entryIdx i d)
| step_flush_forHashChange w d : flow_step d (rtk_fc_flow_flush_forHashChange w d)
| step_flush w d : flow_step d (flush_flow_table w d)
| step_flush_all d : flow_step d (rtk_fc_flow_flush_all d).

Lemma leaves_spares gone d d' : (forall j f, gone j f = true -> force_update f = false) -> (flows_ok d -> leaves gone d d') -> spares d d'.
Proof.
  intros Hg Hl Hd. destruct (Hl Hd) as [Hd' Hf]. split; [done|]. intros j Hj Hp. destruct (Hf j) as [Hiff Hsame].
  assert (live d' j) as Hj' by (apply Hiff; split; [done|]; destruct (gone j _) eqn:E; [apply Hg in E; congruence|done]).
  split; [done|]. by rewrite Hsame.
Qed.
Lemma not_static f : negb (static f) = true -> force_update f = false.
Proof. unfold force_update. intros ->%negb_true_iff. apply andb_false_r. Qed.
Lemma intf_gone_free k j f : by_part (intf_gone k) (intf_gone_tcam k) (intf_gone k) j f = true -> force_update f = false.
Proof.
  unfold by_part, intf_gone, intf_gone_tcam, force_update. destruct (is_tcam j), (is_sw j), (static f), (FLOW_INFO_IS_SET f MC_ENTRY); simpl; done.
Qed.
Lemma gentle_spares d d' : gentle d d' -> spares d d'.
Proof.
  destruct 1 as [hash e ct x mc sw st g p d Hb|trf cam d|k d|k d|w d|port ext d|q d].
  - by apply flow_add_spares.
  - apply moves_spares, timeoutCheck_moves.
  - unfold rtk_fc_flow_delete_by_intfIdx. destruct (_ <=? _)%Z; [apply spares_refl|]. eapply leaves_spares; [apply intf_gone_free|apply delete_flows_leaves].
  - unfold rtk_fc_flow_delete_by_l2Idx. destruct (_ <=? _)%Z; [apply spares_refl|]. intros Hd.
    apply (thins_spares (all_parts (l2_gone k))); [|by apply delete_l2_all_thins|done]. by intros j f [? _]%andb_true_iff; apply not_static.
  - unfold rtk_fc_flow_delete_by_wlanIdx. destruct (_ <=? _)%Z; [apply spares_refl|]. eapply leaves_spares; [|apply delete_flows_leaves].
    intros j f. rewrite by_part_same. by intros [? _]%andb_true_iff; apply not_static.
  - unfold rtk_fc_flow_delete_by_spa. destruct (_ <=? _)%Z; [apply spares_refl|]. eapply leaves_spares; [|apply delete_flows_leaves].
    intros j f. unfold by_part. destruct (is_tcam j), (is_sw j); intros [? _]%andb_true_iff; by apply not_static.
  - unfold rtk_fc_flow_delete_by_pattern. destruct (asks_something q); [|apply spares_refl]. eapply leaves_spares; [|apply delete_flows_leaves].
    intros j f. rewrite by_part_same. by intros [? _]%andb_true_iff; apply not_static.
Qed.

Lemma invalid_hw_ok i d : flows_ok d -> flows_ok (rtk_fc_flow_invalid_hw i d).2.
Proof.
  intros Hd. unfold rtk_fc_flow_invalid_hw. destruct (flowSwTableSize <=? i); [done|]. destruct (in_use (flow_at i d)) eqn:Eu; [|done]. simpl.
  assert (touch mild i d (on_flow (set_state CANDIDATE_STATE_AGING) i d)) as T.
  { exists (fun f => if in_use f then set_state CANDIDATE_STATE_AGING f else f). split; [|intros f; destruct (in_use f) eqn:E; split; done].
    unfold core, on_flow. simpl. f_equal. f_equal. f_equal. apply list_alter_ext; [|done]. intros x Hx.
    assert (flow_at i d = x) as <- by (unfold flow_at; by rewrite nth_lookup, Hx). by rewrite Eu. }
  assert (flows_ok (on_flow (set_state CANDIDATE_STATE_AGING) i d)) as Hd' by (eapply touch_ok; [|exact T|done]; done).
  destruct (flowHwTableSize <=? i); [done|]. apply (ok_core (on_flow (fun f => set_ent (with_valid false (ent f)) f) i (on_flow (set_state CANDIDATE_STATE_AGING) i d)));
    [done|]. eapply (touch_ok mild i); [done| |exact Hd']. by apply touch_on.
Qed.
Lemma flow_step_ok d d' : flow_step d d' -> flows_ok d -> flows_ok d'.
Proof.
  intros Hs Hd. destruct Hs as [d d' Hg|i d|i d|ls ld st d|i d|w d|w d|d].
  - by apply (gentle_spares d d').
  - by apply delete_ok.
  - by apply invalid_hw_ok.
  - unfold rtk_fc_flow_delete_by_lspidMask_ldpidMask. exact (proj1 (delete_flows_leaves _ _ _ d Hd)).
  - by apply delete_this_leaves.
  - by apply flush_flows_flushed.
  - by apply flush_flows_flushed.
  - unfold rtk_fc_flow_flush_all. exact (proj1 (delete_flows_leaves _ _ _ d Hd)).
Qed.
Lemma steps_ok d d' : rtc flow_step d d' -> flows_ok d -> flows_ok d'.
Proof. induction 1 as [|d d1 d2 Hs _ IH]; [done|]. intros Hd. apply IH. by eapply flow_step_ok. Qed.
Lemma table_ok d : rtc flow_step fresh_fc d -> flows_ok d.
Proof. intros Hr. eapply steps_ok; [exact Hr|apply fresh_ok]. Qed.
Lemma gentle_steps_spare d d' : rtc gentle d d' -> spares d d'.
Proof. induction 1 as [|d d1 d2 Hs _ IH]; [apply spares_refl|]. eapply spares_steps; [by apply gentle_spares|done]. Qed.

(** C21: the entry a new flow gets.  In a table that is in order, for the bucket of the
    flow's hash: the answer "exists" names a flow of the bucket that matches; otherwise no
    flow of the parts that were asked for matches.  A free entry is one that is not in use, and lies where the
    flow will be looked for.
    A flow gives way only when there is no free entry in those parts; it is never a static
    one, it is gone afterwards, and when flows that need no connection may give way then it
    is one of these and none of them has been idle longer.  The table is full only when
    there is neither, and then nothing changes. *)
Theorem free_entry_choice hash e g isMulticast notTcam addHwOnly addSwOnly forceGet d :
  flows_ok d -> bucket_start hash -> addHwOnly && addSwOnly = false ->
  let same i := _rtk_fc_flow_matchOrNot (dual_pt_flowMapTbl d) (flow_at i d) e g isMulticast in
  let no_match := forall j, shown hash notTcam addHwOnly addSwOnly d j -> same j = false in
  match _rtk_fc_flow_freeEntry_get hash e g isMulticast notTcam addHwOnly addSwOnly forceGet d with
  | (RTK_FC_RET_ERR_ENTRY_EXIST, Some i, d') => bucket_flow hash d i /\ same i = true /\ d' = on_flow (delay_hit g) i d
  | (RTK_FC_RET_OK, Some i, d') => unused d i /\ place_for hash notTcam addSwOnly i /\ no_match /\ d' = d
  | (RTK_FC_RET_ERR_FLOW_LRU, Some i, d') =>
      replaceable d i /\ place_for hash notTcam addSwOnly i /\ no_match /\ nothing_free hash notTcam addHwOnly addSwOnly d /\
      longest_idle hash notTcam addHwOnly addSwOnly forceGet d i /\ d' = replaced i d /\ ~ live d' i
  | (RTK_FC_RET_ERR_FLOW_FULL, None, d') =>
      no_match /\ nothing_free hash notTcam addHwOnly addSwOnly d /\
      (forall j, eligible hash notTcam addHwOnly addSwOnly forceGet d j -> (idle_of d j < 0)%Z) /\ d' = d
  | _ => False
  end.
Proof.
  intros Hd Hb Hx same no_match. unfold _rtk_fc_flow_freeEntry_get. rewrite Hx.
  set (m c := _rtk_fc_flow_matchOrNot (dual_pt_flowMapTbl d) c e g isMulticast).
  pose proof (search_entry_spec hash m notTcam addHwOnly addSwOnly forceGet d Hd Hb Hx) as Hp. fold m in same. set (s := search_entry _ _ _ _ _ _ _) in *.
  unfold search_post in Hp. destruct (flowHitIdx s) as [i|] eqn:Eh; [destruct Hp as (? & ? & _); auto|].
  destruct Hp as (Hno & (C & Hseen & HC & Hr) & Hfree & Hfull).
  destruct (first_invalid s) as [i|] eqn:Ef; [by destruct (Hfree i eq_refl)|]. specialize (Hfull eq_refl).
  assert (forall i, C i -> longest_idle hash notTcam addHwOnly addSwOnly forceGet d i ->
    replaceable d i /\ place_for hash notTcam addSwOnly i /\ no_match /\ nothing_free hash notTcam addHwOnly addSwOnly d /\
    longest_idle hash notTcam addHwOnly addSwOnly forceGet d i /\ replaced i d = replaced i d /\ ~ live (replaced i d) i) as Hlru.
  { intros i Hi Hl. destruct (Hr i Hi) as [[? ?] ?]. split; [done|]. split; [done|]. split; [done|]. split; [done|]. split; [done|]. split; [done|]. by apply delete_gone. }
  destruct (longestIdleTimeFlowIdx s) as [i|] eqn:El; [apply Hlru; [by apply (seen_longest _ _ _ Hseen)|by eapply choice_longest]|].
  destruct (nearestExpiryTimeFlowIdx s) as [i|] eqn:En; [apply Hlru; [by apply (seen_nearest _ _ _ Hseen)|by eapply choice_other]|].
  pose proof (choice_none d C s hash notTcam addHwOnly addSwOnly forceGet Hseen HC Ef El En).
  destruct (first_dynamic s) as [i|] eqn:Edy; [|done]. destruct forceGet; [|done].
  apply Hlru; [by apply (seen_dynamic _ _ _ Hseen)|by eapply choice_other].
Qed.
(** C17: the flow table stays in order.  From an empty table, whatever sequence of
    additions under hashes of the table (the number of a bucket times its ways, as all the
    hash functions give), deletions, house keeping and walks: every entry of the TCAM and of
    the software part is on exactly one list and a flow in use is never on a free list, the
    switch's array of valid bits knows every flow in use, and the walks over the buckets
    come past every flow in use, in exactly one bucket.  A hash of the switch that is one
    past the last bucket, which the driver lets through, is not a hash of the table and does
    break the order ([hash_past_last_bucket_breaks_order]). *)
Theorem flow_table_stays_sound d : rtc flow_step fresh_fc d ->
  flows_ok d /\
  forall i, live d i -> i < flowSwTableSize /\ exists b, b < flowHashBuckets /\ in_bucket d b i /\
    forall b', b' < flowHashBuckets -> in_bucket d b' i -> b' = b.
Proof.
  intros Hr. pose proof (table_ok d Hr) as Hd. split; [done|]. intros i Hi. split; [by apply (live_bound d)|].
  destruct (has_bucket d i Hd Hi) as (b & Hb & Hin). exists b. split; [done|]. split; [done|]. intros b' Hb' Hin'. by apply (in_bucket_unique i d).
Qed.

(** C24: static flows stay.  A static unicast flow in use is never taken by the steps that
    choose their flows themselves: a new flow (under a hash of the table) that finds its
    bucket full, the house keeping, and the deletions by interface, address, WLAN device,
    port and pattern.  In every order of such steps it stays in use and static, matches the
    same packets, and sends them the same way: its entry, its action and its fields of
    software are as before; only the stream and the user priority of the action may be
    brought up to date by a packet of the flow. *)
Theorem static_flows_stay d d' i : rtc flow_step fresh_fc d -> rtc gentle d d' -> live d i -> force_update (flow_at i d) = true ->
  live d' i /\ unmoved (flow_at i d) (flow_at i d').
Proof.
  intros Hr%table_ok Hg Hi Hp. by apply (gentle_steps_spare d d' Hg Hr).
Qed.



(** C18: a flow that was added is found.  When an addition in an orderly table, under a hash
    of the table and of an entry that is not locked to the hardware part, answers that it
    succeeded, and the flow came with all that a search compares ([says_all]), then the
    same addition again finds a flow of the table that matches: it takes no further entry,
    and no flow comes or goes.  The port field must be the port and the stream compared only
    with the port, as for the matching itself. *)
Theorem added_flow_is_found hash e ct x mc swOnly st g p d i d1 :
  (forall q, PATH12_SPA q = q) -> (CHECK_PATH12_STREAM_IDX = true -> CHECK_PATH12_SPA = true) ->
  flows_ok d -> bucket_start hash -> lock e = false -> says_all (sw_only e swOnly p) x (asked g p) p ->
  rtk_fc_flow_add hash e ct x mc swOnly st g p d = (RTK_FC_RET_OK, Some i, d1) ->
  exists j d2, rtk_fc_flow_add hash e ct x mc swOnly st g p d1 = (RTK_FC_RET_OK, Some j, d2) /\
    _rtk_fc_flow_matchOrNot (dual_pt_flowMapTbl d1) (flow_at j d1) e (g3 <$> asked g p) mc = true /\
    tcam d2 = tcam d1 /\ swl d2 = swl d1 /\ forall k, live d2 k <-> live d1 k.
Proof.
  intros Hspa Hstream Hd Hb Hlock Hc Ha. pose proof (added Hspa Hstream hash e ct x mc swOnly st g p Hb Hlock i d d1 Hd Hc Ha) as Hk.
  assert (flows_ok d1) as Hd1.
  { destruct (flow_add_spares hash e ct x mc swOnly st g p d Hb Hd) as [Hd1 _]. by rewrite Ha in Hd1. }
  destruct (found_again hash e ct x mc swOnly st g p Hb Hlock i d1 Hd1 Hk) as (j & E & Hm). exists j. eexists. split; [exact E|]. split; [exact Hm|].
  assert (forall k, calm k d1 (met e p j (on_flow (delay_hit (g3 <$> asked g p)) j d1))) as Hcalm
    by (intros k; eapply calm_trans; [apply calm_delay|apply calm_met]).
  destruct (Hcalm 0) as (Et & Es & _). split; [exact Et|]. split; [exact Es|]. intros k. destruct (Hcalm k) as (_ & _ & _ & Eu & _).
  unfold live. by rewrite Eu.
Qed.

(** C23: idle flows age out.  The sections of a round are not empty and the period is
    positive.  A flow in use that may go (not a static unicast flow, not marked for an
    update, not of path 6), that no connection is asked about, whose software
    traffic bit is clear (as it is once a round has looked at the flow: a flow that was just
    added carries the bit of its first packet and so lasts one round longer,
    [new_flow_lasts_longer]), and for which the switch reports no traffic: from the start of
    a round, after n rounds of the house keeping (as many checks as the buckets take, none
    of which fails to read the traffic) it is in use exactly if its idle seconds and n
    periods are below its time limit; until then only its idle seconds have changed.  In
    between other flows may be looked at, age out and be deleted. *)
Theorem idle_flows_age_out n l d i : flows_ok d -> flowSync_GRANULARITY <> 0 -> (0 < flowSyncPeriod_unit1s)%Z -> swFlow_hkCurIdx d = 0 ->
  silent (flow_at i d) -> Forall (no_traffic i) l -> length l = n * round_checks ->
  (live (checks l d) i <-> n = 0 \/ (idleSecs (flow_at i d) + Z.of_nat n * flowSyncPeriod_unit1s < idle_timeout (flow_at i d))%Z) /\
  (live (checks l d) i -> flow_at i (checks l d) = waited n (flow_at i d)).
Proof.
  intros Hd Hg Hp Hc Hs Hq Hl. pose proof (rounds i Hg n l d Hd Hs Hc Hp Hq Hl) as Hr. cbv zeta in Hr. case_decide as Hw.
  - destruct Hr as [E _]. split; [|done]. split; [done|]. intros _. unfold live. rewrite E. apply Hs.
  - split; [|done]. split; [done|]. intros ?. contradiction.
Qed.
End Steps.

(** ** On the small device *)

#[export] Instance small_view : LutView := {|
  lutTbl := fun _ => None; lutTbl_oob := None; _rtk_fc_lut_find := fun _ => None; gateway_ipv4_addr := fun _ => 0%Z;
  flowHashIPv6SrcAddr := fun _ => 0%Z; flowHashIPv6DstAddr := fun _ => 0%Z; RTK_FC_MAC_PORT_PON := 5%Z; RTK_FC_MAC_PORT_MAX := 8%Z;
  RTK_FC_TABLESIZE_INTF := 8%Z; RTK_FC_WLANX_END_INTF := 16%Z |}.

(** A routed flow from a source port. *)
Definition routed (sport : Z) : entry :=
  Entry true false FB_PATH_5 0
    (Igr 0 0 0 0 0 0 0 0 0 0 0 0 0 0 0 0 0 0 0 0 10 20 sport 80 6 0 0 0 0 0 0 0 0 0) egr0.
Definition add_to (hash : nat) (st : bool) (sport : Z) (d : fc) : fc :=
  (rtk_fc_flow_add hash (routed sport) None None false false st None None d).2.
(** A static flow in the first bucket, and others until the bucket is full. *)
Definition one_static : fc := add_to 0 true 1 fresh_fc.
Definition bucket_full : fc := fold_left (fun d n => add_to 0 false n d) [2; 3; 4; 5; 6; 7; 8; 9; 10]%Z one_static.

Lemma add_step hash st sport d : bucket_start hash -> gentle d (add_to hash st sport d).
Proof. intros Hb. by apply (gentle_add hash (routed sport)). Qed.
Lemma first_bucket : bucket_start 0.
Proof. exists 0. split; [vm_compute; lia|done]. Qed.
Lemma one_static_reached : rtc flow_step fresh_fc one_static.
Proof. apply rtc_once, step_gentle, add_step, first_bucket. Qed.
Lemma full_reached l d : rtc gentle d (fold_left (fun d n => add_to 0 false n d) l d).
Proof.
  revert d. induction l as [|n l IH]; intros d; [apply rtc_refl|]. simpl. eapply rtc_l; [apply add_step, first_bucket|apply IH].
Qed.
Lemma gentle_flow_steps d d' : rtc gentle d d' -> rtc flow_step d d'.
Proof. induction 1 as [|d d1 d2 Hs _ IH]; [apply rtc_refl|]. eapply rtc_l; [by apply step_gentle|done]. Qed.
Lemma bucket_full_reached : rtc flow_step fresh_fc bucket_full.
Proof. etrans; [apply one_static_reached|]. apply gentle_flow_steps, full_reached. Qed.
Lemma bucket_full_ok : flows_ok bucket_full.
Proof. apply (table_ok bucket_full bucket_full_reached). Qed.

(** In the full bucket the flow idle as long as any other, in the software part, gives way. *)
Definition full_answer : fret * option nat * fc :=
  _rtk_fc_flow_freeEntry_get 0 (routed 11) None false false false false false bucket_full.
Lemma free_entry_choice_witness :
  full_answer.1 = (RTK_FC_RET_ERR_FLOW_LRU, Some 15) /\
  replaceable bucket_full 15 /\ place_for 0 false false 15 /\
  (forall j, shown 0 false false false bucket_full j ->
     _rtk_fc_flow_matchOrNot (dual_pt_flowMapTbl bucket_full) (flow_at j bucket_full) (routed 11) None false = false) /\
  nothing_free 0 false false false bucket_full /\ longest_idle 0 false false false false bucket_full 15 /\
  full_answer.2 = replaced 15 bucket_full /\ ~ live full_answer.2 15.
Proof.
  assert (full_answer.1 = (RTK_FC_RET_ERR_FLOW_LRU, Some 15)) as E by (vm_compute; reflexivity). split; [exact E|].
  pose proof (free_entry_choice 0 (routed 11) None false false false false false bucket_full bucket_full_ok first_bucket eq_refl) as Hc.
  cbv zeta in Hc. fold full_answer in Hc. destruct full_answer as [ro d']. simpl in E. subst ro. exact Hc.
Defined.
Lemma flow_table_stays_sound_witness :
  flows_ok bucket_full /\
  forall i, live bucket_full i -> i < flowSwTableSize /\ exists b, b < flowHashBuckets /\ in_bucket bucket_full b i /\
    forall b', b' < flowHashBuckets -> in_bucket bucket_full b' i -> b' = b.
Proof. apply (flow_table_stays_sound bucket_full bucket_full_reached). Defined.
(** The first flow of the bucket is static: ten others come, and it stays. *)
Lemma static_flows_stay_witness : live bucket_full 0 /\ unmoved (flow_at 0 one_static) (flow_at 0 bucket_full).
Proof.
  apply (static_flows_stay one_static bucket_full 0 one_static_reached).
  - apply full_reached.
  - vm_compute. reflexivity.
  - vm_compute. reflexivity.
Defined.
(** After a first round, in which the flow's first packet still counts. *)
Definition quiet_checks (n : nat) : list (list bool * list bool) := replicate n ([], []).
Definition rested : fc := checks (quiet_checks 2) bucket_full.
Lemma rested_ok : flows_ok rested.
Proof. apply checks_ok, bucket_full_ok. Qed.
Lemma quiet_forever i n : Forall (no_traffic i) (quiet_checks n).
Proof. apply Forall_replicate. split; simpl; [by destruct i|by destruct (i - 8)]. Qed.
Lemma idle_flows_age_out_witness :
  live (checks (quiet_checks 4) rested) 9 /\ ~ live (checks (quiet_checks 6) rested) 9.
Proof.
  assert (silent (flow_at 9 rested)) as Hs by (vm_compute; repeat split).
  split.
  - apply (idle_flows_age_out 2 (quiet_checks 4) rested 9 rested_ok (Nat.neq_succ_0 _) eq_refl eq_refl Hs (quiet_forever 9 4) eq_refl).
    right. vm_compute. reflexivity.
  - intros Hl. apply (idle_flows_age_out 3 (quiet_checks 6) rested 9 rested_ok (Nat.neq_succ_0 _) eq_refl eq_refl Hs (quiet_forever 9 6) eq_refl) in Hl
      as [Hl|Hl]; [discriminate Hl|]. vm_compute in Hl. discriminate Hl.
Defined.

(** The flow was added and had no packet since: three rounds are its time limit, and it is
    still in use; a fourth takes it. *)
Example new_flow_lasts_longer :
  idle_timeout (flow_at 9 bucket_full) = (3 * flowSyncPeriod_unit1s)%Z /\
  in_use (flow_at 9 (checks (quiet_checks 6) bucket_full)) = true /\ in_use (flow_at 9 (checks (quiet_checks 8) bucket_full)) = false.
Proof. vm_compute. repeat split. Qed.
(** The switch names the bucket one past the last: the flow is put into an entry of the TCAM
    that stays on the free list. *)
Example hash_past_last_bucket_breaks_order :
  let d := add_to (flowHashBuckets * ways) false 1 fresh_fc in
  live d (FLOWSRAM + 0) /\ 0 ∈ free_list (tcam d) /\ ~ flows_ok d.
Proof.
  assert (let d := add_to (flowHashBuckets * ways) false 1 fresh_fc in
    in_use (flow_at (FLOWSRAM + 0) d) = true /\ free_list (tcam d) = [0; 1; 2; 3]) as [Hl Hf] by (vm_compute; by split).
  cbv zeta. set (d := add_to _ _ _ _) in *. clearbody d. assert (0 ∈ free_list (tcam d)) as H0 by (rewrite Hf; left).
  split; [exact Hl|]. split; [exact H0|]. intros Hd. by apply (ok_tcam_free d Hd 0).
Qed.

(** A flow of a tunnel that passes through, with its call number. *)
Definition tunnelled (h : dual_hdr) : g3_extra := G3Extra (G3Info (SwFields 1 2 3 0 0 0 0 0 4 5) false false 0 h false false false) 0 false false.
Definition add_tunnel (h : dual_hdr) (d : fc) : fret * option nat * fc :=
  rtk_fc_flow_add 2 (routed 21) None (Some (1, 2)%Z) false false false (Some (tunnelled h)) None d.
Lemma added_flow_is_found_witness :
  exists j d2, add_tunnel (DUAL_PPTP 7) (add_tunnel (DUAL_PPTP 7) one_static).2 = (RTK_FC_RET_OK, Some j, d2) /\
    _rtk_fc_flow_matchOrNot (dual_pt_flowMapTbl (add_tunnel (DUAL_PPTP 7) one_static).2) (flow_at j (add_tunnel (DUAL_PPTP 7) one_static).2) (routed 21)
      (g3 <$> asked (Some (tunnelled (DUAL_PPTP 7))) None) false = true /\
    tcam d2 = tcam (add_tunnel (DUAL_PPTP 7) one_static).2 /\ swl d2 = swl (add_tunnel (DUAL_PPTP 7) one_static).2 /\
    forall k, live d2 k <-> live (add_tunnel (DUAL_PPTP 7) one_static).2 k.
Proof.
  apply (added_flow_is_found 2 (routed 21) None (Some (1, 2)%Z) false false false (Some (tunnelled (DUAL_PPTP 7))) None one_static 2).
  - reflexivity.
  - reflexivity.
  - apply (table_ok one_static one_static_reached).
  - exists 1. split; [vm_compute; lia|done].
  - reflexivity.
  - split; [reflexivity|]. split; [reflexivity|]. split; [discriminate|]. split; discriminate.
  - vm_compute. reflexivity.
Defined.
