(* ===== verification/FcFlowCases.v ===== *)
(** * Runs that the properties of the flow table exclude

    Each example is a run of the code as it is modelled: what happens to a flow that cannot
    get all it needs, to a flow that cannot be recognised, and where the three walks over
    the parts of the table differ. *)
From stdpp Require Import gmap.
From S2P Require Import Prelude FcLists FcFlowKey FcFlowKeySpec FcFlowSide FcFlowSideSpec FcFlow FcFlowAdd FcFlowFlush FcFlowInv FcFlowSmall.
From S2P Require Import FcFlowFind FcFlowSafe FcFlowAge FcFlowSpec.
Open Scope nat_scope.

(** ** Flows that are not recognised *)

(** A flow of a VXLAN tunnel that passes through is noted as such, but a search takes only
    flows with an entry in the table of dual headers: the same flow is added again. *)
Example vxlan_flow_is_added_twice :
  let '(r1, d1) := add_tunnel DUAL_VXLAN one_static in let '(r2, d2) := add_tunnel DUAL_VXLAN d1 in
  r1 = (RTK_FC_RET_OK, Some 2) /\ r2 = (RTK_FC_RET_OK, Some 3) /\ ent (flow_at 2 d2) = ent (flow_at 3 d2) /\ in_use (flow_at 2 d2) = true.
Proof. by_compute. Qed.
(** So is an ICMP flow that is put into the switch: only flows of software note the ICMP
    identifier. *)
Definition echo_of (id : Z) : g3_extra := G3Extra (G3Info (SwFields 1 2 3 0 0 0 0 0 4 5) false true id DUAL_NONE false false false) 0 false false.
Definition add_echo (d : fc) : fret * option nat * fc :=
  rtk_fc_flow_add 2 (routed 21) None (Some (1, 2)%Z) false false false (Some (echo_of 9)) None d.
Example switched_echo_is_added_twice :
  let '(r1, d1) := add_echo one_static in r1 = (RTK_FC_RET_OK, Some 2) /\ (add_echo d1).1 = (RTK_FC_RET_OK, Some 3).
Proof. by_compute. Qed.

(** ** Flows that do not get all they need *)

(** Every way of the NAT-loopback table is taken. *)
Definition loops_full : nl_tbl := [[loop_of 100; loop_of 102]; [loop_of 101; loop_of 103]].
Definition looped : entry :=
  Entry true false FB_PATH_5 0 (Igr 0 0 0 0 0 0 0 0 0 0 0 0 0 0 0 0 0 0 0 0 10 20 33 80 6 0 0 0 0 0 0 0 0 0)
    (Egr 1 0 0 0 0 0 0 0 0 0 0 0 0 0 0 0 0 0 0).
Definition loop_pkt : pkt := Pkt true UPSTREAM 10 33 20 80 None false false None None false 0 0 0 0.
Definition add_loop (d : fc) : fret * option nat * fc := rtk_fc_flow_add 0 looped None None false false false None (Some loop_pkt) d.
(** The ways of the bucket are taken, so a flow goes to the TCAM. *)
Definition two_ways : fc := set_natloops loops_full (add_to 0 false 2 one_static).
(** The flow is refused, but its entry stays on the list of the bucket and in the switch,
    while the table does not know it: it is not in use, no list has it as free, and the same
    flow is then found there and taken for accelerated. *)
Example refused_loopback_keeps_its_entry :
  let '(r1, d1) := add_loop two_ways in
  r1 = (RTK_FC_RET_ERR_ENTRY_FULL, Some 8) /\ in_use (flow_at 8 d1) = false /\ valid (ent (flow_at 8 d1)) = true /\
  bucket_list 0 (tcam d1) = [0] /\ free_list (tcam d1) = [1; 2; 3] /\ (add_loop d1).1 = (RTK_FC_RET_OK, Some 8).
Proof. by_compute. Qed.

(** When the table of dual headers is full the flow is deleted again; it has not been counted
    for its interface, but the deletion takes it off: the interface of two flows counts none. *)
Definition duals_full : fc := set_dual [DUAL_NONE; DUAL_PPTP 1; DUAL_PPTP 2; DUAL_PPTP 3] one_static.
Example refused_tunnel_uncounts_others :
  let '(r, d) := add_tunnel (DUAL_PPTP 7) duals_full in
  r = (RTK_FC_RET_ERR_ENTRY_FULL, Some 2) /\ flowCntRef duals_full !! 0 = Some 2%Z /\ flowCntRef d !! 0 = Some 0%Z /\ in_use (flow_at 0 d) = true.
Proof. by_compute. Qed.

(** ** Traffic that is lost *)

(** The first check of a round asks for the traffic of the whole TCAM, and the switch forgets
    what it has told; the flow is looked at in the second check. *)
Definition in_tcam : fc := add_to 6 false 4 (add_to 6 false 3 (add_to 6 false 2 one_static)).
Example traffic_of_another_section_is_lost :
  let seen := replicate 4 true in let calm := checks (quiet_checks 2) in_tcam in
  in_l4_src_port (igr (ent (flow_at 8 calm))) = 4%Z /\ idleSecs (flow_at 8 calm) = 0%Z /\
  idleSecs (flow_at 8 (checks [([], seen); ([], [])] calm)) = 5%Z /\ idleSecs (flow_at 8 (checks [([], []); ([], seen)] calm)) = 0%Z.
Proof. by_compute. Qed.

(** ** Walks whose parts differ, and indices that stand for nothing *)

Definition multicast_static : flow := set_infos [STATIC_ENTRY; MC_ENTRY] flow0.
(** A flush for a new hash takes static unicast flows. *)
Example static_unicast_is_flushed :
  FLOW_INFO_IS_SET (flow_at 0 one_static) STATIC_ENTRY = true /\ in_use (flow_at 0 one_static) = true /\
  in_use (flow_at 0 (rtk_fc_flow_flush_forHashChange false one_static)) = false.
Proof. vm_compute. repeat split. Qed.
(** Static multicast flows of an interface go, except from the TCAM. *)
Example tcam_keeps_static_multicast : intf_gone 0 multicast_static = true /\ intf_gone_tcam 0 multicast_static = false.
Proof. by_compute. Qed.
(** An unknown address is looked up before the start of the array: the flow goes with the
    WLAN device that happens to be read there. *)
Definition stray_view : LutView := {|
  lutTbl := fun _ => None; lutTbl_oob := Some (LutBrief 0 0 3); _rtk_fc_lut_find := fun _ => None; gateway_ipv4_addr := fun _ => 0%Z;
  flowHashIPv6SrcAddr := fun _ => 0%Z; flowHashIPv6DstAddr := fun _ => 0%Z; RTK_FC_MAC_PORT_PON := 5%Z; RTK_FC_MAC_PORT_MAX := 8%Z;
  RTK_FC_TABLESIZE_INTF := 8%Z; RTK_FC_WLANX_END_INTF := 16%Z |}.
Definition no_addresses : flow := lut_fields None flow0.
Example unknown_address_reads_before_the_table : @wlan_gone stray_view 3 no_addresses = true.
Proof. by_compute. Qed.
(** A pattern that asks for an address nobody has learned takes every flow whose address is
    not in the table. *)
Definition for_stranger : pattern :=
  Pattern (Some [1; 2; 3; 4; 5; 6]%Z) None None None None None None None None None None None None None None None None None None.
Example unknown_address_matches_unknown_flows :
  rtk_fc_flow_delete_by_pattern_matchOrNot for_stranger no_addresses = true /\ asks_something for_stranger = true.
Proof. by_compute. Qed.
(** Of two extension ports only the ways tell the flows apart. *)
Definition behind_port (ext : Z) : LutView := {|
  lutTbl := fun _ => Some (LutBrief 4 ext 0); lutTbl_oob := None; _rtk_fc_lut_find := fun _ => None; gateway_ipv4_addr := fun _ => 0%Z;
  flowHashIPv6SrcAddr := fun _ => 0%Z; flowHashIPv6DstAddr := fun _ => 0%Z; RTK_FC_MAC_PORT_PON := 5%Z; RTK_FC_MAC_PORT_MAX := 8%Z;
  RTK_FC_TABLESIZE_INTF := 8%Z; RTK_FC_WLANX_END_INTF := 16%Z |}.
Example lists_ignore_the_extension_port :
  @spa_gone (behind_port 1) true 4 2 flow0 = false /\ @spa_gone (behind_port 1) false 4 2 flow0 = true.
Proof. by_compute. Qed.
