(* ===== verification/FcHash.v ===== *)
(** * The hash of a flow

    Model of the hash functions of [FleetConntrackDriver/core/rtk_fc_internal.c] and of what
    the driver knows of a packet when it asks for its hash ([pktHdr]).  The switch computes
    the same hash; the driver computes it for a new flow's entry
    ([_rtk_fc_flow_hashIndex]), and for a packet the switch gave none for
    ([_rtk_fc_flow_hashIndex_byPktHdr], [_rtk_fc_flow_hashIndex_byDualPktOuterHdr]).

    The build is the one of [configs/rtl9607c.config]; on it the functions that turn and
    mask a field before it is added are part of the switch's driver, which is not in the
    tree.  Addresses and ports are in host order.  [FAIL] is [None]. *)
From stdpp Require Import gmap.
From S2P Require Import Prelude FcLists FcFlowKey FcFlowSide FcFlow.
Open Scope Z_scope.

Inductive fb_mode := FB_MODE_4K | FB_MODE_8K | FB_MODE_16K | FB_MODE_32K.
#[export] Instance fb_mode_eq_dec : EqDecision fb_mode.
Proof. solve_decision. Defined.
Inductive prehash_field := PTN_SPORT | PTN_DPORT | PTN_SIP | PTN_DIP.

(** An interface as the switch knows it. *)
Record netif_intf := NetifIntf { intf_valid : bool; gateway_ipv4_addr : Z; out_pppoe_sid : Z }.

Class FlowHashEnv := {
  fbMode : fb_mode;
  SKIP_DSCP : bool; SKIP_PATH6_SA : bool; SKIP_PATH6_DA : bool;
  preHashPtn : prehash_field -> Z;
  _rtk_rg_flowHashPreProcessPort : Z -> Z -> Z;
  _rtk_rg_flowHashPreProcessIP : Z -> Z -> Z;
  FLOW_V6HASHADDR_MC_BIT : Z; FLOW_V4ADDR_MC_LO_BOUND : Z; FLOW_V4ADDR_MC_UP_BOUND : Z;
  netif : nat -> netif_intf;
  HW_BC_IDX : Z;
  bcMacIdx : Z;
  bridge_5tuple_flow_accelerate_by_2tuple : bool }.

(** ** Packets *)

Record ip4 := Ip4 { saddr : Z; daddr : Z; ip_tos : Z }.
Record ip6 := Ip6 { v6_priority : Z; flow_lbl0 : Z }.
(** The number, priority and last bit (DEI or CFI) of a VLAN tag. *)
Record vtag := Vtag { vt_id : Z; vt_pri : Z; vt_dei : Z }.
Inductive pkt_dual := NOT_DUAL | PKT_PPTP (grecallid : option Z) | PKT_L2TP (tunnelid sessionid : Z) | PKT_IPSEC (spi : Z) | PKT_VXLAN
  | PKT_IP4INIP6 | PKT_OTHER.
#[export] Instance pkt_dual_eq_dec : EqDecision pkt_dual.
Proof. solve_decision. Defined.

Record pktHdr := PktHdr {
  iph : option ip4; ip6h : option ip6; ipv6Sip_hash : Z; ipv6Dip_hash : Z;
  tcph : option (Z * Z); udph : option (Z * Z); l4protol : Z;
  icmph : option (Z * Z); icmp6h : option (Z * Z);     (* type and identifier *)
  later_frag : option (Z * Z * Z);                     (* a later fragment: protocol and ports of the first *)
  svh : option vtag; cvh : option vtag; ppph : option Z;
  smacL2Idx : Z; dmacL2Idx : Z;
  dmacToGatewayMAC : bool; h_isMulticast : bool;
  macPortIdx : Z; macExtPortIdx : Z; ponstreamid : Z; ethtype : Z; stpid_sel : Z;
  h_aclTrapPri : bool;                                 (* isHitSwFwdedAclTrapPri *)
  dualHdr : pkt_dual; outer_iph : option ip4; outer_udph : Z * Z;
  outerHdrMiss : bool }.

Definition FAIL : Z := -1.
Definition IPPROTO_TCP : Z := 6.
Definition IPPROTO_UDP : Z := 17.

Definition isL3 (h : pktHdr) : bool := is_some (iph h) || is_some (ip6h h).
(** The ports and the protocol, of the first fragment for the later ones. *)
Definition l4_of (h : pktHdr) : option (Z * Z) * Z :=
  match later_frag h with
  | Some (proto, sp, dp) =>
      if (proto =? IPPROTO_TCP) || (proto =? IPPROTO_UDP) then (Some (sp, dp), proto)
      else (match tcph h with Some p => Some p | None => udph h end, l4protol h)
  | None => (match tcph h with Some p => Some p | None => udph h end, l4protol h)
  end.
Definition ports (h : pktHdr) : Z * Z := default (0, 0) (l4_of h).1.
Definition is_tcp (h : pktHdr) : Z := if (l4_of h).2 =? IPPROTO_TCP then 1 else 0.
Definition pkt_sip (h : pktHdr) : Z := match iph h with Some i => saddr i | None => ipv6Sip_hash h end.
Definition pkt_dip (h : pktHdr) : Z := match iph h with Some i => daddr i | None => ipv6Dip_hash h end.
Definition pkt_tos (h : pktHdr) : Z :=
  match iph h, ip6h h with
  | Some i, _ => ip_tos i
  | None, Some v => Z.lor (Z.land (Z.shiftl (v6_priority v) 4) 0xf0) (Z.land (Z.shiftr (flow_lbl0 v) 4) 0xf)
  | None, None => 0
  end.
Definition tag_or0 (f : vtag -> Z) (o : option vtag) : Z := match o with Some t => f t | None => 0 end.
Definition flag (b : bool) : Z := if b then 1 else 0.

Section Hash.
Context `{FlowChecks} `{FlowSideConfig} `{FlowEnv} `{FlowHashEnv}.

(** ** The part of the hash that is xored *)

Definition dscp (p : igr_pattern) : Z := u8 (Z.shiftr (in_tos p) 2).
Definition cpri (p : igr_pattern) : Z := u8 (in_cvlan_pri p).
Definition tag_item (skip_svid skip_cvid : bool) (igrSVID igrCVID : Z) : Z :=
  let x := 0 in
  let x := if skip_svid then Z.land x 0x000fff else Z.lor x (Z.shiftl igrSVID 12) in
  if skip_cvid then Z.land x 0xfff000 else Z.lor x igrCVID.
Definition dscp_item (p : igr_pattern) (x : Z) : Z := if SKIP_DSCP then x else Z.lxor (Z.shiftl (Z.land (dscp p) 0x3f) 3) x.
Definition cpri_item (skip : bool) (p : igr_pattern) (x : Z) : Z := if skip then x else Z.lxor (Z.land (cpri p) 0x7) x.
Definition is_mc34 (p : igr_pattern) : bool :=
  if in_ipv4_or_ipv6 p =? 1 then on (Z.land (in_dst_ipv4_addr p) FLOW_V6HASHADDR_MC_BIT)
  else (FLOW_V4ADDR_MC_LO_BOUND <=? in_dst_ipv4_addr p) && (in_dst_ipv4_addr p <? FLOW_V4ADDR_MC_UP_BOUND).

Definition _rtk_fc_sw_flowHashPath12ExtraItem_get (p : igr_pattern) : Z :=
  if first_asic then 0 else cpri_item SKIP_PATH12_CPRI p (dscp_item p 0).
Definition _rtk_fc_sw_flowHashPath34ExtraItem_get (p : igr_pattern) (igrSVID igrCVID lutDaIdx_gmacChk : Z) : Z :=
  let mc := is_mc34 p in
  let x := if mc then tag_item SKIP_PATH34_MC_SVID SKIP_PATH34_MC_CVID igrSVID igrCVID
           else tag_item SKIP_PATH34_UCBC_SVID SKIP_PATH34_UCBC_CVID igrSVID igrCVID in
  let proto := Z.shiftl (in_l4proto p) 23 in
  if first_asic then Z.lxor (if PATH34_SKIP_DA then proto else Z.lor proto (Z.land lutDaIdx_gmacChk 0xfff)) x
  else
    let x := Z.lxor (if PATH34_SKIP_DA then proto else Z.lor proto (Z.shiftl (Z.land lutDaIdx_gmacChk 0x1) 9)) x in
    cpri_item (if mc then SKIP_PATH34_MC_CPRI else SKIP_PATH34_UCBC_CPRI) p (dscp_item p x).
Definition _rtk_fc_sw_flowHashPath5ExtraItem_get (p : igr_pattern) (igrSVID igrCVID : Z) : Z :=
  let x := Z.lxor (Z.shiftl (in_l4proto p) 23) (tag_item SKIP_PATH5_SVID SKIP_PATH5_CVID igrSVID igrCVID) in
  if first_asic then x else cpri_item SKIP_PATH5_CPRI p (dscp_item p x).
Definition _rtk_fc_sw_flowHashPath6ExtraItem_get (p : igr_pattern) (igrSVID igrCVID : Z) : Z :=
  let x := tag_item SKIP_PATH6_SVID SKIP_PATH6_CVID igrSVID igrCVID in
  if first_asic then x else cpri_item SKIP_PATH6_CPRI p (dscp_item p x).

(** ** The part that is added *)

Definition fold20 (x : Z) : Z := Z.land x 0xfffff + Z.shiftr x 20.
Definition hash_sum1 (sport dport sip dip : Z) : Z :=
  Z.land (Z.land sip 0xfffff + Z.shiftr sip 20 + Z.land dip 0xfffff + Z.shiftr dip 20 + sport + dport) 0x7fffff.
Definition hash_sum (sport dport sip dip : Z) : Z :=
  let sum1 := hash_sum1 sport dport sip dip in
  let sum2 := Z.land (fold20 sum1) 0x1fffff in
  Z.land (fold20 sum2) 0x1fffff.
(** In the modes without ways the bits above the twelfth are kept, and xored below. *)
Definition fold_high (high carry : Z) (sum1 : Z) : Z :=
  let sum2 := Z.lxor (Z.land sum1 0xfff) (Z.land (Z.shiftr sum1 12) carry) in
  Z.lor (Z.land sum1 high) (Z.land sum2 0xfff).
Definition hash_index (sum extraItem : Z) : Z :=
  match fbMode with
  | FB_MODE_4K =>
      let sum_nk := Z.land (Z.land sum 0x3ff + Z.land (Z.shiftr sum 10) 0x3ff + Z.land (Z.shiftr sum 20) 0x1) 0x3ff in
      Z.shiftl (Z.lxor (Z.lxor (Z.lxor sum_nk (Z.land extraItem 0x3ff)) (Z.land (Z.shiftr extraItem 10) 0x3ff))
                  (Z.land (Z.shiftr extraItem 20) 0xf)) 2
  | FB_MODE_8K =>
      let sum_nk := fold_high 0x1000 0x1 (Z.land sum 0x1fff + Z.land (Z.shiftr sum 13) 0xff) in
      Z.lxor (Z.lxor sum_nk (Z.land extraItem 0x1fff)) (Z.land (Z.shiftr extraItem 13) 0x7ff)
  | FB_MODE_16K =>
      let sum_nk := fold_high 0x3000 0x3 (Z.land sum 0x3fff + Z.land (Z.shiftr sum 14) 0x7f) in
      Z.lxor (Z.lxor sum_nk (Z.land extraItem 0x3fff)) (Z.land (Z.shiftr extraItem 14) 0x3ff)
  | FB_MODE_32K =>
      let sum_nk := fold_high 0x7000 0x7 (Z.land sum 0x7fff + Z.land (Z.shiftr sum 15) 0x3f) in
      Z.lxor (Z.lxor sum_nk (Z.land extraItem 0x7fff)) (Z.land (Z.shiftr extraItem 15) 0x1ff)
  end.

Definition _rtk_fc_sw_flowHashIndexStep1_get_with_prehashPattern (param1 param2 param3 param4 extraItem : Z)
    (sip_ptn dip_ptn sport_ptn dport_ptn : Z) : Z :=
  hash_index (hash_sum (_rtk_rg_flowHashPreProcessPort param1 sport_ptn) (_rtk_rg_flowHashPreProcessPort param2 dport_ptn)
                (_rtk_rg_flowHashPreProcessIP param3 sip_ptn) (_rtk_rg_flowHashPreProcessIP param4 dip_ptn)) extraItem.
Definition _rtk_fc_sw_flowHashIndexStep1_get (param1 param2 param3 param4 extraItem : Z) : Z :=
  let sport := _rtk_rg_flowHashPreProcessPort param1 (preHashPtn PTN_SPORT) in
  let dport := _rtk_rg_flowHashPreProcessPort param2 (preHashPtn PTN_DPORT) in
  let sip := _rtk_rg_flowHashPreProcessIP param3 (preHashPtn PTN_SIP) in
  let dip := _rtk_rg_flowHashPreProcessIP param4 (preHashPtn PTN_DIP) in
  hash_index (hash_sum sport dport sip dip) extraItem.

(** The second hash of a flow with several actions. *)
Definition step2_mask : Z := 0x7E03.
Definition _rtk_fc_sw_flowHashIndexStep2_get (step1Idx : Z) : Z :=
  match fbMode with
  | FB_MODE_4K => Z.shiftl (Z.lxor (Z.shiftr step1Idx 2) (Z.land step2_mask 0x3ff)) 2
  | FB_MODE_8K => Z.lxor step1Idx (Z.land step2_mask 0x1fff)
  | FB_MODE_16K => Z.lxor step1Idx (Z.land step2_mask 0x3fff)
  | FB_MODE_32K => Z.lxor step1Idx (Z.land step2_mask 0x7fff)
  end.

(** ** The hash of an entry *)

Definition second_action (e : entry) : bool :=
  (in_multiple_act e =? 1) && (bool_decide (in_path e = FB_PATH_12) || bool_decide (in_path e = FB_PATH_34)).
(** A flow from the WAN to an address that is translated is hashed by the gateway's. *)
Definition hashed_dip5 (e : entry) : Z :=
  if naptr e
  then let n := netif (NETIF_HWTOSW (in_intf_idx (igr e))) in
       if intf_valid n && on (gateway_ipv4_addr n) then gateway_ipv4_addr n else 0
  else in_dst_ipv4_addr (igr e).
Definition hash_params (e : entry) (igrSVID igrCVID lutDaIdx_gmacChk : Z) : Z * Z * Z * Z * Z :=
  let p := igr e in
  match in_path e with
  | FB_PATH_12 =>
      (if SKIP_PATH12_SVID then 0 else igrSVID, if SKIP_PATH12_CVID then 0 else igrCVID, in_smac_lut_idx p, in_dmac_lut_idx p,
       _rtk_fc_sw_flowHashPath12ExtraItem_get p)
  | FB_PATH_34 =>
      (u16 (in_l4_src_port p), u16 (in_l4_dst_port p), in_src_ipv4_addr p, in_dst_ipv4_addr p,
       _rtk_fc_sw_flowHashPath34ExtraItem_get p igrSVID igrCVID lutDaIdx_gmacChk)
  | FB_PATH_5 =>
      (u16 (in_l4_src_port p), u16 (in_l4_dst_port p), in_src_ipv4_addr p, hashed_dip5 e,
       _rtk_fc_sw_flowHashPath5ExtraItem_get p igrSVID igrCVID)
  | FB_PATH_6 =>
      (if first_asic || negb SKIP_PATH6_SA then u16 (in_smac_lut_idx p) else 0,
       if first_asic || negb SKIP_PATH6_DA then u16 (in_dmac_lut_idx p) else 0, in_src_ipv4_addr p, in_dst_ipv4_addr p,
       _rtk_fc_sw_flowHashPath6ExtraItem_get p igrSVID igrCVID)
  end.
Definition _rtk_fc_flow_hashIndex (e : entry) (igrSVID igrCVID lutDaIdx_gmacChk : Z) : Z :=
  let '(param1, param2, param3, param4, extraItem) := hash_params e igrSVID igrCVID lutDaIdx_gmacChk in
  let flowHashIdx := _rtk_fc_sw_flowHashIndexStep1_get param1 param2 param3 param4 extraItem in
  if second_action e then _rtk_fc_sw_flowHashIndexStep2_get flowHashIdx else flowHashIdx.

(** ** The hash of a packet *)

(** The path a packet is hashed by. *)
Definition hash_path (h : pktHdr) : fb_path :=
  let l4 := is_some (l4_of h).1 in
  let path :=
    if dmacToGatewayMAC h && negb (h_isMulticast h) && isL3 h then FB_PATH_5
    else if isL3 h && l4 then (if negb (h_isMulticast h) && bridge_5tuple_flow_accelerate_by_2tuple then FB_PATH_12 else FB_PATH_34)
    else FB_PATH_12 in
  if isL3 h && negb l4 && h_isMulticast h then FB_PATH_34 else path.
(** The fields that go into the hash of a frame, and into that of an IP packet. *)
Definition hash_igr12 (pri tos smac dmac : Z) : igr_pattern :=
  Igr smac dmac 0 0 0 0 pri 0 0 0 0 tos 0 0 0 0 0 0 0 0 0 0 0 0 0 0 0 0 0 0 0 0 0 0.
Definition hash_igr (pri tos v6 sip dip sport dport l4proto : Z) : igr_pattern :=
  Igr 0 0 0 0 0 0 pri 0 0 0 0 tos 0 0 0 0 0 0 0 v6 sip dip sport dport l4proto 0 0 0 0 0 0 0 0 0.
Definition hash_entry (path : fb_path) (p : igr_pattern) : entry := Entry false false path 0 p egr0.
Definition gmacChk (h : pktHdr) : Z := if first_asic then dmacL2Idx h else flag (dmacToGatewayMAC h).
Definition hashed_dmac (h : pktHdr) : Z := if dmacL2Idx h =? bcMacIdx then HW_BC_IDX else dmacL2Idx h.

Definition pkt_entry (h : pktHdr) : entry :=
  let pri := tag_or0 vt_pri (cvh h) in
  hash_entry (hash_path h)
    match hash_path h with
    | FB_PATH_5 => hash_igr pri (pkt_tos h) 0 (pkt_sip h) (pkt_dip h) (ports h).1 (ports h).2 (is_tcp h)
    | FB_PATH_34 => hash_igr pri (pkt_tos h) (flag (is_some (ip6h h))) (pkt_sip h) (pkt_dip h) (ports h).1 (ports h).2 (is_tcp h)
    | _ => hash_igr12 pri (if isL3 h then pkt_tos h else 0) (smacL2Idx h) (hashed_dmac h)
    end.
Definition _rtk_fc_flow_hashIndex_byPktHdr (h : pktHdr) : option Z :=
  if (smacL2Idx h =? FAIL) || (dmacL2Idx h =? FAIL) then None
  else Some (_rtk_fc_flow_hashIndex (pkt_entry h) (tag_or0 vt_id (svh h)) (tag_or0 vt_id (cvh h))
               (if bool_decide (hash_path h = FB_PATH_34) then gmacChk h else 0)).

(** The hash of a packet in a tunnel by its outer header. *)
Definition outer_ports (h : pktHdr) : Z * Z := match dualHdr h with PKT_PPTP _ => (0, 0) | _ => outer_udph h end.
Definition outer_entry (h : pktHdr) (o : ip4) : entry :=
  hash_entry (if dmacToGatewayMAC h then FB_PATH_5 else FB_PATH_34)
    (hash_igr (tag_or0 vt_pri (cvh h)) (ip_tos o) 0 (saddr o) (daddr o) (outer_ports h).1 (outer_ports h).2 0).
Definition _rtk_fc_flow_hashIndex_byDualPktOuterHdr (h : pktHdr) : option Z :=
  match dualHdr h with
  | PKT_PPTP _ | PKT_L2TP _ _ | PKT_VXLAN =>
      if (smacL2Idx h =? FAIL) || (dmacL2Idx h =? FAIL) then None
      else match outer_iph h with
           | None => None
           | Some o => Some (_rtk_fc_flow_hashIndex (outer_entry h o) (tag_or0 vt_id (svh h)) (tag_or0 vt_id (cvh h))
                               (if dmacToGatewayMAC h then 0 else gmacChk h))
           end
  | _ => None
  end.

(** The hash the packet's flow is looked for by, and whether its outer header was not
    recognised.  [dualNetif] says that the interface of a tunnel was found; [rx] is the hash
    of the switch, if it gave one. *)
Definition in_tunnel (d : pkt_dual) : bool := match d with PKT_PPTP _ | PKT_L2TP _ _ | PKT_VXLAN => true | _ => false end.
Definition single_header (d : pkt_dual) : bool := match d with NOT_DUAL | PKT_IPSEC _ => true | _ => false end.
Definition rx_hash (hash : Z) : option Z :=
  if (Z.of_nat flowHashBuckets <? hash) then None
  else Some (if bool_decide (fbMode = FB_MODE_4K) then Z.shiftl hash 2 else hash).
Definition hash_by_hdr (h : pktHdr) : option Z :=
  if in_tunnel (dualHdr h) then _rtk_fc_flow_hashIndex_byDualPktOuterHdr h else _rtk_fc_flow_hashIndex_byPktHdr h.
Definition _rtk_fc_flow_hashIndex_get (dualNetif isFragment : bool) (rx : option Z) (h : pktHdr) : option Z * bool :=
  if negb dualNetif || match dualHdr h with PKT_IPSEC _ => true | _ => false end
  then (match rx with
        | Some hash => if isFragment then hash_by_hdr h else rx_hash hash
        | None => hash_by_hdr h
        end, negb (single_header (dualHdr h)))
  else (_rtk_fc_flow_hashIndex_byPktHdr h, false).
End Hash.

(** ** Addresses of version 6

    They are hashed to 32 bits; a destination keeps whether it is a group.  The same two
    functions are in [src/rtk_fc_helper_ps.c] and in the Rome driver; the address is its
    four words in host order. *)
Definition v6_words : Type := (Z * Z * Z * Z)%type.
Definition v6_xor (a : v6_words) : Z := let '(w0, w1, w2, w3) := a in Z.lxor (Z.lxor (Z.lxor w0 w1) w2) w3.
Definition _rtk_mgr_flowHashIPv6SrcAddr_get (a : v6_words) : Z := v6_xor a.
Definition _rtk_mgr_flowHashIPv6DstAddr_get (a : v6_words) : Z :=
  let hashIdx := v6_xor a in
  let hashIdx := Z.lxor (Z.shiftr hashIdx 31) (Z.land hashIdx 0x7fffffff) in
  let '(w0, _, _, _) := a in
  if Z.shiftr w0 24 =? 0xff then Z.lor hashIdx 0x80000000 else hashIdx.
