(* ===== verification/FcHashSpec.v ===== *)
(** * The hash of a flow: theorems

    The hash always names a bucket of the table, whatever the fields are; the second hash
    names another bucket and leads back; and a packet is hashed like an entry that says the
    same of it. *)
From stdpp Require Import gmap.
From S2P Require Import Prelude FcLists FcFlowKey FcFlowKeySpec FcFlowSide FcFlow FcFlowInv FcFlowFind FcHash.
Open Scope Z_scope.

(** The shape of the table in each mode. *)
Definition bucket_bits (m : fb_mode) : Z := match m with FB_MODE_4K => 10 | FB_MODE_8K => 13 | FB_MODE_16K => 14 | FB_MODE_32K => 15 end.
Class FlowHashLaws `{FlowEnv} `{FlowHashEnv} : Prop := {
  hlaws_mode : fbMode_4K = bool_decide (fbMode = FB_MODE_4K);
  hlaws_shift : flowHashWayShift = if bool_decide (fbMode = FB_MODE_4K) then 2%nat else 0%nat;
  hlaws_buckets : Z.of_nat flowHashBuckets = 2 ^ bucket_bits fbMode }.

(** ** Numbers of few bits *)

Definition below (n x : Z) : Prop := 0 <= x < 2 ^ n.
Lemma below_bits n x : 0 <= n -> below n x <-> 0 <= x /\ forall i, n <= i -> Z.testbit x i = false.
Proof.
  intros Hn. unfold below. split.
  - intros Hx. split; [lia|]. intros i Hi. rewrite <- (Z.mod_small x (2 ^ n)) by done. by apply Z.mod_pow2_bits_high.
  - intros [H0 Hb]. assert (x = x mod 2 ^ n) as ->; [|apply Z.mod_pos_bound; lia].
    apply Z.bits_inj'. intros i Hi. destruct (Z_lt_dec i n); [by rewrite Z.mod_pow2_bits_low by lia|].
    rewrite Z.mod_pow2_bits_high by lia. apply Hb. lia.
Qed.
Lemma lxor_below n x y : 0 <= n -> below n x -> below n y -> below n (Z.lxor x y).
Proof.
  intros Hn [Hx Bx]%below_bits [Hy By]%below_bits; [|done..]. apply below_bits; [done|]. split; [apply Z.lxor_nonneg; tauto|].
  intros i Hi. by rewrite Z.lxor_spec, Bx, By.
Qed.
Lemma lor_below n x y : 0 <= n -> below n x -> below n y -> below n (Z.lor x y).
Proof.
  intros Hn [Hx Bx]%below_bits [Hy By]%below_bits; [|done..]. apply below_bits; [done|]. split; [apply Z.lor_nonneg; tauto|].
  intros i Hi. by rewrite Z.lor_spec, Bx, By.
Qed.
Lemma land_below n x y : 0 <= n -> below n y -> below n (Z.land x y).
Proof.
  intros Hn [Hy By]%below_bits; [|done]. apply below_bits; [done|]. split; [apply Z.land_nonneg; tauto|].
  intros i Hi. by rewrite Z.land_spec, By, andb_false_r.
Qed.
Ltac few_bits := repeat (apply lxor_below || apply lor_below); try (apply land_below; unfold below; lia); lia.

Section Spec.
Context `{FlowChecks} `{FlowSideConfig} `{FlowEnv} `{!FlowLaws} `{FlowHashEnv} `{!FlowHashLaws}.

(** What a hash looks like: the number of a bucket, times its ways. *)
Definition hash_ok (z : Z) : Prop :=
  match fbMode with
  | FB_MODE_4K => exists b, below 10 b /\ z = b * 4
  | m => below (bucket_bits m) z
  end.
Lemma hash_index_ok sum x : hash_ok (hash_index sum x).
Proof.
  unfold hash_ok, hash_index, fold_high. destruct fbMode.
  - eexists. split; [|by rewrite Z.shiftl_mul_pow2 by lia]. few_bits.
  - unfold bucket_bits. few_bits.
  - unfold bucket_bits. few_bits.
  - unfold bucket_bits. few_bits.
Qed.
Lemma step2_ok z : hash_ok z -> hash_ok (_rtk_fc_sw_flowHashIndexStep2_get z).
Proof.
  unfold hash_ok, _rtk_fc_sw_flowHashIndexStep2_get, step2_mask. destruct fbMode; unfold bucket_bits; intros Hz.
  - destruct Hz as (b & Hb & ->). rewrite Z.shiftr_div_pow2, Z.shiftl_mul_pow2 by lia. change (2 ^ 2) with 4. rewrite Z.div_mul by lia.
    eexists. split; [|done]. apply lxor_below; [lia|done|]. apply land_below; unfold below; lia.
  - apply lxor_below; [lia|done|]. apply land_below; unfold below; lia.
  - apply lxor_below; [lia|done|]. apply land_below; unfold below; lia.
  - apply lxor_below; [lia|done|]. apply land_below; unfold below; lia.
Qed.
Lemma hash_ok_bucket z : hash_ok z -> 0 <= z /\ bucket_start (Z.to_nat z).
Proof.
  pose proof hlaws_shift as Hs. pose proof hlaws_buckets as Hb. unfold hash_ok, bucket_start, ways in *. rewrite Hs.
  destruct fbMode; unfold bucket_bits, below in *; simpl in *.
  - intros (b & Hb' & ->). split; [lia|]. exists (Z.to_nat b). lia.
  - intros Hz. split; [lia|]. exists (Z.to_nat z). lia.
  - intros Hz. split; [lia|]. exists (Z.to_nat z). lia.
  - intros Hz. split; [lia|]. exists (Z.to_nat z). lia.
Qed.
Lemma rx_hash_ok hash z : 0 <= hash < Z.of_nat flowHashBuckets -> rx_hash hash = Some z -> hash_ok z.
Proof.
  unfold rx_hash. rewrite hlaws_buckets. intros Hh. destruct (Z.ltb_spec (2 ^ bucket_bits fbMode) hash); [done|]. unfold hash_ok.
  destruct fbMode; simpl; intros [= <-]; [|done..]. exists hash. by rewrite Z.shiftl_mul_pow2.
Qed.
Lemma hashIndex_ok e s c l : hash_ok (_rtk_fc_flow_hashIndex e s c l).
Proof.
  unfold _rtk_fc_flow_hashIndex. destruct (hash_params e s c l) as [[[[p1 p2] p3] p4] x].
  assert (hash_ok (_rtk_fc_sw_flowHashIndexStep1_get p1 p2 p3 p4 x)) by apply hash_index_ok.
  destruct (second_action e); [by apply step2_ok|done].
Qed.

Lemma hash_sum_swap a b c d : hash_sum a b c d = hash_sum b a c d.
Proof. assert (hash_sum1 a b c d = hash_sum1 b a c d) as E; [|unfold hash_sum; by rewrite E]. unfold hash_sum1. f_equal. lia. Qed.
Lemma byPktHdr_ok h z : _rtk_fc_flow_hashIndex_byPktHdr h = Some z -> hash_ok z.
Proof. unfold _rtk_fc_flow_hashIndex_byPktHdr. case_match; [done|]. intros [= <-]. apply hashIndex_ok. Qed.
Lemma byOuterHdr_ok h z : _rtk_fc_flow_hashIndex_byDualPktOuterHdr h = Some z -> hash_ok z.
Proof.
  unfold _rtk_fc_flow_hashIndex_byDualPktOuterHdr. destruct (dualHdr h); try done; (case_match; [done|]); (destruct (outer_iph h); [|done]);
    intros [= <-]; apply hashIndex_ok.
Qed.
Lemma by_hdr_ok h z : hash_by_hdr h = Some z -> hash_ok z.
Proof. unfold hash_by_hdr. destruct (in_tunnel _); [apply byOuterHdr_ok|apply byPktHdr_ok]. Qed.

(** C28: whatever a flow or a packet says, its hash names a bucket of the table: the search
    never leaves the table.  Of a hash that the switch gave this holds when it is below the
    number of buckets; the driver's check lets one more pass
    ([hash_past_the_table_is_accepted]). *)
Theorem flow_hash_in_table :
  (forall e igrSVID igrCVID gmac, bucket_start (Z.to_nat (_rtk_fc_flow_hashIndex e igrSVID igrCVID gmac))) /\
  (forall dualNetif frag rx h z,
    (forall hash, rx = Some hash -> 0 <= hash < Z.of_nat flowHashBuckets) ->
    (_rtk_fc_flow_hashIndex_get dualNetif frag rx h).1 = Some z -> 0 <= z /\ bucket_start (Z.to_nat z)).
Proof.
  split; [intros e s c l; apply hash_ok_bucket, hashIndex_ok|]. intros dual frag rx h z Hrx. unfold _rtk_fc_flow_hashIndex_get.
  destruct (negb dual || _); simpl; [|intros Hz; apply hash_ok_bucket; by eapply byPktHdr_ok].
  destruct rx as [hash|]; [destruct frag|]; intros Hz; apply hash_ok_bucket; try by eapply by_hdr_ok. by eapply rx_hash_ok; [apply Hrx|].
Qed.
Lemma hash_past_the_table_is_accepted z : rx_hash (Z.of_nat flowHashBuckets) = Some z -> ~ bucket_start (Z.to_nat z).
Proof.
  pose proof hlaws_shift as Hs. pose proof hlaws_buckets as Hb. unfold rx_hash, bucket_start, ways. rewrite Z.ltb_irrefl, Hs.
  destruct fbMode; unfold bucket_bits in *; simpl in *; intros [= <-] (b & ? & Hz); [|lia..].
  rewrite Z.shiftl_mul_pow2 in Hz by lia. change (2 ^ 2) with 4 in Hz. lia.
Qed.

Lemma lxor_again x m : Z.lxor (Z.lxor x m) m = x.
Proof. by rewrite Z.lxor_assoc, Z.lxor_nilpotent, Z.lxor_0_r. Qed.
Lemma lxor_moves x m : m <> 0 -> Z.lxor x m <> x.
Proof. intros Hm E. apply Hm. rewrite <- (Z.lxor_nilpotent x), <- E at 1. rewrite (Z.lxor_comm _ x), <- Z.lxor_assoc, Z.lxor_nilpotent. done. Qed.

(** The second hash, by which the second action of a flow is kept, names another bucket,
    and the second hash of that one leads back: the buckets form pairs. *)
Theorem second_hash_leads_back z : hash_ok z ->
  let z' := _rtk_fc_sw_flowHashIndexStep2_get z in
  z' <> z /\ bucket_start (Z.to_nat z') /\ _rtk_fc_sw_flowHashIndexStep2_get z' = z.
Proof.
  intros Hz. pose proof (step2_ok z Hz) as Hz'. split; [|split; [by apply hash_ok_bucket|]].
  - unfold hash_ok, _rtk_fc_sw_flowHashIndexStep2_get in *. destruct fbMode; [|by apply lxor_moves..].
    destruct Hz as (b & Hb & ->). rewrite Z.shiftr_div_pow2, Z.shiftl_mul_pow2 by lia. change (2 ^ 2) with 4. rewrite Z.div_mul by lia.
    intros E%Z.mul_cancel_r; [|done]. by apply lxor_moves in E.
  - clear Hz'. unfold hash_ok, _rtk_fc_sw_flowHashIndexStep2_get in *. destruct fbMode; [|apply lxor_again..].
    destruct Hz as (b & Hb & ->). rewrite Z.shiftr_shiftl_l, !Z.sub_diag, Z.shiftl_0_r, lxor_again by lia.
    rewrite Z.shiftr_div_pow2, Z.shiftl_mul_pow2 by lia. change (2 ^ 2) with 4. by rewrite Z.div_mul.
Qed.
End Spec.

(** ** A chip

    In the mode with 1024 buckets of four ways, and a TCAM of 64 entries.  The fields are
    added as they are. *)
#[local] Instance chip_checks : FlowChecks := checks_with true true.
#[local] Instance chip_sides : FlowSideConfig := {|
  RTK_FC_TABLESIZE_NATLOOPBACK_BUCKET := 16; RTK_FC_TABLESIZE_NATLOOPBACK_WAY := 4; RTK_FC_TABLESIZE_LUT := 16; RTK_FC_TABLESIZE_LUT_IVL := 4 |}.
#[local] Instance chip_env : FlowEnv := {|
  fbMode_4K := true; FLOWSRAM := 4096; flowHwTableSize := 4160; shortcut_flow_count := 64;
  flowHashBuckets := 1024; flowHashWayShift := 2; flowSync_GRANULARITY := 32;
  RTK_SW_FLOW_LIST_HEAD_COUNT := 1024; RTK_HASH_VAL_TO_SW_FLOW_LIST_IDX := fun h => (h / 4 mod 1024)%nat;
  SW_FLOW_LISTS_IN_BUCKET := fun b => [b]; SWFLOW_LIST_ADD := cons; NETIF_HWTOSW := Z.to_nat;
  PATH34_SKIP_DA := false; hwnat_sw_only := false; RTK_FC_WLANX_NOT_FOUND := 255;
  kernel_delay_mode := false; flow_delay_hit_num := 3; HIT_NUMBER_TO_DELAY_MAX := 255; DUAL_PT_TBL_START_IDX := 1;
  house_keeping_flow_delete_immediatly := true; flowSyncPeriod_unit1s := 5; flowIdleTimeout_unit1s := 15; mcTimeout_unit1s := 30;
  has_cbFlowAdd := false; has_cbFlowDel := false; ivl_wrap := fun x => x mod 65536; wlan_egress := fun _ => false;
  asic_flow_set := fun _ e sw_only => Some (with_valid (negb sw_only) e); asic_flow_del := fun _ e => with_valid false e;
  ct_get_ok := fun _ => true; CT_SESSION_ALIVE := fun _ => true; CT_REFRESH := fun _ => true;
  CT_EXPIRETIME_GET := fun o x => default x o |}.
#[local] Instance chip_hash : FlowHashEnv := {|
  fbMode := FB_MODE_4K; SKIP_DSCP := false; SKIP_PATH6_SA := false; SKIP_PATH6_DA := false; preHashPtn := fun _ => 0;
  _rtk_rg_flowHashPreProcessPort := fun x _ => x; _rtk_rg_flowHashPreProcessIP := fun x _ => x;
  FLOW_V6HASHADDR_MC_BIT := 0x80000000; FLOW_V4ADDR_MC_LO_BOUND := 0xe0000000; FLOW_V4ADDR_MC_UP_BOUND := 0xf0000000;
  netif := fun _ => NetifIntf true 0 0; HW_BC_IDX := 4095; bcMacIdx := 7; bridge_5tuple_flow_accelerate_by_2tuple := false |}.
#[local] Instance chip_laws : FlowHashLaws.
Proof. by split. Qed.

(** A TCP packet to an address that is bridged, in two tags. *)
Definition tagged_pkt (svid cvid : Z) : pktHdr :=
  PktHdr (Some (Ip4 0x0a000001 0x0a000002 0)) None 0 0 (Some (33, 80)) None 6 None None None (Some (Vtag svid 0 0)) (Some (Vtag cvid 0 0)) None
    3 4 false false 1 0 0 0x800 0 false NOT_DUAL None (0, 0) false.
Lemma flow_hash_in_table_witness : _rtk_fc_flow_hashIndex_get false false (Some 1023) (tagged_pkt 5 9) = (Some 4092, false) /\
  0 <= 4092 /\ bucket_start (Z.to_nat 4092).
Proof.
  split; [done|]. apply (proj2 flow_hash_in_table false false (Some 1023) (tagged_pkt 5 9) 4092); [|done]. intros hash [= <-]. simpl. lia.
Defined.
Lemma second_hash_leads_back_witness : hash_ok 4 /\ _rtk_fc_sw_flowHashIndexStep2_get 4 = 2056 /\
  _rtk_fc_sw_flowHashIndexStep2_get (_rtk_fc_sw_flowHashIndexStep2_get 4) = 4.
Proof.
  assert (hash_ok 4) as H4 by (exists 1; split; [unfold below; lia|done]). split; [done|]. split; [done|]. apply (second_hash_leads_back 4 H4).
Defined.
(** The number one past the last bucket is taken for a hash of the switch: the ways of that
    bucket are the first entries of the TCAM. *)
Example first_tcam_entry_for_a_bucket : rx_hash 1024 = Some (Z.of_nat FLOWSRAM) /\ rx_hash 1025 = None.
Proof. done. Qed.
(** The hash of a frame adds the numbers of its two tags: swapping them changes nothing. *)
Example swapped_tags_hash_alike e : in_path e = FB_PATH_12 -> _rtk_fc_flow_hashIndex e 5 9 0 = _rtk_fc_flow_hashIndex e 9 5 0.
Proof.
  intros Hp. unfold _rtk_fc_flow_hashIndex, hash_params, _rtk_fc_sw_flowHashIndexStep1_get. rewrite Hp.
  change (_rtk_rg_flowHashPreProcessPort ?x _) with x. by rewrite hash_sum_swap.
Qed.
