(* ===== verification/FcSearch.v ===== *)
(** * The flow of a packet

    Model of the search by packet of [FleetConntrackDriver/core/rtk_fc_internal.c]:
    [rtk_fc_flow_compareByIngressPktHdr], which says whether a packet is of a flow, and
    [rtk_fc_flow_searchByIngressPktHdr], which looks through the bucket of the packet's hash
    and, for a flow with a second action, through the bucket of the second hash.

    The copies of the flows that the search hands out are their indices here, and the flows
    themselves in the table; the copy into the layout of another chip is left out.  So are
    the flows of NPTv6 (see [FcFlowKey.proto_ctrl]) and of IPsec end points, which have no
    case of their own. *)
From stdpp Require Import gmap.
From S2P Require Import Prelude FcLists FcFlowKey FcFlowSide FcFlow FcHash.
Open Scope Z_scope.

Class FlowSearchEnv := {
  (** [RTK_FC_TABLESIZE_HW_FLOW + RTK_FC_MAX_SHORTCUT_FLOW_SIZE] *)
  flow_index_limit : nat;
  PON_PORT : Z;                                        (* RTK_FC_MAC_PORT_PON *)
  RTK_RG_ASIC_ETHTYPE_GET_HW_IDX : Z -> option Z;
  RTK_FC_ETHERTYPE_DONT_CARE : Z;
  (** The IPv4 address of the MAP-E tunnel that the flow of this index notes. *)
  mape_tun_ipv4_addr : nat -> Z;
  (** [ipv6_mapt_mappingTbl[i].v6_hash_value] *)
  mapt_v6_hash_value : nat -> Z;
  (** What the field of the dual-header index holds in a flow that has no dual header. *)
  other_dual_idx : proto_ctrl -> nat }.

Inductive search_ret := RTK_FC_FLOWENT_SEARCH_FAIL | RTK_FC_FLOWENT_SEARCH_HW | RTK_FC_FLOWENT_SEARCH_SW.
#[export] Instance search_ret_eq_dec : EqDecision search_ret.
Proof. solve_decision. Defined.

Section Search.
Context `{FlowChecks} `{FlowSideConfig} `{FlowEnv} `{FlowHashEnv} `{FlowSearchEnv}.

(** ** Is the packet of the flow? *)

Definition isIPv6 (h : pktHdr) : Z := flag (is_some (ip6h h)).
Definition igrPppoeif (h : pktHdr) : Z := flag (is_some (ppph h)).
Definition igrPppoeSid (h : pktHdr) : Z := default 0 (ppph h).
Definition igrStagif (h : pktHdr) : Z := flag (is_some (svh h)).
Definition igrCtagif (h : pktHdr) : Z := flag (is_some (cvh h)).
Definition igrCpri (h : pktHdr) : Z := tag_or0 vt_pri (cvh h).
(** The addresses: of IPv6 when there is such a header, 0 when there is none at all. *)
Definition igrSip (h : pktHdr) : Z :=
  match ip6h h, iph h with Some _, _ => ipv6Sip_hash h | None, Some i => saddr i | None, None => 0 end.
Definition igrDip (h : pktHdr) : Z :=
  match ip6h h, iph h with Some _, _ => ipv6Dip_hash h | None, Some i => daddr i | None, None => 0 end.
Definition intf_of (p : igr_pattern) : netif_intf := netif (NETIF_HWTOSW (in_intf_idx p)).

(** The path the packet is compared as. *)
Definition cmp_path (f : flow) (h : pktHdr) : fb_path :=
  if negb (FLOW_INFO_IS_SET f FORCE_TO_BRIDGE_FLOW) && (dmacToGatewayMAC h && negb (h_isMulticast h)) then FB_PATH_5
  else if isL3 h && is_some (l4_of h).1 && negb bridge_5tuple_flow_accelerate_by_2tuple then FB_PATH_34
  else FB_PATH_12.

Definition pkt_ctag (skip_cvid skip_cpri : bool) (p : igr_pattern) (h : pktHdr) : bool :=
  if first_asic then only (negb skip_cvid) (in_ctagif p =? igrCtagif h)
  else only (negb skip_cvid || negb skip_cpri) (in_ctagif p =? igrCtagif h)
    && only (negb skip_cpri) (in_cvlan_pri p =? igrCpri h).
Definition pkt_same_tos (p : igr_pattern) (h : pktHdr) : bool := only (on (in_tos_check p)) (tos_part (in_tos p) =? tos_part (pkt_tos h)).
Definition pkt_stream (f : flow) (h : pktHdr) : bool :=
  only ((macPortIdx h =? PON_PORT) && CHECK_PATH345_STREAM_IDX) (pon_stream_id (sw f) =? ponstreamid h).

(** The destination a routed flow expects, and the address whose translation is undone. *)
Definition inbound (e : entry) : bool := (out_l4_act (egr e) =? 1) && (out_l4_direction (egr e) =? 0).
Definition translated_v6 (f : flow) : option (nat * nat) :=
  match protoCtrl f with
  | MAPT_ACC s d | XLAT_ACC s d => if out_l4_direction (egr (ent f)) =? 0 then Some (s, d) else None
  | _ => None
  end.
Definition flowdip (i : nat) (f : flow) (h : pktHdr) : Z :=
  let e := ent f in
  if bool_decide (protoCtrl f = MAPE_ACC) && bool_decide (dualHdr h = PKT_IP4INIP6) && inbound e then mape_tun_ipv4_addr i
  else if inbound e then gateway_ipv4_addr (intf_of (igr e)) else in_dst_ipv4_addr (igr e).
Definition any_dip (f : flow) (h : pktHdr) : bool :=
  match protoCtrl f with
  | V6NAT (S _) => (out_l4_direction (egr (ent f)) =? 0) && (isIPv6 h =? 1)
  | _ => false
  end.
Definition same_addresses (i : nat) (f : flow) (h : pktHdr) (d : fc) : bool :=
  match translated_v6 f with
  | Some (s, t) => (igrSip h =? mapt_v6_hash_value s) && (igrDip h =? mapt_v6_hash_value t)
  | None =>
      match (if FLOW_INFO_IS_SET f NATLOOPBACK_ENTRY
             then match rtk_fc_flow_info_natloopback_get i (natloops d) with
                  | Some nl => Some (if on (key_l3_dip nl) then key_l3_dip nl else flowdip i f h)
                  | None => None
                  end
             else Some (flowdip i f h)) with
      | None => false
      | Some dip => (in_src_ipv4_addr (igr (ent f)) =? igrSip h) && (any_dip f h || (dip =? igrDip h))
      end
  end.

Definition cmp_path5 (i : nat) (f : flow) (h : pktHdr) (d : fc) : bool :=
  let p := igr (ent f) in
  intf_valid (intf_of p)
  && bool_decide (in_path (ent f) = FB_PATH_5)
  && (in_ipv4_or_ipv6 p =? isIPv6 h)
  && (in_l4proto p =? is_tcp h)
  && same_addresses i f h d
  && (in_l4_src_port p =? (ports h).1)
  && (in_l4_dst_port p =? (ports h).2)
  && only (negb SKIP_PATH5_SVID) (in_stagif p =? igrStagif h)
  && pkt_ctag SKIP_PATH5_CVID SKIP_PATH5_CPRI p h
  && (in_pppoeif p =? igrPppoeif h)
  && only (on (igrPppoeif h)) (out_pppoe_sid (intf_of p) =? igrPppoeSid h)
  && pkt_same_tos p h
  && pkt_stream f h.
Definition cmp_path3 (f : flow) (h : pktHdr) : bool :=
  let p := igr (ent f) in
  let mc := h_isMulticast h in
  intf_valid (intf_of p)
  && bool_decide (in_path (ent f) = FB_PATH_34)
  && (in_ipv4_or_ipv6 p =? isIPv6 h)
  && (in_l4proto p =? is_tcp h)
  && (in_src_ipv4_addr p =? igrSip h)
  && (in_dst_ipv4_addr p =? igrDip h)
  && (in_l4_src_port p =? (ports h).1)
  && (in_l4_dst_port p =? (ports h).2)
  && only (care_svid34 mc) (in_stagif p =? igrStagif h)
  && pkt_ctag (negb (care_cvid34 mc)) (negb (care_cpri34 mc)) p h
  && (in_pppoeif p =? igrPppoeif h)
  && only (on (igrPppoeif h))
       (if on (in_pppoe_sid_check p) then out_pppoe_sid (intf_of p) =? igrPppoeSid h else pppoe_sid (sw f) =? igrPppoeSid h)
  && pkt_same_tos p h
  && pkt_stream f h
  && negb (FLOW_INFO_IS_SET f SOFTWARE_ONLY && (negb (lutIgrSaIdx (sw f) =? smacL2Idx h) || negb (lutEgrDaIdx (sw f) =? dmacL2Idx h))).
Definition pkt_ethtype (p : igr_pattern) (h : pktHdr) : bool :=
  match RTK_RG_ASIC_ETHTYPE_GET_HW_IDX (ethtype h) with
  | None => false
  | Some hwIdx =>
      if negb (in_protocol p =? RTK_FC_ETHERTYPE_DONT_CARE) then in_protocol p =? hwIdx else hwIdx =? RTK_FC_ETHERTYPE_DONT_CARE
  end.
Definition cmp_path1 (f : flow) (h : pktHdr) : bool :=
  let p := igr (ent f) in
  bool_decide (in_path (ent f) = FB_PATH_12)
  && negb (smacL2Idx h =? FAIL)
  && negb (dmacL2Idx h =? FAIL)
  && (in_smac_lut_idx p =? smacL2Idx h)
  && (in_dmac_lut_idx p =? hashed_dmac h)
  && only (negb SKIP_PATH12_SVID) (in_stagif p =? igrStagif h)
  && pkt_ctag SKIP_PATH12_CVID SKIP_PATH12_CPRI p h
  && (in_pppoeif p =? igrPppoeif h)
  && only (on (igrPppoeif h) && on (in_pppoe_sid_check p)) (in_pppoe_sid p =? igrPppoeSid h)
  && pkt_same_tos p h
  && only (on (in_spa_check p)) ((PATH12_SPA (in_spa p) =? macPortIdx h) && (in_ext_spa p =? macExtPortIdx h))
  && only (on (in_out_stream_idx_check_act p) && (macPortIdx h =? PON_PORT)) (in_out_stream_idx p =? ponstreamid h)
  && only CHECK_PATH12_PROTOCOL (pkt_ethtype p h).

(** The last checks are the same for all paths. *)
Definition pkt_dual_info (h : pktHdr) : dual_hdr :=
  match dualHdr h with
  | PKT_PPTP (Some grecallid) => DUAL_PPTP grecallid
  | PKT_L2TP tunnelid sessionid => DUAL_L2TP tunnelid sessionid
  | PKT_IPSEC spi => DUAL_IPSEC spi
  | _ => DUAL_NONE
  end.
Definition dual_idx (f : flow) : nat := match protoCtrl f with DUAL_PT k => k | other => other_dual_idx other end.
Definition pkt_dual_differs (f : flow) (h : pktHdr) : bool :=
  match protoCtrl f with DUAL_PT k => negb (k =? 0)%nat | _ => false end
  || (negb (bool_decide (dualHdr h = NOT_DUAL)) && outerHdrMiss h)
  || match dualHdr h with PKT_IPSEC _ => true | _ => false end.
Definition pkt_icmp (f : flow) (h : pktHdr) : bool :=
  match protoCtrl f with
  | ICMP_ACC id _ _ =>
      match icmph h, icmp6h h with
      | Some (ty, i), o =>
          if (ty =? 8) || (ty =? 0) then i =? id
          else match o with Some (ty6, i6) => ((ty6 =? 128) || (ty6 =? 129)) && (i6 =? id) | None => false end
      | None, Some (ty6, i6) => ((ty6 =? 128) || (ty6 =? 129)) && (i6 =? id)
      | None, None => false
      end
  | _ => negb (is_some (icmph h)) && negb (is_some (icmp6h h))
  end.
Definition pkt_last_checks (f : flow) (h : pktHdr) (d : fc) : bool :=
  only (negb SKIP_SPRI) (svlan_pri (sw f) =? tag_or0 vt_pri (svh h))
  && only (negb SKIP_VLAN_DEICFI) ((igr_svlan_dei (sw f) =? tag_or0 vt_dei (svh h)) && (igr_cvlan_cfi (sw f) =? tag_or0 vt_dei (cvh h)))
  && only (pkt_dual_differs f h) (_rtk_fc_flow_extraSwflowPatternCheck (dual_pt_flowMapTbl d) (pkt_dual_info h) (dual_idx f))
  && pkt_icmp f h
  && (stpid_sel h =? igr_stpid_sel (sw f)).
Definition rtk_fc_flow_compareByIngressPktHdr (multipleAct : Z) (i : nat) (h : pktHdr) (d : fc) : bool :=
  let f := flow_at i d in
  let e := ent f in
  in_use f
  && negb ((bool_decide (in_path e = FB_PATH_12) || bool_decide (in_path e = FB_PATH_34)) && negb (in_multiple_act e =? multipleAct))
  && Bool.eqb (h_aclTrapPri h) (FLOW_INFO_IS_SET f ACL_PRI_FWD)
  && match cmp_path f h with
     | FB_PATH_5 => cmp_path5 i f h d
     | FB_PATH_34 => cmp_path3 f h
     | _ => cmp_path1 f h
     end
  && pkt_last_checks f h d.

(** ** The search *)

Fixpoint first_that (p : nat -> bool) (l : list nat) : option nat :=
  match l with
  | [] => None
  | i :: l => if p i then Some i else first_that p l
  end.
(** The walk over a list of software flows stops at an index that cannot be. *)
Fixpoint first_sw (p : nat -> bool) (l : list nat) : option nat :=
  match l with
  | [] => None
  | i :: l => if (flow_index_limit <? i)%nat then None else if p i then Some i else first_sw p l
  end.
Definition search_ways (p : nat -> bool) (hash : nat) : option nat := first_that p (seq hash ways).
Definition search_hw (p : nat -> bool) (hash : nat) (d : fc) : option nat :=
  match search_ways p hash with
  | Some i => Some i
  | None => if fbMode_4K then first_that p (tcam_bucket hash d) else None
  end.
Definition hit (i : nat) (d : fc) : fc := on_flow (set_trf true) i d.

(** The second action: the same search by the second hash, without the checks of indices. *)
Definition search_second (h : pktHdr) (hash : nat) (d : fc) : option (search_ret * nat) :=
  let p i := rtk_fc_flow_compareByIngressPktHdr 1 i h d in
  let hash2 := Z.to_nat (_rtk_fc_sw_flowHashIndexStep2_get (Z.of_nat hash)) in
  match search_hw p hash2 d with
  | Some i => Some (RTK_FC_FLOWENT_SEARCH_HW, i)
  | None =>
      if (0 <? shortcut_flow_count)%nat
      then match first_that p (sw_bucket hash2 d) with
           | Some i => Some (RTK_FC_FLOWENT_SEARCH_SW, i)
           | None => None
           end
      else None
  end.
Definition has_second (e : entry) : bool :=
  (bool_decide (in_path e = FB_PATH_12) || bool_decide (in_path e = FB_PATH_34)) && (out_multiple_act (egr e) =? 1).
Definition search_first (h : pktHdr) (hash : nat) (d : fc) : option (search_ret * nat) :=
  let p i := rtk_fc_flow_compareByIngressPktHdr 0 i h d in
  let sw := match first_sw p (sw_bucket hash d) with Some i => Some (RTK_FC_FLOWENT_SEARCH_SW, i) | None => None end in
  if hwnat_sw_only && (0 <? shortcut_flow_count)%nat then sw
  else match search_hw p hash d with
    | Some i => Some (RTK_FC_FLOWENT_SEARCH_HW, i)
    | None => if (0 <? shortcut_flow_count)%nat then sw else None
    end.
(** What is found, the index of the flow, that of its second action, and the table. *)
Definition rtk_fc_flow_searchByIngressPktHdr (hash : nat) (h : pktHdr) (d : fc) : search_ret * option nat * option nat * fc :=
  if negb (hwnat_sw_only && (0 <? shortcut_flow_count)%nat) && (flowHwTableSize <=? hash + ways - 1)%nat
  then (RTK_FC_FLOWENT_SEARCH_FAIL, None, None, d)
  else match search_first h hash d with
    | None => (RTK_FC_FLOWENT_SEARCH_FAIL, None, None, d)
    | Some (ret, i) =>
        if (flow_index_limit <=? i)%nat then (ret, None, None, d)
        else
          let d := hit i d in
          if has_second (ent (flow_at i d))
          then match search_second h hash d with
            | Some (ret2, j) => (if bool_decide (ret2 = RTK_FC_FLOWENT_SEARCH_SW) then RTK_FC_FLOWENT_SEARCH_SW else ret, Some i, Some j, hit j d)
            | None => (ret, Some i, None, d)
            end
          else (ret, Some i, None, d)
    end.
End Search.
