(* ===== verification/FcSearchSpec.v ===== *)
(** * The flow of a packet: theorems

    The search finds the first flow of the bucket that the packet is of, and marks it as in
    use; and the bucket of a packet's hash is the one its flow was put in, when the flow's
    checks cover what is hashed. *)
From stdpp Require Import gmap.
From S2P Require Import Prelude FcLists FcFlowSteps FcFlowSafe.
From S2P Require Import FcFlowKey FcFlowKeySpec FcFlowSide FcFlow FcFlowAdd FcFlowInv FcFlowSmall FcFlowFind FcHash FcHashSpec FcSearch.
Open Scope Z_scope.

(** ** Walks *)

Lemma first_that_app p l l' : first_that p (l ++ l') = match first_that p l with Some i => Some i | None => first_that p l' end.
Proof. induction l as [|i l IH]; simpl; [done|]. by destruct (p i). Qed.
Lemma first_that_some p l i : first_that p l = Some i -> i ∈ l /\ p i = true.
Proof. induction l as [|k l IH]; simpl; [done|]. destruct (p k) eqn:E; [intros [= <-]; by split; [left|]|]. intros [? ?]%IH. by split; [right|]. Qed.
Lemma first_that_none p l : first_that p l = None -> forall i, i ∈ l -> p i = false.
Proof. induction l as [|k l IH]; simpl; [by intros _ i ?%elem_of_nil|]. destruct (p k) eqn:E; [done|]. intros Hn i [->|Hi]%elem_of_cons; auto. Qed.
Lemma first_that_ext p q l : (forall i, i ∈ l -> p i = q i) -> first_that p l = first_that q l.
Proof.
  induction l as [|i l IH]; intros Hpq; simpl; [done|]. rewrite (Hpq i) by left. rewrite IH; [done|]. intros k Hk. apply Hpq. by right.
Qed.

Section Spec.
Context `{FlowChecks} `{FlowSideConfig} `{Env : FlowEnv} `{!FlowLaws} `{FlowHashEnv} `{!FlowHashLaws} `{FlowSearchEnv}.

Lemma first_sw_that p l : (forall i, i ∈ l -> (i <= flow_index_limit)%nat) -> first_sw p l = first_that p l.
Proof.
  induction l as [|i l IH]; intros Hl; simpl; [done|]. rewrite (proj2 (Nat.ltb_ge _ _)) by (apply Hl; left).
  rewrite IH; [done|]. intros k Hk. apply Hl. by right.
Qed.

(** ** The search *)

(** The flows of a bucket in the order they are looked at, of the switch and of software. *)
Definition hw_order (hash : nat) (d : fc) : list nat := seq hash ways ++ if fbMode_4K then tcam_bucket hash d else [].
Definition sw_order (hash : nat) (d : fc) : list nat := if (0 <? shortcut_flow_count)%nat then sw_bucket hash d else [].
Definition search_order (hash : nat) (d : fc) : list nat :=
  (if hwnat_sw_only && (0 <? shortcut_flow_count)%nat then [] else hw_order hash d) ++ sw_order hash d.
Definition kind_of (i : nat) : search_ret := if (i <? flowHwTableSize)%nat then RTK_FC_FLOWENT_SEARCH_HW else RTK_FC_FLOWENT_SEARCH_SW.

Lemma search_hw_first p hash d : search_hw p hash d = first_that p (hw_order hash d).
Proof. unfold search_hw, search_ways, hw_order. rewrite first_that_app. destruct (first_that p (seq hash ways)); [done|]. by destruct fbMode_4K. Qed.
Lemma hw_order_bound hash d i : flows_ok d -> bucket_start hash -> i ∈ hw_order hash d -> (i < flowHwTableSize)%nat.
Proof.
  intros Hd Hb [Hi|Hi]%elem_of_app; [by apply (way_bound hash)|]. destruct fbMode_4K; [|by apply elem_of_nil in Hi].
  apply tcam_bucket_bound in Hi; [|done]. apply is_tcam_spec in Hi. lia.
Qed.
Lemma sw_order_bound hash d i : flows_ok d -> i ∈ sw_order hash d -> (flowHwTableSize <= i < flowSwTableSize)%nat.
Proof.
  intros Hd Hi. unfold sw_order in Hi. destruct (0 <? shortcut_flow_count)%nat; [|by apply elem_of_nil in Hi].
  apply sw_bucket_bound in Hi; [|done]. by apply is_sw_spec in Hi.
Qed.
Lemma kind_hw hash d i : flows_ok d -> bucket_start hash -> i ∈ hw_order hash d -> kind_of i = RTK_FC_FLOWENT_SEARCH_HW.
Proof. intros Hd Hb Hi%hw_order_bound; [|done..]. unfold kind_of. by rewrite (proj2 (Nat.ltb_lt _ _)). Qed.
Lemma kind_sw hash d i : flows_ok d -> i ∈ sw_order hash d -> kind_of i = RTK_FC_FLOWENT_SEARCH_SW.
Proof. intros Hd Hi%sw_order_bound; [|done]. unfold kind_of. by rewrite (proj2 (Nat.ltb_ge _ _)) by lia. Qed.

(** Marking a flow as used changes nothing that is searched by. *)
Lemma compare_hit m i h j d : rtk_fc_flow_compareByIngressPktHdr m i h (hit j d) = rtk_fc_flow_compareByIngressPktHdr m i h d.
Proof. unfold rtk_fc_flow_compareByIngressPktHdr, hit. rewrite flow_at_on. by destruct (decide _). Qed.
Lemma hw_order_hit hash j d : hw_order hash (hit j d) = hw_order hash d.
Proof. done. Qed.
Lemma hit_marks i d : (i < length (flowTbl d))%nat -> swTrfBit (flow_at i (hit i d)) = true.
Proof. intros Hi. unfold hit. by rewrite flow_at_same. Qed.
Lemma hit_keeps i j d : swTrfBit (flow_at i d) = true -> swTrfBit (flow_at i (hit j d)) = true.
Proof. unfold hit. rewrite flow_at_on. by destruct (decide _). Qed.
Lemma ent_hit i j d : ent (flow_at i (hit j d)) = ent (flow_at i d).
Proof. unfold hit. rewrite flow_at_on. by destruct (decide _). Qed.

(** What the search is to find: the first flow of the bucket that the packet is of, and for a
    flow with two actions the first of the other bucket; both are marked as used.  A flow of
    software for the second action makes the packet one for software. *)
Definition search_spec (hash : nat) (h : pktHdr) (d : fc) : search_ret * option nat * option nat * fc :=
  match first_that (fun i => rtk_fc_flow_compareByIngressPktHdr 0 i h d) (search_order hash d) with
  | None => (RTK_FC_FLOWENT_SEARCH_FAIL, None, None, d)
  | Some i =>
      if has_second (ent (flow_at i d))
      then let hash2 := Z.to_nat (_rtk_fc_sw_flowHashIndexStep2_get (Z.of_nat hash)) in
        match first_that (fun j => rtk_fc_flow_compareByIngressPktHdr 1 j h d) (hw_order hash2 d ++ sw_order hash2 d) with
        | Some j => (if (flowHwTableSize <=? j)%nat then RTK_FC_FLOWENT_SEARCH_SW else kind_of i, Some i, Some j, hit j (hit i d))
        | None => (kind_of i, Some i, None, hit i d)
        end
      else (kind_of i, Some i, None, hit i d)
  end.

Lemma search_first_spec h hash d : (flowSwTableSize <= flow_index_limit)%nat -> flows_ok d -> bucket_start hash ->
  search_first h hash d = match first_that (fun i => rtk_fc_flow_compareByIngressPktHdr 0 i h d) (search_order hash d) with
                          | Some i => Some (kind_of i, i) | None => None end.
Proof.
  intros Hl Hd Hb. unfold search_first, search_order. set (p := fun i => _). clearbody p.
  assert (first_sw p (sw_bucket hash d) = first_that p (sw_bucket hash d)) as ->.
  { apply first_sw_that. intros i Hi%sw_bucket_bound; [|done]. apply is_sw_spec in Hi. lia. }
  assert ((0 <? shortcut_flow_count)%nat = true -> match first_that p (sw_bucket hash d) with
    | Some i => Some (RTK_FC_FLOWENT_SEARCH_SW, i) | None => None end
    = match first_that p (sw_order hash d) with Some i => Some (kind_of i, i) | None => None end) as Hsw.
  { intros Hs. unfold sw_order. rewrite Hs. destruct (first_that p _) as [i|] eqn:E; [|done]. apply first_that_some in E as [Hi _].
    by rewrite (kind_sw hash d i Hd) by (unfold sw_order; by rewrite Hs). }
  destruct (hwnat_sw_only && (0 <? shortcut_flow_count)%nat) eqn:Eo.
  { apply andb_true_iff in Eo as [_ Hs]. by apply Hsw. }
  rewrite search_hw_first, first_that_app. destruct (first_that p (hw_order hash d)) as [i|] eqn:E.
  - apply first_that_some in E as [Hi _]. by rewrite (kind_hw hash d i).
  - destruct (0 <? shortcut_flow_count)%nat eqn:Es; [by apply Hsw|]. unfold sw_order. by rewrite Es.
Qed.
Lemma search_parts p hash2 d : flows_ok d -> bucket_start hash2 ->
  match search_hw p hash2 d with
  | Some i => Some (RTK_FC_FLOWENT_SEARCH_HW, i)
  | None => if (0 <? shortcut_flow_count)%nat
      then match first_that p (sw_bucket hash2 d) with Some i => Some (RTK_FC_FLOWENT_SEARCH_SW, i) | None => None end
      else None
  end = match first_that p (hw_order hash2 d ++ sw_order hash2 d) with Some i => Some (kind_of i, i) | None => None end.
Proof.
  intros Hd Hb. rewrite search_hw_first, first_that_app.
  destruct (first_that p (hw_order hash2 d)) as [i|] eqn:E; [apply first_that_some in E as [Hi _]; by rewrite (kind_hw hash2 d i)|].
  destruct (0 <? shortcut_flow_count)%nat eqn:Es; unfold sw_order; rewrite Es; [|done].
  destruct (first_that p (sw_bucket hash2 d)) as [i|] eqn:E'; [|done]. apply first_that_some in E' as [Hi _].
  by rewrite (kind_sw hash2 d i) by (try done; unfold sw_order; by rewrite Es).
Qed.

Lemma search_order_bound hash d i : flows_ok d -> bucket_start hash -> i ∈ search_order hash d -> (i < flowSwTableSize)%nat.
Proof.
  intros Hd Hb [Hi|Hi]%elem_of_app; [|apply sw_order_bound in Hi; [lia|done]].
  destruct (_ && _); [by apply elem_of_nil in Hi|]. apply hw_order_bound in Hi; [unfold flowSwTableSize; lia|done..].
Qed.
Lemma search_meets_spec hash h d :
  (flowSwTableSize <= flow_index_limit)%nat -> flows_ok d -> bucket_start hash -> hash_ok (Z.of_nat hash) ->
  rtk_fc_flow_searchByIngressPktHdr hash h d = search_spec hash h d.
Proof.
  intros Hl Hd Hb Hok. unfold rtk_fc_flow_searchByIngressPktHdr, search_spec.
  assert ((flowHwTableSize <=? hash + ways - 1)%nat = false) as ->.
  { apply Nat.leb_gt. assert ((hash + ways - 1)%nat ∈ seq hash ways) as Hw by (apply elem_of_seq; assert (ways <> 0)%nat by (by apply Nat.pow_nonzero); lia).
    by apply (way_bound hash) in Hw as [? _]. }
  rewrite andb_false_r, search_first_spec by done. destruct (first_that _ (search_order hash d)) as [i|] eqn:E; [|done].
  assert (i < flowSwTableSize)%nat as Hi by (apply first_that_some in E as [Hi _]; by apply (search_order_bound hash d)).
  rewrite (proj2 (Nat.leb_gt _ _)) by lia. rewrite ent_hit. destruct (has_second _); [|done].
  unfold search_second. set (hash2 := Z.to_nat _). assert (bucket_start hash2) as Hb2 by (apply hash_ok_bucket, step2_ok; done).
  change (search_hw ?q hash2 (hit i d)) with (search_hw q hash2 d). change (sw_bucket hash2 (hit i d)) with (sw_bucket hash2 d).
  rewrite search_parts by done. rewrite (first_that_ext _ (fun j => rtk_fc_flow_compareByIngressPktHdr 1 j h d)) by (intros; apply compare_hit).
  destruct (first_that _ (hw_order hash2 d ++ sw_order hash2 d)) as [j|]; [|done].
  assert (bool_decide (kind_of j = RTK_FC_FLOWENT_SEARCH_SW) = (flowHwTableSize <=? j)%nat) as ->; [|done]. unfold kind_of.
  destruct (Nat.ltb_spec j flowHwTableSize); symmetry; [by apply Nat.leb_gt|by apply Nat.leb_le].
Qed.

(** C20: the search by packet finds exactly the first flow of the bucket that the packet is of,
    in the order ways, TCAM, software, and fails only when there is none; a flow with two
    actions brings the first flow of the second hash.  The flows that are found are marked as
    used, so that they do not age, and nothing else changes. *)
Theorem search_is_first_match hash h d :
  (flowSwTableSize <= flow_index_limit)%nat -> flows_ok d -> bucket_start hash -> hash_ok (Z.of_nat hash) ->
  rtk_fc_flow_searchByIngressPktHdr hash h d = search_spec hash h d.
Proof. apply search_meets_spec. Qed.

(** ** Hashes

    The fields that are hashed are fields that are compared, if the flow's checks cover
    them: the type of service is compared when it is hashed; the addresses are those of the
    headers and not translated by a table; the packet has one IP header and is hashed for the
    path it is compared as. *)
Record covered (f : flow) (h : pktHdr) : Prop := {
  cov_path : in_path (ent f) = hash_path h;
  cov_one_header : iph h = None \/ ip6h h = None;
  cov_known : smacL2Idx h <> FAIL /\ dmacL2Idx h <> FAIL;
  cov_tos : first_asic = false -> SKIP_DSCP = false -> on (in_tos_check (igr (ent f))) = true;
  cov_group : in_path (ent f) = FB_PATH_34 -> is_mc34 (igr (ent f)) = h_isMulticast h;
  cov_plain : in_path (ent f) = FB_PATH_5 -> translated_v6 f = None /\ FLOW_INFO_IS_SET f NATLOOPBACK_ENTRY = false /\ any_dip f h = false /\
    protoCtrl f <> MAPE_ACC /\ (inbound (ent f) = true -> in_ipv4_or_ipv6 (igr (ent f)) = 0) }.

Lemma dscp_bits a : Z.land (u8 (Z.shiftr a 2)) 0x3f = Z.shiftr (Z.land a 0xfc) 2.
Proof.
  unfold u8. change 256 with (2 ^ 8). rewrite <- Z.land_ones, <- Z.land_assoc by done. by rewrite Z.shiftr_land.
Qed.
Lemma dscp_same p h x : only (on (in_tos_check p)) (tos_part (in_tos p) =? tos_part (pkt_tos h)) = true ->
  (SKIP_DSCP = false -> on (in_tos_check p) = true) ->
  dscp_item p x = if SKIP_DSCP then x else Z.lxor (Z.shiftl (Z.land (u8 (Z.shiftr (pkt_tos h) 2)) 0x3f) 3) x.
Proof.
  unfold dscp_item, dscp. destruct SKIP_DSCP; [done|]. intros Hs Hc. rewrite Hc in Hs by done. simpl in Hs. apply Z.eqb_eq in Hs.
  rewrite !dscp_bits. unfold tos_part in Hs. destruct CMP_TOS; by rewrite Hs.
Qed.
Lemma cpri_same skip_cvid skip_cpri p h x : first_asic = false -> pkt_ctag skip_cvid skip_cpri p h = true ->
  cpri_item skip_cpri p x = if skip_cpri then x else Z.lxor (Z.land (u8 (igrCpri h)) 0x7) x.
Proof.
  unfold pkt_ctag, cpri_item, cpri. intros ->. destruct skip_cpri; [done|]. rewrite !andb_true_iff. intros [_ Hp]. simpl in Hp.
  apply Z.eqb_eq in Hp. by rewrite Hp.
Qed.
(** Two patterns that agree on what is xored. *)
Lemma xored_same skip_cvid skip_cpri p q h x : first_asic = false ->
  pkt_ctag skip_cvid skip_cpri p h = true -> pkt_same_tos p h = true -> (SKIP_DSCP = false -> on (in_tos_check p) = true) ->
  in_cvlan_pri q = igrCpri h -> in_tos q = pkt_tos h -> cpri_item skip_cpri p (dscp_item p x) = cpri_item skip_cpri q (dscp_item q x).
Proof.
  intros Hf Hc Ht Hcov Eq Et. rewrite (cpri_same skip_cvid skip_cpri p h) by done. rewrite (dscp_same p h) by done.
  unfold cpri_item, dscp_item, cpri, dscp. by rewrite Eq, Et.
Qed.

Lemma hash_path_l3 h : hash_path h <> FB_PATH_12 -> isL3 h = true.
Proof. unfold hash_path. destruct (isL3 h); [done|]. by rewrite !andb_false_r. Qed.
Lemma hash_path_6 h : hash_path h <> FB_PATH_6.
Proof. unfold hash_path. by repeat case_match. Qed.
Lemma addresses_same h : iph h = None \/ ip6h h = None -> isL3 h = true -> igrSip h = pkt_sip h /\ igrDip h = pkt_dip h.
Proof. unfold isL3, igrSip, igrDip, pkt_sip, pkt_dip. by destruct (iph h), (ip6h h); intros [|]. Qed.
Lemma l3_tos h : (if isL3 h then pkt_tos h else 0) = pkt_tos h.
Proof. unfold isL3, pkt_tos. by destruct (iph h), (ip6h h). Qed.

Lemma params_path1 f h s c g : covered f h -> in_path (ent f) = FB_PATH_12 -> cmp_path1 f h = true ->
  hash_params (ent f) s c g = hash_params (pkt_entry h) s c g.
Proof.
  intros [Hp _ Hk Ht _ _] Ep Hc. unfold cmp_path1 in Hc. rewrite !andb_true_iff, !Z.eqb_eq in Hc.
  unfold hash_params, pkt_entry. rewrite <- Hp, Ep. simpl. rewrite l3_tos.
  replace (in_smac_lut_idx (igr (ent f))) with (smacL2Idx h) by (symmetry; tauto).
  replace (in_dmac_lut_idx (igr (ent f))) with (hashed_dmac h) by (symmetry; tauto). f_equal.
  unfold _rtk_fc_sw_flowHashPath12ExtraItem_get. destruct first_asic eqn:Ea; [done|].
  apply (xored_same SKIP_PATH12_CVID _ _ _ h); [done|tauto|tauto|auto|done|done].
Qed.
Lemma pkt_entry_conn h : hash_path h = FB_PATH_34 ->
  pkt_entry h = hash_entry FB_PATH_34 (hash_igr (igrCpri h) (pkt_tos h) (isIPv6 h) (pkt_sip h) (pkt_dip h) (ports h).1 (ports h).2 (is_tcp h)).
Proof. intros Hp. unfold pkt_entry. by rewrite Hp. Qed.
Lemma pkt_entry_routed h : hash_path h = FB_PATH_5 ->
  pkt_entry h = hash_entry FB_PATH_5 (hash_igr (igrCpri h) (pkt_tos h) 0 (pkt_sip h) (pkt_dip h) (ports h).1 (ports h).2 (is_tcp h)).
Proof. intros Hp. unfold pkt_entry. by rewrite Hp. Qed.
Lemma params_path34 f h s c : covered f h -> in_path (ent f) = FB_PATH_34 -> cmp_path3 f h = true ->
  hash_params (ent f) s c (gmacChk h) = hash_params (pkt_entry h) s c (gmacChk h).
Proof.
  intros [Hp Ho Hk Ht Hm _] Ep Hc. specialize (Hm Ep). rewrite Ep in Hp. assert (isL3 h = true) as Hl by (apply hash_path_l3; congruence).
  rewrite pkt_entry_conn by done. destruct (addresses_same h Ho Hl) as [Es Ed]. unfold cmp_path3 in Hc. rewrite Es, Ed, !andb_true_iff, !Z.eqb_eq in Hc.
  set (p := igr (ent f)) in *. set (q := hash_igr _ _ _ _ _ _ _ _).
  assert (_rtk_fc_sw_flowHashPath34ExtraItem_get p s c (gmacChk h) = _rtk_fc_sw_flowHashPath34ExtraItem_get q s c (gmacChk h)) as Ex.
  { assert (is_mc34 q = is_mc34 p) as Emc.
    { unfold is_mc34. simpl. replace (isIPv6 h) with (in_ipv4_or_ipv6 p) by tauto. by replace (pkt_dip h) with (in_dst_ipv4_addr p) by tauto. }
    unfold _rtk_fc_sw_flowHashPath34ExtraItem_get. rewrite Emc. change (in_l4proto q) with (is_tcp h).
    replace (in_l4proto p) with (is_tcp h) by (symmetry; tauto). destruct first_asic eqn:Ea; [done|]. rewrite Hm.
    unfold care_cvid34, care_cpri34 in Hc. rewrite !negb_involutive in Hc.
    apply (xored_same (if h_isMulticast h then SKIP_PATH34_MC_CVID else SKIP_PATH34_UCBC_CVID) _ _ _ h); [done|tauto|tauto|auto|done|done]. }
  unfold hash_params. rewrite Ep. fold p. rewrite Ex. clearbody p. simpl.
  destruct Hc as ((((((((((((((_ & _) & _) & _) & ->) & ->) & ->) & ->) & _) & _) & _) & _) & _) & _) & _). done.
Qed.
Lemma params_path5 i f h d s c g : covered f h -> in_path (ent f) = FB_PATH_5 -> cmp_path5 i f h d = true ->
  hash_params (ent f) s c g = hash_params (pkt_entry h) s c g.
Proof.
  intros [Hp Ho Hk Ht _ Ha] Ep Hc. destruct (Ha Ep) as (Htr & Hnl & Hany & Hmape & Hv4). rewrite Ep in Hp.
  assert (isL3 h = true) as Hl by (apply hash_path_l3; congruence). rewrite pkt_entry_routed by done.
  destruct (addresses_same h Ho Hl) as [Esip Edip]. unfold cmp_path5, same_addresses, flowdip in Hc. rewrite Htr, Hnl, Hany, Esip, Edip in Hc.
  rewrite (bool_decide_eq_false_2 (protoCtrl f = MAPE_ACC)) in Hc by done. simpl in Hc. rewrite !andb_true_iff, !Z.eqb_eq in Hc.
  set (p := igr (ent f)) in *. set (q := hash_igr _ _ _ _ _ _ _ _).
  assert (_rtk_fc_sw_flowHashPath5ExtraItem_get p s c = _rtk_fc_sw_flowHashPath5ExtraItem_get q s c) as Ex.
  { unfold _rtk_fc_sw_flowHashPath5ExtraItem_get. change (in_l4proto q) with (is_tcp h).
    replace (in_l4proto p) with (is_tcp h) by (symmetry; tauto). destruct first_asic eqn:Ea; [done|].
    apply (xored_same SKIP_PATH5_CVID _ _ _ h); [done|tauto|tauto|auto|done|done]. }
  assert (hashed_dip5 (ent f) = pkt_dip h) as Ed.
  { unfold hashed_dip5, naptr. fold p. change (netif (NETIF_HWTOSW (in_intf_idx p))) with (intf_of p).
    destruct Hc as ((((((((((((Hv & _) & _) & _) & (_ & Hd)) & _) & _) & _) & _) & _) & _) & _) & _). rewrite Hv. unfold inbound in Hd, Hv4.
    destruct (out_l4_act (egr (ent f)) =? 1), (out_l4_direction (egr (ent f)) =? 0); simpl in Hd |- *; rewrite ?andb_false_r; try done.
    rewrite (Hv4 eq_refl). simpl. rewrite <- Hd. unfold on. by destruct (Z.eqb_spec (gateway_ipv4_addr (intf_of p)) 0) as [->|]. }
  unfold hash_params. rewrite Ep, Ed. fold p. rewrite Ex. clearbody p. simpl.
  destruct Hc as ((((((((((((_ & _) & _) & _) & (-> & _)) & ->) & ->) & _) & _) & _) & _) & _) & _). done.
Qed.

Lemma compared_path i h d : rtk_fc_flow_compareByIngressPktHdr 0 i h d = true ->
  let f := flow_at i d in
  second_action (ent f) = false /\
  match in_path (ent f) with
  | FB_PATH_12 => cmp_path1 f h = true
  | FB_PATH_34 => cmp_path3 f h = true
  | FB_PATH_5 => cmp_path5 i f h d = true
  | FB_PATH_6 => False
  end.
Proof.
  unfold rtk_fc_flow_compareByIngressPktHdr. rewrite !andb_true_iff. intros ((((_ & Hm) & _) & Hc) & _). cbv zeta. set (f := flow_at i d) in *. split.
  { unfold second_action. apply negb_true_iff in Hm. destruct (_ || _); [|by rewrite andb_false_r]. simpl in Hm. apply negb_false_iff, Z.eqb_eq in Hm.
    by rewrite Hm. }
  assert (forall a b, bool_decide (in_path (ent f) = a) && b = true -> in_path (ent f) = a) as Hbd by (intros a b [?%bool_decide_eq_true _]%andb_true_iff; done).
  destruct (cmp_path f h) eqn:Ec.
  - assert (in_path (ent f) = FB_PATH_12) as ->; [|done]. unfold cmp_path1 in Hc. rewrite !andb_true_iff in Hc. eapply bool_decide_eq_true. tauto.
  - assert (in_path (ent f) = FB_PATH_34) as ->; [|done]. unfold cmp_path3 in Hc. rewrite !andb_true_iff in Hc. eapply bool_decide_eq_true. tauto.
  - assert (in_path (ent f) = FB_PATH_5) as ->; [|done]. unfold cmp_path5 in Hc. rewrite !andb_true_iff in Hc. eapply bool_decide_eq_true. tauto.
  - unfold cmp_path in Ec. by repeat case_match.
Qed.
Lemma gmac_unused e s c g : in_path e <> FB_PATH_34 -> hash_params e s c g = hash_params e s c 0.
Proof. unfold hash_params. by destruct (in_path e). Qed.
(** The hash of a packet is the hash of the flow it is of. *)
Lemma packet_hashes_like_flow i h d : covered (flow_at i d) h -> rtk_fc_flow_compareByIngressPktHdr 0 i h d = true ->
  _rtk_fc_flow_hashIndex_byPktHdr h
  = Some (_rtk_fc_flow_hashIndex (ent (flow_at i d)) (tag_or0 vt_id (svh h)) (tag_or0 vt_id (cvh h)) (gmacChk h)).
Proof.
  intros Hcov Hc. destruct (compared_path i h d Hc) as [Hs Hpath]. pose proof (cov_path _ _ Hcov) as Hp. destruct (cov_known _ _ Hcov) as [Hsa Hda].
  unfold _rtk_fc_flow_hashIndex_byPktHdr. rewrite (proj2 (Z.eqb_neq _ _) Hsa), (proj2 (Z.eqb_neq _ _) Hda). simpl. f_equal.
  unfold _rtk_fc_flow_hashIndex. rewrite Hs. assert (second_action (pkt_entry h) = false) as -> by done.
  set (f := flow_at i d) in *. assert (hash_params (ent f) (tag_or0 vt_id (svh h)) (tag_or0 vt_id (cvh h)) (gmacChk h)
    = hash_params (pkt_entry h) (tag_or0 vt_id (svh h)) (tag_or0 vt_id (cvh h)) (if bool_decide (hash_path h = FB_PATH_34) then gmacChk h else 0)) as E.
  { destruct (in_path (ent f)) eqn:Ep; [| | |done].
    - rewrite (params_path1 f h) by done. case_bool_decide; [congruence|]. apply gmac_unused. simpl. congruence.
    - rewrite (params_path34 f h) by done. rewrite bool_decide_eq_true_2; congruence.
    - rewrite (params_path5 i f h d) by done. case_bool_decide; [congruence|]. apply gmac_unused. simpl. congruence. }
  rewrite E. by destruct (hash_params _ _ _ _) as [[[[? ?] ?] ?] ?].
Qed.

(** C19: a packet finds its flow.  A flow of the table that the packet is of, kept in the
    bucket of its hash and whose checks cover what is hashed: the hash of the packet is that
    of the flow, the search by it succeeds, and the flow that is found is one the packet is
    of and is now marked as used. *)
Theorem packet_finds_its_flow i h d : (flowSwTableSize <= flow_index_limit)%nat -> flows_ok d ->
  covered (flow_at i d) h -> rtk_fc_flow_compareByIngressPktHdr 0 i h d = true ->
  i ∈ search_order (Z.to_nat (_rtk_fc_flow_hashIndex (ent (flow_at i d)) (tag_or0 vt_id (svh h)) (tag_or0 vt_id (cvh h)) (gmacChk h))) d ->
  exists hash ret j k d', _rtk_fc_flow_hashIndex_byPktHdr h = Some hash /\
    rtk_fc_flow_searchByIngressPktHdr (Z.to_nat hash) h d = (ret, Some j, k, d') /\ ret <> RTK_FC_FLOWENT_SEARCH_FAIL /\
    rtk_fc_flow_compareByIngressPktHdr 0 j h d = true /\ swTrfBit (flow_at j d') = true.
Proof.
  intros Hl Hd Hcov Hc Hi. pose proof (packet_hashes_like_flow i h d Hcov Hc) as Hh. set (hash := _rtk_fc_flow_hashIndex _ _ _ _) in *.
  assert (hash_ok hash) as Hok by apply hashIndex_ok. destruct (hash_ok_bucket hash Hok) as [Hpos Hb]. exists hash.
  pose proof (search_meets_spec (Z.to_nat hash) h d Hl Hd Hb) as Hs. rewrite Z2Nat.id in Hs by done. rewrite (Hs Hok). clear Hs.
  unfold search_spec. destruct (first_that _ (search_order (Z.to_nat hash) d)) as [j|] eqn:Ej.
  2:{ by rewrite (first_that_none _ _ Ej i Hi) in Hc. }
  apply first_that_some in Ej as [Hj Hcj]. assert (swTrfBit (flow_at j (hit j d)) = true) as Ht.
  { apply hit_marks. rewrite (ok_length d Hd). by apply (search_order_bound (Z.to_nat hash) d). }
  assert (kind_of j <> RTK_FC_FLOWENT_SEARCH_FAIL) as Hk by (unfold kind_of; by case_match).
  destruct (has_second _); [cbv zeta; destruct (first_that _ _) as [k|]|]; repeat eexists; try done; [by case_match|by apply hit_keeps].
Qed.
End Spec.

(** ** On the chip of [FcHashSpec] *)
#[local] Existing Instances chip_checks chip_sides chip_env chip_hash chip_laws.
#[local] Instance chip_search : FlowSearchEnv := {|
  flow_index_limit := 5000; PON_PORT := 5; RTK_RG_ASIC_ETHTYPE_GET_HW_IDX := fun _ => Some 15; RTK_FC_ETHERTYPE_DONT_CARE := 15;
  mape_tun_ipv4_addr := fun _ => 0; mapt_v6_hash_value := fun _ => 0; other_dual_idx := fun _ => 0%nat |}.
Lemma single_lists n m : concat ((fun b => [b]) <$> seq n m) = seq n m.
Proof. revert n. induction m as [|m IH]; intros n; simpl; [done|]. by rewrite IH. Qed.
#[local] Instance chip_flow_laws : FlowLaws.
Proof.
  split.
  - by apply Nat.leb_le.
  - by vm_compute.
  - change SW_FLOW_LISTS_IN_BUCKET with (fun b : nat => [b]). by rewrite single_lists.
  - intros h. apply Nat.mod_upper_bound. done.
  - apply _.
  - intros i e s e' [= <-]. by eexists.
Qed.

(** A bridged TCP connection, and a packet of it without tags. *)
Definition tcp_flow : entry :=
  Entry true false FB_PATH_34 0
    (Igr 0 0 0 0 0 0 0 0 0 0 1 0 0 0 0 0 0 0 0 0 0x0a000001 0x0a000002 33 80 1 0 0 0 0 0 0 0 0 0) egr0.
Definition tcp_pkt : pktHdr :=
  PktHdr (Some (Ip4 0x0a000001 0x0a000002 0)) None 0 0 (Some (33, 80)) None 6 None None None None None None
    3 4 false false 1 0 0 0x800 0 false NOT_DUAL None (0, 0) false.
Definition tcp_bucket : nat := Z.to_nat (_rtk_fc_flow_hashIndex tcp_flow 0 0 0).
Definition one_flow : fc := (rtk_fc_flow_add tcp_bucket tcp_flow None None false false false None None fresh_fc).2.
Lemma tcp_bucket_start : bucket_start tcp_bucket.
Proof. apply hash_ok_bucket, hashIndex_ok. Qed.
Lemma one_flow_ok : flows_ok one_flow.
Proof. apply flow_add_spares; [apply tcp_bucket_start|apply fresh_ok]. Qed.
Lemma chip_limit : (flowSwTableSize <= flow_index_limit)%nat.
Proof. by apply Nat.leb_le. Qed.
Lemma tcp_found : rtk_fc_flow_compareByIngressPktHdr 0 tcp_bucket tcp_pkt one_flow = true.
Proof. by vm_compute. Qed.
Lemma tcp_covered : covered (flow_at tcp_bucket one_flow) tcp_pkt.
Proof.
  assert (ent (flow_at tcp_bucket one_flow) = tcp_flow) as E by by_compute.
  split; rewrite ?E; [done|by right|by split|done|done|discriminate].
Qed.

Lemma search_is_first_match_witness :
  search_spec tcp_bucket tcp_pkt one_flow = (RTK_FC_FLOWENT_SEARCH_HW, Some tcp_bucket, None, hit tcp_bucket one_flow) /\
  rtk_fc_flow_searchByIngressPktHdr tcp_bucket tcp_pkt one_flow = search_spec tcp_bucket tcp_pkt one_flow.
Proof.
  split; [by vm_compute|]. apply (search_is_first_match tcp_bucket tcp_pkt one_flow chip_limit one_flow_ok tcp_bucket_start).
  exists 444. split; [unfold below; lia|by vm_compute].
Defined.
Lemma packet_finds_its_flow_witness :
  exists hash ret j k d', _rtk_fc_flow_hashIndex_byPktHdr tcp_pkt = Some hash /\
    rtk_fc_flow_searchByIngressPktHdr (Z.to_nat hash) tcp_pkt one_flow = (ret, Some j, k, d') /\ ret <> RTK_FC_FLOWENT_SEARCH_FAIL /\
    rtk_fc_flow_compareByIngressPktHdr 0 j tcp_pkt one_flow = true /\ swTrfBit (flow_at j d') = true.
Proof.
  apply (packet_finds_its_flow tcp_bucket tcp_pkt one_flow chip_limit one_flow_ok tcp_covered tcp_found).
  replace (ent (flow_at tcp_bucket one_flow)) with tcp_flow by by_compute. apply elem_of_app. left. apply elem_of_app. left.
  apply elem_of_seq. split; [done|]. apply Nat.ltb_lt. by vm_compute.
Defined.

(** The numbers of the tags are compared when a flow is added, but not when a packet is looked
    up: they are only hashed, as a sum.  A frame with the two numbers swapped is taken for
    one of the flow. *)
Definition tagged_flow (svid cvid : Z) : entry :=
  Entry true false FB_PATH_12 0
    (Igr 3 4 1 svid 1 cvid 0 0 0 0 1 0 15 0 0 0 0 0 0 0 0 0 0 0 0 0 0 0 0 0 0 0 0 0) egr0.
Definition tagged_frame (svid cvid : Z) : pktHdr :=
  PktHdr None None 0 0 None None 0 None None None (Some (Vtag svid 0 0)) (Some (Vtag cvid 0 0)) None
    3 4 false false 1 0 0 0x800 0 false NOT_DUAL None (0, 0) false.
Definition tagged_bucket : nat := Z.to_nat (_rtk_fc_flow_hashIndex (tagged_flow 5 9) 5 9 0).
Definition one_tagged : fc := (rtk_fc_flow_add tagged_bucket (tagged_flow 5 9) None None false false false None None fresh_fc).2.
Example swapped_tags_hit :
  _rtk_fc_flow_hashIndex_byPktHdr (tagged_frame 9 5) = Some (Z.of_nat tagged_bucket) /\
  (rtk_fc_flow_searchByIngressPktHdr tagged_bucket (tagged_frame 9 5) one_tagged).1 = (RTK_FC_FLOWENT_SEARCH_HW, Some tagged_bucket, None) /\
  _rtk_fc_flow_matchOrNot_hw_fields (tagged_flow 5 9) (tagged_flow 9 5) false = false.
Proof. split; [|split]; by vm_compute. Qed.
(** A packet to a group that has no ports is hashed as a connection, but compared as a frame. *)
Example group_packet_is_hashed_otherwise :
  let h := PktHdr (Some (Ip4 0x0a000001 0xe0000001 0)) None 0 0 None None 2 None None None None None None
             3 4 false true 1 0 0 0x800 0 false NOT_DUAL None (0, 0) false in
  hash_path h = FB_PATH_34 /\ cmp_path flow0 h = FB_PATH_12.
Proof. by vm_compute. Qed.
