(* ===== verification/RomeFlow.v ===== *)
(** * The flows of the Rome driver: their hash and when two are the same

    Model of the hash and of the two comparisons of
    [romeDriver/rtk_rg_apollo_liteRomeDriver.c]: [_rtk_rg_flow_hashIndex],
    [_rtk_rg_flow_matchOrNot] (two entries) and [_rtk_rg_flow_matchOrNot_byPktHdr] (an entry
    and a packet).  The driver controls the same switch as the one of [FcFlow], and the two
    are written in parallel; entries, settings and the modes are those of [FcFlowKey] and
    [FcHash].  The build is that of [CONFIG_RG_RTL9607C_SERIES].

    The [assert] on the result of the hash is not modelled: it never fails
    ([RomeFlowSpec.rome_hash_in_table]). *)
From S2P Require Import Prelude FcFlowKey FcFlowSide FcFlow FcHash.
Open Scope Z_scope.

Inductive rg_wan_type := RTK_RG_PPPoE | RTK_RG_PPPoE_DSLITE | RTK_RG_WAN_OTHER.

Class RomeFlowEnv := {
  (** [internalSupportMask & RTK_RG_INTERNAL_SUPPORT_BIT0] *)
  rg_bit0 : bool;
  (** The address of a WAN interface, if [p_wanStaticInfo] is set. *)
  p_wanStaticInfo : Z -> option Z;
  netif_ipAddr : Z -> Z;
  wan_type : Z -> rg_wan_type;
  (** The session of its PPPoE connection after dialling, of each kind. *)
  pppoe_sessionId : Z -> Z; pppoe_dslite_sessionId : Z -> Z;
  wanPortGponMode : bool;
  RTK_RG_MAC_PORT_PON : Z }.

(** What is known of a packet ([rtk_rg_pktHdr_t]); the bits of [tagif] are fields. *)
Record rg_pkt := RgPkt {
  isGatewayPacket : bool;
  IPV4_TAGIF : bool; IPV6_TAGIF : bool; TCP_TAGIF : bool; UDP_TAGIF : bool;
  SVLAN_TAGIF : bool; CVLAN_TAGIF : bool; PPPOE_TAGIF : bool;
  ctagPri : Z; sessionId : Z; rg_tos : Z;
  rg_sport : Z; rg_dport : Z; ipv4Sip : Z; ipv4Dip : Z; rg_ipv6Sip_hash : Z; rg_ipv6Dip_hash : Z;
  ingressMacPort : Z; ingressMacExtPort : Z; rx_pon_stream_id : Z }.
(** A flow of the driver, as far as the comparisons look. *)
Record rg_flow := RgFlow { sw_valid : bool; isLocalInNapt : bool; isTrapToPs : bool; rg_ent : entry }.

Section Rome.
Context `{FlowChecks} `{FlowSideConfig} `{FlowEnv} `{FlowHashEnv} `{RomeFlowEnv}.

(** ** The hash *)

Definition rg_vids (skip_svid skip_cvid : bool) (igrSVID igrCVID : Z) : Z :=
  let extraItem := 0 in
  let extraItem := if negb skip_svid then Z.lor extraItem (Z.shiftl igrSVID 12) else Z.land extraItem 0x000fff in
  if negb skip_cvid then Z.lor extraItem igrCVID else Z.land extraItem 0xfff000.
Definition rg_dscp_cpri (skip_cpri : bool) (p : igr_pattern) (extraItem : Z) : Z :=
  let igrCPRI := u8 (in_cvlan_pri p) in
  let igrDSCP := u8 (Z.shiftr (in_tos p) 2) in
  let extraItem := if negb SKIP_DSCP then Z.lxor (Z.shiftl (Z.land igrDSCP 0x3f) 3) extraItem else extraItem in
  if negb skip_cpri then Z.lxor (Z.land igrCPRI 0x7) extraItem else extraItem.

Definition _rtk_rg_sw_flowHashPath12ExtraItem_get (p : igr_pattern) : Z := if rg_bit0 then 0x0 else rg_dscp_cpri SKIP_PATH12_CPRI p 0.
Definition rg_group_dip (p : igr_pattern) : bool :=
  if in_ipv4_or_ipv6 p =? 1 then (if Z.land (in_dst_ipv4_addr p) FLOW_V6HASHADDR_MC_BIT =? 0 then false else true)
  else if (FLOW_V4ADDR_MC_LO_BOUND <=? in_dst_ipv4_addr p) && (in_dst_ipv4_addr p <? FLOW_V4ADDR_MC_UP_BOUND) then true else false.
Definition _rtk_rg_sw_flowHashPath34ExtraItem_get (p : igr_pattern) (igrSVID igrCVID lutDaIdx_gmacChk : Z) : Z :=
  let isMulticast := rg_group_dip p in
  let extraItem :=
    if isMulticast then rg_vids SKIP_PATH34_MC_SVID SKIP_PATH34_MC_CVID igrSVID igrCVID
    else rg_vids SKIP_PATH34_UCBC_SVID SKIP_PATH34_UCBC_CVID igrSVID igrCVID in
  if rg_bit0
  then if negb PATH34_SKIP_DA then Z.lxor (Z.lor (Z.shiftl (in_l4proto p) 23) (Z.land lutDaIdx_gmacChk 0xfff)) extraItem
       else Z.lxor (Z.shiftl (in_l4proto p) 23) extraItem
  else
    let extraItem :=
      if negb PATH34_SKIP_DA then Z.lxor (Z.lor (Z.shiftl (in_l4proto p) 23) (Z.shiftl (Z.land lutDaIdx_gmacChk 0x1) 9)) extraItem
      else Z.lxor (Z.shiftl (in_l4proto p) 23) extraItem in
    rg_dscp_cpri (if isMulticast then SKIP_PATH34_MC_CPRI else SKIP_PATH34_UCBC_CPRI) p extraItem.
Definition _rtk_rg_sw_flowHashPath5ExtraItem_get (p : igr_pattern) (igrSVID igrCVID : Z) : Z :=
  let extraItem := rg_vids SKIP_PATH5_SVID SKIP_PATH5_CVID igrSVID igrCVID in
  if rg_bit0 then Z.lxor (Z.shiftl (in_l4proto p) 23) extraItem
  else rg_dscp_cpri SKIP_PATH5_CPRI p (Z.lxor (Z.shiftl (in_l4proto p) 23) extraItem).
Definition _rtk_rg_sw_flowHashPath6ExtraItem_get (p : igr_pattern) (igrSVID igrCVID : Z) : Z :=
  let extraItem := rg_vids SKIP_PATH6_SVID SKIP_PATH6_CVID igrSVID igrCVID in
  if rg_bit0 then extraItem else rg_dscp_cpri SKIP_PATH6_CPRI p extraItem.

(** The sum: its second fold adds the carry of [sum], which is still 0, not that of [sum2]. *)
Definition rg_sum1 (sport dport sip dip : Z) : Z :=
  Z.land (Z.land sip 0xfffff + Z.shiftr sip 20 + Z.land dip 0xfffff + Z.shiftr dip 20 + sport + dport) 0x7fffff.
Definition rg_sum2 (sum1 : Z) : Z := Z.land (Z.land sum1 0xfffff + Z.shiftr sum1 20) 0x1fffff.
Definition rg_sum (sport dport sip dip : Z) : Z :=
  let sum := 0 in
  let sum1 := rg_sum1 sport dport sip dip in
  let sum2 := rg_sum2 sum1 in
  Z.land (Z.land sum2 0xfffff + Z.shiftr sum 20) 0x1fffff.
Definition rg_mode_index (sum extraItem : Z) : Z :=
  match fbMode with
  | FB_MODE_4K =>
      let sum_nk := Z.land (Z.land sum 0x3ff + Z.land (Z.shiftr sum 10) 0x3ff + Z.land (Z.shiftr sum 20) 0x1) 0x3ff in
      let hashIdx := Z.lxor (Z.lxor (Z.lxor sum_nk (Z.land extraItem 0x3ff)) (Z.land (Z.shiftr extraItem 10) 0x3ff))
                       (Z.land (Z.shiftr extraItem 20) 0xf) in
      Z.shiftl hashIdx 2
  | FB_MODE_8K =>
      let sum1 := Z.land sum 0x1fff + Z.land (Z.shiftr sum 13) 0xff in
      let sum2 := Z.lxor (Z.land sum1 0xfff) (Z.land (Z.shiftr sum1 12) 0x1) in
      let sum_nk := Z.lor (Z.land sum1 0x1000) (Z.land sum2 0xfff) in
      Z.lxor (Z.lxor sum_nk (Z.land extraItem 0x1fff)) (Z.land (Z.shiftr extraItem 13) 0x7ff)
  | FB_MODE_16K =>
      let sum1 := Z.land sum 0x3fff + Z.land (Z.shiftr sum 14) 0x7f in
      let sum2 := Z.lxor (Z.land sum1 0xfff) (Z.land (Z.shiftr sum1 12) 0x3) in
      let sum_nk := Z.lor (Z.land sum1 0x3000) (Z.land sum2 0xfff) in
      Z.lxor (Z.lxor sum_nk (Z.land extraItem 0x3fff)) (Z.land (Z.shiftr extraItem 14) 0x3ff)
  | FB_MODE_32K =>
      let sum1 := Z.land sum 0x7fff + Z.land (Z.shiftr sum 15) 0x3f in
      let sum2 := Z.lxor (Z.land sum1 0xfff) (Z.land (Z.shiftr sum1 12) 0x7) in
      let sum_nk := Z.lor (Z.land sum1 0x7000) (Z.land sum2 0xfff) in
      Z.lxor (Z.lxor sum_nk (Z.land extraItem 0x7fff)) (Z.land (Z.shiftr extraItem 15) 0x1ff)
  end.
Definition _rtk_rg_sw_flowHashIndexStep1_get (param1 param2 param3 param4 extraItem : Z) : Z :=
  let sport := _rtk_rg_flowHashPreProcessPort param1 (preHashPtn PTN_SPORT) in
  let dport := _rtk_rg_flowHashPreProcessPort param2 (preHashPtn PTN_DPORT) in
  let sip := _rtk_rg_flowHashPreProcessIP param3 (preHashPtn PTN_SIP) in
  let dip := _rtk_rg_flowHashPreProcessIP param4 (preHashPtn PTN_DIP) in
  rg_mode_index (rg_sum sport dport sip dip) extraItem.
Definition _rtk_rg_sw_flowHashIndexStep2_get (step1Idx : Z) : Z :=
  let mask := 0x7E03 in
  match fbMode with
  | FB_MODE_4K => Z.shiftl (Z.lxor (Z.shiftr step1Idx 2) (Z.land mask 0x3ff)) 2
  | FB_MODE_8K => Z.lxor step1Idx (Z.land mask 0x1fff)
  | FB_MODE_16K => Z.lxor step1Idx (Z.land mask 0x3fff)
  | FB_MODE_32K => Z.lxor step1Idx (Z.land mask 0x7fff)
  end.

Definition rg_params5 (e : entry) : Z :=
  let p := igr e in
  if (in_ipv4_or_ipv6 p =? 0) && (out_l4_act (egr e) =? 1) && (out_l4_direction (egr e) =? 0)
  then match p_wanStaticInfo (in_intf_idx p) with Some ip_addr => ip_addr | None => 0 end
  else in_dst_ipv4_addr p.
Definition rg_params (e : entry) (igrSVID igrCVID lutDaIdx_gmacChk : Z) : Z * Z * Z * Z * Z :=
  let p := igr e in
  match in_path e with
  | FB_PATH_12 =>
      (if negb SKIP_PATH12_SVID then igrSVID else 0, if negb SKIP_PATH12_CVID then igrCVID else 0,
       in_smac_lut_idx p, in_dmac_lut_idx p, _rtk_rg_sw_flowHashPath12ExtraItem_get p)
  | FB_PATH_34 =>
      (u16 (in_l4_src_port p), u16 (in_l4_dst_port p), in_src_ipv4_addr p, in_dst_ipv4_addr p,
       _rtk_rg_sw_flowHashPath34ExtraItem_get p igrSVID igrCVID lutDaIdx_gmacChk)
  | FB_PATH_5 =>
      (u16 (in_l4_src_port p), u16 (in_l4_dst_port p), in_src_ipv4_addr p, rg_params5 e,
       _rtk_rg_sw_flowHashPath5ExtraItem_get p igrSVID igrCVID)
  | FB_PATH_6 =>
      let '(param1, param2) :=
        if rg_bit0 then (u16 (in_smac_lut_idx p), u16 (in_dmac_lut_idx p))
        else (if negb SKIP_PATH6_SA then u16 (in_smac_lut_idx p) else 0, if negb SKIP_PATH6_DA then u16 (in_dmac_lut_idx p) else 0) in
      (param1, param2, in_src_ipv4_addr p, in_dst_ipv4_addr p, _rtk_rg_sw_flowHashPath6ExtraItem_get p igrSVID igrCVID)
  end.
Definition _rtk_rg_flow_hashIndex (e : entry) (igrSVID igrCVID lutDaIdx_gmacChk : Z) : Z :=
  let '(param1, param2, param3, param4, extraItem) := rg_params e igrSVID igrCVID lutDaIdx_gmacChk in
  let flowHashIdx := _rtk_rg_sw_flowHashIndexStep1_get param1 param2 param3 param4 extraItem in
  if (in_multiple_act e =? 1) && (bool_decide (in_path e = FB_PATH_12) || bool_decide (in_path e = FB_PATH_34))
  then _rtk_rg_sw_flowHashIndexStep2_get flowHashIdx else flowHashIdx.
Definition _rtk_rg_sw_flowHashIPv6DstAddr_get (ipDes : v6_words) : Z :=
  let '(w0, w1, w2, w3) := ipDes in
  let hashIdx := Z.lxor (Z.lxor (Z.lxor w0 w1) w2) w3 in
  let hashIdx := Z.lxor (Z.shiftr hashIdx 31) (Z.land hashIdx 0x7fffffff) in
  if Z.shiftr w0 24 =? 0xff then Z.lor hashIdx (Z.shiftl 1 31) else hashIdx.
Definition _rtk_rg_sw_flowHashIPv6SrcAddr_get (ipSrc : v6_words) : Z :=
  let '(w0, w1, w2, w3) := ipSrc in Z.lxor (Z.lxor (Z.lxor w0 w1) w2) w3.

(** ** Two entries

    [f] is the flow of the table, [e] the other entry.  Each line is one comparison that
    ends the function with FALSE; [only] is its condition. *)

Definition rg_tos_same (f e : igr_pattern) : bool :=
  if CMP_TOS then in_tos f =? in_tos e else Z.land (in_tos f) 0xfc =? Z.land (in_tos e) 0xfc.
Definition rg_pon_both (f e : igr_pattern) : bool :=
  CHECK_PATH12_STREAM_IDX && wanPortGponMode && (in_spa f =? RTK_RG_MAC_PORT_PON) && (in_spa e =? RTK_RG_MAC_PORT_PON).
(** The customer tag: of the first chip, and of the later ones; path 1 and 2 look at its
    number too. *)
Definition rg_ctag_same (skip_cvid skip_cpri vid : bool) (f e : igr_pattern) : bool :=
  if rg_bit0 then only (negb skip_cvid) ((in_ctagif f =? in_ctagif e) && only vid (in_cvlan_id f =? in_cvlan_id e))
  else only (negb skip_cvid || negb skip_cpri) (in_ctagif f =? in_ctagif e)
    && only (negb skip_cvid && vid) (in_cvlan_id f =? in_cvlan_id e)
    && only (negb skip_cpri) (in_cvlan_pri f =? in_cvlan_pri e).

Definition rg_match_path1 (f e : igr_pattern) : bool :=
  (in_smac_lut_idx f =? in_smac_lut_idx e)
  && (in_dmac_lut_idx f =? in_dmac_lut_idx e)
  && only (negb SKIP_PATH12_SVID) ((in_stagif f =? in_stagif e) && (in_svlan_id f =? in_svlan_id e))
  && rg_ctag_same SKIP_PATH12_CVID SKIP_PATH12_CPRI true f e
  && (in_pppoeif f =? in_pppoeif e)
  && (in_pppoe_sid_check f =? in_pppoe_sid_check e)
  && only (on (in_pppoeif e) && on (in_pppoe_sid_check e)) (in_pppoe_sid f =? in_pppoe_sid e)
  && only CHECK_PATH12_TOS (rg_tos_same f e)
  && only CHECK_PATH12_PROTOCOL (in_protocol f =? in_protocol e)
  && only CHECK_PATH12_SPA ((in_spa f =? in_spa e) && (in_ext_spa f =? in_ext_spa e))
  && only (rg_pon_both f e) (in_out_stream_idx f =? in_out_stream_idx e).
Definition rg_match_path2 (f e : igr_pattern) : bool :=
  (in_smac_lut_idx f =? in_smac_lut_idx e)
  && (in_dmac_lut_idx f =? in_dmac_lut_idx e)
  && only (negb SKIP_PATH12_SVID) ((in_stagif f =? in_stagif e) && (in_svlan_id f =? in_svlan_id e))
  && rg_ctag_same SKIP_PATH12_CVID SKIP_PATH12_CPRI true f e
  && (in_pppoeif f =? in_pppoeif e)
  && (in_pppoe_sid_check f =? in_pppoe_sid_check e)
  && only (on (in_pppoeif e) && on (in_pppoe_sid_check e)) (in_pppoe_sid f =? in_pppoe_sid e)
  && only CHECK_PATH12_TOS (rg_tos_same f e)
  && only CHECK_PATH12_PROTOCOL (in_protocol f =? in_protocol e)
  && only CHECK_PATH12_SPA ((in_spa f =? in_spa e) && (in_ext_spa f =? in_ext_spa e))
  && only (rg_pon_both f e) (in_stream_idx f =? in_stream_idx e).
Definition rg_match_path3 (isMulticast : bool) (f e : igr_pattern) : bool :=
  (in_ipv4_or_ipv6 f =? in_ipv4_or_ipv6 e)
  && (in_src_ipv4_addr f =? in_src_ipv4_addr e)
  && (in_dst_ipv4_addr f =? in_dst_ipv4_addr e)
  && (in_l4_src_port f =? in_l4_src_port e)
  && (in_l4_dst_port f =? in_l4_dst_port e)
  && (in_l4proto f =? in_l4proto e)
  && only ((isMulticast && negb SKIP_PATH34_MC_SVID) || (negb isMulticast && negb SKIP_PATH34_UCBC_SVID)) (in_stagif f =? in_stagif e)
  && (if isMulticast then rg_ctag_same SKIP_PATH34_MC_CVID SKIP_PATH34_MC_CPRI false f e
      else rg_ctag_same SKIP_PATH34_UCBC_CVID SKIP_PATH34_UCBC_CPRI false f e)
  && (in_pppoeif f =? in_pppoeif e)
  && (in_pppoe_sid_check f =? in_pppoe_sid_check e)
  && only (on (in_pppoeif e) && on (in_pppoe_sid_check e)) (in_intf_idx f =? in_intf_idx e)
  && only CHECK_PATH34_TOS (rg_tos_same f e).
Definition rg_match_path4 (isMulticast : bool) (f e : igr_pattern) : bool :=
  (in_ipv4_or_ipv6 f =? in_ipv4_or_ipv6 e)
  && (in_src_ipv4_addr f =? in_src_ipv4_addr e)
  && (in_dst_ipv4_addr f =? in_dst_ipv4_addr e)
  && (in_l4_src_port f =? in_l4_src_port e)
  && (in_l4_dst_port f =? in_l4_dst_port e)
  && (in_l4proto f =? in_l4proto e)
  && only ((isMulticast && negb SKIP_PATH34_MC_SVID) || (negb isMulticast && negb SKIP_PATH34_UCBC_SVID)) (in_stagif f =? in_stagif e)
  && (if isMulticast then rg_ctag_same SKIP_PATH34_MC_CVID SKIP_PATH34_MC_CPRI false f e
      else rg_ctag_same SKIP_PATH34_UCBC_CVID SKIP_PATH34_UCBC_CPRI false f e)
  && (in_pppoeif f =? in_pppoeif e)
  && (in_pppoe_sid_check f =? in_pppoe_sid_check e)
  && only (on (in_pppoeif e) && on (in_pppoe_sid_check e)) (in_intf_idx f =? in_intf_idx e)
  && only CHECK_PATH34_TOS (rg_tos_same f e).
Definition rg_match_path5 (f e : entry) : bool :=
  (in_ipv4_or_ipv6 (igr f) =? in_ipv4_or_ipv6 (igr e))
  && (out_l4_act (egr f) =? out_l4_act (egr e))
  && only (on (out_l4_act (egr e))) (out_l4_direction (egr f) =? out_l4_direction (egr e))
  && (in_src_ipv4_addr (igr f) =? in_src_ipv4_addr (igr e))
  && (if (in_ipv4_or_ipv6 (igr e) =? 0) && (out_l4_act (egr e) =? 1) && (out_l4_direction (egr e) =? 0)
      then in_intf_idx (igr f) =? in_intf_idx (igr e) else in_dst_ipv4_addr (igr f) =? in_dst_ipv4_addr (igr e))
  && (in_l4_src_port (igr f) =? in_l4_src_port (igr e))
  && (in_l4_dst_port (igr f) =? in_l4_dst_port (igr e))
  && (in_l4proto (igr f) =? in_l4proto (igr e))
  && only (negb SKIP_PATH5_SVID) (in_stagif (igr f) =? in_stagif (igr e))
  && rg_ctag_same SKIP_PATH5_CVID SKIP_PATH5_CPRI false (igr f) (igr e)
  && (in_pppoeif (igr f) =? in_pppoeif (igr e))
  && only (on (in_pppoeif (igr e))) (in_intf_idx (igr f) =? in_intf_idx (igr e))
  && only CHECK_PATH5_TOS (rg_tos_same (igr f) (igr e)).
Definition rg_match_path6 (f e : igr_pattern) : bool :=
  only CHECK_PATH6_SMAC_IDX (in_smac_lut_idx f =? in_smac_lut_idx e)
  && only CHECK_PATH6_DMAC_IDX (in_dmac_lut_idx f =? in_dmac_lut_idx e)
  && only (negb SKIP_PATH6_SVID) (in_stagif f =? in_stagif e)
  && rg_ctag_same SKIP_PATH6_CVID SKIP_PATH6_CPRI false f e
  && (in_pppoeif f =? in_pppoeif e)
  && (in_pppoe_sid_check f =? in_pppoe_sid_check e)
  && only (on (in_pppoeif e) && on (in_pppoe_sid_check e)) (in_pppoe_sid f =? in_pppoe_sid e)
  && (in_dsliteif f =? in_dsliteif e)
  && only CHECK_PATH6_SIP (in_src_ipv4_addr f =? in_src_ipv4_addr e)
  && only CHECK_PATH6_DIP (in_dst_ipv4_addr f =? in_dst_ipv4_addr e)
  && only CHECK_PATH6_SPORT (in_l4_src_port f =? in_l4_src_port e)
  && only CHECK_PATH6_DPORT (in_l4_dst_port f =? in_l4_dst_port e)
  && only CHECK_PATH6_PROTOCOL (in_protocol f =? in_protocol e)
  && (in_pptpif f =? in_pptpif e)
  && only CHECK_PATH6_GRE_CALL_ID (in_gre_call_id f =? in_gre_call_id e)
  && (in_l2tpif f =? in_l2tpif e)
  && only CHECK_PATH6_L2TP_TUNNEL_ID (in_l2tp_tunnel_id f =? in_l2tp_tunnel_id e)
  && only CHECK_PATH6_L2TP_SID (in_l2tp_session_id f =? in_l2tp_session_id e).

Definition _rtk_rg_flow_matchOrNot (flow : rg_flow) (e : entry) (isMulticast : bool) : bool :=
  let f := rg_ent flow in
  if negb (sw_valid flow) then false
  else if negb (bool_decide (in_path f = in_path e)) then false
  else match in_path e with
    | FB_PATH_12 =>
        if negb (in_multiple_act f =? in_multiple_act e) then false
        else if in_multiple_act e =? 0 then rg_match_path1 (igr f) (igr e) else rg_match_path2 (igr f) (igr e)
    | FB_PATH_34 =>
        if negb (in_multiple_act f =? in_multiple_act e) then false
        else if in_multiple_act e =? 0 then rg_match_path3 isMulticast (igr f) (igr e) else rg_match_path4 isMulticast (igr f) (igr e)
    | FB_PATH_5 => rg_match_path5 f e
    | FB_PATH_6 => rg_match_path6 (igr f) (igr e)
    end.

(** ** An entry and a packet *)

(** A bit of an entry says what the header of the packet says; a field that is neither 0 nor
    1 says nothing. *)
Definition agrees (field : Z) (tag : bool) : bool := negb (((field =? 0) && tag) || ((field =? 1) && negb tag)).
Definition rg_isPath1 (h : rg_pkt) : bool :=
  negb (isGatewayPacket h) && negb ((IPV4_TAGIF h || IPV6_TAGIF h) && (TCP_TAGIF h || UDP_TAGIF h)).
Definition rg_isV4OrV6 (h : rg_pkt) : Z := if IPV4_TAGIF h then 0 else 1.
Definition rg_tos_pkt (f : igr_pattern) (h : rg_pkt) : bool :=
  if CMP_TOS then in_tos f =? rg_tos h else Z.land (in_tos f) 0xfc =? Z.land (rg_tos h) 0xfc.
Definition rg_ctag_pkt (skip_cvid skip_cpri : bool) (f : igr_pattern) (h : rg_pkt) : bool :=
  if rg_bit0 then only (negb skip_cvid) (agrees (in_ctagif f) (CVLAN_TAGIF h))
  else only (negb skip_cvid || negb skip_cpri) (agrees (in_ctagif f) (CVLAN_TAGIF h))
    && only (negb skip_cpri) (in_cvlan_pri f =? ctagPri h).
Definition rg_l4_pkt (f : igr_pattern) (h : rg_pkt) : bool :=
  negb (((in_l4proto f =? 0) && negb (UDP_TAGIF h)) || ((in_l4proto f =? 1) && negb (TCP_TAGIF h))).
(** The session of the interface the flow comes from. *)
Definition rg_session_pkt (f : igr_pattern) (h : rg_pkt) : bool :=
  match wan_type (in_intf_idx f) with
  | RTK_RG_PPPoE => pppoe_sessionId (in_intf_idx f) =? sessionId h
  | RTK_RG_PPPoE_DSLITE => pppoe_dslite_sessionId (in_intf_idx f) =? sessionId h
  | RTK_RG_WAN_OTHER => false
  end.

Definition rg_pkt_path1 (smacL2Idx dmacL2Idx : Z) (f : igr_pattern) (h : rg_pkt) : bool :=
  rg_isPath1 h
  && (in_smac_lut_idx f =? smacL2Idx)
  && (in_dmac_lut_idx f =? dmacL2Idx)
  && only (negb SKIP_PATH12_SVID) (agrees (in_stagif f) (SVLAN_TAGIF h))
  && rg_ctag_pkt SKIP_PATH12_CVID SKIP_PATH12_CPRI f h
  && agrees (in_pppoeif f) (PPPOE_TAGIF h)
  && only (PPPOE_TAGIF h && (in_pppoe_sid_check f =? 1)) (in_pppoe_sid f =? sessionId h)
  && only (on (in_tos_check f)) (rg_tos_pkt f h)
  && only (on (in_spa_check f)) ((in_spa f =? ingressMacPort h) && (in_ext_spa f =? ingressMacExtPort h))
  && only (on (in_out_stream_idx_check_act f) && (ingressMacPort h =? RTK_RG_MAC_PORT_PON)) (in_out_stream_idx f =? rx_pon_stream_id h).
Definition rg_pkt_path3 (flow : rg_flow) (f : igr_pattern) (h : rg_pkt) : bool :=
  negb (rg_isPath1 h)
  && negb (negb (isLocalInNapt flow) && negb (isTrapToPs flow) && isGatewayPacket h)
  && (in_ipv4_or_ipv6 f =? rg_isV4OrV6 h)
  && (in_l4_src_port f =? rg_sport h)
  && (in_l4_dst_port f =? rg_dport h)
  && rg_l4_pkt f h
  && (if rg_isV4OrV6 h =? 0 then (in_src_ipv4_addr f =? ipv4Sip h) && (in_dst_ipv4_addr f =? ipv4Dip h)
      else (in_src_ipv4_addr f =? rg_ipv6Sip_hash h) && (in_dst_ipv4_addr f =? rg_ipv6Dip_hash h))
  && only (negb SKIP_PATH34_UCBC_SVID) (agrees (in_stagif f) (SVLAN_TAGIF h))
  && rg_ctag_pkt SKIP_PATH34_UCBC_CVID SKIP_PATH34_UCBC_CPRI f h
  && agrees (in_pppoeif f) (PPPOE_TAGIF h)
  && only (PPPOE_TAGIF h && on (in_pppoe_sid_check f)) (rg_session_pkt f h)
  && only (on (in_tos_check f)) (rg_tos_pkt f h).
Definition rg_pkt_path5 (e : entry) (h : rg_pkt) : bool :=
  let f := igr e in
  negb (rg_isPath1 h)
  && isGatewayPacket h
  && (in_ipv4_or_ipv6 f =? rg_isV4OrV6 h)
  && (in_l4_src_port f =? rg_sport h)
  && (in_l4_dst_port f =? rg_dport h)
  && (if TCP_TAGIF h || UDP_TAGIF h then rg_l4_pkt f h else (out_l4_act (egr e) =? 0) && (in_l4proto f =? 0))
  && (if rg_isV4OrV6 h =? 0
      then (in_src_ipv4_addr f =? ipv4Sip h)
        && (if (out_l4_act (egr e) =? 1) && (out_l4_direction (egr e) =? 0)
            then netif_ipAddr (in_intf_idx f) =? ipv4Dip h else in_dst_ipv4_addr f =? ipv4Dip h)
      else (in_src_ipv4_addr f =? rg_ipv6Sip_hash h) && (in_dst_ipv4_addr f =? rg_ipv6Dip_hash h))
  && only (negb SKIP_PATH5_SVID) (agrees (in_stagif f) (SVLAN_TAGIF h))
  && rg_ctag_pkt SKIP_PATH5_CVID SKIP_PATH5_CPRI f h
  && agrees (in_pppoeif f) (PPPOE_TAGIF h)
  && only (PPPOE_TAGIF h) (rg_session_pkt f h)
  && only (on (in_tos_check f)) (rg_tos_pkt f h).
(** A path-1 entry that does not accept every protocol is only warned about. *)
Definition _rtk_rg_flow_matchOrNot_byPktHdr (flow : rg_flow) (h : rg_pkt) (smacL2Idx dmacL2Idx : Z) : bool :=
  let e := rg_ent flow in
  if negb (sw_valid flow) then false
  else if in_multiple_act e =? 1 then false
  else match in_path e with
    | FB_PATH_12 => rg_pkt_path1 smacL2Idx dmacL2Idx (igr e) h
    | FB_PATH_34 => rg_pkt_path3 flow (igr e) h
    | FB_PATH_5 => rg_pkt_path5 e h
    | FB_PATH_6 => false
    end.
End Rome.
