(* ===== verification/RomeFlowSpec.v ===== *)
(** * The flows of the Rome driver: theorems

    The switch is the same, and so should be the hash and the comparison of the two
    drivers.  The comparisons are, for every flow but those of path 6; the hashes are, unless
    the sum of the fields carries twice: there the Rome driver loses the carry. *)
From S2P Require Import Prelude FcFlowKey FcFlowKeySpec FcFlowSide FcFlow FcHash FcHashSpec RomeFlow.
Open Scope Z_scope.

(** ** Sums *)

Lemma land_ones x n : 0 <= n -> Z.land x (2 ^ n - 1) = x mod 2 ^ n.
Proof. intros Hn. rewrite <- Z.land_ones, Z.ones_equiv by done. f_equal. Qed.
Lemma sum1_range a b c d : 0 <= hash_sum1 a b c d < 2 ^ 23.
Proof. unfold hash_sum1. change 0x7fffff with (2 ^ 23 - 1). rewrite land_ones by done. by apply Z.mod_pos_bound. Qed.
Lemma fold20_range x : 0 <= x < 2 ^ 23 -> 0 <= fold20 x < 2 ^ 20 + 7.
Proof.
  intros Hx. unfold fold20. change 0xfffff with (2 ^ 20 - 1). rewrite land_ones, Z.shiftr_div_pow2 by done.
  pose proof (Z.mod_pos_bound x (2 ^ 20)). pose proof (Z.div_lt_upper_bound x (2 ^ 20) 8). pose proof (Z.div_pos x (2 ^ 20)). lia.
Qed.
(** The second fold of a sum below [2 ^ 20 + 7]. *)
Lemma second_fold x : 0 <= x < 2 ^ 20 + 7 -> fold20 x = if 2 ^ 20 <=? x then x - 2 ^ 20 + 1 else x.
Proof.
  intros Hx. unfold fold20. change 0xfffff with (2 ^ 20 - 1). rewrite land_ones, Z.shiftr_div_pow2 by done.
  destruct (Z.leb_spec (2 ^ 20) x).
  - replace x with (x - 2 ^ 20 + 1 * 2 ^ 20) at 1 2 by lia. rewrite Z.mod_add, Z.div_add by done. rewrite Z.mod_small, Z.div_small by lia. lia.
  - rewrite Z.mod_small, Z.div_small by lia. lia.
Qed.

Section Spec.
Context `{FlowChecks} `{FlowSideConfig} `{FlowEnv} `{FlowHashEnv} `{RomeFlowEnv}.
(** Both drivers are told the same of the switch and of its interfaces. *)
Hypothesis same_chip : rg_bit0 = first_asic.
Hypothesis same_wan : forall i,
  match p_wanStaticInfo i with Some ip_addr => ip_addr | None => 0 end
  = let n := netif (NETIF_HWTOSW i) in if intf_valid n && on (gateway_ipv4_addr n) then gateway_ipv4_addr n else 0.

(** ** The hash *)

Lemma rg_vids_same a b s c : rg_vids a b s c = tag_item a b s c.
Proof. unfold rg_vids, tag_item. by destruct a, b. Qed.
Lemma rg_dscp_cpri_same k p x : rg_dscp_cpri k p x = cpri_item k p (dscp_item p x).
Proof. unfold rg_dscp_cpri, cpri_item, dscp_item. by destruct k, SKIP_DSCP. Qed.
Lemma rg_group_same p : rg_group_dip p = is_mc34 p.
Proof. unfold rg_group_dip, is_mc34, on. by repeat (case_match; try done). Qed.
Lemma rg_params_same e s c l : rg_params e s c l = hash_params e s c l.
Proof.
  unfold rg_params, hash_params, _rtk_rg_sw_flowHashPath12ExtraItem_get, _rtk_rg_sw_flowHashPath34ExtraItem_get,
    _rtk_rg_sw_flowHashPath5ExtraItem_get, _rtk_rg_sw_flowHashPath6ExtraItem_get, _rtk_fc_sw_flowHashPath12ExtraItem_get,
    _rtk_fc_sw_flowHashPath34ExtraItem_get, _rtk_fc_sw_flowHashPath5ExtraItem_get, _rtk_fc_sw_flowHashPath6ExtraItem_get.
  rewrite same_chip, rg_group_same. destruct (in_path e).
  - by destruct SKIP_PATH12_SVID, SKIP_PATH12_CVID, first_asic; rewrite ?rg_dscp_cpri_same.
  - by destruct (is_mc34 (igr e)), first_asic, PATH34_SKIP_DA; rewrite ?rg_dscp_cpri_same, ?rg_vids_same.
  - unfold rg_params5, hashed_dip5, naptr. rewrite same_wan. by destruct first_asic; rewrite ?rg_dscp_cpri_same, ?rg_vids_same.
  - by destruct first_asic, SKIP_PATH6_SA, SKIP_PATH6_DA; rewrite ?rg_dscp_cpri_same, ?rg_vids_same.
Qed.
Lemma rg_mode_same sum x : rg_mode_index sum x = hash_index sum x.
Proof. done. Qed.

(** What the fields of an entry add up to, after the first fold. *)
Definition folded_sum (e : entry) (igrSVID igrCVID lutDaIdx_gmacChk : Z) : Z :=
  let '(param1, param2, param3, param4, _) := hash_params e igrSVID igrCVID lutDaIdx_gmacChk in
  fold20 (hash_sum1 (_rtk_rg_flowHashPreProcessPort param1 (preHashPtn PTN_SPORT)) (_rtk_rg_flowHashPreProcessPort param2 (preHashPtn PTN_DPORT))
            (_rtk_rg_flowHashPreProcessIP param3 (preHashPtn PTN_SIP)) (_rtk_rg_flowHashPreProcessIP param4 (preHashPtn PTN_DIP))).

Lemma land_21 x : 0 <= x < 2 ^ 21 -> Z.land x 0x1fffff = x.
Proof. intros Hx. change 0x1fffff with (2 ^ 21 - 1). rewrite land_ones by done. by apply Z.mod_small. Qed.
Lemma sums_compared a b c d : let x := fold20 (hash_sum1 a b c d) in
  0 <= x < 2 ^ 20 + 7 /\ hash_sum a b c d = (if 2 ^ 20 <=? x then x - 2 ^ 20 + 1 else x) /\ rg_sum a b c d = if 2 ^ 20 <=? x then x - 2 ^ 20 else x.
Proof.
  intros x. assert (0 <= x < 2 ^ 20 + 7) as Hx by apply fold20_range, sum1_range. split; [done|].
  unfold hash_sum, rg_sum, rg_sum2. change (rg_sum1 a b c d) with (hash_sum1 a b c d). fold (fold20 (hash_sum1 a b c d)). fold x.
  rewrite (land_21 x) by lia. rewrite second_fold, Z.shiftr_0_l, Z.add_0_r by done. change 0xfffff with (2 ^ 20 - 1). rewrite land_ones by done.
  destruct (Z.leb_spec (2 ^ 20) x).
  - rewrite land_21 by lia. split; [done|]. replace x with (x - 2 ^ 20 + 1 * 2 ^ 20) at 1 by lia. rewrite Z.mod_add by done.
    rewrite Z.mod_small by lia. apply land_21. lia.
  - rewrite land_21 by lia. split; [done|]. rewrite Z.mod_small by lia. apply land_21. lia.
Qed.
Lemma lxor_cancel x y z : Z.lxor x z = Z.lxor y z -> x = y.
Proof. intros E. by rewrite <- (lxor_again x z), E, lxor_again. Qed.
(** The carry changes the hash. *)
Lemma index_moves s x : 0 <= s <= 6 -> hash_index s x <> hash_index (s + 1) x.
Proof.
  intros Hs. assert (s = 0 \/ s = 1 \/ s = 2 \/ s = 3 \/ s = 4 \/ s = 5 \/ s = 6) as Hcases by lia. unfold hash_index. destruct fbMode.
  - rewrite !Z.shiftl_mul_pow2 by done. intros E%Z.mul_reg_r; [|done].
    apply lxor_cancel, lxor_cancel, lxor_cancel in E. by destruct Hcases as [->|[->|[->|[->|[->|[->| ->]]]]]].
  - intros E%lxor_cancel%lxor_cancel. by destruct Hcases as [->|[->|[->|[->|[->|[->| ->]]]]]].
  - intros E%lxor_cancel%lxor_cancel. by destruct Hcases as [->|[->|[->|[->|[->|[->| ->]]]]]].
  - intros E%lxor_cancel%lxor_cancel. by destruct Hcases as [->|[->|[->|[->|[->|[->| ->]]]]]].
Qed.
Lemma step2_same z : _rtk_rg_sw_flowHashIndexStep2_get z = _rtk_fc_sw_flowHashIndexStep2_get z.
Proof. done. Qed.
Lemma step2_inj `{!FlowHashLaws} y z : hash_ok y -> hash_ok z ->
  _rtk_fc_sw_flowHashIndexStep2_get y = _rtk_fc_sw_flowHashIndexStep2_get z -> y = z.
Proof.
  unfold hash_ok, _rtk_fc_sw_flowHashIndexStep2_get. destruct fbMode; [|intros _ _; apply lxor_cancel..].
  intros (a & _ & ->) (b & _ & ->). rewrite !Z.shiftl_mul_pow2, !Z.shiftr_div_pow2 by lia. change (2 ^ 2) with 4. rewrite !Z.div_mul by lia.
  intros E%Z.mul_reg_r; [|done]. by apply lxor_cancel in E as ->.
Qed.

Lemma carry_matters y x : 0 <= y < 2 ^ 20 + 7 ->
  hash_index (if 2 ^ 20 <=? y then y - 2 ^ 20 else y) x = hash_index (if 2 ^ 20 <=? y then y - 2 ^ 20 + 1 else y) x <-> y < 2 ^ 20.
Proof.
  intros Hy. destruct (Z.leb_spec (2 ^ 20) y) as [Hl|Hl]; [|by split].
  split; [|lia]. intros E. exfalso. apply (index_moves (y - 2 ^ 20) x); [lia|done].
Qed.
Lemma step1_alike p1 p2 p3 p4 x : 
  _rtk_rg_sw_flowHashIndexStep1_get p1 p2 p3 p4 x = _rtk_fc_sw_flowHashIndexStep1_get p1 p2 p3 p4 x
  <-> fold20 (hash_sum1 (_rtk_rg_flowHashPreProcessPort p1 (preHashPtn PTN_SPORT)) (_rtk_rg_flowHashPreProcessPort p2 (preHashPtn PTN_DPORT))
        (_rtk_rg_flowHashPreProcessIP p3 (preHashPtn PTN_SIP)) (_rtk_rg_flowHashPreProcessIP p4 (preHashPtn PTN_DIP))) < 2 ^ 20.
Proof.
  unfold _rtk_rg_sw_flowHashIndexStep1_get, _rtk_fc_sw_flowHashIndexStep1_get. cbv zeta.
  destruct (sums_compared (_rtk_rg_flowHashPreProcessPort p1 (preHashPtn PTN_SPORT))
    (_rtk_rg_flowHashPreProcessPort p2 (preHashPtn PTN_DPORT)) (_rtk_rg_flowHashPreProcessIP p3 (preHashPtn PTN_SIP))
    (_rtk_rg_flowHashPreProcessIP p4 (preHashPtn PTN_DIP))) as (Hr & -> & ->).
  rewrite rg_mode_same. by apply carry_matters.
Qed.
Lemma step2_alike `{!FlowHashLaws} (second : bool) y z : hash_ok y -> hash_ok z ->
  (if second then _rtk_rg_sw_flowHashIndexStep2_get y else y) = (if second then _rtk_fc_sw_flowHashIndexStep2_get z else z) <-> y = z.
Proof. intros Hy Hz. rewrite step2_same. destruct second; [|done]. split; [by apply step2_inj|by intros ->]. Qed.

Lemma rg_step1_ok p1 p2 p3 p4 x : hash_ok (_rtk_rg_sw_flowHashIndexStep1_get p1 p2 p3 p4 x).
Proof. unfold _rtk_rg_sw_flowHashIndexStep1_get. cbv zeta. rewrite rg_mode_same. apply hash_index_ok. Qed.
Lemma fc_step1_ok p1 p2 p3 p4 x : hash_ok (_rtk_fc_sw_flowHashIndexStep1_get p1 p2 p3 p4 x).
Proof. unfold _rtk_fc_sw_flowHashIndexStep1_get. cbv zeta. apply hash_index_ok. Qed.

(** C27: the two drivers compute the same hash of an entry exactly when the sum of its fields
    does not carry out of twenty bits when it is folded; when it does, the Rome driver looks
    in another bucket than the switch. *)
Theorem drivers_hash_alike `{!FlowHashLaws} e igrSVID igrCVID gmac :
  _rtk_rg_flow_hashIndex e igrSVID igrCVID gmac = _rtk_fc_flow_hashIndex e igrSVID igrCVID gmac
  <-> folded_sum e igrSVID igrCVID gmac < 2 ^ 20.
Proof.
  unfold _rtk_rg_flow_hashIndex, _rtk_fc_flow_hashIndex, folded_sum. rewrite rg_params_same.
  destruct (hash_params e igrSVID igrCVID gmac) as [[[[p1 p2] p3] p4] x]. rewrite <- (step1_alike p1 p2 p3 p4 x).
  apply step2_alike; [apply rg_step1_ok|apply fc_step1_ok].
Qed.
Lemma rome_hash_in_table `{!FlowHashLaws} e s c l : hash_ok (_rtk_rg_flow_hashIndex e s c l).
Proof.
  unfold _rtk_rg_flow_hashIndex. destruct (rg_params e s c l) as [[[[p1 p2] p3] p4] x]. fold (second_action e).
  pose proof (rg_step1_ok p1 p2 p3 p4 x). destruct (second_action e); [by apply step2_ok|done].
Qed.

(** ** Comparing entries *)

(** A port field of an entry is the port. *)
Hypothesis same_port : forall p, PATH12_SPA p = p.
(** The drivers ask for the stream of a bridged flow in different words: the flow cache when
    both ports are in its mask of WAN ports, the Rome driver when both are the PON port and
    that is in GPON mode. *)
Definition same_stream_ports (f e : igr_pattern) : Prop := CHECK_PATH12_STREAM_IDX = true ->
  wan_port (in_spa f) && wan_port (in_spa e) =
  wanPortGponMode && (in_spa f =? RTK_RG_MAC_PORT_PON) && (in_spa e =? RTK_RG_MAC_PORT_PON).

Lemma rg_tos_alike f e : rg_tos_same f e = (tos_part (in_tos f) =? tos_part (in_tos e)).
Proof. unfold rg_tos_same, tos_part. by destruct CMP_TOS. Qed.
Lemma rg_pon_alike f e : same_stream_ports f e -> rg_pon_both f e = both_wan f e.
Proof.
  unfold same_stream_ports, rg_pon_both, both_wan. rewrite same_port.
  destruct CHECK_PATH12_STREAM_IDX; simpl; [|done]. by intros ->.
Qed.
Lemma rg_ctag_bridge f e : rg_ctag_same SKIP_PATH12_CVID SKIP_PATH12_CPRI true f e = same_ctag12 f e.
Proof. unfold rg_ctag_same, same_ctag12, only. rewrite same_chip. by destruct SKIP_PATH12_CVID, first_asic, (in_ctagif f =? _). Qed.
Lemma rg_ctag_34 (mc : bool) f e :
  (if mc then rg_ctag_same SKIP_PATH34_MC_CVID SKIP_PATH34_MC_CPRI false f e
   else rg_ctag_same SKIP_PATH34_UCBC_CVID SKIP_PATH34_UCBC_CPRI false f e) = same_ctag34 mc f e.
Proof.
  unfold rg_ctag_same, same_ctag34, only, care_cvid34, care_cpri34. rewrite same_chip.
  destruct mc, first_asic; simpl; rewrite ?andb_true_r, ?andb_false_r; simpl; by rewrite ?andb_true_r.
Qed.
Lemma rg_care_34 mc : (mc && negb SKIP_PATH34_MC_SVID) || (negb mc && negb SKIP_PATH34_UCBC_SVID) = care_svid34 mc.
Proof. unfold care_svid34. destruct mc; simpl; by rewrite ?orb_false_r. Qed.

(** Conjunctions of the same comparisons, in whatever order. *)
Ltac comparisons := apply eq_true_iff_eq; rewrite ?andb_true_iff; tauto.

Lemma rg_path1_alike f e : same_stream_ports f e -> rg_match_path1 f e = match_path1 f e.
Proof.
  intros Hs. unfold rg_match_path1, match_path1, same_pppoe_sid, same_port12. rewrite rg_ctag_bridge, rg_tos_alike, rg_pon_alike, same_port by done. comparisons.
Qed.
Lemma rg_path2_alike f e : same_stream_ports f e -> rg_match_path2 f e = match_path2 f e.
Proof.
  intros Hs. unfold rg_match_path2, match_path2, same_pppoe_sid, same_port12. rewrite rg_ctag_bridge, rg_tos_alike, rg_pon_alike, same_port by done. comparisons.
Qed.
Lemma rg_path3_alike mc f e : rg_match_path3 mc f e = match_path3 mc f e.
Proof.
  unfold rg_match_path3, match_path3, same_tuple34, same_pppoe_intf. rewrite rg_ctag_34, rg_care_34, rg_tos_alike. comparisons.
Qed.
Lemma rg_path4_alike mc f e : rg_match_path4 mc f e = match_path4 mc f e.
Proof. exact (rg_path3_alike mc f e). Qed.
Lemma rg_path5_alike f e : rg_match_path5 f e = match_path5 f e.
Proof.
  unfold rg_match_path5, match_path5. fold (naptr e). rewrite rg_tos_alike. unfold rg_ctag_same, only. rewrite same_chip, !andb_false_r. simpl.
  destruct (naptr e), first_asic; simpl; rewrite ?andb_true_r; comparisons.
Qed.

(** C26: the two drivers take the same entries for the same flow, in every layout but that of
    path 6, for every choice of the fields that are compared, on the same generation of the
    chip and when a port field of an entry is the port.  For bridged flows they must also
    agree on when the stream is asked for: the flow cache asks when both ports are WAN ports
    of its mask, the Rome driver when both are the PON port in GPON mode.  Where these differ
    the drivers do ([wan_ports_differ]). *)
Theorem drivers_match_alike flow e isMulticast : sw_valid flow = true -> in_path e <> FB_PATH_6 ->
  (in_path e = FB_PATH_12 -> same_stream_ports (igr (rg_ent flow)) (igr e)) ->
  _rtk_rg_flow_matchOrNot flow e isMulticast = _rtk_fc_flow_matchOrNot_hw_fields (rg_ent flow) e isMulticast.
Proof.
  intros Hv Hp Hs. unfold _rtk_rg_flow_matchOrNot, _rtk_fc_flow_matchOrNot_hw_fields. rewrite Hv. simpl.
  destruct (bool_decide _); simpl; [|done]. destruct (in_path e); [| |apply rg_path5_alike|done].
  - destruct (in_multiple_act (rg_ent flow) =? _); simpl; [|done]. by rewrite rg_path1_alike, rg_path2_alike by auto.
  - destruct (in_multiple_act (rg_ent flow) =? _); simpl; [|done]. by rewrite rg_path3_alike, rg_path4_alike.
Qed.
End Spec.

(** ** Packets of the Rome driver *)
Section Packets.
Context `{FlowChecks} `{FlowHashEnv} `{RomeFlowEnv}.

(** The layout of the flows a packet matches: frames, bridged connections and routed ones are
    told apart by the packet, but for the flows to the device itself. *)
Lemma rome_packet_layout flow h sa da : _rtk_rg_flow_matchOrNot_byPktHdr flow h sa da = true ->
  match in_path (rg_ent flow) with
  | FB_PATH_12 => rg_isPath1 h = true
  | FB_PATH_34 => rg_isPath1 h = false /\ (isGatewayPacket h = true -> isLocalInNapt flow = true \/ isTrapToPs flow = true)
  | FB_PATH_5 => isGatewayPacket h = true
  | FB_PATH_6 => False
  end.
Proof.
  unfold _rtk_rg_flow_matchOrNot_byPktHdr. destruct (sw_valid flow); simpl; [|done]. destruct (_ =? 1); [done|].
  destruct (in_path (rg_ent flow)); [| | |done].
  - unfold rg_pkt_path1. rewrite !andb_true_iff. tauto.
  - unfold rg_pkt_path3. rewrite !andb_true_iff, !negb_true_iff. intros Hall.
    split; [tauto|]. destruct Hall as (((((((((((_ & Hg) & _) & _) & _) & _) & _) & _) & _) & _) & _) & _). intros Hgw. rewrite Hgw in Hg.
    destruct (isLocalInNapt flow), (isTrapToPs flow); auto.
  - unfold rg_pkt_path5. rewrite !andb_true_iff. tauto.
Qed.
(** Two flows of the table that a packet of a connection matches have its addresses and ports. *)
Lemma rome_packet_tuple flow h sa da : _rtk_rg_flow_matchOrNot_byPktHdr flow h sa da = true -> in_path (rg_ent flow) = FB_PATH_34 ->
  let p := igr (rg_ent flow) in
  in_l4_src_port p = rg_sport h /\ in_l4_dst_port p = rg_dport h /\
  (IPV4_TAGIF h = true -> in_ipv4_or_ipv6 p = 0 /\ in_src_ipv4_addr p = ipv4Sip h /\ in_dst_ipv4_addr p = ipv4Dip h) /\
  (IPV4_TAGIF h = false -> in_ipv4_or_ipv6 p = 1 /\ in_src_ipv4_addr p = rg_ipv6Sip_hash h /\ in_dst_ipv4_addr p = rg_ipv6Dip_hash h).
Proof.
  unfold _rtk_rg_flow_matchOrNot_byPktHdr. intros Hm Hp. destruct (sw_valid flow); simpl in Hm; [|done]. destruct (_ =? 1); [done|].
  rewrite Hp in Hm. unfold rg_pkt_path3, rg_isV4OrV6 in Hm. rewrite !andb_true_iff, !Z.eqb_eq in Hm.
  destruct (IPV4_TAGIF h); simpl in Hm; rewrite andb_true_iff, !Z.eqb_eq in Hm; repeat split; intros; try done; tauto.
Qed.
End Packets.

(** ** Both drivers on the chip of [FcHashSpec]

    The second port is the WAN port. *)
#[local] Existing Instances chip_checks chip_sides chip_env chip_hash chip_laws.
#[local] Instance chip_rome : RomeFlowEnv := {|
  rg_bit0 := false; p_wanStaticInfo := fun _ => None; netif_ipAddr := fun _ => 0; wan_type := fun _ => RTK_RG_PPPoE;
  pppoe_sessionId := fun _ => 0; pppoe_dslite_sessionId := fun _ => 0; wanPortGponMode := true; RTK_RG_MAC_PORT_PON := 1 |}.
Lemma chip_is_later : rg_bit0 = first_asic.
Proof. done. Qed.
Lemma chip_same_wan i :
  match p_wanStaticInfo i with Some ip_addr => ip_addr | None => 0 end
  = let n := netif (NETIF_HWTOSW i) in if intf_valid n && on (FcHash.gateway_ipv4_addr n) then FcHash.gateway_ipv4_addr n else 0.
Proof. done. Qed.
Lemma chip_stream_ports f e : same_stream_ports f e.
Proof.
  assert (forall p, wan_port p = (p =? 1)) as Hw.
  { intros p. unfold wan_port, on. change wanPortMask with (2 ^ 1). destruct (Z.ltb_spec p 0) as [Hp|Hp].
    { rewrite Z.shiftl_div_pow2, Z.div_small by (pose proof (Z.pow_gt_1 2 (- p)); lia). simpl. symmetry. apply Z.eqb_neq. lia. }
    rewrite Z.shiftl_1_l. destruct (Z.eqb_spec p 1) as [->|Hn]; [done|]. apply negb_false_iff, Z.eqb_eq, Z.bits_inj'.
    intros i Hi. rewrite Z.land_spec, Z.bits_0, !Z.pow2_bits_eqb by done. destruct (Z.eqb_spec p i), (Z.eqb_spec 1 i); [lia|done..]. }
  intros _. by rewrite !Hw.
Qed.

(** A connection between two addresses. *)
Definition connection (sip dip : Z) : entry :=
  Entry true false FB_PATH_34 0 (Igr 0 0 0 0 0 0 0 0 0 0 0 0 0 0 0 0 0 0 0 0 sip dip 33 80 1 0 0 0 0 0 0 0 0 0) egr0.
Lemma drivers_hash_alike_witness :
  let e := connection 0x0a000001 0x0a000002 in
  folded_sum e 0 0 0 < 2 ^ 20 /\ _rtk_rg_flow_hashIndex e 0 0 0 = _rtk_fc_flow_hashIndex e 0 0 0.
Proof. cbv zeta. split; [done|]. apply (drivers_hash_alike chip_is_later chip_same_wan). done. Defined.
(** From 10.15.255.255 to 10.15.254.79: the Rome driver looks in another bucket. *)
Example carry_is_lost :
  let e := connection 0x0a0fffff 0x0a0ffe4f in
  folded_sum e 0 0 0 = 2 ^ 20 /\ _rtk_fc_flow_hashIndex e 0 0 0 = 36 /\ _rtk_rg_flow_hashIndex e 0 0 0 = 32.
Proof. by vm_compute. Qed.

Definition sent_from (port stream : Z) : rg_flow := RgFlow true false false (bridged port stream).
Lemma drivers_match_alike_witness :
  _rtk_rg_flow_matchOrNot (sent_from 1 7) (bridged 1 8) false = false /\
  _rtk_rg_flow_matchOrNot (sent_from 1 7) (bridged 1 8) false = _rtk_fc_flow_matchOrNot_hw_fields (rg_ent (sent_from 1 7)) (bridged 1 8) false.
Proof.
  split; [done|]. apply (drivers_match_alike chip_is_later (fun p => eq_refl) (sent_from 1 7)); [done|done|]. intros _. apply chip_stream_ports.
Defined.
(** Not in GPON mode the Rome driver takes a frame of another stream of the WAN port for the
    flow, the flow cache does not. *)
Definition epon_rome : RomeFlowEnv := {|
  rg_bit0 := false; p_wanStaticInfo := fun _ => None; netif_ipAddr := fun _ => 0; wan_type := fun _ => RTK_RG_PPPoE;
  pppoe_sessionId := fun _ => 0; pppoe_dslite_sessionId := fun _ => 0; wanPortGponMode := false; RTK_RG_MAC_PORT_PON := 1 |}.
Example wan_ports_differ :
  @_rtk_rg_flow_matchOrNot _ epon_rome (sent_from 1 7) (bridged 1 8) false = true /\
  _rtk_fc_flow_matchOrNot_hw_fields (rg_ent (sent_from 1 7)) (bridged 1 8) false = false.
Proof. by vm_compute. Qed.
(** In the layout of path 6 they differ both ways: only the Rome driver compares a GRE call
    when there is no PPTP, and only the other one whether the tunnel is 6rd. *)
Definition tunnel_of (rd call : Z) : entry :=
  Entry true false FB_PATH_6 0 (Igr 0 0 0 0 0 0 0 0 0 0 0 0 0 0 0 0 0 0 0 0 0 0 0 0 0 0 0 rd 0 0 call 0 0 0) egr0.
Example path6_differs :
  let rg c e := _rtk_rg_flow_matchOrNot (RgFlow true false false c) e false in let fc c e := _rtk_fc_flow_matchOrNot_hw_fields c e false in
  rg (tunnel_of 0 5) (tunnel_of 0 6) = false /\ fc (tunnel_of 0 5) (tunnel_of 0 6) = true /\
  rg (tunnel_of 0 5) (tunnel_of 1 5) = true /\ fc (tunnel_of 0 5) (tunnel_of 1 5) = false.
Proof. by vm_compute. Qed.
